(* ===== verification/_CoqProject ===== *)
-Q . S2P
Prelude.v
EncAes.v
RelKeys.v
EncTuple.v
EncClaims.v
KeyringTypes.v
KeyringProviders.v
KeyringApi.v
KeyringProps.v
KeyringClaims.v
XactHandler.v
XactClaims.v
TdeMap.v
TdeProps.v
TdeClaims.v
TupleIO.v
TupleClaims.v
Visibility.v
VisibilityProps.v
VisibilityHints.v
VisibilitySpec.v
VisibilityRules.v
VisibilityClaims.v
VisibilityMap.v
VisibilityMapProps.v
VisibilityMapOps.v
VisibilityMapClaims.v
Prune.v
PruneProps.v
PruneClaims.v
HotChain.v
HotProps.v
HotWalk.v
HotScan.v
PagePrune.v
HotPlan.v
HotSearch.v
HotHtsv.v
HotPage.v
HotClaims.v
LockFlags.v
MultiXact.v
MultiXactProps.v
MultiXactClaims.v
Freeze.v
FreezePage.v
FreezeProps.v
FreezePrepare.v
FreezeClaims.v
Vacuum.v
VacuumProps.v
VacuumScan.v
VacuumClaims.v
TupleBytes.v
Toast.v
ToastProps.v
ToastClaims.v
HeapToy.v
Target.v
TargetProps.v
TargetLoop.v
TargetClaims.v
Insert.v
InsertProps.v
InsertMulti.v
InsertPages.v
InsertClaims.v
TupleStore.v
Delete.v
DeleteFree.v
DeleteProps.v
DeleteLoop.v
DeleteDone.v
DeleteReplay.v
DeleteClaims.v
RowLock.v
RowLockFine.v
RowLockChain.v
RowLockLoop.v
RowLockClaims.v
