(* ===== verification/Prelude.v ===== *)
(** * pg_tde: transparent data encryption for PostgreSQL, verified parts

    pg_tde is a PostgreSQL extension: a table access method that stores
    tuples encrypted.  This library models the parts of its C code (under
    src/src/) that are the extension's own logic or that decide what data
    is kept, and proves what makes them correct.

    ** How the program works

    A tuple is encrypted with a stream cipher whose key stream depends on
    the key of the relation and the position of the byte in the file
    (encryption/).  The key of a relation is in its key fork, a file beside
    its main fork, encrypted with a master key (access/pg_tde_tdemap.c); a
    backend caches the keys it has read.  Master keys come from the keyring
    (keyring/), a cache in shared memory in front of a file or a vault
    server.  Key forks are created and removed with the transaction that
    creates or drops the relation (transam/).  Since moving a tuple on its
    page changes its key stream, compacting a page encrypts again what it
    moves (access/pg_tde_prune.c).  Which tuples a scan sees and which
    VACUUM removes is decided by the visibility routines
    (access/pg_tdeam_visibility.c) and remembered per heap block in the
    visibility map (access/pg_tde_visibilitymap.c).

    ** Files

    The files follow the calls of the program; each requires this one and
    the components it calls.  A component has its definitions in one file,
    named after the C functions, reasoning about them in [...Props],
    [...Hints], [...Ops] and the like, and its properties, with a witness at
    a concrete input for each one that has a hypothesis, in [...Claims].

    - [Prelude]: machine integers, outcomes and the monad, bytes and
      buffers, lists, xor; the hint databases [tde] and [tde_rw].
    - [EncAes]: encryption/enc_aes.c.  [AesRun2] (ECB, the key stream),
      [AesRun] (CBC, for keys), [Aes128EncryptedZeroBlocks].
    - [RelKeys]: the structures of include/access/pg_tde_tdemap.h and their
      memory image.
    - [EncTuple]: encryption/enc_tuple.c and enc_tuple.h, the functions that
      need a key only: [pg_tde_crypt], [pg_tde_move_encrypted_data],
      [pg_tde_crypt_tuple] and the macros.  [EncClaims]: the properties of
      both.
    - [KeyringTypes], [KeyringProviders], [KeyringApi]: keyring/.  The data
      and the interfaces of json-c, libcurl, base64 and files; the
      configuration, file and vault code; the cache and the API.
      [KeyringProps], [KeyringClaims].
    - [XactHandler]: transam/pg_tde_xact_handler.c, on a heap of list nodes.
      [XactClaims].
    - [TdeMap]: access/pg_tde_tdemap.c.  [TdeProps], [TdeClaims].
    - [TupleIO]: the functions of enc_tuple.c that use the page layer and
      the keys cache.  [TupleClaims].
    - [Visibility]: access/pg_tdeam_visibility.c, all routines.
      [VisibilityProps] (a calculus of weakest preconditions that follows a
      routine through time), [VisibilityHints], [VisibilitySpec] (the MVCC
      rule and the rule for updates), [VisibilityRules], [VisibilityClaims].
    - [VisibilityMap]: access/pg_tde_visibilitymap.c, and log_pg_tde_visible
      of access/pg_tdeam.c.  [VisibilityMapProps], [VisibilityMapOps],
      [VisibilityMapClaims].
    - [Prune]: pgtde_compactify_tuples and TdePageRepairFragmentation of
      access/pg_tde_prune.c.  [PruneProps], [PruneClaims].
    - [HotChain]: the chains of pg_tde_prune.c (heap_prune_chain and the
      record functions, page_verify_redirects, pg_tde_get_root_tuples) and
      pg_tde_hot_search_buffer of pg_tdeam.c, on the line pointers and tuple
      headers of a page.  [PagePrune]: what surrounds them: the verdicts with
      the old snapshot threshold, pg_tde_page_prune with its WAL record, and
      the replay in pg_tdeam.c (pg_tde_xlog_prune, pg_tde_xlog_vacuum).
      [HotProps], [HotWalk] (one chain), [HotScan] (all of them), [HotPlan]
      (carrying the plan out), [HotSearch], [HotHtsv], [HotPage],
      [HotClaims].
    - [LockFlags]: flags of tuple headers that locks and freezing share.
      [MultiXact]: compute_new_xmax_infomask, compute_infobits, the members
      of multixacts, conflicts and waiting, of pg_tdeam.c.  [MultiXactProps],
      [MultiXactClaims].
    - [Freeze]: freezing in pg_tdeam.c, from FreezeMultiXactId and
      pg_tde_prepare_freeze_tuple to pg_tde_freeze_execute_prepared, its
      record and pg_tde_xlog_freeze_page.  [FreezePage],
      [FreezeProps], [FreezePrepare], [FreezeClaims].
    - [Vacuum]: access/pg_tde_vacuumlazy.c, what it does to a block:
      lazy_scan_skip, lazy_scan_prune, lazy_scan_noprune,
      lazy_vacuum_pg_tde_page, pg_tde_page_is_all_visible; the end of the
      table (count_nondeletable_pages, lazy_truncate_heap) and the room for
      dead items.  It runs [PagePrune], [Freeze], [Visibility] and
      [VisibilityMap] on their parts of its state.  [VacuumProps],
      [VacuumScan] (the scan of lazy_scan_prune), [VacuumClaims].
    - [TupleBytes]: tuple headers as bytes; the page layer of heap pages.
    - [Toast]: pg_tde_fetch_toast_slice and pg_tde_toast_tuple_externalize
      of access/pg_tdetoast.c.  [ToastProps], [ToastClaims].
    - [HeapToy]: heap pages on which what the code relies on holds.
    - [Target]: the page a tuple goes to, access/pg_tde_io.c from
      ReadBufferBI to pg_tde_RelationGetBufferForTuple, with other backends
      acting whenever this one waits.  [TargetProps] (what others may do, a
      rule for each operation), [TargetLoop], [TargetClaims].
    - [Insert]: pg_tde_insert, pg_tde_multi_insert and the replay of their
      records in pg_tdeam.c, pg_tde_RelationPutHeapTuple of
      access/pg_tde_io.c.  [InsertProps], [InsertMulti] (the record of a
      multi-insert), [InsertPages] (a page, the rounds), [InsertClaims].
    - [TupleStore]: pages by block with their items, shared with other
      backends that act while this one waits for a content lock.  [Delete]:
      pg_tde_delete, simple_pg_tde_delete, replica identities, speculative
      insertions and the replay of their records in pg_tdeam.c, and
      pg_tde_toast_delete of pg_tdetoast.c.  [DeleteFree]
      (what TM_Ok says of those who hold the tuple), [DeleteProps] (a rule
      for each operation on the store, what others may do, what holds
      between the steps), [DeleteLoop] (the verdict), [DeleteDone] (what follows it), [DeleteReplay] (of the record; the end
      of a speculative insertion), [DeleteClaims].
    - [RowLock]: pg_tde_lock_tuple and pg_tde_lock_updated_tuple of
      pg_tdeam.c, the replay of their records, and pg_tde_fetch as they use
      it, on the same store.  [RowLockFine] (what the holders of a row mean
      for a mode, and that a row with a new xmax is as rows are),
      [RowLockChain] (later versions), [RowLockLoop] (the verdict),
      [RowLockClaims].

    ** Conventions

    Integers are [Z] with the conversions of C written out ([u8], [u32],
    [int32]); a byte is a [Z] below 256 and a buffer a [list Z].  Stateful
    code is a function of the monad [M S] (rules: [wp], [twp], and [alike]
    for two runs side by side), whose outcome is a value, an error
    that leaves the caller (ereport, with the state reached so far),
    undefined behaviour (an access outside a buffer, a freed node), or a
    loop bound that ran out.  A state is a record with the program's
    variables: [KeyringState] (cache, configuration variables, files),
    [XactState] (list head, heap of nodes, files, nest level), [TdeState]
    (the two before, key forks, keys cache, WAL), [VisState] (header and
    clock), [VmState] (fork, cached size, pins, WAL), [PruneState] (keys,
    page, scratch buffer), [PruneWork] and the page state around it,
    [ToastState] (values in memory, the TOAST table), [InsertState] (keys,
    map, pages by block, WAL, free space map), [TargetState] (map, pages, and
    the size, free space map, locks and pins of the relation), [StoreState]
    (items by block, map, locks, WAL), [VacState] (a page, the map, multixacts,
    VACUUM's own variables, the WAL of freezing and vacuuming).  [zoom] runs
    code of a component on its part of the state of its caller.

    ** What stands for other code

    Everything outside the repository is a class, with what the program
    relies on in a second class where it relies on something; each has an
    instance on concrete functions in a [Toy...] module, which the witnesses
    use.  [EVP], [EVPLaws]: OpenSSL (a context holds key and mode; ECB
    encrypts block by block; CBC decryption undoes encryption).  [CIntShift]:
    what shifting an int by its width and more gives; C does not say, and
    the theorems hold for any result.  [PgBlockSize]: the page size.
    [Json], [Base64], [Curl], [KeyringFs], [TdeEnv], [Unlink]: libraries and
    system calls with their failures.  [PageOps], [PageMacros], [HtupFlags],
    [VmEnv], [LockFlags], [ToastMacros], [HeapPageOps] with [HeapPageLaws]:
    PostgreSQL's headers and page routines.  [InsertTargets] with
    [InsertTargetLaws]: a page with room for a tuple.  [StoreEnv]: settings,
    combo command ids, forming and deforming tuples.  [OtherBackends] and
    [Interference]: what others do while this backend waits, with
    [TargetLaws] and [StoreLaws]: they leave locked pages alone, and rows of
    pinned pages where they are.  [VacEnv], [TruncateLaws],
    [VacSizes], [TruncEnv]: settings and page routines VACUUM uses, and what
    others do to the table until its lock is had.  [ToastServer]: the
    chunks of a TOAST table.  [World], [WorldLaws]:
    transactions of other backends over time; what ended stays ended, and
    what a snapshot takes as over was over when it was taken, and is from
    then on.

    ** What is shown

    - Encryption: the batched cipher with cached contexts is the reference
      stream cipher at any alignment; any slice decrypts on its own; moving
      re-encrypts; positions of the first 4 GB have key streams of their own
      and later ones repeat them.  A tuple added to a page is fetched as it
      was.
    - Keyring: the cache stays well formed through any calls without
      undefined behaviour, which storing a 1025th key is; versions of a key are found and generated in order, and the searches end; stored
      keys survive a restart of the file provider; names determine keys;
      a configuration that loads names a provider of the code; URLs fit.
    - Key forks: what is written is read; files of the wrong size are
      refused; forks follow the transaction; recovery writes the same fork.
    - Pending deletes: memory safety and the exact effect of each pass; a
      refinement of a stack of subtransactions, for runs in which released
      savepoints made no request, and a run with such a request where the
      code departs from it.
    - Visibility: all routines keep hint bits sound; MVCC, update, dirty and
      vacuum verdicts are true whatever transactions do between the
      questions.  The theorems are about tuples without the flags of the
      VACUUM FULL of releases before 9.0; the definitions have them.
    - Visibility map: set, clear, read and truncate act on exactly the bits
      of their heap blocks; frozen implies visible.
    - Compaction: right for tuples of one length without null bitmaps,
      whatever their order, and not for others; it gives the same page to
      every server that has the key.
    - Pruning: the scan ends with a plan that removes only what no one sees
      and every dead tuple it can reach, leaves chains well formed and every
      search with its result; replay, by a server with a key cache of its
      own, does the same to the byte.
    - Locks: the xmax of a locked tuple keeps every holder that counts;
      conflicts are found and waiting clears them.
    - Freezing: nothing old is left in a frozen tuple, the trackers account
      for the others; a failed check changes nothing; replay freezes alike.
    - Vacuuming: only blocks that may be left out are, and the choice is
      remembered where it matters; dead items are listed exactly, freed and
      freed alike by replay; a page is marked all-visible only when every
      later snapshot sees all of it; the ids that stay on a page hold
      relfrozenxid back; only empty pages are given back, and giving them
      back ends.
    - TOAST: values come back whole; no row can make the fetch leave its
      buffers; slices from the middle come back garbled.
    - Insertion targets: whatever others do, the page that is chosen is
      locked, pinned and has room, its map page is pinned where needed, locks
      are asked for in order and I/O is done without one; alone, the search
      ends.
    - Deleting: whatever others do while it waits, only a tuple that nobody
      else holds and nobody has deleted is deleted, in a header that keeps
      who still counts; a failure changes nothing and says why; replay gives
      the same holders; alone, it ends.  The tuple of a failed speculative
      insertion is dead for everyone at once.
    - Locking rows: whatever others do while it waits or follows later
      versions, a lock is granted only beside those it may be held beside,
      and then held together with theirs; a later version is marked
      only if nobody who holds it is we or stands in the way, and left alone
      otherwise; a refused lock changes nothing and says why; every
      row stays as rows are; replay gives the same holders; alone, it ends.
    - Inserting: tuples reach page and log encrypted for their place and are
      fetched from there (and replay would store them in the clear); the map stays below the pages; multi-inserts store
      every tuple and their records can be read.

    Some theorems state what the code does where it is not what it means
    to do: [PruneClaims.compaction_overruns_page],
    [PruneClaims.compaction_garbles_longer_tuple],
    [EncClaims.pg_tde_crypt_tuple_wraps], [TupleClaims.refused_item_overwrites],
    [KeyringClaims.keyringStoreKey_error_keeps_key],
    [KeyringClaims.keyringGetKey_vault_fetch], [XactClaims.released_key_file_lost],
    [XactClaims.prepare_forgets_requests], [TdeClaims.GetRelationKeys_by_number],
    [TdeClaims.tde_sprint_key_high_digits],
    [HotClaims.get_root_tuples_past_items], [ToastClaims.toast_slice_shifted],
    [ToastClaims.compaction_garbles_toast_rows],
    [InsertClaims.redo_insert_stores_plaintext],
    [RowLockClaims.keyshare_beside_update].

    ** Bounds

    Loops that follow data recurse on it.  The others take fuel, or pass a
    sufficient number to their loop: the batches of [pg_tde_crypt] and the
    pieces of [pg_tde_move_encrypted_data] (a batch advances by at least one
    block), the searches for key versions (the number of cached keys and
    one: versions are cached under different names), the passes over the
    pending deletes (the length of the list and one), the walk along a
    chain (the items of the page), the rounds of the new xmax (two), the
    rounds of pinning map pages (three), the restarts of a deletion and of a
    row lock (none when nobody else acts; a second number bounds the later
    versions that are visited), the rounds of a multi-insert (the
    number of tuples: each puts one at least), the rounds of a truncation
    (the pages that may go and one: each round removes one).  Theorems about them give the result for every fuel
    above the bound, so that they show termination too.  The
    count of the visibility map, and the restarts of [lazy_scan_prune] when an
    inserter aborts between pruning and the scan, take fuel and have no
    theorem of their own: the theorem is about one scan.

    ** What is not modelled

    Of pg_tdeam.c scans, pg_tde_update and in-place changes; of pg_tdetoast.c
    the decision what to move out of line.  A scan reads pages through
    buffers, read-ahead and snapshots of the server; pg_tde_update joins what
    is modelled here (the waiting of a deletion, the locks of a row, the
    choice of a second page) with attribute comparison and logical decoding
    that need the descriptors of the server.  [InsertTargetLaws], the promise
    of a page with room, is a hypothesis of the insertions: [TargetClaims]
    proves the page held and roomy on a store of its own, and the two have not been joined.
    Of pg_tde_vacuumlazy.c the order of the calls over blocks and indexes
    (pg_tde_vacuum_rel, lazy_scan_heap, lazy_vacuum and what drives index
    access methods), the failsafe and the reports.  pg_tdeam_handler.c and
    pg_tde_rewrite.c are PostgreSQL's code with calls of what is modelled
    here: they drive executor slots, indexes and files of the server, for
    which only parameters could stand.  pg_tde.c and pg_tde_ddl.c register
    hooks; encryption/test.c and test_perf.c are test programs.  Concurrency
    is modelled where the code looks at the work of others (visibility,
    locks, freezing, choosing a page, deleting, locking rows); operations
    that hold a buffer lock are atomic.  Buffers are always found and memory
    is always allocated.  Statistics, cache invalidation messages and
    MultiXactIdSetOldestMember, which tells others what not to remove, are
    left out. *)
From Stdlib Require Import ZArith Lia.
From stdpp Require Export base list numbers option gmap strings.

#[global] Open Scope Z_scope.

(** ** Machine integers *)

(** Unsigned [w]-bit conversion: C reduces modulo [2^w]. *)
Definition uwrap (w z : Z) : Z := z mod 2 ^ w.
Abbreviation u8 := (uwrap 8).
Abbreviation u16 := (uwrap 16).
Abbreviation u32 := (uwrap 32).
Abbreviation u64 := (uwrap 64).

(** Conversion to a 32-bit [int] (two's complement, as every supported
    compiler does it). *)
Definition int32 (z : Z) : Z := (z + 2 ^ 31) mod 2 ^ 32 - 2 ^ 31.

Definition INT_MAX : Z := 2 ^ 31 - 1.

Lemma uwrap_small w z : 0 <= z < 2 ^ w -> uwrap w z = z.
Proof. apply Z.mod_small. Qed.

Lemma uwrap_range w z : 0 <= w -> 0 <= uwrap w z < 2 ^ w.
Proof. intros Hw. apply Z.mod_pos_bound. lia. Qed.

Lemma int32_small z : - 2 ^ 31 <= z < 2 ^ 31 -> int32 z = z.
Proof. intros Hz. unfold int32. rewrite Z.mod_small; lia. Qed.

(** ** Outcomes

    A call of the program returns a value, raises an error of some
    severity (ereport leaves the caller by a long jump, so the state
    reached so far is kept), or performs an operation that C leaves
    undefined (an access outside a buffer, a dangling pointer).
    [NoFuel] is the bound of a modelled loop running out; the theorems
    show that it is not reached. *)
Inductive elevel := ERROR | FATAL | PANIC.

Inductive outcome (A : Type) :=
| Ret (a : A)
| Raise (l : elevel)
| Undefined
| NoFuel.
Arguments Ret {A} a.
Arguments Raise {A} l.
Arguments Undefined {A}.
Arguments NoFuel {A}.

#[export] Instance elevel_eq_dec : EqDecision elevel.
Proof. solve_decision. Defined.
#[export] Instance outcome_eq_dec {A} `{EqDecision A} : EqDecision (outcome A).
Proof. solve_decision. Defined.

(** The state and error monad the stateful parts of the program are
    written in. *)
Definition M (S A : Type) : Type := S -> outcome A * S.

Definition ret {S A} (a : A) : M S A := fun s => (Ret a, s).
Definition raise {S A} (l : elevel) : M S A := fun s => (Raise l, s).
Definition undefined {S A} : M S A := fun s => (Undefined, s).
Definition nofuel {S A} : M S A := fun s => (NoFuel, s).
Definition get {S} : M S S := fun s => (Ret s, s).
Definition put {S} (s : S) : M S unit := fun _ => (Ret tt, s).
Definition gets {S A} (f : S -> A) : M S A := fun s => (Ret (f s), s).
Definition modify {S} (f : S -> S) : M S unit := fun s => (Ret tt, f s).

Definition bind {S A B} (m : M S A) (k : A -> M S B) : M S B := fun s =>
  match m s with
  | (Ret a, s') => k a s'
  | (Raise l, s') => (Raise l, s')
  | (Undefined, s') => (Undefined, s')
  | (NoFuel, s') => (NoFuel, s')
  end.

(** Run a computation on a part of the state. *)
Definition zoom {S T A} (proj : S -> T) (upd : T -> S -> S) (m : M T A) : M S A :=
  fun s => let '(r, t) := m (proj s) in (r, upd t s).

(** A pure step that may fail with undefined behaviour. *)
Definition defined {S A} (o : option A) : M S A :=
  match o with Some a => ret a | None => undefined end.

(** In a critical section an error is a PANIC. *)
Definition crit {S A} (m : M S A) : M S A := fun s =>
  match m s with
  | (Raise _, s') => (Raise PANIC, s')
  | r => r
  end.

Declare Scope tde_scope.
Delimit Scope tde_scope with tde.
#[global] Open Scope tde_scope.
Notation "'let*' x ':=' m 'in' k" := (bind m (fun x => k))
  (at level 10, x pattern, m at level 200, k at level 200)
  : tde_scope.
Notation "m ;;; k" := (bind m (fun _ => k))
  (at level 199, right associativity) : tde_scope.

Section monad_laws.
Context {S : Type}.

Lemma bind_ret_l {A B} (a : A) (k : A -> M S B) s : bind (ret a) k s = k a s.
Proof. reflexivity. Qed.

Lemma bind_Ret {A B} (m : M S A) (k : A -> M S B) s a s' :
  m s = (Ret a, s') -> bind m k s = k a s'.
Proof. unfold bind. intros ->. reflexivity. Qed.

Lemma bind_Raise {A B} (m : M S A) (k : A -> M S B) s l s' :
  m s = (Raise l, s') -> bind m k s = (Raise l, s').
Proof. unfold bind. intros ->. reflexivity. Qed.

Lemma bind_Undefined {A B} (m : M S A) (k : A -> M S B) s s' :
  m s = (Undefined, s') -> bind m k s = (Undefined, s').
Proof. unfold bind. intros ->. reflexivity. Qed.

Lemma bind_assoc {A B C} (m : M S A) (k : A -> M S B) (k' : B -> M S C) s :
  bind (bind m k) k' s = bind m (fun a => bind (k a) k') s.
Proof. unfold bind. by destruct (m s) as [[a|l| |] s']. Qed.

Lemma bind_inv_Ret {A B} (m : M S A) (k : A -> M S B) s b s'' :
  bind m k s = (Ret b, s'') ->
  exists a s', m s = (Ret a, s') /\ k a s' = (Ret b, s'').
Proof. unfold bind. destruct (m s) as [[a|l| |] s'] eqn:E; naive_solver. Qed.
End monad_laws.

(** Rewriting with the outcome of the first step. *)
Ltac mstep H := rewrite (bind_Ret _ _ _ _ _ H).

(** ** Weakest preconditions

    [wp m Q s]: run from [s], [m] returns, and [Q] holds of the result and
    the state reached. *)
Definition wp {S A} (m : M S A) (Q : A -> S -> Prop) (s : S) : Prop :=
  match m s with
  | (Ret a, s') => Q a s'
  | _ => False
  end.

Section wp.
Context {S : Type}.

Lemma wp_run {A} (m : M S A) Q s : wp m Q s -> exists a s', m s = (Ret a, s') /\ Q a s'.
Proof. unfold wp. destruct (m s) as [[a|l| |] s']; [eauto|done..]. Qed.

Lemma wp_of_run {A} (m : M S A) (Q : A -> S -> Prop) s a s' :
  m s = (Ret a, s') -> Q a s' -> wp m Q s.
Proof. unfold wp. by intros ->. Qed.

Lemma wp_mono {A} (m : M S A) (Q Q' : A -> S -> Prop) s :
  wp m Q s -> (forall a s', Q a s' -> Q' a s') -> wp m Q' s.
Proof. unfold wp. destruct (m s) as [[a|l| |] s']; auto. Qed.

Lemma wp_bind {A B} (m : M S A) (k : A -> M S B) Q s :
  wp m (fun a s' => wp (k a) Q s') s -> wp (bind m k) Q s.
Proof. unfold wp, bind. by destruct (m s) as [[a|l| |] s']. Qed.

Lemma wp_ret {A} (a : A) (Q : A -> S -> Prop) s : Q a s -> wp (ret a) Q s.
Proof. done. Qed.
Lemma wp_get (Q : S -> S -> Prop) s : Q s s -> wp get Q s.
Proof. done. Qed.
Lemma wp_gets {A} (f : S -> A) (Q : A -> S -> Prop) s : Q (f s) s -> wp (gets f) Q s.
Proof. done. Qed.
Lemma wp_put s1 (Q : unit -> S -> Prop) s : Q tt s1 -> wp (put s1) Q s.
Proof. done. Qed.
Lemma wp_modify f (Q : unit -> S -> Prop) s : Q tt (f s) -> wp (modify f) Q s.
Proof. done. Qed.
Lemma wp_defined {A} (o : option A) a (Q : A -> S -> Prop) s :
  o = Some a -> Q a s -> wp (defined o) Q s.
Proof. by intros ->. Qed.
Lemma wp_zoom {T A} (proj : S -> T) upd (m : M T A) (Q : A -> S -> Prop) s :
  wp m (fun a t => Q a (upd t s)) (proj s) -> wp (zoom proj upd m) Q s.
Proof. unfold wp, zoom. by destruct (m (proj s)) as [[a|l| |] t]. Qed.
End wp.

(** One step of the computation in front. *)
Ltac wp_step :=
  lazymatch goal with
  | |- wp (bind _ _) _ _ => apply wp_bind
  | |- wp (ret _) _ _ => apply wp_ret
  | |- wp get _ _ => apply wp_get
  | |- wp (gets _) _ _ => apply wp_gets
  | |- wp (put _) _ _ => apply wp_put
  | |- wp (modify _) _ _ => apply wp_modify
  | |- wp (zoom _ _ _) _ _ => apply wp_zoom
  end.
Ltac wps := repeat wp_step.

(** ** Outcomes that may be errors

    [twp nf er m Q s]: [m], run from [s], has no undefined behaviour and
    does not panic; when it returns [Q] holds; it runs out of fuel only in a
    state with [nf], and raises an error only in one with [er]. *)
Definition twp {S A} (nf er : S -> Prop) (m : M S A) (Q : A -> S -> Prop) (s : S) : Prop :=
  match m s with
  | (Ret a, s') => Q a s'
  | (NoFuel, s') => nf s'
  | (Raise ERROR, s') => er s'
  | _ => False
  end.

Section twp.
Context {S : Type} (nf er : S -> Prop).

Lemma twp_mono {A} (m : M S A) (Q Q' : A -> S -> Prop) s :
  twp nf er m Q s -> (forall a s', Q a s' -> Q' a s') -> twp nf er m Q' s.
Proof. unfold twp. destruct (m s) as [[a|[]| |] s']; auto. Qed.
Lemma twp_bind {A B} (m : M S A) (k : A -> M S B) Q s :
  twp nf er m (fun a s' => twp nf er (k a) Q s') s -> twp nf er (bind m k) Q s.
Proof. unfold twp, bind. by destruct (m s) as [[a|[]| |] s']. Qed.
Lemma twp_seq {A B C} (m : M S A) (n : M S B) (k : B -> M S C) Q s :
  twp nf er (m;;; n) (fun b s' => twp nf er (k b) Q s') s -> twp nf er (m;;; (let* b := n in k b)) Q s.
Proof. unfold twp, bind. destruct (m s) as [[a|[]| |] s']; try done. by destruct (n s') as [[b|[]| |] s'']. Qed.
Lemma twp_ret {A} (a : A) (Q : A -> S -> Prop) s : Q a s -> twp nf er (ret a) Q s.
Proof. done. Qed.
Lemma twp_get (Q : S -> S -> Prop) s : Q s s -> twp nf er get Q s.
Proof. done. Qed.
Lemma twp_gets {A} (f : S -> A) (Q : A -> S -> Prop) s : Q (f s) s -> twp nf er (gets f) Q s.
Proof. done. Qed.
Lemma twp_modify f (Q : unit -> S -> Prop) s : Q tt (f s) -> twp nf er (modify f) Q s.
Proof. done. Qed.
Lemma twp_defined {A} (o : option A) a (Q : A -> S -> Prop) s :
  o = Some a -> Q a s -> twp nf er (defined o) Q s.
Proof. by intros ->. Qed.
Lemma twp_zoom {T A} (proj : S -> T) upd (m : M T A) (Q : A -> S -> Prop) s a t :
  m (proj s) = (Ret a, t) -> Q a (upd t s) -> twp nf er (zoom proj upd m) Q s.
Proof. unfold twp, zoom. by intros ->. Qed.
End twp.

(** Without errors and with enough fuel it is the stronger rule. *)
Lemma twp_wp {S A} nf er (m : M S A) Q s : twp nf er m Q s -> (forall s, ~ nf s) -> (forall s, ~ er s) -> wp m Q s.
Proof. unfold twp, wp. destruct (m s) as [[a|[]| |] s']; naive_solver. Qed.

(** ** Two runs side by side

    [alike R m n]: from states that [R] relates, [m] and [n] end alike, in
    states that [R] relates. *)
Definition alike {S T A} (R : S -> T -> Prop) (m : M S A) (n : M T A) : Prop :=
  forall s t, R s t -> fst (m s) = fst (n t) /\ R (snd (m s)) (snd (n t)).

Section alike.
Context {S T : Type} (R : S -> T -> Prop).

Lemma alike_pure {A} (o : outcome A) : alike R (fun s => (o, s)) (fun t => (o, t)).
Proof. by intros s t H. Qed.
Lemma alike_bind {A B} (m : M S A) (n : M T A) (k : A -> M S B) (l : A -> M T B) :
  alike R m n -> (forall a, alike R (k a) (l a)) -> alike R (bind m k) (bind n l).
Proof.
  intros Hm Hk s t H. specialize (Hm s t H). unfold bind. destruct (m s) as [o s1], (n t) as [o' t1].
  destruct Hm as [E H1]. cbn in E, H1. subst o'. destruct o; cbn; try done. by apply Hk.
Qed.
Lemma alike_defined {A} (o : option A) : alike R (defined o) (defined o).
Proof. destruct o; apply alike_pure. Qed.
Lemma alike_gets {A} (f : S -> A) (g : T -> A) : (forall s t, R s t -> f s = g t) -> alike R (gets f) (gets g).
Proof. intros H s t Hst. cbn. by rewrite (H s t). Qed.
Lemma alike_modify (f : S -> S) (g : T -> T) : (forall s t, R s t -> R (f s) (g t)) -> alike R (modify f) (modify g).
Proof. intros H s t Hst. by split; [|apply H]. Qed.
End alike.

(** Take two computations apart into such steps. *)
Ltac alike_step :=
  match goal with
  | |- alike _ (bind _ _) (bind _ _) => apply alike_bind; [|intros ?]
  | |- alike _ (ret _) (ret _) => apply (alike_pure _ (Ret _))
  | |- alike _ (raise _) (raise _) => apply (alike_pure _ (Raise _))
  | |- alike _ undefined undefined => apply (alike_pure _ Undefined)
  | |- alike _ nofuel nofuel => apply (alike_pure _ NoFuel)
  | |- alike _ (defined _) (defined _) => apply alike_defined
  | |- alike _ (match ?x with _ => _ end) _ => destruct x
  | |- alike _ _ _ => progress cbv zeta
  | |- alike _ _ _ => solve [auto with alike nocore]
  end.
Ltac alike := repeat alike_step.
Create HintDb alike.

(** ** Bytes and buffers *)

(** A byte is an integer in [0, 255]; a buffer is a list of bytes. *)
Definition byte_ok (b : Z) : Prop := 0 <= b < 256.
Abbreviation bytes_ok := (Forall byte_ok).

(** [buf[i]], undefined outside the buffer. *)
Definition rd (buf : list Z) (i : Z) : option Z :=
  if (0 <=? i) then buf !! Z.to_nat i else None.

(** [buf[i] = v], undefined outside the buffer. *)
Definition wr (buf : list Z) (i v : Z) : option (list Z) :=
  if (0 <=? i) && (i <? Z.of_nat (length buf)) then Some (<[Z.to_nat i := v]> buf)
  else None.

(** The buffer with [src] copied over it from position [at]. *)
Definition splice (buf : list Z) (at_ : nat) (src : list Z) : list Z :=
  take at_ buf ++ src ++ drop (at_ + length src) buf.

(** [memcpy] of [src] to [buf + at], undefined outside the buffer. *)
Definition wr_bytes (buf : list Z) (at_ : Z) (src : list Z) : option (list Z) :=
  if (0 <=? at_) && (at_ + Z.of_nat (length src) <=? Z.of_nat (length buf))
  then Some (splice buf (Z.to_nat at_) src) else None.

(** [n] bytes of [buf] from position [at], undefined outside the buffer. *)
Definition rd_bytes (buf : list Z) (at_ n : Z) : option (list Z) :=
  if (0 <=? at_) && (0 <=? n) && (at_ + n <=? Z.of_nat (length buf))
  then Some (take (Z.to_nat n) (drop (Z.to_nat at_) buf)) else None.

Create HintDb tde discriminated.
#[export] Hint Resolve uwrap_range : tde.

Section buffers.
Implicit Types buf src : list Z.

Lemma length_splice buf at_ src :
  (at_ + length src <= length buf)%nat ->
  length (splice buf at_ src) = length buf.
Proof. intros. unfold splice. rewrite !length_app, length_take, length_drop. lia. Qed.

Lemma lookup_splice_in buf at_ src i :
  (at_ + length src <= length buf)%nat ->
  (at_ <= i < at_ + length src)%nat ->
  splice buf at_ src !! i = src !! (i - at_)%nat.
Proof.
  intros Hb Hi. unfold splice.
  rewrite lookup_app_r; rewrite length_take; [|lia].
  rewrite lookup_app_l; [|lia]. f_equal. lia.
Qed.

Lemma lookup_splice_out buf at_ src i :
  (at_ + length src <= length buf)%nat ->
  (i < at_ \/ at_ + length src <= i)%nat ->
  splice buf at_ src !! i = buf !! i.
Proof.
  intros Hb [Hi|Hi]; unfold splice.
  - rewrite lookup_app_l; [|rewrite length_take; lia].
    apply lookup_take_lt. lia.
  - rewrite lookup_app_r; rewrite length_take; [|lia].
    rewrite lookup_app_r; [|lia]. rewrite lookup_drop. f_equal. lia.
Qed.

(** A range of bytes that a write does not touch. *)
Lemma sub_splice_out (l seg : list Z) (a at_ n : nat) : (at_ + length seg <= length l)%nat ->
  (a + n <= at_ \/ at_ + length seg <= a)%nat ->
  take n (drop a (splice l at_ seg)) = take n (drop a l).
Proof.
  intros Hl Hd. apply list_eq. intros i. destruct (decide (i < n)%nat) as [Hi|Hi].
  - rewrite !lookup_take_lt, !lookup_drop by done. apply lookup_splice_out; lia.
  - rewrite !lookup_take_ge by lia. done.
Qed.

Lemma sub_splice_in (l seg : list Z) (at_ : nat) : (at_ + length seg <= length l)%nat ->
  take (length seg) (drop at_ (splice l at_ seg)) = seg.
Proof.
  intros Hl. unfold splice. rewrite drop_app_length' by (rewrite length_take; lia).
  by rewrite take_app_length.
Qed.

Lemma splice_nil buf at_ : splice buf at_ [] = buf.
Proof. unfold splice. cbn. by rewrite Nat.add_0_r, take_drop. Qed.

(** Two adjacent writes are one. *)
Lemma splice_adjacent buf at_ x y :
  (at_ + length x <= length buf)%nat ->
  splice (splice buf at_ x) (at_ + length x) y = splice buf at_ (x ++ y).
Proof.
  intros Hb. unfold splice.
  rewrite (take_app_ge (take at_ buf)) by (rewrite length_take; lia).
  rewrite length_take, Nat.min_l by lia.
  replace (at_ + length x - at_)%nat with (length x) by lia.
  rewrite take_app_length, <- !app_assoc. do 3 f_equal.
  rewrite drop_app_ge by (rewrite length_take; lia).
  rewrite length_take, Nat.min_l by lia.
  rewrite drop_app_ge by lia. rewrite drop_drop, length_app. f_equal. lia.
Qed.

(** Reading behind what was written. *)
Lemma drop_splice buf at_ x n :
  (at_ + length x <= length buf)%nat -> (at_ + length x <= n)%nat ->
  drop n (splice buf at_ x) = drop n buf.
Proof.
  intros Hb Hn. apply list_eq. intros i. rewrite !lookup_drop.
  apply lookup_splice_out; lia.
Qed.

Lemma rd_Some buf i b : rd buf i = Some b <-> 0 <= i /\ buf !! Z.to_nat i = Some b.
Proof. unfold rd. destruct (Z.leb_spec 0 i); [naive_solver|split; [done|lia]]. Qed.

Lemma rd_bytes_Some buf at_ n :
  0 <= at_ -> 0 <= n -> at_ + n <= Z.of_nat (length buf) ->
  rd_bytes buf at_ n = Some (take (Z.to_nat n) (drop (Z.to_nat at_) buf)).
Proof.
  intros. unfold rd_bytes.
  by rewrite !(proj2 (Z.leb_le _ _)) by lia.
Qed.

Lemma wr_bytes_Some buf at_ src :
  0 <= at_ -> at_ + Z.of_nat (length src) <= Z.of_nat (length buf) ->
  wr_bytes buf at_ src = Some (splice buf (Z.to_nat at_) src).
Proof.
  intros. unfold wr_bytes.
  by rewrite !(proj2 (Z.leb_le _ _)) by lia.
Qed.
End buffers.

(** ** Exclusive or *)

Lemma lxor_cancel a b : Z.lxor (Z.lxor a b) b = a.
Proof. by rewrite Z.lxor_assoc, Z.lxor_nilpotent, Z.lxor_0_r. Qed.
Create Rewrite HintDb tde_rw.
#[export] Hint Rewrite lxor_cancel : tde_rw.

Lemma lxor_byte_ok a b : byte_ok a -> byte_ok b -> byte_ok (Z.lxor a b).
Proof.
  unfold byte_ok. intros [Ha Ha'] [Hb Hb'].
  assert (H0 : 0 <= Z.lxor a b) by (apply Z.lxor_nonneg; lia).
  split; [done|]. destruct (Z.eq_dec (Z.lxor a b) 0) as [->|Hne]; [lia|].
  apply (Z.log2_lt_pow2 _ 8); [lia|].
  pose proof (Z.log2_lxor a b Ha Hb).
  assert (forall x, 0 <= x < 256 -> Z.log2 x < 8) as Hl.
  { intros x Hx. destruct (Z.eq_dec x 0) as [->|]; [simpl; lia|].
    apply Z.log2_lt_pow2; lia. }
  pose proof (Hl a). pose proof (Hl b). lia.
Qed.
#[export] Hint Resolve lxor_byte_ok : tde.
