(* ===== verification/EncAes.v ===== *)
(** The AES layer: src/src/encryption/enc_aes.c and enc_aes.h.

    OpenSSL is not part of the repository: its EVP interface is the class
    [EVP], and what the program relies on is the class [EVPLaws].  The C
    functions write their result through a pointer; here they return the
    bytes they write. *)
From S2P Require Import Prelude.

Definition AES_BLOCK_SIZE : Z := 16.
Definition NUM_AES_BLOCKS_IN_BATCH : Z := 100.
Definition DATA_BYTES_PER_AES_BATCH : Z := NUM_AES_BLOCKS_IN_BATCH * AES_BLOCK_SIZE.

(** ** The EVP interface of OpenSSL *)

Class EVP := {
  EVP_CIPHER : Type;
  EVP_aes_128_cbc : EVP_CIPHER;
  EVP_aes_128_ecb : EVP_CIPHER;
  EVP_CIPHER_block_size : EVP_CIPHER -> Z;
  evp_ctx : Type;
  EVP_CIPHER_CTX_new : evp_ctx;
  EVP_CIPHER_CTX_init : evp_ctx -> evp_ctx;
  EVP_CIPHER_CTX_set_padding : evp_ctx -> Z -> evp_ctx;
  (** cipher, key, iv, direction; [false] is the return value 0 *)
  EVP_CipherInit_ex :
    evp_ctx -> option EVP_CIPHER -> list Z -> list Z -> Z -> bool * evp_ctx;
  (** the bytes written to [out], [None] for the return value 0 *)
  EVP_CipherUpdate : evp_ctx -> list Z -> option (list Z) * evp_ctx;
  EVP_CipherFinal_ex : evp_ctx -> option (list Z) * evp_ctx;
}.

(** Consecutive 16-byte blocks of a buffer. *)
Fixpoint blocks_of (n : nat) (l : list Z) : list (list Z) :=
  match n with
  | O => []
  | S n => take 16 l :: blocks_of n (drop 16 l)
  end.

Definition xor_bytes (a b : list Z) : list Z := zip_with Z.lxor a b.

Definition zero_iv : list Z := replicate 16 0.

(** A fresh context as both callers prepare it. *)
Definition fresh_ctx `{EVP} : evp_ctx :=
  EVP_CIPHER_CTX_set_padding (EVP_CIPHER_CTX_init EVP_CIPHER_CTX_new) 0.

(** What the program relies on: AES-128 is a family of permutations of
    16-byte blocks; in ECB mode a context without padding maps it over the
    blocks of its input and stays usable; in CBC mode one block is
    encrypted after xor with the iv, and decryption undoes it. *)
Class EVPLaws `{EVP} := {
  aes_block : list Z -> list Z -> list Z;
  aes_block_inv : list Z -> list Z -> list Z;
  ecb_ready : evp_ctx -> list Z -> Prop;
  cbc_ready : evp_ctx -> Z -> list Z -> list Z -> Prop;
  cbc_done : evp_ctx -> Prop;
  aes_block_length key b : length b = 16%nat -> length (aes_block key b) = 16%nat;
  aes_block_inv_block key b :
    length key = 16%nat -> length b = 16%nat -> bytes_ok b ->
    aes_block_inv key (aes_block key b) = b;
  ecb_init key iv :
    length key = 16%nat -> length iv = 16%nat ->
    exists c, EVP_CipherInit_ex fresh_ctx (Some EVP_aes_128_ecb) key iv 1 = (true, c)
              /\ ecb_ready c key;
  ecb_update c key n inp :
    ecb_ready c key -> length inp = (16 * n)%nat ->
    exists c', EVP_CipherUpdate c inp = (Some (mjoin (aes_block key <$> blocks_of n inp)), c')
               /\ ecb_ready c' key;
  cbc_init enc key iv :
    length key = 16%nat -> length iv = 16%nat ->
    exists c, EVP_CipherInit_ex fresh_ctx (Some EVP_aes_128_cbc) key iv enc = (true, c)
              /\ cbc_ready c enc key iv;
  cbc_update_enc c key iv b :
    cbc_ready c 1 key iv -> length b = 16%nat ->
    exists c', EVP_CipherUpdate c b = (Some (aes_block key (xor_bytes b iv)), c')
               /\ cbc_done c';
  cbc_update_dec c key iv b :
    cbc_ready c 0 key iv -> length b = 16%nat ->
    exists c', EVP_CipherUpdate c b = (Some (xor_bytes (aes_block_inv key b) iv), c')
               /\ cbc_done c';
  cbc_final c :
    cbc_done c -> exists c', EVP_CipherFinal_ex c = (Some [], c');
}.

(** [int >> n] with [n] not below the width of [int] is undefined in C;
    [shr_oob j n] is whatever the compiled code produces for it. *)
Class CIntShift := { shr_oob : Z -> Z -> Z }.

Definition int_shr `{CIntShift} (j n : Z) : Z :=
  if n <? 32 then Z.shiftr j n else shr_oob j n.

(** ** State *)

(** The static variables set by [AesInit]. *)
Record AesGlobals `{EVP} := {
  cipher : option EVP_CIPHER;
  cipher2 : option EVP_CIPHER;
  cipher_block_size : Z;
  initialized : bool;
}.

Definition AesGlobals0 `{EVP} : AesGlobals :=
  {| cipher := None; cipher2 := None; cipher_block_size := 0; initialized := false |}.

(** A [void *ctx] field: NULL, a context of this process, or an address
    that does not point to one (read back from a file, for instance). *)
Inductive ctxptr `{EVP} :=
| CtxNull
| CtxLive (c : evp_ctx)
| CtxWild (addr : Z).

Section aes.
Context `{HE : EVP} `{HS : CIntShift}.

(** ** Operations *)

Definition AesInit (g : AesGlobals) : AesGlobals :=
  if initialized g then g
  else {| cipher := Some EVP_aes_128_cbc;
          cipher_block_size := EVP_CIPHER_block_size EVP_aes_128_cbc;
          cipher2 := Some EVP_aes_128_ecb;
          initialized := true |}.

(** Run on the slot [*ctxPtr].  The slot is assigned before the
    context is initialised, so it keeps the context when that fails. *)
Definition AesRun2 (g : AesGlobals) (enc : Z) (key iv inp : list Z)
  : M ctxptr (list Z) :=
  let update (c : evp_ctx) : outcome (list Z) * ctxptr :=
    match EVP_CipherUpdate c inp with
    | (Some out, c') => (Ret out, CtxLive c')
    | (None, c') => (Raise ERROR, CtxLive c')
    end in
  fun p =>
    match p with
    | CtxNull =>
        match EVP_CipherInit_ex fresh_ctx (cipher2 g) key iv enc with
        | (true, c) => update c
        | (false, c) => (Raise ERROR, CtxLive c)
        end
    | CtxLive c => update c
    | CtxWild _ => (Undefined, p)
    end.

(** The CBC runner: [EVP_CipherFinal_ex] writes to the start of [out],
    over what [EVP_CipherUpdate] wrote there. *)
Definition AesRun (g : AesGlobals) (enc : Z) (key iv inp : list Z) : outcome (list Z) :=
  match EVP_CipherInit_ex fresh_ctx (cipher g) key iv enc with
  | (false, _) => Raise ERROR
  | (true, c) =>
      match EVP_CipherUpdate c inp with
      | (None, _) => Raise ERROR
      | (Some out, c') =>
          match EVP_CipherFinal_ex c' with
          | (None, _) => Raise ERROR
          | (Some fin, _) => Ret (fin ++ drop (length fin) out)
          end
      end
  end.

Definition AesEncrypt (g : AesGlobals) (key iv inp : list Z) : outcome (list Z) :=
  AesRun g 1 key iv inp.

Definition AesDecrypt (g : AesGlobals) (key iv inp : list Z) : outcome (list Z) :=
  AesRun g 0 key iv inp.

(** [(j >> (8*i)) & 0xFF], stored into an [unsigned char]. *)
Definition counter_byte (j i : Z) : Z := Z.land (int_shr j (8 * i)) 255.

(** The inner loop of [Aes128EncryptedZeroBlocks], [for i = 8-n .. 7]:
    the index is computed in [uint64]. *)
Fixpoint zero_blocks_fill (n : nat) (j blockNumber1 : Z) (data : list Z)
  : option (list Z) :=
  match n with
  | O => Some data
  | S n =>
      let i := 8 - Z.of_nat (S n) in
      match wr data (u64 (16 * u64 (j - blockNumber1) + 15 - i)) (counter_byte j i) with
      | Some data' => zero_blocks_fill n j blockNumber1 data'
      | None => None
      end
  end.

(** The outer loop: [j] is an [int], compared with [blockNumber2] as a
    [uint64]; incrementing it past [INT_MAX] is undefined. *)
Fixpoint zero_blocks_loop (fuel : nat) (j blockNumber1 blockNumber2 : Z) (data : list Z)
  : outcome (list Z) :=
  match fuel with
  | O => NoFuel
  | S fuel =>
      if u64 j <? blockNumber2 then
        match zero_blocks_fill 8 j blockNumber1 data with
        | None => Undefined
        | Some data' =>
            if j =? INT_MAX then Undefined
            else zero_blocks_loop fuel (j + 1) blockNumber1 blockNumber2 data'
        end
      else Ret data
  end.

(** [data] holds the [dataLen] bytes that [memset] clears. *)
Definition Aes128EncryptedZeroBlocks (g : AesGlobals) (key : list Z)
  (blockNumber1 blockNumber2 : Z) : M ctxptr (list Z) :=
  let dataLen := u32 ((blockNumber2 - blockNumber1) * 16) in
  let data := replicate (Z.to_nat dataLen) 0 in
  fun p =>
    match zero_blocks_loop (S (Z.to_nat (blockNumber2 - blockNumber1)))
            (int32 blockNumber1) blockNumber1 blockNumber2 data with
    | Ret data' => AesRun2 g 1 key zero_iv data' p
    | Raise l => (Raise l, p)
    | Undefined => (Undefined, p)
    | NoFuel => (NoFuel, p)
    end.

(** ** The key stream it computes *)

(** The 16 bytes encrypted for block [j]: zeroes, then the counter, most
    significant byte first. *)
Definition counter_block (j : Z) : list Z :=
  replicate 8 0 ++ ((fun k => counter_byte j (7 - Z.of_nat k)) <$> seq 0 8).

Context `{HL : !EVPLaws}.

(** Byte [n] of the stream of a key: byte [n mod 16] of encrypted counter
    block [n / 16]. *)
Definition keystream (key : list Z) (n : Z) : Z :=
  aes_block key (counter_block (n / 16)) !!! Z.to_nat (n mod 16).

(** The blocks [b1 .. b1+n-1] of the stream. *)
Definition keystream_blocks (key : list Z) (b1 : Z) (n : nat) : list Z :=
  mjoin (aes_block key <$> (counter_block <$> seqZ b1 (Z.of_nat n))).

(** The slot is usable for [key]: still empty, or an ECB context of it. *)
Definition slot_ready (p : ctxptr) (key : list Z) : Prop :=
  match p with
  | CtxNull => True
  | CtxLive c => ecb_ready c key
  | CtxWild _ => False
  end.

Definition aes_initialized (g : AesGlobals) : Prop :=
  cipher g = Some EVP_aes_128_cbc /\ cipher2 g = Some EVP_aes_128_ecb.

(** ** Lemmas *)

Lemma AesInit_initialized : aes_initialized (AesInit AesGlobals0).
Proof. split; reflexivity. Qed.

Lemma length_counter_block j : length (counter_block j) = 16%nat.
Proof. reflexivity. Qed.

Lemma insert_after_prefix (pre l : list Z) (n : Z) (k : nat) v :
  n = Z.of_nat (length pre + k) -> (k < length l)%nat ->
  wr (pre ++ l) n v = Some (pre ++ <[k := v]> l).
Proof.
  intros -> Hk. unfold wr. rewrite length_app.
  destruct (Z.leb_spec 0 (Z.of_nat (length pre + k))); [|lia].
  destruct (Z.ltb_spec (Z.of_nat (length pre + k)) (Z.of_nat (length pre + length l))); [|lia].
  simpl. rewrite Nat2Z.id, insert_app_r. reflexivity.
Qed.

(** One inner iteration stores one byte of the block after [pre]. *)
Lemma zero_blocks_fill_step (pre l : list Z) (j b1 : Z) (n : nat) :
  0 <= b1 <= j -> j < 2 ^ 31 ->
  Z.of_nat (length pre) = 16 * (j - b1) -> (16 <= length l)%nat -> (n < 8)%nat ->
  zero_blocks_fill (S n) j b1 (pre ++ l) =
  zero_blocks_fill n j b1
    (pre ++ <[(8 + n)%nat := counter_byte j (7 - Z.of_nat n)]> l).
Proof.
  intros Hb Hj Hpre Hl Hn. cbn [zero_blocks_fill].
  rewrite (uwrap_small 64 (j - b1)) by lia.
  rewrite uwrap_small by lia.
  rewrite (insert_after_prefix pre l _ (8 + n)) by lia.
  do 4 f_equal. lia.
Qed.

(** One outer iteration fills the next zero block with its counter. *)
Lemma zero_blocks_fill_spec (pre rest : list Z) (j b1 : Z) :
  0 <= b1 <= j -> j < 2 ^ 31 ->
  Z.of_nat (length pre) = 16 * (j - b1) ->
  zero_blocks_fill 8 j b1 (pre ++ replicate 16 0 ++ rest) =
    Some (pre ++ counter_block j ++ rest).
Proof.
  intros Hb Hj Hpre.
  do 8 (rewrite zero_blocks_fill_step;
    [|done|done|done|rewrite ?length_insert, length_app; simpl; lia|lia]).
  reflexivity.
Qed.

Lemma zero_blocks_loop_spec (n fuel : nat) (pre : list Z) (j b1 b2 : Z) :
  0 <= b1 <= j -> j + Z.of_nat n = b2 -> b2 < 2 ^ 31 -> (n < fuel)%nat ->
  Z.of_nat (length pre) = 16 * (j - b1) ->
  zero_blocks_loop fuel j b1 b2 (pre ++ replicate (16 * n) 0) =
    Ret (pre ++ mjoin (counter_block <$> seqZ j (Z.of_nat n))).
Proof.
  revert fuel pre j. induction n as [|n IH]; intros fuel pre j Hb Hn Hb2 Hf Hpre.
  - destruct fuel; [lia|]. cbn [zero_blocks_loop].
    rewrite uwrap_small by lia. destruct (Z.ltb_spec j b2); [lia|]. reflexivity.
  - destruct fuel as [|fuel]; [lia|]. cbn [zero_blocks_loop].
    rewrite uwrap_small by lia. destruct (Z.ltb_spec j b2); [|lia].
    replace (16 * S n)%nat with (16 + 16 * n)%nat by lia.
    rewrite replicate_add, zero_blocks_fill_spec by lia.
    destruct (Z.eqb_spec j INT_MAX) as [->|]; [unfold INT_MAX in *; lia|].
    rewrite app_assoc, IH; try lia;
      [|rewrite length_app, length_counter_block; lia].
    rewrite <- app_assoc. rewrite (seqZ_cons j (Z.of_nat (S n))) by lia.
    replace (Z.pred (Z.of_nat (S n))) with (Z.of_nat n) by lia.
    replace (Z.succ j) with (j + 1) by lia. reflexivity.
Qed.

Lemma blocks_of_mjoin (ls : list (list Z)) :
  Forall (fun b => length b = 16%nat) ls -> blocks_of (length ls) (mjoin ls) = ls.
Proof.
  induction 1 as [|b ls Hb _ IH]; [done|].
  change (mjoin (b :: ls)) with (b ++ mjoin ls). cbn [blocks_of length].
  rewrite take_app_length', drop_app_length' by done. by rewrite IH.
Qed.

Lemma length_mjoin_16 {A} (f : A -> list Z) (l : list A) :
  (forall a, length (f a) = 16%nat) -> length (mjoin (f <$> l)) = (16 * length l)%nat.
Proof.
  intros Hf. induction l as [|a l IH]; [done|].
  change (mjoin (f <$> a :: l)) with (f a ++ mjoin (f <$> l)).
  rewrite length_app, Hf, IH. cbn [length]. lia.
Qed.

(** ECB over whole blocks, on a usable slot. *)
Lemma AesRun2_ecb g key iv (ls : list (list Z)) p :
  aes_initialized g -> length key = 16%nat -> length iv = 16%nat ->
  slot_ready p key -> Forall (fun b => length b = 16%nat) ls ->
  exists p', AesRun2 g 1 key iv (mjoin ls) p = (Ret (mjoin (aes_block key <$> ls)), p')
             /\ slot_ready p' key.
Proof.
  intros [_ Hg] Hkey Hiv Hp Hls.
  assert (Hlen : length (mjoin ls) = (16 * length ls)%nat).
  { clear -Hls. induction Hls as [|b ls Hb _ IH]; [done|].
    change (mjoin (b :: ls)) with (b ++ mjoin ls).
    rewrite length_app, Hb, IH. cbn [length]. lia. }
  assert (Hupd : forall c, ecb_ready c key -> exists c',
    EVP_CipherUpdate c (mjoin ls) = (Some (mjoin (aes_block key <$> ls)), c')
    /\ ecb_ready c' key).
  { intros c Hc. destruct (ecb_update c key _ _ Hc Hlen) as (c' & Hu & Hr).
    rewrite blocks_of_mjoin in Hu by done. eauto. }
  unfold AesRun2. destruct p as [|c|a]; cbn in Hp; [| |done].
  - rewrite Hg. destruct (ecb_init key iv Hkey Hiv) as (c & Hi & Hc). rewrite Hi.
    destruct (Hupd c Hc) as (c' & Hu & Hr). rewrite Hu. exists (CtxLive c'). done.
  - destruct (Hupd c Hp) as (c' & Hu & Hr). rewrite Hu. exists (CtxLive c'). done.
Qed.

(** [Aes128EncryptedZeroBlocks] returns the requested blocks of the
    stream, whatever context the slot already holds for the key. *)
Lemma Aes128EncryptedZeroBlocks_keystream g key b1 b2 p :
  aes_initialized g -> length key = 16%nat -> slot_ready p key ->
  0 <= b1 <= b2 -> b2 < 2 ^ 31 -> (b2 - b1) * 16 <= DATA_BYTES_PER_AES_BATCH ->
  exists p',
    Aes128EncryptedZeroBlocks g key b1 b2 p =
      (Ret (keystream_blocks key b1 (Z.to_nat (b2 - b1))), p')
    /\ slot_ready p' key.
Proof.
  unfold DATA_BYTES_PER_AES_BATCH, NUM_AES_BLOCKS_IN_BATCH, AES_BLOCK_SIZE.
  intros Hg Hkey Hp Hb Hb2 Hlen. unfold Aes128EncryptedZeroBlocks.
  rewrite uwrap_small, int32_small by lia.
  set (n := Z.to_nat (b2 - b1)).
  replace (Z.to_nat ((b2 - b1) * 16)) with (16 * n)%nat by lia.
  rewrite (zero_blocks_loop_spec n _ [] b1 b1 b2) by (simpl; lia).
  rewrite app_nil_l. unfold keystream_blocks.
  apply AesRun2_ecb; try done.
  apply Forall_fmap, Forall_true. intros j. apply length_counter_block.
Qed.

Lemma length_keystream_blocks key b1 n :
  length (keystream_blocks key b1 n) = (16 * n)%nat.
Proof.
  unfold keystream_blocks. rewrite <- list_fmap_compose, length_mjoin_16.
  - rewrite length_seqZ. lia.
  - intros j. apply aes_block_length, length_counter_block.
Qed.

Lemma lookup_keystream_blocks key b1 n (k : nat) :
  0 <= b1 -> (k < 16 * n)%nat ->
  keystream_blocks key b1 n !! k = Some (keystream key (16 * b1 + Z.of_nat k)).
Proof.
  unfold keystream_blocks. revert b1 k. induction n as [|n IH]; intros b1 k Hb Hk; [lia|].
  rewrite seqZ_cons by lia. rewrite !fmap_cons.
  change (mjoin (?x :: ?l)) with (x ++ mjoin l).
  assert (Hl : forall j, length (aes_block key (counter_block j)) = 16%nat)
    by (intros; apply aes_block_length, length_counter_block).
  destruct (decide (k < 16)%nat) as [Hlt|Hge].
  - rewrite lookup_app_l by (rewrite Hl; lia). unfold keystream.
    replace (16 * b1 + Z.of_nat k) with (Z.of_nat k + b1 * 16) by lia.
    rewrite Z.div_add, Z_mod_plus_full, Z.div_small, Z.mod_small, Nat2Z.id by lia.
    apply list_lookup_lookup_total_lt. rewrite Hl. done.
  - rewrite lookup_app_r by (rewrite Hl; lia). rewrite Hl.
    replace (Z.pred (Z.of_nat (S n))) with (Z.of_nat n) by lia.
    rewrite IH by lia. do 2 f_equal. lia.
Qed.

(** CBC over one block with the zero iv. *)
Lemma xor_bytes_zero b : length b = 16%nat -> xor_bytes b zero_iv = b.
Proof.
  unfold xor_bytes, zero_iv. intros <-. induction b as [|x b IH]; [done|].
  cbn. by rewrite Z.lxor_0_r, IH.
Qed.

Lemma AesEncrypt_block g key b :
  aes_initialized g -> length key = 16%nat -> length b = 16%nat ->
  AesEncrypt g key zero_iv b = Ret (aes_block key b).
Proof.
  intros [Hg _] Hkey Hb. unfold AesEncrypt, AesRun. rewrite Hg.
  destruct (cbc_init 1 key zero_iv) as (c & -> & Hc); [done..|].
  destruct (cbc_update_enc c key zero_iv b Hc Hb) as (c' & -> & Hd).
  destruct (cbc_final c' Hd) as (? & ->). rewrite xor_bytes_zero by done. reflexivity.
Qed.

Lemma AesDecrypt_block g key b :
  aes_initialized g -> length key = 16%nat -> length b = 16%nat ->
  length (aes_block_inv key b) = 16%nat ->
  AesDecrypt g key zero_iv b = Ret (aes_block_inv key b).
Proof.
  intros [Hg _] Hkey Hb Hi. unfold AesDecrypt, AesRun. rewrite Hg.
  destruct (cbc_init 0 key zero_iv) as (c & -> & Hc); [done..|].
  destruct (cbc_update_dec c key zero_iv b Hc Hb) as (c' & -> & Hd).
  destruct (cbc_final c' Hd) as (? & ->). rewrite xor_bytes_zero by done. reflexivity.
Qed.
(** ** It does not matter which contexts are cached *)

Lemma zero_blocks_fill_length n j b1 data data' :
  zero_blocks_fill n j b1 data = Some data' -> length data' = length data.
Proof.
  revert data. induction n as [|n IH]; intros data; cbn [zero_blocks_fill]; [by intros [= ->]|].
  unfold wr. destruct (_ && _); [|done]. intros H%IH. by rewrite length_insert in H.
Qed.

Lemma zero_blocks_loop_length fuel j b1 b2 data data' :
  zero_blocks_loop fuel j b1 b2 data = Ret data' -> length data' = length data.
Proof.
  revert j data. induction fuel as [|fuel IH]; intros j data; cbn [zero_blocks_loop]; [done|].
  destruct (_ <? _); [|by intros [= ->]]. destruct (zero_blocks_fill 8 j b1 data) as [data1|] eqn:E; [|done].
  destruct (_ =? _); [done|]. intros H%IH. by rewrite H, (zero_blocks_fill_length _ _ _ _ _ E).
Qed.

Lemma Aes128EncryptedZeroBlocks_alike g key b1 b2 : aes_initialized g -> length key = 16%nat ->
  alike (fun p q => slot_ready p key /\ slot_ready q key)
    (Aes128EncryptedZeroBlocks g key b1 b2) (Aes128EncryptedZeroBlocks g key b1 b2).
Proof.
  intros [_ Hg] Hk p q [Hp Hq]. unfold Aes128EncryptedZeroBlocks.
  destruct (zero_blocks_loop _ _ _ _ _) as [data|l| |] eqn:E; try done.
  apply zero_blocks_loop_length in E. rewrite length_replicate in E.
  assert (Hn : exists n, length data = (16 * n)%nat).
  { exists (Z.to_nat (u32 ((b2 - b1) * 16) / 16)). pose proof (uwrap_range 32 ((b2 - b1) * 16)).
    assert (Hm : u32 ((b2 - b1) * 16) mod 16 = 0).
    { unfold uwrap. rewrite <- (Znumtheory.Zmod_div_mod 16 (2 ^ 32)) by (try lia; by exists (2 ^ 28)). apply Z.mod_mul. lia. }
    pose proof (Z.div_mod (u32 ((b2 - b1) * 16)) 16). lia. }
  destruct Hn as [n Hn].
  assert (Hrun : forall c, slot_ready c key -> exists c', AesRun2 g 1 key zero_iv data c
      = (Ret (mjoin (aes_block key <$> blocks_of n data)), c') /\ slot_ready c' key).
  { intros c Hc. unfold AesRun2. rewrite Hg. destruct c as [|c|]; [| |done].
    - destruct (ecb_init key zero_iv Hk) as (c0 & E0 & H0); [done|]. rewrite E0.
      destruct (ecb_update c0 key n data H0 Hn) as (c1 & E1 & H1). rewrite E1. by eexists.
    - destruct (ecb_update c key n data Hc Hn) as (c1 & E1 & H1). rewrite E1. by eexists. }
  destruct (Hrun p Hp) as (p' & Ep & Hp'), (Hrun q Hq) as (q' & Eq & Hq'). by rewrite Ep, Eq.
Qed.
End aes.

(** ** A concrete instance

    A toy cipher (xor with the key) that satisfies the laws.  The
    witnesses of the theorems that assume [EVPLaws] evaluate on it. *)
Module ToyEVP.
Definition toy_key (key : list Z) : list Z := take 16 (key ++ replicate 16 0).
Definition toy_block (key b : list Z) : list Z := xor_bytes b (toy_key key).

Record toy_ctx := ToyCtx { tc_cbc : bool; tc_enc : Z; tc_key : list Z; tc_iv : list Z }.

Definition toy_update (c : toy_ctx) (inp : list Z) : option (list Z) * toy_ctx :=
  (Some (if tc_cbc c then
           if tc_enc c =? 0 then xor_bytes (toy_block (tc_key c) inp) (tc_iv c)
           else toy_block (tc_key c) (xor_bytes inp (tc_iv c))
         else mjoin (toy_block (tc_key c) <$> blocks_of (length inp / 16) inp)), c).

#[export] Instance toy_evp : EVP := {|
  EVP_CIPHER := bool;
  EVP_aes_128_cbc := true;
  EVP_aes_128_ecb := false;
  EVP_CIPHER_block_size := fun c => if c then 16 else 16;
  evp_ctx := toy_ctx;
  EVP_CIPHER_CTX_new := ToyCtx false 0 [] [];
  EVP_CIPHER_CTX_init := fun c => c;
  EVP_CIPHER_CTX_set_padding := fun c _ => c;
  EVP_CipherInit_ex := fun c o key iv enc =>
    match o with Some m => (true, ToyCtx m enc key iv) | None => (false, c) end;
  EVP_CipherUpdate := toy_update;
  EVP_CipherFinal_ex := fun c => (Some [], c);
|}.

#[export] Instance toy_shift : CIntShift := {| shr_oob := fun j n => Z.shiftr j (n mod 32) |}.

Lemma length_toy_key key : length (toy_key key) = 16%nat.
Proof. unfold toy_key. rewrite length_take, length_app, length_replicate. lia. Qed.

Lemma length_toy_block key b : length b = 16%nat -> length (toy_block key b) = 16%nat.
Proof.
  intros Hb. unfold toy_block, xor_bytes.
  rewrite length_zip_with, Hb, length_toy_key. reflexivity.
Qed.

Lemma xor_bytes_cancel (a b : list Z) :
  length a = length b -> xor_bytes (xor_bytes a b) b = a.
Proof.
  unfold xor_bytes. revert b. induction a as [|x a IH]; intros [|y b] H; try done.
  cbn in *. rewrite lxor_cancel, IH by lia. reflexivity.
Qed.

#[export] Instance toy_laws : EVPLaws.
Proof.
  refine {| aes_block := toy_block; aes_block_inv := toy_block;
    ecb_ready := fun c key => tc_cbc c = false /\ tc_key c = key;
    cbc_ready := fun c enc key iv => c = ToyCtx true enc key iv;
    cbc_done := fun _ => True |}.
  - apply length_toy_block.
  - intros key b _ Hb _. apply xor_bytes_cancel. by rewrite length_toy_key.
  - intros key iv _ _. eexists; split; [reflexivity|done].
  - intros [[] enc k iv] key n inp Hc Hn; cbn [tc_cbc tc_key] in Hc;
      destruct Hc; simplify_eq.
    exists (ToyCtx false enc key iv); split; [|done].
    unfold EVP_CipherUpdate, toy_evp, toy_update. cbn [tc_cbc tc_key].
    by replace (length inp / 16)%nat with n by (rewrite Hn, Nat.mul_comm, Nat.div_mul; lia).
  - intros enc key iv _ _. eexists; split; [reflexivity|done].
  - intros c key iv b -> Hb. by eexists.
  - intros c key iv b -> Hb. by eexists.
  - intros c _. by eexists.
Defined.

(** The toy cipher satisfies the laws on the branch values too. *)
Example toy_block_example :
  toy_block (replicate 16 5) (replicate 16 3) = replicate 16 6.
Proof. reflexivity. Qed.
End ToyEVP.
