(* ===== verification/RelKeys.v ===== *)
(** The key structures of src/src/include/access/pg_tde_tdemap.h and their
    memory image, which is what the key fork file and the WAL record hold.

    The image is that of an LP64 little-endian platform: [Size] and
    pointers are eight bytes, so [InternalKey] takes 40 bytes and the
    header of [RelKeysData] 264. *)
From S2P Require Import Prelude EncAes.

Definition INTERNAL_KEY_LEN : Z := 16.
Definition MASTER_KEY_NAME_LEN : Z := 256.

Record InternalKey `{EVP} := {
  key : list Z;          (** INTERNAL_KEY_LEN bytes *)
  start_loc : Z;         (** Size *)
  end_loc : Z;           (** Size *)
  ctx : ctxptr;          (** void *, cached cipher context *)
}.

Record RelKeysData `{EVP} := {
  master_key_name : list Z;     (** MASTER_KEY_NAME_LEN bytes *)
  internal_keys_len : Z;        (** Size *)
  internal_key : list InternalKey;
}.

Definition sizeof_Size : Z := 8.
Definition sizeof_InternalKey : Z := INTERNAL_KEY_LEN + 3 * sizeof_Size.
Definition SizeOfRelKeysDataHeader : Z := MASTER_KEY_NAME_LEN + sizeof_Size.
Definition SizeOfRelKeysData (keys_num : Z) : Z :=
  SizeOfRelKeysDataHeader + sizeof_InternalKey * keys_num.

(** Little-endian image of an unsigned integer of [n] bytes. *)
Fixpoint le_bytes (n : nat) (z : Z) : list Z :=
  match n with
  | O => []
  | S n => z mod 256 :: le_bytes n (z / 256)
  end.

Fixpoint le_value (l : list Z) : Z :=
  match l with
  | [] => 0
  | b :: l => b + 256 * le_value l
  end.

Section relkeys.
Context `{HE : EVP}.
(** The address a live context has in this process. *)
Variable addr_of : evp_ctx -> Z.

Definition ctx_image (p : ctxptr) : list Z :=
  match p with
  | CtxNull => le_bytes 8 0
  | CtxLive c => le_bytes 8 (addr_of c)
  | CtxWild a => le_bytes 8 a
  end.

(** Reading a pointer back: only NULL is meaningful in another process. *)
Definition ctx_of_image (l : list Z) : ctxptr :=
  if le_value l =? 0 then CtxNull else CtxWild (le_value l).

Definition InternalKey_image (ik : InternalKey) : list Z :=
  key ik ++ le_bytes 8 (start_loc ik) ++ le_bytes 8 (end_loc ik) ++ ctx_image (ctx ik).

Definition InternalKey_of_image (l : list Z) : InternalKey :=
  {| key := take 16 l;
     start_loc := le_value (take 8 (drop 16 l));
     end_loc := le_value (take 8 (drop 24 l));
     ctx := ctx_of_image (take 8 (drop 32 l)) |}.

Definition RelKeysData_image (d : RelKeysData) : list Z :=
  master_key_name d ++ le_bytes 8 (internal_keys_len d)
    ++ mjoin (InternalKey_image <$> internal_key d).

Fixpoint InternalKeys_of_image (n : nat) (l : list Z) : list InternalKey :=
  match n with
  | O => []
  | S n => InternalKey_of_image (take 40 l) :: InternalKeys_of_image n (drop 40 l)
  end.

(** The structure that [nbytes] bytes read at its address make up. *)
Definition RelKeysData_of_image (l : list Z) : RelKeysData :=
  {| master_key_name := take 256 l;
     internal_keys_len := le_value (take 8 (drop 256 l));
     internal_key := InternalKeys_of_image ((length l - 264) / 40) (drop 264 l) |}.

(** A key structure as the program builds it. *)
Definition InternalKey_wf (ik : InternalKey) : Prop :=
  length (key ik) = 16%nat
  /\ 0 <= start_loc ik < 2 ^ 64 /\ 0 <= end_loc ik < 2 ^ 64 /\ ctx ik = CtxNull.

Definition RelKeysData_wf (d : RelKeysData) : Prop :=
  length (master_key_name d) = 256%nat /\ 0 <= internal_keys_len d < 2 ^ 64
  /\ Forall InternalKey_wf (internal_key d).

Lemma length_le_bytes n z : length (le_bytes n z) = n.
Proof. revert z. induction n; intros; cbn; [done|]. by rewrite IHn. Qed.

Lemma le_value_bytes n z : 0 <= z < 256 ^ Z.of_nat n -> le_value (le_bytes n z) = z.
Proof.
  revert z. induction n as [|n IH]; intros z Hz; cbn [le_bytes le_value].
  - change (Z.of_nat 0) with 0 in Hz. lia.
  - rewrite Nat2Z.inj_succ, Z.pow_succ_r in Hz by lia.
    rewrite IH; [|split; [apply Z.div_pos; lia|apply Z.div_lt_upper_bound; lia]].
    pose proof (Z_div_mod_eq_full z 256). lia.
Qed.

Lemma length_InternalKey_image ik :
  InternalKey_wf ik -> length (InternalKey_image ik) = 40%nat.
Proof.
  intros (Hk & _ & _ & Hc). unfold InternalKey_image. rewrite Hc.
  rewrite !length_app, Hk. cbn [ctx_image]. rewrite !length_le_bytes. done.
Qed.

Lemma take_at (n m : nat) (a b : list Z) :
  length a = n -> take m (drop n (a ++ b)) = take m b.
Proof. intros <-. by rewrite drop_app_length. Qed.

Lemma InternalKey_image_roundtrip ik :
  InternalKey_wf ik -> InternalKey_of_image (InternalKey_image ik) = ik.
Proof.
  intros (Hk & Hs & He & Hc). destruct ik as [k s e c];
    cbn [key start_loc end_loc ctx] in *. subst c.
  unfold InternalKey_of_image, InternalKey_image. cbn [key start_loc end_loc ctx].
  assert (L : forall z, length (le_bytes 8 z) = 8%nat) by (intros; apply length_le_bytes).
  assert (V : forall z, 0 <= z < 2 ^ 64 -> le_value (le_bytes 8 z) = z)
    by (intros; apply le_value_bytes; lia).
  f_equal.
  - by rewrite take_app_length'.
  - rewrite (take_at 16), take_app_length' by done. auto.
  - rewrite app_assoc, (take_at 24), take_app_length' by (rewrite ?length_app, ?L; lia). auto.
  - rewrite !app_assoc, drop_app_length' by (rewrite !length_app, !L; lia). done.
Qed.

Lemma InternalKeys_image_roundtrip (iks : list InternalKey) :
  Forall InternalKey_wf iks ->
  InternalKeys_of_image (length iks) (mjoin (InternalKey_image <$> iks)) = iks.
Proof.
  induction 1 as [|ik iks Hik _ IH]; [done|].
  change (mjoin (InternalKey_image <$> ik :: iks))
    with (InternalKey_image ik ++ mjoin (InternalKey_image <$> iks)).
  cbn [InternalKeys_of_image length].
  rewrite take_app_length', drop_app_length' by (symmetry; by apply length_InternalKey_image).
  rewrite InternalKey_image_roundtrip by done. by rewrite IH.
Qed.

Lemma length_InternalKeys_image (iks : list InternalKey) :
  Forall InternalKey_wf iks ->
  length (mjoin (InternalKey_image <$> iks)) = (40 * length iks)%nat.
Proof.
  induction 1 as [|ik iks Hik _ IH]; [done|].
  change (mjoin (InternalKey_image <$> ik :: iks))
    with (InternalKey_image ik ++ mjoin (InternalKey_image <$> iks)).
  rewrite length_app, IH, length_InternalKey_image by done. cbn [length]. lia.
Qed.

Lemma length_RelKeysData_image d :
  RelKeysData_wf d ->
  length (RelKeysData_image d) = Z.to_nat (SizeOfRelKeysData (Z.of_nat (length (internal_key d)))).
Proof.
  intros (Hn & _ & Hks). unfold RelKeysData_image, SizeOfRelKeysData,
    SizeOfRelKeysDataHeader, MASTER_KEY_NAME_LEN, sizeof_InternalKey, sizeof_Size,
    INTERNAL_KEY_LEN.
  rewrite !length_app, Hn, length_le_bytes, length_InternalKeys_image by done. lia.
Qed.

Lemma RelKeysData_image_roundtrip d :
  RelKeysData_wf d -> RelKeysData_of_image (RelKeysData_image d) = d.
Proof.
  intros Hd. pose proof (length_RelKeysData_image d Hd) as Hlen.
  destruct Hd as (Hn & Hi & Hks). destruct d as [n i iks];
    cbn [master_key_name internal_keys_len internal_key] in *.
  unfold RelKeysData_of_image. rewrite Hlen.
  replace ((Z.to_nat (SizeOfRelKeysData (Z.of_nat (length iks))) - 264) / 40)%nat
    with (length iks).
  2: { unfold SizeOfRelKeysData, SizeOfRelKeysDataHeader, MASTER_KEY_NAME_LEN,
         sizeof_InternalKey, sizeof_Size, INTERNAL_KEY_LEN.
       replace (Z.to_nat _ - 264)%nat with (length iks * 40)%nat by lia.
       by rewrite Nat.div_mul. }
  unfold RelKeysData_image. cbn [master_key_name internal_keys_len internal_key].
  rewrite (take_at 256) by done. rewrite app_assoc.
  rewrite (drop_app_length' (n ++ _)) by (rewrite length_app, length_le_bytes; lia).
  rewrite <- app_assoc, (take_app_length' n) by done.
  rewrite (take_app_length' (le_bytes 8 i)) by (by rewrite length_le_bytes).
  rewrite le_value_bytes by lia.
  by rewrite InternalKeys_image_roundtrip.
Qed.
End relkeys.
