(* ===== verification/EncTuple.v ===== *)
(** Encryption of data by file position:
    src/src/encryption/enc_tuple.c and the macros of enc_tuple.h, down to
    the functions that need the key map ([TupleIO]). *)
From S2P Require Import Prelude EncAes RelKeys.

(** The page size PostgreSQL was configured with: a power of two from
    1 kB to 32 kB. *)
Class PgBlockSize := { BLCKSZ : Z }.
Class PgBlockSizeLaws `{PgBlockSize} := {
  BLCKSZ_pow2 : exists k, 10 <= k <= 15 /\ BLCKSZ = 2 ^ k
}.

(** A tuple as [HeapTupleData] describes it: [t_data] holds the bytes
    [t_data] points to, [t_at] is that pointer less the address of the
    page, and [t_hoff] the field of the tuple header. *)
Record HeapTupleData := {
  t_len : Z;
  t_at : Z;
  t_hoff : Z;
  t_data : list Z;
}.

Section crypt.
Context `{HE : EVP} `{HS : CIntShift}.
Variable g : AesGlobals.

(** [Aes128EncryptedZeroBlocks(&(keys->internal_key[0].ctx),
    keys->internal_key[0].key, ...)] on the shared key structure. *)
Definition keys_zero_blocks (b1 b2 : Z) : M RelKeysData (list Z) := fun keys =>
  match internal_key keys with
  | [] => (Undefined, keys)
  | ik :: rest =>
      let '(r, c) := Aes128EncryptedZeroBlocks g (key ik) b1 b2 (ctx ik) in
      (r, {| master_key_name := master_key_name keys;
             internal_keys_len := internal_keys_len keys;
             internal_key := {| key := key ik; start_loc := start_loc ik;
                                end_loc := end_loc ik; ctx := c |} :: rest |})
  end.

(** The byte loop of one batch: [i] counts up to [current_batch_bytes]. *)
Fixpoint crypt_bytes (n : nat) (i aes_block_no batch_no data_index : Z)
  (data enc_key out : list Z) : option (list Z * Z) :=
  match n with
  | O => Some (out, data_index)
  | S n =>
      let enc_key_index := u32 (i + (if 0 <? batch_no then 0 else aes_block_no)) in
      match rd data data_index, rd enc_key enc_key_index with
      | Some d, Some k =>
          match wr out data_index (Z.lxor d k) with
          | Some out' =>
              crypt_bytes n (i + 1) aes_block_no batch_no (u32 (data_index + 1))
                data enc_key out'
          | None => None
          end
      | _, _ => None
      end
  end.

(** The batch loop. *)
Fixpoint crypt_batches (fuel : nat) (aes_end_block aes_block_no data_len : Z)
  (batch_start_block batch_no data_index : Z) (data out : list Z)
  : M RelKeysData (list Z) :=
  match fuel with
  | O => nofuel
  | S fuel =>
      if batch_start_block <? aes_end_block then
        let batch_end_block :=
          Z.min (u64 (batch_start_block + NUM_AES_BLOCKS_IN_BATCH)) aes_end_block in
        let* enc_key := keys_zero_blocks batch_start_block batch_end_block in
        let current_batch_bytes :=
          u32 ((batch_end_block - batch_start_block) * AES_BLOCK_SIZE
               - (if 0 <? batch_no then 0 else aes_block_no)) in
        let current_batch_bytes :=
          if data_len <? u32 (data_index + current_batch_bytes)
          then u32 (data_len - data_index) else current_batch_bytes in
        let* r := defined (crypt_bytes (Z.to_nat current_batch_bytes) 0 aes_block_no
                             batch_no data_index data enc_key out) in
        crypt_batches fuel aes_end_block aes_block_no data_len
          (u64 (batch_start_block + NUM_AES_BLOCKS_IN_BATCH)) (u32 (batch_no + 1))
          (snd r) data (fst r)
      else ret out
  end.

(** [out] is the output buffer before the call; the result is the buffer
    after it. *)
Definition pg_tde_crypt (start_offset : Z) (data : list Z) (data_len : Z) (out : list Z)
  : M RelKeysData (list Z) :=
  let aes_start_block := start_offset / AES_BLOCK_SIZE in
  let aes_end_block := u64 (start_offset + data_len + (AES_BLOCK_SIZE - 1)) / AES_BLOCK_SIZE in
  let aes_block_no := start_offset mod AES_BLOCK_SIZE in
  crypt_batches (S (Z.to_nat (aes_end_block - aes_start_block))) aes_end_block aes_block_no
    data_len aes_start_block 0 0 data out.

(** [read_data] and [write_data] are addresses in the same memory, here
    positions [read_at] and [write_at] of [mem]; [decrypted] is local. *)
Fixpoint move_loop (fuel : nat) (read_start_offset read_at write_start_offset write_at
  data_len bytes_left curr_offset : Z) (mem : list Z) : M RelKeysData (list Z) :=
  match fuel with
  | O => nofuel
  | S fuel =>
      if 0 <? bytes_left then
        let batch_len := Z.min (Z.min DATA_BYTES_PER_AES_BATCH data_len) bytes_left in
        let* src := defined (rd_bytes mem (read_at + curr_offset) batch_len) in
        let* decrypted := pg_tde_crypt (u64 (read_start_offset + curr_offset)) src batch_len
                            (replicate (Z.to_nat batch_len) 0) in
        let* dst := defined (rd_bytes mem (write_at + curr_offset) batch_len) in
        let* enc := pg_tde_crypt (u64 (write_start_offset + curr_offset)) decrypted
                      batch_len dst in
        let* mem' := defined (wr_bytes mem (write_at + curr_offset) enc) in
        move_loop fuel read_start_offset read_at write_start_offset write_at data_len
          (u32 (bytes_left - batch_len)) (u32 (curr_offset + batch_len)) mem'
      else ret mem
  end.

Definition pg_tde_move_encrypted_data (read_start_offset read_at write_start_offset
  write_at data_len : Z) (mem : list Z) : M RelKeysData (list Z) :=
  move_loop (S (Z.to_nat data_len)) read_start_offset read_at write_start_offset write_at
    data_len data_len 0 mem.

Context `{HB : PgBlockSize}.

(** [(bn * BLCKSZ) + offset]: the product of a [BlockNumber] and an [int]
    is computed in 32 bits, the sum in 64. *)
Definition offset_in_file (bn offset_in_page : Z) : Z :=
  u64 (u32 (bn * BLCKSZ) + offset_in_page).

(** The result is the memory of [out_tuple]'s [t_data]. *)
Definition pg_tde_crypt_tuple (bn : Z) (tuple out_tuple : HeapTupleData)
  : M RelKeysData (list Z) :=
  let data_len := u32 (t_len tuple - t_hoff tuple) in
  let tuple_offset_in_file := offset_in_file bn (t_at tuple) in
  let tup_data := drop (Z.to_nat (t_hoff tuple)) (t_data tuple) in
  let out_data := drop (Z.to_nat (t_hoff out_tuple)) (t_data out_tuple) in
  let* out := pg_tde_crypt tuple_offset_in_file tup_data data_len out_data in
  defined (wr_bytes (t_data out_tuple) (t_hoff out_tuple) out).

(** [PG_TDE_ENCRYPT_PAGE_ITEM]: encrypt [data] to position [at] of [page]. *)
Definition PG_TDE_ENCRYPT_PAGE_ITEM (bn offset_in_page : Z) (data : list Z)
  (data_len : Z) (page : list Z) (at_ : Z) : M RelKeysData (list Z) :=
  let* dst := defined (rd_bytes page at_ data_len) in
  let* out := pg_tde_crypt (offset_in_file bn offset_in_page) data data_len dst in
  defined (wr_bytes page at_ out).

Definition PG_TDE_RE_ENCRYPT_TUPLE_DATA (read_bn read_offset_in_page read_at
  write_bn write_offset_in_page write_at data_len : Z) (mem : list Z)
  : M RelKeysData (list Z) :=
  pg_tde_move_encrypted_data (offset_in_file read_bn read_offset_in_page) read_at
    (offset_in_file write_bn write_offset_in_page) write_at data_len mem.

(** ** Specification *)

Context `{HL : !EVPLaws}.

(** The bytes [l] of the file from position [start], xored with the
    stream of the key: encryption and decryption at that position. *)
Definition stream_xor (k : list Z) (start : Z) (l : list Z) : list Z :=
  imap (fun i b => Z.lxor b (keystream k (start + Z.of_nat i))) l.

(** The first internal key is [k] and its context slot is usable. *)
Definition keys_ready (keys : RelKeysData) (k : list Z) : Prop :=
  exists ik rest, internal_key keys = ik :: rest /\ key ik = k
                  /\ length k = 16%nat /\ slot_ready (ctx ik) k.

(** Two key structures that differ in cached contexts only. *)
Definition same_key (i i' : InternalKey) : Prop :=
  key i = key i' /\ start_loc i = start_loc i' /\ end_loc i = end_loc i'.

Definition same_keys (d d' : RelKeysData) : Prop :=
  master_key_name d = master_key_name d' /\ internal_keys_len d = internal_keys_len d'
  /\ Forall2 same_key (internal_key d) (internal_key d').

#[export] Instance same_key_equiv : Equivalence same_key.
Proof. split; unfold same_key; repeat intro; intuition congruence. Qed.

#[export] Instance same_keys_equiv : Equivalence same_keys.
Proof.
  split; unfold same_keys.
  - intros d. split_and!; done.
  - intros d d' (? & ? & ?). split_and!; [done..|]. by symmetry.
  - intros d1 d2 d3 (? & ? & ?) (? & ? & ?). split_and!; [congruence..|]. by etrans.
Qed.

(** The positions the AES layer can address: its counter is an [int]. *)
Definition crypt_bounds (start len : Z) : Prop :=
  0 <= start /\ 0 <= len /\ len + 1600 <= 2 ^ 32 /\ start + len + 15 < 2 ^ 35.

Lemma length_stream_xor k start l : length (stream_xor k start l) = length l.
Proof. apply length_imap. Qed.

Lemma stream_xor_app k start a b :
  stream_xor k start (a ++ b) =
  stream_xor k start a ++ stream_xor k (start + Z.of_nat (length a)) b.
Proof.
  unfold stream_xor. rewrite imap_app. f_equal. apply imap_ext.
  intros i x _. cbn. do 2 f_equal. lia.
Qed.

Lemma lookup_stream_xor k start l i :
  stream_xor k start l !! i =
  (fun b => Z.lxor b (keystream k (start + Z.of_nat i))) <$> l !! i.
Proof. apply list_lookup_imap. Qed.

Lemma stream_xor_involutive k start l : stream_xor k start (stream_xor k start l) = l.
Proof.
  apply list_eq. intros i. rewrite !lookup_stream_xor.
  destruct (l !! i); cbn; [|done]. by rewrite lxor_cancel.
Qed.

Lemma stream_xor_take k start l n :
  stream_xor k start (take n l) = take n (stream_xor k start l).
Proof.
  apply list_eq. intros i. rewrite lookup_stream_xor, !lookup_take, lookup_stream_xor.
  by destruct (decide _).
Qed.

(** The output buffer with its first [p] bytes done. *)
Definition crypted (k : list Z) (start : Z) (data out : list Z) (p : nat) : list Z :=
  take p (stream_xor k start data) ++ drop p out.

Lemma wr_crypted k start data out (p : nat) d :
  data !! p = Some d -> (p < length out)%nat ->
  wr (crypted k start data out p) (Z.of_nat p)
     (Z.lxor d (keystream k (start + Z.of_nat p))) =
  Some (crypted k start data out (S p)).
Proof.
  intros Hd Ho. pose proof (lookup_lt_Some _ _ _ Hd) as Hlt. unfold crypted.
  destruct (lookup_lt_is_Some_2 out p Ho) as [o Hout].
  rewrite (drop_S out o p Hout).
  rewrite (insert_after_prefix _ _ _ 0)
    by (rewrite ?length_take, ?length_stream_xor; cbn [length]; lia).
  f_equal. cbn [insert list_insert].
  erewrite (take_S_r (stream_xor k start data)) by (rewrite lookup_stream_xor, Hd; done).
  by rewrite <- app_assoc.
Qed.

Lemma crypt_bytes_spec k start (n : nat) (i off batch_no : Z) (p : nat) data enc out :
  0 <= i -> 0 <= (if 0 <? batch_no then 0 else off) <= 15 ->
  i + Z.of_nat n <= 1600 -> Z.of_nat (p + n) < 2 ^ 32 ->
  (p + n <= length data)%nat -> (p + n <= length out)%nat ->
  (forall m : nat, (m < n)%nat ->
     enc !! Z.to_nat (i + Z.of_nat m + (if 0 <? batch_no then 0 else off)) =
       Some (keystream k (start + Z.of_nat (p + m)))) ->
  crypt_bytes n i off batch_no (Z.of_nat p) data enc (crypted k start data out p) =
    Some (crypted k start data out (p + n), Z.of_nat (p + n)).
Proof.
  revert i p. induction n as [|n IH]; intros i p Hi Ho Hin Hp Hd Hout Henc;
    cbn [crypt_bytes]; [by rewrite Nat.add_0_r|].
  set (o := if 0 <? batch_no then 0 else off) in *.
  rewrite (uwrap_small 32) by lia.
  destruct (lookup_lt_is_Some_2 data p) as [d Hdp]; [lia|].
  rewrite (proj2 (rd_Some data (Z.of_nat p) d)) by (rewrite Nat2Z.id; split; [lia|done]).
  specialize (Henc 0%nat) as H0. rewrite Nat.add_0_r, Z.add_0_r in H0.
  rewrite (proj2 (rd_Some enc (i + o) (keystream k (start + Z.of_nat p))))
    by (split; [lia|apply H0; lia]).
  rewrite wr_crypted by (done || lia).
  rewrite uwrap_small by lia.
  replace (Z.of_nat p + 1) with (Z.of_nat (S p)) by lia.
  rewrite IH; [by replace (S p + n)%nat with (p + S n)%nat by lia|lia|done|lia..|].
  intros m Hm. specialize (Henc (S m)). fold o.
  replace (i + 1 + Z.of_nat m + o) with (i + Z.of_nat (S m) + o) by lia.
  rewrite Henc by lia. do 2 f_equal. lia.
Qed.

Lemma keys_zero_blocks_spec keys k b1 b2 :
  aes_initialized g -> keys_ready keys k ->
  0 <= b1 <= b2 -> b2 < 2 ^ 31 -> (b2 - b1) * 16 <= 1600 ->
  exists keys', keys_zero_blocks b1 b2 keys =
                  (Ret (keystream_blocks k b1 (Z.to_nat (b2 - b1))), keys')
                /\ keys_ready keys' k /\ same_keys keys keys'.
Proof.
  intros Hg (ik & rest & Hik & Hk & Hlen & Hs) Hb Hb2 Hn.
  destruct (Aes128EncryptedZeroBlocks_keystream g k b1 b2 (ctx ik) Hg Hlen Hs)
    as (c & Hc & Hs'); [lia|lia|unfold DATA_BYTES_PER_AES_BATCH, NUM_AES_BLOCKS_IN_BATCH, AES_BLOCK_SIZE; lia|].
  unfold keys_zero_blocks. rewrite Hik, Hk, Hc. eexists; split; [reflexivity|].
  split; [eexists _, rest; split_and!; cbn; done|].
  unfold same_keys, same_key. rewrite Hik. cbn. split_and!; try done.
  by constructor.
Qed.

(** One batch, from [p] done bytes to [16 * be - start] or the end. *)
Definition batch_at (start len bs end_ batch_no : Z) (p : nat) : Prop :=
  0 <= batch_no <= bs /\ start / 16 <= bs /\
  (bs < end_ -> Z.of_nat p = (if 0 <? batch_no then 16 * bs - start else 0)
                /\ (batch_no = 0 -> bs = start / 16)) /\
  (end_ <= bs -> Z.of_nat p = len).

Lemma crypt_batches_spec (fuel : nat) k start len bs batch_no (p : nat) data out keys :
  aes_initialized g -> keys_ready keys k -> crypt_bounds start len ->
  len <= Z.of_nat (length data) -> len <= Z.of_nat (length out) ->
  Z.of_nat p <= len ->
  batch_at start len bs ((start + len + 15) / 16) batch_no p ->
  Z.max 0 ((start + len + 15) / 16 - bs) < Z.of_nat fuel ->
  exists keys',
    crypt_batches fuel ((start + len + 15) / 16) (start mod 16) len bs batch_no
      (Z.of_nat p) data (crypted k start data out p) keys =
      (Ret (crypted k start data out (Z.to_nat len)), keys')
    /\ keys_ready keys' k /\ same_keys keys keys'.
Proof.
  intros Hg Hr (Hs0 & Hl0 & Hl32 & Hs35) Hd Ho.
  set (e := (start + len + 15) / 16) in *.
  assert (He : 16 * e <= start + len + 15 < 16 * e + 16)
    by (unfold e; pose proof (Z.div_mod (start + len + 15) 16);
        pose proof (Z.mod_pos_bound (start + len + 15) 16); lia).
  pose proof (Z.div_mod start 16 ltac:(lia)) as Hst.
  pose proof (Z.mod_pos_bound start 16 ltac:(lia)) as Hsm.
  revert bs batch_no p keys Hr. induction fuel as [|fuel IH];
    intros bs batch_no p keys Hr Hp (Hbn & Hbs & Hlt & Hge) Hf; cbn [crypt_batches].
  { lia. }
  destruct (Z.ltb_spec bs e) as [Hbe|Hbe].
  2: { specialize (Hge Hbe). replace (Z.to_nat len) with p by lia. by exists keys. }
  destruct (Hlt Hbe) as [Hpe Hfirst]. clear Hlt Hge.
  unfold NUM_AES_BLOCKS_IN_BATCH, AES_BLOCK_SIZE.
  set (o := if 0 <? batch_no then 0 else start mod 16) in *.
  assert (Ho' : 0 <= o <= 15 /\ 16 * bs + o = start + Z.of_nat p).
  { unfold o. destruct (Z.ltb_spec 0 batch_no); [lia|].
    rewrite Hfirst by lia. lia. }
  rewrite (uwrap_small 64 (bs + 100)) by lia.
  set (be := Z.min (bs + 100) e).
  destruct (keys_zero_blocks_spec keys k bs be Hg Hr) as (keys1 & Hz & Hr1 & Hk1);
    [lia..|].
  mstep Hz. rewrite (uwrap_small 32 (_ * 16 - o)) by lia.
  rewrite (uwrap_small 32 (Z.of_nat p + _)) by lia.
  rewrite (uwrap_small 32 (len - Z.of_nat p)) by lia.
  rewrite (uwrap_small 32 (batch_no + 1)) by lia.
  set (cur := if len <? _ then _ else _).
  assert (Hcur : 0 <= cur <= (be - bs) * 16 - o /\
                 Z.of_nat p + cur = Z.min len (16 * be - start))
    by (unfold cur; destruct (Z.ltb_spec len (Z.of_nat p + ((be - bs) * 16 - o))); lia).
  rewrite (crypt_bytes_spec k start (Z.to_nat cur) 0 _ batch_no p)
    by first [lia | intros m Hm; fold o; rewrite lookup_keystream_blocks by lia;
                    do 2 f_equal; lia].
  cbn [defined fst snd]. rewrite bind_ret_l. cbn [fst snd].
  destruct (IH (bs + 100) (batch_no + 1) (p + Z.to_nat cur)%nat keys1 Hr1)
    as (keys2 & Hc & Hr2 & Hk2); [lia| |lia|].
  - unfold batch_at. split_and!; [lia..| |lia].
    intros ?. destruct (Z.ltb_spec 0 (batch_no + 1)); lia.
  - exists keys2. split_and!; [exact Hc|done|by etrans].
Qed.

(** [pg_tde_crypt] xors the first [data_len] bytes with the stream of
    the file position, however the batches fall. *)
Lemma pg_tde_crypt_spec k start len data out keys :
  aes_initialized g -> keys_ready keys k -> crypt_bounds start len ->
  len <= Z.of_nat (length data) -> len <= Z.of_nat (length out) ->
  exists keys',
    pg_tde_crypt start data len out keys =
      (Ret (stream_xor k start (take (Z.to_nat len) data) ++ drop (Z.to_nat len) out), keys')
    /\ keys_ready keys' k /\ same_keys keys keys'.
Proof.
  intros Hg Hr Hb Hd Ho. rewrite stream_xor_take.
  pose proof Hb as (Hs0 & Hl0 & Hl32 & Hs35).
  unfold pg_tde_crypt, AES_BLOCK_SIZE. rewrite uwrap_small by lia.
  replace (start + len + (16 - 1)) with (start + len + 15) by lia.
  pose proof (Z.div_mod (start + len + 15) 16 ltac:(lia)).
  pose proof (Z.mod_pos_bound (start + len + 15) 16 ltac:(lia)).
  pose proof (Z.div_mod start 16 ltac:(lia)).
  pose proof (Z.mod_pos_bound start 16 ltac:(lia)).
  apply (crypt_batches_spec _ k start len (start / 16) 0 0 data out keys);
    try done; try lia.
  unfold batch_at. cbn. lia.
Qed.

(** What moving [l] from file position [ro] to [wo] does to its bytes. *)
Definition stream_move (k : list Z) (ro wo : Z) (l : list Z) : list Z :=
  stream_xor k wo (stream_xor k ro l).

Lemma length_stream_move k ro wo l : length (stream_move k ro wo l) = length l.
Proof. unfold stream_move. by rewrite !length_stream_xor. Qed.

Lemma stream_move_app k ro wo a b :
  stream_move k ro wo (a ++ b) =
  stream_move k ro wo a
    ++ stream_move k (ro + Z.of_nat (length a)) (wo + Z.of_nat (length a)) b.
Proof. unfold stream_move. by rewrite !stream_xor_app, length_stream_xor. Qed.

Lemma crypt_bounds_sub start len curr n :
  crypt_bounds start len -> 0 <= curr -> 0 <= n -> curr + n <= len ->
  crypt_bounds (start + curr) n.
Proof. unfold crypt_bounds. lia. Qed.

Lemma move_loop_spec (fuel : nat) k ro wo at_ len bl curr mem keys :
  aes_initialized g -> keys_ready keys k ->
  crypt_bounds ro len -> crypt_bounds wo len ->
  0 <= at_ -> at_ + len <= Z.of_nat (length mem) ->
  0 <= curr -> 0 <= bl -> curr + bl = len -> bl < Z.of_nat fuel ->
  let slice := take (Z.to_nat len) (drop (Z.to_nat at_) mem) in
  exists keys',
    move_loop fuel ro at_ wo at_ len bl curr
      (splice mem (Z.to_nat at_) (stream_move k ro wo (take (Z.to_nat curr) slice))) keys =
      (Ret (splice mem (Z.to_nat at_) (stream_move k ro wo slice)), keys')
    /\ keys_ready keys' k /\ same_keys keys keys'.
Proof.
  intros Hg Hr Hro Hwo Ha Hm Hc Hbl Hcb Hf slice.
  assert (Hsl : length slice = Z.to_nat len)
    by (unfold slice; rewrite length_take, length_drop; lia).
  pose proof Hro as (? & ? & ? & ?). pose proof Hwo as (? & ? & ? & ?).
  revert bl curr keys Hr Hc Hbl Hcb Hf.
  induction fuel as [|fuel IH]; intros bl curr keys Hr Hc Hbl Hcb Hf; [lia|].
  cbn [move_loop]. destruct (Z.ltb_spec 0 bl) as [Hpos|Hz].
  2: { rewrite (firstn_all2 slice) by lia. by exists keys. }
  unfold DATA_BYTES_PER_AES_BATCH, NUM_AES_BLOCKS_IN_BATCH, AES_BLOCK_SIZE.
  set (n := Z.min (Z.min (100 * 16) len) bl).
  set (done_ := stream_move k ro wo (take (Z.to_nat curr) slice)).
  assert (Hdone : length done_ = Z.to_nat curr)
    by (unfold done_; rewrite length_stream_move, length_take; lia).
  set (cur := splice mem (Z.to_nat at_) done_).
  assert (Hcur : length cur = length mem) by (apply length_splice; lia).
  set (seg := take (Z.to_nat n) (drop (Z.to_nat curr) slice)).
  assert (Hseg : length seg = Z.to_nat n)
    by (unfold seg; rewrite length_take, length_drop; lia).
  assert (Hrd : rd_bytes cur (at_ + curr) n = Some seg).
  { rewrite rd_bytes_Some by lia. f_equal. unfold cur.
    rewrite drop_splice by lia. unfold seg, slice.
    rewrite skipn_firstn_comm, drop_drop, take_take. f_equal; [lia|].
    f_equal. lia. }
  rewrite Hrd. cbn [defined]. rewrite bind_ret_l.
  rewrite !uwrap_small by lia.
  destruct (pg_tde_crypt_spec k (ro + curr) n seg (replicate (Z.to_nat n) 0) keys)
    as (keys1 & Hc1 & Hr1 & Hk1);
    [done|done|apply (crypt_bounds_sub ro len); lia || done|lia|rewrite length_replicate; lia|].
  mstep Hc1. cbn [defined]. rewrite bind_ret_l.
  rewrite (drop_ge (replicate _ _)), app_nil_r by (rewrite length_replicate; lia).
  rewrite (take_ge seg) by lia.
  destruct (pg_tde_crypt_spec k (wo + curr) n (stream_xor k (ro + curr) seg) seg keys1)
    as (keys2 & Hc2 & Hr2 & Hk2);
    [done|done|apply (crypt_bounds_sub wo len); lia || done
    |rewrite length_stream_xor; lia|lia|].
  mstep Hc2. rewrite (drop_ge seg), app_nil_r by lia.
  rewrite take_ge by (rewrite length_stream_xor; lia).
  rewrite wr_bytes_Some by (rewrite ?length_stream_xor; lia).
  cbn [defined]. rewrite bind_ret_l.
  replace (Z.to_nat (at_ + curr)) with (Z.to_nat at_ + length done_)%nat by lia.
  unfold cur. rewrite splice_adjacent by lia.
  destruct (IH (bl - n) (curr + n) keys2) as (keys3 & Hc3 & Hr3 & Hk3); try lia; [done|].
  exists keys3. split_and!; [|done|by do 2 (etrans; [eassumption|])].
  rewrite <- Hc3. f_equal. f_equal.
  replace (Z.to_nat (curr + n)) with (Z.to_nat curr + Z.to_nat n)%nat by lia.
  rewrite <- take_take_drop, stream_move_app. fold done_ seg.
  rewrite length_take. replace (Z.of_nat (_ `min` _)) with curr by lia. done.
Qed.

(** Re-encrypting in place, from file position [ro] to [wo]. *)
Lemma pg_tde_move_encrypted_data_spec k ro wo at_ len mem keys :
  aes_initialized g -> keys_ready keys k ->
  crypt_bounds ro len -> crypt_bounds wo len ->
  0 <= at_ -> at_ + len <= Z.of_nat (length mem) ->
  exists keys',
    pg_tde_move_encrypted_data ro at_ wo at_ len mem keys =
      (Ret (splice mem (Z.to_nat at_)
              (stream_move k ro wo (take (Z.to_nat len) (drop (Z.to_nat at_) mem)))), keys')
    /\ keys_ready keys' k /\ same_keys keys keys'.
Proof.
  intros Hg Hr Hro Hwo Ha Hm. pose proof Hro as (? & ? & ? & ?).
  destruct (move_loop_spec (S (Z.to_nat len)) k ro wo at_ len len 0 mem keys)
    as (keys' & Hc & Hr' & Hk); try done; try lia.
  exists keys'. split_and!; [|done..]. unfold pg_tde_move_encrypted_data.
  rewrite <- Hc. change (Z.to_nat 0) with 0%nat. cbn [take].
  by rewrite splice_nil.
Qed.

(** ** It does not matter which contexts are cached *)

Definition both_ready (k : list Z) (d d' : RelKeysData) : Prop := keys_ready d k /\ keys_ready d' k.

Section alike.
Variable k : list Z.
Hypothesis Hg : aes_initialized g.

Lemma keys_zero_blocks_alike b1 b2 : alike (both_ready k) (keys_zero_blocks b1 b2) (keys_zero_blocks b1 b2).
Proof.
  intros d d' [(ik & rest & E & Hk & Hl & Hs) (ik' & rest' & E' & Hk' & _ & Hs')].
  pose proof (Aes128EncryptedZeroBlocks_alike g k b1 b2 Hg Hl (ctx ik) (ctx ik') (conj Hs Hs')) as H.
  unfold keys_zero_blocks. rewrite E, E', Hk, Hk'.
  destruct (Aes128EncryptedZeroBlocks g k b1 b2 (ctx ik)) as [o c], (Aes128EncryptedZeroBlocks g k b1 b2 (ctx ik')) as [o' c'].
  destruct H as [Ho [Hc Hc']]. split; [exact Ho|]. split; eexists _, _; split_and!; cbn; done.
Qed.
#[local] Hint Resolve keys_zero_blocks_alike : alike.

Lemma crypt_batches_alike fuel e bno len bs b p data out :
  alike (both_ready k) (crypt_batches fuel e bno len bs b p data out) (crypt_batches fuel e bno len bs b p data out).
Proof. revert bs b p out. induction fuel as [|fuel IH]; intros; cbn [crypt_batches]; alike. Qed.

Lemma pg_tde_crypt_alike start data len out :
  alike (both_ready k) (pg_tde_crypt start data len out) (pg_tde_crypt start data len out).
Proof. apply crypt_batches_alike. Qed.
#[local] Hint Resolve pg_tde_crypt_alike : alike.

Lemma move_loop_alike fuel ro ra wo wa len bl curr mem :
  alike (both_ready k) (move_loop fuel ro ra wo wa len bl curr mem) (move_loop fuel ro ra wo wa len bl curr mem).
Proof. revert bl curr mem. induction fuel as [|fuel IH]; intros; cbn [move_loop]; alike. Qed.

Lemma PG_TDE_RE_ENCRYPT_TUPLE_DATA_alike rb ro ra wb wo wa len mem :
  alike (both_ready k) (PG_TDE_RE_ENCRYPT_TUPLE_DATA rb ro ra wb wo wa len mem) (PG_TDE_RE_ENCRYPT_TUPLE_DATA rb ro ra wb wo wa len mem).
Proof. apply move_loop_alike. Qed.
End alike.
End crypt.

(** ** Positions in the file *)

Section positions.
Context `{HE : EVP} `{HS : CIntShift} `{HL : !EVPLaws}.
Context `{HB : PgBlockSize} `{HBL : !PgBlockSizeLaws}.
Variable g : AesGlobals.

Lemma land_255 x : Z.land x 255 = x mod 256.
Proof. by apply (Z.land_ones x 8). Qed.

(** The low four bytes of the counter are those of [j], whatever the
    shifts by 32 and more produce. *)
Lemma counter_block_low j (k : nat) :
  (k < 4)%nat -> counter_block j !! (15 - k)%nat = Some (Z.shiftr j (8 * Z.of_nat k) mod 256).
Proof.
  intros Hk. rewrite <- land_255.
  destruct k as [|[|[|[|k]]]]; [reflexivity..|lia].
Qed.

Lemma counter_block_inj j j' :
  0 <= j < 2 ^ 31 -> 0 <= j' < 2 ^ 31 -> counter_block j = counter_block j' -> j = j'.
Proof.
  intros Hj Hj' H.
  assert (Hb : forall k : nat, (k < 4)%nat ->
    Z.shiftr j (8 * Z.of_nat k) mod 256 = Z.shiftr j' (8 * Z.of_nat k) mod 256).
  { intros k Hk. pose proof (counter_block_low j k Hk) as H1.
    pose proof (counter_block_low j' k Hk) as H2. rewrite H in H1. congruence. }
  assert (Hd : forall k : nat, (k < 4)%nat ->
    (j / 256 ^ Z.of_nat k) mod 256 = (j' / 256 ^ Z.of_nat k) mod 256).
  { intros k Hk. specialize (Hb k Hk). rewrite !Z.shiftr_div_pow2 in Hb by lia.
    by rewrite !Z.pow_mul_r in Hb by lia. }
  pose proof (Hd 0%nat ltac:(lia)) as H0. pose proof (Hd 1%nat ltac:(lia)) as H1.
  pose proof (Hd 2%nat ltac:(lia)) as H2. pose proof (Hd 3%nat ltac:(lia)) as H3.
  change (256 ^ Z.of_nat 0) with 1 in H0. change (256 ^ Z.of_nat 1) with 256 in H1.
  change (256 ^ Z.of_nat 2) with 65536 in H2. change (256 ^ Z.of_nat 3) with 16777216 in H3.
  clear -Hj Hj' H0 H1 H2 H3. Z.to_euclidean_division_equations. lia.
Qed.

Lemma stream_xor_drop k start l (n : nat) :
  (n <= length l)%nat ->
  drop n (stream_xor k start l) = stream_xor k (start + Z.of_nat n) (drop n l).
Proof.
  intros Hn. apply list_eq. intros i.
  rewrite lookup_stream_xor, !lookup_drop, lookup_stream_xor.
  destruct (l !! (n + i)%nat); cbn; [|done]. do 3 f_equal. lia.
Qed.

Lemma BLCKSZ_range : 1024 <= BLCKSZ <= 32768.
Proof.
  destruct BLCKSZ_pow2 as (k & Hk & ->).
  pose proof (Z.pow_le_mono_r 2 10 k ltac:(lia) ltac:(lia)).
  pose proof (Z.pow_le_mono_r 2 k 15 ltac:(lia) ltac:(lia)). lia.
Qed.

Lemma offset_in_file_small bn off :
  0 <= bn -> bn * BLCKSZ < 2 ^ 32 -> 0 <= off < 2 ^ 32 ->
  offset_in_file bn off = bn * BLCKSZ + off.
Proof.
  intros Hb Hn Ho. pose proof BLCKSZ_range. unfold offset_in_file.
  rewrite (uwrap_small 32) by nia. apply uwrap_small. nia.
Qed.

Lemma pg_tde_crypt_tuple_spec k bn (tuple : HeapTupleData) out_data keys :
  aes_initialized g -> keys_ready keys k ->
  t_len tuple = Z.of_nat (length (t_data tuple)) -> 0 <= t_hoff tuple <= t_len tuple ->
  0 <= bn -> bn * BLCKSZ < 2 ^ 32 -> 0 <= t_at tuple -> t_at tuple + t_len tuple <= BLCKSZ ->
  length out_data = length (t_data tuple) ->
  let h := Z.to_nat (t_hoff tuple) in
  exists keys',
    pg_tde_crypt_tuple g bn tuple
      {| t_len := t_len tuple; t_at := t_at tuple; t_hoff := t_hoff tuple;
         t_data := out_data |} keys =
      (Ret (take h out_data ++
            stream_xor k (bn * BLCKSZ + t_at tuple) (drop h (t_data tuple))), keys')
    /\ keys_ready keys' k /\ same_keys keys keys'.
Proof.
  intros Hg Hr Hlen Hh Hb Hbn Ha Hat Hout h. pose proof BLCKSZ_range as Hsz.
  unfold pg_tde_crypt_tuple. cbn [t_len t_at t_hoff t_data].
  rewrite uwrap_small by lia. rewrite offset_in_file_small by lia. fold h.
  assert (Hdl : forall l : list Z, length l = length (t_data tuple) ->
    length (drop h l) = Z.to_nat (t_len tuple - t_hoff tuple)).
  { intros l Hl. rewrite length_drop. unfold h. lia. }
  destruct (pg_tde_crypt_spec g k (bn * BLCKSZ + t_at tuple) (t_len tuple - t_hoff tuple)
    (drop h (t_data tuple)) (drop h out_data) keys) as (keys' & Hc & Hr' & Hs).
  - done.
  - done.
  - unfold crypt_bounds. lia.
  - rewrite Hdl by done. lia.
  - rewrite Hdl by done. lia.
  - exists keys'. split; [|done]. mstep Hc.
    rewrite (drop_ge (drop h out_data)), app_nil_r by (rewrite Hdl by done; lia).
    rewrite take_ge by (rewrite Hdl by done; lia).
    rewrite wr_bytes_Some by (rewrite ?length_stream_xor, ?Hdl by done; lia).
    cbn. unfold ret, splice. do 2 f_equal. fold h.
    rewrite length_stream_xor, Hdl by done.
    rewrite (drop_ge out_data) by (unfold h; lia). by rewrite app_nil_r.
Qed.
End positions.

(** ** Concrete values for witnesses *)
Module ToyPage.
Import ToyEVP.

#[export] Instance page8k : PgBlockSize := {| BLCKSZ := 8192 |}.
#[export] Instance page8k_laws : PgBlockSizeLaws.
Proof. constructor. exists 13. split; [lia|reflexivity]. Defined.

Definition toy_g : AesGlobals := AesInit AesGlobals0.
Definition toy_k : list Z := replicate 16 90.
Definition toy_keys : RelKeysData :=
  {| master_key_name := replicate 256 0; internal_keys_len := 1;
     internal_key := [{| key := toy_k; start_loc := 0; end_loc := 0; ctx := CtxNull |}] |}.

Lemma toy_g_ready : aes_initialized toy_g.
Proof. exact AesInit_initialized. Qed.
Lemma toy_keys_ready : keys_ready toy_keys toy_k.
Proof. eexists _, _. split_and!; reflexivity. Qed.
End ToyPage.
