(* ===== verification/EncClaims.v ===== *)
(** The properties of the AES layer and of the position-based encryption
    built on it. *)
From S2P Require Import Prelude EncAes RelKeys EncTuple.

Section crypt_claims.
Context `{HE : EVP} `{HS : CIntShift} `{HL : !EVPLaws}.
Context `{HB : PgBlockSize} `{HBL : !PgBlockSizeLaws}.
Variable g : AesGlobals.

(** ** Properties *)

(** C1: [pg_tde_crypt] is the reference stream cipher of a file
    position: the first [data_len] bytes of the output are the data xored
    with the key stream from [start_offset] on, the rest of the output is
    untouched, and only cached contexts of the key change - however the
    batches fall, at any alignment, whether or not a context is cached. *)
Theorem pg_tde_crypt_reference k start len data out keys :
  aes_initialized g -> keys_ready keys k -> crypt_bounds start len ->
  len <= Z.of_nat (length data) -> len <= Z.of_nat (length out) ->
  exists keys',
    pg_tde_crypt g start data len out keys =
      (Ret (stream_xor k start (take (Z.to_nat len) data) ++ drop (Z.to_nat len) out), keys')
    /\ keys_ready keys' k /\ same_keys keys keys'.
Proof. apply pg_tde_crypt_spec. Qed.

(** encryption and decryption: crypting a buffer and then, with any
    usable copy of the same key, any part of the result at the file
    position of that part gives the bytes of that part back. *)
Theorem pg_tde_crypt_slice_roundtrip k start data out keys keys2 (at_ n : nat) out2 :
  aes_initialized g -> keys_ready keys k -> keys_ready keys2 k ->
  crypt_bounds start (Z.of_nat (length data)) ->
  length out = length data -> (at_ + n <= length data)%nat -> length out2 = n ->
  exists enc keys' keys2',
    pg_tde_crypt g start data (Z.of_nat (length data)) out keys = (Ret enc, keys') /\
    pg_tde_crypt g (start + Z.of_nat at_) (take n (drop at_ enc)) (Z.of_nat n) out2 keys2 =
      (Ret (take n (drop at_ data)), keys2').
Proof.
  intros Hg Hr Hr2 Hb Ho Hn Ho2.
  destruct (pg_tde_crypt_spec g k start (Z.of_nat (length data)) data out keys)
    as (keys' & He & _ & _); [done..|lia|lia|].
  rewrite Nat2Z.id, take_ge, drop_ge, app_nil_r in He by lia.
  destruct (pg_tde_crypt_spec g k (start + Z.of_nat at_) (Z.of_nat n)
    (take n (drop at_ (stream_xor k start data))) out2 keys2) as (keys2' & Hd & _ & _);
    [done|done|apply (crypt_bounds_sub start (Z.of_nat (length data))); [done|lia..]
    |rewrite length_take, length_drop, length_stream_xor; lia|lia|].
  exists (stream_xor k start data), keys', keys2'. split; [done|]. rewrite Hd. do 2 f_equal.
  rewrite Nat2Z.id, (drop_ge out2), app_nil_r by lia. rewrite take_take, Nat.min_id.
  rewrite stream_xor_drop, <- stream_xor_take by lia.
  apply stream_xor_involutive.
Qed.

(** [pg_tde_move_encrypted_data] in place is decryption at the read
    position followed by encryption at the write position, and leaves
    the bytes around the range alone: what is read back at the write
    position afterwards is the plain text that was at the read
    position. *)
Theorem pg_tde_move_encrypted_data_reencrypts k ro wo at_ len mem keys plain :
  aes_initialized g -> keys_ready keys k -> crypt_bounds ro len -> crypt_bounds wo len ->
  0 <= at_ -> at_ + len <= Z.of_nat (length mem) ->
  plain = stream_xor k ro (take (Z.to_nat len) (drop (Z.to_nat at_) mem)) ->
  exists mem' keys',
    pg_tde_move_encrypted_data g ro at_ wo at_ len mem keys = (Ret mem', keys') /\
    same_keys keys keys' /\ length mem' = length mem /\
    stream_xor k wo (take (Z.to_nat len) (drop (Z.to_nat at_) mem')) = plain /\
    (forall i : nat, (Z.of_nat i < at_ \/ at_ + len <= Z.of_nat i) -> mem' !! i = mem !! i).
Proof.
  intros Hg Hr Hro Hwo Ha Hm ->. pose proof Hro as (? & ? & ? & ?).
  destruct (pg_tde_move_encrypted_data_spec g k ro wo at_ len mem keys)
    as (keys' & He & _ & Hs); [done..|].
  set (slice := take (Z.to_nat len) (drop (Z.to_nat at_) mem)) in *.
  assert (Hsl : length slice = Z.to_nat len)
    by (unfold slice; rewrite length_take, length_drop; lia).
  assert (Hfit : (Z.to_nat at_ + length (stream_move k ro wo slice) <= length mem)%nat)
    by (rewrite length_stream_move; lia).
  eexists _, keys'. split; [exact He|]. split_and!.
  - done.
  - by apply length_splice.
  - unfold splice. rewrite drop_app_length' by (rewrite length_take; lia).
    rewrite take_app_length' by (rewrite length_stream_move; lia).
    apply stream_xor_involutive.
  - intros i Hi. apply lookup_splice_out; [done|]. rewrite length_stream_move. lia.
Qed.

(** no two positions of the first 4 GB of a file share a place in
    the key stream: the cipher block that is encrypted and the byte taken
    from it determine the page and the offset in it, whatever the
    compiler makes of shifting an [int] by 32 and more. *)
Theorem keystream_position_unique bn off bn' off' :
  0 <= bn -> bn * BLCKSZ < 2 ^ 32 -> 0 <= off < BLCKSZ ->
  0 <= bn' -> bn' * BLCKSZ < 2 ^ 32 -> 0 <= off' < BLCKSZ ->
  counter_block (offset_in_file bn off / AES_BLOCK_SIZE) =
    counter_block (offset_in_file bn' off' / AES_BLOCK_SIZE) ->
  offset_in_file bn off mod AES_BLOCK_SIZE = offset_in_file bn' off' mod AES_BLOCK_SIZE ->
  bn = bn' /\ off = off'.
Proof.
  intros Hb Hbn Ho Hb' Hbn' Ho' Hc Hm. pose proof BLCKSZ_range as Hsz.
  rewrite !offset_in_file_small in Hc, Hm by lia. unfold AES_BLOCK_SIZE in *.
  apply counter_block_inj in Hc;
    [|split; [apply Z.div_pos; nia|apply Z.div_lt_upper_bound; lia]..].
  assert (Heq : BLCKSZ * bn + off = BLCKSZ * bn' + off').
  { pose proof (Z_div_mod_eq_full (bn * BLCKSZ + off) 16).
    pose proof (Z_div_mod_eq_full (bn' * BLCKSZ + off') 16). lia. }
  apply (Z.div_mod_unique BLCKSZ) in Heq; first [tauto | lia].
Qed.

(** the product of block number and page size is a 32-bit one: a
    file longer than 4 GB (relation segments are 1 GB, but positions
    count from block 0) reuses the key stream of its first pages, so two
    pages [2^32 / BLCKSZ] blocks apart are encrypted with the same bytes. *)
Theorem pg_tde_crypt_tuple_wraps bn tuple out_tuple keys :
  pg_tde_crypt_tuple g (bn + 2 ^ 32 / BLCKSZ) tuple out_tuple keys =
  pg_tde_crypt_tuple g bn tuple out_tuple keys.
Proof.
  assert (Hw : forall off, offset_in_file (bn + 2 ^ 32 / BLCKSZ) off = offset_in_file bn off).
  { intros off. unfold offset_in_file, uwrap. f_equal. f_equal.
    destruct BLCKSZ_pow2 as (k & Hk & ->).
    replace (2 ^ 32 / 2 ^ k) with (2 ^ (32 - k)) by (rewrite Z.pow_sub_r; lia).
    rewrite Z.mul_add_distr_r, <- Z.pow_add_r by lia.
    replace (32 - k + k) with 32 by lia.
    rewrite <- (Z.mul_1_l (2 ^ 32)) at 1. apply Z_mod_plus_full. }
  unfold pg_tde_crypt_tuple. by rewrite Hw.
Qed.

(** [pg_tde_crypt_tuple] keeps the tuple header (the first [t_hoff]
    bytes) and crypts everything behind it at the file position of the
    tuple. *)
Theorem pg_tde_crypt_tuple_data k bn (tuple : HeapTupleData) out_data keys :
  aes_initialized g -> keys_ready keys k ->
  t_len tuple = Z.of_nat (length (t_data tuple)) -> 0 <= t_hoff tuple <= t_len tuple ->
  0 <= bn -> bn * BLCKSZ < 2 ^ 32 -> 0 <= t_at tuple -> t_at tuple + t_len tuple <= BLCKSZ ->
  length out_data = length (t_data tuple) ->
  let h := Z.to_nat (t_hoff tuple) in
  exists keys',
    pg_tde_crypt_tuple g bn tuple
      {| t_len := t_len tuple; t_at := t_at tuple; t_hoff := t_hoff tuple;
         t_data := out_data |} keys =
      (Ret (take h out_data ++
            stream_xor k (bn * BLCKSZ + t_at tuple) (drop h (t_data tuple))), keys')
    /\ same_keys keys keys'.
Proof.
  intros Hg Hr Hl Hh Hb Hbn Ha Hat Ho h.
  destruct (pg_tde_crypt_tuple_spec g k bn tuple out_data keys) as (keys' & E & _ & Hs);
    [done..|]. by exists keys'.
Qed.
End crypt_claims.

(** ** Witnesses *)

Section witnesses.
Import ToyEVP ToyPage.

Lemma pg_tde_crypt_reference_witness :
  exists keys',
    pg_tde_crypt toy_g 21 [1; 2; 3; 4] 3 [9; 9; 9; 9] toy_keys =
      (Ret (stream_xor toy_k 21 [1; 2; 3] ++ [9]), keys')
    /\ keys_ready keys' toy_k /\ same_keys toy_keys keys'.
Proof.
  apply (pg_tde_crypt_reference toy_g toy_k 21 3 [1; 2; 3; 4] [9; 9; 9; 9] toy_keys).
  - apply toy_g_ready.
  - apply toy_keys_ready.
  - unfold crypt_bounds. lia.
  - cbn. lia.
  - cbn. lia.
Defined.

Lemma pg_tde_crypt_slice_roundtrip_witness :
  exists enc keys' keys2',
    pg_tde_crypt toy_g 40 [1; 2; 3; 4] 4 [0; 0; 0; 0] toy_keys = (Ret enc, keys') /\
    pg_tde_crypt toy_g 41 (take 2 (drop 1 enc)) 2 [0; 0] toy_keys = (Ret [2; 3], keys2').
Proof.
  apply (pg_tde_crypt_slice_roundtrip toy_g toy_k 40 [1; 2; 3; 4] [0; 0; 0; 0]
           toy_keys toy_keys 1 2 [0; 0]).
  - apply toy_g_ready.
  - apply toy_keys_ready.
  - apply toy_keys_ready.
  - unfold crypt_bounds. cbn. lia.
  - reflexivity.
  - cbn. lia.
  - reflexivity.
Defined.

Lemma pg_tde_move_encrypted_data_reencrypts_witness :
  exists mem' keys',
    pg_tde_move_encrypted_data toy_g 100 1 300 1 2 [7; 8; 9; 10] toy_keys = (Ret mem', keys') /\
    same_keys toy_keys keys' /\ length mem' = 4%nat /\
    stream_xor toy_k 300 (take 2 (drop 1 mem')) = stream_xor toy_k 100 [8; 9] /\
    (forall i : nat, (Z.of_nat i < 1 \/ 1 + 2 <= Z.of_nat i) -> mem' !! i = [7; 8; 9; 10] !! i).
Proof.
  apply (pg_tde_move_encrypted_data_reencrypts toy_g toy_k 100 300 1 2 [7; 8; 9; 10] toy_keys).
  - apply toy_g_ready.
  - apply toy_keys_ready.
  - unfold crypt_bounds. lia.
  - unfold crypt_bounds. lia.
  - lia.
  - cbn. lia.
  - reflexivity.
Defined.

Lemma keystream_position_unique_witness :
  counter_block (offset_in_file 3 20 / AES_BLOCK_SIZE) =
    counter_block (offset_in_file (1 + 2) (4 * 5) / AES_BLOCK_SIZE) /\
  3 = 1 + 2 /\ 20 = 4 * 5.
Proof.
  split; [reflexivity|].
  apply (keystream_position_unique 3 20 (1 + 2) (4 * 5));
    first [reflexivity | cbn; lia].
Defined.

Definition toy_tuple : HeapTupleData :=
  {| t_len := 6; t_at := 8100; t_hoff := 2; t_data := [1; 2; 3; 4; 5; 6] |}.

Lemma pg_tde_crypt_tuple_data_witness :
  exists keys',
    pg_tde_crypt_tuple toy_g 7 toy_tuple
      {| t_len := 6; t_at := 8100; t_hoff := 2; t_data := [1; 2; 0; 0; 0; 0] |} toy_keys =
      (Ret ([1; 2] ++ stream_xor toy_k (7 * BLCKSZ + 8100) [3; 4; 5; 6]), keys')
    /\ same_keys toy_keys keys'.
Proof.
  apply (pg_tde_crypt_tuple_data toy_g toy_k 7 toy_tuple [1; 2; 0; 0; 0; 0] toy_keys).
  - apply toy_g_ready.
  - apply toy_keys_ready.
  - reflexivity.
  - cbn. lia.
  - lia.
  - cbn. lia.
  - cbn. lia.
  - cbn. lia.
  - reflexivity.
Defined.

Lemma pg_tde_crypt_tuple_wraps_witness :
  pg_tde_crypt_tuple toy_g 524295 toy_tuple toy_tuple toy_keys =
  pg_tde_crypt_tuple toy_g 7 toy_tuple toy_tuple toy_keys.
Proof. exact (pg_tde_crypt_tuple_wraps toy_g 7 toy_tuple toy_tuple toy_keys). Defined.
End witnesses.
