(* ===== verification/KeyringTypes.v ===== *)
(** The keyring's data: src/src/include/keyring/keyring_api.h and
    keyring_config.h, the static variables of the keyring sources, and
    the interfaces of the libraries they call (json-c, libcurl, the
    base64 routines of PostgreSQL).

    A C string is a [string] without the terminating zero; a [char[n]]
    buffer holding one is that string, of length below [n]. *)
From S2P Require Import Prelude.

(** [unsigned char data[32]; unsigned len;] *)
Record keyData := { kd_data : list Z; kd_len : Z }.

(** [char name[256]; keyData data;] *)
Record keyInfo := { ki_name : string; ki_data : keyData }.

Definition MAX_CACHE_ENTRIES : nat := 1024.

(** [keyInfo keys[MAX_CACHE_ENTRIES]; unsigned keyCount;] *)
Record keyringCache := { keys : list keyInfo; keyCount : Z }.

Inductive KeyringProvider := PROVIDER_UNKNOWN | PROVIDER_FILE | PROVIDER_VAULT_V2.

#[export] Instance keyData_eq_dec : EqDecision keyData.
Proof. solve_decision. Defined.
#[export] Instance keyInfo_eq_dec : EqDecision keyInfo.
Proof. solve_decision. Defined.
#[export] Instance keyringCache_eq_dec : EqDecision keyringCache.
Proof. solve_decision. Defined.
#[export] Instance KeyringProvider_eq_dec : EqDecision KeyringProvider.
Proof. solve_decision. Defined.

(** [memset(cache, 0, ...)] *)
Definition zero_keyInfo : keyInfo :=
  {| ki_name := ""; ki_data := {| kd_data := replicate 32 0; kd_len := 0 |} |}.
Definition zero_cache : keyringCache :=
  {| keys := replicate MAX_CACHE_ENTRIES zero_keyInfo; keyCount := 0 |}.

(** json-c, as far as the keyring reads and builds objects. *)
Class Json := {
  json : Type;
  json_object_from_file : string -> option json;
  json_tokener_parse : string -> option json;
  json_object_object_get_ex : json -> string -> option json;
  json_object_get_string : json -> option string;
  json_is_object : json -> bool;
  json_object_new_string : string -> json;
  json_object_new_object : json;
  json_object_object_add : json -> string -> json -> json;
  json_object_to_json_string : json -> string;
}.

(** [pg_b64_encode]/[pg_b64_decode] with the size of the destination; a
    negative length reports an error, and [pg_b64_decode] leaves the
    destination as the returned bytes say in either case. *)
Class Base64 := {
  pg_b64_encode : list Z -> Z -> option string;
  pg_b64_decode : string -> Z -> Z * list Z;
}.

(** The options the program sets on its libcurl handle. *)
Inductive curlopt :=
| CURLOPT_HTTPHEADER (l : list string)
| CURLOPT_SSL_VERIFYPEER (v : Z)
| CURLOPT_SSL_VERIFYHOST (v : Z)
| CURLOPT_USE_SSL_ALL
| CURLOPT_CAINFO (path : string)
| CURLOPT_FOLLOWLOCATION (v : Z)
| CURLOPT_CONNECTTIMEOUT (v : Z)
| CURLOPT_TIMEOUT (v : Z)
| CURLOPT_HTTP_VERSION_1_1
| CURLOPT_WRITEFUNCTION
| CURLOPT_WRITEDATA
| CURLOPT_URL (url : string)
| CURLOPT_POSTFIELDS (data : option string)
| CURLOPT_POST (v : Z).

(** libcurl and the server behind it.  A handle is the list of the
    options set on it, oldest first; performing the request either fails or
    yields the HTTP code and the chunks passed to the write callback. *)
Class Curl := {
  server : Type;
  curl_easy_init_ok : bool;
  curl_slist_append_ok : string -> bool;
  curl_easy_setopt_ok : curlopt -> bool;
  curl_easy_perform : list curlopt -> server -> option (Z * list string) * server;
}.

(** The file system as the keyring file sees it: whether [fopen] for
    writing succeeds, and whether a path can be read ([access]). *)
Class KeyringFs := {
  fopen_w : string -> bool;
  access_R_OK : string -> bool;
}.

(** The static variables of keyring_vault.c, and the server. *)
Record VaultVars `{Curl} := {
  keyringVaultToken : string;      (** char[128] *)
  keyringVaultUrl : string;        (** char[128] *)
  keyringVaultCaPath : string;     (** char[256] *)
  keyringVaultMountPath : string;  (** char[128] *)
  curl : option (list curlopt);
  curlList : option (list string);
  vault_server : server;
}.

(** The static variables of the keyring, the shared cache and the keyring
    files on disk (by path; each holds the image of a cache). *)
Record KeyringState `{Curl} := {
  cache : keyringCache;
  keyringProvider : KeyringProvider;
  keyringConfigFile : option string;
  keyringKeyPrefix : option string;
  keyringFileDataFileName : string;  (** char[512] *)
  keyring_files : gmap string keyringCache;
  vault : VaultVars;
}.

Section updates.
Context `{HC : Curl}.
Implicit Types (s : KeyringState) (v : VaultVars).

Definition with_cache (x : keyringCache) s : KeyringState :=
  {| cache := x;
     keyringProvider := keyringProvider s;
     keyringConfigFile := keyringConfigFile s;
     keyringKeyPrefix := keyringKeyPrefix s;
     keyringFileDataFileName := keyringFileDataFileName s;
     keyring_files := keyring_files s;
     vault := vault s |}.

Definition with_provider (x : KeyringProvider) s : KeyringState :=
  {| cache := cache s;
     keyringProvider := x;
     keyringConfigFile := keyringConfigFile s;
     keyringKeyPrefix := keyringKeyPrefix s;
     keyringFileDataFileName := keyringFileDataFileName s;
     keyring_files := keyring_files s;
     vault := vault s |}.

Definition with_datafile (x : string) s : KeyringState :=
  {| cache := cache s;
     keyringProvider := keyringProvider s;
     keyringConfigFile := keyringConfigFile s;
     keyringKeyPrefix := keyringKeyPrefix s;
     keyringFileDataFileName := x;
     keyring_files := keyring_files s;
     vault := vault s |}.

Definition with_files (x : gmap string keyringCache) s : KeyringState :=
  {| cache := cache s;
     keyringProvider := keyringProvider s;
     keyringConfigFile := keyringConfigFile s;
     keyringKeyPrefix := keyringKeyPrefix s;
     keyringFileDataFileName := keyringFileDataFileName s;
     keyring_files := x;
     vault := vault s |}.

Definition with_vault (x : VaultVars) s : KeyringState :=
  {| cache := cache s;
     keyringProvider := keyringProvider s;
     keyringConfigFile := keyringConfigFile s;
     keyringKeyPrefix := keyringKeyPrefix s;
     keyringFileDataFileName := keyringFileDataFileName s;
     keyring_files := keyring_files s;
     vault := x |}.

(** The buffers [keyringVaultParseConfiguration] fills. *)
Inductive vault_param := VaultToken | VaultUrl | VaultMountPath | VaultCaPath.

Definition with_param (p : vault_param) (x : string) v : VaultVars :=
  {| keyringVaultToken := if p is VaultToken then x else keyringVaultToken v;
     keyringVaultUrl := if p is VaultUrl then x else keyringVaultUrl v;
     keyringVaultCaPath := if p is VaultCaPath then x else keyringVaultCaPath v;
     keyringVaultMountPath := if p is VaultMountPath then x else keyringVaultMountPath v;
     curl := curl v;
     curlList := curlList v;
     vault_server := vault_server v |}.

Definition with_curl (x : option (list curlopt)) v : VaultVars :=
  {| keyringVaultToken := keyringVaultToken v;
     keyringVaultUrl := keyringVaultUrl v;
     keyringVaultCaPath := keyringVaultCaPath v;
     keyringVaultMountPath := keyringVaultMountPath v;
     curl := x;
     curlList := curlList v;
     vault_server := vault_server v |}.

Definition with_curlList (x : option (list string)) v : VaultVars :=
  {| keyringVaultToken := keyringVaultToken v;
     keyringVaultUrl := keyringVaultUrl v;
     keyringVaultCaPath := keyringVaultCaPath v;
     keyringVaultMountPath := keyringVaultMountPath v;
     curl := curl v;
     curlList := x;
     vault_server := vault_server v |}.

Definition with_server (x : server) v : VaultVars :=
  {| keyringVaultToken := keyringVaultToken v;
     keyringVaultUrl := keyringVaultUrl v;
     keyringVaultCaPath := keyringVaultCaPath v;
     keyringVaultMountPath := keyringVaultMountPath v;
     curl := curl v;
     curlList := curlList v;
     vault_server := x |}.
End updates.

(** ** C strings *)

(** [strncpy(out, s, n)] and [snprintf(out, n + 1, ...)] keep at most [n]
    characters. *)
Definition str_take (n : nat) (s : string) : string := String.substring 0 n s.

(** [strncmp(a, b, n) == 0]: equal up to [n] characters or the end of both. *)
Fixpoint strncmp_eq (a b : string) (n : nat) : bool :=
  match n with
  | O => true
  | S n =>
      match a, b with
      | EmptyString, EmptyString => true
      | String x a, String y b => bool_decide (x = y) && strncmp_eq a b n
      | _, _ => false
      end
  end.

Lemma strncmp_eq_whole a b n :
  (String.length a < n)%nat -> strncmp_eq a b n = bool_decide (a = b).
Proof.
  revert b n. induction a as [|x a IH]; intros [|y b] [|n] Hn; cbn in *; try lia; try done.
  rewrite IH by lia. repeat case_bool_decide; naive_solver.
Qed.

Lemma substring_length n s : (String.length (str_take n s) <= n)%nat.
Proof.
  unfold str_take. revert s. induction n as [|n IH]; intros [|c s]; cbn; try lia.
  specialize (IH s). lia.
Qed.

Lemma str_take_all n s : (String.length s <= n)%nat -> str_take n s = s.
Proof.
  unfold str_take. revert s. induction n as [|n IH]; intros [|c s] Hs; cbn in *; try done; try lia.
  by rewrite IH by lia.
Qed.

Lemma str_length_app a b : String.length (a +:+ b) = (String.length a + String.length b)%nat.
Proof. induction a as [|c a IH]; [done|]. simpl. f_equal. exact IH. Qed.
