(* ===== verification/KeyringProviders.v ===== *)
(** Keyring configuration and the two key providers:
    src/src/keyring/keyring_config.c, keyring_file.c and keyring_vault.c. *)
From S2P Require Import Prelude KeyringTypes.

Section providers.
Context `{HJ : Json} `{HB : Base64} `{HC : Curl} `{HF : KeyringFs}.

Local Abbreviation MK := (M KeyringState).

(** ** keyring_config.c *)

(** The GUC check hooks: [true], or an error that does not return. *)
Definition keyringCheckKeyPrefix (newval : option string) : outcome bool :=
  match newval with
  | None | Some EmptyString => Ret true
  | Some s => if (32 <? Z.of_nat (String.length s)) then Raise ERROR else Ret true
  end.

(** The writable-file case only logs a warning. *)
Definition keyringCheckConfigFile (newval : option string) : outcome bool :=
  match newval with
  | None | Some EmptyString => Ret true
  | Some s => if negb (access_R_OK s) then Raise ERROR else Ret true
  end.

(** A remote parameter (an object) only logs a warning. *)
Definition keyringParseStringParam (object : json) : option string :=
  json_object_get_string object.

(** ** keyring_file.c *)

(** [strcpy] into [char keyringFileDataFileName[512]]. *)
Definition keyringFileParseConfiguration (configRoot : json) : MK bool :=
  match json_object_object_get_ex configRoot "datafile" with
  | None => raise ERROR
  | Some dataO =>
      match keyringParseStringParam dataO with
      | None => raise ERROR
      | Some datafile =>
          if (512 <=? Z.of_nat (String.length datafile)) then undefined
          else modify (with_datafile datafile);;; ret true
      end
  end.

(** [fread] replaces the whole shared structure; a missing file only
    logs a warning. *)
Definition keyringFilePreloadCache : MK bool :=
  let* s := get in
  match keyring_files s !! keyringFileDataFileName s with
  | Some image => modify (with_cache image);;; ret true
  | None => ret true
  end.

(** The whole cache is dumped, whatever [ki] is. *)
Definition keyringFileStoreKey (ki : nat) : MK bool :=
  let* s := get in
  if (String.length (keyringFileDataFileName s) =? 0)%nat then raise ERROR
  else if negb (fopen_w (keyringFileDataFileName s)) then raise ERROR
  else modify (with_files (<[keyringFileDataFileName s := cache s]> (keyring_files s)));;;
       ret true.

(** ** keyring_vault.c *)

(** The write callback appends what it is given. *)
Definition writefunc (s chunk : string) : string := s +:+ chunk.

(** [curl_easy_setopt] on the handle; the caller returns 0 on failure. *)
Definition setopt (o : curlopt) (h : list curlopt) : option (list curlopt) :=
  if curl_easy_setopt_ok o then Some (h ++ [o]) else None.

Fixpoint setopts (os : list curlopt) (h : list curlopt) : list curlopt * bool :=
  match os with
  | [] => (h, true)
  | o :: os =>
      match setopt o h with
      | Some h' => setopts os h'
      | None => (h, false)
      end
  end.

(** The options of [curlSetupSession], in order; CAINFO is skipped when
    no CA path is configured. *)
Definition session_options (v : VaultVars) (headers : list string) (url : string)
  : list curlopt :=
  [CURLOPT_HTTPHEADER headers; CURLOPT_SSL_VERIFYPEER 1; CURLOPT_SSL_VERIFYHOST 1;
   CURLOPT_USE_SSL_ALL]
  ++ (if (String.length (keyringVaultCaPath v) =? 0)%nat then []
      else [CURLOPT_CAINFO (keyringVaultCaPath v)])
  ++ [CURLOPT_FOLLOWLOCATION 1; CURLOPT_CONNECTTIMEOUT 3; CURLOPT_TIMEOUT 10;
      CURLOPT_HTTP_VERSION_1_1; CURLOPT_WRITEFUNCTION; CURLOPT_WRITEDATA; CURLOPT_URL url].

(** Handle and header list are created once and kept.  [tokenHeader] is a
    [char[256]]; [curlList] is assigned by each append, and an append that
    fails leaves it NULL. *)
Definition curlSetupSession (url : string) : M VaultVars bool :=
  let* v := get in
  let* ok := match curl v with
             | Some _ => ret true
             | None => if curl_easy_init_ok then modify (with_curl (Some []));;; ret true
                       else ret false
             end in
  if negb ok then ret false else
  let tokenHeader := "X-Vault-Token:" +:+ keyringVaultToken v in
  let contentType := "Content-Type: application/json" in
  let* ok := match curlList v with
             | Some _ => ret true
             | None =>
                 if (256 <=? Z.of_nat (String.length tokenHeader)) then undefined
                 else if negb (curl_slist_append_ok tokenHeader) then ret false
                 else if negb (curl_slist_append_ok contentType) then ret false
                 else modify (with_curlList (Some [tokenHeader; contentType]));;; ret true
             end in
  if negb ok then ret false else
  let* v := get in
  let '(h, ok) := setopts (session_options v (default [] (curlList v)) url)
                    (default [] (curl v)) in
  modify (with_curl (Some h));;; ret ok.

(** The HTTP code and the response, or [None] for the return value 0. *)
Definition curlPerform (url : string) (postData : option string)
  : M VaultVars (option (Z * string)) :=
  let* ok := curlSetupSession url in
  if negb ok then ret None else
  let* v := get in
  let opts := match postData with
              | Some _ => [CURLOPT_POSTFIELDS postData]
              | None => [CURLOPT_POSTFIELDS None; CURLOPT_POST 0]
              end in
  let '(h, ok) := setopts opts (default [] (curl v)) in
  modify (with_curl (Some h));;;
  if negb ok then ret None else
  let* v := get in
  let '(r, srv) := curl_easy_perform h (vault_server v) in
  modify (with_server srv);;;
  match r with
  | None => ret None
  | Some (httpCode, chunks) => ret (Some (httpCode, fold_left writefunc chunks ""))
  end.

Definition keyringVaultPreloadCache : MK bool := ret true.

(** [strncpy(out, stringData, outMaxLen-1)] into a zeroed buffer; too
    long a value only logs a warning. *)
Definition keyringConfigExtractParameter (configRoot : json) (name : string)
  (out : vault_param) (outMaxLen : nat) (optional : bool) : MK bool :=
  match json_object_object_get_ex configRoot name with
  | None => if optional then ret false else raise ERROR
  | Some dataO =>
      match keyringParseStringParam dataO with
      | None => if optional then ret false else raise ERROR
      | Some stringData =>
          modify (fun s => with_vault
            (with_param out (str_take (outMaxLen - 1) stringData) (vault s)) s);;;
          ret true
      end
  end.

Definition keyringVaultParseConfiguration (configRoot : json) : MK bool :=
  let* ok := keyringConfigExtractParameter configRoot "token" VaultToken 128 false in
  if negb ok then ret false else
  let* ok := keyringConfigExtractParameter configRoot "url" VaultUrl 128 false in
  if negb ok then ret false else
  let* ok := keyringConfigExtractParameter configRoot "mountPath" VaultMountPath 128 false in
  if negb ok then ret false else
  keyringConfigExtractParameter configRoot "caPath" VaultCaPath 256 true;;;
  ret true.

(** The string built by [strcpy] and [strcat] in [char url[512]]. *)
Definition vault_key_url (v : VaultVars) (name : string) : string :=
  keyringVaultUrl v +:+ "/v1/" +:+ keyringVaultMountPath v +:+ "/data/" +:+ name.

Definition keyringVaultKeyUrl (v : VaultVars) (name : string) : option string :=
  let out := vault_key_url v name in
  if (512 <=? Z.of_nat (String.length out)) then None else Some out.

Definition in_vault {A} (m : M VaultVars A) : MK A := zoom vault with_vault m.

(** [char keyData[64]]; an encoding error (-1) would write before it. *)
Definition keyringVaultStoreKey (ki : keyInfo) : MK bool :=
  match pg_b64_encode (take (Z.to_nat (kd_len (ki_data ki))) (kd_data (ki_data ki))) 64 with
  | None => undefined
  | Some keyData =>
      if (64 <=? Z.of_nat (String.length keyData)) then undefined else
      let data := json_object_object_add json_object_new_object "key"
                    (json_object_new_string keyData) in
      let request := json_object_object_add json_object_new_object "data" data in
      let* s := get in
      let* url := defined (keyringVaultKeyUrl (vault s) (ki_name ki)) in
      let* r := in_vault (curlPerform url (Some (json_object_to_json_string request))) in
      match r with
      | None => raise ERROR
      | Some (httpCode, _) => ret (Z.quot httpCode 100 =? 2)
      end
  end.

(** The return value and [*outData] after the call. *)
Definition keyringVaultGetKey (name : string) (outData : keyData) : MK (bool * keyData) :=
  let* s := get in
  let* url := defined (keyringVaultKeyUrl (vault s) name) in
  let* r := in_vault (curlPerform url None) in
  match r with
  | None => raise ERROR
  | Some (httpCode, body) =>
      if negb (Z.quot httpCode 100 =? 2) then
        if negb (httpCode =? 404) then raise ERROR else ret (false, outData)
      else
        match json_tokener_parse body with
        | None => raise ERROR
        | Some response =>
            match json_object_object_get_ex response "data" with
            | None => raise ERROR
            | Some data =>
                match json_object_object_get_ex data "data" with
                | None => raise ERROR
                | Some data2 =>
                    match json_object_object_get_ex data2 "key" with
                    | None => raise ERROR
                    | Some keyO =>
                        match json_object_get_string keyO with
                        | None | Some EmptyString => raise ERROR
                        | Some key =>
                            let '(n, bytes) := pg_b64_decode key 32 in
                            let outData := {| kd_data := bytes; kd_len := u32 n |} in
                            if negb (kd_len outData =? 32) then ret (false, outData)
                            else ret (true, outData)
                        end
                    end
                end
            end
        end
  end.

(** ** Loading the configuration *)

Definition keyringLoadConfiguration (configFileName : string) : MK bool :=
  match json_object_from_file configFileName with
  | None => raise ERROR
  | Some root =>
      match json_object_object_get_ex root "provider" with
      | None => raise ERROR
      | Some providerO =>
          match json_object_get_string providerO with
          | None | Some EmptyString => raise ERROR
          | Some provider =>
              let* ret0 :=
                (if strncmp_eq "file" provider 5 then
                   let* r := keyringFileParseConfiguration root in
                   (if r then modify (with_provider PROVIDER_FILE) else ret tt);;; ret r
                 else ret false) in
              let* ret1 :=
                (if strncmp_eq "vault-v2" provider 9 then
                   let* r := keyringVaultParseConfiguration root in
                   (if r then modify (with_provider PROVIDER_VAULT_V2) else ret tt);;; ret r
                 else ret ret0) in
              let* s := get in
              if bool_decide (keyringProvider s = PROVIDER_UNKNOWN) then raise ERROR
              else if negb ret1 then raise ERROR
              else ret ret1
          end
      end
  end.

Definition keyringAssignConfigFile (newval : option string) : MK unit :=
  match newval with
  | None | Some EmptyString => ret tt
  | Some f => keyringLoadConfiguration f;;; ret tt
  end.
End providers.
