(* ===== verification/KeyringApi.v ===== *)
(** The keyring API and its shared-memory cache:
    src/src/keyring/keyring_api.c.

    A [const keyInfo *] returned by the API points into the cache array;
    it is modelled by the index of the entry. *)
From Stdlib Require Import Ascii.
From stdpp Require Import pretty.
From S2P Require Import Prelude KeyringTypes KeyringProviders.

(** [for (i = 0; i < keyCount; ++i) if (strcmp(...) == 0) return i]; the
    outer [option] is an access outside the array. *)
Fixpoint cache_scan (n i : nat) (ks : list keyInfo) (nm : string) : option (option nat) :=
  match n with
  | O => Some None
  | S n =>
      match ks !! i with
      | None => None
      | Some k => if bool_decide (ki_name k = nm) then Some (Some i)
                  else cache_scan n (S i) ks nm
      end
  end.

(** ["%s-%s-%u"] or ["%s-%u"] into a [char[256]]. *)
Definition keyringConstructKeyName (keyringKeyPrefix : option string)
  (internalName : string) (version : Z) : string :=
  let v := pretty (Z.to_N (u32 version)) in
  let full := match keyringKeyPrefix with
              | None | Some EmptyString => internalName +:+ "-" +:+ v
              | Some p => p +:+ "-" +:+ internalName +:+ "-" +:+ v
              end in
  str_take 255 full.

Section api.
Context `{HJ : Json} `{HB : Base64} `{HC : Curl} `{HF : KeyringFs}.

Local Abbreviation MK := (M KeyringState).

(** [found] tells whether the shared segment existed already. *)
Definition keyringInitCache (found : bool) : MK unit :=
  (if found then ret tt else modify (with_cache zero_cache));;;
  let* s := get in
  match keyringProvider s with
  | PROVIDER_FILE => keyringFilePreloadCache;;; ret tt
  | PROVIDER_VAULT_V2 => keyringVaultPreloadCache;;; ret tt
  | PROVIDER_UNKNOWN => ret tt
  end.

(** The array is written at [keyCount] without a bound check: the 1025th
    key goes to the memory behind it, and what is there and in [keyCount]
    afterwards is not known.  The state that comes with [Undefined] says
    nothing. *)
Definition keyringCacheStoreKey (name : string) (data : keyData) : MK nat :=
  let* s := get in
  let c := cache s in
  let i := Z.to_nat (keyCount c) in
  if (i <? length (keys c))%nat then
    modify (with_cache {| keys := <[i := {| ki_name := name; ki_data := data |}]> (keys c);
                          keyCount := u32 (keyCount c + 1) |});;;
    ret i
  else undefined.

(** [keyData data; data.len = 0;] leaves the bytes as they are on the
    stack, here [stack]. *)
Definition keyringGetKey (stack : list Z) (name : string) : MK (option nat) :=
  let* s := get in
  let* r := defined (cache_scan (Z.to_nat (keyCount (cache s))) 0 (keys (cache s)) name) in
  match r with
  | Some i => ret (Some i)
  | None =>
      match keyringProvider s with
      | PROVIDER_FILE => ret None
      | PROVIDER_VAULT_V2 =>
          let* d := keyringVaultGetKey name {| kd_data := stack; kd_len := 0 |} in
          if (0 <? kd_len (snd d)) then
            let* i := keyringCacheStoreKey name (snd d) in ret (Some i)
          else ret None
      | PROVIDER_UNKNOWN => ret None
      end
  end.

Definition keyringStoreKey (name : string) (data : keyData) : MK (option nat) :=
  let* ki := keyringCacheStoreKey name data in
  let* s := get in
  let* stored :=
    match keyringProvider s with
    | PROVIDER_FILE => keyringFileStoreKey ki
    | PROVIDER_VAULT_V2 =>
        let* k := defined (keys (cache s) !! ki) in keyringVaultStoreKey k
    | PROVIDER_UNKNOWN => ret false
    end in
  if stored then ret (Some ki)
  else
    (* if we are here, storeKey failed, remove from cache *)
    modify (fun s => with_cache {| keys := keys (cache s);
                                   keyCount := u32 (keyCount (cache s) - 1) |} s);;;
    ret None.

(** [while ((curr = keyringGetKey(...i...)) != NULL) { prev = curr; ++i; }] *)
Fixpoint latest_loop (fuel : nat) (stack : list Z) (internalName : string) (i : Z)
  (prev : option nat) : MK (option nat) :=
  match fuel with
  | O => nofuel
  | S fuel =>
      let* s := get in
      let* curr := keyringGetKey stack
                     (keyringConstructKeyName (keyringKeyPrefix s) internalName i) in
      match curr with
      | None => ret prev
      | Some _ => latest_loop fuel stack internalName (i + 1) curr
      end
  end.

(** [fuel] bounds the number of versions looked up. *)
Definition keyringGetLatestKey (fuel : nat) (stack : list Z) (internalName : string)
  : MK (option nat) :=
  latest_loop fuel stack internalName 1 None.

(** [while (keyringGetKey(...i...) != NULL) ++i;] *)
Fixpoint free_version_loop (fuel : nat) (stack : list Z) (internalName : string) (i : Z)
  : MK Z :=
  match fuel with
  | O => nofuel
  | S fuel =>
      let* s := get in
      let* curr := keyringGetKey stack
                     (keyringConstructKeyName (keyringKeyPrefix s) internalName i) in
      match curr with
      | None => ret i
      | Some _ => free_version_loop fuel stack internalName (i + 1)
      end
  end.

(** [rand] is the outcome of [RAND_bytes(kd.data, keyLen)]; the rest of
    [kd.data] is what the stack held. *)
Definition keyringGenerateKey (fuel : nat) (stack : list Z) (rand : option (list Z))
  (internalName : string) (keyLen : Z) : MK (option nat) :=
  let* i := free_version_loop fuel stack internalName 1 in
  match rand with
  | None => ret None (* openssl error *)
  | Some bytes =>
      let* s := get in
      keyringStoreKey (keyringConstructKeyName (keyringKeyPrefix s) internalName i)
        {| kd_data := bytes ++ drop (length bytes) stack; kd_len := keyLen |}
  end.
End api.

(** ** Specification *)

(** The cache as the code keeps it: an array of MAX_CACHE_ENTRIES, of which
    the first [keyCount] are in use. *)
Definition cache_wf (c : keyringCache) : Prop :=
  length (keys c) = MAX_CACHE_ENTRIES /\ 0 <= keyCount c <= Z.of_nat MAX_CACHE_ENTRIES.

Definition cached (c : keyringCache) : list keyInfo := take (Z.to_nat (keyCount c)) (keys c).

(** The first entry in use under a name. *)
Definition cached_index (c : keyringCache) (nm : string) : option nat :=
  fst <$> list_find (fun k => ki_name k = nm) (cached c).

(** What [keyringCheckKeyPrefix] lets through. *)
Definition prefix_ok (p : option string) : Prop := keyringCheckKeyPrefix p = Ret true.

(** An internal name whose constructed names are never truncated. *)
Definition internal_ok (internalName : string) : Prop :=
  (String.length internalName <= 211)%nat.

Fixpoint no_dash (s : string) : Prop :=
  match s with
  | EmptyString => True
  | String c s => c <> "-"%char /\ no_dash s
  end.

(** ** Names *)

Lemma prefix_ok_length p :
  prefix_ok p -> match p with Some s => (String.length s <= 32)%nat | None => True end.
Proof.
  unfold prefix_ok, keyringCheckKeyPrefix. destruct p as [[|c s]|]; cbn; try lia; try done.
  destruct (Z.ltb_spec 32 (Z.of_nat (S (String.length s)))); [done|lia].
Qed.

Lemma pretty_N_go_length (n : nat) x s :
  (x < 10 ^ N.of_nat n)%N ->
  (String.length (pretty_N_go x s) <= n + String.length s)%nat.
Proof.
  revert x s. induction n as [|n IH]; intros x s Hx.
  - replace x with 0%N by (change (10 ^ N.of_nat 0)%N with 1%N in Hx; lia).
    rewrite pretty_N_go_0. lia.
  - destruct (decide (x = 0)%N) as [->|Hne]; [rewrite pretty_N_go_0; lia|].
    rewrite pretty_N_go_step by lia. etrans; [apply IH|cbn; lia].
    rewrite Nat2N.inj_succ, N.pow_succ_r' in Hx. apply N.Div0.div_lt_upper_bound. lia.
Qed.

Lemma pretty_u32_length v : (String.length (pretty (Z.to_N (u32 v))) <= 10)%nat.
Proof.
  unfold pretty, pretty_N. destruct (decide _); [cbn; lia|].
  etrans; [apply (pretty_N_go_length 10)|cbn; lia].
  pose proof (uwrap_range 32 v). lia.
Qed.

Lemma pretty_N_go_no_dash x s : no_dash s -> no_dash (pretty_N_go x s).
Proof.
  revert s. induction (N.lt_wf_0 x) as [x _ IH]; intros s Hs.
  destruct (decide (x = 0)%N) as [->|Hne]; [by rewrite pretty_N_go_0|].
  rewrite pretty_N_go_step by lia. apply IH; [apply N.div_lt; lia|].
  split; [|done]. unfold pretty_N_char. by repeat case_match.
Qed.

Lemma pretty_N_no_dash (x : N) : no_dash (pretty x).
Proof.
  unfold pretty, pretty_N. destruct (decide _); [by split|]. by apply pretty_N_go_no_dash.
Qed.

Lemma no_dash_app a s : ~ no_dash (a +:+ String "-" s).
Proof. induction a as [|c a IH]; cbn; intros [? ?]; naive_solver. Qed.

(** The part behind the last dash is determined. *)
Lemma dash_app_inj a b d e :
  no_dash d -> no_dash e -> a +:+ String "-" d = b +:+ String "-" e -> a = b /\ d = e.
Proof.
  intros Hd He. revert b. induction a as [|c a IH]; intros [|c' b] H; cbn in H; simplify_eq.
  - done.
  - by apply no_dash_app in Hd.
  - by apply no_dash_app in He.
  - by edestruct IH as [-> ->].
Qed.

Lemma str_app_assoc a b c : (a +:+ b) +:+ c = a +:+ (b +:+ c).
Proof. induction a as [|x a IH]; [done|]. exact (f_equal (String x) IH). Qed.

Lemma str_app_inj_l a b c : a +:+ b = a +:+ c -> b = c.
Proof. induction a as [|x a IH]; [done|]. intros H. injection H. exact IH. Qed.

(** The part of a key name before the version. *)
Definition key_stem (p : option string) (internalName : string) : string :=
  match p with
  | None | Some EmptyString => internalName
  | Some p => p +:+ String "-" internalName
  end.

Lemma keyringConstructKeyName_whole p n v :
  prefix_ok p -> internal_ok n ->
  keyringConstructKeyName p n v = key_stem p n +:+ String "-" (pretty (Z.to_N (u32 v))).
Proof.
  intros Hp%prefix_ok_length Hn. unfold internal_ok in Hn.
  pose proof (pretty_u32_length v) as Hv. unfold keyringConstructKeyName, key_stem.
  destruct p as [[|c p]|]; rewrite str_take_all;
    rewrite ?str_length_app; rewrite ?str_app_assoc; try done; cbn in *;
    rewrite ?str_length_app; cbn; rewrite ?str_length_app; cbn; lia.
Qed.

Lemma key_stem_inj p n n' : key_stem p n = key_stem p n' -> n = n'.
Proof.
  destruct p as [[|c p]|]; [done| |done]. unfold key_stem.
  intros H%str_app_inj_l. by simplify_eq.
Qed.

Lemma keyringConstructKeyName_inj_aux p n n' v v' :
  prefix_ok p -> internal_ok n -> internal_ok n' ->
  0 <= v < 2 ^ 32 -> 0 <= v' < 2 ^ 32 ->
  keyringConstructKeyName p n v = keyringConstructKeyName p n' v' -> n = n' /\ v = v'.
Proof.
  intros Hp Hn Hn' Hv Hv'. rewrite !keyringConstructKeyName_whole by done.
  rewrite !uwrap_small by done. intros H.
  apply dash_app_inj in H as [H1 H2]; [|apply pretty_N_no_dash..].
  apply key_stem_inj in H1. apply (inj pretty) in H2. split; [done|lia].
Qed.

Lemma keyringConstructKeyName_length p n v :
  (String.length (keyringConstructKeyName p n v) <= 255)%nat.
Proof. unfold keyringConstructKeyName. apply substring_length. Qed.
