(* ===== verification/KeyringProps.v ===== *)
(** Correctness of the keyring API: the cache invariant, lookup and
    storing under each provider, key versions, and the file image. *)
From stdpp Require Import pretty.
From S2P Require Import Prelude KeyringTypes KeyringProviders KeyringApi.

Section cache.
Implicit Types (c : keyringCache) (nm : string).

Lemma length_cached c : cache_wf c -> length (cached c) = Z.to_nat (keyCount c).
Proof. intros [Hl Hk]. unfold cached. rewrite length_take. lia. Qed.

Lemma cache_scan_spec n i ks nm :
  (i + n <= length ks)%nat ->
  cache_scan n i ks nm =
    Some (Nat.add i <$> (fst <$> list_find (fun k => ki_name k = nm) (take n (drop i ks)))).
Proof.
  revert i. induction n as [|n IH]; intros i Hi; [done|]. cbn [cache_scan].
  destruct (lookup_lt_is_Some_2 ks i) as [k Hk]; [lia|]. rewrite Hk.
  rewrite (drop_S _ _ _ Hk). cbn [take list_find].
  case_bool_decide as Hn; [rewrite decide_True by done; cbn; by rewrite Nat.add_0_r|].
  rewrite decide_False by done. rewrite IH by lia.
  destruct (list_find _ _) as [[j x]|]; cbn; [|done]. do 2 f_equal. lia.
Qed.

Lemma cache_scan_cached c nm :
  cache_wf c -> cache_scan (Z.to_nat (keyCount c)) 0 (keys c) nm = Some (cached_index c nm).
Proof.
  intros [Hl Hk]. rewrite cache_scan_spec by lia. unfold cached_index, cached. cbn.
  destruct (list_find _ _) as [[j x]|]; done.
Qed.

Lemma cached_index_Some c nm i :
  cached_index c nm = Some i ->
  exists k, cached c !! i = Some k /\ ki_name k = nm.
Proof.
  unfold cached_index. intros ([j k] & H & ->)%fmap_Some. cbn.
  apply list_find_Some in H as (? & ? & _). eauto.
Qed.

Lemma cached_index_bound c nm i :
  cache_wf c -> cached_index c nm = Some i -> (i < Z.to_nat (keyCount c))%nat.
Proof.
  intros Hc (k & Hk & _)%cached_index_Some. rewrite <- (length_cached c Hc).
  by eapply lookup_lt_Some.
Qed.

Lemma cached_index_None c nm :
  cached_index c nm = None <-> nm ∉ (ki_name <$> cached c).
Proof.
  unfold cached_index. rewrite fmap_None, list_elem_of_fmap. split.
  - intros H%list_find_None (k & -> & Hk). rewrite Forall_forall in H. by apply (H k).
  - intros H. apply list_find_None, Forall_forall. naive_solver.
Qed.

(** The cache with an entry appended. *)
Definition cache_push c (k : keyInfo) : keyringCache :=
  {| keys := <[Z.to_nat (keyCount c) := k]> (keys c); keyCount := keyCount c + 1 |}.

Lemma cache_push_wf c k :
  cache_wf c -> keyCount c < Z.of_nat MAX_CACHE_ENTRIES -> cache_wf (cache_push c k).
Proof. intros [Hl Hk] H. split; cbn; [by rewrite length_insert|lia]. Qed.

Lemma cached_push c k :
  cache_wf c -> keyCount c < Z.of_nat MAX_CACHE_ENTRIES ->
  cached (cache_push c k) = cached c ++ [k].
Proof.
  intros [Hl Hk] H. unfold cached, cache_push. cbn [keys keyCount].
  replace (Z.to_nat (keyCount c + 1)) with (S (Z.to_nat (keyCount c))) by lia.
  rewrite (take_S_r _ _ k) by (apply list_lookup_insert_eq; lia).
  by rewrite take_insert_ge by lia.
Qed.

Lemma cached_index_push c k nm :
  cache_wf c -> keyCount c < Z.of_nat MAX_CACHE_ENTRIES ->
  cached_index (cache_push c k) nm =
    match cached_index c nm with
    | Some i => Some i
    | None => if bool_decide (ki_name k = nm) then Some (Z.to_nat (keyCount c)) else None
    end.
Proof.
  intros Hc H. unfold cached_index. rewrite cached_push by done.
  pose proof (length_cached c Hc) as Hlen.
  destruct (list_find _ (cached c)) as [[i x]|] eqn:E; cbn.
  - by erewrite list_find_app_l by done.
  - rewrite list_find_app_r by done. cbn. rewrite Hlen. case_bool_decide.
    + by rewrite decide_True by done.
    + by rewrite decide_False by done.
Qed.
End cache.

Section ops.
Context `{HJ : Json} `{HB : Base64} `{HC : Curl} `{HF : KeyringFs}.
Implicit Types (s : KeyringState) (nm : string).

Definition local_provider s : Prop := keyringProvider s <> PROVIDER_VAULT_V2.

Lemma keyringCacheStoreKey_spec nm d s :
  cache_wf (cache s) -> keyCount (cache s) < Z.of_nat MAX_CACHE_ENTRIES ->
  keyringCacheStoreKey nm d s =
    (Ret (Z.to_nat (keyCount (cache s))),
     with_cache (cache_push (cache s) {| ki_name := nm; ki_data := d |}) s).
Proof.
  intros [Hl Hk] Hlt. unfold keyringCacheStoreKey, bind, get, modify, ret, MAX_CACHE_ENTRIES in *.
  rewrite (proj2 (Nat.ltb_lt _ _)) by lia.
  unfold cache_push. by rewrite uwrap_small by lia.
Qed.

Lemma keyringCacheStoreKey_full nm d s :
  cache_wf (cache s) -> keyCount (cache s) = Z.of_nat MAX_CACHE_ENTRIES ->
  keyringCacheStoreKey nm d s = (Undefined, s).
Proof.
  intros [Hl Hk] Heq. unfold keyringCacheStoreKey, bind, get. rewrite Heq, Hl, Nat2Z.id.
  by rewrite Nat.ltb_irrefl.
Qed.

Lemma keyringGetKey_cached stack nm s i :
  cache_wf (cache s) -> cached_index (cache s) nm = Some i ->
  keyringGetKey stack nm s = (Ret (Some i), s).
Proof.
  intros Hc Hi. unfold keyringGetKey, bind, get.
  by rewrite cache_scan_cached, Hi by done.
Qed.

Lemma keyringGetKey_local stack nm s :
  cache_wf (cache s) -> local_provider s ->
  keyringGetKey stack nm s = (Ret (cached_index (cache s) nm), s).
Proof.
  intros Hc Hp. destruct (cached_index (cache s) nm) as [i|] eqn:Hi;
    [by apply keyringGetKey_cached|].
  unfold keyringGetKey, bind, get. rewrite cache_scan_cached, Hi by done. cbn.
  unfold local_provider in Hp. by destruct (keyringProvider s).
Qed.

(** ** Versions *)

Definition version_name s (internalName : string) (v : Z) : string :=
  keyringConstructKeyName (keyringKeyPrefix s) internalName v.

(** Versions [1 .. v] are cached and [v + 1] is not. *)
Definition latest_version s (internalName : string) (v : Z) : Prop :=
  0 <= v /\
  (forall i, 1 <= i <= v -> is_Some (cached_index (cache s) (version_name s internalName i))) /\
  cached_index (cache s) (version_name s internalName (v + 1)) = None.

Definition version_index s (internalName : string) (v : Z) : option nat :=
  if 0 <? v then cached_index (cache s) (version_name s internalName v) else None.

(** Pigeonhole: there are at most [keyCount] versions. *)
Lemma versions_bound s n v :
  cache_wf (cache s) -> prefix_ok (keyringKeyPrefix s) -> internal_ok n ->
  0 <= v < 2 ^ 32 ->
  (forall i, 1 <= i <= v -> is_Some (cached_index (cache s) (version_name s n i))) ->
  v <= keyCount (cache s).
Proof.
  intros Hc Hp Hn Hv Hall.
  set (names := (fun i => version_name s n i) <$> seqZ 1 v).
  assert (Hnd : NoDup names).
  { apply NoDup_fmap_2_strong; [|apply NoDup_seqZ].
    intros x y Hx%elem_of_seqZ Hy%elem_of_seqZ Hxy.
    by eapply keyringConstructKeyName_inj_aux in Hxy as [_ ?]; [|done|done..|lia|lia]. }
  assert (Hsub : names ⊆ (ki_name <$> cached (cache s))).
  { intros nm (i & -> & Hi%elem_of_seqZ)%list_elem_of_fmap.
    destruct (Hall i) as [j Hj]; [lia|].
    apply cached_index_Some in Hj as (k & Hk & <-).
    apply list_elem_of_fmap. exists k. split; [done|]. by eapply list_elem_of_lookup_2. }
  pose proof (submseteq_length _ _ (NoDup_submseteq _ _ Hnd Hsub)) as Hlen.
  unfold names in Hlen. rewrite !length_fmap, length_seqZ, length_cached in Hlen by done.
  destruct Hc. lia.
Qed.

Lemma versions_exhausted s n i :
  cache_wf (cache s) -> prefix_ok (keyringKeyPrefix s) -> internal_ok n ->
  (forall j, 1 <= j < i -> is_Some (cached_index (cache s) (version_name s n j))) ->
  keyCount (cache s) < i - 1 -> False.
Proof.
  intros Hc Hp Hn Hall Hi. pose proof Hc as [_ ?]. unfold MAX_CACHE_ENTRIES in *.
  assert (keyCount (cache s) + 1 <= keyCount (cache s)); [|lia].
  apply (versions_bound s n); try done; [lia|]. intros j Hj. apply Hall. lia.
Qed.

Lemma latest_loop_spec fuel stack n s i prev :
  cache_wf (cache s) -> local_provider s -> prefix_ok (keyringKeyPrefix s) -> internal_ok n ->
  1 <= i ->
  (forall j, 1 <= j < i -> is_Some (cached_index (cache s) (version_name s n j))) ->
  prev = version_index s n (i - 1) ->
  keyCount (cache s) - (i - 1) < Z.of_nat fuel ->
  exists v, latest_version s n v /\
    latest_loop fuel stack n i prev s = (Ret (version_index s n v), s).
Proof.
  intros Hc Hl Hp Hn. revert i prev. induction fuel as [|fuel IH];
    intros i prev Hi Hall -> Hf; cbn [latest_loop].
  { exfalso. eapply versions_exhausted; [exact Hc|done..|lia]. }
  unfold bind at 1, get. unfold bind at 1. rewrite keyringGetKey_local by done.
  fold (version_name s n i).
  destruct (cached_index _ (version_name s n i)) as [k|] eqn:E.
  - destruct (IH (i + 1) (Some k)) as (v & Hv & Hr); [lia| | |lia|by exists v].
    + intros j Hj. destruct (decide (j = i)) as [->|]; [by rewrite E|apply Hall; lia].
    + unfold version_index. replace (i + 1 - 1) with i by lia.
      by rewrite (proj2 (Z.ltb_lt _ _)), E by lia.
  - exists (i - 1). split; [|done]. split_and!; [lia| |].
    + intros j Hj. apply Hall. lia.
    + by replace (i - 1 + 1) with i by lia.
Qed.

Lemma free_version_loop_spec fuel stack n s i :
  cache_wf (cache s) -> local_provider s -> prefix_ok (keyringKeyPrefix s) -> internal_ok n ->
  1 <= i ->
  (forall j, 1 <= j < i -> is_Some (cached_index (cache s) (version_name s n j))) ->
  keyCount (cache s) - (i - 1) < Z.of_nat fuel ->
  exists v, latest_version s n v /\
    free_version_loop fuel stack n i s = (Ret (v + 1), s).
Proof.
  intros Hc Hl Hp Hn. revert i. induction fuel as [|fuel IH];
    intros i Hi Hall Hf; cbn [free_version_loop].
  { exfalso. eapply versions_exhausted; [exact Hc|done..|lia]. }
  unfold bind at 1, get. unfold bind at 1. rewrite keyringGetKey_local by done.
  fold (version_name s n i).
  destruct (cached_index _ (version_name s n i)) as [k|] eqn:E.
  - apply IH; [lia| |lia].
    intros j Hj. destruct (decide (j = i)) as [->|]; [by rewrite E|apply Hall; lia].
  - exists (i - 1). split; [split_and!|].
    + lia.
    + intros j Hj. apply Hall. lia.
    + by replace (i - 1 + 1) with i by lia.
    + unfold ret. do 2 f_equal. lia.
Qed.

(** ** Storing *)

Lemma keyringFileStoreKey_ok i s :
  keyringFileDataFileName s <> "" -> fopen_w (keyringFileDataFileName s) = true ->
  keyringFileStoreKey i s =
    (Ret true, with_files (<[keyringFileDataFileName s := cache s]> (keyring_files s)) s).
Proof.
  intros Hne Hw. unfold keyringFileStoreKey, bind, get, modify, ret. rewrite Hw.
  by destruct (keyringFileDataFileName s).
Qed.

Lemma keyringFileStoreKey_error i s :
  keyringFileDataFileName s = "" \/ fopen_w (keyringFileDataFileName s) = false ->
  keyringFileStoreKey i s = (Raise ERROR, s).
Proof.
  intros H. unfold keyringFileStoreKey, bind, get, modify, ret, raise.
  destruct (keyringFileDataFileName s); [done|]. by destruct H as [?| ->].
Qed.

(** The state after a key was stored by the file provider. *)
Definition stored_state nm (d : keyData) s : KeyringState :=
  let c := cache_push (cache s) {| ki_name := nm; ki_data := d |} in
  with_files (<[keyringFileDataFileName s := c]> (keyring_files s)) (with_cache c s).

Lemma keyringStoreKey_file nm d s :
  cache_wf (cache s) -> keyCount (cache s) < Z.of_nat MAX_CACHE_ENTRIES ->
  keyringProvider s = PROVIDER_FILE ->
  keyringFileDataFileName s <> "" -> fopen_w (keyringFileDataFileName s) = true ->
  keyringStoreKey nm d s = (Ret (Some (Z.to_nat (keyCount (cache s)))), stored_state nm d s).
Proof.
  intros Hc Hlt Hp Hne Hw. unfold keyringStoreKey.
  mstep (keyringCacheStoreKey_spec nm d s Hc Hlt). unfold bind at 1, get.
  cbn [with_cache keyringProvider]. rewrite Hp.
  mstep (keyringFileStoreKey_ok (Z.to_nat (keyCount (cache s)))
    (with_cache (cache_push (cache s) {| ki_name := nm; ki_data := d |}) s) Hne Hw).
  reflexivity.
Qed.

Lemma keyringStoreKey_file_error nm d s :
  cache_wf (cache s) -> keyCount (cache s) < Z.of_nat MAX_CACHE_ENTRIES ->
  keyringProvider s = PROVIDER_FILE ->
  keyringFileDataFileName s = "" \/ fopen_w (keyringFileDataFileName s) = false ->
  keyringStoreKey nm d s =
    (Raise ERROR, with_cache (cache_push (cache s) {| ki_name := nm; ki_data := d |}) s).
Proof.
  intros Hc Hlt Hp Hbad. unfold keyringStoreKey.
  mstep (keyringCacheStoreKey_spec nm d s Hc Hlt). unfold bind at 1, get.
  cbn [with_cache keyringProvider]. rewrite Hp.
  apply bind_Raise. by apply keyringFileStoreKey_error.
Qed.
End ops.

(** ** The cache invariant *)

Section invariant.
Context `{HJ : Json} `{HB : Base64} `{HC : Curl} `{HF : KeyringFs}.

(** The shared cache and every keyring file hold a well-formed cache. *)
Definition keyring_inv (s : KeyringState) : Prop :=
  cache_wf (cache s) /\ map_Forall (fun _ c => cache_wf c) (keyring_files s).

(** A call keeps the invariant, however it ends. *)
Definition preserves {A} (m : M KeyringState A) : Prop :=
  forall s, keyring_inv s -> keyring_inv (snd (m s)).

Lemma preserves_bind {A B} (m : M KeyringState A) (k : A -> M KeyringState B) :
  preserves m -> (forall a, preserves (k a)) -> preserves (bind m k).
Proof.
  intros Hm Hk s Hs. specialize (Hm s Hs). unfold bind.
  destruct (m s) as [[a|l| |] s']; cbn in *; try done. by apply Hk.
Qed.

Lemma preserves_get {B} (k : KeyringState -> M KeyringState B) :
  (forall s, preserves (k s)) -> preserves (bind get k).
Proof. intros Hk s Hs. unfold bind, get. by apply Hk. Qed.

Lemma preserves_pure {A} (o : outcome A) : preserves (fun s => (o, s)).
Proof. by intros s. Qed.

Lemma preserves_defined {A} (o : option A) : preserves (defined o).
Proof. destruct o; apply preserves_pure. Qed.

Lemma preserves_modify f :
  (forall s, keyring_inv s -> keyring_inv (f s)) -> preserves (modify f).
Proof. by intros H s Hs; apply H. Qed.

Lemma preserves_in_vault {A} (m : M VaultVars A) : preserves (in_vault m).
Proof. intros s [? ?]. unfold in_vault, zoom. by destruct (m (vault s)). Qed.
End invariant.

(** Take a computation of the keyring apart into steps that keep the
    invariant. *)
Ltac keep_step :=
  match goal with
  | |- preserves (bind get _) => apply preserves_get; intros ?
  | |- preserves (bind _ _) => apply preserves_bind; [|intros ?]
  | |- preserves (ret _) => apply (preserves_pure (Ret _))
  | |- preserves (raise _) => apply (preserves_pure (Raise _))
  | |- preserves undefined => apply (preserves_pure Undefined)
  | |- preserves nofuel => apply (preserves_pure NoFuel)
  | |- preserves (defined _) => apply preserves_defined
  | |- preserves (in_vault _) => apply preserves_in_vault
  | |- preserves (modify (with_provider _)) => apply preserves_modify; by intros ? [? ?]
  | |- preserves (modify (with_datafile _)) => apply preserves_modify; by intros ? [? ?]
  | |- preserves (modify (fun _ => with_vault _ _)) => apply preserves_modify; by intros ? [? ?]
  | |- preserves (match ?x with _ => _ end) => destruct x
  | |- preserves (if ?x then _ else _) => destruct x
  | |- preserves _ => solve [auto with keep nocore]
  end.
Ltac keep := repeat keep_step.
Create HintDb keep.

Section kept.
Context `{HJ : Json} `{HB : Base64} `{HC : Curl} `{HF : KeyringFs}.

Lemma keep_file_preload : preserves keyringFilePreloadCache.
Proof.
  intros s [Hc Hf]. unfold keyringFilePreloadCache, bind, get.
  destruct (keyring_files s !! keyringFileDataFileName s) as [c|] eqn:E; cbn; [|done].
  split; [exact (Hf _ _ E)|exact Hf].
Qed.

Lemma keep_file_store i : preserves (keyringFileStoreKey i).
Proof.
  intros s [Hc Hf]. unfold keyringFileStoreKey, bind, get.
  destruct (_ =? 0)%nat; [done|]. destruct (negb _); [done|]. cbn.
  split; [exact Hc|]. by apply map_Forall_insert_2.
Qed.

Lemma keep_cache_store nm d : preserves (keyringCacheStoreKey nm d).
Proof.
  intros s [Hc Hf].
  destruct (decide (keyCount (cache s) < Z.of_nat MAX_CACHE_ENTRIES)).
  - rewrite keyringCacheStoreKey_spec by done. split; [|exact Hf]. by apply cache_push_wf.
  - rewrite keyringCacheStoreKey_full; [done|done|]. destruct Hc. lia.
Qed.

#[local] Hint Resolve keep_file_preload keep_file_store keep_cache_store : keep.

Lemma keep_vault_get nm d : preserves (keyringVaultGetKey nm d).
Proof. unfold keyringVaultGetKey. keep. Qed.
#[local] Hint Resolve keep_vault_get : keep.

Lemma keep_get_key stack nm : preserves (keyringGetKey stack nm).
Proof. unfold keyringGetKey. keep. Qed.
#[local] Hint Resolve keep_get_key : keep.

(** Storing at a provider does not touch the cache, so a failure can
    take the last entry away again. *)
Lemma vault_store_cache k s : cache (snd (keyringVaultStoreKey k s)) = cache s
  /\ keyring_files (snd (keyringVaultStoreKey k s)) = keyring_files s.
Proof.
  unfold keyringVaultStoreKey. destruct (pg_b64_encode _ _); [|done].
  destruct (64 <=? _); [done|]. unfold bind, get.
  destruct (keyringVaultKeyUrl _ _); [|done].
  unfold defined, ret, in_vault, zoom.
  by destruct (curlPerform _ _ _) as [[[[code body]|]|l| |] v].
Qed.

Lemma keep_store_key nm d : preserves (keyringStoreKey nm d).
Proof.
  intros s Hs. unfold keyringStoreKey.
  destruct (decide (keyCount (cache s) < Z.of_nat MAX_CACHE_ENTRIES)) as [Hlt|Hge].
  2: { rewrite (bind_Undefined _ _ _ s); [exact Hs|].
       destruct Hs as [[Hl Hk] _]. apply keyringCacheStoreKey_full; [done|lia]. }
  mstep (keyringCacheStoreKey_spec nm d s (proj1 Hs) Hlt).
  set (s1 := with_cache _ s).
  assert (Hs1 : keyring_inv s1)
    by (destruct Hs; split; [by apply cache_push_wf|done]).
  assert (Hpos : 1 <= keyCount (cache s1)) by (destruct Hs as [[_ ?] _]; cbn; lia).
  assert (Hpop : forall s2, keyring_inv s2 -> cache s2 = cache s1 ->
    keyring_inv (with_cache {| keys := keys (cache s2);
                               keyCount := u32 (keyCount (cache s2) - 1) |} s2)).
  { intros s2 [[Hl Hk] Hf] Heq. split; [|exact Hf]. unfold MAX_CACHE_ENTRIES in *.
    split; cbn [keys keyCount with_cache cache]; [done|].
    rewrite <- Heq in Hpos. unfold MAX_CACHE_ENTRIES. rewrite uwrap_small; lia. }
  clearbody s1. unfold bind at 1, get. destruct (keyringProvider s1).
  - by apply Hpop.
  - unfold bind at 1.
    pose proof (keep_file_store (Z.to_nat (keyCount (cache s))) s1 Hs1) as Hk.
    assert (Hc : cache (snd (keyringFileStoreKey (Z.to_nat (keyCount (cache s))) s1)) = cache s1).
    { unfold keyringFileStoreKey, bind, get. destruct (_ =? 0)%nat; [done|].
      by destruct (negb _). }
    destruct (keyringFileStoreKey _ s1) as [[[]|l| |] s2]; try done. by apply Hpop.
  - destruct (keys (cache s1) !! _) as [k|]; cbn [defined]; [|done].
    unfold bind at 1. rewrite bind_ret_l.
    destruct (vault_store_cache k s1) as [Hc Hf].
    destruct (keyringVaultStoreKey k s1) as [r s2]. cbn in Hc, Hf.
    assert (Hs2 : keyring_inv s2) by (unfold keyring_inv; by rewrite Hc, Hf).
    destruct r as [[]|l| |]; try done. by apply Hpop.
Qed.
#[local] Hint Resolve keep_store_key : keep.

Lemma keep_latest fuel stack n : preserves (keyringGetLatestKey fuel stack n).
Proof.
  unfold keyringGetLatestKey. generalize 1 (@None nat).
  induction fuel as [|fuel IH]; intros i prev; cbn [latest_loop]; keep.
Qed.

Lemma keep_generate fuel stack rand n len :
  preserves (keyringGenerateKey fuel stack rand n len).
Proof.
  unfold keyringGenerateKey. apply preserves_bind; [|intros i; keep].
  generalize 1. induction fuel as [|fuel IH]; intros i; cbn [free_version_loop]; keep.
Qed.

Lemma zero_cache_wf : cache_wf zero_cache.
Proof. split; [apply length_replicate|unfold MAX_CACHE_ENTRIES; cbn; lia]. Qed.

Lemma keep_init found : preserves (keyringInitCache found).
Proof.
  unfold keyringInitCache. apply preserves_bind.
  - destruct found; [keep|]. apply preserves_modify.
    intros s [_ Hf]. split; [apply zero_cache_wf|exact Hf].
  - intros _. unfold keyringVaultPreloadCache. keep.
Qed.

Lemma keep_assign f : preserves (keyringAssignConfigFile f).
Proof.
  unfold keyringAssignConfigFile, keyringLoadConfiguration,
    keyringFileParseConfiguration, keyringVaultParseConfiguration,
    keyringConfigExtractParameter. keep.
Qed.
End kept.
