(* ===== verification/KeyringClaims.v ===== *)
(** The properties of the keyring, with their witnesses on a small concrete
    environment. *)
From stdpp Require Import pretty relations.
From S2P Require Import Prelude KeyringTypes KeyringProviders KeyringApi KeyringProps.

(** ** Definitions the statements use *)

Section definitions.
Context `{HJ : Json} `{HB : Base64} `{HC : Curl} `{HF : KeyringFs}.

(** A call that does not end in undefined behaviour. *)
Definition defined_call {A} (m : M KeyringState A) (s s' : KeyringState) : Prop :=
  fst (m s) <> Undefined /\ snd (m s) = s'.

(** One call of the keyring, with any arguments, that returns or raises:
    what the shared state goes through. *)
Inductive keyring_step : KeyringState -> KeyringState -> Prop :=
| step_init found s s' : defined_call (keyringInitCache found) s s' -> keyring_step s s'
| step_assign f s s' : defined_call (keyringAssignConfigFile f) s s' -> keyring_step s s'
| step_get stack nm s s' : defined_call (keyringGetKey stack nm) s s' -> keyring_step s s'
| step_store nm d s s' : defined_call (keyringStoreKey nm d) s s' -> keyring_step s s'
| step_latest fuel stack n s s' : defined_call (keyringGetLatestKey fuel stack n) s s' -> keyring_step s s'
| step_generate fuel stack rand n len s s' :
    defined_call (keyringGenerateKey fuel stack rand n len) s s' -> keyring_step s s'.


(** A process started later over the same keyring file. *)
Definition restarted (s s2 : KeyringState) : Prop :=
  keyring_files s2 = keyring_files s
  /\ keyringFileDataFileName s2 = keyringFileDataFileName s
  /\ keyringProvider s2 = keyringProvider s.

Lemma latest_version_unique s n v v' :
  latest_version s n v -> latest_version s n v' -> v = v'.
Proof.
  intros (H0 & H1 & H2) (H0' & H1' & H2'). destruct (Z.lt_total v v') as [Hl|[?|Hl]]; [|done|].
  - destruct (H1' (v + 1)) as [? E]; [lia|congruence].
  - destruct (H1 (v' + 1)) as [? E]; [lia|congruence].
Qed.

Lemma stored_state_index nm d s nm' :
  cache_wf (cache s) -> keyCount (cache s) < Z.of_nat MAX_CACHE_ENTRIES ->
  cached_index (cache (stored_state nm d s)) nm' =
    match cached_index (cache s) nm' with
    | Some i => Some i
    | None => if bool_decide (nm = nm') then Some (Z.to_nat (keyCount (cache s))) else None
    end.
Proof. intros. unfold stored_state. cbn. by rewrite cached_index_push. Qed.
End definitions.

(** ** A small environment *)
Module ToyKeyring.
Inductive tjson := TStr (s : string) | TObj (l : list (string * tjson)).

#[export] Instance toy_json : Json := {|
  json := tjson;
  json_object_from_file := fun f =>
    if bool_decide (f = "conf") then
      Some (TObj [("provider", TStr "file"); ("datafile", TStr "keys")])
    else None;
  json_tokener_parse := fun body =>
    Some (TObj [("data", TObj [("data", TObj [("key", TStr body)])])]);
  json_object_object_get_ex := fun j k =>
    match j with
    | TObj l => snd <$> (snd <$> list_find (fun p => fst p = k) l)
    | TStr _ => None
    end;
  json_object_get_string := fun j => match j with TStr s => Some s | TObj _ => Some "{}" end;
  json_is_object := fun j => match j with TObj _ => true | TStr _ => false end;
  json_object_new_string := TStr;
  json_object_new_object := TObj [];
  json_object_object_add := fun j k v =>
    match j with TObj l => TObj (l ++ [(k, v)]) | TStr s => TStr s end;
  json_object_to_json_string := fun j => match j with TStr s => s | TObj _ => "{}" end;
|}.

#[export] Instance toy_base64 : Base64 := {|
  pg_b64_encode := fun l n =>
    if Z.of_nat (length l) <=? n
    then Some (String.string_of_list_ascii ((fun z => Ascii.ascii_of_nat (Z.to_nat z)) <$> l))
    else None;
  pg_b64_decode := fun s n =>
    if Z.of_nat (String.length s) <=? n
    then (Z.of_nat (String.length s),
          ((fun c => Z.of_nat (Ascii.nat_of_ascii c)) <$> String.list_ascii_of_string s)
            ++ replicate (Z.to_nat n - String.length s) 0)
    else (-1, replicate (Z.to_nat n) 0);
|}.

(** A server that answers each request with code 200 and what it holds. *)
#[export] Instance toy_curl : Curl := {|
  server := string;
  curl_easy_init_ok := true;
  curl_slist_append_ok := fun _ => true;
  curl_easy_setopt_ok := fun _ => true;
  curl_easy_perform := fun _ body => (Some (200, [body]), body);
|}.

(** The file ["ro"] cannot be written. *)
#[export] Instance toy_fs : KeyringFs := {|
  fopen_w := fun f => negb (bool_decide (f = "ro"));
  access_R_OK := fun _ => true;
|}.

Definition toy_vault : VaultVars :=
  {| keyringVaultToken := "t"; keyringVaultUrl := "http://h"; keyringVaultCaPath := "";
     keyringVaultMountPath := "secret"; curl := None; curlList := None;
     vault_server := "short" |}.

Definition toy_state (p : KeyringProvider) (f : string) : KeyringState :=
  {| cache := zero_cache; keyringProvider := p; keyringConfigFile := None;
     keyringKeyPrefix := Some "pre"; keyringFileDataFileName := f;
     keyring_files := ∅; vault := toy_vault |}.

Definition stack0 : list Z := replicate 32 0.
Definition key16 : list Z := replicate 16 7.
Definition kd16 : keyData := {| kd_data := key16 ++ replicate 16 0; kd_len := 16 |}.

Lemma toy_wf p f : cache_wf (cache (toy_state p f)).
Proof. exact zero_cache_wf. Qed.
Lemma toy_prefix p f : prefix_ok (keyringKeyPrefix (toy_state p f)).
Proof. reflexivity. Qed.
Lemma master_internal : internal_ok "master-key".
Proof. unfold internal_ok. cbn. lia. Qed.
Lemma toy_index p f nm : cached_index (cache (toy_state p f)) nm = None.
Proof. reflexivity. Qed.
End ToyKeyring.

(** ** Properties *)

Section claims.
Context `{HJ : Json} `{HB : Base64} `{HC : Curl} `{HF : KeyringFs}.

(** [keyringGetLatestKey] terminates for a local provider, whatever
    is cached: some version [v], at most the number of cached keys, is
    the last of the contiguous versions, and any fuel above that number
    makes the loop return its entry (NULL when there is no version 1)
    without changing the keyring. *)
Theorem keyringGetLatestKey_latest s stack n :
  cache_wf (cache s) -> local_provider s -> prefix_ok (keyringKeyPrefix s) -> internal_ok n ->
  exists v, latest_version s n v /\ v <= keyCount (cache s) /\
    forall fuel, keyCount (cache s) < Z.of_nat fuel ->
      keyringGetLatestKey fuel stack n s = (Ret (version_index s n v), s).
Proof.
  intros Hc Hl Hp Hn.
  assert (Hall : forall j, 1 <= j < 1 ->
    is_Some (cached_index (cache s) (version_name s n j))) by lia.
  assert (Hloop : forall fuel, keyCount (cache s) < Z.of_nat fuel ->
    exists v, latest_version s n v /\
      keyringGetLatestKey fuel stack n s = (Ret (version_index s n v), s)).
  { intros fuel Hf. apply latest_loop_spec; try done; lia. }
  destruct (Hloop (S (Z.to_nat (keyCount (cache s))))) as (v & Hv & _); [lia|].
  exists v. split; [done|]. split.
  - destruct (Z.le_gt_cases v (keyCount (cache s))) as [|Hgt]; [done|exfalso].
    destruct Hv as (_ & Hv & _).
    apply (versions_exhausted s n (v + 1)); try done; [|lia].
    intros j Hj. apply Hv. lia.
  - intros fuel Hf. destruct (Hloop fuel Hf) as (v' & Hv' & Hr).
    by rewrite (latest_version_unique _ _ _ _ Hv Hv').
Qed.


(** for one prefix, the name built from an internal name and a
    version determines both, and is not cut to the 255 characters of
    its buffer. *)
Theorem keyringConstructKeyName_inj p n n' v v' :
  prefix_ok p -> internal_ok n -> internal_ok n' ->
  0 <= v < 2 ^ 32 -> 0 <= v' < 2 ^ 32 ->
  keyringConstructKeyName p n v = keyringConstructKeyName p n' v' -> n = n' /\ v = v'.
Proof. apply keyringConstructKeyName_inj_aux. Qed.

(** storing and restarting: a key the file provider stored is found,
    with its data, by a process that starts later over the same file. *)
Theorem keyringStoreKey_restart nm d s i s' s2 stack :
  cache_wf (cache s) -> keyCount (cache s) < Z.of_nat MAX_CACHE_ENTRIES ->
  keyringProvider s = PROVIDER_FILE -> cached_index (cache s) nm = None ->
  keyringStoreKey nm d s = (Ret (Some i), s') -> restarted s' s2 ->
  exists s3, keyringInitCache false s2 = (Ret tt, s3) /\
    keyringGetKey stack nm s3 = (Ret (Some i), s3) /\
    keys (cache s3) !! i = Some {| ki_name := nm; ki_data := d |}.
Proof.
  intros Hc Hlt Hp Hnone Hst (Hfs & Hfn & Hpr).
  destruct (decide (keyringFileDataFileName s = "")) as [He|Hne].
  { by rewrite keyringStoreKey_file_error in Hst by auto. }
  destruct (fopen_w (keyringFileDataFileName s)) eqn:Hw.
  2: { by rewrite keyringStoreKey_file_error in Hst by auto. }
  rewrite keyringStoreKey_file in Hst by done. simplify_eq.
  cbn in Hfs, Hfn, Hpr.
  exists (with_cache (cache (stored_state nm d s)) s2). split_and!.
  - unfold keyringInitCache, bind, modify, get, ret.
    cbn [with_cache keyringProvider]. rewrite Hpr, Hp.
    unfold keyringFilePreloadCache, bind, get. cbn [with_cache keyring_files keyringFileDataFileName].
    by rewrite Hfs, Hfn, lookup_insert_eq.
  - apply keyringGetKey_cached; [by apply cache_push_wf|].
    pose proof (stored_state_index nm d s nm Hc Hlt) as Hi.
    rewrite Hnone, bool_decide_true in Hi by done. exact Hi.
  - cbn. apply list_lookup_insert_eq. destruct Hc. lia.
Qed.

(** an error of the file provider leaves through [elog(ERROR)], so
    the entry is not taken out of the cache again: the key is handed out
    although no file holds it. *)
Theorem keyringStoreKey_error_keeps_key nm d s stack :
  cache_wf (cache s) -> keyCount (cache s) < Z.of_nat MAX_CACHE_ENTRIES ->
  keyringProvider s = PROVIDER_FILE -> cached_index (cache s) nm = None ->
  keyringFileDataFileName s = "" \/ fopen_w (keyringFileDataFileName s) = false ->
  exists s', keyringStoreKey nm d s = (Raise ERROR, s') /\
    keyring_files s' = keyring_files s /\
    let i := Z.to_nat (keyCount (cache s)) in
    keyringGetKey stack nm s' = (Ret (Some i), s') /\
    keys (cache s') !! i = Some {| ki_name := nm; ki_data := d |}.
Proof.
  intros Hc Hlt Hp Hnone Hbad.
  eexists. split; [by apply keyringStoreKey_file_error|].
  cbn zeta. split_and!; [done| |].
  - apply keyringGetKey_cached; [by apply cache_push_wf|].
    cbn. rewrite cached_index_push, Hnone by done. cbn. by rewrite bool_decide_true.
  - cbn. apply list_lookup_insert_eq. destruct Hc. lia.
Qed.

(** the cache and every keyring file stay well formed through any
    sequence of keyring calls without undefined behaviour, under every
    provider; and the next key is stored within the array unless it is the
    1025th, which is written behind it. *)
Theorem keyring_inv_steps s s' :
  rtc keyring_step s s' -> keyring_inv s ->
  keyring_inv s' /\ forall nm d, fst (keyringCacheStoreKey nm d s') = Undefined
                                <-> keyCount (cache s') = Z.of_nat MAX_CACHE_ENTRIES.
Proof.
  intros Hs Hinv. assert (Hinv' : keyring_inv s').
  { revert Hinv. induction Hs as [|s s1 s2 Hstep _ IH]; intros Hinv; [done|]. apply IH.
    destruct Hstep as [? ? ? [_ <-]|? ? ? [_ <-]|? ? ? ? [_ <-]|? ? ? ? [_ <-]|? ? ? ? ? [_ <-]|? ? ? ? ? ? ? [_ <-]].
    - by apply keep_init.
    - by apply keep_assign.
    - by apply keep_get_key.
    - by apply keep_store_key.
    - by apply keep_latest.
    - by apply keep_generate. }
  split; [done|]. intros nm d. destruct Hinv' as [Hc _]. pose proof Hc as [Hl Hk].
  destruct (decide (keyCount (cache s') < Z.of_nat MAX_CACHE_ENTRIES)).
  - rewrite keyringCacheStoreKey_spec by done. cbn [fst]. split; [done|lia].
  - rewrite keyringCacheStoreKey_full by (done || lia). split; [lia|done].
Qed.

(** a vault lookup that is answered: the decoded key is put in the
    cache and returned whatever its length is, since the result of
    [keyringVaultGetKey] (whether there were 32 bytes) is not looked at;
    a decoding error of [-1] makes an entry of length [2^32 - 1]. *)
Theorem keyringGetKey_vault_fetch nm stack s s1 url code body r data data2 keyO key_ n bytes :
  cache_wf (cache s) -> keyCount (cache s) < Z.of_nat MAX_CACHE_ENTRIES ->
  keyringProvider s = PROVIDER_VAULT_V2 -> cached_index (cache s) nm = None ->
  keyringVaultKeyUrl (vault s) nm = Some url ->
  in_vault (curlPerform url None) s = (Ret (Some (code, body)), s1) ->
  Z.quot code 100 = 2 -> json_tokener_parse body = Some r ->
  json_object_object_get_ex r "data" = Some data ->
  json_object_object_get_ex data "data" = Some data2 ->
  json_object_object_get_ex data2 "key" = Some keyO ->
  json_object_get_string keyO = Some key_ -> key_ <> "" ->
  pg_b64_decode key_ 32 = (n, bytes) -> u32 n <> 0 ->
  let i := Z.to_nat (keyCount (cache s)) in
  exists s', keyringGetKey stack nm s = (Ret (Some i), s') /\
    keys (cache s') !! i =
      Some {| ki_name := nm; ki_data := {| kd_data := bytes; kd_len := u32 n |} |}.
Proof.
  intros Hc Hlt Hp Hnone Hurl Hcurl Hcode Hparse Hd1 Hd2 Hk Hs Hne Hdec Hn i.
  assert (Hs1 : cache s1 = cache s).
  { unfold in_vault, zoom in Hcurl. destruct (curlPerform url None (vault s)). by simplify_eq. }
  assert (Hget : keyringVaultGetKey nm {| kd_data := stack; kd_len := 0 |} s =
    (Ret (u32 n =? 32, {| kd_data := bytes; kd_len := u32 n |}), s1)).
  { unfold keyringVaultGetKey. unfold bind at 1, get. rewrite Hurl. cbn [defined].
    rewrite bind_ret_l. mstep Hcurl. rewrite Hcode, Hparse, Hd1, Hd2, Hk, Hs. cbn [negb Z.eqb Pos.eqb].
    destruct key_; [done|]. rewrite Hdec. cbn [kd_len]. by destruct (u32 n =? 32). }
  pose proof (uwrap_range 32 n). eexists. split.
  - unfold keyringGetKey. unfold bind at 1, get. rewrite cache_scan_cached, Hnone by done.
    cbn [defined]. rewrite bind_ret_l, Hp. mstep Hget. cbn [snd kd_len].
    rewrite (proj2 (Z.ltb_lt _ _)) by lia.
    rewrite <- Hs1 in Hc, Hlt. mstep (keyringCacheStoreKey_spec nm
      {| kd_data := bytes; kd_len := u32 n |} s1 Hc Hlt).
    unfold ret. rewrite Hs1. reflexivity.
  - cbn. apply list_lookup_insert_eq. destruct Hc. lia.
Qed.

Lemma extract_parameter_inv root nm p len opt s b s' :
  keyringConfigExtractParameter root nm p len opt s = (Ret b, s') ->
  (b = true /\ exists x, (String.length x <= len - 1)%nat /\
     s' = with_vault (with_param p x (vault s)) s)
  \/ (b = false /\ opt = true /\ s' = s).
Proof.
  unfold keyringConfigExtractParameter.
  destruct (json_object_object_get_ex root nm) as [o|].
  2: { destruct opt; cbv; intros; simplify_eq; auto. }
  destruct (keyringParseStringParam o) as [x|].
  2: { destruct opt; cbv; intros; simplify_eq; auto. }
  intros H. left. unfold bind, modify, ret in H. simplify_eq. split; [done|].
  eexists. split; [|done].
  apply substring_length.
Qed.

(** whatever the configuration file holds, the buffer of 512
    characters is long enough for the request of every key whose
    internal name is at most 203 characters (the master key's has 10). *)
Theorem keyringVaultKeyUrl_fits root s s' p n v :
  keyringVaultParseConfiguration root s = (Ret true, s') ->
  prefix_ok p -> (String.length n <= 203)%nat ->
  is_Some (keyringVaultKeyUrl (vault s') (keyringConstructKeyName p n v)).
Proof.
  intros H Hp Hn.
  assert (Hb : (String.length (keyringVaultUrl (vault s')) <= 127 /\
                String.length (keyringVaultMountPath (vault s')) <= 127)%nat).
  { unfold keyringVaultParseConfiguration in H.
    apply bind_inv_Ret in H as (b1 & s1 & H1 & H).
    apply extract_parameter_inv in H1 as [(-> & x1 & L1 & ->)|(-> & _ & ->)]; [|done].
    apply bind_inv_Ret in H as (b2 & s2 & H2 & H).
    apply extract_parameter_inv in H2 as [(-> & x2 & L2 & ->)|(-> & _ & ->)]; [|done].
    apply bind_inv_Ret in H as (b3 & s3 & H3 & H).
    apply extract_parameter_inv in H3 as [(-> & x3 & L3 & ->)|(-> & _ & ->)]; [|done].
    apply bind_inv_Ret in H as (b4 & s4 & H4 & H).
    apply extract_parameter_inv in H4 as [(-> & x4 & L4 & ->)|(-> & _ & ->)];
      unfold ret in H; simplify_eq; cbn in *; lia. }
  apply prefix_ok_length in Hp as Hpl. pose proof (pretty_u32_length v).
  assert (Hnm : (String.length (keyringConstructKeyName p n v) <= 32 + 1 + 203 + 1 + 10)%nat).
  { rewrite keyringConstructKeyName_whole by (done || (unfold internal_ok; lia)).
    unfold key_stem. destruct p as [[|c p]|]; rewrite ?str_length_app; cbn in *;
      rewrite ?str_length_app; cbn; lia. }
  unfold keyringVaultKeyUrl. destruct (Z.leb_spec 512 (Z.of_nat (String.length
    (vault_key_url (vault s') (keyringConstructKeyName p n v))))) as [Hge|]; [|done].
  exfalso. unfold vault_key_url in Hge. rewrite !str_length_app in Hge. cbn in Hge. lia.
Qed.

Lemma with_provider_run (m : M KeyringState bool) pr s b s' :
  bind m (fun r => bind (if r then modify (with_provider pr) else ret tt)
                        (fun _ => ret r)) s = (Ret b, s') ->
  b = true -> keyringProvider s' = pr.
Proof.
  intros H ->. apply bind_inv_Ret in H as (r & s1 & _ & H).
  destruct r; cbv in H; by simplify_eq.
Qed.

(** a configuration that loads names a provider the keyring
    implements, and it is the one in use afterwards; every other content
    of the file is an error. *)
Theorem keyringLoadConfiguration_provider f s r s' :
  keyringLoadConfiguration f s = (Ret r, s') ->
  r = true /\ exists root providerO provider,
    json_object_from_file f = Some root /\
    json_object_object_get_ex root "provider" = Some providerO /\
    json_object_get_string providerO = Some provider /\
    ((provider = "file" /\ keyringProvider s' = PROVIDER_FILE) \/
     (provider = "vault-v2" /\ keyringProvider s' = PROVIDER_VAULT_V2)).
Proof.
  unfold keyringLoadConfiguration.
  destruct (json_object_from_file f) as [root|] eqn:Hroot; [|done].
  destruct (json_object_object_get_ex root "provider") as [po|] eqn:Hpo; [|done].
  destruct (json_object_get_string po) as [prov|] eqn:Hprov; [|done].
  destruct prov as [|c prov']; [done|]. set (prov := String c prov') in *.
  rewrite !strncmp_eq_whole by (cbn; lia). intros H.
  apply bind_inv_Ret in H as (r0 & s0 & H0 & H).
  apply bind_inv_Ret in H as (r1 & s1 & H1 & H).
  unfold bind, get in H. destruct (bool_decide (keyringProvider s1 = PROVIDER_UNKNOWN)); [done|].
  destruct r1; unfold ret in H; cbn in H; [|done]. simplify_eq. split; [done|].
  exists root, po, prov. split_and!; [done..|].
  case_bool_decide as Hv.
  - right. split; [done|]. by eapply with_provider_run.
  - left. unfold ret in H1. simplify_eq. case_bool_decide as Hfl; [|done].
    split; [done|]. by eapply with_provider_run.
Qed.
End claims.

(** ** Witnesses *)

Section witnesses.
Import ToyKeyring.

Lemma keyringGetLatestKey_latest_witness :
  exists v, latest_version (toy_state PROVIDER_FILE "keys") "master-key" v /\ v <= 0 /\
    forall fuel, 0 < Z.of_nat fuel ->
      keyringGetLatestKey fuel stack0 "master-key" (toy_state PROVIDER_FILE "keys") =
        (Ret (version_index (toy_state PROVIDER_FILE "keys") "master-key" v),
         toy_state PROVIDER_FILE "keys").
Proof.
  apply (keyringGetLatestKey_latest (toy_state PROVIDER_FILE "keys") stack0 "master-key").
  - apply toy_wf.
  - discriminate.
  - apply toy_prefix.
  - apply master_internal.
Defined.


Lemma keyringConstructKeyName_inj_witness :
  keyringConstructKeyName (Some "pre") "master-key" 7 = "pre-master-key-7" /\
  (keyringConstructKeyName (Some "pre") "master-key" 7 =
     keyringConstructKeyName (Some "pre") "master-key" 7 ->
   "master-key" = "master-key" /\ 7 = 7).
Proof.
  split; [reflexivity|].
  apply (keyringConstructKeyName_inj (Some "pre") "master-key" "master-key" 7 7);
    [reflexivity|apply master_internal|apply master_internal|lia|lia].
Defined.

Lemma keyringStoreKey_restart_witness :
  exists s3,
    keyringInitCache false
      (stored_state "k-1" kd16 (toy_state PROVIDER_FILE "keys")) = (Ret tt, s3) /\
    keyringGetKey stack0 "k-1" s3 = (Ret (Some 0%nat), s3) /\
    keys (cache s3) !! 0%nat = Some {| ki_name := "k-1"; ki_data := kd16 |}.
Proof.
  apply (keyringStoreKey_restart "k-1" kd16 (toy_state PROVIDER_FILE "keys") 0
    (stored_state "k-1" kd16 (toy_state PROVIDER_FILE "keys"))).
  - apply toy_wf.
  - unfold MAX_CACHE_ENTRIES. cbn. lia.
  - reflexivity.
  - apply toy_index.
  - vm_compute. reflexivity.
  - split_and!; reflexivity.
Defined.

Lemma keyringStoreKey_error_keeps_key_witness :
  exists s', keyringStoreKey "k-1" kd16 (toy_state PROVIDER_FILE "ro") = (Raise ERROR, s') /\
    keyring_files s' = ∅ /\
    keyringGetKey stack0 "k-1" s' = (Ret (Some 0%nat), s') /\
    keys (cache s') !! 0%nat = Some {| ki_name := "k-1"; ki_data := kd16 |}.
Proof.
  apply (keyringStoreKey_error_keeps_key "k-1" kd16 (toy_state PROVIDER_FILE "ro") stack0).
  - apply toy_wf.
  - unfold MAX_CACHE_ENTRIES. cbn. lia.
  - reflexivity.
  - apply toy_index.
  - right. reflexivity.
Defined.

(** Five bytes are accepted as a key. *)
Lemma keyringGetKey_vault_fetch_witness :
  exists s', keyringGetKey stack0 "k-1" (toy_state PROVIDER_VAULT_V2 "") =
               (Ret (Some 0%nat), s') /\
    keys (cache s') !! 0%nat =
      Some {| ki_name := "k-1";
              ki_data := {| kd_data := [115; 104; 111; 114; 116] ++ replicate 27 0;
                            kd_len := 5 |} |}.
Proof.
  set (s0 := toy_state PROVIDER_VAULT_V2 "").
  apply (keyringGetKey_vault_fetch (HJ := toy_json) "k-1" stack0 s0
    (snd (in_vault (curlPerform "http://h/v1/secret/data/k-1" None) s0))
    "http://h/v1/secret/data/k-1" 200 "short"
    (TObj [("data", TObj [("data", TObj [("key", TStr "short")])])])
    (TObj [("data", TObj [("key", TStr "short")])])
    (TObj [("key", TStr "short")]) (TStr "short") "short" 5
    ([115; 104; 111; 114; 116] ++ replicate 27 0)).
  - apply toy_wf.
  - unfold MAX_CACHE_ENTRIES. cbn. lia.
  - reflexivity.
  - apply toy_index.
  - reflexivity.
  - vm_compute. reflexivity.
  - reflexivity.
  - reflexivity.
  - reflexivity.
  - reflexivity.
  - reflexivity.
  - reflexivity.
  - discriminate.
  - vm_compute. reflexivity.
  - discriminate.
Defined.

Definition vault_conf : tjson :=
  TObj [("token", TStr "t"); ("url", TStr "http://h"); ("mountPath", TStr "secret")].

Lemma keyringVaultKeyUrl_fits_witness :
  is_Some (keyringVaultKeyUrl
    (vault (snd (keyringVaultParseConfiguration (HJ := toy_json) vault_conf (toy_state PROVIDER_VAULT_V2 ""))))
    (keyringConstructKeyName (Some "pre") "master-key" 1)).
Proof.
  apply (keyringVaultKeyUrl_fits (HJ := toy_json) vault_conf (toy_state PROVIDER_VAULT_V2 "")).
  - vm_compute. reflexivity.
  - reflexivity.
  - cbn. lia.
Defined.

Lemma keyringLoadConfiguration_provider_witness :
  exists s', keyringLoadConfiguration "conf" (toy_state PROVIDER_UNKNOWN "") = (Ret true, s')
    /\ (true = true /\ exists root providerO provider,
      json_object_from_file "conf" = Some root /\
      json_object_object_get_ex root "provider" = Some providerO /\
      json_object_get_string providerO = Some provider /\
      ((provider = "file" /\ keyringProvider s' = PROVIDER_FILE) \/
       (provider = "vault-v2" /\ keyringProvider s' = PROVIDER_VAULT_V2))).
Proof.
  eexists. split; [vm_compute; reflexivity|].
  apply (keyringLoadConfiguration_provider "conf" (toy_state PROVIDER_UNKNOWN "")).
  vm_compute. reflexivity.
Defined.
End witnesses.
