(* ===== verification/XactHandler.v ===== *)
(** Pending deletes of key files at the end of a transaction:
    src/src/transam/pg_tde_xact_handler.c.

    The list of requests is a linked list of allocated nodes, modelled as
    a heap of nodes by address: following a freed address is undefined. *)
From stdpp Require Import relations.
From S2P Require Import Prelude.

(** The node of the list; [path] is a string the node owns. *)
Record PendingFileDelete := {
  path : string;
  atCommit : bool;       (** T=delete at commit; F=delete at abort *)
  nestLevel : Z;
  next : option positive;
}.

(** The events of xact.h the callbacks are called with. *)
Inductive XactEvent :=
| XACT_EVENT_COMMIT | XACT_EVENT_PARALLEL_COMMIT | XACT_EVENT_ABORT
| XACT_EVENT_PARALLEL_ABORT | XACT_EVENT_PREPARE | XACT_EVENT_PRE_COMMIT
| XACT_EVENT_PARALLEL_PRE_COMMIT | XACT_EVENT_PRE_PREPARE.

Inductive SubXactEvent :=
| SUBXACT_EVENT_START_SUB | SUBXACT_EVENT_COMMIT_SUB | SUBXACT_EVENT_ABORT_SUB
| SUBXACT_EVENT_PRE_COMMIT_SUB.

#[export] Instance XactEvent_eq_dec : EqDecision XactEvent.
Proof. solve_decision. Defined.
#[export] Instance SubXactEvent_eq_dec : EqDecision SubXactEvent.
Proof. solve_decision. Defined.

(** The nodes, the head of the list, the key files on disk, and the nest
    level PostgreSQL reports. *)
Record XactState := {
  heap : gmap positive PendingFileDelete;
  pendingDeletes : option positive;
  files : gset string;
  GetCurrentTransactionNestLevel : Z;
}.

Definition with_heap (h : gmap positive PendingFileDelete) (s : XactState) : XactState :=
  {| heap := h; pendingDeletes := pendingDeletes s; files := files s;
     GetCurrentTransactionNestLevel := GetCurrentTransactionNestLevel s |}.
Definition with_head (p : option positive) (s : XactState) : XactState :=
  {| heap := heap s; pendingDeletes := p; files := files s;
     GetCurrentTransactionNestLevel := GetCurrentTransactionNestLevel s |}.
Definition with_disk (f : gset string) (s : XactState) : XactState :=
  {| heap := heap s; pendingDeletes := pendingDeletes s; files := f;
     GetCurrentTransactionNestLevel := GetCurrentTransactionNestLevel s |}.
Definition with_nest (n : Z) (s : XactState) : XactState :=
  {| heap := heap s; pendingDeletes := pendingDeletes s; files := files s;
     GetCurrentTransactionNestLevel := n |}.

(** Whether [durable_unlink] manages to remove a file; with WARNING a
    failure is only logged. *)
Class Unlink := { unlink_ok : string -> bool }.

Section handler.
Context `{HU : Unlink}.

Local Abbreviation MX := (M XactState).

Definition load (a : positive) : MX PendingFileDelete :=
  let* s := get in defined (heap s !! a).

(** [prev->next = next] *)
Definition store_next (a : positive) (n : option positive) : MX unit :=
  let* e := load a in
  modify (fun s => with_heap (<[a := {| path := path e; atCommit := atCommit e;
                                        nestLevel := nestLevel e; next := n |}]> (heap s)) s).

(** [pfree(pending->path); pfree(pending)] *)
Definition pfree_node (a : positive) : MX unit :=
  load a;;; modify (fun s => with_heap (delete a (heap s)) s).

Definition durable_unlink (p : string) : MX unit :=
  modify (fun s => if unlink_ok p then with_disk (files s ∖ {[p]}) s else s).

(** [if (prev) prev->next = next; else pendingDeletes = next;] *)
Definition unlink_entry (prev next : option positive) : MX unit :=
  match prev with
  | Some a => store_next a next
  | None => modify (with_head next)
  end.

Definition RegisterFileForDeletion (filePath : string) (atCommit : bool) : MX unit :=
  let* s := get in
  let pending := fresh (dom (heap s)) in
  modify (with_heap (<[pending := {| path := filePath; atCommit := atCommit;
                                     nestLevel := GetCurrentTransactionNestLevel s;
                                     next := pendingDeletes s |}]> (heap s)));;;
  modify (with_head (Some pending)).

Fixpoint cleanup_loop (fuel : nat) (atCommit_ : bool) (prev pending : option positive)
  : MX unit :=
  match fuel with
  | O => nofuel
  | S fuel =>
      match pending with
      | None => ret tt
      | Some a =>
          let* e := load a in
          if eqb (atCommit e) atCommit_ then
            unlink_entry prev (next e);;;
            pfree_node a;;;
            cleanup_loop fuel atCommit_ prev (next e)
          else cleanup_loop fuel atCommit_ (Some a) (next e)
      end
  end.

(** Declared and defined in the file, called from nowhere. *)
Definition cleanup_pending_deletes (fuel : nat) (atCommit_ : bool) : MX unit :=
  let* s := get in cleanup_loop fuel atCommit_ None (pendingDeletes s).

Fixpoint pending_deletes_loop (fuel : nat) (isCommit : bool) (nest : Z)
  (prev pending : option positive) : MX unit :=
  match fuel with
  | O => nofuel
  | S fuel =>
      match pending with
      | None => ret tt
      | Some a =>
          let* e := load a in
          if nestLevel e <? nest then
            pending_deletes_loop fuel isCommit nest (Some a) (next e)
          else
            unlink_entry prev (next e);;;
            (if eqb (atCommit e) isCommit then durable_unlink (path e) else ret tt);;;
            pfree_node a;;;
            pending_deletes_loop fuel isCommit nest prev (next e)
      end
  end.

Definition do_pending_deletes (fuel : nat) (isCommit : bool) : MX unit :=
  let* s := get in
  pending_deletes_loop fuel isCommit (GetCurrentTransactionNestLevel s) None (pendingDeletes s).

Fixpoint delete_cleanup_loop (fuel : nat) (pending : option positive) : MX unit :=
  match fuel with
  | O => nofuel
  | S fuel =>
      match pending with
      | None => ret tt
      | Some a =>
          let* e := load a in
          modify (with_head (next e));;;
          pfree_node a;;;
          delete_cleanup_loop fuel (next e)
      end
  end.

Definition pending_delete_cleanup (fuel : nat) : MX unit :=
  let* s := get in delete_cleanup_loop fuel (pendingDeletes s).

(** [fuel] bounds the length of the list in each loop. *)
Definition pg_tde_xact_callback (fuel : nat) (event : XactEvent) : MX unit :=
  match event with
  | XACT_EVENT_PARALLEL_ABORT | XACT_EVENT_ABORT => do_pending_deletes fuel false
  | XACT_EVENT_COMMIT => do_pending_deletes fuel true;;; pending_delete_cleanup fuel
  | XACT_EVENT_PREPARE => pending_delete_cleanup fuel
  | _ => ret tt
  end.

Definition pg_tde_subxact_callback (fuel : nat) (event : SubXactEvent) : MX unit :=
  match event with
  | SUBXACT_EVENT_ABORT_SUB => do_pending_deletes fuel false
  | _ => ret tt
  end.

(** ** The list the nodes represent *)

Definition entry : Type := string * bool * Z.
Definition e_path (e : entry) : string := e.1.1.
Definition e_atCommit (e : entry) : bool := e.1.2.
Definition e_level (e : entry) : Z := e.2.

Definition node (e : entry) (nx : option positive) : PendingFileDelete :=
  {| path := e_path e; atCommit := e_atCommit e; nestLevel := e_level e; next := nx |}.

(** From [p], the nodes [al] hold the entries [l] and lead to [q]. *)
Fixpoint lseg (h : gmap positive PendingFileDelete) (p : option positive)
  (al : list positive) (l : list entry) (q : option positive) : Prop :=
  match al, l with
  | [], [] => p = q
  | a :: al, e :: l => p = Some a /\ exists nx, h !! a = Some (node e nx) /\ lseg h nx al l q
  | _, _ => False
  end.

(** The list in memory is [l], and no other node is allocated. *)
Definition represents (s : XactState) (l : list entry) : Prop :=
  exists al, NoDup al /\ lseg (heap s) (pendingDeletes s) al l None
             /\ dom (heap s) = list_to_set al.

(** The abstract effect of a pass over the list. *)
Definition removed (isCommit : bool) (nest : Z) (l : list entry) : gset string :=
  list_to_set (e_path <$> filter (fun e => ~ e_level e < nest /\ e_atCommit e = isCommit
                                           /\ unlink_ok (e_path e) = true) l).

Definition kept (nest : Z) (l : list entry) : list entry :=
  filter (fun e => e_level e < nest) l.

(** ** Lemmas on segments *)

Lemma lseg_length h p al l q : lseg h p al l q -> length al = length l.
Proof.
  revert p l. induction al as [|a al IH]; intros p [|e l] H; cbn in *; try done.
  destruct H as (_ & nx & _ & H). f_equal. by eapply IH.
Qed.

Lemma lseg_frame h h' p al l q :
  (forall a, a ∈ al -> h' !! a = h !! a) -> lseg h p al l q -> lseg h' p al l q.
Proof.
  revert p l. induction al as [|a al IH]; intros p [|e l] Hf H; cbn in *; try done.
  destruct H as (-> & nx & Ha & H). split; [done|]. exists nx.
  rewrite Hf by by left. split; [done|]. apply IH; [|done].
  intros b Hb. apply Hf. by right.
Qed.

Lemma lseg_snoc h p al l a e q :
  lseg h p (al ++ [a]) (l ++ [e]) q <->
  exists r, lseg h p al l r /\ r = Some a /\ h !! a = Some (node e q).
Proof.
  revert p l. induction al as [|b al IH]; intros p [|f l]; cbn.
  - naive_solver.
  - split; [|naive_solver]. intros (_ & nx & _ & H). by destruct l.
  - split; [|naive_solver]. intros (_ & nx & _ & H). by destruct al.
  - split.
    + intros (-> & nx & Hb & H). apply IH in H as (r & Hl & -> & Ha). naive_solver.
    + intros (r & (-> & nx & Hb & Hl) & -> & Ha). split; [done|]. exists nx.
      split; [done|]. apply IH. naive_solver.
Qed.

Lemma load_Some a e s : heap s !! a = Some e -> load a s = (Ret e, s).
Proof. intros H. unfold load, bind, get. by rewrite H. Qed.

(** The state in the middle of a pass: the nodes [al1] are done and kept,
    [prev] is the last of them, and [al2] is still to be looked at. *)
Definition midway (s : XactState) (al1 al2 : list positive) (l1 l2 : list entry)
  (prev pending : option positive) : Prop :=
  NoDup (al1 ++ al2) /\ lseg (heap s) (pendingDeletes s) al1 l1 pending
  /\ lseg (heap s) pending al2 l2 None /\ dom (heap s) = list_to_set (al1 ++ al2)
  /\ prev = last al1.

Lemma midway_start s l :
  represents s l -> exists al, midway s [] al [] l None (pendingDeletes s).
Proof. intros (al & Hnd & Hl & Hd). exists al. by split_and!. Qed.

Lemma midway_end s al1 l1 prev :
  midway s al1 [] l1 [] prev None -> represents s l1.
Proof.
  intros (Hnd & Hl & _ & Hd & _). exists al1. rewrite app_nil_r in *. done.
Qed.

(** Keeping the first entry that is left. *)
Lemma midway_keep s al1 a al2 l1 e l2 prev nx :
  midway s al1 (a :: al2) l1 (e :: l2) prev (Some a) -> heap s !! a = Some (node e nx) ->
  midway s (al1 ++ [a]) al2 (l1 ++ [e]) l2 (Some a) nx.
Proof.
  intros (Hnd & Hl1 & (_ & nx' & Ha & Hl2) & Hd & _) Ha'.
  assert (nx' = nx) as -> by (rewrite Ha in Ha'; by injection Ha').
  split_and!; [by rewrite <- app_assoc| |done|by rewrite <- app_assoc|by rewrite last_snoc].
  apply lseg_snoc. eauto.
Qed.

(** In between: [a] is out of the list and still allocated. *)
Definition unlinked (s : XactState) (a : positive) (al1 al2 : list positive)
  (l1 l2 : list entry) (prev pending : option positive) : Prop :=
  NoDup (al1 ++ a :: al2) /\ lseg (heap s) (pendingDeletes s) al1 l1 pending
  /\ lseg (heap s) pending al2 l2 None /\ dom (heap s) = list_to_set (al1 ++ a :: al2)
  /\ prev = last al1.

Definition same_env (s s' : XactState) : Prop :=
  files s' = files s
  /\ GetCurrentTransactionNestLevel s' = GetCurrentTransactionNestLevel s.

Lemma midway_unlink s al1 a al2 l1 e l2 prev nx :
  midway s al1 (a :: al2) l1 (e :: l2) prev (Some a) -> heap s !! a = Some (node e nx) ->
  exists s', unlink_entry prev nx s = (Ret tt, s')
    /\ unlinked s' a al1 al2 l1 l2 prev nx /\ same_env s s'.
Proof.
  intros (Hnd & Hl1 & (_ & nx' & Ha & Hl2) & Hd & ->) Ha'.
  assert (nx' = nx) as -> by (rewrite Ha in Ha'; by injection Ha').
  destruct al1 as [|z al1 _] using rev_ind.
  - destruct l1; [|done]. eexists. split; [reflexivity|]. by split_and!.
  - destruct l1 as [|f l1 _] using rev_ind; [by destruct al1|].
    rewrite last_snoc. apply lseg_snoc in Hl1 as (r & Hl1 & -> & Hz).
    assert (Hzn : z ∉ al1 /\ z ∉ al2).
    { pose proof Hnd as Hnd'. rewrite <- app_assoc in Hnd'.
      apply NoDup_app in Hnd' as (_ & H1 & H2). apply NoDup_cons in H2 as [H2 _].
      split; [|set_solver]. intros Hin. apply (H1 z Hin). by left. }
    unfold unlink_entry, store_next. rewrite (bind_Ret _ _ _ _ _ (load_Some _ _ _ Hz)).
    eexists. split; [reflexivity|]. split; [|done]. split_and!; cbn [heap with_heap pendingDeletes].
    + done.
    + apply lseg_snoc. exists (Some z). split_and!; [|done|apply lookup_insert_eq].
      eapply lseg_frame; [|done]. intros b Hb. apply lookup_insert_ne. naive_solver.
    + eapply lseg_frame; [|done]. intros b Hb. apply lookup_insert_ne. naive_solver.
    + rewrite dom_insert_L, Hd. rewrite !list_to_set_app_L. cbn. set_solver.
    + by rewrite last_snoc.
Qed.

Lemma unlinked_pfree s a al1 al2 l1 l2 prev nx :
  unlinked s a al1 al2 l1 l2 prev nx ->
  exists s', pfree_node a s = (Ret tt, s') /\ midway s' al1 al2 l1 l2 prev nx /\ same_env s s'.
Proof.
  intros (Hnd & Hl1 & Hl2 & Hd & ->).
  assert (Ha : a ∈ dom (heap s)) by (rewrite Hd; set_solver).
  apply elem_of_dom in Ha as [e Ha]. unfold pfree_node.
  rewrite (bind_Ret _ _ _ _ _ (load_Some _ _ _ Ha)).
  assert (Han : a ∉ al1 ++ al2 /\ NoDup (al1 ++ al2)).
  { rewrite NoDup_app, NoDup_cons in Hnd. rewrite NoDup_app, elem_of_app.
    destruct Hnd as (H1 & H2 & H3 & H4). split; [|split_and!; try done].
    - intros [Hin|Hin]; [|done]. apply (H2 a Hin). by left.
    - intros x Hx Hx'. apply (H2 x Hx). by right. }
  destruct Han as [Han Hnd']. rewrite elem_of_app in Han.
  eexists. split; [reflexivity|]. split; [|done]. split_and!; cbn [heap with_heap pendingDeletes].
  - done.
  - eapply lseg_frame; [|done]. intros b Hb. apply lookup_delete_ne. naive_solver.
  - eapply lseg_frame; [|done]. intros b Hb. apply lookup_delete_ne. naive_solver.
  - rewrite dom_delete_L, Hd. rewrite !list_to_set_app_L. cbn.
    assert (a ∉ (list_to_set al1 : gset positive) /\ a ∉ (list_to_set al2 : gset positive))
      by (rewrite !elem_of_list_to_set; tauto). set_solver.
  - done.
Qed.

Lemma unlinked_disk s f a al1 al2 l1 l2 prev nx :
  unlinked s a al1 al2 l1 l2 prev nx -> unlinked (with_disk f s) a al1 al2 l1 l2 prev nx.
Proof. done. Qed.

(** ** The loops refine list operations *)

Lemma pending_deletes_loop_spec fuel isCommit nest s al1 al2 l1 l2 prev pending :
  midway s al1 al2 l1 l2 prev pending -> (length l2 < fuel)%nat ->
  exists s', pending_deletes_loop fuel isCommit nest prev pending s = (Ret tt, s')
    /\ represents s' (l1 ++ kept nest l2)
    /\ files s' = files s ∖ removed isCommit nest l2
    /\ GetCurrentTransactionNestLevel s' = GetCurrentTransactionNestLevel s.
Proof.
  revert s al1 al2 l1 l2 prev pending.
  induction fuel as [|fuel IH]; intros s al1 al2 l1 l2 prev pending Hm Hf; [lia|].
  cbn [pending_deletes_loop]. pose proof Hm as (_ & _ & Hl2 & _).
  destruct al2 as [|a al2], l2 as [|e l2]; cbn [lseg] in Hl2; try done.
  { subst pending. exists s. split_and!; [done| |unfold removed; cbn; set_solver|done].
    rewrite app_nil_r. by eapply midway_end. }
  destruct Hl2 as (-> & nx & Ha & _).
  rewrite (bind_Ret _ _ _ _ _ (load_Some _ _ _ Ha)).
  change (nestLevel (node e nx)) with (e_level e). change (next (node e nx)) with nx.
  change (atCommit (node e nx)) with (e_atCommit e). change (path (node e nx)) with (e_path e).
  unfold kept, removed. rewrite !filter_cons. cbn [length] in Hf.
  destruct (Z.ltb_spec (e_level e) nest) as [Hlt|Hge].
  - rewrite (decide_True (P := e_level e < nest)) by done. rewrite decide_False by tauto.
    destruct (IH s _ _ _ _ _ _ (midway_keep _ _ _ _ _ _ _ _ _ Hm Ha))
      as (s' & H1 & H2 & H3 & H4); [lia|].
    exists s'. split_and!; [done|by rewrite <- app_assoc in H2|done|done].
  - rewrite (decide_False (P := e_level e < nest)) by lia.
    destruct (midway_unlink _ _ _ _ _ _ _ _ _ Hm Ha) as (s1 & E1 & Hu & [Hf1 Hn1]).
    mstep E1.
    set (rm := if decide (_ /\ _ /\ _) then e :: _ else _).
    assert (Hdisk : exists s2, (if eqb (e_atCommit e) isCommit then durable_unlink (e_path e)
                              else ret tt) s1 = (Ret tt, s2)
      /\ unlinked s2 a al1 al2 l1 l2 prev nx
      /\ files s2 ∖ removed isCommit nest l2 = files s ∖ list_to_set (e_path <$> rm)
      /\ GetCurrentTransactionNestLevel s2 = GetCurrentTransactionNestLevel s).
    { unfold rm, removed. destruct (eqb_spec (e_atCommit e) isCommit) as [He|He].
      2: { rewrite decide_False by naive_solver. exists s1. by rewrite <- Hf1. }
      eexists. split; [reflexivity|]. destruct (unlink_ok (e_path e)) eqn:Hok.
      - rewrite decide_True by (split_and!; [lia|done..]). split; [done|].
        cbn [files with_disk GetCurrentTransactionNestLevel]. split; [|done].
        rewrite Hf1. cbn. set_solver.
      - rewrite decide_False by naive_solver. by rewrite Hf1. }
    destruct Hdisk as (s2 & E2 & Hu2 & Hf2 & Hn2). mstep E2.
    destruct (unlinked_pfree _ _ _ _ _ _ _ _ Hu2) as (s3 & E3 & Hm3 & [Hf3 Hn3]). mstep E3.
    destruct (IH s3 _ _ _ _ _ _ Hm3) as (s' & H1 & H2 & H3 & H4); [lia|].
    exists s'. split_and!; [done|done| |congruence]. by rewrite H3, Hf3.
Qed.

Lemma delete_cleanup_loop_spec fuel s al l :
  midway s [] al [] l None (pendingDeletes s) -> (length l < fuel)%nat ->
  exists s', delete_cleanup_loop fuel (pendingDeletes s) s = (Ret tt, s')
    /\ represents s' [] /\ same_env s s'.
Proof.
  revert s al l. induction fuel as [|fuel IH]; intros s al l Hm Hf; [lia|].
  cbn [delete_cleanup_loop]. pose proof Hm as (_ & _ & Hl & _).
  destruct al as [|a al], l as [|e l]; cbn [lseg] in Hl; try done.
  { rewrite Hl in *. exists s. split_and!; [done| |done]. by eapply midway_end. }
  destruct Hl as (Hp & nx & Ha & _). rewrite Hp in *.
  rewrite (bind_Ret _ _ _ _ _ (load_Some _ _ _ Ha)).
  change (next (node e nx)) with nx.
  destruct (midway_unlink _ _ _ _ _ _ _ _ _ Hm Ha) as (s1 & E1 & Hu & Hs1).
  cbn [unlink_entry] in E1. mstep E1.
  destruct (unlinked_pfree _ _ _ _ _ _ _ _ Hu) as (s2 & E2 & Hm2 & Hs2). mstep E2.
  pose proof Hm2 as (_ & Hh & _). cbn in Hh. rewrite <- Hh in *.
  destruct (IH s2 al l Hm2) as (s' & E3 & Hr & Hs3); [cbn in Hf; lia|].
  exists s'. split; [done|]. split; [done|].
  unfold same_env in *. destruct Hs1, Hs2, Hs3. split; congruence.
Qed.

Lemma do_pending_deletes_list fuel isCommit s l :
  represents s l -> (length l < fuel)%nat ->
  exists s', do_pending_deletes fuel isCommit s = (Ret tt, s')
    /\ represents s' (kept (GetCurrentTransactionNestLevel s) l)
    /\ files s' = files s ∖ removed isCommit (GetCurrentTransactionNestLevel s) l
    /\ GetCurrentTransactionNestLevel s' = GetCurrentTransactionNestLevel s.
Proof.
  intros (al & Hm)%midway_start Hf. unfold do_pending_deletes, bind at 1, get.
  by apply (pending_deletes_loop_spec fuel isCommit _ s [] al [] l).
Qed.

Lemma pending_delete_cleanup_list fuel s l :
  represents s l -> (length l < fuel)%nat ->
  exists s', pending_delete_cleanup fuel s = (Ret tt, s') /\ represents s' [] /\ same_env s s'.
Proof.
  intros (al & Hm)%midway_start Hf. unfold pending_delete_cleanup, bind at 1, get.
  by eapply delete_cleanup_loop_spec.
Qed.

Lemma RegisterFileForDeletion_list p b s l :
  represents s l ->
  exists s', RegisterFileForDeletion p b s = (Ret tt, s')
    /\ represents s' ((p, b, GetCurrentTransactionNestLevel s) :: l) /\ same_env s s'.
Proof.
  intros (al & Hnd & Hl & Hd). unfold RegisterFileForDeletion, bind, get, modify.
  eexists. split; [reflexivity|]. split; [|done].
  set (a := fresh (dom (heap s))).
  assert (Ha : a ∉ al).
  { intros Hin. pose proof (is_fresh (dom (heap s))) as Hfr. apply Hfr.
    fold a. rewrite Hd. by apply elem_of_list_to_set. }
  exists (a :: al). split_and!; cbn.
  - by apply NoDup_cons.
  - split; [done|]. eexists. split; [apply lookup_insert_eq|].
    eapply lseg_frame; [|exact Hl]. intros x Hx. apply lookup_insert_ne. naive_solver.
  - by rewrite dom_insert_L, Hd.
Qed.

(** ** Transactions

    What happens to the key files in a backend: forks are created and
    relations dropped at some nest level, subtransactions start, commit
    and abort, and the top-level transaction ends.  PostgreSQL calls the
    subtransaction callback at the level of the subtransaction. *)
Inductive tx_op :=
| Create (p : string) | Drop (p : string)
| Savepoint | Release | RollbackTo
| Commit | Abort_ | Prepare.

Definition run_op (fuel : nat) (op : tx_op) : MX unit :=
  match op with
  | Create p => modify (fun s => with_disk (files s ∪ {[p]}) s);;;
                RegisterFileForDeletion p false
  | Drop p => RegisterFileForDeletion p true
  | Savepoint =>
      modify (fun s => with_nest (GetCurrentTransactionNestLevel s + 1) s);;;
      pg_tde_subxact_callback fuel SUBXACT_EVENT_START_SUB
  | Release =>
      pg_tde_subxact_callback fuel SUBXACT_EVENT_COMMIT_SUB;;;
      modify (fun s => with_nest (GetCurrentTransactionNestLevel s - 1) s)
  | RollbackTo =>
      pg_tde_subxact_callback fuel SUBXACT_EVENT_ABORT_SUB;;;
      modify (fun s => with_nest (GetCurrentTransactionNestLevel s - 1) s)
  | Commit => pg_tde_xact_callback fuel XACT_EVENT_COMMIT
  | Abort_ => pg_tde_xact_callback fuel XACT_EVENT_ABORT
  | Prepare => pg_tde_xact_callback fuel XACT_EVENT_PREPARE
  end.

Fixpoint run_ops (fuel : nat) (ops : list tx_op) : MX unit :=
  match ops with
  | [] => ret tt
  | op :: ops => run_op fuel op;;; run_ops fuel ops
  end.

(** *** The specification: a stack of subtransactions *)

Definition request : Type := string * bool.

(** The key files, and the requests of each open (sub)transaction,
    innermost first. *)
Record spec_state := { sp_files : gset string; sp_frames : list (list request) }.

Definition unlinks (b : bool) (f : list request) : gset string :=
  list_to_set (fst <$> filter (fun r => snd r = b /\ unlink_ok (fst r) = true) f).

(** [None]: PostgreSQL does not issue the operation in this state. *)
Definition spec_op (op : tx_op) (s : spec_state) : option spec_state :=
  match op, sp_frames s with
  | Create p, f :: fs =>
      Some {| sp_files := sp_files s ∪ {[p]}; sp_frames := ((p, false) :: f) :: fs |}
  | Drop p, f :: fs =>
      Some {| sp_files := sp_files s; sp_frames := ((p, true) :: f) :: fs |}
  | Savepoint, fs => Some {| sp_files := sp_files s; sp_frames := [] :: fs |}
  | Release, f :: f' :: fs =>
      Some {| sp_files := sp_files s; sp_frames := (f ++ f') :: fs |}
  | RollbackTo, f :: f' :: fs =>
      Some {| sp_files := sp_files s ∖ unlinks false f; sp_frames := f' :: fs |}
  | Commit, [f] =>
      Some {| sp_files := sp_files s ∖ unlinks true f; sp_frames := [[]] |}
  | Abort_, [f] =>
      Some {| sp_files := sp_files s ∖ unlinks false f; sp_frames := [[]] |}
  | _, _ => None
  end.

Fixpoint spec_ops (ops : list tx_op) (s : spec_state) : option spec_state :=
  match ops with
  | [] => Some s
  | op :: ops => spec_op op s ≫= spec_ops ops
  end.

(** No request is inherited by an outer transaction. *)
Definition quiet_release (op : tx_op) (s : spec_state) : Prop :=
  op = Release -> head (sp_frames s) = Some [].

Fixpoint quiet_releases (ops : list tx_op) (s : spec_state) : Prop :=
  match ops with
  | [] => True
  | op :: ops => quiet_release op s /\
      match spec_op op s with Some s' => quiet_releases ops s' | None => True end
  end.

(** The requests with the level of their frame. *)
Fixpoint levelled (fs : list (list request)) : list entry :=
  match fs with
  | [] => []
  | f :: fs => ((fun r => (r, Z.of_nat (length (f :: fs)))) <$> f) ++ levelled fs
  end.

Definition simulates (s : XactState) (sp : spec_state) : Prop :=
  represents s (levelled (sp_frames sp)) /\ files s = sp_files sp
  /\ GetCurrentTransactionNestLevel s = Z.of_nat (length (sp_frames sp)).

Lemma levelled_bound fs e : e ∈ levelled fs -> e_level e <= Z.of_nat (length fs).
Proof.
  induction fs as [|f fs IH]; cbn [levelled]; [set_solver|].
  rewrite elem_of_app, list_elem_of_fmap. intros [(r & -> & _)|H]; cbn; [lia|].
  specialize (IH H). cbn in *. lia.
Qed.

Lemma kept_all n (l : list entry) : (forall e, e ∈ l -> e_level e < n) -> kept n l = l.
Proof.
  unfold kept. induction l as [|e l IH]; intros H; [done|].
  rewrite filter_cons_True by (apply H; by left). rewrite IH; [done|].
  intros x Hx. apply H. by right.
Qed.

Lemma removed_none b n (l : list entry) :
  (forall e, e ∈ l -> e_level e < n) -> removed b n l = ∅.
Proof.
  unfold removed. induction l as [|e l IH]; intros H; [done|].
  rewrite filter_cons_False; [|specialize (H e ltac:(by left)); tauto].
  apply IH. intros x Hx. apply H. by right.
Qed.

Lemma removed_app b n l1 l2 : removed b n (l1 ++ l2) = removed b n l1 ∪ removed b n l2.
Proof. unfold removed. by rewrite filter_app, fmap_app, list_to_set_app_L. Qed.

(** The entries of a frame, at the level of the frame. *)
Lemma kept_frame n (f : list request) : kept n ((fun r => (r, n)) <$> f) = [].
Proof.
  unfold kept. induction f as [|r f IH]; [done|]. cbn [fmap list_fmap].
  rewrite filter_cons_False; [done|]. cbn. lia.
Qed.

Lemma removed_frame b n (f : list request) : removed b n ((fun r => (r, n)) <$> f) = unlinks b f.
Proof.
  unfold removed, unlinks. induction f as [|r f IH]; [done|]. cbn [fmap list_fmap].
  rewrite !filter_cons. destruct (decide (_ = b /\ _)) as [[H1 H2]|H].
  - rewrite decide_True by (split_and!; [cbn; lia|done..]). cbn. by rewrite IH.
  - rewrite decide_False; [done|]. cbn. tauto.
Qed.

Lemma kept_levelled f fs :
  kept (Z.of_nat (length (f :: fs))) (levelled (f :: fs)) = levelled fs.
Proof.
  cbn [levelled]. unfold kept at 1. rewrite filter_app. fold (kept (Z.of_nat (length (f :: fs)))).
  etrans; [apply (f_equal2 app); [apply kept_frame|]|].
  - apply (kept_all _ (levelled fs)). intros e He%levelled_bound. cbn. lia.
  - done.
Qed.

Lemma removed_levelled b f fs :
  removed b (Z.of_nat (length (f :: fs))) (levelled (f :: fs)) = unlinks b f.
Proof.
  cbn [levelled]. rewrite removed_app, removed_frame, removed_none; [set_solver|].
  intros e He%levelled_bound. cbn. lia.
Qed.

Lemma length_levelled_op op s s' :
  spec_op op s = Some s' ->
  (length (levelled (sp_frames s')) <= S (length (levelled (sp_frames s))))%nat.
Proof.
  destruct op; cbn; destruct (sp_frames s) as [|f [|f' fs]]; intros; simplify_eq; cbn;
    rewrite ?length_app, ?length_fmap; cbn; rewrite ?length_app, ?length_fmap; try lia.
Qed.

(** One operation, when no request is inherited. *)
Lemma run_op_simulates fuel op s sp sp' :
  simulates s sp -> spec_op op sp = Some sp' -> quiet_release op sp ->
  (length (levelled (sp_frames sp)) < fuel)%nat ->
  exists s', run_op fuel op s = (Ret tt, s') /\ simulates s' sp'.
Proof.
  intros (Hr & Hf & Hn) Hop Hq Hfuel. destruct sp as [F fs]. cbn [sp_files sp_frames] in *.
  subst F.
  destruct op; cbn [spec_op sp_files sp_frames] in Hop.
  - destruct fs as [|f fs]; [done|]. simplify_eq. cbn [run_op].
    destruct (RegisterFileForDeletion_list p false (with_disk (files s ∪ {[p]}) s) _ Hr)
      as (s' & E & Hr' & [Hf' Hn']).
    exists s'. split; [exact E|]. cbn in Hr', Hf', Hn'.
    split_and!; [by rewrite Hn in Hr'|done|by rewrite Hn'].
  - destruct fs as [|f fs]; [done|]. simplify_eq. cbn [run_op].
    destruct (RegisterFileForDeletion_list p true s _ Hr) as (s' & E & Hr' & [Hf' Hn']).
    exists s'. split; [exact E|]. split_and!; [by rewrite Hn in Hr'|done|by rewrite Hn'].
  - simplify_eq. eexists. split; [reflexivity|]. split_and!; [done|done|]. cbn. lia.
  - destruct fs as [|f [|f' fs]]; [done..|]. simplify_eq.
    specialize (Hq eq_refl). cbn in Hq. simplify_eq.
    eexists. split; [reflexivity|]. split_and!; [done|done|]. cbn in *. lia.
  - destruct fs as [|f [|f' fs]]; [done..|]. simplify_eq. cbn [run_op pg_tde_subxact_callback].
    destruct (do_pending_deletes_list fuel false s _ Hr Hfuel) as (s' & E & Hr' & Hf' & Hn').
    mstep E. eexists. split; [reflexivity|]. rewrite Hn in Hr', Hf'.
    rewrite kept_levelled in Hr'. rewrite removed_levelled in Hf'.
    split_and!; [done|cbn; congruence|]. cbn in *. lia.
  - destruct fs as [|f [|f' fs]]; [done| |done]. simplify_eq.
    cbn [run_op pg_tde_xact_callback].
    destruct (do_pending_deletes_list fuel true s _ Hr Hfuel) as (s1 & E1 & Hr1 & Hf1 & Hn1).
    mstep E1. rewrite Hn in Hr1, Hf1. rewrite kept_levelled in Hr1. rewrite removed_levelled in Hf1.
    destruct (pending_delete_cleanup_list fuel s1 _ Hr1) as (s' & E & Hr' & [Hf' Hn']);
      [cbn; lia|].
    exists s'. split; [done|]. split_and!; [done|cbn; congruence|cbn in *; congruence].
  - destruct fs as [|f [|f' fs]]; [done| |done]. simplify_eq.
    cbn [run_op pg_tde_xact_callback].
    destruct (do_pending_deletes_list fuel false s _ Hr Hfuel) as (s' & E & Hr' & Hf' & Hn').
    exists s'. split; [done|]. rewrite Hn in Hr', Hf'. rewrite kept_levelled in Hr'.
    rewrite removed_levelled in Hf'. split_and!; [done|cbn; congruence|cbn in *; congruence].
  - done.
Qed.
End handler.
