(* ===== verification/XactClaims.v ===== *)
(** The properties of pending file deletes: memory safety and effect of
    the list passes, transaction semantics against a stack of
    subtransactions, and where the code departs from it. *)
From S2P Require Import Prelude XactHandler.

Section xact_claims.
Context `{HU : Unlink}.

Lemma run_ops_simulates fuel ops s sp sp' :
  simulates s sp -> spec_ops ops sp = Some sp' -> quiet_releases ops sp ->
  (length (levelled (sp_frames sp)) + length ops < fuel)%nat ->
  exists s', run_ops fuel ops s = (Ret tt, s') /\ simulates s' sp'.
Proof.
  revert s sp. induction ops as [|op ops IH]; intros s sp Hs Hops Hq Hf; cbn in *.
  { simplify_eq. by exists s. }
  destruct (spec_op op sp) as [sp1|] eqn:E; [|done]. destruct Hq as [Hq Hq1].
  destruct (run_op_simulates fuel op s sp sp1) as (s1 & E1 & Hs1); [done..|lia|].
  mstep E1. apply length_levelled_op in E. apply (IH s1 sp1); [done..|lia].
Qed.

(** a pass over the pending deletes frees exactly the entries of
    the current nest level and deeper, never touches a freed node,
    removes exactly the files whose request matches the outcome, and
    leaves the outer entries in their order. *)
Theorem do_pending_deletes_effect fuel isCommit s l :
  represents s l -> (length l < fuel)%nat ->
  exists s', do_pending_deletes fuel isCommit s = (Ret tt, s')
    /\ represents s' (filter (fun e => e_level e < GetCurrentTransactionNestLevel s) l)
    /\ (forall p, p ∈ files s' <-> p ∈ files s /\
          ~ exists e, e ∈ l /\ e_path e = p /\ GetCurrentTransactionNestLevel s <= e_level e
                      /\ e_atCommit e = isCommit /\ unlink_ok p = true).
Proof.
  intros Hr Hf. destruct (do_pending_deletes_list fuel isCommit s l Hr Hf)
    as (s' & E & Hr' & Hf' & _). exists s'. split_and!; [done|done|].
  intros p. rewrite Hf'. unfold removed.
  rewrite elem_of_difference, elem_of_list_to_set, list_elem_of_fmap.
  setoid_rewrite list_elem_of_filter. split.
  - intros [Hp Hn]. split; [done|]. intros (e & He & <- & Hl & Ha & Hu). apply Hn.
    exists e. split; [done|]. split_and!; [lia|done..].
  - intros [Hp Hn]. split; [done|]. intros (e & -> & (Hl & Ha & Hu) & He). apply Hn.
    exists e. split_and!; [done..|lia|done|done].
Qed.

(** C18: through any sequence of fork creations, drops, savepoints,
    rollbacks to savepoints, commits and aborts (and releases of
    subtransactions that made no request), the callbacks keep the key
    files exactly as a stack of subtransactions prescribes, and every
    loop ends. *)
Theorem pending_deletes_refine_subtransactions fuel ops s sp sp' :
  simulates s sp -> spec_ops ops sp = Some sp' -> quiet_releases ops sp ->
  (length (levelled (sp_frames sp)) + length ops < fuel)%nat ->
  exists s', run_ops fuel ops s = (Ret tt, s') /\ files s' = sp_files sp'
    /\ represents s' (levelled (sp_frames sp')).
Proof.
  intros Hs Hops Hq Hf. destruct (run_ops_simulates fuel ops s sp sp') as (s' & E & Hr & Hd & _);
    [done..|]. by exists s'.
Qed.

(** The idle backend at the start of a transaction. *)
Definition idle (F : gset string) : XactState :=
  {| heap := ∅; pendingDeletes := None; files := F; GetCurrentTransactionNestLevel := 1 |}.

Lemma idle_represents F : represents (idle F) [].
Proof. exists []. split_and!; [by apply NoDup_nil|done|apply dom_empty_L]. Qed.

Definition released_then_aborted (p : string) : list tx_op :=
  [Savepoint; Create p; Release; Savepoint; RollbackTo; Commit].

(** a request keeps the nest level of the subtransaction that made
    it when that subtransaction commits, so aborting a later one at the
    same level acts on it: a key file created under a released savepoint
    is deleted although the transaction commits, where the stack of
    subtransactions keeps it. *)
Theorem released_key_file_lost F p :
  unlink_ok p = true ->
  (exists s', run_ops 4 (released_then_aborted p) (idle F) = (Ret tt, s') /\ p ∉ files s') /\
  (exists sp', spec_ops (released_then_aborted p) {| sp_files := F; sp_frames := [[]] |}
                 = Some sp' /\ p ∈ sp_files sp').
Proof.
  intros Hu. split.
  - unfold released_then_aborted. cbn [run_ops].
    rewrite (bind_Ret _ _ _ tt (with_nest 2 (idle F))) by reflexivity.
    set (s1 := with_disk (F ∪ {[p]}) (with_nest 2 (idle F))).
    destruct (RegisterFileForDeletion_list p false s1 [] (idle_represents F))
      as (s2 & E2 & Hr2 & [Hf2 Hn2]).
    rewrite (bind_Ret _ _ _ tt s2) by exact E2.
    rewrite (bind_Ret _ _ _ tt (with_nest 1 s2))
      by (unfold run_op, bind, pg_tde_subxact_callback, ret, modify; by rewrite Hn2).
    rewrite (bind_Ret _ _ _ tt (with_nest 2 s2)) by reflexivity.
    destruct (do_pending_deletes_list 4 false (with_nest 2 s2) [(p, false, 2)] Hr2)
      as (s3 & E3 & Hr3 & Hf3 & Hn3); [cbn; lia|].
    rewrite (bind_Ret _ _ _ tt (with_nest 1 s3))
      by (unfold run_op; cbn [pg_tde_subxact_callback]; mstep E3; unfold modify; by rewrite Hn3).
    destruct (do_pending_deletes_list 4 true (with_nest 1 s3) [] Hr3)
      as (s4 & E4 & Hr4 & Hf4 & _); [cbn; lia|].
    destruct (pending_delete_cleanup_list 4 s4 [] Hr4) as (s5 & E5 & _ & [Hf5 _]); [cbn; lia|].
    exists s5. split.
    + unfold run_op. cbn [pg_tde_xact_callback].
      rewrite (bind_Ret _ _ _ tt s5); [done|]. by mstep E4.
    + rewrite Hf5, Hf4. cbn [files with_nest]. rewrite Hf3. unfold removed.
      rewrite filter_cons_True by (split_and!; [cbn; lia|done..]). cbn. set_solver.
  - eexists. split; [reflexivity|]. cbn [sp_files].
    unfold unlinks. cbn [app]. rewrite filter_cons_False by (cbn; naive_solver). cbn. set_solver.
Qed.

(** PREPARE throws the requests away without recording them
    anywhere: no later end of transaction, of either kind, removes the
    files, whichever way the prepared transaction is resolved. *)
Theorem prepare_forgets_requests fuel s l :
  represents s l -> (length l < fuel)%nat ->
  exists s', run_op fuel Prepare s = (Ret tt, s') /\ represents s' [] /\ files s' = files s /\
    forall op, op = Commit \/ op = Abort_ ->
      exists s'', run_op fuel op s' = (Ret tt, s'') /\ files s'' = files s.
Proof.
  intros Hr Hf. destruct (pending_delete_cleanup_list fuel s l Hr Hf) as (s' & E & Hr' & [Hd Hn]).
  assert (Hfuel : (length (@nil entry) < fuel)%nat) by (cbn; lia).
  exists s'. split_and!; [done..|]. intros op Hop.
  destruct (do_pending_deletes_list fuel true s' [] Hr' Hfuel) as (s1 & E1 & Hr1 & Hf1 & _).
  destruct (do_pending_deletes_list fuel false s' [] Hr' Hfuel) as (s2 & E2 & _ & Hf2 & _).
  destruct (pending_delete_cleanup_list fuel s1 [] Hr1 Hfuel) as (s3 & E3 & _ & [Hf3 _]).
  assert (Hrm : forall b n, removed b n [] = ∅) by done.
  rewrite Hrm in Hf1, Hf2. rewrite difference_empty_L in Hf1, Hf2.
  destruct Hop as [-> | ->].
  - exists s3. split; [|congruence]. cbn [run_op pg_tde_xact_callback]. by mstep E1.
  - exists s2. split; [done|congruence].
Qed.
End xact_claims.

(** ** Witnesses *)

Section witnesses.
#[local] Instance toy_unlink : Unlink := {| unlink_ok := fun _ => true |}.

Definition toy_xact : XactState :=
  snd (RegisterFileForDeletion "a.tde" false (idle {["a.tde"; "b.tde"]})).

Lemma toy_xact_represents : represents toy_xact [("a.tde", false, 1)].
Proof.
  destruct (RegisterFileForDeletion_list "a.tde" false (idle {["a.tde"; "b.tde"]}) []
              (idle_represents _)) as (s' & E & Hr & _).
  unfold toy_xact. rewrite E. exact Hr.
Qed.

Lemma do_pending_deletes_effect_witness :
  exists s', do_pending_deletes 2 false toy_xact = (Ret tt, s')
    /\ represents s' []
    /\ (forall p, p ∈ files s' <-> p ∈ files toy_xact /\
          ~ exists e, e ∈ [("a.tde", false, 1)] /\ e_path e = p /\ 1 <= e_level e
                      /\ e_atCommit e = false /\ unlink_ok p = true).
Proof.
  apply (do_pending_deletes_effect 2 false toy_xact [("a.tde", false, 1)]).
  - apply toy_xact_represents.
  - cbn. lia.
Defined.

Definition toy_trace : list tx_op :=
  [Create "t1"; Savepoint; Create "t2"; Drop "old"; RollbackTo; Savepoint; Release; Commit].

Definition toy_end : spec_state := {| sp_files := {["old"; "t1"]}; sp_frames := [[]] |}.

Lemma pending_deletes_refine_subtransactions_witness :
  exists s', run_ops 20 toy_trace (idle {["old"]}) = (Ret tt, s')
    /\ files s' = sp_files toy_end /\ represents s' (levelled (sp_frames toy_end)).
Proof.
  apply (pending_deletes_refine_subtransactions 20 toy_trace (idle {["old"]})
    {| sp_files := {["old"]}; sp_frames := [[]] |}
    toy_end).
  - split_and!; [apply idle_represents|reflexivity|reflexivity].
  - vm_compute. reflexivity.
  - repeat split; done.
  - cbn. lia.
Defined.

Lemma released_key_file_lost_witness :
  (exists s', run_ops 4 (released_then_aborted "t.tde") (idle ∅) = (Ret tt, s')
     /\ "t.tde" ∉ files s') /\
  (exists sp', spec_ops (released_then_aborted "t.tde") {| sp_files := ∅; sp_frames := [[]] |}
                 = Some sp' /\ "t.tde" ∈ sp_files sp').
Proof. apply (released_key_file_lost ∅ "t.tde"). reflexivity. Defined.

Lemma prepare_forgets_requests_witness :
  exists s', run_op 2 Prepare toy_xact = (Ret tt, s') /\ represents s' []
    /\ files s' = files toy_xact /\
    forall op, op = Commit \/ op = Abort_ ->
      exists s'', run_op 2 op s' = (Ret tt, s'') /\ files s'' = files toy_xact.
Proof.
  apply (prepare_forgets_requests 2 toy_xact [("a.tde", false, 1)]).
  - apply toy_xact_represents.
  - cbn. lia.
Defined.
End witnesses.
