(* ===== verification/TdeMap.v ===== *)
(** The key fork of a relation and the cache of its keys:
    src/src/access/pg_tde_tdemap.c and pg_tde_tdemap.h.

    A key fork is a file next to the relation's main fork that holds a
    [RelKeysData] whose internal key is encrypted with the master key. *)
From Stdlib Require Import Ascii.
From stdpp Require Import pretty.
From S2P Require Import Prelude EncAes RelKeys KeyringTypes KeyringProviders KeyringApi XactHandler.

Record RelFileLocator := { spcOid : Z; dbOid : Z; relNumber : Z }.

#[export] Instance RelFileLocator_eq_dec : EqDecision RelFileLocator.
Proof. solve_decision. Defined.

(** A WAL record of the extension's resource manager. *)
Record XLogRecord := { xl_info : Z; xl_data : list Z }.

Definition XLR_INFO_MASK : Z := 15.
Definition XLOG_TDE_CREATE_FORK : Z := 0.
Definition sizeof_RelFileLocator : Z := 12.

(** An entry of the keys cache; [rk_keys] points to a key structure. *)
Record RelKeys := { rel_id : Z; rk_keys : nat }.

Definition MasterKeyName : string := "master-key".

(** What the file code depends on: paths, the results of the system calls
    behind fd.c, the random generator (the n-th call) and what an
    uninitialised stack buffer holds. *)
Class TdeEnv := {
  relpathperm : RelFileLocator -> option string;
  open_rw_ok : string -> bool;
  open_r_ok : string -> bool;
  FileSize_ok : string -> bool;
  FileRead_n : string -> Z -> Z;
  FileWrite_n : string -> Z -> Z;
  RAND_bytes : nat -> Z -> option (list Z);
  stack_bytes : list Z;
}.

(** Bytes of a C string, without and with padding to a [char[n]] as
    [strncpy] does it. *)
Definition str_bytes (s : string) : list Z :=
  (fun c => Z.of_nat (nat_of_ascii c)) <$> String.list_ascii_of_string s.

Definition strncpy_bytes (n : nat) (s : string) : list Z :=
  take n (str_bytes s ++ replicate n 0).

(** The C string at the start of a buffer; [None] when it is not
    terminated inside. *)
Fixpoint cstr_of (l : list Z) : option string :=
  match l with
  | [] => None
  | b :: l => if b =? 0 then Some EmptyString
              else String (ascii_of_nat (Z.to_nat b)) <$> cstr_of l
  end.

Section tdemap.
Context `{HE : EVP} `{HS : CIntShift}.
Context `{HJ : Json} `{HB : Base64} `{HC : Curl} `{HF : KeyringFs}.
Context `{HT : TdeEnv}.
Variable addr_of : evp_ctx -> Z.
Variable g : AesGlobals.

Record TdeState := {
  keyring : KeyringState;
  xact : XactState;                     (** its [files] are the files that exist *)
  fork_data : gmap string (list Z);     (** what they hold *)
  wal : list XLogRecord;
  tde_rel_keys_map : list RelKeys;      (** from the head of the list *)
  keys_store : list RelKeysData;        (** the key structures, by address *)
  rand_tick : nat;
}.

Local Abbreviation MT := (M TdeState).

Definition with_keyring (x : KeyringState) (s : TdeState) : TdeState :=
  {| keyring := x; xact := xact s; fork_data := fork_data s; wal := wal s;
     tde_rel_keys_map := tde_rel_keys_map s; keys_store := keys_store s;
     rand_tick := rand_tick s |}.
Definition with_xact (x : XactState) (s : TdeState) : TdeState :=
  {| keyring := keyring s; xact := x; fork_data := fork_data s; wal := wal s;
     tde_rel_keys_map := tde_rel_keys_map s; keys_store := keys_store s;
     rand_tick := rand_tick s |}.
Definition with_fork_data (x : gmap string (list Z)) (s : TdeState) : TdeState :=
  {| keyring := keyring s; xact := xact s; fork_data := x; wal := wal s;
     tde_rel_keys_map := tde_rel_keys_map s; keys_store := keys_store s;
     rand_tick := rand_tick s |}.
Definition with_wal (x : list XLogRecord) (s : TdeState) : TdeState :=
  {| keyring := keyring s; xact := xact s; fork_data := fork_data s; wal := x;
     tde_rel_keys_map := tde_rel_keys_map s; keys_store := keys_store s;
     rand_tick := rand_tick s |}.
Definition with_map (m : list RelKeys) (s : TdeState) : TdeState :=
  {| keyring := keyring s; xact := xact s; fork_data := fork_data s; wal := wal s;
     tde_rel_keys_map := m; keys_store := keys_store s; rand_tick := rand_tick s |}.
Definition with_store (x : list RelKeysData) (s : TdeState) : TdeState :=
  {| keyring := keyring s; xact := xact s; fork_data := fork_data s; wal := wal s;
     tde_rel_keys_map := tde_rel_keys_map s; keys_store := x; rand_tick := rand_tick s |}.
Definition with_tick (x : nat) (s : TdeState) : TdeState :=
  {| keyring := keyring s; xact := xact s; fork_data := fork_data s; wal := wal s;
     tde_rel_keys_map := tde_rel_keys_map s; keys_store := keys_store s; rand_tick := x |}.

Definition in_keyring {A} (m : M KeyringState A) : MT A := zoom keyring with_keyring m.
Definition in_xact {A} (m : M XactState A) : MT A := zoom xact with_xact m.

Definition random (len : Z) : MT (option (list Z)) :=
  let* s := get in
  modify (with_tick (S (rand_tick s)));;;
  ret (RAND_bytes (rand_tick s) len).

(** [MemoryContextAlloc] of a key structure in TopMemoryContext. *)
Definition alloc_keys (d : RelKeysData) : MT nat :=
  let* s := get in
  modify (with_store (keys_store s ++ [d]));;;
  ret (length (keys_store s)).

(** ** Files *)

Definition TDE_FORK_EXT : string := "tde".

Definition pg_tde_get_key_file_path (newrlocator : RelFileLocator) : option string :=
  match relpathperm newrlocator with
  | Some rel_file_path => Some (rel_file_path +:+ "." +:+ TDE_FORK_EXT)
  | None => None
  end.

(** [PathNameOpenFile(path, O_RDWR | O_CREAT)]; the file is not truncated. *)
Definition open_rw (p : string) : MT bool :=
  if open_rw_ok p then
    let* s := get in
    (if bool_decide (p ∈ files (xact s)) then ret tt
     else modify (with_fork_data (<[p := []]> (fork_data s)));;;
          in_xact (modify (fun x => with_disk (files x ∪ {[p]}) x)));;;
    ret true
  else ret false.

(** [PathNameOpenFile(path, O_RDONLY)] *)
Definition open_r (p : string) : MT bool :=
  let* s := get in ret (open_r_ok p && bool_decide (p ∈ files (xact s))).

(** [FileWrite(file, buf, sz, 0)]: the number of bytes written. *)
Definition FileWrite (p : string) (buf : list Z) : MT Z :=
  let n := FileWrite_n p (Z.of_nat (length buf)) in
  let* s := get in
  let old := default [] (fork_data s !! p) in
  let new := take (Z.to_nat n) buf in
  modify (with_fork_data (<[p := new ++ drop (length new) old]> (fork_data s)));;;
  ret n.

(** ** Fork files *)

(** [RegisterFileForDeletion] at commit. *)
Definition pg_tde_delete_key_fork (rd_locator : RelFileLocator) : MT unit :=
  match pg_tde_get_key_file_path rd_locator with
  | None => raise ERROR
  | Some key_file_path => in_xact (RegisterFileForDeletion key_file_path true)
  end.

(** The new node's [next] is NULL and [prev] is NULL whenever it is
    tested, so the head is always replaced. *)
Definition put_keys_into_map (rel_id : Z) (keys : nat) : MT unit :=
  let new := {| rel_id := rel_id; rk_keys := keys |} in
  let prev := @None RelKeys in
  match prev with
  | None => modify (with_map [new])
  | Some _ => ret tt
  end.

(** The latest master key, generated when there is none. *)
Definition get_or_generate_master_key (fuel : nat) (MasterKeyName : string) : MT (option nat) :=
  let* master_key_info := in_keyring (keyringGetLatestKey fuel stack_bytes MasterKeyName) in
  match master_key_info with
  | Some i => ret (Some i)
  | None =>
      let* rand := random INTERNAL_KEY_LEN in
      in_keyring (keyringGenerateKey fuel stack_bytes rand MasterKeyName INTERNAL_KEY_LEN)
  end.

(** The key structure that is cached, and the image that is written: a
    copy in which the key bytes are encrypted. *)
Definition build_fork (master : keyInfo) (k : InternalKey) : RelKeysData * outcome (list Z) :=
  let data := {| master_key_name := strncpy_bytes 256 (ki_name master);
                 internal_keys_len := 1;
                 internal_key := [k] |} in
  let image := RelKeysData_image addr_of data in
  (data,
   match AesEncrypt g (take 16 (kd_data (ki_data master))) zero_iv
           (take 16 (drop (Z.to_nat SizeOfRelKeysDataHeader) image)) with
   | Ret enc => Ret (splice image (Z.to_nat SizeOfRelKeysDataHeader) enc)
   | Raise l => Raise l
   | Undefined => Undefined
   | NoFuel => NoFuel
   end).

Definition of_outcome {A} (o : outcome A) : MT A := fun s => (o, s).

Definition pg_tde_write_key_fork (fuel : nat) (rlocator : RelFileLocator) (k : InternalKey)
  (MasterKeyName : string) : MT unit :=
  let* master_key_info := get_or_generate_master_key fuel MasterKeyName in
  match master_key_info with
  | None => raise ERROR
  | Some mk =>
      match pg_tde_get_key_file_path rlocator with
      | None => raise ERROR
      | Some key_file_path =>
          let* opened := open_rw key_file_path in
          if negb opened then raise FATAL else
          let* s := get in
          let* master := defined (keys (cache (keyring s)) !! mk) in
          let '(data, encrypted) := build_fork master k in
          let* ptr := alloc_keys data in
          let* dataEnc := of_outcome encrypted in
          let* written := FileWrite key_file_path dataEnc in
          if negb (written =? Z.of_nat (length dataEnc)) then raise FATAL else
          in_xact (RegisterFileForDeletion key_file_path false);;;
          put_keys_into_map (relNumber rlocator) ptr
      end
  end.

(** [InternalKey int_key = {0}] with random key bytes. *)
Definition new_internal_key (bytes : list Z) : InternalKey :=
  {| key := bytes; start_loc := 0; end_loc := 0; ctx := CtxNull |}.

Definition RelFileLocator_image (r : RelFileLocator) : list Z :=
  le_bytes 4 (spcOid r) ++ le_bytes 4 (dbOid r) ++ le_bytes 4 (relNumber r).

Definition RelFileLocator_of_image (l : list Z) : RelFileLocator :=
  {| spcOid := le_value (take 4 l);
     dbOid := le_value (take 4 (drop 4 l));
     relNumber := le_value (take 4 (drop 8 l)) |}.

(** The WAL record is inserted before the file is written. *)
Definition pg_tde_create_key_fork (fuel : nat) (newrlocator : RelFileLocator) : MT unit :=
  let* rand := random INTERNAL_KEY_LEN in
  match rand with
  | None => raise FATAL
  | Some bytes =>
      let int_key := new_internal_key bytes in
      let record := {| xl_info := XLOG_TDE_CREATE_FORK;
                       xl_data := RelFileLocator_image newrlocator
                                  ++ InternalKey_image addr_of int_key |} in
      let* s := get in
      modify (with_wal (wal s ++ [record]));;;
      pg_tde_write_key_fork fuel newrlocator int_key MasterKeyName
  end.

(** The size check: [nbytes] is compared and reduced as a [size_t]. *)
Definition fork_size_ok (nbytes : Z) : bool :=
  negb ((u64 nbytes <? SizeOfRelKeysData 1)
        || negb (u64 (nbytes - SizeOfRelKeysDataHeader) mod sizeof_InternalKey =? 0)).

(** What was read, with the first key decrypted by the master key. *)
Definition decrypt_fork (master : keyInfo) (keys : RelKeysData) : outcome RelKeysData :=
  match internal_key keys with
  | [] => Undefined
  | ik :: rest =>
      match AesDecrypt g (take 16 (kd_data (ki_data master))) zero_iv (key ik) with
      | Ret dec => Ret {| master_key_name := master_key_name keys;
                          internal_keys_len := internal_keys_len keys;
                          internal_key := {| key := take 16 dec; start_loc := start_loc ik;
                                             end_loc := end_loc ik; ctx := ctx ik |} :: rest |}
      | Raise l => Raise l
      | Undefined => Undefined
      | NoFuel => NoFuel
      end
  end.

Definition pg_tde_get_keys_from_fork (rlocator : RelFileLocator) : MT nat :=
  match pg_tde_get_key_file_path rlocator with
  | None => raise ERROR
  | Some key_file_path =>
      let* opened := open_r key_file_path in
      if negb opened then raise FATAL else
      let* s := get in
      let content := default [] (fork_data s !! key_file_path) in
      if negb (FileSize_ok key_file_path) then raise ERROR else
      let nbytes := FileRead_n key_file_path (Z.of_nat (length content)) in
      if nbytes <? 0 then raise FATAL
      else if negb (fork_size_ok nbytes) then raise FATAL else
      let keys_ := RelKeysData_of_image (take (Z.to_nat nbytes) content) in
      let* name := defined (cstr_of (master_key_name keys_)) in
      let* master_key_info := in_keyring (keyringGetKey stack_bytes name) in
      match master_key_info with
      | None => raise ERROR
      | Some mk =>
          let* s := get in
          let* master := defined (keys (cache (keyring s)) !! mk) in
          let* dec := of_outcome (decrypt_fork master keys_) in
          alloc_keys dec
      end
  end.

(** The keys cache is searched by relation number. *)
Fixpoint map_scan (m : list RelKeys) (rel : Z) : option nat :=
  match m with
  | [] => None
  | curr :: m => if rel_id curr =? rel then Some (rk_keys curr) else map_scan m rel
  end.

Definition GetRelationKeys (rel : RelFileLocator) : MT nat :=
  let* s := get in
  match map_scan (tde_rel_keys_map s) (relNumber rel) with
  | Some k => ret k
  | None =>
      let* k := pg_tde_get_keys_from_fork rel in
      put_keys_into_map (relNumber rel) k;;;
      ret k
  end.

(** ** WAL *)

Definition pg_tde_xlog_create_fork (fuel : nat) (record : XLogRecord) : MT unit :=
  let rec := xl_data record in
  if Z.of_nat (length rec) <? sizeof_InternalKey + sizeof_RelFileLocator then raise FATAL
  else
    let rlocator := RelFileLocator_of_image (take 12 rec) in
    let int_key := InternalKey_of_image (take 40 (drop 12 rec)) in
    pg_tde_write_key_fork fuel rlocator int_key MasterKeyName.

Definition record_op (info : Z) : Z := Z.land info (u8 (Z.lnot XLR_INFO_MASK)).

Definition pg_tde_rmgr_redo (fuel : nat) (record : XLogRecord) : MT unit :=
  if record_op (xl_info record) =? XLOG_TDE_CREATE_FORK
  then pg_tde_xlog_create_fork fuel record
  else raise PANIC.

(** The text appended to the description buffer. *)
Definition pg_tde_rmgr_desc (record : XLogRecord) : string :=
  if record_op (xl_info record) =? XLOG_TDE_CREATE_FORK then
    let rlocator := RelFileLocator_of_image (take 12 (xl_data record)) in
    "create tde fork for relation " +:+ pretty (Z.to_N (dbOid rlocator)) +:+ "/"
      +:+ pretty (Z.to_N (relNumber rlocator))
  else "".

Definition pg_tde_rmgr_identify (info : Z) : option string :=
  if record_op info =? XLOG_TDE_CREATE_FORK then Some "TDE_CREATE_FORK" else None.
End tdemap.

(** ** Key printing (for the debugging messages) *)

Definition hex_digit (d : Z) : Z := if d <? 10 then 48 + d else 55 + d.

(** ["%02X"] and its terminating zero, at position [i] of [buf]. *)
Definition sprintf_hex (buf : list Z) (i : nat) (b : Z) : option (list Z) :=
  wr_bytes buf (Z.of_nat i) [hex_digit (b / 16); hex_digit (b mod 16); 0].

(** [for (i...) sprintf(buf+i, "%02X", bytes[i])] *)
Fixpoint sprint_loop (buf : list Z) (i : nat) (bytes : list Z) : option (list Z) :=
  match bytes with
  | [] => Some buf
  | b :: bytes => sprintf_hex buf i b ≫= fun buf => sprint_loop buf (S i) bytes
  end.

(** [buf] is the static buffer of 256 characters before the call. *)
Definition tde_sprint_key `{EVP} (buf : list Z) (k : InternalKey) : option (list Z) :=
  sprint_loop buf 0 (key k) ≫= fun buf =>
  wr_bytes buf (Z.of_nat (length (key k)))
    (str_bytes ("[" +:+ pretty (Z.to_N (start_loc k)) +:+ ", "
                +:+ pretty (Z.to_N (end_loc k)) +:+ "]") ++ [0]).

Definition tde_sprint_masterkey (buf : list Z) (k : keyData) : option (list Z) :=
  if (Z.of_nat (length (kd_data k)) <? kd_len k) then None
  else sprint_loop buf 0 (take (Z.to_nat (kd_len k)) (kd_data k)).
