(* ===== verification/TdeProps.v ===== *)
(** Lemmas on key forks: names, images, encryption of the internal key,
    the size check, and the effect of writing and reading a fork. *)
From Stdlib Require Import Ascii.
From stdpp Require Import pretty.
From S2P Require Import Prelude EncAes RelKeys KeyringTypes KeyringProviders KeyringApi KeyringProps XactHandler TdeMap.

(** ** Names *)

(** A C string: no character is zero. *)
Fixpoint c_string (s : string) : Prop :=
  match s with
  | EmptyString => True
  | String c s => c <> Ascii.zero /\ c_string s
  end.

Lemma length_str_bytes s : length (str_bytes s) = String.length s.
Proof. unfold str_bytes. rewrite length_fmap. induction s as [|c s IH]; [done|]. cbn. by rewrite IH. Qed.

Lemma cstr_of_bytes s tail :
  c_string s -> cstr_of (str_bytes s ++ 0 :: tail) = Some s.
Proof.
  unfold str_bytes. induction s as [|c s IH]; [done|]. intros [Hc Hs].
  cbn [String.list_ascii_of_string fmap list_fmap app cstr_of].
  destruct (Z.eqb_spec (Z.of_nat (nat_of_ascii c)) 0) as [H|H].
  - exfalso. apply Hc. rewrite <- (ascii_nat_embedding c).
    by replace (nat_of_ascii c) with 0%nat by lia.
  - rewrite Nat2Z.id, ascii_nat_embedding. rewrite IH by done. done.
Qed.

Lemma strncpy_bytes_short n s :
  (String.length s < n)%nat ->
  exists tail, strncpy_bytes n s = str_bytes s ++ 0 :: tail.
Proof.
  intros Hs. unfold strncpy_bytes. rewrite take_app_ge by (rewrite length_str_bytes; lia).
  rewrite length_str_bytes, take_replicate.
  destruct (n - String.length s)%nat as [|m] eqn:E; [lia|].
  rewrite Nat.min_l by lia. by eexists.
Qed.

Lemma length_strncpy_bytes n s : length (strncpy_bytes n s) = n.
Proof. unfold strncpy_bytes. rewrite length_take, length_app, length_replicate. lia. Qed.

(** The master key name read back from a fork. *)
Lemma strncpy_roundtrip n s :
  c_string s -> (String.length s < n)%nat -> cstr_of (strncpy_bytes n s) = Some s.
Proof. intros Hc (tail & ->)%strncpy_bytes_short. by apply cstr_of_bytes. Qed.

Lemma c_string_app a b : c_string a -> c_string b -> c_string (a +:+ b).
Proof. intros Ha Hb. induction a as [|c a IH]; [done|]. destruct Ha. split; auto. Qed.

Lemma pretty_N_go_c_string x s : c_string s -> c_string (pretty_N_go x s).
Proof.
  revert s. induction (N.lt_wf_0 x) as [x _ IH]; intros s Hs.
  destruct (decide (x = 0)%N) as [->|Hne]; [by rewrite pretty_N_go_0|].
  rewrite pretty_N_go_step by lia. apply IH; [apply N.div_lt; lia|].
  split; [|done]. unfold pretty_N_char. by repeat case_match.
Qed.

Lemma pretty_N_c_string (x : N) : c_string (pretty x).
Proof.
  unfold pretty, pretty_N. destruct (decide _); [by split|]. by apply pretty_N_go_c_string.
Qed.

Lemma keyringConstructKeyName_c_string p n v :
  prefix_ok p -> match p with Some s => c_string s | None => True end ->
  internal_ok n -> c_string n -> c_string (keyringConstructKeyName p n v).
Proof.
  intros Hp Hpc Hn Hnc. rewrite keyringConstructKeyName_whole by done.
  apply c_string_app; [|split; [done|apply pretty_N_c_string]].
  destruct p as [[|c p]|]; [done| |done]. apply c_string_app; [done|by split].
Qed.

(** ** Sizes *)

Lemma fork_size_ok_iff n :
  0 <= n < 2 ^ 63 ->
  fork_size_ok n = true <-> exists k, 1 <= k /\ n = SizeOfRelKeysData k.
Proof.
  intros Hn. unfold fork_size_ok, SizeOfRelKeysData, SizeOfRelKeysDataHeader,
    MASTER_KEY_NAME_LEN, sizeof_InternalKey, sizeof_Size, INTERNAL_KEY_LEN.
  change (16 + 3 * 8) with 40. change (256 + 8) with 264.
  rewrite (uwrap_small 64 n) by lia. rewrite negb_true_iff, orb_false_iff, Z.ltb_ge.
  rewrite negb_false_iff, Z.eqb_eq. split.
  - intros [H1 H2]. rewrite uwrap_small in H2 by lia.
    exists ((n - 264) / 40). pose proof (Z_div_mod_eq_full (n - 264) 40). lia.
  - intros (k & Hk & ->). split; [lia|]. rewrite uwrap_small by lia.
    replace (264 + 40 * k - 264) with (k * 40) by lia. apply Z_mod_mult.
Qed.

Section forks.
Context `{HE : EVP} `{HS : CIntShift} `{HL : !EVPLaws}.
Context `{HJ : Json} `{HB : Base64} `{HC : Curl} `{HF : KeyringFs}.
Context `{HT : TdeEnv}.
Variable addr_of : evp_ctx -> Z.
Variable g : AesGlobals.
Implicit Types s t : TdeState.

(** The system calls on a path succeed and transfer whole buffers. *)
Definition files_work (p : string) : Prop :=
  open_rw_ok p = true /\ open_r_ok p = true /\ FileSize_ok p = true
  /\ (forall n, 0 <= n -> FileRead_n p n = n) /\ (forall n, 0 <= n -> FileWrite_n p n = n).

(** Every cached key has the 16 bytes that AES-128 uses. *)
Definition master_ok (master : keyInfo) : Prop :=
  (16 <= length (kd_data (ki_data master)))%nat /\ c_string (ki_name master)
  /\ (String.length (ki_name master) <= 255)%nat.

(** The key structure of a fork with one key. *)
Definition fork_keys (master : keyInfo) (k : InternalKey) : RelKeysData :=
  {| master_key_name := strncpy_bytes 256 (ki_name master);
     internal_keys_len := 1; internal_key := [k] |}.

Definition with_key (b : list Z) (k : InternalKey) : InternalKey :=
  {| key := b; start_loc := start_loc k; end_loc := end_loc k; ctx := ctx k |}.

(** What the file holds: the structure with the key bytes encrypted. *)
Definition fork_image (master : keyInfo) (k : InternalKey) : list Z :=
  RelKeysData_image addr_of
    (fork_keys master (with_key (aes_block (take 16 (kd_data (ki_data master))) (key k)) k)).

Lemma fork_keys_wf master k : InternalKey_wf k -> RelKeysData_wf (fork_keys master k).
Proof.
  intros Hk. split_and!; cbn; [apply length_strncpy_bytes|lia..|by constructor].
Qed.

Lemma with_key_wf b k : length b = 16%nat -> InternalKey_wf k -> InternalKey_wf (with_key b k).
Proof. intros Hb (_ & ?). by split. Qed.

Lemma fork_image_length master k :
  master_ok master -> InternalKey_wf k -> length (fork_image master k) = 304%nat.
Proof.
  intros Hm Hk. unfold fork_image. rewrite length_RelKeysData_image; [done|].
  apply fork_keys_wf, with_key_wf; [|done]. apply aes_block_length. by destruct Hk.
Qed.

Lemma image_key_at master k :
  InternalKey_wf k ->
  exists rest, RelKeysData_image addr_of (fork_keys master k) =
    (strncpy_bytes 256 (ki_name master) ++ le_bytes 8 1) ++ key k ++ rest
    /\ forall b, RelKeysData_image addr_of (fork_keys master (with_key b k)) =
      (strncpy_bytes 256 (ki_name master) ++ le_bytes 8 1) ++ b ++ rest.
Proof.
  intros Hk. unfold RelKeysData_image, fork_keys, InternalKey_image, with_key.
  cbn [master_key_name internal_keys_len internal_key key start_loc end_loc ctx].
  exists (le_bytes 8 (start_loc k) ++ le_bytes 8 (end_loc k) ++ ctx_image addr_of (ctx k)).
  split; [|intros b]; change (mjoin (?f <$> [?x])) with (f x ++ []); rewrite app_nil_r;
    by rewrite <- !app_assoc.
Qed.

Lemma build_fork_spec master k :
  aes_initialized g -> master_ok master -> InternalKey_wf k ->
  build_fork addr_of g master k = (fork_keys master k, Ret (fork_image master k)).
Proof.
  intros Hg (Hm & _) Hk. unfold build_fork, fork_image. fold (fork_keys master k). f_equal.
  destruct (image_key_at master k Hk) as (rest & He & Hw). rewrite Hw, He.
  set (hd := strncpy_bytes 256 (ki_name master) ++ le_bytes 8 1).
  assert (Hhd : length hd = 264%nat)
    by (unfold hd; by rewrite length_app, length_strncpy_bytes, length_le_bytes).
  change (Z.to_nat SizeOfRelKeysDataHeader) with 264%nat.
  pose proof Hk as (Hkl & _).
  rewrite drop_app_length' by done. rewrite take_app_length' by done.
  rewrite AesEncrypt_block by (done || (rewrite length_take; lia)).
  f_equal. unfold splice. rewrite take_app_length' by done.
  rewrite aes_block_length by done. f_equal. f_equal.
  rewrite (app_assoc hd), drop_app_length' by (rewrite length_app; lia). done.
Qed.

Lemma decrypt_fork_spec master k :
  aes_initialized g -> master_ok master -> InternalKey_wf k -> bytes_ok (key k) ->
  let mk := take 16 (kd_data (ki_data master)) in
  decrypt_fork g master (fork_keys master (with_key (aes_block mk (key k)) k)) =
    Ret (fork_keys master k).
Proof.
  intros Hg (Hm & _) Hk Hb mk. pose proof Hk as (Hkl & _).
  assert (Hmk : length mk = 16%nat) by (unfold mk; rewrite length_take; lia).
  unfold decrypt_fork, fork_keys, with_key. cbn [internal_key key start_loc end_loc ctx].
  rewrite AesDecrypt_block; fold mk; rewrite ?aes_block_inv_block by done;
    [|done|done|by apply aes_block_length|done].
  rewrite take_ge by lia. destruct k; reflexivity.
Qed.

(** The content of a file that is opened for writing. *)
Definition old_content s (p : string) : list Z :=
  if bool_decide (p ∈ files (xact s)) then default [] (fork_data s !! p) else [].

(** Opening creates the file when it is missing. *)
Lemma open_rw_spec p s :
  open_rw_ok p = true ->
  exists s1, open_rw p s = (Ret true, s1)
    /\ xact s1 = with_disk (files (xact s) ∪ {[p]}) (xact s)
    /\ default [] (fork_data s1 !! p) = old_content s p
    /\ keyring s1 = keyring s /\ wal s1 = wal s
    /\ tde_rel_keys_map s1 = tde_rel_keys_map s /\ keys_store s1 = keys_store s.
Proof.
  intros Hok. unfold open_rw, old_content. rewrite Hok. unfold bind at 1, get.
  case_bool_decide as Hp.
  - exists s. split_and!; try done. unfold with_disk.
    replace (files (xact s) ∪ {[p]}) with (files (xact s)) by set_solver.
    by destruct (xact s).
  - eexists. split; [reflexivity|]. split_and!; try done. cbn. by rewrite lookup_insert_eq.
Qed.

Lemma FileWrite_spec p buf s :
  FileWrite_n p (Z.of_nat (length buf)) = Z.of_nat (length buf) ->
  FileWrite p buf s =
    (Ret (Z.of_nat (length buf)),
     with_fork_data (<[p := buf ++ drop (length buf) (default [] (fork_data s !! p))]>
                       (fork_data s)) s).
Proof.
  intros Hw. unfold FileWrite, bind, get, modify, ret. rewrite Hw.
  by rewrite Nat2Z.id, take_ge by lia.
Qed.

Lemma alloc_keys_spec d s :
  alloc_keys d s = (Ret (length (keys_store s)), with_store (keys_store s ++ [d]) s).
Proof. reflexivity. Qed.

Lemma of_outcome_Ret {A} (a : A) s : of_outcome (Ret a) s = (Ret a, s).
Proof. reflexivity. Qed.

(** The effect of [pg_tde_write_key_fork] once a master key is found. *)
Lemma pg_tde_write_key_fork_spec fuel r k s s0 mk master p :
  aes_initialized g -> master_ok master -> InternalKey_wf k -> files_work p ->
  pg_tde_get_key_file_path r = Some p ->
  get_or_generate_master_key fuel MasterKeyName s = (Ret (Some mk), s0) ->
  keys (cache (keyring s0)) !! mk = Some master ->
  exists s1, pg_tde_write_key_fork addr_of g fuel r k MasterKeyName s = (Ret tt, s1)
    /\ xact s1 = snd (RegisterFileForDeletion p false
                        (with_disk (files (xact s0) ∪ {[p]}) (xact s0)))
    /\ fork_data s1 !! p = Some (fork_image master k ++ drop 304 (old_content s0 p))
    /\ keyring s1 = keyring s0 /\ wal s1 = wal s0
    /\ tde_rel_keys_map s1 = [{| rel_id := relNumber r; rk_keys := length (keys_store s0) |}]
    /\ keys_store s1 = keys_store s0 ++ [fork_keys master k].
Proof.
  intros Hg Hm Hk (Hrw & _ & _ & _ & Hw) Hp Hmk Hmaster.
  unfold pg_tde_write_key_fork. mstep Hmk. rewrite Hp.
  destruct (open_rw_spec p s0 Hrw) as (s2 & E2 & Hx & Hfd & Hkr & Hwal & Hmap & Hst).
  mstep E2. cbn [negb]. unfold bind at 1, get. rewrite Hkr, Hmaster. cbn [defined].
  rewrite bind_ret_l, build_fork_spec by done.
  mstep (alloc_keys_spec (fork_keys master k) s2). cbn [snd fst].
  mstep (of_outcome_Ret (fork_image master k) (with_store (keys_store s2 ++ [fork_keys master k]) s2)).
  mstep (FileWrite_spec p (fork_image master k)
    (with_store (keys_store s2 ++ [fork_keys master k]) s2) (Hw _ (Nat2Z.is_nonneg _))).
  rewrite Z.eqb_refl. cbn [negb].
  unfold in_xact, zoom, put_keys_into_map, bind, modify.
  cbn [xact with_fork_data with_store]. rewrite Hx.
  eexists. split; [reflexivity|].
  split_and!; cbn [xact fork_data keyring wal tde_rel_keys_map keys_store
                   with_map with_xact with_fork_data with_store].
  - done.
  - rewrite lookup_insert_eq, Hfd. by rewrite fork_image_length.
  - done.
  - done.
  - by rewrite Hst.
  - by rewrite Hst.
Qed.

Lemma with_keyring_id s : with_keyring (keyring s) s = s.
Proof. by destruct s. Qed.

Lemma in_keyring_pure {A} (m : M KeyringState A) s r :
  m (keyring s) = (r, keyring s) -> in_keyring m s = (r, s).
Proof. intros H. unfold in_keyring, zoom. by rewrite H, with_keyring_id. Qed.

(** Reading a fork back when its master key is cached. *)
Lemma pg_tde_get_keys_from_fork_spec r s p master k mk :
  aes_initialized g -> master_ok master -> InternalKey_wf k -> bytes_ok (key k) ->
  files_work p -> pg_tde_get_key_file_path r = Some p -> p ∈ files (xact s) ->
  fork_data s !! p = Some (fork_image master k) ->
  cache_wf (cache (keyring s)) ->
  cached_index (cache (keyring s)) (ki_name master) = Some mk ->
  keys (cache (keyring s)) !! mk = Some master ->
  pg_tde_get_keys_from_fork g r s =
    (Ret (length (keys_store s)), with_store (keys_store s ++ [fork_keys master k]) s).
Proof.
  intros Hg Hm Hk Hb (_ & Hr & Hsz & Hrd & _) Hp Hin Hfd Hc Hi Hmk.
  unfold pg_tde_get_keys_from_fork. rewrite Hp.
  assert (Ho : open_r p s = (Ret true, s)).
  { unfold open_r, bind, get, ret. by rewrite Hr, bool_decide_true. }
  mstep Ho. cbn [negb]. unfold bind at 1, get. rewrite Hsz, Hfd. cbn [negb from_option id].
  rewrite Hrd by lia. rewrite (proj2 (Z.ltb_ge _ _)) by lia.
  rewrite fork_image_length by done. change (Z.of_nat 304) with 304.
  rewrite (proj2 (fork_size_ok_iff 304 ltac:(lia)))
    by (exists 1; split; [lia|reflexivity]). cbn [negb].
  rewrite take_ge by (rewrite fork_image_length by done; lia).
  unfold fork_image. rewrite RelKeysData_image_roundtrip.
  2: { apply fork_keys_wf, with_key_wf; [|done]. apply aes_block_length. by destruct Hk. }
  pose proof Hm as (_ & Hcs & Hlen).
  change (master_key_name (fork_keys master _)) with (strncpy_bytes 256 (ki_name master)).
  rewrite strncpy_roundtrip by (done || lia). cbn [defined]. rewrite bind_ret_l.
  mstep (in_keyring_pure (keyringGetKey stack_bytes (ki_name master)) s _
    (keyringGetKey_cached stack_bytes _ (keyring s) mk Hc Hi)).
  unfold bind at 1, get. rewrite Hmk. cbn [defined]. rewrite bind_ret_l.
  rewrite decrypt_fork_spec by done. reflexivity.
Qed.

(** ** Finding the master key *)

(** A keyring of the file provider in working order. *)
Definition keyring_usable (ks : KeyringState) : Prop :=
  cache_wf (cache ks) /\ keyringProvider ks = PROVIDER_FILE
  /\ prefix_ok (keyringKeyPrefix ks)
  /\ match keyringKeyPrefix ks with Some p => c_string p | None => True end
  /\ Forall (fun k => 16 <= length (kd_data (ki_data k)))%nat (cached (cache ks))
  /\ keyringFileDataFileName ks <> "" /\ fopen_w (keyringFileDataFileName ks) = true
  /\ keyCount (cache ks) < Z.of_nat MAX_CACHE_ENTRIES.

Definition random_works : Prop :=
  forall tick, exists b, RAND_bytes tick 16 = Some b /\ length b = 16%nat /\ bytes_ok b.

Lemma master_internal_ok : internal_ok MasterKeyName.
Proof. unfold internal_ok. cbn. lia. Qed.

Lemma master_name_ok ks v n :
  keyring_usable ks -> (16 <= length n)%nat ->
  master_ok {| ki_name := version_name ks MasterKeyName v;
               ki_data := {| kd_data := n; kd_len := 16 |} |}.
Proof.
  intros (_ & _ & Hp & Hpc & _) Hn. split_and!; cbn.
  - done.
  - apply keyringConstructKeyName_c_string; [done..|apply master_internal_ok|].
    repeat split; discriminate.
  - apply keyringConstructKeyName_length.
Qed.

Lemma get_or_generate_found fuel s :
  keyring_usable (keyring s) -> random_works ->
  keyCount (cache (keyring s)) < Z.of_nat fuel ->
  exists mk master s0,
    get_or_generate_master_key fuel MasterKeyName s = (Ret (Some mk), s0)
    /\ keys (cache (keyring s0)) !! mk = Some master /\ master_ok master
    /\ cache_wf (cache (keyring s0))
    /\ cached_index (cache (keyring s0)) (ki_name master) = Some mk
    /\ xact s0 = xact s /\ fork_data s0 = fork_data s /\ wal s0 = wal s
    /\ keys_store s0 = keys_store s.
Proof.
  intros Hu Hrand Hf. pose proof Hu as (Hc & Hp & Hpre & Hpc & Hall & Hne & Hw & Hroom).
  assert (Hl : local_provider (keyring s)) by (unfold local_provider; by rewrite Hp).
  destruct (latest_loop_spec fuel stack_bytes MasterKeyName (keyring s) 1 None)
    as (v & Hv & Hr); try done; try lia; [apply master_internal_ok|].
  unfold get_or_generate_master_key, keyringGetLatestKey.
  mstep (in_keyring_pure _ s _ Hr).
  destruct (version_index (keyring s) MasterKeyName v) as [mk|] eqn:Hvi.
  - unfold version_index in Hvi. destruct (Z.ltb_spec 0 v); [|done].
    destruct (cached_index_Some _ _ _ Hvi) as (master & Hk & Hnm).
    exists mk, master, s. rewrite Hnm. split_and!; try done.
    + unfold cached in Hk. apply lookup_take_Some in Hk as [Hk _]. done.
    + destruct master as [nm [bs ln]]. cbn in Hnm. subst nm. unfold master_ok. cbn.
      destruct (master_name_ok (keyring s) v (replicate 16 0)) as (_ & H1 & H2); [done|done|].
      split_and!; [|done..]. rewrite Forall_lookup in Hall. exact (Hall _ _ Hk).
  - assert (Hv0 : v = 0).
    { destruct Hv as (Hv0 & Hv1 & _). destruct (Z.eq_dec v 0) as [|Hnz]; [done|].
      unfold version_index in Hvi. rewrite (proj2 (Z.ltb_lt _ _)) in Hvi by lia.
      destruct (Hv1 v) as [? E]; [lia|]. congruence. }
    subst v. destruct (Hrand (rand_tick s)) as (b & Hb & Hbl & _).
    set (s1 := with_tick (S (rand_tick s)) s).
    assert (Hrs : random INTERNAL_KEY_LEN s = (Ret (Some b), s1))
      by (unfold random, bind, get, modify, ret; change INTERNAL_KEY_LEN with 16; by rewrite Hb).
    mstep Hrs.
    destruct Hv as (_ & _ & Hnone). change (0 + 1) with 1 in Hnone.
    set (nm := version_name (keyring s) MasterKeyName 1) in *.
    set (d := {| kd_data := b ++ drop (length b) stack_bytes; kd_len := INTERNAL_KEY_LEN |}).
    assert (Hgen : keyringGenerateKey fuel stack_bytes (Some b) MasterKeyName INTERNAL_KEY_LEN
      (keyring s) = (Ret (Some (Z.to_nat (keyCount (cache (keyring s))))),
                     stored_state nm d (keyring s))).
    { destruct (free_version_loop_spec fuel stack_bytes MasterKeyName (keyring s) 1)
        as (v & Hv & Hfr); try done; try lia; [apply master_internal_ok|].
      unfold keyringGenerateKey. mstep Hfr. unfold bind at 1, get.
      assert (v = 0) as ->.
      { destruct Hv as (H0 & H1 & _). destruct (Z.eq_dec v 0); [done|].
        destruct (H1 1) as [? E]; [lia|]. unfold nm in Hnone. congruence. }
      by apply keyringStoreKey_file. }
    pose proof Hc as [Hlen Hk].
    exists (Z.to_nat (keyCount (cache (keyring s)))), {| ki_name := nm; ki_data := d |},
      (with_keyring (stored_state nm d (keyring s)) s1).
    split; [unfold in_keyring, zoom; change (keyring s1) with (keyring s); by rewrite Hgen|].
    cbn [keyring with_keyring xact fork_data wal keys_store]. split_and!; try done.
    + unfold stored_state, cache_push. cbn. apply list_lookup_insert_eq. lia.
    + apply master_name_ok; [done|]. rewrite length_app, Hbl. lia.
    + by apply cache_push_wf.
    + unfold stored_state. cbn [cache with_files with_cache ki_name].
      rewrite cached_index_push, Hnone by done. by rewrite bool_decide_true.
Qed.
End forks.
