(* ===== verification/TdeClaims.v ===== *)
(** The properties of key forks, their WAL records and the keys cache. *)
From Stdlib Require Import Ascii.
From stdpp Require Import pretty.
From S2P Require Import Prelude EncAes RelKeys EncTuple KeyringTypes KeyringProviders KeyringApi KeyringProps KeyringClaims XactHandler XactClaims TdeMap TdeProps.

Section tde_claims.
Context `{HE : EVP} `{HS : CIntShift} `{HL : !EVPLaws}.
Context `{HJ : Json} `{HB : Base64} `{HC : Curl} `{HF : KeyringFs}.
Context `{HT : TdeEnv} `{HU : Unlink}.
Variable addr_of : evp_ctx -> Z.
Variable g : AesGlobals.
Implicit Types s t : TdeState.

(** ** Helper lemmas *)

Lemma register_files p b (x : XactState) :
  files (snd (RegisterFileForDeletion p b x)) = files x.
Proof. reflexivity. Qed.

(** Some version of the master key is cached. *)
Definition has_master (ks : KeyringState) : Prop :=
  is_Some (cached_index (cache ks) (version_name ks MasterKeyName 1)).

Lemma latest_master fuel (ks : KeyringState) :
  keyring_usable ks -> has_master ks -> keyCount (cache ks) < Z.of_nat fuel ->
  exists mk, keyringGetLatestKey fuel stack_bytes MasterKeyName ks = (Ret (Some mk), ks).
Proof.
  intros (Hc & Hp & Hpre & _) [i Hi] Hf.
  destruct (latest_loop_spec fuel stack_bytes MasterKeyName ks 1 None)
    as (v & Hv & Hr); try done; try lia; [unfold local_provider; by rewrite Hp
    |apply master_internal_ok|].
  unfold keyringGetLatestKey. rewrite Hr. unfold version_index.
  destruct Hv as (H0 & H1 & H2). destruct (Z.ltb_spec 0 v).
  - destruct (H1 v) as [mk ->]; [lia|]. by exists mk.
  - replace (v + 1) with 1 in H2 by lia. congruence.
Qed.

Lemma get_or_generate_existing fuel s mk :
  keyringGetLatestKey fuel stack_bytes MasterKeyName (keyring s) = (Ret (Some mk), keyring s) ->
  get_or_generate_master_key fuel MasterKeyName s = (Ret (Some mk), s).
Proof.
  intros H. unfold get_or_generate_master_key. by mstep (in_keyring_pure _ s _ H).
Qed.

Lemma new_internal_key_wf b : length b = 16%nat -> InternalKey_wf (new_internal_key b).
Proof. intros Hb. split_and!; cbn; lia || done. Qed.

Lemma length_RelFileLocator_image r : length (RelFileLocator_image r) = 12%nat.
Proof. unfold RelFileLocator_image. by rewrite !length_app, !length_le_bytes. Qed.

Definition locator_ok (r : RelFileLocator) : Prop :=
  0 <= spcOid r < 2 ^ 32 /\ 0 <= dbOid r < 2 ^ 32 /\ 0 <= relNumber r < 2 ^ 32.

Lemma RelFileLocator_roundtrip r :
  locator_ok r -> RelFileLocator_of_image (RelFileLocator_image r) = r.
Proof.
  intros (H1 & H2 & H3). unfold RelFileLocator_of_image, RelFileLocator_image.
  assert (L : forall z, length (le_bytes 4 z) = 4%nat) by (intros; apply length_le_bytes).
  destruct r as [a b c]. f_equal.
  - rewrite take_app_length' by done. apply le_value_bytes; cbn in *; lia.
  - rewrite drop_app_length', take_app_length' by done. apply le_value_bytes; cbn in *; lia.
  - rewrite app_assoc, drop_app_length' by (by rewrite length_app, !L).
    rewrite take_ge by (by rewrite L). apply le_value_bytes; cbn in *; lia.
Qed.

(** [pg_tde_create_key_fork] up to the write. *)
Lemma pg_tde_create_key_fork_unfold fuel r s b :
  RAND_bytes (rand_tick s) INTERNAL_KEY_LEN = Some b ->
  pg_tde_create_key_fork addr_of g fuel r s =
    pg_tde_write_key_fork addr_of g fuel r (new_internal_key b) MasterKeyName
      (with_wal (wal s ++ [{| xl_info := XLOG_TDE_CREATE_FORK;
                              xl_data := RelFileLocator_image r
                                ++ InternalKey_image addr_of (new_internal_key b) |}])
         (with_tick (S (rand_tick s)) s)).
Proof.
  intros Hb. unfold pg_tde_create_key_fork.
  rewrite (bind_Ret _ _ _ (Some b) (with_tick (S (rand_tick s)) s)); [done|].
  unfold random, bind, get, modify, ret. by rewrite Hb.
Qed.

(** ** Properties *)

(** C13: writing the key fork of a relation succeeds on a working keyring
    and file system, generating a master key if there is none; from then
    on this backend gets the key from its cache without touching the
    file, and every backend with the same keyring that reads the fork gets
    exactly the key structure that was written. *)
Theorem key_fork_roundtrip fuel r k s p :
  aes_initialized g -> keyring_usable (keyring s) -> random_works ->
  keyCount (cache (keyring s)) < Z.of_nat fuel ->
  files_work p -> pg_tde_get_key_file_path r = Some p ->
  InternalKey_wf k -> bytes_ok (key k) -> (length (old_content s p) <= 304)%nat ->
  exists s1 master ptr,
    pg_tde_write_key_fork addr_of g fuel r k MasterKeyName s = (Ret tt, s1) /\
    GetRelationKeys g r s1 = (Ret ptr, s1) /\
    keys_store s1 !! ptr = Some (fork_keys master k) /\
    forall t, keyring t = keyring s1 -> p ∈ files (xact t) ->
      fork_data t !! p = fork_data s1 !! p ->
      exists ptr' t', pg_tde_get_keys_from_fork g r t = (Ret ptr', t') /\
        keys_store t' !! ptr' = Some (fork_keys master k).
Proof.
  intros Hg Hu Hrand Hf Hfw Hp Hk Hb Hold.
  destruct (get_or_generate_found fuel s Hu Hrand Hf)
    as (mk & master & s0 & Hmk & Hm & Hmok & Hc & Hi & Hx & Hfd & Hwal & Hst).
  destruct (pg_tde_write_key_fork_spec addr_of g fuel r k s s0 mk master p)
    as (s1 & E & Hx1 & Hfd1 & Hkr1 & _ & Hmap1 & Hst1); [done..|].
  exists s1, master, (length (keys_store s0)). split_and!.
  - done.
  - unfold GetRelationKeys, bind, get. rewrite Hmap1. cbn [map_scan rel_id].
    by rewrite Z.eqb_refl.
  - rewrite Hst1. apply list_lookup_middle. done.
  - intros t Hkt Hpt Hft. rewrite Hkr1 in Hkt.
    assert (Hft' : fork_data t !! p = Some (fork_image addr_of master k)).
    { rewrite Hft, Hfd1. f_equal. rewrite (drop_ge (old_content s0 p)).
      - apply app_nil_r.
      - unfold old_content. rewrite Hx, Hfd. exact Hold. }
    eexists _, _. split.
    + apply (pg_tde_get_keys_from_fork_spec addr_of g r t p master k mk); try done;
        by rewrite Hkt.
    + cbn. apply list_lookup_middle. done.
Qed.

(** recovery: replaying the WAL record of a fork creation, on a
    server with the same keyring, writes the same bytes to the same
    file.  The record carries the internal key as it is, unencrypted. *)
Theorem redo_reproduces_key_fork fuel r s t p :
  aes_initialized g -> keyring_usable (keyring s) -> has_master (keyring s) -> random_works ->
  keyCount (cache (keyring s)) < Z.of_nat fuel ->
  files_work p -> pg_tde_get_key_file_path r = Some p -> locator_ok r ->
  keyring t = keyring s -> old_content t p = old_content s p ->
  exists s1 t1 record b,
    pg_tde_create_key_fork addr_of g fuel r s = (Ret tt, s1) /\
    wal s1 = wal s ++ [record] /\
    RAND_bytes (rand_tick s) 16 = Some b /\ take 16 (drop 12 (xl_data record)) = b /\
    pg_tde_rmgr_redo addr_of g fuel record t = (Ret tt, t1) /\
    p ∈ files (xact t1) /\ fork_data t1 !! p = fork_data s1 !! p.
Proof.
  intros Hg Hu Hhas Hrand Hf Hfw Hp Hr Hkt Hold.
  destruct (Hrand (rand_tick s)) as (b & Hb & Hbl & Hbb).
  destruct (latest_master fuel (keyring s) Hu Hhas Hf) as (mk & Hmk).
  pose proof (get_or_generate_existing fuel s mk Hmk) as Hgs.
  destruct (get_or_generate_found fuel s Hu Hrand Hf)
    as (mk' & master & s0 & Hmk' & Hm & Hmok & _).
  rewrite Hgs in Hmk'. simplify_eq. rename s0 into s.
  set (int_key := new_internal_key b).
  set (record := {| xl_info := XLOG_TDE_CREATE_FORK;
                    xl_data := RelFileLocator_image r ++ InternalKey_image addr_of int_key |}).
  set (s' := with_wal (wal s ++ [record]) (with_tick (S (rand_tick s)) s)).
  assert (Hik : InternalKey_wf int_key) by (by apply new_internal_key_wf).
  destruct (pg_tde_write_key_fork_spec addr_of g fuel r int_key s' s' mk' master p)
    as (s1 & E1 & Hx1 & Hfd1 & _ & Hw1 & _); try done;
    [by apply get_or_generate_existing|].
  destruct (pg_tde_write_key_fork_spec addr_of g fuel r int_key t t mk' master p)
    as (t1 & E2 & Hx2 & Hfd2 & _); try done;
    [by apply get_or_generate_existing; rewrite Hkt|by rewrite Hkt|].
  pose proof (length_RelFileLocator_image r) as Hrl.
  pose proof (length_InternalKey_image addr_of int_key Hik) as Hil.
  exists s1, t1, record, b. split_and!.
  - rewrite (pg_tde_create_key_fork_unfold fuel r s b) by done. exact E1.
  - by rewrite Hw1.
  - done.
  - cbn [xl_data record]. rewrite drop_app_length' by done.
    unfold InternalKey_image. by rewrite take_app_length'.
  - unfold pg_tde_rmgr_redo, pg_tde_xlog_create_fork. cbn [xl_info xl_data record].
    rewrite length_app, Hrl, Hil. cbn [record_op].
    rewrite take_app_length', drop_app_length' by done.
    rewrite take_ge by lia. rewrite RelFileLocator_roundtrip by done.
    rewrite InternalKey_image_roundtrip by done. exact E2.
  - rewrite Hx2, register_files. cbn. set_solver.
  - rewrite Hfd1, Hfd2, Hold. done.
Qed.

(** the keys cache is searched by relation number alone: once the
    keys of a relation are cached, a relation of another tablespace or
    database with the same number gets them too. *)
Theorem GetRelationKeys_by_number r r' s s1 ptr :
  GetRelationKeys g r s = (Ret ptr, s1) -> relNumber r' = relNumber r ->
  GetRelationKeys g r' s1 = (Ret ptr, s1).
Proof.
  intros H Hr. unfold GetRelationKeys at 1 in H. unfold bind at 1, get in H.
  unfold GetRelationKeys, bind at 1, get. rewrite Hr.
  destruct (map_scan (tde_rel_keys_map s) (relNumber r)) as [k|] eqn:E.
  - unfold ret in H. simplify_eq. by rewrite E.
  - apply bind_inv_Ret in H as (k & s2 & _ & H). cbv in H. simplify_eq. cbn.
    by rewrite Z.eqb_refl.
Qed.

(** a key fork is accepted exactly when its size is that of a header
    and at least one key; any other size is reported as corruption, and
    reading changes nothing. *)
Theorem key_fork_size_checked r s p content :
  files_work p -> pg_tde_get_key_file_path r = Some p -> p ∈ files (xact s) ->
  fork_data s !! p = Some content -> Z.of_nat (length content) < 2 ^ 63 ->
  ~ (exists k, 1 <= k /\ Z.of_nat (length content) = SizeOfRelKeysData k) ->
  pg_tde_get_keys_from_fork g r s = (Raise FATAL, s).
Proof.
  intros (_ & Hor & Hsz & Hrd & _) Hp Hin Hfd Hlen Hno.
  unfold pg_tde_get_keys_from_fork. rewrite Hp.
  assert (Ho : open_r p s = (Ret true, s))
    by (unfold open_r, bind, get, ret; by rewrite Hor, bool_decide_true).
  mstep Ho. cbn [negb]. unfold bind at 1, get. rewrite Hsz, Hfd. cbn [negb from_option id].
  rewrite Hrd by lia. rewrite (proj2 (Z.ltb_ge _ _)) by lia.
  destruct (fork_size_ok (Z.of_nat (length content))) eqn:E; [|done].
  exfalso. apply Hno, fork_size_ok_iff; [lia|done].
Qed.

(** the resource manager's redo and identify routines agree: a record
    whose operation has no name is a panic, and a fork-creation record
    too short for a relation and a key is reported as corrupted, in both
    cases before anything is changed. *)
Theorem rmgr_rejects fuel record s :
  0 <= xl_info record < 256 ->
  (pg_tde_rmgr_identify (xl_info record) = None <-> 16 <= xl_info record) /\
  (16 <= xl_info record -> pg_tde_rmgr_redo addr_of g fuel record s = (Raise PANIC, s)) /\
  (xl_info record < 16 -> Z.of_nat (length (xl_data record)) < 52 ->
   pg_tde_rmgr_redo addr_of g fuel record s = (Raise FATAL, s)).
Proof.
  intros Hi. set (i := xl_info record) in *.
  assert (Hop : record_op i = 0 <-> i < 16).
  { unfold record_op, XLR_INFO_MASK. change (u8 (Z.lnot 15)) with 240.
    assert (Hall : forallb (fun n => eqb (Z.land (Z.of_nat n) 240 =? 0) (n <? 16)%nat)
                     (seq 0 256) = true) by (vm_compute; reflexivity).
    rewrite forallb_forall in Hall. specialize (Hall (Z.to_nat i)).
    rewrite Z2Nat.id in Hall by lia.
    assert (Hin : In (Z.to_nat i) (seq 0 256)) by (apply in_seq; lia).
    specialize (Hall Hin). apply eqb_prop in Hall.
    rewrite <- Z.eqb_eq, Hall, Nat.ltb_lt. lia. }
  unfold pg_tde_rmgr_identify, pg_tde_rmgr_redo, XLOG_TDE_CREATE_FORK. fold i.
  destruct (Z.eqb_spec (record_op i) 0) as [H0|H0].
  - split_and!; [split; [done|lia]|lia|]. intros _ Hl.
    unfold pg_tde_xlog_create_fork, sizeof_InternalKey, sizeof_RelFileLocator,
      INTERNAL_KEY_LEN, sizeof_Size.
    rewrite (proj2 (Z.ltb_lt _ _)) by lia. done.
  - split_and!; [split; [lia|done]|done|lia].
Qed.

(** the key fork of a relation lives and dies with the transaction:
    the fork created by [pg_tde_create_key_fork] is removed when the
    transaction aborts, and the one [pg_tde_delete_key_fork] was asked to
    delete is removed when it commits and kept when it aborts. *)
Theorem key_fork_follows_transaction fuel r s p l :
  aes_initialized g -> keyring_usable (keyring s) -> random_works ->
  keyCount (cache (keyring s)) < Z.of_nat fuel ->
  files_work p -> pg_tde_get_key_file_path r = Some p -> unlink_ok p = true ->
  represents (xact s) l -> (S (length l) < fuel)%nat ->
  (exists s1 s2, pg_tde_create_key_fork addr_of g fuel r s = (Ret tt, s1) /\
     p ∈ files (xact s1) /\
     in_xact (pg_tde_xact_callback fuel XACT_EVENT_ABORT) s1 = (Ret tt, s2) /\
     p ∉ files (xact s2)) /\
  (exists s1 s2, pg_tde_delete_key_fork r s = (Ret tt, s1) /\
     files (xact s1) = files (xact s) /\
     in_xact (pg_tde_xact_callback fuel XACT_EVENT_COMMIT) s1 = (Ret tt, s2) /\
     p ∉ files (xact s2)) /\
  (exists s1 s2, pg_tde_delete_key_fork r s = (Ret tt, s1) /\
     in_xact (pg_tde_xact_callback fuel XACT_EVENT_ABORT) s1 = (Ret tt, s2) /\
     (p ∈ files (xact s) -> ~ (exists e, e ∈ l /\ e_path e = p) -> p ∈ files (xact s2))).
Proof.
  intros Hg Hu Hrand Hf Hfw Hp Hul Hrep Hfl.
  assert (Hgone : forall b x, represents x ((p, b, GetCurrentTransactionNestLevel x) :: l) ->
    exists x', do_pending_deletes fuel b x = (Ret tt, x') /\ p ∉ files x'
               /\ represents x' (kept (GetCurrentTransactionNestLevel x) l)).
  { intros b x Hx. destruct (do_pending_deletes_list fuel b x _ Hx) as (x' & E & Hr' & Hf' & _);
      [cbn; lia|]. exists x'. split_and!; [done| |].
    - rewrite Hf'. unfold removed. rewrite filter_cons_True by (split_and!; [cbn; lia|done..]).
      cbn. set_solver.
    - unfold kept in *. rewrite filter_cons_False in Hr' by (cbn; lia). done. }
  assert (Hin : forall (m : M XactState unit) s0 x, m (xact s0) = (Ret tt, x) ->
    in_xact m s0 = (Ret tt, with_xact x s0))
    by (intros m s0 x H; unfold in_xact, zoom; by rewrite H).
  split_and!.
  - destruct (Hrand (rand_tick s)) as (b & Hb & Hbl & Hbb).
    rewrite (pg_tde_create_key_fork_unfold fuel r s b Hb).
    set (s' := with_wal _ _).
    destruct (get_or_generate_found fuel s' Hu Hrand Hf)
      as (mk & master & s0 & Hmk & Hm & Hmok & _ & _ & Hx & _).
    destruct (pg_tde_write_key_fork_spec addr_of g fuel r (new_internal_key b) s' s0 mk master p)
      as (s1 & E1 & Hx1 & _); try done.
    change (xact s') with (xact s) in Hx. rewrite Hx in Hx1.
    destruct (RegisterFileForDeletion_list p false
      (with_disk (files (xact s) ∪ {[p]}) (xact s)) l Hrep) as (x1 & Er & Hr1 & [Hfr Hnr]).
    rewrite Er in Hx1. cbn [snd] in Hx1.
    destruct (Hgone false x1) as (x2 & E2 & Hp2 & _); [by rewrite Hnr|].
    exists s1, (with_xact x2 s1). split_and!; [done| | |done].
    + rewrite Hx1, Hfr. cbn. set_solver.
    + apply Hin. cbn [pg_tde_xact_callback]. by rewrite Hx1.
  - destruct (RegisterFileForDeletion_list p true (xact s) l Hrep) as (x1 & Er & Hr1 & [Hfr Hnr]).
    destruct (Hgone true x1) as (x2 & E2 & Hp2 & Hr2); [by rewrite Hnr|].
    destruct (pending_delete_cleanup_list fuel x2 _ Hr2) as (x3 & E3 & _ & [Hf3 _]).
    { unfold kept. pose proof (length_filter
        (fun e => e_level e < GetCurrentTransactionNestLevel x1) l). lia. }
    exists (with_xact x1 s), (with_xact x3 s). split_and!.
    + unfold pg_tde_delete_key_fork. rewrite Hp. by apply Hin.
    + done.
    + apply (Hin _ (with_xact x1 s)). cbn [pg_tde_xact_callback xact with_xact]. by mstep E2.
    + cbn. by rewrite Hf3.
  - destruct (RegisterFileForDeletion_list p true (xact s) l Hrep) as (x1 & Er & Hr1 & [Hfr Hnr]).
    destruct (do_pending_deletes_list fuel false x1 _ Hr1) as (x2 & E2 & _ & Hf2 & _); [cbn; lia|].
    exists (with_xact x1 s), (with_xact x2 s). split_and!.
    + unfold pg_tde_delete_key_fork. rewrite Hp. by apply Hin.
    + apply (Hin _ (with_xact x1 s)). cbn [pg_tde_xact_callback xact with_xact]. done.
    + intros Hps Hno. cbn. rewrite Hf2, Hfr. apply elem_of_difference. split; [done|].
      unfold removed. rewrite filter_cons_False by (cbn; naive_solver).
      rewrite elem_of_list_to_set, list_elem_of_fmap. intros (e & -> & He).
      apply list_elem_of_filter in He as [_ He]. apply Hno. by exists e.
Qed.

Lemma sprint_loop_spec bytes done_ d buf :
  bytes_ok bytes -> (length done_ + length bytes + 2 <= length (done_ ++ d :: buf))%nat ->
  exists d' buf', sprint_loop (done_ ++ d :: buf) (length done_) bytes =
    Some (done_ ++ ((fun b => hex_digit (b / 16)) <$> bytes) ++ d' :: buf')
    /\ length (d' :: buf') = (length (d :: buf) - length bytes)%nat.
Proof.
  intros Hb. revert done_ d buf. induction Hb as [|b bytes Hb _ IH]; intros done_ d buf Hl;
    cbn [sprint_loop fmap list_fmap]; [exists d, buf; split; [done|cbn; lia]|].
  rewrite length_app in Hl. cbn [length] in Hl.
  destruct buf as [|x [|y buf]]; cbn [length] in Hl; [lia..|].
  assert (Hs : sprintf_hex (done_ ++ d :: x :: y :: buf) (length done_) b =
    Some ((done_ ++ [hex_digit (b / 16)]) ++ hex_digit (b mod 16) :: 0 :: buf)).
  { unfold sprintf_hex. rewrite wr_bytes_Some by (rewrite ?length_app; cbn; lia).
    f_equal. unfold splice. rewrite Nat2Z.id, take_app_length.
    rewrite drop_app_add. cbn. by rewrite <- app_assoc. }
  rewrite Hs. cbn [mbind option_bind].
  replace (S (length done_)) with (length (done_ ++ [hex_digit (b / 16)]))
    by (rewrite length_app; cbn; lia).
  destruct (IH (done_ ++ [hex_digit (b / 16)]) (hex_digit (b mod 16)) (0 :: buf))
    as (d' & buf' & He & Hl').
  { rewrite !length_app. cbn. lia. }
  exists d', buf'. rewrite He, <- app_assoc. split; [done|]. cbn [length] in *. lia.
Qed.

(** The debug representation of a key: [sprintf(buf+i, "%02X")]
    advances by one character per byte instead of two, so only the high
    digit of each byte survives, and keys that differ in low digits
    print the same. *)
Theorem tde_sprint_key_high_digits buf (k : InternalKey) :
  length buf = 256%nat -> length (key k) = 16%nat -> bytes_ok (key k) ->
  0 <= start_loc k < 2 ^ 32 -> 0 <= end_loc k < 2 ^ 32 ->
  exists out, tde_sprint_key buf k = Some out /\
    take 16 out = (fun b => hex_digit (b / 16)) <$> key k.
Proof.
  intros Hbuf Hk Hb Hs He. unfold tde_sprint_key.
  destruct buf as [|d buf]; [done|].
  destruct (sprint_loop_spec (key k) [] d buf Hb) as (d' & buf' & Hl & Hlen);
    [cbn [length app] in *; lia|].
  cbn [length app] in Hl. rewrite Hl. cbn [mbind option_bind].
  set (tail := str_bytes _ ++ [0]).
  assert (Hp : forall z, 0 <= z < 2 ^ 32 -> (String.length (pretty (Z.to_N z)) <= 10)%nat).
  { intros z Hz. rewrite <- (uwrap_small 32 z) by done. apply pretty_u32_length. }
  assert (Ht : (length tail <= 30)%nat).
  { unfold tail. rewrite length_app, length_str_bytes, !str_length_app. cbn.
    rewrite ?str_length_app. cbn. rewrite ?str_length_app. cbn.
    specialize (Hp _ Hs) as H1. specialize (Hp _ He) as H2. lia. }
  set (hd := (fun b => hex_digit (b / 16)) <$> key k).
  assert (Hhd : length hd = 16%nat) by (unfold hd; by rewrite length_fmap).
  rewrite wr_bytes_Some.
  - eexists. split; [reflexivity|]. unfold splice.
    rewrite Hk. change (Z.to_nat (Z.of_nat 16)) with 16%nat.
    rewrite (take_app_length' hd) by done. by rewrite take_app_length'.
  - lia.
  - rewrite length_app, Hhd. cbn [length] in *. lia.
Qed.
End tde_claims.

(** ** Witnesses *)

Module ToyTde.
Import ToyEVP ToyPage ToyKeyring.

#[export] Instance toy_tde : TdeEnv := {|
  relpathperm := fun r => Some ("base/" +:+ pretty (Z.to_N (dbOid r)) +:+ "/"
                                +:+ pretty (Z.to_N (relNumber r)));
  open_rw_ok := fun _ => true;
  open_r_ok := fun _ => true;
  FileSize_ok := fun _ => true;
  FileRead_n := fun _ n => n;
  FileWrite_n := fun _ n => n;
  RAND_bytes := fun _ n => Some (replicate (Z.to_nat n) 7);
  stack_bytes := replicate 32 0;
|}.
#[export] Instance toy_unlink : Unlink := {| unlink_ok := fun _ => true |}.

Definition toy_addr (c : evp_ctx) : Z := 4096.
Definition toy_rel : RelFileLocator := {| spcOid := 1663; dbOid := 5; relNumber := 16384 |}.
Definition toy_path : string := "base/5/16384.tde".

Definition toy_tde_state (ks : KeyringState) : TdeState :=
  {| keyring := ks; xact := idle ∅; fork_data := ∅; wal := []; tde_rel_keys_map := [];
     keys_store := []; rand_tick := 0 |}.

Definition ks0 : KeyringState := toy_state PROVIDER_FILE "keys".
(** The keyring with version 1 of the master key. *)
Definition ks1 : KeyringState := stored_state "pre-master-key-1" kd16 ks0.

Definition toy_internal : InternalKey := new_internal_key (replicate 16 7).

Lemma toy_files_work p : files_work p.
Proof. split_and!; reflexivity. Qed.

Lemma toy_random : random_works.
Proof.
  intros tick. eexists. split_and!; [reflexivity|reflexivity|].
  apply Forall_replicate. unfold byte_ok. lia.
Qed.

Lemma ks0_usable : keyring_usable ks0.
Proof.
  split; [apply zero_cache_wf|]. split; [done|]. split; [done|].
  split; [repeat split; discriminate|]. split; [constructor|].
  split; [discriminate|]. split; [done|]. unfold MAX_CACHE_ENTRIES. cbn. lia.
Qed.

Lemma ks1_usable : keyring_usable ks1.
Proof.
  split; [apply cache_push_wf; [apply zero_cache_wf|unfold MAX_CACHE_ENTRIES; cbn; lia]|].
  split; [done|]. split; [done|].
  split; [repeat split; discriminate|]. split; [vm_compute; repeat constructor|].
  split; [discriminate|]. split; [done|]. unfold MAX_CACHE_ENTRIES. cbn. lia.
Qed.

Lemma toy_internal_wf : InternalKey_wf toy_internal.
Proof. by apply new_internal_key_wf. Qed.
End ToyTde.

Section witnesses.
Import ToyEVP ToyPage ToyKeyring ToyTde.

Lemma key_fork_roundtrip_witness :
  exists s1 master ptr,
    pg_tde_write_key_fork toy_addr toy_g 5 toy_rel toy_internal MasterKeyName
      (toy_tde_state ks0) = (Ret tt, s1) /\
    GetRelationKeys toy_g toy_rel s1 = (Ret ptr, s1) /\
    keys_store s1 !! ptr = Some (fork_keys master toy_internal) /\
    forall t, keyring t = keyring s1 -> toy_path ∈ files (xact t) ->
      fork_data t !! toy_path = fork_data s1 !! toy_path ->
      exists ptr' t', pg_tde_get_keys_from_fork toy_g toy_rel t = (Ret ptr', t') /\
        keys_store t' !! ptr' = Some (fork_keys master toy_internal).
Proof.
  apply (key_fork_roundtrip toy_addr toy_g 5 toy_rel toy_internal (toy_tde_state ks0) toy_path).
  - apply toy_g_ready.
  - apply ks0_usable.
  - apply toy_random.
  - reflexivity.
  - apply toy_files_work.
  - reflexivity.
  - apply toy_internal_wf.
  - apply Forall_replicate. unfold byte_ok. lia.
  - change (0 <= 304)%nat. lia.
Defined.

Lemma redo_reproduces_key_fork_witness :
  exists s1 t1 record b,
    pg_tde_create_key_fork toy_addr toy_g 5 toy_rel (toy_tde_state ks1) = (Ret tt, s1) /\
    wal s1 = [] ++ [record] /\
    RAND_bytes 0 16 = Some b /\ take 16 (drop 12 (xl_data record)) = b /\
    pg_tde_rmgr_redo toy_addr toy_g 5 record (toy_tde_state ks1) = (Ret tt, t1) /\
    toy_path ∈ files (xact t1) /\ fork_data t1 !! toy_path = fork_data s1 !! toy_path.
Proof.
  apply (redo_reproduces_key_fork toy_addr toy_g 5 toy_rel (toy_tde_state ks1)
           (toy_tde_state ks1) toy_path).
  - apply toy_g_ready.
  - apply ks1_usable.
  - vm_compute. by eexists.
  - apply toy_random.
  - reflexivity.
  - apply toy_files_work.
  - reflexivity.
  - unfold locator_ok. cbn. lia.
  - reflexivity.
  - reflexivity.
Defined.

Definition cached_state : TdeState :=
  with_map [{| rel_id := 16384; rk_keys := 0 |}] (toy_tde_state ks0).

Lemma GetRelationKeys_by_number_witness :
  GetRelationKeys toy_g {| spcOid := 1664; dbOid := 6; relNumber := 16384 |} cached_state
    = (Ret 0%nat, cached_state).
Proof.
  apply (GetRelationKeys_by_number toy_g toy_rel _ cached_state cached_state 0);
    reflexivity.
Defined.

Definition short_fork_state : TdeState :=
  with_fork_data {[toy_path := replicate 300 0]}
    (with_xact (with_disk {[toy_path]} (idle ∅)) (toy_tde_state ks0)).

Lemma key_fork_size_checked_witness :
  pg_tde_get_keys_from_fork toy_g toy_rel short_fork_state = (Raise FATAL, short_fork_state).
Proof.
  apply (key_fork_size_checked toy_g toy_rel short_fork_state toy_path (replicate 300 0)).
  - apply toy_files_work.
  - reflexivity.
  - cbn. apply elem_of_singleton. reflexivity.
  - reflexivity.
  - cbn. lia.
  - intros (k & Hk & H). revert H. cbn. unfold SizeOfRelKeysData, SizeOfRelKeysDataHeader,
      MASTER_KEY_NAME_LEN, sizeof_InternalKey, INTERNAL_KEY_LEN, sizeof_Size. lia.
Defined.

Definition toy_record : XLogRecord := {| xl_info := 32; xl_data := [] |}.

Lemma rmgr_rejects_witness :
  (pg_tde_rmgr_identify 32 = None <-> 16 <= 32) /\
  (16 <= 32 -> pg_tde_rmgr_redo toy_addr toy_g 5 toy_record (toy_tde_state ks0)
               = (Raise PANIC, toy_tde_state ks0)) /\
  (32 < 16 -> Z.of_nat (length (@nil Z)) < 52 ->
   pg_tde_rmgr_redo toy_addr toy_g 5 toy_record (toy_tde_state ks0)
     = (Raise FATAL, toy_tde_state ks0)).
Proof.
  apply (rmgr_rejects toy_addr toy_g 5 toy_record (toy_tde_state ks0)). cbn. lia.
Defined.

Lemma key_fork_follows_transaction_witness :
  (exists s1 s2, pg_tde_create_key_fork toy_addr toy_g 5 toy_rel (toy_tde_state ks0)
       = (Ret tt, s1) /\
     toy_path ∈ files (xact s1) /\
     in_xact (pg_tde_xact_callback 5 XACT_EVENT_ABORT) s1 = (Ret tt, s2) /\
     toy_path ∉ files (xact s2)) /\
  (exists s1 s2, pg_tde_delete_key_fork toy_rel (toy_tde_state ks0) = (Ret tt, s1) /\
     files (xact s1) = ∅ /\
     in_xact (pg_tde_xact_callback 5 XACT_EVENT_COMMIT) s1 = (Ret tt, s2) /\
     toy_path ∉ files (xact s2)) /\
  (exists s1 s2, pg_tde_delete_key_fork toy_rel (toy_tde_state ks0) = (Ret tt, s1) /\
     in_xact (pg_tde_xact_callback 5 XACT_EVENT_ABORT) s1 = (Ret tt, s2) /\
     (toy_path ∈ (∅ : gset string) -> ~ (exists e, e ∈ [] /\ e_path e = toy_path) ->
      toy_path ∈ files (xact s2))).
Proof.
  apply (key_fork_follows_transaction toy_addr toy_g 5 toy_rel (toy_tde_state ks0) toy_path []).
  - apply toy_g_ready.
  - apply ks0_usable.
  - apply toy_random.
  - reflexivity.
  - apply toy_files_work.
  - reflexivity.
  - reflexivity.
  - apply idle_represents.
  - cbn. lia.
Defined.

Lemma tde_sprint_key_high_digits_witness :
  exists out, tde_sprint_key (replicate 256 0) toy_internal = Some out /\
    take 16 out = (fun b => hex_digit (b / 16)) <$> replicate 16 7.
Proof.
  apply (tde_sprint_key_high_digits (replicate 256 0) toy_internal).
  - reflexivity.
  - reflexivity.
  - apply Forall_replicate. unfold byte_ok. lia.
  - cbn. lia.
  - cbn. lia.
Defined.
End witnesses.
