(* ===== verification/TupleIO.v ===== *)
(** Tuples entering and leaving pages: the functions of
    src/src/encryption/enc_tuple.c that combine the page layer, the keys
    cache and the position-based encryption. *)
From S2P Require Import Prelude EncAes RelKeys EncTuple KeyringTypes KeyringApi XactHandler TdeMap.

Definition InvalidOffsetNumber : Z := 0.
(** [relkind] of TOAST tables, ['t']. *)
Definition RELKIND_TOASTVALUE : Z := 116.

(** [pd_upper] of a page header, and [t_hoff] of a tuple header, at their
    offsets in page.h and htup_details.h. *)
Definition pd_upper (page : list Z) : Z := le_value (take 2 (drop 14 page)).
Definition item_t_hoff (item : list Z) : option Z := rd item 22.

(** [PageAddItemExtended] of PostgreSQL: the offset number of the new line
    pointer and the page afterwards. *)
Class PageOps := {
  PageAddItemExtended : list Z -> list Z -> Z -> Z -> Z -> Z * list Z
}.

(** What the code relies on: on success the item is at the new [pd_upper];
    on failure the page is as it was. *)
Class PageOpsLaws `{PgBlockSize} `{PageOps} := {
  PageAddItem_success page item size off flags off' page' :
    PageAddItemExtended page item size off flags = (off', page') ->
    length page = Z.to_nat BLCKSZ -> size = Z.of_nat (length item) ->
    off' <> InvalidOffsetNumber ->
    length page' = Z.to_nat BLCKSZ /\ 24 <= pd_upper page' /\ pd_upper page' + size <= BLCKSZ /\
    take (length item) (drop (Z.to_nat (pd_upper page')) page') = item;
  PageAddItem_failure page item size off flags page' :
    PageAddItemExtended page item size off flags = (InvalidOffsetNumber, page') -> page' = page;
}.

Section tuple_io.
Context `{HE : EVP} `{HS : CIntShift}.
Context `{HJ : Json} `{HB : Base64} `{HC : Curl} `{HF : KeyringFs}.
Context `{HT : TdeEnv} `{HP : PgBlockSize} `{HO : PageOps}.
Variable g : AesGlobals.

Local Abbreviation MT := (M TdeState).

(** Run the encryption on the key structure a pointer refers to: the
    contexts it caches stay in that structure. *)
Definition with_keys {A} (ptr : nat) (m : M RelKeysData A) : MT A := fun s =>
  match keys_store s !! ptr with
  | Some d => let '(r, d') := m d in (r, with_store (<[ptr := d']> (keys_store s)) s)
  | None => (Undefined, s)
  end.

(** The offset number and the page. *)
Definition PGTdePageAddItemExtended (rel : RelFileLocator) (bn : Z) (page item : list Z)
  (size offsetNumber flags : Z) : MT (Z * list Z) :=
  let '(off, page) := PageAddItemExtended page item size offsetNumber flags in
  let* header_size := defined (item_t_hoff item) in
  let toAddr := pd_upper page + header_size in
  let data := drop (Z.to_nat header_size) item in
  let offset_in_page := pd_upper page in
  let data_len := u32 (size - header_size) in
  let* keys := GetRelationKeys g rel in
  let* page' := with_keys keys
                  (PG_TDE_ENCRYPT_PAGE_ITEM g bn offset_in_page data data_len page toAddr) in
  ret (off, page').

(** [heap_copytuple]: the copy is at an address [copy_at] of its own. *)
Definition heap_copytuple (copy_at : Z) (tuple : HeapTupleData) : HeapTupleData :=
  {| t_len := t_len tuple; t_at := copy_at; t_hoff := t_hoff tuple; t_data := t_data tuple |}.

(** Both store functions: the tuple that is put in the slot, which is also
    what the caller's tuple refers to afterwards. *)
Definition PGTdeExecStoreBufferHeapTuple (relkind : Z) (rd_locator : RelFileLocator)
  (copy_at blockno : Z) (tuple : HeapTupleData) : MT HeapTupleData :=
  if negb (relkind =? RELKIND_TOASTVALUE) then
    let* keys := GetRelationKeys g rd_locator in
    let decrypted_tuple := heap_copytuple copy_at tuple in
    let* decrypted := with_keys keys (pg_tde_crypt_tuple g blockno tuple decrypted_tuple) in
    ret {| t_len := t_len tuple; t_at := copy_at; t_hoff := t_hoff tuple; t_data := decrypted |}
  else ret tuple.

Definition PGTdeExecStorePinnedBufferHeapTuple (relkind : Z) (rd_locator : RelFileLocator)
  (copy_at blockno : Z) (tuple : HeapTupleData) : MT HeapTupleData :=
  if negb (relkind =? RELKIND_TOASTVALUE) then
    let* keys := GetRelationKeys g rd_locator in
    let decrypted_tuple := heap_copytuple copy_at tuple in
    let* decrypted := with_keys keys (pg_tde_crypt_tuple g blockno tuple decrypted_tuple) in
    ret {| t_len := t_len tuple; t_at := copy_at; t_hoff := t_hoff tuple; t_data := decrypted |}
  else ret tuple.

Context `{HL : !EVPLaws} `{HBL : !PgBlockSizeLaws} `{HOL : !PageOpsLaws}.
Implicit Types s t : TdeState.

(** The keys of a relation are cached and usable. *)
Definition rel_keys_ready s (rel : RelFileLocator) (k : list Z) : Prop :=
  exists ptr d, map_scan (tde_rel_keys_map s) (relNumber rel) = Some ptr
    /\ keys_store s !! ptr = Some d /\ keys_ready d k.

Lemma GetRelationKeys_cached rel s ptr :
  map_scan (tde_rel_keys_map s) (relNumber rel) = Some ptr ->
  GetRelationKeys g rel s = (Ret ptr, s).
Proof. intros H. unfold GetRelationKeys, bind, get. by rewrite H. Qed.

Lemma with_keys_Ret {A} ptr (m : M RelKeysData A) s d a d' :
  keys_store s !! ptr = Some d -> m d = (Ret a, d') ->
  with_keys ptr m s = (Ret a, with_store (<[ptr := d']> (keys_store s)) s).
Proof. intros H Hm. unfold with_keys. by rewrite H, Hm. Qed.

(** The new page of [PGTdePageAddItemExtended], when the item fits. *)
Definition encrypted_item (k : list Z) (bn at_ h : Z) (item : list Z) : list Z :=
  take (Z.to_nat h) item ++ stream_xor k (bn * BLCKSZ + at_) (drop (Z.to_nat h) item).

Lemma PGTdePageAddItemExtended_spec rel bn page item size offsetNumber flags off page1 k h s :
  aes_initialized g -> rel_keys_ready s rel k ->
  PageAddItemExtended page item size offsetNumber flags = (off, page1) ->
  off <> InvalidOffsetNumber -> length page = Z.to_nat BLCKSZ ->
  size = Z.of_nat (length item) -> item_t_hoff item = Some h -> 0 <= h <= size ->
  0 <= bn -> bn * BLCKSZ < 2 ^ 32 ->
  exists page2 s2,
    PGTdePageAddItemExtended rel bn page item size offsetNumber flags s = (Ret (off, page2), s2)
    /\ page2 = splice page1 (Z.to_nat (pd_upper page1)) (encrypted_item k bn (pd_upper page1) h item)
    /\ length page2 = Z.to_nat BLCKSZ /\ rel_keys_ready s2 rel k.
Proof.
  intros Hg (ptr & d & Hscan & Hst & Hr) Hadd Hoff Hpl Hsize Hh Hhr Hbn Hbn4.
  pose proof BLCKSZ_range as Hsz.
  destruct (PageAddItem_success _ _ _ _ _ _ _ Hadd Hpl Hsize Hoff) as (Hl1 & Hu & Hend & Hat).
  set (u := pd_upper page1) in *.
  unfold PGTdePageAddItemExtended. rewrite Hadd, Hh. cbn [defined]. rewrite bind_ret_l.
  mstep (GetRelationKeys_cached rel s ptr Hscan). fold u.
  rewrite (uwrap_small 32) by lia.
  set (data := drop (Z.to_nat h) item).
  assert (Hdl : length data = Z.to_nat (size - h)) by (unfold data; rewrite length_drop; lia).
  set (dst := take (Z.to_nat (size - h)) (drop (Z.to_nat (u + h)) page1)).
  assert (Hdst : length dst = Z.to_nat (size - h))
    by (unfold dst; rewrite length_take, length_drop; lia).
  destruct (pg_tde_crypt_spec g k (bn * BLCKSZ + u) (size - h) data dst d)
    as (d' & Hc & Hr' & Hs'); [done|done|unfold crypt_bounds; lia|lia|lia|].
  rewrite take_ge, (drop_ge dst), app_nil_r in Hc by lia.
  set (enc := stream_xor k (bn * BLCKSZ + u) data) in *.
  assert (Henc : length enc = Z.to_nat (size - h)) by (unfold enc; by rewrite length_stream_xor).
  assert (Hm : PG_TDE_ENCRYPT_PAGE_ITEM g bn u data (size - h) page1 (u + h) d =
    (Ret (splice page1 (Z.to_nat (u + h)) enc), d')).
  { unfold PG_TDE_ENCRYPT_PAGE_ITEM. rewrite rd_bytes_Some by lia. cbn [defined].
    rewrite bind_ret_l. rewrite offset_in_file_small by lia. fold dst. mstep Hc.
    by rewrite wr_bytes_Some by lia. }
  mstep (with_keys_Ret ptr _ s d _ d' Hst Hm).
  eexists _, _. split; [reflexivity|]. split_and!.
  - unfold encrypted_item. fold data enc.
    rewrite <- splice_adjacent by (rewrite length_take; lia).
    rewrite length_take. replace (Z.to_nat u + _ `min` _)%nat with (Z.to_nat (u + h)) by lia.
    f_equal. symmetry. apply list_eq. intros i.
    destruct (decide (Z.to_nat u <= i < Z.to_nat u + Z.to_nat h)%nat) as [Hi|Hi].
    + rewrite lookup_splice_in by (rewrite length_take; lia).
      rewrite lookup_take_lt by lia. rewrite <- Hat at 1.
      rewrite lookup_take_lt by lia. rewrite lookup_drop. f_equal. lia.
    + apply lookup_splice_out; rewrite length_take; lia.
  - rewrite length_splice; lia.
  - exists ptr, d'. split_and!; [done| |done]. cbn. apply list_lookup_insert_eq.
    by eapply lookup_lt_Some.
Qed.

Lemma PGTdeExecStore_spec relkind rel copy_at bn (tuple : HeapTupleData) k s :
  aes_initialized g -> rel_keys_ready s rel k -> relkind <> RELKIND_TOASTVALUE ->
  t_len tuple = Z.of_nat (length (t_data tuple)) -> 0 <= t_hoff tuple <= t_len tuple ->
  0 <= bn -> bn * BLCKSZ < 2 ^ 32 -> 0 <= t_at tuple -> t_at tuple + t_len tuple <= BLCKSZ ->
  exists s',
    PGTdeExecStoreBufferHeapTuple relkind rel copy_at bn tuple s =
      (Ret {| t_len := t_len tuple; t_at := copy_at; t_hoff := t_hoff tuple;
              t_data := encrypted_item k bn (t_at tuple) (t_hoff tuple) (t_data tuple) |}, s')
    /\ rel_keys_ready s' rel k.
Proof.
  intros Hg (ptr & d & Hscan & Hst & Hr) Hk Hlen Hh Hb Hbn Ha Hat.
  unfold PGTdeExecStoreBufferHeapTuple. rewrite (proj2 (Z.eqb_neq _ _)) by done. cbn [negb].
  mstep (GetRelationKeys_cached rel s ptr Hscan).
  destruct (pg_tde_crypt_tuple_spec g k bn tuple (t_data tuple) d)
    as (d' & E & Hr' & _); [done..|].
  unfold heap_copytuple.
  assert (E' : pg_tde_crypt_tuple g bn tuple {| t_len := t_len tuple; t_at := copy_at;
      t_hoff := t_hoff tuple; t_data := t_data tuple |} d =
    (Ret (encrypted_item k bn (t_at tuple) (t_hoff tuple) (t_data tuple)), d')) by exact E.
  mstep (with_keys_Ret ptr _ s d _ d' Hst E').
  eexists. split; [reflexivity|]. exists ptr, d'. split_and!; [done| |done].
  cbn. apply list_lookup_insert_eq. by eapply lookup_lt_Some.
Qed.

(** Encrypting twice at one position gives the item back. *)
Lemma encrypted_item_involutive k bn at_ h item :
  0 <= h <= Z.of_nat (length item) ->
  encrypted_item k bn at_ h (encrypted_item k bn at_ h item) = item.
Proof.
  intros Hh. unfold encrypted_item.
  assert (Hl : length (take (Z.to_nat h) item) = Z.to_nat h) by (rewrite length_take; lia).
  rewrite take_app_length', drop_app_length' by done.
  rewrite stream_xor_involutive. apply take_drop.
Qed.

Lemma length_encrypted_item k bn at_ h item :
  length (encrypted_item k bn at_ h item) = length item.
Proof.
  unfold encrypted_item. rewrite length_app, length_stream_xor, <- length_app.
  by rewrite take_drop.
Qed.
End tuple_io.
