(* ===== verification/TupleClaims.v ===== *)
(** The properties of storing tuples on pages and fetching them. *)
From S2P Require Import Prelude EncAes RelKeys EncTuple KeyringTypes KeyringApi KeyringClaims XactHandler TdeMap TdeClaims TupleIO.

Section tuple_claims.
Context `{HE : EVP} `{HS : CIntShift} `{HL : !EVPLaws}.
Context `{HJ : Json} `{HB : Base64} `{HC : Curl} `{HF : KeyringFs}.
Context `{HT : TdeEnv} `{HP : PgBlockSize} `{HO : PageOps}.
Context `{HBL : !PgBlockSizeLaws} `{HOL : !PageOpsLaws}.
Variable g : AesGlobals.

(** C7: what is stored is what is read: a tuple added to page [bn] by
    [PGTdePageAddItemExtended] lies on the page with its header in the
    clear and its data encrypted, and the tuple that both slot functions
    produce from those bytes is the tuple that was added. *)
Theorem add_item_then_fetch rel bn page item offsetNumber flags off page1 k h s relkind copy_at :
  aes_initialized g -> rel_keys_ready s rel k ->
  PageAddItemExtended page item (Z.of_nat (length item)) offsetNumber flags = (off, page1) ->
  off <> InvalidOffsetNumber -> length page = Z.to_nat BLCKSZ ->
  item_t_hoff item = Some h -> 0 <= h <= Z.of_nat (length item) ->
  0 <= bn -> bn * BLCKSZ < 2 ^ 32 -> relkind <> RELKIND_TOASTVALUE ->
  exists page2 s2 stored,
    PGTdePageAddItemExtended g rel bn page item (Z.of_nat (length item)) offsetNumber flags s
      = (Ret (off, page2), s2) /\
    rd_bytes page2 (pd_upper page1) (Z.of_nat (length item)) = Some stored /\
    take (Z.to_nat h) stored = take (Z.to_nat h) item /\
    drop (Z.to_nat h) stored = stream_xor k (bn * BLCKSZ + pd_upper page1) (drop (Z.to_nat h) item) /\
    let tuple := {| t_len := Z.of_nat (length item); t_at := pd_upper page1; t_hoff := h;
                    t_data := stored |} in
    let fetched := {| t_len := Z.of_nat (length item); t_at := copy_at; t_hoff := h;
                      t_data := item |} in
    (exists s3, PGTdeExecStoreBufferHeapTuple g relkind rel copy_at bn tuple s2
                  = (Ret fetched, s3)) /\
    (exists s3, PGTdeExecStorePinnedBufferHeapTuple g relkind rel copy_at bn tuple s2
                  = (Ret fetched, s3)).
Proof.
  intros Hg Hr Hadd Hoff Hpl Hh Hhr Hbn Hbn4 Hk.
  destruct (PGTdePageAddItemExtended_spec g rel bn page item (Z.of_nat (length item))
    offsetNumber flags off page1 k h s) as (page2 & s2 & E & Hp2 & Hl2 & Hr2); [done..|].
  destruct (PageAddItem_success _ _ _ _ _ _ _ Hadd Hpl eq_refl Hoff) as (Hl1 & Hu & Hend & _).
  set (stored := encrypted_item k bn (pd_upper page1) h item).
  assert (Hsl : length stored = length item) by apply length_encrypted_item.
  exists page2, s2, stored. split; [done|]. split_and!.
  - rewrite rd_bytes_Some by lia. f_equal. rewrite Hp2. unfold splice. fold stored.
    rewrite drop_app_length' by (rewrite length_take; lia).
    by rewrite take_app_length' by lia.
  - unfold stored, encrypted_item. by rewrite take_app_length' by (rewrite length_take; lia).
  - unfold stored, encrypted_item. by rewrite drop_app_length' by (rewrite length_take; lia).
  - destruct (PGTdeExecStore_spec g relkind rel copy_at bn
      {| t_len := Z.of_nat (length item); t_at := pd_upper page1; t_hoff := h; t_data := stored |}
      k s2) as (s3 & E3 & _); try done; cbn [t_len t_at t_hoff t_data]; try lia.
    cbn [t_len t_at t_hoff t_data] in E3. unfold stored in E3 at 2.
    rewrite encrypted_item_involutive in E3 by done.
    cbn zeta. split; exists s3; exact E3.
Qed.

(** the encryption does not look at whether the item was added: when
    [PageAddItemExtended] refuses it, the bytes at the old [pd_upper] -
    those of the tuple stored last - are overwritten with encrypted data
    of the refused item, and on a page without tuples ([pd_upper] at its
    end) the write goes past the page. *)
Theorem refused_item_overwrites rel bn page item offsetNumber flags k h s :
  aes_initialized g -> rel_keys_ready s rel k ->
  PageAddItemExtended page item (Z.of_nat (length item)) offsetNumber flags
    = (InvalidOffsetNumber, page) ->
  length page = Z.to_nat BLCKSZ -> item_t_hoff item = Some h ->
  0 <= h < Z.of_nat (length item) -> Z.of_nat (length item) <= BLCKSZ ->
  0 <= bn -> bn * BLCKSZ < 2 ^ 32 -> 0 <= pd_upper page ->
  (pd_upper page + Z.of_nat (length item) <= BLCKSZ ->
   exists s', PGTdePageAddItemExtended g rel bn page item (Z.of_nat (length item))
                offsetNumber flags s =
     (Ret (InvalidOffsetNumber,
           splice page (Z.to_nat (pd_upper page + h))
             (stream_xor k (bn * BLCKSZ + pd_upper page) (drop (Z.to_nat h) item))), s')) /\
  (pd_upper page = BLCKSZ ->
   fst (PGTdePageAddItemExtended g rel bn page item (Z.of_nat (length item))
          offsetNumber flags s) = Undefined).
Proof.
  intros Hg (ptr & d & Hscan & Hst & Hr) Hadd Hpl Hh Hhr Hil Hbn Hbn4 Hu.
  pose proof BLCKSZ_range as Hsz. unfold PGTdePageAddItemExtended. rewrite Hadd, Hh.
  cbn [defined]. rewrite (bind_ret_l h).
  rewrite (bind_Ret _ _ _ _ _ (GetRelationKeys_cached g rel s ptr Hscan)).
  rewrite (uwrap_small 32) by lia. split.
  - intros Hfit. set (data := drop (Z.to_nat h) item).
    assert (Hdl : length data = Z.to_nat (Z.of_nat (length item) - h))
      by (unfold data; rewrite length_drop; lia).
    set (n := Z.of_nat (length item) - h) in *. set (u := pd_upper page) in *.
    set (dst := take (Z.to_nat n) (drop (Z.to_nat (u + h)) page)).
    assert (Hdst : length dst = Z.to_nat n)
      by (unfold dst; rewrite length_take, length_drop; lia).
    destruct (pg_tde_crypt_spec g k (bn * BLCKSZ + u) n data dst d)
      as (d' & Hc & _ & _); [done|done|unfold crypt_bounds; lia|lia|lia|].
    rewrite take_ge, (drop_ge dst), app_nil_r in Hc by lia.
    assert (Hm : PG_TDE_ENCRYPT_PAGE_ITEM g bn u data n page (u + h) d =
      (Ret (splice page (Z.to_nat (u + h)) (stream_xor k (bn * BLCKSZ + u) data)), d')).
    { unfold PG_TDE_ENCRYPT_PAGE_ITEM. rewrite rd_bytes_Some by lia. cbn [defined].
      rewrite bind_ret_l. rewrite offset_in_file_small by lia. fold dst. mstep Hc.
      by rewrite wr_bytes_Some by (rewrite ?length_stream_xor; lia). }
    mstep (with_keys_Ret ptr _ s d _ d' Hst Hm). by eexists.
  - intros Hend. unfold bind, with_keys. rewrite Hst.
    unfold PG_TDE_ENCRYPT_PAGE_ITEM, bind, rd_bytes.
    rewrite (proj2 (Z.leb_gt (pd_upper page + h + _) _)) by lia.
    rewrite andb_false_r. reflexivity.
Qed.
End tuple_claims.

(** ** Witnesses *)

Module ToyPages.
Import ToyEVP ToyPage.

(** A page layer that puts the item below the ones that are there. *)
Definition toy_add (page item : list Z) (size off flags : Z) : Z * list Z :=
  let u := pd_upper page - size in
  if (24 <=? u) && (pd_upper page <=? 8192) && (size =? Z.of_nat (length item))
  then (1, splice (splice page 14 (le_bytes 2 u)) (Z.to_nat u) item)
  else (0, page).

#[export] Instance toy_pages : PageOps := {| PageAddItemExtended := toy_add |}.

#[export] Instance toy_pages_laws : PageOpsLaws.
Proof.
  split.
  - intros page item size off flags off' page' H Hl Hs Hne. cbn in H, Hl.
    change (Z.to_nat 8192) with (Z.to_nat 8192) in *.
    unfold toy_add in H. set (u := pd_upper page - size) in *.
    destruct (Z.leb_spec 24 u); [|by cbn in H; simplify_eq].
    destruct (Z.leb_spec (pd_upper page) 8192); [|by cbn in H; simplify_eq].
    destruct (size =? Z.of_nat (length item)); cbn [andb] in H; simplify_eq.
    set (p1 := splice page 14 (le_bytes 2 u)).
    assert (Hp1 : length p1 = length page)
      by (unfold p1; apply length_splice; rewrite length_le_bytes; lia).
    assert (Hfit : (Z.to_nat u + length item <= length p1)%nat) by (unfold u in *; lia).
    assert (Hup : pd_upper (splice p1 (Z.to_nat u) item) = u).
    { unfold pd_upper. replace (take 2 (drop 14 (splice p1 (Z.to_nat u) item))) with (le_bytes 2 u).
      - apply le_value_bytes. cbn. unfold u in *. lia.
      - apply list_eq. intros i. destruct (decide (i < 2)%nat) as [Hi|Hi].
        + rewrite lookup_take_lt, lookup_drop, lookup_splice_out by lia.
          unfold p1. rewrite lookup_splice_in by (rewrite length_le_bytes; lia).
          f_equal. lia.
        + rewrite !lookup_ge_None_2; [done| |rewrite length_le_bytes; lia].
          rewrite length_take. lia. }
    rewrite Hup. split_and!.
    + rewrite length_splice by done. by rewrite Hp1.
    + done.
    + cbn. unfold u in *. lia.
    + unfold splice. rewrite drop_app_length' by (rewrite length_take; lia).
      by rewrite take_app_length'.
  - intros page item size off flags page' H. cbn in H. unfold toy_add in H.
    by destruct ((24 <=? _) && _ && _); cbn in H; simplify_eq.
Defined.
End ToyPages.

Section witnesses.
Import ToyEVP ToyPage ToyKeyring ToyTde ToyPages.

(** An empty page, a 30-byte item with [t_hoff] 24, cached keys. *)
Definition page0 : list Z := splice (replicate (Z.to_nat 8192) 0) 14 (le_bytes 2 8192).
Definition item0 : list Z := replicate 22 0 ++ [24; 0; 1; 2; 3; 4; 5; 6].
Definition keyed_state : TdeState :=
  with_map [{| rel_id := 16384; rk_keys := 0 |}]
    (with_store [toy_keys] (toy_tde_state ks0)).

Lemma keyed_state_ready : rel_keys_ready keyed_state toy_rel toy_k.
Proof. exists 0%nat, toy_keys. split_and!; [done|done|apply toy_keys_ready]. Qed.

Definition page1_0 : list Z := snd (PageAddItemExtended page0 item0 30 0 0).

Lemma add_item_then_fetch_witness :
  exists page2 s2 stored,
    PGTdePageAddItemExtended toy_g toy_rel 3 page0 item0 30 0 0 keyed_state
      = (Ret (1, page2), s2) /\
    rd_bytes page2 (pd_upper page1_0) 30 = Some stored /\
    take 24 stored = take 24 item0 /\
    drop 24 stored = stream_xor toy_k (3 * BLCKSZ + pd_upper page1_0) (drop 24 item0) /\
    let tuple := {| t_len := 30; t_at := pd_upper page1_0; t_hoff := 24; t_data := stored |} in
    let fetched := {| t_len := 30; t_at := 0; t_hoff := 24; t_data := item0 |} in
    (exists s3, PGTdeExecStoreBufferHeapTuple toy_g 114 toy_rel 0 3 tuple s2
                  = (Ret fetched, s3)) /\
    (exists s3, PGTdeExecStorePinnedBufferHeapTuple toy_g 114 toy_rel 0 3 tuple s2
                  = (Ret fetched, s3)).
Proof.
  apply (add_item_then_fetch toy_g toy_rel 3 page0 item0 0 0 1 page1_0 toy_k 24 keyed_state 114 0).
  - apply toy_g_ready.
  - apply keyed_state_ready.
  - vm_compute. reflexivity.
  - discriminate.
  - vm_compute. reflexivity.
  - reflexivity.
  - cbn. lia.
  - lia.
  - cbn. lia.
  - discriminate.
Defined.

Lemma refused_item_overwrites_witness :
  let page := splice page0 14 (le_bytes 2 40) in
  (pd_upper page + 30 <= BLCKSZ ->
   exists s', PGTdePageAddItemExtended toy_g toy_rel 3 page item0 30 0 0 keyed_state =
     (Ret (InvalidOffsetNumber,
           splice page (Z.to_nat (pd_upper page + 24))
             (stream_xor toy_k (3 * BLCKSZ + pd_upper page) (drop 24 item0))), s')) /\
  (pd_upper page = BLCKSZ ->
   fst (PGTdePageAddItemExtended toy_g toy_rel 3 page item0 30 0 0 keyed_state) = Undefined).
Proof.
  apply (refused_item_overwrites toy_g toy_rel 3 (splice page0 14 (le_bytes 2 40)) item0 0 0
           toy_k 24 keyed_state).
  - apply toy_g_ready.
  - apply keyed_state_ready.
  - vm_compute. reflexivity.
  - vm_compute. reflexivity.
  - reflexivity.
  - cbn. lia.
  - cbn. lia.
  - lia.
  - cbn. lia.
  - vm_compute. discriminate.
Defined.
End witnesses.
