(* ===== verification/Visibility.v ===== *)
(** Tuple visibility: src/src/access/pg_tdeam_visibility.c.

    Each routine reads the tuple header, asks PostgreSQL about the
    transactions it names, may set hint bits in the header, and returns a
    verdict.  Other backends go on running: every question is asked at a
    later moment than the one before ([clock]), and the answers may change
    from one moment to the next as far as [WorldLaws] allows. *)
From S2P Require Import Prelude.

(** The fields of a tuple header the routines use. *)
Record HeapTupleHeader := {
  t_xmin : Z;
  t_xmax : Z;
  t_field3 : Z;        (** command id or xvac *)
  t_ctid : Z * Z;
  t_infomask : Z;
}.

Inductive SnapshotType :=
| SNAPSHOT_MVCC | SNAPSHOT_SELF | SNAPSHOT_ANY | SNAPSHOT_TOAST | SNAPSHOT_DIRTY
| SNAPSHOT_HISTORIC_MVCC | SNAPSHOT_NON_VACUUMABLE.

Record Snapshot := {
  snapshot_type : SnapshotType;
  sn_xmin : Z; sn_xmax : Z;
  xip : list Z; xcnt : Z;
  subxip : list Z; subxcnt : Z;
  curcid : Z;
}.

Inductive TM_Result :=
| TM_Ok | TM_Invisible | TM_SelfModified | TM_Updated | TM_Deleted | TM_BeingModified | TM_WouldBlock.

Inductive HTSV_Result :=
| HEAPTUPLE_DEAD | HEAPTUPLE_LIVE | HEAPTUPLE_RECENTLY_DEAD
| HEAPTUPLE_INSERT_IN_PROGRESS | HEAPTUPLE_DELETE_IN_PROGRESS.

#[export] Instance TM_Result_eq_dec : EqDecision TM_Result.
Proof. solve_decision. Defined.
#[export] Instance HTSV_Result_eq_dec : EqDecision HTSV_Result.
Proof. solve_decision. Defined.

(** [infomask & flag] as a condition. *)
Definition has (m f : Z) : bool := negb (Z.land m f =? 0).

(** htup_details.h: the flags of [t_infomask] and the macros over it. *)
Class HtupFlags := {
  HEAP_XMIN_COMMITTED : Z;
  HEAP_XMIN_INVALID : Z;
  HEAP_XMAX_COMMITTED : Z;
  HEAP_XMAX_INVALID : Z;
  HEAP_MOVED_OFF : Z;
  HEAP_MOVED_IN : Z;
  HEAP_XMAX_IS_MULTI : Z;
  HEAP_XMAX_LOCK_ONLY : Z;
  InvalidTransactionId : Z;
  FrozenTransactionId : Z;
  InvalidCommandId : Z;
  XminCommitted : Z -> bool;
  XminInvalid : Z -> bool;
  XminFrozen : Z -> bool;
  HEAP_XMAX_IS_LOCKED_ONLY : Z -> bool;
  HEAP_LOCKED_UPGRADED : Z -> bool;
  HeapTupleHeaderIsSpeculative : HeapTupleHeader -> bool;
  HeapTupleHeaderGetSpeculativeToken : HeapTupleHeader -> Z;
}.

(** The transaction machinery, over time where the answer can change. *)
Class World := {
  TransactionIdIsCurrentTransactionId : Z -> bool;
  TransactionIdIsInProgress : nat -> Z -> bool;
  TransactionIdDidCommit : nat -> Z -> bool;
  MultiXactIdIsRunning : nat -> Z -> bool -> bool;
  (** the updating member of the multixact in [xmax] *)
  HeapTupleGetUpdateXid : HeapTupleHeader -> Z;
  HeapTupleHeaderGetXvac : HeapTupleHeader -> Z;
  HeapTupleHeaderGetCmin : HeapTupleHeader -> Z;
  HeapTupleHeaderGetCmax : HeapTupleHeader -> Z;
  HeapTupleHeaderGetUpdateXid : HeapTupleHeader -> Z;
  TransactionIdGetCommitLSN : nat -> Z -> Z;
  XLogNeedsFlush : nat -> Z -> bool;
  BufferIsPermanent : bool;
  BufferGetLSNAtomic : nat -> Z;
  XidInMVCCSnapshot : Z -> Snapshot -> bool;
  TransactionIdPrecedes : Z -> Z -> bool;
  TransactionIdFollowsOrEquals : Z -> Z -> bool;
  GlobalVisTestIsRemovableXid : Z -> bool;
  (** [cmin] and [cmax], when they can be resolved *)
  ResolveCminCmaxDuringDecoding : HeapTupleHeader -> option (Z * Z);
}.

(** The header on the page, the moment, and whether the buffer was marked
    dirty. *)
Record VisState := { hdr : HeapTupleHeader; clock : nat; dirtied : bool }.

Definition with_infomask (m : Z) (h : HeapTupleHeader) : HeapTupleHeader :=
  {| t_xmin := t_xmin h; t_xmax := t_xmax h; t_field3 := t_field3 h; t_ctid := t_ctid h;
     t_infomask := m |}.

Section visibility.
Context `{HH : HtupFlags} `{HW : World}.

Local Abbreviation MV := (M VisState).

(** ** Asking *)

(** A question is answered at the present moment; time passes. *)
Definition ask {A} (q : nat -> A) : MV A := fun s =>
  (Ret (q (clock s)), {| hdr := hdr s; clock := S (clock s); dirtied := dirtied s |}).

Definition header : MV HeapTupleHeader := gets hdr.
Definition infomask : MV Z := gets (fun s => t_infomask (hdr s)).

Definition in_progress (x : Z) : MV bool := ask (fun t => TransactionIdIsInProgress t x).
Definition did_commit (x : Z) : MV bool := ask (fun t => TransactionIdDidCommit t x).
Definition multi_running (x : Z) (lockOnly : bool) : MV bool :=
  ask (fun t => MultiXactIdIsRunning t x lockOnly).

Definition TransactionIdIsValid (x : Z) : bool := negb (x =? InvalidTransactionId).

(** [HeapTupleHeaderGetXmin]: frozen tuples have the frozen id. *)
Definition HeapTupleHeaderGetXmin (h : HeapTupleHeader) : Z :=
  if XminFrozen (t_infomask h) then FrozenTransactionId else t_xmin h.

(** ** Hint bits *)

Definition or_infomask (f : Z) : MV unit :=
  modify (fun s => {| hdr := with_infomask (Z.lor (t_infomask (hdr s)) f) (hdr s);
                      clock := clock s; dirtied := true |}).

(** [xid] must be known committed when it is valid; an asynchronous commit
    that is not flushed is not recorded on a permanent page. *)
Definition SetHintBits (flag xid : Z) : MV unit :=
  if TransactionIdIsValid xid then
    let* commitLSN := ask (fun t => TransactionIdGetCommitLSN t xid) in
    let* skip :=
      if BufferIsPermanent then
        let* needs := ask (fun t => XLogNeedsFlush t commitLSN) in
        if needs then
          let* lsn := ask BufferGetLSNAtomic in ret (lsn <? commitLSN)
        else ret false
      else ret false in
    if skip then ret tt else or_infomask flag
  else or_infomask flag.

Definition HeapTupleSetHintBits (flag xid : Z) : MV unit := SetHintBits flag xid.

(** ** Moved tuples

    The part for pre-9.0 binary upgrades, the same in every routine up to
    the question ([busy]) whether the moving VACUUM is still running and
    the verdicts; [Some] is a return from the routine. *)
Definition moved_off {R} (invisible : R) (busy : Z -> MV bool) : MV (option R) :=
  let* h := header in
  let xvac := HeapTupleHeaderGetXvac h in
  if TransactionIdIsCurrentTransactionId xvac then ret (Some invisible) else
  let* b := busy xvac in
  if b then ret None else
  let* c := did_commit xvac in
  if c then SetHintBits HEAP_XMIN_INVALID InvalidTransactionId;;; ret (Some invisible)
  else SetHintBits HEAP_XMIN_COMMITTED InvalidTransactionId;;; ret None.

Definition moved_in {R} (invisible : R) (busy : Z -> MV bool) : MV (option R) :=
  let* h := header in
  let xvac := HeapTupleHeaderGetXvac h in
  if TransactionIdIsCurrentTransactionId xvac then ret None else
  let* b := busy xvac in
  if b then ret (Some invisible) else
  let* c := did_commit xvac in
  if c then SetHintBits HEAP_XMIN_COMMITTED InvalidTransactionId;;; ret None
  else SetHintBits HEAP_XMIN_INVALID InvalidTransactionId;;; ret (Some invisible).

(** The end of the chain of tests on a not yet hinted [xmin] that is
    neither moved nor ours: still running, committed, or aborted. *)
Definition xmin_outcome {R} (running aborted : R) (busy : Z -> MV bool) : MV (option R) :=
  let* h := header in
  let* b := busy (t_xmin h) in
  if b then ret (Some running) else
  let* c := did_commit (t_xmin h) in
  if c then SetHintBits HEAP_XMIN_COMMITTED (t_xmin h);;; ret None
  else SetHintBits HEAP_XMIN_INVALID InvalidTransactionId;;; ret (Some aborted).

(** ** HeapTupleSatisfiesSelf *)

(** The tuple was inserted by the current transaction. *)
Definition Self_own : MV bool :=
  let* h := header in
  if has (t_infomask h) HEAP_XMAX_INVALID then ret true
  else if HEAP_XMAX_IS_LOCKED_ONLY (t_infomask h) then ret true
  else if has (t_infomask h) HEAP_XMAX_IS_MULTI then
    let xmax := HeapTupleGetUpdateXid h in
    ret (negb (TransactionIdIsCurrentTransactionId xmax))
  else if negb (TransactionIdIsCurrentTransactionId (t_xmax h)) then
    SetHintBits HEAP_XMAX_INVALID InvalidTransactionId;;; ret true
  else ret false.

Definition Self_xmin : MV (option bool) :=
  let* h := header in
  let m := t_infomask h in
  if negb (XminCommitted m) then
    if XminInvalid m then ret (Some false)
    else if has m HEAP_MOVED_OFF then moved_off false in_progress
    else if has m HEAP_MOVED_IN then moved_in false in_progress
    else if TransactionIdIsCurrentTransactionId (t_xmin h) then
      let* r := Self_own in ret (Some r)
    else xmin_outcome false false in_progress
  else ret None.

(** By here, the inserting transaction has committed. *)
Definition Self_xmax : MV bool :=
  let* h := header in
  let m := t_infomask h in
  if has m HEAP_XMAX_INVALID then ret true
  else if has m HEAP_XMAX_COMMITTED then ret (HEAP_XMAX_IS_LOCKED_ONLY m)
  else if has m HEAP_XMAX_IS_MULTI then
    if HEAP_XMAX_IS_LOCKED_ONLY m then ret true else
    let xmax := HeapTupleGetUpdateXid h in
    if TransactionIdIsCurrentTransactionId xmax then ret false else
    let* p := in_progress xmax in
    if p then ret true else
    let* c := did_commit xmax in
    ret (negb c)
  else if TransactionIdIsCurrentTransactionId (t_xmax h) then
    ret (HEAP_XMAX_IS_LOCKED_ONLY m)
  else
    let* p := in_progress (t_xmax h) in
    if p then ret true else
    let* c := did_commit (t_xmax h) in
    if negb c then SetHintBits HEAP_XMAX_INVALID InvalidTransactionId;;; ret true
    else if HEAP_XMAX_IS_LOCKED_ONLY m then
      SetHintBits HEAP_XMAX_INVALID InvalidTransactionId;;; ret true
    else SetHintBits HEAP_XMAX_COMMITTED (t_xmax h);;; ret false.

(** Run the second half when the first has not returned. *)
Definition or_else {R} (m : MV (option R)) (k : MV R) : MV R :=
  let* r := m in
  match r with Some r => ret r | None => k end.

Definition HeapTupleSatisfiesSelf : MV bool := or_else Self_xmin Self_xmax.

Definition HeapTupleSatisfiesAny : MV bool := ret true.

(** ** HeapTupleSatisfiesToast *)

Definition HeapTupleSatisfiesToast : MV bool :=
  let* h := header in
  let m := t_infomask h in
  or_else
    (if negb (XminCommitted m) then
       if XminInvalid m then ret (Some false)
       else if has m HEAP_MOVED_OFF then moved_off false in_progress
       else if has m HEAP_MOVED_IN then moved_in false in_progress
       else if negb (TransactionIdIsValid (HeapTupleHeaderGetXmin h)) then ret (Some false)
       else ret None
     else ret None)
    (ret true).

(** ** HeapTupleSatisfiesUpdate *)

(** Updated or deleted by another: the tuple's successor is elsewhere. *)
Definition updated_or_deleted (t_self : Z * Z) (h : HeapTupleHeader) : TM_Result :=
  if bool_decide (t_self = t_ctid h) then TM_Deleted else TM_Updated.

(** Updated by ourselves, after or before the scan started. *)
Definition self_modified (curcid_ : Z) (h : HeapTupleHeader) : TM_Result :=
  if curcid_ <=? HeapTupleHeaderGetCmax h then TM_SelfModified else TM_Invisible.

(** Our own tuple is locked only, possibly by others. *)
Definition Update_own_locked (h : HeapTupleHeader) : MV TM_Result :=
  let xmax := t_xmax h in
  if has (t_infomask h) HEAP_XMAX_IS_MULTI then
    let* r := multi_running xmax true in
    ret (if r then TM_BeingModified else TM_Ok)
  else
    let* p := in_progress xmax in
    ret (if negb p then TM_Ok else TM_BeingModified).

Definition Update_own (curcid_ : Z) : MV TM_Result :=
  let* h := header in
  let m := t_infomask h in
  if curcid_ <=? HeapTupleHeaderGetCmin h then ret TM_Invisible
  else if has m HEAP_XMAX_INVALID then ret TM_Ok
  else if HEAP_XMAX_IS_LOCKED_ONLY m then Update_own_locked h
  else if has m HEAP_XMAX_IS_MULTI then
    let xmax := HeapTupleGetUpdateXid h in
    if negb (TransactionIdIsCurrentTransactionId xmax) then
      let* r := multi_running (t_xmax h) false in
      ret (if r then TM_BeingModified else TM_Ok)
    else ret (self_modified curcid_ h)
  else if negb (TransactionIdIsCurrentTransactionId (t_xmax h)) then
    SetHintBits HEAP_XMAX_INVALID InvalidTransactionId;;; ret TM_Ok
  else ret (self_modified curcid_ h).

Definition Update_xmin (curcid_ : Z) : MV (option TM_Result) :=
  let* h := header in
  let m := t_infomask h in
  if negb (XminCommitted m) then
    if XminInvalid m then ret (Some TM_Invisible)
    else if has m HEAP_MOVED_OFF then moved_off TM_Invisible in_progress
    else if has m HEAP_MOVED_IN then moved_in TM_Invisible in_progress
    else if TransactionIdIsCurrentTransactionId (t_xmin h) then
      let* r := Update_own curcid_ in ret (Some r)
    else xmin_outcome TM_Invisible TM_Invisible in_progress
  else ret None.

(** The multixact in [xmax], not upgraded from a locked tuple. *)
Definition Update_multi (t_self : Z * Z) (curcid_ : Z) : MV TM_Result :=
  let* h := header in
  let m := t_infomask h in
  if HEAP_LOCKED_UPGRADED m then ret TM_Ok
  else if HEAP_XMAX_IS_LOCKED_ONLY m then
    let* r := multi_running (t_xmax h) true in
    if r then ret TM_BeingModified
    else SetHintBits HEAP_XMAX_INVALID InvalidTransactionId;;; ret TM_Ok
  else
    let xmax := HeapTupleGetUpdateXid h in
    let* r0 := if negb (TransactionIdIsValid xmax) then multi_running (t_xmax h) false
               else ret false in
    if r0 then ret TM_BeingModified
    else if TransactionIdIsCurrentTransactionId xmax then ret (self_modified curcid_ h)
    else
      let* r1 := multi_running (t_xmax h) false in
      if r1 then ret TM_BeingModified else
      let* c := did_commit xmax in
      if c then ret (updated_or_deleted t_self h) else
      let* r2 := multi_running (t_xmax h) false in
      if negb r2 then SetHintBits HEAP_XMAX_INVALID InvalidTransactionId;;; ret TM_Ok
      else ret TM_BeingModified.

Definition Update_xmax (t_self : Z * Z) (curcid_ : Z) : MV TM_Result :=
  let* h := header in
  let m := t_infomask h in
  if has m HEAP_XMAX_INVALID then ret TM_Ok
  else if has m HEAP_XMAX_COMMITTED then
    ret (if HEAP_XMAX_IS_LOCKED_ONLY m then TM_Ok else updated_or_deleted t_self h)
  else if has m HEAP_XMAX_IS_MULTI then Update_multi t_self curcid_
  else if TransactionIdIsCurrentTransactionId (t_xmax h) then
    ret (if HEAP_XMAX_IS_LOCKED_ONLY m then TM_BeingModified else self_modified curcid_ h)
  else
    let* p := in_progress (t_xmax h) in
    if p then ret TM_BeingModified else
    let* c := did_commit (t_xmax h) in
    if negb c then SetHintBits HEAP_XMAX_INVALID InvalidTransactionId;;; ret TM_Ok
    else if HEAP_XMAX_IS_LOCKED_ONLY m then
      SetHintBits HEAP_XMAX_INVALID InvalidTransactionId;;; ret TM_Ok
    else SetHintBits HEAP_XMAX_COMMITTED (t_xmax h);;; ret (updated_or_deleted t_self h).

Definition HeapTupleSatisfiesUpdate (t_self : Z * Z) (curcid_ : Z) : MV TM_Result :=
  or_else (Update_xmin curcid_) (Update_xmax t_self curcid_).

(** ** HeapTupleSatisfiesDirty *)

(** The output fields of the snapshot: [xmin], [xmax] and the speculative
    token. *)
Record DirtyOut := { d_xmin : Z; d_xmax : Z; speculativeToken : Z }.

Definition dirty0 : DirtyOut :=
  {| d_xmin := InvalidTransactionId; d_xmax := InvalidTransactionId; speculativeToken := 0 |}.

Definition Dirty_xmin : MV (option (bool * DirtyOut)) :=
  let* h := header in
  let m := t_infomask h in
  let no := (false, dirty0) in
  if negb (XminCommitted m) then
    if XminInvalid m then ret (Some no)
    else if has m HEAP_MOVED_OFF then moved_off no in_progress
    else if has m HEAP_MOVED_IN then moved_in no in_progress
    else if TransactionIdIsCurrentTransactionId (t_xmin h) then
      let* r := Self_own in ret (Some (r, dirty0))
    else
      xmin_outcome
        (true, {| d_xmin := t_xmin h; d_xmax := InvalidTransactionId;
                  speculativeToken := if HeapTupleHeaderIsSpeculative h
                                      then HeapTupleHeaderGetSpeculativeToken h else 0 |})
        no in_progress
  else ret None.

Definition Dirty_xmax : MV (bool * DirtyOut) :=
  let* h := header in
  let m := t_infomask h in
  let by_other x := {| d_xmin := InvalidTransactionId; d_xmax := x; speculativeToken := 0 |} in
  if has m HEAP_XMAX_INVALID then ret (true, dirty0)
  else if has m HEAP_XMAX_COMMITTED then ret (HEAP_XMAX_IS_LOCKED_ONLY m, dirty0)
  else if has m HEAP_XMAX_IS_MULTI then
    if HEAP_XMAX_IS_LOCKED_ONLY m then ret (true, dirty0) else
    let xmax := HeapTupleGetUpdateXid h in
    if TransactionIdIsCurrentTransactionId xmax then ret (false, dirty0) else
    let* p := in_progress xmax in
    if p then ret (true, by_other xmax) else
    let* c := did_commit xmax in
    ret (negb c, dirty0)
  else if TransactionIdIsCurrentTransactionId (t_xmax h) then
    ret (HEAP_XMAX_IS_LOCKED_ONLY m, dirty0)
  else
    let* p := in_progress (t_xmax h) in
    if p then
      ret (true, if negb (HEAP_XMAX_IS_LOCKED_ONLY m) then by_other (t_xmax h) else dirty0)
    else
      let* c := did_commit (t_xmax h) in
      if negb c then SetHintBits HEAP_XMAX_INVALID InvalidTransactionId;;; ret (true, dirty0)
      else if HEAP_XMAX_IS_LOCKED_ONLY m then
        SetHintBits HEAP_XMAX_INVALID InvalidTransactionId;;; ret (true, dirty0)
      else SetHintBits HEAP_XMAX_COMMITTED (t_xmax h);;; ret (false, dirty0).

Definition HeapTupleSatisfiesDirty : MV (bool * DirtyOut) := or_else Dirty_xmin Dirty_xmax.

(** ** HeapTupleSatisfiesMVCC *)

(** Deleted by ourselves, after or before the scan started. *)
Definition own_delete_visible (sn : Snapshot) (h : HeapTupleHeader) : bool :=
  curcid sn <=? HeapTupleHeaderGetCmax h.

Definition in_snapshot (sn : Snapshot) (x : Z) : MV bool := ret (XidInMVCCSnapshot x sn).

Definition MVCC_own (sn : Snapshot) : MV bool :=
  let* h := header in
  let m := t_infomask h in
  if curcid sn <=? HeapTupleHeaderGetCmin h then ret false
  else if has m HEAP_XMAX_INVALID then ret true
  else if HEAP_XMAX_IS_LOCKED_ONLY m then ret true
  else if has m HEAP_XMAX_IS_MULTI then
    let xmax := HeapTupleGetUpdateXid h in
    if negb (TransactionIdIsCurrentTransactionId xmax) then ret true
    else ret (own_delete_visible sn h)
  else if negb (TransactionIdIsCurrentTransactionId (t_xmax h)) then
    SetHintBits HEAP_XMAX_INVALID InvalidTransactionId;;; ret true
  else ret (own_delete_visible sn h).

Definition MVCC_xmin (sn : Snapshot) : MV (option bool) :=
  let* h := header in
  let m := t_infomask h in
  if negb (XminCommitted m) then
    if XminInvalid m then ret (Some false)
    else if has m HEAP_MOVED_OFF then moved_off false (in_snapshot sn)
    else if has m HEAP_MOVED_IN then moved_in false (in_snapshot sn)
    else if TransactionIdIsCurrentTransactionId (t_xmin h) then
      let* r := MVCC_own sn in ret (Some r)
    else xmin_outcome false false (in_snapshot sn)
  else if negb (XminFrozen m) && XidInMVCCSnapshot (t_xmin h) sn then ret (Some false)
  else ret None.

Definition MVCC_xmax (sn : Snapshot) : MV bool :=
  let* h := header in
  let m := t_infomask h in
  if has m HEAP_XMAX_INVALID then ret true
  else if HEAP_XMAX_IS_LOCKED_ONLY m then ret true
  else if has m HEAP_XMAX_IS_MULTI then
    let xmax := HeapTupleGetUpdateXid h in
    if TransactionIdIsCurrentTransactionId xmax then ret (own_delete_visible sn h)
    else if XidInMVCCSnapshot xmax sn then ret true
    else
      let* c := did_commit xmax in
      ret (negb c)
  else if negb (has m HEAP_XMAX_COMMITTED) then
    if TransactionIdIsCurrentTransactionId (t_xmax h) then ret (own_delete_visible sn h)
    else if XidInMVCCSnapshot (t_xmax h) sn then ret true
    else
      let* c := did_commit (t_xmax h) in
      if negb c then SetHintBits HEAP_XMAX_INVALID InvalidTransactionId;;; ret true
      else SetHintBits HEAP_XMAX_COMMITTED (t_xmax h);;; ret false
  else ret (XidInMVCCSnapshot (t_xmax h) sn).

Definition HeapTupleSatisfiesMVCC (sn : Snapshot) : MV bool :=
  or_else (MVCC_xmin sn) (MVCC_xmax sn).

(** ** HeapTupleHeaderIsOnlyLocked *)

Definition HeapTupleHeaderIsOnlyLocked : MV bool :=
  let* h := header in
  let m := t_infomask h in
  if has m HEAP_XMAX_INVALID then ret true
  else if has m HEAP_XMAX_LOCK_ONLY then ret true
  else if negb (TransactionIdIsValid (t_xmax h)) then ret true
  else if negb (has m HEAP_XMAX_IS_MULTI) then ret false
  else
    let xmax := HeapTupleGetUpdateXid h in
    if TransactionIdIsCurrentTransactionId xmax then ret false else
    let* p := in_progress xmax in
    if p then ret false else
    let* c := did_commit xmax in
    ret (negb c).

(** ** HeapTupleSatisfiesVacuum and its work horse *)

(** The verdict and [*dead_after]. *)
Definition verdict (r : HTSV_Result) : HTSV_Result * Z := (r, InvalidTransactionId).

Definition Vacuum_moved_off : MV (option (HTSV_Result * Z)) :=
  let* h := header in
  let xvac := HeapTupleHeaderGetXvac h in
  if TransactionIdIsCurrentTransactionId xvac then
    ret (Some (verdict HEAPTUPLE_DELETE_IN_PROGRESS)) else
  let* p := in_progress xvac in
  if p then ret (Some (verdict HEAPTUPLE_DELETE_IN_PROGRESS)) else
  let* c := did_commit xvac in
  if c then SetHintBits HEAP_XMIN_INVALID InvalidTransactionId;;;
            ret (Some (verdict HEAPTUPLE_DEAD))
  else SetHintBits HEAP_XMIN_COMMITTED InvalidTransactionId;;; ret None.

Definition Vacuum_moved_in : MV (option (HTSV_Result * Z)) :=
  let* h := header in
  let xvac := HeapTupleHeaderGetXvac h in
  if TransactionIdIsCurrentTransactionId xvac then
    ret (Some (verdict HEAPTUPLE_INSERT_IN_PROGRESS)) else
  let* p := in_progress xvac in
  if p then ret (Some (verdict HEAPTUPLE_INSERT_IN_PROGRESS)) else
  let* c := did_commit xvac in
  if c then SetHintBits HEAP_XMIN_COMMITTED InvalidTransactionId;;; ret None
  else SetHintBits HEAP_XMIN_INVALID InvalidTransactionId;;;
       ret (Some (verdict HEAPTUPLE_DEAD)).

Definition Vacuum_own : MV (HTSV_Result * Z) :=
  let* h := header in
  let m := t_infomask h in
  if has m HEAP_XMAX_INVALID then ret (verdict HEAPTUPLE_INSERT_IN_PROGRESS) else
  let* locked := if HEAP_XMAX_IS_LOCKED_ONLY m then ret true
                 else HeapTupleHeaderIsOnlyLocked in
  if locked then ret (verdict HEAPTUPLE_INSERT_IN_PROGRESS)
  else if TransactionIdIsCurrentTransactionId (HeapTupleHeaderGetUpdateXid h) then
    ret (verdict HEAPTUPLE_DELETE_IN_PROGRESS)
  else ret (verdict HEAPTUPLE_INSERT_IN_PROGRESS).

Definition Vacuum_xmin : MV (option (HTSV_Result * Z)) :=
  let* h := header in
  let m := t_infomask h in
  if negb (XminCommitted m) then
    if XminInvalid m then ret (Some (verdict HEAPTUPLE_DEAD))
    else if has m HEAP_MOVED_OFF then Vacuum_moved_off
    else if has m HEAP_MOVED_IN then Vacuum_moved_in
    else if TransactionIdIsCurrentTransactionId (t_xmin h) then
      let* r := Vacuum_own in ret (Some r)
    else xmin_outcome (verdict HEAPTUPLE_INSERT_IN_PROGRESS) (verdict HEAPTUPLE_DEAD) in_progress
  else ret None.

(** A locked tuple is live; the hint is left for later visitors once the
    lockers are gone. *)
Definition Vacuum_locked : MV (HTSV_Result * Z) :=
  let* h := header in
  let m := t_infomask h in
  if negb (has m HEAP_XMAX_COMMITTED) then
    if has m HEAP_XMAX_IS_MULTI then
      let* r := if HEAP_LOCKED_UPGRADED m then ret false else multi_running (t_xmax h) true in
      if r then ret (verdict HEAPTUPLE_LIVE)
      else SetHintBits HEAP_XMAX_INVALID InvalidTransactionId;;; ret (verdict HEAPTUPLE_LIVE)
    else
      let* p := in_progress (t_xmax h) in
      if p then ret (verdict HEAPTUPLE_LIVE)
      else SetHintBits HEAP_XMAX_INVALID InvalidTransactionId;;; ret (verdict HEAPTUPLE_LIVE)
  else ret (verdict HEAPTUPLE_LIVE).

Definition Vacuum_multi : MV (HTSV_Result * Z) :=
  let* h := header in
  let xmax := HeapTupleGetUpdateXid h in
  let* p := in_progress xmax in
  if p then ret (verdict HEAPTUPLE_DELETE_IN_PROGRESS) else
  let* c := did_commit xmax in
  if c then ret (HEAPTUPLE_RECENTLY_DEAD, xmax) else
  let* r := multi_running (t_xmax h) false in
  (if negb r then SetHintBits HEAP_XMAX_INVALID InvalidTransactionId else ret tt);;;
  ret (verdict HEAPTUPLE_LIVE).

Definition Vacuum_xmax : MV (HTSV_Result * Z) :=
  let* h := header in
  let m := t_infomask h in
  if has m HEAP_XMAX_INVALID then ret (verdict HEAPTUPLE_LIVE)
  else if HEAP_XMAX_IS_LOCKED_ONLY m then Vacuum_locked
  else if has m HEAP_XMAX_IS_MULTI then Vacuum_multi
  else
    let* r :=
      if negb (has m HEAP_XMAX_COMMITTED) then
        let* p := in_progress (t_xmax h) in
        if p then ret (Some (verdict HEAPTUPLE_DELETE_IN_PROGRESS)) else
        let* c := did_commit (t_xmax h) in
        if c then SetHintBits HEAP_XMAX_COMMITTED (t_xmax h);;; ret None
        else SetHintBits HEAP_XMAX_INVALID InvalidTransactionId;;;
             ret (Some (verdict HEAPTUPLE_LIVE))
      else ret None in
    match r with
    | Some r => ret r
    | None => ret (HEAPTUPLE_RECENTLY_DEAD, t_xmax h)
    end.

Definition HeapTupleSatisfiesVacuumHorizon : MV (HTSV_Result * Z) :=
  or_else Vacuum_xmin Vacuum_xmax.

Definition HeapTupleSatisfiesVacuum (OldestXmin : Z) : MV HTSV_Result :=
  let* r := HeapTupleSatisfiesVacuumHorizon in
  let '(res, dead_after) := r in
  match res with
  | HEAPTUPLE_RECENTLY_DEAD =>
      ret (if TransactionIdPrecedes dead_after OldestXmin then HEAPTUPLE_DEAD else res)
  | _ => ret res
  end.

Definition HeapTupleSatisfiesNonVacuumable : MV bool :=
  let* r := HeapTupleSatisfiesVacuumHorizon in
  let '(res, dead_after) := r in
  let res := match res with
             | HEAPTUPLE_RECENTLY_DEAD =>
                 if GlobalVisTestIsRemovableXid dead_after then HEAPTUPLE_DEAD else res
             | _ => res
             end in
  ret (negb (bool_decide (res = HEAPTUPLE_DEAD))).

(** Reads the header only. *)
Definition HeapTupleIsSurelyDead (h : HeapTupleHeader) : bool :=
  let m := t_infomask h in
  if negb (XminCommitted m) then XminInvalid m
  else if has m HEAP_XMAX_INVALID then false
  else if HEAP_XMAX_IS_LOCKED_ONLY m then false
  else if has m HEAP_XMAX_IS_MULTI then false
  else if negb (has m HEAP_XMAX_COMMITTED) then false
  else GlobalVisTestIsRemovableXid (t_xmax h).

(** ** HeapTupleSatisfiesHistoricMVCC *)

(** [bsearch] in an array sorted by id. *)
Definition TransactionIdInArray (xid : Z) (xip_ : list Z) (num : Z) : bool :=
  (0 <? num) && bool_decide (xid ∈ take (Z.to_nat num) xip_).

(** [Some] is a return from the routine. *)
Definition Historic_xmin (sn : Snapshot) : MV (option bool) :=
  let* h := header in
  let m := t_infomask h in
  let xmin := HeapTupleHeaderGetXmin h in
  if XminInvalid m then ret (Some false)
  else if TransactionIdInArray xmin (subxip sn) (subxcnt sn) then
    match ResolveCminCmaxDuringDecoding h with
    | None => ret (Some false)
    | Some (cmin, _) => if curcid sn <=? cmin then ret (Some false) else ret None
    end
  else if TransactionIdPrecedes xmin (sn_xmin sn) then
    if negb (XminCommitted m) then
      let* c := did_commit xmin in
      if negb c then ret (Some false) else ret None
    else ret None
  else if TransactionIdFollowsOrEquals xmin (sn_xmax sn) then ret (Some false)
  else if TransactionIdInArray xmin (xip sn) (xcnt sn) then ret None
  else ret (Some false).

Definition Historic_xmax (sn : Snapshot) : MV bool :=
  let* h := header in
  let m := t_infomask h in
  if has m HEAP_XMAX_INVALID then ret true
  else if HEAP_XMAX_IS_LOCKED_ONLY m then ret true
  else
    let xmax := if has m HEAP_XMAX_IS_MULTI then HeapTupleGetUpdateXid h else t_xmax h in
    if TransactionIdInArray xmax (subxip sn) (subxcnt sn) then
      match ResolveCminCmaxDuringDecoding h with
      | None => ret true
      | Some (_, cmax) =>
          if cmax =? InvalidCommandId then ret true else ret (curcid sn <=? cmax)
      end
    else if TransactionIdPrecedes xmax (sn_xmin sn) then
      if has m HEAP_XMAX_COMMITTED then ret false
      else
        let* c := did_commit xmax in
        ret (negb c)
    else if TransactionIdFollowsOrEquals xmax (sn_xmax sn) then ret true
    else ret (negb (TransactionIdInArray xmax (xip sn) (xcnt sn))).

Definition HeapTupleSatisfiesHistoricMVCC (sn : Snapshot) : MV bool :=
  or_else (Historic_xmin sn) (Historic_xmax sn).

(** ** HeapTupleSatisfiesVisibility *)

Definition HeapTupleSatisfiesVisibility (sn : Snapshot) : MV bool :=
  match snapshot_type sn with
  | SNAPSHOT_MVCC => HeapTupleSatisfiesMVCC sn
  | SNAPSHOT_SELF => HeapTupleSatisfiesSelf
  | SNAPSHOT_ANY => HeapTupleSatisfiesAny
  | SNAPSHOT_TOAST => HeapTupleSatisfiesToast
  | SNAPSHOT_DIRTY => let* r := HeapTupleSatisfiesDirty in ret (fst r)
  | SNAPSHOT_HISTORIC_MVCC => HeapTupleSatisfiesHistoricMVCC sn
  | SNAPSHOT_NON_VACUUMABLE => HeapTupleSatisfiesNonVacuumable
  end.
End visibility.
