(* ===== verification/VisibilityProps.v ===== *)
(** Reasoning about the visibility routines: what they rely on, when hint
    bits are sound, and a weakest-precondition calculus that follows the
    questions a routine asks through time. *)
From stdpp Require Import relations.
From S2P Require Import Prelude Visibility.

Definition hint_flags `{HtupFlags} : list Z :=
  [HEAP_XMIN_COMMITTED; HEAP_XMIN_INVALID; HEAP_XMAX_COMMITTED; HEAP_XMAX_INVALID].
Definition all_flags `{HtupFlags} : list Z :=
  hint_flags ++ [HEAP_MOVED_OFF; HEAP_MOVED_IN; HEAP_XMAX_IS_MULTI; HEAP_XMAX_LOCK_ONLY].

(** The flags are different bits, the macros are the usual combinations of
    them, and the lock-only tests do not look at hint bits. *)
Class HtupFlagsLaws `{HtupFlags} := {
  flags_distinct : NoDup all_flags;
  has_lor m f f' : f ∈ hint_flags -> f' ∈ all_flags ->
    has (Z.lor m f) f' = has m f' || bool_decide (f = f');
  XminCommitted_has m : XminCommitted m = has m HEAP_XMIN_COMMITTED;
  XminInvalid_has m :
    XminInvalid m = has m HEAP_XMIN_INVALID && negb (has m HEAP_XMIN_COMMITTED);
  XminFrozen_has m : XminFrozen m = has m HEAP_XMIN_INVALID && has m HEAP_XMIN_COMMITTED;
  locked_only_lor m f : f ∈ hint_flags ->
    HEAP_XMAX_IS_LOCKED_ONLY (Z.lor m f) = HEAP_XMAX_IS_LOCKED_ONLY m;
  lock_only_locked m : has m HEAP_XMAX_LOCK_ONLY = true -> HEAP_XMAX_IS_LOCKED_ONLY m = true;
  upgraded_locked m : HEAP_LOCKED_UPGRADED m = true -> HEAP_XMAX_IS_LOCKED_ONLY m = true;
}.

(** The header with a hint added. *)
Definition hinted (f : Z) (h : HeapTupleHeader) : HeapTupleHeader :=
  with_infomask (Z.lor (t_infomask h) f) h.

(** The same tuple up to hint bits. *)
Definition hint_step `{HtupFlags} (h h' : HeapTupleHeader) : Prop :=
  exists f, f ∈ hint_flags /\ h' = hinted f h.
Definition same_tuple `{HtupFlags} : HeapTupleHeader -> HeapTupleHeader -> Prop := rtc hint_step.

(** What the routines rely on.  Commits are recorded before a transaction
    leaves the array of running transactions, nothing that is over starts
    again, our own transaction is running, and a snapshot, which is taken at
    some moment, only omits transactions that were over at that moment. *)
Class WorldLaws `{HtupFlags, !HtupFlagsLaws, World} := {
  commit_stable t t' x : (t <= t')%nat ->
    TransactionIdDidCommit t x = true -> TransactionIdDidCommit t' x = true;
  finished_stable t t' x : (t <= t')%nat ->
    TransactionIdIsInProgress t x = false -> TransactionIdIsInProgress t' x = false;
  outcome_final t t' x : (t <= t')%nat -> TransactionIdIsInProgress t x = false ->
    TransactionIdDidCommit t x = false -> TransactionIdDidCommit t' x = false;
  current_running t x : TransactionIdIsCurrentTransactionId x = true ->
    TransactionIdIsInProgress t x = true;
  current_uncommitted t x : TransactionIdIsCurrentTransactionId x = true ->
    TransactionIdDidCommit t x = false;
  snapshot_taken : Snapshot -> nat;
  snapshot_finished t x sn : (snapshot_taken sn <= t)%nat -> XidInMVCCSnapshot x sn = false ->
    TransactionIdIsCurrentTransactionId x = false -> TransactionIdIsInProgress t x = false;
  running_valid t x : TransactionIdIsInProgress t x = true -> x <> InvalidTransactionId;
  multi_finished t h lockOnly :
    MultiXactIdIsRunning t (t_xmax h) lockOnly = false ->
    HEAP_XMAX_IS_LOCKED_ONLY (t_infomask h) = false ->
    has (t_infomask h) HEAP_XMAX_IS_MULTI = true ->
    TransactionIdIsInProgress t (HeapTupleGetUpdateXid h) = false;
  update_xid_deleter h :
    has (t_infomask h) HEAP_XMAX_INVALID = false ->
    HEAP_XMAX_IS_LOCKED_ONLY (t_infomask h) = false ->
    HeapTupleHeaderGetUpdateXid h =
      if has (t_infomask h) HEAP_XMAX_IS_MULTI then HeapTupleGetUpdateXid h else t_xmax h;
  hints_irrelevant h h' : hint_step h h' ->
    HeapTupleGetUpdateXid h' = HeapTupleGetUpdateXid h
    /\ HeapTupleHeaderGetCmin h' = HeapTupleHeaderGetCmin h
    /\ HeapTupleHeaderGetCmax h' = HeapTupleHeaderGetCmax h;
}.

Section props.
Context `{HH : HtupFlags} `{HHL : !HtupFlagsLaws} `{HW : World} `{HWL : !WorldLaws}.

(** ** Sound hints *)

(** The transaction a tuple names as its deleter (or locker). *)
Definition deleter (h : HeapTupleHeader) : Z :=
  if has (t_infomask h) HEAP_XMAX_IS_MULTI then HeapTupleGetUpdateXid h else t_xmax h.

(** The transaction is over and did not commit. *)
Definition dead_xact (t : nat) (x : Z) : Prop :=
  TransactionIdIsInProgress t x = false /\ TransactionIdDidCommit t x = false.

(** Hint bits record outcomes that have happened. *)
Definition hints_ok (h : HeapTupleHeader) (t : nat) : Prop :=
  let m := t_infomask h in
  (XminCommitted m = true -> XminFrozen m = false -> TransactionIdDidCommit t (t_xmin h) = true)
  /\ (XminInvalid m = true -> dead_xact t (t_xmin h))
  /\ (has m HEAP_XMAX_INVALID = true -> HEAP_XMAX_IS_LOCKED_ONLY m = false ->
      dead_xact t (deleter h))
  /\ (has m HEAP_XMAX_COMMITTED = true -> has m HEAP_XMAX_INVALID = false ->
      HEAP_XMAX_IS_LOCKED_ONLY m = false ->
      has m HEAP_XMAX_IS_MULTI = false /\ TransactionIdDidCommit t (t_xmax h) = true).

(** A tuple written since 9.0: not moved by VACUUM FULL; one we inserted
    can only have been deleted by ourselves, so a deleter that is not
    current is an aborted subtransaction. *)
Definition tuple_ok (h : HeapTupleHeader) (t : nat) : Prop :=
  has (t_infomask h) HEAP_MOVED_OFF = false /\ has (t_infomask h) HEAP_MOVED_IN = false
  /\ (TransactionIdIsCurrentTransactionId (t_xmin h) = true ->
      HEAP_XMAX_IS_LOCKED_ONLY (t_infomask h) = false ->
      TransactionIdIsCurrentTransactionId (deleter h) = false -> dead_xact t (deleter h)).

Lemma dead_xact_later t t' x : (t <= t')%nat -> dead_xact t x -> dead_xact t' x.
Proof.
  intros Ht [H1 H2]. split; [by eapply finished_stable|by eapply outcome_final].
Qed.

Lemma dead_xact_not_current t x :
  dead_xact t x -> TransactionIdIsCurrentTransactionId x = false.
Proof.
  intros [H _]. destruct (TransactionIdIsCurrentTransactionId x) eqn:E; [|done].
  by rewrite (current_running t x E) in H.
Qed.

Lemma committed_not_current t x :
  TransactionIdDidCommit t x = true -> TransactionIdIsCurrentTransactionId x = false.
Proof.
  intros H. destruct (TransactionIdIsCurrentTransactionId x) eqn:E; [|done].
  by rewrite (current_uncommitted t x E) in H.
Qed.

Lemma hints_ok_later h t t' : (t <= t')%nat -> hints_ok h t -> hints_ok h t'.
Proof.
  intros Ht (H1 & H2 & H3 & H4). split_and!; intros.
  - eapply commit_stable; [done|auto].
  - eapply dead_xact_later; [done|auto].
  - eapply dead_xact_later; [done|auto].
  - destruct H4 as [? ?]; [done..|]. split; [done|]. by eapply commit_stable.
Qed.

Lemma tuple_ok_later h t t' : (t <= t')%nat -> tuple_ok h t -> tuple_ok h t'.
Proof.
  intros Ht (H1 & H2 & H3). split_and!; [done..|]. intros.
  eapply dead_xact_later; [done|auto].
Qed.

(** The outcome of running and asking, in that order. *)
Lemma asked_dead t x :
  TransactionIdIsInProgress t x = false -> TransactionIdDidCommit (S t) x = false ->
  dead_xact (S t) x.
Proof. intros H1 H2. split; [|done]. eapply finished_stable; [|done]. lia. Qed.

(** ** Setting hints *)

Lemma hint_flags_all f : f ∈ hint_flags -> f ∈ all_flags.
Proof. intros H. unfold all_flags. apply elem_of_app. by left. Qed.

Lemma flags_ne : Forall (fun p => fst p <> snd p)
  [(HEAP_XMIN_COMMITTED, HEAP_XMIN_INVALID); (HEAP_XMIN_COMMITTED, HEAP_XMAX_COMMITTED);
   (HEAP_XMIN_COMMITTED, HEAP_XMAX_INVALID); (HEAP_XMIN_INVALID, HEAP_XMAX_COMMITTED);
   (HEAP_XMIN_INVALID, HEAP_XMAX_INVALID); (HEAP_XMAX_COMMITTED, HEAP_XMAX_INVALID)].
Proof.
  pose proof flags_distinct as H. unfold all_flags, hint_flags in H. cbn [app] in H.
  rewrite !NoDup_cons in H. repeat constructor; cbn; intros Heq; rewrite Heq in H; set_solver.
Qed.

(** The flags after one hint was added. *)
Lemma has_hint m f f' : f ∈ hint_flags -> f' ∈ all_flags -> f <> f' ->
  has (Z.lor m f) f' = has m f'.
Proof.
  intros Hf Hf' Hne. rewrite has_lor by done. by rewrite bool_decide_false, orb_false_r.
Qed.

Lemma has_same m f : f ∈ hint_flags -> has (Z.lor m f) f = true.
Proof.
  intros Hf. rewrite has_lor by (done || by apply hint_flags_all).
  by rewrite bool_decide_true, orb_true_r.
Qed.
End props.

(** Membership in the flag lists, and flags after a hint was added. *)
Ltac flag_in := solve [unfold all_flags, hint_flags; cbn [app];
  repeat (first [apply list_elem_of_here | apply list_elem_of_further])].
Ltac flags_neq := let H := fresh in pose proof flags_ne as H;
  repeat (rewrite Forall_cons in H; destruct H as [? H]); cbn [fst snd] in *; congruence.
Ltac flag_rw := repeat first
  [ rewrite has_same by flag_in
  | rewrite has_hint by first [flag_in | flags_neq]
  | rewrite locked_only_lor by flag_in ].

Section setting.
Context `{HH : HtupFlags} `{HHL : !HtupFlagsLaws} `{HW : World} `{HWL : !WorldLaws}.

Lemma hinted_step f h : f ∈ hint_flags -> hint_step h (hinted f h).
Proof. intros Hf. by exists f. Qed.

Lemma multi_hint m f : f ∈ hint_flags ->
  has (Z.lor m f) HEAP_XMAX_IS_MULTI = has m HEAP_XMAX_IS_MULTI.
Proof.
  intros Hf. apply has_hint; [done|flag_in|].
  intros ->. pose proof flags_distinct as H. unfold all_flags, hint_flags in *.
  cbn [app] in H. rewrite !NoDup_cons in H. set_solver.
Qed.

Lemma deleter_hinted f h : f ∈ hint_flags -> deleter (hinted f h) = deleter h.
Proof.
  intros Hf. unfold deleter. cbn [t_infomask hinted with_infomask t_xmax].
  rewrite multi_hint by done. destruct (hints_irrelevant h (hinted f h)) as (-> & _ & _);
    [by apply hinted_step|done].
Qed.

Lemma hint_xmin_committed h t :
  hints_ok h t -> XminCommitted (t_infomask h) = false -> XminInvalid (t_infomask h) = false ->
  TransactionIdDidCommit t (t_xmin h) = true -> hints_ok (hinted HEAP_XMIN_COMMITTED h) t.
Proof.
  intros (H1 & H2 & H3 & H4) Hc Hi Hd. unfold hints_ok.
  rewrite deleter_hinted by flag_in. cbn [t_infomask hinted with_infomask t_xmin t_xmax].
  rewrite XminCommitted_has, XminInvalid_has, XminFrozen_has. flag_rw.
  rewrite multi_hint by flag_in. cbn [negb]. rewrite andb_false_r.
  split; [by intros|]. split; [done|]. split; [exact H3|exact H4].
Qed.

Lemma hint_xmin_invalid h t :
  hints_ok h t -> XminCommitted (t_infomask h) = false -> dead_xact t (t_xmin h) ->
  hints_ok (hinted HEAP_XMIN_INVALID h) t.
Proof.
  intros (H1 & H2 & H3 & H4) Hc Hd. unfold hints_ok.
  rewrite deleter_hinted by flag_in. cbn [t_infomask hinted with_infomask t_xmin t_xmax].
  rewrite XminCommitted_has, XminInvalid_has, XminFrozen_has. flag_rw.
  rewrite XminCommitted_has in Hc. rewrite Hc.
  rewrite multi_hint by flag_in.
  split; [done|]. split; [by intros|]. split; [exact H3|exact H4].
Qed.

Lemma hint_xmax_invalid h t :
  hints_ok h t -> (HEAP_XMAX_IS_LOCKED_ONLY (t_infomask h) = false -> dead_xact t (deleter h)) ->
  hints_ok (hinted HEAP_XMAX_INVALID h) t.
Proof.
  intros (H1 & H2 & H3 & H4) Hd. unfold hints_ok.
  rewrite deleter_hinted by flag_in. cbn [t_infomask hinted with_infomask t_xmin t_xmax].
  rewrite XminCommitted_has, XminInvalid_has, XminFrozen_has in *. flag_rw.
  rewrite multi_hint by flag_in.
  split; [exact H1|]. split; [exact H2|]. split; [intros _; exact Hd|done].
Qed.

Lemma hint_xmax_committed h t :
  hints_ok h t -> has (t_infomask h) HEAP_XMAX_INVALID = false ->
  has (t_infomask h) HEAP_XMAX_IS_MULTI = false ->
  TransactionIdDidCommit t (t_xmax h) = true ->
  hints_ok (hinted HEAP_XMAX_COMMITTED h) t.
Proof.
  intros (H1 & H2 & H3 & H4) Hi Hm Hd. unfold hints_ok.
  rewrite deleter_hinted by flag_in. cbn [t_infomask hinted with_infomask t_xmin t_xmax].
  rewrite XminCommitted_has, XminInvalid_has, XminFrozen_has in *. flag_rw.
  rewrite multi_hint by flag_in.
  split; [exact H1|]. split; [exact H2|]. split; [exact H3|intros _ _ _; split; [exact Hm|exact Hd]].
Qed.

(** What no hint changes. *)
Definition same_facts (h h' : HeapTupleHeader) : Prop :=
  t_xmin h' = t_xmin h /\ t_xmax h' = t_xmax h /\ t_ctid h' = t_ctid h
  /\ HEAP_XMAX_IS_LOCKED_ONLY (t_infomask h') = HEAP_XMAX_IS_LOCKED_ONLY (t_infomask h)
  /\ has (t_infomask h') HEAP_XMAX_IS_MULTI = has (t_infomask h) HEAP_XMAX_IS_MULTI
  /\ has (t_infomask h') HEAP_MOVED_OFF = has (t_infomask h) HEAP_MOVED_OFF
  /\ has (t_infomask h') HEAP_MOVED_IN = has (t_infomask h) HEAP_MOVED_IN
  /\ deleter h' = deleter h
  /\ HeapTupleHeaderGetCmin h' = HeapTupleHeaderGetCmin h
  /\ HeapTupleHeaderGetCmax h' = HeapTupleHeaderGetCmax h
  /\ HeapTupleGetUpdateXid h' = HeapTupleGetUpdateXid h.

Lemma flag_not_hint f f' : f ∈ hint_flags ->
  f' ∈ [HEAP_MOVED_OFF; HEAP_MOVED_IN; HEAP_XMAX_IS_MULTI; HEAP_XMAX_LOCK_ONLY] ->
  forall m, has (Z.lor m f) f' = has m f'.
Proof.
  intros Hf Hf' m. apply has_hint; [done|unfold all_flags; set_solver|].
  intros ->. pose proof flags_distinct as H. unfold all_flags in H.
  apply NoDup_app in H as (_ & H & _). by apply (H f').
Qed.

Lemma same_tuple_facts h h' : same_tuple h h' -> same_facts h h'.
Proof.
  induction 1 as [h|h h1 h2 Hstep _ IH]; [by split_and!|].
  destruct IH as (E1 & E2 & E3 & E4 & E5 & E6 & E7 & E8 & E9 & E10 & E11).
  destruct (hints_irrelevant h h1 Hstep) as (F1 & F2 & F3).
  destruct Hstep as (f & Hf & ->). unfold same_facts.
  rewrite E1, E2, E3, E4, E5, E6, E7, E8, E9, E10, E11, F1, F2, F3, deleter_hinted by done.
  cbn [t_infomask hinted with_infomask t_xmin t_xmax t_ctid].
  rewrite locked_only_lor by done. rewrite !(flag_not_hint f) by first [done | set_solver].
  by split_and!.
Qed.

Lemma tuple_ok_same h h' t : same_tuple h h' -> tuple_ok h t -> tuple_ok h' t.
Proof.
  intros (E1 & E2 & E3 & E4 & E5 & E6 & E7 & E8 & _)%same_tuple_facts.
  unfold tuple_ok. by rewrite E1, E4, E6, E7, E8.
Qed.

(** ** Weakest preconditions

    [vwp m Q h t]: run from header [h] at moment [t], [m] returns, and the
    result and the header and moment reached satisfy [Q]. *)
Definition vwp {A} (m : M VisState A) (Q : A -> HeapTupleHeader -> nat -> Prop)
  (h : HeapTupleHeader) (t : nat) : Prop :=
  forall d, match m {| hdr := h; clock := t; dirtied := d |} with
            | (Ret a, s') => Q a (hdr s') (clock s')
            | _ => False
            end.

Lemma vwp_bind {A B} (m : M VisState A) (k : A -> M VisState B) Q h t :
  vwp m (fun a h' t' => vwp (k a) Q h' t') h t -> vwp (bind m k) Q h t.
Proof.
  intros H d. specialize (H d). unfold bind.
  destruct (m _) as [[a|l| |] [h' t' d']]; cbn in H; try done. apply (H d').
Qed.

Lemma vwp_ret {A} (a : A) (Q : A -> HeapTupleHeader -> nat -> Prop) h t :
  Q a h t -> vwp (ret a) Q h t.
Proof. by intros H d. Qed.

Lemma vwp_header (Q : HeapTupleHeader -> HeapTupleHeader -> nat -> Prop) h t :
  Q h h t -> vwp header Q h t.
Proof. by intros H d. Qed.

Lemma vwp_ask {A} (q : nat -> A) Q h t : Q (q t) h (S t) -> vwp (ask q) Q h t.
Proof. by intros H d. Qed.

Lemma vwp_mono {A} (m : M VisState A) (Q Q' : A -> HeapTupleHeader -> nat -> Prop) h t :
  vwp m Q h t -> (forall a h' t', Q a h' t' -> Q' a h' t') -> vwp m Q' h t.
Proof.
  intros H HQ d. specialize (H d). destruct (m _) as [[a|l| |] s']; try done. by apply HQ.
Qed.

Lemma vwp_modify_or f (Q : unit -> HeapTupleHeader -> nat -> Prop) h t :
  Q tt (hinted f h) t -> vwp (or_infomask f) Q h t.
Proof. by intros H d. Qed.

(** The hint is set or, for an unflushed commit, left out; time passes. *)
Lemma vwp_SetHintBits f x (Q : unit -> HeapTupleHeader -> nat -> Prop) h t :
  (forall t', (t <= t')%nat -> Q tt h t') ->
  (forall t', (t <= t')%nat -> Q tt (hinted f h) t') ->
  vwp (SetHintBits f x) Q h t.
Proof.
  intros H1 H2. unfold SetHintBits. destruct (TransactionIdIsValid x);
    [|apply vwp_modify_or, H2; lia].
  apply vwp_bind, vwp_ask, vwp_bind. destruct BufferIsPermanent.
  - apply vwp_bind, vwp_ask. destruct (XLogNeedsFlush _ _).
    + apply vwp_bind, vwp_ask, vwp_ret. destruct (_ <? _).
      * apply vwp_ret, H1. lia.
      * apply vwp_modify_or, H2. lia.
    + apply vwp_ret, vwp_modify_or, H2. lia.
  - apply vwp_ret, vwp_modify_or, H2. lia.
Qed.

Lemma vwp_or_else {R} (m : M VisState (option R)) k (Q : R -> HeapTupleHeader -> nat -> Prop) h t :
  vwp m (fun r h' t' => match r with Some r => Q r h' t' | None => vwp k Q h' t' end) h t ->
  vwp (or_else m k) Q h t.
Proof.
  intros H. apply vwp_bind. eapply vwp_mono; [exact H|].
  intros [r|] h' t' Hr; [by apply vwp_ret|done].
Qed.
End setting.

(** One step of a routine: sequencing, questions, conditions. *)
Ltac vis_step :=
  match goal with
  | |- vwp (bind _ _) _ _ _ => apply vwp_bind
  | |- vwp (ret _) _ _ _ => apply vwp_ret
  | |- vwp header _ _ _ => apply vwp_header
  | |- vwp (in_progress _) _ _ _ => apply vwp_ask
  | |- vwp (did_commit _) _ _ _ => apply vwp_ask
  | |- vwp (multi_running _ _) _ _ _ => apply vwp_ask
  | |- vwp (SetHintBits _ _) _ _ _ =>
      apply vwp_SetHintBits; [intros ? ?|intros ? ?]
  | |- vwp (if true then _ else _) _ _ _ => cbv iota
  | |- vwp (if false then _ else _) _ _ _ => cbv iota
  | |- vwp (if negb ?b then _ else _) _ _ _ => destruct b eqn:?; cbn [negb]
  | |- vwp (if ?b then _ else _) _ _ _ => destruct b eqn:?
  end.
Ltac vis := repeat (vis_step; cbv beta zeta).
