(* ===== verification/VisibilityHints.v ===== *)
(** Every visibility routine leaves sound hint bits: only outcomes that
    have happened are recorded. *)
From stdpp Require Import relations.
From S2P Require Import Prelude Visibility VisibilityProps.

Section hints.
Context `{HH : HtupFlags} `{HHL : !HtupFlagsLaws} `{HW : World} `{HWL : !WorldLaws}.

(** Time passed, hints were added to the tuple, and they are sound. *)
Definition evolves (h : HeapTupleHeader) (t : nat) (h' : HeapTupleHeader) (t' : nat) : Prop :=
  (t <= t')%nat /\ same_tuple h h'
  /\ XminFrozen (t_infomask h') = XminFrozen (t_infomask h) /\ hints_ok h' t'.

Lemma evolves_trans h t h1 t1 h2 t2 :
  evolves h t h1 t1 -> evolves h1 t1 h2 t2 -> evolves h t h2 t2.
Proof.
  intros (H1 & H2 & H3 & _) (H4 & H5 & H6 & H7). split; [lia|].
  split; [by etrans|]. split; [congruence|done].
Qed.

Lemma evolves_tuple_ok h t h' t' : evolves h t h' t' -> tuple_ok h t -> tuple_ok h' t'.
Proof. intros (H1 & H2 & _) H. eapply tuple_ok_same, tuple_ok_later; done. Qed.

Lemma evolves_stay h t t' : hints_ok h t -> (t <= t')%nat -> evolves h t h t'.
Proof. intros H Ht. split_and!; [done|done|done|]. by eapply hints_ok_later. Qed.

Lemma evolves_hint f h t t' :
  f ∈ hint_flags -> (t <= t')%nat -> hints_ok (hinted f h) t' ->
  XminFrozen (Z.lor (t_infomask h) f) = XminFrozen (t_infomask h) ->
  evolves h t (hinted f h) t'.
Proof.
  intros Hf Ht H Hz. split_and!; [done| |done|done]. apply rtc_once. by apply hinted_step.
Qed.

(** Hints do not freeze. *)
Lemma frozen_xmin_committed m :
  XminCommitted m = false -> XminInvalid m = false ->
  XminFrozen (Z.lor m HEAP_XMIN_COMMITTED) = XminFrozen m.
Proof.
  rewrite XminCommitted_has, XminInvalid_has, !XminFrozen_has. intros Hc. rewrite Hc. cbn.
  rewrite andb_true_r, andb_false_r. intros Hi. flag_rw. by rewrite Hi.
Qed.

Lemma frozen_xmin_invalid m :
  XminCommitted m = false -> XminFrozen (Z.lor m HEAP_XMIN_INVALID) = XminFrozen m.
Proof.
  rewrite XminCommitted_has, !XminFrozen_has. intros Hc. flag_rw. rewrite Hc.
  by rewrite !andb_false_r.
Qed.

Lemma frozen_xmax m f : f = HEAP_XMAX_COMMITTED \/ f = HEAP_XMAX_INVALID ->
  XminFrozen (Z.lor m f) = XminFrozen m.
Proof. intros [-> | ->]; rewrite !XminFrozen_has; flag_rw; done. Qed.

Lemma in_hints : HEAP_XMIN_COMMITTED ∈ hint_flags /\ HEAP_XMIN_INVALID ∈ hint_flags
  /\ HEAP_XMAX_COMMITTED ∈ hint_flags /\ HEAP_XMAX_INVALID ∈ hint_flags.
Proof. unfold hint_flags. set_solver. Qed.

(** ** The hints the routines set *)

Lemma set_xmin_committed h t t1 t' :
  hints_ok h t -> XminCommitted (t_infomask h) = false -> XminInvalid (t_infomask h) = false ->
  TransactionIdDidCommit t1 (t_xmin h) = true -> (t <= t1)%nat -> (t1 <= t')%nat ->
  evolves h t (hinted HEAP_XMIN_COMMITTED h) t'.
Proof.
  intros H Hc Hi Hd H1 H2.
  apply evolves_hint; [apply in_hints|lia| |by apply frozen_xmin_committed].
  apply hint_xmin_committed; [apply (hints_ok_later h t); [lia|done]|done|done|].
  by eapply commit_stable.
Qed.

Lemma set_xmin_invalid h t t1 t' :
  hints_ok h t -> XminCommitted (t_infomask h) = false ->
  dead_xact t1 (t_xmin h) -> (t <= t1)%nat -> (t1 <= t')%nat ->
  evolves h t (hinted HEAP_XMIN_INVALID h) t'.
Proof.
  intros H Hc Hd H1 H2. apply evolves_hint; [apply in_hints|lia| |by apply frozen_xmin_invalid].
  apply hint_xmin_invalid; [apply (hints_ok_later h t); [lia|done]|done|].
  by eapply dead_xact_later.
Qed.

Lemma set_xmax_invalid h t t1 t' :
  hints_ok h t ->
  (HEAP_XMAX_IS_LOCKED_ONLY (t_infomask h) = false -> dead_xact t1 (deleter h)) ->
  (t <= t1)%nat -> (t1 <= t')%nat ->
  evolves h t (hinted HEAP_XMAX_INVALID h) t'.
Proof.
  intros H Hd H1 H2. apply evolves_hint; [apply in_hints|lia| |apply frozen_xmax; by right].
  apply hint_xmax_invalid; [apply (hints_ok_later h t); [lia|done]|].
  intros Hl. eapply dead_xact_later; [|by apply Hd]. lia.
Qed.

Lemma set_xmax_committed h t t1 t' :
  hints_ok h t -> has (t_infomask h) HEAP_XMAX_INVALID = false ->
  has (t_infomask h) HEAP_XMAX_IS_MULTI = false ->
  TransactionIdDidCommit t1 (t_xmax h) = true -> (t <= t1)%nat -> (t1 <= t')%nat ->
  evolves h t (hinted HEAP_XMAX_COMMITTED h) t'.
Proof.
  intros H Hi Hm Hd H1 H2.
  apply evolves_hint; [apply in_hints|lia| |apply frozen_xmax; by left].
  apply hint_xmax_committed; [apply (hints_ok_later h t); [lia|done]|done|done|].
  by eapply commit_stable.
Qed.

(** The three ways a deleter is found dead. *)
Lemma deleter_own h t :
  tuple_ok h t -> TransactionIdIsCurrentTransactionId (t_xmin h) = true ->
  has (t_infomask h) HEAP_XMAX_IS_MULTI = false ->
  TransactionIdIsCurrentTransactionId (t_xmax h) = false ->
  HEAP_XMAX_IS_LOCKED_ONLY (t_infomask h) = false -> dead_xact t (deleter h).
Proof.
  intros (_ & _ & H) Hc Hm Hx Hl. apply H; [done..|]. unfold deleter. by rewrite Hm.
Qed.

Lemma deleter_asked h t1 t2 :
  has (t_infomask h) HEAP_XMAX_IS_MULTI = false ->
  TransactionIdIsInProgress t1 (t_xmax h) = false ->
  TransactionIdDidCommit t2 (t_xmax h) = false -> (t1 <= t2)%nat -> dead_xact t2 (deleter h).
Proof.
  intros Hm Hp Hc Ht. unfold deleter. rewrite Hm. split; [by eapply finished_stable|done].
Qed.

Lemma deleter_multi h t1 t2 :
  has (t_infomask h) HEAP_XMAX_IS_MULTI = true ->
  TransactionIdIsInProgress t1 (HeapTupleGetUpdateXid h) = false ->
  TransactionIdDidCommit t2 (HeapTupleGetUpdateXid h) = false -> (t1 <= t2)%nat ->
  dead_xact t2 (deleter h).
Proof.
  intros Hm Hp Hc Ht. unfold deleter. rewrite Hm. split; [by eapply finished_stable|done].
Qed.

(** ** The common tail for [xmin] *)

(** [busy], asked from [t0] on, decides after some time whether a transaction
    is over. *)
Definition decides (t0 : nat) (busy : Z -> M VisState bool) (x : Z) : Prop :=
  forall (Q : bool -> HeapTupleHeader -> nat -> Prop) h t, (t0 <= t)%nat ->
    (forall b t', (t <= t')%nat -> (b = false -> TransactionIdIsInProgress t' x = false) ->
       Q b h t') -> vwp (busy x) Q h t.

Lemma in_progress_decides t0 x : decides t0 in_progress x.
Proof.
  intros Q h t _ H. apply vwp_ask, H; [lia|]. intros Hp. eapply finished_stable; [|done]. lia.
Qed.

Lemma in_snapshot_decides t0 sn x : (snapshot_taken sn <= t0)%nat ->
  TransactionIdIsCurrentTransactionId x = false -> decides t0 (in_snapshot sn) x.
Proof.
  intros Ht0 Hc Q h t Ht H. apply vwp_ret, H; [lia|]. intros Hs. eapply snapshot_finished; [|done..]. lia.
Qed.

Lemma vwp_xmin_outcome {R} (running aborted : R) busy (Q : option R -> HeapTupleHeader -> nat -> Prop) h t :
  hints_ok h t -> XminCommitted (t_infomask h) = false -> XminInvalid (t_infomask h) = false ->
  decides t busy (t_xmin h) ->
  (forall t', (t <= t')%nat -> Q (Some running) h t') ->
  (forall h' t', evolves h t h' t' -> TransactionIdDidCommit t' (t_xmin h) = true ->
     Q None h' t') ->
  (forall h' t', evolves h t h' t' -> dead_xact t' (t_xmin h) -> Q (Some aborted) h' t') ->
  vwp (xmin_outcome running aborted busy) Q h t.
Proof.
  intros Hok Hc Hi Hbusy Hrun Hcom Hab. unfold xmin_outcome.
  apply vwp_bind, vwp_header, vwp_bind, Hbusy; [done|]. intros b t1 Ht1 Hb.
  destruct b; [apply vwp_ret; by apply Hrun|]. specialize (Hb eq_refl).
  apply vwp_bind, vwp_ask. destruct (TransactionIdDidCommit t1 (t_xmin h)) eqn:Hd; vis.
  - apply Hcom; [by apply evolves_stay; [|lia]|].
    eapply commit_stable; [|done]. lia.
  - apply Hcom; [by eapply (set_xmin_committed h t t1); try done; lia|].
    eapply commit_stable; [|done]. lia.
  - apply Hab; [by apply evolves_stay; [|lia]|]. eapply (dead_xact_later t1); [lia|by split].
  - apply Hab; [eapply (set_xmin_invalid h t t1); try done; lia|].
    eapply (dead_xact_later t1); [lia|by split].
Qed.
End hints.

(** A leaf of a routine: the header is as it was, or one hint was set. *)
Ltac not_moved H :=
  let A := fresh in let B := fresh in
  pose proof (proj1 H) as A; pose proof (proj1 (proj2 H)) as B; rewrite ?A, ?B; clear A B.

Ltac hint_leaf :=
  first
  [ apply evolves_stay; [eassumption|lia]
  | eapply set_xmax_invalid; [eassumption|intros ?; congruence|reflexivity|lia]
  | eapply set_xmax_invalid;
      [eassumption|intros ?; eapply deleter_own; eassumption|reflexivity|lia]
  | eapply set_xmax_invalid;
      [eassumption|intros ?; eapply deleter_asked; [eassumption..|lia]|lia|lia]
  | eapply set_xmax_invalid;
      [eassumption|intros ?; eapply deleter_multi; [eassumption..|lia]|lia|lia]
  | eapply set_xmax_committed; [eassumption..|lia|lia] ].

Section routines.
Context `{HH : HtupFlags} `{HHL : !HtupFlagsLaws} `{HW : World} `{HWL : !WorldLaws}.

(** A routine keeps hints sound. *)
Definition keeps_hints {A} (m : M VisState A) : Prop :=
  forall h t, hints_ok h t -> tuple_ok h t -> vwp m (fun _ h' t' => evolves h t h' t') h t.

Lemma keeps_or_else {R} (m : M VisState (option R)) k :
  keeps_hints m -> keeps_hints k -> keeps_hints (or_else m k).
Proof.
  intros Hm Hk h t Hok Htok. apply vwp_or_else.
  eapply vwp_mono; [by apply Hm|]. intros [r|] h1 t1 He; [done|].
  eapply vwp_mono; [apply Hk; [by destruct He as (_ & _ & _ & ?)|by eapply evolves_tuple_ok]|].
  intros r h2 t2 He2. by eapply evolves_trans.
Qed.

(** The same, once a snapshot has been taken. *)
Definition keeps_since {A} (sn : Snapshot) (m : M VisState A) : Prop :=
  forall h t, (snapshot_taken sn <= t)%nat -> hints_ok h t -> tuple_ok h t ->
    vwp m (fun _ h' t' => evolves h t h' t') h t.

Lemma keeps_hints_since {A} sn (m : M VisState A) : keeps_hints m -> keeps_since sn m.
Proof. intros Hm h t _. apply Hm. Qed.

Lemma since_or_else {R} sn (m : M VisState (option R)) k :
  keeps_since sn m -> keeps_since sn k -> keeps_since sn (or_else m k).
Proof.
  intros Hm Hk h t Hsn Hok Htok. apply vwp_or_else.
  eapply vwp_mono; [by apply Hm|]. intros [r|] h1 t1 He; [done|].
  eapply vwp_mono; [apply Hk; [destruct He; lia|apply He|by eapply evolves_tuple_ok]|].
  intros r h2 t2 He2. by eapply evolves_trans.
Qed.

Lemma keeps_Self_xmax : keeps_hints Self_xmax.
Proof. intros h t Hok Htok. unfold Self_xmax. vis; hint_leaf. Qed.

Lemma keeps_Self_own h t :
  hints_ok h t -> tuple_ok h t -> TransactionIdIsCurrentTransactionId (t_xmin h) = true ->
  vwp Self_own (fun _ h' t' => evolves h t h' t') h t.
Proof. intros Hok Htok Hcur. unfold Self_own. vis; hint_leaf. Qed.

(** The shape of the first half of every routine. *)
Ltac keep_xmin decide_tac :=
  let h := fresh "h" in let t := fresh "t" in
  intros h t Hok Htok; apply vwp_bind, vwp_header; not_moved Htok; vis;
  try hint_leaf;
  lazymatch goal with
  | |- vwp (xmin_outcome _ _ _) _ _ _ =>
      apply vwp_xmin_outcome; [done|done|done|decide_tac|intros; hint_leaf|done|done]
  | |- vwp _ _ _ _ =>
      eapply vwp_mono; [solve [eauto with keep_own]|];
      let He := fresh in intros ? ? ? He; apply vwp_ret; exact He
  end.
#[local] Hint Resolve keeps_Self_own : keep_own.

Lemma keeps_Self_xmin : keeps_hints Self_xmin.
Proof. unfold Self_xmin. keep_xmin ltac:(apply in_progress_decides). Qed.

Lemma keeps_Toast : keeps_hints HeapTupleSatisfiesToast.
Proof.
  intros h t Hok Htok. unfold HeapTupleSatisfiesToast. apply vwp_bind, vwp_header.
  apply vwp_or_else. not_moved Htok. vis; hint_leaf.
Qed.

Lemma keeps_Update_own c h t :
  hints_ok h t -> tuple_ok h t -> TransactionIdIsCurrentTransactionId (t_xmin h) = true ->
  vwp (Update_own c) (fun _ h' t' => evolves h t h' t') h t.
Proof. intros Hok Htok Hcur. unfold Update_own, Update_own_locked. vis; hint_leaf. Qed.
#[local] Hint Resolve keeps_Update_own : keep_own.

Lemma keeps_Update_xmin c : keeps_hints (Update_xmin c).
Proof. unfold Update_xmin. keep_xmin ltac:(apply in_progress_decides). Qed.

(** A multixact that is not running any more has no running updater. *)
Lemma multi_over h t lockOnly :
  MultiXactIdIsRunning t (t_xmax h) lockOnly = false ->
  HEAP_XMAX_IS_LOCKED_ONLY (t_infomask h) = false ->
  has (t_infomask h) HEAP_XMAX_IS_MULTI = true ->
  TransactionIdIsInProgress t (HeapTupleGetUpdateXid h) = false.
Proof. apply multi_finished. Qed.

Lemma keeps_Update_multi ts c h t :
  hints_ok h t -> tuple_ok h t -> has (t_infomask h) HEAP_XMAX_IS_MULTI = true ->
  vwp (Update_multi ts c) (fun _ h' t' => evolves h t h' t') h t.
Proof.
  intros Hok Htok Hm. unfold Update_multi. vis; try hint_leaf.
  all: match goal with
       | E : MultiXactIdIsRunning _ _ false = false |- _ =>
           let F := fresh in
           pose proof (multi_over _ _ _ E ltac:(assumption) Hm) as F; clear E; hint_leaf
       end.
Qed.

Lemma keeps_Update_xmax ts c : keeps_hints (Update_xmax ts c).
Proof.
  intros h t Hok Htok. unfold Update_xmax. vis; try hint_leaf.
  by apply keeps_Update_multi.
Qed.

Lemma keeps_Dirty_xmin : keeps_hints Dirty_xmin.
Proof. unfold Dirty_xmin. keep_xmin ltac:(apply in_progress_decides). Qed.

Lemma keeps_Dirty_xmax : keeps_hints Dirty_xmax.
Proof. intros h t Hok Htok. unfold Dirty_xmax. vis; hint_leaf. Qed.

Lemma keeps_MVCC_own sn h t :
  hints_ok h t -> tuple_ok h t -> TransactionIdIsCurrentTransactionId (t_xmin h) = true ->
  vwp (MVCC_own sn) (fun _ h' t' => evolves h t h' t') h t.
Proof. intros Hok Htok Hcur. unfold MVCC_own. vis; hint_leaf. Qed.
#[local] Hint Resolve keeps_MVCC_own : keep_own.

Lemma keeps_MVCC_xmin sn : keeps_since sn (MVCC_xmin sn).
Proof.
  intros h t Hsn Hok Htok. unfold MVCC_xmin. apply vwp_bind, vwp_header. not_moved Htok. vis; try hint_leaf.
  - eapply vwp_mono; [by apply keeps_MVCC_own|]. intros r h' t' He. by apply vwp_ret.
  - apply vwp_xmin_outcome; [done|done|done|by apply in_snapshot_decides|intros; hint_leaf|done|done].
Qed.

Lemma keeps_Only_locked : keeps_hints HeapTupleHeaderIsOnlyLocked.
Proof. intros h t Hok Htok. unfold HeapTupleHeaderIsOnlyLocked. vis; hint_leaf. Qed.

(** Not in the snapshot and not ours: over. *)
Ltac snapshot_over :=
  repeat match goal with
  | E : XidInMVCCSnapshot ?x ?sn = false, F : TransactionIdIsCurrentTransactionId ?x = false,
    S : (snapshot_taken ?sn <= _)%nat |- evolves _ ?t0 _ _ =>
      let G := fresh in pose proof (snapshot_finished t0 x sn S E F) as G; clear E
  end.

Lemma keeps_MVCC_xmax sn : keeps_since sn (MVCC_xmax sn).
Proof. intros h t Hsn Hok Htok. unfold MVCC_xmax. vis; snapshot_over; hint_leaf. Qed.

Lemma keeps_Vacuum_own h t :
  hints_ok h t -> tuple_ok h t -> TransactionIdIsCurrentTransactionId (t_xmin h) = true ->
  vwp Vacuum_own (fun _ h' t' => evolves h t h' t') h t.
Proof.
  intros Hok Htok Hcur. unfold Vacuum_own, HeapTupleHeaderIsOnlyLocked. vis; hint_leaf.
Qed.
#[local] Hint Resolve keeps_Vacuum_own : keep_own.

Lemma keeps_Vacuum_xmin : keeps_hints Vacuum_xmin.
Proof. unfold Vacuum_xmin. keep_xmin ltac:(apply in_progress_decides). Qed.

Lemma keeps_Vacuum_xmax : keeps_hints Vacuum_xmax.
Proof.
  intros h t Hok Htok. unfold Vacuum_xmax, Vacuum_locked, Vacuum_multi. vis; hint_leaf.
Qed.
End routines.
