(* ===== verification/VisibilitySpec.v ===== *)
(** What the visibility routines mean: the MVCC rule, what it takes for
    an update to proceed, and what VACUUM may remove. *)
From stdpp Require Import relations.
From S2P Require Import Prelude Visibility VisibilityProps VisibilityHints.

Section spec.
Context `{HH : HtupFlags} `{HHL : !HtupFlagsLaws} `{HW : World} `{HWL : !WorldLaws}.

(** ** The MVCC rule, without hint bits *)

(** The inserting transaction is visible to the snapshot. *)
Definition mvcc_inserted (sn : Snapshot) (h : HeapTupleHeader) (t : nat) : bool :=
  if XminFrozen (t_infomask h) then true
  else if TransactionIdIsCurrentTransactionId (t_xmin h)
  then HeapTupleHeaderGetCmin h <? curcid sn
  else negb (XidInMVCCSnapshot (t_xmin h) sn) && TransactionIdDidCommit t (t_xmin h).

(** The deleting transaction, if there is one, is visible to it. *)
Definition mvcc_deleted (sn : Snapshot) (h : HeapTupleHeader) (t : nat) : bool :=
  if HEAP_XMAX_IS_LOCKED_ONLY (t_infomask h) then false
  else if TransactionIdIsCurrentTransactionId (deleter h)
  then HeapTupleHeaderGetCmax h <? curcid sn
  else negb (XidInMVCCSnapshot (deleter h) sn) && TransactionIdDidCommit t (deleter h).

Definition mvcc_visible (sn : Snapshot) (h : HeapTupleHeader) (t : nat) : bool :=
  mvcc_inserted sn h t && negb (mvcc_deleted sn h t).

Lemma ltb_leb a b : (a <? b) = negb (b <=? a).
Proof. apply Z.ltb_antisym. Qed.

(** A transaction outside the snapshot has the outcome it had. *)
Lemma outside_snapshot_fixed sn t t' x :
  (snapshot_taken sn <= t <= t')%nat -> XidInMVCCSnapshot x sn = false ->
  TransactionIdIsCurrentTransactionId x = false ->
  TransactionIdDidCommit t' x = TransactionIdDidCommit t x.
Proof.
  intros [Hsn Ht] Hs Hc. destruct (TransactionIdDidCommit t x) eqn:E.
  - by eapply commit_stable.
  - eapply outcome_final; [done| |done]. by eapply snapshot_finished.
Qed.

(** Neither time nor hints change the rule. *)
Lemma mvcc_deleted_stable sn h t h' t' :
  (snapshot_taken sn <= t <= t')%nat -> same_tuple h h' -> mvcc_deleted sn h' t' = mvcc_deleted sn h t.
Proof.
  intros Ht Hs. destruct (same_tuple_facts h h' Hs)
    as (E1 & E2 & E3 & E4 & E5 & E6 & E7 & E8 & E9 & E10 & E11).
  unfold mvcc_deleted. rewrite E4, E8, E10.
  destruct (HEAP_XMAX_IS_LOCKED_ONLY (t_infomask h)); [done|].
  destruct (TransactionIdIsCurrentTransactionId (deleter h)) eqn:Hc; [done|].
  destruct (XidInMVCCSnapshot (deleter h) sn) eqn:Hsn; [done|]. cbn.
  by eapply outside_snapshot_fixed.
Qed.

Lemma MVCC_xmax_rule sn h t :
  hints_ok h t -> vwp (MVCC_xmax sn) (fun r _ _ => r = negb (mvcc_deleted sn h t)) h t.
Proof.
  intros (_ & _ & H3 & H4). unfold MVCC_xmax, own_delete_visible, mvcc_deleted, deleter in *.
  vis; repeat match goal with E : ?b = ?c |- context [?b] => rewrite E end;
    rewrite ?ltb_leb, ?negb_involutive; try done.
  - fold (deleter h) in *. destruct (HEAP_XMAX_IS_LOCKED_ONLY (t_infomask h)); [done|].
    specialize (H3 eq_refl eq_refl).
    rewrite (dead_xact_not_current _ _ H3). destruct H3 as [_ ->]. by rewrite andb_false_r.
  - destruct H4 as [_ Hd]; [done..|]. rewrite (committed_not_current _ _ Hd), Hd.
    by rewrite andb_true_r, negb_involutive.
Qed.

Lemma MVCC_own_rule sn h t :
  hints_ok h t -> tuple_ok h t -> XminFrozen (t_infomask h) = false ->
  TransactionIdIsCurrentTransactionId (t_xmin h) = true ->
  vwp (MVCC_own sn) (fun r _ _ => r = mvcc_visible sn h t) h t.
Proof.
  intros (_ & _ & H3 & _) (_ & _ & Ho) Hf Hc. specialize (Ho Hc).
  unfold MVCC_own, own_delete_visible, mvcc_visible, mvcc_inserted, mvcc_deleted, deleter in *.
  rewrite Hf, Hc.
  vis; repeat match goal with E : ?b = ?c |- context [?b] => rewrite E end;
    rewrite ?ltb_leb, ?negb_involutive;
    repeat match goal with E : ?b = ?c |- context [?b] => rewrite E end;
    try done; cbn [negb andb].
  1: { fold (deleter h) in *. destruct (HEAP_XMAX_IS_LOCKED_ONLY (t_infomask h)); [done|].
       specialize (H3 eq_refl eq_refl).
       rewrite (dead_xact_not_current _ _ H3). destruct H3 as [_ ->]. by rewrite andb_false_r. }
  all: destruct (Ho eq_refl eq_refl) as [_ ->]; by rewrite andb_false_r.
Qed.

Lemma not_frozen m : XminCommitted m = false -> XminFrozen m = false.
Proof. rewrite XminFrozen_has, XminCommitted_has. intros ->. apply andb_false_r. Qed.

(** The first half answers, or the inserter is visible. *)
Lemma MVCC_xmin_rule sn h t :
  hints_ok h t -> tuple_ok h t ->
  vwp (MVCC_xmin sn)
    (fun r h' t' => match r with
                    | Some b => b = mvcc_visible sn h t
                    | None => mvcc_inserted sn h t = true
                    end) h t.
Proof.
  intros Hok Htok. pose proof Hok as (H1 & H2 & _).
  unfold MVCC_xmin, xmin_outcome, in_snapshot. apply vwp_bind, vwp_header. not_moved Htok.
  vis; unfold mvcc_visible, mvcc_inserted in *.
  - destruct (XminFrozen (t_infomask h)); [done|]. cbn [negb andb] in *.
    rewrite (committed_not_current t) by auto. by rewrite Heqb0.
  - destruct (XminFrozen (t_infomask h)) eqn:Hf; [done|]. cbn [negb andb] in *.
    rewrite (committed_not_current t) by auto. rewrite Heqb0. cbn. auto.
  - destruct (H2 eq_refl) as [Hp Hd]. rewrite not_frozen by done.
    rewrite (dead_xact_not_current t) by (by split). rewrite Hd. by rewrite andb_false_r.
  - pose proof (not_frozen _ Heqb) as Hf.
    eapply vwp_mono; [by apply MVCC_own_rule|]. intros r h' t' ->. by apply vwp_ret.
  - rewrite not_frozen, Heqb1, Heqb2 by done. done.
  - rewrite not_frozen, Heqb1, Heqb2, Heqb3 by done. done.
  - rewrite not_frozen, Heqb1, Heqb2, Heqb3 by done. done.
  - rewrite not_frozen, Heqb1, Heqb2, Heqb3 by done. done.
  - rewrite not_frozen, Heqb1, Heqb2, Heqb3 by done. done.
Qed.

Lemma keeps_MVCC sn : keeps_since sn (HeapTupleSatisfiesMVCC sn).
Proof. apply since_or_else; [apply keeps_MVCC_xmin|apply keeps_MVCC_xmax]. Qed.

Lemma vwp_and {A} (m : M VisState A) (Q1 Q2 : A -> HeapTupleHeader -> nat -> Prop) h t :
  vwp m Q1 h t -> vwp m Q2 h t -> vwp m (fun a h' t' => Q1 a h' t' /\ Q2 a h' t') h t.
Proof.
  intros H1 H2 d. specialize (H1 d). specialize (H2 d).
  by destruct (m _) as [[a|l| |] s'].
Qed.

Lemma HeapTupleSatisfiesMVCC_rule sn h t :
  (snapshot_taken sn <= t)%nat -> hints_ok h t -> tuple_ok h t ->
  vwp (HeapTupleSatisfiesMVCC sn)
    (fun r h' t' => r = mvcc_visible sn h t /\ evolves h t h' t') h t.
Proof.
  intros Hsn Hok Htok. apply vwp_and; [|by apply keeps_MVCC].
  apply vwp_or_else. eapply vwp_mono.
  { apply vwp_and; [by apply MVCC_xmin_rule|by apply keeps_MVCC_xmin]. }
  intros [b|] h1 t1 [Hr (Ht & Hs & _ & Hok1)]; [done|].
  eapply vwp_mono; [by apply MVCC_xmax_rule|]. intros r h2 t2 ->.
  unfold mvcc_visible. rewrite Hr. cbn. f_equal. by apply mvcc_deleted_stable.
Qed.

Lemma mvcc_inserted_stable sn h t h' t' :
  (snapshot_taken sn <= t)%nat -> evolves h t h' t' ->
  mvcc_inserted sn h' t' = mvcc_inserted sn h t.
Proof.
  intros Hsn (Ht & Hs & Hf & _). destruct (same_tuple_facts h h' Hs)
    as (E1 & _ & _ & _ & _ & _ & _ & _ & E9 & _).
  unfold mvcc_inserted. rewrite Hf, E1, E9.
  destruct (XminFrozen (t_infomask h)); [done|].
  destruct (TransactionIdIsCurrentTransactionId (t_xmin h)) eqn:Hc; [done|].
  destruct (XidInMVCCSnapshot (t_xmin h) sn) eqn:Hx; [done|]. cbn.
  by eapply outside_snapshot_fixed.
Qed.

Lemma mvcc_visible_stable sn h t h' t' :
  (snapshot_taken sn <= t)%nat -> evolves h t h' t' -> mvcc_visible sn h' t' = mvcc_visible sn h t.
Proof.
  intros Hsn He. unfold mvcc_visible. rewrite (mvcc_inserted_stable sn h t h' t' Hsn He).
  destruct He as (Ht & Hs & _). by rewrite (mvcc_deleted_stable sn h t h' t').
Qed.

(** ** Updates, dirty reads and VACUUM *)

(** The inserter is ours, committed, or so old that it is frozen. *)
Definition inserter_in (h : HeapTupleHeader) (t : nat) : Prop :=
  TransactionIdIsCurrentTransactionId (t_xmin h) = true
  \/ TransactionIdDidCommit t (t_xmin h) = true \/ XminFrozen (t_infomask h) = true.

(** Nobody deleted the tuple or can still do so by committing. *)
Definition no_deleter (h : HeapTupleHeader) (t : nat) : Prop :=
  HEAP_XMAX_IS_LOCKED_ONLY (t_infomask h) = true \/ dead_xact t (deleter h).

(** The deletion took effect, or is our own. *)
Definition deleted_by (h : HeapTupleHeader) (t : nat) : Prop :=
  HEAP_XMAX_IS_LOCKED_ONLY (t_infomask h) = false
  /\ (TransactionIdIsCurrentTransactionId (deleter h) = true
      \/ TransactionIdDidCommit t (deleter h) = true).

Lemma no_deleter_later h t t' : (t <= t')%nat -> no_deleter h t -> no_deleter h t'.
Proof. intros Ht [H|H]; [by left|right]. by eapply dead_xact_later. Qed.

(** A header that only gained hints. *)
Lemma no_deleter_same h h' t : same_tuple h h' -> no_deleter h' t -> no_deleter h t.
Proof.
  intros (_ & _ & _ & E4 & _ & _ & _ & E8 & _)%same_tuple_facts.
  unfold no_deleter. by rewrite E4, E8.
Qed.

Lemma deleted_by_same h h' t : same_tuple h h' -> deleted_by h' t -> deleted_by h t.
Proof.
  intros (_ & _ & _ & E4 & _ & _ & _ & E8 & _)%same_tuple_facts.
  unfold deleted_by. by rewrite E4, E8.
Qed.

Lemma hinted_invalid h t :
  hints_ok h t -> has (t_infomask h) HEAP_XMAX_INVALID = true -> no_deleter h t.
Proof.
  intros (_ & _ & H3 & _) Hi. unfold no_deleter.
  destruct (HEAP_XMAX_IS_LOCKED_ONLY (t_infomask h)) eqn:E; [by left|right; auto].
Qed.

Lemma hinted_inserter h t :
  hints_ok h t -> XminCommitted (t_infomask h) = true -> inserter_in h t.
Proof.
  intros (H1 & _) Hc. unfold inserter_in.
  destruct (XminFrozen (t_infomask h)) eqn:E; [by right; right|right; left; auto].
Qed.
End spec.

(** What is known of the deleter at a leaf of a rule. *)
Ltac deleter_dead :=
  first
  [ left; assumption
  | left; by apply upgraded_locked
  | apply hinted_invalid;
      [eapply hints_ok_later; [|eassumption]; lia|assumption]
  | right; eapply dead_xact_later; [|eapply deleter_own; [eassumption..|]]; [lia|assumption]
  | right; eapply dead_xact_later;
      [|eapply deleter_asked; [eassumption| | |]]; [|eassumption..|]; lia
  | right; eapply dead_xact_later;
      [|eapply deleter_multi; [eassumption| | |]]; [|eassumption..|]; lia ].

Section rules.
Context `{HH : HtupFlags} `{HHL : !HtupFlagsLaws} `{HW : World} `{HWL : !WorldLaws}.

(** What each verdict of HeapTupleSatisfiesUpdate tells its caller, at
    moment [t'] of its return. *)
Definition update_rule (t_self : Z * Z) (c : Z) (h : HeapTupleHeader) (t' : nat)
    (r : TM_Result) : Prop :=
  match r with
  | TM_Ok => no_deleter h t'
  | TM_Updated | TM_Deleted =>
      HEAP_XMAX_IS_LOCKED_ONLY (t_infomask h) = false
      /\ TransactionIdDidCommit t' (deleter h) = true
      /\ (r = TM_Deleted <-> t_self = t_ctid h)
  | TM_SelfModified =>
      TransactionIdIsCurrentTransactionId (deleter h) = true /\ c <= HeapTupleHeaderGetCmax h
  | TM_Invisible =>
      (TransactionIdIsCurrentTransactionId (deleter h) = true /\ HeapTupleHeaderGetCmax h < c)
      \/ (TransactionIdIsCurrentTransactionId (t_xmin h) = true /\ c <= HeapTupleHeaderGetCmin h)
  | TM_BeingModified => True
  | TM_WouldBlock => False
  end.

Lemma self_modified_rule ts c h t' :
  TransactionIdIsCurrentTransactionId (deleter h) = true ->
  update_rule ts c h t' (self_modified c h).
Proof.
  intros Hc. unfold self_modified. destruct (Z.leb_spec c (HeapTupleHeaderGetCmax h)); cbn; auto.
Qed.

Lemma updated_or_deleted_rule ts c h t t' :
  (t <= t')%nat -> HEAP_XMAX_IS_LOCKED_ONLY (t_infomask h) = false ->
  TransactionIdDidCommit t (deleter h) = true ->
  update_rule ts c h t' (updated_or_deleted ts h).
Proof.
  intros Ht Hl Hd. assert (TransactionIdDidCommit t' (deleter h) = true) by (by eapply commit_stable).
  unfold updated_or_deleted. case_bool_decide; cbn; done.
Qed.

Lemma deleter_single h :
  has (t_infomask h) HEAP_XMAX_IS_MULTI = false -> deleter h = t_xmax h.
Proof. unfold deleter. by intros ->. Qed.

Lemma deleter_update_xid h :
  has (t_infomask h) HEAP_XMAX_IS_MULTI = true -> deleter h = HeapTupleGetUpdateXid h.
Proof. unfold deleter. by intros ->. Qed.
End rules.

Ltac deleter_is :=
  first [rewrite deleter_single by assumption | rewrite deleter_update_xid by assumption].

(** A leaf of the update rule. *)
Ltac update_leaf :=
  first
  [ exact I
  | apply self_modified_rule; deleter_is; assumption
  | eapply updated_or_deleted_rule; [|assumption|deleter_is; eassumption]; lia
  | cbn [update_rule]; deleter_dead ].

Section update.
Context `{HH : HtupFlags} `{HHL : !HtupFlagsLaws} `{HW : World} `{HWL : !WorldLaws}.

Lemma Update_own_rule ts c h t :
  hints_ok h t -> tuple_ok h t -> TransactionIdIsCurrentTransactionId (t_xmin h) = true ->
  vwp (Update_own c) (fun r _ t' => update_rule ts c h t' r) h t.
Proof.
  intros Hok Htok Hcur. pose proof Htok as (_ & _ & Ho). specialize (Ho Hcur).
  unfold Update_own, Update_own_locked. vis; try update_leaf.
  - right. split; [done|lia].
  - destruct (MultiXactIdIsRunning _ _ _); cbn [negb]; update_leaf.
  - destruct (TransactionIdIsInProgress _ _); cbn [negb]; update_leaf.
  - destruct (MultiXactIdIsRunning _ _ _); cbn [negb]; [exact I|].
    right. eapply dead_xact_later; [|apply Ho; [done|by deleter_is]]. lia.
Qed.

Lemma Update_multi_rule ts c h t :
  hints_ok h t -> has (t_infomask h) HEAP_XMAX_INVALID = false ->
  has (t_infomask h) HEAP_XMAX_IS_MULTI = true ->
  vwp (Update_multi ts c) (fun r _ t' => update_rule ts c h t' r) h t.
Proof.
  intros Hok Hi Hm. unfold Update_multi. vis; try update_leaf.
  all: match goal with
       | E : MultiXactIdIsRunning ?u _ false = false |- _ =>
           assert (TransactionIdIsInProgress u (HeapTupleGetUpdateXid h) = false)
             by (eapply multi_over; eassumption);
           clear E; update_leaf
       end.
Qed.

Lemma Update_xmax_rule ts c h t :
  hints_ok h t ->
  vwp (Update_xmax ts c) (fun r _ t' => update_rule ts c h t' r) h t.
Proof.
  intros Hok. pose proof Hok as (_ & _ & _ & H4). unfold Update_xmax.
  vis; try update_leaf.
  - destruct (HEAP_XMAX_IS_LOCKED_ONLY (t_infomask h)) eqn:Hl; [by left|].
    destruct H4 as [Hm Hd]; [done..|].
    eapply updated_or_deleted_rule; [|done|by deleter_is]. lia.
  - by apply Update_multi_rule.
  - destruct (HEAP_XMAX_IS_LOCKED_ONLY (t_infomask h)) eqn:Hl; update_leaf.
Qed.

Lemma update_rule_same ts c h h' t r :
  same_tuple h h' -> update_rule ts c h' t r -> update_rule ts c h t r.
Proof.
  intros (E1 & _ & E3 & E4 & _ & _ & _ & E8 & E9 & E10 & _)%same_tuple_facts.
  unfold update_rule, no_deleter. by rewrite E1, E3, E4, E8, E9, E10.
Qed.

(** The inserter is another transaction, running or dead. *)
Definition inserter_out (h : HeapTupleHeader) (t t' : nat) : Prop :=
  TransactionIdIsCurrentTransactionId (t_xmin h) = false
  /\ (TransactionIdIsInProgress t (t_xmin h) = true \/ dead_xact t' (t_xmin h)).

Lemma inserter_in_later h t t' : (t <= t')%nat -> inserter_in h t -> inserter_in h t'.
Proof.
  intros Ht [H|[H|H]]; [by left|right; left|by right; right]. by eapply commit_stable.
Qed.

Lemma out_hinted h t t' :
  hints_ok h t -> XminInvalid (t_infomask h) = true -> (t <= t')%nat -> inserter_out h t t'.
Proof.
  intros (_ & H2 & _) Hi Ht. specialize (H2 Hi).
  split; [by eapply dead_xact_not_current|right; by eapply dead_xact_later].
Qed.

Lemma out_running h t t' :
  TransactionIdIsCurrentTransactionId (t_xmin h) = false ->
  TransactionIdIsInProgress t (t_xmin h) = true -> inserter_out h t t'.
Proof. intros Hc Hr. split; [done|by left]. Qed.

Lemma out_aborted h t t1 t2 t' :
  TransactionIdIsCurrentTransactionId (t_xmin h) = false ->
  TransactionIdIsInProgress t1 (t_xmin h) = false ->
  TransactionIdDidCommit t2 (t_xmin h) = false -> (t1 <= t2 <= t')%nat ->
  inserter_out h t t'.
Proof.
  intros Hc Hp Hd [H1 H2]. split; [done|right]. apply (dead_xact_later t2); [done|].
  split; [by eapply finished_stable|done].
Qed.

Lemma in_committed h t t' :
  TransactionIdDidCommit t (t_xmin h) = true -> (t <= t')%nat -> inserter_in h t'.
Proof. intros H Ht. right; left. by eapply commit_stable. Qed.
End update.

(** What is known of the inserter at a leaf of a rule. *)
Ltac inserter_leaf :=
  first
  [ by apply hinted_inserter
  | by left
  | eapply in_committed; [eassumption|lia]
  | eapply out_hinted; [eassumption|assumption|lia]
  | by apply out_running
  | eapply out_aborted; [eassumption|eassumption|eassumption|lia] ].

Section verdicts.
Context `{HH : HtupFlags} `{HHL : !HtupFlagsLaws} `{HW : World} `{HWL : !WorldLaws}.

(** The verdict, with what it tells of the inserter. *)
Definition update_verdict (ts : Z * Z) (c : Z) (h : HeapTupleHeader) (t t' : nat)
    (r : TM_Result) : Prop :=
  (inserter_in h t' /\ update_rule ts c h t' r) \/ (r = TM_Invisible /\ inserter_out h t t').

Lemma Update_xmin_rule ts c h t :
  hints_ok h t -> tuple_ok h t ->
  vwp (Update_xmin c)
    (fun r _ t' => match r with
                   | Some r => update_verdict ts c h t t' r
                   | None => inserter_in h t'
                   end) h t.
Proof.
  intros Hok Htok.
  unfold Update_xmin, xmin_outcome. apply vwp_bind, vwp_header. not_moved Htok.
  vis; unfold update_verdict; try solve [inserter_leaf | right; split; [done|inserter_leaf]].
  eapply vwp_mono; [by apply (Update_own_rule ts)|]. intros r h' t' Hr.
  apply vwp_ret. left. split; [by left|done].
Qed.

Lemma HeapTupleSatisfiesUpdate_rule ts c h t :
  hints_ok h t -> tuple_ok h t ->
  vwp (HeapTupleSatisfiesUpdate ts c)
    (fun r h' t' => update_verdict ts c h t t' r /\ evolves h t h' t') h t.
Proof.
  intros Hok Htok. apply vwp_and;
    [|by apply keeps_or_else; [apply keeps_Update_xmin|apply keeps_Update_xmax|..]].
  apply vwp_or_else. eapply vwp_mono.
  { apply vwp_and; [by apply (Update_xmin_rule ts)|by apply keeps_Update_xmin]. }
  intros [b|] h1 t1 [Hr (Ht & Hs & _ & Hok1)]; [done|].
  eapply vwp_mono.
  { apply vwp_and; [by apply Update_xmax_rule|].
    apply keeps_Update_xmax; [done|]. by eapply tuple_ok_same, tuple_ok_later. }
  intros r h2 t2 [H2 (Ht2 & _)]. left. split.
  - by eapply inserter_in_later.
  - by eapply update_rule_same.
Qed.
End verdicts.
