(* ===== verification/VisibilityRules.v ===== *)
(** What dirty reads, VACUUM and index scans may conclude from their
    verdicts. *)
From stdpp Require Import relations.
From S2P Require Import Prelude Visibility VisibilityProps VisibilityHints VisibilitySpec.

Section rules.
Context `{HH : HtupFlags} `{HHL : !HtupFlagsLaws} `{HW : World} `{HWL : !WorldLaws}.

(** What is running now was running before. *)
Lemma running_earlier t t' x :
  (t <= t')%nat -> TransactionIdIsInProgress t' x = true -> TransactionIdIsInProgress t x = true.
Proof.
  intros Ht Hr. destruct (TransactionIdIsInProgress t x) eqn:E; [done|].
  by rewrite (finished_stable t t' x Ht E) in Hr.
Qed.

(** Another transaction, running when the routine was called. *)
Definition running_xact (t : nat) (x : Z) : Prop := TransactionIdIsInProgress t x = true.

(** The deletion has committed. *)
Definition delete_committed (h : HeapTupleHeader) (t : nat) : Prop :=
  HEAP_XMAX_IS_LOCKED_ONLY (t_infomask h) = false
  /\ TransactionIdDidCommit t (deleter h) = true.

Lemma delete_committed_later h t t' :
  (t <= t')%nat -> delete_committed h t -> delete_committed h t'.
Proof. intros Ht [H1 H2]. split; [done|by eapply commit_stable]. Qed.

(** ** Dirty reads *)

(** What the caller learns of the tuple's deletion. *)
Definition dirty_delete (h : HeapTupleHeader) (t t' : nat) (r : bool * DirtyOut) : Prop :=
  d_xmin (snd r) = InvalidTransactionId /\
  if fst r then
    (no_deleter h t' /\ d_xmax (snd r) = InvalidTransactionId)
    \/ (HEAP_XMAX_IS_LOCKED_ONLY (t_infomask h) = false /\ running_xact t (deleter h)
        /\ d_xmax (snd r) = deleter h)
  else deleted_by h t' /\ d_xmax (snd r) = InvalidTransactionId.

Definition dirty_verdict (h : HeapTupleHeader) (t t' : nat) (r : bool * DirtyOut) : Prop :=
  (inserter_in h t' /\ dirty_delete h t t' r)
  \/ (if fst r then running_xact t (t_xmin h) /\ d_xmin (snd r) = t_xmin h
      else dead_xact t' (t_xmin h) /\ snd r = dirty0).

Lemma deleted_own h t :
  HEAP_XMAX_IS_LOCKED_ONLY (t_infomask h) = false ->
  TransactionIdIsCurrentTransactionId (deleter h) = true -> deleted_by h t.
Proof. intros Hl Hc. split; [done|by left]. Qed.

Lemma deleted_committed h t t' :
  HEAP_XMAX_IS_LOCKED_ONLY (t_infomask h) = false ->
  TransactionIdDidCommit t (deleter h) = true -> (t <= t')%nat -> deleted_by h t'.
Proof. intros Hl Hc Ht. split; [done|right]. by eapply commit_stable. Qed.
End rules.

Ltac deleted_leaf :=
  first
  [ apply deleted_own; [assumption|by deleter_is]
  | eapply deleted_committed; [assumption|deleter_is; eassumption|lia] ].

Ltac dirty_leaf :=
  unfold dirty_delete; split; [done|]; cbn [fst snd]; cbv iota;
  first
  [ split; [deleted_leaf|done]
  | left; split; [deleter_dead|done]
  | right; split; [done|split;
      [deleter_is; eapply running_earlier; [|eassumption]; lia|symmetry; deleter_is; done]] ].

Section dirty.
Context `{HH : HtupFlags} `{HHL : !HtupFlagsLaws} `{HW : World} `{HWL : !WorldLaws}.

Lemma Self_own_rule h t :
  hints_ok h t -> tuple_ok h t -> TransactionIdIsCurrentTransactionId (t_xmin h) = true ->
  vwp Self_own (fun r _ t' => dirty_delete h t t' (r, dirty0)) h t.
Proof.
  intros Hok Htok Hcur. pose proof Htok as (_ & _ & Ho). specialize (Ho Hcur).
  unfold Self_own. vis; try dirty_leaf.
  destruct (TransactionIdIsCurrentTransactionId (HeapTupleGetUpdateXid h)) eqn:Hc;
    cbn [negb]; [dirty_leaf|].
  split; [done|]; left; split; [right; apply Ho; [done|by deleter_is]|done].
Qed.

Lemma Dirty_xmax_rule h t :
  hints_ok h t -> vwp Dirty_xmax (fun r _ t' => dirty_delete h t t' r) h t.
Proof.
  intros Hok. pose proof Hok as (_ & _ & _ & H4). unfold Dirty_xmax.
  vis; try dirty_leaf.
  - destruct (HEAP_XMAX_IS_LOCKED_ONLY (t_infomask h)) eqn:Hl; [dirty_leaf|].
    destruct H4 as [Hm Hd]; [done..|]. dirty_leaf.
  - destruct (TransactionIdDidCommit (S t) _) eqn:Hd; cbn [negb]; dirty_leaf.
  - destruct (HEAP_XMAX_IS_LOCKED_ONLY (t_infomask h)) eqn:Hl; dirty_leaf.
  - destruct (HEAP_XMAX_IS_LOCKED_ONLY (t_infomask h)) eqn:Hl; cbn [negb]; dirty_leaf.
Qed.

Lemma Dirty_xmin_rule h t :
  hints_ok h t -> tuple_ok h t ->
  vwp Dirty_xmin
    (fun r _ t' => match r with
                   | Some r => dirty_verdict h t t' r
                   | None => inserter_in h t'
                   end) h t.
Proof.
  intros Hok Htok. pose proof Hok as (_ & H2 & _).
  unfold Dirty_xmin, xmin_outcome. apply vwp_bind, vwp_header. not_moved Htok.
  vis; unfold dirty_verdict; cbn [fst snd];
    try solve [inserter_leaf | right; cbv iota; done].
  - right. cbv iota. split; [|done]. by apply H2.
  - eapply vwp_mono; [by apply Self_own_rule|]. intros r h' t' Hr.
    apply vwp_ret. left. split; [by left|done].
  - right. cbv iota. split; [|done]. eapply (dead_xact_later (S t)); [lia|by apply asked_dead].
  - right. cbv iota. split; [|done]. eapply (dead_xact_later (S t)); [lia|by apply asked_dead].
Qed.

Lemma dirty_delete_same h h1 t t1 t' r :
  same_tuple h h1 -> (t <= t1)%nat -> dirty_delete h1 t1 t' r -> dirty_delete h t t' r.
Proof.
  intros (_ & _ & _ & E4 & _ & _ & _ & E8 & _)%same_tuple_facts Ht.
  unfold dirty_delete, no_deleter, deleted_by, running_xact. rewrite E4, E8.
  intros [H1 H2]. split; [done|]. destruct (fst r); [|done].
  destruct H2 as [H2|(Hl & Hr & Hx)]; [by left|right].
  split; [done|]. split; [|done]. by eapply running_earlier.
Qed.

Lemma HeapTupleSatisfiesDirty_rule h t :
  hints_ok h t -> tuple_ok h t ->
  vwp HeapTupleSatisfiesDirty (fun r _ t' => dirty_verdict h t t' r) h t.
Proof.
  intros Hok Htok. apply vwp_or_else. eapply vwp_mono.
  { apply vwp_and; [by apply Dirty_xmin_rule|by apply keeps_Dirty_xmin]. }
  intros [b|] h1 t1 [Hr (Ht & Hs & _ & Hok1)]; [done|].
  eapply vwp_mono.
  { apply vwp_and; [by apply Dirty_xmax_rule|].
    apply keeps_Dirty_xmax; [done|]. by eapply tuple_ok_same, tuple_ok_later. }
  intros r h2 t2 [H2 (Ht2 & _)]. left. split.
  - by eapply inserter_in_later.
  - by eapply dirty_delete_same.
Qed.
End dirty.

(** ** VACUUM *)

Ltac vacuum_leaf :=
  first
  [ split; [deleter_dead|done]
  | split; [done|split;
      [deleter_is; eapply running_earlier; [|eassumption]; lia|done]]
  | split; [split; [done|deleter_is; eapply commit_stable; [|eassumption]; lia]|by deleter_is] ].

Section vacuum.
Context `{HH : HtupFlags} `{HHL : !HtupFlagsLaws} `{HW : World} `{HWL : !WorldLaws}.

(** What VACUUM's verdict says of the deletion of a tuple that is in. *)
Definition vacuum_delete (h : HeapTupleHeader) (t t' : nat) (r : HTSV_Result * Z) : Prop :=
  match fst r with
  | HEAPTUPLE_LIVE => no_deleter h t' /\ snd r = InvalidTransactionId
  | HEAPTUPLE_RECENTLY_DEAD => delete_committed h t' /\ snd r = deleter h
  | HEAPTUPLE_DELETE_IN_PROGRESS =>
      HEAP_XMAX_IS_LOCKED_ONLY (t_infomask h) = false /\ running_xact t (deleter h)
      /\ snd r = InvalidTransactionId
  | _ => False
  end.

Definition vacuum_verdict (h : HeapTupleHeader) (t t' : nat) (r : HTSV_Result * Z) : Prop :=
  (inserter_in h t' /\ vacuum_delete h t t' r)
  \/ (r = verdict HEAPTUPLE_INSERT_IN_PROGRESS /\ running_xact t (t_xmin h))
  \/ (r = verdict HEAPTUPLE_DEAD /\ dead_xact t' (t_xmin h)).

(** Our own deletion of our own tuple. *)
Lemma own_update_running h t t' :
  has (t_infomask h) HEAP_XMAX_INVALID = false ->
  HEAP_XMAX_IS_LOCKED_ONLY (t_infomask h) = false ->
  TransactionIdIsCurrentTransactionId (t_xmin h) = true ->
  TransactionIdIsCurrentTransactionId (HeapTupleHeaderGetUpdateXid h) = true ->
  vacuum_verdict h t t' (verdict HEAPTUPLE_DELETE_IN_PROGRESS).
Proof.
  intros Hi Hl Hc Hu. left. split; [by left|]. split; [done|]. split; [|done].
  apply current_running. unfold deleter. by rewrite <- update_xid_deleter.
Qed.

Lemma inserting h t t' :
  TransactionIdIsInProgress t (t_xmin h) = true ->
  vacuum_verdict h t t' (verdict HEAPTUPLE_INSERT_IN_PROGRESS).
Proof. intros H. right; left. by split. Qed.

Lemma never_inserted h t t1 t2 t' :
  TransactionIdIsInProgress t1 (t_xmin h) = false ->
  TransactionIdDidCommit t2 (t_xmin h) = false -> (t1 <= t2 <= t')%nat ->
  vacuum_verdict h t t' (verdict HEAPTUPLE_DEAD).
Proof.
  intros Hp Hd [H1 H2]. right; right. split; [done|]. apply (dead_xact_later t2); [done|].
  split; [by eapply finished_stable|done].
Qed.

Lemma Vacuum_own_rule h t :
  hints_ok h t -> tuple_ok h t -> TransactionIdIsCurrentTransactionId (t_xmin h) = true ->
  vwp Vacuum_own (fun r _ t' => vacuum_verdict h t t' r) h t.
Proof.
  intros Hok Htok Hcur. unfold Vacuum_own, HeapTupleHeaderIsOnlyLocked.
  vis; first [by apply inserting, current_running | by apply own_update_running].
Qed.

Lemma Vacuum_xmin_rule h t :
  hints_ok h t -> tuple_ok h t ->
  vwp Vacuum_xmin
    (fun r _ t' => match r with
                   | Some r => vacuum_verdict h t t' r
                   | None => inserter_in h t'
                   end) h t.
Proof.
  intros Hok Htok. pose proof Hok as (_ & H2 & _).
  unfold Vacuum_xmin, xmin_outcome. apply vwp_bind, vwp_header. not_moved Htok.
  vis;
    try solve
      [ inserter_leaf | by apply inserting
      | eapply never_inserted; [eassumption|eassumption|lia] ].
  - right; right. split; [done|]. by apply H2.
  - eapply vwp_mono; [by apply Vacuum_own_rule|]. intros r h' t' Hr. by apply vwp_ret.
Qed.

Lemma Vacuum_xmax_rule h t :
  hints_ok h t -> vwp Vacuum_xmax (fun r _ t' => vacuum_delete h t t' r) h t.
Proof.
  intros Hok. pose proof Hok as (_ & _ & _ & H4).
  unfold Vacuum_xmax, Vacuum_locked, Vacuum_multi.
  vis; unfold vacuum_delete; cbn [fst snd verdict]; try vacuum_leaf.
  destruct H4 as [Hm Hd]; [done..|]. split; [|by deleter_is].
  split; [done|]. by deleter_is.
Qed.

Lemma vacuum_delete_same h h1 t t1 t' r :
  same_tuple h h1 -> (t <= t1)%nat -> vacuum_delete h1 t1 t' r -> vacuum_delete h t t' r.
Proof.
  intros (_ & _ & _ & E4 & _ & _ & _ & E8 & _)%same_tuple_facts Ht.
  unfold vacuum_delete, no_deleter, delete_committed, running_xact. rewrite E4, E8.
  destruct (fst r); try done. intros (Hl & Hr & Hx). split; [done|]. split; [|done].
  by eapply running_earlier.
Qed.

Lemma HeapTupleSatisfiesVacuumHorizon_rule h t :
  hints_ok h t -> tuple_ok h t ->
  vwp HeapTupleSatisfiesVacuumHorizon
    (fun r h' t' => vacuum_verdict h t t' r /\ evolves h t h' t') h t.
Proof.
  intros Hok Htok. apply vwp_and;
    [|by apply keeps_or_else; [apply keeps_Vacuum_xmin|apply keeps_Vacuum_xmax|..]].
  apply vwp_or_else. eapply vwp_mono.
  { apply vwp_and; [by apply Vacuum_xmin_rule|by apply keeps_Vacuum_xmin]. }
  intros [b|] h1 t1 [Hr (Ht & Hs & _ & Hok1)]; [done|].
  eapply vwp_mono.
  { apply vwp_and; [by apply Vacuum_xmax_rule|].
    apply keeps_Vacuum_xmax; [done|]. by eapply tuple_ok_same, tuple_ok_later. }
  intros r h2 t2 [H2 (Ht2 & _)]. left. split.
  - by eapply inserter_in_later.
  - by eapply vacuum_delete_same.
Qed.
End vacuum.

Section keeps.
Context `{HH : HtupFlags} `{HHL : !HtupFlagsLaws} `{HW : World} `{HWL : !WorldLaws}.

(** A routine that leaves the header alone and lets time pass. *)
Lemma keeps_quiet {A} (m : M VisState A) :
  (forall h t, vwp m (fun _ h' t' => h' = h /\ (t <= t')%nat) h t) -> keeps_hints m.
Proof.
  intros Hm h t Hok _. eapply vwp_mono; [apply Hm|]. intros a h' t' [-> Ht].
  by apply evolves_stay.
Qed.

Lemma keeps_bind {A B} (m : M VisState A) (k : A -> M VisState B) :
  keeps_hints m -> (forall a h t, vwp (k a) (fun _ h' t' => h' = h /\ t' = t) h t) ->
  keeps_hints (bind m k).
Proof.
  intros Hm Hk h t Hok Htok. apply vwp_bind. eapply vwp_mono; [by apply Hm|].
  intros a h1 t1 He. eapply vwp_mono; [apply Hk|]. by intros b h2 t2 [-> ->].
Qed.

Lemma keeps_Horizon : keeps_hints HeapTupleSatisfiesVacuumHorizon.
Proof. apply keeps_or_else; [apply keeps_Vacuum_xmin|apply keeps_Vacuum_xmax]. Qed.

Lemma keeps_NonVacuumable : keeps_hints HeapTupleSatisfiesNonVacuumable.
Proof.
  apply keeps_bind; [apply keeps_Horizon|]. intros [res da] h t. by apply vwp_ret.
Qed.

Lemma keeps_Vacuum o : keeps_hints (HeapTupleSatisfiesVacuum o).
Proof.
  apply keeps_bind; [apply keeps_Horizon|].
  intros [res da] h t. destruct res; by apply vwp_ret.
Qed.

Lemma keeps_Historic sn : keeps_hints (HeapTupleSatisfiesHistoricMVCC sn).
Proof.
  apply keeps_or_else; apply keeps_quiet; intros h t.
  - unfold Historic_xmin. vis; try destruct (ResolveCminCmaxDuringDecoding h) as [[cmin cmax]|];
      vis; split; try done; lia.
  - unfold Historic_xmax. apply vwp_bind, vwp_header. cbv zeta.
    vis; try destruct (ResolveCminCmaxDuringDecoding h) as [[cmin cmax]|];
      vis; split; try done; lia.
Qed.

Lemma keeps_Visibility sn : keeps_since sn (HeapTupleSatisfiesVisibility sn).
Proof.
  unfold HeapTupleSatisfiesVisibility. destruct (snapshot_type sn); [apply keeps_MVCC|..]; apply keeps_hints_since.
  - apply keeps_or_else; [apply keeps_Self_xmin|apply keeps_Self_xmax].
  - apply keeps_quiet. intros h t. by apply vwp_ret.
  - apply keeps_Toast.
  - apply keeps_bind;
      [apply keeps_or_else; [apply keeps_Dirty_xmin|apply keeps_Dirty_xmax]|].
    intros r h t. by apply vwp_ret.
  - apply keeps_Historic.
  - apply keeps_NonVacuumable.
Qed.
End keeps.
