(* ===== verification/VisibilityClaims.v ===== *)
(** What the visibility routines promise their callers: hint bits that stay
    sound, the MVCC rule, no lost updates, and nothing removed that a
    transaction may still see.  [ToyWorld] instantiates the header flags
    with the values of htup_details.h and the transaction machinery with a
    small history. *)
From Stdlib Require Import ZifyBool.
From stdpp Require Import relations.
From S2P Require Import Prelude Visibility VisibilityProps VisibilityHints VisibilitySpec VisibilityRules.

(** ** A concrete history *)

Module ToyWorld.

(** The values of htup_details.h. *)
Definition keyshr_lock := 0x0010.
Definition excl_lock := 0x0040.

#[export] Instance pg_flags : HtupFlags := {|
  HEAP_XMIN_COMMITTED := 0x0100;
  HEAP_XMIN_INVALID := 0x0200;
  HEAP_XMAX_COMMITTED := 0x0400;
  HEAP_XMAX_INVALID := 0x0800;
  HEAP_MOVED_OFF := 0x4000;
  HEAP_MOVED_IN := 0x8000;
  HEAP_XMAX_IS_MULTI := 0x1000;
  HEAP_XMAX_LOCK_ONLY := 0x0080;
  InvalidTransactionId := 0;
  FrozenTransactionId := 2;
  InvalidCommandId := 2 ^ 32 - 1;
  XminCommitted m := has m 0x0100;
  XminInvalid m := Z.land m 0x0300 =? 0x0200;
  XminFrozen m := Z.land m 0x0300 =? 0x0300;
  HEAP_XMAX_IS_LOCKED_ONLY m := has m 0x0080 || (Z.land m 0x1050 =? 0x0040);
  HEAP_LOCKED_UPGRADED m :=
    has m 0x1000 && has m 0x0080
    && (Z.land m (Z.lor excl_lock keyshr_lock) =? 0);
  HeapTupleHeaderIsSpeculative _ := false;
  HeapTupleHeaderGetSpeculativeToken _ := 0;
|}.

Lemma has_lor_lor m f f' : has (Z.lor m f) f' = has m f' || has f f'.
Proof.
  unfold has. rewrite Z.land_lor_distr_l, <- negb_andb. f_equal.
  apply eq_true_iff_eq. rewrite andb_true_iff, !Z.eqb_eq. apply Z.lor_eq_0_iff.
Qed.

Lemma land_lor_other m f g : Z.land f g = 0 -> Z.land (Z.lor m f) g = Z.land m g.
Proof. intros H. by rewrite Z.land_lor_distr_l, H, Z.lor_0_r. Qed.

Lemma land_pow2 m k : 0 <= k -> Z.land m (2 ^ k) = if Z.testbit m k then 2 ^ k else 0.
Proof.
  intros Hk. apply Z.bits_inj'. intros i Hi. rewrite Z.land_spec, Z.pow2_bits_eqb by done.
  destruct (Z.eqb_spec k i) as [->|Hne].
  - rewrite andb_true_r. destruct (Z.testbit m i) eqn:E; [|by rewrite Z.bits_0].
    by rewrite Z.pow2_bits_true.
  - rewrite andb_false_r. destruct (Z.testbit m k); [|by rewrite Z.bits_0].
    by rewrite Z.pow2_bits_false.
Qed.

(** The two [xmin] hints, read together. *)
Lemma xmin_bits m :
  Z.land m 0x0300 = (if Z.testbit m 8 then 0x0100 else 0) + (if Z.testbit m 9 then 0x0200 else 0)
  /\ has m 0x0100 = Z.testbit m 8 /\ has m 0x0200 = Z.testbit m 9.
Proof.
  unfold has. change 0x0300 with (Z.lor (2 ^ 8) (2 ^ 9)).
  change 0x0100 with (2 ^ 8). change 0x0200 with (2 ^ 9).
  rewrite Z.land_lor_distr_r, !land_pow2 by done.
  by destruct (Z.testbit m 8), (Z.testbit m 9).
Qed.

#[export] Instance pg_flags_laws : HtupFlagsLaws.
Proof.
  split; cbn.
  - apply (bool_decide_unpack _). by vm_compute.
  - intros m f f' Hf Hf'. rewrite has_lor_lor. f_equal.
    unfold all_flags, hint_flags in *. cbn in *. set_unfold.
    destruct_or! Hf; destruct_or! Hf'; subst; by vm_compute.
  - done.
  - intros m. destruct (xmin_bits m) as (-> & -> & ->).
    by destruct (Z.testbit m 8), (Z.testbit m 9).
  - intros m. destruct (xmin_bits m) as (-> & -> & ->).
    by destruct (Z.testbit m 8), (Z.testbit m 9).
  - intros m f Hf. unfold hint_flags in Hf. cbn in Hf. set_unfold. unfold has.
    destruct_or! Hf; subst; by rewrite !land_lor_other.
  - by intros m ->.
  - intros m. destruct (has m 0x0080); [done|by rewrite andb_false_r].
Qed.

(** Transaction 100 is ours, 5 has committed, 7 aborted, and 9 runs until
    moment 10, having committed just before. *)
#[export] Instance history : World := {|
  TransactionIdIsCurrentTransactionId x := x =? 100;
  TransactionIdIsInProgress t x := (x =? 100) || ((x =? 9) && (t <? 10)%nat);
  TransactionIdDidCommit t x := (x =? 5) || ((x =? 9) && (8 <? t)%nat);
  MultiXactIdIsRunning t x lockOnly := (t <? 10)%nat;
  HeapTupleGetUpdateXid h := 9;
  HeapTupleHeaderGetXvac h := t_field3 h;
  HeapTupleHeaderGetCmin h := t_field3 h;
  HeapTupleHeaderGetCmax h := t_field3 h;
  HeapTupleHeaderGetUpdateXid h := if has (t_infomask h) HEAP_XMAX_IS_MULTI then 9 else t_xmax h;
  TransactionIdGetCommitLSN t x := 0;
  XLogNeedsFlush t l := false;
  BufferIsPermanent := true;
  BufferGetLSNAtomic t := 0;
  XidInMVCCSnapshot x sn := bool_decide (x ∈ xip sn);
  TransactionIdPrecedes x y := x <? y;
  TransactionIdFollowsOrEquals x y := y <=? x;
  GlobalVisTestIsRemovableXid x := x <? 50;
  ResolveCminCmaxDuringDecoding h := None;
|}.

(** A snapshot without 9 was taken when 9 was over. *)
Definition taken_at (sn : Snapshot) : nat := if bool_decide (9 ∈ xip sn) then 0 else 10.

#[export] Instance history_laws : WorldLaws.
Proof.
  refine {| snapshot_taken := taken_at |}; unfold taken_at; cbn -[Nat.ltb].
  - intros t t' x Ht H. lia.
  - intros t t' x Ht H. lia.
  - intros t t' x Ht H1 H2. lia.
  - intros t x H. lia.
  - intros t x H. lia.
  - intros t x sn Ht H1 H2. destruct (Z.eqb_spec x 9) as [->|]; [rewrite H1 in Ht|]; lia.
  - intros t x H. lia.
  - intros t h lo H1 H2 H3. lia.
  - done.
  - by intros h h' (f & _ & ->).
Defined.

Definition mk (xmin xmax mask : Z) : HeapTupleHeader :=
  {| t_xmin := xmin; t_xmax := xmax; t_field3 := 3; t_ctid := (1, 1); t_infomask := mask |}.

Definition snap (ty : SnapshotType) : Snapshot :=
  {| snapshot_type := ty; sn_xmin := 9; sn_xmax := 101; xip := [9]; xcnt := 1;
     subxip := []; subxcnt := 0; curcid := 4 |}.
End ToyWorld.
Import ToyWorld.

(** A tuple inserted by 5 and deleted by 9, with no hints yet; one that was
    locked by 9 only; one that 7 tried to insert; one inserted by 5 and
    already known to have been deleted by it, as its hints say. *)
Definition deleted_tuple : HeapTupleHeader := mk 5 9 0.
Definition aborted_tuple : HeapTupleHeader := mk 7 0 0.
Definition updated_tuple : HeapTupleHeader := mk 5 5 0x0100.
Definition dead_tuple : HeapTupleHeader := mk 5 5 0x0500.

Lemma toy_hints_ok h t :
  h ∈ [deleted_tuple; aborted_tuple; updated_tuple; dead_tuple] ->
  hints_ok h t /\ tuple_ok h t.
Proof.
  intros Hh. set_unfold.
  destruct_or! Hh; subst h; split; unfold hints_ok, tuple_ok, dead_xact;
    cbn -[Nat.ltb]; split_and!; naive_solver.
Qed.

Section claims.
Context `{HH : HtupFlags} `{HHL : !HtupFlagsLaws} `{HW : World} `{HWL : !WorldLaws}.

(** hint bits stay sound.  From a tuple whose hint bits record only
    outcomes that have happened, every visibility routine returns, for
    every kind of snapshot, and leaves a tuple that differs in hint bits
    only, all of which record outcomes that have happened by then, however
    the transactions it asks about end between its questions. *)
Theorem visibility_hints_sound (sn : Snapshot) (ts : Z * Z) (c OldestXmin : Z)
    (h : HeapTupleHeader) (t : nat) (Hsn : (snapshot_taken sn <= t)%nat)
    (Hok : hints_ok h t) (Htok : tuple_ok h t) :
  vwp (HeapTupleSatisfiesVisibility sn)
    (fun _ h' t' => same_tuple h h' /\ hints_ok h' t' /\ tuple_ok h' t') h t
  /\ vwp (HeapTupleSatisfiesUpdate ts c)
    (fun _ h' t' => same_tuple h h' /\ hints_ok h' t' /\ tuple_ok h' t') h t
  /\ vwp (HeapTupleSatisfiesVacuum OldestXmin)
    (fun _ h' t' => same_tuple h h' /\ hints_ok h' t' /\ tuple_ok h' t') h t.
Proof.
  split_and!; eapply vwp_mono.
  1: by apply keeps_Visibility.
  2: by apply keeps_or_else; [apply keeps_Update_xmin|apply keeps_Update_xmax|..].
  3: by apply keeps_Vacuum.
  all: intros r h' t' He; pose proof He as (_ & Hs & _ & Hok').
  all: split; [done|]; split; [done|]; exact (evolves_tuple_ok _ _ _ _ He Htok).
Qed.

(** C2: the MVCC rule.  HeapTupleSatisfiesMVCC answers exactly whether
    the inserting transaction is visible to the snapshot and the deleting
    one is not, whatever hint bits are set, and gives the same answer
    again at any later moment, for the tuple it left and any further
    hints on it.  The snapshot must have been taken by then. *)
Theorem HeapTupleSatisfiesMVCC_is_mvcc (sn : Snapshot) (h : HeapTupleHeader) (t : nat)
    (Hsn : (snapshot_taken sn <= t)%nat) (Hok : hints_ok h t) (Htok : tuple_ok h t) :
  vwp (HeapTupleSatisfiesMVCC sn)
    (fun r h1 t1 =>
       r = mvcc_visible sn h t
       /\ forall h2 t2, evolves h1 t1 h2 t2 ->
            vwp (HeapTupleSatisfiesMVCC sn) (fun r2 _ _ => r2 = r) h2 t2) h t.
Proof.
  eapply vwp_mono; [by apply HeapTupleSatisfiesMVCC_rule|].
  intros r h1 t1 [Hr He1]. split; [done|]. intros h2 t2 He2.
  pose proof (evolves_trans _ _ _ _ _ _ He1 He2) as He.
  eapply vwp_mono.
  { apply HeapTupleSatisfiesMVCC_rule; [destruct He; lia|apply He|by eapply evolves_tuple_ok]. }
  intros r2 h3 t3 [-> _]. by rewrite (mvcc_visible_stable sn _ _ _ _ Hsn He).
Qed.

(** C35: no lost update.  Whatever HeapTupleSatisfiesUpdate answers is
    true when it returns: TM_Ok only when the inserter is in and nobody
    has deleted the tuple or can still do so, TM_Updated and TM_Deleted
    only when the deletion has committed (and the row has a successor, or
    not), TM_SelfModified and TM_Invisible by the command ids. *)
Theorem HeapTupleSatisfiesUpdate_verdict (ts : Z * Z) (c : Z) (h : HeapTupleHeader) (t : nat)
    (Hok : hints_ok h t) (Htok : tuple_ok h t) :
  vwp (HeapTupleSatisfiesUpdate ts c) (fun r _ t' => update_verdict ts c h t t' r) h t.
Proof.
  eapply vwp_mono; [by apply HeapTupleSatisfiesUpdate_rule|]. by intros r h' t' [H _].
Qed.

(** dirty reads name whom to wait for.  HeapTupleSatisfiesDirty
    returns false only for a dead inserter or a deletion that took effect,
    and when it returns true the tuple's fate is either settled or depends
    on the running transaction it reports in [xmin] or [xmax]. *)
Theorem HeapTupleSatisfiesDirty_verdict (h : HeapTupleHeader) (t : nat)
    (Hok : hints_ok h t) (Htok : tuple_ok h t) :
  vwp HeapTupleSatisfiesDirty (fun r _ t' => dirty_verdict h t t' r) h t.
Proof. by apply HeapTupleSatisfiesDirty_rule. Qed.

(** VACUUM removes only what no one can see.  HeapTupleSatisfiesVacuum
    says DEAD, and the index scan's test says vacuumable, only when the
    inserter never committed or the deletion has committed and its
    transaction is before the horizon. *)
Theorem vacuum_removes_only_dead (OldestXmin : Z) (h : HeapTupleHeader) (t : nat)
    (Hok : hints_ok h t) (Htok : tuple_ok h t) :
  vwp (HeapTupleSatisfiesVacuum OldestXmin)
    (fun r _ t' => r = HEAPTUPLE_DEAD ->
       dead_xact t' (t_xmin h)
       \/ (delete_committed h t' /\ TransactionIdPrecedes (deleter h) OldestXmin = true)) h t
  /\ vwp HeapTupleSatisfiesNonVacuumable
    (fun r _ t' => r = false ->
       dead_xact t' (t_xmin h)
       \/ (delete_committed h t' /\ GlobalVisTestIsRemovableXid (deleter h) = true)) h t.
Proof.
  split; apply vwp_bind; (eapply vwp_mono; [by apply HeapTupleSatisfiesVacuumHorizon_rule|]);
    intros [res da] h1 t1 [Hv _].
  all: destruct Hv as [[_ Hd]|[[[= -> ->] Hr]|[[= -> ->] Hr]]];
    [|by apply vwp_ret|apply vwp_ret; by left].
  all: destruct res; cbn in Hd |- *; try done; apply vwp_ret; try done.
  all: destruct Hd as [Hc ->]; case_match; try done; by right.
Qed.

(** the cheap test is sound.  When HeapTupleIsSurelyDead says so from
    the header alone, HeapTupleSatisfiesNonVacuumable would answer that
    the tuple can be removed, without asking about any transaction. *)
Theorem HeapTupleIsSurelyDead_sound (h : HeapTupleHeader) (t : nat)
    (Hdead : HeapTupleIsSurelyDead h = true) :
  vwp HeapTupleSatisfiesNonVacuumable (fun r h' t' => r = false /\ h' = h /\ t' = t) h t.
Proof.
  unfold HeapTupleIsSurelyDead in Hdead. apply vwp_bind, vwp_or_else. unfold Vacuum_xmin.
  apply vwp_bind, vwp_header. cbv zeta.
  destruct (XminCommitted (t_infomask h)); cbn [negb] in *; [|rewrite Hdead; by apply vwp_ret].
  apply vwp_ret. unfold Vacuum_xmax. apply vwp_bind, vwp_header. cbv zeta.
  repeat (case_match; cbn [negb] in *; [done|]).
  destruct (has (t_infomask h) HEAP_XMAX_COMMITTED); cbn [negb] in *; [|done].
  apply vwp_bind, vwp_ret, vwp_ret. cbn. rewrite Hdead. by apply vwp_ret.
Qed.
End claims.

(** ** At the concrete history *)

Lemma visibility_hints_sound_witness :
  vwp (HeapTupleSatisfiesVisibility (snap SNAPSHOT_SELF))
    (fun _ h' t' => same_tuple deleted_tuple h' /\ hints_ok h' t' /\ tuple_ok h' t')
    deleted_tuple 0
  /\ snd (HeapTupleSatisfiesVisibility (snap SNAPSHOT_SELF)
            {| hdr := deleted_tuple; clock := 0; dirtied := false |})
     = {| hdr := mk 5 9 0x0100; clock := 5; dirtied := true |}.
Proof.
  split; [|by vm_compute].
  apply (visibility_hints_sound (snap SNAPSHOT_SELF) (1, 1) 4 9); [vm_compute; lia|apply toy_hints_ok; set_solver..].
Defined.

Lemma HeapTupleSatisfiesMVCC_is_mvcc_witness :
  fst (HeapTupleSatisfiesMVCC (snap SNAPSHOT_MVCC)
         {| hdr := deleted_tuple; clock := 20; dirtied := false |}) = Ret true
  /\ vwp (HeapTupleSatisfiesMVCC (snap SNAPSHOT_MVCC))
       (fun r h1 t1 =>
          r = mvcc_visible (snap SNAPSHOT_MVCC) deleted_tuple 20
          /\ forall h2 t2, evolves h1 t1 h2 t2 ->
               vwp (HeapTupleSatisfiesMVCC (snap SNAPSHOT_MVCC)) (fun r2 _ _ => r2 = r) h2 t2)
       deleted_tuple 20.
Proof.
  split; [by vm_compute|].
  apply (HeapTupleSatisfiesMVCC_is_mvcc (snap SNAPSHOT_MVCC)); [vm_compute; lia|apply toy_hints_ok; set_solver..].
Defined.

Lemma HeapTupleSatisfiesUpdate_verdict_witness :
  fst (HeapTupleSatisfiesUpdate (1, 1) 4 {| hdr := deleted_tuple; clock := 0; dirtied := false |})
    = Ret TM_BeingModified
  /\ fst (HeapTupleSatisfiesUpdate (1, 1) 4
            {| hdr := deleted_tuple; clock := 20; dirtied := false |}) = Ret TM_Deleted
  /\ vwp (HeapTupleSatisfiesUpdate (1, 1) 4)
       (fun r _ t' => update_verdict (1, 1) 4 deleted_tuple 20 t' r) deleted_tuple 20.
Proof.
  split; [by vm_compute|split; [by vm_compute|]].
  apply (HeapTupleSatisfiesUpdate_verdict (1, 1) 4); apply toy_hints_ok; set_solver.
Defined.

Lemma HeapTupleSatisfiesDirty_verdict_witness :
  fst (HeapTupleSatisfiesDirty {| hdr := deleted_tuple; clock := 0; dirtied := false |})
    = Ret (true, {| d_xmin := 0; d_xmax := 9; speculativeToken := 0 |})
  /\ vwp HeapTupleSatisfiesDirty (fun r _ t' => dirty_verdict deleted_tuple 0 t' r) deleted_tuple 0.
Proof.
  split; [by vm_compute|].
  apply (HeapTupleSatisfiesDirty_verdict deleted_tuple 0); apply toy_hints_ok; set_solver.
Defined.

Lemma vacuum_removes_only_dead_witness :
  fst (HeapTupleSatisfiesVacuum 9 {| hdr := updated_tuple; clock := 0; dirtied := false |})
    = Ret HEAPTUPLE_DEAD
  /\ vwp (HeapTupleSatisfiesVacuum 9)
       (fun r _ t' => r = HEAPTUPLE_DEAD ->
          dead_xact t' (t_xmin updated_tuple)
          \/ (delete_committed updated_tuple t'
              /\ TransactionIdPrecedes (deleter updated_tuple) 9 = true)) updated_tuple 0.
Proof.
  split; [by vm_compute|].
  apply (vacuum_removes_only_dead 9 updated_tuple 0); apply toy_hints_ok; set_solver.
Defined.

Lemma HeapTupleIsSurelyDead_sound_witness :
  HeapTupleIsSurelyDead dead_tuple = true
  /\ vwp HeapTupleSatisfiesNonVacuumable
       (fun r h' t' => r = false /\ h' = dead_tuple /\ t' = 0%nat) dead_tuple 0.
Proof.
  split; [by vm_compute|]. apply (HeapTupleIsSurelyDead_sound dead_tuple 0). by vm_compute.
Defined.
