(* ===== verification/VisibilityMap.v ===== *)
(** The visibility map: src/src/access/pg_tde_visibilitymap.c.

    Two bits per heap block, kept in the pages of a fork of the relation.
    The state is the fork, the size of it this backend has cached, the pages
    it has pinned, the WAL it has written and the LSN of the heap page at
    hand.  A buffer is the number of the map page it holds; a page that
    cannot be read is one that reads as zeroes (RBM_ZERO_ON_ERROR), that is,
    a new one.  The code takes the buffer lock around every change, so the
    operations are atomic here. *)
From S2P Require Import Prelude EncTuple RelKeys.

(** Constants and macros of PostgreSQL's headers, and the settings and
    services the operations ask. *)
Class VmEnv := {
  MAXALIGN_SizeOfPageHeaderData : Z;
  BITS_PER_HEAPBLOCK : Z;
  VISIBILITYMAP_ALL_VISIBLE : Z;
  VISIBILITYMAP_ALL_FROZEN : Z;
  VISIBILITYMAP_VALID_BITS : Z;
  VISIBILITYMAP_XLOG_CATALOG_REL : Z;
  InvalidBlockNumber : Z;
  InvalidXLogRecPtr : Z;
  RelationNeedsWAL : bool;
  RelationIsAccessibleInLogicalDecoding : bool;
  XLogHintBitIsNeeded : bool;
  InRecovery : bool;
  (** the LSN of the [n]th record this backend writes *)
  lsn_of : nat -> Z;
  (** the cached size after extending the fork to a size *)
  cache_after_extend : Z -> Z;
  pg_popcount64 : Z -> Z;
}.

Record VmPage := {
  contents : list Z;   (** MAPSIZE bytes *)
  is_new : bool;       (** never initialized: the page is all zeroes *)
  page_lsn : Z;
}.

(** A buffer of the map fork; [None] is InvalidBuffer. *)
Definition Buffer : Type := option Z.

Inductive VmRecord :=
| Visible (conflictHorizon flags vm_block heap_block : Z) (heap_image : bool)
| NewPage (vm_block : Z) (p : VmPage).

Record VmState := {
  vm_fork : option (list VmPage);
  smgr_cached_nblocks : Z;
  pinned : list Z;
  heap_lsn : Z;
  wal : list VmRecord;
}.

Definition BITS_PER_BYTE : Z := 8.

(** The value of a [char], which is signed. *)
Definition schar (b : Z) : Z := if b <? 128 then b else b - 256.

Section visibilitymap.
Context `{HB : PgBlockSize} `{HV : VmEnv}.

Definition MAPSIZE : Z := BLCKSZ - MAXALIGN_SizeOfPageHeaderData.
Definition HEAPBLOCKS_PER_BYTE : Z := BITS_PER_BYTE / BITS_PER_HEAPBLOCK.
Definition HEAPBLOCKS_PER_PAGE : Z := MAPSIZE * HEAPBLOCKS_PER_BYTE.
Definition HEAPBLK_TO_MAPBLOCK (x : Z) : Z := x / HEAPBLOCKS_PER_PAGE.
Definition HEAPBLK_TO_MAPBYTE (x : Z) : Z := (x mod HEAPBLOCKS_PER_PAGE) / HEAPBLOCKS_PER_BYTE.
Definition HEAPBLK_TO_OFFSET (x : Z) : Z := (x mod HEAPBLOCKS_PER_BYTE) * BITS_PER_HEAPBLOCK.

Local Abbreviation MV := (M VmState).

(** ** Pages and pins *)

Definition zero_page : VmPage :=
  {| contents := replicate (Z.to_nat MAPSIZE) 0; is_new := true; page_lsn := 0 |}.

Definition with_fork (ps : list VmPage) (s : VmState) : VmState :=
  {| vm_fork := Some ps; smgr_cached_nblocks := smgr_cached_nblocks s;
     pinned := pinned s; heap_lsn := heap_lsn s; wal := wal s |}.

Definition with_cached (n : Z) (s : VmState) : VmState :=
  {| vm_fork := vm_fork s; smgr_cached_nblocks := n;
     pinned := pinned s; heap_lsn := heap_lsn s; wal := wal s |}.

Definition with_pinned (l : list Z) (s : VmState) : VmState :=
  {| vm_fork := vm_fork s; smgr_cached_nblocks := smgr_cached_nblocks s;
     pinned := l; heap_lsn := heap_lsn s; wal := wal s |}.

Definition pages (s : VmState) : list VmPage := default [] (vm_fork s).

(** BufferGetPage; the page of a pinned buffer exists. *)
Definition BufferGetPage (blk : Z) : MV VmPage := fun s =>
  match pages s !! Z.to_nat blk with
  | Some p => if 0 <=? blk then (Ret p, s) else (Undefined, s)
  | None => (Undefined, s)
  end.

Definition set_page (blk : Z) (p : VmPage) : MV unit :=
  modify (fun s => with_fork (<[Z.to_nat blk := p]> (pages s)) s).

Definition set_contents (blk : Z) (map_ : list Z) : MV unit :=
  let* p := BufferGetPage blk in
  set_page blk {| contents := map_; is_new := is_new p; page_lsn := page_lsn p |}.

Definition PageSetLSN (blk lsn : Z) : MV unit :=
  let* p := BufferGetPage blk in
  set_page blk {| contents := contents p; is_new := is_new p; page_lsn := lsn |}.

Definition pin (blk : Z) : MV unit := modify (fun s => with_pinned (blk :: pinned s) s).

(** One pin fewer. *)
Fixpoint remove_pin (blk : Z) (l : list Z) : option (list Z) :=
  match l with
  | [] => None
  | b :: l' => if b =? blk then Some l' else (b ::.) <$> remove_pin blk l'
  end.

Definition ReleaseBuffer (blk : Z) : MV unit := fun s =>
  match remove_pin blk (pinned s) with
  | Some l => (Ret tt, with_pinned l s)
  | None => (Raise ERROR, s)
  end.

(** Append a WAL record and return its LSN. *)
Definition XLogInsert (r : VmRecord) : MV Z := fun s =>
  (Ret (lsn_of (length (wal s))),
   {| vm_fork := vm_fork s; smgr_cached_nblocks := smgr_cached_nblocks s;
      pinned := pinned s; heap_lsn := heap_lsn s; wal := wal s ++ [r] |}).

(** ** vm_extend and vm_readbuf *)

(** ExtendBufferedRelTo: at least [vm_nblocks] pages, new ones zeroed; the
    last of them is pinned. *)
Definition vm_extend (vm_nblocks : Z) : MV Buffer :=
  let* s := get in
  let ps := pages s in
  modify (with_fork (ps ++ replicate (Z.to_nat vm_nblocks - length ps) zero_page));;;
  let* s := get in
  modify (with_cached (cache_after_extend (Z.of_nat (length (pages s)))));;;
  pin (vm_nblocks - 1);;;
  ret (Some (vm_nblocks - 1)).

(** The cached size of the fork, looked up when it is not known. *)
Definition cache_nblocks : MV Z :=
  let* s := get in
  (if smgr_cached_nblocks s =? InvalidBlockNumber then
     match vm_fork s with
     | Some ps => modify (with_cached (Z.of_nat (length ps)))
     | None => modify (with_cached 0)
     end
   else ret tt);;;
  gets smgr_cached_nblocks.

(** PageInit of a page that is new. *)
Definition init_page (blk : Z) : MV unit :=
  let* p := BufferGetPage blk in
  if is_new p then
    set_page blk {| contents := replicate (Z.to_nat MAPSIZE) 0; is_new := false;
                    page_lsn := 0 |}
  else ret tt.

Definition vm_readbuf (blkno : Z) (extend : bool) : MV Buffer :=
  let* n := cache_nblocks in
  let* buf :=
    if n <=? blkno then
      if extend then vm_extend (u32 (blkno + 1)) else ret None
    else
      let* s := get in
      if blkno <? Z.of_nat (length (pages s)) then pin blkno;;; ret (Some blkno)
      else raise ERROR in
  match buf with
  | Some blk => init_page blk;;; ret (Some blk)
  | None => ret None
  end.

(** ** Pinning *)

Definition pg_tde_visibilitymap_pin (heapBlk : Z) (vmbuf : Buffer) : MV Buffer :=
  let mapBlock := HEAPBLK_TO_MAPBLOCK heapBlk in
  match vmbuf with
  | Some b =>
      if b =? mapBlock then ret vmbuf
      else ReleaseBuffer b;;; vm_readbuf mapBlock true
  | None => vm_readbuf mapBlock true
  end.

Definition pg_tde_visibilitymap_pin_ok (heapBlk : Z) (vmbuf : Buffer) : bool :=
  match vmbuf with
  | Some b => b =? HEAPBLK_TO_MAPBLOCK heapBlk
  | None => false
  end.

(** ** Clearing *)

(** [map[mapByte] &= ~mask], computed as an [int] and stored as a [char]. *)
Definition clear_byte (byte mask : Z) : Z := u8 (Z.land (schar byte) (Z.lnot mask)).

Definition pg_tde_visibilitymap_clear (heapBlk : Z) (vmbuf : Buffer) (flags : Z) : MV bool :=
  let mapBlock := HEAPBLK_TO_MAPBLOCK heapBlk in
  let mapByte := HEAPBLK_TO_MAPBYTE heapBlk in
  let mapOffset := HEAPBLK_TO_OFFSET heapBlk in
  let mask := u8 (Z.shiftl flags mapOffset) in
  match vmbuf with
  | None => raise ERROR
  | Some b =>
      if negb (b =? mapBlock) then raise ERROR else
      let* p := BufferGetPage b in
      let* byte := defined (rd (contents p) mapByte) in
      if negb (Z.land (schar byte) mask =? 0) then
        let* map_ := defined (wr (contents p) mapByte (clear_byte byte mask)) in
        set_contents b map_;;;
        ret true
      else ret false
  end.

(** ** Setting *)

(** pg_tdeam.c, log_pg_tde_visible. *)
Definition log_pg_tde_visible (heapBuf vmBuf : Buffer) (cutoff_xid vmflags : Z) : MV Z :=
  match heapBuf, vmBuf with
  | Some hb, Some vb =>
      XLogInsert (Visible cutoff_xid
        (if RelationIsAccessibleInLogicalDecoding
         then Z.lor vmflags VISIBILITYMAP_XLOG_CATALOG_REL else vmflags)
        vb hb XLogHintBitIsNeeded)
  | _, _ => undefined
  end.

Definition set_heap_lsn (lsn : Z) : MV unit :=
  modify (fun s => {| vm_fork := vm_fork s; smgr_cached_nblocks := smgr_cached_nblocks s;
                      pinned := pinned s; heap_lsn := lsn; wal := wal s |}).

(** [map[mapByte] |= (flags << mapOffset)] *)
Definition set_byte (byte flags mapOffset : Z) : Z := u8 (Z.lor byte (Z.shiftl flags mapOffset)).

(** The record and the LSNs of a change that has been made. *)
Definition log_set (heapBuf : Buffer) (recptr b cutoff_xid flags : Z) : MV unit :=
  if RelationNeedsWAL then
    let* recptr :=
      if recptr =? InvalidXLogRecPtr then
        let* r := log_pg_tde_visible heapBuf (Some b) cutoff_xid flags in
        (if XLogHintBitIsNeeded then set_heap_lsn r else ret tt);;;
        ret r
      else ret recptr in
    PageSetLSN b recptr
  else ret tt.

Definition pg_tde_visibilitymap_set (heapBlk : Z) (heapBuf : Buffer) (recptr : Z)
    (vmBuf : Buffer) (cutoff_xid flags : Z) : MV unit :=
  let mapBlock := HEAPBLK_TO_MAPBLOCK heapBlk in
  let mapByte := HEAPBLK_TO_MAPBYTE heapBlk in
  let mapOffset := HEAPBLK_TO_OFFSET heapBlk in
  if match heapBuf with Some hb => negb (hb =? heapBlk) | None => false end then raise ERROR else
  match vmBuf with
  | None => raise ERROR
  | Some b =>
      if negb (b =? mapBlock) then raise ERROR else
      let* p := BufferGetPage b in
      let* byte := defined (rd (contents p) mapByte) in
      if negb (flags =? Z.land (Z.shiftr byte mapOffset) VISIBILITYMAP_VALID_BITS) then
        let* map_ := defined (wr (contents p) mapByte (set_byte byte flags mapOffset)) in
        set_contents b map_;;;
        log_set heapBuf recptr b cutoff_xid flags
      else ret tt
  end.

(** ** Reading *)

Definition read_status (heapBlk b : Z) : MV (Z * Buffer) :=
  let mapByte := HEAPBLK_TO_MAPBYTE heapBlk in
  let mapOffset := HEAPBLK_TO_OFFSET heapBlk in
  let* p := BufferGetPage b in
  let* byte := defined (rd (contents p) mapByte) in
  ret (u8 (Z.land (Z.shiftr (schar byte) mapOffset) VISIBILITYMAP_VALID_BITS), Some b).

(** The status and the buffer that stays pinned. *)
Definition pg_tde_visibilitymap_get_status (heapBlk : Z) (vmbuf : Buffer) : MV (Z * Buffer) :=
  let mapBlock := HEAPBLK_TO_MAPBLOCK heapBlk in
  let* vmbuf :=
    match vmbuf with
    | Some b => if negb (b =? mapBlock) then ReleaseBuffer b;;; ret None else ret vmbuf
    | None => ret None
    end in
  let* vmbuf :=
    match vmbuf with
    | None => vm_readbuf mapBlock false
    | Some _ => ret vmbuf
    end in
  match vmbuf with
  | None => ret (0, None)
  | Some b => read_status heapBlk b
  end.

(** The macros of pg_tde_visibilitymap.h. *)
Definition VM_ALL_VISIBLE (heapBlk : Z) (vmbuf : Buffer) : MV (bool * Buffer) :=
  let* r := pg_tde_visibilitymap_get_status heapBlk vmbuf in
  ret (negb (Z.land (fst r) VISIBILITYMAP_ALL_VISIBLE =? 0), snd r).

Definition VM_ALL_FROZEN (heapBlk : Z) (vmbuf : Buffer) : MV (bool * Buffer) :=
  let* r := pg_tde_visibilitymap_get_status heapBlk vmbuf in
  ret (negb (Z.land (fst r) VISIBILITYMAP_ALL_FROZEN =? 0), snd r).

(** ** Counting *)

Definition VISIBLE_MASK64 : Z := 0x5555555555555555.
Definition FROZEN_MASK64 : Z := 0xaaaaaaaaaaaaaaaa.

(** The [uint64]s of a page, on a little-endian machine. *)
Fixpoint words (fuel : nat) (map_ : list Z) : list Z :=
  match fuel with
  | O => []
  | S n => le_value (take 8 map_) :: words n (drop 8 map_)
  end.

Definition page_count (mask : Z) (map_ : list Z) (n0 : Z) : Z :=
  foldl (fun n w => u32 (n + pg_popcount64 (Z.land w mask))) n0
    (words (Z.to_nat (MAPSIZE / 8)) map_).

(** [for (mapBlock = 0;; mapBlock++)] *)
Fixpoint count_loop (fuel : nat) (mapBlock nvisible nfrozen : Z) (want_frozen : bool)
    : MV (Z * Z) :=
  match fuel with
  | O => nofuel
  | S fuel =>
      let* mapBuffer := vm_readbuf mapBlock false in
      match mapBuffer with
      | None => ret (nvisible, nfrozen)
      | Some b =>
          let* p := BufferGetPage b in
          let nvisible := page_count VISIBLE_MASK64 (contents p) nvisible in
          let nfrozen := if want_frozen then page_count FROZEN_MASK64 (contents p) nfrozen
                         else nfrozen in
          ReleaseBuffer b;;;
          count_loop fuel (u32 (mapBlock + 1)) nvisible nfrozen want_frozen
      end
  end.

Definition pg_tde_visibilitymap_count (fuel : nat) (want_frozen : bool) : MV (Z * Z) :=
  count_loop fuel 0 0 0 want_frozen.

(** ** Truncating *)

(** The map page with everything from a byte and offset on cleared. *)
Definition truncate_map (map_ : list Z) (truncByte truncOffset : Z) : option (list Z) :=
  let tail := truncByte + 1 in
  match wr_bytes map_ tail (replicate (Z.to_nat (MAPSIZE - tail)) 0) with
  | None => None
  | Some map_ =>
      match rd map_ truncByte with
      | None => None
      | Some byte => wr map_ truncByte (u8 (Z.land (schar byte) (Z.shiftl 1 truncOffset - 1)))
      end
  end.

(** The fork is no longer than asked for, or it is to be cut. *)
Definition truncate_result (newnblocks : Z) : MV Z :=
  let* s := get in
  let n := Z.of_nat (length (pages s)) in
  modify (with_cached n);;;
  ret (if n <=? newnblocks then InvalidBlockNumber else newnblocks).

Definition clear_tail (mapBuffer truncByte truncOffset : Z) : MV unit :=
  let* p := BufferGetPage mapBuffer in
  let* map_ := defined (truncate_map (contents p) truncByte truncOffset) in
  set_contents mapBuffer map_;;;
  (if negb InRecovery && RelationNeedsWAL && XLogHintBitIsNeeded then
     let* p := BufferGetPage mapBuffer in
     let* lsn := XLogInsert (NewPage mapBuffer p) in
     PageSetLSN mapBuffer lsn
   else ret tt);;;
  ReleaseBuffer mapBuffer.

Definition pg_tde_visibilitymap_prepare_truncate (nheapblocks : Z) : MV Z :=
  let truncBlock := HEAPBLK_TO_MAPBLOCK nheapblocks in
  let truncByte := HEAPBLK_TO_MAPBYTE nheapblocks in
  let truncOffset := HEAPBLK_TO_OFFSET nheapblocks in
  let* exists_ := gets (fun s => bool_decide (vm_fork s <> None)) in
  if negb exists_ then ret InvalidBlockNumber else
  if negb (truncByte =? 0) || negb (truncOffset =? 0) then
    let* mapBuffer := vm_readbuf truncBlock false in
    match mapBuffer with
    | None => ret InvalidBlockNumber
    | Some b =>
        clear_tail b truncByte truncOffset;;;
        truncate_result (u32 (truncBlock + 1))
    end
  else truncate_result truncBlock.
End visibilitymap.
