(* ===== verification/VisibilityMapProps.v ===== *)
(** Reasoning about the visibility map: the bits of a heap block, what each
    operation does to them, and well-formed states. *)
From stdpp Require Import list_numbers.
From S2P Require Import Prelude EncTuple RelKeys VisibilityMap.

(** The documented values, and what extending does to the cached size. *)
Class VmLaws `{PgBlockSize} `{VmEnv} := {
  header_size : 0 <= MAXALIGN_SizeOfPageHeaderData < 1024;
  header_aligned : MAXALIGN_SizeOfPageHeaderData mod 8 = 0;
  bits_per_heapblock : BITS_PER_HEAPBLOCK = 2;
  all_visible_value : VISIBILITYMAP_ALL_VISIBLE = 1;
  all_frozen_value : VISIBILITYMAP_ALL_FROZEN = 2;
  valid_bits_value : VISIBILITYMAP_VALID_BITS = 3;
  invalid_block : InvalidBlockNumber = 2 ^ 32 - 1;
  cache_extended n : cache_after_extend n = InvalidBlockNumber \/ cache_after_extend n = n;
}.

(** ** Pairs of bits in a byte *)

Definition pair_at (byte off : Z) : Z := Z.land (Z.shiftr byte off) 3.

(** Facts about all bytes, flags and offsets, by computation. *)
Definition all_bytes (P : Z -> bool) : bool := forallb P (seqZ 0 256).
Definition all_flags4 (P : Z -> bool) : bool := forallb P (seqZ 0 4).
Definition all_offsets (P : Z -> bool) : bool := forallb P [0; 2; 4; 6].

Lemma forallb_seqZ P n x : forallb P (seqZ 0 n) = true -> 0 <= x < n -> P x = true.
Proof.
  intros H Hx. rewrite forallb_forall in H. apply H, list_elem_of_In, elem_of_seqZ. lia.
Qed.

Definition offset_ok (o : Z) : Prop := In o [0; 2; 4; 6].

Lemma all_offsets_spec P o : all_offsets P = true -> offset_ok o -> P o = true.
Proof. unfold all_offsets, offset_ok. rewrite forallb_forall. auto. Qed.


Definition set_check (b f o o' : Z) : bool :=
  (pair_at (set_byte b f o) o' =? if o =? o' then Z.lor (pair_at b o) f else pair_at b o')
  && (0 <=? set_byte b f o) && (set_byte b f o <? 256).
Definition clear_check (b f o o' : Z) : bool :=
  let b' := clear_byte b (u8 (Z.shiftl f o)) in
  (pair_at b' o' =? if o =? o' then Z.ldiff (pair_at b o) f else pair_at b o')
  && (0 <=? b') && (b' <? 256)
  && Bool.eqb (Z.land (schar b) (u8 (Z.shiftl f o)) =? 0) (Z.land (pair_at b o) f =? 0).
Definition cut_check (b o o' : Z) : bool :=
  let b' := u8 (Z.land (schar b) (Z.shiftl 1 o - 1)) in
  (pair_at b' o' =? if o' <? o then pair_at b o' else 0) && (0 <=? b') && (b' <? 256).
Definition read_check (b o : Z) : bool := u8 (Z.land (Z.shiftr (schar b) o) 3) =? pair_at b o.

Lemma set_checked :
  all_bytes (fun b => all_flags4 (fun f => all_offsets (fun o => all_offsets (set_check b f o)))) = true.
Proof. by vm_compute. Qed.
Lemma clear_checked :
  all_bytes (fun b => all_flags4 (fun f => all_offsets (fun o => all_offsets (clear_check b f o)))) = true.
Proof. by vm_compute. Qed.
Lemma cut_checked :
  all_bytes (fun b => all_offsets (fun o => all_offsets (cut_check b o))) = true.
Proof. by vm_compute. Qed.
Lemma read_checked : all_bytes (fun b => all_offsets (read_check b)) = true.
Proof. by vm_compute. Qed.

Lemma set_check_ok b f o o' :
  byte_ok b -> 0 <= f < 4 -> offset_ok o -> offset_ok o' -> set_check b f o o' = true.
Proof.
  intros Hb Hf Ho Ho'. pose proof set_checked as H.
  apply (forallb_seqZ _ _ b) in H; [|done]. apply (forallb_seqZ _ _ f) in H; [|done].
  apply (all_offsets_spec _ o) in H; [|done]. by apply (all_offsets_spec _ o') in H.
Qed.

Lemma clear_check_ok b f o o' :
  byte_ok b -> 0 <= f < 4 -> offset_ok o -> offset_ok o' -> clear_check b f o o' = true.
Proof.
  intros Hb Hf Ho Ho'. pose proof clear_checked as H.
  apply (forallb_seqZ _ _ b) in H; [|done]. apply (forallb_seqZ _ _ f) in H; [|done].
  apply (all_offsets_spec _ o) in H; [|done]. by apply (all_offsets_spec _ o') in H.
Qed.

Lemma cut_check_ok b o o' :
  byte_ok b -> offset_ok o -> offset_ok o' -> cut_check b o o' = true.
Proof.
  intros Hb Ho Ho'. pose proof cut_checked as H.
  apply (forallb_seqZ _ _ b) in H; [|done].
  apply (all_offsets_spec _ o) in H; [|done]. by apply (all_offsets_spec _ o') in H.
Qed.

Lemma read_pair b o : byte_ok b -> offset_ok o ->
  u8 (Z.land (Z.shiftr (schar b) o) 3) = pair_at b o.
Proof.
  intros Hb Ho. pose proof read_checked as H.
  apply (forallb_seqZ _ _ b) in H; [|done]. apply (all_offsets_spec _ o) in H; [|done].
  by apply Z.eqb_eq.
Qed.

Lemma set_pair b f o o' :
  byte_ok b -> 0 <= f < 4 -> offset_ok o -> offset_ok o' ->
  pair_at (set_byte b f o) o' = (if o =? o' then Z.lor (pair_at b o) f else pair_at b o')
  /\ byte_ok (set_byte b f o).
Proof.
  intros Hb Hf Ho Ho'. pose proof (set_check_ok b f o o' Hb Hf Ho Ho') as H.
  unfold set_check in H. rewrite !andb_true_iff, Z.eqb_eq in H. unfold byte_ok.
  destruct H as [[-> H1] H2]. split; [done|lia].
Qed.

Lemma clear_pair b f o o' :
  byte_ok b -> 0 <= f < 4 -> offset_ok o -> offset_ok o' ->
  let b' := clear_byte b (u8 (Z.shiftl f o)) in
  pair_at b' o' = (if o =? o' then Z.ldiff (pair_at b o) f else pair_at b o')
  /\ byte_ok b'
  /\ (Z.land (schar b) (u8 (Z.shiftl f o)) =? 0) = (Z.land (pair_at b o) f =? 0).
Proof.
  intros Hb Hf Ho Ho'. pose proof (clear_check_ok b f o o' Hb Hf Ho Ho') as H.
  unfold clear_check in H. cbv zeta in H |- *.
  rewrite !andb_true_iff, Bool.eqb_true_iff in H. destruct H as [[[H1 H2] H3] H4].
  split; [by apply Z.eqb_eq|]. split; [unfold byte_ok; lia|done].
Qed.

Lemma cut_pair b o o' :
  byte_ok b -> offset_ok o -> offset_ok o' ->
  let b' := u8 (Z.land (schar b) (Z.shiftl 1 o - 1)) in
  pair_at b' o' = (if o' <? o then pair_at b o' else 0) /\ byte_ok b'.
Proof.
  intros Hb Ho Ho'. pose proof (cut_check_ok b o o' Hb Ho Ho') as H.
  unfold cut_check in H. cbv zeta in H |- *. rewrite !andb_true_iff in H.
  destruct H as [[H1 H2] H3]. split; [by apply Z.eqb_eq|unfold byte_ok; lia].
Qed.

Lemma pair_at_0 o : pair_at 0 o = 0.
Proof. unfold pair_at. by rewrite Z.shiftr_0_l. Qed.

Lemma pair_range b o : 0 <= pair_at b o < 4.
Proof. unfold pair_at. change 3 with (Z.ones 2). rewrite Z.land_ones by lia. apply Z.mod_pos_bound. lia. Qed.

Section geometry.
Context `{HB : PgBlockSize} `{HBL : !PgBlockSizeLaws} `{HV : VmEnv} `{HVL : !VmLaws}.

Lemma blocks_per_byte : HEAPBLOCKS_PER_BYTE = 4.
Proof. unfold HEAPBLOCKS_PER_BYTE. by rewrite bits_per_heapblock. Qed.

Lemma MAPSIZE_range : 0 < MAPSIZE < 2 ^ 16.
Proof.
  pose proof header_size. pose proof BLCKSZ_range. unfold MAPSIZE. lia.
Qed.

Lemma MAPSIZE_aligned : MAPSIZE mod 8 = 0.
Proof.
  pose proof header_aligned. destruct BLCKSZ_pow2 as (k & Hk & Hp). unfold MAPSIZE.
  assert (BLCKSZ mod 8 = 0).
  { rewrite Hp. replace k with (3 + (k - 3)) by lia. rewrite Z.pow_add_r by lia.
    change (2 ^ 3) with 8. rewrite Z.mul_comm. apply Z_mod_mult. }
  rewrite Zminus_mod, H, H0. done.
Qed.

Lemma page_blocks : HEAPBLOCKS_PER_PAGE = 4 * MAPSIZE /\ 0 < HEAPBLOCKS_PER_PAGE.
Proof.
  pose proof MAPSIZE_range. unfold HEAPBLOCKS_PER_PAGE. rewrite blocks_per_byte. lia.
Qed.

Lemma mapbyte_range x : 0 <= HEAPBLK_TO_MAPBYTE x < MAPSIZE.
Proof.
  destruct page_blocks as [Hp Hpos]. unfold HEAPBLK_TO_MAPBYTE. rewrite blocks_per_byte.
  pose proof (Z.mod_pos_bound x HEAPBLOCKS_PER_PAGE Hpos).
  split; [apply Z.div_pos; lia|]. apply Z.div_lt_upper_bound; lia.
Qed.

Lemma offset_is_ok x : offset_ok (HEAPBLK_TO_OFFSET x).
Proof.
  unfold HEAPBLK_TO_OFFSET, offset_ok. rewrite blocks_per_byte, bits_per_heapblock.
  pose proof (Z.mod_pos_bound x 4). cbn. lia.
Qed.

Lemma mapblock_range x : 0 <= x < 2 ^ 32 -> 0 <= HEAPBLK_TO_MAPBLOCK x < 2 ^ 30.
Proof.
  intros Hx. destruct page_blocks as [Hp Hpos]. pose proof MAPSIZE_range.
  unfold HEAPBLK_TO_MAPBLOCK. split; [apply Z.div_pos; lia|].
  apply Z.div_lt_upper_bound; lia.
Qed.

(** A heap block and the place of its bits determine each other. *)
Lemma heap_address x :
  x = HEAPBLOCKS_PER_PAGE * HEAPBLK_TO_MAPBLOCK x + 4 * HEAPBLK_TO_MAPBYTE x
      + HEAPBLK_TO_OFFSET x / 2.
Proof.
  destruct page_blocks as [Hp Hpos].
  unfold HEAPBLK_TO_MAPBLOCK, HEAPBLK_TO_MAPBYTE, HEAPBLK_TO_OFFSET.
  rewrite blocks_per_byte, bits_per_heapblock, Z.div_mul by lia.
  pose proof (Z_div_mod_eq_full x HEAPBLOCKS_PER_PAGE).
  pose proof (Z_div_mod_eq_full (x mod HEAPBLOCKS_PER_PAGE) 4).
  assert ((x mod HEAPBLOCKS_PER_PAGE) mod 4 = x mod 4).
  { apply Z.mod_mod_divide. exists MAPSIZE. lia. }
  lia.
Qed.

Lemma same_address x y :
  HEAPBLK_TO_MAPBLOCK x = HEAPBLK_TO_MAPBLOCK y ->
  HEAPBLK_TO_MAPBYTE x = HEAPBLK_TO_MAPBYTE y ->
  HEAPBLK_TO_OFFSET x = HEAPBLK_TO_OFFSET y -> x = y.
Proof. intros H1 H2 H3. rewrite (heap_address x), (heap_address y). congruence. Qed.

(** ** The bits of a heap block *)

Definition page_bits (p : VmPage) (x : Z) : Z :=
  match contents p !! Z.to_nat (HEAPBLK_TO_MAPBYTE x) with
  | Some b => pair_at b (HEAPBLK_TO_OFFSET x)
  | None => 0
  end.

Definition vm_status (s : VmState) (x : Z) : Z :=
  match pages s !! Z.to_nat (HEAPBLK_TO_MAPBLOCK x) with
  | Some p => page_bits p x
  | None => 0
  end.

Lemma status_range s x : 0 <= vm_status s x < 4.
Proof.
  unfold vm_status, page_bits. repeat case_match; try done. apply pair_range.
Qed.

Definition page_ok (p : VmPage) : Prop :=
  Z.of_nat (length (contents p)) = MAPSIZE /\ bytes_ok (contents p)
  /\ (is_new p = true -> contents p = replicate (Z.to_nat MAPSIZE) 0).

(** Well-formed, with the pages of [pins] initialized. *)
Definition vm_ok_for (pins : list Z) (s : VmState) : Prop :=
  Forall page_ok (pages s)
  /\ (smgr_cached_nblocks s = InvalidBlockNumber
      \/ 0 <= smgr_cached_nblocks s <= Z.of_nat (length (pages s)))
  /\ Z.of_nat (length (pages s)) < 2 ^ 32 - 1
  /\ Forall (fun b => 0 <= b /\ exists p, pages s !! Z.to_nat b = Some p /\ is_new p = false)
       pins.

Definition vm_ok (s : VmState) : Prop := vm_ok_for (pinned s) s.

Lemma zero_contents_bits p x :
  contents p = replicate (Z.to_nat MAPSIZE) 0 -> page_bits p x = 0.
Proof.
  intros H. unfold page_bits. rewrite H.
  destruct (replicate _ _ !! _) eqn:E; [|done].
  apply lookup_replicate in E as [-> _]. apply pair_at_0.
Qed.

Lemma zero_page_ok : page_ok zero_page.
Proof.
  pose proof MAPSIZE_range. split; cbn; [rewrite length_replicate; lia|].
  split; [|done]. apply Forall_replicate. unfold byte_ok. lia.
Qed.

Lemma page_byte p x : page_ok p -> exists b,
  contents p !! Z.to_nat (HEAPBLK_TO_MAPBYTE x) = Some b /\ byte_ok b
  /\ rd (contents p) (HEAPBLK_TO_MAPBYTE x) = Some b.
Proof.
  intros (Hl & Hb & _). pose proof (mapbyte_range x) as Hr.
  destruct (lookup_lt_is_Some_2 (contents p) (Z.to_nat (HEAPBLK_TO_MAPBYTE x))) as [b Eb]; [lia|].
  exists b. split; [done|]. split; [by eapply Forall_lookup_1|].
  apply rd_Some. split; [lia|done].
Qed.

(** The page with another byte at the place of a heap block. *)
Lemma page_wr p x b :
  page_ok p -> wr (contents p) (HEAPBLK_TO_MAPBYTE x) b =
    Some (<[Z.to_nat (HEAPBLK_TO_MAPBYTE x) := b]> (contents p)).
Proof.
  intros (Hl & _). pose proof (mapbyte_range x). unfold wr.
  replace (0 <=? HEAPBLK_TO_MAPBYTE x) with true by lia.
  by replace (HEAPBLK_TO_MAPBYTE x <? _) with true by lia.
Qed.
End geometry.

Section operations.
Context `{HB : PgBlockSize} `{HBL : !PgBlockSizeLaws} `{HV : VmEnv} `{HVL : !VmLaws}.

(** Nothing but pins and the cached size differs: the map says the same. *)
Definition same_map (s s' : VmState) : Prop :=
  (forall x, vm_status s' x = vm_status s x) /\ wal s' = wal s /\ heap_lsn s' = heap_lsn s.

Lemma pages_with_fork ps s : pages (with_fork ps s) = ps.
Proof. done. Qed.

Lemma same_map_trans s1 s2 s3 : same_map s1 s2 -> same_map s2 s3 -> same_map s1 s3.
Proof.
  intros (H1 & H2 & H3) (H4 & H5 & H6). split; [|split; congruence].
  intros x. by rewrite H4, H1.
Qed.

Lemma BufferGetPage_Ret b p s :
  0 <= b -> pages s !! Z.to_nat b = Some p -> BufferGetPage b s = (Ret p, s).
Proof. intros Hb Hp. unfold BufferGetPage. rewrite Hp. by replace (0 <=? b) with true by lia. Qed.

Lemma BufferGetPage_pinned b s :
  vm_ok s -> b ∈ pinned s -> exists p,
    BufferGetPage b s = (Ret p, s) /\ 0 <= b /\ pages s !! Z.to_nat b = Some p
    /\ is_new p = false /\ page_ok p.
Proof.
  intros (Hps & _ & _ & Hpin) Hb. rewrite Forall_forall in Hpin.
  destruct (Hpin b Hb) as (Hb0 & p & Hp & Hn). exists p.
  split; [by apply BufferGetPage_Ret|]. split_and!; try done. by eapply Forall_lookup_1.
Qed.

(** One page rewritten, not to a new one. *)
Lemma vm_ok_set_page pins b p p' s :
  vm_ok_for pins s -> 0 <= b -> pages s !! Z.to_nat b = Some p -> page_ok p' -> is_new p' = false ->
  vm_ok_for (b :: pins) (with_fork (<[Z.to_nat b := p']> (pages s)) s)
  /\ forall x, 0 <= HEAPBLK_TO_MAPBLOCK x ->
       vm_status (with_fork (<[Z.to_nat b := p']> (pages s)) s) x =
       if HEAPBLK_TO_MAPBLOCK x =? b then page_bits p' x else vm_status s x.
Proof.
  intros (Hps & Hc & Hlen & Hpin) Hb Hp Hp' Hn'.
  pose proof (lookup_lt_Some _ _ _ Hp) as Hlt. split.
  - unfold vm_ok_for. rewrite pages_with_fork, length_insert. split; [by apply Forall_insert|].
    split; [done|]. split; [done|]. constructor.
    { split; [done|]. exists p'. by rewrite list_lookup_insert_eq. }
    eapply Forall_impl; [exact Hpin|].
    intros b' (Hb' & q & Hq & Hn). split; [done|].
    destruct (decide (Z.to_nat b = Z.to_nat b')) as [E|E].
    + exists p'. rewrite E in *. by rewrite list_lookup_insert_eq.
    + exists q. by rewrite list_lookup_insert_ne.
  - intros x Hx. unfold vm_status. rewrite pages_with_fork.
    destruct (Z.eqb_spec (HEAPBLK_TO_MAPBLOCK x) b) as [->|Hne].
    + by rewrite list_lookup_insert_eq.
    + rewrite list_lookup_insert_ne by lia. done.
Qed.

(** ** Reading a map page *)

Lemma vm_status_ext s s' : pages s' = pages s -> forall x, vm_status s' x = vm_status s x.
Proof. intros H x. unfold vm_status. by rewrite H. Qed.

(** The size of the fork, as far as this backend knows. *)
Definition known_nblocks (s : VmState) : Z :=
  if smgr_cached_nblocks s =? InvalidBlockNumber then Z.of_nat (length (pages s))
  else smgr_cached_nblocks s.

Lemma cache_nblocks_spec pins s :
  vm_ok_for pins s -> exists s',
    cache_nblocks s = (Ret (smgr_cached_nblocks s'), s') /\ vm_ok_for pins s' /\ same_map s s'
    /\ pages s' = pages s /\ pinned s' = pinned s
    /\ smgr_cached_nblocks s' = known_nblocks s
    /\ 0 <= known_nblocks s <= Z.of_nat (length (pages s)).
Proof.
  intros Hok. pose proof Hok as (Hps & Hc & Hlen & Hpin).
  unfold cache_nblocks, known_nblocks, bind, get, gets, modify, ret.
  destruct (Z.eqb_spec (smgr_cached_nblocks s) InvalidBlockNumber) as [E|E].
  - exists (with_cached (Z.of_nat (length (pages s))) s).
    split; [by destruct s as [[ps|] c pn hl w]|].
    split; [split; [done|split; [right; cbn; fold (pages s); lia|done]]|].
    split; [done|]. split; [done|]. split; [done|]. split; [done|]. lia.
  - exists s. destruct Hc as [Hc|Hc]; [done|]. done.
Qed.

Lemma init_page_spec pins b p s :
  vm_ok_for pins s -> 0 <= b -> pages s !! Z.to_nat b = Some p ->
  exists s', init_page b s = (Ret tt, s') /\ vm_ok_for (b :: pins) s' /\ same_map s s'
    /\ pinned s' = pinned s /\ length (pages s') = length (pages s)
    /\ smgr_cached_nblocks s' = smgr_cached_nblocks s.
Proof.
  intros Hok Hb Hp. unfold init_page. mstep (BufferGetPage_Ret b p s Hb Hp).
  pose proof Hok as (Hps & Hc & Hlen & Hpin).
  destruct (is_new p) eqn:Hn.
  2: { exists s. split; [done|]. split; [|done]. split; [done|]. split; [done|].
       split; [done|]. constructor; [|done]. split; [done|]. by exists p. }
  pose proof (Forall_lookup_1 _ _ _ _ Hps Hp) as Hpok.
  set (p' := {| contents := replicate (Z.to_nat MAPSIZE) 0; is_new := false; page_lsn := 0 |}).
  assert (Hp' : page_ok p') by (destruct zero_page_ok as (? & ? & ?); by split_and!).
  pose proof (lookup_lt_Some _ _ _ Hp).
  eexists. split; [reflexivity|]. cbn [pinned].
  split; [by eapply vm_ok_set_page|]. split; [|split; [done|]].
  - split; [|done]. intros x. unfold vm_status. rewrite pages_with_fork.
    destruct (decide (Z.to_nat b = Z.to_nat (HEAPBLK_TO_MAPBLOCK x))) as [E|E].
    + rewrite <- E, list_lookup_insert_eq, Hp by done.
      by rewrite !zero_contents_bits by first [done | by apply Hpok].
    + by rewrite list_lookup_insert_ne.
  - split; [by rewrite pages_with_fork, length_insert|done].
Qed.

Lemma vm_ok_for_state pins s s' :
  pages s' = pages s -> smgr_cached_nblocks s' = smgr_cached_nblocks s ->
  vm_ok_for pins s -> vm_ok_for pins s'.
Proof. unfold vm_ok_for. by intros -> ->. Qed.

(** Longer by new pages: nothing is said of the heap blocks they cover. *)
Lemma vm_extend_spec pins n s :
  vm_ok_for pins s -> 0 < n < 2 ^ 32 - 1 ->
  exists s', vm_extend n s = (Ret (Some (n - 1)), s') /\ vm_ok_for pins s' /\ same_map s s'
    /\ pinned s' = (n - 1) :: pinned s /\ n <= Z.of_nat (length (pages s')).
Proof.
  intros (Hps & Hc & Hlen & Hpin) Hn.
  set (k := (Z.to_nat n - length (pages s))%nat).
  set (ps := pages s ++ replicate k zero_page).
  assert (Hl : Z.of_nat (length ps) = Z.max n (Z.of_nat (length (pages s)))).
  { unfold ps, k. rewrite length_app, length_replicate. lia. }
  exists (with_pinned (n - 1 :: pinned s)
    (with_cached (cache_after_extend (Z.of_nat (length ps))) (with_fork ps s))).
  split; [done|]. split; [|split; [|split; [done|]]].
  - split; [cbn; apply Forall_app; split; [done|apply Forall_replicate, zero_page_ok]|].
    change (pages (with_pinned _ _)) with ps. split; [|split; [lia|]].
    + cbn. destruct (cache_extended (Z.of_nat (length ps))) as [->| ->]; [by left|].
      right. lia.
    + eapply Forall_impl; [exact Hpin|]. intros b (Hb & p & Hp & Hn'). split; [done|].
      exists p. split; [|done]. by apply lookup_app_l_Some.
  - split; [|done]. intros x. unfold vm_status. change (pages (with_pinned _ _)) with ps. unfold ps.
    destruct (pages s !! Z.to_nat (HEAPBLK_TO_MAPBLOCK x)) as [p|] eqn:E.
    + by rewrite (lookup_app_l_Some _ _ _ _ E).
    + rewrite lookup_app_r by (by apply lookup_ge_None).
      destruct (replicate _ _ !! _) eqn:E2; [|done].
      apply lookup_replicate in E2 as [-> _]. by apply zero_contents_bits.
  - change (pages (with_pinned _ _)) with ps. lia.
Qed.

(** The page asked for, pinned and initialized; without [extend] only when
    the fork is known to have it. *)
Lemma vm_readbuf_spec pins blk ext s :
  vm_ok_for pins s -> 0 <= blk < 2 ^ 32 - 1 -> (ext = true -> blk < 2 ^ 30) ->
  exists r s', vm_readbuf blk ext s = (Ret r, s') /\ same_map s s'
    /\ match r with
       | Some b => b = blk /\ vm_ok_for (blk :: pins) s' /\ pinned s' = blk :: pinned s
                   /\ (ext = false -> blk < known_nblocks s)
       | None => ext = false /\ vm_ok_for pins s' /\ pinned s' = pinned s
                 /\ known_nblocks s <= blk
       end
    /\ (ext = false -> length (pages s') = length (pages s)
                       /\ known_nblocks s' = known_nblocks s).
Proof.
  intros Hok Hblk Hext. unfold vm_readbuf.
  destruct (cache_nblocks_spec pins s Hok) as (s1 & H1 & Hok1 & Hs1 & Hp1 & Hpn1 & Hk1 & Hc1).
  mstep H1. rewrite Hk1. destruct (Z.leb_spec (known_nblocks s) blk) as [Hle|Hlt].
  - destruct ext.
    + rewrite uwrap_small by lia.
      destruct (vm_extend_spec pins (blk + 1) s1 Hok1) as (s2 & H2 & Hok2 & Hs2 & Hp2 & Hl2);
        [lia|]. mstep H2. replace (blk + 1 - 1) with blk in * by lia.
      destruct (lookup_lt_is_Some_2 (pages s2) (Z.to_nat blk)) as [p Hp]; [lia|].
      destruct (init_page_spec pins blk p s2 Hok2) as (s3 & H3 & Hok3 & Hs3 & Hp3 & Hl3 & _);
        [lia|done|].
      mstep H3. exists (Some blk), s3. split; [done|].
      split; [by repeat (eapply same_map_trans; [eassumption|])|].
      split; [|done]. split; [done|]. split; [done|]. split; [congruence|done].
    + exists None, s1. split; [done|]. split; [done|]. split; [done|].
      intros _. split; [by rewrite Hp1|]. unfold known_nblocks at 1. rewrite Hk1, Hp1.
      case_match; [|done]. destruct Hok as (_ & _ & Hlen & _). rewrite invalid_block in *. lia.
  - rewrite bind_assoc. mstep (eq_refl : get s1 = (Ret s1, s1)). rewrite Hp1.
    replace (blk <? Z.of_nat (length (pages s))) with true by lia.
    rewrite bind_assoc. mstep (eq_refl : pin blk s1 = (Ret tt, with_pinned (blk :: pinned s1) s1)).
    set (s2 := with_pinned _ s1).
    assert (Hok2 : vm_ok_for pins s2) by (by apply (vm_ok_for_state pins s1)).
    destruct (lookup_lt_is_Some_2 (pages s2) (Z.to_nat blk)) as [p Hp];
      [change (pages s2) with (pages s1); rewrite Hp1; lia|].
    destruct (init_page_spec pins blk p s2 Hok2) as (s3 & H3 & Hok3 & Hs3 & Hp3 & Hl3 & Hk3);
      [lia|done|].
    rewrite bind_ret_l. mstep H3. exists (Some blk), s3. split; [done|].
    split; [eapply same_map_trans; [exact Hs1|exact Hs3]|].
    split; [split; [done|split; [done|split; [by rewrite Hp3; cbn; rewrite Hpn1|done]]]|].
    intros _. split; [by rewrite Hl3; change (pages s2) with (pages s1); rewrite Hp1|].
    unfold known_nblocks at 1. rewrite Hk3. change (smgr_cached_nblocks s2) with (smgr_cached_nblocks s1).
    rewrite Hk1. case_match; [|done]. destruct Hok as (_ & _ & Hlen & _).
    rewrite invalid_block in *. lia.
Qed.
End operations.
