(* ===== verification/VisibilityMapOps.v ===== *)
(** What each operation of the visibility map does to the bits, the pins
    and the WAL, and which bits a truncation leaves. *)
From S2P Require Import Prelude RelKeys EncTuple VisibilityMap VisibilityMapProps.

Section ops.
Context `{HB : PgBlockSize} `{HBL : !PgBlockSizeLaws} `{HV : VmEnv} `{HVL : !VmLaws}.

(** ** Pins *)

Definition buffer_pins (b : Buffer) : list Z := match b with Some b => [b] | None => [] end.

(** The operation traded the pin of [b] for that of [b']. *)
Definition trades (b b' : Buffer) (s s' : VmState) : Prop :=
  exists rest, pinned s ≡ₚ buffer_pins b ++ rest /\ pinned s' ≡ₚ buffer_pins b' ++ rest.

Definition holds (b : Buffer) (s : VmState) : Prop :=
  match b with Some b => b ∈ pinned s | None => True end.

Lemma vm_ok_for_perm l l' s : l ≡ₚ l' -> vm_ok_for l s -> vm_ok_for l' s.
Proof.
  intros Hp (H1 & H2 & H3 & H4). split; [done|]. split; [done|]. split; [done|].
  by rewrite <- Hp.
Qed.

Lemma remove_pin_spec b l : b ∈ l -> exists l', remove_pin b l = Some l' /\ l ≡ₚ b :: l'.
Proof.
  induction l as [|c l IH]; [by intros ?%not_elem_of_nil|].
  intros Hin. cbn. destruct (Z.eqb_spec c b) as [->|Hne]; [by exists l|].
  apply elem_of_cons in Hin as [->|Hin]; [done|].
  destruct (IH Hin) as (l' & -> & Hp). exists (c :: l'). split; [done|].
  rewrite Hp. constructor.
Qed.

Lemma ReleaseBuffer_spec b s :
  vm_ok s -> b ∈ pinned s ->
  exists s', ReleaseBuffer b s = (Ret tt, s') /\ vm_ok s' /\ same_map s s'
    /\ pinned s ≡ₚ b :: pinned s' /\ pages s' = pages s /\ known_nblocks s' = known_nblocks s.
Proof.
  intros Hok Hb. destruct (remove_pin_spec b _ Hb) as (l & Hl & Hp).
  exists (with_pinned l s). unfold ReleaseBuffer. rewrite Hl. split; [done|].
  split; [|done]. apply (vm_ok_for_perm _ _ _ Hp) in Hok as (H1 & H2 & H3 & H4).
  split; [done|]. split; [done|]. split; [done|]. by inversion H4.
Qed.

Lemma readbuf_holds blk ext s r s' :
  match r with
  | Some b => b = blk /\ vm_ok_for (blk :: pinned s) s' /\ pinned s' = blk :: pinned s
              /\ (ext = false -> blk < known_nblocks s)
  | None => ext = false /\ vm_ok_for (pinned s) s' /\ pinned s' = pinned s
            /\ known_nblocks s <= blk
  end -> vm_ok s' /\ pinned s' = buffer_pins r ++ pinned s.
Proof.
  unfold vm_ok. destruct r as [b|].
  - by intros (-> & Hok & -> & _).
  - by intros (_ & Hok & -> & _).
Qed.

Lemma pin_spec x b s :
  vm_ok s -> 0 <= x < 2 ^ 32 -> holds b s ->
  exists s', pg_tde_visibilitymap_pin x b s = (Ret (Some (HEAPBLK_TO_MAPBLOCK x)), s')
    /\ vm_ok s' /\ same_map s s' /\ trades b (Some (HEAPBLK_TO_MAPBLOCK x)) s s'.
Proof.
  intros Hok Hx Hb. pose proof (mapblock_range x Hx) as Hm.
  assert (Hread : forall s1, vm_ok s1 -> exists s2,
    vm_readbuf (HEAPBLK_TO_MAPBLOCK x) true s1 = (Ret (Some (HEAPBLK_TO_MAPBLOCK x)), s2)
    /\ vm_ok s2 /\ same_map s1 s2 /\ pinned s2 = HEAPBLK_TO_MAPBLOCK x :: pinned s1).
  { intros s1 Hok1. destruct (vm_readbuf_spec (pinned s1) (HEAPBLK_TO_MAPBLOCK x) true s1 Hok1)
      as (r & s2 & H2 & Hs2 & Hr & _); [lia|lia|].
    destruct (readbuf_holds _ _ _ _ _ Hr) as [Hok2 Hp2].
    destruct r as [b2|]; [|by destruct Hr]. destruct Hr as (-> & _). by exists s2. }
  unfold pg_tde_visibilitymap_pin. destruct b as [b|].
  - destruct (Z.eqb_spec b (HEAPBLK_TO_MAPBLOCK x)) as [->|Hne].
    + exists s. split; [done|]. split; [done|]. split; [done|]. cbn in Hb.
      destruct (remove_pin_spec _ _ Hb) as (l & _ & Hp). by exists l.
    + destruct (ReleaseBuffer_spec b s Hok Hb) as (s1 & H1 & Hok1 & Hs1 & Hp1 & _).
      destruct (Hread s1 Hok1) as (s2 & H2 & Hok2 & Hs2 & Hp2).
      mstep H1. exists s2. split; [done|]. split; [done|].
      split; [by eapply same_map_trans|]. exists (pinned s1). split; [done|]. by rewrite Hp2.
  - destruct (Hread s Hok) as (s2 & H2 & Hok2 & Hs2 & Hp2). exists s2.
    split; [done|]. split; [done|]. split; [done|]. exists (pinned s). by rewrite Hp2.
Qed.

(** ** Writing a byte *)

Lemma put_byte x p b0 byte' v s :
  vm_ok s -> HEAPBLK_TO_MAPBLOCK x ∈ pinned s ->
  pages s !! Z.to_nat (HEAPBLK_TO_MAPBLOCK x) = Some p -> page_ok p -> is_new p = false ->
  contents p !! Z.to_nat (HEAPBLK_TO_MAPBYTE x) = Some b0 -> byte_ok byte' ->
  (forall o', offset_ok o' ->
     pair_at byte' o' = if HEAPBLK_TO_OFFSET x =? o' then v else pair_at b0 o') ->
  0 <= HEAPBLK_TO_MAPBLOCK x ->
  exists s',
    set_contents (HEAPBLK_TO_MAPBLOCK x)
      (<[Z.to_nat (HEAPBLK_TO_MAPBYTE x) := byte']> (contents p)) s = (Ret tt, s')
    /\ vm_ok s' /\ pinned s' = pinned s /\ wal s' = wal s /\ heap_lsn s' = heap_lsn s
    /\ forall y, 0 <= y -> vm_status s' y = if y =? x then v else vm_status s y.
Proof.
  intros Hok Hpin Hp Hpok Hn Hb0 Hbyte Hv Hm. unfold set_contents.
  mstep (BufferGetPage_Ret _ _ _ Hm Hp).
  set (p' := {| contents := _; is_new := is_new p; page_lsn := page_lsn p |}).
  assert (Hp' : page_ok p').
  { destruct Hpok as (Hl & Hbs & _). split; [cbn; by rewrite length_insert|].
    split; [cbn; by apply Forall_insert|cbn; congruence]. }
  destruct (vm_ok_set_page (pinned s) _ p p' s Hok Hm Hp Hp' Hn) as [Hok' Hst].
  eexists. split; [reflexivity|]. split; [|split; [done|split; [done|split; [done|]]]].
  { destruct Hok' as (H1 & H2 & H3 & H4). split; [done|]. split; [done|]. split; [done|].
    by inversion H4. }
  intros y Hy. destruct page_blocks as [_ Hpos].
  rewrite Hst by (by apply Z.div_pos).
  destruct (Z.eqb_spec (HEAPBLK_TO_MAPBLOCK y) (HEAPBLK_TO_MAPBLOCK x)) as [Eb|Eb];
    [|by destruct (Z.eqb_spec y x) as [->|]].
  unfold vm_status, page_bits. rewrite Eb, Hp. cbn [contents p'].
  pose proof (mapbyte_range x). pose proof (mapbyte_range y).
  pose proof (lookup_lt_Some _ _ _ Hb0).
  destruct (decide (HEAPBLK_TO_MAPBYTE y = HEAPBLK_TO_MAPBYTE x)) as [Ey|Ey].
  - rewrite Ey, list_lookup_insert_eq, Hb0 by done. rewrite Hv by apply offset_is_ok.
    destruct (Z.eqb_spec y x) as [->|Hne]; [by rewrite Z.eqb_refl|].
    destruct (Z.eqb_spec (HEAPBLK_TO_OFFSET x) (HEAPBLK_TO_OFFSET y)); [|done].
    exfalso. apply Hne. by apply same_address.
  - rewrite list_lookup_insert_ne by lia.
    by destruct (Z.eqb_spec y x) as [->|Hne].
Qed.

(** ** Clearing *)

Lemma status_byte x p b0 s :
  pages s !! Z.to_nat (HEAPBLK_TO_MAPBLOCK x) = Some p ->
  contents p !! Z.to_nat (HEAPBLK_TO_MAPBYTE x) = Some b0 ->
  vm_status s x = pair_at b0 (HEAPBLK_TO_OFFSET x).
Proof. intros H1 H2. unfold vm_status, page_bits. by rewrite H1, H2. Qed.

Lemma clear_spec x flags s :
  vm_ok s -> HEAPBLK_TO_MAPBLOCK x ∈ pinned s -> 0 <= flags < 4 ->
  exists s',
    pg_tde_visibilitymap_clear x (Some (HEAPBLK_TO_MAPBLOCK x)) flags s =
      (Ret (negb (Z.land (vm_status s x) flags =? 0)), s')
    /\ vm_ok s' /\ pinned s' = pinned s /\ wal s' = wal s /\ heap_lsn s' = heap_lsn s
    /\ forall y, 0 <= y ->
         vm_status s' y = if y =? x then Z.ldiff (vm_status s x) flags else vm_status s y.
Proof.
  intros Hok Hpin Hf.
  destruct (BufferGetPage_pinned _ _ Hok Hpin) as (p & Hget & Hm & Hp & Hn & Hpok).
  destruct (page_byte p x Hpok) as (b0 & Hb0 & Hbok & Hrd).
  unfold pg_tde_visibilitymap_clear. rewrite Z.eqb_refl. cbn [negb].
  mstep Hget. rewrite Hrd. cbn [defined]. rewrite bind_ret_l.
  pose proof (status_byte x p b0 s Hp Hb0) as Hst.
  destruct (clear_pair b0 flags _ _ Hbok Hf (offset_is_ok x) (offset_is_ok x)) as (_ & _ & Hz).
  rewrite Hz, Hst. destruct (Z.eqb_spec (Z.land (pair_at b0 (HEAPBLK_TO_OFFSET x)) flags) 0)
    as [E|E]; cbn [negb].
  - exists s. split; [done|]. split_and!; try done. intros y Hy.
    destruct (Z.eqb_spec y x) as [->|]; [|done]. rewrite Hst. symmetry.
    rewrite Z.ldiff_land. apply Z.bits_inj'. intros i Hi. rewrite Z.land_spec, Z.lnot_spec by done.
    assert (Hb : Z.testbit (Z.land (pair_at b0 (HEAPBLK_TO_OFFSET x)) flags) i = false)
      by (by rewrite E, Z.bits_0).
    rewrite Z.land_spec in Hb. destruct (Z.testbit (pair_at _ _) i); [|done].
    cbn in *. by rewrite Hb.
  - rewrite page_wr by done. cbn [defined]. rewrite bind_ret_l.
    destruct (put_byte x p b0 (clear_byte b0 (u8 (Z.shiftl flags (HEAPBLK_TO_OFFSET x))))
                (Z.ldiff (pair_at b0 (HEAPBLK_TO_OFFSET x)) flags) s)
      as (s' & Hs' & Hok' & Hp' & Hw' & Hh' & Hst'); try done.
    { apply (clear_pair b0 flags _ _ Hbok Hf (offset_is_ok x) (offset_is_ok x)). }
    { intros o' Ho'. apply (clear_pair b0 flags _ _ Hbok Hf (offset_is_ok x) Ho'). }
    mstep Hs'. by exists s'.
Qed.

(** ** Setting *)

(** A change of the LSN only. *)
Lemma PageSetLSN_spec b lsn s :
  vm_ok s -> b ∈ pinned s ->
  exists s', PageSetLSN b lsn s = (Ret tt, s') /\ vm_ok s' /\ pinned s' = pinned s
    /\ same_map s s' /\ length (pages s') = length (pages s) /\ known_nblocks s' = known_nblocks s.
Proof.
  intros Hok Hb.
  destruct (BufferGetPage_pinned _ _ Hok Hb) as (p & Hget & Hm & Hp & Hn & Hpok).
  unfold PageSetLSN. mstep Hget.
  set (p' := {| contents := contents p; is_new := is_new p; page_lsn := lsn |}).
  destruct (vm_ok_set_page (pinned s) b p p' s Hok Hm Hp Hpok Hn) as [Hok' _].
  eexists. split; [reflexivity|]. split; [|split; [done|split; [|split]]].
  - destruct Hok' as (H1 & H2 & H3 & H4). split; [done|]. split; [done|]. split; [done|].
    by inversion H4.
  - split; [|done]. intros x. unfold vm_status. rewrite pages_with_fork.
    destruct (decide (Z.to_nat b = Z.to_nat (HEAPBLK_TO_MAPBLOCK x))) as [E|E].
    + rewrite <- E, list_lookup_insert_eq, Hp by (by eapply lookup_lt_Some). done.
    + by rewrite list_lookup_insert_ne.
  - by rewrite pages_with_fork, length_insert.
  - unfold known_nblocks. by rewrite pages_with_fork, length_insert.
Qed.

(** The record of a change, when this backend writes one. *)
Definition set_record (x recptr cutoff_xid flags : Z) : list VmRecord :=
  if RelationNeedsWAL && (recptr =? InvalidXLogRecPtr) then
    [Visible cutoff_xid
       (if RelationIsAccessibleInLogicalDecoding
        then Z.lor flags VISIBILITYMAP_XLOG_CATALOG_REL else flags)
       (HEAPBLK_TO_MAPBLOCK x) x XLogHintBitIsNeeded]
  else [].

Lemma log_set_spec x heapBuf recptr cutoff_xid flags s :
  vm_ok s -> HEAPBLK_TO_MAPBLOCK x ∈ pinned s ->
  (heapBuf = Some x \/ recptr <> InvalidXLogRecPtr) ->
  exists s',
    log_set heapBuf recptr (HEAPBLK_TO_MAPBLOCK x) cutoff_xid flags s = (Ret tt, s')
    /\ vm_ok s' /\ pinned s' = pinned s /\ (forall y, vm_status s' y = vm_status s y)
    /\ wal s' = wal s ++ set_record x recptr cutoff_xid flags.
Proof.
  intros Hok Hpin Hbuf. unfold log_set, set_record.
  destruct RelationNeedsWAL; cbn [andb]; [|by exists s; rewrite app_nil_r].
  destruct (Z.eqb_spec recptr InvalidXLogRecPtr) as [Er|Er].
  - destruct Hbuf as [->|?]; [|done]. unfold log_pg_tde_visible.
    set (r := Visible _ _ _ _ _).
    set (s1 := {| vm_fork := vm_fork s; smgr_cached_nblocks := smgr_cached_nblocks s;
                  pinned := pinned s; heap_lsn := heap_lsn s; wal := wal s ++ [r] |}).
    set (lsn := lsn_of (length (wal s))).
    assert (Hins : XLogInsert r s = (Ret lsn, s1)) by done.
    rewrite bind_assoc. mstep Hins.
    set (s2 := if XLogHintBitIsNeeded then
      {| vm_fork := vm_fork s; smgr_cached_nblocks := smgr_cached_nblocks s;
         pinned := pinned s; heap_lsn := lsn; wal := wal s ++ [r] |} else s1).
    assert (H2 : (if XLogHintBitIsNeeded then set_heap_lsn lsn else ret tt) s1 = (Ret tt, s2))
      by (unfold s2; by destruct XLogHintBitIsNeeded).
    rewrite bind_assoc. mstep H2. rewrite bind_ret_l.
    assert (E2 : pages s2 = pages s /\ smgr_cached_nblocks s2 = smgr_cached_nblocks s
                 /\ pinned s2 = pinned s /\ wal s2 = wal s ++ [r])
      by (unfold s2; by destruct XLogHintBitIsNeeded).
    destruct E2 as (Ep & Ec & En & Ew).
    assert (Hok2 : vm_ok s2) by (unfold vm_ok; rewrite En; by apply (vm_ok_for_state _ s)).
    destruct (PageSetLSN_spec (HEAPBLK_TO_MAPBLOCK x) lsn s2 Hok2)
      as (s3 & H3 & Hok3 & Hp3 & (Hst3 & Hw3 & _) & _); [by rewrite En|].
    exists s3. split; [done|]. split; [done|]. split; [congruence|]. split; [|congruence].
    intros y. rewrite Hst3. unfold vm_status. by rewrite Ep.
  - rewrite bind_ret_l.
    destruct (PageSetLSN_spec (HEAPBLK_TO_MAPBLOCK x) recptr s Hok Hpin)
      as (s3 & H3 & Hok3 & Hp3 & (Hst3 & Hw3 & _) & _).
    exists s3. rewrite app_nil_r. by split_and!.
Qed.

Lemma set_spec x heapBuf recptr cutoff_xid flags s :
  vm_ok s -> HEAPBLK_TO_MAPBLOCK x ∈ pinned s -> 0 <= flags < 4 ->
  (heapBuf = Some x \/ (heapBuf = None /\ recptr <> InvalidXLogRecPtr)) ->
  exists s',
    pg_tde_visibilitymap_set x heapBuf recptr (Some (HEAPBLK_TO_MAPBLOCK x)) cutoff_xid flags s =
      (Ret tt, s')
    /\ vm_ok s' /\ pinned s' = pinned s
    /\ (forall y, 0 <= y ->
          vm_status s' y = if y =? x then Z.lor (vm_status s x) flags else vm_status s y)
    /\ wal s' = wal s ++ (if flags =? vm_status s x then []
                          else set_record x recptr cutoff_xid flags).
Proof.
  intros Hok Hpin Hf Hbuf.
  destruct (BufferGetPage_pinned _ _ Hok Hpin) as (p & Hget & Hm & Hp & Hn & Hpok).
  destruct (page_byte p x Hpok) as (b0 & Hb0 & Hbok & Hrd).
  unfold pg_tde_visibilitymap_set.
  replace (match heapBuf with Some hb => negb (hb =? x) | None => false end) with false
    by (destruct Hbuf as [->|[-> _]]; [by rewrite Z.eqb_refl|done]).
  rewrite Z.eqb_refl. cbn [negb]. mstep Hget. rewrite Hrd. cbn [defined]. rewrite bind_ret_l.
  pose proof (status_byte x p b0 s Hp Hb0) as Hst. rewrite valid_bits_value.
  change (Z.land (Z.shiftr b0 (HEAPBLK_TO_OFFSET x)) 3) with (pair_at b0 (HEAPBLK_TO_OFFSET x)).
  rewrite Hst. destruct (Z.eqb_spec flags (pair_at b0 (HEAPBLK_TO_OFFSET x))) as [E|E]; cbn [negb].
  - exists s. rewrite app_nil_r. split_and!; try done. intros y Hy.
    destruct (Z.eqb_spec y x) as [->|]; [|done]. by rewrite Hst, E, Z.lor_diag.
  - rewrite page_wr by done. cbn [defined]. rewrite bind_ret_l.
    destruct (put_byte x p b0 (set_byte b0 flags (HEAPBLK_TO_OFFSET x))
                (Z.lor (pair_at b0 (HEAPBLK_TO_OFFSET x)) flags) s)
      as (s1 & Hs1 & Hok1 & Hp1 & Hw1 & Hh1 & Hst1); try done.
    { apply (set_pair b0 flags _ _ Hbok Hf (offset_is_ok x) (offset_is_ok x)). }
    { intros o' Ho'. apply (set_pair b0 flags _ _ Hbok Hf (offset_is_ok x) Ho'). }
    mstep Hs1.
    destruct (log_set_spec x heapBuf recptr cutoff_xid flags s1 Hok1)
      as (s2 & Hs2 & Hok2 & Hp2 & Hst2 & Hw2); [by rewrite Hp1|naive_solver|].
    exists s2. split; [done|]. split; [done|]. split; [congruence|].
    split; [|by rewrite Hw2, Hw1]. intros y Hy. by rewrite Hst2, Hst1.
Qed.

(** ** Reading *)

Lemma read_status_spec x s :
  vm_ok s -> HEAPBLK_TO_MAPBLOCK x ∈ pinned s ->
  read_status x (HEAPBLK_TO_MAPBLOCK x) s
  = (Ret (vm_status s x, Some (HEAPBLK_TO_MAPBLOCK x)), s).
Proof.
  intros Hok Hpin.
  destruct (BufferGetPage_pinned _ _ Hok Hpin) as (p & Hget & Hm & Hp & Hn & Hpok).
  destruct (page_byte p x Hpok) as (b0 & Hb0 & Hbok & Hrd).
  unfold read_status. mstep Hget. rewrite Hrd. cbn [defined]. rewrite bind_ret_l.
  rewrite valid_bits_value, read_pair by (done || apply offset_is_ok).
  by rewrite (status_byte x p b0 s Hp Hb0).
Qed.

Lemma get_status_spec x b s :
  vm_ok s -> 0 <= x < 2 ^ 32 -> holds b s ->
  exists r b' s', pg_tde_visibilitymap_get_status x b s = (Ret (r, b'), s')
    /\ vm_ok s' /\ same_map s s' /\ trades b b' s s'
    /\ match b' with
       | Some m => m = HEAPBLK_TO_MAPBLOCK x /\ r = vm_status s x
       | None => r = 0 /\ known_nblocks s <= HEAPBLK_TO_MAPBLOCK x
       end.
Proof.
  intros Hok Hx Hb. pose proof (mapblock_range x Hx) as Hm.
  assert (Hread : forall s1, vm_ok s1 -> exists r b' s2,
    (let* vmbuf := vm_readbuf (HEAPBLK_TO_MAPBLOCK x) false in
     match vmbuf with None => ret (0, None) | Some m => read_status x m end) s1
      = (Ret (r, b'), s2)
    /\ vm_ok s2 /\ same_map s1 s2 /\ pinned s2 = buffer_pins b' ++ pinned s1
    /\ match b' with
       | Some m => m = HEAPBLK_TO_MAPBLOCK x /\ r = vm_status s1 x
       | None => r = 0 /\ known_nblocks s1 <= HEAPBLK_TO_MAPBLOCK x
       end).
  { intros s1 Hok1. destruct (vm_readbuf_spec (pinned s1) (HEAPBLK_TO_MAPBLOCK x) false s1 Hok1)
      as (r & s2 & H2 & Hs2 & Hr & _); [lia|done|].
    destruct (readbuf_holds _ _ _ _ _ Hr) as [Hok2 Hp2]. mstep H2.
    destruct r as [m|].
    - destruct Hr as (-> & _). rewrite read_status_spec; [|done|rewrite Hp2; by left].
      eexists _, _, s2. split; [done|]. split; [done|]. split; [done|]. split; [done|].
      split; [done|]. destruct Hs2 as (Hst & _). apply Hst.
    - destruct Hr as (_ & _ & _ & Hk). by eexists _, _, s2. }
  unfold pg_tde_visibilitymap_get_status. destruct b as [b|].
  - destruct (Z.eqb_spec b (HEAPBLK_TO_MAPBLOCK x)) as [->|Hne]; cbn [negb].
    + rewrite !bind_ret_l. rewrite read_status_spec by done.
      eexists _, _, s. split; [done|]. split; [done|]. split; [done|]. split; [|done].
      destruct (remove_pin_spec _ _ Hb) as (l & _ & Hp). by exists l.
    + destruct (ReleaseBuffer_spec b s Hok Hb) as (s1 & H1 & Hok1 & Hs1 & Hp1 & _ & Hk1).
      rewrite bind_assoc. mstep H1. rewrite bind_ret_l.
      destruct (Hread s1 Hok1) as (r & b' & s2 & H2 & Hok2 & Hs2 & Hp2 & Hr).
      exists r, b', s2. split; [done|]. split; [done|].
      split; [by eapply same_map_trans|]. split; [exists (pinned s1); by rewrite Hp2|].
      destruct b' as [m|]; [|by rewrite Hk1 in Hr].
      destruct Hr as [-> ->]. split; [done|]. apply Hs1.
  - rewrite bind_ret_l. destruct (Hread s Hok) as (r & b' & s2 & H2 & Hok2 & Hs2 & Hp2 & Hr).
    exists r, b', s2. split; [done|]. split; [done|]. split; [done|]. split; [|done].
    exists (pinned s). by rewrite Hp2.
Qed.
End ops.

Section trunc.
Context `{HB : PgBlockSize} `{HBL : !PgBlockSizeLaws} `{HV : VmEnv} `{HVL : !VmLaws}.

(** Heap blocks are ordered as the places of their bits. *)
Definition bit_before (T o y : Z) : bool :=
  (HEAPBLK_TO_MAPBYTE y <? T) || ((HEAPBLK_TO_MAPBYTE y =? T) && (HEAPBLK_TO_OFFSET y <? o)).

Lemma offset_half x : exists k, 0 <= k < 4 /\ HEAPBLK_TO_OFFSET x = k * 2.
Proof.
  exists (x mod 4). unfold HEAPBLK_TO_OFFSET. rewrite blocks_per_byte, bits_per_heapblock.
  split; [apply Z.mod_pos_bound; lia|done].
Qed.

Lemma same_block_order y n :
  HEAPBLK_TO_MAPBLOCK y = HEAPBLK_TO_MAPBLOCK n ->
  bit_before (HEAPBLK_TO_MAPBYTE n) (HEAPBLK_TO_OFFSET n) y = (y <? n).
Proof.
  intros Hb. pose proof (heap_address y) as Hy. pose proof (heap_address n) as Hn.
  rewrite Hb in Hy. unfold bit_before.
  destruct (offset_half y) as (k & Hk & Ek), (offset_half n) as (j & Hj & Ej).
  rewrite Ek in *. rewrite Ej in *. rewrite Z.div_mul in Hy, Hn by lia.
  generalize dependent (HEAPBLOCKS_PER_PAGE * HEAPBLK_TO_MAPBLOCK n). intros base Hy Hn.
  apply eq_true_iff_eq.
  rewrite orb_true_iff, andb_true_iff, !Z.ltb_lt, Z.eqb_eq. lia.
Qed.

Lemma block_order y n : 0 <= y -> 0 <= n ->
  HEAPBLK_TO_MAPBLOCK y <> HEAPBLK_TO_MAPBLOCK n ->
  (HEAPBLK_TO_MAPBLOCK y <? HEAPBLK_TO_MAPBLOCK n) = (y <? n).
Proof.
  intros Hy Hn Hne. destruct page_blocks as [_ Hpos]. unfold HEAPBLK_TO_MAPBLOCK in *.
  destruct (Z.ltb_spec y n) as [H|H].
  - pose proof (Z.div_le_mono y n _ Hpos ltac:(lia)). lia.
  - pose proof (Z.div_le_mono n y _ Hpos H). lia.
Qed.

Lemma truncate_map_spec p T o :
  page_ok p -> 0 <= T < MAPSIZE -> offset_ok o ->
  exists m, truncate_map (contents p) T o = Some m
    /\ Z.of_nat (length m) = MAPSIZE /\ bytes_ok m
    /\ forall y l, let p' := {| contents := m; is_new := false; page_lsn := l |} in
         page_bits p' y = if bit_before T o y then page_bits p y else 0.
Proof.
  intros (Hl & Hb & _) HT Ho. unfold truncate_map.
  set (z := replicate (Z.to_nat (MAPSIZE - (T + 1))) 0).
  assert (Hz : Z.of_nat (length z) = MAPSIZE - (T + 1)) by (unfold z; rewrite length_replicate; lia).
  rewrite wr_bytes_Some by lia.
  set (m1 := splice (contents p) (Z.to_nat (T + 1)) z).
  assert (Hl1 : length m1 = length (contents p)) by (apply length_splice; lia).
  assert (Hb1 : bytes_ok m1).
  { unfold m1, splice. apply Forall_app; split; [by apply Forall_take|].
    apply Forall_app; split; [|by apply Forall_drop]. apply Forall_replicate. unfold byte_ok. lia. }
  destruct (lookup_lt_is_Some_2 (contents p) (Z.to_nat T)) as [b Eb]; [lia|].
  assert (Eb1 : m1 !! Z.to_nat T = Some b) by (unfold m1; rewrite lookup_splice_out by lia; done).
  pose proof (Forall_lookup_1 _ _ _ _ Hb Eb) as Hbyte.
  rewrite (proj2 (rd_Some m1 T b)) by (split; [lia|done]). unfold wr.
  replace (0 <=? T) with true by lia. replace (T <? Z.of_nat (length m1)) with true by lia.
  cbn [andb]. eexists. split; [reflexivity|].
  split; [rewrite length_insert; lia|]. split; [apply Forall_insert; [done|]|].
  { by apply (cut_pair b o o). }
  intros y l. unfold page_bits. cbn [contents]. pose proof (mapbyte_range y) as Hy. unfold bit_before.
  destruct (Z.eqb_spec (HEAPBLK_TO_MAPBYTE y) T) as [E|E].
  - rewrite E, Z.ltb_irrefl, list_lookup_insert_eq, Eb by lia. cbn [orb andb].
    by apply cut_pair; [|done|apply offset_is_ok].
  - cbn [andb]. rewrite orb_false_r, list_lookup_insert_ne by lia.
    destruct (Z.ltb_spec (HEAPBLK_TO_MAPBYTE y) T).
    + unfold m1. by rewrite lookup_splice_out by lia.
    + unfold m1. rewrite lookup_splice_in by lia. unfold z.
      destruct (replicate _ _ !! _) eqn:F; [|done].
      apply lookup_replicate in F as [-> _]. apply pair_at_0.
Qed.

Lemma truncate_result_spec n s :
  vm_ok s -> truncate_result n s =
    (Ret (if Z.of_nat (length (pages s)) <=? n then InvalidBlockNumber else n),
     with_cached (Z.of_nat (length (pages s))) s)
  /\ vm_ok (with_cached (Z.of_nat (length (pages s))) s).
Proof.
  intros (H1 & H2 & H3 & H4). split; [done|]. split; [done|]. split; [|done].
  right. cbn. fold (pages s). lia.
Qed.

(** The tail of one page. *)
Lemma clear_tail_spec n s :
  vm_ok s -> HEAPBLK_TO_MAPBLOCK n ∈ pinned s -> 0 <= n ->
  exists s',
    clear_tail (HEAPBLK_TO_MAPBLOCK n) (HEAPBLK_TO_MAPBYTE n) (HEAPBLK_TO_OFFSET n) s
      = (Ret tt, s')
    /\ vm_ok s' /\ pinned s ≡ₚ HEAPBLK_TO_MAPBLOCK n :: pinned s'
    /\ length (pages s') = length (pages s)
    /\ forall y, 0 <= y ->
         vm_status s' y =
         if (HEAPBLK_TO_MAPBLOCK y =? HEAPBLK_TO_MAPBLOCK n) && (n <=? y) then 0
         else vm_status s y.
Proof.
  intros Hok Hpin Hn0.
  destruct (BufferGetPage_pinned _ _ Hok Hpin) as (p & Hget & Hm & Hp & Hn & Hpok).
  destruct (truncate_map_spec p _ _ Hpok (mapbyte_range n) (offset_is_ok n))
    as (m & Em & Hl & Hb & Hbits).
  unfold clear_tail. mstep Hget. rewrite Em. cbn [defined]. rewrite bind_ret_l.
  set (p' := {| contents := m; is_new := is_new p; page_lsn := page_lsn p |}).
  assert (Hp' : page_ok p') by (split; [done|split; [done|cbn; congruence]]).
  destruct (vm_ok_set_page (pinned s) _ p p' s Hok Hm Hp Hp' Hn) as [Hok1 Hst1].
  set (s1 := with_fork (<[Z.to_nat (HEAPBLK_TO_MAPBLOCK n) := p']> (pages s)) s) in *.
  assert (H1 : set_contents (HEAPBLK_TO_MAPBLOCK n) m s = (Ret tt, s1))
    by (unfold set_contents; by mstep Hget).
  mstep H1.
  assert (Hok1' : vm_ok s1).
  { destruct Hok1 as (A1 & A2 & A3 & A4). split; [done|]. split; [done|]. split; [done|].
    by inversion A4. }
  assert (Hlog : exists s2,
    (if negb InRecovery && RelationNeedsWAL && XLogHintBitIsNeeded then
       let* q := BufferGetPage (HEAPBLK_TO_MAPBLOCK n) in
       let* lsn := XLogInsert (NewPage (HEAPBLK_TO_MAPBLOCK n) q) in
       PageSetLSN (HEAPBLK_TO_MAPBLOCK n) lsn
     else ret tt) s1 = (Ret tt, s2) /\ vm_ok s2 /\ pinned s2 = pinned s
    /\ (forall y, vm_status s2 y = vm_status s1 y) /\ length (pages s2) = length (pages s1)).
  { destruct (_ && XLogHintBitIsNeeded); [|by exists s1].
    destruct (BufferGetPage_pinned _ _ Hok1' Hpin) as (q & Hgetq & _). mstep Hgetq.
    set (s2 := {| vm_fork := vm_fork s1; smgr_cached_nblocks := smgr_cached_nblocks s1;
                  pinned := pinned s1; heap_lsn := heap_lsn s1;
                  wal := wal s1 ++ [NewPage (HEAPBLK_TO_MAPBLOCK n) q] |}).
    assert (H2 : XLogInsert (NewPage (HEAPBLK_TO_MAPBLOCK n) q) s1
                 = (Ret (lsn_of (length (wal s1))), s2)) by done.
    mstep H2.
    destruct (PageSetLSN_spec (HEAPBLK_TO_MAPBLOCK n) (lsn_of (length (wal s1))) s2)
      as (s3 & H3 & Hok3 & Hp3 & (Hst3 & _) & Hl3 & _); [done|done|].
    exists s3. split; [done|]. split; [done|]. split; [done|]. split; [|done].
    intros y. by rewrite Hst3. }
  destruct Hlog as (s2 & H2 & Hok2 & Hp2 & Hst2 & Hl2). mstep H2.
  destruct (ReleaseBuffer_spec (HEAPBLK_TO_MAPBLOCK n) s2 Hok2)
    as (s3 & H3 & Hok3 & (Hst3 & _) & Hp3 & Hps3 & _); [by rewrite Hp2|].
  exists s3. split; [done|]. split; [done|]. split; [by rewrite <- Hp3, Hp2|].
  split; [rewrite Hps3, Hl2; unfold s1; by rewrite pages_with_fork, length_insert|].
  intros y Hy. destruct page_blocks as [_ Hpos].
  rewrite Hst3, Hst2, Hst1 by (by apply Z.div_pos).
  destruct (Z.eqb_spec (HEAPBLK_TO_MAPBLOCK y) (HEAPBLK_TO_MAPBLOCK n)) as [E|E]; [|done].
  cbn [andb].
  unfold p' in *. rewrite Hn. rewrite (Hbits y (page_lsn p)), (same_block_order y n E).
  rewrite Z.leb_antisym. destruct (y <? n); cbn [negb]; [|done].
  unfold vm_status. by rewrite E, Hp.
Qed.

(** What the caller does with the result: smgrtruncate of the fork. *)
Definition cut_fork (r : Z) (s : VmState) : VmState :=
  if r =? InvalidBlockNumber then s
  else with_cached r (with_fork (take (Z.to_nat r) (pages s)) s).

Lemma vm_status_cut r s y :
  0 <= HEAPBLK_TO_MAPBLOCK y ->
  vm_status (cut_fork r s) y =
  if (r =? InvalidBlockNumber) || (HEAPBLK_TO_MAPBLOCK y <? r) then vm_status s y else 0.
Proof.
  intros Hy. unfold cut_fork. destruct (r =? InvalidBlockNumber); [done|]. cbn [orb].
  unfold vm_status. change (pages (with_cached _ _)) with (take (Z.to_nat r) (pages s)).
  destruct (Z.ltb_spec (HEAPBLK_TO_MAPBLOCK y) r).
  - by rewrite lookup_take_lt by lia.
  - by rewrite lookup_take_ge by lia.
Qed.

Lemma vm_ok_cut r s :
  vm_ok s -> pinned s = [] -> r = InvalidBlockNumber \/ 0 <= r <= Z.of_nat (length (pages s)) ->
  vm_ok (cut_fork r s).
Proof.
  intros Hok Hp Hr. unfold cut_fork. destruct (Z.eqb_spec r InvalidBlockNumber); [done|].
  destruct Hr as [|Hr]; [done|]. destruct Hok as (H1 & H2 & H3 & H4).
  unfold vm_ok, vm_ok_for. change (pages (with_cached _ _)) with (take (Z.to_nat r) (pages s)).
  rewrite length_take. split; [by apply Forall_take|]. split; [right; cbn; lia|].
  split; [lia|]. cbn. rewrite Hp. constructor.
Qed.

(** A map page the fork does not have. *)
Lemma vm_status_beyond s y :
  Z.of_nat (length (pages s)) <= HEAPBLK_TO_MAPBLOCK y -> vm_status s y = 0.
Proof.
  intros H. unfold vm_status. by rewrite lookup_ge_None_2 by lia.
Qed.

(** The last step, once the tail of the last page is clear. *)
Lemma truncate_finish m s s0 n :
  vm_ok s -> 0 <= m <= 2 ^ 30 -> pinned s0 ≡ₚ pinned s ->
  (forall y, 0 <= y -> HEAPBLK_TO_MAPBLOCK y < m ->
     vm_status s y = if y <? n then vm_status s0 y else 0) ->
  (forall y, 0 <= y -> m <= HEAPBLK_TO_MAPBLOCK y -> n <= y) ->
  exists r s', truncate_result m s = (Ret r, s')
    /\ vm_ok s' /\ pinned s0 ≡ₚ pinned s'
    /\ (r = InvalidBlockNumber \/ 0 <= r <= Z.of_nat (length (pages s')))
    /\ forall y, 0 <= y -> vm_status (cut_fork r s') y = if y <? n then vm_status s0 y else 0.
Proof.
  intros Hok Hm Hp Hst Hn. destruct (truncate_result_spec m s Hok) as [E Hok'].
  do 2 eexists. split; [exact E|]. split; [done|]. split; [done|].
  split; [change (pages (with_cached _ _)) with (pages s); case_match; [by left|right; lia]|].
  intros y Hy. destruct page_blocks as [_ Hpos].
  assert (H0 : 0 <= HEAPBLK_TO_MAPBLOCK y) by (by apply Z.div_pos).
  rewrite vm_status_cut by done. change (vm_status (with_cached _ s) y) with (vm_status s y).
  rewrite invalid_block.
  destruct (Z.ltb_spec (HEAPBLK_TO_MAPBLOCK y) m) as [Hlt|Hge].
  - rewrite <- Hst by done. destruct (Z.leb_spec (Z.of_nat (length (pages s))) m); [done|].
    by rewrite (proj2 (Z.ltb_lt _ _) Hlt), orb_true_r.
  - specialize (Hn y Hy Hge). replace (y <? n) with false by lia.
    destruct (Z.leb_spec (Z.of_nat (length (pages s))) m).
    + cbn [orb]. apply vm_status_beyond. lia.
    + replace (m =? 2 ^ 32 - 1) with false by lia.
      by replace (HEAPBLK_TO_MAPBLOCK y <? m) with false by lia.
Qed.

Lemma block_mono y n : y <= n -> HEAPBLK_TO_MAPBLOCK y <= HEAPBLK_TO_MAPBLOCK n.
Proof.
  intros H. destruct page_blocks as [_ Hpos]. by apply Z.div_le_mono.
Qed.

(** On a boundary every earlier block is on an earlier page. *)
Lemma boundary y n :
  HEAPBLK_TO_MAPBYTE n = 0 -> HEAPBLK_TO_OFFSET n = 0 -> 0 <= y -> 0 <= n ->
  (y <? n) = (HEAPBLK_TO_MAPBLOCK y <? HEAPBLK_TO_MAPBLOCK n).
Proof.
  intros HT Ho Hy Hn.
  destruct (Z.eq_dec (HEAPBLK_TO_MAPBLOCK y) (HEAPBLK_TO_MAPBLOCK n)) as [E|E];
    [|by rewrite block_order].
  rewrite <- (same_block_order y n E), HT, Ho, E, Z.ltb_irrefl. unfold bit_before.
  pose proof (mapbyte_range y). destruct (offset_half y) as (k & Hk & ->).
  replace (HEAPBLK_TO_MAPBYTE y <? 0) with false by lia.
  replace (k * 2 <? 0) with false by lia. by rewrite andb_false_r.
Qed.

Lemma prepare_truncate_spec n s :
  vm_ok s -> 0 <= n < 2 ^ 32 -> known_nblocks s = Z.of_nat (length (pages s)) ->
  exists r s', pg_tde_visibilitymap_prepare_truncate n s = (Ret r, s')
    /\ vm_ok s' /\ pinned s ≡ₚ pinned s'
    /\ (r = InvalidBlockNumber \/ 0 <= r <= Z.of_nat (length (pages s')))
    /\ forall y, 0 <= y -> vm_status (cut_fork r s') y = if y <? n then vm_status s y else 0.
Proof.
  intros Hok Hn Hk. pose proof (mapblock_range n Hn) as Hm. destruct page_blocks as [_ Hpos].
  assert (Hpy : forall y, 0 <= y -> 0 <= HEAPBLK_TO_MAPBLOCK y) by (intros; by apply Z.div_pos).
  assert (Hcut : forall s1, cut_fork InvalidBlockNumber s1 = s1)
    by (intros; unfold cut_fork; by rewrite Z.eqb_refl).
  unfold pg_tde_visibilitymap_prepare_truncate.
  match goal with |- context [bind (gets ?f) ?k s] =>
    rewrite (bind_Ret (gets f) k s (f s) s eq_refl) end.
  cbv beta. destruct (vm_fork s) as [ps|] eqn:Ef.
  2: { rewrite bool_decide_false by (intros Hnn; by apply Hnn). cbn [negb].
       exists InvalidBlockNumber, s. split; [done|]. split; [done|]. split; [done|].
       split; [by left|].
       intros y Hy. rewrite Hcut. rewrite (vm_status_beyond s y); [by case_match|].
       unfold pages. rewrite Ef. by apply Hpy. }
  rewrite bool_decide_true by done. cbn [negb].
  destruct (negb _ || negb _) eqn:Eb.
  - destruct (vm_readbuf_spec (pinned s) (HEAPBLK_TO_MAPBLOCK n) false s Hok)
      as (r & s1 & H1 & (Hst1 & _) & Hr & Hlen); [lia|done|]. mstep H1.
    destruct (readbuf_holds _ _ _ _ _ Hr) as [Hok1 Hp1]. destruct r as [b|].
    + destruct Hr as (-> & _).
      destruct (clear_tail_spec n s1 Hok1) as (s2 & H2 & Hok2 & Hp2 & Hl2 & Hst2);
        [rewrite Hp1; by left|lia|]. mstep H2.
      rewrite uwrap_small by lia. apply truncate_finish; [done|lia| | |].
      * rewrite Hp1 in Hp2. cbn in Hp2. by apply (Permutation.Permutation_cons_inv) in Hp2.
      * intros y Hy Hlt. rewrite Hst2 by done.
        destruct (Z.eqb_spec (HEAPBLK_TO_MAPBLOCK y) (HEAPBLK_TO_MAPBLOCK n)) as [E|E]; cbn [andb].
        -- rewrite Z.leb_antisym. destruct (y <? n); cbn [negb]; [apply Hst1|done].
        -- rewrite <- (block_order y n) by (done || lia).
           replace (_ <? _) with true by lia. apply Hst1.
      * intros y Hy Hge. destruct (Z.le_gt_cases n y); [done|].
        pose proof (block_mono y n). lia.
    + destruct Hr as (_ & _ & _ & Hshort). exists InvalidBlockNumber, s1.
      split; [done|]. split; [done|]. split; [by rewrite Hp1|]. split; [by left|]. intros y Hy. rewrite Hcut, Hst1.
      destruct (Z.ltb_spec y n); [done|]. apply vm_status_beyond.
      pose proof (block_mono n y). lia.
  - apply orb_false_iff in Eb as [HT Ho]. apply negb_false_iff, Z.eqb_eq in HT, Ho.
    apply truncate_finish; [done|lia|done| |].
    + intros y Hy Hlt. rewrite (boundary y n) by (done || lia). by replace (_ <? _) with true by lia.
    + intros y Hy Hge. pose proof (boundary y n HT Ho Hy ltac:(lia)). lia.
Qed.
End trunc.
