(* ===== verification/VisibilityMapClaims.v ===== *)
(** What the visibility map promises: each heap block has its own two bits,
    truncation leaves none behind, and a block is never marked all-frozen
    without being all-visible.  [ToyMap] instantiates it with small pages. *)
From stdpp Require Import relations.
From S2P Require Import Prelude EncTuple RelKeys VisibilityMap VisibilityMapProps VisibilityMapOps.

Module ToyMap.
#[export] Instance page1k : PgBlockSize := {| BLCKSZ := 1024 |}.
#[export] Instance page1k_laws : PgBlockSizeLaws.
Proof. split. exists 10. split; [lia|done]. Qed.

Fixpoint popcount (n : nat) (w : Z) : Z :=
  match n with O => 0 | S n => Z.b2z (Z.odd w) + popcount n (Z.div2 w) end.

#[export] Instance toy_vm : VmEnv := {|
  MAXALIGN_SizeOfPageHeaderData := 24;
  BITS_PER_HEAPBLOCK := 2;
  VISIBILITYMAP_ALL_VISIBLE := 1;
  VISIBILITYMAP_ALL_FROZEN := 2;
  VISIBILITYMAP_VALID_BITS := 3;
  VISIBILITYMAP_XLOG_CATALOG_REL := 4;
  InvalidBlockNumber := 2 ^ 32 - 1;
  InvalidXLogRecPtr := 0;
  RelationNeedsWAL := true;
  RelationIsAccessibleInLogicalDecoding := false;
  XLogHintBitIsNeeded := true;
  InRecovery := false;
  lsn_of n := 100 + Z.of_nat n;
  cache_after_extend n := n;
  pg_popcount64 := popcount 64;
|}.

#[export] Instance toy_vm_laws : VmLaws.
Proof. split; cbn; try done. by intros n; right. Qed.

(** A relation without a map. *)
Definition empty : VmState :=
  {| vm_fork := None; smgr_cached_nblocks := 2 ^ 32 - 1; pinned := []; heap_lsn := 7; wal := [] |}.

Lemma empty_ok : vm_ok empty.
Proof. split; [constructor|]. split; [by left|]. split; [done|constructor]. Qed.

(** One with a page where heap block 5 is frozen and 6 is visible. *)
Definition marked : VmState :=
  {| vm_fork := Some [{| contents := [0; 0x1c] ++ replicate 998 0; is_new := false; page_lsn := 3 |}];
     smgr_cached_nblocks := 1; pinned := [0]; heap_lsn := 7; wal := [] |}.

Lemma marked_ok : vm_ok marked.
Proof.
  split.
  { constructor; [|constructor]. split; [by vm_compute|]. split; [|done].
    cbn [contents]. apply Forall_app. split; [repeat constructor; unfold byte_ok; lia|].
    apply Forall_replicate. unfold byte_ok. lia. }
  split; [by right|]. split; [done|]. constructor; [|constructor].
  split; [done|]. by eexists.
Qed.
End ToyMap.
Import ToyMap.

(** ** Any sequence of operations *)

Section steps.
Context `{HB : PgBlockSize} `{HBL : !PgBlockSizeLaws} `{HV : VmEnv} `{HVL : !VmLaws}.

(** A call of one of the operations as its callers make it: with buffers
    they hold, never setting all-frozen alone nor clearing all-visible
    alone (the assertions of the code), and truncating when no map page
    is pinned and the cached size is current.  The call may fail. *)
Inductive vm_step (s s' : VmState) : Prop :=
| step_pin x b o (Hx : 0 <= x < 2 ^ 32) (Hb : holds b s)
    (Hrun : pg_tde_visibilitymap_pin x b s = (o, s'))
| step_set x hb recptr b cutoff flags o (Hx : 0 <= x < 2 ^ 32) (Hb : holds b s)
    (Hflags : flags = VISIBILITYMAP_ALL_VISIBLE \/ flags = VISIBILITYMAP_VALID_BITS)
    (Hheap : hb <> None \/ recptr <> InvalidXLogRecPtr)
    (Hrun : pg_tde_visibilitymap_set x hb recptr b cutoff flags s = (o, s'))
| step_clear x b flags o (Hx : 0 <= x < 2 ^ 32) (Hb : holds b s)
    (Hflags : flags = VISIBILITYMAP_ALL_FROZEN \/ flags = VISIBILITYMAP_VALID_BITS)
    (Hrun : pg_tde_visibilitymap_clear x b flags s = (o, s'))
| step_get x b o (Hx : 0 <= x < 2 ^ 32) (Hb : holds b s)
    (Hrun : pg_tde_visibilitymap_get_status x b s = (o, s'))
| step_truncate n r s1 (Hn : 0 <= n < 2 ^ 32) (Hp : pinned s = [])
    (Hk : known_nblocks s = Z.of_nat (length (pages s)))
    (Hrun : pg_tde_visibilitymap_prepare_truncate n s = (Ret r, s1))
    (Hcut : s' = cut_fork r s1).

(** All-frozen implies all-visible. *)
Definition frozen_visible (s : VmState) : Prop :=
  forall x, 0 <= x ->
    Z.land (vm_status s x) VISIBILITYMAP_ALL_FROZEN <> 0 ->
    Z.land (vm_status s x) VISIBILITYMAP_ALL_VISIBLE <> 0.

Lemma frozen_visible_ne s : frozen_visible s <-> forall x, 0 <= x -> vm_status s x <> 2.
Proof.
  unfold frozen_visible. rewrite all_frozen_value, all_visible_value.
  split; intros H x Hx; specialize (H x Hx); pose proof (status_range s x) as Hr.
  - intros E. rewrite E in H. by apply H.
  - intros Hf. assert (vm_status s x = 0 \/ vm_status s x = 1 \/ vm_status s x = 3) as Hc by lia.
    destruct Hc as [E|[E|E]]; rewrite E in *; done.
Qed.

(** The flags callers use keep the pair in shape. *)
Lemma set_shape v f : 0 <= v < 4 -> v <> 2 -> f = 1 \/ f = 3 -> Z.lor v f <> 2.
Proof.
  intros Hv Hn Hf. assert (v = 0 \/ v = 1 \/ v = 3) as Hc by lia.
  destruct Hc as [->|[->| ->]], Hf as [->| ->]; done.
Qed.

Lemma clear_shape v f : 0 <= v < 4 -> v <> 2 -> f = 2 \/ f = 3 -> Z.ldiff v f <> 2.
Proof.
  intros Hv Hn Hf. assert (v = 0 \/ v = 1 \/ v = 3) as Hc by lia.
  destruct Hc as [->|[->| ->]], Hf as [->| ->]; done.
Qed.

(** Wrong buffers are refused and nothing is touched. *)
Lemma clear_refused x b flags s :
  b <> Some (HEAPBLK_TO_MAPBLOCK x) ->
  pg_tde_visibilitymap_clear x b flags s = (Raise ERROR, s).
Proof.
  intros Hb. unfold pg_tde_visibilitymap_clear. destruct b as [b|]; [|done].
  destruct (Z.eqb_spec b (HEAPBLK_TO_MAPBLOCK x)); [congruence|done].
Qed.

Lemma set_refused x hb recptr b cutoff flags s :
  b <> Some (HEAPBLK_TO_MAPBLOCK x) \/ (hb <> None /\ hb <> Some x) ->
  pg_tde_visibilitymap_set x hb recptr b cutoff flags s = (Raise ERROR, s).
Proof.
  intros Hb. unfold pg_tde_visibilitymap_set.
  destruct hb as [hb|].
  - destruct (Z.eqb_spec hb x) as [->|]; cbn [negb]; [|done].
    destruct Hb as [Hb|[_ Hb]]; [|done]. destruct b as [b|]; [|done].
    destruct (Z.eqb_spec b (HEAPBLK_TO_MAPBLOCK x)); [congruence|done].
  - destruct Hb as [Hb|[Hb _]]; [|done]. destruct b as [b|]; [|done].
    destruct (Z.eqb_spec b (HEAPBLK_TO_MAPBLOCK x)); [congruence|done].
Qed.

#[local] Instance buffer_dec : EqDecision Buffer.
Proof. unfold Buffer. apply _. Defined.

Lemma vm_step_inv s s' :
  vm_ok s -> frozen_visible s -> vm_step s s' -> vm_ok s' /\ frozen_visible s'.
Proof.
  rewrite !frozen_visible_ne. intros Hok Hfv Hstep. destruct Hstep.
  - destruct (pin_spec x b s Hok Hx Hb) as (s1 & E & Hok1 & (Hst & _) & _).
    rewrite E in Hrun. injection Hrun as <- <-. split; [done|]. intros y Hy. rewrite Hst. auto.
  - destruct (decide (b = Some (HEAPBLK_TO_MAPBLOCK x))) as [->|Hne].
    2: { rewrite set_refused in Hrun by (by left). by injection Hrun as <- <-. }
    assert (0 <= flags < 4) as Hf4
      by (rewrite all_visible_value, valid_bits_value in Hflags; lia).
    destruct (decide (hb = Some x)) as [->|Hhb];
      [|destruct hb as [hb|]; [rewrite set_refused in Hrun by (by right); by injection Hrun as <- <-|]].
    all: edestruct (set_spec x) as (s1 & E & Hok1 & _ & Hst & _);
      [exact Hok|exact Hb|exact Hf4|naive_solver|]; rewrite E in Hrun.
    all: injection Hrun as <- <-; split; [done|]; intros y Hy; rewrite Hst by done;
      case_match; [|auto]; apply set_shape; [apply status_range|auto; apply Hfv; lia|].
    all: by rewrite all_visible_value, valid_bits_value in Hflags.
  - destruct (decide (b = Some (HEAPBLK_TO_MAPBLOCK x))) as [->|Hne].
    2: { rewrite clear_refused in Hrun by done. by injection Hrun as <- <-. }
    rewrite all_frozen_value, valid_bits_value in Hflags.
    destruct (clear_spec x flags s Hok Hb) as (s1 & E & Hok1 & _ & _ & _ & Hst); [lia|].
    rewrite E in Hrun. injection Hrun as <- <-. split; [done|]. intros y Hy. rewrite Hst by done.
    case_match; [|auto]. apply clear_shape; [apply status_range|apply Hfv; lia|done].
  - destruct (get_status_spec x b s Hok Hx Hb) as (r & b' & s1 & E & Hok1 & (Hst & _) & _).
    rewrite E in Hrun. injection Hrun as <- <-. split; [done|]. intros y Hy. rewrite Hst. auto.
  - destruct (prepare_truncate_spec n s Hok Hn Hk) as (r' & s2 & E & Hok2 & Hp2 & Hr & Hst).
    rewrite E in Hrun. injection Hrun as -> ->. subst s'.
    rewrite Hp in Hp2. apply Permutation_nil_l in Hp2. split; [by apply vm_ok_cut|].
    intros y Hy. rewrite Hst by done. case_match; [auto|done].
Qed.
End steps.

Section claims.
Context `{HB : PgBlockSize} `{HBL : !PgBlockSizeLaws} `{HV : VmEnv} `{HVL : !VmLaws}.

(** what is set is read.  Pinning the map page of a heap block,
    setting flags and reading the status, from any well-formed map, which
    is created or extended as needed, returns the flags joined to those
    the block had; no other block's bits change, one pin is taken (or
    traded for the one passed in), and a WAL record is written exactly
    when the bits were not the flags already. *)
Theorem visibilitymap_set_then_get (x cutoff flags : Z) (b : Buffer) (s : VmState)
    (Hok : vm_ok s) (Hx : 0 <= x < 2 ^ 32) (Hb : holds b s) (Hf : 0 <= flags < 4) :
  exists s',
    (let* vb := pg_tde_visibilitymap_pin x b in
     pg_tde_visibilitymap_set x (Some x) InvalidXLogRecPtr vb cutoff flags;;;
     pg_tde_visibilitymap_get_status x vb) s
    = (Ret (Z.lor (vm_status s x) flags, Some (HEAPBLK_TO_MAPBLOCK x)), s')
    /\ vm_ok s' /\ trades b (Some (HEAPBLK_TO_MAPBLOCK x)) s s'
    /\ (forall y, 0 <= y -> y <> x -> vm_status s' y = vm_status s y)
    /\ wal s' = wal s ++ (if flags =? vm_status s x then []
                          else set_record x InvalidXLogRecPtr cutoff flags).
Proof.
  destruct (pin_spec x b s Hok Hx Hb) as (s1 & E1 & Hok1 & (Hst1 & Hw1 & _) & Ht).
  assert (Hin : HEAPBLK_TO_MAPBLOCK x ∈ pinned s1)
    by (destruct Ht as (rest & _ & ->); by left).
  edestruct (set_spec x (Some x) InvalidXLogRecPtr cutoff flags s1 Hok1 Hin Hf)
    as (s2 & E2 & Hok2 & Hp2 & Hst2 & Hw2); [by left|].
  mstep E1. mstep E2. exists s2. unfold pg_tde_visibilitymap_get_status.
  rewrite Z.eqb_refl. cbn [negb]. rewrite !bind_ret_l.
  rewrite read_status_spec by (rewrite ?Hp2; done).
  rewrite Hst2 by lia. rewrite Z.eqb_refl, Hst1. split; [done|]. split; [done|].
  split; [destruct Ht as (rest & Hr1 & Hr2); exists rest; by rewrite Hp2|].
  split; [|by rewrite Hw2, Hw1, Hst1]. intros y Hy Hne. rewrite Hst2 by done.
  destruct (Z.eqb_spec y x); [done|apply Hst1].
Qed.

(** what is cleared is gone.  Clearing flags with the right page
    pinned reports whether any was set, takes exactly them away from the
    heap block and leaves every other block's bits alone; with any other
    buffer it raises an error and changes nothing. *)
Theorem visibilitymap_clear_exact (x flags : Z) (b : Buffer) (s : VmState)
    (Hok : vm_ok s) (Hx : 0 <= x < 2 ^ 32) (Hb : holds b s) (Hf : 0 <= flags < 4) :
  if pg_tde_visibilitymap_pin_ok x b then
    exists s',
      pg_tde_visibilitymap_clear x b flags s
      = (Ret (negb (Z.land (vm_status s x) flags =? 0)), s')
      /\ vm_ok s' /\ pinned s' = pinned s /\ wal s' = wal s
      /\ forall y, 0 <= y ->
           vm_status s' y = if y =? x then Z.ldiff (vm_status s x) flags else vm_status s y
  else pg_tde_visibilitymap_clear x b flags s = (Raise ERROR, s).
Proof.
  unfold pg_tde_visibilitymap_pin_ok. destruct b as [b|]; [|done].
  destruct (Z.eqb_spec b (HEAPBLK_TO_MAPBLOCK x)) as [->|Hne].
  - destruct (clear_spec x flags s Hok Hb Hf) as (s' & E & H1 & H2 & H3 & _ & H5).
    exists s'. by split_and!.
  - apply clear_refused. congruence.
Qed.

(** truncation leaves no bit behind.  When the relation is cut to
    [n] heap blocks and the map fork to what prepare_truncate returned,
    the blocks below [n] keep their bits and all others, including those
    on the map page that stays, have none, so a block added later starts
    neither visible nor frozen. *)
Theorem visibilitymap_truncate_exact (n : Z) (s : VmState)
    (Hok : vm_ok s) (Hn : 0 <= n < 2 ^ 32)
    (Hk : known_nblocks s = Z.of_nat (length (pages s))) :
  exists r s', pg_tde_visibilitymap_prepare_truncate n s = (Ret r, s')
    /\ vm_ok s' /\ pinned s ≡ₚ pinned s'
    /\ forall y, 0 <= y -> vm_status (cut_fork r s') y = if y <? n then vm_status s y else 0.
Proof.
  destruct (prepare_truncate_spec n s Hok Hn Hk) as (r & s' & E & H1 & H2 & _ & H3).
  exists r, s'. by split_and!.
Qed.

(** C38: frozen pages are visible pages.  After any sequence of calls made
    as the assertions ask, failed ones included, the map is well formed
    (every pinned page exists and is initialized, the cached size does not
    exceed the fork) and no heap block is marked all-frozen without being
    marked all-visible. *)
Theorem visibilitymap_frozen_visible (s s' : VmState)
    (Hok : vm_ok s) (Hfv : frozen_visible s) (Hsteps : rtc vm_step s s') :
  vm_ok s' /\ frozen_visible s'.
Proof.
  induction Hsteps as [s|s s1 s' Hstep _ IH]; [done|].
  destruct (vm_step_inv s s1 Hok Hfv Hstep). by apply IH.
Qed.
End claims.

(** ** On small maps *)

Lemma visibilitymap_set_then_get_witness :
  vm_ok empty /\ vm_status empty 4001 = 0
  /\ exists s',
      (let* vb := pg_tde_visibilitymap_pin 4001 None in
       pg_tde_visibilitymap_set 4001 (Some 4001) InvalidXLogRecPtr vb 9 3;;;
       pg_tde_visibilitymap_get_status 4001 vb) empty
      = (Ret (3, Some 1), s') /\ length (wal s') = 1%nat.
Proof.
  split; [apply empty_ok|]. split; [done|].
  destruct (visibilitymap_set_then_get 4001 9 3 None empty empty_ok ltac:(done) I ltac:(lia))
    as (s' & E & _ & _ & _ & Hw).
  exists s'. split; [exact E|]. by rewrite Hw.
Defined.

Lemma visibilitymap_clear_exact_witness :
  vm_status marked 5 = 3 /\ vm_status marked 6 = 1
  /\ exists s', pg_tde_visibilitymap_clear 5 (Some 0) 3 marked = (Ret true, s')
       /\ vm_status s' 5 = 0 /\ vm_status s' 6 = 1.
Proof.
  split; [by vm_compute|]. split; [by vm_compute|].
  destruct (visibilitymap_clear_exact 5 3 (Some 0) marked marked_ok ltac:(done)
              ltac:(by left) ltac:(lia)) as (s' & E & _ & _ & _ & Hst).
  exists s'. split; [exact E|]. split; [rewrite (Hst 5) by done|rewrite (Hst 6) by done]; by vm_compute.
Defined.

Lemma visibilitymap_truncate_exact_witness :
  exists r s', pg_tde_visibilitymap_prepare_truncate 6 marked = (Ret r, s')
    /\ vm_status (cut_fork r s') 5 = 3 /\ vm_status (cut_fork r s') 6 = 0.
Proof.
  destruct (visibilitymap_truncate_exact 6 marked marked_ok ltac:(done) ltac:(done))
    as (r & s' & E & _ & _ & Hst).
  exists r, s'. split; [exact E|]. split; [rewrite (Hst 5) by done|rewrite (Hst 6) by done]; by vm_compute.
Defined.

Lemma visibilitymap_frozen_visible_witness :
  let s1 := snd (pg_tde_visibilitymap_pin 8 None empty) in
  let s2 := snd (pg_tde_visibilitymap_set 8 (Some 8) 0 (Some 0) 9 3 s1) in
  vm_status s2 8 = 3 /\ vm_ok s2 /\ frozen_visible s2.
Proof.
  intros s1 s2. split; [by vm_compute|].
  apply (visibilitymap_frozen_visible empty).
  - apply empty_ok.
  - by intros x Hx.
  - apply (rtc_l _ _ s1); [|apply rtc_once].
    + by apply (step_pin _ _ 8 None (fst (pg_tde_visibilitymap_pin 8 None empty))).
    + apply (step_set _ _ 8 (Some 8) 0 (Some 0) 9 3
               (fst (pg_tde_visibilitymap_set 8 (Some 8) 0 (Some 0) 9 3 s1)));
        [done|by left|by right|by left|].
      unfold s2. by destruct (pg_tde_visibilitymap_set _ _ _ _ _ _ s1).
Defined.
