(* ===== verification/Prune.v ===== *)
(** Defragmenting a page: pgtde_compactify_tuples and
    TdePageRepairFragmentation of src/src/access/pg_tde_prune.c.

    A tuple is encrypted by its position, so moving it on the page means
    decrypting and encrypting it again.  The page header and the line
    pointers are a record, the page itself its bytes; [scratch] is the local
    buffer of the routine. *)
From S2P Require Import Prelude EncAes RelKeys EncTuple KeyringTypes KeyringApi XactHandler TdeMap TupleIO.

(** A line pointer. *)
Record ItemId := { lp_off : Z; lp_flags : Z; lp_len : Z }.

Record HeapPage := {
  pd_lower : Z;
  pd_upper : Z;
  pd_special : Z;
  pd_linp : list ItemId;
  has_free_lines : bool;
  page_bytes : list Z;
}.

(** bufpage.h, itemid.h, htup_details.h and c.h. *)
Class PageMacros := {
  SizeOfPageHeaderData : Z;
  sizeof_ItemIdData : Z;
  sizeof_HeapTupleHeaderData : Z;
  ItemIdIsUsed : ItemId -> bool;
  ItemIdHasStorage : ItemId -> bool;
  ItemIdSetUnused : ItemId -> ItemId;
  MAXALIGN : Z -> Z;
}.

Record itemIdCompactData := { offsetindex : Z; itemoff : Z; len : Z; alignedlen : Z }.

(** What the routine changes: the keys' contexts, the page, its buffer. *)
Record PruneState `{HE : EVP} `{HC : Curl} := { tde : TdeState; page : HeapPage; scratch : list Z }.

Section prune.
Context `{HE : EVP} `{HS : CIntShift}.
Context `{HJ : Json} `{HB : Base64} `{HC : Curl} `{HF : KeyringFs}.
Context `{HT : TdeEnv} `{HP : PgBlockSize} `{HM : PageMacros}.
Variable g : AesGlobals.

Local Abbreviation MP := (M PruneState).

(** ** State *)

Definition with_bytes (b : list Z) (p : HeapPage) : HeapPage :=
  {| pd_lower := pd_lower p; pd_upper := pd_upper p; pd_special := pd_special p;
     pd_linp := pd_linp p; has_free_lines := has_free_lines p; page_bytes := b |}.
Definition with_linp (l : list ItemId) (p : HeapPage) : HeapPage :=
  {| pd_lower := pd_lower p; pd_upper := pd_upper p; pd_special := pd_special p;
     pd_linp := l; has_free_lines := has_free_lines p; page_bytes := page_bytes p |}.
Definition with_upper (u : Z) (p : HeapPage) : HeapPage :=
  {| pd_lower := pd_lower p; pd_upper := u; pd_special := pd_special p;
     pd_linp := pd_linp p; has_free_lines := has_free_lines p; page_bytes := page_bytes p |}.
Definition with_lower (l : Z) (p : HeapPage) : HeapPage :=
  {| pd_lower := l; pd_upper := pd_upper p; pd_special := pd_special p;
     pd_linp := pd_linp p; has_free_lines := has_free_lines p; page_bytes := page_bytes p |}.
Definition with_free_lines (f : bool) (p : HeapPage) : HeapPage :=
  {| pd_lower := pd_lower p; pd_upper := pd_upper p; pd_special := pd_special p;
     pd_linp := pd_linp p; has_free_lines := f; page_bytes := page_bytes p |}.

Definition on_page (f : HeapPage -> HeapPage) : MP unit :=
  modify (fun s => {| tde := tde s; page := f (page s); scratch := scratch s |}).
Definition set_scratch (b : list Z) : MP unit :=
  modify (fun s => {| tde := tde s; page := page s; scratch := b |}).
Definition in_tde {A} (m : M TdeState A) : MP A :=
  zoom tde (fun t s => {| tde := t; page := page s; scratch := scratch s |}) m.

Definition page_mem : MP (list Z) := gets (fun s => page_bytes (page s)).
Definition scratch_mem : MP (list Z) := gets scratch.

(** [lp->lp_off = upper] *)
Definition set_lp_off (offsetindex upper : Z) : MP unit :=
  let* p := gets page in
  match pd_linp p !! Z.to_nat offsetindex with
  | Some lp =>
      on_page (with_linp (<[Z.to_nat offsetindex :=
        {| lp_off := upper; lp_flags := lp_flags lp; lp_len := lp_len lp |}]> (pd_linp p)))
  | None => undefined
  end.

(** [memmove]/[memcpy] of a range to the page at [upper]. *)
Definition copy_to_page (upper : Z) (src : list Z) (copy_head copy_tail : Z) : MP unit :=
  let* chunk := defined (rd_bytes src copy_head (copy_tail - copy_head)) in
  let* mem := page_mem in
  let* mem := defined (wr_bytes mem upper chunk) in
  on_page (with_bytes mem).

(** PG_TDE_RE_ENCRYPT_TUPLE_DATA of what is at [copy_head], in place, for
    its new position [upper]; [item_len] is [itemidptr->len]. *)
Definition re_encrypt (keys : nat) (bn copy_head upper item_len : Z) (mem : list Z) : MP (list Z) :=
  let header_size := sizeof_HeapTupleHeaderData in
  let data_len := u32 (item_len - header_size) in
  in_tde (with_keys keys
    (PG_TDE_RE_ENCRYPT_TUPLE_DATA g bn copy_head (copy_head + header_size)
       bn upper (copy_head + header_size) data_len mem)).

(** ** pgtde_compactify_tuples *)

(** The do-while loops that skip the tuples already in place: [upper], the
    items from [i] on, and [itemidptr]. *)
Fixpoint skip_in_place (it : itemIdCompactData) (rest : list itemIdCompactData) (upper : Z)
    : Z * list itemIdCompactData * itemIdCompactData :=
  if negb (upper =? itemoff it + alignedlen it) then (upper, it :: rest, it)
  else
    let upper := upper - alignedlen it in
    match rest with
    | [] => (upper, [], it)
    | it' :: rest' => skip_in_place it' rest' upper
    end.

(** The loop of the presorted branch, which works on the page. *)
Fixpoint compact_presorted (keys : nat) (bn : Z) (items : list itemIdCompactData)
    (last : itemIdCompactData) (upper copy_tail copy_head : Z) : MP Z :=
  match items with
  | it :: items =>
      (if copy_head <? copy_tail then
         let* mem := page_mem in
         let* mem := re_encrypt keys bn copy_head upper (len it) mem in
         on_page (with_bytes mem)
       else ret tt);;;
      let move := negb (copy_head =? itemoff it + alignedlen it) && (copy_head <? copy_tail) in
      (if move then
         let* mem := page_mem in copy_to_page upper mem copy_head copy_tail
       else ret tt);;;
      let copy_tail := if move then itemoff it + alignedlen it else copy_tail in
      let upper := upper - alignedlen it in
      let copy_head := itemoff it in
      set_lp_off (offsetindex it) upper;;;
      compact_presorted keys bn items it upper copy_tail copy_head
  | [] =>
      (if copy_head <? copy_tail then
         let* mem := page_mem in
         let* mem := re_encrypt keys bn copy_head upper (len last) mem in
         on_page (with_bytes mem)
       else ret tt);;;
      let* mem := page_mem in
      copy_to_page upper mem copy_head copy_tail;;;
      ret upper
  end.

(** The copies of the other branch: tuple by tuple when few are left, else
    the whole range in use; then where the moving starts. *)
Fixpoint copy_items (items : list itemIdCompactData) : MP unit :=
  match items with
  | [] => ret tt
  | it :: items =>
      let* mem := page_mem in
      let* chunk := defined (rd_bytes mem (itemoff it) (alignedlen it)) in
      let* scr := scratch_mem in
      let* scr := defined (wr_bytes scr (itemoff it) chunk) in
      set_scratch scr;;;
      copy_items items
  end.

Definition fill_scratch (it : itemIdCompactData) (rest : list itemIdCompactData)
    : MP (Z * list itemIdCompactData * itemIdCompactData) :=
  let* p := gets page in
  let nitems := Z.of_nat (length (it :: rest)) in
  if nitems <? Z.of_nat (length (pd_linp p)) / 4 then
    copy_items (it :: rest);;;
    ret (pd_special p, it :: rest, it)
  else
    let '(upper, items, last) := skip_in_place it rest (pd_special p) in
    let* chunk := defined (rd_bytes (page_bytes p) (pd_upper p) (upper - pd_upper p)) in
    let* scr := scratch_mem in
    let* scr := defined (wr_bytes scr (pd_upper p) chunk) in
    set_scratch scr;;;
    ret (upper, items, last).

(** The loop of the other branch, from the scratch buffer to the page. *)
Fixpoint compact_scratch (keys : nat) (bn : Z) (items : list itemIdCompactData)
    (last : itemIdCompactData) (upper copy_tail copy_head : Z) : MP Z :=
  match items with
  | it :: items =>
      (if copy_head <? copy_tail then
         let* scr := scratch_mem in
         let* scr := re_encrypt keys bn copy_head upper (len it) scr in
         set_scratch scr
       else ret tt);;;
      let move := negb (copy_head =? itemoff it + alignedlen it) in
      (if move then
         let* scr := scratch_mem in copy_to_page upper scr copy_head copy_tail
       else ret tt);;;
      let copy_tail := if move then itemoff it + alignedlen it else copy_tail in
      let upper := upper - alignedlen it in
      let copy_head := itemoff it in
      set_lp_off (offsetindex it) upper;;;
      compact_scratch keys bn items it upper copy_tail copy_head
  | [] =>
      (if copy_head <? copy_tail then
         let* scr := scratch_mem in
         let* scr := re_encrypt keys bn copy_head upper (len last) scr in
         set_scratch scr
       else ret tt);;;
      let* scr := scratch_mem in
      copy_to_page upper scr copy_head copy_tail;;;
      ret upper
  end.

(** [itemidbase] is not empty: [it :: rest]. *)
Definition pgtde_compactify_tuples (rel : RelFileLocator) (bn : Z) (it : itemIdCompactData)
    (rest : list itemIdCompactData) (presorted : bool) : MP unit :=
  let* keys := in_tde (GetRelationKeys g rel) in
  let* upper :=
    if presorted then
      let* p := gets page in
      let '(upper, items, last) := skip_in_place it rest (pd_special p) in
      let start := itemoff last + alignedlen last in
      compact_presorted keys bn items last upper start start
    else
      let* r := fill_scratch it rest in
      let '(upper, items, last) := r in
      let start := itemoff last + alignedlen last in
      compact_scratch keys bn items last upper start start in
  on_page (with_upper upper).

(** ** TdePageRepairFragmentation *)

(** What the pass over the line pointers has gathered. *)
Record Survey := {
  items_rev : list itemIdCompactData;   (** in reverse *)
  nunused : Z;
  totallen : Z;
  last_offset : Z;
  finalusedlp : Z;
  presorted : bool;
}.

Fixpoint survey_loop (i : Z) (lps : list ItemId) (upper special : Z) (v : Survey) : MP Survey :=
  match lps with
  | [] => ret v
  | lp :: lps =>
      let* v' :=
        if ItemIdIsUsed lp then
          if ItemIdHasStorage lp then
            let off := lp_off lp in
            let in_order := off <? last_offset v in
            if (off <? upper) || (special <=? off) then raise ERROR else
            let it := {| offsetindex := u16 (i - 1); itemoff := off; len := u16 (lp_len lp);
                         alignedlen := u16 (MAXALIGN (lp_len lp)) |} in
            ret {| items_rev := it :: items_rev v; nunused := nunused v;
                   totallen := totallen v + alignedlen it;
                   last_offset := if in_order then off else last_offset v;
                   finalusedlp := i; presorted := presorted v && in_order |}
          else
            ret {| items_rev := items_rev v; nunused := nunused v; totallen := totallen v;
                   last_offset := last_offset v; finalusedlp := i; presorted := presorted v |}
        else
          on_page (fun p => with_linp (<[Z.to_nat (i - 1) := ItemIdSetUnused lp]> (pd_linp p)) p);;;
          ret {| items_rev := items_rev v; nunused := nunused v + 1; totallen := totallen v;
                 last_offset := last_offset v; finalusedlp := finalusedlp v;
                 presorted := presorted v |} in
      survey_loop (i + 1) lps upper special v'
  end.

Definition corrupted_pointers (p : HeapPage) : bool :=
  (pd_lower p <? SizeOfPageHeaderData) || (pd_upper p <? pd_lower p)
  || (pd_special p <? pd_upper p) || (BLCKSZ <? pd_special p)
  || negb (pd_special p =? MAXALIGN (pd_special p)).

(** The line pointer array loses its unused end. *)
Definition truncate_lines (nline : Z) (v : Survey) : MP unit :=
  let nunusedend := nline - finalusedlp v in
  let nunused' := if negb (finalusedlp v =? nline) then nunused v - nunusedend else nunused v in
  (if negb (finalusedlp v =? nline) then
     on_page (fun p => with_lower (pd_lower p - sizeof_ItemIdData * nunusedend)
                         (with_linp (take (Z.to_nat (finalusedlp v)) (pd_linp p)) p))
   else ret tt);;;
  on_page (with_free_lines (0 <? nunused')).

Definition TdePageRepairFragmentation (rel : RelFileLocator) (bn : Z) : MP unit :=
  let* p := gets page in
  if corrupted_pointers p then raise ERROR else
  let nline := Z.of_nat (length (pd_linp p)) in
  let* v := survey_loop 1 (pd_linp p) (pd_upper p) (pd_special p)
    {| items_rev := []; nunused := 0; totallen := 0; last_offset := pd_special p;
       finalusedlp := 0; presorted := true |} in
  (match rev (items_rev v) with
   | [] => on_page (with_upper (pd_special p))
   | it :: rest =>
       if pd_special p - pd_lower p <? totallen v then raise ERROR
       else pgtde_compactify_tuples rel bn it rest (presorted v)
   end);;;
  truncate_lines nline v.
End prune.
