(* ===== verification/PruneProps.v ===== *)
(** Reasoning about compaction: tuples as the plain text they stand for at
    a position, the loops that move them, on the page and from a copy, and
    the compaction of tuples of one length by either: every tuple is the same
    plain text at its new position.  At the end, two servers with the same
    key: nothing else of what they have cached matters. *)
From S2P Require Import Prelude EncAes RelKeys EncTuple KeyringTypes KeyringApi XactHandler TdeMap TupleIO Prune.

Section items.
Context `{HE : EVP} `{HS : CIntShift} `{HL : !EVPLaws} `{HP : PgBlockSize}.
(** The key, the block number and the length of tuple headers. *)
Variables (k : list Z) (bn : Z) (h : nat).

(** Byte [j] of a tuple as it is stored at position [pos] of the page. *)
Definition stored_byte (pos : Z) (j : nat) (b : Z) : Z :=
  if (j <? h)%nat then b
  else Z.lxor b (keystream k (bn * BLCKSZ + pos + Z.of_nat (j - h))).

(** The memory at [off] holds the tuple [P], encrypted for [pos]. *)
Definition item_at (mem : list Z) (off pos : Z) (P : list Z) : Prop :=
  forall j : nat, (j < length P)%nat ->
    mem !! (Z.to_nat off + j)%nat = stored_byte pos j <$> P !! j.

(** It is what is written by encrypting the tuple there. *)
Lemma item_at_encrypted mem off pos P :
  (h <= length P)%nat ->
  (item_at mem off pos P <->
   take (length P) (drop (Z.to_nat off) mem) = encrypted_item k bn pos (Z.of_nat h) P).
Proof.
  intros Hh. unfold item_at, encrypted_item. rewrite Nat2Z.id.
  assert (Henc : forall j, (j < length P)%nat ->
    (take h P ++ stream_xor k (bn * BLCKSZ + pos) (drop h P)) !! j = stored_byte pos j <$> P !! j).
  { intros j Hj. unfold stored_byte. destruct (Nat.ltb_spec j h) as [Hlt|Hge].
    - rewrite lookup_app_l by (rewrite length_take; lia). rewrite lookup_take_lt by done.
      by destruct (P !! j).
    - rewrite lookup_app_r by (rewrite length_take; lia).
      rewrite lookup_stream_xor, lookup_drop, length_take.
      replace (h + (j - h `min` length P))%nat with j by lia.
      replace (j - h `min` length P)%nat with (j - h)%nat by lia. done. }
  split.
  - intros H. apply list_eq. intros j. destruct (decide (j < length P)%nat) as [Hj|Hj].
    + rewrite lookup_take_lt, lookup_drop by done. by rewrite H, Henc.
    + rewrite !lookup_ge_None_2; [done| |rewrite length_take; lia].
      rewrite length_app, length_stream_xor, length_take, length_drop. lia.
  - intros H j Hj. rewrite <- Henc, <- H by done. by rewrite lookup_take_lt, lookup_drop.
Qed.

Lemma item_at_fits mem off pos P :
  item_at mem off pos P -> (0 < length P)%nat ->
  (Z.to_nat off + length P <= length mem)%nat.
Proof.
  intros H Hn. specialize (H (length P - 1)%nat ltac:(lia)).
  destruct (lookup_lt_is_Some_2 P (length P - 1)) as [b Hb]; [lia|]. rewrite Hb in H.
  apply lookup_lt_Some in H. lia.
Qed.

(** Writing elsewhere. *)
Lemma item_at_splice_out mem at_ src off pos P :
  0 <= off -> (Z.to_nat at_ + length src <= length mem)%nat -> 0 <= at_ ->
  off + Z.of_nat (length P) <= at_ \/ at_ + Z.of_nat (length src) <= off ->
  item_at mem off pos P -> item_at (splice mem (Z.to_nat at_) src) off pos P.
Proof.
  intros Ho Hfit Ha Hdis H j Hj. rewrite lookup_splice_out by lia. by apply H.
Qed.

(** Moving a range moves the tuples in it, as they are encrypted. *)
Lemma item_at_move dst mem head n upper off pos P :
  0 <= head -> 0 <= upper -> head <= off ->
  off + Z.of_nat (length P) <= head + n ->
  (Z.to_nat (head + n) <= length mem)%nat -> (Z.to_nat (upper + n) <= length dst)%nat ->
  item_at mem off pos P ->
  item_at (splice dst (Z.to_nat upper) (take (Z.to_nat n) (drop (Z.to_nat head) mem)))
    (off - head + upper) pos P.
Proof.
  intros Hh Hu Ho Hin Hm1 Hm2 H j Hj.
  assert (Hl : length (take (Z.to_nat n) (drop (Z.to_nat head) mem)) = Z.to_nat n)
    by (rewrite length_take, length_drop; lia).
  rewrite lookup_splice_in by lia.
  rewrite lookup_take_lt, lookup_drop by lia. rewrite <- H by done. f_equal. lia.
Qed.

(** Encrypting again in place for another position. *)
Lemma item_at_re_encrypt mem off pos pos' P :
  0 <= off -> (h <= length P)%nat -> (0 < length P)%nat ->
  item_at mem off pos P ->
  let n := (length P - h)%nat in
  let at_ := (Z.to_nat off + h)%nat in
  item_at (splice mem at_
    (stream_move k (bn * BLCKSZ + pos) (bn * BLCKSZ + pos') (take n (drop at_ mem)))) off pos' P.
Proof.
  intros Ho Hh Hn H n at_ j Hj. pose proof (item_at_fits _ _ _ _ H Hn) as Hfit.
  assert (Hl : length (take n (drop at_ mem)) = n)
    by (unfold at_, n in *; rewrite length_take, length_drop; lia).
  specialize (H j Hj). unfold stored_byte in *. destruct (Nat.ltb_spec j h) as [Hlt|Hge].
  - rewrite lookup_splice_out by (rewrite length_stream_move, Hl; unfold at_, n; lia). done.
  - rewrite lookup_splice_in by (rewrite length_stream_move, Hl; unfold at_, n; lia).
    unfold stream_move. rewrite !lookup_stream_xor.
    rewrite lookup_take_lt by (unfold at_, n; lia). rewrite lookup_drop.
    replace (at_ + (Z.to_nat off + j - at_))%nat with (Z.to_nat off + j)%nat by (unfold at_; lia).
    replace (Z.to_nat off + j - at_)%nat with (j - h)%nat by (unfold at_; lia).
    rewrite H. destruct (P !! j); cbn; [|done]. by rewrite lxor_cancel.
Qed.
End items.

Section steps.
Context `{HE : EVP} `{HS : CIntShift} `{HL : !EVPLaws}.
Context `{HJ : Json} `{HB : Base64} `{HC : Curl} `{HF : KeyringFs}.
Context `{HT : TdeEnv} `{HP : PgBlockSize} `{HBL : !PgBlockSizeLaws} `{HM : PageMacros}.
Variable g : AesGlobals.
Variables (k : list Z) (bn : Z) (keys : nat).
Hypothesis Hg : aes_initialized g.
Hypothesis Hbn : 0 <= bn /\ bn * BLCKSZ < 2 ^ 32.
Hypothesis Hhdr : 0 <= sizeof_HeapTupleHeaderData.
Local Abbreviation h := (Z.to_nat sizeof_HeapTupleHeaderData).

(** The keys are there; the page keeps its size. *)
Definition prune_ready (s : PruneState) : Prop :=
  (exists d, keys_store (tde s) !! keys = Some d /\ keys_ready d k)
  /\ Z.of_nat (length (page_bytes (page s))) = BLCKSZ.

(** Only the contexts of the keys may differ. *)
Definition same_but_keys (s s' : PruneState) : Prop :=
  page s' = page s /\ scratch s' = scratch s /\ prune_ready s'.

Lemma re_encrypt_spec (mem : list Z) off upper n (s : PruneState) :
  prune_ready s -> 0 <= off -> 0 <= upper <= BLCKSZ ->
  sizeof_HeapTupleHeaderData <= n -> off + n <= Z.of_nat (length mem) ->
  Z.of_nat (length mem) = BLCKSZ ->
  exists s',
    re_encrypt g keys bn off upper n mem s =
      (Ret (splice mem (Z.to_nat off + h)
             (stream_move k (bn * BLCKSZ + off) (bn * BLCKSZ + upper)
                (take (Z.to_nat n - h) (drop (Z.to_nat off + h) mem)))), s')
    /\ same_but_keys s s'.
Proof.
  intros ((d & Hd & Hr) & Hlen) Ho Hu Hn Hin Hmem. pose proof BLCKSZ_range as Hsz.
  unfold re_encrypt, in_tde, zoom, PG_TDE_RE_ENCRYPT_TUPLE_DATA.
  rewrite (uwrap_small 32) by lia. rewrite !offset_in_file_small by lia.
  destruct (pg_tde_move_encrypted_data_spec g k (bn * BLCKSZ + off) (bn * BLCKSZ + upper)
    (off + sizeof_HeapTupleHeaderData) (n - sizeof_HeapTupleHeaderData) mem d)
    as (d' & E & Hr' & _); [done|done|unfold crypt_bounds; lia|unfold crypt_bounds; lia|lia|lia|].
  rewrite (with_keys_Ret keys _ (tde s) d _ d' Hd E).
  exists {| tde := with_store (<[keys := d']> (keys_store (tde s))) (tde s);
            page := page s; scratch := scratch s |}.
  split; [|split; [|split]]; [|done|done|].
  - replace (Z.to_nat (off + sizeof_HeapTupleHeaderData)) with (Z.to_nat off + h)%nat by lia.
    replace (Z.to_nat (n - sizeof_HeapTupleHeaderData)) with (Z.to_nat n - h)%nat by lia.
    reflexivity.
  - split; [|done]. exists d'. split; [|done]. cbn. apply list_lookup_insert_eq.
    by eapply lookup_lt_Some.
Qed.

Lemma copy_to_page_spec upper src head tail (s : PruneState) :
  0 <= head <= tail -> tail <= Z.of_nat (length src) -> 0 <= upper ->
  upper + (tail - head) <= Z.of_nat (length (page_bytes (page s))) ->
  copy_to_page upper src head tail s =
    (Ret tt, {| tde := tde s;
                page := with_bytes (splice (page_bytes (page s)) (Z.to_nat upper)
                  (take (Z.to_nat (tail - head)) (drop (Z.to_nat head) src))) (page s);
                scratch := scratch s |}).
Proof.
  intros Hh Ht Hu Hfit. unfold copy_to_page. rewrite rd_bytes_Some by lia. cbn [defined].
  rewrite bind_ret_l. unfold page_mem, gets, bind. cbv beta iota.
  rewrite wr_bytes_Some by (rewrite ?length_take, ?length_drop; lia). done.
Qed.
End steps.

Section compact.
Context `{HE : EVP} `{HS : CIntShift} `{HL : !EVPLaws}.
Context `{HJ : Json} `{HB : Base64} `{HC : Curl} `{HF : KeyringFs}.
Context `{HT : TdeEnv} `{HP : PgBlockSize} `{HBL : !PgBlockSizeLaws} `{HM : PageMacros}.
Variable g : AesGlobals.
Variables (k : list Z) (bn : Z) (keys : nat).
Hypothesis Hg : aes_initialized g.
Hypothesis Hbn : 0 <= bn /\ bn * BLCKSZ < 2 ^ 32.
(** The length of the tuples, and with padding. *)
Variables (L A : Z).
Hypothesis Hlen : 0 <= sizeof_HeapTupleHeaderData <= L /\ 0 < L <= A.
Local Abbreviation h := (Z.to_nat sizeof_HeapTupleHeaderData).
Local Abbreviation at_ := (item_at k bn h).

Definition same_len (it : itemIdCompactData) : Prop := len it = L /\ alignedlen it = A.

(** The positions tuples get, from [upper] down, and the line pointers. *)
Fixpoint targets (upper : Z) (Ps : list (list Z)) : list (Z * list Z) :=
  match Ps with
  | [] => []
  | P :: Ps => (upper - A, P) :: targets (upper - A) Ps
  end.

Fixpoint relink (items : list itemIdCompactData) (upper : Z) (linp : list ItemId) : list ItemId :=
  match items with
  | [] => linp
  | it :: items =>
      relink items (upper - A)
        (match linp !! Z.to_nat (offsetindex it) with
         | Some lp => <[Z.to_nat (offsetindex it) :=
             {| lp_off := upper - A; lp_flags := lp_flags lp; lp_len := lp_len lp |}]> linp
         | None => linp
         end)
  end.

(** Tuples to move: in order down the page, below [bound]. *)
Fixpoint below (bound : Z) (items : list itemIdCompactData) : Prop :=
  match items with
  | [] => True
  | it :: items => 0 <= itemoff it /\ itemoff it + A <= bound /\ below (itemoff it) items
  end.

Definition unmoved (mem : list Z) (it : itemIdCompactData) (P : list Z) : Prop :=
  Z.of_nat (length P) = L /\ same_len it /\ at_ mem (itemoff it) (itemoff it) P.

(** In place for good, from [bound] up. *)
Definition placed (mem : list Z) (bound : Z) (nP : Z * list Z) : Prop :=
  Z.of_nat (length nP.2) = L /\ bound <= nP.1 /\ at_ mem nP.1 nP.1 nP.2.

(** Encrypted for its new position but still in the range to be moved. *)
Definition pending (mem : list Z) (from tail head upper : Z) (oP : Z * list Z) : Prop :=
  Z.of_nat (length oP.2) = L /\ from <= oP.1 /\ oP.1 + A <= tail
  /\ at_ mem oP.1 (oP.1 - head + upper) oP.2.

Definition moved (head upper : Z) (oP : Z * list Z) : Z * list Z := (oP.1 - head + upper, oP.2).

(** The range to be moved, once its first tuple is encrypted again too. *)
Record range_ok (mem : list Z) (F Q : list (Z * list Z)) (items : list itemIdCompactData)
    (Ps : list (list Z)) (upper tail head : Z) : Prop := {
  r_mem : Z.of_nat (length mem) = BLCKSZ;
  r_head : 0 <= head <= upper;
  r_tail : head <= tail /\ upper + (tail - head) <= BLCKSZ;
  r_placed : Forall (placed mem (upper + (tail - head))) F;
  r_pending : Forall (pending mem head tail head upper) Q;
  r_below : below head items;
  r_items : Forall2 (unmoved mem) items Ps;
}.

(** The state of the loop: nothing to move yet, or a first tuple still
    encrypted for where it is. *)
Inductive loop_ok (mem : list Z) (F Q : list (Z * list Z)) (W : list (list Z))
    (items : list itemIdCompactData) (Ps : list (list Z)) (upper tail head : Z) : Prop :=
| loop_start (Hr : range_ok mem F Q items Ps upper tail head) (HW : W = []) (HQ : Q = [])
    (Ht : tail = head)
    (Hfirst : match items with it :: _ => itemoff it + A = head | [] => True end)
| loop_run P (HW : W = [P]) (HP : Z.of_nat (length P) = L)
    (Hp : at_ mem head head P) (Hin : head + A <= tail)
    (Hr : range_ok mem F [] items Ps upper tail head)
    (HQ : Forall (pending mem (head + A) tail head upper) Q).

Lemma below_le b b' items : b <= b' -> below b items -> below b' items.
Proof. destruct items; cbn; [done|]. intros ? (? & ? & ?). split; [done|]. split; [lia|done]. Qed.

(** Everything from [off] down survives a write above it. *)
Lemma unmoved_splice mem off src items Ps :
  Z.of_nat (length mem) = BLCKSZ -> 0 <= off ->
  off + Z.of_nat (length src) <= BLCKSZ ->
  below off items -> Forall2 (unmoved mem) items Ps ->
  Forall2 (unmoved (splice mem (Z.to_nat off) src)) items Ps.
Proof.
  intros Hm Ho Hs Hb H. revert off Hb Ho Hs.
  assert (Hgen : forall b off, b <= off -> 0 <= off -> off + Z.of_nat (length src) <= BLCKSZ ->
    below b items -> Forall2 (unmoved (splice mem (Z.to_nat off) src)) items Ps);
    [|intros off Hb Ho Hs; by apply (Hgen off)].
  induction H as [|it P items Ps (HPl & Hsl & Hat) _ IH]; intros b off Hbo Ho Hs Hb; [constructor|].
  destruct Hb as (Hi0 & Hi & Hb'). constructor.
  - split; [done|]. split; [done|]. apply item_at_splice_out; try done; cbn; lia.
  - apply (IH (itemoff it)); try done; lia.
Qed.

Lemma placed_splice mem off src bound F :
  Z.of_nat (length mem) = BLCKSZ -> 0 <= off ->
  off + Z.of_nat (length src) <= bound -> off + Z.of_nat (length src) <= BLCKSZ ->
  Forall (placed mem bound) F -> Forall (placed (splice mem (Z.to_nat off) src) bound) F.
Proof.
  intros Hm Ho Hs Hs2 HFp. eapply Forall_impl; [exact HFp|]. intros [n P] (HPl & Hn & Hat). cbn in *.
  split; [done|]. split; [done|]. apply item_at_splice_out; try done; cbn; lia.
Qed.

(** ** Encrypting the first tuple of the range for its new position *)

Lemma recrypt_range mem F Q P items Ps upper tail head :
  Z.of_nat (length P) = L -> at_ mem head head P -> head + A <= tail ->
  range_ok mem F [] items Ps upper tail head ->
  Forall (pending mem (head + A) tail head upper) Q ->
  let mem' := splice mem (Z.to_nat head + h)
    (stream_move k (bn * BLCKSZ + head) (bn * BLCKSZ + upper)
       (take (Z.to_nat L - h) (drop (Z.to_nat head + h) mem))) in
  range_ok mem' F ((head, P) :: Q) items Ps upper tail head.
Proof.
  intros HPl Hat Hin [Hm Hh Ht HFp _ Hb Hi] HQ mem'.
  set (src := stream_move _ _ _ _) in mem'.
  assert (Hsl : Z.of_nat (length src) = L - sizeof_HeapTupleHeaderData).
  { unfold src. rewrite length_stream_move, length_take, length_drop. lia. }
  assert (Hmem' : mem' = splice mem (Z.to_nat (head + sizeof_HeapTupleHeaderData)) src)
    by (unfold mem'; f_equal; lia).
  split.
  - unfold mem'. rewrite length_splice; lia.
  - done.
  - done.
  - rewrite Hmem'. eapply Forall_impl; [exact HFp|].
    intros [n P'] (H1 & H2 & H3). cbn in *. split; [done|]. split; [done|].
    apply item_at_splice_out; try done; cbn; lia.
  - constructor.
    + split; [done|]. cbn. split; [lia|]. split; [lia|]. rewrite Z.sub_diag, Z.add_0_l.
      unfold mem', src. replace (Z.to_nat L) with (length P) by lia.
      apply item_at_re_encrypt; [lia|lia|lia|done].
    + eapply Forall_impl; [exact HQ|]. intros [o P'] (H1 & H2 & H3 & H4). cbn in *.
      split; [done|]. split; [cbn; lia|]. split; [done|]. cbn. rewrite Hmem'.
      apply item_at_splice_out; try done; cbn; lia.
  - done.
  - rewrite Hmem'. apply unmoved_splice; try done; try lia. by eapply below_le; [|exact Hb]; lia.
Qed.

(** ** Moving the range *)

Lemma move_range mem F Q items Ps upper tail head :
  range_ok mem F Q items Ps upper tail head ->
  let mem' := splice mem (Z.to_nat upper)
    (take (Z.to_nat (tail - head)) (drop (Z.to_nat head) mem)) in
  Z.of_nat (length mem') = BLCKSZ
  /\ Forall (placed mem' upper) (F ++ (moved head upper <$> Q))
  /\ Forall2 (unmoved mem') items Ps.
Proof.
  intros [Hm Hh Ht HFp HQ Hb Hi] mem'.
  set (src := take _ _) in mem'.
  assert (Hsl : Z.of_nat (length src) = tail - head)
    by (unfold src; rewrite length_take, length_drop; lia).
  split; [unfold mem'; rewrite length_splice; lia|]. split.
  - apply Forall_app. split.
    + eapply Forall_impl; [apply (placed_splice mem upper src (upper + (tail - head))); try done; lia|].
      intros [n P] (H1 & H2 & H3). split; [done|]. split; [cbn in *; lia|done].
    + apply Forall_fmap. eapply Forall_impl; [exact HQ|].
      intros [o P] (H1 & H2 & H3 & H4). cbn in *. split; [done|]. cbn. split; [lia|].
      unfold mem', src. apply item_at_move; try done; cbn; lia.
  - apply unmoved_splice; try done; try lia. by eapply below_le; [|exact Hb]; lia.
Qed.

(** ** One step of the program *)

Lemma recrypt_step head upper (s : PruneState) :
  prune_ready k keys s -> 0 <= head -> 0 <= upper <= BLCKSZ -> head + L <= BLCKSZ ->
  exists s1,
    (let* mem := page_mem in
     let* mem := re_encrypt g keys bn head upper L mem in
     on_page (with_bytes mem)) s = (Ret tt, s1)
    /\ prune_ready k keys s1
    /\ page s1 = with_bytes
         (splice (page_bytes (page s)) (Z.to_nat head + h)
            (stream_move k (bn * BLCKSZ + head) (bn * BLCKSZ + upper)
               (take (Z.to_nat L - h) (drop (Z.to_nat head + h) (page_bytes (page s))))))
         (page s).
Proof.
  intros Hr Hh Hu Hin. pose proof Hr as [_ Hm]. rewrite <- Hm in Hin.
  assert (Hhdr : 0 <= sizeof_HeapTupleHeaderData) by lia.
  destruct (re_encrypt_spec g k bn keys Hg Hbn Hhdr (page_bytes (page s)) head upper L s)
    as (s1 & E & Hpg & Hsc & Hr1); [done|lia|lia|lia|lia|lia|].
  mstep (eq_refl : page_mem s = (Ret (page_bytes (page s)), s)). mstep E.
  eexists. split; [reflexivity|]. cbn. rewrite Hpg. split; [|done].
  destruct Hr1 as [Hk _]. split; [done|]. cbn.
  rewrite length_splice; [done|]. rewrite length_stream_move, length_take, length_drop. lia.
Qed.

Lemma move_step upper tail head (s : PruneState) F Q items Ps :
  range_ok (page_bytes (page s)) F Q items Ps upper tail head ->
  (let* mem := page_mem in copy_to_page upper mem head tail) s =
    (Ret tt, {| tde := tde s;
                page := with_bytes (splice (page_bytes (page s)) (Z.to_nat upper)
                  (take (Z.to_nat (tail - head)) (drop (Z.to_nat head) (page_bytes (page s)))))
                  (page s);
                scratch := scratch s |}).
Proof.
  intros [Hm Hh Ht _ _ _ _].
  mstep (eq_refl : page_mem s = (Ret (page_bytes (page s)), s)).
  apply copy_to_page_spec; lia.
Qed.

Lemma set_lp_off_step i upper lp (s : PruneState) :
  pd_linp (page s) !! Z.to_nat i = Some lp ->
  set_lp_off i upper s =
    (Ret tt, {| tde := tde s;
                page := with_linp (<[Z.to_nat i :=
                  {| lp_off := upper; lp_flags := lp_flags lp; lp_len := lp_len lp |}]>
                  (pd_linp (page s))) (page s);
                scratch := scratch s |}).
Proof.
  intros H. unfold set_lp_off. mstep (eq_refl : gets page s = (Ret (page s), s)). by rewrite H.
Qed.

(** The page but for its bytes and line pointers. *)
Definition same_header (p p' : HeapPage) : Prop :=
  pd_lower p' = pd_lower p /\ pd_upper p' = pd_upper p /\ pd_special p' = pd_special p
  /\ has_free_lines p' = has_free_lines p.

(** All tuples with the positions they have or get. *)
Definition all_targets (F Q : list (Z * list Z)) (W Ps : list (list Z)) (head upper : Z)
    : list (Z * list Z) :=
  F ++ (moved head upper <$> Q) ++ ((fun P => (upper, P)) <$> W) ++ targets upper Ps.

Definition readable (mem : list Z) (nP : Z * list Z) : Prop := at_ mem nP.1 nP.1 nP.2.

Lemma placed_readable mem b F : Forall (placed mem b) F -> Forall (readable mem) F.
Proof. intros H. eapply Forall_impl; [exact H|]. by intros nP (_ & _ & ?). Qed.

(** Before the line pointer is set: the first tuple of the range encrypted
    again, and the range moved when there is a gap. *)
Lemma loop_end s F Q W Ps upper tail head last :
  prune_ready k keys s -> len last = L ->
  loop_ok (page_bytes (page s)) F Q W [] Ps upper tail head ->
  exists s', compact_presorted g keys bn [] last upper tail head s = (Ret upper, s')
    /\ prune_ready k keys s'
    /\ Forall (readable (page_bytes (page s'))) (all_targets F Q W [] head upper)
    /\ pd_linp (page s') = pd_linp (page s) /\ same_header (page s) (page s').
Proof.
  intros Hr Hl Hok. cbn [compact_presorted].
  assert (Hmain : forall s1 Q1, page s1 = with_bytes (page_bytes (page s1)) (page s) ->
    prune_ready k keys s1 -> range_ok (page_bytes (page s1)) F Q1 [] Ps upper tail head ->
    exists s', (let* mem := page_mem in copy_to_page upper mem head tail;;; ret upper) s1
                 = (Ret upper, s')
    /\ prune_ready k keys s'
    /\ Forall (readable (page_bytes (page s'))) (F ++ (moved head upper <$> Q1))
    /\ pd_linp (page s') = pd_linp (page s) /\ same_header (page s) (page s')).
  { intros s1 Q1 Hp1 Hr1 Hrg. rewrite <- bind_assoc. mstep (move_step upper tail head s1 _ _ _ _ Hrg).
    destruct (move_range _ _ _ _ _ _ _ _ Hrg) as (Hm' & HF' & _).
    eexists. split; [reflexivity|]. cbn. split; [destruct Hr1 as [Hk _]; by split|].
    split; [by eapply placed_readable|]. by rewrite Hp1. }
  destruct Hok as [Hrg -> -> Ht _|P -> HPl Hp Hin Hrg HQ].
  - rewrite (proj2 (Z.ltb_ge head tail)) by lia. rewrite bind_ret_l.
    destruct (Hmain s []) as (s' & E & H1 & H2 & H3); [by destruct s as [? [] ?]|done|done|].
    exists s'. split; [done|]. split; [done|]. split; [|done].
    exact H2.
  - rewrite (proj2 (Z.ltb_lt head tail)) by lia. rewrite Hl. pose proof Hrg as [Hm Hh Ht _ _ _ _].
    destruct (recrypt_step head upper s Hr) as (s1 & E1 & Hr1 & Hp1); [lia|lia|lia|].
    mstep E1.
    pose proof (recrypt_range _ _ _ _ _ _ _ _ _ HPl Hp Hin Hrg HQ) as Hrg1.
    destruct (Hmain s1 ((head, P) :: Q)) as (s' & E & H1 & H2 & H3);
      [by rewrite Hp1|done|by rewrite Hp1|].
    exists s'. split; [done|]. split; [done|]. split; [|done].
    rewrite Forall_app, fmap_cons, Forall_cons in H2.
    unfold all_targets. rewrite !Forall_app, fmap_cons, Forall_cons.
    unfold moved in H2 at 1. cbn [fst snd] in H2. rewrite Z.sub_diag, Z.add_0_l in H2.
    destruct H2 as (A1 & A2 & A3). split_and!; try done; constructor.
Qed.

(** The first tuple of the range encrypted again, when there is one. *)
Lemma loop_recrypt s F Q W items Ps upper tail head n :
  prune_ready k keys s -> n = L ->
  loop_ok (page_bytes (page s)) F Q W items Ps upper tail head ->
  exists s1 Q1,
    (if head <? tail then
       let* mem := page_mem in
       let* mem := re_encrypt g keys bn head upper n mem in
       on_page (with_bytes mem)
     else ret tt) s = (Ret tt, s1)
    /\ prune_ready k keys s1 /\ page s1 = with_bytes (page_bytes (page s1)) (page s)
    /\ range_ok (page_bytes (page s1)) F Q1 items Ps upper tail head
    /\ (forall R, Forall R (moved head upper <$> Q1) ->
          Forall R ((moved head upper <$> Q) ++ ((fun P => (upper, P)) <$> W)))
    /\ (tail = head -> Q1 = [] /\ match items with it :: _ => itemoff it + A = head | [] => True end).
Proof.
  intros Hr -> Hok. destruct Hok as [Hrg -> -> Ht Hf|P -> HPl Hp Hin Hrg HQ].
  - rewrite (proj2 (Z.ltb_ge head tail)) by lia. exists s, [].
    split; [done|]. split; [done|]. split; [by destruct s as [? [] ?]|]. done.
  - rewrite (proj2 (Z.ltb_lt head tail)) by lia. pose proof Hrg as [Hm Hh Ht _ _ _ _].
    destruct (recrypt_step head upper s Hr) as (s1 & E1 & Hr1 & Hp1); [lia|lia|lia|].
    pose proof (recrypt_range _ _ _ _ _ _ _ _ _ HPl Hp Hin Hrg HQ) as Hrg1.
    exists s1, ((head, P) :: Q). split; [done|]. split; [done|]. split; [by rewrite Hp1|].
    split; [by rewrite Hp1|]. split; [|lia].
    intros R. rewrite !fmap_cons, Forall_app, !Forall_cons. unfold moved at 1. cbn [fst snd].
    rewrite Z.sub_diag, Z.add_0_l. intros [H1 H2]. split; [done|]. split; [done|constructor].
Qed.

(** The next tuple joins the range, after the range was moved when there
    is a gap between them. *)
Lemma loop_join s F Q1 it items P0 Ps upper tail head :
  let move := negb (head =? itemoff it + alignedlen it) && (head <? tail) in
  let tail' := if move then itemoff it + alignedlen it else tail in
  range_ok (page_bytes (page s)) F Q1 (it :: items) (P0 :: Ps) upper tail head ->
  prune_ready k keys s ->
  (tail = head -> Q1 = [] /\ itemoff it + A = head) ->
  exists s2 F' Q',
    (if move then let* mem := page_mem in copy_to_page upper mem head tail else ret tt) s
      = (Ret tt, s2)
    /\ prune_ready k keys s2 /\ page s2 = with_bytes (page_bytes (page s2)) (page s)
    /\ loop_ok (page_bytes (page s2)) F' Q' [P0] items Ps (upper - A) tail' (itemoff it)
    /\ (forall R, Forall R (F' ++ (moved (itemoff it) (upper - A) <$> Q')) ->
          Forall R (F ++ (moved head upper <$> Q1))).
Proof.
  intros move tail' Hrg Hr Hstart. pose proof Hrg as [Hm Hh Ht HFp HQ (Hi0 & Hi & Hb) Hits].
  apply Forall2_cons in Hits as [(HPl & [Hlen1 Hal] & Hat) Hits].
  subst tail' move. rewrite Hal in *.
  destruct (Z.eqb_spec head (itemoff it + A)) as [E|E]; cbn [negb andb].
  - exists s, F, Q1. split; [done|]. split; [done|]. split; [by destruct s as [? [] ?]|].
    split.
    + eapply loop_run; [done|done|done|lia| |].
      * split; try done; try lia.
        by replace (upper - A + (tail - itemoff it)) with (upper + (tail - head)) by lia.
      * eapply Forall_impl; [exact HQ|]. intros [o P] (H1 & H2 & H3 & H4). cbn in *.
        split; [done|]. cbn. split; [lia|]. split; [done|].
        by replace (o - itemoff it + (upper - A)) with (o - head + upper) by lia.
    + intros R. rewrite !Forall_app. intros [H1 H2]. split; [done|].
      erewrite list_fmap_ext; [exact H2|]. intros i [o P] _. unfold moved. cbn. f_equal. lia.
  - destruct (Z.ltb_spec head tail) as [Hlt|Hge].
    2: { destruct Hstart as [-> ?]; lia. }
    cbn [andb]. rewrite (move_step _ _ _ _ _ _ _ _ Hrg).
    destruct (move_range _ _ _ _ _ _ _ _ Hrg) as (Hm' & HF' & Hi').
    eexists _, (F ++ (moved head upper <$> Q1)), []. split; [reflexivity|]. cbn [page tde].
    split; [destruct Hr as [Hk _]; by split|]. split; [done|].
    cbn [page_bytes with_bytes] in *. apply Forall2_cons in Hi' as [(_ & _ & Hat') Hits'].
    split.
    + eapply loop_run; [done|done|done|lia| |constructor].
      split; try done; try lia.
      * by replace (upper - A + (itemoff it + A - itemoff it)) with upper by lia.
    + intros R. by rewrite app_nil_r.
Qed.

Definition linked (s : PruneState) (items : list itemIdCompactData) : Prop :=
  Forall (fun it => is_Some (pd_linp (page s) !! Z.to_nat (offsetindex it))) items.

Lemma linked_insert items (i : nat) (v : ItemId) (l : list ItemId) :
  Forall (fun it => is_Some (l !! Z.to_nat (offsetindex it))) items ->
  Forall (fun it => is_Some (<[i := v]> l !! Z.to_nat (offsetindex it))) items.
Proof.
  intros H. eapply Forall_impl; [exact H|]. intros it.
  rewrite !lookup_lt_is_Some, length_insert. done.
Qed.

(** What a round does for the tuples, and what the rounds after it do. *)
Lemma targets_step (R : Z * list Z -> Prop) F Q Q1 F' Q' W P0 Ps head upper head' :
  Forall R (all_targets F' Q' [P0] Ps head' (upper - A)) ->
  (forall R, Forall R (F' ++ (moved head' (upper - A) <$> Q')) -> Forall R (F ++ (moved head upper <$> Q1))) ->
  (forall R, Forall R (moved head upper <$> Q1) -> Forall R ((moved head upper <$> Q) ++ ((fun P => (upper, P)) <$> W))) ->
  Forall R (all_targets F Q W (P0 :: Ps) head upper).
Proof.
  unfold all_targets. intros H2 HR2 HR1. rewrite app_assoc, !Forall_app in H2.
  destruct H2 as (H2 & H2' & H2''). rewrite fmap_cons, Forall_cons in H2'.
  apply Forall_app in H2. specialize (HR2 _ H2). apply Forall_app in HR2 as [HR2 HQ1].
  specialize (HR1 _ HQ1). apply Forall_app in HR1 as [HQ HW]. destruct H2' as [H2' _].
  rewrite !Forall_app. cbn [targets]. by rewrite Forall_cons.
Qed.

Lemma compact_presorted_spec items : forall Ps s last F Q W upper tail head,
  prune_ready k keys s -> (items = [] -> len last = L) -> linked s items ->
  loop_ok (page_bytes (page s)) F Q W items Ps upper tail head ->
  exists s',
    compact_presorted g keys bn items last upper tail head s =
      (Ret (upper - A * Z.of_nat (length items)), s')
    /\ prune_ready k keys s'
    /\ Forall (readable (page_bytes (page s'))) (all_targets F Q W Ps head upper)
    /\ pd_linp (page s') = relink items upper (pd_linp (page s))
    /\ same_header (page s) (page s').
Proof.
  induction items as [|it items IH]; intros Ps s last F Q W upper tail head Hr Hlast Hlk Hok.
  - destruct (loop_end s F Q W Ps upper tail head last Hr (Hlast eq_refl) Hok)
      as (s' & E & H1 & H2 & H3).
    exists s'. cbn [length]. rewrite Z.mul_0_r, Z.sub_0_r. split; [done|]. split; [done|].
    split; [|done]. destruct Hok as [Hrg|P ? ? ? ? Hrg]; destruct Hrg as [_ _ _ _ _ _ Hi];
      apply Forall2_nil_inv_l in Hi as ->; exact H2.
  - assert (exists P0 Ps', Ps = P0 :: Ps' /\ len it = L) as (P0 & Ps' & -> & Hl).
    { destruct Hok as [Hrg|P ? ? ? ? Hrg]; destruct Hrg as [_ _ _ _ _ _ Hi];
        apply Forall2_cons_inv_l in Hi as (P0 & Ps' & (_ & [Hl _] & _) & _ & ->); eauto. }
    destruct (loop_recrypt s F Q W (it :: items) (P0 :: Ps') upper tail head (len it) Hr Hl Hok)
      as (s1 & Q1 & E1 & Hr1 & Hp1 & Hrg & HR1 & Hst).
    destruct (loop_join s1 F Q1 it items P0 Ps' upper tail head Hrg Hr1 Hst)
      as (s2 & F' & Q' & E2 & Hr2 & Hp2 & Hok2 & HR2).
    cbn [compact_presorted]. mstep E1. cbv zeta. mstep E2.
    apply Forall_cons in Hlk as [[lp Hlp] Hlk].
    assert (Hlinp : pd_linp (page s2) = pd_linp (page s)) by (by rewrite Hp2, Hp1).
    assert (Hal : alignedlen it = A).
    { destruct Hrg as [_ _ _ _ _ _ Hi]. by apply Forall2_cons in Hi as [(_ & [_ Ha] & _) _]. }
    rewrite Hal in *. rewrite <- Hlinp in Hlp. mstep (set_lp_off_step _ (upper - A) lp s2 Hlp).
    set (s3 := {| tde := tde s2; page := with_linp _ (page s2); scratch := scratch s2 |}).
    edestruct (IH Ps' s3 it) as (s' & E & H1 & H2 & H3 & H4);
      [|intros _; exact Hl| |exact Hok2|].
    + destruct Hr2. by split.
    + unfold linked. cbn. apply linked_insert. by rewrite Hlinp.
    + exists s'. rewrite E. split; [do 2 f_equal; cbn [length]; lia|]. split; [done|].
      split; [|split].
      * by eapply targets_step.
      * rewrite H3. cbn [relink]. rewrite <- Hlinp, Hlp. done.
      * destruct H4 as (A1 & A2 & A3 & A4). cbn in A1, A2, A3, A4. unfold same_header.
        rewrite A1, A2, A3, A4, Hp2, Hp1. done.
Qed.

(** ** The whole routine *)

(** The line pointer of an item says where it is. *)
Definition pointed (linp : list ItemId) (it : itemIdCompactData) : Prop :=
  exists lp, linp !! Z.to_nat (offsetindex it) = Some lp /\ lp_off lp = itemoff it.

Lemma skip_spec rest : forall it Ps upper mem linp upper' items' last,
  skip_in_place it rest upper = (upper', items', last) ->
  Z.of_nat (length mem) = BLCKSZ -> 0 <= upper <= BLCKSZ ->
  below upper (it :: rest) -> Forall2 (unmoved mem) (it :: rest) Ps ->
  Forall (pointed linp) (it :: rest) ->
  exists skipped Pskip Ps',
    it :: rest = skipped ++ items' /\ Ps = Pskip ++ Ps'
    /\ upper' = upper - A * Z.of_nat (length skipped) /\ 0 <= upper'
    /\ Forall (placed mem upper') (targets upper Pskip)
    /\ length Pskip = length skipped /\ relink skipped upper linp = linp
    /\ below upper' items' /\ Forall2 (unmoved mem) items' Ps'
    /\ match items' with
       | last' :: _ => last' = last
       | [] => upper' = itemoff last
       end.
Proof.
  induction rest as [|it' rest IH]; intros it Ps upper mem linp upper' items' last;
    cbn [skip_in_place]; intros Hskip Hm Hu (Hi0 & Hi & Hb) Hits Hptr;
    pose proof Hits as Hits0; apply Forall2_cons_inv_l in Hits as (P0 & Ps0 & Hun & Hits & ->);
    pose proof Hun as (HPl & [Hlen1 Hal] & Hat); rewrite Hal in Hskip;
    apply Forall_cons in Hptr as [(lp & Hlp & Hoff) Hptr];
    destruct (Z.eqb_spec upper (itemoff it + A)) as [E|E]; cbn [negb] in Hskip.
  2, 4: injection Hskip as <- <- <-; exists [], [], (P0 :: Ps0); cbn [length app targets relink];
    rewrite Z.mul_0_r, Z.sub_0_r; split_and!; try done; lia.
  - injection Hskip as <- <- <-. apply Forall2_nil_inv_l in Hits as ->.
    exists [it], [P0], []. cbn [length app targets relink below].
    rewrite Hlp. split; [done|]. split; [done|]. split; [lia|]. split; [lia|].
    split; [constructor; [|constructor]; split; [done|]; cbn; split; [lia|];
            by replace (upper - A) with (itemoff it) by lia|].
    split; [done|]. split; [|split; [done|split; [constructor|lia]]].
    apply list_insert_id. rewrite Hlp. f_equal. destruct lp; cbn in *. f_equal. lia.
  - destruct (IH it' Ps0 (upper - A) mem linp upper' items' last Hskip Hm ltac:(lia)) as
      (sk & Pk & Ps1 & -> & -> & Hu' & Hu0 & Hpl & Hlk & Hrl & Hb' & Hi' & Hlast);
      [by replace (upper - A) with (itemoff it) by lia|done|done|].
    assert (0 <= A * Z.of_nat (length sk)) by nia.
    exists (it :: sk), (P0 :: Pk), Ps1. cbn [length app targets relink]. rewrite Hlp.
    split; [done|]. split; [done|]. split; [lia|]. split; [done|]. split; [|split; [lia|]].
    + constructor; [|done]. split; [done|]. cbn. split; [lia|].
      by replace (upper - A) with (itemoff it) by lia.
    + split; [|done]. rewrite list_insert_id; [done|]. rewrite Hlp. f_equal.
      destruct lp; cbn in *. f_equal. lia.
Qed.

Lemma skip_last rest : forall it upper upper' items last,
  skip_in_place it rest upper = (upper', items, last) -> last ∈ it :: rest.
Proof.
  induction rest as [|it' rest IH]; intros it upper upper' items last; cbn [skip_in_place];
    destruct (negb _); intros E.
  1, 2, 3: injection E as _ _ <-; by left.
  right. by eapply IH.
Qed.

Lemma targets_app upper Ps Ps' :
  targets upper (Ps ++ Ps') =
    targets upper Ps ++ targets (upper - A * Z.of_nat (length Ps)) Ps'.
Proof.
  revert upper. induction Ps as [|P Ps IH]; intros upper; cbn [targets app length].
  - by rewrite Z.mul_0_r, Z.sub_0_r.
  - rewrite IH. f_equal. f_equal. f_equal. lia.
Qed.

Lemma relink_app upper items items' linp :
  relink (items ++ items') upper linp =
    relink items' (upper - A * Z.of_nat (length items)) (relink items upper linp).
Proof.
  revert upper linp. induction items as [|it items IH]; intros upper linp; cbn [relink app length].
  - by rewrite Z.mul_0_r, Z.sub_0_r.
  - rewrite IH. f_equal. lia.
Qed.

(** Nothing to move. *)
Lemma compact_nothing last upper start (s : PruneState) :
  0 <= start <= BLCKSZ -> 0 <= upper <= BLCKSZ -> prune_ready k keys s ->
  exists s', compact_presorted g keys bn [] last upper start start s = (Ret upper, s')
    /\ page s' = page s /\ prune_ready k keys s'.
Proof.
  intros Hs Hu Hr. pose proof Hr as [Hk Hm]. cbn [compact_presorted].
  rewrite Z.ltb_irrefl, bind_ret_l. mstep (eq_refl : page_mem s = (Ret (page_bytes (page s)), s)).
  rewrite (bind_Ret _ _ _ _ _ (copy_to_page_spec upper (page_bytes (page s)) start start s
    ltac:(lia) ltac:(lia) ltac:(lia) ltac:(lia))).
  eexists. split; [reflexivity|]. cbn [page]. rewrite Z.sub_diag. cbn [Z.to_nat take].
  rewrite splice_nil. split; [by destruct s as [? [] ?]|]. by split.
Qed.

Lemma presorted_spec it rest Ps (s : PruneState) rel :
  prune_ready k keys s -> GetRelationKeys g rel (tde s) = (Ret keys, tde s) ->
  0 <= pd_special (page s) <= BLCKSZ -> below (pd_special (page s)) (it :: rest) ->
  Forall2 (unmoved (page_bytes (page s))) (it :: rest) Ps ->
  Forall (pointed (pd_linp (page s))) (it :: rest) ->
  exists s', pgtde_compactify_tuples g rel bn it rest true s = (Ret tt, s')
    /\ Forall (readable (page_bytes (page s'))) (targets (pd_special (page s)) Ps)
    /\ pd_upper (page s') = pd_special (page s) - A * Z.of_nat (length (it :: rest))
    /\ pd_linp (page s') = relink (it :: rest) (pd_special (page s)) (pd_linp (page s))
    /\ Z.of_nat (length (page_bytes (page s'))) = BLCKSZ.
Proof.
  intros Hr Hkeys Hsp Hb Hits Hptr. pose proof Hr as [_ Hm].
  unfold pgtde_compactify_tuples.
  assert (Hget : in_tde (GetRelationKeys g rel) s = (Ret keys, s))
    by (unfold in_tde, zoom; rewrite Hkeys; by destruct s).
  mstep Hget. rewrite bind_assoc. mstep (eq_refl : gets page s = (Ret (page s), s)).
  destruct (skip_in_place it rest (pd_special (page s))) as [[upper items] last] eqn:Hskip.
  destruct (skip_spec _ _ _ _ _ _ _ _ _ Hskip Hm Hsp Hb Hits Hptr)
    as (sk & Pk & Ps' & Eit & -> & Hu & Hu0 & Hpl & Hlk & Hrl & Hb' & Hi' & Hlast).
  rewrite Eit, length_app, relink_app, Hrl, targets_app, Hlk, <- Hu.
  assert (Hun : Forall (fun it => is_Some (pd_linp (page s) !! Z.to_nat (offsetindex it))) items).
  { rewrite Eit, Forall_app in Hptr. destruct Hptr as [_ Hptr].
    eapply Forall_impl; [exact Hptr|]. intros x (lp & -> & _). by eexists. }
  destruct items as [|it1 items].
  - assert (Hlast_al : alignedlen last = A /\ 0 <= itemoff last + A <= BLCKSZ).
    { assert (Hin : last ∈ it :: rest) by (by eapply skip_last).
      apply list_elem_of_lookup in Hin as [i Hi].
      destruct (Forall2_lookup_l _ _ _ _ _ Hits Hi) as (P & _ & (_ & [_ Ha] & _)).
      split; [done|]. rewrite <- Hlast.
      apply (f_equal length) in Eit. rewrite app_nil_r in Eit. cbn in Eit. nia. }
    destruct Hlast_al as [-> Hstart].
    destruct (compact_nothing last upper (itemoff last + A) s Hstart ltac:(lia) Hr)
      as (s1 & E1 & Hp1 & Hr1).
    mstep E1. eexists. split; [reflexivity|]. cbn. rewrite Hp1.
    apply Forall2_nil_inv_l in Hi' as ->. cbn. rewrite app_nil_r, Nat.add_0_r.
    split; [by eapply placed_readable|]. split; [lia|]. by split.
  - subst it1. pose proof Hi' as Hi2. apply Forall2_cons_inv_l in Hi2 as (P1 & Ps1 & (_ & [_ Hal] & _) & _ & _).
    rewrite Hal. destruct Hb' as (Hi0 & Hin & Hb').
    assert (upper <= pd_special (page s)) by nia.
    destruct (compact_presorted_spec (last :: items) Ps' s last (targets (pd_special (page s)) Pk)
      [] [] upper (itemoff last + A) (itemoff last + A) Hr ltac:(done) Hun)
      as (s1 & E1 & Hr1 & HT1 & Hl1 & Hh1).
    { apply loop_start; try done. split; try done; try lia.
      - rewrite Z.sub_diag, Z.add_0_r. exact Hpl. }
    mstep E1. eexists. split; [reflexivity|]. cbn [page page_bytes with_upper pd_upper pd_linp].
    split; [exact HT1|]. split; [lia|]. split; [done|]. by destruct Hr1.
Qed.

(** What the new line pointers are, item by item. *)
Lemma relink_other items upper linp i :
  (forall it, it ∈ items -> Z.to_nat (offsetindex it) <> i) ->
  relink items upper linp !! i = linp !! i.
Proof.
  revert upper linp. induction items as [|it items IH]; intros upper linp Hi; [done|].
  cbn [relink]. rewrite IH by (intros x Hx; apply Hi; by right).
  destruct (linp !! Z.to_nat (offsetindex it)); [|done].
  apply list_lookup_insert_ne, Hi. by left.
Qed.

Lemma relink_lookup items upper linp (i : nat) it lp :
  NoDup ((fun it => Z.to_nat (offsetindex it)) <$> items) ->
  items !! i = Some it -> linp !! Z.to_nat (offsetindex it) = Some lp ->
  relink items upper linp !! Z.to_nat (offsetindex it) =
    Some {| lp_off := upper - A * (Z.of_nat i + 1); lp_flags := lp_flags lp; lp_len := lp_len lp |}.
Proof.
  revert upper linp i. induction items as [|it0 items IH]; intros upper linp i Hnd Hi Hlp; [done|].
  rewrite fmap_cons, NoDup_cons in Hnd. destruct Hnd as [Hnew Hnd]. destruct i as [|i].
  - injection Hi as ->. cbn [relink]. rewrite Hlp.
    rewrite relink_other.
    + rewrite list_lookup_insert_eq by (by eapply lookup_lt_Some). do 2 f_equal. lia.
    + intros x Hx E. apply Hnew. rewrite <- E. apply list_elem_of_fmap. by exists x.
  - cbn [relink]. assert (Hne : Z.to_nat (offsetindex it0) <> Z.to_nat (offsetindex it)).
    { intros E. apply Hnew. rewrite E. apply list_elem_of_fmap. exists it. split; [done|].
      by eapply list_elem_of_lookup_2. }
    rewrite (IH (upper - A) _ i Hnd Hi); [do 2 f_equal; lia|].
    destruct (linp !! Z.to_nat (offsetindex it0)); [|done]. by rewrite list_lookup_insert_ne.
Qed.

Lemma targets_lookup Ps upper (i : nat) P :
  Ps !! i = Some P -> targets upper Ps !! i = Some (upper - A * (Z.of_nat i + 1), P).
Proof.
  revert upper i. induction Ps as [|P0 Ps IH]; intros upper [|i] Hi; [done|done| |].
  - injection Hi as ->. cbn [targets lookup list_lookup]. do 2 f_equal. lia.
  - cbn [targets]. rewrite lookup_cons. rewrite (IH _ i Hi). do 2 f_equal. lia.
Qed.

(** ** Items in any order

    The other branch reads the tuples from a copy of the page. *)

Definition clear_of (off : Z) (x : itemIdCompactData) : Prop := itemoff x + A <= off \/ off + A <= itemoff x.

Fixpoint apart (items : list itemIdCompactData) : Prop :=
  match items with
  | [] => True
  | it :: items => Forall (clear_of (itemoff it)) items /\ apart items
  end.

Definition inside (lo hi : Z) (items : list itemIdCompactData) : Prop :=
  Forall (fun x => lo <= itemoff x /\ itemoff x + A <= hi) items.

Lemma unmoved_clear mem off o src items Ps :
  Z.of_nat (length mem) = BLCKSZ -> 0 <= off -> off <= o -> o + Z.of_nat (length src) <= off + A ->
  o + Z.of_nat (length src) <= BLCKSZ -> Forall (clear_of off) items -> inside 0 BLCKSZ items ->
  Forall2 (unmoved mem) items Ps -> Forall2 (unmoved (splice mem (Z.to_nat o) src)) items Ps.
Proof.
  intros Hm Ho H1 H2 H3 Hc Hin H. induction H as [|it P items Ps (HPl & Hsl & Hat) _ IH]; [constructor|].
  apply Forall_cons in Hc as [Hc Hc']. apply Forall_cons in Hin as [Hi Hin]. constructor; [|by apply IH].
  split; [done|]. split; [done|]. unfold clear_of in Hc. apply item_at_splice_out; try done; cbn; lia.
Qed.

(** The tuples to come are in the copy [scr], the run of which the first is
    at [head] goes to [upper] of the page [mem]. *)
Record run_ok (scr mem : list Z) (F Q : list (Z * list Z)) (items : list itemIdCompactData)
    (Ps : list (list Z)) (upper tail head : Z) : Prop := {
  u_lens : Z.of_nat (length scr) = BLCKSZ /\ Z.of_nat (length mem) = BLCKSZ;
  u_head : 0 <= head <= tail /\ tail <= BLCKSZ;
  u_upper : A * Z.of_nat (length items) <= upper /\ upper + (tail - head) <= BLCKSZ;
  u_placed : Forall (placed mem (upper + (tail - head))) F;
  u_pending : Forall (pending scr head tail head upper) Q;
  u_apart : apart items /\ inside 0 BLCKSZ items;
  u_items : Forall2 (unmoved scr) items Ps;
}.

(** Nothing to move yet, or a first tuple that is encrypted for where it was. *)
Inductive scratch_ok (scr mem : list Z) (F Q : list (Z * list Z)) (W : list (list Z))
    (items : list itemIdCompactData) (Ps : list (list Z)) (upper tail head : Z) : Prop :=
| scratch_start (Hr : run_ok scr mem F Q items Ps upper tail head) (HW : W = []) (HQ : Q = [])
    (Ht : tail = head) (Hfirst : match items with it :: _ => itemoff it + A = head | [] => True end)
| scratch_run P (HW : W = [P]) (HP : Z.of_nat (length P) = L)
    (Hp : at_ scr head head P) (Hin : head + A <= tail) (Hc : Forall (clear_of head) items)
    (Hr : run_ok scr mem F [] items Ps upper tail head)
    (HQ : Forall (pending scr (head + A) tail head upper) Q).

Lemma recrypt_run scr mem F Q P items Ps upper tail head :
  Z.of_nat (length P) = L -> at_ scr head head P -> head + A <= tail -> Forall (clear_of head) items ->
  run_ok scr mem F [] items Ps upper tail head ->
  Forall (pending scr (head + A) tail head upper) Q ->
  let scr' := splice scr (Z.to_nat head + h)
    (stream_move k (bn * BLCKSZ + head) (bn * BLCKSZ + upper)
       (take (Z.to_nat L - h) (drop (Z.to_nat head + h) scr))) in
  run_ok scr' mem F ((head, P) :: Q) items Ps upper tail head.
Proof.
  intros HPl Hat Hin Hc [[Hm Hm2] [Hh Ht] Hu HFp _ [Ha Hins] Hi] HQ scr'.
  set (src := stream_move _ _ _ _) in scr'.
  assert (Hsl : Z.of_nat (length src) = L - sizeof_HeapTupleHeaderData).
  { unfold src. rewrite length_stream_move, length_take, length_drop. lia. }
  assert (Hscr' : scr' = splice scr (Z.to_nat (head + sizeof_HeapTupleHeaderData)) src)
    by (unfold scr'; f_equal; lia).
  split; try done.
  - split; [|done]. unfold scr'. rewrite length_splice; lia.
  - constructor.
    + split; [done|]. cbn. split; [lia|]. split; [lia|]. rewrite Z.sub_diag, Z.add_0_l.
      unfold scr', src. replace (Z.to_nat L) with (length P) by lia.
      apply item_at_re_encrypt; [lia|lia|lia|done].
    + eapply Forall_impl; [exact HQ|]. intros [o P'] (H1 & H2 & H3 & H4). cbn in *.
      split; [done|]. split; [cbn; lia|]. split; [done|]. cbn. rewrite Hscr'.
      apply item_at_splice_out; try done; cbn; lia.
  - rewrite Hscr'. eapply (unmoved_clear _ head); try done; lia.
Qed.

Lemma move_run scr mem F Q items Ps upper tail head :
  run_ok scr mem F Q items Ps upper tail head ->
  let mem' := splice mem (Z.to_nat upper) (take (Z.to_nat (tail - head)) (drop (Z.to_nat head) scr)) in
  Z.of_nat (length mem') = BLCKSZ /\ Forall (placed mem' upper) (F ++ (moved head upper <$> Q)).
Proof.
  intros [[Hm Hm2] [Hh Ht] Hu HFp HQ _ _] mem'. assert (0 <= upper) by nia.
  set (src := take _ _) in mem'.
  assert (Hsl : Z.of_nat (length src) = tail - head) by (unfold src; rewrite length_take, length_drop; lia).
  split; [unfold mem'; rewrite length_splice; lia|]. apply Forall_app. split.
  - eapply Forall_impl; [apply (placed_splice mem upper src (upper + (tail - head))); try done; lia|].
    intros [n P] (H1 & H2 & H3). split; [done|]. split; [cbn in *; lia|done].
  - apply Forall_fmap. eapply Forall_impl; [exact HQ|].
    intros [o P] (H1 & H2 & H3 & H4). cbn in *. split; [done|]. cbn. split; [lia|].
    unfold mem', src. apply item_at_move; try done; cbn; lia.
Qed.

Lemma recrypt_scratch_step head upper (s : PruneState) :
  prune_ready k keys s -> Z.of_nat (length (scratch s)) = BLCKSZ ->
  0 <= head -> 0 <= upper <= BLCKSZ -> head + L <= BLCKSZ ->
  exists s1,
    (let* scr := scratch_mem in
     let* scr := re_encrypt g keys bn head upper L scr in
     set_scratch scr) s = (Ret tt, s1)
    /\ prune_ready k keys s1 /\ page s1 = page s
    /\ scratch s1 = splice (scratch s) (Z.to_nat head + h)
            (stream_move k (bn * BLCKSZ + head) (bn * BLCKSZ + upper)
               (take (Z.to_nat L - h) (drop (Z.to_nat head + h) (scratch s)))).
Proof.
  intros Hr Hm Hh Hu Hin. assert (Hhdr : 0 <= sizeof_HeapTupleHeaderData) by lia.
  destruct (re_encrypt_spec g k bn keys Hg Hbn Hhdr (scratch s) head upper L s)
    as (s1 & E & Hpg & Hsc & Hr1); [done|lia|lia|lia|lia|lia|].
  mstep (eq_refl : scratch_mem s = (Ret (scratch s), s)). mstep E.
  eexists. split; [reflexivity|]. cbn. destruct Hr1 as [Hk1 Hm1]. by split_and!.
Qed.

(** One round, up to the line pointer. *)
Lemma scratch_recrypt s F Q W items Ps upper tail head n :
  prune_ready k keys s -> n = L ->
  scratch_ok (scratch s) (page_bytes (page s)) F Q W items Ps upper tail head ->
  exists s1 Q1,
    (if head <? tail then
       let* scr := scratch_mem in
       let* scr := re_encrypt g keys bn head upper n scr in
       set_scratch scr
     else ret tt) s = (Ret tt, s1)
    /\ prune_ready k keys s1 /\ page s1 = page s
    /\ run_ok (scratch s1) (page_bytes (page s1)) F Q1 items Ps upper tail head
    /\ (forall R, Forall R (moved head upper <$> Q1) ->
          Forall R ((moved head upper <$> Q) ++ ((fun P => (upper, P)) <$> W)))
    /\ (tail = head -> Q1 = [] /\ match items with it :: _ => itemoff it + A = head | [] => True end).
Proof.
  intros Hr -> Hok. destruct Hok as [Hrg -> -> Ht Hf|P -> HPl Hp Hin Hc Hrg HQ].
  - rewrite (proj2 (Z.ltb_ge head tail)) by lia. exists s, []. by split_and!.
  - rewrite (proj2 (Z.ltb_lt head tail)) by lia. pose proof Hrg as [[Hm _] [Hh Ht] Hu _ _ _ _].
    destruct (recrypt_scratch_step head upper s Hr Hm) as (s1 & E1 & Hr1 & Hp1 & Hs1); [lia|nia|lia|].
    pose proof (recrypt_run _ _ _ _ _ _ _ _ _ _ HPl Hp Hin Hc Hrg HQ) as Hrg1.
    exists s1, ((head, P) :: Q). split; [done|]. split; [done|]. split; [done|]. rewrite Hp1, Hs1. split; [done|].
    split; [|lia]. intros R. rewrite !fmap_cons, Forall_app, !Forall_cons. unfold moved at 1. cbn [fst snd].
    rewrite Z.sub_diag, Z.add_0_l. intros [H1 H2]. split; [done|]. split; [done|constructor].
Qed.

Lemma move_run_step upper tail head (s : PruneState) F Q items Ps :
  run_ok (scratch s) (page_bytes (page s)) F Q items Ps upper tail head ->
  (let* scr := scratch_mem in copy_to_page upper scr head tail) s =
    (Ret tt, {| tde := tde s;
                page := with_bytes (splice (page_bytes (page s)) (Z.to_nat upper)
                  (take (Z.to_nat (tail - head)) (drop (Z.to_nat head) (scratch s)))) (page s);
                scratch := scratch s |}).
Proof.
  intros [[Hm Hm2] Hh Hu _ _ _ _]. mstep (eq_refl : scratch_mem s = (Ret (scratch s), s)).
  apply copy_to_page_spec; nia.
Qed.

Lemma scratch_join s F Q1 it items P0 Ps upper tail head :
  let move := negb (head =? itemoff it + alignedlen it) in
  let tail' := if move then itemoff it + alignedlen it else tail in
  run_ok (scratch s) (page_bytes (page s)) F Q1 (it :: items) (P0 :: Ps) upper tail head ->
  prune_ready k keys s ->
  (tail = head -> Q1 = [] /\ itemoff it + A = head) ->
  exists s2 F' Q',
    (if move then let* scr := scratch_mem in copy_to_page upper scr head tail else ret tt) s = (Ret tt, s2)
    /\ prune_ready k keys s2 /\ page s2 = with_bytes (page_bytes (page s2)) (page s)
    /\ scratch_ok (scratch s2) (page_bytes (page s2)) F' Q' [P0] items Ps (upper - A) tail' (itemoff it)
    /\ (forall R, Forall R (F' ++ (moved (itemoff it) (upper - A) <$> Q')) ->
          Forall R (F ++ (moved head upper <$> Q1))).
Proof.
  intros move tail' Hrg Hr Hstart. pose proof Hrg as [[Hm Hm2] [Hh Ht] Hu HFp HQ [[Hc Ha] Hins] Hits].
  apply Forall2_cons in Hits as [(HPl & [Hlen1 Hal] & Hat) Hits]. apply Forall_cons in Hins as [[Hi0 Hi1] Hins].
  cbn [length] in Hu. subst tail' move. rewrite Hal in *.
  destruct (Z.eqb_spec head (itemoff it + A)) as [E|E]; cbn [negb].
  - exists s, F, Q1. split; [done|]. split; [done|]. split; [by destruct s as [? [] ?]|]. split.
    + eapply scratch_run; [done|done|done|lia|done| |].
      * split; try done; try lia. by replace (upper - A + (tail - itemoff it)) with (upper + (tail - head)) by lia.
      * eapply Forall_impl; [exact HQ|]. intros [o P] (H1 & H2 & H3 & H4). cbn in *.
        split; [done|]. cbn. split; [lia|]. split; [done|].
        by replace (o - itemoff it + (upper - A)) with (o - head + upper) by lia.
    + intros R. rewrite !Forall_app. intros [H1 H2]. split; [done|].
      erewrite list_fmap_ext; [exact H2|]. intros i [o P] _. unfold moved. cbn. f_equal. lia.
  - rewrite (move_run_step _ _ _ _ _ _ _ _ Hrg). destruct (move_run _ _ _ _ _ _ _ _ _ Hrg) as (Hm' & HF').
    eexists _, (F ++ (moved head upper <$> Q1)), []. split; [reflexivity|]. cbn [page tde scratch].
    split; [destruct Hr as [Hk _]; by split|]. split; [done|]. cbn [page_bytes with_bytes] in *. split.
    + eapply scratch_run; [done|done|done|lia|done| |constructor]. split; try done; try lia.
      by replace (upper - A + (itemoff it + A - itemoff it)) with upper by lia.
    + intros R. by rewrite app_nil_r.
Qed.

Lemma scratch_end s F Q W upper tail head last :
  prune_ready k keys s -> len last = L ->
  scratch_ok (scratch s) (page_bytes (page s)) F Q W [] [] upper tail head ->
  exists s', compact_scratch g keys bn [] last upper tail head s = (Ret upper, s')
    /\ prune_ready k keys s'
    /\ Forall (readable (page_bytes (page s'))) (all_targets F Q W [] head upper)
    /\ pd_linp (page s') = pd_linp (page s) /\ same_header (page s) (page s').
Proof.
  intros Hr Hl Hok. cbn [compact_scratch].
  destruct (scratch_recrypt s F Q W [] [] upper tail head (len last) Hr Hl Hok) as (s1 & Q1 & E1 & [Hk1 _] & Hp1 & Hrg & HR & _).
  mstep E1. rewrite <- bind_assoc. mstep (move_run_step _ _ _ _ _ _ _ _ Hrg).
  destruct (move_run _ _ _ _ _ _ _ _ _ Hrg) as (Hm' & HF'). eexists. split; [reflexivity|]. cbn.
  split; [by split|]. rewrite Hp1 in *. split; [|by split].
  apply placed_readable in HF'. apply Forall_app in HF' as [H1 H2]. specialize (HR _ H2).
  unfold all_targets. rewrite !Forall_app in *. cbn [targets]. by split_and!; try apply HR.
Qed.

Lemma compact_scratch_spec items : forall Ps s last F Q W upper tail head,
  prune_ready k keys s -> (items = [] -> len last = L) -> linked s items ->
  scratch_ok (scratch s) (page_bytes (page s)) F Q W items Ps upper tail head ->
  exists s',
    compact_scratch g keys bn items last upper tail head s = (Ret (upper - A * Z.of_nat (length items)), s')
    /\ prune_ready k keys s'
    /\ Forall (readable (page_bytes (page s'))) (all_targets F Q W Ps head upper)
    /\ pd_linp (page s') = relink items upper (pd_linp (page s))
    /\ same_header (page s) (page s').
Proof.
  induction items as [|it items IH]; intros Ps s last F Q W upper tail head Hr Hlast Hlk Hok.
  - assert (Ps = []) as ->.
    { destruct Hok as [Hrg|P ? ? ? ? ? Hrg]; destruct Hrg as [_ _ _ _ _ _ Hi]; by apply Forall2_nil_inv_l in Hi. }
    cbn [length]. rewrite Z.mul_0_r, Z.sub_0_r. apply scratch_end; auto.
  - assert (exists P0 Ps', Ps = P0 :: Ps' /\ len it = L /\ alignedlen it = A) as (P0 & Ps' & -> & Hl & Hal).
    { destruct Hok as [Hrg|P ? ? ? ? ? Hrg]; destruct Hrg as [_ _ _ _ _ _ Hi];
        apply Forall2_cons_inv_l in Hi as (P0 & Ps' & (_ & [Hl Ha] & _) & _ & ->); eauto. }
    destruct (scratch_recrypt s F Q W (it :: items) (P0 :: Ps') upper tail head (len it) Hr Hl Hok)
      as (s1 & Q1 & E1 & Hr1 & Hp1 & Hrg & HR1 & Hst).
    destruct (scratch_join s1 F Q1 it items P0 Ps' upper tail head Hrg Hr1 Hst)
      as (s2 & F' & Q' & E2 & Hr2 & Hp2 & Hok2 & HR2).
    cbn [compact_scratch]. mstep E1. cbv zeta. mstep E2. apply Forall_cons in Hlk as [[lp Hlp] Hlk].
    assert (Hlinp : pd_linp (page s2) = pd_linp (page s)) by (by rewrite Hp2, Hp1).
    rewrite Hal in *. rewrite <- Hlinp in Hlp. mstep (set_lp_off_step _ (upper - A) lp s2 Hlp).
    set (s3 := {| tde := tde s2; page := with_linp _ (page s2); scratch := scratch s2 |}).
    edestruct (IH Ps' s3 it) as (s' & E & H1 & H2 & H3 & H4); [|intros _; exact Hl| |exact Hok2|].
    + destruct Hr2. by split.
    + unfold linked. cbn. apply linked_insert. by rewrite Hlinp.
    + exists s'. rewrite E. split; [do 2 f_equal; cbn [length]; lia|]. split; [done|]. split; [|split].
      * by eapply targets_step.
      * rewrite H3. cbn [relink]. rewrite <- Hlinp, Hlp. done.
      * destruct H4 as (A1 & A2 & A3 & A4). cbn in A1, A2, A3, A4. unfold same_header.
        rewrite A1, A2, A3, A4, Hp2, Hp1. done.
Qed.

(** *** Filling the copy *)

Lemma skip_apart rest : forall it Ps lo upper mem linp upper' items' last,
  skip_in_place it rest upper = (upper', items', last) -> 0 <= lo ->
  apart (it :: rest) -> inside lo upper (it :: rest) -> Forall2 (unmoved mem) (it :: rest) Ps ->
  Forall (pointed linp) (it :: rest) ->
  exists skipped Pskip Ps',
    it :: rest = skipped ++ items' /\ Ps = Pskip ++ Ps'
    /\ upper' = upper - A * Z.of_nat (length skipped) /\ lo <= upper'
    /\ Forall (placed mem upper') (targets upper Pskip)
    /\ length Pskip = length skipped /\ relink skipped upper linp = linp
    /\ apart items' /\ inside lo upper' items' /\ Forall2 (unmoved mem) items' Ps'
    /\ match items' with last' :: _ => last' = last | [] => upper' = itemoff last end.
Proof.
  induction rest as [|it' rest IH]; intros it Ps lo upper mem linp upper' items' last;
    cbn [skip_in_place]; intros Hskip Hlo [Hc Ha] Hin Hits Hptr;
    pose proof Hin as [[Hi0 Hi] Hin']%Forall_cons;
    pose proof Hits as Hits0; apply Forall2_cons_inv_l in Hits as (P0 & Ps0 & Hun & Hits & ->);
    pose proof Hun as (HPl & [Hlen1 Hal] & Hat); rewrite Hal in Hskip;
    pose proof Hptr as [(lp & Hlp & Hoff) Hptr']%Forall_cons;
    destruct (Z.eqb_spec upper (itemoff it + A)) as [E|E]; cbn [negb] in Hskip.
  2, 4: injection Hskip as <- <- <-; exists [], [], (P0 :: Ps0); cbn [length app targets relink];
    rewrite Z.mul_0_r, Z.sub_0_r; split_and!; try done; lia.
  all: assert (Hlp' : <[Z.to_nat (offsetindex it) := {| lp_off := upper - A; lp_flags := lp_flags lp; lp_len := lp_len lp |}]> linp = linp)
    by (apply list_insert_id; rewrite Hlp; f_equal; destruct lp; cbn in *; f_equal; lia).
  all: assert (Hpl : placed mem (itemoff it) (upper - A, P0))
    by (split; [done|]; cbn; split; [lia|]; by replace (upper - A) with (itemoff it) by lia).
  - injection Hskip as <- <- <-. apply Forall2_nil_inv_l in Hits as ->.
    exists [it], [P0], []. cbn [length app targets relink]. rewrite Hlp, Hlp'.
    split_and!; try done; try lia; try constructor; [|constructor]. by replace (upper - A) with (itemoff it) at 1 by lia.
  - assert (Hin2 : inside lo (upper - A) (it' :: rest)).
    { rewrite Forall_forall in Hc. rewrite Forall_forall in Hin'. apply Forall_forall. intros x Hx.
      specialize (Hc x Hx). specialize (Hin' x Hx). unfold clear_of in Hc. cbn in Hin'. lia. }
    destruct (IH it' Ps0 lo (upper - A) mem linp upper' items' last Hskip Hlo Ha Hin2 Hits Hptr')
      as (sk & Pk & Ps1 & -> & -> & Hu' & Hu0 & Hpk & Hlk & Hrl & Hb').
    assert (0 <= A * Z.of_nat (length sk)) by nia.
    exists (it :: sk), (P0 :: Pk), Ps1. cbn [length app targets relink]. rewrite Hlp, Hlp'.
    split; [done|]. split; [done|]. split; [lia|]. split; [done|]. split; [|split; [lia|done]].
    constructor; [|done]. split; [done|]. split; [cbn; lia|apply Hpl].
Qed.

Lemma unmoved_al mem it P : unmoved mem it P -> alignedlen it = A.
Proof. by intros (_ & [_ ?] & _). Qed.

(** A range of the page that is copied to its place in the copy. *)
Lemma unmoved_copied scr mem lo n it P :
  Z.of_nat (length scr) = BLCKSZ -> Z.of_nat (length mem) = BLCKSZ -> 0 <= lo -> lo + n <= BLCKSZ ->
  lo <= itemoff it -> itemoff it + A <= lo + n -> unmoved mem it P ->
  unmoved (splice scr (Z.to_nat lo) (take (Z.to_nat n) (drop (Z.to_nat lo) mem))) it P.
Proof.
  intros Hs Hm Hlo Hn H1 H2 (HPl & Hsl & Hat). split; [done|]. split; [done|].
  replace (itemoff it) with (itemoff it - lo + lo) at 1 by lia. apply item_at_move; try done; lia.
Qed.

Lemma copy_items_spec items : forall Ps (s : PruneState),
  Z.of_nat (length (scratch s)) = BLCKSZ -> Z.of_nat (length (page_bytes (page s))) = BLCKSZ ->
  apart items -> inside 0 BLCKSZ items -> Forall2 (unmoved (page_bytes (page s))) items Ps ->
  exists scr, copy_items items s = (Ret tt, {| tde := tde s; page := page s; scratch := scr |})
    /\ Z.of_nat (length scr) = BLCKSZ /\ Forall2 (unmoved scr) items Ps
    /\ forall it P, 0 <= itemoff it -> Forall (clear_of (itemoff it)) items -> unmoved (scratch s) it P -> unmoved scr it P.
Proof.
  induction items as [|it items IH]; intros Ps s Hs Hm Ha Hin Hits.
  - exists (scratch s). apply Forall2_nil_inv_l in Hits as ->. split; [by destruct s|]. by split_and!.
  - destruct Ha as [Hc Ha]. apply Forall_cons in Hin as [[Hi0 Hi] Hin].
    apply Forall2_cons_inv_l in Hits as (P0 & Ps0 & Hun & Hits & ->). cbn [copy_items].
    rewrite (unmoved_al _ _ _ Hun). mstep (eq_refl : page_mem s = (Ret (page_bytes (page s)), s)).
    rewrite rd_bytes_Some by lia. cbn [defined]. set (chunk := take _ _). rewrite bind_ret_l.
    assert (Hcl : Z.of_nat (length chunk) = A) by (unfold chunk; rewrite length_take, length_drop; lia).
    mstep (eq_refl : scratch_mem s = (Ret (scratch s), s)). rewrite wr_bytes_Some by lia. cbn [defined]. rewrite bind_ret_l.
    set (scr1 := splice (scratch s) _ chunk).
    assert (Hs1 : Z.of_nat (length scr1) = BLCKSZ) by (unfold scr1; rewrite length_splice; lia).
    destruct (IH Ps0 {| tde := tde s; page := page s; scratch := scr1 |} Hs1 Hm Ha Hin Hits) as (scr & E & Hl & Hu & Hk).
    exists scr. split; [exact E|]. split; [done|]. split.
    + constructor; [|done]. apply Hk; [done|done|]. cbn [scratch]. by apply unmoved_copied; try done; lia.
    + intros x P Hx [Hcx Hc']%Forall_cons Hux. apply Hk; [done|done|]. cbn [scratch].
      destruct Hux as (HPl & Hsl & Hat). split; [done|]. split; [done|]. unfold clear_of in Hcx.
      apply item_at_splice_out; try done; cbn; lia.
Qed.

(** The items to move, in the copy; those before them stay. *)
Record filled (it : itemIdCompactData) (rest : list itemIdCompactData) (Ps : list (list Z)) (s : PruneState)
    (upper : Z) (items : list itemIdCompactData) (last : itemIdCompactData) (scr : list Z)
    (skipped : list itemIdCompactData) (Pskip Ps' : list (list Z)) : Prop := {
  fi_items : it :: rest = skipped ++ items /\ Ps = Pskip ++ Ps' /\ length Pskip = length skipped;
  fi_upper : upper = pd_special (page s) - A * Z.of_nat (length skipped) /\ 0 <= upper;
  fi_placed : Forall (placed (page_bytes (page s)) upper) (targets (pd_special (page s)) Pskip);
  fi_linked : relink skipped (pd_special (page s)) (pd_linp (page s)) = pd_linp (page s);
  fi_apart : apart items /\ inside 0 upper items;
  fi_copied : Z.of_nat (length scr) = BLCKSZ /\ Forall2 (unmoved scr) items Ps';
  fi_in : last ∈ it :: rest;
  fi_last : match items with last' :: _ => last' = last | [] => upper = itemoff last end;
}.

Lemma inside_le lo lo' hi hi' items : lo' <= lo -> hi <= hi' -> inside lo hi items -> inside lo' hi' items.
Proof. intros H1 H2 H. eapply Forall_impl; [exact H|]. cbn. lia. Qed.

Lemma fill_scratch_spec it rest Ps (s : PruneState) :
  Z.of_nat (length (scratch s)) = BLCKSZ -> Z.of_nat (length (page_bytes (page s))) = BLCKSZ ->
  0 <= pd_upper (page s) -> pd_special (page s) <= BLCKSZ ->
  apart (it :: rest) -> inside (pd_upper (page s)) (pd_special (page s)) (it :: rest) ->
  Forall2 (unmoved (page_bytes (page s))) (it :: rest) Ps -> Forall (pointed (pd_linp (page s))) (it :: rest) ->
  exists upper items last scr skipped Pskip Ps',
    fill_scratch it rest s = (Ret (upper, items, last), {| tde := tde s; page := page s; scratch := scr |})
    /\ filled it rest Ps s upper items last scr skipped Pskip Ps'.
Proof.
  intros Hs Hm Hu0 Hsp Ha Hin Hits Hptr. unfold fill_scratch. mstep (eq_refl : gets page s = (Ret (page s), s)).
  destruct (_ <? _).
  - destruct (copy_items_spec (it :: rest) Ps s Hs Hm Ha) as (scr & E & Hl & Hun & _); [by eapply inside_le; [| |exact Hin]|done|].
    mstep E. exists (pd_special (page s)), (it :: rest), it, scr, [], [], Ps. split; [done|].
    pose proof Hin as [[Hi0 Hi] _]%Forall_cons.
    split; cbn [app length targets relink]; try done; try (split; [lia|]); try lia; [split; [done|]; by eapply inside_le; [| |exact Hin]|by left].
  - destruct (skip_in_place it rest (pd_special (page s))) as [[upper items] last] eqn:Hskip.
    destruct (skip_apart _ _ _ _ _ _ _ _ _ _ Hskip Hu0 Ha Hin Hits Hptr)
      as (sk & Pk & Ps' & Eit & EPs & Hu & Hul & Hpl & Hlk & Hrl & Ha' & Hin' & Hi' & Hlast).
    assert (0 <= A * Z.of_nat (length sk)) by nia.
    rewrite rd_bytes_Some by lia. cbn [defined]. set (chunk := take _ _). rewrite bind_ret_l.
    assert (Hcl : Z.of_nat (length chunk) = upper - pd_upper (page s)) by (unfold chunk; rewrite length_take, length_drop; lia).
    mstep (eq_refl : scratch_mem s = (Ret (scratch s), s)). rewrite wr_bytes_Some by lia. cbn [defined]. rewrite bind_ret_l.
    eexists upper, items, last, _, sk, Pk, Ps'. split; [reflexivity|]. split; try done; try (split; [done|]); try lia.
    + by eapply inside_le; [| |exact Hin'].
    + split; [rewrite length_splice; lia|]. clear -Hlen Hs Hm Hu0 Hsp Hul Hu H Hin' Hi'.
      induction Hi' as [|x P items Ps Hun _ IH]; [constructor|]. apply Forall_cons in Hin' as [[H1 H2] Hin'].
      constructor; [|by apply IH]. apply unmoved_copied; try done; lia.
    + by eapply skip_last.
Qed.

Lemma unsorted_spec it rest Ps (s : PruneState) rel :
  prune_ready k keys s -> GetRelationKeys g rel (tde s) = (Ret keys, tde s) ->
  Z.of_nat (length (scratch s)) = BLCKSZ -> 0 <= pd_upper (page s) -> pd_special (page s) <= BLCKSZ ->
  apart (it :: rest) -> inside (pd_upper (page s)) (pd_special (page s)) (it :: rest) ->
  A * Z.of_nat (length (it :: rest)) <= pd_special (page s) ->
  Forall2 (unmoved (page_bytes (page s))) (it :: rest) Ps ->
  Forall (pointed (pd_linp (page s))) (it :: rest) ->
  exists s', pgtde_compactify_tuples g rel bn it rest false s = (Ret tt, s')
    /\ Forall (readable (page_bytes (page s'))) (targets (pd_special (page s)) Ps)
    /\ pd_upper (page s') = pd_special (page s) - A * Z.of_nat (length (it :: rest))
    /\ pd_linp (page s') = relink (it :: rest) (pd_special (page s)) (pd_linp (page s)).
Proof.
  intros Hr Hkeys Hs Hu0 Hsp Ha Hin Htot Hits Hptr. pose proof Hr as [Hk Hm].
  assert (Hget : in_tde (GetRelationKeys g rel) s = (Ret keys, s))
    by (unfold in_tde, zoom; rewrite Hkeys; by destruct s).
  destruct (fill_scratch_spec it rest Ps s Hs Hm Hu0 Hsp Ha Hin Hits Hptr)
    as (upper & items & last & scr & sk & Pk & Ps' & E & [(Eit & -> & Hlk) [Hu Hup] Hpl Hrl [Ha' Hin'] [Hscr Hi'] Hel Hlast]).
  unfold pgtde_compactify_tuples. mstep Hget. rewrite bind_assoc. mstep E.
  rewrite Eit, length_app in *. rewrite relink_app, Hrl, targets_app, Hlk, <- Hu.
  set (s1 := {| tde := tde s; page := page s; scratch := scr |}).
  assert (0 <= A * Z.of_nat (length sk)) by nia.
  assert (Hlast' : alignedlen last = A /\ len last = L /\ 0 <= itemoff last + A <= BLCKSZ).
  { assert (Hgen : forall x l Ps mem hi, hi <= BLCKSZ -> Forall2 (unmoved mem) l Ps -> inside 0 hi l -> x ∈ l ->
      alignedlen x = A /\ len x = L /\ 0 <= itemoff x + A <= BLCKSZ).
    { intros x l Ps mem hi Hhi H2 Hins Hx. unfold inside in Hins. rewrite Forall_forall in Hins. specialize (Hins x Hx).
      apply list_elem_of_lookup in Hx as [i Hx]. destruct (Forall2_lookup_l _ _ _ _ _ H2 Hx) as (P & _ & (_ & [Hl1 Ha1] & _)).
      cbn in Hins. split_and!; [done|done|lia|lia]. }
    destruct items as [|x items]; [|subst x; eapply (Hgen last _ _ _ upper); [lia|exact Hi'|exact Hin'|by left]].
    apply (Hgen last (sk ++ []) (Pk ++ Ps') (page_bytes (page s)) (pd_special (page s))); [done|exact Hits| |exact Hel].
    by eapply inside_le; [| |exact Hin]. }
  destruct Hlast' as (-> & Hll & Hstart).
  destruct (compact_scratch_spec items Ps' s1 last (targets (pd_special (page s)) Pk) [] [] upper (itemoff last + A) (itemoff last + A))
    as (s2 & E2 & Hr2 & HT2 & Hl2 & Hh2).
  - by split.
  - done.
  - apply Forall_app in Hptr as [_ Hptr]. eapply Forall_impl; [exact Hptr|]. intros x (lp & Hlp & _). exists lp. exact Hlp.
  - apply scratch_start; try done; [|destruct items; [done|by subst]]. split; try done; try lia.
    + by rewrite Z.sub_diag, Z.add_0_r.
    + split; [done|]. eapply inside_le; [| |exact Hin']; lia.
  - mstep E2. eexists. split; [reflexivity|]. cbn [page page_bytes with_upper pd_upper pd_linp]. split_and!; [exact HT2|lia|done].
Qed.
End compact.

(** ** Two servers *)

Section alike.
Context `{HE : EVP} `{HS : CIntShift} `{HL : !EVPLaws}.
Context `{HJ : Json} `{HB : Base64} `{HC : Curl} `{HF : KeyringFs}.
Context `{HT : TdeEnv} `{HP : PgBlockSize} `{HM : PageMacros}.
Variables (g : AesGlobals) (rel : RelFileLocator) (k : list Z) (p q : nat).
Hypothesis Hg : aes_initialized g.

(** The keys of the relation are cached there, with the key [k]. *)
Definition keyed (ptr : nat) (t : TdeState) : Prop :=
  map_scan (tde_rel_keys_map t) (relNumber rel) = Some ptr
  /\ exists d, keys_store t !! ptr = Some d /\ keys_ready d k.

(** The same page, and each server's own keys. *)
Record same_page (s t : PruneState) : Prop := {
  sp_page : page s = page t;
  sp_scratch : scratch s = scratch t;
  sp_left : keyed p (tde s);
  sp_right : keyed q (tde t);
}.

Lemma alike_page {A} (f : HeapPage -> A) : alike same_page (gets (fun s => f (page s))) (gets (fun s => f (page s))).
Proof. apply alike_gets. intros s t H. by rewrite (sp_page _ _ H). Qed.
Lemma alike_scratch : alike same_page scratch_mem scratch_mem.
Proof. apply alike_gets. by intros s t []. Qed.
Lemma alike_on_page f : alike same_page (on_page f) (on_page f).
Proof. apply alike_modify. intros s t []. split; cbn; [congruence|done..]. Qed.
Lemma alike_set_scratch b : alike same_page (set_scratch b) (set_scratch b).
Proof. apply alike_modify. by intros s t []. Qed.

Lemma re_encrypt_alike bn head upper n mem :
  alike same_page (re_encrypt g p bn head upper n mem) (re_encrypt g q bn head upper n mem).
Proof.
  intros s t [Hpage Hscr (Hm & d & Hd & Hk) (Hm' & d' & Hd' & Hk')]. unfold re_encrypt, in_tde, zoom, with_keys.
  rewrite Hd, Hd'. cbv zeta.
  pose proof (PG_TDE_RE_ENCRYPT_TUPLE_DATA_alike g k Hg bn head (head + sizeof_HeapTupleHeaderData) bn upper
    (head + sizeof_HeapTupleHeaderData) (u32 (n - sizeof_HeapTupleHeaderData)) mem d d' (conj Hk Hk')) as H.
  destruct (PG_TDE_RE_ENCRYPT_TUPLE_DATA _ _ _ _ _ _ _ _ _ d) as [o d1], (PG_TDE_RE_ENCRYPT_TUPLE_DATA _ _ _ _ _ _ _ _ _ d') as [o' d1'].
  destruct H as [Ho [H1 H1']]. split; [exact Ho|]. pose proof (lookup_lt_Some _ _ _ Hd). pose proof (lookup_lt_Some _ _ _ Hd').
  split; cbn; [done|done|..]; (split; [done|]; eexists; split; [by apply list_lookup_insert_eq|done]).
Qed.
#[local] Hint Resolve alike_page alike_scratch alike_on_page alike_set_scratch re_encrypt_alike : alike.
#[local] Hint Extern 1 (alike _ page_mem page_mem) => exact (alike_page page_bytes) : alike.
#[local] Hint Extern 1 (alike _ (gets page) (gets page)) => exact (alike_page (fun p => p)) : alike.

Lemma copy_to_page_alike upper src head tail : alike same_page (copy_to_page upper src head tail) (copy_to_page upper src head tail).
Proof. unfold copy_to_page. alike. Qed.
Lemma set_lp_off_alike i upper : alike same_page (set_lp_off i upper) (set_lp_off i upper).
Proof. unfold set_lp_off. alike. Qed.
#[local] Hint Resolve copy_to_page_alike set_lp_off_alike : alike.

Lemma compact_presorted_alike bn items last upper tail head :
  alike same_page (compact_presorted g p bn items last upper tail head) (compact_presorted g q bn items last upper tail head).
Proof. revert last upper tail head. induction items as [|it items IH]; intros; cbn [compact_presorted]; alike. Qed.

Lemma compact_scratch_alike bn items last upper tail head :
  alike same_page (compact_scratch g p bn items last upper tail head) (compact_scratch g q bn items last upper tail head).
Proof. revert last upper tail head. induction items as [|it items IH]; intros; cbn [compact_scratch]; alike. Qed.

Lemma copy_items_alike items : alike same_page (copy_items items) (copy_items items).
Proof. induction items as [|it items IH]; cbn [copy_items]; alike. Qed.
Lemma fill_scratch_alike it rest : alike same_page (fill_scratch it rest) (fill_scratch it rest).
Proof. pose proof copy_items_alike. unfold fill_scratch. alike. Qed.
#[local] Hint Resolve compact_presorted_alike compact_scratch_alike fill_scratch_alike : alike.

Lemma keys_alike {A} (f h : nat -> M PruneState A) : alike same_page (f p) (h q) ->
  alike same_page (bind (in_tde (GetRelationKeys g rel)) f) (bind (in_tde (GetRelationKeys g rel)) h).
Proof.
  intros H s t Hst. pose proof Hst as [_ _ [Hp _] [Hq _]]. unfold bind, in_tde, zoom.
  rewrite (GetRelationKeys_cached g rel (tde s) p Hp), (GetRelationKeys_cached g rel (tde t) q Hq).
  apply (H s t) in Hst. by destruct s, t.
Qed.

Lemma pgtde_compactify_tuples_alike bn it rest presorted : alike same_page
  (pgtde_compactify_tuples g rel bn it rest presorted) (pgtde_compactify_tuples g rel bn it rest presorted).
Proof. apply keys_alike. alike. Qed.
#[local] Hint Resolve pgtde_compactify_tuples_alike : alike.

Lemma survey_loop_alike i lps upper special v :
  alike same_page (survey_loop i lps upper special v) (survey_loop i lps upper special v).
Proof. revert i v. induction lps as [|lp lps IH]; intros; cbn [survey_loop]; alike. Qed.
#[local] Hint Resolve survey_loop_alike : alike.

Lemma TdePageRepairFragmentation_alike bn : alike same_page (TdePageRepairFragmentation g rel bn) (TdePageRepairFragmentation g rel bn).
Proof. unfold TdePageRepairFragmentation, truncate_lines. alike. Qed.
End alike.
