(* ===== verification/PruneClaims.v ===== *)
(** What compaction does to encrypted tuples: it is right for tuples of one
    length, and uses the wrong length for the others. *)
From S2P Require Import Prelude EncAes RelKeys EncTuple KeyringTypes KeyringApi KeyringClaims XactHandler TdeMap TdeClaims TupleIO Prune PruneProps.

Section claims.
Context `{HE : EVP} `{HS : CIntShift} `{HL : !EVPLaws}.
Context `{HJ : Json} `{HB : Base64} `{HC : Curl} `{HF : KeyringFs}.
Context `{HT : TdeEnv} `{HP : PgBlockSize} `{HBL : !PgBlockSizeLaws} `{HM : PageMacros}.
Variable g : AesGlobals.

(** The state before: the keys of the relation are cached, and the items
    are the tuples [Ps], each encrypted for where it is, with line pointers
    that say so; they lie one below the other, or, when they are not
    [presorted], anywhere in the used part of the page without overlapping. *)
Record compactable (presorted : bool) (k : list Z) (bn : Z) (keys : nat) (L A : Z) (rel : RelFileLocator)
    (items : list itemIdCompactData) (Ps : list (list Z)) (s : PruneState) : Prop := {
  c_bn : 0 <= bn /\ bn * BLCKSZ < 2 ^ 32;
  c_len : 0 <= sizeof_HeapTupleHeaderData <= L /\ 0 < L <= A;
  c_keys : map_scan (tde_rel_keys_map (tde s)) (relNumber rel) = Some keys;
  c_ready : prune_ready k keys s;
  c_special : 0 <= pd_special (page s) <= BLCKSZ;
  c_order : if presorted then below A (pd_special (page s)) items
            else apart A items /\ 0 <= pd_upper (page s) /\ inside A (pd_upper (page s)) (pd_special (page s)) items
                 /\ A * Z.of_nat (length items) <= pd_special (page s)
                 /\ Z.of_nat (length (scratch s)) = BLCKSZ;
  c_items : Forall2 (unmoved k bn L A (page_bytes (page s))) items Ps;
  c_pointed : Forall (pointed (pd_linp (page s))) items;
  c_distinct : NoDup ((fun it => Z.to_nat (offsetindex it)) <$> items);
}.

(** C22: compaction keeps equal tuples.  When all tuples of a page have
    one length and headers of sizeof(HeapTupleHeaderData) (so that none has
    a null bitmap), compaction, by either of its branches, packs them
    against the end of the page in the order of their line pointers; every
    line pointer (its length and flags unchanged) is set to the new place,
    and what is stored there is the same tuple encrypted for that place, so
    that it decrypts to what it was. *)
Theorem compaction_keeps_equal_tuples presorted k bn keys L A rel it rest Ps (s : PruneState)
    (Hg : aes_initialized g)
    (Hs : compactable presorted k bn keys L A rel (it :: rest) Ps s) :
  exists s', pgtde_compactify_tuples g rel bn it rest presorted s = (Ret tt, s')
    /\ pd_upper (page s') = pd_special (page s) - A * Z.of_nat (length (it :: rest))
    /\ forall (i : nat) x P lp, (it :: rest) !! i = Some x -> Ps !! i = Some P ->
         pd_linp (page s) !! Z.to_nat (offsetindex x) = Some lp ->
         let off := pd_special (page s) - A * (Z.of_nat i + 1) in
         pd_linp (page s') !! Z.to_nat (offsetindex x)
           = Some {| lp_off := off; lp_flags := lp_flags lp; lp_len := lp_len lp |}
         /\ take (length P) (drop (Z.to_nat off) (page_bytes (page s')))
            = encrypted_item k bn off sizeof_HeapTupleHeaderData P.
Proof.
  destruct Hs as [Hbn Hlen Hkeys Hr Hsp Hb Hits Hptr Hnd].
  pose proof (GetRelationKeys_cached g rel (tde s) keys Hkeys) as Hget.
  assert (H : exists s', pgtde_compactify_tuples g rel bn it rest presorted s = (Ret tt, s')
    /\ Forall (readable k bn (page_bytes (page s'))) (targets A (pd_special (page s)) Ps)
    /\ pd_upper (page s') = pd_special (page s) - A * Z.of_nat (length (it :: rest))
    /\ pd_linp (page s') = relink A (it :: rest) (pd_special (page s)) (pd_linp (page s))).
  { destruct presorted.
    - destruct (presorted_spec g k bn keys Hg Hbn L A Hlen it rest Ps s rel Hr Hget Hsp Hb Hits Hptr)
        as (s' & ? & ? & ? & ? & _). by exists s'.
    - destruct Hb as (Ha & Hu & Hin & Htot & Hscr). destruct (unsorted_spec g k bn keys Hg Hbn L A Hlen it rest Ps s rel Hr Hget Hscr Hu) as (s1 & E1 & E2 & E3 & E4); try done; [lia|]; by exists s1. }
  destruct H as (s' & E & HT' & Hu & Hlinp).
  exists s'. split; [done|]. split; [done|]. intros i x P lp Hx HPi Hlp off. split.
  - rewrite Hlinp. by apply relink_lookup.
  - pose proof (Forall_lookup_1 _ _ _ _ HT' (targets_lookup A Ps (pd_special (page s)) i P HPi)) as Hat.
    destruct (Forall2_lookup_lr _ _ _ _ _ _ Hits Hx HPi) as (HPl & _).
    unfold readable in Hat. cbn [fst snd] in Hat. fold off in Hat.
    apply item_at_encrypted in Hat; [|lia]. rewrite Hat. f_equal. lia.
Qed.

(** The first tuple to move only becomes the range. *)
Lemma compact_first keys bn it items last upper c (s : PruneState) lp :
  pd_linp (page s) !! Z.to_nat (offsetindex it) = Some lp ->
  compact_presorted g keys bn (it :: items) last upper c c s =
  compact_presorted g keys bn items it (upper - alignedlen it) c (itemoff it)
    {| tde := tde s;
       page := with_linp (<[Z.to_nat (offsetindex it) :=
         {| lp_off := upper - alignedlen it; lp_flags := lp_flags lp; lp_len := lp_len lp |}]>
         (pd_linp (page s))) (page s);
       scratch := scratch s |}.
Proof.
  intros Hlp. cbn [compact_presorted]. rewrite Z.ltb_irrefl, andb_false_r. cbv zeta.
  rewrite !bind_ret_l. by mstep (set_lp_off_step _ (upper - alignedlen it) lp s Hlp).
Qed.

(** Encrypting a range that does not fit. *)
Lemma compact_overrun keys bn it items last upper tail head (s : PruneState) d :
  keys_store (tde s) !! keys = Some d -> head < tail ->
  0 <= sizeof_HeapTupleHeaderData < len it ->
  len it - sizeof_HeapTupleHeaderData <= DATA_BYTES_PER_AES_BATCH ->
  Z.of_nat (length (page_bytes (page s))) < head + len it ->
  fst (compact_presorted g keys bn (it :: items) last upper tail head s) = Undefined.
Proof.
  intros Hd Ht Hhdr Hshort Hlong. cbn [compact_presorted].
  rewrite (proj2 (Z.ltb_lt head tail)) by done.
  assert (Hre : exists s', re_encrypt g keys bn head upper (len it) (page_bytes (page s)) s
                           = (Undefined, s')).
  { unfold re_encrypt, in_tde, zoom, with_keys. rewrite Hd.
    unfold PG_TDE_RE_ENCRYPT_TUPLE_DATA, pg_tde_move_encrypted_data.
    unfold DATA_BYTES_PER_AES_BATCH, NUM_AES_BLOCKS_IN_BATCH, AES_BLOCK_SIZE in Hshort.
    rewrite (uwrap_small 32) by lia.
    cbn [move_loop]. rewrite (proj2 (Z.ltb_lt 0 _)) by lia.
    replace (Z.min _ _) with (len it - sizeof_HeapTupleHeaderData)
      by (unfold DATA_BYTES_PER_AES_BATCH, NUM_AES_BLOCKS_IN_BATCH, AES_BLOCK_SIZE; lia).
    unfold rd_bytes. rewrite (proj2 (Z.leb_gt (_ + _) _)) by lia. rewrite andb_false_r.
    cbn. by eexists. }
  destruct Hre as [s' Hre]. rewrite bind_assoc.
  mstep (eq_refl : page_mem s = (Ret (page_bytes (page s)), s)).
  rewrite bind_assoc. by rewrite (bind_Undefined _ _ _ _ Hre).
Qed.

(** compaction writes past the page.  The first tuple that has to be
    moved is encrypted again with the length of the tuple after it: when
    that is longer than what is left of the page, the bytes behind the
    page, which belong to another buffer, are overwritten. *)
Theorem compaction_overruns_page k bn keys rel it0 it1 rest (s : PruneState)
    (Hkeys : map_scan (tde_rel_keys_map (tde s)) (relNumber rel) = Some keys)
    (Hr : prune_ready k keys s)
    (Hgap : itemoff it0 + alignedlen it0 < pd_special (page s)) (Hit0 : 0 <= itemoff it0)
    (Hal : 0 < alignedlen it0)
    (Hlp0 : is_Some (pd_linp (page s) !! Z.to_nat (offsetindex it0)))
    (Hlong : itemoff it0 + len it1 > BLCKSZ)
    (Hhdr : 0 <= sizeof_HeapTupleHeaderData < len it1)
    (Hshort : len it1 - sizeof_HeapTupleHeaderData <= DATA_BYTES_PER_AES_BATCH) :
  fst (pgtde_compactify_tuples g rel bn it0 (it1 :: rest) true s) = Undefined.
Proof.
  destruct Hr as [(d & Hd & Hrd) Hm].
  unfold pgtde_compactify_tuples.
  assert (Hget : in_tde (GetRelationKeys g rel) s = (Ret keys, s)).
  { unfold in_tde, zoom. rewrite (GetRelationKeys_cached g rel (tde s) keys Hkeys). by destruct s. }
  mstep Hget. rewrite bind_assoc. mstep (eq_refl : gets page s = (Ret (page s), s)).
  cbn [skip_in_place]. rewrite (proj2 (Z.eqb_neq _ _)) by lia. cbn [negb].
  destruct Hlp0 as [lp Hlp].
  unfold bind at 1. rewrite (compact_first keys bn it0 _ it0 _ _ s lp Hlp).
  set (s1 := {| tde := tde s; page := _; scratch := scratch s |}).
  match goal with |- context [compact_presorted _ _ _ _ _ ?u ?t ?h s1] =>
    assert (Hu : fst (compact_presorted g keys bn (it1 :: rest) it0 u t h s1) = Undefined)
      by (apply (compact_overrun keys bn it1 rest it0 u t h s1 d); cbn; try done; lia) end.
  destruct (compact_presorted _ _ _ _ _ _ _ _ s1) as [[r|l| |] s2]; cbn in Hu |- *; done.
Qed.
End claims.

(** ** A small page *)

Module ToyPrune.
Import ToyEVP ToyPage ToyKeyring ToyTde.

#[export] Instance toy_macros : PageMacros := {|
  SizeOfPageHeaderData := 24;
  sizeof_ItemIdData := 4;
  sizeof_HeapTupleHeaderData := 24;
  ItemIdIsUsed lp := negb (lp_flags lp =? 0);
  ItemIdHasStorage lp := negb (lp_len lp =? 0);
  ItemIdSetUnused lp := {| lp_off := 0; lp_flags := 0; lp_len := 0 |};
  MAXALIGN z := (z + 7) / 8 * 8;
|}.

(** A tuple of [n] bytes of data after a plain header. *)
Definition tuple_of (n : nat) (b : Z) : list Z := replicate 22 0 ++ [24; 0] ++ replicate n b.

(** Block 3 with two tuples at 8128 and 8064, encrypted for their places. *)
Definition page_of (P0 P1 : list Z) : HeapPage :=
  {| pd_lower := 32; pd_upper := 8064; pd_special := 8192;
     pd_linp := [{| lp_off := 8128; lp_flags := 1; lp_len := Z.of_nat (length P0) |};
                 {| lp_off := 8064; lp_flags := 1; lp_len := Z.of_nat (length P1) |}];
     has_free_lines := false;
     page_bytes :=
       splice (splice (replicate (Z.to_nat 8192) 0) (Z.to_nat 8128) (encrypted_item toy_k 3 8128 24 P0))
         (Z.to_nat 8064) (encrypted_item toy_k 3 8064 24 P1) |}.

Definition state_of (P0 P1 : list Z) : PruneState :=
  {| tde := with_map [{| rel_id := 16384; rk_keys := 0 |}]
              (with_store [toy_keys] (toy_tde_state ks0));
     page := page_of P0 P1; scratch := replicate (Z.to_nat 8192) 0 |}.

Definition item_of (i off n : Z) : itemIdCompactData :=
  {| offsetindex := i; itemoff := off; len := n; alignedlen := MAXALIGN n |}.

(** What a reader finds behind a line pointer. *)
Definition read_back (p : HeapPage) (i : nat) : option (list Z) :=
  match pd_linp p !! i with
  | Some lp => Some (encrypted_item toy_k 3 (lp_off lp) 24
                       (take (Z.to_nat (lp_len lp)) (drop (Z.to_nat (lp_off lp)) (page_bytes p))))
  | None => None
  end.

Lemma state_ready P0 P1 :
  (24 <= length P0 <= 64)%nat -> (24 <= length P1 <= 64)%nat ->
  prune_ready toy_k 0 (state_of P0 P1).
Proof.
  intros H0 H1. split; [exists toy_keys; split; [done|apply toy_keys_ready]|].
  cbn [page state_of page_of page_bytes].
  rewrite !length_splice; rewrite ?length_splice; rewrite ?length_encrypted_item, ?length_replicate;
    cbn [BLCKSZ page8k]; lia.
Qed.
End ToyPrune.

Section witnesses.
Import ToyEVP ToyPage ToyKeyring ToyTde ToyPrune.

Let P0 : list Z := tuple_of 8 65.
Let P1 : list Z := tuple_of 8 66.

Lemma toy_compactable :
  compactable true toy_k 3 0 32 32 toy_rel [item_of 0 8128 32; item_of 1 8064 32] [P0; P1]
    (state_of P0 P1).
Proof.
  split.
  - cbn. lia.
  - cbn. lia.
  - done.
  - apply state_ready; cbn; lia.
  - cbn. lia.
  - cbn. lia.
  - constructor; [|constructor; [|constructor]]; split; try done; split; try done;
      (apply item_at_encrypted; [cbn; lia|]); by vm_compute.
  - repeat constructor; by eexists.
  - apply (bool_decide_unpack _). by vm_compute.
Qed.

(** compaction garbles tuples of different lengths.  Two tuples of 40
    and 32 bytes with a gap above each: the compaction that packs them
    encrypts only the first 32 bytes of the longer one for its new place,
    so that it no longer decrypts to what it was, while it would have in
    its old place. *)
Theorem compaction_garbles_longer_tuple :
  let long := tuple_of 16 65 in
  let short := tuple_of 8 66 in
  let s := state_of long short in
  let s' := snd (pgtde_compactify_tuples toy_g toy_rel 3 (item_of 0 8128 40)
                   [item_of 1 8064 32] true s) in
  read_back (page s) 0 = Some long /\ read_back (page s) 1 = Some short
  /\ read_back (page s') 1 = Some short
  /\ exists garbled, read_back (page s') 0 = Some garbled
       /\ take 32 garbled = take 32 long /\ garbled <> long.
Proof.
  cbv zeta. split; [by vm_compute|]. split; [by vm_compute|]. split; [by vm_compute|].
  eexists. split; [vm_compute; reflexivity|]. split; [by vm_compute|by vm_compute].
Qed.

(** The same tuples, but the first line pointer leads to the lower one. *)
Definition swapped : PruneState :=
  {| tde := tde (state_of P0 P1);
     page := with_linp [{| lp_off := 8064; lp_flags := 1; lp_len := 32 |}; {| lp_off := 8128; lp_flags := 1; lp_len := 32 |}]
               (page (state_of P0 P1));
     scratch := scratch (state_of P0 P1) |}.

Lemma swapped_compactable :
  compactable false toy_k 3 0 32 32 toy_rel [item_of 0 8064 32; item_of 1 8128 32] [P1; P0] swapped.
Proof.
  destruct toy_compactable as [H1 H2 H3 [H4 H5] H6 _ H7 _ _].
  apply Forall2_cons in H7 as [(A1 & A2 & A3) H7]. apply Forall2_cons in H7 as [(B1 & B2 & B3) _].
  split.
  - exact H1.
  - exact H2.
  - exact H3.
  - exact (conj H4 H5).
  - exact H6.
  - split; [repeat constructor; cbn; unfold clear_of; cbn; lia|]. split; [cbn; lia|].
    split; [repeat constructor; cbn; lia|]. split; [cbn; lia|]. cbn [scratch swapped state_of]. by rewrite length_replicate.
  - constructor; [|constructor; [|constructor]].
    + exact (conj B1 (conj (conj eq_refl eq_refl) B3)).
    + exact (conj A1 (conj (conj eq_refl eq_refl) A3)).
  - cbn [pd_linp page swapped with_linp]. constructor; [|constructor; [|constructor]]; eexists; split; reflexivity.
  - apply (bool_decide_unpack _). by vm_compute.
Qed.

Lemma compaction_keeps_equal_tuples_witness :
  (exists s', pgtde_compactify_tuples toy_g toy_rel 3 (item_of 0 8128 32) [item_of 1 8064 32] true
               (state_of P0 P1) = (Ret tt, s')
    /\ pd_linp (page s') !! 1%nat = Some {| lp_off := 8128; lp_flags := 1; lp_len := 32 |}
    /\ take 32 (drop (Z.to_nat 8128) (page_bytes (page s'))) = encrypted_item toy_k 3 8128 24 P1)
  /\ exists s', pgtde_compactify_tuples toy_g toy_rel 3 (item_of 0 8064 32) [item_of 1 8128 32] false
               swapped = (Ret tt, s')
    /\ pd_linp (page s') !! 1%nat = Some {| lp_off := 8128; lp_flags := 1; lp_len := 32 |}
    /\ take 32 (drop (Z.to_nat 8128) (page_bytes (page s'))) = encrypted_item toy_k 3 8128 24 P0.
Proof.
  split.
  - destruct (compaction_keeps_equal_tuples toy_g true toy_k 3 0 32 32 toy_rel (item_of 0 8128 32)
      [item_of 1 8064 32] [P0; P1] (state_of P0 P1) toy_g_ready toy_compactable)
      as (s' & E & _ & H).
    exists s'. split; [exact E|].
    apply (H 1%nat (item_of 1 8064 32) P1 {| lp_off := 8064; lp_flags := 1; lp_len := 32 |}); reflexivity.
  - destruct (compaction_keeps_equal_tuples toy_g false toy_k 3 0 32 32 toy_rel (item_of 0 8064 32)
      [item_of 1 8128 32] [P1; P0] swapped toy_g_ready swapped_compactable)
      as (s' & E & _ & H).
    exists s'. split; [exact E|].
    apply (H 1%nat (item_of 1 8128 32) P0 {| lp_off := 8128; lp_flags := 1; lp_len := 32 |}); reflexivity.
Defined.

Lemma compaction_overruns_page_witness :
  fst (pgtde_compactify_tuples toy_g toy_rel 3 (item_of 0 8128 32) [item_of 1 7000 200] true
         (state_of P0 P1)) = Undefined.
Proof.
  apply (compaction_overruns_page toy_g toy_k 3 0 toy_rel (item_of 0 8128 32) (item_of 1 7000 200)
    [] (state_of P0 P1)); cbn; try lia; try reflexivity.
  - apply state_ready; cbn; lia.
  - by eexists.
  - by vm_compute.
Defined.
End witnesses.
