(* ===== verification/HotChain.v ===== *)
(** HOT chains: finding, pruning and searching them.  The chain functions
    of src/src/access/pg_tde_prune.c, and pg_tde_hot_search_buffer and
    HeapTupleHeaderAdvanceConflictHorizon of src/src/access/pg_tdeam.c.

    While chains are examined the page does not change: its line pointers
    are [linp] and [tuple_at] is the tuple header a line pointer leads to.
    An array of the C code that is filled from the front, with a counter, is
    a list; adding to a full one is undefined. *)
From S2P Require Import Prelude Visibility Prune.

Definition FirstOffsetNumber : Z := 1.

(** itemid.h, and the size of the arrays. *)
Class LinePointers := {
  ItemIdIsNormal : ItemId -> bool;
  ItemIdIsRedirected : ItemId -> bool;
  ItemIdIsDead : ItemId -> bool;
  ItemIdGetRedirect : ItemId -> Z;
  ItemIdSetRedirect : Z -> ItemId -> ItemId;
  ItemIdSetDead : ItemId -> ItemId;
  MaxHeapTuplesPerPage : nat;
}.

(** A tuple header with its second mask, and htup_details.h on it. *)
Record TupleHeader := { fields : HeapTupleHeader; t_infomask2 : Z }.

Class HotFlags := {
  HeapTupleHeaderIsHeapOnly : TupleHeader -> bool;
  HeapTupleHeaderIsHotUpdated : TupleHeader -> bool;
  TransactionIdFollows : Z -> Z -> bool;
}.

(** The working data of pruning.  [marked] and [htsv] have an entry for
    each offset number from 0 on; [None] is [-1]. *)
Record PruneWork := {
  old_snap_ts : Z;
  old_snap_xmin : Z;
  old_snap_used : bool;
  new_prune_xid : Z;
  snapshotConflictHorizon : Z;
  redirected : list (Z * Z);
  nowdead : list Z;
  nowunused : list Z;
  marked : list bool;
  htsv : list (option HTSV_Result);
  moment : nat;   (** when the next question about a transaction is asked *)
}.

Section hot.
Context `{HH : HtupFlags} `{HW : World} `{HM : PageMacros} `{HLP : LinePointers} `{HHF : HotFlags}.

Local Abbreviation MC := (M PruneWork).

(** ** Working data *)

Definition with_prune_xid (x : Z) (w : PruneWork) : PruneWork :=
  {| old_snap_ts := old_snap_ts w; old_snap_xmin := old_snap_xmin w;
     old_snap_used := old_snap_used w; new_prune_xid := x;
     snapshotConflictHorizon := snapshotConflictHorizon w; redirected := redirected w;
     nowdead := nowdead w; nowunused := nowunused w; marked := marked w; htsv := htsv w;
     moment := moment w |}.

Definition with_horizon (x : Z) (t : nat) (w : PruneWork) : PruneWork :=
  {| old_snap_ts := old_snap_ts w; old_snap_xmin := old_snap_xmin w;
     old_snap_used := old_snap_used w; new_prune_xid := new_prune_xid w;
     snapshotConflictHorizon := x; redirected := redirected w;
     nowdead := nowdead w; nowunused := nowunused w; marked := marked w; htsv := htsv w;
     moment := t |}.

Definition with_plan (r : list (Z * Z)) (d u : list Z) (m : list bool) (w : PruneWork) : PruneWork :=
  {| old_snap_ts := old_snap_ts w; old_snap_xmin := old_snap_xmin w;
     old_snap_used := old_snap_used w; new_prune_xid := new_prune_xid w;
     snapshotConflictHorizon := snapshotConflictHorizon w; redirected := r;
     nowdead := d; nowunused := u; marked := m; htsv := htsv w; moment := moment w |}.

(** [array[n++] = x] for an array of [size] entries. *)
Definition append {A} (size : nat) (l : list A) (x : A) : option (list A) :=
  if (length l <? size)%nat then Some (l ++ [x]) else None.

Definition is_marked (w : PruneWork) (offnum : Z) : option bool := marked w !! Z.to_nat offnum.

Definition mark (offnum : Z) (m : list bool) : option (list bool) :=
  if (Z.to_nat offnum <? length m)%nat then Some (<[Z.to_nat offnum := true]> m) else None.

(** ** Recording what is to be done *)

Definition heap_prune_record_prunable (xid : Z) : MC unit :=
  let* w := get in
  if negb (TransactionIdIsValid (new_prune_xid w))
     || TransactionIdPrecedes xid (new_prune_xid w)
  then modify (with_prune_xid xid) else ret tt.

Definition heap_prune_record_redirect (offnum rdoffnum : Z) : MC unit :=
  let* w := get in
  let* r := defined (append MaxHeapTuplesPerPage (redirected w) (offnum, rdoffnum)) in
  let* m := defined (mark offnum (marked w)) in
  let* m := defined (mark rdoffnum m) in
  put (with_plan r (nowdead w) (nowunused w) m w).

Definition heap_prune_record_dead (offnum : Z) : MC unit :=
  let* w := get in
  let* d := defined (append MaxHeapTuplesPerPage (nowdead w) offnum) in
  let* m := defined (mark offnum (marked w)) in
  put (with_plan (redirected w) d (nowunused w) m w).

Definition heap_prune_record_unused (offnum : Z) : MC unit :=
  let* w := get in
  let* u := defined (append MaxHeapTuplesPerPage (nowunused w) offnum) in
  let* m := defined (mark offnum (marked w)) in
  put (with_plan (redirected w) (nowdead w) u m w).

(** The new conflict horizon, and the moment after the questions asked. *)
Definition HeapTupleHeaderAdvanceConflictHorizon (h : HeapTupleHeader) (horizon : Z) (t : nat)
    : Z * nat :=
  let xmin := HeapTupleHeaderGetXmin h in
  let xmax := HeapTupleHeaderGetUpdateXid h in
  let xvac := HeapTupleHeaderGetXvac h in
  let m := t_infomask h in
  let horizon :=
    if has m (Z.lor HEAP_MOVED_OFF HEAP_MOVED_IN)
    then if TransactionIdPrecedes horizon xvac then xvac else horizon
    else horizon in
  let '(inserted, t) :=
    if XminCommitted m then (true, t)
    else if XminInvalid m then (false, t)
    else (TransactionIdDidCommit t xmin, S t) in
  (if inserted
   then if negb (xmax =? xmin) && TransactionIdFollows xmax horizon then xmax else horizon
   else horizon, t).

Definition advance_horizon (h : HeapTupleHeader) : MC unit :=
  modify (fun w => let '(x, t) :=
    HeapTupleHeaderAdvanceConflictHorizon h (snapshotConflictHorizon w) (moment w) in
    with_horizon x t w).

Section page.
Variable linp : list ItemId.
Variable tuple_at : ItemId -> option TupleHeader.

Definition maxoff : Z := Z.of_nat (length linp).

(** [PageGetItemId]; outside the array of line pointers there is none. *)
Definition PageGetItemId (offnum : Z) : option ItemId :=
  if FirstOffsetNumber <=? offnum then linp !! Z.to_nat (offnum - 1) else None.

(** ** heap_prune_chain *)

(** The local variables of the walk along a chain. *)
Record Walk := { chainitems : list Z; latestdead : Z; priorXmax : Z }.

Definition with_item (offnum : Z) (v : Walk) : MC Walk :=
  let* l := defined (append MaxHeapTuplesPerPage (chainitems v) offnum) in
  ret {| chainitems := l; latestdead := latestdead v; priorXmax := priorXmax v |}.

Definition htsv_of (offnum : Z) : MC (option HTSV_Result) :=
  let* w := get in defined (htsv w !! Z.to_nat offnum).

(** The [switch] on the visibility of a member: is it dead, recently dead? *)
Definition member_status (offnum : Z) (htup : TupleHeader) : MC (bool * bool) :=
  let* v := htsv_of offnum in
  match v with
  | Some HEAPTUPLE_DEAD => ret (true, false)
  | Some HEAPTUPLE_RECENTLY_DEAD =>
      heap_prune_record_prunable (HeapTupleHeaderGetUpdateXid (fields htup));;; ret (false, true)
  | Some HEAPTUPLE_DELETE_IN_PROGRESS =>
      heap_prune_record_prunable (HeapTupleHeaderGetUpdateXid (fields htup));;; ret (false, false)
  | Some HEAPTUPLE_LIVE | Some HEAPTUPLE_INSERT_IN_PROGRESS => ret (false, false)
  | None => raise ERROR
  end.

(** [for (;;)]: the walk from [offnum] on. *)
Fixpoint chain_loop (fuel : nat) (rootlp : ItemId) (offnum : Z) (v : Walk) : MC Walk :=
  match fuel with
  | O => nofuel
  | S fuel =>
      if offnum <? FirstOffsetNumber then ret v else
      if maxoff <? offnum then ret v else
      let* w := get in
      let* m := defined (is_marked w offnum) in
      if (m : bool) then ret v else
      let* lp := defined (PageGetItemId offnum) in
      if negb (ItemIdIsUsed lp) then ret v else
      if ItemIdIsRedirected lp then
        if (0 <? length (chainitems v))%nat then ret v else
        let* v := with_item offnum v in
        chain_loop fuel rootlp (ItemIdGetRedirect rootlp) v
      else if ItemIdIsDead lp then ret v else
      let* htup := defined (tuple_at lp) in
      if TransactionIdIsValid (priorXmax v)
         && negb (HeapTupleHeaderGetXmin (fields htup) =? priorXmax v) then ret v else
      let* v := with_item offnum v in
      let* s := member_status offnum htup in
      let '(tupdead, recent_dead) := s in
      if negb tupdead && negb recent_dead then ret v else
      (if (tupdead : bool) then advance_horizon (fields htup) else ret tt);;;
      let v := {| chainitems := chainitems v;
                  latestdead := if (tupdead : bool) then offnum else latestdead v;
                  priorXmax := priorXmax v |} in
      if negb (HeapTupleHeaderIsHotUpdated htup) then ret v else
      chain_loop fuel rootlp (snd (t_ctid (fields htup)))
        {| chainitems := chainitems v; latestdead := latestdead v;
           priorXmax := HeapTupleHeaderGetUpdateXid (fields htup) |}
  end.

(** [for (i = 1; i < nchain && chainitems[i - 1] != latestdead; i++)]: the
    rest of the chain, and the number of items marked; [prev] is
    [chainitems[i - 1]]. *)
Fixpoint unused_loop (prev : Z) (items : list Z) (latestdead ndeleted : Z) : MC (list Z * Z) :=
  match items with
  | x :: items' =>
      if prev =? latestdead then ret (items, ndeleted) else
      heap_prune_record_unused x;;;
      unused_loop x items' latestdead (ndeleted + 1)
  | [] => ret ([], ndeleted)
  end.

(** What is done with the chain walked. *)
Definition settle_chain (rootoffnum : Z) (rootlp : ItemId) (v : Walk) : MC Z :=
  if negb (latestdead v =? 0) then
    match chainitems v with
    | [] => undefined
    | first :: rest =>
        let* r := unused_loop first rest (latestdead v) 0 in
        let '(remaining, ndeleted) := r in
        let ndeleted := if ItemIdIsNormal rootlp then ndeleted + 1 else ndeleted in
        match remaining with
        | [] => heap_prune_record_dead rootoffnum;;; ret ndeleted
        | x :: _ => heap_prune_record_redirect rootoffnum x;;; ret ndeleted
        end
    end
  else if (length (chainitems v) <? 2)%nat && ItemIdIsRedirected rootlp then
    heap_prune_record_dead rootoffnum;;; ret 0
  else ret 0.

Definition chain_fuel : nat := S MaxHeapTuplesPerPage.

Definition heap_prune_chain (rootoffnum : Z) : MC Z :=
  let* rootlp := defined (PageGetItemId rootoffnum) in
  let* root := (if ItemIdIsNormal rootlp then let* h := defined (tuple_at rootlp) in ret (Some h)
                else ret None) in
  match root with
  | Some htup =>
      if HeapTupleHeaderIsHeapOnly htup then
        let* v := htsv_of rootoffnum in
        if bool_decide (v = Some HEAPTUPLE_DEAD) && negb (HeapTupleHeaderIsHotUpdated htup) then
          heap_prune_record_unused rootoffnum;;;
          advance_horizon (fields htup);;;
          ret 1
        else ret 0
      else
        let* v := chain_loop chain_fuel rootlp rootoffnum
                    {| chainitems := []; latestdead := 0; priorXmax := InvalidTransactionId |} in
        settle_chain rootoffnum rootlp v
  | None =>
      let* v := chain_loop chain_fuel rootlp rootoffnum
                  {| chainitems := []; latestdead := 0; priorXmax := InvalidTransactionId |} in
      settle_chain rootoffnum rootlp v
  end.

(** The scan of the page: the items [offnum], [offnum + 1], ... *)
Fixpoint scan_loop (n : nat) (offnum ndeleted : Z) : MC Z :=
  match n with
  | O => ret ndeleted
  | S n =>
      let* w := get in
      let* m := defined (is_marked w offnum) in
      if (m : bool) then scan_loop n (offnum + 1) ndeleted else
      let* itemid := defined (PageGetItemId offnum) in
      if negb (ItemIdIsUsed itemid) || ItemIdIsDead itemid then scan_loop n (offnum + 1) ndeleted
      else
        let* d := heap_prune_chain offnum in
        scan_loop n (offnum + 1) (ndeleted + d)
  end.

Definition prune_scan : MC Z := scan_loop (length linp) FirstOffsetNumber 0.

(** ** page_verify_redirects *)

(** The assertions of the function for one line pointer. *)
Definition redirect_valid (itemid : ItemId) : bool :=
  if ItemIdIsRedirected itemid then
    match PageGetItemId (ItemIdGetRedirect itemid) with
    | Some targitem =>
        ItemIdIsUsed targitem && ItemIdIsNormal targitem && ItemIdHasStorage targitem
        && match tuple_at targitem with
           | Some htup => HeapTupleHeaderIsHeapOnly htup
           | None => false
           end
    | None => false
    end
  else true.

Definition page_verify_redirects : bool := forallb redirect_valid linp.

(** ** pg_tde_get_root_tuples *)

(** The chase along the chain of [offnum]; the checks of the bounds look at
    [offnum], as the code does. *)
Fixpoint root_loop (fuel : nat) (offnum nextoffnum priorXmax : Z) (roots : list Z)
    : outcome (list Z) :=
  match fuel with
  | O => NoFuel
  | S fuel =>
      if (offnum <? FirstOffsetNumber) || (maxoff <? offnum) then Ret roots else
      match PageGetItemId nextoffnum with
      | None => Undefined
      | Some lp =>
          if negb (ItemIdIsNormal lp) then Ret roots else
          match tuple_at lp with
          | None => Undefined
          | Some htup =>
              if TransactionIdIsValid priorXmax
                 && negb (priorXmax =? HeapTupleHeaderGetXmin (fields htup)) then Ret roots else
              match wr roots (nextoffnum - 1) offnum with
              | None => Undefined
              | Some roots =>
                  if negb (HeapTupleHeaderIsHotUpdated htup) then Ret roots else
                  root_loop fuel offnum (snd (t_ctid (fields htup)))
                    (HeapTupleHeaderGetUpdateXid (fields htup)) roots
              end
          end
      end
  end.

(** One item of the outer loop. *)
Definition root_item (fuel : nat) (offnum : Z) (lp : ItemId) (roots : list Z) : outcome (list Z) :=
  if negb (ItemIdIsUsed lp) || ItemIdIsDead lp then Ret roots else
  if ItemIdIsNormal lp then
    match tuple_at lp with
    | None => Undefined
    | Some htup =>
        if HeapTupleHeaderIsHeapOnly htup then Ret roots else
        match wr roots (offnum - 1) offnum with
        | None => Undefined
        | Some roots =>
            if negb (HeapTupleHeaderIsHotUpdated htup) then Ret roots else
            root_loop fuel offnum (snd (t_ctid (fields htup)))
              (HeapTupleHeaderGetUpdateXid (fields htup)) roots
        end
    end
  else root_loop fuel offnum (ItemIdGetRedirect lp) InvalidTransactionId roots.

Fixpoint roots_loop (fuel : nat) (offnum : Z) (lps : list ItemId) (roots : list Z)
    : outcome (list Z) :=
  match lps with
  | [] => Ret roots
  | lp :: lps =>
      match root_item fuel offnum lp roots with
      | Ret roots => roots_loop fuel (offnum + 1) lps roots
      | o => o
      end
  end.

Definition pg_tde_get_root_tuples (fuel : nat) : outcome (list Z) :=
  roots_loop fuel FirstOffsetNumber linp (replicate MaxHeapTuplesPerPage 0).

(** ** pg_tde_hot_search_buffer *)

(** What the search tells the rest of the server, in order. *)
Inductive search_event :=
| ConflictOut (valid : bool) (offnum : Z)   (** HeapCheckForSerializableConflictOut *)
| LockTID (offnum : Z).                     (** PredicateLockTID *)

(** [HeapTupleSatisfiesVisibility] for the snapshot of the search. *)
Variable visible : Z -> TupleHeader -> bool.

(** Where the search ended, [*all_dead], and the events. *)
Definition search_result : Type := option Z * option bool * list search_event.

Fixpoint search_loop (fuel : nat) (offnum prev_xmax : Z) (at_chain_start skip : bool)
    (all_dead : option bool) (events : list search_event) : outcome search_result :=
  match fuel with
  | O => NoFuel
  | S fuel =>
      if (offnum <? FirstOffsetNumber) || (maxoff <? offnum) then Ret (None, all_dead, events) else
      match PageGetItemId offnum with
      | None => Undefined
      | Some lp =>
          if negb (ItemIdIsNormal lp) then
            if ItemIdIsRedirected lp && at_chain_start
            then search_loop fuel (ItemIdGetRedirect lp) prev_xmax false skip all_dead events
            else Ret (None, all_dead, events)
          else
          match tuple_at lp with
          | None => Undefined
          | Some htup =>
              if at_chain_start && HeapTupleHeaderIsHeapOnly htup then Ret (None, all_dead, events)
              else if TransactionIdIsValid prev_xmax
                      && negb (prev_xmax =? HeapTupleHeaderGetXmin (fields htup))
              then Ret (None, all_dead, events) else
              let valid := visible offnum htup in
              let events := if skip then events else events ++ [ConflictOut valid offnum] in
              if negb skip && valid then
                Ret (Some offnum, match all_dead with Some _ => Some false | None => None end,
                     events ++ [LockTID offnum])
              else
              let all_dead := match all_dead with
                              | Some true => Some (HeapTupleIsSurelyDead (fields htup))
                              | a => a
                              end in
              if HeapTupleHeaderIsHotUpdated htup then
                search_loop fuel (snd (t_ctid (fields htup)))
                  (HeapTupleHeaderGetUpdateXid (fields htup)) false false all_dead events
              else Ret (None, all_dead, events)
          end
      end
  end.

(** [want_dead]: the caller passed [all_dead]. *)
Definition pg_tde_hot_search_buffer (fuel : nat) (offnum : Z) (want_dead first_call : bool)
    : outcome search_result :=
  search_loop fuel offnum InvalidTransactionId first_call (negb first_call)
    (if want_dead then Some first_call else None) [].
End page.
End hot.
