(* ===== verification/HotProps.v ===== *)
(** HOT chains as lists: what follows what on a page, when a page is well
    formed, and what the walk along a chain collects. *)
From stdpp Require Import relations.
From S2P Require Import Prelude Visibility Prune HotChain.

(** The kinds of line pointers exclude each other, and what setting one
    does. *)
Class LinePointersLaws `{PageMacros} `{LinePointers} := {
  normal_used lp : ItemIdIsNormal lp = true -> ItemIdIsUsed lp = true;
  normal_kind lp : ItemIdIsNormal lp = true ->
    ItemIdIsRedirected lp = false /\ ItemIdIsDead lp = false;
  redirected_used lp : ItemIdIsRedirected lp = true -> ItemIdIsUsed lp = true;
  redirected_alive lp : ItemIdIsRedirected lp = true -> ItemIdIsDead lp = false;
  used_kind lp : ItemIdIsUsed lp = true -> ItemIdIsRedirected lp = false ->
    ItemIdIsDead lp = false -> ItemIdIsNormal lp = true;
  set_redirect lp t : 0 <= t < 2 ^ 15 -> ItemIdIsRedirected (ItemIdSetRedirect t lp) = true
    /\ ItemIdGetRedirect (ItemIdSetRedirect t lp) = t;
  set_dead lp : ItemIdIsDead (ItemIdSetDead lp) = true;
  set_unused lp : ItemIdIsUsed (ItemIdSetUnused lp) = false;
  few_items : Z.of_nat MaxHeapTuplesPerPage < 2 ^ 15;
}.

(** What PageTruncateLinePointerArray leaves: unused line pointers at the
    end go, but for the first one. *)
Fixpoint drop_unused `{PageMacros} (linp : list ItemId) : list ItemId :=
  match linp with
  | [] => []
  | lp :: linp => match drop_unused linp with
                  | [] => if ItemIdIsUsed lp then [lp] else []
                  | l => lp :: l
                  end
  end.
Definition cut_unused `{PageMacros} (linp : list ItemId) : list ItemId :=
  match linp with [] => [] | lp :: linp => lp :: drop_unused linp end.

Section props.
Context `{HH : HtupFlags} `{HW : World} `{HM : PageMacros} `{HLP : LinePointers} `{HHF : HotFlags}.
Context `{HLL : !LinePointersLaws}.

Section page.
Variable linp : list ItemId.
Variable tuple_at : ItemId -> option TupleHeader.

(** ** What follows what *)

(** The tuple header of a normal item. *)
Definition tuple (o : Z) : option TupleHeader :=
  match PageGetItemId linp o with
  | Some lp => if ItemIdIsNormal lp then tuple_at lp else None
  | None => None
  end.

Definition redirect (o : Z) : option Z :=
  match PageGetItemId linp o with
  | Some lp => if ItemIdIsRedirected lp then Some (ItemIdGetRedirect lp) else None
  | None => None
  end.

Definition heap_only (o : Z) : Prop :=
  exists h, tuple o = Some h /\ HeapTupleHeaderIsHeapOnly h = true.

(** A root: an item an index can point to. *)
Definition root (o : Z) : Prop :=
  is_Some (redirect o) \/ exists h, tuple o = Some h /\ HeapTupleHeaderIsHeapOnly h = false.

(** Where an item leads, and the transaction that made the step. *)
Definition link (o : Z) : option (Z * Z) :=
  match redirect o with
  | Some t => Some (t, InvalidTransactionId)
  | None =>
      match tuple o with
      | Some h => if HeapTupleHeaderIsHotUpdated h
                  then Some (snd (t_ctid (fields h)), HeapTupleHeaderGetUpdateXid (fields h))
                  else None
      | None => None
      end
  end.

(** The item continues a chain whose last member was updated by [xid]. *)
Definition member (o xid : Z) : bool :=
  match tuple o with
  | Some h => negb (TransactionIdIsValid xid && negb (HeapTupleHeaderGetXmin (fields h) =? xid))
  | None => false
  end.

Definition succ (o : Z) : option Z :=
  match link o with
  | Some (o', xid) => if member o' xid then Some o' else None
  | None => None
  end.

Definition follows (o o' : Z) : Prop := succ o = Some o'.
Abbreviation reach := (rtc follows).

(** Well-formed pages: only heap-only tuples are led to, and each from one
    place. *)
Record hot_ok : Prop := {
  few : (length linp <= MaxHeapTuplesPerPage)%nat;
  headers lp : lp ∈ linp -> ItemIdIsNormal lp = true -> is_Some (tuple_at lp);
  stored lp : lp ∈ linp -> ItemIdIsNormal lp = true -> ItemIdHasStorage lp = true;
  succ_heap_only o o' : succ o = Some o' -> heap_only o';
  succ_inj o1 o2 o' : succ o1 = Some o' -> succ o2 = Some o' -> o1 = o2;
}.

Hypothesis Hok : hot_ok.

Lemma PageGetItemId_Some o lp :
  PageGetItemId linp o = Some lp -> 1 <= o <= maxoff linp /\ lp ∈ linp.
Proof.
  unfold PageGetItemId, FirstOffsetNumber, maxoff. destruct (Z.leb_spec 1 o); [|done].
  intros E. split; [|by eapply list_elem_of_lookup_2].
  apply lookup_lt_Some in E. lia.
Qed.

Lemma PageGetItemId_is_Some o : 1 <= o <= maxoff linp -> is_Some (PageGetItemId linp o).
Proof.
  unfold PageGetItemId, FirstOffsetNumber, maxoff. intros Ho.
  rewrite (proj2 (Z.leb_le _ _)) by lia. apply lookup_lt_is_Some_2. lia.
Qed.

Lemma tuple_range o h : tuple o = Some h -> 1 <= o <= maxoff linp.
Proof.
  unfold tuple. case_match eqn:E; [|done]. intros _. by eapply PageGetItemId_Some.
Qed.

Lemma redirect_range o t : redirect o = Some t -> 1 <= o <= maxoff linp.
Proof.
  unfold redirect. case_match eqn:E; [|done]. intros _. by eapply PageGetItemId_Some.
Qed.

Lemma heap_only_range o : heap_only o -> 1 <= o <= maxoff linp.
Proof. intros (h & Hh & _). by eapply tuple_range. Qed.

Lemma root_range o : root o -> 1 <= o <= maxoff linp.
Proof. intros [[t Ht]|(h & Hh & _)]; eauto using redirect_range, tuple_range. Qed.

Lemma tuple_redirect o h : tuple o = Some h -> redirect o = None.
Proof.
  unfold tuple, redirect. destruct (PageGetItemId linp o) as [lp|]; [|done].
  destruct (ItemIdIsNormal lp) eqn:E; [|done]. intros _.
  by destruct (normal_kind lp E) as [-> _].
Qed.

Lemma root_not_heap_only o : root o -> heap_only o -> False.
Proof.
  intros [[t Ht]|(h & Hh & Hr)] (h' & Hh' & Hr').
  - apply tuple_redirect in Hh'. congruence.
  - congruence.
Qed.

Lemma succ_range o o' : succ o = Some o' -> 1 <= o <= maxoff linp /\ 1 <= o' <= maxoff linp.
Proof.
  intros H. split; [|by eapply heap_only_range, succ_heap_only].
  unfold succ, link in H. destruct (redirect o) eqn:E; [by eapply redirect_range|].
  destruct (tuple o) eqn:E2; [by eapply tuple_range|done].
Qed.

(** ** Chains *)

Inductive chain_from : Z -> list Z -> Prop :=
| chain_end o : succ o = None -> chain_from o [o]
| chain_next o o' C : succ o = Some o' -> chain_from o' C -> chain_from o (o :: C).

Lemma chain_head o C : chain_from o C -> exists C', C = o :: C'.
Proof. intros []; eauto. Qed.

Lemma chain_reach o C x : chain_from o C -> (x ∈ C <-> reach o x).
Proof.
  intros HC. induction HC as [o Ho|o o' C Ho HC IH].
  - rewrite list_elem_of_singleton. split; [intros ->; constructor|].
    intros Hr. inversion Hr as [|? y ? Hy]; [done|]. unfold follows in Hy. congruence.
  - rewrite elem_of_cons, IH. split.
    + intros [->|Hr]; [constructor|]. by eapply rtc_l.
    + intros Hr. inversion Hr as [|? y ? Hy Hyx]; [by left|]. unfold follows in Hy. right.
      congruence.
Qed.

Lemma chain_unique o C C' : chain_from o C -> chain_from o C' -> C = C'.
Proof.
  intros HC. revert C'. induction HC as [o Ho|o o' C Ho HC IH]; intros C' HC'.
  - inversion HC'; subst; congruence.
  - inversion HC' as [|? o'' C'' Ho' HC'']; subst; [congruence|]. f_equal. apply IH. congruence.
Qed.

(** A step into the chain of a root has the chain's own predecessor. *)
Lemma reach_back r x y : reach r x -> follows y x -> root r -> reach r y \/ r = x.
Proof.
  intros Hr Hy Hroot. apply rtc_inv_r in Hr as [|(z & Hz & Hzx)]; [by right|].
  left. by rewrite (succ_inj Hok _ _ _ Hy Hzx).
Qed.

Lemma root_not_followed r y : root r -> follows y r -> False.
Proof. intros Hr Hy. eapply root_not_heap_only; [done|]. by eapply succ_heap_only. Qed.

(** Chains of different roots are disjoint. *)
Lemma chains_disjoint r r' x : root r -> root r' -> reach r x -> reach r' x -> r = r'.
Proof.
  intros Hr Hr' H. revert x H. refine (rtc_ind_r _ _ _ _).
  - intros H'. apply rtc_inv_r in H' as [->|(y & _ & Hy)]; [done|].
    by destruct (root_not_followed r y).
  - intros x y Hx Hxy IH H'. destruct (reach_back r' y x) as [?| ->]; try done; [by apply IH|].
    by destruct (root_not_followed y x).
Qed.

(** ** The chain of a root has no repetitions *)

Inductive path : list Z -> Prop :=
| path_one o : path [o]
| path_cons o o' p : succ o = Some o' -> path (o' :: p) -> path (o :: o' :: p).

Lemma path_reach o p x : path (o :: p) -> x ∈ o :: p -> reach o x.
Proof.
  revert o. induction p as [|o' p IH]; intros o Hp Hx.
  - apply list_elem_of_singleton in Hx as ->. constructor.
  - inversion Hp; subst. apply elem_of_cons in Hx as [->|Hx]; [constructor|].
    eapply rtc_l; [done|]. by apply IH.
Qed.

(** No cycle passes through an item that a root reaches. *)
Lemma no_cycle r x y : root r -> reach r x -> follows x y -> reach y x -> False.
Proof.
  intros Hroot Hr. revert x Hr y. refine (rtc_ind_r _ _ _ _).
  - intros y Hxy Hyx. apply rtc_inv_r in Hyx as [->|(w & _ & Hw)]; by eapply root_not_followed.
  - intros z x Hz Hzx IH y Hxy Hyx. apply rtc_inv_r in Hyx as [->|(w & Hyw & Hwx)].
    + pose proof (succ_inj Hok _ _ _ Hxy Hzx). subst z. by apply (IH x); [|constructor].
    + pose proof (succ_inj Hok _ _ _ Hwx Hzx). subst w. apply (IH x); [done|].
      by eapply rtc_l.
Qed.

Lemma path_NoDup r o p : root r -> reach r o -> path (o :: p) -> NoDup (o :: p).
Proof.
  intros Hroot. revert o. induction p as [|o' p IH]; intros o Hr Hp.
  - apply NoDup_singleton.
  - inversion Hp as [|? ? ? Ho Hp']; subst. constructor.
    + intros Hin. eapply (no_cycle r o o'); [done..|]. by eapply path_reach.
    + apply IH; [|done]. by eapply rtc_r.
Qed.

Lemma NoDup_bound (l : list Z) n :
  NoDup l -> Forall (fun o => 1 <= o <= n) l -> Z.of_nat (length l) <= Z.max 0 n.
Proof.
  intros Hnd Hall.
  assert (Hsub : l ⊆ seqZ 1 n).
  { intros x Hx. apply elem_of_seqZ. rewrite Forall_forall in Hall. specialize (Hall x Hx). lia. }
  pose proof (NoDup_submseteq l (seqZ 1 n) Hnd Hsub) as Hs. apply submseteq_length in Hs.
  rewrite length_seqZ in Hs. lia.
Qed.

Lemma path_range o p : path (o :: p) -> 1 <= o <= maxoff linp ->
  Forall (fun x => 1 <= x <= maxoff linp) (o :: p).
Proof.
  revert o. induction p as [|o' p IH]; intros o Hp Ho; [by apply Forall_singleton|].
  inversion Hp as [|? ? ? Hs Hp']; subst. constructor; [done|].
  apply IH; [done|]. by eapply succ_range.
Qed.

Lemma path_snoc o p x y : path (o :: p) -> last (o :: p) = Some x -> succ x = Some y ->
  path (o :: p ++ [y]).
Proof.
  revert o. induction p as [|o' p IH]; intros o Hp Hl Hs.
  - injection Hl as ->. cbn. constructor; [done|constructor].
  - inversion Hp; subst. cbn. constructor; [done|]. apply IH; done.
Qed.

Lemma chain_path o C : chain_from o C -> path C.
Proof.
  induction 1 as [o Ho|o o' C Ho HC IH]; [constructor|].
  destruct (chain_head _ _ HC) as [C' ->]. by constructor.
Qed.

Lemma chain_exists_aux n r o p :
  root r -> r = hd o p \/ p = [] /\ r = o ->
  path (p ++ [o]) -> (Z.to_nat (maxoff linp) <= length p + n)%nat -> exists C, chain_from o C.
Proof.
  intros Hroot Hr. revert o p Hr. induction n as [|n IH]; intros o p Hr Hp Hn.
  - destruct (succ o) as [o'|] eqn:E; [|exists [o]; by constructor].
    exfalso. destruct p as [|x p].
    + cbn in Hn. apply succ_range in E. unfold maxoff in *. lia.
    + destruct Hr as [Hr|[? _]]; [|done]. cbn in Hr, Hp, Hn. subst x.
      assert (Hp2 : path (r :: (p ++ [o]) ++ [o'])).
      { eapply path_snoc; [done| |done]. by rewrite app_comm_cons, last_snoc. }
      pose proof (path_NoDup r r _ Hroot (rtc_refl _ _) Hp2) as Hnd.
      apply NoDup_bound with (n := maxoff linp) in Hnd.
      * cbn in Hnd. rewrite !length_app in Hnd. cbn in Hnd. unfold maxoff in *. lia.
      * apply path_range; [done|]. by apply root_range.
  - destruct (succ o) as [o'|] eqn:E; [|exists [o]; by constructor].
    destruct (IH o' (p ++ [o])) as [C HC].
    + left. destruct Hr as [->|[-> ->]]; [|done]. by destruct p.
    + destruct p as [|x p]; cbn in *.
      * constructor; [done|constructor].
      * eapply path_snoc; [done| |done]. by rewrite app_comm_cons, last_snoc.
    + rewrite length_app. cbn. lia.
    + exists (o :: C). by econstructor.
Qed.

Lemma chain_exists r : root r -> exists C, chain_from r C.
Proof.
  intros Hr. apply (chain_exists_aux (Z.to_nat (maxoff linp)) r r []); [done|by right|constructor|cbn; lia].
Qed.

Lemma chain_NoDup r C : root r -> chain_from r C -> NoDup C.
Proof.
  intros Hr HC. destruct (chain_head _ _ HC) as [C' ->].
  eapply (path_NoDup r r); [done|constructor|by eapply chain_path].
Qed.

Lemma chain_range r C : root r -> chain_from r C -> Forall (fun x => 1 <= x <= maxoff linp) C.
Proof.
  intros Hr HC. destruct (chain_head _ _ HC) as [C' ->].
  apply path_range; [by eapply chain_path|by apply root_range].
Qed.

Lemma chain_length r C : root r -> chain_from r C -> (length C <= MaxHeapTuplesPerPage)%nat.
Proof.
  intros Hr HC. pose proof (NoDup_bound C (maxoff linp) (chain_NoDup _ _ Hr HC)
    (chain_range _ _ Hr HC)) as H. pose proof (few Hok). unfold maxoff in H. lia.
Qed.

Lemma chain_tail_heap_only o C x : chain_from o (o :: C) -> x ∈ C -> heap_only x.
Proof.
  revert o. induction C as [|o' C IH]; intros o HC Hx; [by apply elem_of_nil in Hx|].
  inversion HC as [|? y ? Hs HC']; subst. destruct (chain_head _ _ HC') as [C' [= -> ->]].
  apply elem_of_cons in Hx as [->|Hx]; [by eapply succ_heap_only|by eapply IH].
Qed.
End page.
End props.
