(* ===== verification/HotWalk.v ===== *)
(** What heap_prune_chain does with the chain of a root: the walk along it,
    and the plan it makes. *)
From stdpp Require Import relations.
From S2P Require Import Prelude Visibility Prune HotChain HotProps.

Section walk.
Context `{HH : HtupFlags} `{HW : World} `{HM : PageMacros} `{HLP : LinePointers} `{HHF : HotFlags}.
Context `{HLL : !LinePointersLaws}.
Variable linp : list ItemId.
Variable tuple_at : ItemId -> option TupleHeader.
Variable hs : list (option HTSV_Result).

Abbreviation tuple := (tuple linp tuple_at).
Abbreviation redirect := (redirect linp).
Abbreviation succ := (succ linp tuple_at).
Abbreviation member := (member linp tuple_at).
Abbreviation chain_from := (chain_from linp tuple_at).
Abbreviation root := (root linp tuple_at).
Abbreviation heap_only := (heap_only linp tuple_at).

(** The verdict on an item. *)
Definition verdict (o : Z) : option HTSV_Result := mjoin (hs !! Z.to_nat o).

Definition dead (o : Z) : bool :=
  match verdict o with Some HEAPTUPLE_DEAD => true | _ => false end.
Definition recently_dead (o : Z) : bool :=
  match verdict o with Some HEAPTUPLE_RECENTLY_DEAD => true | _ => false end.

(** The walk goes on behind redirects, dead and recently dead tuples. *)
Definition passes (o : Z) : bool :=
  match redirect o with Some _ => true | None => dead o || recently_dead o end.

(** The items collected on a chain when [mk] are marked. *)
Fixpoint walk_list (mk : Z -> bool) (C : list Z) : list Z :=
  match C with
  | [] => []
  | o :: C => if mk o then [] else if passes o then o :: walk_list mk C else [o]
  end.

(** The last dead tuple in a list, and the list up to it. *)
Fixpoint last_dead (d : Z) (W : list Z) : Z :=
  match W with
  | [] => d
  | o :: W => last_dead (if dead o then o else d) W
  end.

Definition marks (w : PruneWork) (o : Z) : bool := default false (is_marked w o).

Definition good (w : PruneWork) : Prop :=
  length (marked w) = S MaxHeapTuplesPerPage /\ htsv w = hs.

(** The walk notes a prune xid and a conflict horizon; the plan stays. *)
Definition same_plan (w w' : PruneWork) : Prop :=
  redirected w' = redirected w /\ nowdead w' = nowdead w /\ nowunused w' = nowunused w
  /\ marked w' = marked w /\ htsv w' = htsv w.

#[export] Instance same_plan_preorder : PreOrder same_plan.
Proof.
  split; [by intros w|]. intros w1 w2 w3 (?&?&?&?&?) (?&?&?&?&?).
  split_and!; congruence.
Qed.

Lemma same_plan_good w w' : same_plan w w' -> good w -> good w'.
Proof. intros (_ & _ & _ & Hm & Hh) [Hl Hs]. split; congruence. Qed.

Lemma same_plan_marks w w' : same_plan w w' -> marks w' = marks w.
Proof. intros (_ & _ & _ & Hm & _). unfold marks, is_marked. by rewrite Hm. Qed.

(** Every tuple of the page has been judged. *)
Record judged : Prop := {
  judged_length : length hs = S MaxHeapTuplesPerPage;
  judged_tuple o h : tuple o = Some h -> is_Some (verdict o);
  judged_only o : tuple o = None -> verdict o = None;
}.

Hypothesis Hok : hot_ok linp tuple_at.
Hypothesis Hj : judged.

Lemma maxoff_few : maxoff linp <= Z.of_nat MaxHeapTuplesPerPage.
Proof. pose proof (few _ _ Hok). unfold maxoff. lia. Qed.

Lemma is_marked_Some w o :
  good w -> 1 <= o <= maxoff linp -> is_marked w o = Some (marks w o).
Proof.
  intros [Hl _] Ho. unfold marks. pose proof maxoff_few.
  destruct (is_marked w o) eqn:E; [done|]. apply lookup_ge_None in E. lia.
Qed.

Lemma verdict_lookup w o : good w -> 1 <= o <= maxoff linp ->
  htsv w !! Z.to_nat o = Some (verdict o).
Proof.
  intros [_ Hs] Ho. rewrite Hs. unfold verdict. pose proof maxoff_few.
  destruct (hs !! Z.to_nat o) eqn:E; [done|]. apply lookup_ge_None in E.
  rewrite (judged_length Hj) in E. lia.
Qed.

Lemma tuple_inv o h : tuple o = Some h -> exists lp,
  PageGetItemId linp o = Some lp /\ ItemIdIsNormal lp = true /\ tuple_at lp = Some h.
Proof.
  unfold HotProps.tuple. intros E. repeat case_match; try done. eauto.
Qed.

(** ** The walk *)

(** The walk ends before an item that is not a member of the chain. *)
Lemma chain_loop_stops fuel rootlp o v w :
  good w -> chainitems v <> [] ->
  member o (priorXmax v) = false ->
  chain_loop linp tuple_at (S fuel) rootlp o v w = (Ret v, w).
Proof.
  intros Hg Hne Hm. cbn [chain_loop].
  destruct (Z.ltb_spec o FirstOffsetNumber) as [|H1]; [done|].
  destruct (Z.ltb_spec (maxoff linp) o) as [|H2]; [done|]. unfold FirstOffsetNumber in *.
  cbn. unfold bind at 1, get. rewrite (is_marked_Some w o) by (done || lia). cbn.
  destruct (marks w o); [done|].
  destruct (PageGetItemId_is_Some linp o) as [lp E]; [lia|]. rewrite E. cbn.
  destruct (ItemIdIsUsed lp) eqn:Hu; [|done]. cbn.
  destruct (ItemIdIsRedirected lp) eqn:Hr.
  { destruct (chainitems v); [done|]. done. }
  destruct (ItemIdIsDead lp) eqn:Hd; [done|].
  pose proof (used_kind lp Hu Hr Hd) as Hn.
  apply PageGetItemId_Some in E as E'. destruct E' as [_ Hin].
  destruct (headers _ _ Hok lp Hin Hn) as [h Hh]. rewrite Hh. cbn.
  unfold HotProps.member, HotProps.tuple in Hm. rewrite E, Hn, Hh in Hm.
  apply negb_false_iff in Hm. by rewrite Hm.
Qed.

Lemma record_prunable_spec x w :
  exists w', heap_prune_record_prunable x w = (Ret tt, w') /\ same_plan w w'.
Proof.
  unfold heap_prune_record_prunable, bind, get. destruct (_ || _); eexists; split; done.
Qed.

Lemma member_status_spec o h w :
  good w -> tuple o = Some h ->
  exists w', member_status o h w = (Ret (dead o, recently_dead o), w') /\ same_plan w w'.
Proof.
  intros Hg Ht. unfold member_status, htsv_of.
  pose proof (tuple_range _ _ _ _ Ht) as Hr.
  unfold bind at 1. unfold bind at 1, get. rewrite (verdict_lookup w o Hg Hr). cbn.
  destruct (judged_tuple Hj _ _ Ht) as [x Hx]. unfold dead, recently_dead. rewrite Hx.
  destruct (record_prunable_spec (HeapTupleHeaderGetUpdateXid (fields h)) w) as (w' & E & Hp).
  destruct x; first [by exists w | exists w'; split; [by mstep E|done]].
Qed.

Lemma advance_horizon_spec h w :
  exists w', advance_horizon h w = (Ret tt, w') /\ same_plan w w'.
Proof.
  unfold advance_horizon, modify. eexists. split; [done|].
  destruct (HeapTupleHeaderAdvanceConflictHorizon _ _ _). done.
Qed.

Lemma step_marked fuel rootlp o v w :
  good w -> 1 <= o <= maxoff linp -> marks w o = true ->
  chain_loop linp tuple_at (S fuel) rootlp o v w = (Ret v, w).
Proof.
  intros Hg Ho Hm. cbn [chain_loop]. unfold FirstOffsetNumber.
  rewrite (proj2 (Z.ltb_ge _ _)), (proj2 (Z.ltb_ge _ _)) by lia.
  unfold bind at 1, get. rewrite (is_marked_Some w o Hg Ho), Hm. done.
Qed.

Lemma with_item_spec o v w :
  (length (chainitems v) < MaxHeapTuplesPerPage)%nat ->
  with_item o v w = (Ret {| chainitems := chainitems v ++ [o]; latestdead := latestdead v;
                            priorXmax := priorXmax v |}, w).
Proof. intros Hl. unfold with_item, append. by rewrite (proj2 (Nat.ltb_lt _ _) Hl). Qed.

Lemma step_redirect fuel rootlp o t v w :
  good w -> marks w o = false -> PageGetItemId linp o = Some rootlp -> redirect o = Some t ->
  chainitems v = [] -> (0 < MaxHeapTuplesPerPage)%nat ->
  chain_loop linp tuple_at (S fuel) rootlp o v w =
  chain_loop linp tuple_at fuel rootlp t
    {| chainitems := [o]; latestdead := latestdead v; priorXmax := priorXmax v |} w.
Proof.
  intros Hg Hm Hlp Ht Hv Hmax. pose proof (redirect_range _ _ _ Ht) as Ho.
  cbn [chain_loop]. unfold FirstOffsetNumber.
  rewrite (proj2 (Z.ltb_ge _ _)), (proj2 (Z.ltb_ge _ _)) by lia.
  unfold bind at 1, get. rewrite (is_marked_Some w o Hg Ho), Hm. cbn [defined]. rewrite bind_ret_l.
  rewrite Hlp. cbn [defined]. rewrite bind_ret_l.
  unfold HotProps.redirect in Ht. rewrite Hlp in Ht.
  destruct (ItemIdIsRedirected rootlp) eqn:E; [|done]. injection Ht as Ht.
  rewrite (redirected_used _ E), Hv. cbn [negb length]. cbn.
  assert (Hl : (length (chainitems v) < MaxHeapTuplesPerPage)%nat) by (by rewrite Hv).
  mstep (with_item_spec o v w Hl). by rewrite Hv, Ht.
Qed.

Lemma step_tuple fuel rootlp o h v w :
  good w -> marks w o = false -> tuple o = Some h -> member o (priorXmax v) = true ->
  (length (chainitems v) < MaxHeapTuplesPerPage)%nat ->
  exists w1, same_plan w w1 /\
    chain_loop linp tuple_at (S fuel) rootlp o v w =
    if dead o || recently_dead o then
      let d := if dead o then o else latestdead v in
      if HeapTupleHeaderIsHotUpdated h then
        chain_loop linp tuple_at fuel rootlp (snd (t_ctid (fields h)))
          {| chainitems := chainitems v ++ [o]; latestdead := d;
             priorXmax := HeapTupleHeaderGetUpdateXid (fields h) |} w1
      else (Ret {| chainitems := chainitems v ++ [o]; latestdead := d;
                   priorXmax := priorXmax v |}, w1)
    else (Ret {| chainitems := chainitems v ++ [o]; latestdead := latestdead v;
                 priorXmax := priorXmax v |}, w1).
Proof.
  intros Hg Hm Ht Hmem Hl. pose proof (tuple_range _ _ _ _ Ht) as Ho.
  destruct (tuple_inv _ _ Ht) as (lp & Hlp & Hn & Hh).
  destruct (member_status_spec o h w Hg Ht) as (w1 & E1 & P1).
  destruct (advance_horizon_spec (fields h) w1) as (w2 & E2 & P2).
  exists (if dead o then w2 else w1). split; [destruct (dead o); [by etrans|done]|].
  cbn [chain_loop]. unfold FirstOffsetNumber.
  rewrite (proj2 (Z.ltb_ge _ _)), (proj2 (Z.ltb_ge _ _)) by lia.
  unfold bind at 1, get. rewrite (is_marked_Some w o Hg Ho), Hm. cbn [defined]. rewrite bind_ret_l.
  rewrite Hlp. cbn [defined]. rewrite bind_ret_l.
  destruct (normal_kind _ Hn) as [-> ->]. rewrite (normal_used _ Hn). cbn [negb].
  rewrite Hh. cbn [defined]. rewrite bind_ret_l.
  unfold HotProps.member in Hmem. rewrite Ht in Hmem. apply negb_true_iff in Hmem. rewrite Hmem.
  mstep (with_item_spec o v w Hl). mstep E1.
  destruct (dead o); cbn [negb andb orb].
  - mstep E2. cbn [chainitems latestdead priorXmax].
    by destruct (HeapTupleHeaderIsHotUpdated h).
  - destruct (recently_dead o); cbn [negb]; [|done]. rewrite bind_ret_l.
    cbn [chainitems latestdead priorXmax]. by destruct (HeapTupleHeaderIsHotUpdated h).
Qed.

(** The tuple of an item on a chain, and where its successor comes from. *)
Lemma succ_tuple o h : tuple o = Some h ->
  succ o = if HeapTupleHeaderIsHotUpdated h then
             if member (snd (t_ctid (fields h))) (HeapTupleHeaderGetUpdateXid (fields h))
             then Some (snd (t_ctid (fields h))) else None
           else None.
Proof.
  intros Ht. unfold HotProps.succ, HotProps.link. rewrite (tuple_redirect _ _ _ _ Ht), Ht.
  by destruct (HeapTupleHeaderIsHotUpdated h).
Qed.

Lemma succ_redirect o t : redirect o = Some t ->
  succ o = if member t InvalidTransactionId then Some t else None.
Proof. intros Ht. unfold HotProps.succ, HotProps.link. by rewrite Ht. Qed.

(** Where the walk stands: at a member, or at the root with nothing
    collected. *)
Definition stands (rootlp : ItemId) (o : Z) (v : Walk) : Prop :=
  member o (priorXmax v) = true /\ chainitems v <> [] \/
  root o /\ PageGetItemId linp o = Some rootlp /\ chainitems v = []
  /\ priorXmax v = InvalidTransactionId.

Lemma stands_cases rootlp o v :
  stands rootlp o v ->
  (exists h, tuple o = Some h /\ member o (priorXmax v) = true) \/
  exists t, redirect o = Some t /\ PageGetItemId linp o = Some rootlp /\ chainitems v = []
            /\ priorXmax v = InvalidTransactionId.
Proof.
  intros [[Hm _]|([[t Ht]|(h & Hh & _)] & Hlp & Hv & Hx)].
  - left. unfold HotProps.member in Hm |- *. destruct (tuple o) as [h|]; [eauto|done].
  - right. eauto.
  - left. exists h. split; [done|]. unfold HotProps.member. rewrite Hh, Hx.
    unfold TransactionIdIsValid. by rewrite Z.eqb_refl.
Qed.

Lemma passes_tuple o h : tuple o = Some h -> passes o = dead o || recently_dead o.
Proof. intros Ht. unfold passes. by rewrite (tuple_redirect _ _ _ _ Ht). Qed.

Lemma redirect_not_dead o t : redirect o = Some t -> dead o = false.
Proof.
  intros Ht. unfold dead. rewrite (judged_only Hj); [done|].
  unfold HotProps.tuple, HotProps.redirect in *. destruct (PageGetItemId linp o); [|done].
  destruct (ItemIdIsRedirected i) eqn:E; [|done]. destruct (ItemIdIsNormal i) eqn:En; [|done].
  destruct (normal_kind i En). congruence.
Qed.

Lemma chain_from_cons o C : chain_from o C ->
  exists C', C = o :: C' /\ (succ o = None /\ C' = [] \/ exists o', succ o = Some o' /\ chain_from o' C').
Proof. intros []; eauto 10. Qed.

(** The loop collects [walk_list] of what is left of the chain. *)
Definition loop_collects (fuel : nat) (rootlp : ItemId) (o : Z) (v : Walk) (w : PruneWork)
    (C : list Z) : Prop :=
  exists w' x, chain_loop linp tuple_at fuel rootlp o v w =
    (Ret {| chainitems := chainitems v ++ walk_list (marks w) C;
            latestdead := last_dead (latestdead v) (walk_list (marks w) C);
            priorXmax := x |}, w')
    /\ same_plan w w'.

Lemma chain_loop_spec C fuel rootlp o v w :
  chain_from o C -> stands rootlp o v -> good w ->
  (length (chainitems v) + length C <= MaxHeapTuplesPerPage)%nat -> (length C < fuel)%nat ->
  loop_collects fuel rootlp o v w C.
Proof.
  revert o fuel v w. induction C as [|x C IH]; intros o fuel v w HC Hpos Hg Hlen Hfuel;
    [inversion HC|].
  destruct (chain_from_cons _ _ HC) as (C' & [= -> <-] & Hnext).
  destruct fuel as [|fuel]; [cbn in Hfuel; lia|]. cbn [length] in *.
  assert (Hcont : forall t p v2 w2, succ o = (if member t p then Some t else None) ->
    priorXmax v2 = p -> chainitems v2 = chainitems v ++ [o] -> same_plan w w2 ->
    loop_collects fuel rootlp t v2 w2 C).
  { intros t p v2 w2 Hs Hp Hv2 Hw2.
    assert (Hne : chainitems v2 <> []) by (rewrite Hv2; by destruct (chainitems v)).
    pose proof (same_plan_good _ _ Hw2 Hg) as Hg2.
    destruct (member t p) eqn:Hm.
    - destruct Hnext as [[? _]|(o' & Ho' & HC')]; [congruence|].
      replace o' with t in HC' by congruence. apply IH; try done.
      + left. by rewrite Hp.
      + rewrite Hv2, length_app. cbn. lia.
      + lia.
    - destruct Hnext as [[_ ->]|(o' & Ho' & _)]; [|congruence].
      destruct fuel as [|f]; [cbn in Hfuel; lia|].
      exists w2, (priorXmax v2). rewrite chain_loop_stops by (done || by rewrite Hp).
      cbn. rewrite app_nil_r. by destruct v2. }
  unfold loop_collects. cbn [walk_list].
  destruct (stands_cases _ _ _ Hpos) as [(h & Hh & Hm)|(t & Ht & Hlp & Hv & Hx)].
  - destruct (marks w o) eqn:Hmk.
    { rewrite step_marked by eauto using tuple_range. exists w, (priorXmax v).
      cbn. rewrite app_nil_r. by destruct v. }
    destruct (step_tuple fuel rootlp o h v w Hg Hmk Hh Hm) as (w1 & P1 & ->); [lia|].
    rewrite (passes_tuple _ _ Hh).
    destruct (dead o || recently_dead o) eqn:Hp; cbn zeta.
    + pose proof (succ_tuple _ _ Hh) as Hs.
      destruct (HeapTupleHeaderIsHotUpdated h).
      * destruct (Hcont _ _ {| chainitems := chainitems v ++ [o];
            latestdead := if dead o then o else latestdead v;
            priorXmax := HeapTupleHeaderGetUpdateXid (fields h) |} w1 Hs)
          as (w2 & y & -> & P2); try done.
        exists w2, y. cbn [chainitems latestdead]. rewrite <- app_assoc.
        rewrite (same_plan_marks _ _ P1). split; [done|by etrans].
      * destruct Hnext as [[_ ->]|(o' & Ho' & _)]; [|congruence].
        exists w1, (priorXmax v). done.
    + exists w1, (priorXmax v). cbn [last_dead].
      apply orb_false_iff in Hp as [-> _]. done.
  - destruct (marks w o) eqn:Hmk.
    { rewrite step_marked by eauto using redirect_range. exists w, (priorXmax v).
      cbn. rewrite app_nil_r. by destruct v. }
    rewrite (step_redirect _ _ _ t) by (done || lia).
    destruct (Hcont _ _ {| chainitems := [o]; latestdead := latestdead v;
        priorXmax := priorXmax v |} w (succ_redirect _ _ Ht)) as (w2 & y & -> & P2); try done.
    { by rewrite Hv. }
    exists w2, y. unfold passes. rewrite Ht, Hv. cbn [chainitems latestdead last_dead].
    rewrite (redirect_not_dead _ _ Ht). done.
Qed.

(** ** The plan for a chain *)

(** The items up to the last dead tuple, and those behind it. *)
Fixpoint dead_part (W : list Z) : list Z :=
  match W with
  | [] => []
  | o :: W => match dead_part W with
              | [] => if dead o then [o] else []
              | D => o :: D
              end
  end.
Definition live_part (W : list Z) : list Z := drop (length (dead_part W)) W.

Lemma dead_part_cons o W :
  dead_part (o :: W) = match dead_part W with [] => if dead o then [o] else [] | D => o :: D end.
Proof. done. Qed.

Lemma dead_live_parts W : W = dead_part W ++ live_part W.
Proof.
  unfold live_part. induction W as [|o W IH]; [done|]. cbn.
  destruct (dead_part W) as [|x D]; [by destruct (dead o)|]. cbn in *. by f_equal.
Qed.

Lemma last_dead_part d W : last_dead d W = default d (last (dead_part W)).
Proof.
  revert d. induction W as [|o W IH]; intros d; [done|]. cbn [last_dead dead_part].
  rewrite IH. destruct (dead_part W) as [|x D] eqn:E; [by destruct (dead o)|].
  destruct (last (x :: D)) eqn:El; [|by apply last_None in El].
  rewrite (last_cons o (x :: D)). by rewrite El.
Qed.

Lemma live_part_alive W x : x ∈ live_part W -> dead x = false.
Proof.
  unfold live_part. induction W as [|o W IH]; cbn [dead_part]; [by intros ?%elem_of_nil|].
  destruct (dead_part W) as [|y D] eqn:E; [|exact IH].
  cbn in IH. rewrite drop_0 in IH. destruct (dead o) eqn:Ho; cbn; [done|].
  intros [->|Hx]%elem_of_cons; [done|by apply IH].
Qed.

Lemma dead_part_last W x : last (dead_part W) = Some x -> dead x = true.
Proof.
  induction W as [|o W IH]; cbn [dead_part]; [done|].
  destruct (dead_part W) as [|y D] eqn:E.
  - destruct (dead o) eqn:Ho; [|done]. by intros [= <-].
  - rewrite last_cons. intros Hl. apply IH. destruct (last (y :: D)) eqn:El; [done|].
    by apply last_None in El.
Qed.

Lemma eqb_in_singleton (y x : Z) : (y =? x) = bool_decide (y ∈ [x]).
Proof. destruct (Z.eqb_spec y x); [by rewrite bool_decide_true; set_solver|]. by rewrite bool_decide_false; set_solver. Qed.

(** Everything a plan mentions. *)
Definition touched (w : PruneWork) : list Z :=
  (redirected w).*1 ++ (redirected w).*2 ++ nowdead w ++ nowunused w.

(** No item is planned for twice, and the marks are the plan. *)
Record plan_ok (w : PruneWork) : Prop := {
  plan_good : good w;
  plan_once : NoDup (touched w);
  plan_range o : o ∈ touched w -> 1 <= o <= maxoff linp;
  plan_marks o : 1 <= o <= maxoff linp -> marks w o = bool_decide (o ∈ touched w);
}.

(** The plan has grown. *)
Record adds (w w' : PruneWork) (r : list (Z * Z)) (d u : list Z) : Prop := {
  adds_redirected : redirected w' = redirected w ++ r;
  adds_dead : nowdead w' = nowdead w ++ d;
  adds_unused : nowunused w' = nowunused w ++ u;
  adds_ok : plan_ok w';
}.

Lemma marks_set w o m x :
  mark o (marked w) = Some m -> 0 <= o -> 0 <= x ->
  default false (m !! Z.to_nat x) = (x =? o) || marks w x.
Proof.
  unfold mark, marks, is_marked. destruct (Nat.ltb_spec (Z.to_nat o) (length (marked w))); [|done].
  intros [= <-] Ho Hx. destruct (Z.eqb_spec x o) as [->|Hne].
  - by rewrite list_lookup_insert_eq.
  - rewrite list_lookup_insert_ne by lia. done.
Qed.

Lemma mark_Some w o : good w -> 1 <= o <= maxoff linp ->
  exists m, mark o (marked w) = Some m /\ length m = length (marked w).
Proof.
  intros [Hl _] Ho. unfold mark. pose proof maxoff_few. rewrite (proj2 (Nat.ltb_lt _ _)) by lia.
  eexists. split; [done|]. apply length_insert.
Qed.

Lemma touched_room w l x :
  plan_ok w -> x ∉ touched w -> 1 <= x <= maxoff linp -> NoDup l -> l ⊆ touched w ->
  (length l < MaxHeapTuplesPerPage)%nat.
Proof.
  intros Hok' Hx Hr Hnd Hsub.
  assert (Hb : Z.of_nat (length (x :: l)) <= Z.max 0 (maxoff linp)).
  { apply NoDup_bound.
    - constructor; [|done]. intros ?. apply Hx. by apply Hsub.
    - constructor; [done|]. apply Forall_forall. intros y Hy. apply (plan_range _ Hok'). by apply Hsub. }
  pose proof maxoff_few. unfold maxoff in *. cbn in Hb. lia.
Qed.

(** Adding an entry to one of the lists. *)
Lemma plan_grows w w' new :
  plan_ok w -> NoDup new -> (forall y, y ∈ new -> 1 <= y <= maxoff linp /\ y ∉ touched w) ->
  touched w' ≡ₚ new ++ touched w ->
  length (marked w') = length (marked w) -> htsv w' = htsv w ->
  (forall y, 0 <= y -> marks w' y = bool_decide (y ∈ new) || marks w y) ->
  plan_ok w'.
Proof.
  intros Hp Hnd Hnew Ht Hl Hh Hm. destruct (plan_good _ Hp) as [Hlen Hhs]. constructor.
  - split; congruence.
  - rewrite Ht. apply NoDup_app. split; [done|]. split; [|apply Hp]. intros y Hy. by apply Hnew.
  - intros y. rewrite Ht, elem_of_app. intros [Hy|Hy]; [by apply Hnew|by apply (plan_range _ Hp)].
  - intros y Hy. rewrite Hm, (plan_marks _ Hp) by lia.
    rewrite <- bool_decide_or. apply bool_decide_ext. by rewrite Ht, elem_of_app.
Qed.

Lemma record_unused_spec x w :
  plan_ok w -> 1 <= x <= maxoff linp -> x ∉ touched w ->
  exists w', heap_prune_record_unused x w = (Ret tt, w') /\ adds w w' [] [] [x].
Proof.
  intros Hp Hx Hn. unfold heap_prune_record_unused, bind, get, append.
  assert (Hroom : (length (nowunused w) < MaxHeapTuplesPerPage)%nat).
  { apply (touched_room w _ x); try done.
    - pose proof (plan_once _ Hp) as H. unfold touched in H.
      by apply NoDup_app in H as (_ & _ & (_ & _ & (_ & _ & H)%NoDup_app)%NoDup_app).
    - unfold touched. set_solver. }
  rewrite (proj2 (Nat.ltb_lt _ _) Hroom). cbn.
  destruct (mark_Some w x (plan_good _ Hp) Hx) as (m & Em & Hl). rewrite Em. cbn.
  eexists. split; [done|]. constructor; cbn; rewrite ?app_nil_r; try done.
  eapply (plan_grows w _ [x]); cbn; try done.
  - apply NoDup_singleton.
  - intros y Hy. by apply list_elem_of_singleton in Hy as ->.
  - unfold touched. cbn. solve_Permutation.
  - intros y Hy. unfold marks at 1, is_marked. cbn. rewrite (marks_set _ _ _ _ Em) by lia.
    by rewrite eqb_in_singleton.
Qed.

Lemma record_dead_spec x w :
  plan_ok w -> 1 <= x <= maxoff linp -> x ∉ touched w ->
  exists w', heap_prune_record_dead x w = (Ret tt, w') /\ adds w w' [] [x] [].
Proof.
  intros Hp Hx Hn. unfold heap_prune_record_dead, bind, get, append.
  assert (Hroom : (length (nowdead w) < MaxHeapTuplesPerPage)%nat).
  { apply (touched_room w _ x); try done.
    - pose proof (plan_once _ Hp) as H. unfold touched in H.
      by apply NoDup_app in H as (_ & _ & (_ & _ & (H & _)%NoDup_app)%NoDup_app).
    - unfold touched. set_solver. }
  rewrite (proj2 (Nat.ltb_lt _ _) Hroom). cbn.
  destruct (mark_Some w x (plan_good _ Hp) Hx) as (m & Em & Hl). rewrite Em. cbn.
  eexists. split; [done|]. constructor; cbn; rewrite ?app_nil_r; try done.
  eapply (plan_grows w _ [x]); cbn; try done.
  - apply NoDup_singleton.
  - intros y Hy. by apply list_elem_of_singleton in Hy as ->.
  - unfold touched. cbn. solve_Permutation.
  - intros y Hy. unfold marks at 1, is_marked. cbn. rewrite (marks_set _ _ _ _ Em) by lia.
    by rewrite eqb_in_singleton.
Qed.

Lemma record_redirect_spec x t w :
  plan_ok w -> 1 <= x <= maxoff linp -> 1 <= t <= maxoff linp -> x <> t ->
  x ∉ touched w -> t ∉ touched w ->
  exists w', heap_prune_record_redirect x t w = (Ret tt, w') /\ adds w w' [(x, t)] [] [].
Proof.
  intros Hp Hx Ht Hne Hnx Hnt. unfold heap_prune_record_redirect, bind, get, append.
  assert (Hroom : (length (redirected w) < MaxHeapTuplesPerPage)%nat).
  { rewrite <- (length_fmap fst). apply (touched_room w _ x); try done.
    - pose proof (plan_once _ Hp) as H. unfold touched in H. by apply NoDup_app in H as (H & _).
    - unfold touched. set_solver. }
  rewrite (proj2 (Nat.ltb_lt _ _) Hroom). cbn.
  destruct (mark_Some w x (plan_good _ Hp) Hx) as (m & Em & Hl). rewrite Em. cbn.
  set (w1 := with_plan (redirected w) (nowdead w) (nowunused w) m w).
  assert (Hg1 : good w1) by (destruct (plan_good _ Hp); split; cbn; congruence).
  destruct (mark_Some w1 t Hg1 Ht) as (m2 & Em2 & Hl2). cbn in Em2, Hl2. rewrite Em2. cbn.
  eexists. split; [done|]. constructor; cbn; rewrite ?app_nil_r; try done.
  eapply (plan_grows w _ [x; t]); cbn; try done.
  - constructor; [set_solver|apply NoDup_singleton].
  - intros y Hy. apply elem_of_cons in Hy as [->|Hy]; [done|].
    by apply list_elem_of_singleton in Hy as ->.
  - unfold touched. cbn. rewrite !fmap_app. cbn. solve_Permutation.
  - congruence.
  - intros y Hy. unfold marks at 1, is_marked. cbn.
    rewrite (marks_set w1 t m2 y Em2) by lia. unfold marks at 1, is_marked. cbn.
    rewrite (marks_set _ _ _ _ Em) by lia.
    rewrite (eqb_in_singleton y x), (eqb_in_singleton y t), orb_assoc. f_equal.
    rewrite <- bool_decide_or. apply bool_decide_ext. set_solver.
Qed.

Lemma adds_refl_nil w : plan_ok w -> adds w w [] [] [].
Proof. by constructor; rewrite ?app_nil_r. Qed.

Lemma adds_trans w1 w2 w3 r d u r' d' u' :
  adds w1 w2 r d u -> adds w2 w3 r' d' u' -> adds w1 w3 (r ++ r') (d ++ d') (u ++ u').
Proof.
  intros [A1 A2 A3 _] [B1 B2 B3 B4]. constructor; [..|done]; rewrite app_assoc; congruence.
Qed.

Lemma adds_touched w w' r d u : adds w w' r d u ->
  touched w' ≡ₚ (r.*1 ++ r.*2 ++ d ++ u) ++ touched w.
Proof.
  intros [A1 A2 A3 _]. unfold touched. rewrite A1, A2, A3, !fmap_app. solve_Permutation.
Qed.

Lemma unused_loop_spec D prev R ld n w :
  plan_ok w -> NoDup (prev :: D ++ R) -> last (prev :: D) = Some ld ->
  (forall x, x ∈ D -> 1 <= x <= maxoff linp /\ x ∉ touched w) ->
  exists w', unused_loop prev (D ++ R) ld n w = (Ret (R, n + Z.of_nat (length D)), w')
    /\ adds w w' [] [] D.
Proof.
  revert prev n w. induction D as [|x D IH]; intros prev n w Hp Hnd Hl Hin.
  - cbn in Hl. injection Hl as ->. exists w. split; [|by apply adds_refl_nil].
    cbn [app length]. rewrite Z.add_0_r. destruct R as [|y R]; [done|]. cbn.
    by rewrite Z.eqb_refl.
  - cbn [app unused_loop]. inversion Hnd as [|? ? Hn Hnd']; subst.
    rewrite (proj2 (Z.eqb_neq prev ld)).
    2: { intros Heq. subst ld. apply Hn. change (last (prev :: x :: D)) with (last (x :: D)) in Hl.
         apply last_Some_elem_of in Hl. rewrite app_comm_cons. apply elem_of_app. by left. }
    destruct (Hin x) as [Hr Hx]; [by left|].
    destruct (record_unused_spec x w Hp Hr Hx) as (w1 & E1 & A1). mstep E1.
    destruct (IH x (n + 1) w1) as (w2 & E2 & A2).
    + apply A1.
    + done.
    + by change (last (prev :: x :: D)) with (last (x :: D)) in Hl.
    + intros y Hy. destruct (Hin y) as [Hyr Hyn]; [by right|]. split; [done|].
      rewrite (adds_touched _ _ _ _ _ A1). cbn.
      rewrite elem_of_cons. intros [->|?]; [|done].
      apply NoDup_cons in Hnd' as [Hnd' _]. apply Hnd'. apply elem_of_app. by left.
    + exists w2. split; [rewrite E2; f_equal; f_equal; cbn; f_equal; lia|].
      exact (adds_trans _ _ _ _ _ _ _ _ _ A1 A2).
Qed.

Lemma same_plan_touched w w' : same_plan w w' -> touched w' = touched w.
Proof. intros (Hr & Hd & Hu & _). unfold touched. congruence. Qed.

Lemma same_plan_ok w w' : same_plan w w' -> plan_ok w -> plan_ok w'.
Proof.
  intros Hs Hp. pose proof (same_plan_touched _ _ Hs) as Ht. constructor; try rewrite Ht.
  - by eapply same_plan_good, plan_good.
  - apply Hp.
  - apply (plan_range _ Hp).
  - intros o Ho. rewrite (same_plan_marks _ _ Hs). by apply plan_marks.
Qed.

Lemma same_plan_adds w w1 w' r d u : same_plan w w1 -> adds w1 w' r d u -> adds w w' r d u.
Proof. intros (Hr & Hd & Hu & _) [A1 A2 A3 A4]. constructor; congruence. Qed.

(** What is planned for the root [r] of the chain [C] when [mk] are
    marked. *)
Definition planned (mk : Z -> bool) (r : Z) (C : list Z) (w w' : PruneWork) : Prop :=
  let W := walk_list mk C in
  match dead_part W with
  | [] => if (length W <? 2)%nat && bool_decide (is_Some (redirect r))
          then adds w w' [] [r] [] else adds w w' [] [] []
  | _ :: D => match live_part W with
              | [] => adds w w' [] [r] D
              | t :: _ => adds w w' [(r, t)] [] D
              end
  end.

Definition planned_count (mk : Z -> bool) (r : Z) (C : list Z) : Z :=
  match dead_part (walk_list mk C) with
  | [] => 0
  | _ :: D => Z.of_nat (length D) + (if bool_decide (is_Some (tuple r)) then 1 else 0)
  end.

Lemma walk_list_prefix mk C : walk_list mk C `prefix_of` C.
Proof.
  induction C as [|o C IH]; [done|]. cbn. destruct (mk o); [apply prefix_nil|].
  destruct (passes o); [by apply prefix_cons|]. apply prefix_cons, prefix_nil.
Qed.

Lemma walk_list_unmarked mk C x : x ∈ walk_list mk C -> mk x = false.
Proof.
  induction C as [|o C IH]; cbn; [by intros ?%elem_of_nil|].
  destruct (mk o) eqn:E; [by intros ?%elem_of_nil|].
  destruct (passes o); intros [->|Hx]%elem_of_cons; auto. by apply elem_of_nil in Hx.
Qed.

Lemma normal_is_tuple r lp : PageGetItemId linp r = Some lp ->
  ItemIdIsNormal lp = bool_decide (is_Some (tuple r)).
Proof.
  intros E. symmetry. unfold HotProps.tuple. rewrite E. destruct (ItemIdIsNormal lp) eqn:En.
  - apply bool_decide_true. apply PageGetItemId_Some in E as [_ Hin]. by apply (headers _ _ Hok).
  - apply bool_decide_false. by intros [? ?].
Qed.

Lemma redirected_is_redirect r lp : PageGetItemId linp r = Some lp ->
  ItemIdIsRedirected lp = bool_decide (is_Some (redirect r)).
Proof.
  intros E. symmetry. unfold HotProps.redirect. rewrite E. destruct (ItemIdIsRedirected lp).
  - by apply bool_decide_true.
  - apply bool_decide_false. by intros [? ?].
Qed.

Lemma settle_chain_spec r rootlp C x w :
  root r -> PageGetItemId linp r = Some rootlp -> chain_from r C -> plan_ok w -> r ∉ touched w ->
  exists w', settle_chain r rootlp
      {| chainitems := walk_list (marks w) C; latestdead := last_dead 0 (walk_list (marks w) C);
         priorXmax := x |} w = (Ret (planned_count (marks w) r C), w')
    /\ planned (marks w) r C w w'.
Proof.
  intros Hroot Hlp HC Hp Hr. unfold settle_chain, planned, planned_count. cbn [chainitems latestdead].
  pose proof (root_range _ _ _ Hroot) as Hrr.
  pose proof (chain_range _ _ Hok _ _ Hroot HC) as Hrange. rewrite Forall_forall in Hrange.
  pose proof (chain_NoDup _ _ Hok _ _ Hroot HC) as Hnd.
  pose proof (walk_list_prefix (marks w) C) as Hpre.
  set (W := walk_list (marks w) C) in *.
  assert (Hin : forall y, y ∈ W -> 1 <= y <= maxoff linp /\ y ∉ touched w).
  { intros y Hy. assert (Hy' : 1 <= y <= maxoff linp) by by eapply Hrange, elem_of_prefix.
    split; [done|]. apply walk_list_unmarked in Hy. rewrite plan_marks in Hy by done.
    by apply bool_decide_eq_false in Hy. }
  assert (HndW : NoDup W) by (destruct Hpre as [k Hk]; rewrite Hk in Hnd; by apply NoDup_app in Hnd as (? & _)).
  rewrite last_dead_part, (redirected_is_redirect _ _ Hlp), (normal_is_tuple _ _ Hlp).
  pose proof (dead_live_parts W) as Hsplit.
  destruct (dead_part W) as [|r' D] eqn:ED.
  { cbn. destruct (_ && _).
    - destruct (record_dead_spec r w Hp Hrr Hr) as (w' & E & A). exists w'. by mstep E.
    - exists w. split; [done|]. by apply adds_refl_nil. }
  assert (r' = r) as ->.
  { destruct (chain_head _ _ _ _ HC) as [C' ->]. destruct Hpre as [k Hk]. rewrite Hsplit in Hk.
    by injection Hk. }
  destruct (last (r :: D)) as [ld|] eqn:El; [|by apply last_None in El].
  assert (Hld : 1 <= ld).
  { apply Hin. rewrite Hsplit. apply elem_of_app. left. by apply last_Some_elem_of. }
  change (default 0 (Some ld)) with ld. rewrite (proj2 (Z.eqb_neq ld 0)) by lia. cbn [negb].
  clearbody W. remember (live_part W) as L eqn:HL. rewrite Hsplit. cbn [app].
  destruct (unused_loop_spec D r L ld 0 w) as (w1 & E1 & A1); try done.
  { by rewrite app_comm_cons, <- Hsplit. }
  { intros y Hy. apply Hin. rewrite Hsplit. apply elem_of_app. left. by right. }
  mstep E1. rewrite Z.add_0_l.
  assert (Hnd' := HndW). rewrite Hsplit in Hnd'. cbn in Hnd'. apply NoDup_cons in Hnd' as [HrD HndD].
  assert (Hr1 : r ∉ touched w1).
  { rewrite (adds_touched _ _ _ _ _ A1). cbn. rewrite elem_of_app. intros [?|?]; [|done].
    apply HrD. apply elem_of_app. by left. }
  assert (Hcount : forall n : Z, (if bool_decide (is_Some (tuple r)) then n + 1 else n)
    = n + (if bool_decide (is_Some (tuple r)) then 1 else 0)) by (intros; case_match; lia).
  rewrite Hcount.
  destruct L as [|t L].
  - destruct (record_dead_spec r w1 (adds_ok _ _ _ _ _ A1) Hrr Hr1) as (w2 & E2 & A2).
    exists w2. split; [by mstep E2|]. pose proof (adds_trans _ _ _ _ _ _ _ _ _ A1 A2) as A.
    cbn in A. by rewrite app_nil_r in A.
  - assert (HtW : t ∈ W) by (rewrite Hsplit; apply elem_of_app; right; by left).
    destruct (Hin t HtW) as [Htr Htn].
    assert (Ht1 : t ∉ touched w1).
    { rewrite (adds_touched _ _ _ _ _ A1). cbn. rewrite elem_of_app. intros [?|?]; [|done].
      apply NoDup_app in HndD as (_ & Hdis & _). apply (Hdis t); [done|]. by left. }
    destruct (record_redirect_spec r t w1 (adds_ok _ _ _ _ _ A1) Hrr Htr) as (w2 & E2 & A2);
      [|done..|].
    { intros ->. apply HrD. apply elem_of_app. right. by left. }
    exists w2. split; [by mstep E2|]. pose proof (adds_trans _ _ _ _ _ _ _ _ _ A1 A2) as A.
    cbn in A. by rewrite app_nil_r in A.
Qed.

Lemma heap_prune_chain_root r C w :
  root r -> chain_from r C -> plan_ok w -> r ∉ touched w ->
  exists w', heap_prune_chain linp tuple_at r w = (Ret (planned_count (marks w) r C), w')
    /\ planned (marks w) r C w w'.
Proof.
  intros Hroot HC Hp Hr. pose proof (root_range _ _ _ Hroot) as Hrr.
  destruct (PageGetItemId_is_Some linp r Hrr) as [rootlp Hlp].
  destruct (chain_loop_spec C chain_fuel rootlp r
    {| chainitems := []; latestdead := 0; priorXmax := InvalidTransactionId |} w)
    as (w1 & x & E1 & P1); try done.
  { by right. } { apply Hp. }
  { cbn. by eapply chain_length. }
  { unfold chain_fuel. pose proof (chain_length _ _ Hok _ _ Hroot HC). lia. }
  cbn [chainitems latestdead app] in E1.
  rewrite <- (same_plan_marks _ _ P1) in E1 |- *.
  destruct (settle_chain_spec r rootlp C x w1 Hroot Hlp HC) as (w2 & E2 & A2).
  { by eapply same_plan_ok. } { by rewrite (same_plan_touched _ _ P1). }
  exists w2. split.
  - unfold heap_prune_chain. rewrite Hlp. cbn [defined]. rewrite bind_ret_l.
    rewrite (normal_is_tuple _ _ Hlp).
    destruct Hroot as [[t Ht]|(h & Hh & Hno)].
    + rewrite bool_decide_false. 2: { intros [h Hh]. apply tuple_redirect in Hh. congruence. }
      rewrite bind_ret_l. by mstep E1.
    + rewrite bool_decide_true by by eexists.
      destruct (tuple_inv _ _ Hh) as (lp & Hlp' & _ & Ha). rewrite Hlp in Hlp'. injection Hlp' as <-.
      rewrite Ha. cbn [defined]. rewrite bind_assoc, bind_ret_l, bind_ret_l, Hno. by mstep E1.
  - unfold planned in *. cbn zeta in *.
    repeat case_match; by eapply same_plan_adds.
Qed.

(** A dead tuple without successor that is reached as such. *)
Definition dead_end (x : Z) : Prop :=
  heap_only x /\ dead x = true /\
  exists h, tuple x = Some h /\ HeapTupleHeaderIsHotUpdated h = false.

Lemma heap_prune_chain_heap_only x w :
  heap_only x -> plan_ok w -> x ∉ touched w ->
  exists w', (dead_end x /\ heap_prune_chain linp tuple_at x w = (Ret 1, w')
              /\ adds w w' [] [] [x]) \/
             (~ dead_end x /\ heap_prune_chain linp tuple_at x w = (Ret 0, w')
              /\ adds w w' [] [] []).
Proof.
  intros (h & Hh & Ho) Hp Hx. destruct (tuple_inv _ _ Hh) as (lp & Hlp & Hn & Ha).
  pose proof (tuple_range _ _ _ _ Hh) as Hr.
  unfold heap_prune_chain. rewrite Hlp. cbn [defined]. rewrite bind_ret_l, Hn, Ha. cbn [defined].
  rewrite bind_assoc, bind_ret_l, bind_ret_l, Ho. unfold htsv_of.
  assert (Hv : bind get (fun w0 => defined (htsv w0 !! Z.to_nat x)) w = (Ret (verdict x), w)).
  { unfold bind, get. by rewrite (verdict_lookup w x (plan_good _ Hp) Hr). }
  mstep Hv.
  assert (Hd : bool_decide (verdict x = Some HEAPTUPLE_DEAD) = dead x).
  { unfold dead. destruct (verdict x) as [[]|]; done. }
  rewrite Hd. destruct (dead x && negb (HeapTupleHeaderIsHotUpdated h)) eqn:E.
  - apply andb_true_iff in E as [E1 E2%negb_true_iff].
    destruct (record_unused_spec x w Hp Hr Hx) as (w1 & R1 & A1).
    destruct (advance_horizon_spec (fields h) w1) as (w2 & R2 & P2).
    exists w2. left. split; [|split].
    + split; [by exists h|]. split; [done|]. by exists h.
    + mstep R1. by mstep R2.
    + destruct A1 as [A1 A2 A3 A4]. pose proof P2 as (Hr2 & Hd2 & Hu2 & _).
      constructor; [congruence..|]. by eapply same_plan_ok.
  - exists w. right. split; [|split; [done|by apply adds_refl_nil]].
    intros (_ & Hdx & h' & Hh' & Hnu). rewrite Hh in Hh'. injection Hh' as <-.
    by rewrite Hdx, Hnu in E.
Qed.
End walk.
