(* ===== verification/HotScan.v ===== *)
(** The scan of a page: what the plan is after every item has been
    visited. *)
From stdpp Require Import relations.
From S2P Require Import Prelude Visibility Prune HotChain HotProps HotWalk.

Section scan.
Context `{HH : HtupFlags} `{HW : World} `{HM : PageMacros} `{HLP : LinePointers} `{HHF : HotFlags}.
Context `{HLL : !LinePointersLaws}.
Variable linp : list ItemId.
Variable tuple_at : ItemId -> option TupleHeader.
Variable hs : list (option HTSV_Result).

Abbreviation tuple := (tuple linp tuple_at).
Abbreviation redirect := (redirect linp).
Abbreviation succ := (succ linp tuple_at).
Abbreviation follows := (follows linp tuple_at).
Abbreviation chain_from := (chain_from linp tuple_at).
Abbreviation root := (root linp tuple_at).
Abbreviation heap_only := (heap_only linp tuple_at).
Abbreviation dead := (dead hs).
Abbreviation recently_dead := (recently_dead hs).
Abbreviation passes := (passes linp hs).
Abbreviation walk_list := (walk_list linp hs).
Abbreviation dead_end := (dead_end linp tuple_at hs).
Abbreviation plan_ok := (plan_ok linp hs).
Abbreviation adds := (adds linp hs).

Hypothesis Hok : hot_ok linp tuple_at.
Hypothesis Hj : judged linp tuple_at hs.

(** A tuple no one can see: dead, or recently dead and followed by one. *)
Inductive surely_dead : Z -> Prop :=
| dead_here x : dead x = true -> surely_dead x
| dead_behind x y : recently_dead x = true -> follows x y -> surely_dead y -> surely_dead x.

(** Nothing of a list is planned for, but dead ends met on their own. *)
Definition only_dead_ends (w : PruneWork) (l : list Z) : Prop :=
  forall x, x ∈ l -> x ∈ touched w -> x ∈ nowunused w /\ dead_end x.

Definition all_marked_none : Z -> bool := fun _ => false.

(** Dead tuples the walk meets are on their way out. *)
Definition dead_handled (w : PruneWork) (l : list Z) : Prop :=
  forall x, x ∈ walk_list all_marked_none l -> dead x = true -> x ∈ nowunused w.

(** What was decided for a root and its chain. *)
Inductive settled (w : PruneWork) (r : Z) : list Z -> Prop :=
| settled_kept T :
    r ∉ touched w -> only_dead_ends w T ->
    (is_Some (redirect r) -> exists y T', T = y :: T' /\ dead y = false) ->
    dead_handled w (r :: T) -> dead r = false -> settled w r (r :: T)
| settled_redirected D t T :
    (r, t) ∈ redirected w -> D ⊆ nowunused w -> dead t = false ->
    only_dead_ends w T -> dead_handled w (t :: T) -> settled w r (r :: D ++ t :: T)
| settled_dead D : r ∈ nowdead w -> D ⊆ nowunused w -> settled w r (r :: D).

Definition gone (r : Z) : Prop := root r /\ (is_Some (tuple r) -> surely_dead r).

(** How many tuples the plan removes. *)
Definition removed_count (w : PruneWork) : Z :=
  Z.of_nat (length (nowunused w)) +
  Z.of_nat (length (filter (fun r => is_Some (tuple r)) (nowdead w ++ (redirected w).*1))).

(** The invariant of the scan, before item [k]. *)
Record scanned (k : Z) (w : PruneWork) : Prop := {
  scan_plan : plan_ok w;
  scan_unused x : x ∈ nowunused w -> heap_only x /\ surely_dead x;
  scan_dead r : r ∈ nowdead w -> gone r;
  scan_redirected r t : (r, t) ∈ redirected w -> gone r /\ heap_only t /\ dead t = false;
  scan_ends x : dead_end x -> x < k -> x ∈ nowunused w;
  scan_settled r C : root r -> chain_from r C -> r < k -> settled w r C;
  scan_fresh r C : root r -> chain_from r C -> k <= r -> only_dead_ends w C;
}.

(** ** The walk with and without marks *)

Lemma dead_passes x : dead x = true -> passes x = true.
Proof. unfold HotWalk.passes. intros ->. by destruct (redirect x). Qed.

(** If only ends of chains are marked, the walk leaves out at most the
    end. *)
Lemma walk_compare mk o C :
  chain_from o C -> (forall x, x ∈ C -> mk x = true -> succ x = None) ->
  let W := walk_list mk C in
  (C = W /\ walk_list all_marked_none C = W) \/
  (exists x, mk x = true /\ C = W ++ [x] /\ walk_list all_marked_none C = C) \/
  (exists l z T, C = W ++ T /\ W = l ++ [z] /\ passes z = false
                 /\ walk_list all_marked_none C = W).
Proof.
  intros HC Hends. cbn zeta. induction HC as [o Hs|o o' C Hs HC IH]; cbn.
  - destruct (mk o) eqn:Hm.
    + right. left. exists o. split; [done|]. split; [done|]. by destruct (passes o).
    + destruct (passes o); by left.
  - destruct (mk o) eqn:Hm.
    { rewrite (Hends o) in Hs; [done|by left|done]. }
    destruct (passes o) eqn:Hp.
    + destruct IH as [[H1 H2]|[(x & H1 & H2 & H3)|(l & z & T & H1 & H2 & H3 & H4)]].
      * intros x Hx. apply Hends. by right.
      * left. split; congruence.
      * right. left. exists x. split; [done|]. split; [cbn; congruence|congruence].
      * right. right. exists (o :: l), z, T. split; [cbn; congruence|].
        split; [cbn; congruence|]. split; [done|congruence].
    + right. right. exists [], o, C. done.
Qed.

Lemma dead_end_last x : dead_end x -> succ x = None.
Proof. intros (_ & _ & h & Hh & Hu). rewrite (succ_tuple _ _ _ _ Hh). by rewrite Hu. Qed.

(** ** Growing plans *)

Lemma adds_sub w w' r d u : adds w w' r d u ->
  redirected w ⊆ redirected w' /\ nowdead w ⊆ nowdead w' /\ nowunused w ⊆ nowunused w'.
Proof. intros [A1 A2 A3 _]. rewrite A1, A2, A3. set_solver. Qed.

Lemma only_dead_ends_sub w l l' : l ⊆ l' -> only_dead_ends w l' -> only_dead_ends w l.
Proof. intros Hs H x Hx. apply H. by apply Hs. Qed.

(** New entries that are no business of the chain keep it as it was. *)
Definition elsewhere (w' : PruneWork) (new C : list Z) : Prop :=
  forall x, x ∈ C -> x ∈ new -> x ∈ nowunused w' /\ dead_end x.

Lemma only_dead_ends_adds w w' r d u l :
  adds w w' r d u -> elsewhere w' (r.*1 ++ r.*2 ++ d ++ u) l ->
  only_dead_ends w l -> only_dead_ends w' l.
Proof.
  intros HA He Ho x Hx Ht. destruct (adds_sub _ _ _ _ _ HA) as (_ & _ & Hu).
  rewrite (adds_touched _ _ _ _ _ _ _ HA) in Ht. apply elem_of_app in Ht as [Ht|Ht].
  - by apply He.
  - destruct (Ho x Hx Ht). split; [by apply Hu|done].
Qed.

Lemma elsewhere_sub w' new C l : l ⊆ C -> elsewhere w' new C -> elsewhere w' new l.
Proof. intros Hs He x Hx. apply He. by apply Hs. Qed.

Lemma settled_adds w w' r d u x C :
  root x -> adds w w' r d u -> elsewhere w' (r.*1 ++ r.*2 ++ d ++ u) C ->
  settled w x C -> settled w' x C.
Proof.
  intros Hx HA He Hs. destruct (adds_sub _ _ _ _ _ HA) as (Hr & Hd & Hu).
  destruct Hs as [T Hn Ho Hy Hh Hdx|D t T Hin HD Ht Ho Hh|D Hin HD].
  - constructor; try done.
    + rewrite (adds_touched _ _ _ _ _ _ _ HA). intros [Hx'|]%elem_of_app; [|done].
      destruct (He x) as (_ & Hho & _); [by left|done|]. by eapply root_not_heap_only.
    + eapply only_dead_ends_adds; [done| |done]. eapply elsewhere_sub; [|done]. set_solver.
    + intros y Hy' Hdy. apply Hu. by apply Hh.
  - apply settled_redirected; try done.
    + by apply Hr.
    + by etrans.
    + eapply only_dead_ends_adds; [done| |done]. eapply elsewhere_sub; [|done]. set_solver.
    + intros y Hy' Hdy. apply Hu. by apply Hh.
  - apply settled_dead; [by apply Hd|by etrans].
Qed.

(** ** A root is settled by its visit *)

Lemma chain_surely_dead o C D R x y :
  chain_from o C -> C = D ++ R -> last D = Some y -> dead y = true ->
  (forall z, z ∈ D -> is_Some (redirect z) \/ dead z = true \/ recently_dead z = true) ->
  x ∈ D -> is_Some (tuple x) -> surely_dead x.
Proof.
  intros HC. revert D R x. induction HC as [o Hs|o o' C Hs HC IH]; intros D R x HD Hl Hy Hall Hx Ht.
  - destruct D as [|a D]; [by apply elem_of_nil in Hx|]. injection HD as <- HD.
    symmetry in HD. apply app_nil in HD as [-> ->].
    apply list_elem_of_singleton in Hx as ->. injection Hl as ->. by constructor.
  - destruct D as [|a D]; [by apply elem_of_nil in Hx|]. injection HD as <- HD.
    destruct D as [|b D].
    + apply list_elem_of_singleton in Hx as ->. injection Hl as ->. by constructor.
    + assert (Hl' : last (b :: D) = Some y) by exact Hl.
      assert (Hb : b = o') by (destruct (chain_head _ _ _ _ HC) as [C' ->]; by injection HD).
      apply elem_of_cons in Hx as [->|Hx].
      * destruct (Hall o) as [[t Hr]|[Hd|Hd]]; [by left| | |].
        -- destruct Ht as [h Hh]. apply tuple_redirect in Hh. congruence.
        -- by constructor.
        -- eapply dead_behind; [done|done|]. eapply (IH (b :: D)); try done.
           ++ intros z Hz. apply Hall. by right.
           ++ rewrite Hb. by left.
           ++ assert (Hho : heap_only o') by (by eapply succ_heap_only).
              destruct Hho as (h & Hh & _). by exists h.
      * eapply (IH (b :: D)); try done. intros z Hz. apply Hall. by right.
Qed.

Lemma walk_list_passes mk C l R : walk_list mk C = l ++ R -> R <> [] ->
  forall z, z ∈ l -> passes z = true.
Proof.
  revert l. induction C as [|o C IH]; cbn; intros l E HR z Hz.
  - destruct l; [by apply elem_of_nil in Hz|done].
  - destruct (mk o); [destruct l; [by apply elem_of_nil in Hz|done]|].
    destruct l as [|a l]; [by apply elem_of_nil in Hz|].
    destruct (passes o) eqn:Hp.
    + injection E as <- E. apply elem_of_cons in Hz as [->|Hz]; [done|]. by eapply IH.
    + injection E as <- E. symmetry in E. apply app_nil in E as [_ ->]. done.
Qed.

(** Members up to the last dead tuple are passed. *)
Lemma dead_part_passes mk C z :
  z ∈ dead_part hs (walk_list mk C) -> is_Some (redirect z) \/ dead z = true \/ recently_dead z = true.
Proof.
  intros Hz. assert (Hp : passes z = true).
  { pose proof (dead_live_parts hs (walk_list mk C)) as E.
    destruct (live_part hs (walk_list mk C)) as [|t L] eqn:EL.
    - rewrite app_nil_r in E. destruct (last (dead_part hs (walk_list mk C))) as [y|] eqn:El;
        [|apply last_None in El; rewrite El in Hz; by apply elem_of_nil in Hz].
      apply last_Some in El as El'. destruct El' as [l' El'].
      rewrite El' in Hz. apply elem_of_app in Hz as [Hz|Hz].
      + rewrite El' in E. by eapply walk_list_passes; [exact E| |].
      + apply list_elem_of_singleton in Hz as ->. apply dead_passes. by eapply dead_part_last.
    - by eapply walk_list_passes; [exact E| |]. }
  unfold HotWalk.passes in Hp. destruct (redirect z); [left; eauto|]. right.
  by apply orb_true_iff.
Qed.

Lemma orb_passes z :
  is_Some (redirect z) \/ dead z = true \/ recently_dead z = true -> passes z = true.
Proof.
  unfold HotWalk.passes. intros [[? ->]|[Hz|Hz]]; [done|..]; destruct (redirect z); try done;
    apply orb_true_iff; auto.
Qed.

Lemma walk_list_app_in D T x :
  (forall z, z ∈ D -> passes z = true) -> x ∈ walk_list all_marked_none T ->
  x ∈ walk_list all_marked_none (D ++ T).
Proof.
  induction D as [|o D IH]; intros Hp Hx; [done|]. cbn. rewrite Hp by by left.
  right. apply IH; [|done]. intros z Hz. apply Hp. by right.
Qed.

Lemma walk_list_sub mk C x : x ∈ walk_list mk C -> x ∈ C.
Proof. intros Hx. eapply elem_of_prefix; [done|]. apply walk_list_prefix. Qed.

(** What a visit adds to the plan. *)
Record visit (w w' : PruneWork) (r : list (Z * Z)) (d u : list Z) : Prop := {
  visit_adds : adds w w' r d u;
  visit_unused x : x ∈ u -> heap_only x /\ surely_dead x;
  visit_dead x : x ∈ d -> gone x;
  visit_redirected x t : (x, t) ∈ r -> gone x /\ heap_only t /\ dead t = false;
}.

(** The visit of a root settles its chain, and touches nothing else. *)
Definition root_visit (w w' : PruneWork) (o : Z) (C : list Z) (n : Z) : Prop :=
  settled w' o C /\ exists r d u, visit w w' r d u
    /\ (forall x, x ∈ r.*1 ++ r.*2 ++ d ++ u -> x ∈ C)
    /\ n = Z.of_nat (length u)
            + Z.of_nat (length (filter (fun x => is_Some (tuple x)) (d ++ r.*1))).

Section visit.
Variables (w w' : PruneWork) (o : Z) (C : list Z).
Hypothesis Hroot : root o.
Hypothesis HC : chain_from o C.
Hypothesis Hp : plan_ok w.
Hypothesis Ho : o ∉ touched w.
Hypothesis Hf : only_dead_ends w C.

Let W := walk_list (marks w) C.

Lemma marked_ends x : x ∈ C -> marks w x = true -> x ∈ nowunused w /\ succ x = None.
Proof.
  intros Hx Hm. pose proof (chain_range _ _ Hok _ _ Hroot HC) as Hr.
  rewrite Forall_forall in Hr. rewrite (plan_marks _ _ _ Hp) in Hm by auto.
  apply bool_decide_eq_true in Hm. destruct (Hf x Hx Hm) as [Hu Hd].
  split; [done|]. by apply dead_end_last.
Qed.

(** How the items walked relate to the chain. *)
Lemma walk_cases :
  (C = W /\ walk_list all_marked_none C = W) \/
  (exists x, x ∈ nowunused w /\ C = W ++ [x] /\ walk_list all_marked_none C = C) \/
  (exists l z T, C = W ++ T /\ W = l ++ [z] /\ passes z = false
                 /\ walk_list all_marked_none C = W).
Proof.
  destruct (walk_compare (marks w) o C HC) as [H|[(x & H1 & H2 & H3)|H]].
  - intros x Hx Hm. by apply marked_ends.
  - by left.
  - right. left. exists x. split; [|done]. apply marked_ends; [|done].
    rewrite H2. apply elem_of_app. right. by left.
  - by right; right.
Qed.

(** Dead members the walk passes are among those walked, or marked. *)
Lemma walked_dead x : x ∈ walk_list all_marked_none C -> dead x = true ->
  x ∈ dead_part hs W \/ x ∈ nowunused w.
Proof.
  intros Hx Hd. assert (HW' : x ∈ W \/ x ∈ nowunused w).
  { destruct walk_cases as [[_ E]|[(y & Hy & E1 & E2)|(l & z & T & E1 & _ & _ & E2)]].
    - left. by rewrite <- E.
    - rewrite E2, E1 in Hx. apply elem_of_app in Hx as [Hx|Hx]; [by left|].
      apply list_elem_of_singleton in Hx as ->. by right.
    - left. by rewrite <- E2. }
  destruct HW' as [HxW|?]; [left|by right]. rewrite (dead_live_parts hs W) in HxW.
  apply elem_of_app in HxW as [?|HxL]; [done|].
  apply live_part_alive in HxL. congruence.
Qed.

Lemma walk_head : exists T, C = o :: T /\ exists W', W = o :: W'.
Proof.
  destruct (chain_head _ _ _ _ HC) as [T ->]. exists T. split; [done|].
  assert (Hm : marks w o = false).
  { rewrite (plan_marks _ _ _ Hp) by (by eapply root_range). by apply bool_decide_eq_false. }
  unfold W. cbn. rewrite Hm. destruct (passes o); eauto.
Qed.

(** When all that was walked is dead, so is the rest of the chain. *)
Lemma all_walked_dead D : dead_part hs W = o :: D -> live_part hs W = [] ->
  exists E, C = o :: D ++ E /\ E ⊆ nowunused w.
Proof.
  intros ED EL. pose proof (dead_live_parts hs W) as HWp. rewrite ED, EL, app_nil_r in HWp.
  destruct walk_cases as [[E _]|[(y & Hy & E & _)|(l & z & T & _ & E2 & Hz & _)]].
  - exists []. rewrite app_nil_r. split; [congruence|set_solver].
  - exists [y]. split; [cbn; by rewrite app_comm_cons, <- HWp|]. set_solver.
  - exfalso. assert (Hl : last (dead_part hs W) = Some z) by (rewrite ED, <- HWp, E2; apply last_snoc).
    apply dead_part_last, dead_passes in Hl. congruence.
Qed.

Lemma dead_part_facts D : dead_part hs W = o :: D ->
  (forall x, x ∈ D -> heap_only x /\ surely_dead x) /\ gone o /\ D ⊆ C.
Proof.
  intros ED. destruct walk_head as (T & HT & W' & HW').
  pose proof (walk_list_prefix linp hs (marks w) C) as [R HR]. fold W in HR.
  pose proof (dead_live_parts hs W) as HWp. rewrite ED in HWp.
  rewrite HWp, <- app_assoc in HR. cbn in HR.
  destruct (last (o :: D)) as [y|] eqn:El; [|by apply last_None in El].
  assert (Hy : dead y = true) by (by apply (dead_part_last hs W); rewrite ED).
  assert (Hall : forall z, z ∈ o :: D ->
    is_Some (redirect z) \/ dead z = true \/ recently_dead z = true).
  { intros z Hz. apply (dead_part_passes (marks w) C). fold W. by rewrite ED. }
  assert (Hsd : forall x, x ∈ o :: D -> is_Some (tuple x) -> surely_dead x).
  { intros x Hx Hs. eapply (chain_surely_dead o C (o :: D)); try done. }
  split_and!.
  - intros x Hx. assert (Hho : heap_only x).
    { eapply (chain_tail_heap_only linp tuple_at Hok o T); [by rewrite <- HT|].
      rewrite HT in HR. injection HR as ->. apply elem_of_app. by left. }
    split; [done|]. apply Hsd; [by right|]. destruct Hho as (h & Hh & _). by exists h.
  - split; [done|]. intros Hs. apply Hsd; [by left|done].
  - rewrite HR. intros x Hx. right. apply elem_of_app. by left.
Qed.

Lemma root_redirect_no_tuple : is_Some (redirect o) -> ~ is_Some (tuple o).
Proof. intros [t Ht] [h Hh]. apply tuple_redirect in Hh. congruence. Qed.

(** Nothing dead: the chain is kept. *)
Lemma visit_kept :
  dead_part hs W = [] -> (length W <? 2)%nat && bool_decide (is_Some (redirect o)) = false ->
  adds w w' [] [] [] -> root_visit w w' o C 0.
Proof.
  intros ED Hb HA. destruct walk_head as (T & HT & W' & HW').
  pose proof (dead_live_parts hs W) as HWp. rewrite ED in HWp.
  assert (Halive : forall x, x ∈ W -> dead x = false).
  { intros x Hx. apply (live_part_alive hs W). by rewrite HWp in Hx. }
  assert (Ht : touched w' ≡ₚ touched w) by (by rewrite (adds_touched _ _ _ _ _ _ _ HA)).
  assert (Hu : nowunused w' = nowunused w) by (by rewrite (adds_unused _ _ _ _ _ _ _ HA), app_nil_r).
  split.
  - rewrite HT. apply settled_kept.
    + by rewrite Ht.
    + intros x Hx. rewrite Ht, Hu. apply Hf. rewrite HT. by right.
    + intros Hr. rewrite bool_decide_true, andb_true_r in Hb by done.
      apply Nat.ltb_ge in Hb. rewrite HW' in Hb. destruct W' as [|y W']; [cbn in Hb; lia|].
      pose proof (walk_list_prefix linp hs (marks w) C) as [R HR]. fold W in HR.
      rewrite HT, HW' in HR. injection HR as ->. exists y, (W' ++ R). split; [done|].
      apply Halive. rewrite HW'. right; by left.
    + rewrite <- HT. intros x Hx Hdx. rewrite Hu. destruct (walked_dead x Hx Hdx) as [Hin|?]; [|done].
      rewrite ED in Hin. by apply elem_of_nil in Hin.
    + apply Halive. rewrite HW'. by left.
  - exists [], [], []. split_and!; [|by intros ? ?%elem_of_nil|done]. constructor; [done|..]; set_solver.
Qed.

(** A redirect without a chain is set dead. *)
Lemma visit_empty_redirect :
  dead_part hs W = [] -> (length W <? 2)%nat && bool_decide (is_Some (redirect o)) = true ->
  adds w w' [] [o] [] -> root_visit w w' o C 0.
Proof.
  intros ED [El Hrd]%andb_true_iff HA. apply Nat.ltb_lt in El.
  apply bool_decide_eq_true in Hrd. destruct walk_head as (T & HT & W' & HW').
  rewrite HW' in El. destruct W'; [|cbn in El; lia].
  assert (HE : exists E, C = o :: E /\ E ⊆ nowunused w).
  { destruct walk_cases as [[E _]|[(y & Hy & E & _)|(l & z & T' & _ & E2 & Hz & _)]].
    - exists []. rewrite E, HW'. split; [done|set_solver].
    - exists [y]. rewrite E, HW'. split; [done|set_solver].
    - exfalso. rewrite HW' in E2. destruct l as [|? [|]]; [|done..]. injection E2 as <-.
      unfold HotWalk.passes in Hz. destruct Hrd as [? Hrd]. by rewrite Hrd in Hz. }
  destruct HE as (E & -> & HE). destruct (adds_sub _ _ _ _ _ HA) as (_ & _ & Hsu).
  pose proof (root_redirect_no_tuple Hrd) as Hnt. split.
  - apply settled_dead; [rewrite (adds_dead _ _ _ _ _ _ _ HA); set_solver|by etrans].
  - exists [], [o], []. split_and!.
    + constructor; [done|by intros * ?%elem_of_nil| |by intros * ?%elem_of_nil]. intros x Hx.
      apply list_elem_of_singleton in Hx as ->. split; [done|]. by intros ?%Hnt.
    + cbn. intros x Hx. apply list_elem_of_singleton in Hx as ->. by left.
    + cbn [fmap list_fmap app length]. by rewrite filter_cons_False, filter_nil.
Qed.

Lemma root_count :
  length (filter (fun x => is_Some (tuple x)) [o])
  = if bool_decide (is_Some (tuple o)) then 1%nat else 0%nat.
Proof.
  case_bool_decide; [by rewrite filter_cons_True|by rewrite filter_cons_False].
Qed.

(** Everything walked is dead: the root is set dead. *)
Lemma visit_dead_chain D :
  dead_part hs W = o :: D -> live_part hs W = [] -> adds w w' [] [o] D ->
  root_visit w w' o C
    (Z.of_nat (length D) + (if bool_decide (is_Some (tuple o)) then 1 else 0)).
Proof.
  intros ED EL HA. destruct (all_walked_dead D ED EL) as (E & HE & HEu).
  destruct (dead_part_facts D ED) as (HD & Hg & HDC).
  destruct (adds_sub _ _ _ _ _ HA) as (_ & _ & Hsu). split.
  - rewrite HE. apply settled_dead; [rewrite (adds_dead _ _ _ _ _ _ _ HA); set_solver|].
    rewrite (adds_unused _ _ _ _ _ _ _ HA). set_solver.
  - exists [], [o], D. split_and!.
    + constructor; [done|done| |by intros * ?%elem_of_nil]. intros x Hx.
      by apply list_elem_of_singleton in Hx as ->.
    + cbn. intros x Hx. apply elem_of_cons in Hx as [->|Hx]; [rewrite HE; by left|by apply HDC].
    + cbn [fmap list_fmap app]. rewrite root_count. by case_bool_decide.
Qed.

(** Something behind the last dead tuple: the root is redirected to it. *)
Lemma visit_redirected_chain D t L :
  dead_part hs W = o :: D -> live_part hs W = t :: L -> adds w w' [(o, t)] [] D ->
  root_visit w w' o C
    (Z.of_nat (length D) + (if bool_decide (is_Some (tuple o)) then 1 else 0)).
Proof.
  intros ED EL HA. destruct walk_head as (T & HT & _).
  destruct (dead_part_facts D ED) as (HD & Hg & HDC).
  destruct (adds_sub _ _ _ _ _ HA) as (_ & _ & Hsu).
  pose proof (chain_NoDup _ _ Hok _ _ Hroot HC) as Hnd.
  pose proof (dead_live_parts hs W) as HWp. rewrite ED, EL in HWp.
  pose proof (walk_list_prefix linp hs (marks w) C) as [R HR]. fold W in HR.
  assert (HCE : C = o :: D ++ t :: (L ++ R)) by (rewrite HR, HWp; cbn; by rewrite <- app_assoc).
  assert (Htd : dead t = false) by (apply (live_part_alive hs W); rewrite EL; by left).
  rewrite HCE in Hnd. apply NoDup_cons in Hnd as [HoD Hnd].
  apply NoDup_app in Hnd as (HndD & Hdis & HndR). apply NoDup_cons in HndR as [HtR _].
  split.
  - rewrite HCE. apply settled_redirected; [| |done| |].
    + rewrite (adds_redirected _ _ _ _ _ _ _ HA). set_solver.
    + rewrite (adds_unused _ _ _ _ _ _ _ HA). set_solver.
    + intros x Hx Hxt. rewrite (adds_touched _ _ _ _ _ _ _ HA) in Hxt.
      apply elem_of_app in Hxt as [Hxt|Hxt].
      * exfalso. cbn in Hxt. apply elem_of_cons in Hxt as [->|Hxt].
        { apply HoD. apply elem_of_app. right. by right. }
        apply elem_of_cons in Hxt as [->|Hxt]; [done|]. apply (Hdis x Hxt). by right.
      * destruct (Hf x) as [Hu Hd]; [rewrite HCE; right; apply elem_of_app; right; by right|done|].
        split; [by apply Hsu|done].
    + intros x Hx Hdx. apply Hsu.
      assert (HxC : x ∈ walk_list all_marked_none C).
      { rewrite HCE, app_comm_cons. apply walk_list_app_in; [|done].
        intros z Hz. apply orb_passes. apply (dead_part_passes (marks w) C). fold W. by rewrite ED. }
      destruct (walked_dead x HxC Hdx) as [Hin|?]; [|done]. exfalso.
      apply walk_list_sub in Hx. rewrite ED in Hin. apply elem_of_cons in Hin as [->|Hin].
      * apply HoD. apply elem_of_app. by right.
      * by apply (Hdis x Hin).
  - exists [(o, t)], [], D. split_and!.
    + constructor; [done|done|by intros * ?%elem_of_nil|]. intros x y Hxy.
      apply list_elem_of_singleton in Hxy as [= -> ->]. split_and!; try done.
      eapply (chain_tail_heap_only linp tuple_at Hok o (D ++ t :: L ++ R)); [by rewrite <- HCE|].
      apply elem_of_app. right. by left.
    + cbn. intros x Hx. rewrite HCE. rewrite elem_of_cons, elem_of_app, elem_of_cons. set_solver.
    + cbn [fmap app list_fmap fst]. rewrite root_count. by case_bool_decide.
Qed.

Lemma planned_visit :
  planned linp hs (marks w) o C w w' ->
  root_visit w w' o C (planned_count linp tuple_at hs (marks w) o C).
Proof.
  unfold planned, planned_count. fold W. cbn zeta.
  destruct walk_head as (T & HT & W' & HW').
  pose proof (dead_live_parts hs W) as HWp.
  destruct (dead_part hs W) as [|o' D] eqn:ED.
  - destruct (_ && _) eqn:Hb; [by apply visit_empty_redirect|by apply visit_kept].
  - assert (o' = o) as -> by (rewrite HW' in HWp; by injection HWp).
    destruct (live_part hs W) as [|t L] eqn:EL; [by apply visit_dead_chain|].
    by eapply visit_redirected_chain.
Qed.
End visit.

(** ** The scan *)

Lemma removed_count_visit w w' r d u : adds w w' r d u ->
  removed_count w' = removed_count w + Z.of_nat (length u)
    + Z.of_nat (length (filter (fun x => is_Some (tuple x)) (d ++ r.*1))).
Proof.
  intros [A1 A2 A3 _]. unfold removed_count. rewrite A1, A2, A3, fmap_app.
  rewrite !filter_app, !length_app. lia.
Qed.

(** One item further. *)
Lemma scan_next k w w' r d u :
  scanned k w -> visit w w' r d u ->
  (forall x C, root x -> x <> k -> chain_from x C -> elsewhere w' (r.*1 ++ r.*2 ++ d ++ u) C) ->
  (forall C, root k -> chain_from k C -> settled w' k C) ->
  (dead_end k -> k ∈ nowunused w') ->
  scanned (k + 1) w'.
Proof.
  intros Hs Hv He Hk Hd. pose proof (visit_adds _ _ _ _ _ Hv) as HA. pose proof HA as [A1 A2 A3 A4].
  constructor.
  - done.
  - intros x. rewrite A3. intros [Hx|Hx]%elem_of_app; [by apply (scan_unused k w Hs)|].
    by apply (visit_unused _ _ _ _ _ Hv).
  - intros x. rewrite A2. intros [Hx|Hx]%elem_of_app; [by apply (scan_dead k w Hs)|].
    by apply (visit_dead _ _ _ _ _ Hv).
  - intros x t. rewrite A1. intros [Hx|Hx]%elem_of_app; [by apply (scan_redirected k w Hs)|].
    by apply (visit_redirected _ _ _ _ _ Hv).
  - intros x Hx Hlt. destruct (decide (x = k)) as [->|]; [by apply Hd|].
    rewrite A3. apply elem_of_app. left. apply (scan_ends k w Hs); [done|lia].
  - intros x C Hx HC Hlt. destruct (decide (x = k)) as [->|]; [by apply Hk|].
    eapply settled_adds; [done|done|by eapply He|]. apply (scan_settled k w Hs); [done|done|lia].
  - intros x C Hx HC Hle. eapply only_dead_ends_adds; [done|eapply He; [done|lia|done]|].
    apply (scan_fresh k w Hs x C); [done|done|lia].
Qed.

Lemma scan_next_root k w w' C n :
  scanned k w -> root k -> chain_from k C -> root_visit w w' k C n ->
  scanned (k + 1) w' /\ removed_count w' = removed_count w + n.
Proof.
  intros Hs Hk HC (Hset & r & d & u & Hv & HinC & ->). split.
  - apply (scan_next k w w' r d u Hs Hv).
    + intros x C' Hx Hne HC' y Hy Hnew. exfalso. apply Hne.
      apply (chains_disjoint linp tuple_at Hok x k y Hx Hk).
      * by eapply chain_reach.
      * eapply chain_reach; [done|]. by apply HinC.
    + intros C' _ HC'. by rewrite (chain_unique _ _ _ _ _ HC' HC).
    + intros Hde. exfalso. eapply root_not_heap_only; [done|]. apply Hde.
  - rewrite (removed_count_visit _ _ _ _ _ (visit_adds _ _ _ _ _ Hv)). lia.
Qed.

Lemma scan_next_end k w w' :
  scanned k w -> dead_end k -> adds w w' [] [] [k] ->
  scanned (k + 1) w' /\ removed_count w' = removed_count w + 1.
Proof.
  intros Hs Hd HA. pose proof (adds_unused _ _ _ _ _ _ _ HA) as Hu. split.
  - apply (scan_next k w w' [] [] [k] Hs).
    + constructor; [done| |by intros * ?%elem_of_nil..]. intros x Hx.
      apply list_elem_of_singleton in Hx as ->. split; [apply Hd|]. constructor. apply Hd.
    + cbn. intros x C Hx Hne HC y Hy Hnew. apply list_elem_of_singleton in Hnew as ->.
      split; [rewrite Hu; set_solver|done].
    + intros C Hk. exfalso. eapply root_not_heap_only; [done|]. apply Hd.
    + intros _. rewrite Hu. set_solver.
  - rewrite (removed_count_visit _ _ _ _ _ HA). cbn. lia.
Qed.

Lemma scan_next_nothing k w w' :
  scanned k w -> ~ root k -> (dead_end k -> k ∈ nowunused w) -> adds w w' [] [] [] ->
  scanned (k + 1) w' /\ removed_count w' = removed_count w.
Proof.
  intros Hs Hk Hd HA. split.
  - apply (scan_next k w w' [] [] [] Hs).
    + constructor; [done|by intros * ?%elem_of_nil..].
    + intros x C _ _ _ y _ Hy. by apply elem_of_nil in Hy.
    + done.
    + intros Hde. rewrite (adds_unused _ _ _ _ _ _ _ HA), app_nil_r. by apply Hd.
  - rewrite (removed_count_visit _ _ _ _ _ HA). cbn. lia.
Qed.

(** A marked item is no root that is still to be visited. *)
Lemma scan_marked k w : scanned k w -> k ∈ touched w -> ~ root k /\ (dead_end k -> k ∈ nowunused w).
Proof.
  intros Hs Ht. assert (Hr : ~ root k).
  { intros Hk. destruct (chain_exists linp tuple_at Hok k Hk) as [C HC].
    destruct (scan_fresh k w Hs k C Hk HC ltac:(lia) k) as [_ (Hho & _)]; [|done|].
    - destruct (chain_head _ _ _ _ HC) as [C' ->]. by left.
    - by eapply root_not_heap_only. }
  split; [done|]. intros (Hho & Hd & _). unfold touched in Ht.
  rewrite !elem_of_app, !list_elem_of_fmap in Ht.
  destruct Ht as [([x t] & -> & Hx)|[([x t] & -> & Hx)|[Hx|Hx]]]; [..|done]; exfalso.
  - destruct (scan_redirected _ w Hs x t Hx) as [[Hx' _] _]. by eapply root_not_heap_only.
  - destruct (scan_redirected _ w Hs x t Hx) as (_ & _ & Hdt). cbn in *. congruence.
  - destruct (scan_dead _ w Hs k Hx) as [Hx' _]. by eapply root_not_heap_only.
Qed.

Lemma item_cases k lp : PageGetItemId linp k = Some lp ->
  negb (ItemIdIsUsed lp) || ItemIdIsDead lp = true /\ ~ root k /\ ~ heap_only k \/
  negb (ItemIdIsUsed lp) || ItemIdIsDead lp = false /\ (root k \/ heap_only k).
Proof.
  intros Hlp. unfold HotProps.root, HotProps.heap_only, HotProps.redirect, HotProps.tuple.
  rewrite Hlp. destruct (ItemIdIsUsed lp) eqn:Hu; cbn.
  2: { left. split; [done|]. split.
       - intros [Hr|(h & Hh & _)].
         + destruct (ItemIdIsRedirected lp) eqn:E; [|by destruct Hr].
           apply redirected_used in E. congruence.
         + destruct (ItemIdIsNormal lp) eqn:E; [|done]. apply normal_used in E. congruence.
       - intros (h & Hh & _). destruct (ItemIdIsNormal lp) eqn:E; [|done].
         apply normal_used in E. congruence. }
  destruct (ItemIdIsDead lp) eqn:Hd.
  - left. split; [done|]. assert (En : ItemIdIsNormal lp = false).
    { destruct (ItemIdIsNormal lp) eqn:E; [|done]. apply normal_kind in E as [_ ?]. congruence. }
    rewrite En. split.
    + intros [Hr|(h & Hh & _)]; [|done]. destruct (ItemIdIsRedirected lp) eqn:E; [|by destruct Hr].
      apply redirected_alive in E. congruence.
    + by intros (h & Hh & _).
  - right. split; [done|]. destruct (ItemIdIsRedirected lp) eqn:Hr; [left; left; eauto|].
    pose proof (used_kind lp Hu Hr Hd) as Hn. rewrite Hn.
    apply PageGetItemId_Some in Hlp as [_ Hin]. destruct (headers _ _ Hok lp Hin Hn) as [h Hh].
    destruct (HeapTupleHeaderIsHeapOnly h) eqn:E; [right|left; right]; eauto.
Qed.

Lemma scan_loop_spec n k c w :
  1 <= k -> k + Z.of_nat n = maxoff linp + 1 -> scanned k w ->
  exists w', scan_loop linp tuple_at n k c w = (Ret (c + (removed_count w' - removed_count w)), w')
    /\ scanned (maxoff linp + 1) w'.
Proof.
  revert k c w. induction n as [|n IH]; intros k c w Hk Hn Hs.
  - exists w. cbn. rewrite Z.sub_diag, Z.add_0_r. split; [done|].
    by replace (maxoff linp + 1) with k by lia.
  - cbn [scan_loop]. unfold bind at 1, get.
    pose proof (scan_plan k w Hs) as Hp. assert (Hkr : 1 <= k <= maxoff linp) by lia.
    rewrite (is_marked_Some linp tuple_at hs Hok w k (plan_good _ _ _ Hp) Hkr).
    cbn [defined]. rewrite bind_ret_l. rewrite (plan_marks _ _ _ Hp k Hkr).
    assert (Hnext : forall w1 d, scanned (k + 1) w1 /\ removed_count w1 = removed_count w + d ->
      exists w', scan_loop linp tuple_at n (k + 1) (c + d) w1
          = (Ret (c + (removed_count w' - removed_count w)), w') /\ scanned (maxoff linp + 1) w').
    { intros w1 d [Hs1 Hc1]. destruct (IH (k + 1) (c + d) w1) as (w' & E & Hs'); [lia|lia|done|].
      exists w'. split; [rewrite E; do 2 f_equal; lia|done]. }
    pose proof (Hnext w 0) as Hskip. rewrite !Z.add_0_r in Hskip.
    case_bool_decide as Ht.
    { destruct (scan_marked k w Hs Ht) as [Hr Hd]. apply Hskip. apply (scan_next_nothing k w w Hs Hr Hd). by apply adds_refl_nil. }
    destruct (PageGetItemId_is_Some linp k Hkr) as [lp Hlp]. rewrite Hlp. cbn [defined].
    rewrite bind_ret_l. destruct (item_cases k lp Hlp) as [(-> & Hr & Hho)|[-> [Hr|Hho]]].
    + apply Hskip. apply (scan_next_nothing k w w Hs Hr); [|by apply adds_refl_nil].
      by intros [? _].
    + destruct (chain_exists linp tuple_at Hok k Hr) as [C HC].
      destruct (heap_prune_chain_root linp tuple_at hs Hok Hj k C w Hr HC Hp Ht) as (w1 & E & HP).
      mstep E. apply Hnext. apply (scan_next_root k w w1 C); try done.
      apply planned_visit; try done. apply (scan_fresh k w Hs k C); [done|done|lia].
    + destruct (heap_prune_chain_heap_only linp tuple_at hs Hok Hj k w Hho Hp Ht)
        as (w1 & [(Hd & E & HA)|(Hd & E & HA)]); mstep E; apply Hnext.
      * by apply scan_next_end.
      * rewrite Z.add_0_r. apply (scan_next_nothing k w w1); try done.
        intros Hr. by eapply root_not_heap_only.
Qed.

(** Nothing is planned at first. *)
Definition fresh_work (w : PruneWork) : Prop :=
  redirected w = [] /\ nowdead w = [] /\ nowunused w = [] /\ htsv w = hs
  /\ marked w = replicate (S MaxHeapTuplesPerPage) false.

Lemma fresh_scanned w : fresh_work w -> scanned 1 w.
Proof.
  intros (Hr & Hd & Hu & Hh & Hm). assert (Ht : touched w = []).
  { unfold touched. by rewrite Hr, Hd, Hu. }
  constructor.
  - constructor.
    + split; [by rewrite Hm, length_replicate|done].
    + rewrite Ht. constructor.
    + intros o. rewrite Ht. by intros ?%elem_of_nil.
    + intros o Ho. rewrite Ht, bool_decide_false by apply not_elem_of_nil.
      unfold marks, is_marked. rewrite Hm. destruct (_ !! _) as [b|] eqn:E; [|done].
      by apply lookup_replicate_1 in E as [-> _].
  - intros x. rewrite Hu. by intros ?%elem_of_nil.
  - intros x. rewrite Hd. by intros ?%elem_of_nil.
  - intros x t. rewrite Hr. by intros ?%elem_of_nil.
  - intros x (Hho & _) Hlt. apply heap_only_range in Hho. lia.
  - intros r C Hroot _ Hlt. apply root_range in Hroot. lia.
  - intros r C _ _ _ x _. rewrite Ht. by intros ?%elem_of_nil.
Qed.

Lemma prune_scan_spec w :
  fresh_work w -> exists w', prune_scan linp tuple_at w = (Ret (removed_count w'), w')
    /\ scanned (maxoff linp + 1) w'.
Proof.
  intros Hw. destruct (scan_loop_spec (length linp) 1 0 w) as (w' & E & Hs).
  - lia. - unfold maxoff. lia. - by apply fresh_scanned.
  - exists w'. split; [|done]. unfold prune_scan, FirstOffsetNumber. rewrite E. do 2 f_equal.
    destruct Hw as (Hr & Hd & Hu & _). unfold removed_count at 2. rewrite Hr, Hd, Hu. cbn. lia.
Qed.
End scan.
