(* ===== verification/PagePrune.v ===== *)
(** Pruning a page: pg_tde_page_prune and what it calls, of
    src/src/access/pg_tde_prune.c, and the replay of its WAL record,
    pg_tde_xlog_prune of src/src/access/pg_tdeam.c.

    The state is the page with its keys ([PruneState] of [Prune]), the rest
    of the page header, the working data, and what other parts of the server
    are told. *)
From S2P Require Import Prelude EncAes RelKeys EncTuple KeyringTypes KeyringApi XactHandler TdeMap TupleIO Visibility Prune HotChain.

(** The WAL record; the offsets are the block data, [uint16]s. *)
Record xl_pg_tde_prune := {
  xl_snapshotConflictHorizon : Z;
  xl_nredirected : Z;
  xl_ndead : Z;
  xl_isCatalogRel : bool;
  xl_offsets : list Z;
}.

(** Reading and hinting tuple headers on the page, and PostgreSQL's
    settings and horizons. *)
Class PruneEnv := {
  header_at : list Z -> ItemId -> option TupleHeader;
  put_infomask : list Z -> ItemId -> Z -> list Z;
  old_snapshot_threshold : Z;
  OldSnapshotThresholdActive : bool;
  GlobalVisTestNonRemovableHorizon : Z;
  (** the limited xmin and the time, when there is a limit *)
  TransactionIdLimitedForOldSnapshots : nat -> Z -> option (Z * Z);
  RelationNeedsWAL : bool;
  RelationIsAccessibleInLogicalDecoding : bool;
  XLogInsert_ptr : nat -> Z;
  RecoveryInProgress : bool;
  InHotStandby : bool;
  PageGetHeapFreeSpace : HeapPage -> Z;
  RelationGetTargetPageFreeSpace : Z;
  ConditionalLockBufferForCleanup : bool;
  PageTruncateLinePointerArray : HeapPage -> HeapPage;
}.

(** What the redo of a block finds: XLogRedoAction of xlogutils.h. *)
Inductive XLogRedoAction := BLK_NEEDS_REDO | BLK_DONE | BLK_RESTORED | BLK_NOTFOUND.

(** What is told to other parts of the server. *)
Inductive server_event :=
| SetOldSnapshotThresholdTimestamp (ts xmin : Z)
| PgstatDeadTuples (n : Z)
| ResolveConflict (horizon : Z) (isCatalogRel : bool)
| RecordFreeSpace (bn free : Z)
| SnapshotTooOldMagicForTest.

Record PageState `{HE : EVP} `{HC : Curl} := {
  base : PruneState;
  work : PruneWork;
  pd_prune_xid : Z;
  page_full : bool;
  pd_lsn : Z;
  now : nat;
  buffer_dirty : bool;
  hint_dirty : bool;
  prune_wal : list xl_pg_tde_prune;
  events : list server_event;
}.

Section page_prune.
Context `{HE : EVP} `{HS : CIntShift}.
Context `{HJ : Json} `{HB : Base64} `{HC : Curl} `{HF : KeyringFs}.
Context `{HT : TdeEnv} `{HP : PgBlockSize} `{HM : PageMacros}.
Context `{HH : HtupFlags} `{HW : World} `{HLP : LinePointers} `{HHF : HotFlags} `{HPE : PruneEnv}.
Variable g : AesGlobals.

Local Abbreviation MG := (M PageState).

(** ** State *)

Definition with_base (b : PruneState) (s : PageState) : PageState :=
  {| base := b; work := work s; pd_prune_xid := pd_prune_xid s; page_full := page_full s;
     pd_lsn := pd_lsn s; now := now s; buffer_dirty := buffer_dirty s; hint_dirty := hint_dirty s;
     prune_wal := prune_wal s; events := events s |}.
Definition with_work (w : PruneWork) (s : PageState) : PageState :=
  {| base := base s; work := w; pd_prune_xid := pd_prune_xid s; page_full := page_full s;
     pd_lsn := pd_lsn s; now := now s; buffer_dirty := buffer_dirty s; hint_dirty := hint_dirty s;
     prune_wal := prune_wal s; events := events s |}.
Definition with_header (xid : Z) (full : bool) (lsn : Z) (s : PageState) : PageState :=
  {| base := base s; work := work s; pd_prune_xid := xid; page_full := full;
     pd_lsn := lsn; now := now s; buffer_dirty := buffer_dirty s; hint_dirty := hint_dirty s;
     prune_wal := prune_wal s; events := events s |}.
Definition with_dirty (d h : bool) (s : PageState) : PageState :=
  {| base := base s; work := work s; pd_prune_xid := pd_prune_xid s; page_full := page_full s;
     pd_lsn := pd_lsn s; now := now s; buffer_dirty := d; hint_dirty := h;
     prune_wal := prune_wal s; events := events s |}.
Definition with_now (t : nat) (s : PageState) : PageState :=
  {| base := base s; work := work s; pd_prune_xid := pd_prune_xid s; page_full := page_full s;
     pd_lsn := pd_lsn s; now := t; buffer_dirty := buffer_dirty s; hint_dirty := hint_dirty s;
     prune_wal := prune_wal s; events := events s |}.
Definition with_wal_event (w : list xl_pg_tde_prune) (e : list server_event) (s : PageState)
    : PageState :=
  {| base := base s; work := work s; pd_prune_xid := pd_prune_xid s; page_full := page_full s;
     pd_lsn := pd_lsn s; now := now s; buffer_dirty := buffer_dirty s; hint_dirty := hint_dirty s;
     prune_wal := w; events := e |}.

Definition on_base {A} (m : M PruneState A) : MG A := zoom base with_base m.
Definition on_work {A} (m : M PruneWork A) : MG A := zoom work with_work m.
Definition tell (e : server_event) : MG unit :=
  modify (fun s => with_wal_event (prune_wal s) (events s ++ [e]) s).
Definition MarkBufferDirty : MG unit := modify (fun s => with_dirty true (hint_dirty s) s).
Definition MarkBufferDirtyHint : MG unit := modify (fun s => with_dirty (buffer_dirty s) true s).

Definition items_of (s : PageState) : list ItemId := pd_linp (page (base s)).
Definition bytes_of (s : PageState) : list Z := page_bytes (page (base s)).

(** The header of a tuple on the page as it is. *)
Definition tuple_on (s : PageState) (lp : ItemId) : option TupleHeader := header_at (bytes_of s) lp.

(** ** The visibility of every tuple *)

Definition with_old_snap (ts xmin : Z) (used : bool) (w : PruneWork) : PruneWork :=
  {| old_snap_ts := ts; old_snap_xmin := xmin; old_snap_used := used;
     new_prune_xid := new_prune_xid w; snapshotConflictHorizon := snapshotConflictHorizon w;
     redirected := redirected w; nowdead := nowdead w; nowunused := nowunused w;
     marked := marked w; htsv := htsv w; moment := moment w |}.

(** [HeapTupleSatisfiesVacuumHorizon] on the tuple of a line pointer; its
    hint bits go to the page. *)
Definition VacuumHorizon (lp : ItemId) (h : TupleHeader) : MG (HTSV_Result * Z) := fun s =>
  let '(r, v) := HeapTupleSatisfiesVacuumHorizon
                   {| hdr := fields h; clock := now s; dirtied := false |} in
  (r, with_now (clock v)
        (with_dirty (buffer_dirty s) (hint_dirty s || dirtied v)
          (with_base {| tde := tde (base s); scratch := scratch (base s);
                        page := with_bytes (put_infomask (bytes_of s) lp (t_infomask (hdr v)))
                                  (page (base s)) |} s))).

(** The limit of old_snapshot_threshold is asked for once. *)
Definition find_limit : MG unit :=
  let* w := gets work in
  if negb (TransactionIdIsValid (old_snap_xmin w)) then
    let* t := gets now in
    modify (with_now (S t));;;
    match TransactionIdLimitedForOldSnapshots t GlobalVisTestNonRemovableHorizon with
    | Some (xmin, ts) => on_work (modify (with_old_snap ts xmin (old_snap_used w)))
    | None => ret tt
    end
  else ret tt.

(** A recently dead tuple under an old snapshot threshold. *)
Definition limited_dead (dead_after : Z) : MG HTSV_Result :=
  find_limit;;;
  let* w := gets work in
  if TransactionIdIsValid (old_snap_xmin w)
     && TransactionIdPrecedes dead_after (old_snap_xmin w) then
    tell (SetOldSnapshotThresholdTimestamp (old_snap_ts w) (old_snap_xmin w));;;
    on_work (modify (with_old_snap (old_snap_ts w) (old_snap_xmin w) true));;;
    ret HEAPTUPLE_DEAD
  else ret HEAPTUPLE_RECENTLY_DEAD.

Definition heap_prune_satisfies_vacuum (lp : ItemId) (h : TupleHeader) : MG HTSV_Result :=
  let* r := VacuumHorizon lp h in
  let '(res, dead_after) := r in
  match res with
  | HEAPTUPLE_RECENTLY_DEAD =>
      let* w := gets work in
      if old_snap_used w then
        ret (if TransactionIdPrecedes dead_after (old_snap_xmin w) then HEAPTUPLE_DEAD else res)
      else if GlobalVisTestIsRemovableXid dead_after then ret HEAPTUPLE_DEAD
      else if OldSnapshotThresholdActive then limited_dead dead_after
      else ret res
  | _ => ret res
  end.

Definition set_htsv (offnum : Z) (v : option HTSV_Result) : MG unit :=
  on_work (let* w := get in
    if (Z.to_nat offnum <? length (htsv w))%nat then
      put {| old_snap_ts := old_snap_ts w; old_snap_xmin := old_snap_xmin w;
             old_snap_used := old_snap_used w; new_prune_xid := new_prune_xid w;
             snapshotConflictHorizon := snapshotConflictHorizon w; redirected := redirected w;
             nowdead := nowdead w; nowunused := nowunused w; marked := marked w;
             htsv := <[Z.to_nat offnum := v]> (htsv w); moment := moment w |}
    else undefined).

(** [for (offnum = maxoff; offnum >= 1; offnum--)] *)
Fixpoint htsv_loop (n : nat) : MG unit :=
  match n with
  | O => ret tt
  | S n =>
      let offnum := Z.of_nat (S n) in
      let* linp := gets items_of in
      let* lp := defined (PageGetItemId linp offnum) in
      (if negb (ItemIdIsNormal lp) then set_htsv offnum None
       else
         let* s := get in
         let* h := defined (tuple_on s lp) in
         let* v := heap_prune_satisfies_vacuum lp h in
         set_htsv offnum (Some v));;;
      htsv_loop n
  end.

(** ** Applying the plan *)

Definition set_item (f : ItemId -> ItemId) (offnum : Z) (linp : list ItemId)
    : option (list ItemId) :=
  match PageGetItemId linp offnum with
  | Some lp => Some (<[Z.to_nat (offnum - 1) := f lp]> linp)
  | None => None
  end.

Fixpoint set_items (f : ItemId -> ItemId) (offs : list Z) (linp : list ItemId)
    : option (list ItemId) :=
  match offs with
  | [] => Some linp
  | o :: offs => match set_item f o linp with
                 | Some linp => set_items f offs linp
                 | None => None
                 end
  end.

Fixpoint redirect_items (rs : list (Z * Z)) (linp : list ItemId) : option (list ItemId) :=
  match rs with
  | [] => Some linp
  | (from, to) :: rs => match set_item (ItemIdSetRedirect to) from linp with
                        | Some linp => redirect_items rs linp
                        | None => None
                        end
  end.

(** The three loops over the line pointers. *)
Definition apply_plan (redirected : list (Z * Z)) (nowdead nowunused : list Z)
    (linp : list ItemId) : option (list ItemId) :=
  match redirect_items redirected linp with
  | Some linp => match set_items ItemIdSetDead nowdead linp with
                 | Some linp => set_items ItemIdSetUnused nowunused linp
                 | None => None
                 end
  | None => None
  end.

Definition pg_tde_page_prune_execute (rel : RelFileLocator) (bn : Z)
    (redirected : list (Z * Z)) (nowdead nowunused : list Z) : M PruneState unit :=
  let* p := gets page in
  let* linp := defined (apply_plan redirected nowdead nowunused (pd_linp p)) in
  on_page (with_linp linp);;;
  TdePageRepairFragmentation g rel bn.

(** ** pg_tde_page_prune *)

Definition fresh_prune (old_snap_xmin old_snap_ts : Z) (t : nat) : PruneWork :=
  {| old_snap_ts := old_snap_ts; old_snap_xmin := old_snap_xmin; old_snap_used := false;
     new_prune_xid := InvalidTransactionId; snapshotConflictHorizon := InvalidTransactionId;
     redirected := []; nowdead := []; nowunused := [];
     marked := replicate (S MaxHeapTuplesPerPage) false;
     htsv := replicate (S MaxHeapTuplesPerPage) None; moment := t |}.

Definition with_moment (t : nat) (w : PruneWork) : PruneWork :=
  {| old_snap_ts := old_snap_ts w; old_snap_xmin := old_snap_xmin w;
     old_snap_used := old_snap_used w; new_prune_xid := new_prune_xid w;
     snapshotConflictHorizon := snapshotConflictHorizon w; redirected := redirected w;
     nowdead := nowdead w; nowunused := nowunused w; marked := marked w; htsv := htsv w;
     moment := t |}.

Definition scan_page : MG Z :=
  let* s := get in
  on_work (modify (with_moment (now s)));;;
  let* n := on_work (prune_scan (items_of s) (tuple_on s)) in
  let* w := gets work in
  modify (with_now (moment w));;;
  ret n.

Definition prune_record (w : PruneWork) : xl_pg_tde_prune :=
  {| xl_snapshotConflictHorizon := snapshotConflictHorizon w;
     xl_nredirected := u16 (Z.of_nat (length (redirected w)));
     xl_ndead := u16 (Z.of_nat (length (nowdead w)));
     xl_isCatalogRel := RelationIsAccessibleInLogicalDecoding;
     xl_offsets := mjoin ((fun p => [fst p; snd p]) <$> redirected w)
                   ++ nowdead w ++ nowunused w |}.

(** The WAL record of a page that was pruned. *)
Definition log_prune : MG unit :=
  let* s := get in
  if RelationNeedsWAL then
    modify (fun s => with_wal_event (prune_wal s ++ [prune_record (work s)]) (events s) s);;;
    modify (fun s => with_header (pd_prune_xid s) (page_full s)
                       (XLogInsert_ptr (length (prune_wal s))) s)
  else ret tt.

(** Between START_CRIT_SECTION and END_CRIT_SECTION an error is a panic. *)
Definition critical {A} (m : MG A) : MG A := fun s =>
  match m s with
  | (Raise _, s') => (Raise PANIC, s')
  | r => r
  end.

Definition apply_prune (rel : RelFileLocator) (bn : Z) : MG unit :=
  critical (
  let* w := gets work in
  if (0 <? length (redirected w))%nat || (0 <? length (nowdead w))%nat
     || (0 <? length (nowunused w))%nat then
    on_base (pg_tde_page_prune_execute rel bn (redirected w) (nowdead w) (nowunused w));;;
    modify (fun s => with_header (new_prune_xid w) false (pd_lsn s) s);;;
    MarkBufferDirty;;;
    log_prune
  else
    let* s := get in
    if negb (pd_prune_xid s =? new_prune_xid w) || page_full s then
      modify (with_header (new_prune_xid w) false (pd_lsn s));;;
      MarkBufferDirtyHint
    else ret tt).

(** Up to the critical section: what is to be done. *)
Definition decide_page (old_snap_xmin old_snap_ts : Z) : MG Z :=
  modify (fun s => with_work (fresh_prune old_snap_xmin old_snap_ts (now s)) s);;;
  let* s := get in
  htsv_loop (length (items_of s));;;
  scan_page.

(** The number of tuples deleted, and [*nnewlpdead]. *)
Definition pg_tde_page_prune (rel : RelFileLocator) (bn old_snap_xmin old_snap_ts : Z)
    : MG (Z * Z) :=
  let* ndeleted := decide_page old_snap_xmin old_snap_ts in
  on_base (in_tde (GetRelationKeys g rel));;;
  apply_prune rel bn;;;
  let* w := gets work in
  ret (ndeleted, Z.of_nat (length (nowdead w))).

(** ** pg_tde_page_prune_opt *)

(** [peek]: what the heuristic sees without a lock. *)
Definition pg_tde_page_prune_opt (rel : RelFileLocator) (bn : Z) (peek : bool) : MG unit :=
  let* s := get in
  if RecoveryInProgress then ret tt else
  (if old_snapshot_threshold =? 0 then tell SnapshotTooOldMagicForTest else ret tt);;;
  if negb (TransactionIdIsValid (pd_prune_xid s)) then ret tt else
  let* limit :=
    if GlobalVisTestIsRemovableXid (pd_prune_xid s) then ret (Some (InvalidTransactionId, 0))
    else if negb OldSnapshotThresholdActive then ret None
    else
      modify (with_now (S (now s)));;;
      match TransactionIdLimitedForOldSnapshots (now s) GlobalVisTestNonRemovableHorizon with
      | None => ret None
      | Some (xmin, ts) =>
          ret (if TransactionIdPrecedes (pd_prune_xid s) xmin then Some (xmin, ts) else None)
      end in
  match limit with
  | None => ret tt
  | Some (limited_xmin, limited_ts) =>
      let minfree := Z.max RelationGetTargetPageFreeSpace (BLCKSZ / 10) in
      if negb peek then ret tt else
      if negb ConditionalLockBufferForCleanup then ret tt else
      let* s := get in
      if page_full s || (PageGetHeapFreeSpace (page (base s)) <? minfree) then
        let* r := pg_tde_page_prune rel bn limited_xmin limited_ts in
        let '(ndeleted, nnewlpdead) := r in
        if nnewlpdead <? ndeleted then tell (PgstatDeadTuples (ndeleted - nnewlpdead)) else ret tt
      else ret tt
  end.

(** ** Replay *)

(** [n] pairs at the front of an array of offsets. *)
Fixpoint offset_pairs (n : nat) (l : list Z) : list (Z * Z) :=
  match n, l with
  | S n, a :: b :: l => (a, b) :: offset_pairs n l
  | _, _ => []
  end.

(** The three arrays of a record. *)
Definition record_plan (r : xl_pg_tde_prune) : list (Z * Z) * list Z * list Z :=
  let nr := Z.to_nat (xl_nredirected r) in
  let nd := Z.to_nat (xl_ndead r) in
  (offset_pairs nr (xl_offsets r),
   take nd (drop (2 * nr) (xl_offsets r)),
   drop (2 * nr + nd) (xl_offsets r)).

(** The end of both redo routines: the page goes into the free space map,
    unless the block is gone. *)
Definition record_free_space (bn : Z) (action : XLogRedoAction) : MG unit :=
  match action with
  | BLK_NOTFOUND => ret tt
  | _ => let* s := get in tell (RecordFreeSpace bn (PageGetHeapFreeSpace (page (base s))))
  end.

(** [action]: what was done with the block; [lsn] is the end of the record. *)
Definition pg_tde_xlog_prune (rel : RelFileLocator) (bn : Z) (action : XLogRedoAction) (lsn : Z)
    (r : xl_pg_tde_prune) : MG unit :=
  (if InHotStandby then tell (ResolveConflict (xl_snapshotConflictHorizon r) (xl_isCatalogRel r))
   else ret tt);;;
  (match action with
   | BLK_NEEDS_REDO =>
       let '(redirected, nowdead, nowunused) := record_plan r in
       on_base (pg_tde_page_prune_execute rel bn redirected nowdead nowunused);;;
       modify (fun s => with_header (pd_prune_xid s) (page_full s) lsn s);;;
       MarkBufferDirty
   | _ => ret tt
   end);;;
  record_free_space bn action.

(** The second pass of VACUUM: dead items become unused, and the array of
    line pointers is cut off behind the last used one. *)
Definition make_unused (unused : list Z) : MG unit :=
  on_base (
    let* p := gets page in
    let* linp := defined (set_items ItemIdSetUnused unused (pd_linp p)) in
    on_page (with_linp linp);;;
    on_page PageTruncateLinePointerArray).

Definition pg_tde_xlog_vacuum (bn : Z) (action : XLogRedoAction) (lsn : Z) (nowunused : list Z)
    : MG unit :=
  (match action with
   | BLK_NEEDS_REDO =>
       make_unused nowunused;;;
       modify (fun s => with_header (pd_prune_xid s) (page_full s) lsn s);;;
       MarkBufferDirty
   | _ => ret tt
   end);;;
  record_free_space bn action.
End page_prune.
