(* ===== verification/HotPlan.v ===== *)
(** The page after its plan was carried out: its line pointers, its chains,
    and what a search finds. *)
From stdpp Require Import relations.
From S2P Require Import Prelude Visibility Prune HotChain HotProps HotWalk HotScan PagePrune.

(** ** Line pointers after the plan *)

Section apply.
Context `{HH : HtupFlags} `{HW : World} `{HM : PageMacros} `{HLP : LinePointers} `{HHF : HotFlags}.

Lemma set_item_spec f o linp lp :
  PageGetItemId linp o = Some lp ->
  exists linp', set_item f o linp = Some linp' /\ length linp' = length linp
    /\ forall x, PageGetItemId linp' x = if decide (x = o) then Some (f lp) else PageGetItemId linp x.
Proof.
  intros E. unfold set_item. rewrite E. eexists. split; [done|].
  split; [apply length_insert|]. intros x. unfold PageGetItemId, FirstOffsetNumber in *.
  destruct (Z.leb_spec 1 o) as [Ho|]; [|done]. apply lookup_lt_Some in E as Hlt.
  destruct (decide (x = o)) as [->|Hne].
  - rewrite (proj2 (Z.leb_le _ _)) by done. by rewrite list_lookup_insert_eq.
  - destruct (Z.leb_spec 1 x); [|done]. by rewrite list_lookup_insert_ne by lia.
Qed.

Lemma set_items_spec f l linp :
  NoDup l -> (forall o, o ∈ l -> is_Some (PageGetItemId linp o)) ->
  exists linp', set_items f l linp = Some linp' /\ length linp' = length linp
    /\ forall x, PageGetItemId linp' x =
         if decide (x ∈ l) then f <$> PageGetItemId linp x else PageGetItemId linp x.
Proof.
  revert linp. induction l as [|o l IH]; intros linp Hnd Hin.
  - by exists linp.
  - apply NoDup_cons in Hnd as [Ho Hnd]. destruct (Hin o) as [lp E]; [by left|].
    destruct (set_item_spec f o linp lp E) as (linp1 & E1 & L1 & G1).
    destruct (IH linp1 Hnd) as (linp2 & E2 & L2 & G2).
    { intros x Hx. rewrite G1. case_decide; [by eexists|]. apply Hin. by right. }
    exists linp2. cbn [set_items]. rewrite E1. split_and!; [done|congruence|]. intros x.
    rewrite G2, G1. destruct (decide (x = o)) as [->|Hne].
    + rewrite decide_False by done. rewrite decide_True by by left. by rewrite E.
    + destruct (decide (x ∈ l)); [by rewrite decide_True by (by right)|].
      by rewrite decide_False by (rewrite elem_of_cons; tauto).
Qed.

(** Where a redirection of the plan leads. *)
Fixpoint target (rs : list (Z * Z)) (o : Z) : option Z :=
  match rs with
  | [] => None
  | (a, b) :: rs => if decide (o = a) then Some b else target rs o
  end.

Lemma target_Some rs o t : target rs o = Some t -> (o, t) ∈ rs.
Proof.
  induction rs as [|[a b] rs IH]; [done|]. cbn. case_decide.
  - intros [= ->]. subst. by left.
  - intros H'. right. auto.
Qed.

Lemma target_None rs o : target rs o = None <-> o ∉ rs.*1.
Proof.
  induction rs as [|[a b] rs IH]; cbn; [split; [by intros _ ?%elem_of_nil|done]|].
  rewrite elem_of_cons. case_decide; [split; [done|tauto]|]. rewrite IH. tauto.
Qed.

Lemma target_in rs o t : NoDup rs.*1 -> (o, t) ∈ rs -> target rs o = Some t.
Proof.
  induction rs as [|[a b] rs IH]; cbn; [by intros _ ?%elem_of_nil|].
  intros [Ha Hnd]%NoDup_cons [[= -> ->]|Hin]%elem_of_cons; [by rewrite decide_True|].
  rewrite decide_False; [auto|]. intros ->. apply Ha. apply list_elem_of_fmap. by exists (a, t).
Qed.

Lemma redirect_items_spec rs linp :
  NoDup rs.*1 -> (forall o, o ∈ rs.*1 -> is_Some (PageGetItemId linp o)) ->
  exists linp', redirect_items rs linp = Some linp' /\ length linp' = length linp
    /\ forall x, PageGetItemId linp' x =
         match target rs x with
         | Some t => ItemIdSetRedirect t <$> PageGetItemId linp x
         | None => PageGetItemId linp x
         end.
Proof.
  revert linp. induction rs as [|[a b] rs IH]; intros linp Hnd Hin; [by exists linp|].
  cbn in Hnd. apply NoDup_cons in Hnd as [Ho Hnd]. destruct (Hin a) as [lp E]; [by left|].
  destruct (set_item_spec (ItemIdSetRedirect b) a linp lp E) as (linp1 & E1 & L1 & G1).
  destruct (IH linp1 Hnd) as (linp2 & E2 & L2 & G2).
  { intros x Hx. rewrite G1. case_decide; [by eexists|]. apply Hin. by right. }
  exists linp2. cbn. rewrite E1. split_and!; [done|congruence|]. intros x. rewrite G2, G1.
  destruct (decide (x = a)) as [->|Hne]; [|done].
  rewrite (proj2 (target_None rs a) Ho). by rewrite E.
Qed.

(** A line pointer after the plan. *)
Definition new_item (w : PruneWork) (o : Z) (lp : ItemId) : ItemId :=
  match target (redirected w) o with
  | Some t => ItemIdSetRedirect t lp
  | None => if decide (o ∈ nowdead w) then ItemIdSetDead lp
            else if decide (o ∈ nowunused w) then ItemIdSetUnused lp else lp
  end.

Lemma apply_plan_spec w linp :
  NoDup (touched w) -> (forall o, o ∈ touched w -> is_Some (PageGetItemId linp o)) ->
  exists linp', apply_plan (redirected w) (nowdead w) (nowunused w) linp = Some linp'
    /\ length linp' = length linp
    /\ forall x, PageGetItemId linp' x = new_item w x <$> PageGetItemId linp x.
Proof.
  intros Hnd Hin. unfold touched in *.
  apply NoDup_app in Hnd as (Hnd1 & Hd1 & Hnd). apply NoDup_app in Hnd as (_ & _ & Hnd).
  apply NoDup_app in Hnd as (Hnd2 & Hd2 & Hnd3).
  destruct (redirect_items_spec (redirected w) linp Hnd1) as (l1 & E1 & L1 & G1).
  { intros o Ho. apply Hin. set_solver. }
  destruct (set_items_spec ItemIdSetDead (nowdead w) l1 Hnd2) as (l2 & E2 & L2 & G2).
  { intros o Ho. rewrite G1. case_match; [apply fmap_is_Some|]; apply Hin; set_solver. }
  destruct (set_items_spec ItemIdSetUnused (nowunused w) l2 Hnd3) as (l3 & E3 & L3 & G3).
  { intros o Ho. rewrite G2, G1.
    repeat case_match; rewrite ?fmap_is_Some; apply Hin; set_solver. }
  exists l3. unfold apply_plan. rewrite E1, E2, E3. split_and!; [done|congruence|].
  intros x. rewrite G3, G2, G1. unfold new_item.
  destruct (target (redirected w) x) as [t|] eqn:Et.
  - assert (Hx : x ∈ (redirected w).*1).
    { apply target_Some in Et. apply list_elem_of_fmap. by exists (x, t). }
    rewrite !decide_False; [done|..]; intros ?; apply (Hd1 x Hx); set_solver.
  - destruct (decide (x ∈ nowdead w)) as [Hx|Hx].
    + by rewrite decide_False by (intros ?; by apply (Hd2 x Hx)).
    + case_decide; [done|]. by destruct (PageGetItemId linp x).
Qed.
End apply.

Section plan.
Context `{HH : HtupFlags} `{HW : World} `{HM : PageMacros} `{HLP : LinePointers} `{HHF : HotFlags}.
Context `{HLL : !LinePointersLaws}.
Variable linp : list ItemId.
Variable tuple_at : ItemId -> option TupleHeader.
Variable hs : list (option HTSV_Result).
Hypothesis Hok : hot_ok linp tuple_at.
Hypothesis Hj : judged linp tuple_at hs.
Variable w : PruneWork.
Hypothesis Hs : scanned linp tuple_at hs (maxoff linp + 1) w.
Variable linp' : list ItemId.
Hypothesis Hplan : apply_plan (redirected w) (nowdead w) (nowunused w) linp = Some linp'.

Abbreviation tuple := (tuple linp tuple_at).
Abbreviation tuple' := (HotProps.tuple linp' tuple_at).
Abbreviation redirect := (redirect linp).
Abbreviation redirect' := (HotProps.redirect linp').
Abbreviation succ := (succ linp tuple_at).
Abbreviation succ' := (HotProps.succ linp' tuple_at).
Abbreviation dead := (dead hs).

Lemma touched_items o : o ∈ touched w -> is_Some (PageGetItemId linp o).
Proof.
  intros Ho. apply PageGetItemId_is_Some. by apply (plan_range _ _ _ (scan_plan _ _ _ _ _ Hs)).
Qed.

Lemma plan_result : length linp' = length linp
  /\ forall x, PageGetItemId linp' x = new_item w x <$> PageGetItemId linp x.
Proof.
  destruct (apply_plan_spec w linp (plan_once _ _ _ (scan_plan _ _ _ _ _ Hs)) touched_items)
    as (l & E & H1 & H2). rewrite Hplan in E. injection E as <-. done.
Qed.

(** Items whose line pointer the plan changes. *)
Definition changed (o : Z) : Prop := o ∈ (redirected w).*1 \/ o ∈ nowdead w \/ o ∈ nowunused w.

Lemma changed_touched o : changed o -> o ∈ touched w.
Proof. clear. unfold changed, touched. set_solver. Qed.

#[local] Instance changed_dec o : Decision (changed o).
Proof. unfold changed. solve_decision. Defined.

Lemma new_item_unchanged o lp : ~ changed o -> new_item w o lp = lp.
Proof.
  unfold changed, new_item. intros Hc.
  destruct (target (redirected w) o) eqn:E.
  { destruct Hc. left. apply target_Some in E. apply list_elem_of_fmap. by exists (o, z). }
  rewrite !decide_False by tauto. done.
Qed.

Lemma target_range o t : (o, t) ∈ redirected w -> 0 <= t < 2 ^ 15.
Proof.
  intros Hin. destruct (scan_redirected _ _ _ _ _ Hs o t Hin) as (_ & Ht & _).
  apply heap_only_range in Ht. pose proof (few _ _ Hok). pose proof few_items.
  unfold maxoff in Ht. lia.
Qed.

Lemma new_item_not_normal o lp : changed o -> ItemIdIsNormal (new_item w o lp) = false.
Proof.
  unfold changed, new_item. intros Hc. destruct (ItemIdIsNormal _) eqn:E; [|done].
  destruct (target (redirected w) o) as [t|] eqn:Et.
  { apply target_Some, target_range in Et. destruct (set_redirect lp t Et) as [Hr _].
    apply normal_kind in E as [? _]. congruence. }
  apply target_None in Et. case_decide.
  { apply normal_kind in E as [_ Hd]. rewrite set_dead in Hd. congruence. }
  rewrite decide_True in E by tauto. apply normal_used in E. rewrite set_unused in E. congruence.
Qed.

Lemma tuple_after o : tuple' o = if decide (changed o) then None else tuple o.
Proof.
  destruct plan_result as [_ HG]. unfold HotProps.tuple. rewrite HG.
  destruct (PageGetItemId linp o) as [lp|]; cbn; [|by case_decide].
  case_decide; [by rewrite new_item_not_normal|by rewrite new_item_unchanged].
Qed.

Lemma redirect_after o : redirect' o =
  match target (redirected w) o with
  | Some t => Some t
  | None => if decide (changed o) then None else redirect o
  end.
Proof.
  destruct plan_result as [_ HG]. unfold HotProps.redirect. rewrite HG.
  destruct (target (redirected w) o) as [t|] eqn:Et.
  - apply target_Some in Et as Hin. destruct (touched_items o) as [lp Hlp].
    { unfold touched. rewrite elem_of_app, list_elem_of_fmap. left. by exists (o, t). }
    rewrite Hlp. cbn. unfold new_item. rewrite Et.
    destruct (set_redirect lp t (target_range _ _ Hin)) as [-> ->]. done.
  - destruct (PageGetItemId linp o) as [lp|]; cbn; [|by case_decide].
    case_decide as Hc; [|by rewrite new_item_unchanged].
    unfold new_item. rewrite Et. apply target_None in Et. case_decide as Hd.
    + destruct (ItemIdIsRedirected _) eqn:E; [|done]. apply redirected_alive in E.
      rewrite set_dead in E. done.
    + destruct Hc as [?|[?|?]]; [done..|]. rewrite decide_True by done.
      destruct (ItemIdIsRedirected _) eqn:E; [|done]. apply redirected_used in E.
      rewrite set_unused in E. done.
Qed.

Lemma heap_only_after o : HotProps.heap_only linp tuple_at o -> ~ changed o ->
  HotProps.heap_only linp' tuple_at o.
Proof.
  intros (h & Hh & Ho) Hc. exists h. split; [|done]. by rewrite tuple_after, decide_False.
Qed.

Lemma member_after o x : HotProps.member linp' tuple_at o x =
  if decide (changed o) then false else HotProps.member linp tuple_at o x.
Proof. unfold HotProps.member. rewrite tuple_after. by case_decide. Qed.

(** A target of the plan is no item it changes. *)
Lemma target_unchanged o t : (o, t) ∈ redirected w -> ~ changed t.
Proof.
  intros Hin Hc. pose proof (plan_once _ _ _ (scan_plan _ _ _ _ _ Hs)) as Hnd. unfold touched in Hnd.
  assert (Ht : t ∈ (redirected w).*2) by (apply list_elem_of_fmap; by exists (o, t)).
  apply NoDup_app in Hnd as (_ & H1 & Hnd). apply NoDup_app in Hnd as (_ & H2 & _).
  destruct Hc as [Hc|Hc].
  - apply (H1 t Hc). apply elem_of_app. by left.
  - apply (H2 t Ht). apply elem_of_app. tauto.
Qed.

Lemma succ_after o : succ' o =
  match target (redirected w) o with
  | Some t => Some t
  | None => if decide (changed o) then None
            else match succ o with
                 | Some y => if decide (changed y) then None else Some y
                 | None => None
                 end
  end.
Proof.
  unfold HotProps.succ, HotProps.link. rewrite redirect_after, tuple_after.
  destruct (target (redirected w) o) as [t|] eqn:Et.
  - apply target_Some in Et. rewrite member_after, decide_False by by eapply target_unchanged.
    destruct (scan_redirected _ _ _ _ _ Hs o t Et) as (_ & (h & Hh & _) & _).
    unfold HotProps.member. rewrite Hh. unfold TransactionIdIsValid. by rewrite Z.eqb_refl.
  - case_decide; [done|].
    assert (Hm : forall y x, (if HotProps.member linp' tuple_at y x then Some y else None) =
      match (if HotProps.member linp tuple_at y x then Some y else None) with
      | Some y => if decide (changed y) then None else Some y
      | None => None
      end).
    { intros y x. rewrite member_after.
      by destruct (HotProps.member linp tuple_at y x); repeat case_decide. }
    destruct (redirect o) as [t|]; [apply Hm|]. destruct (tuple o) as [h|]; [|done].
    destruct (HeapTupleHeaderIsHotUpdated h); [apply Hm|done].
Qed.

(** ** The page stays well formed *)

Lemma succ_after_old o y : succ' o = Some y -> ~ changed o -> succ o = Some y /\ ~ changed y.
Proof.
  rewrite succ_after. intros E Hc.
  assert (Et : target (redirected w) o = None).
  { destruct (target (redirected w) o) eqn:Et; [|done]. destruct Hc. left.
    apply target_Some in Et. apply list_elem_of_fmap. by exists (o, z). }
  rewrite Et, decide_False in E by done. destruct (succ o) as [z|]; [|done].
  case_decide; [done|]. by injection E as ->.
Qed.

Lemma succ_after_new o y : succ' o = Some y -> changed o -> (o, y) ∈ redirected w.
Proof.
  rewrite succ_after. intros E Hc. destruct (target (redirected w) o) as [t|] eqn:Et.
  - apply target_Some in Et. by injection E as ->.
  - by rewrite decide_True in E.
Qed.

(** The members of the chain of a redirected root, up to its target. *)
Lemma redirected_chain r t : (r, t) ∈ redirected w ->
  exists D T, chain_from linp tuple_at r (r :: D ++ t :: T) /\ D ⊆ nowunused w.
Proof.
  intros Hin. destruct (scan_redirected _ _ _ _ _ Hs r t Hin) as [[Hr _] _].
  destruct (chain_exists linp tuple_at Hok r Hr) as [C HC].
  pose proof (plan_once _ _ _ (scan_plan _ _ _ _ _ Hs)) as Hnd. unfold touched in Hnd.
  assert (H1 : r ∈ (redirected w).*1) by (apply list_elem_of_fmap; by exists (r, t)).
  pose proof Hnd as (Hnd1 & Hd1 & _)%NoDup_app.
  destruct (scan_settled _ _ _ _ _ Hs r C Hr HC) as [T Hn|D t' T Hin' HD|D Hin' HD].
  - apply root_range in Hr. lia.
  - destruct Hn. unfold touched. apply elem_of_app. by left.
  - replace t' with t in *; [eauto|].
    apply (target_in _ _ _ Hnd1) in Hin, Hin'. congruence.
  - exfalso. apply (Hd1 r H1). rewrite !elem_of_app. tauto.
Qed.

Lemma chain_pred r D t T : chain_from linp tuple_at r (r :: D ++ t :: T) ->
  exists z, z ∈ r :: D /\ succ z = Some t.
Proof.
  revert r. induction D as [|d D IH]; intros r HC; cbn in HC.
  - inversion HC as [|? y ? Hy HC']; subst. destruct (chain_head _ _ _ _ HC') as [? [= -> _]].
    exists r. split; [by left|done].
  - inversion HC as [|? y ? Hy HC']; subst. destruct (chain_head _ _ _ _ HC') as [? [= -> _]].
    destruct (IH y HC') as (z & Hz & Hsz). exists z. split; [by right|done].
Qed.

(** A normal item has always been there. *)
Lemma normal_after lp : lp ∈ linp' -> ItemIdIsNormal lp = true -> lp ∈ linp.
Proof.
  destruct plan_result as [Hl HG]. intros Hlp Hn. apply list_elem_of_lookup in Hlp as [i Hi].
  assert (Hg : PageGetItemId linp' (Z.of_nat i + 1) = Some lp).
  { unfold PageGetItemId, FirstOffsetNumber. rewrite (proj2 (Z.leb_le _ _)) by lia.
    by replace (Z.to_nat (Z.of_nat i + 1 - 1)) with i by lia. }
  rewrite HG in Hg. destruct (PageGetItemId linp (Z.of_nat i + 1)) as [lp0|] eqn:E0; [|done].
  injection Hg as Hg. destruct (decide (changed (Z.of_nat i + 1))) as [Hc|Hc].
  - rewrite <- Hg, new_item_not_normal in Hn; done.
  - rewrite new_item_unchanged in Hg by done. subst lp0. by apply PageGetItemId_Some in E0 as [_ Hin].
Qed.

Lemma hot_ok_after : hot_ok linp' tuple_at.
Proof.
  destruct plan_result as [Hl HG]. constructor.
  - rewrite Hl. apply Hok.
  - intros lp Hlp Hn. apply (headers _ _ Hok); [by apply normal_after|done].
  - intros lp Hlp Hn. apply (stored _ _ Hok); [by apply normal_after|done].
  - intros o y E. destruct (decide (changed o)) as [Hc|Hc].
    + pose proof (succ_after_new _ _ E Hc) as Hin. apply heap_only_after.
      * by apply (scan_redirected _ _ _ _ _ Hs o y).
      * by eapply target_unchanged.
    + destruct (succ_after_old _ _ E Hc) as [E' Hy]. apply heap_only_after; [|done].
      by eapply succ_heap_only.
  - intros o1 o2 y E1 E2.
    assert (Hmix : forall a b, succ' a = Some y -> succ' b = Some y -> changed a -> ~ changed b ->
      False).
    { intros a b Ea Eb Ha Hb. pose proof (succ_after_new _ _ Ea Ha) as Hin.
      destruct (succ_after_old _ _ Eb Hb) as [Eb' _].
      destruct (redirected_chain _ _ Hin) as (D & T & HC & HD).
      destruct (chain_pred _ _ _ _ HC) as (z & Hz & Hzs).
      rewrite (succ_inj _ _ Hok _ _ _ Hzs Eb') in Hz. apply Hb.
      apply elem_of_cons in Hz as [->|Hz]; [done|]. right. right. by apply HD. }
    destruct (decide (changed o1)) as [H1|H1], (decide (changed o2)) as [H2|H2];
      [|by destruct (Hmix o1 o2)|by destruct (Hmix o2 o1)|].
    + pose proof (succ_after_new _ _ E1 H1) as I1. pose proof (succ_after_new _ _ E2 H2) as I2.
      pose proof (plan_once _ _ _ (scan_plan _ _ _ _ _ Hs)) as Hnd. unfold touched in Hnd.
      apply NoDup_app in Hnd as (_ & _ & Hnd). apply NoDup_app in Hnd as (Hnd & _).
      apply list_elem_of_lookup in I1 as [i1 I1], I2 as [i2 I2].
      assert (i1 = i2).
      { eapply (NoDup_lookup _ _ _ _ Hnd); rewrite list_lookup_fmap; [by rewrite I1|by rewrite I2]. }
      congruence.
    + destruct (succ_after_old _ _ E1 H1) as [F1 _], (succ_after_old _ _ E2 H2) as [F2 _].
      by eapply succ_inj.
Qed.

(** Every redirect leads to a heap-only tuple. *)
Lemma redirects_after o t : redirect' o = Some t -> HotProps.heap_only linp' tuple_at t.
Proof.
  rewrite redirect_after. destruct (target (redirected w) o) as [x|] eqn:Et.
  - intros [= ->]. apply target_Some in Et. apply heap_only_after.
    + by apply (scan_redirected _ _ _ _ _ Hs o t).
    + by eapply target_unchanged.
  - case_decide as Hc; [done|]. intros Ht.
    assert (Hr : root linp tuple_at o) by (left; by eexists).
    destruct (chain_exists linp tuple_at Hok o Hr) as [C HC].
    pose proof (root_range _ _ _ Hr) as Hor.
    destruct (scan_settled _ _ _ _ _ Hs o C Hr HC ltac:(lia)) as [T Hn Ho Hy _ _|D t' T Hin' HD|D Hin' HD].
    + destruct Hy as (y & T' & -> & Hdy); [by eexists|].
      inversion HC as [|? z ? Hz HC']; subst. destruct (chain_head _ _ _ _ HC') as [? [= <- _]].
      assert (y = t).
      { rewrite (succ_redirect _ _ _ _ Ht) in Hz. case_match; congruence. }
      subst y. apply heap_only_after; [by eapply succ_heap_only|]. intros Hct.
      apply changed_touched in Hct. destruct (Ho t) as [_ (_ & Hd & _)]; [by left|done|congruence].
    + destruct Hc. left. apply list_elem_of_fmap. by exists (o, t').
    + destruct Hc. right. by left.
Qed.

Lemma verify_redirects_after : page_verify_redirects linp' tuple_at = true.
Proof.
  apply forallb_forall. intros lp Hlp. apply elem_of_list_In in Hlp || apply list_elem_of_In in Hlp.
  apply list_elem_of_lookup in Hlp as [i Hi]. unfold redirect_valid.
  destruct (ItemIdIsRedirected lp) eqn:Er; [|done].
  assert (Hg : redirect' (Z.of_nat i + 1) = Some (ItemIdGetRedirect lp)).
  { unfold HotProps.redirect, PageGetItemId, FirstOffsetNumber.
    rewrite (proj2 (Z.leb_le _ _)) by lia.
    replace (Z.to_nat (Z.of_nat i + 1 - 1)) with i by lia. by rewrite Hi, Er. }
  destruct (redirects_after _ _ Hg) as (h & Hh & Ho).
  destruct (tuple_inv _ _ _ _ Hh) as (lp' & Hlp' & Hn & Ht). rewrite Hlp', Ht.
  apply PageGetItemId_Some in Hlp' as [_ Hin].
  by rewrite (normal_used _ Hn), Hn, (stored _ _ hot_ok_after _ Hin Hn), Ho.
Qed.

(** ** What is removed, and what is left *)

Lemma removed_surely_dead o : is_Some (tuple o) -> tuple' o = None ->
  surely_dead linp tuple_at hs o.
Proof.
  intros Ht. rewrite tuple_after. case_decide as Hc; [intros _|by intros E; destruct Ht; congruence].
  destruct Hc as [Hc|[Hc|Hc]].
  - apply list_elem_of_fmap in Hc as ([r t] & -> & Hin).
    by apply (scan_redirected _ _ _ _ _ Hs r t).
  - by apply (scan_dead _ _ _ _ _ Hs).
  - by apply (scan_unused _ _ _ _ _ Hs).
Qed.

Lemma walk_list_app_inv D T x : x ∈ walk_list linp hs all_marked_none (D ++ T) ->
  x ∈ D \/ x ∈ walk_list linp hs all_marked_none T.
Proof.
  induction D as [|o D IH]; [by right|]. cbn. destruct (passes _ _ o).
  - intros [->|Hx]%elem_of_cons; [left; by left|]. destruct (IH Hx); [left; by right|by right].
  - intros [->|Hx]%elem_of_cons; [left; by left|]. by apply elem_of_nil in Hx.
Qed.

(** A root reaches the tuple through tuples that are no obstacle. *)
Definition anchored (x : Z) : Prop :=
  exists r C, root linp tuple_at r /\ chain_from linp tuple_at r C
              /\ x ∈ walk_list linp hs all_marked_none C.

Lemma none_dead_after x :
  (forall h, tuple x = Some h -> HeapTupleHeaderIsHeapOnly h = true ->
     HeapTupleHeaderIsHotUpdated h = true -> dead x = true -> anchored x) ->
  is_Some (tuple' x) -> dead x = false.
Proof.
  intros Hanch [h Hh]. rewrite tuple_after in Hh. case_decide as Hc; [done|].
  destruct (dead x) eqn:Hd; [|done]. exfalso. apply Hc.
  assert (Hx : 1 <= x <= maxoff linp) by by eapply tuple_range.
  assert (Hset : forall r C, root linp tuple_at r -> chain_from linp tuple_at r C ->
    x ∈ walk_list linp hs all_marked_none C -> changed x).
  { intros r C Hr HC HxC. pose proof (root_range _ _ _ Hr) as Hrr.
    destruct (scan_settled _ _ _ _ _ Hs r C Hr HC ltac:(lia)) as [T Hn Ho Hy Hh' Hdr|D t' T Hin' HD Ht Ho Hh'|D Hin' HD].
    - right. right. by apply Hh'.
    - rewrite app_comm_cons in HxC. apply walk_list_app_inv in HxC as [HxD|HxT].
      + apply elem_of_cons in HxD as [->|HxD]; [left|right; right; by apply HD].
        apply list_elem_of_fmap. by exists (r, t').
      + right. right. by apply Hh'.
    - apply walk_list_sub in HxC. apply elem_of_cons in HxC as [->|HxC]; [right; by left|].
      right. right. by apply HD. }
  destruct (HeapTupleHeaderIsHeapOnly h) eqn:Ho.
  - destruct (HeapTupleHeaderIsHotUpdated h) eqn:Hu.
    + destruct (Hanch h Hh Ho Hu eq_refl) as (r & C & Hr & HC & HxC). eauto.
    + right. right. apply (scan_ends _ _ _ _ _ Hs); [|lia].
      split; [by exists h|]. split; [done|]. by exists h.
  - assert (Hr : root linp tuple_at x) by (right; eauto).
    destruct (chain_exists linp tuple_at Hok x Hr) as [C HC]. apply (Hset x C Hr HC).
    destruct (chain_head _ _ _ _ HC) as [C' ->]. cbn.
    rewrite (dead_passes linp hs x Hd). by left.
Qed.
End plan.
