(* ===== verification/HotSearch.v ===== *)
(** Searching HOT chains: pg_tde_hot_search_buffer finds the first visible
    member of a chain, before and after pruning.  And the way back:
    pg_tde_get_root_tuples maps every member to the root of its chain. *)
From stdpp Require Import relations.
From S2P Require Import Prelude Visibility Prune HotChain HotProps HotWalk HotScan PagePrune HotPlan.

Section search.
Context `{HH : HtupFlags} `{HW : World} `{HM : PageMacros} `{HLP : LinePointers} `{HHF : HotFlags}.
Context `{HLL : !LinePointersLaws}.
Variable visible : Z -> TupleHeader -> bool.

Section page.
Variable linp : list ItemId.
Variable tuple_at : ItemId -> option TupleHeader.
Hypothesis Hok : hot_ok linp tuple_at.

Abbreviation tuple := (tuple linp tuple_at).
Abbreviation redirect := (redirect linp).
Abbreviation succ := (succ linp tuple_at).
Abbreviation member := (member linp tuple_at).
Abbreviation chain_from := (chain_from linp tuple_at).
Abbreviation search_loop := (search_loop linp tuple_at visible).

Definition visible_item (x : Z) : bool :=
  match tuple x with Some h => visible x h | None => false end.

(** The first visible member. *)
Definition find_visible (C : list Z) : option Z := find visible_item C.

(** The search ends with [r]; what it reports on the way is left open. *)
Definition search_finds (fuel : nat) (o prev : Z) (start : bool) (ad : option bool)
    (ev : list search_event) (r : option Z) : Prop :=
  exists ad' ev', search_loop fuel o prev start false ad ev = Ret (r, ad', ev').

Lemma search_stops fuel o prev ad ev :
  member o prev = false -> search_finds (S fuel) o prev false ad ev None.
Proof.
  intros Hm. unfold search_finds. cbn [HotChain.search_loop]. unfold FirstOffsetNumber.
  destruct ((o <? 1) || (maxoff linp <? o)) eqn:Hr; [eauto|].
  apply orb_false_iff in Hr as [H1%Z.ltb_ge H2%Z.ltb_ge].
  destruct (PageGetItemId_is_Some linp o) as [lp Hlp]; [done|]. rewrite Hlp.
  destruct (ItemIdIsNormal lp) eqn:Hn; cbn [negb].
  - apply PageGetItemId_Some in Hlp as Hin. destruct Hin as [_ Hin].
    destruct (headers _ _ Hok lp Hin Hn) as [h Hh]. rewrite Hh. cbn [andb].
    unfold HotProps.member, HotProps.tuple in Hm. rewrite Hlp, Hn, Hh in Hm.
    apply negb_false_iff in Hm. rewrite Z.eqb_sym, Hm. eauto.
  - rewrite andb_false_r. eauto.
Qed.

(** The search stands before a member of the chain, or at a redirect it
    starts with. *)
Definition search_stands (o prev : Z) (start : bool) : Prop :=
  (exists h, tuple o = Some h /\ member o prev = true
             /\ (start = false \/ HeapTupleHeaderIsHeapOnly h = false)) \/
  (is_Some (redirect o) /\ start = true /\ prev = InvalidTransactionId).

Lemma search_redirect fuel o t prev ad ev :
  redirect o = Some t ->
  search_loop (S fuel) o prev true false ad ev = search_loop fuel t prev false false ad ev.
Proof.
  intros Ht. pose proof (redirect_range _ _ _ Ht) as Hr. cbn [HotChain.search_loop].
  unfold FirstOffsetNumber. rewrite (proj2 (Z.ltb_ge _ _)), (proj2 (Z.ltb_ge _ _)) by lia.
  cbn [orb]. unfold HotProps.redirect in Ht.
  destruct (PageGetItemId linp o) as [lp|]; [|done].
  destruct (ItemIdIsRedirected lp) eqn:Er; [|done]. injection Ht as ->.
  destruct (ItemIdIsNormal lp) eqn:En; [|done].
  apply normal_kind in En as [? _]. congruence.
Qed.

Lemma search_tuple fuel o h prev start ad ev :
  tuple o = Some h -> member o prev = true ->
  start = false \/ HeapTupleHeaderIsHeapOnly h = false ->
  exists ad' ev', search_loop (S fuel) o prev start false ad ev =
    if visible o h then Ret (Some o, ad', ev')
    else if HeapTupleHeaderIsHotUpdated h then
      search_loop fuel (snd (t_ctid (fields h))) (HeapTupleHeaderGetUpdateXid (fields h))
        false false ad' ev'
    else Ret (None, ad', ev').
Proof.
  intros Ht Hm Hs. pose proof (tuple_range _ _ _ _ Ht) as Hr. cbn [HotChain.search_loop].
  unfold FirstOffsetNumber. rewrite (proj2 (Z.ltb_ge _ _)), (proj2 (Z.ltb_ge _ _)) by lia.
  cbn [orb]. destruct (tuple_inv _ _ _ _ Ht) as (lp & -> & -> & ->). cbn [negb].
  replace (start && HeapTupleHeaderIsHeapOnly h) with false
    by (destruct Hs as [-> | ->]; [done|by rewrite andb_false_r]).
  unfold HotProps.member in Hm. rewrite Ht in Hm. apply negb_true_iff in Hm.
  rewrite Z.eqb_sym, Hm. cbn [negb andb].
  destruct (visible o h); [eauto|]. destruct (HeapTupleHeaderIsHotUpdated h); eauto.
Qed.

Lemma search_loop_spec C fuel o prev start ad ev :
  chain_from o C -> search_stands o prev start -> (length C < fuel)%nat ->
  search_finds fuel o prev start ad ev (find_visible C).
Proof.
  revert fuel o prev start ad ev. induction C as [|x C IH];
    intros fuel o prev start ad ev HC Hst Hf; [inversion HC|].
  destruct (chain_from_cons _ _ _ _ HC) as (C' & [= -> <-] & Hnext).
  destruct fuel as [|fuel]; [cbn in Hf; lia|]. cbn [length] in Hf.
  assert (Hcont : forall t p ad ev, succ o = (if member t p then Some t else None) ->
    search_finds fuel t p false ad ev (find_visible C)).
  { intros t p ad' ev' Hs. destruct (member t p) eqn:Hm.
    - destruct Hnext as [[? _]|(o' & Ho' & HC')]; [congruence|].
      replace o' with t in HC' by congruence. apply IH; [done| |lia].
      left. unfold HotProps.member in Hm |- *. destruct (tuple t) as [h|] eqn:Eh; [|done].
      exists h. split_and!; auto.
    - destruct Hnext as [[_ ->]|(o' & Ho' & _)]; [|congruence].
      destruct fuel as [|f]; [cbn in Hf; lia|]. by apply search_stops. }
  unfold find_visible. cbn [find]. unfold visible_item at 1.
  destruct Hst as [(h & Hh & Hm & Hs)|([t Ht] & -> & ->)].
  - destruct (search_tuple fuel o h prev start ad ev Hh Hm Hs) as (ad' & ev' & E).
    unfold search_finds. rewrite E, Hh. destruct (visible o h); [eauto|].
    pose proof (succ_tuple _ _ _ _ Hh) as Hsu.
    destruct (HeapTupleHeaderIsHotUpdated h).
    + by apply Hcont.
    + destruct Hnext as [[_ ->]|(o' & Ho' & _)]; [eauto|congruence].
  - destruct (tuple o) as [h|] eqn:Eh; [apply tuple_redirect in Eh; congruence|].
    unfold search_finds. rewrite (search_redirect _ _ _ _ _ _ Ht).
    apply Hcont. by apply succ_redirect.
Qed.

(** A search from a root finds the first visible member of its chain. *)
Lemma hot_search_root r C want fuel :
  root linp tuple_at r -> chain_from r C -> (length C < fuel)%nat ->
  exists ad ev, pg_tde_hot_search_buffer linp tuple_at visible fuel r want true
                = Ret (find_visible C, ad, ev).
Proof.
  intros Hr HC Hf. apply (search_loop_spec C fuel r InvalidTransactionId true
    (if want then Some true else None) []); [done| |done].
  destruct Hr as [Hr|(h & Hh & Ho)]; [by right|]. left. exists h. split_and!; [done| |by right].
  unfold HotProps.member. rewrite Hh. unfold TransactionIdIsValid. by rewrite Z.eqb_refl.
Qed.

(** From an item that is neither a tuple nor a redirect nothing is found. *)
Lemma hot_search_nothing o want fuel :
  1 <= o <= maxoff linp -> tuple o = None -> redirect o = None ->
  exists ad ev, pg_tde_hot_search_buffer linp tuple_at visible (S fuel) o want true
                = Ret (None, ad, ev).
Proof.
  intros Hr Ht Hrd. unfold pg_tde_hot_search_buffer. cbn [HotChain.search_loop].
  unfold FirstOffsetNumber. rewrite (proj2 (Z.ltb_ge _ _)), (proj2 (Z.ltb_ge _ _)) by lia.
  cbn [orb]. unfold HotProps.tuple, HotProps.redirect in *.
  destruct (PageGetItemId_is_Some linp o Hr) as [lp Hlp]. rewrite Hlp in *.
  destruct (ItemIdIsRedirected lp); [done|].
  destruct (ItemIdIsNormal lp) eqn:Hn; [|eauto]. exfalso.
  apply PageGetItemId_Some in Hlp as [_ Hin]. destruct (headers _ _ Hok lp Hin Hn) as [h Hh].
  congruence.
Qed.
End page.

(** ** Before and after pruning *)

Section pruned.
Variable linp : list ItemId.
Variable tuple_at : ItemId -> option TupleHeader.
Variable hs : list (option HTSV_Result).
Hypothesis Hok : hot_ok linp tuple_at.
Hypothesis Hj : judged linp tuple_at hs.
Variable w : PruneWork.
Hypothesis Hs : scanned linp tuple_at hs (maxoff linp + 1) w.
Variable linp' : list ItemId.
Hypothesis Hplan : apply_plan (redirected w) (nowdead w) (nowunused w) linp = Some linp'.
(** No one sees a tuple that is surely dead. *)
Hypothesis Hinv : forall x h, HotProps.tuple linp tuple_at x = Some h ->
  surely_dead linp tuple_at hs x -> visible x h = false.

Abbreviation find_before := (find_visible linp tuple_at).
Abbreviation find_after := (find_visible linp' tuple_at).
Abbreviation changed := (changed w).

Lemma find_skip D T : (forall x, x ∈ D -> visible_item linp tuple_at x = false) ->
  find_before (D ++ T) = find_before T.
Proof.
  intros HD. unfold find_visible. induction D as [|x D IH]; [done|]. cbn.
  rewrite HD by by left. apply IH. intros y Hy. apply HD. by right.
Qed.

Lemma changed_invisible x : changed x -> visible_item linp tuple_at x = false.
Proof.
  intros Hc. unfold visible_item. destruct (HotProps.tuple linp tuple_at x) as [h|] eqn:Eh; [|done].
  apply Hinv; [done|]. apply (removed_surely_dead linp tuple_at hs Hok w Hs linp' Hplan); [by eexists|].
  rewrite (tuple_after linp tuple_at hs Hok w Hs linp' Hplan). by rewrite decide_True.
Qed.

(** A chain of which only dead ends went keeps its visible members. *)
Lemma kept_chain C x :
  chain_from linp tuple_at x C -> ~ changed x -> only_dead_ends linp tuple_at hs w (tail C) ->
  exists C', chain_from linp' tuple_at x C' /\ find_after C' = find_before C
             /\ (length C' <= length C)%nat.
Proof.
  intros HC. induction HC as [o Ho|o o' C Ho HC IH]; intros Hc Hde; cbn [tail] in Hde.
  - exists [o]. assert (Hn : HotProps.succ linp' tuple_at o = None).
    { rewrite (succ_after linp tuple_at hs Hok w Hs linp' Hplan), Ho.
      destruct (target (redirected w) o) eqn:Et; [|by case_decide].
      destruct Hc. left. apply target_Some in Et. apply list_elem_of_fmap. by exists (o, z). }
    split; [by constructor|]. split; [|done]. unfold find_visible. cbn. unfold visible_item.
    rewrite (tuple_after linp tuple_at hs Hok w Hs linp' Hplan).
    by rewrite decide_False.
  - assert (Hvis : visible_item linp' tuple_at o = visible_item linp tuple_at o).
    { unfold visible_item. rewrite (tuple_after linp tuple_at hs Hok w Hs linp' Hplan).
      by rewrite decide_False. }
    assert (Hsucc : HotProps.succ linp' tuple_at o = if decide (changed o') then None else Some o').
    { rewrite (succ_after linp tuple_at hs Hok w Hs linp' Hplan), Ho.
      destruct (target (redirected w) o) eqn:Et; [|by rewrite decide_False by done].
      destruct Hc. left. apply target_Some in Et. apply list_elem_of_fmap. by exists (o, z). }
    destruct (chain_head _ _ _ _ HC) as [T ->].
    destruct (decide (changed o')) as [Hc'|Hc'].
    + destruct (Hde o') as [_ Hend]; [by left|by apply changed_touched|].
      apply dead_end_last in Hend. inversion HC; subst; [|congruence].
      exists [o]. split; [by constructor|]. split; [|cbn; lia].
      unfold find_visible. cbn. rewrite Hvis, (changed_invisible o' Hc'). done.
    + destruct IH as (C' & HC' & Hf & Hl); [done|by eapply only_dead_ends_sub; [|done]; set_solver|].
      exists (o :: C'). split; [by econstructor|]. split; [|cbn in *; lia].
      unfold find_visible in *. cbn [find]. by rewrite Hvis, Hf.
Qed.

(** A search from any root finds the same tuple as before. *)
Lemma search_after r want want' fuel :
  root linp tuple_at r -> (MaxHeapTuplesPerPage < fuel)%nat ->
  exists found ad ev ad' ev',
    pg_tde_hot_search_buffer linp tuple_at visible fuel r want true = Ret (found, ad, ev)
    /\ pg_tde_hot_search_buffer linp' tuple_at visible fuel r want' true = Ret (found, ad', ev').
Proof.
  intros Hr Hf. destruct (chain_exists linp tuple_at Hok r Hr) as [C HC].
  pose proof (chain_length linp tuple_at Hok r C Hr HC) as Hlen.
  pose proof (root_range _ _ _ Hr) as Hrr.
  pose proof (hot_ok_after linp tuple_at hs Hok w Hs linp' Hplan) as Hok'.
  destruct (hot_search_root linp tuple_at Hok r C want fuel Hr HC) as (ad & ev & E); [lia|].
  exists (find_before C), ad, ev. rewrite E.
  pose proof (tuple_after linp tuple_at hs Hok w Hs linp' Hplan) as Htup.
  pose proof (redirect_after linp tuple_at hs Hok w Hs linp' Hplan) as Hred.
  pose proof (plan_once _ _ _ (scan_plan _ _ _ _ _ Hs)) as Hnd.
  destruct (scan_settled _ _ _ _ _ Hs r C Hr HC ltac:(lia))
    as [T Hn Ho Hy _ _|D t T Hin HD _ Ho _|D Hin HD].
  - assert (Hc : ~ changed r) by (intros Hc; by apply Hn, changed_touched).
    destruct (kept_chain (r :: T) r HC Hc Ho) as (C' & HC' & Hfind & Hl).
    assert (Hr' : root linp' tuple_at r).
    { destruct Hr as [Hr|(h & Hh & Hho)]; [left|right].
      - rewrite Hred, decide_False by done. by case_match; [eexists|].
      - exists h. by rewrite Htup, decide_False. }
    destruct (hot_search_root linp' tuple_at Hok' r C' want' fuel Hr' HC') as (ad' & ev' & E'); [lia|].
    exists ad', ev'. by rewrite E', Hfind.
  - assert (Hcr : changed r) by (left; apply list_elem_of_fmap; by exists (r, t)).
    assert (Htar : target (redirected w) r = Some t).
    { apply target_in; [|done]. unfold touched in Hnd. by apply NoDup_app in Hnd as (? & _). }
    assert (HCt : chain_from linp tuple_at t (t :: T)).
    { clear -HC. revert r HC. induction D as [|d D IH]; intros r HC; cbn in HC;
        inversion HC as [|? y ? Hy HC']; subst; destruct (chain_head _ _ _ _ HC') as [? [= -> _]];
        [done|by eapply IH]. }
    assert (Htc : ~ changed t) by (eapply target_unchanged; done).
    destruct (kept_chain (t :: T) t HCt Htc Ho) as (C' & HC' & Hfind & Hl).
    assert (Hr' : root linp' tuple_at r) by (left; rewrite Hred, Htar; by eexists).
    assert (Hs' : HotProps.succ linp' tuple_at r = Some t).
    { by rewrite (succ_after linp tuple_at hs Hok w Hs linp' Hplan), Htar. }
    destruct (hot_search_root linp' tuple_at Hok' r (r :: C') want' fuel Hr')
      as (ad' & ev' & E').
    { by econstructor. }
    { rewrite length_cons, length_app in Hlen. cbn in *. lia. }
    exists ad', ev'. rewrite E'. split; [done|]. do 3 f_equal.
    rewrite app_comm_cons, find_skip.
    + rewrite <- Hfind. unfold find_visible. cbn [find]. unfold visible_item at 1.
      by rewrite Htup, decide_True.
    + intros x Hx. apply changed_invisible. apply elem_of_cons in Hx as [->|Hx]; [done|].
      right. right. by apply HD.
  - assert (Hcr : changed r) by (right; by left).
    destruct fuel as [|fuel]; [lia|].
    destruct (hot_search_nothing linp' tuple_at Hok' r want' fuel) as (ad' & ev' & E').
    + destruct (plan_result linp tuple_at hs w Hs linp' Hplan) as [Hl _]. unfold maxoff in *. by rewrite Hl.
    + by rewrite Htup, decide_True.
    + rewrite Hred. destruct (target (redirected w) r) as [t|] eqn:Et; [|by rewrite decide_True].
      exfalso. apply target_Some in Et. unfold touched in Hnd.
      apply NoDup_app in Hnd as (_ & Hd & _). apply (Hd r).
      * apply list_elem_of_fmap. by exists (r, t).
      * rewrite !elem_of_app. tauto.
    + exists ad', ev'. rewrite E'. split; [done|]. do 3 f_equal.
      rewrite <- (app_nil_r (r :: D)), find_skip; [done|].
      intros x Hx. apply changed_invisible. apply elem_of_cons in Hx as [->|Hx]; [done|].
      right. right. by apply HD.
Qed.
End pruned.
End search.

Section roots.
Context `{HH : HtupFlags} `{HW : World} `{HM : PageMacros} `{HLP : LinePointers} `{HHF : HotFlags}.
Context `{HLL : !LinePointersLaws}.
Variable linp : list ItemId.
Variable tuple_at : ItemId -> option TupleHeader.

Abbreviation tuple := (tuple linp tuple_at).
Abbreviation redirect := (redirect linp).
Abbreviation root := (root linp tuple_at).
Abbreviation link := (link linp tuple_at).
Abbreviation member := (member linp tuple_at).
Abbreviation succ := (succ linp tuple_at).
Abbreviation chain_from := (chain_from linp tuple_at).
Abbreviation maxoff := (maxoff linp).
Abbreviation root_loop := (root_loop linp tuple_at).

Hypothesis Hok : hot_ok linp tuple_at.

(** No tuple leads past the end of the line pointers. *)
Definition links_in_range : Prop := forall o t x, link o = Some (t, x) -> 1 <= t <= maxoff.
Hypothesis Hin : links_in_range.

(** The entries of the items [l] set to [r]. *)
Definition fill (r : Z) (l : list Z) (roots : list Z) : list Z :=
  foldl (fun roots x => <[Z.to_nat (x - 1) := r]> roots) roots l.

(** Being a root is decided by the line pointer and the header. *)
Lemma root_dec o : root o \/ ~ root o.
Proof.
  unfold HotProps.root. destruct (redirect o) as [t|] eqn:E; [by left; left; eexists|].
  destruct (tuple o) as [h|] eqn:Eh.
  - destruct (HeapTupleHeaderIsHeapOnly h) eqn:Eo; [right|left; right; eauto].
    intros [[t ?]|(h' & [= <-] & ?)]; congruence.
  - right. intros [[t ?]|(h' & ? & ?)]; congruence.
Qed.

Lemma fill_length r l roots : length (fill r l roots) = length roots.
Proof.
  revert roots. induction l as [|x l IH]; intros roots; [done|].
  cbn. unfold fill in IH. by rewrite IH, length_insert.
Qed.

Lemma fill_lookup r l roots x :
  Forall (fun y => 1 <= y <= Z.of_nat (length roots)) l -> 1 <= x ->
  fill r l roots !! Z.to_nat (x - 1) =
    if decide (x ∈ l) then Some r else roots !! Z.to_nat (x - 1).
Proof.
  revert roots. induction l as [|y l IH]; intros roots Hl Hx.
  { rewrite decide_False; [done|apply not_elem_of_nil]. }
  apply Forall_cons in Hl as [Hy Hl]. cbn. unfold fill in IH.
  rewrite IH by (rewrite ?length_insert; done). case_decide as H1.
  - by rewrite decide_True by (by right).
  - destruct (decide (x = y)) as [->|Hne].
    + rewrite decide_True by (by left). rewrite list_lookup_insert_eq; [done|lia].
    + rewrite decide_False by (rewrite elem_of_cons; tauto).
      rewrite list_lookup_insert_ne; [done|lia].
Qed.

Lemma wr_root roots o r : 1 <= o <= maxoff -> length roots = MaxHeapTuplesPerPage ->
  wr roots (o - 1) r = Some (<[Z.to_nat (o - 1) := r]> roots).
Proof.
  intros Ho Hl. unfold wr. pose proof (few _ _ Hok). unfold HotChain.maxoff in Ho.
  rewrite (proj2 (Z.leb_le _ _)), (proj2 (Z.ltb_lt _ _)) by lia. done.
Qed.

(** ** One chain *)

Lemma root_loop_stops fuel r o prior roots : 1 <= r <= maxoff -> 1 <= o <= maxoff ->
  member o prior = false -> root_loop (S fuel) r o prior roots = Ret roots.
Proof.
  intros Hr Ho Hm. cbn [HotChain.root_loop]. unfold FirstOffsetNumber.
  rewrite (proj2 (Z.ltb_ge _ _)), (proj2 (Z.ltb_ge _ _)) by lia. cbn [orb].
  destruct (PageGetItemId_is_Some linp o Ho) as [lp Hlp]. rewrite Hlp.
  destruct (ItemIdIsNormal lp) eqn:En; [|done]. cbn [negb].
  apply PageGetItemId_Some in Hlp as Hi. destruct (headers _ _ Hok lp (proj2 Hi) En) as [h Hh].
  rewrite Hh. unfold HotProps.member, HotProps.tuple in Hm. rewrite Hlp, En, Hh in Hm.
  apply negb_false_iff in Hm. by rewrite Z.eqb_sym, Hm.
Qed.

Lemma root_loop_spec C fuel r o prior roots :
  chain_from o C -> 1 <= r <= maxoff -> member o prior = true ->
  length roots = MaxHeapTuplesPerPage -> (length C < fuel)%nat ->
  root_loop fuel r o prior roots = Ret (fill r C roots).
Proof.
  revert fuel o prior roots. induction C as [|x C IH];
    intros fuel o prior roots HC Hr Hm Hl Hf; [inversion HC|].
  destruct (chain_from_cons _ _ _ _ HC) as (C' & [= -> <-] & Hnext).
  destruct fuel as [|fuel]; [cbn in Hf; lia|]. cbn [length] in Hf.
  pose proof Hm as Hm'. unfold HotProps.member in Hm.
  destruct (tuple o) as [h|] eqn:Hh; [|done]. apply negb_true_iff in Hm.
  pose proof (tuple_range _ _ _ _ Hh) as Ho. cbn [HotChain.root_loop]. unfold FirstOffsetNumber.
  rewrite (proj2 (Z.ltb_ge _ _)), (proj2 (Z.ltb_ge _ _)) by lia. cbn [orb].
  destruct (tuple_inv _ _ _ _ Hh) as (lp & -> & -> & ->). cbn [negb].
  rewrite Z.eqb_sym, Hm, wr_root by done.
  pose proof (succ_tuple _ _ _ _ Hh) as Hsu.
  destruct (HeapTupleHeaderIsHotUpdated h) eqn:Hu; cbn [negb].
  - assert (Hlink : 1 <= snd (t_ctid (fields h)) <= maxoff).
    { apply (Hin o _ (HeapTupleHeaderGetUpdateXid (fields h))). unfold HotProps.link.
      by rewrite (tuple_redirect _ _ _ _ Hh), Hh, Hu. }
    destruct (member _ _) eqn:Hmm in Hsu.
    + destruct Hnext as [[? _]|(o' & Ho' & HC')]; [congruence|].
      rewrite Ho' in Hsu. injection Hsu as ->.
      rewrite (IH fuel _ _ _ HC') by (rewrite ?length_insert; auto with lia). done.
    + destruct Hnext as [[_ ->]|(o' & Ho' & _)]; [|congruence].
      destruct fuel as [|fuel]; [cbn in Hf; lia|]. by rewrite root_loop_stops.
  - destruct Hnext as [[_ ->]|(o' & Ho' & _)]; [done|congruence].
Qed.

(** The chase from an item on collects what follows it. *)
Lemma root_loop_next fuel r o t x T roots :
  link o = Some (t, x) -> chain_from o (o :: T) -> 1 <= r <= maxoff ->
  length roots = MaxHeapTuplesPerPage -> (length T < fuel)%nat ->
  root_loop fuel r t x roots = Ret (fill r T roots).
Proof.
  intros Hl HC Hr Hroots Hf. pose proof (Hin _ _ _ Hl) as Ht.
  destruct (chain_from_cons _ _ _ _ HC) as (C' & [= <-] & Hnext).
  assert (Hsu : succ o = if member t x then Some t else None) by (unfold HotProps.succ; by rewrite Hl).
  destruct (member t x) eqn:Hm.
  - destruct Hnext as [[? _]|(o' & Ho' & HC')]; [congruence|].
    rewrite Ho' in Hsu. injection Hsu as ->. by apply root_loop_spec.
  - destruct Hnext as [[_ ->]|(o' & Ho' & _)]; [|congruence].
    destruct fuel as [|fuel]; [cbn in Hf; lia|]. by rewrite root_loop_stops.
Qed.

(** ** One item *)

Lemma tuple_link o h : tuple o = Some h -> link o =
  if HeapTupleHeaderIsHotUpdated h
  then Some (snd (t_ctid (fields h)), HeapTupleHeaderGetUpdateXid (fields h)) else None.
Proof. intros Hh. unfold HotProps.link. by rewrite (tuple_redirect _ _ _ _ Hh), Hh. Qed.

Lemma root_item_root fuel r lp T roots :
  root r -> PageGetItemId linp r = Some lp -> chain_from r (r :: T) ->
  length roots = MaxHeapTuplesPerPage -> (MaxHeapTuplesPerPage < fuel)%nat ->
  root_item linp tuple_at fuel r lp roots
  = Ret (fill r (if decide (is_Some (tuple r)) then r :: T else T) roots).
Proof.
  intros Hr Hlp HC Hl Hf. pose proof (root_range _ _ _ Hr) as Hrr.
  pose proof (chain_length linp tuple_at Hok r _ Hr HC) as Hlen. cbn in Hlen. unfold root_item.
  destruct Hr as [[t Ht]|(h & Hh & Ho)].
  - destruct (tuple r) eqn:E; [apply tuple_redirect in E; congruence|].
    rewrite decide_False by (intros [? ?]; congruence).
    assert (Hlink : link r = Some (t, InvalidTransactionId)) by (unfold HotProps.link; by rewrite Ht).
    unfold HotProps.redirect in Ht. rewrite Hlp in Ht.
    destruct (ItemIdIsRedirected lp) eqn:Er; [|done]. injection Ht as ->.
    rewrite (redirected_used _ Er), (redirected_alive _ Er). cbn [negb orb].
    destruct (ItemIdIsNormal lp) eqn:En; [apply normal_kind in En as [? _]; congruence|].
    apply (root_loop_next _ _ r); auto with lia.
  - rewrite Hh, decide_True by by eexists. pose proof (tuple_link _ _ Hh) as Hlink.
    destruct (tuple_inv _ _ _ _ Hh) as (lp' & Hlp' & En & Ha). rewrite Hlp in Hlp'.
    injection Hlp' as <-. rewrite (normal_used _ En), (proj2 (normal_kind _ En)), En, Ha, Ho.
    cbn [negb orb]. rewrite wr_root by done.
    destruct (HeapTupleHeaderIsHotUpdated h) eqn:Hu; cbn [negb].
    + rewrite (root_loop_next _ _ r _ _ T); rewrite ?length_insert; auto with lia.
    + destruct (chain_from_cons _ _ _ _ HC) as (C' & [= <-] & [[_ ->]|(o' & Ho' & _)]); [done|].
      unfold HotProps.succ in Ho'. by rewrite Hlink in Ho'.
Qed.

Lemma root_item_other fuel o lp roots :
  ~ root o -> PageGetItemId linp o = Some lp -> root_item linp tuple_at fuel o lp roots = Ret roots.
Proof.
  intros Hr Hlp. unfold root_item. destruct (ItemIdIsUsed lp) eqn:Eu; [|done].
  destruct (ItemIdIsDead lp) eqn:Ed; [done|]. cbn [negb orb].
  destruct (ItemIdIsRedirected lp) eqn:Er.
  { destruct Hr. left. unfold HotProps.redirect. rewrite Hlp, Er. by eexists. }
  rewrite (used_kind _ Eu Er Ed). pose proof (used_kind _ Eu Er Ed) as En.
  apply PageGetItemId_Some in Hlp as Hi. destruct (headers _ _ Hok lp (proj2 Hi) En) as [h Hh].
  rewrite Hh. destruct (HeapTupleHeaderIsHeapOnly h) eqn:Eo; [done|].
  destruct Hr. right. exists h. unfold HotProps.tuple. by rewrite Hlp, En.
Qed.
(** ** The page *)

(** The entry of [x] names [r]: it is a tuple of the chain of [r]. *)
Definition rooted_at (r x : Z) : Prop :=
  root r /\ is_Some (tuple x) /\ exists C, chain_from r C /\ x ∈ C.

(** The entries before item [k] is visited. *)
Record rooted (k : Z) (roots : list Z) : Prop := {
  rooted_length : length roots = MaxHeapTuplesPerPage;
  rooted_entry x r : 1 <= x -> r <> 0 ->
    (roots !! Z.to_nat (x - 1) = Some r <-> rooted_at r x /\ r < k);
}.

Lemma rooted_range r x : rooted_at r x -> 1 <= x <= maxoff.
Proof. intros (_ & [h Hh] & _). by eapply tuple_range. Qed.

Lemma rooted_unique r r' x : rooted_at r x -> rooted_at r' x -> r = r'.
Proof.
  intros (Hr & _ & C & HC & Hx) (Hr' & _ & C' & HC' & Hx').
  eapply (chains_disjoint linp tuple_at Hok r r' x); try done; by eapply chain_reach.
Qed.

Lemma rooted_at_root r T x : root r -> chain_from r (r :: T) ->
  (rooted_at r x <-> x ∈ if decide (is_Some (tuple r)) then r :: T else T).
Proof.
  intros Hr HC. split.
  - intros (_ & Hx & C & HC' & Hi). rewrite (chain_unique _ _ _ _ _ HC' HC) in Hi.
    case_decide; [done|]. apply elem_of_cons in Hi as [->|]; [tauto|done].
  - intros Hx. split; [done|]. assert (Hi : x ∈ r :: T) by (case_decide; [done|by right]).
    split; [|by eauto]. apply elem_of_cons in Hi as [->|Hi].
    + case_decide as Hd; [done|]. destruct (root_not_heap_only linp tuple_at r Hr).
      by eapply chain_tail_heap_only.
    + destruct (chain_tail_heap_only linp tuple_at Hok r T x HC Hi) as (h & -> & _). by eexists.
Qed.

(** One item adds the entries of its chain. *)
Lemma root_item_rooted fuel o roots :
  1 <= o <= maxoff -> rooted o roots -> (MaxHeapTuplesPerPage < fuel)%nat ->
  exists lp roots', PageGetItemId linp o = Some lp
    /\ root_item linp tuple_at fuel o lp roots = Ret roots' /\ rooted (o + 1) roots'.
Proof.
  intros Ho [Hl He] Hf. destruct (PageGetItemId_is_Some linp o Ho) as [lp Hlp]. exists lp.
  destruct (root_dec o) as [Hr|Hr].
  - destruct (chain_exists linp tuple_at Hok o Hr) as [C HC].
    destruct (chain_head _ _ _ _ HC) as [T ->]. rewrite (root_item_root fuel o lp T) by done.
    eexists. do 2 (split; [done|]). split; [by rewrite fill_length|]. intros x r Hx Hr0.
    pose proof (rooted_at_root o T x Hr HC) as Hroot. set (l := if decide _ then _ else _) in *.
    rewrite fill_lookup; [|apply Forall_forall; intros y Hy|done].
    2:{ apply (rooted_at_root o T y Hr HC), rooted_range in Hy. pose proof (few _ _ Hok).
        unfold HotChain.maxoff in Hy. lia. }
    case_decide as Hi.
    + apply Hroot in Hi. split; [intros [= <-]; split; [done|lia]|].
      intros [Hi' _]. f_equal. by eapply rooted_unique.
    + rewrite He by done. split; [intros []; split; [done|lia]|]. intros [Hi' ?]. split; [done|].
      destruct (decide (r = o)) as [->|]; [tauto|lia].
  - exists roots. rewrite root_item_other by done. do 2 (split; [done|]). split; [done|].
    intros x r Hx Hr0. rewrite He by done. split; [intros []; split; [done|lia]|].
    intros [Hi ?]. split; [done|]. destruct (decide (r = o)) as [->|]; [by destruct Hi|lia].
Qed.

Lemma roots_loop_rooted fuel n o roots :
  o = maxoff + 1 - Z.of_nat n -> 1 <= o -> rooted o roots -> (MaxHeapTuplesPerPage < fuel)%nat ->
  exists roots', roots_loop linp tuple_at fuel o (drop (Z.to_nat (o - 1)) linp) roots = Ret roots'
                 /\ rooted (maxoff + 1) roots'.
Proof.
  revert o roots. induction n as [|n IH]; intros o roots -> Ho Hr Hf.
  - rewrite drop_ge by (unfold HotChain.maxoff; lia). exists roots. split; [done|].
    by replace (maxoff + 1) with (maxoff + 1 - Z.of_nat 0) by lia.
  - set (o := maxoff + 1 - Z.of_nat (S n)) in *.
    destruct (root_item_rooted fuel o roots) as (lp & roots' & Hlp & E & Hr'); [lia|done|done|].
    unfold PageGetItemId in Hlp. destruct (FirstOffsetNumber <=? o) eqn:E1; [|done].
    erewrite drop_S by done. cbn [HotChain.roots_loop]. rewrite E.
    replace (S (Z.to_nat (o - 1))) with (Z.to_nat (o + 1 - 1)) by lia.
    apply IH; [lia|lia|done|done].
Qed.

(** Every tuple gets the root of its chain, and no other entry is set. *)
Lemma get_root_tuples_spec fuel : (MaxHeapTuplesPerPage < fuel)%nat ->
  exists roots, pg_tde_get_root_tuples linp tuple_at fuel = Ret roots
    /\ length roots = MaxHeapTuplesPerPage
    /\ forall x r, 1 <= x -> r <> 0 ->
         roots !! Z.to_nat (x - 1) = Some r <-> rooted_at r x.
Proof.
  intros Hf. destruct (roots_loop_rooted fuel (length linp) 1 (replicate MaxHeapTuplesPerPage 0))
    as (roots & E & [Hl He]); [unfold HotChain.maxoff; lia|lia| |done|].
  { split; [by rewrite length_replicate|]. intros x r Hx Hr. split.
    - intros [? _]%lookup_replicate. done.
    - intros [(Hroot & _) ?]. apply root_range in Hroot. lia. }
  exists roots. split; [exact E|]. split; [done|]. intros x r Hx Hr. rewrite He by done.
  split; [tauto|]. intros Hrx. split; [done|]. destruct Hrx as [Hroot _].
  apply root_range in Hroot. lia.
Qed.
End roots.
