(* ===== verification/HotHtsv.v ===== *)
(** The verdicts pruning starts from: [htsv_loop] gives every tuple of the
    page one, a tuple is called dead only when no one can see it, and the
    page changes by hint bits alone. *)
From S2P Require Import Prelude EncAes RelKeys EncTuple KeyringTypes KeyringApi XactHandler TdeMap TupleIO Visibility VisibilityProps VisibilityHints VisibilitySpec VisibilityRules Prune HotChain HotProps HotWalk HotScan PagePrune HotPlan.

(** Tuples that do not overlap. *)
Definition apart (lp lp' : ItemId) : Prop :=
  lp_off lp + lp_len lp <= lp_off lp' \/ lp_off lp' + lp_len lp' <= lp_off lp.

(** Writing the infomask of a tuple is seen in its header, and in no
    other. *)
Class PruneEnvLaws `{PruneEnv} := {
  put_same b lp m h : header_at b lp = Some h ->
    header_at (put_infomask b lp m) lp
    = Some {| fields := with_infomask m (fields h); t_infomask2 := t_infomask2 h |};
  put_other b lp lp' m : apart lp lp' -> header_at (put_infomask b lp m) lp' = header_at b lp';
}.

Section htsv.
Context `{HE : EVP} `{HS : CIntShift}.
Context `{HJ : Json} `{HB : Base64} `{HC : Curl} `{HF : KeyringFs}.
Context `{HT : TdeEnv} `{HP : PgBlockSize} `{HM : PageMacros}.
Context `{HH : HtupFlags} `{HHL : !HtupFlagsLaws} `{HW : World} `{HWL : !WorldLaws}.
Context `{HLP : LinePointers} `{HLL : !LinePointersLaws} `{HHF : HotFlags}.
Context `{HPE : PruneEnv} `{HPL : !PruneEnvLaws}.

(** The limit the caller passed. *)
Variable first_limit : Z.

(** The limits of old_snapshot_threshold. *)
Definition old_limit (x : Z) : Prop :=
  x = first_limit \/ exists t ts, TransactionIdLimitedForOldSnapshots t GlobalVisTestNonRemovableHorizon
                                  = Some (x, ts).

(** No snapshot that may still be used needs what [x] deleted. *)
Definition removable (x : Z) : Prop :=
  GlobalVisTestIsRemovableXid x = true \/
  exists limit, OldSnapshotThresholdActive = true /\ old_limit limit
                /\ TransactionIdPrecedes x limit = true.

(** No one sees the tuple. *)
Definition invisible (h : HeapTupleHeader) (t : nat) : Prop :=
  dead_xact t (t_xmin h) \/ (delete_committed h t /\ removable (deleter h)).

Lemma invisible_later h t t' : (t <= t')%nat -> invisible h t -> invisible h t'.
Proof.
  intros Ht [H|[H Hr]]; [left; by eapply dead_xact_later|right].
  split; [by eapply delete_committed_later|done].
Qed.

(** The old snapshot limit kept in the working data is one. *)
Definition limit_ok (w : PruneWork) : Prop :=
  (TransactionIdIsValid (old_snap_xmin w) = true -> old_limit (old_snap_xmin w))
  /\ (old_snap_used w = true -> OldSnapshotThresholdActive = true
      /\ TransactionIdIsValid (old_snap_xmin w) = true).

(** The plan and the verdicts so far. *)
Definition progress (w : PruneWork) :=
  (redirected w, nowdead w, nowunused w, marked w, htsv w).

(** Nothing happened but questions. *)
Record steady (s s' : PageState) : Prop := {
  steady_base : base s' = base s;
  steady_now : (now s <= now s')%nat;
  steady_progress : progress (work s') = progress (work s);
}.

#[export] Instance steady_preorder : PreOrder steady.
Proof.
  split; [by intros s; constructor|]. intros s1 s2 s3 [] []. constructor; [congruence|lia|congruence].
Qed.

Lemma find_limit_wp (s : PageState) : limit_ok (work s) ->
  wp find_limit (fun _ s' => steady s s' /\ limit_ok (work s')) s.
Proof.
  intros Hlk. pose proof Hlk as [Hlim Hused]. unfold find_limit. wps.
  destruct (TransactionIdIsValid (old_snap_xmin (work s))) eqn:Ev; cbn [negb].
  { wps. by split; [reflexivity|]. }
  wps. destruct (TransactionIdLimitedForOldSnapshots _ _) as [[xmin ts]|] eqn:El; unfold on_work; wps.
  - assert (Hl : limit_ok (with_old_snap ts xmin (old_snap_used (work s)) (work s))).
    { split; cbn.
      + intros _. right. eauto.
      + intros [_ Hu]%Hused. congruence. }
    split; [|done]. constructor; cbn; [done|lia|done].
  - split; [|done]. by constructor; cbn; [|lia|].
Qed.

Lemma limited_dead_wp da (s : PageState) :
  limit_ok (work s) -> OldSnapshotThresholdActive = true ->
  wp (limited_dead da) (fun v s' => steady s s' /\ limit_ok (work s')
    /\ (v = HEAPTUPLE_DEAD -> removable da)) s.
Proof.
  intros Hl Hact. unfold limited_dead. wps. eapply wp_mono; [by apply find_limit_wp|].
  intros _ s1 [Hs [Hlim Hu]]. wps. destruct (TransactionIdIsValid _ && _) eqn:E.
  - apply andb_true_iff in E as [Ev Ep]. unfold tell, on_work. wps. split_and!.
    + etrans; [done|]. by constructor.
    + by split; cbn.
    + intros _. right. eauto.
  - wps. split_and!; [done|by split|done].
Qed.

Lemma invisible_same h h' t : same_tuple h h' -> invisible h' t -> invisible h t.
Proof.
  intros (E1 & E2 & E3 & E4 & E5 & E6 & E7 & E8 & _)%same_tuple_facts.
  unfold invisible, delete_committed. by rewrite E1, E4, E8.
Qed.

(** ** One tuple *)

(** A header and its later self. *)
Definition later_header (h : TupleHeader) (t : nat) (h' : TupleHeader) (t' : nat) : Prop :=
  t_infomask2 h' = t_infomask2 h /\ evolves (fields h) t (fields h') t'.

(** The tuples of a page: apart from each other, and written by the
    server. *)
Record page_tuples (s : PageState) : Prop := {
  page_apart i j lp lp' : items_of s !! i = Some lp -> items_of s !! j = Some lp' -> i <> j ->
    ItemIdIsNormal lp = true -> ItemIdIsNormal lp' = true -> apart lp lp';
  page_header lp : lp ∈ items_of s -> ItemIdIsNormal lp = true ->
    exists h, tuple_on s lp = Some h /\ hints_ok (fields h) (now s) /\ tuple_ok (fields h) (now s);
}.

(** The page gained hints. *)
Record hinted_page (s s' : PageState) : Prop := {
  hp_items : items_of s' = items_of s;
  hp_now : (now s <= now s')%nat;
  hp_headers lp h : lp ∈ items_of s -> ItemIdIsNormal lp = true -> tuple_on s lp = Some h ->
    exists h', tuple_on s' lp = Some h' /\ later_header h (now s) h' (now s');
}.

Lemma hinted_page_tuples s s' : hinted_page s s' -> page_tuples s -> page_tuples s'.
Proof.
  intros [Hi Hn Hh] [Ha Hp]. split; rewrite Hi; [done|]. intros lp Hlp Hnor.
  destruct (Hp lp Hlp Hnor) as (h & E & Hok & Htok).
  destruct (Hh lp h Hlp Hnor E) as (h' & E' & _ & He). exists h'. split; [done|].
  split; [by apply He|]. by eapply evolves_tuple_ok.
Qed.

Lemma hinted_page_trans s1 s2 s3 : hinted_page s1 s2 -> hinted_page s2 s3 -> hinted_page s1 s3.
Proof.
  intros [I1 N1 H1] [I2 N2 H2]. split; [congruence|lia|]. intros lp h Hlp Hnor E.
  destruct (H1 lp h Hlp Hnor E) as (h' & E' & M & He).
  rewrite <- I1 in Hlp. destruct (H2 lp h' Hlp Hnor E') as (h'' & E'' & M' & He').
  exists h''. split; [done|]. split; [congruence|by eapply evolves_trans].
Qed.

(** A page that did not change is hinted. *)
Lemma same_bytes_hinted s s' : base s' = base s -> (now s <= now s')%nat -> page_tuples s ->
  hinted_page s s'.
Proof.
  intros Hb Hn [Ha Hp]. unfold items_of. split; unfold items_of, tuple_on, bytes_of; rewrite ?Hb; [done|done|].
  intros lp h Hlp Hnor E. destruct (Hp lp Hlp Hnor) as (h' & E' & Hok & _).
  unfold tuple_on, bytes_of in E'. exists h. split; [done|]. split; [done|].
  apply evolves_stay; [|done]. congruence.
Qed.

Lemma same_tuple_infomask h h' : same_tuple h h' -> h' = with_infomask (t_infomask h') h.
Proof.
  induction 1 as [h|h h1 h2 (f & _ & ->) _ IH]; [by destruct h|]. rewrite IH. by destruct h.
Qed.

(** What is known of one item between two states. *)
Definition verdict_of (h : TupleHeader) (s' : PageState) (v : HTSV_Result) : Prop :=
  match v with
  | HEAPTUPLE_DEAD => invisible (fields h) (now s')
  | HEAPTUPLE_RECENTLY_DEAD => delete_committed (fields h) (now s')
  | _ => True
  end.

Lemma delete_committed_same h h' t :
  same_tuple h h' -> delete_committed h' t -> delete_committed h t.
Proof.
  intros (_ & _ & _ & E4 & _ & _ & _ & E8 & _)%same_tuple_facts. unfold delete_committed.
  by rewrite E4, E8.
Qed.

Lemma verdict_same h h' s v : same_tuple (fields h) (fields h') -> verdict_of h' s v -> verdict_of h s v.
Proof.
  intros Hs. destruct v; try done; cbn; [by apply invisible_same|by apply delete_committed_same].
Qed.

Lemma verdict_later h s s' v : (now s <= now s')%nat -> verdict_of h s v -> verdict_of h s' v.
Proof.
  intros Ht. destruct v; try done; cbn; [by apply invisible_later|by apply delete_committed_later].
Qed.

Lemma VacuumHorizon_wp (s : PageState) i lp h :
  page_tuples s -> items_of s !! i = Some lp -> ItemIdIsNormal lp = true -> tuple_on s lp = Some h ->
  wp (VacuumHorizon lp h) (fun r s' => vacuum_verdict (fields h) (now s) (now s') r
    /\ hinted_page s s' /\ work s' = work s) s.
Proof.
  intros Hp Hlp Hnor Hh. pose proof (list_elem_of_lookup_2 _ _ _ Hlp) as Hin.
  destruct (page_header _ Hp lp Hin Hnor) as (h1 & E1 & Hok & Htok).
  rewrite Hh in E1. injection E1 as <-.
  pose proof (HeapTupleSatisfiesVacuumHorizon_rule (fields h) (now s) Hok Htok false) as Hr.
  unfold wp, VacuumHorizon. destruct (HeapTupleSatisfiesVacuumHorizon _) as [[r|l| |] v]; try done.
  destruct Hr as [Hv He]. cbn. split; [done|]. split; [|done].
  pose proof (same_tuple_infomask _ _ (proj1 (proj2 He))) as Em.
  split; [done|by apply He|]. intros lp' h' Hlp' Hnor' E'. unfold tuple_on, bytes_of in *. cbn.
  apply list_elem_of_lookup in Hlp' as [j Hj]. destruct (decide (i = j)) as [<-|Hne].
  - replace lp' with lp in * by congruence. rewrite Hh in E'. injection E' as <-.
    rewrite (put_same _ _ _ _ Hh). eexists. split; [done|]. split; [done|].
    cbn [fields]. by rewrite <- Em.
  - rewrite put_other by (by eapply (page_apart _ Hp i j)). exists h'. split; [done|].
    split; [done|]. destruct (page_header _ Hp lp') as (h1 & E1 & Hok1 & _);
      [by eapply list_elem_of_lookup_2|done|]. unfold tuple_on, bytes_of in E1.
    apply evolves_stay; [congruence|by apply He].
Qed.

Lemma horizon_dead h t t' da : vacuum_verdict h t t' (HEAPTUPLE_DEAD, da) -> invisible h t'.
Proof.
  intros [[_ Hd]|[[[=] _]|[_ Hd]]]; [done|by left].
Qed.

Lemma horizon_recent h t t' da : vacuum_verdict h t t' (HEAPTUPLE_RECENTLY_DEAD, da) ->
  delete_committed h t' /\ da = deleter h.
Proof. intros [[_ Hd]|[[[=] _]|[[=] _]]]. exact Hd. Qed.

Lemma satisfies_vacuum_wp (s : PageState) i lp h :
  page_tuples s -> limit_ok (work s) -> items_of s !! i = Some lp -> ItemIdIsNormal lp = true ->
  tuple_on s lp = Some h ->
  wp (heap_prune_satisfies_vacuum lp h) (fun v s' => hinted_page s s'
    /\ progress (work s') = progress (work s) /\ limit_ok (work s') /\ verdict_of h s' v) s.
Proof.
  intros Hp Hl Hlp Hnor Hh. unfold heap_prune_satisfies_vacuum. wps.
  eapply wp_mono; [by eapply VacuumHorizon_wp|]. intros [res da] s1 (Hv & Hhp & Hw).
  assert (Hstay : res <> HEAPTUPLE_RECENTLY_DEAD -> wp (ret res) (fun v s' => hinted_page s s'
    /\ progress (work s') = progress (work s) /\ limit_ok (work s') /\ verdict_of h s' v) s1).
  { intros Hne. wps. rewrite Hw. split_and!; [done..|]. destruct res; try done. by eapply horizon_dead. }
  destruct res; try (by apply Hstay). clear Hstay.
  apply horizon_recent in Hv as [Hdel ->].
  assert (Hdead : forall s', (now s1 <= now s')%nat -> removable (deleter (fields h)) ->
    invisible (fields h) (now s')).
  { intros s' Ht Hr. apply (invisible_later _ (now s1)); [done|]. by right. }
  wps. rewrite Hw. destruct (old_snap_used (work s)) eqn:Eu.
  { wps. rewrite Hw. split; [done|]. split; [done|]. split; [done|]. unfold verdict_of.
    destruct (TransactionIdPrecedes _ _) eqn:Ep; [|done]. apply Hdead; [done|]. right. destruct Hl as [Hl1 Hl2].
    destruct (Hl2 Eu) as [Hact Hval]. eauto. }
  destruct (GlobalVisTestIsRemovableXid _) eqn:Eg.
  { wps. rewrite Hw. split; [done|]. split; [done|]. split; [done|]. apply Hdead; [done|]. by left. }
  destruct OldSnapshotThresholdActive eqn:Ea; [|wps; rewrite Hw; by split_and!].
  eapply wp_mono; [by apply limited_dead_wp; [rewrite Hw|]|].
  intros v s2 (Hst & Hl' & Hr). destruct Hst as [Hb Hn Hpr]. split_and!; [|congruence|done|].
  - eapply hinted_page_trans; [done|]. apply same_bytes_hinted; [done|done|].
    by eapply hinted_page_tuples.
  - destruct v; try done; [by apply Hdead, Hr|]. by eapply delete_committed_later.
Qed.

(** ** The page *)

Definition plan_of (w : PruneWork) := (redirected w, nowdead w, nowunused w, marked w).

(** What the verdict of item [o] says of the page as it was in [s]. *)
Definition judged_item (s s' : PageState) (o : Z) (v : option HTSV_Result) : Prop :=
  exists lp, PageGetItemId (items_of s) o = Some lp /\
    if ItemIdIsNormal lp
    then exists r h, v = Some r /\ tuple_on s lp = Some h /\ verdict_of h s' r
    else v = None.

(** The verdicts of the first [n] items have been gathered. *)
Record gathered (n : nat) (s s' : PageState) : Prop := {
  ga_page : hinted_page s s';
  ga_plan : plan_of (work s') = plan_of (work s);
  ga_limit : limit_ok (work s');
  ga_length : length (htsv (work s')) = length (htsv (work s));
  ga_item o : 1 <= o <= Z.of_nat n ->
    exists v, htsv (work s') !! Z.to_nat o = Some v /\ judged_item s s' o v;
  ga_other o : (o = 0 \/ n < o)%nat -> htsv (work s') !! o = htsv (work s) !! o;
}.

Lemma set_htsv_wp o v (s : PageState) : (Z.to_nat o < length (htsv (work s)))%nat ->
  wp (set_htsv o v) (fun _ s' => base s' = base s /\ now s' = now s
    /\ plan_of (work s') = plan_of (work s)
    /\ (limit_ok (work s) -> limit_ok (work s'))
    /\ htsv (work s') = <[Z.to_nat o := v]> (htsv (work s))) s.
Proof.
  intros Ho. unfold set_htsv, on_work. wps. rewrite (proj2 (Nat.ltb_lt _ _)) by done. by wps.
Qed.

(** The verdict on one item. *)
Lemma htsv_item_wp o (s : PageState) lp :
  page_tuples s -> limit_ok (work s) -> (Z.to_nat o < length (htsv (work s)))%nat ->
  PageGetItemId (items_of s) o = Some lp ->
  wp (if negb (ItemIdIsNormal lp) then set_htsv o None
      else
        let* s := get in
        let* h := defined (tuple_on s lp) in
        let* v := heap_prune_satisfies_vacuum lp h in
        set_htsv o (Some v))
    (fun _ s' => hinted_page s s' /\ plan_of (work s') = plan_of (work s)
       /\ limit_ok (work s')
       /\ exists v, htsv (work s') = <[Z.to_nat o := v]> (htsv (work s)) /\ judged_item s s' o v) s.
Proof.
  intros Hp Hl Ho Hlp. destruct (ItemIdIsNormal lp) eqn:En; cbn [negb].
  - apply PageGetItemId_Some in Hlp as Hin. destruct Hin as [_ Hin].
    destruct (page_header _ Hp lp Hin En) as (h & Hh & _).
    wps. eapply wp_defined; [done|]. wps. pose proof Hlp as Hi.
    unfold PageGetItemId in Hi. case_match; [|done].
    eapply wp_mono; [by eapply satisfies_vacuum_wp|]. intros v s1 (Hhp & Hpr & Hl1 & Hv).
    injection Hpr as E1 E2 E3 E4 E5.
    eapply wp_mono; [apply set_htsv_wp; by rewrite E5|]. intros _ s2 (Eb & En2 & Epl & Hl2 & Eh).
    split_and!.
    + eapply hinted_page_trans; [done|]. apply same_bytes_hinted; [done|lia|].
      by eapply hinted_page_tuples.
    + rewrite Epl. unfold plan_of. congruence.
    + auto.
    + exists (Some v). rewrite Eh, E5. split; [done|]. exists lp. split; [done|]. rewrite En.
      exists v, h. split_and!; [done..|]. unfold verdict_of. by rewrite En2.
  - eapply wp_mono; [by apply set_htsv_wp|]. intros _ s2 (Eb & En2 & Epl & Hl2 & Eh).
    split_and!; [apply same_bytes_hinted; [done|lia|done]|done|auto|].
    exists None. split; [done|]. exists lp. by rewrite En.
Qed.

Lemma judged_item_earlier s s1 s2 o v : hinted_page s s1 -> page_tuples s ->
  judged_item s1 s2 o v -> judged_item s s2 o v.
Proof.
  intros [Hi Hn Hh] [_ Hp] (lp & Hlp & Hv). rewrite Hi in Hlp. exists lp. split; [done|].
  destruct (ItemIdIsNormal lp) eqn:En; [|done]. destruct Hv as (r & h1 & -> & Hh1 & Hv).
  apply PageGetItemId_Some in Hlp as [_ Hin]. destruct (Hp lp Hin En) as (h & E & _).
  exists r, h. split_and!; [done..|]. destruct (Hh lp h Hin En E) as (h' & E' & _ & He).
  replace h' with h1 in He by congruence. by eapply verdict_same; [apply He|].
Qed.

Lemma judged_item_later s s1 s2 o v : (now s1 <= now s2)%nat ->
  judged_item s s1 o v -> judged_item s s2 o v.
Proof.
  intros Ht (lp & Hlp & Hv). exists lp. split; [done|]. destruct (ItemIdIsNormal lp); [|done].
  destruct Hv as (r & h & -> & Hh & Hv). exists r, h. split_and!; [done..|].
  by eapply verdict_later.
Qed.

Lemma htsv_loop_wp n (s : PageState) :
  page_tuples s -> limit_ok (work s) -> (n <= length (items_of s) <= MaxHeapTuplesPerPage)%nat ->
  length (htsv (work s)) = S MaxHeapTuplesPerPage ->
  wp (htsv_loop n) (fun _ s' => gathered n s s') s.
Proof.
  revert s. induction n as [|n IH]; intros s Hp Hl Hn Hlen.
  - cbn. wps. split; try done; [by apply same_bytes_hinted|intros o Ho; lia].
  - cbn [htsv_loop]. cbv zeta.
    destruct (PageGetItemId_is_Some (items_of s) (Z.of_nat (S n))) as [lp Hlp].
    { unfold maxoff. lia. }
    wps. eapply wp_defined; [done|]. wps.
    eapply wp_mono; [apply htsv_item_wp; [done|done|lia|done]|].
    intros _ s1 (Hhp & Epl & Hl1 & v & Eh & Hv). pose proof (hp_items _ _ Hhp) as Ei.
    eapply wp_mono.
    { apply IH; [by eapply hinted_page_tuples|done|rewrite Ei; lia|by rewrite Eh, length_insert]. }
    intros _ s2 [G1 G2 G3 G4 G5 G6]. rewrite Eh in *. rewrite length_insert in G4. split.
    + by eapply hinted_page_trans.
    + congruence.
    + done.
    + done.
    + intros o Ho. destruct (decide (o = Z.of_nat (S n))) as [->|Hne].
      * exists v. rewrite G6 by lia. rewrite list_lookup_insert_eq by lia. split; [done|].
        eapply judged_item_later; [apply (hp_now _ _ G1)|done].
      * destruct (G5 o) as (v' & E & Hv'); [lia|]. exists v'. split; [done|].
        by eapply judged_item_earlier.
    + intros o Ho. rewrite G6 by lia. apply list_lookup_insert_ne. lia.
Qed.
End htsv.
