(* ===== verification/HotPage.v ===== *)
(** Pruning at the level of the page: the verdicts that are gathered, the
    number of tuples that go, and the plan in the WAL record. *)
From S2P Require Import Prelude EncAes RelKeys EncTuple KeyringTypes KeyringApi XactHandler TdeMap TupleIO Visibility VisibilityProps VisibilityHints VisibilitySpec VisibilityRules Prune HotChain HotProps HotWalk HotScan PagePrune HotPlan HotHtsv.

(** ** How many tuples go *)

Section counting.
Context `{HH : HtupFlags} `{HW : World} `{HM : PageMacros} `{HLP : LinePointers} `{HHF : HotFlags}.
Context `{HLL : !LinePointersLaws}.
Variable linp : list ItemId.
Variable tuple_at : ItemId -> option TupleHeader.

(** The scan of a page and its execution on the line pointers. *)
Definition prune_items (w : PruneWork) : option (Z * PruneWork * list ItemId) :=
  match prune_scan linp tuple_at w with
  | (Ret n, w') =>
      match apply_plan (redirected w') (nowdead w') (nowunused w') linp with
      | Some linp' => Some (n, w', linp')
      | None => None
      end
  | _ => None
  end.

(** The items that had a tuple and have none any more. *)
Definition tuples_lost (linp' : list ItemId) : list Z :=
  filter (fun o => is_Some (tuple linp tuple_at o) /\ tuple linp' tuple_at o = None)
    (seqZ 1 (maxoff linp)).

Variable hs : list (option HTSV_Result).
Hypothesis Hok : hot_ok linp tuple_at.
Hypothesis Hj : judged linp tuple_at hs.

Lemma removed_count_lost w linp' : scanned linp tuple_at hs (maxoff linp + 1) w ->
  apply_plan (redirected w) (nowdead w) (nowunused w) linp = Some linp' ->
  removed_count linp tuple_at w = Z.of_nat (length (tuples_lost linp')).
Proof.
  intros Hs Hplan. unfold tuples_lost.
  pose proof (plan_once _ _ _ (scan_plan _ _ _ _ _ Hs)) as Hnd.
  unfold touched in Hnd. apply NoDup_app in Hnd as (N1 & D1 & Hnd).
  apply NoDup_app in Hnd as (_ & _ & Hnd). apply NoDup_app in Hnd as (N2 & D2 & N3).
  unfold removed_count. rewrite <- Nat2Z.inj_add, <- length_app. f_equal. apply Permutation_length.
  apply NoDup_Permutation.
  - apply NoDup_app. split; [done|]. split.
    + intros x Hx [_ [Hx'|Hx']%elem_of_app]%list_elem_of_filter; [by eapply D2|].
      apply (D1 x Hx'). rewrite !elem_of_app. tauto.
    + apply NoDup_filter, NoDup_app. split; [done|]. split; [|done].
      intros x Hx Hx'. apply (D1 x Hx'). rewrite !elem_of_app. tauto.
  - apply NoDup_filter, NoDup_seqZ.
  - intros x. rewrite elem_of_app, !list_elem_of_filter, elem_of_app, elem_of_seqZ.
    rewrite (tuple_after linp tuple_at hs Hok w Hs linp' Hplan). unfold changed.
    assert (Hu : x ∈ nowunused w -> is_Some (tuple linp tuple_at x)).
    { intros Hx. apply (scan_unused _ _ _ _ _ Hs) in Hx as [(h & -> & _) _]. by eexists. }
    assert (Hr : is_Some (tuple linp tuple_at x) -> 1 <= x < 1 + maxoff linp).
    { intros [h Hh]. apply tuple_range in Hh. lia. }
    case_decide as Hc; [naive_solver|].
    split; [tauto|]. intros [[[h Hh] E] _]. congruence.
Qed.

Lemma prune_items_spec w : fresh_work hs w -> exists w' linp',
  prune_items w = Some (Z.of_nat (length (tuples_lost linp')), w', linp')
  /\ scanned linp tuple_at hs (maxoff linp + 1) w'
  /\ apply_plan (redirected w') (nowdead w') (nowunused w') linp = Some linp'.
Proof.
  intros Hw. destruct (prune_scan_spec linp tuple_at hs Hok Hj w Hw) as (w' & E & Hs).
  destruct (apply_plan_spec w' linp) as (linp' & Hp & _).
  { apply (plan_once _ _ _ (scan_plan _ _ _ _ _ Hs)). }
  { intros o Ho. by apply PageGetItemId_is_Some, (plan_range _ _ _ (scan_plan _ _ _ _ _ Hs)). }
  exists w', linp'. unfold prune_items. rewrite E, Hp. split; [|done].
  by rewrite (removed_count_lost w' linp').
Qed.
End counting.

(** ** Time passes *)

Section moments.
Context `{HH : HtupFlags} `{HW : World} `{HM : PageMacros} `{HLP : LinePointers} `{HHF : HotFlags}.

(** The questions a routine asks take their time. *)
Definition takes_time {A} (m : M PruneWork A) : Prop := forall w, (moment w <= moment (snd (m w)))%nat.

Lemma time_ret {A} (a : A) : takes_time (ret a). Proof. intros w. apply le_n. Qed.
Lemma time_raise {A} l : takes_time (raise (A := A) l). Proof. intros w. apply le_n. Qed.
Lemma time_undefined {A} : takes_time (undefined (A := A)). Proof. intros w. apply le_n. Qed.
Lemma time_nofuel {A} : takes_time (nofuel (A := A)). Proof. intros w. apply le_n. Qed.
Lemma time_defined {A} (o : option A) : takes_time (defined o).
Proof. destruct o; intros w; apply le_n. Qed.
Lemma time_get : takes_time get. Proof. intros w. apply le_n. Qed.
Lemma time_bind {A B} (m : M PruneWork A) (k : A -> M PruneWork B) :
  takes_time m -> (forall a, takes_time (k a)) -> takes_time (bind m k).
Proof.
  intros Hm Hk w. specialize (Hm w). unfold bind.
  destruct (m w) as [[a|l| |] w']; cbn in *; [|done..]. specialize (Hk a w'). lia.
Qed.
(** Reading the state to write it back changed. *)
Lemma time_modify f : (forall w, (moment w <= moment (f w))%nat) -> takes_time (modify f).
Proof. intros Hf w. apply Hf. Qed.
Lemma time_update {A} (k : PruneWork -> M PruneWork A) :
  (forall w, (moment w <= moment (snd (k w w)))%nat) -> takes_time (bind get k).
Proof. intros Hk w. apply Hk. Qed.

Lemma time_advance h : takes_time (advance_horizon h).
Proof.
  apply time_modify. intros w. unfold HeapTupleHeaderAdvanceConflictHorizon. cbn [with_horizon].
  repeat case_match; simplify_eq; cbn; lia.
Qed.

Ltac time_record :=
  apply time_update; intros w; unfold bind, defined, put, modify, ret, undefined;
  repeat (case_match; simplify_eq); cbn; lia.

Lemma time_prunable x : takes_time (heap_prune_record_prunable x).
Proof. time_record. Qed.
Lemma time_redirect o t : takes_time (heap_prune_record_redirect o t).
Proof. time_record. Qed.
Lemma time_dead o : takes_time (heap_prune_record_dead o).
Proof. time_record. Qed.
Lemma time_unused o : takes_time (heap_prune_record_unused o).
Proof. time_record. Qed.
End moments.

Create HintDb moments.
#[export] Hint Resolve time_ret time_raise time_undefined time_nofuel time_defined time_get
  time_advance time_prunable time_redirect time_dead time_unused : moments.

Ltac time_tac :=
  repeat first
    [ progress intros
    | solve [eauto with moments]
    | apply time_bind
    | match goal with
      | |- takes_time (match ?x with _ => _ end) => destruct x
      | |- takes_time (let _ := _ in _) => cbv zeta
      end ].

Section scan_moments.
Context `{HH : HtupFlags} `{HW : World} `{HM : PageMacros} `{HLP : LinePointers} `{HHF : HotFlags}.
Variable linp : list ItemId.
Variable tuple_at : ItemId -> option TupleHeader.

Lemma time_member o h : takes_time (member_status o h).
Proof. unfold member_status, htsv_of. time_tac. Qed.

Lemma time_with_item o v : takes_time (with_item o v).
Proof. unfold with_item. time_tac. Qed.

Lemma time_chain fuel lp o v : takes_time (chain_loop linp tuple_at fuel lp o v).
Proof.
  revert o v. induction fuel as [|fuel IH]; intros o v; cbn [chain_loop]; [time_tac|].
  pose proof time_member. pose proof time_with_item. time_tac.
Qed.

Lemma time_unused_loop p l d n : takes_time (unused_loop p l d n).
Proof. revert p n. induction l as [|x l IH]; intros p n; cbn [unused_loop]; time_tac. Qed.

Lemma time_settle r lp v : takes_time (settle_chain r lp v).
Proof. unfold settle_chain. pose proof time_unused_loop. time_tac. Qed.

Lemma time_prune_chain r : takes_time (heap_prune_chain linp tuple_at r).
Proof. unfold heap_prune_chain, htsv_of. pose proof time_chain. pose proof time_settle. time_tac. Qed.

Lemma time_scan : takes_time (prune_scan linp tuple_at).
Proof.
  unfold prune_scan. generalize 0, FirstOffsetNumber, (length linp). intros d o n. revert d o.
  induction n as [|n IH]; intros d o; cbn [scan_loop]; pose proof time_prune_chain; time_tac.
Qed.
End scan_moments.

(** htup_details.h: hints can only end a chain. *)
Class HotFlagsLaws `{HtupFlags} `{World} `{HotFlags} := {
  heap_only_kept h h' : t_infomask2 h' = t_infomask2 h ->
    HeapTupleHeaderIsHeapOnly h' = HeapTupleHeaderIsHeapOnly h;
  hot_updated_hinted h h' : t_infomask2 h' = t_infomask2 h ->
    same_tuple (fields h) (fields h') ->
    XminFrozen (t_infomask (fields h')) = XminFrozen (t_infomask (fields h)) ->
    HeapTupleHeaderIsHotUpdated h' = true ->
    HeapTupleHeaderIsHotUpdated h = true
    /\ HeapTupleHeaderGetUpdateXid (fields h') = HeapTupleHeaderGetUpdateXid (fields h);
}.

Section page.
Context `{HE : EVP} `{HS : CIntShift}.
Context `{HJ : Json} `{HB : Base64} `{HC : Curl} `{HF : KeyringFs}.
Context `{HT : TdeEnv} `{HP : PgBlockSize} `{HM : PageMacros}.
Context `{HH : HtupFlags} `{HHL : !HtupFlagsLaws} `{HW : World} `{HWL : !WorldLaws}.
Context `{HLP : LinePointers} `{HLL : !LinePointersLaws}.
Context `{HHF : HotFlags} `{HFL : !HotFlagsLaws} `{HPE : PruneEnv} `{HPL : !PruneEnvLaws}.
Variable g : AesGlobals.

(** ** The record *)

Lemma offset_pairs_flat (l : list (Z * Z)) rest :
  offset_pairs (length l) (mjoin ((fun p => [fst p; snd p]) <$> l) ++ rest) = l.
Proof.
  induction l as [|[a b] l IH]; [by destruct rest|]. cbn [length offset_pairs fmap list_fmap mjoin list_join app fst snd].
  by f_equal.
Qed.

Lemma flat_length (l : list (Z * Z)) :
  length (mjoin ((fun p => [fst p; snd p]) <$> l)) = (2 * length l)%nat.
Proof.
  induction l as [|[a b] l IH]; [done|].
  transitivity (S (S (2 * length l))); [|cbn [length]; lia].
  cbn [length fmap list_fmap mjoin list_join app fst snd]. do 2 f_equal. exact IH.
Qed.

(** The plan fits the counters of the record. *)
Definition plan_fits (w : PruneWork) : Prop :=
  Z.of_nat (length (redirected w)) < 2 ^ 16 /\ Z.of_nat (length (nowdead w)) < 2 ^ 16.

Lemma record_plan_spec w : plan_fits w ->
  record_plan (prune_record w) = (redirected w, nowdead w, nowunused w).
Proof.
  intros [Hr Hd]. unfold record_plan, prune_record. cbn [xl_nredirected xl_ndead xl_offsets].
  rewrite !(uwrap_small 16) by lia. rewrite !Nat2Z.id, offset_pairs_flat.
  pose proof (flat_length (redirected w)) as Hl. rewrite <- Hl.
  rewrite drop_app_length, take_app_length, <- drop_drop, drop_app_length, drop_app_length. done.
Qed.

Lemma scanned_fits linp tuple_at hs w : hot_ok linp tuple_at ->
  scanned linp tuple_at hs (maxoff linp + 1) w -> plan_fits w.
Proof.
  intros Hok Hs. pose proof (scan_plan _ _ _ _ _ Hs) as [_ Hnd Hr _].
  assert (Hall : Forall (fun o => 1 <= o <= maxoff linp) (touched w)).
  { apply Forall_forall. intros o Ho. by apply Hr. }
  pose proof (NoDup_bound (touched w) (maxoff linp) Hnd Hall) as Hl.
  unfold touched in Hl. rewrite !length_app, !length_fmap in Hl.
  pose proof (few _ _ Hok). pose proof few_items. unfold maxoff in Hl. unfold plan_fits. lia.
Qed.

(** What the primary does when there is something to do. *)
Lemma apply_prune_spec rel bn (s : PageState) b :
  touched (work s) <> [] -> RelationNeedsWAL = true ->
  pg_tde_page_prune_execute g rel bn (redirected (work s)) (nowdead (work s))
    (nowunused (work s)) (base s) = (Ret tt, b) ->
  exists s', apply_prune g rel bn s = (Ret tt, s') /\ base s' = b
    /\ prune_wal s' = prune_wal s ++ [prune_record (work s)]
    /\ pd_prune_xid s' = new_prune_xid (work s) /\ page_full s' = false
    /\ buffer_dirty s' = true.
Proof.
  intros Ht Hwal He. unfold apply_prune, critical. unfold bind at 1, gets at 1.
  replace (_ || _ || _) with true.
  2:{ unfold touched in Ht. destruct (redirected (work s)) as [|[]]; [|done].
      destruct (nowdead (work s)); [|done]. by destruct (nowunused (work s)). }
  unfold on_base, zoom. unfold bind at 1. rewrite He. unfold log_prune. rewrite Hwal.
  cbn. eexists. split; [done|]. done.
Qed.

Lemma xlog_prune_spec rel bn lsn r (s : PageState) b :
  pg_tde_page_prune_execute g rel bn (fst (fst (record_plan r))) (snd (fst (record_plan r)))
    (snd (record_plan r)) (base s) = (Ret tt, b) ->
  exists s', pg_tde_xlog_prune g rel bn BLK_NEEDS_REDO lsn r s = (Ret tt, s') /\ base s' = b
    /\ pd_lsn s' = lsn /\ buffer_dirty s' = true.
Proof.
  intros He. unfold pg_tde_xlog_prune. destruct (record_plan r) as [[rd nd] nu]. cbn in He.
  destruct InHotStandby; unfold on_base, zoom, tell, modify, get, bind, ret; cbn; rewrite He; cbn;
    by eexists.
Qed.

(** ** Hints keep a page well formed *)

Section hinted.
Variables s s' : PageState.
Hypothesis Hp : page_tuples s.
Hypothesis Hhp : hinted_page s s'.

Lemma hinted_tuple o h : tuple (items_of s) (tuple_on s) o = Some h ->
  exists h', tuple (items_of s') (tuple_on s') o = Some h' /\ later_header h (now s) h' (now s').
Proof.
  intros Ht. destruct (tuple_inv _ _ _ _ Ht) as (lp & Hlp & En & Hh).
  apply PageGetItemId_Some in Hlp as Hin. destruct Hin as [_ Hin].
  destruct (hp_headers _ _ Hhp lp h Hin En Hh) as (h' & E & He). exists h'. split; [|done].
  unfold tuple. by rewrite (hp_items _ _ Hhp), Hlp, En.
Qed.

Lemma hinted_tuple_back o h' : tuple (items_of s') (tuple_on s') o = Some h' ->
  exists h, tuple (items_of s) (tuple_on s) o = Some h /\ later_header h (now s) h' (now s').
Proof.
  intros Ht. destruct (tuple_inv _ _ _ _ Ht) as (lp & Hlp & En & Hh).
  rewrite (hp_items _ _ Hhp) in Hlp. apply PageGetItemId_Some in Hlp as Hin. destruct Hin as [_ Hin].
  destruct (page_header _ Hp lp Hin En) as (h & E & _).
  assert (Ho : tuple (items_of s) (tuple_on s) o = Some h) by (unfold tuple; by rewrite Hlp, En).
  exists h. split; [done|]. destruct (hinted_tuple o h Ho) as (h1 & E1 & He). congruence.
Qed.

Lemma hinted_redirect o : redirect (items_of s') o = redirect (items_of s) o.
Proof. by rewrite (hp_items _ _ Hhp). Qed.

Lemma later_xmin h t h' t' : later_header h t h' t' ->
  HeapTupleHeaderGetXmin (fields h') = HeapTupleHeaderGetXmin (fields h).
Proof.
  intros (_ & _ & (E & _)%same_tuple_facts & Ef & _). unfold HeapTupleHeaderGetXmin. by rewrite E, Ef.
Qed.

Lemma hinted_member o x : member (items_of s') (tuple_on s') o x = member (items_of s) (tuple_on s) o x.
Proof.
  unfold member. destruct (tuple (items_of s) _ o) as [h|] eqn:E.
  - destruct (hinted_tuple o h E) as (h' & -> & He). by rewrite (later_xmin _ _ _ _ He).
  - destruct (tuple (items_of s') _ o) as [h'|] eqn:E'; [|done].
    destruct (hinted_tuple_back o h' E') as (h & ? & _). congruence.
Qed.

Lemma hinted_succ o o' : succ (items_of s') (tuple_on s') o = Some o' ->
  succ (items_of s) (tuple_on s) o = Some o'.
Proof.
  unfold succ, link. rewrite hinted_redirect.
  destruct (redirect _ o) as [t|]; [by rewrite hinted_member|].
  destruct (tuple (items_of s') _ o) as [h'|] eqn:E'; [|done].
  destruct (hinted_tuple_back o h' E') as (h & -> & Em & _ & Hst & Hf & _).
  destruct (HeapTupleHeaderIsHotUpdated h') eqn:Eu; [|done].
  destruct (hot_updated_hinted h h' Em Hst Hf Eu) as [-> ->].
  apply same_tuple_facts in Hst as (_ & _ & -> & _). by rewrite hinted_member.
Qed.

Lemma hinted_heap_only o : heap_only (items_of s) (tuple_on s) o ->
  heap_only (items_of s') (tuple_on s') o.
Proof.
  intros (h & Hh & Ho). destruct (hinted_tuple o h Hh) as (h' & Hh' & Em & _).
  exists h'. split; [done|]. by rewrite (heap_only_kept h h').
Qed.

Lemma hinted_hot_ok : hot_ok (items_of s) (tuple_on s) -> hot_ok (items_of s') (tuple_on s').
Proof.
  intros [Hf Hh Hst Ho Hi]. split.
  - by rewrite (hp_items _ _ Hhp).
  - intros lp. rewrite (hp_items _ _ Hhp). intros Hin En.
    destruct (Hh lp Hin En) as [h E]. destruct (hp_headers _ _ Hhp lp h Hin En E) as (h' & -> & _).
    by eexists.
  - intros lp. rewrite (hp_items _ _ Hhp). apply Hst.
  - intros o o' E. eapply hinted_heap_only, Ho. by eapply hinted_succ.
  - intros o1 o2 o' E1 E2. eapply Hi; by eapply hinted_succ.
Qed.
End hinted.

(** ** The decision *)

Abbreviation tuple_before s := (tuple (items_of s) (tuple_on s)).

Lemma gathered_judged limit (s s1 : PageState) :
  page_tuples s -> (length (items_of s) <= MaxHeapTuplesPerPage)%nat ->
  htsv (work s) = replicate (S MaxHeapTuplesPerPage) None ->
  gathered limit (length (items_of s)) s s1 ->
  judged (items_of s1) (tuple_on s1) (htsv (work s1)).
Proof.
  intros Hp Hfew Hfresh [G1 _ _ G4 G5 G6]. pose proof (hp_items _ _ G1) as Ei. split.
  - by rewrite G4, Hfresh, length_replicate.
  - intros o h' Hh'. destruct (hinted_tuple_back s s1 Hp G1 o h' Hh') as (h & Hh & _).
    pose proof (tuple_range _ _ _ _ Hh) as Hr. destruct (G5 o Hr) as (v & E & lp & Hlp & Hv).
    unfold verdict. rewrite E. destruct (tuple_inv _ _ _ _ Hh) as (lp' & Hlp' & En & _).
    replace lp with lp' in Hv by congruence. rewrite En in Hv. destruct Hv as (r & h1 & -> & _).
    by eexists.
  - intros o Ht. unfold verdict. destruct (decide (1 <= o <= Z.of_nat (length (items_of s)))) as [Hr|Hr].
    + destruct (G5 o Hr) as (v & -> & lp & Hlp & Hv). cbn. destruct (ItemIdIsNormal lp) eqn:En; [|done].
      destruct Hv as (r & h & -> & Hh & _). apply PageGetItemId_Some in Hlp as Hin.
      destruct (hinted_tuple s s1 G1 o h) as (h' & E & _); [|congruence].
      unfold tuple. by rewrite Hlp, En.
    + rewrite G6, Hfresh by lia. destruct (_ !! _) as [v|] eqn:E; [|done].
      by apply lookup_replicate_1 in E as [-> _].
Qed.

(** What has been decided: the plan is that of the scan for the verdicts,
    and a verdict of death is right. *)
Record decided (first_limit : Z) (s s' : PageState) (n : Z) : Prop := {
  de_page : hinted_page s s';
  de_scanned : scanned (items_of s') (tuple_on s') (htsv (work s')) (maxoff (items_of s') + 1) (work s');
  de_count : n = removed_count (items_of s') (tuple_on s') (work s');
  de_judged : judged (items_of s') (tuple_on s') (htsv (work s'));
  de_dead o h : tuple_before s o = Some h -> dead (htsv (work s')) o = true ->
    invisible first_limit (fields h) (now s');
  de_recent o h : tuple_before s o = Some h -> recently_dead (htsv (work s')) o = true ->
    delete_committed (fields h) (now s');
}.

Lemma gathered_verdict limit n (s s1 : PageState) o h :
  gathered limit n s s1 -> 1 <= o <= Z.of_nat n -> tuple_before s o = Some h ->
  exists r, htsv (work s1) !! Z.to_nat o = Some (Some r) /\ verdict_of limit h s1 r.
Proof.
  intros [_ _ _ _ G5 _] Hr Hh. destruct (G5 o Hr) as (v & Ev & lp & Hlp & Hv).
  destruct (tuple_inv _ _ _ _ Hh) as (lp' & Hlp' & En & Hh').
  replace lp with lp' in Hv by congruence. rewrite En in Hv.
  destruct Hv as (r & h1 & -> & Hh1 & Hv). exists r. split; [done|]. congruence.
Qed.

Lemma decide_page_wp limit ts (s : PageState) :
  page_tuples s -> hot_ok (items_of s) (tuple_on s) ->
  wp (decide_page limit ts) (fun n s' => decided limit s s' n) s.
Proof.
  intros Hp Hok. unfold decide_page. wps. set (s0 := with_work _ s). change (items_of s0) with (items_of s).
  pose proof (few _ _ Hok) as Hfew. assert (Hp0 : page_tuples s0) by by destruct Hp.
  eapply wp_mono.
  { apply (htsv_loop_wp limit (length (items_of s)) s0); [done| |done|].
    - split; [by left|done].
    - cbn [htsv work s0 with_work fresh_prune]. by rewrite length_replicate. }
  intros [] s1 Hg. pose proof (gathered_judged limit s0 s1 Hp0 Hfew eq_refl Hg) as Hj1.
  assert (Hverdict : forall o h, tuple_before s o = Some h ->
    exists r, htsv (work s1) !! Z.to_nat o = Some (Some r) /\ verdict_of limit h s1 r).
  { intros o h Hh. apply (gathered_verdict limit (length (items_of s)) s0 s1 o h Hg); [|done].
    by apply (tuple_range _ _ _ _ Hh). }
  destruct Hg as [G1 G2 _ _ _ _].
  assert (Hp1 : page_tuples s1) by by eapply hinted_page_tuples.
  pose proof (hinted_hot_ok s0 s1 Hp0 G1 Hok) as Hok1.
  unfold scan_page, on_work. wps. cbn [work with_work].
  set (s1' := with_work _ s1). change (items_of s1') with (items_of s1).
  pose proof (time_scan (items_of s1) (tuple_on s1) (with_moment (now s1) (work s1))) as Hm.
  destruct (prune_scan_spec (items_of s1) (tuple_on s1) (htsv (work s1)) Hok1 Hj1
    (with_moment (now s1) (work s1))) as (w' & E & Hs).
  { unfold plan_of in G2. injection G2 as R1 R2 R3 R4. unfold fresh_work. cbn. by split_and!. }
  change (tuple_on s1') with (tuple_on s1).
  eapply wp_of_run; [exact E|]. wps. rewrite E in Hm. cbn [snd] in Hm. cbn [moment with_moment] in Hm.
  assert (Ehs : htsv w' = htsv (work s1)) by apply (plan_good _ _ _ (scan_plan _ _ _ _ _ Hs)).
  assert (Hhp : hinted_page s1 (with_now (moment w') (with_work w' s1'))).
  { by apply same_bytes_hinted. }
  split.
  - apply (hinted_page_trans s0 s1 _ G1) in Hhp. by destruct Hhp.
  - cbn [htsv work with_now with_work]. by rewrite Ehs.
  - done.
  - cbn [htsv work with_now with_work]. by rewrite Ehs.
  - cbn [htsv work with_now with_work]. rewrite Ehs. intros o h Hh Hd.
    eapply invisible_later; [exact Hm|]. destruct (Hverdict o h Hh) as (r & Er & Hv).
    unfold dead, verdict in Hd. rewrite Er in Hd. cbn in Hd. by destruct r.
  - cbn [htsv work with_now with_work]. rewrite Ehs. intros o h Hh Hd.
    eapply delete_committed_later; [exact Hm|]. destruct (Hverdict o h Hh) as (r & Er & Hv).
    unfold recently_dead, verdict in Hd. rewrite Er in Hd. cbn in Hd. by destruct r.
Qed.

(** No one can see the tuple: it is invisible, or its deletion has
    committed and the tuple that follows it in its chain is one of these. *)
Inductive unseen (limit : Z) (s : PageState) (t : nat) : Z -> Prop :=
| unseen_here o h : tuple_before s o = Some h -> invisible limit (fields h) t ->
    unseen limit s t o
| unseen_behind o h o' : tuple_before s o = Some h -> delete_committed (fields h) t ->
    follows (items_of s) (tuple_on s) o o' -> unseen limit s t o' -> unseen limit s t o.

Lemma judged_header limit s s' n o r : page_tuples s -> decided limit s s' n ->
  verdict (htsv (work s')) o = Some r -> exists h, tuple_before s o = Some h.
Proof.
  intros Hp Hd Hv. destruct (tuple (items_of s') (tuple_on s') o) as [h'|] eqn:E.
  - destruct (hinted_tuple_back s s' Hp (de_page _ _ _ _ Hd) o h' E) as (h & Hh & _). eauto.
  - rewrite (judged_only _ _ _ (de_judged _ _ _ _ Hd) o E) in Hv. done.
Qed.

Lemma surely_dead_unseen limit s s' n o : page_tuples s -> decided limit s s' n ->
  surely_dead (items_of s') (tuple_on s') (htsv (work s')) o -> unseen limit s (now s') o.
Proof.
  intros Hp Hd. induction 1 as [o Hdead|o o' Hrd Hf Hs IH].
  - assert (exists h, tuple_before s o = Some h) as [h Hh].
    { unfold dead in Hdead. destruct (verdict _ o) as [r|] eqn:Ev; [|done]. by eapply judged_header. }
    eapply unseen_here; [done|]. by eapply de_dead.
  - assert (exists h, tuple_before s o = Some h) as [h Hh].
    { unfold recently_dead in Hrd. destruct (verdict _ o) as [r|] eqn:Ev; [|done]. by eapply judged_header. }
    eapply unseen_behind; [done|by eapply de_recent| |done].
    by eapply (hinted_succ s s' Hp), Hf; apply (de_page _ _ _ _ Hd).
Qed.
End page.
