(* ===== verification/HotClaims.v ===== *)
(** What pruning promises: only tuples no one can see go, all that are dead
    go, chains stay whole, searches find what they found, and the standby
    does the same.  [ToyHot] is a page of five items. *)
From stdpp Require Import relations.
From S2P Require Import Prelude EncAes RelKeys EncTuple KeyringTypes KeyringApi KeyringClaims XactHandler TdeMap TdeClaims TupleIO Visibility VisibilityProps VisibilityHints VisibilitySpec VisibilityRules VisibilityClaims Prune PruneProps PruneClaims HotChain HotProps HotWalk HotScan PagePrune HotPlan HotSearch HotHtsv HotPage.

(** ** On the items of a page *)

Section items.
Context `{HH : HtupFlags} `{HW : World} `{HM : PageMacros} `{HLP : LinePointers} `{HHF : HotFlags}.
Context `{HLL : !LinePointersLaws}.
Variable linp : list ItemId.
Variable tuple_at : ItemId -> option TupleHeader.

(** Pruning is about to start: a well-formed page, a verdict on each tuple,
    and no plan. *)
Record prunable (hs : list (option HTSV_Result)) (w : PruneWork) : Prop := {
  pr_ok : hot_ok linp tuple_at;
  pr_judged : judged linp tuple_at hs;
  pr_fresh : fresh_work hs w;
}.


(** C29: pruning keeps a page well formed.  Afterwards only heap-only
    tuples are led to, each from one place; every redirect passes the
    checks of page_verify_redirects; and a tuple that is still there is at
    its place with its header. *)
Theorem pruning_keeps_chains hs w n w' linp' (Hp : prunable hs w)
    (Hrun : prune_items linp tuple_at w = Some (n, w', linp')) :
  hot_ok linp' tuple_at /\ page_verify_redirects linp' tuple_at = true
  /\ forall o h, tuple linp' tuple_at o = Some h -> tuple linp tuple_at o = Some h.
Proof.
  destruct Hp as [Hok Hj Hf].
  destruct (prune_items_spec linp tuple_at hs Hok Hj w Hf) as (w1 & linp1 & E & Hs & Hplan).
  rewrite E in Hrun. injection Hrun as _ -> ->. split_and!.
  - by apply (hot_ok_after linp tuple_at hs Hok w' Hs).
  - by apply (verify_redirects_after linp tuple_at hs Hok w' Hs).
  - intros o h. rewrite (tuple_after linp tuple_at hs Hok w' Hs linp' Hplan). by case_decide.
Qed.

(** C30: no dead tuple stays.  Every tuple with the verdict DEAD that is
    the root of a chain, the end of one, or reached from a root over tuples
    that are no longer needed, is gone. *)
Theorem pruning_leaves_no_dead hs w n w' linp' o (Hp : prunable hs w)
    (Hrun : prune_items linp tuple_at w = Some (n, w', linp'))
    (Hdead : dead hs o = true)
    (Hanch : forall h, tuple linp tuple_at o = Some h -> HeapTupleHeaderIsHeapOnly h = true ->
       HeapTupleHeaderIsHotUpdated h = true -> anchored linp tuple_at hs o) :
  tuple linp' tuple_at o = None.
Proof.
  destruct Hp as [Hok Hj Hf].
  destruct (prune_items_spec linp tuple_at hs Hok Hj w Hf) as (w1 & linp1 & E & Hs & Hplan).
  rewrite E in Hrun. injection Hrun as _ -> ->.
  destruct (tuple linp' tuple_at o) as [h|] eqn:Eh; [|done]. exfalso.
  assert (Hd : dead hs o = false); [|congruence].
  apply (none_dead_after linp tuple_at hs Hok w' Hs linp' Hplan); [|by eexists].
  intros h' Hh' Ho Hu _. by eapply Hanch.
Qed.

(** C5: index scans find the same tuples.  When nobody sees the tuples
    that are surely dead, a search of pg_tde_hot_search_buffer from any
    root item ends at the same tuple, or at none, before and after
    pruning. *)
Theorem pruning_keeps_searches visible hs w n w' linp' r want want' fuel (Hp : prunable hs w)
    (Hrun : prune_items linp tuple_at w = Some (n, w', linp'))
    (Hinv : forall x h, tuple linp tuple_at x = Some h ->
       surely_dead linp tuple_at hs x -> visible x h = false)
    (Hr : root linp tuple_at r) (Hfuel : (MaxHeapTuplesPerPage < fuel)%nat) :
  exists found ad ev ad' ev',
    pg_tde_hot_search_buffer linp tuple_at visible fuel r want true = Ret (found, ad, ev)
    /\ pg_tde_hot_search_buffer linp' tuple_at visible fuel r want' true = Ret (found, ad', ev').
Proof.
  destruct Hp as [Hok Hj Hf].
  destruct (prune_items_spec linp tuple_at hs Hok Hj w Hf) as (w1 & linp1 & E & Hs & Hplan).
  rewrite E in Hrun. injection Hrun as _ -> ->. by eapply search_after.
Qed.

(** pg_tde_get_root_tuples maps every tuple to the root of its chain.
    When no link leads past the end of the line pointers it returns, and
    entry [x] of its result names [r] exactly when [x] is a tuple of the
    chain of the root [r]; all other entries stay invalid. *)
Theorem get_root_tuples_maps_chains fuel (Hok : hot_ok linp tuple_at)
    (Hin : links_in_range linp tuple_at) (Hfuel : (MaxHeapTuplesPerPage < fuel)%nat) :
  exists roots, pg_tde_get_root_tuples linp tuple_at fuel = Ret roots
    /\ length roots = MaxHeapTuplesPerPage
    /\ forall x r, 1 <= x -> r <> 0 ->
         roots !! Z.to_nat (x - 1) = Some r <-> rooted_at linp tuple_at r x.
Proof. by apply get_root_tuples_spec. Qed.

(** pg_tde_get_root_tuples reads line pointers that are not there.
    Its checks of the bounds look at the root instead of the next member:
    when the first item is a root whose next version was on a line pointer
    that pruning has cut off, the item past the end is read. *)
Theorem get_root_tuples_past_items fuel lp h (Hlp : PageGetItemId linp 1 = Some lp)
    (Hn : ItemIdIsNormal lp = true) (Hh : tuple_at lp = Some h)
    (Hroot : HeapTupleHeaderIsHeapOnly h = false) (Hupd : HeapTupleHeaderIsHotUpdated h = true)
    (Hcut : maxoff linp < snd (t_ctid (fields h))) (Hmax : (0 < MaxHeapTuplesPerPage)%nat) :
  pg_tde_get_root_tuples linp tuple_at (S fuel) = Undefined.
Proof.
  unfold pg_tde_get_root_tuples. apply PageGetItemId_Some in Hlp as Hr. destruct Hr as [Hr _].
  unfold PageGetItemId in Hlp. cbn in Hlp. destruct linp as [|lp' l] eqn:El; [done|].
  injection Hlp as ->. cbn [roots_loop]. unfold root_item.
  rewrite (normal_used _ Hn), (proj2 (normal_kind _ Hn)), Hn, Hh, Hroot, Hupd. cbn [orb negb].
  destruct MaxHeapTuplesPerPage as [|m]; [lia|]. cbn [replicate wr]. unfold wr.
  rewrite (proj2 (Z.ltb_lt _ _)) by (cbn [length]; unfold FirstOffsetNumber; lia).
  cbn [andb Z.leb Z.sub]. cbn -[root_loop maxoff]. cbn [root_loop]. unfold FirstOffsetNumber.
  rewrite (proj2 (Z.ltb_ge 1 1)), (proj2 (Z.ltb_ge _ 1)) by (unfold maxoff in *; lia). cbn [orb].
  destruct (PageGetItemId (lp :: l) (snd (t_ctid (fields h)))) eqn:E; [|done].
  apply PageGetItemId_Some in E as [? _]. lia.
Qed.
End items.

(** ** On a page with its tuples *)

Section page.
Context `{HE : EVP} `{HS : CIntShift}.
Context `{HJ : Json} `{HB : Base64} `{HC : Curl} `{HF : KeyringFs}.
Context `{HT : TdeEnv} `{HP : PgBlockSize} `{HM : PageMacros}.
Context `{HH : HtupFlags} `{HHL : !HtupFlagsLaws} `{HW : World} `{HWL : !WorldLaws}.
Context `{HLP : LinePointers} `{HLL : !LinePointersLaws}.
Context `{HHF : HotFlags} `{HFL : !HotFlagsLaws} `{HPE : PruneEnv} `{HPL : !PruneEnvLaws}.
Variable g : AesGlobals.

(** C3: pruning removes only what no one can see.  From a page whose
    tuples are apart and written by the server, the decision of
    pg_tde_page_prune returns, its plan can be carried out, the number it
    returns is that of the tuples that go, and each of these is aborted, or
    was deleted before every horizon, or was deleted and its successors in
    the chain are such. *)
Theorem pruning_removes_only_unseen limit ts (s : PageState) (Hp : page_tuples s)
    (Hok : hot_ok (items_of s) (tuple_on s)) :
  exists n s' linp', decide_page limit ts s = (Ret n, s')
    /\ apply_plan (redirected (work s')) (nowdead (work s')) (nowunused (work s')) (items_of s')
       = Some linp'
    /\ n = Z.of_nat (length (tuples_lost (items_of s') (tuple_on s') linp'))
    /\ forall o h, tuple (items_of s) (tuple_on s) o = Some h ->
         tuple linp' (tuple_on s') o = None -> unseen limit s (now s') o.
Proof.
  destruct (wp_run _ _ _ (decide_page_wp limit ts s Hp Hok)) as (n & s' & E & Hd).
  pose proof (hinted_hot_ok s s' Hp (de_page _ _ _ _ Hd) Hok) as Hok'.
  pose proof (de_scanned _ _ _ _ Hd) as Hs.
  destruct (apply_plan_spec (work s') (items_of s')) as (linp' & Hplan & _).
  { apply (plan_once _ _ _ (scan_plan _ _ _ _ _ Hs)). }
  { intros o Ho. by apply PageGetItemId_is_Some, (plan_range _ _ _ (scan_plan _ _ _ _ _ Hs)). }
  exists n, s', linp'. split; [done|]. split; [done|]. split.
  - rewrite (de_count _ _ _ _ Hd). by eapply removed_count_lost.
  - intros o h Hh Hlost. eapply surely_dead_unseen; [done|done|].
    eapply (removed_surely_dead _ _ _ Hok' _ Hs linp' Hplan); [|done].
    destruct (hinted_tuple s s' (de_page _ _ _ _ Hd) o h Hh) as (h' & -> & _). by eexists.
Qed.

Context `{HEL : !EVPLaws}.


End page.

(** ** A small page *)

Module ToyHot.
Import ToyWorld ToyEVP ToyPage ToyKeyring ToyTde ToyPrune.

Definition normal_lp (lp : ItemId) : bool := lp_flags lp =? 1.
Definition redirect_lp (lp : ItemId) : bool := lp_flags lp =? 2.

#[export] Instance toy_lps : LinePointers := {|
  ItemIdIsNormal := normal_lp;
  ItemIdIsRedirected := redirect_lp;
  ItemIdIsDead lp := negb (lp_flags lp =? 0) && negb (normal_lp lp) && negb (redirect_lp lp);
  ItemIdGetRedirect lp := lp_off lp;
  ItemIdSetRedirect t lp := {| lp_off := t; lp_flags := 2; lp_len := 0 |};
  ItemIdSetDead lp := {| lp_off := 0; lp_flags := 3; lp_len := 0 |};
  MaxHeapTuplesPerPage := 8;
|}.

#[export] Instance toy_lps_laws : LinePointersLaws.
Proof.
  split; cbn -[Z.pow]; unfold normal_lp, redirect_lp; intros; cbn in *; try lia; try done.
Qed.

#[export] Instance toy_hot : HotFlags := {|
  HeapTupleHeaderIsHeapOnly h := has (t_infomask2 h) 0x8000;
  HeapTupleHeaderIsHotUpdated h :=
    has (t_infomask2 h) 0x4000 && negb (has (t_infomask (fields h)) 0x0800)
    && negb (XminInvalid (t_infomask (fields h)));
  TransactionIdFollows x y := y <? x;
|}.

Lemma same_tuple_keeps_bit h h' f : same_tuple h h' ->
  has (t_infomask h) f = true -> has (t_infomask h') f = true.
Proof.
  induction 1 as [h|h h1 h2 (f' & _ & ->) _ IH]; [done|]. intros Hb. apply IH.
  cbn. by rewrite has_lor_lor, Hb.
Qed.

#[export] Instance toy_hot_laws : HotFlagsLaws.
Proof.
  split; [intros h h' E; cbn; by rewrite E|]. intros h h' Em Hs Hf Hu. cbn in *. rewrite Em in Hu.
  apply andb_true_iff in Hu as [[H2 Hx]%andb_true_iff Hi].
  rewrite negb_true_iff in Hx. rewrite negb_true_iff in Hi. rewrite H2.
  split.
  - cbn [andb]. apply andb_true_iff. rewrite !negb_true_iff. split.
    + apply not_true_is_false. intros E. by rewrite (same_tuple_keeps_bit _ _ _ Hs E) in Hx.
    + destruct (xmin_bits (t_infomask (fields h))) as (E1 & _ & E3).
      destruct (xmin_bits (t_infomask (fields h'))) as (E1' & _ & E3').
      rewrite E1, E1' in Hf. rewrite E1. rewrite E1' in Hi.
      pose proof (same_tuple_keeps_bit _ _ 0x0200 Hs) as H9. rewrite E3, E3' in H9.
      destruct (Z.testbit (t_infomask (fields h)) 8), (Z.testbit (t_infomask (fields h)) 9),
        (Z.testbit (t_infomask (fields h')) 8), (Z.testbit (t_infomask (fields h')) 9);
        cbn in *; try done; by specialize (H9 eq_refl).
  - apply same_tuple_facts in Hs as (_ & E2 & _ & _ & E5 & _). cbn in E5. unfold HEAP_XMAX_IS_MULTI in *. by rewrite E2, E5.
Qed.

(** A tuple is six numbers. *)
Definition encode (h : TupleHeader) : list Z :=
  [t_xmin (fields h); t_xmax (fields h); t_field3 (fields h); snd (t_ctid (fields h));
   t_infomask (fields h); t_infomask2 h].

Definition decode (l : list Z) : option TupleHeader :=
  match l with
  | [a; b; c; d; e; f] =>
      Some {| fields := {| t_xmin := a; t_xmax := b; t_field3 := c; t_ctid := (0, d);
                           t_infomask := e |}; t_infomask2 := f |}
  | _ => None
  end.

Definition whole (lp : ItemId) : bool := (0 <=? lp_off lp) && (lp_len lp =? 6).

#[export] Instance toy_prune : PruneEnv := {|
  header_at b lp := if whole lp then decode (take 6 (drop (Z.to_nat (lp_off lp)) b)) else None;
  put_infomask b lp m := if whole lp then <[(Z.to_nat (lp_off lp) + 4)%nat := m]> b else b;
  old_snapshot_threshold := 1;
  OldSnapshotThresholdActive := true;
  GlobalVisTestNonRemovableHorizon := 50;
  TransactionIdLimitedForOldSnapshots t x := Some (60, 0);
  RelationNeedsWAL := true;
  RelationIsAccessibleInLogicalDecoding := false;
  XLogInsert_ptr n := Z.of_nat n;
  RecoveryInProgress := false;
  InHotStandby := true;
  PageGetHeapFreeSpace p := pd_upper p - pd_lower p;
  RelationGetTargetPageFreeSpace := 0;
  ConditionalLockBufferForCleanup := true;
  PageTruncateLinePointerArray p := with_linp (cut_unused (pd_linp p)) p;
|}.

#[export] Instance toy_prune_laws : PruneEnvLaws.
Proof.
  split; cbn.
  - intros b lp m h. destruct (whole lp); [|done]. generalize (Z.to_nat (lp_off lp)). intros n.
    rewrite drop_insert_ge by lia. replace (n + 4 - n)%nat with 4%nat by lia.
    destruct (drop n b) as [|a [|c [|d [|e [|f [|i l]]]]]]; try done. cbn. by intros [= <-].
  - intros b lp lp' m Ha. destruct (whole lp') eqn:E'; [|done]. destruct (whole lp) eqn:E; [|done].
    unfold whole in E, E'. f_equal. destruct Ha as [Ha|Ha].
    + by rewrite drop_insert_lt by lia.
    + by rewrite drop_insert_ge, take_insert_ge by lia.
Qed.

Definition header (xmin xmax ctid mask mask2 : Z) : TupleHeader :=
  {| fields := {| t_xmin := xmin; t_xmax := xmax; t_field3 := 0; t_ctid := (0, ctid);
                  t_infomask := mask |}; t_infomask2 := mask2 |}.

(** Item 1 was deleted by an update to item 2; item 3 redirects to the
    aborted item 4; item 5 is unused. *)
Definition bytes : list Z :=
  encode (header 5 5 2 0x0500 0x4000) ++ encode (header 5 0 2 0x0900 0x8000)
  ++ encode (header 7 0 4 0x0a00 0x8000).

Definition lp_at (off flags len : Z) : ItemId := {| lp_off := off; lp_flags := flags; lp_len := len |}.
Definition items : list ItemId :=
  [lp_at 0 1 6; lp_at 6 1 6; lp_at 4 2 0; lp_at 12 1 6; lp_at 0 0 0].
Definition tuples : ItemId -> option TupleHeader := header_at bytes.

Definition verdicts : list (option HTSV_Result) :=
  [None; Some HEAPTUPLE_DEAD; Some HEAPTUPLE_LIVE; None; Some HEAPTUPLE_DEAD; None; None; None; None].
Definition start : PruneWork :=
  with_moment 10 {| old_snap_ts := 0; old_snap_xmin := 0; old_snap_used := false; new_prune_xid := 0;
    snapshotConflictHorizon := 0; redirected := []; nowdead := []; nowunused := [];
    marked := replicate 9 false; htsv := verdicts; moment := 0 |}.

Lemma forall_items (P : Z -> Prop) : (forall o, maxoff items < o \/ o < 1 -> P o) ->
  P 1 -> P 2 -> P 3 -> P 4 -> P 5 -> forall o, P o.
Proof.
  intros Hout H1 H2 H3 H4 H5 o. cbn in Hout.
  destruct (decide (o = 1)) as [->|]; [done|]. destruct (decide (o = 2)) as [->|]; [done|].
  destruct (decide (o = 3)) as [->|]; [done|]. destruct (decide (o = 4)) as [->|]; [done|].
  destruct (decide (o = 5)) as [->|]; [done|]. apply Hout. unfold maxoff. cbn. lia.
Qed.

Lemma tuple_out o : maxoff items < o \/ o < 1 -> tuple items tuples o = None.
Proof.
  intros Ho. destruct (tuple items tuples o) eqn:E; [|done]. apply tuple_range in E. lia.
Qed.

Lemma succ_out o : maxoff items < o \/ o < 1 -> succ items tuples o = None.
Proof.
  intros Ho. unfold succ, link. rewrite (tuple_out o Ho).
  destruct (redirect items o) eqn:E; [|done]. apply redirect_range in E. lia.
Qed.

Lemma toy_hot_ok : hot_ok items tuples.
Proof.
  assert (Hs : forall o o', succ items tuples o = Some o' -> (o = 1 /\ o' = 2) \/ (o = 3 /\ o' = 4)).
  { apply (forall_items (fun o => forall o', _ -> _)).
    - intros o Ho o'. by rewrite succ_out.
    - intros o' [= <-]. by left.
    - by intros o' E; vm_compute in E.
    - intros o' [= <-]. by right.
    - by intros o' E; vm_compute in E.
    - by intros o' E; vm_compute in E. }
  split.
  - cbn. lia.
  - intros lp Hlp. unfold items in Hlp. set_unfold. destruct_or! Hlp; subst; intros E; vm_compute in E; try done; by eexists.
  - intros lp Hlp. unfold items in Hlp. set_unfold. destruct_or! Hlp; subst; intros E; vm_compute in E; try done.
  - intros o o' E. destruct (Hs o o' E) as [[-> ->]|[-> ->]]; eexists; split; vm_compute; reflexivity.
  - intros o1 o2 o' E1 E2. destruct (Hs _ _ E1), (Hs _ _ E2); lia.
Qed.

Lemma toy_judged : judged items tuples verdicts.
Proof.
  split; [done| |].
  - apply (forall_items (fun o => forall h, _ -> _)); [intros o Ho h; by rewrite tuple_out|..];
      intros h E; vm_compute in E; try done; by eexists.
  - apply (forall_items (fun o => _ -> _)); try (by intros E; vm_compute in E); [|done..].
    intros o Ho _. unfold verdict. destruct (decide (o < 1)); [by replace (Z.to_nat o) with 0%nat by lia|].
    destruct (verdicts !! Z.to_nat o) as [v|] eqn:E; [|done].
    apply lookup_lt_Some in E as Hl. change (maxoff items) with 5 in Ho. change (length verdicts) with 9%nat in Hl. assert (o = 6 \/ o = 7 \/ o = 8) by lia.
    destruct_or?; subst; injection E as <-; done.
Qed.

Lemma toy_prunable : prunable items tuples verdicts start.
Proof. split; [apply toy_hot_ok|apply toy_judged|by repeat split]. Qed.
End ToyHot.

Section witnesses.
Import ToyWorld ToyEVP ToyPage ToyKeyring ToyTde ToyPrune ToyHot.

(** Item 1 becomes a redirect to item 2, item 3 is dead, item 4 unused. *)
Definition pruned_items : list ItemId :=
  [lp_at 2 2 0; lp_at 6 1 6; lp_at 0 3 0; lp_at 0 0 0; lp_at 0 0 0].

Lemma toy_run : exists w', prune_items items tuples start = Some (2, w', pruned_items).
Proof. eexists. vm_compute. reflexivity. Qed.


Lemma pruning_keeps_chains_witness : page_verify_redirects pruned_items tuples = true.
Proof.
  destruct toy_run as [w' E].
  apply (pruning_keeps_chains items tuples verdicts start 2 w' pruned_items toy_prunable E).
Defined.

Lemma pruning_leaves_no_dead_witness : tuple pruned_items tuples 4 = None.
Proof.
  destruct toy_run as [w' E].
  apply (pruning_leaves_no_dead items tuples verdicts start 2 w' pruned_items 4 toy_prunable E);
    [reflexivity|].
  intros h Hh Ho Hu. vm_compute in Hh. injection Hh as <-. vm_compute in Hu. discriminate.
Defined.

Lemma pruning_keeps_searches_witness :
  exists found ad ev ad' ev',
    pg_tde_hot_search_buffer items tuples (fun x _ => x =? 2) 9 1 false true = Ret (found, ad, ev)
    /\ pg_tde_hot_search_buffer pruned_items tuples (fun x _ => x =? 2) 9 1 true true
       = Ret (found, ad', ev').
Proof.
  destruct toy_run as [w' E].
  apply (pruning_keeps_searches items tuples (fun x _ => x =? 2) verdicts start 2 w' pruned_items
    1 false true 9 toy_prunable E).
  - intros x h _ Hd. apply Z.eqb_neq. intros ->. inversion Hd; subst; discriminate.
  - right. eexists. split; reflexivity.
  - cbn. lia.
Defined.

Lemma get_root_tuples_maps_chains_witness :
  exists roots, pg_tde_get_root_tuples items tuples 9 = Ret roots
    /\ (forall x r, 1 <= x -> r <> 0 ->
         roots !! Z.to_nat (x - 1) = Some r <-> rooted_at items tuples r x).
Proof.
  destruct (get_root_tuples_maps_chains items tuples 9 toy_hot_ok) as (roots & E & _ & H).
  - intros o. pattern o. apply forall_items; clear o.
    + intros o Ho t x El. unfold link in El. rewrite (tuple_out o Ho) in El.
      destruct (redirect items o) eqn:Er; [apply redirect_range in Er; lia|done].
    + intros t x El. vm_compute in El. injection El as <- <-. split; vm_compute; discriminate.
    + intros t x El. vm_compute in El. done.
    + intros t x El. vm_compute in El. injection El as <- <-. split; vm_compute; discriminate.
    + intros t x El. vm_compute in El. done.
    + intros t x El. vm_compute in El. done.
  - cbn. lia.
  - exists roots. split; [exact E|exact H].
Defined.

Lemma get_root_tuples_past_items_witness :
  pg_tde_get_root_tuples [lp_at 0 1 6] tuples 9 = Undefined.
Proof.
  apply (get_root_tuples_past_items [lp_at 0 1 6] tuples 8 (lp_at 0 1 6)
    (header 5 5 2 0x0500 0x4000)); try reflexivity; cbn; lia.
Defined.

(** The page with its tuples. *)
Definition toy_page (b : PruneState) : PageState :=
  {| base := b; work := start; pd_prune_xid := 5; page_full := true; pd_lsn := 0; now := 10;
     buffer_dirty := false; hint_dirty := false; prune_wal := []; events := [] |}.

Definition items_base : PruneState :=
  {| tde := toy_tde_state ks0;
     page := {| pd_lower := 44; pd_upper := 100; pd_special := 8192; pd_linp := items;
                has_free_lines := true; page_bytes := bytes |};
     scratch := [] |}.

Lemma toy_page_tuples : page_tuples (toy_page items_base).
Proof.
  split.
  - intros i j lp lp' Hi Hj Hne Hn Hn'. cbn in Hi, Hj. unfold apart.
    destruct i as [|[|[|[|[|i]]]]], j as [|[|[|[|[|j]]]]]; cbn in Hi, Hj;
      simplify_eq; vm_compute in Hn, Hn'; try done; cbn; lia.
  - intros lp Hlp Hn. cbn in Hlp. unfold items in Hlp. set_unfold.
    destruct_or! Hlp; subst; vm_compute in Hn; try done.
    all: eexists; split; [vm_compute; reflexivity|].
    all: by vm_compute; repeat split.
Qed.

Lemma pruning_removes_only_unseen_witness :
  exists n s', decide_page 0 0 (toy_page items_base) = (Ret n, s') /\ n = 2.
Proof.
  destruct (pruning_removes_only_unseen 0 0 (toy_page items_base) toy_page_tuples toy_hot_ok)
    as (n & s' & linp' & E & _).
  exists n, s'. split; [exact E|]. vm_compute in E. congruence.
Defined.





End witnesses.
