(* ===== verification/LockFlags.v ===== *)
(** The bits of a tuple header's masks, as bits: htup_details.h beyond what
    visibility needs, what the flags are, and a tactic that computes which
    of them a mask has. *)
From S2P Require Import Prelude Visibility.

(** Further flags of [t_infomask] and [t_infomask2], and the composed ones. *)
Class LockFlags := {
  HEAP_XMAX_KEYSHR_LOCK : Z;
  HEAP_XMAX_EXCL_LOCK : Z;
  HEAP_XMAX_SHR_LOCK : Z;
  HEAP_LOCK_MASK : Z;
  HEAP_XMAX_BITS : Z;
  HEAP_XMIN_FROZEN : Z;
  HEAP_MOVED : Z;
  HEAP_KEYS_UPDATED : Z;
  HEAP_HOT_UPDATED : Z;
  HEAP_XMAX_IS_KEYSHR_LOCKED : Z -> bool;
  HEAP_XMAX_IS_SHR_LOCKED : Z -> bool;
  HEAP_XMAX_IS_EXCL_LOCKED : Z -> bool;
}.

(** [mask &= ~flags] *)
Definition clear (m f : Z) : Z := Z.land m (Z.lnot f).

(** The single flags of [t_infomask] the lock and freeze code looks at. *)
Inductive infoflag :=
| f_keyshr | f_excl | f_lock_only | f_xmin_committed | f_xmin_invalid
| f_xmax_committed | f_xmax_invalid | f_multi | f_moved_off | f_moved_in.

#[export] Instance infoflag_eq_dec : EqDecision infoflag.
Proof. solve_decision. Defined.

Definition all_infoflags : list infoflag :=
  [f_keyshr; f_excl; f_lock_only; f_xmin_committed; f_xmin_invalid;
   f_xmax_committed; f_xmax_invalid; f_multi; f_moved_off; f_moved_in].

(** Every flag is a bit of its own. *)
Class FlagBits `{HtupFlags} `{LockFlags} := {
  bit_of : infoflag -> Z;
  bit_range x : 0 <= bit_of x < 16;
  bit_inj x y : bit_of x = bit_of y -> x = y;
  keyshr_bit : HEAP_XMAX_KEYSHR_LOCK = 2 ^ bit_of f_keyshr;
  excl_bit : HEAP_XMAX_EXCL_LOCK = 2 ^ bit_of f_excl;
  lock_only_bit : HEAP_XMAX_LOCK_ONLY = 2 ^ bit_of f_lock_only;
  xmin_committed_bit : HEAP_XMIN_COMMITTED = 2 ^ bit_of f_xmin_committed;
  xmin_invalid_bit : HEAP_XMIN_INVALID = 2 ^ bit_of f_xmin_invalid;
  xmax_committed_bit : HEAP_XMAX_COMMITTED = 2 ^ bit_of f_xmax_committed;
  xmax_invalid_bit : HEAP_XMAX_INVALID = 2 ^ bit_of f_xmax_invalid;
  multi_bit : HEAP_XMAX_IS_MULTI = 2 ^ bit_of f_multi;
  moved_off_bit : HEAP_MOVED_OFF = 2 ^ bit_of f_moved_off;
  moved_in_bit : HEAP_MOVED_IN = 2 ^ bit_of f_moved_in;
  shr_lock_def : HEAP_XMAX_SHR_LOCK = Z.lor HEAP_XMAX_EXCL_LOCK HEAP_XMAX_KEYSHR_LOCK;
  lock_mask_def : HEAP_LOCK_MASK =
    Z.lor HEAP_XMAX_SHR_LOCK (Z.lor HEAP_XMAX_EXCL_LOCK HEAP_XMAX_KEYSHR_LOCK);
  xmax_bits_def : HEAP_XMAX_BITS =
    Z.lor HEAP_XMAX_COMMITTED (Z.lor HEAP_XMAX_INVALID
      (Z.lor HEAP_LOCK_MASK (Z.lor HEAP_XMAX_IS_MULTI HEAP_XMAX_LOCK_ONLY)));
  xmin_frozen_def : HEAP_XMIN_FROZEN = Z.lor HEAP_XMIN_COMMITTED HEAP_XMIN_INVALID;
  moved_def : HEAP_MOVED = Z.lor HEAP_MOVED_OFF HEAP_MOVED_IN;
  (** the two flags of [t_infomask2] *)
  keys_bit : Z;
  hot_bit : Z;
  keys_hot : 0 <= keys_bit /\ 0 <= hot_bit /\ keys_bit <> hot_bit;
  keys_updated_bit : HEAP_KEYS_UPDATED = 2 ^ keys_bit;
  hot_updated_bit : HEAP_HOT_UPDATED = 2 ^ hot_bit;
  (** the tests *)
  xmin_committed_test m : XminCommitted m = has m HEAP_XMIN_COMMITTED;
  xmin_invalid_test m :
    XminInvalid m = has m HEAP_XMIN_INVALID && negb (has m HEAP_XMIN_COMMITTED);
  xmin_frozen_test m : XminFrozen m = has m HEAP_XMIN_COMMITTED && has m HEAP_XMIN_INVALID;
  locked_only_test m : HEAP_XMAX_IS_LOCKED_ONLY m =
    has m HEAP_XMAX_LOCK_ONLY
    || (negb (has m HEAP_XMAX_IS_MULTI) && has m HEAP_XMAX_EXCL_LOCK
        && negb (has m HEAP_XMAX_KEYSHR_LOCK));
  locked_upgraded_test m : HEAP_LOCKED_UPGRADED m =
    has m HEAP_XMAX_IS_MULTI && has m HEAP_XMAX_LOCK_ONLY
    && negb (has m HEAP_XMAX_EXCL_LOCK) && negb (has m HEAP_XMAX_KEYSHR_LOCK);
  shr_locked_test m : HEAP_XMAX_IS_SHR_LOCKED m =
    has m HEAP_XMAX_EXCL_LOCK && has m HEAP_XMAX_KEYSHR_LOCK;
  excl_locked_test m : HEAP_XMAX_IS_EXCL_LOCKED m =
    has m HEAP_XMAX_EXCL_LOCK && negb (has m HEAP_XMAX_KEYSHR_LOCK);
  keyshr_locked_test m : HEAP_XMAX_IS_KEYSHR_LOCKED m =
    negb (has m HEAP_XMAX_EXCL_LOCK) && has m HEAP_XMAX_KEYSHR_LOCK;
}.

(** ** Bits of masks *)

Lemma has_lor m g f : has (Z.lor m g) f = has m f || has g f.
Proof.
  unfold has. rewrite Z.land_lor_distr_l, <- negb_andb. f_equal.
  apply eq_true_iff_eq. rewrite andb_true_iff, !Z.eqb_eq. apply Z.lor_eq_0_iff.
Qed.

Lemma has_0 f : has 0 f = false.
Proof. done. Qed.

Lemma has_pow2 m k : 0 <= k -> has m (2 ^ k) = Z.testbit m k.
Proof.
  intros Hk. unfold has. destruct (Z.testbit m k) eqn:E.
  - apply negb_true_iff, Z.eqb_neq. intros H0.
    assert (Ht : Z.testbit (Z.land m (2 ^ k)) k = false) by by rewrite H0, Z.bits_0.
    by rewrite Z.land_spec, E, Z.pow2_bits_true in Ht.
  - apply negb_false_iff, Z.eqb_eq, Z.bits_inj'. intros i Hi.
    rewrite Z.land_spec, Z.pow2_bits_eqb, Z.bits_0 by done.
    destruct (Z.eqb_spec k i) as [->|]; [by rewrite E|by rewrite andb_false_r].
Qed.

Lemma has_pow2_pow2 k l : 0 <= k -> 0 <= l -> has (2 ^ k) (2 ^ l) = (k =? l).
Proof. intros Hk Hl. by rewrite has_pow2, Z.pow2_bits_eqb by done. Qed.

Lemma has_clear_pow2 m g k : 0 <= k -> has (clear m g) (2 ^ k) = has m (2 ^ k) && negb (has g (2 ^ k)).
Proof. intros Hk. rewrite !has_pow2 by done. unfold clear. by rewrite Z.land_spec, Z.lnot_spec. Qed.

Lemma has_if (b : bool) m n f : has (if b then m else n) f = if b then has m f else has n f.
Proof. by destruct b. Qed.

Section bits.
Context `{HH : HtupFlags} `{HLF : LockFlags} `{HFB : !FlagBits}.

Lemma has_flag_flag x y : has (2 ^ bit_of x) (2 ^ bit_of y) = bool_decide (x = y).
Proof.
  rewrite has_pow2_pow2 by apply bit_range. case_bool_decide as E.
  - subst. apply Z.eqb_refl.
  - apply Z.eqb_neq. intros H. by apply bit_inj in H.
Qed.

Lemma has_clear_flag m g x :
  has (clear m g) (2 ^ bit_of x) = has m (2 ^ bit_of x) && negb (has g (2 ^ bit_of x)).
Proof. apply has_clear_pow2, bit_range. Qed.

Lemma keys_keys : has (2 ^ keys_bit) (2 ^ keys_bit) = true.
Proof. rewrite has_pow2_pow2 by apply keys_hot. apply Z.eqb_refl. Qed.
Lemma hot_keys : has (2 ^ hot_bit) (2 ^ keys_bit) = false.
Proof. rewrite has_pow2_pow2 by apply keys_hot. apply Z.eqb_neq. pose proof keys_hot. lia. Qed.
Lemma has_clear_keys m g :
  has (clear m g) (2 ^ keys_bit) = has m (2 ^ keys_bit) && negb (has g (2 ^ keys_bit)).
Proof. apply has_clear_pow2, keys_hot. Qed.
End bits.

Ltac flag_names := rewrite
  ?xmin_committed_test, ?xmin_invalid_test, ?xmin_frozen_test, ?locked_only_test,
  ?locked_upgraded_test, ?shr_locked_test, ?excl_locked_test, ?keyshr_locked_test,
  ?xmax_bits_def, ?lock_mask_def, ?shr_lock_def, ?xmin_frozen_def, ?moved_def,
  ?keyshr_bit, ?excl_bit, ?lock_only_bit, ?xmin_committed_bit, ?xmin_invalid_bit,
  ?xmax_committed_bit, ?xmax_invalid_bit, ?multi_bit, ?moved_off_bit, ?moved_in_bit,
  ?keys_updated_bit, ?hot_updated_bit.
Ltac flag_bits :=
  repeat progress rewrite ?has_clear_flag, ?has_clear_keys, ?has_lor, ?has_0, ?has_if,
    ?has_flag_flag, ?keys_keys, ?hot_keys.
Ltac flag_compute :=
  repeat match goal with
  | |- context [bool_decide (?a = ?b :> infoflag)] =>
      let r := eval vm_compute in (bool_decide (a = b :> infoflag)) in
      change (bool_decide (a = b :> infoflag)) with r
  end;
  cbn [negb andb orb]; rewrite ?orb_false_r, ?orb_true_r, ?andb_true_r, ?andb_false_r;
  cbn [negb andb orb].

(** Compute the flags of the masks in the goal. *)
Ltac flags := flag_names; flag_bits; flag_compute.
Tactic Notation "flags" "in" hyp(H) := revert H; flags; intros H.

Section test.
Context `{HH : HtupFlags} `{HLF : LockFlags} `{HFB : !FlagBits}.

(** Clearing the xmax bits. *)
Lemma cleared_multi m : has (clear m HEAP_XMAX_BITS) HEAP_XMAX_IS_MULTI = false.
Proof. by flags. Qed.
End test.
