(* ===== verification/MultiXact.v ===== *)
(** Tuple locks: who holds a tuple and how strongly.  The routines of
    src/src/access/pg_tdeam.c that read and compute a tuple's xmax and the
    flags that go with it, the "infobits" of WAL records, and the waiting
    for the members of a MultiXactId.

    The multixact store and the clock are the state: every question about a
    transaction is asked at a later moment than the one before. *)
From S2P Require Import Prelude Visibility LockFlags.

(** Weaker modes first, as in lockoptions.h. *)
Inductive LockTupleMode :=
| LockTupleKeyShare | LockTupleShare | LockTupleNoKeyExclusive | LockTupleExclusive.

Inductive MultiXactStatus :=
| MultiXactStatusForKeyShare | MultiXactStatusForShare | MultiXactStatusForNoKeyUpdate
| MultiXactStatusForUpdate | MultiXactStatusNoKeyUpdate | MultiXactStatusUpdate.

(** The heavyweight lock modes that are used. *)
Inductive LOCKMODE := AccessShareLock | RowShareLock | ExclusiveLock | AccessExclusiveLock.

Inductive LockWaitPolicy := LockWaitBlock | LockWaitSkip | LockWaitError.

#[export] Instance LockTupleMode_eq_dec : EqDecision LockTupleMode.
Proof. solve_decision. Defined.
#[export] Instance MultiXactStatus_eq_dec : EqDecision MultiXactStatus.
Proof. solve_decision. Defined.

Record MultiXactMember := { xid : Z; status : MultiXactStatus }.

#[export] Instance MultiXactMember_eq_dec : EqDecision MultiXactMember.
Proof. solve_decision. Defined.

(** multixact.c, lmgr.c and transam.c. *)
Class MultiXacts := {
  mxstore : Type;
  (** the members, when there are any to speak of: [None] is -1 *)
  GetMultiXactIdMembers : mxstore -> Z -> bool -> option (list MultiXactMember);
  MultiXactIdCreateFromMembers : mxstore -> list MultiXactMember -> Z * mxstore;
  MultiXactIdCreate : mxstore -> Z -> MultiXactStatus -> Z -> MultiXactStatus -> Z * mxstore;
  MultiXactIdExpand : mxstore -> nat -> Z -> Z -> MultiXactStatus -> Z * mxstore;
  TransactionIdDidAbort : nat -> Z -> bool;
  DoLockModesConflict : LOCKMODE -> LOCKMODE -> bool;
  (** the moment after a wait, and whether the condition was met *)
  XactLockTableWait : nat -> Z -> nat;
  ConditionalXactLockTableWait : nat -> Z -> bool * nat;
  ConditionalLockTuple : nat -> Z * Z -> LOCKMODE -> bool;
}.

(** [warned]: the xids warned about; [tuplocks]: the heavyweight locks taken
    on tuples. *)
Record LockState `{MultiXacts} := {
  multis : mxstore;
  lk_clock : nat;
  warned : list Z;
  tuplocks : list ((Z * Z) * LOCKMODE);
}.

(** ** tupleLockExtraInfo and the macros on it *)

Definition hwlock (mode : LockTupleMode) : LOCKMODE :=
  match mode with
  | LockTupleKeyShare => AccessShareLock
  | LockTupleShare => RowShareLock
  | LockTupleNoKeyExclusive => ExclusiveLock
  | LockTupleExclusive => AccessExclusiveLock
  end.

Definition lockstatus (mode : LockTupleMode) : MultiXactStatus :=
  match mode with
  | LockTupleKeyShare => MultiXactStatusForKeyShare
  | LockTupleShare => MultiXactStatusForShare
  | LockTupleNoKeyExclusive => MultiXactStatusForNoKeyUpdate
  | LockTupleExclusive => MultiXactStatusForUpdate
  end.

(** [None] is -1: the mode does not allow updating tuples. *)
Definition updstatus (mode : LockTupleMode) : option MultiXactStatus :=
  match mode with
  | LockTupleKeyShare | LockTupleShare => None
  | LockTupleNoKeyExclusive => Some MultiXactStatusNoKeyUpdate
  | LockTupleExclusive => Some MultiXactStatusUpdate
  end.

(** MultiXactStatusLock *)
Definition TUPLOCK_from_mxstatus (s : MultiXactStatus) : LockTupleMode :=
  match s with
  | MultiXactStatusForKeyShare => LockTupleKeyShare
  | MultiXactStatusForShare => LockTupleShare
  | MultiXactStatusForNoKeyUpdate | MultiXactStatusNoKeyUpdate => LockTupleNoKeyExclusive
  | MultiXactStatusForUpdate | MultiXactStatusUpdate => LockTupleExclusive
  end.

Definition ISUPDATE_from_mxstatus (s : MultiXactStatus) : bool :=
  match s with MultiXactStatusNoKeyUpdate | MultiXactStatusUpdate => true | _ => false end.

Definition LOCKMODE_from_mxstatus (s : MultiXactStatus) : LOCKMODE := hwlock (TUPLOCK_from_mxstatus s).

(** [mode < mode'] on the enumeration. *)
Definition mode_rank (m : LockTupleMode) : Z :=
  match m with
  | LockTupleKeyShare => 0 | LockTupleShare => 1
  | LockTupleNoKeyExclusive => 2 | LockTupleExclusive => 3
  end.
Definition mode_lt (m m' : LockTupleMode) : bool := mode_rank m <? mode_rank m'.

(** ** infobits *)

Definition XLHL_XMAX_IS_MULTI : Z := 0x01.
Definition XLHL_XMAX_LOCK_ONLY : Z := 0x02.
Definition XLHL_XMAX_EXCL_LOCK : Z := 0x04.
Definition XLHL_XMAX_KEYSHR_LOCK : Z := 0x08.
Definition XLHL_KEYS_UPDATED : Z := 0x10.

Section locks.
Context `{HH : HtupFlags} `{HW : World} `{HLF : LockFlags} `{HMX : MultiXacts}.

Local Abbreviation ML := (M LockState).

Definition compute_infobits (infomask infomask2 : Z) : Z :=
  Z.lor (if has infomask HEAP_XMAX_IS_MULTI then XLHL_XMAX_IS_MULTI else 0)
  (Z.lor (if has infomask HEAP_XMAX_LOCK_ONLY then XLHL_XMAX_LOCK_ONLY else 0)
  (Z.lor (if has infomask HEAP_XMAX_EXCL_LOCK then XLHL_XMAX_EXCL_LOCK else 0)
  (Z.lor (if has infomask HEAP_XMAX_KEYSHR_LOCK then XLHL_XMAX_KEYSHR_LOCK else 0)
         (if has infomask2 HEAP_KEYS_UPDATED then XLHL_KEYS_UPDATED else 0)))).

Definition fix_infomask_from_infobits (infobits infomask infomask2 : Z) : Z * Z :=
  let m := clear infomask (Z.lor HEAP_XMAX_IS_MULTI (Z.lor HEAP_XMAX_LOCK_ONLY
             (Z.lor HEAP_XMAX_KEYSHR_LOCK HEAP_XMAX_EXCL_LOCK))) in
  let m2 := clear infomask2 HEAP_KEYS_UPDATED in
  let m := if has infobits XLHL_XMAX_IS_MULTI then Z.lor m HEAP_XMAX_IS_MULTI else m in
  let m := if has infobits XLHL_XMAX_LOCK_ONLY then Z.lor m HEAP_XMAX_LOCK_ONLY else m in
  let m := if has infobits XLHL_XMAX_EXCL_LOCK then Z.lor m HEAP_XMAX_EXCL_LOCK else m in
  let m := if has infobits XLHL_XMAX_KEYSHR_LOCK then Z.lor m HEAP_XMAX_KEYSHR_LOCK else m in
  let m2 := if has infobits XLHL_KEYS_UPDATED then Z.lor m2 HEAP_KEYS_UPDATED else m2 in
  (m, m2).

Definition xmax_infomask_changed (new_infomask old_infomask : Z) : bool :=
  let interesting := Z.lor HEAP_XMAX_IS_MULTI (Z.lor HEAP_XMAX_LOCK_ONLY HEAP_LOCK_MASK) in
  negb (Z.land new_infomask interesting =? Z.land old_infomask interesting).

(** ** Asking *)

Definition lk_ask {A} (q : nat -> A) : ML A := fun s =>
  (Ret (q (lk_clock s)),
   {| multis := multis s; lk_clock := S (lk_clock s); warned := warned s; tuplocks := tuplocks s |}).

(** The store after a new multixact; it takes its time too. *)
Definition lk_create (f : mxstore -> nat -> Z * mxstore) : ML Z := fun s =>
  let '(m, st) := f (multis s) (lk_clock s) in
  (Ret m, {| multis := st; lk_clock := S (lk_clock s); warned := warned s; tuplocks := tuplocks s |}).

Definition lk_in_progress (x : Z) : ML bool := lk_ask (fun t => TransactionIdIsInProgress t x).
Definition lk_did_commit (x : Z) : ML bool := lk_ask (fun t => TransactionIdDidCommit t x).
Definition lk_did_abort (x : Z) : ML bool := lk_ask (fun t => TransactionIdDidAbort t x).
Definition lk_members (multi : Z) (onlyLock : bool) : ML (option (list MultiXactMember)) :=
  gets (fun s => GetMultiXactIdMembers (multis s) multi onlyLock).

Definition elog_warning (x : Z) : ML unit :=
  modify (fun s => {| multis := multis s; lk_clock := lk_clock s; warned := warned s ++ [x];
                      tuplocks := tuplocks s |}).

(** ** Members *)

Definition get_mxact_status_for_lock (mode : LockTupleMode) (is_update : bool)
    : ML MultiXactStatus :=
  if is_update then match updstatus mode with Some s => ret s | None => raise ERROR end
  else ret (lockstatus mode).

(** The strongest mode, [bits2] and [has_update] after the loop. *)
Fixpoint hint_loop (members : list MultiXactMember) (strongest : LockTupleMode) (bits2 : Z)
    (has_update : bool) : LockTupleMode * Z * bool :=
  match members with
  | [] => (strongest, bits2, has_update)
  | m :: members =>
      let mode := TUPLOCK_from_mxstatus (status m) in
      let strongest := if mode_lt strongest mode then mode else strongest in
      match status m with
      | MultiXactStatusForKeyShare | MultiXactStatusForShare | MultiXactStatusForNoKeyUpdate =>
          hint_loop members strongest bits2 has_update
      | MultiXactStatusForUpdate =>
          hint_loop members strongest (Z.lor bits2 HEAP_KEYS_UPDATED) has_update
      | MultiXactStatusNoKeyUpdate => hint_loop members strongest bits2 true
      | MultiXactStatusUpdate =>
          hint_loop members strongest (Z.lor bits2 HEAP_KEYS_UPDATED) true
      end
  end.

(** The masks for a list of members. *)
Definition hint_bits (members : list MultiXactMember) : Z * Z :=
  let '(strongest, bits2, has_update) := hint_loop members LockTupleKeyShare 0 false in
  let bits := Z.lor HEAP_XMAX_IS_MULTI
    (match strongest with
     | LockTupleExclusive | LockTupleNoKeyExclusive => HEAP_XMAX_EXCL_LOCK
     | LockTupleShare => HEAP_XMAX_SHR_LOCK
     | LockTupleKeyShare => HEAP_XMAX_KEYSHR_LOCK
     end) in
  (if has_update then bits else Z.lor bits HEAP_XMAX_LOCK_ONLY, bits2).

Definition GetMultiXactIdHintBits (multi : Z) : ML (Z * Z) :=
  let* members := lk_members multi false in ret (hint_bits (default [] members)).

(** The first updater. *)
Definition updater_of (members : list MultiXactMember) : Z :=
  match find (fun m => ISUPDATE_from_mxstatus (status m)) members with
  | Some m => xid m
  | None => InvalidTransactionId
  end.

Definition MultiXactIdGetUpdateXid (xmax : Z) : ML Z :=
  let* members := lk_members xmax false in ret (updater_of (default [] members)).

Definition tuple_update_xid (tuple : HeapTupleHeader) : ML Z := MultiXactIdGetUpdateXid (t_xmax tuple).

(** [current]: [*current_is_member], when the caller wants it; [result]:
    what is known so far. *)
Fixpoint conflict_loop (wanted : LOCKMODE) (members : list MultiXactMember) (result : bool)
    (current : option bool) : ML (bool * option bool) :=
  match members with
  | [] => ret (result, current)
  | m :: members =>
      if result && match current with None => true | Some c => c end then ret (result, current) else
      if TransactionIdIsCurrentTransactionId (xid m) then
        conflict_loop wanted members result (match current with None => None | Some _ => Some true end)
      else if result then conflict_loop wanted members result current
      else if negb (DoLockModesConflict (LOCKMODE_from_mxstatus (status m)) wanted) then
        conflict_loop wanted members result current
      else if ISUPDATE_from_mxstatus (status m) then
        let* a := lk_did_abort (xid m) in
        if a then conflict_loop wanted members result current
        else conflict_loop wanted members true current
      else
        let* p := lk_in_progress (xid m) in
        if negb p then conflict_loop wanted members result current
        else conflict_loop wanted members true current
  end.

Definition DoesMultiXactIdConflict (multi infomask : Z) (lockmode : LockTupleMode)
    (current_is_member : option bool) : ML (bool * option bool) :=
  if HEAP_LOCKED_UPGRADED infomask then ret (false, current_is_member) else
  let* members := lk_members multi (HEAP_XMAX_IS_LOCKED_ONLY infomask) in
  match members with
  | Some members => conflict_loop (hwlock lockmode) members false current_is_member
  | None => ret (false, current_is_member)
  end.

(** ** Waiting *)

Definition wait_xact (x : Z) : ML unit :=
  modify (fun s => {| multis := multis s; lk_clock := XactLockTableWait (lk_clock s) x;
                      warned := warned s; tuplocks := tuplocks s |}).

Definition wait_xact_if (x : Z) : ML bool := fun s =>
  let '(b, t) := ConditionalXactLockTableWait (lk_clock s) x in
  (Ret b, {| multis := multis s; lk_clock := t; warned := warned s; tuplocks := tuplocks s |}).

(** [count]: the caller passed [remaining]. *)
Fixpoint wait_loop (st : MultiXactStatus) (nowait count : bool) (members : list MultiXactMember)
    (remain : Z) : ML (bool * Z) :=
  match members with
  | [] => ret (true, remain)
  | m :: members =>
      if TransactionIdIsCurrentTransactionId (xid m) then
        wait_loop st nowait count members (remain + 1)
      else if negb (DoLockModesConflict (LOCKMODE_from_mxstatus (status m))
                      (LOCKMODE_from_mxstatus st)) then
        let* p := if (count : bool) then lk_in_progress (xid m) else ret false in
        wait_loop st nowait count members (if (p : bool) then remain + 1 else remain)
      else if (nowait : bool) then
        let* r := wait_xact_if (xid m) in
        if (r : bool) then wait_loop st nowait count members remain else ret (false, remain)
      else
        wait_xact (xid m);;; wait_loop st nowait count members remain
  end.

(** The result, and [*remaining]. *)
Definition Do_MultiXactIdWait (multi : Z) (st : MultiXactStatus) (infomask : Z)
    (nowait count : bool) : ML (bool * Z) :=
  let* members := if HEAP_LOCKED_UPGRADED infomask then ret None
                  else lk_members multi (HEAP_XMAX_IS_LOCKED_ONLY infomask) in
  match members with
  | Some members => wait_loop st nowait count members 0
  | None => ret (true, 0)
  end.

Definition MultiXactIdWait (multi : Z) (st : MultiXactStatus) (infomask : Z) (count : bool) : ML Z :=
  let* r := Do_MultiXactIdWait multi st infomask false count in ret (snd r).

Definition ConditionalMultiXactIdWait (multi : Z) (st : MultiXactStatus) (infomask : Z)
    (count : bool) : ML (bool * Z) :=
  Do_MultiXactIdWait multi st infomask true count.

(** ** The heavyweight lock of a tuple *)

Definition take_lock (tid : Z * Z) (mode : LockTupleMode) : ML unit :=
  modify (fun s => {| multis := multis s; lk_clock := S (lk_clock s); warned := warned s;
                      tuplocks := tuplocks s ++ [(tid, hwlock mode)] |}).

Definition try_lock (tid : Z * Z) (mode : LockTupleMode) : ML bool :=
  let* b := lk_ask (fun t => ConditionalLockTuple t tid (hwlock mode)) in
  if (b : bool) then take_lock tid mode;;; ret true else ret false.

(** The result, and [*have_tuple_lock]. *)
Definition pg_tde_acquire_tuplock (tid : Z * Z) (mode : LockTupleMode)
    (wait_policy : LockWaitPolicy) (have_tuple_lock : bool) : ML (bool * bool) :=
  if have_tuple_lock then ret (true, have_tuple_lock) else
  match wait_policy with
  | LockWaitBlock => take_lock tid mode;;; ret (true, true)
  | LockWaitSkip =>
      let* b := try_lock tid mode in
      if (b : bool) then ret (true, true) else ret (false, have_tuple_lock)
  | LockWaitError =>
      let* b := try_lock tid mode in
      if (b : bool) then ret (true, true) else raise ERROR
  end.

(** ** compute_new_xmax_infomask *)

(** The flags of a single locker or updater. *)
Definition own_infomask (mode : LockTupleMode) (is_update : bool) : Z * Z :=
  if is_update then
    (0, match mode with LockTupleExclusive => HEAP_KEYS_UPDATED | _ => 0 end)
  else
    match mode with
    | LockTupleKeyShare => (Z.lor HEAP_XMAX_LOCK_ONLY HEAP_XMAX_KEYSHR_LOCK, 0)
    | LockTupleShare => (Z.lor HEAP_XMAX_LOCK_ONLY HEAP_XMAX_SHR_LOCK, 0)
    | LockTupleNoKeyExclusive => (Z.lor HEAP_XMAX_LOCK_ONLY HEAP_XMAX_EXCL_LOCK, 0)
    | LockTupleExclusive => (Z.lor HEAP_XMAX_LOCK_ONLY HEAP_XMAX_EXCL_LOCK, HEAP_KEYS_UPDATED)
    end.

Definition update_status (infomask2 : Z) : MultiXactStatus :=
  if has infomask2 HEAP_KEYS_UPDATED then MultiXactStatusUpdate else MultiXactStatusNoKeyUpdate.

(** The status of a single xmax that is running; [None] when there is
    LOCK_ONLY and no lock bit. *)
Definition old_status (infomask infomask2 : Z) : option MultiXactStatus :=
  if HEAP_XMAX_IS_LOCKED_ONLY infomask then
    if HEAP_XMAX_IS_KEYSHR_LOCKED infomask then Some MultiXactStatusForKeyShare
    else if HEAP_XMAX_IS_SHR_LOCKED infomask then Some MultiXactStatusForShare
    else if HEAP_XMAX_IS_EXCL_LOCKED infomask then
      Some (if has infomask2 HEAP_KEYS_UPDATED then MultiXactStatusForUpdate
            else MultiXactStatusForNoKeyUpdate)
    else None
  else Some (update_status infomask2).

(** A new multixact of the old holder and ours, and its flags. *)
Definition with_hints (create : ML Z) : ML (Z * Z * Z) :=
  let* new_xmax := create in
  let* bits := GetMultiXactIdHintBits new_xmax in
  ret (new_xmax, fst bits, snd bits).

Definition join_single (xmax : Z) (old : MultiXactStatus) (add_to_xmax : Z)
    (mode : LockTupleMode) (is_update : bool) : ML (Z * Z * Z) :=
  let* new_status := get_mxact_status_for_lock mode is_update in
  with_hints (lk_create (fun st _ => MultiXactIdCreate st xmax old add_to_xmax new_status)).

(** From [l5:] on; a [goto l5] is a recursive call. *)
Fixpoint new_xmax_from (fuel : nat) (xmax old_infomask old_infomask2 add_to_xmax : Z)
    (mode : LockTupleMode) (is_update : bool) : ML (Z * Z * Z) :=
  match fuel with
  | O => nofuel
  | S fuel =>
      let goto_l5 m mode := new_xmax_from fuel xmax m old_infomask2 add_to_xmax mode is_update in
      if has old_infomask HEAP_XMAX_INVALID then
        let '(m, m2) := own_infomask mode is_update in ret (add_to_xmax, m, m2)
      else if has old_infomask HEAP_XMAX_IS_MULTI then
        if HEAP_LOCKED_UPGRADED old_infomask then
          goto_l5 (Z.lor (clear old_infomask HEAP_XMAX_IS_MULTI) HEAP_XMAX_INVALID) mode
        else
        let* running := lk_ask (fun t =>
          MultiXactIdIsRunning t xmax (HEAP_XMAX_IS_LOCKED_ONLY old_infomask)) in
        let* gone :=
          if running then ret false
          else if HEAP_XMAX_IS_LOCKED_ONLY old_infomask then ret true
          else
            let* u := MultiXactIdGetUpdateXid xmax in
            let* c := lk_did_commit u in
            ret (negb c) in
        if (gone : bool) then
          goto_l5 (Z.lor (clear old_infomask HEAP_XMAX_IS_MULTI) HEAP_XMAX_INVALID) mode
        else
          let* new_status := get_mxact_status_for_lock mode is_update in
          with_hints (lk_create (fun st t => MultiXactIdExpand st t xmax add_to_xmax new_status))
      else if has old_infomask HEAP_XMAX_COMMITTED then
        join_single xmax (update_status old_infomask2) add_to_xmax mode is_update
      else
      let* p := lk_in_progress xmax in
      if (p : bool) then
        match old_status old_infomask old_infomask2 with
        | None =>
            elog_warning xmax;;;
            goto_l5 (clear (Z.lor old_infomask HEAP_XMAX_INVALID) HEAP_XMAX_LOCK_ONLY) mode
        | Some old =>
            let old_mode := TUPLOCK_from_mxstatus old in
            if xmax =? add_to_xmax then
              goto_l5 (Z.lor old_infomask HEAP_XMAX_INVALID)
                (if mode_lt mode old_mode then old_mode else mode)
            else join_single xmax old add_to_xmax mode is_update
        end
      else
      let* c := if HEAP_XMAX_IS_LOCKED_ONLY old_infomask then ret false else lk_did_commit xmax in
      if (c : bool) then join_single xmax (update_status old_infomask2) add_to_xmax mode is_update
      else goto_l5 (Z.lor old_infomask HEAP_XMAX_INVALID) mode
  end.

(** The new xmax and its masks; the second round is the last. *)
Definition compute_new_xmax_infomask (xmax old_infomask old_infomask2 add_to_xmax : Z)
    (mode : LockTupleMode) (is_update : bool) : ML (Z * Z * Z) :=
  new_xmax_from 2 xmax old_infomask old_infomask2 add_to_xmax mode is_update.

(** ** test_lockmode_for_conflict *)

(** The verdict, and [*needwait]; [moved]: the tuple's t_ctid is not its
    own place. *)
Definition test_lockmode_for_conflict (st : MultiXactStatus) (x : Z) (mode : LockTupleMode)
    (moved : bool) : ML (TM_Result * bool) :=
  let* wantedstatus := get_mxact_status_for_lock mode false in
  let conflict := DoLockModesConflict (LOCKMODE_from_mxstatus st)
                    (LOCKMODE_from_mxstatus wantedstatus) in
  if TransactionIdIsCurrentTransactionId x then ret (TM_SelfModified, false) else
  let* p := lk_in_progress x in
  if (p : bool) then ret (TM_Ok, conflict) else
  let* a := lk_did_abort x in
  if (a : bool) then ret (TM_Ok, false) else
  let* c := lk_did_commit x in
  if (c : bool) then
    if negb (ISUPDATE_from_mxstatus st) then ret (TM_Ok, false)
    else if conflict then ret (if moved then TM_Updated else TM_Deleted, false)
    else ret (TM_Ok, false)
  else ret (TM_Ok, false).
End locks.
