(* ===== verification/MultiXactProps.v ===== *)
(** What the xmax of a tuple says about who holds it, and how the routines
    of [MultiXact] keep that. *)
From S2P Require Import Prelude Visibility VisibilityProps LockFlags MultiXact.

(** Adding up flags. *)
Ltac flag_cases := repeat (match goal with |- context [if ?b then _ else _] => destruct b end).

(** A member that still counts: its transaction runs, or it is an updater
    that committed. *)
Definition counts `{World} (t : nat) (m : MultiXactMember) : Prop :=
  TransactionIdIsInProgress t (xid m) = true
  \/ (ISUPDATE_from_mxstatus (status m) = true /\ TransactionIdDidCommit t (xid m) = true).

(** multixact.c: a new multixact has the members it was made of, expanding
    one keeps the members that count and adds nobody else (those who only
    ask for lockers see all of them but updaters), and one is
    running as long as a member is.  [issued]: the ids that were given out;
    they stay, with their members, whose first updater is the one that the
    tuple's routines find. *)
Class MultiXactsLaws `{HtupFlags, !HtupFlagsLaws, World, MultiXacts} := {
  issued : mxstore -> Z -> Prop;
  create_members st x1 s1 x2 s2 m st' b : MultiXactIdCreate st x1 s1 x2 s2 = (m, st') ->
    GetMultiXactIdMembers st' m b
    = Some [{| xid := x1; status := s1 |}; {| xid := x2; status := s2 |}];
  expand_members st t multi x s m st' : MultiXactIdExpand st t multi x s = (m, st') ->
    exists l, (forall b, GetMultiXactIdMembers st' m b = Some l)
      /\ {| xid := x; status := s |} ∈ l
      /\ forall b mem, mem ∈ default [] (GetMultiXactIdMembers st multi b) -> counts t mem -> mem ∈ l;
  expand_from st t multi x s m st' b mem : MultiXactIdExpand st t multi x s = (m, st') ->
    mem ∈ default [] (GetMultiXactIdMembers st' m b) ->
    mem = {| xid := x; status := s |} \/ mem ∈ default [] (GetMultiXactIdMembers st multi true)
    \/ (mem ∈ default [] (GetMultiXactIdMembers st multi false) /\ ISUPDATE_from_mxstatus (status mem) = true);
  members_only st m b mem : mem ∈ default [] (GetMultiXactIdMembers st m b) ->
    mem ∈ default [] (GetMultiXactIdMembers st m false);
  issued_valid st m : issued st m -> m <> InvalidTransactionId;
  create_issued st x1 s1 x2 s2 m st' : MultiXactIdCreate st x1 s1 x2 s2 = (m, st') ->
    issued st' m /\ forall n, issued st n -> issued st' n
      /\ forall b, GetMultiXactIdMembers st' n b = GetMultiXactIdMembers st n b;
  expand_issued st t multi x s m st' : MultiXactIdExpand st t multi x s = (m, st') ->
    issued st' m /\ forall n, issued st n -> issued st' n
      /\ forall b, GetMultiXactIdMembers st' n b = GetMultiXactIdMembers st n b;
  update_xid_members st h : issued st (t_xmax h) -> has (t_infomask h) HEAP_XMAX_IS_MULTI = true ->
    HeapTupleGetUpdateXid h
    = match find (fun m => ISUPDATE_from_mxstatus (status m))
              (default [] (GetMultiXactIdMembers st (t_xmax h) false)) with
      | Some m => xid m
      | None => InvalidTransactionId
      end;
  from_members st ms m st' b : ms <> [] -> MultiXactIdCreateFromMembers st ms = (m, st') ->
    GetMultiXactIdMembers st' m b = Some ms;
  running_members st t multi b b' mem : MultiXactIdIsRunning t multi b = false ->
    mem ∈ default [] (GetMultiXactIdMembers st multi b') -> TransactionIdIsInProgress t (xid mem) = false;
  abort_stable t t' x : (t <= t')%nat ->
    TransactionIdDidAbort t x = true -> TransactionIdDidAbort t' x = true;
  wait_finished t x : TransactionIdIsCurrentTransactionId x = false ->
    (t <= XactLockTableWait t x)%nat /\ TransactionIdIsInProgress (XactLockTableWait t x) x = false;
  wait_if_finished t x b t' : TransactionIdIsCurrentTransactionId x = false ->
    ConditionalXactLockTableWait t x = (b, t') ->
    (t <= t')%nat /\ (b = true -> TransactionIdIsInProgress t' x = false);
}.

Section props.
Context `{HH : HtupFlags} `{HHL : !HtupFlagsLaws} `{HW : World} `{HWL : !WorldLaws}.
Context `{HLF : LockFlags} `{HFB : !FlagBits} `{HMX : MultiXacts} `{HML : !MultiXactsLaws}.

(** ** Who counts, over time *)

Lemma counts_earlier t t' m : (t <= t')%nat -> counts t' m -> counts t m.
Proof.
  intros Ht Hc. unfold counts in *. destruct (TransactionIdIsInProgress t (xid m)) eqn:Ep; [by left|right].
  destruct Hc as [Hp|[Hu Hc]]; [by rewrite (finished_stable t t' _ Ht Ep) in Hp|]. split; [done|].
  destruct (TransactionIdDidCommit t (xid m)) eqn:Ec; [done|].
  by rewrite (outcome_final t t' _ Ht Ep Ec) in Hc.
Qed.

Lemma counts_not t t' m : (t <= t')%nat -> TransactionIdIsInProgress t (xid m) = false ->
  (ISUPDATE_from_mxstatus (status m) = false \/ TransactionIdDidCommit t (xid m) = false) ->
  ~ counts t' m.
Proof.
  intros Ht Hp Hn Hc. apply (counts_earlier t t' m Ht) in Hc as [Hc|[Hu Hc]]; [congruence|].
  destruct Hn; congruence.
Qed.

(** ** The store *)

(** What was issued stays as it was. *)
Definition grows (st st' : mxstore) : Prop :=
  forall m, issued st m -> issued st' m
    /\ forall b, GetMultiXactIdMembers st' m b = GetMultiXactIdMembers st m b.

#[export] Instance grows_preorder : PreOrder grows.
Proof.
  split; [by intros st m|]. intros st1 st2 st3 H1 H2 m Hm. destruct (H1 m Hm) as [Hi E].
  destruct (H2 m Hi) as [Hi' E']. split; [done|]. intros b. by rewrite E', E.
Qed.

(** ** infobits *)

(** The flags of xmax that go through the WAL. *)
Definition infobit_flags : list Z :=
  [HEAP_XMAX_IS_MULTI; HEAP_XMAX_LOCK_ONLY; HEAP_XMAX_EXCL_LOCK; HEAP_XMAX_KEYSHR_LOCK].

Lemma infobits_decode m m2 :
  has (compute_infobits m m2) XLHL_XMAX_IS_MULTI = has m HEAP_XMAX_IS_MULTI
  /\ has (compute_infobits m m2) XLHL_XMAX_LOCK_ONLY = has m HEAP_XMAX_LOCK_ONLY
  /\ has (compute_infobits m m2) XLHL_XMAX_EXCL_LOCK = has m HEAP_XMAX_EXCL_LOCK
  /\ has (compute_infobits m m2) XLHL_XMAX_KEYSHR_LOCK = has m HEAP_XMAX_KEYSHR_LOCK
  /\ has (compute_infobits m m2) XLHL_KEYS_UPDATED = has m2 HEAP_KEYS_UPDATED.
Proof. unfold compute_infobits. flag_cases; by vm_compute. Qed.

Lemma land_lor_out m g f : Z.land g f = 0 -> Z.land (Z.lor m g) f = Z.land m f.
Proof. intros H. by rewrite Z.land_lor_distr_l, H, Z.lor_0_r. Qed.

Lemma land_clear_out m g f : Z.land g f = 0 -> Z.land (clear m g) f = Z.land m f.
Proof.
  intros H. unfold clear. apply Z.bits_inj'. intros i Hi. rewrite !Z.land_spec, Z.lnot_spec by done.
  destruct (Z.testbit f i) eqn:Ef; [|by rewrite !andb_false_r].
  assert (Hg : Z.testbit (Z.land g f) i = false) by by rewrite H, Z.bits_0.
  rewrite Z.land_spec, Ef, andb_true_r in Hg. by rewrite Hg, !andb_true_r.
Qed.

(** A mask that has none of the flags. *)
Definition other_bits (f : Z) : Prop := forall g, g ∈ infobit_flags -> Z.land g f = 0.

Lemma fix_other_bits bits n n2 f : other_bits f ->
  Z.land (fst (fix_infomask_from_infobits bits n n2)) f = Z.land n f.
Proof.
  intros Hf. unfold other_bits, infobit_flags in Hf.
  assert (H1 := Hf HEAP_XMAX_IS_MULTI ltac:(set_solver)).
  assert (H2 := Hf HEAP_XMAX_LOCK_ONLY ltac:(set_solver)).
  assert (H3 := Hf HEAP_XMAX_EXCL_LOCK ltac:(set_solver)).
  assert (H4 := Hf HEAP_XMAX_KEYSHR_LOCK ltac:(set_solver)).
  unfold fix_infomask_from_infobits. cbn [fst].
  flag_cases; rewrite ?land_lor_out by done; apply land_clear_out;
    by rewrite !Z.land_lor_distr_l, H1, H2, H3, H4.
Qed.

Lemma infobits_roundtrip m m2 n n2 :
  let '(n', n2') := fix_infomask_from_infobits (compute_infobits m m2) n n2 in
  (forall f, f ∈ infobit_flags -> has n' f = has m f)
  /\ has n2' HEAP_KEYS_UPDATED = has m2 HEAP_KEYS_UPDATED
  /\ (forall f, other_bits f -> Z.land n' f = Z.land n f).
Proof.
  destruct (fix_infomask_from_infobits _ _ _) as [n' n2'] eqn:E. split_and!.
  3:{ intros f Hf. pose proof (fix_other_bits (compute_infobits m m2) n n2 f Hf) as H.
      by rewrite E in H. }
  all: destruct (infobits_decode m m2) as (E1 & E2 & E3 & E4 & E5);
    unfold fix_infomask_from_infobits in E; rewrite E1, E2, E3, E4, E5 in E; injection E as <- <-.
  - clear E1 E2 E3 E4 E5. intros f Hf. unfold infobit_flags in Hf. set_unfold. destruct_or! Hf; subst; flag_names.
    all: destruct (has m (2 ^ bit_of f_multi)), (has m (2 ^ bit_of f_lock_only)),
      (has m (2 ^ bit_of f_excl)), (has m (2 ^ bit_of f_keyshr)); flag_bits; by flag_compute.
  - clear E1 E2 E3 E4 E5. flag_names. destruct (has m2 (2 ^ keys_bit)); flag_bits; by flag_compute.
Qed.

(** ** The flags for a list of members *)

Definition locks_keys (s : MultiXactStatus) : bool :=
  match s with MultiXactStatusForUpdate | MultiXactStatusUpdate => true | _ => false end.

Definition has_updater (ms : list MultiXactMember) : bool :=
  existsb (fun m => ISUPDATE_from_mxstatus (status m)) ms.

Lemma mode_lt_le a b : mode_lt a b = false <-> mode_rank b <= mode_rank a.
Proof. unfold mode_lt. apply Z.ltb_ge. Qed.

Lemma hint_loop_spec ms s b u : forall s' b' u', hint_loop ms s b u = (s', b', u') ->
  has b' HEAP_KEYS_UPDATED = has b HEAP_KEYS_UPDATED || existsb (fun m => locks_keys (status m)) ms
  /\ u' = u || has_updater ms
  /\ (s' = s \/ exists m, m ∈ ms /\ s' = TUPLOCK_from_mxstatus (status m))
  /\ mode_rank s <= mode_rank s'
  /\ forall m, m ∈ ms -> mode_rank (TUPLOCK_from_mxstatus (status m)) <= mode_rank s'.
Proof.
  revert s b u. induction ms as [|m ms IH]; intros s b u s' b' u' E; cbn [hint_loop] in E.
  - injection E as <- <- <-. split_and!; [by rewrite orb_false_r|by rewrite orb_false_r|by left|lia|].
    by intros m ?%elem_of_nil.
  - set (s1 := if mode_lt s _ then _ else s) in E.
    assert (Hs1 : mode_rank s <= mode_rank s1
      /\ mode_rank (TUPLOCK_from_mxstatus (status m)) <= mode_rank s1
      /\ (s1 = s \/ s1 = TUPLOCK_from_mxstatus (status m))).
    { unfold s1. destruct (mode_lt s _) eqn:El; [|apply mode_lt_le in El; split_and!; [lia|lia|by left]].
      unfold mode_lt in El. split_and!; [lia|lia|by right]. }
    match goal with |- ?G => assert (Hrec : forall b1 u1, hint_loop ms s1 b1 u1 = (s', b', u') ->
      has b1 HEAP_KEYS_UPDATED = has b HEAP_KEYS_UPDATED || locks_keys (status m) ->
      u1 = u || ISUPDATE_from_mxstatus (status m) -> G) end.
    { intros b1 u1 E1 Hb Hu. specialize (IH _ _ _ _ _ _ E1) as (I1 & I2 & I3 & I4 & I5).
      split_and!; [by rewrite I1, Hb, <- orb_assoc|by rewrite I2, Hu, <- orb_assoc| |lia|].
      - destruct I3 as [->|(m' & Hm' & ->)].
        + destruct (proj2 (proj2 Hs1)) as [->| ->]; [by left|right; exists m; split; [by left|done]].
        + right. exists m'. split; [by right|done].
      - intros m' [->|Hm']%elem_of_cons; [lia|by apply I5]. }
    destruct (status m) eqn:Es; eapply Hrec; try exact E; cbn [locks_keys ISUPDATE_from_mxstatus];
      rewrite ?orb_false_r, ?orb_true_r; try done; by flags.
Qed.

(** [mode] is the strongest of KeyShare and the members' modes. *)
Definition strongest_of (ms : list MultiXactMember) (mode : LockTupleMode) : Prop :=
  (mode = LockTupleKeyShare \/ exists m, m ∈ ms /\ mode = TUPLOCK_from_mxstatus (status m))
  /\ forall m, m ∈ ms -> mode_rank (TUPLOCK_from_mxstatus (status m)) <= mode_rank mode.

Lemma hint_bits_spec ms m m2 : hint_bits ms = (m, m2) ->
  has m HEAP_XMAX_IS_MULTI = true /\ has m HEAP_XMAX_INVALID = false
  /\ has m HEAP_XMAX_COMMITTED = false /\ HEAP_LOCKED_UPGRADED m = false
  /\ HEAP_XMAX_IS_LOCKED_ONLY m = negb (has_updater ms)
  /\ has m2 HEAP_KEYS_UPDATED = existsb (fun x => locks_keys (status x)) ms
  /\ exists mode, strongest_of ms mode
      /\ HEAP_XMAX_IS_KEYSHR_LOCKED m = bool_decide (mode = LockTupleKeyShare)
      /\ HEAP_XMAX_IS_SHR_LOCKED m = bool_decide (mode = LockTupleShare)
      /\ HEAP_XMAX_IS_EXCL_LOCKED m = (2 <=? mode_rank mode).
Proof.
  unfold hint_bits. destruct (hint_loop ms LockTupleKeyShare 0 false) as [[mode b2] u] eqn:E.
  intros [= <- <-]. destruct (hint_loop_spec _ _ _ _ _ _ _ E) as (E1 & E2 & E3 & _ & E5).
  cbn in E2. subst u. flag_names.
  assert (Hst : strongest_of ms mode) by by split.
  split_and!; try (by destruct mode, (has_updater ms); flag_bits; flag_compute).
  - revert E1. flag_names. by rewrite has_0.
  - exists mode. split; [done|]. split_and!; by destruct mode, (has_updater ms); flag_bits; flag_compute.
Qed.

(** ** Who holds a tuple *)

(** The reading of xmax and its masks. *)
Definition holders (st : mxstore) (xmax m m2 : Z) : list MultiXactMember :=
  if has m HEAP_XMAX_INVALID then []
  else if has m HEAP_XMAX_IS_MULTI then
    if HEAP_LOCKED_UPGRADED m then []
    else default [] (GetMultiXactIdMembers st xmax (HEAP_XMAX_IS_LOCKED_ONLY m))
  else match old_status m m2 with
       | Some s => [{| xid := xmax; status := s |}]
       | None => []
       end.

(** Who holds a tuple depends on five flags of xmax and one more. *)
Lemma holders_flags st x m m2 n n2 :
  (forall f, f ∈ [f_keyshr; f_excl; f_lock_only; f_xmax_invalid; f_multi] ->
     has n (2 ^ bit_of f) = has m (2 ^ bit_of f)) ->
  has n2 HEAP_KEYS_UPDATED = has m2 HEAP_KEYS_UPDATED -> holders st x n n2 = holders st x m m2.
Proof.
  intros Hf Hk. unfold holders, old_status, update_status. rewrite Hk. flag_names.
  by rewrite (Hf f_keyshr), (Hf f_excl), (Hf f_lock_only), (Hf f_xmax_invalid), (Hf f_multi) by set_solver.
Qed.

(** What the masks and the multixact promise each other: a committed
    single xmax is an updater; a multixact with the lock-only flag has no
    updater, and otherwise the first updater is the only one. *)
Record xmax_ok (st : mxstore) (xmax m : Z) : Prop := {
  ok_committed : has m HEAP_XMAX_COMMITTED = true -> has m HEAP_XMAX_IS_MULTI = false ->
    HEAP_XMAX_IS_LOCKED_ONLY m = false;
  ok_members b mem : has m HEAP_XMAX_IS_MULTI = true -> HEAP_LOCKED_UPGRADED m = false ->
    mem ∈ default [] (GetMultiXactIdMembers st xmax b) -> ISUPDATE_from_mxstatus (status mem) = true ->
    HEAP_XMAX_IS_LOCKED_ONLY m = false
    /\ xid mem = updater_of (default [] (GetMultiXactIdMembers st xmax false));
}.

(** The new holder: a lock at least as strong as wanted, an update when one
    is wanted. *)
Definition granted (add : Z) (mode : LockTupleMode) (is_update : bool) (l : list MultiXactMember) : Prop :=
  exists h, h ∈ l /\ xid h = add /\ mode_rank mode <= mode_rank (TUPLOCK_from_mxstatus (status h))
    /\ ISUPDATE_from_mxstatus (status h) = is_update.

(** An old holder is kept, or it is us and we hold as much. *)
Definition kept (add : Z) (h : MultiXactMember) (l : list MultiXactMember) : Prop :=
  h ∈ l \/ (xid h = add /\ exists h', h' ∈ l /\ xid h' = add
            /\ mode_rank (TUPLOCK_from_mxstatus (status h)) <= mode_rank (TUPLOCK_from_mxstatus (status h'))
            /\ ISUPDATE_from_mxstatus (status h) = false).

(** [updates only with a mode that allows them]; then the status can be
    had. *)
Definition mode_allows (mode : LockTupleMode) (is_update : bool) : Prop :=
  is_update = true -> updstatus mode <> None.

Lemma status_wp mode is_update Q (s : LockState) : mode_allows mode is_update ->
  (forall st, TUPLOCK_from_mxstatus st = mode -> ISUPDATE_from_mxstatus st = is_update -> Q st s) ->
  wp (get_mxact_status_for_lock mode is_update) Q s.
Proof.
  intros Hm HQ. unfold get_mxact_status_for_lock. destruct is_update.
  - destruct mode; try (by destruct (Hm eq_refl)); apply wp_ret, HQ; done.
  - apply wp_ret, HQ; by destruct mode.
Qed.

(** What is left after the second round. *)
Lemma own_infomask_holders st add mode is_update : mode_allows mode is_update ->
  exists s, holders st add (fst (own_infomask mode is_update)) (snd (own_infomask mode is_update))
            = [{| xid := add; status := s |}]
    /\ TUPLOCK_from_mxstatus s = mode /\ ISUPDATE_from_mxstatus s = is_update.
Proof.
  intros Hm. destruct is_update, mode; try (by destruct (Hm eq_refl)); cbn [own_infomask fst snd];
    unfold holders, old_status, update_status; flag_names; flag_bits; flag_compute;
    (eexists; split_and!; [done|done|done]).
Qed.

(** ** compute_new_xmax_infomask *)

Abbreviation members_of st xmax := (default [] (GetMultiXactIdMembers st xmax false)).

(** How xmax and its masks come about: our own id, or a multixact with the
    flags of its members. *)
Inductive xmax_made (st : mxstore) (add : Z) (is_update : bool) : Z -> Z -> Z -> Prop :=
| made_single mode : mode_allows mode is_update ->
    xmax_made st add is_update add (fst (own_infomask mode is_update)) (snd (own_infomask mode is_update))
| made_multi x l : issued st x -> (forall b, GetMultiXactIdMembers st x b = Some l) ->
    xmax_made st add is_update x (fst (hint_bits l)) (snd (hint_bits l)).

(** Ours, of the wanted kind, or held before. *)
Definition joins (old : list MultiXactMember) (add : Z) (is_update : bool) (h : MultiXactMember) : Prop :=
  h ∈ old \/ (xid h = add /\ ISUPDATE_from_mxstatus (status h) = is_update).

(** The result grants the new lock, keeps the old ones that count, and
    nobody else has joined. *)
Record locks_kept (old : list MultiXactMember) (add : Z) (mode : LockTupleMode)
    (is_update : bool) (st : mxstore) (r : Z * Z * Z) (s' : LockState) : Prop := {
  lk_made : xmax_made (multis s') add is_update (fst (fst r)) (snd (fst r)) (snd r);
  lk_grows : grows st (multis s');
  lk_granted : granted add mode is_update (holders (multis s') (fst (fst r)) (snd (fst r)) (snd r));
  lk_kept h : h ∈ old -> counts (lk_clock s') h ->
    kept add h (holders (multis s') (fst (fst r)) (snd (fst r)) (snd r));
  lk_joins h : h ∈ holders (multis s') (fst (fst r)) (snd (fst r)) (snd r) -> joins old add is_update h;
}.

Lemma granted_weaker add mode mode' u l : mode_rank mode <= mode_rank mode' ->
  granted add mode' u l -> granted add mode u l.
Proof. intros Hm (h & Hh & Hx & Hr & Hu). exists h. split_and!; try done. lia. Qed.

(** The round that finds XMAX_INVALID is the last. *)
Lemma last_round_wp fuel old xmax m m2 add mode mode' u st0 (s : LockState) : st0 = multis s ->
  has m HEAP_XMAX_INVALID = true -> mode_allows mode' u -> mode_rank mode <= mode_rank mode' ->
  (forall h l, h ∈ old -> counts (lk_clock s) h -> granted add mode' u l -> kept add h l) ->
  wp (new_xmax_from (S fuel) xmax m m2 add mode' u) (locks_kept old add mode u st0) s.
Proof.
  intros -> Hi Hm Hle Hold. cbn [new_xmax_from]. rewrite Hi.
  destruct (own_infomask_holders (multis s) add mode' u Hm) as (st & Hh & Ht & Hu).
  pose proof (made_single (multis s) add u mode' Hm) as Hmade.
  destruct (own_infomask mode' u) as [m' m2']. cbn [fst snd] in *. apply wp_ret.
  assert (Hg : granted add mode' u (holders (multis s) add m' m2')).
  { rewrite Hh. eexists. split; [by left|]. cbn. rewrite Ht. split_and!; [done|lia|done]. }
  split; cbn [fst snd]; [done|done|by eapply granted_weaker|by intros h Hin Hc; apply Hold|].
  rewrite Hh. intros h ->%list_elem_of_singleton. by right.
Qed.

(** A new multixact with the flags of its members. *)
Lemma with_hints_wp old add mode u f st0 (s : LockState) : st0 = multis s ->
  (forall x st', f (multis s) (lk_clock s) = (x, st') ->
     (issued st' x /\ grows (multis s) st')
     /\ exists l, (forall b, GetMultiXactIdMembers st' x b = Some l) /\ granted add mode u l
               /\ (forall h, h ∈ old -> counts (S (lk_clock s)) h -> h ∈ l)
               /\ forall h, h ∈ l -> joins old add u h) ->
  wp (with_hints (lk_create f)) (locks_kept old add mode u st0) s.
Proof.
  intros -> Hf. unfold with_hints. wps. unfold wp at 1, lk_create.
  destruct (f (multis s) (lk_clock s)) as [x st'] eqn:E.
  destruct (Hf _ _ eq_refl) as ([Hi Hgr] & l & Hl & Hg & Hk & Hj). unfold GetMultiXactIdHintBits, lk_members.
  wps. cbn [multis]. rewrite Hl. change (default [] (Some l)) with l.
  pose proof (made_multi st' add u x l Hi Hl) as Hmade. destruct (hint_bits l) as [m' m2'] eqn:Eb.
  destruct (hint_bits_spec l m' m2' Eb) as (B1 & B2 & _ & B4 & _).
  assert (Hh : holders st' x m' m2' = l) by (unfold holders; by rewrite B1, B2, B4, Hl).
  split; cbn [multis fst snd lk_clock] in *; rewrite ?Hh; [done..| |done]. intros h Hin Hc. left. by apply Hk.
Qed.

Lemma join_single_wp xmax old add mode u st0 (s : LockState) : st0 = multis s -> mode_allows mode u ->
  wp (join_single xmax old add mode u)
    (locks_kept [{| xid := xmax; status := old |}] add mode u st0) s.
Proof.
  intros -> Hm. unfold join_single. wps. apply status_wp; [done|]. intros st Hst Hu.
  apply with_hints_wp; [done|]. intros x st' E. split; [by eapply create_issued|].
  eexists. split; [intros b; by eapply create_members|]. split_and!.
  - exists {| xid := add; status := st |}. split; [right; by left|]. cbn. rewrite Hst. by split_and!.
  - intros h Hh _. apply list_elem_of_singleton in Hh as ->. by left.
  - intros h [-> | ->%list_elem_of_singleton]%elem_of_cons; [left; by left|by right].
Qed.

(** The holders of a multixact none of which counts any more. *)
Lemma gone_multi st t t' xmax m b b' h :
  xmax_ok st xmax m -> has m HEAP_XMAX_IS_MULTI = true -> HEAP_LOCKED_UPGRADED m = false ->
  MultiXactIdIsRunning t xmax b = false ->
  (HEAP_XMAX_IS_LOCKED_ONLY m = true
   \/ exists t1, (t <= t1 <= t')%nat /\ TransactionIdDidCommit t1 (updater_of (members_of st xmax)) = false) ->
  (t <= t')%nat -> h ∈ default [] (GetMultiXactIdMembers st xmax b') ->
  ~ counts t' h.
Proof.
  intros Hok Hmul Hup Hrun Hgone Ht Hh. pose proof (running_members _ _ _ _ _ _ Hrun Hh) as Hp.
  destruct (ISUPDATE_from_mxstatus (status h)) eqn:Eu.
  - destruct (ok_members _ _ _ Hok _ _ Hmul Hup Hh Eu) as [Hlo Hx].
    destruct Hgone as [?|(t1 & Ht1 & Hc)]; [congruence|]. rewrite <- Hx in Hc.
    apply (counts_not t1); [lia| |by right]. by eapply (finished_stable t); [lia|].
  - apply (counts_not t); [done|done|by left].
Qed.

(** An expanded multixact, for [with_hints]. *)
Lemma expand_joins st t t' xmax m b add mode u new_status x st' : (t <= t')%nat -> b = HEAP_XMAX_IS_LOCKED_ONLY m ->
  xmax_ok st xmax m -> has m HEAP_XMAX_IS_MULTI = true -> HEAP_LOCKED_UPGRADED m = false ->
  TUPLOCK_from_mxstatus new_status = mode -> ISUPDATE_from_mxstatus new_status = u ->
  MultiXactIdExpand st t xmax add new_status = (x, st') ->
  (issued st' x /\ grows st st')
  /\ exists l, (forall b, GetMultiXactIdMembers st' x b = Some l) /\ granted add mode u l
     /\ (forall h, h ∈ default [] (GetMultiXactIdMembers st xmax b) -> counts t' h -> h ∈ l)
     /\ forall h, h ∈ l -> joins (default [] (GetMultiXactIdMembers st xmax b)) add u h.
Proof.
  intros Ht -> Hok Hm Hu' Hst Hu E. split; [by eapply expand_issued|].
  destruct (expand_members _ _ _ _ _ _ _ E) as (l & Hl & Hin & Hk). exists l. split_and!; [done| | |].
  - eexists. split; [done|]. cbn. by rewrite Hst.
  - intros h Hh Hc. eapply Hk; [done|]. by eapply counts_earlier.
  - intros h Hh. destruct (expand_from _ _ _ _ _ _ _ false h E) as [->|[Hin'|[Hin' Hup]]]; [by rewrite Hl|by right| |].
    + left. destruct (HEAP_XMAX_IS_LOCKED_ONLY m); [done|by eapply members_only].
    + left. by destruct (ok_members _ _ _ Hok _ _ Hm Hu' Hin' Hup) as [-> _].
Qed.

(** The first round for a multixact. *)
Lemma multi_round_wp fuel xmax m m2 add mode u (s : LockState) :
  has m HEAP_XMAX_INVALID = false -> has m HEAP_XMAX_IS_MULTI = true ->
  xmax_ok (multis s) xmax m -> mode_allows mode u ->
  wp (new_xmax_from (S (S fuel)) xmax m m2 add mode u)
    (locks_kept (holders (multis s) xmax m m2) add mode u (multis s)) s.
Proof.
  intros Hi Hmul Hok Hm. remember (S fuel) as f1 eqn:Ef. cbn [new_xmax_from]. rewrite Hi, Hmul.
  unfold holders at 1. rewrite Hi, Hmul.
  assert (Hagain : has (Z.lor (clear m HEAP_XMAX_IS_MULTI) HEAP_XMAX_INVALID) HEAP_XMAX_INVALID = true)
    by (by flags).
  destruct (HEAP_LOCKED_UPGRADED m) eqn:Hupg.
  { rewrite Ef. apply last_round_wp; [done..|]. by intros h l ?%elem_of_nil. }
  set (old := default [] _). unfold lk_ask, MultiXactIdGetUpdateXid, lk_did_commit, lk_members.
  wps. unfold wp at 1. destruct (MultiXactIdIsRunning _ _ _) eqn:Er.
  - wps. apply status_wp; [done|]. intros st Hst Hu. apply with_hints_wp; [done|]. cbn [multis lk_clock].
    intros x st' E. eapply expand_joins; [|done..|exact E]; [lia|done..].
  - destruct (HEAP_XMAX_IS_LOCKED_ONLY m) eqn:Elo.
    + wps. rewrite Ef. apply last_round_wp; [done..|]. cbn [lk_clock]. intros h l Hh Hc.
      exfalso.
      eapply (gone_multi (multis s) (lk_clock s) (S (lk_clock s))); try done; [by left|lia].
    + wps. unfold lk_ask at 1. unfold wp at 1. cbn [multis lk_clock].
      destruct (TransactionIdDidCommit _ _) eqn:Ec; cbn [negb]; wps.
      * apply status_wp; [done|]. intros st Hst Hu. apply with_hints_wp; [done|]. cbn [multis lk_clock].
        intros x st' E. eapply expand_joins; [|done..|exact E]; [lia|done..].
      * rewrite Ef. apply last_round_wp; [done..|]. cbn [lk_clock]. intros h l Hh Hc. exfalso.
        eapply (gone_multi (multis s) (lk_clock s) (S (S (lk_clock s)))); try done; [|lia]. right. exists (S (lk_clock s)). split; [lia|done].
Qed.

Lemma single_mode m m2 st : old_status m m2 = Some st -> HEAP_XMAX_IS_LOCKED_ONLY m = true ->
  ISUPDATE_from_mxstatus st = false.
Proof.
  unfold old_status. intros E Hl. rewrite Hl in E. repeat case_match; by simplify_eq.
Qed.

(** The first round for a single xmax. *)
Lemma single_round_wp fuel xmax m m2 add mode u (s : LockState) :
  has m HEAP_XMAX_INVALID = false -> has m HEAP_XMAX_IS_MULTI = false ->
  xmax_ok (multis s) xmax m -> mode_allows mode u ->
  (xmax = add -> HEAP_XMAX_IS_LOCKED_ONLY m = true) ->
  wp (new_xmax_from (S (S fuel)) xmax m m2 add mode u)
    (locks_kept (holders (multis s) xmax m m2) add mode u (multis s)) s.
Proof.
  intros Hi Hmul Hok Hm Hown. remember (S fuel) as f1 eqn:Ef. cbn [new_xmax_from]. rewrite Hi, Hmul.
  unfold holders at 1. rewrite Hi, Hmul.
  assert (Hagain : has (Z.lor m HEAP_XMAX_INVALID) HEAP_XMAX_INVALID = true) by (by flags).
  assert (Hagain2 : has (clear (Z.lor m HEAP_XMAX_INVALID) HEAP_XMAX_LOCK_ONLY) HEAP_XMAX_INVALID = true)
    by (by flags).
  destruct (has m HEAP_XMAX_COMMITTED) eqn:Ec.
  { assert (Es : old_status m m2 = Some (update_status m2)).
    { unfold old_status. by rewrite (ok_committed _ _ _ Hok Ec Hmul). }
    rewrite Es. by apply join_single_wp. }
  unfold lk_in_progress, lk_ask, lk_did_commit. wps. unfold wp at 1. cbn [multis lk_clock].
  destruct (TransactionIdIsInProgress _ _) eqn:Ep.
  - destruct (old_status m m2) as [st0|] eqn:Es.
    + destruct (Z.eqb_spec xmax add) as [->|Hne]; [|by apply join_single_wp].
      rewrite Ef. apply last_round_wp; [done|done| | |].
      * intros Hu Hn. destruct (mode_lt mode (TUPLOCK_from_mxstatus st0)) eqn:El; [|by apply (Hm Hu)].
        specialize (Hm Hu). unfold mode_lt in El.
        destruct mode, (TUPLOCK_from_mxstatus st0); cbn in *; try done; lia.
      * unfold mode_lt. destruct (Z.ltb_spec (mode_rank mode) (mode_rank (TUPLOCK_from_mxstatus st0))); lia.
      * intros h l Hh _ (h' & Hh' & Hx & Hr & _). apply list_elem_of_singleton in Hh as ->.
        right. split; [done|]. exists h'. split_and!; try done.
        -- revert Hr. unfold mode_lt. cbn [status].
           destruct (Z.ltb_spec (mode_rank mode) (mode_rank (TUPLOCK_from_mxstatus st0))); lia.
        -- eapply single_mode; [done|by apply Hown].
    + unfold elog_warning. wps. rewrite Ef. apply last_round_wp; [done..|]. by intros h l ?%elem_of_nil.
  - destruct (HEAP_XMAX_IS_LOCKED_ONLY m) eqn:Elo.
    + wps. rewrite Ef. apply last_round_wp; [done..|]. cbn [lk_clock]. intros h l Hh Hc. exfalso.
      destruct (old_status m m2) as [st0|] eqn:Es; [|by apply elem_of_nil in Hh].
      apply list_elem_of_singleton in Hh as ->.
      revert Hc. apply (counts_not (lk_clock s)); [lia|done|left; by eapply single_mode].
    + assert (Es : old_status m m2 = Some (update_status m2)) by (unfold old_status; by rewrite Elo).
      rewrite Es. unfold lk_ask. wps. unfold wp at 1. cbn [multis lk_clock].
      destruct (TransactionIdDidCommit _ _) eqn:Edc; [by apply join_single_wp|].
      rewrite Ef. apply last_round_wp; [done..|]. cbn [lk_clock]. intros h l Hh Hc. exfalso.
      apply list_elem_of_singleton in Hh as ->.
      revert Hc. apply (counts_not (S (lk_clock s))); [lia| |by right].
      by eapply (finished_stable (lk_clock s)); [lia|].
Qed.

Lemma compute_new_xmax_wp xmax m m2 add mode u (s : LockState) :
  xmax_ok (multis s) xmax m -> mode_allows mode u ->
  (xmax = add -> has m HEAP_XMAX_IS_MULTI = false -> has m HEAP_XMAX_INVALID = false ->
   HEAP_XMAX_IS_LOCKED_ONLY m = true) ->
  wp (compute_new_xmax_infomask xmax m m2 add mode u)
    (locks_kept (holders (multis s) xmax m m2) add mode u (multis s)) s.
Proof.
  intros Hok Hm Hown. unfold compute_new_xmax_infomask.
  destruct (has m HEAP_XMAX_INVALID) eqn:Hi.
  - apply last_round_wp; [done..|]. unfold holders. rewrite Hi. by intros h l ?%elem_of_nil.
  - destruct (has m HEAP_XMAX_IS_MULTI) eqn:Hmul; [by apply multi_round_wp|].
    apply single_round_wp; auto.
Qed.

(** ** DoesMultiXactIdConflict *)

(** The member stands in the way of the lock: another transaction's lock
    that is alive, or update that did not abort, in a conflicting mode. *)
Definition conflicts (wanted : LOCKMODE) (t : nat) (m : MultiXactMember) : Prop :=
  TransactionIdIsCurrentTransactionId (xid m) = false
  /\ DoLockModesConflict (LOCKMODE_from_mxstatus (status m)) wanted = true
  /\ if ISUPDATE_from_mxstatus (status m) then TransactionIdDidAbort t (xid m) = false
     else TransactionIdIsInProgress t (xid m) = true.

Lemma conflicts_earlier wanted t t' m : (t <= t')%nat -> conflicts wanted t' m -> conflicts wanted t m.
Proof.
  intros Ht (Hc & Hl & Ha). split_and!; [done..|]. destruct (ISUPDATE_from_mxstatus _).
  - destruct (TransactionIdDidAbort t _) eqn:E; [|done]. by rewrite (abort_stable t t' _ Ht E) in Ha.
  - destruct (TransactionIdIsInProgress t _) eqn:E; [done|].
    by rewrite (finished_stable t t' _ Ht E) in Ha.
Qed.

Definition has_current (ms : list MultiXactMember) : bool :=
  existsb (fun m => TransactionIdIsCurrentTransactionId (xid m)) ms.

(** What the loop has found out between two moments. *)
Record searched (wanted : LOCKMODE) (ms : list MultiXactMember) (r : bool) (cur : option bool)
    (s : LockState) (out : bool * option bool) (s' : LockState) : Prop := {
  se_time : (lk_clock s <= lk_clock s')%nat;
  se_found : fst out = true -> r = true \/ exists m, m ∈ ms /\ conflicts wanted (lk_clock s) m;
  se_none : fst out = false -> r = false /\ forall m, m ∈ ms -> ~ conflicts wanted (lk_clock s') m;
  se_current : snd out = (fun c => c || has_current ms) <$> cur;
}.

Lemma searched_skip wanted m ms r cur s s1 out s' : (lk_clock s <= lk_clock s1)%nat ->
  TransactionIdIsCurrentTransactionId (xid m) = false ->
  (r = false -> ~ conflicts wanted (lk_clock s1) m) ->
  searched wanted ms r cur s1 out s' -> searched wanted (m :: ms) r cur s out s'.
Proof.
  intros Ht Hc Hn [H1 H2 H3 H4]. split.
  - lia.
  - intros Ho. destruct (H2 Ho) as [?|(m' & Hm' & Hx)]; [by left|right].
    exists m'. split; [by right|]. by eapply conflicts_earlier.
  - intros Ho. destruct (H3 Ho) as [Hr Hall]. split; [done|].
    intros m' [->|Hm']%elem_of_cons; [|by apply Hall]. intros Hx. eapply Hn; [done|].
    by eapply conflicts_earlier.
  - rewrite H4. destruct cur; cbn; by rewrite ?Hc.
Qed.

Lemma searched_found wanted m ms cur s s1 out s' : (lk_clock s <= lk_clock s1)%nat ->
  conflicts wanted (lk_clock s) m ->
  searched wanted ms true cur s1 out s' -> searched wanted (m :: ms) false cur s out s'.
Proof.
  intros Ht Hx [H1 H2 H3 H4]. split.
  - lia.
  - intros _. right. exists m. split; [by left|done].
  - intros Ho. by destruct (H3 Ho).
  - rewrite H4. destruct cur; cbn; [|done]. by rewrite (proj1 Hx).
Qed.

Lemma conflict_loop_wp wanted ms r cur (s : LockState) :
  wp (conflict_loop wanted ms r cur) (searched wanted ms r cur s) s.
Proof.
  revert r cur s. induction ms as [|m ms IH]; intros r cur s; cbn [conflict_loop].
  { wps. split; cbn; [done|by left| |destruct cur; cbn; by rewrite ?orb_false_r].
    intros ->. split; [done|by intros m ?%elem_of_nil]. }
  destruct (r && _) eqn:Estop.
  { apply andb_true_iff in Estop as [-> Ec]. wps. split; cbn; [done|by left|done|].
    destruct cur as [c|]; [cbn in *; by subst c|done]. }
  destruct (TransactionIdIsCurrentTransactionId (xid m)) eqn:Ecur.
  { eapply wp_mono; [apply IH|]. intros out s' [H1 H2 H3 H4]. split; [done| | |].
    - intros Ho. destruct (H2 Ho) as [?|(m' & Hm' & Hx)]; [by left|right; exists m'].
      split; [by right|done].
    - intros Ho. destruct (H3 Ho) as [Hr Hall]. split; [done|].
      intros m' [->|Hm']%elem_of_cons; [|by apply Hall]. intros [Hx _]. congruence.
    - rewrite H4. destruct cur as [c|]; cbn; [|done]. rewrite Ecur. by rewrite orb_true_r. }
  destruct r.
  { eapply wp_mono; [apply IH|]. intros out s'. by apply searched_skip. }
  destruct (DoLockModesConflict _ _) eqn:El; cbn [negb].
  2:{ eapply wp_mono; [apply IH|]. intros out s'. apply searched_skip; [done|done|].
      intros _ (_ & Hx & _). congruence. }
  destruct (ISUPDATE_from_mxstatus (status m)) eqn:Eu; unfold lk_did_abort, lk_in_progress, lk_ask;
    wps; unfold wp at 1.
  - destruct (TransactionIdDidAbort _ _) eqn:Ea; (eapply wp_mono; [apply IH|]); intros out s'.
    + apply searched_skip; cbn; [lia|done|]. intros _ (_ & _ & Hx). rewrite Eu in Hx.
      rewrite (abort_stable (lk_clock s)) in Hx; [done|lia|done].
    + apply searched_found; cbn; [lia|]. unfold conflicts. by rewrite Eu.
  - destruct (TransactionIdIsInProgress _ _) eqn:Ea; cbn [negb];
      (eapply wp_mono; [apply IH|]); intros out s'.
    + apply searched_found; cbn; [lia|]. unfold conflicts. by rewrite Eu.
    + apply searched_skip; cbn; [lia|done|]. intros _ (_ & _ & Hx). rewrite Eu in Hx.
      rewrite (finished_stable (lk_clock s)) in Hx; [done|lia|done].
Qed.

(** ** Waiting *)

(** No other transaction holds a conflicting member. *)
Definition cleared (st : MultiXactStatus) (t : nat) (m : MultiXactMember) : Prop :=
  TransactionIdIsCurrentTransactionId (xid m) = true
  \/ DoLockModesConflict (LOCKMODE_from_mxstatus (status m)) (LOCKMODE_from_mxstatus st) = false
  \/ TransactionIdIsInProgress t (xid m) = false.

Lemma cleared_later st t t' m : (t <= t')%nat -> cleared st t m -> cleared st t' m.
Proof. intros Ht [H|[H|H]]; [by left|by right; left|right; right]. by eapply finished_stable. Qed.

Lemma wait_loop_wp st nowait count ms remain (s : LockState) :
  wp (wait_loop st nowait count ms remain) (fun out s' => multis s' = multis s
    /\ (lk_clock s <= lk_clock s')%nat /\ (nowait = false -> fst out = true)
    /\ (fst out = true -> forall m, m ∈ ms -> cleared st (lk_clock s') m)
    /\ (fst out = true -> remain + Z.of_nat (length (filter (fun m =>
          TransactionIdIsCurrentTransactionId (xid m) = true) ms)) <= snd out)) s.
Proof.
  revert remain s. induction ms as [|m ms IH]; intros remain s; cbn [wait_loop].
  { wps. split_and!; [done..| |cbn; lia]. by intros _ m ?%elem_of_nil. }
  assert (Hnext : forall remain' s1, multis s1 = multis s -> (lk_clock s <= lk_clock s1)%nat ->
    cleared st (lk_clock s1) m ->
    remain + (if TransactionIdIsCurrentTransactionId (xid m) then 1 else 0) <= remain' ->
    wp (wait_loop st nowait count ms remain') (fun out s' => multis s' = multis s
      /\ (lk_clock s <= lk_clock s')%nat /\ (nowait = false -> fst out = true)
      /\ (fst out = true -> forall m', m' ∈ m :: ms -> cleared st (lk_clock s') m')
      /\ (fst out = true -> remain + Z.of_nat (length (filter (fun m =>
            TransactionIdIsCurrentTransactionId (xid m) = true) (m :: ms))) <= snd out)) s1).
  { intros remain' s1 Hm Ht Hcl Hr. eapply wp_mono; [apply IH|].
    intros out s' (H1 & H2 & H3 & H4 & H5). split_and!; [congruence|lia|done| |].
    - intros Ho m' [->|Hm']%elem_of_cons; [|by apply H4]. by eapply cleared_later.
    - intros Ho. specialize (H5 Ho). rewrite filter_cons. case_decide as Ec.
      + rewrite Ec in Hr. cbn [length]. lia.
      + apply not_true_is_false in Ec. rewrite Ec in Hr. lia. }
  destruct (TransactionIdIsCurrentTransactionId (xid m)) eqn:Ecur.
  { apply Hnext; [done|done|by left|lia]. }
  destruct (DoLockModesConflict _ _) eqn:El; cbn [negb].
  2:{ destruct count; unfold lk_in_progress, lk_ask; wps.
      - unfold wp at 1. apply Hnext; cbn; [done|lia|by right; left|]. destruct (TransactionIdIsInProgress _ _); lia.
      - apply Hnext; [done|done|by right; left|lia]. }
  destruct nowait; wps.
  - unfold wp at 1, wait_xact_if. destruct (ConditionalXactLockTableWait _ _) as [[] t'] eqn:Ew;
      destruct (wait_if_finished _ _ _ _ Ecur Ew) as [Ht Hp].
    + apply Hnext; cbn; [done|done| |lia]. right. right. by apply Hp.
    + wps. by split_and!.
  - unfold wait_xact. wps. destruct (wait_finished (lk_clock s) (xid m) Ecur) as [Ht Hp].
    apply Hnext; cbn; [done|done| |lia]. by right; right.
Qed.
End props.
