(* ===== verification/MultiXactClaims.v ===== *)
(** What the tuple lock routines promise: no lock that counts is lost, the
    flags say what the members are, conflicts are found, and waits end with
    nothing in the way.  [ToyLocks] is a store of multixacts that keeps all
    of them. *)
From Stdlib Require Import ZifyBool.
From S2P Require Import Prelude Visibility VisibilityProps VisibilityClaims LockFlags MultiXact MultiXactProps.

Section claims.
Context `{HH : HtupFlags} `{HHL : !HtupFlagsLaws} `{HW : World} `{HWL : !WorldLaws}.
Context `{HLF : LockFlags} `{HFB : !FlagBits} `{HMX : MultiXacts} `{HML : !MultiXactsLaws}.

(** C8: locking a tuple keeps its locks.  compute_new_xmax_infomask
    returns after at most two rounds; in its result our transaction holds a
    lock at least as strong as wanted, an update exactly if it updates; and
    whoever held the tuple and still counts at the end (a running
    transaction, or a committed updater) holds it as before, or is our own
    transaction holding as strong a lock. *)
Theorem new_xmax_keeps_locks xmax m m2 add mode is_update (s : LockState)
    (Hok : xmax_ok (multis s) xmax m) (Hmode : mode_allows mode is_update)
    (Hown : xmax = add -> has m HEAP_XMAX_IS_MULTI = false -> has m HEAP_XMAX_INVALID = false ->
            HEAP_XMAX_IS_LOCKED_ONLY m = true) :
  exists x' m' m2' s',
    compute_new_xmax_infomask xmax m m2 add mode is_update s = (Ret (x', m', m2'), s')
    /\ granted add mode is_update (holders (multis s') x' m' m2')
    /\ (forall h, h ∈ holders (multis s) xmax m m2 -> counts (lk_clock s') h ->
          kept add h (holders (multis s') x' m' m2'))
    /\ forall h, h ∈ holders (multis s') x' m' m2' -> joins (holders (multis s) xmax m m2) add is_update h.
Proof.
  destruct (wp_run _ _ _ (compute_new_xmax_wp xmax m m2 add mode is_update s Hok Hmode Hown))
    as ([[x' m'] m2'] & s' & E & [_ _ Hg Hk Hj]).
  exists x', m', m2', s'. by split_and!.
Qed.

(** the infobits of a WAL record carry the xmax flags.  Whatever the
    masks of the tuple on the other side, after fix_infomask_from_infobits
    they have the multixact, lock-only, exclusive, key-share and
    keys-updated flags that compute_infobits was given, and their other
    bits as before. *)
Theorem infobits_carry_xmax_flags m m2 n n2 :
  let '(n', n2') := fix_infomask_from_infobits (compute_infobits m m2) n n2 in
  (forall f, f ∈ infobit_flags -> has n' f = has m f)
  /\ has n2' HEAP_KEYS_UPDATED = has m2 HEAP_KEYS_UPDATED
  /\ (forall f, other_bits f -> Z.land n' f = Z.land n f).
Proof. apply infobits_roundtrip. Qed.

(** the hint bits of a multixact describe its members.  The lock-only
    test holds exactly when no member updates, the keys-updated flag
    exactly when one locks the keys, and the test of lock strength that
    holds is that of the strongest member. *)
Theorem multixact_hint_bits_describe multi (s : LockState) :
  let ms := default [] (GetMultiXactIdMembers (multis s) multi false) in
  exists m m2, GetMultiXactIdHintBits multi s = (Ret (m, m2), s)
    /\ has m HEAP_XMAX_IS_MULTI = true
    /\ HEAP_XMAX_IS_LOCKED_ONLY m = negb (has_updater ms)
    /\ has m2 HEAP_KEYS_UPDATED = existsb (fun x => locks_keys (status x)) ms
    /\ exists mode, strongest_of ms mode
       /\ HEAP_XMAX_IS_KEYSHR_LOCKED m = bool_decide (mode = LockTupleKeyShare)
       /\ HEAP_XMAX_IS_SHR_LOCKED m = bool_decide (mode = LockTupleShare)
       /\ HEAP_XMAX_IS_EXCL_LOCKED m = (2 <=? mode_rank mode).
Proof.
  cbv zeta. destruct (hint_bits (default [] (GetMultiXactIdMembers (multis s) multi false)))
    as [m m2] eqn:E.
  exists m, m2. split; [unfold GetMultiXactIdHintBits, lk_members, bind, gets, ret; by rewrite E|].
  destruct (hint_bits_spec _ _ _ E) as (H1 & _ & _ & _ & H5 & H6 & H7). by split_and!.
Qed.

(** DoesMultiXactIdConflict finds conflicts.  Between the moment of the
    call and that of its return: when it says yes, some member stood in the
    way at the beginning; when it says no, none does at the end; and the
    caller's flag is set exactly when it was or the current transaction is
    a member. *)
Theorem multixact_conflict_found multi infomask mode current ms (s : LockState)
    (Hup : HEAP_LOCKED_UPGRADED infomask = false)
    (Hms : GetMultiXactIdMembers (multis s) multi (HEAP_XMAX_IS_LOCKED_ONLY infomask) = Some ms) :
  exists r c s', DoesMultiXactIdConflict multi infomask mode current s = (Ret (r, c), s')
    /\ (r = true -> exists m, m ∈ ms /\ conflicts (hwlock mode) (lk_clock s) m)
    /\ (r = false -> forall m, m ∈ ms -> ~ conflicts (hwlock mode) (lk_clock s') m)
    /\ c = (fun c => c || has_current ms) <$> current.
Proof.
  unfold DoesMultiXactIdConflict, lk_members. rewrite Hup. unfold bind, gets. rewrite Hms.
  destruct (wp_run _ _ _ (conflict_loop_wp (hwlock mode) ms false current s))
    as ([r c] & s' & E & [_ H2 H3 H4]).
  exists r, c, s'. split; [done|]. split_and!; [|by apply H3|done].
  intros Hr. by destruct (H2 Hr).
Qed.

(** after MultiXactIdWait nothing is in the way.  It returns, and then
    every member is our own, does not conflict with the wanted status, or
    has ended; the count of remaining members includes our own. *)
Theorem multixact_wait_clears multi st infomask count ms (s : LockState)
    (Hup : HEAP_LOCKED_UPGRADED infomask = false)
    (Hms : GetMultiXactIdMembers (multis s) multi (HEAP_XMAX_IS_LOCKED_ONLY infomask) = Some ms) :
  exists remaining s', MultiXactIdWait multi st infomask count s = (Ret remaining, s')
    /\ (forall m, m ∈ ms -> cleared st (lk_clock s') m)
    /\ Z.of_nat (length (filter (fun m => TransactionIdIsCurrentTransactionId (xid m) = true) ms))
       <= remaining.
Proof.
  unfold MultiXactIdWait, Do_MultiXactIdWait, lk_members. rewrite Hup. unfold bind, gets. rewrite Hms.
  destruct (wp_run _ _ _ (wait_loop_wp st false count ms 0 s))
    as ([r n] & s' & E & _ & _ & Hr & Hc & Hn).
  exists n, s'. rewrite E. specialize (Hr eq_refl). cbn in *. split_and!; [done|by apply Hc|].
  specialize (Hn Hr). lia.
Qed.
End claims.

(** ** A store of multixacts *)

Module ToyLocks.
Import ToyWorld.

#[export] Instance toy_lock_flags : LockFlags := {|
  HEAP_XMAX_KEYSHR_LOCK := 0x10;
  HEAP_XMAX_EXCL_LOCK := 0x40;
  HEAP_XMAX_SHR_LOCK := 0x50;
  HEAP_LOCK_MASK := 0x50;
  HEAP_XMAX_BITS := 0x1cd0;
  HEAP_XMIN_FROZEN := 0x300;
  HEAP_MOVED := 0xc000;
  HEAP_KEYS_UPDATED := 0x2000;
  HEAP_HOT_UPDATED := 0x4000;
  HEAP_XMAX_IS_KEYSHR_LOCKED m := Z.land m 0x50 =? 0x10;
  HEAP_XMAX_IS_SHR_LOCKED m := Z.land m 0x50 =? 0x50;
  HEAP_XMAX_IS_EXCL_LOCKED m := Z.land m 0x50 =? 0x40;
|}.

Definition toy_bit (x : infoflag) : Z :=
  match x with
  | f_keyshr => 4 | f_excl => 6 | f_lock_only => 7 | f_xmin_committed => 8 | f_xmin_invalid => 9
  | f_xmax_committed => 10 | f_xmax_invalid => 11 | f_multi => 12 | f_moved_off => 14
  | f_moved_in => 15
  end.

(** The two lock bits, read together. *)
Lemma lock_bits m : Z.land m 0x50 =
  (if Z.testbit m 4 then 0x10 else 0) + (if Z.testbit m 6 then 0x40 else 0).
Proof.
  change 0x50 with (Z.lor (2 ^ 4) (2 ^ 6)). rewrite Z.land_lor_distr_r, !land_pow2 by done.
  by destruct (Z.testbit m 4), (Z.testbit m 6).
Qed.

Lemma multi_excl_bits m : Z.land m 0x1050 =
  (if Z.testbit m 4 then 0x10 else 0) + (if Z.testbit m 6 then 0x40 else 0)
  + (if Z.testbit m 12 then 0x1000 else 0).
Proof.
  change 0x1050 with (Z.lor (Z.lor (2 ^ 4) (2 ^ 6)) (2 ^ 12)).
  rewrite !Z.land_lor_distr_r, !land_pow2 by done.
  by destruct (Z.testbit m 4), (Z.testbit m 6), (Z.testbit m 12).
Qed.

Lemma has_at m k v : 0 <= k -> v = 2 ^ k -> has m v = Z.testbit m k.
Proof. intros Hk ->. by apply has_pow2. Qed.

#[export] Instance toy_bits : FlagBits.
Proof.
  refine {| bit_of := toy_bit; keys_bit := 13; hot_bit := 14 |}; try done; cbn -[Z.pow].
  - intros []; by cbn.
  - by intros [] [].
  - intros m. destruct (xmin_bits m) as (-> & -> & ->).
    by destruct (Z.testbit m 8), (Z.testbit m 9).
  - intros m. destruct (xmin_bits m) as (-> & -> & ->).
    by destruct (Z.testbit m 8), (Z.testbit m 9).
  - intros m. rewrite multi_excl_bits, (has_at m 12 0x1000), (has_at m 6 0x40), (has_at m 4 0x10) by done.
    by destruct (Z.testbit m 4), (Z.testbit m 6), (Z.testbit m 12).
  - intros m. change (Z.lor excl_lock keyshr_lock) with 0x50.
    rewrite lock_bits, (has_at m 6 0x40), (has_at m 4 0x10) by done.
    destruct (Z.testbit m 4), (Z.testbit m 6), (has m 0x1000), (has m 0x80); done.
  - intros m. rewrite lock_bits, (has_at m 6 0x40), (has_at m 4 0x10) by done.
    by destruct (Z.testbit m 4), (Z.testbit m 6).
  - intros m. rewrite lock_bits, (has_at m 6 0x40), (has_at m 4 0x10) by done.
    by destruct (Z.testbit m 4), (Z.testbit m 6).
  - intros m. rewrite lock_bits, (has_at m 6 0x40), (has_at m 4 0x10) by done.
    by destruct (Z.testbit m 4), (Z.testbit m 6).
Qed.

#[export] Instance status_countable : Countable MultiXactStatus.
Proof.
  apply (inj_countable' (fun s => match s with
    | MultiXactStatusForKeyShare => 0 | MultiXactStatusForShare => 1 | MultiXactStatusForNoKeyUpdate => 2
    | MultiXactStatusForUpdate => 3 | MultiXactStatusNoKeyUpdate => 4 | MultiXactStatusUpdate => 5
    end) (fun z => if z =? 0 then MultiXactStatusForKeyShare else if z =? 1 then MultiXactStatusForShare
      else if z =? 2 then MultiXactStatusForNoKeyUpdate else if z =? 3 then MultiXactStatusForUpdate
      else if z =? 4 then MultiXactStatusNoKeyUpdate else MultiXactStatusUpdate)).
  by intros [].
Defined.

#[export] Instance member_countable : Countable MultiXactMember.
Proof.
  apply (inj_countable' (fun m => (xid m, status m)) (fun p => {| xid := fst p; status := snd p |})).
  by intros [].
Defined.

(** A multixact is the code of its members. *)
Definition members_at (m : Z) : option (list MultiXactMember) :=
  match m with Zpos p => decode p | _ => None end.
Definition multi_of (ms : list MultiXactMember) : Z := Zpos (encode ms).

Lemma members_at_multi ms : members_at (multi_of ms) = Some ms.
Proof. apply decode_encode. Qed.

#[export] Instance toy_multis : MultiXacts := {|
  mxstore := unit;
  GetMultiXactIdMembers _ m b := members_at m;
  MultiXactIdCreateFromMembers _ ms := (multi_of ms, tt);
  MultiXactIdCreate _ x1 s1 x2 s2 :=
    (multi_of [{| xid := x1; status := s1 |}; {| xid := x2; status := s2 |}], tt);
  MultiXactIdExpand _ t m x s :=
    (multi_of (default [] (members_at m) ++ [{| xid := x; status := s |}]), tt);
  TransactionIdDidAbort t x := x =? 7;
  (** lock.c: the conflict table *)
  DoLockModesConflict a b :=
    match a, b with
    | AccessShareLock, AccessExclusiveLock | AccessExclusiveLock, AccessShareLock
    | RowShareLock, ExclusiveLock | ExclusiveLock, RowShareLock
    | RowShareLock, AccessExclusiveLock | AccessExclusiveLock, RowShareLock
    | ExclusiveLock, ExclusiveLock | ExclusiveLock, AccessExclusiveLock
    | AccessExclusiveLock, ExclusiveLock | AccessExclusiveLock, AccessExclusiveLock => true
    | _, _ => false
    end;
  XactLockTableWait t x := Nat.max t 10;
  ConditionalXactLockTableWait t x := ((10 <=? t)%nat, S t);
  ConditionalLockTuple t tid mode := true;
|}.

(** The history, with multixacts that count as running for good. *)
#[export] Instance busy : World := {|
  TransactionIdIsCurrentTransactionId := @TransactionIdIsCurrentTransactionId history;
  TransactionIdIsInProgress := @TransactionIdIsInProgress history;
  TransactionIdDidCommit := @TransactionIdDidCommit history;
  MultiXactIdIsRunning t x lockOnly := true;
  HeapTupleGetUpdateXid h := updater_of (default [] (members_at (t_xmax h)));
  HeapTupleHeaderGetXvac h := if has (t_infomask h) 0xc000 then t_field3 h else 0;
  HeapTupleHeaderGetCmin := @HeapTupleHeaderGetCmin history;
  HeapTupleHeaderGetCmax := @HeapTupleHeaderGetCmax history;
  HeapTupleHeaderGetUpdateXid h :=
    if negb (has (t_infomask h) 0x0800) && has (t_infomask h) 0x1000 && negb (has (t_infomask h) 0x0080)
    then updater_of (default [] (members_at (t_xmax h))) else t_xmax h;
  TransactionIdGetCommitLSN := @TransactionIdGetCommitLSN history;
  XLogNeedsFlush := @XLogNeedsFlush history;
  BufferIsPermanent := true;
  BufferGetLSNAtomic := @BufferGetLSNAtomic history;
  XidInMVCCSnapshot := @XidInMVCCSnapshot history;
  TransactionIdPrecedes := @TransactionIdPrecedes history;
  TransactionIdFollowsOrEquals := @TransactionIdFollowsOrEquals history;
  GlobalVisTestIsRemovableXid := @GlobalVisTestIsRemovableXid history;
  ResolveCminCmaxDuringDecoding h := None;
|}.

#[export] Instance busy_laws : WorldLaws.
Proof.
  refine {| snapshot_taken := taken_at |}; try exact (@snapshot_finished _ _ history history_laws);
    try (destruct history_laws; done).
  - cbn -[has members_at]. intros h -> [Hl _]%orb_false_iff. rewrite Hl. by destruct (has (t_infomask h) 0x1000).
  - by intros h h' (f & _ & ->).
Defined.

#[export] Instance toy_multis_laws : MultiXactsLaws.
Proof.
  refine {| issued (_ : @mxstore toy_multis) (m : Z) := m <> 0 |}; cbn -[Nat.ltb Nat.leb multi_of members_at].
  - intros st x1 s1 x2 s2 m st' b [= <- _]. apply members_at_multi.
  - intros st t multi x s m st' [= <- _]. eexists. split; [intros _; apply members_at_multi|].
    split; [set_solver|]. intros b mem Hm _. set_solver.
  - intros st t multi x s m st' b mem [= <- _]. rewrite members_at_multi. cbn [default]. set_solver.
  - done.
  - done.
  - intros st x1 s1 x2 s2 m st' [= <- <-]. by split.
  - intros st t multi x s m st' [= <- <-]. by split.
  - done.
  - intros st ms m st' b _ [= <- _]. apply members_at_multi.
  - done.
  - done.
  - intros t x Hx. split; [lia|]. lia.
  - intros t x b t' Hx E. apply pair_equal_spec in E as [Eb <-]. split; [lia|]. intros ->.
    apply Nat.leb_le in Eb. lia.
Qed.
End ToyLocks.

Section witnesses.
Import ToyWorld ToyLocks.

(** Transaction 9 holds a share lock through a multixact, together with
    transaction 5, which has ended. *)
Definition shared : list MultiXactMember :=
  [{| xid := 9; status := MultiXactStatusForShare |}; {| xid := 5; status := MultiXactStatusForShare |}].
Definition locked (t : nat) : LockState :=
  {| multis := tt; lk_clock := t; warned := []; tuplocks := [] |}.

Definition shared_multi : Z := multi_of shared.

(** MULTI | LOCK_ONLY | SHR_LOCK *)
Definition shared_mask : Z := 0x10d0.

Lemma shared_ok : xmax_ok (multis (locked 0)) shared_multi shared_mask.
Proof.
  split; [done|]. intros b mem _ _ Hm Hu. cbn in Hm. unfold members_at in Hm. cbn in Hm.
  set_unfold. by destruct_or! Hm; subst.
Qed.

Lemma new_xmax_keeps_locks_witness :
  exists x' m' m2' s',
    compute_new_xmax_infomask shared_multi shared_mask 0 100 LockTupleShare false (locked 0)
      = (Ret (x', m', m2'), s')
    /\ kept 100 {| xid := 9; status := MultiXactStatusForShare |}
         (holders (multis s') x' m' m2').
Proof.
  destruct (new_xmax_keeps_locks shared_multi shared_mask 0 100 LockTupleShare false (locked 0) shared_ok)
    as (x' & m' & m2' & s' & E & _ & Hk & _).
  - intros Hf. discriminate.
  - intros He. discriminate.
  - exists x', m', m2', s'. split; [exact E|]. apply Hk.
    + left.
    + left. vm_compute in E. injection E as <- <- <- <-. reflexivity.
Defined.

Lemma multixact_conflict_found_witness :
  exists r c s', DoesMultiXactIdConflict shared_multi shared_mask LockTupleExclusive (Some false) (locked 0)
                 = (Ret (r, c), s')
    /\ (r = false -> forall m, m ∈ shared -> ~ conflicts AccessExclusiveLock (lk_clock s') m).
Proof.
  destruct (multixact_conflict_found shared_multi shared_mask LockTupleExclusive (Some false) shared (locked 0))
    as (r & c & s' & E & _ & Hn & _); [reflexivity|reflexivity|].
  exists r, c, s'. split; [exact E|exact Hn].
Defined.

Lemma multixact_wait_clears_witness :
  exists remaining s', MultiXactIdWait shared_multi MultiXactStatusUpdate shared_mask true (locked 0)
                       = (Ret remaining, s')
    /\ (forall m, m ∈ shared -> cleared MultiXactStatusUpdate (lk_clock s') m).
Proof.
  destruct (multixact_wait_clears shared_multi MultiXactStatusUpdate shared_mask true shared (locked 0))
    as (n & s' & E & Hc & _); [reflexivity|reflexivity|].
  exists n, s'. split; [exact E|exact Hc].
Defined.
End witnesses.
