(* ===== verification/Freeze.v ===== *)
(** Freezing: what to do with the transaction ids of a tuple that VACUUM
    leaves behind, carrying it out on a page, its WAL record and the replay.
    The freeze routines of src/src/access/pg_tdeam.c.

    Tuple headers are looked up by the offset of their line pointer; the
    multixact store and the clock are those of [MultiXact]. *)
From stdpp Require Import sorting.
From S2P Require Import Prelude Visibility Prune LockFlags MultiXact HotChain PagePrune.

(** vacuum.h *)
Record VacuumCutoffs := {
  relfrozenxid : Z;
  relminmxid : Z;
  OldestXmin : Z;
  OldestMxact : Z;
  FreezeLimit : Z;
  MultiXactCutoff : Z;
}.

Record HeapTupleFreeze := {
  fz_xmax : Z;
  fz_infomask2 : Z;
  fz_infomask : Z;
  frzflags : Z;
  checkflags : Z;
  fz_offset : Z;
}.

Record HeapPageFreeze := {
  freeze_required : bool;
  FreezePageRelfrozenXid : Z;
  FreezePageRelminMxid : Z;
  NoFreezePageRelfrozenXid : Z;
  NoFreezePageRelminMxid : Z;
}.

Record xl_pg_tde_freeze_plan := {
  pl_xmax : Z;
  pl_infomask2 : Z;
  pl_infomask : Z;
  pl_frzflags : Z;
  pl_ntuples : Z;
}.

(** The record and its block data. *)
Record xl_pg_tde_freeze_page := {
  fp_snapshotConflictHorizon : Z;
  fp_nplans : Z;
  fp_isCatalogRel : bool;
  fp_plans : list xl_pg_tde_freeze_plan;
  fp_offsets : list Z;
}.

Definition XLH_FREEZE_XVAC : Z := 0x02.
Definition XLH_INVALID_XVAC : Z := 0x04.
Definition HEAP_FREEZE_CHECK_XMIN_COMMITTED : Z := 0x01.
Definition HEAP_FREEZE_CHECK_XMAX_ABORTED : Z := 0x02.
Definition FRM_NOOP : Z := 0x0001.
Definition FRM_INVALIDATE_XMAX : Z := 0x0002.
Definition FRM_RETURN_IS_XID : Z := 0x0004.
Definition FRM_RETURN_IS_MULTI : Z := 0x0008.
Definition FRM_MARK_COMMITTED : Z := 0x0010.

(** transam.h and multixact.h *)
Class XidMacros := {
  TransactionIdIsNormal : Z -> bool;
  MultiXactIdIsValid : Z -> bool;
  MultiXactIdPrecedes : Z -> Z -> bool;
}.

Section freeze.
Context `{HH : HtupFlags} `{HW : World} `{HLF : LockFlags} `{HMX : MultiXacts} `{HX : XidMacros}.
Context `{HM : PageMacros} `{HLP : LinePointers} `{HPE : PruneEnv}.

Local Abbreviation ML := (M LockState).

(** ** FreezeMultiXactId *)

Definition forced (p : HeapPageFreeze) : HeapPageFreeze :=
  {| freeze_required := true;
     FreezePageRelfrozenXid := FreezePageRelfrozenXid p;
     FreezePageRelminMxid := FreezePageRelminMxid p;
     NoFreezePageRelfrozenXid := NoFreezePageRelfrozenXid p;
     NoFreezePageRelminMxid := NoFreezePageRelminMxid p |}.

Definition with_freeze_trackers (x m : Z) (p : HeapPageFreeze) : HeapPageFreeze :=
  {| freeze_required := freeze_required p; FreezePageRelfrozenXid := x; FreezePageRelminMxid := m;
     NoFreezePageRelfrozenXid := NoFreezePageRelfrozenXid p;
     NoFreezePageRelminMxid := NoFreezePageRelminMxid p |}.

(** The first pass over the members: is a replacement needed, and the
    oldest xid seen. *)
Fixpoint oldest_loop (cutoffs : VacuumCutoffs) (members : list MultiXactMember) (oldest : Z)
    : bool * Z :=
  match members with
  | [] => (false, oldest)
  | m :: members =>
      if TransactionIdPrecedes (xid m) (FreezeLimit cutoffs) then (true, oldest)
      else oldest_loop cutoffs members
             (if TransactionIdPrecedes (xid m) oldest then xid m else oldest)
  end.

(** What the second pass collects. *)
Record Survivors := {
  newmembers : list MultiXactMember;
  has_lockers : bool;
  update_xid : Z;
  update_committed : bool;
}.

Definition runs (x : Z) : ML bool :=
  if TransactionIdIsCurrentTransactionId x then ret true else lk_in_progress x.

Fixpoint keep_loop (cutoffs : VacuumCutoffs) (members : list MultiXactMember) (v : Survivors)
    : ML Survivors :=
  match members with
  | [] => ret v
  | m :: members =>
      if negb (ISUPDATE_from_mxstatus (status m)) then
        let* p := runs (xid m) in
        if (p : bool) then
          if TransactionIdPrecedes (xid m) (OldestXmin cutoffs) then raise ERROR else
          keep_loop cutoffs members
            {| newmembers := newmembers v ++ [m]; has_lockers := true; update_xid := update_xid v;
               update_committed := update_committed v |}
        else keep_loop cutoffs members v
      else if TransactionIdIsValid (update_xid v) then raise ERROR else
      let* p := runs (xid m) in
      let* c := if (p : bool) then ret false else lk_did_commit (xid m) in
      if p || c then
        if TransactionIdPrecedes (xid m) (OldestXmin cutoffs) then raise ERROR else
        keep_loop cutoffs members
          {| newmembers := newmembers v ++ [m]; has_lockers := has_lockers v; update_xid := xid m;
             update_committed := if (p : bool) then update_committed v else true |}
      else keep_loop cutoffs members v
  end.

(** The second pass, when the multixact has to be replaced. *)
Definition replace_multi (cutoffs : VacuumCutoffs) (members : list MultiXactMember)
    : ML (Z * Z) :=
  let* v := keep_loop cutoffs members
    {| newmembers := []; has_lockers := false; update_xid := InvalidTransactionId;
       update_committed := false |} in
  match newmembers v with
  | [] => ret (InvalidTransactionId, FRM_INVALIDATE_XMAX)
  | new =>
      if TransactionIdIsValid (update_xid v) && negb (has_lockers v) then
        ret (update_xid v, if update_committed v then Z.lor FRM_RETURN_IS_XID FRM_MARK_COMMITTED
                           else FRM_RETURN_IS_XID)
      else
        let* newxmax := lk_create (fun st _ => MultiXactIdCreateFromMembers st new) in
        ret (newxmax, FRM_RETURN_IS_MULTI)
  end.

(** A multixact all of whose members have ended. *)
Definition freeze_old_multi (multi t_infomask : Z) (cutoffs : VacuumCutoffs) : ML (Z * Z) :=
  let* running := lk_ask (fun t =>
    MultiXactIdIsRunning t multi (HEAP_XMAX_IS_LOCKED_ONLY t_infomask)) in
  if (running : bool) then raise ERROR
  else if HEAP_XMAX_IS_LOCKED_ONLY t_infomask then ret (InvalidTransactionId, FRM_INVALIDATE_XMAX)
  else
    let* update_xact := MultiXactIdGetUpdateXid multi in
    if TransactionIdPrecedes update_xact (relfrozenxid cutoffs) then raise ERROR
    else if TransactionIdPrecedes update_xact (OldestXmin cutoffs) then
      let* c := lk_did_commit update_xact in
      if (c : bool) then raise ERROR else ret (InvalidTransactionId, FRM_INVALIDATE_XMAX)
    else ret (update_xact, FRM_RETURN_IS_XID).

(** The new xmax, the flags, and the page state. *)
Definition FreezeMultiXactId (multi t_infomask : Z) (cutoffs : VacuumCutoffs)
    (pagefrz : HeapPageFreeze) : ML (Z * Z * HeapPageFreeze) :=
  if negb (MultiXactIdIsValid multi) || HEAP_LOCKED_UPGRADED t_infomask then
    ret (InvalidTransactionId, FRM_INVALIDATE_XMAX, forced pagefrz)
  else if MultiXactIdPrecedes multi (relminmxid cutoffs) then raise ERROR
  else if MultiXactIdPrecedes multi (OldestMxact cutoffs) then
    let* r := freeze_old_multi multi t_infomask cutoffs in ret (r, forced pagefrz)
  else
    let* members := lk_members multi (HEAP_XMAX_IS_LOCKED_ONLY t_infomask) in
    match members with
    | None | Some [] => ret (InvalidTransactionId, FRM_INVALIDATE_XMAX, forced pagefrz)
    | Some members =>
        let '(need_replace, oldest) := oldest_loop cutoffs members (FreezePageRelfrozenXid pagefrz) in
        let need_replace := need_replace || MultiXactIdPrecedes multi (MultiXactCutoff cutoffs) in
        if negb need_replace then
          ret (multi, FRM_NOOP,
               with_freeze_trackers oldest
                 (if MultiXactIdPrecedes multi (FreezePageRelminMxid pagefrz) then multi
                  else FreezePageRelminMxid pagefrz) pagefrz)
        else
          let* r := replace_multi cutoffs members in ret (r, forced pagefrz)
    end.

(** ** pg_tde_tuple_should_freeze, pg_tde_tuple_needs_eventual_freeze *)

(** The trackers, and whether freezing is forced. *)
Record Tracked := { tr_xid : Z; tr_multi : Z; tr_freeze : bool }.

(** An xid that would stay. *)
Definition track_xid (cutoffs : VacuumCutoffs) (x : Z) (v : Tracked) : Tracked :=
  {| tr_xid := if TransactionIdPrecedes x (tr_xid v) then x else tr_xid v; tr_multi := tr_multi v;
     tr_freeze := tr_freeze v || TransactionIdPrecedes x (FreezeLimit cutoffs) |}.

Definition track_multi (multi : Z) (v : Tracked) : Tracked :=
  {| tr_xid := tr_xid v; tr_multi := if MultiXactIdPrecedes multi (tr_multi v) then multi else tr_multi v;
     tr_freeze := tr_freeze v |}.

Definition track_freeze (b : bool) (v : Tracked) : Tracked :=
  {| tr_xid := tr_xid v; tr_multi := tr_multi v; tr_freeze := tr_freeze v || b |}.

Definition track_xmax (tuple : TupleHeader) (cutoffs : VacuumCutoffs) (v : Tracked) : ML Tracked :=
  let m := t_infomask (fields tuple) in
  let raw := t_xmax (fields tuple) in
  if has m HEAP_XMAX_IS_MULTI then
    if negb (MultiXactIdIsValid raw) then ret v
    else if HEAP_LOCKED_UPGRADED m then ret (track_freeze true (track_multi raw v))
    else
      let v := track_freeze (MultiXactIdPrecedes raw (MultiXactCutoff cutoffs)) (track_multi raw v) in
      let* members := lk_members raw (HEAP_XMAX_IS_LOCKED_ONLY m) in
      ret (foldl (fun v x => track_xid cutoffs (xid x) v) v (default [] members))
  else if TransactionIdIsNormal raw then ret (track_xid cutoffs raw v)
  else ret v.

Definition pg_tde_tuple_should_freeze (tuple : TupleHeader) (cutoffs : VacuumCutoffs)
    (NoFreezePageRelfrozenXid NoFreezePageRelminMxid : Z) : ML (bool * Z * Z) :=
  let v := {| tr_xid := NoFreezePageRelfrozenXid; tr_multi := NoFreezePageRelminMxid;
              tr_freeze := false |} in
  let xmin := HeapTupleHeaderGetXmin (fields tuple) in
  let v := if TransactionIdIsNormal xmin then track_xid cutoffs xmin v else v in
  let* v := track_xmax tuple cutoffs v in
  let xvac := HeapTupleHeaderGetXvac (fields tuple) in
  let v := if has (t_infomask (fields tuple)) HEAP_MOVED && TransactionIdIsNormal xvac
           then track_freeze true
                  {| tr_xid := if TransactionIdPrecedes xvac (tr_xid v) then xvac else tr_xid v;
                     tr_multi := tr_multi v; tr_freeze := tr_freeze v |}
           else v in
  ret (tr_freeze v, tr_xid v, tr_multi v).

Definition pg_tde_tuple_needs_eventual_freeze (tuple : TupleHeader) : bool :=
  let m := t_infomask (fields tuple) in
  let raw := t_xmax (fields tuple) in
  if TransactionIdIsNormal (HeapTupleHeaderGetXmin (fields tuple)) then true
  else if (if has m HEAP_XMAX_IS_MULTI then MultiXactIdIsValid raw else TransactionIdIsNormal raw)
  then true
  else if has m HEAP_MOVED && TransactionIdIsNormal (HeapTupleHeaderGetXvac (fields tuple)) then true
  else false.

(** ** pg_tde_prepare_freeze_tuple *)

(** What is decided about xmax. *)
Record XmaxPlan := {
  xp_xmax : Z;
  xp_infomask : Z;
  xp_infomask2 : Z;
  xp_checkflags : Z;
  replace_xmax : bool;
  freeze_xmax : bool;
  xmax_already_frozen : bool;
}.

Definition prepare_multi_xmax (tuple : TupleHeader) (cutoffs : VacuumCutoffs)
    (pagefrz : HeapPageFreeze) (check : Z) : ML (XmaxPlan * HeapPageFreeze) :=
  let m := t_infomask (fields tuple) in
  let m2 := t_infomask2 tuple in
  let raw := t_xmax (fields tuple) in
  let* r := FreezeMultiXactId raw m cutoffs pagefrz in
  let '(newxmax, flags, pagefrz) := r in
  if has flags FRM_NOOP then
    ret ({| xp_xmax := raw; xp_infomask := m; xp_infomask2 := m2; xp_checkflags := check;
            replace_xmax := false; freeze_xmax := false; xmax_already_frozen := false |}, pagefrz)
  else if has flags FRM_RETURN_IS_XID then
    let m := clear m HEAP_XMAX_BITS in
    let m := if has flags FRM_MARK_COMMITTED then Z.lor m HEAP_XMAX_COMMITTED else m in
    ret ({| xp_xmax := newxmax; xp_infomask := m; xp_infomask2 := m2; xp_checkflags := check;
            replace_xmax := true; freeze_xmax := false; xmax_already_frozen := false |}, pagefrz)
  else if has flags FRM_RETURN_IS_MULTI then
    let m := clear m HEAP_XMAX_BITS in
    let m2 := clear m2 HEAP_KEYS_UPDATED in
    let* bits := GetMultiXactIdHintBits newxmax in
    ret ({| xp_xmax := newxmax; xp_infomask := Z.lor m (fst bits);
            xp_infomask2 := Z.lor m2 (snd bits); xp_checkflags := check;
            replace_xmax := true; freeze_xmax := false; xmax_already_frozen := false |}, pagefrz)
  else
    ret ({| xp_xmax := raw; xp_infomask := m; xp_infomask2 := m2; xp_checkflags := check;
            replace_xmax := false; freeze_xmax := true; xmax_already_frozen := false |}, pagefrz).

Definition prepare_single_xmax (tuple : TupleHeader) (cutoffs : VacuumCutoffs) (check : Z)
    : ML XmaxPlan :=
  let m := t_infomask (fields tuple) in
  let raw := t_xmax (fields tuple) in
  let plan check freeze already :=
    {| xp_xmax := raw; xp_infomask := m; xp_infomask2 := t_infomask2 tuple; xp_checkflags := check;
       replace_xmax := false; freeze_xmax := freeze; xmax_already_frozen := already |} in
  if TransactionIdIsNormal raw then
    if TransactionIdPrecedes raw (relfrozenxid cutoffs) then raise ERROR else
    let freeze := TransactionIdPrecedes raw (OldestXmin cutoffs) in
    ret (plan (if freeze && negb (HEAP_XMAX_IS_LOCKED_ONLY m)
               then Z.lor check HEAP_FREEZE_CHECK_XMAX_ABORTED else check) freeze false)
  else if negb (TransactionIdIsValid raw) then ret (plan check false true)
  else raise ERROR.

(** The masks when xmax goes. *)
Definition invalid_xmax (m : Z) : Z := Z.lor (clear m HEAP_XMAX_BITS) HEAP_XMAX_INVALID.
Definition unmarked (m2 : Z) : Z := clear (clear m2 HEAP_HOT_UPDATED) HEAP_KEYS_UPDATED.

(** The tuple's plan.  [fz_offset] is left for the caller to set. *)
Definition freeze_plan (tuple : TupleHeader) (freeze_xmin replace_xvac : bool) (x : XmaxPlan)
    : HeapTupleFreeze :=
  let m := xp_infomask x in
  let m := if freeze_xmin then Z.lor m HEAP_XMIN_FROZEN else m in
  let flags := if replace_xvac then
                 (if has (t_infomask (fields tuple)) HEAP_MOVED_OFF then XLH_INVALID_XVAC else XLH_FREEZE_XVAC)
               else 0 in
  if freeze_xmax x then
    {| fz_xmax := InvalidTransactionId; fz_infomask2 := unmarked (xp_infomask2 x);
       fz_infomask := invalid_xmax m; frzflags := flags; checkflags := xp_checkflags x;
       fz_offset := 0 |}
  else
    {| fz_xmax := xp_xmax x; fz_infomask2 := xp_infomask2 x; fz_infomask := m;
       frzflags := flags; checkflags := xp_checkflags x; fz_offset := 0 |}.

(** Unless the page is to be frozen anyway: does this tuple force it, and
    how far back do the no-freeze trackers go? *)
Definition consider_page (tuple : TupleHeader) (cutoffs : VacuumCutoffs) (already_frozen : bool)
    (pagefrz : HeapPageFreeze) : ML HeapPageFreeze :=
  if negb (freeze_required pagefrz) && negb already_frozen then
    let* r := pg_tde_tuple_should_freeze tuple cutoffs
                (NoFreezePageRelfrozenXid pagefrz) (NoFreezePageRelminMxid pagefrz) in
    let '(required, rx, rm) := r in
    ret {| freeze_required := required;
           FreezePageRelfrozenXid := FreezePageRelfrozenXid pagefrz;
           FreezePageRelminMxid := FreezePageRelminMxid pagefrz;
           NoFreezePageRelfrozenXid := rx; NoFreezePageRelminMxid := rm |}
  else ret pagefrz.

(** Is there something to freeze, the page state, the tuple's plan, and
    [*totally_frozen]. *)
Definition pg_tde_prepare_freeze_tuple (tuple : TupleHeader) (cutoffs : VacuumCutoffs)
    (pagefrz : HeapPageFreeze) : ML (bool * HeapPageFreeze * HeapTupleFreeze * bool) :=
  let m := t_infomask (fields tuple) in
  let xmin := HeapTupleHeaderGetXmin (fields tuple) in
  let xmin_already_frozen := negb (TransactionIdIsNormal xmin) in
  if negb xmin_already_frozen && TransactionIdPrecedes xmin (relfrozenxid cutoffs) then raise ERROR
  else
  let freeze_xmin := negb xmin_already_frozen && TransactionIdPrecedes xmin (OldestXmin cutoffs) in
  let check := if freeze_xmin then HEAP_FREEZE_CHECK_XMIN_COMMITTED else 0 in
  let replace_xvac := TransactionIdIsNormal (HeapTupleHeaderGetXvac (fields tuple)) in
  let pagefrz := if replace_xvac then forced pagefrz else pagefrz in
  let* x := if has m HEAP_XMAX_IS_MULTI then prepare_multi_xmax tuple cutoffs pagefrz check
            else let* x := prepare_single_xmax tuple cutoffs check in ret (x, pagefrz) in
  let '(x, pagefrz) := x in
  let frz := freeze_plan tuple freeze_xmin replace_xvac x in
  let totally_frozen := (freeze_xmin || xmin_already_frozen)
                        && (freeze_xmax x || xmax_already_frozen x) in
  let* pagefrz := consider_page tuple cutoffs (xmin_already_frozen && xmax_already_frozen x) pagefrz in
  ret (freeze_xmin || replace_xvac || replace_xmax x || freeze_xmax x, pagefrz, frz, totally_frozen).

(** ** Carrying it out *)

Definition pg_tde_execute_freeze_tuple (tuple : TupleHeader) (frz : HeapTupleFreeze) : TupleHeader :=
  let h := fields tuple in
  let xvac := t_field3 h in
  let xvac := if has (frzflags frz) XLH_FREEZE_XVAC then FrozenTransactionId else xvac in
  let xvac := if has (frzflags frz) XLH_INVALID_XVAC then InvalidTransactionId else xvac in
  {| fields := {| t_xmin := t_xmin h; t_xmax := fz_xmax frz; t_field3 := xvac; t_ctid := t_ctid h;
                  t_infomask := fz_infomask frz |};
     t_infomask2 := fz_infomask2 frz |}.

(** Freezing in place, without WAL. *)
Definition pg_tde_freeze_tuple (tuple : TupleHeader) (relfrozenxid relminmxid FreezeLimit MultiXactCutoff : Z)
    : ML (bool * TupleHeader) :=
  let cutoffs := {| Freeze.relfrozenxid := relfrozenxid; Freeze.relminmxid := relminmxid;
                    OldestXmin := FreezeLimit; OldestMxact := MultiXactCutoff;
                    Freeze.FreezeLimit := FreezeLimit; Freeze.MultiXactCutoff := MultiXactCutoff |} in
  let pagefrz := {| freeze_required := true; FreezePageRelfrozenXid := FreezeLimit;
                    FreezePageRelminMxid := MultiXactCutoff; NoFreezePageRelfrozenXid := FreezeLimit;
                    NoFreezePageRelminMxid := MultiXactCutoff |} in
  let* r := pg_tde_prepare_freeze_tuple tuple cutoffs pagefrz in
  let '(do_freeze, _, frz, _) := r in
  ret (do_freeze, if do_freeze then pg_tde_execute_freeze_tuple tuple frz else tuple).

(** ** The WAL record *)

Definition cmp_Z (a b : Z) (rest : Z) : Z := if a <? b then -1 else if b <? a then 1 else rest.

Definition pg_tde_log_freeze_cmp (frz1 frz2 : HeapTupleFreeze) : Z :=
  cmp_Z (fz_xmax frz1) (fz_xmax frz2)
  (cmp_Z (fz_infomask2 frz1) (fz_infomask2 frz2)
  (cmp_Z (fz_infomask frz1) (fz_infomask frz2)
  (cmp_Z (frzflags frz1) (frzflags frz2)
  (cmp_Z (fz_offset frz1) (fz_offset frz2) 0)))).

Definition pg_tde_log_freeze_eq (plan : xl_pg_tde_freeze_plan) (frz : HeapTupleFreeze) : bool :=
  (pl_xmax plan =? fz_xmax frz) && (pl_infomask2 plan =? fz_infomask2 frz)
  && (pl_infomask plan =? fz_infomask frz) && (pl_frzflags plan =? frzflags frz).

Definition pg_tde_log_freeze_new_plan (frz : HeapTupleFreeze) : xl_pg_tde_freeze_plan :=
  {| pl_xmax := fz_xmax frz; pl_infomask2 := fz_infomask2 frz; pl_infomask := fz_infomask frz;
     pl_frzflags := frzflags frz; pl_ntuples := 1 |}.

Definition one_more (plan : xl_pg_tde_freeze_plan) : xl_pg_tde_freeze_plan :=
  {| pl_xmax := pl_xmax plan; pl_infomask2 := pl_infomask2 plan; pl_infomask := pl_infomask plan;
     pl_frzflags := pl_frzflags plan; pl_ntuples := u16 (pl_ntuples plan + 1) |}.

(** The loop over the sorted tuples, with the plan that is open. *)
Fixpoint log_loop (plan : xl_pg_tde_freeze_plan) (tuples : list HeapTupleFreeze)
    : list xl_pg_tde_freeze_plan * list Z :=
  match tuples with
  | [] => ([plan], [])
  | frz :: tuples =>
      if pg_tde_log_freeze_eq plan frz then
        let '(plans, offsets) := log_loop (one_more plan) tuples in
        (plans, fz_offset frz :: offsets)
      else
        let '(plans, offsets) := log_loop (pg_tde_log_freeze_new_plan frz) tuples in
        (plan :: plans, fz_offset frz :: offsets)
  end.

(** [qsort] with the comparator. *)
Definition freeze_le (frz1 frz2 : HeapTupleFreeze) : Prop := pg_tde_log_freeze_cmp frz1 frz2 <= 0.
#[export] Instance freeze_le_dec frz1 frz2 : Decision (freeze_le frz1 frz2).
Proof. unfold freeze_le. apply _. Defined.
Definition sort_plans (tuples : list HeapTupleFreeze) : list HeapTupleFreeze :=
  merge_sort freeze_le tuples.

(** The plans and the offsets. *)
Definition pg_tde_log_freeze_plan (tuples : list HeapTupleFreeze)
    : list xl_pg_tde_freeze_plan * list Z :=
  match sort_plans tuples with
  | [] => ([], [])
  | frz :: tuples =>
      let '(plans, offsets) := log_loop (pg_tde_log_freeze_new_plan frz) tuples in
      (plans, fz_offset frz :: offsets)
  end.

(** ** The page *)

Record FreezeState := {
  fs_clock : nat;
  htups : gmap Z TupleHeader;
  fs_dirty : bool;
  fs_lsn : Z;
  fs_wal : list xl_pg_tde_freeze_page;
  fs_conflicts : list (Z * bool);   (** ResolveRecoveryConflictWithSnapshot *)
}.

Local Abbreviation MF := (M FreezeState).

Definition with_htups (h : gmap Z TupleHeader) (s : FreezeState) : FreezeState :=
  {| fs_clock := fs_clock s; htups := h; fs_dirty := fs_dirty s; fs_lsn := fs_lsn s;
     fs_wal := fs_wal s; fs_conflicts := fs_conflicts s |}.
Definition with_fs_lsn (lsn : Z) (wal : list xl_pg_tde_freeze_page) (s : FreezeState) : FreezeState :=
  {| fs_clock := fs_clock s; htups := htups s; fs_dirty := fs_dirty s; fs_lsn := lsn;
     fs_wal := wal; fs_conflicts := fs_conflicts s |}.
Definition with_fs_dirty (s : FreezeState) : FreezeState :=
  {| fs_clock := fs_clock s; htups := htups s; fs_dirty := true; fs_lsn := fs_lsn s;
     fs_wal := fs_wal s; fs_conflicts := fs_conflicts s |}.
Definition with_conflict (c : Z * bool) (s : FreezeState) : FreezeState :=
  {| fs_clock := fs_clock s; htups := htups s; fs_dirty := fs_dirty s; fs_lsn := fs_lsn s;
     fs_wal := fs_wal s; fs_conflicts := fs_conflicts s ++ [c] |}.

Definition fs_did_commit (x : Z) : MF bool := fun s =>
  (Ret (TransactionIdDidCommit (fs_clock s) x),
   {| fs_clock := S (fs_clock s); htups := htups s; fs_dirty := fs_dirty s; fs_lsn := fs_lsn s;
      fs_wal := fs_wal s; fs_conflicts := fs_conflicts s |}).

(** The tuple of a line pointer. *)
Definition tuple_of (offset : Z) : MF TupleHeader :=
  let* h := gets htups in defined (h !! offset).

(** The checks before the critical section: a tuple's, and the loop. *)
Definition check_tuple (frz : HeapTupleFreeze) : MF unit :=
  let* htup := tuple_of (fz_offset frz) in
  (if has (checkflags frz) HEAP_FREEZE_CHECK_XMIN_COMMITTED then
     let* c := fs_did_commit (t_xmin (fields htup)) in
     if (c : bool) then ret tt else raise ERROR
   else ret tt);;;
  (if has (checkflags frz) HEAP_FREEZE_CHECK_XMAX_ABORTED then
     let* c := fs_did_commit (t_xmax (fields htup)) in
     if (c : bool) then raise ERROR else ret tt
   else ret tt).

Fixpoint check_loop (tuples : list HeapTupleFreeze) : MF unit :=
  match tuples with
  | [] => ret tt
  | frz :: tuples => check_tuple frz;;; check_loop tuples
  end.

(** Freeze the tuple at an offset. *)
Definition freeze_at (offset : Z) (frz : HeapTupleFreeze) (h : gmap Z TupleHeader)
    : option (gmap Z TupleHeader) :=
  match h !! offset with
  | Some htup => Some (<[offset := pg_tde_execute_freeze_tuple htup frz]> h)
  | None => None
  end.

Fixpoint execute_loop (tuples : list HeapTupleFreeze) (h : gmap Z TupleHeader)
    : option (gmap Z TupleHeader) :=
  match tuples with
  | [] => Some h
  | frz :: tuples => match freeze_at (fz_offset frz) frz h with
                     | Some h => execute_loop tuples h
                     | None => None
                     end
  end.

Definition pg_tde_freeze_execute_prepared (snapshotConflictHorizon : Z)
    (tuples : list HeapTupleFreeze) : MF unit :=
  check_loop tuples;;;
  let* h := gets htups in
  let* h := defined (execute_loop tuples h) in
  modify (with_htups h);;;
  modify with_fs_dirty;;;
  if RelationNeedsWAL then
    if (MaxHeapTuplesPerPage <? length tuples)%nat then undefined else
    let '(plans, offsets) := pg_tde_log_freeze_plan tuples in
    modify (fun s => with_fs_lsn (XLogInsert_ptr (length (fs_wal s)))
      (fs_wal s ++ [{| fp_snapshotConflictHorizon := snapshotConflictHorizon;
                       fp_nplans := u16 (Z.of_nat (length plans));
                       fp_isCatalogRel := RelationIsAccessibleInLogicalDecoding;
                       fp_plans := plans; fp_offsets := offsets |}]) s)
  else ret tt.

(** ** Replay *)

(** The tuple plan of a plan of the record. *)
Definition plan_freeze (p : xl_pg_tde_freeze_plan) : HeapTupleFreeze :=
  {| fz_xmax := pl_xmax p; fz_infomask2 := pl_infomask2 p; fz_infomask := pl_infomask p;
     frzflags := pl_frzflags p; checkflags := 0; fz_offset := 0 |}.

(** [n] tuples of a plan: what is left of the offsets, and the page. *)
Fixpoint redo_plan (n : nat) (frz : HeapTupleFreeze) (offsets : list Z) (h : gmap Z TupleHeader)
    : option (list Z * gmap Z TupleHeader) :=
  match n with
  | O => Some (offsets, h)
  | S n => match offsets with
           | o :: offsets => match freeze_at o frz h with
                             | Some h => redo_plan n frz offsets h
                             | None => None
                             end
           | [] => None
           end
  end.

Fixpoint redo_plans (plans : list xl_pg_tde_freeze_plan) (offsets : list Z) (h : gmap Z TupleHeader)
    : option (gmap Z TupleHeader) :=
  match plans with
  | [] => Some h
  | p :: plans => match redo_plan (Z.to_nat (pl_ntuples p)) (plan_freeze p) offsets h with
                  | Some (offsets, h) => redo_plans plans offsets h
                  | None => None
                  end
  end.

Definition pg_tde_xlog_freeze_page (action : XLogRedoAction) (lsn : Z) (r : xl_pg_tde_freeze_page)
    : MF unit :=
  (if InHotStandby
   then modify (with_conflict (fp_snapshotConflictHorizon r, fp_isCatalogRel r)) else ret tt);;;
  match action with
  | BLK_NEEDS_REDO =>
      let* h := gets htups in
      let* h := defined (redo_plans (take (Z.to_nat (fp_nplans r)) (fp_plans r)) (fp_offsets r) h) in
      modify (with_htups h);;;
      modify (fun s => with_fs_lsn lsn (fs_wal s) s);;;
      modify with_fs_dirty
  | _ => ret tt
  end.
End freeze.
