(* ===== verification/FreezePage.v ===== *)
(** Freezing the tuples of a page: the record, which groups the tuples by
    plan and loses nothing, the checks, the tuples, and the page a standby
    gets from the record. *)
From stdpp Require Import sorting.
From S2P Require Import Prelude Visibility VisibilityProps Prune HotChain PagePrune LockFlags MultiXact Freeze.

Section log.
Context `{HH : HtupFlags}.

(** What freezing a tuple depends on. *)
Definition same_steps (f g : HeapTupleFreeze) : Prop :=
  fz_xmax f = fz_xmax g /\ fz_infomask2 f = fz_infomask2 g
  /\ fz_infomask f = fz_infomask g /\ frzflags f = frzflags g.

Lemma same_steps_execute f g tuple : same_steps f g ->
  pg_tde_execute_freeze_tuple tuple f = pg_tde_execute_freeze_tuple tuple g.
Proof. intros (H1 & H2 & H3 & H4). unfold pg_tde_execute_freeze_tuple. by rewrite H1, H2, H3, H4. Qed.

Lemma same_steps_at o f g h : same_steps f g -> freeze_at o f h = freeze_at o g h.
Proof. intros H. unfold freeze_at. destruct (h !! o); [by rewrite (same_steps_execute f g)|done]. Qed.

(** ** The order of the tuples does not matter *)

Lemma freeze_at_comm o1 f1 o2 f2 h : o1 <> o2 ->
  (h1 ← freeze_at o1 f1 h; freeze_at o2 f2 h1) = (h1 ← freeze_at o2 f2 h; freeze_at o1 f1 h1).
Proof.
  intros Hne. unfold freeze_at.
  destruct (h !! o1) eqn:E1, (h !! o2) eqn:E2; cbn;
    rewrite ?lookup_insert_ne, ?E1, ?E2 by done; try done.
  by rewrite insert_insert_ne by done.
Qed.

Lemma execute_cons frz tuples h :
  execute_loop (frz :: tuples) h = (h' ← freeze_at (fz_offset frz) frz h; execute_loop tuples h').
Proof. cbn. by destruct (freeze_at _ _ _). Qed.

Lemma execute_app l1 l2 h :
  execute_loop (l1 ++ l2) h = (h' ← execute_loop l1 h; execute_loop l2 h').
Proof.
  revert h. induction l1 as [|frz l1 IH]; intros h; [done|]. cbn [app].
  rewrite !execute_cons. destruct (freeze_at _ _ _); cbn; [apply IH|done].
Qed.

Lemma execute_perm l1 l2 h : l1 ≡ₚ l2 -> NoDup (fz_offset <$> l1) ->
  execute_loop l1 h = execute_loop l2 h.
Proof.
  intros Hp. revert h. induction Hp as [|frz l1 l2 Hp IH|f g l|l1 l2 l3 Hp1 IH1 Hp2 IH2]; intros h Hnd.
  - done.
  - rewrite !execute_cons. apply NoDup_cons in Hnd as [_ Hnd].
    destruct (freeze_at _ _ _); cbn; [by apply IH|done].
  - apply NoDup_cons in Hnd as [Hne _]. rewrite !execute_cons.
    assert (Hfg : fz_offset f <> fz_offset g) by (intros E; apply Hne; rewrite E; by left).
    pose proof (freeze_at_comm (fz_offset g) g (fz_offset f) f h ltac:(congruence)) as Hc.
    destruct (freeze_at (fz_offset g) g h) as [hg|], (freeze_at (fz_offset f) f h) as [hf|];
      cbn [mbind option_bind] in *; rewrite ?execute_cons, ?Hc; try done; by rewrite <- Hc.
  - rewrite IH1 by done. apply IH2. by rewrite <- Hp1.
Qed.

(** ** One plan for many tuples *)

(** The tuple plans a plan stands for. *)
Definition at_offset (f : HeapTupleFreeze) (o : Z) : HeapTupleFreeze :=
  {| fz_xmax := fz_xmax f; fz_infomask2 := fz_infomask2 f; fz_infomask := fz_infomask f;
     frzflags := frzflags f; checkflags := checkflags f; fz_offset := o |}.

Lemma freeze_at_offset f o h : freeze_at o (at_offset f o) h = freeze_at o f h.
Proof. by apply same_steps_at. Qed.

Lemma redo_plan_spec f os rest h :
  redo_plan (length os) f (os ++ rest) h = (h' ← execute_loop (at_offset f <$> os) h; Some (rest, h')).
Proof.
  revert h. induction os as [|o os IH]; intros h; [done|]. cbn [length redo_plan app].
  rewrite fmap_cons, execute_cons. cbn [fz_offset at_offset]. rewrite freeze_at_offset.
  destruct (freeze_at o f h); cbn; [apply IH|done].
Qed.

Lemma execute_same_steps l1 l2 h :
  Forall2 (fun f g => same_steps f g /\ fz_offset f = fz_offset g) l1 l2 ->
  execute_loop l1 h = execute_loop l2 h.
Proof.
  intros H. revert h. induction H as [|f g l1 l2 [Hs Ho] _ IH]; intros h; [done|].
  rewrite !execute_cons, Ho, (same_steps_at _ f g) by done.
  destruct (freeze_at _ _ _); cbn; [apply IH|done].
Qed.

Lemma log_eq_steps plan frz : pg_tde_log_freeze_eq plan frz = true <-> same_steps (plan_freeze plan) frz.
Proof. unfold pg_tde_log_freeze_eq, same_steps. cbn. rewrite !andb_true_iff, !Z.eqb_eq. tauto. Qed.

Lemma redo_plans_cons plan plans before offsets h : pl_ntuples plan = Z.of_nat (length before) ->
  redo_plans (plan :: plans) (before ++ offsets) h
  = (h' ← execute_loop (at_offset (plan_freeze plan) <$> before) h; redo_plans plans offsets h').
Proof.
  intros Hn. cbn [redo_plans]. rewrite Hn, Nat2Z.id, redo_plan_spec.
  by destruct (execute_loop _ h).
Qed.

(** The open plan stands for the tuples [before]; the rest of the loop
    adds those that are left. *)
Lemma log_loop_redo tuples : forall plan before plans offsets h,
  log_loop plan tuples = (plans, offsets) ->
  pl_ntuples plan = Z.of_nat (length before) ->
  Z.of_nat (length before + length tuples) < 65536 ->
  redo_plans plans (before ++ offsets) h
  = (h' ← execute_loop (at_offset (plan_freeze plan) <$> before) h; execute_loop tuples h').
Proof.
  induction tuples as [|frz tuples IH]; intros plan before plans offsets h E Hn Hmax; cbn [log_loop] in E.
  - injection E as <- <-. by rewrite redo_plans_cons by done.
  - cbn [length] in Hmax. destruct (pg_tde_log_freeze_eq plan frz) eqn:Eeq.
    + destruct (log_loop (one_more plan) tuples) as [plans' offs'] eqn:El. injection E as <- <-.
      rewrite cons_middle, app_assoc, (IH (one_more plan) _ _ _ h El).
      2:{ cbn. rewrite Hn, length_app. cbn. unfold u16. rewrite Z.mod_small; lia. }
      2:{ rewrite length_app. cbn. lia. }
      rewrite fmap_app, execute_app, option_bind_assoc. apply option_bind_ext_fun. intros h1.
      cbn [fmap list_fmap compose]. rewrite !execute_cons. cbn [fz_offset at_offset].
      rewrite freeze_at_offset, (same_steps_at _ (plan_freeze (one_more plan)) frz)
        by by apply log_eq_steps.
      by destruct (freeze_at _ _ h1).
    + destruct (log_loop (pg_tde_log_freeze_new_plan frz) tuples) as [plans' offs'] eqn:El.
      injection E as <- <-. rewrite redo_plans_cons by done. apply option_bind_ext_fun. intros h1.
      change (fz_offset frz :: offs') with ([fz_offset frz] ++ offs').
      rewrite (IH _ _ _ _ h1 El) by (cbn; lia). cbn [fmap list_fmap]. rewrite !execute_cons.
      cbn [fz_offset at_offset]. rewrite freeze_at_offset, (same_steps_at _ _ frz) by done.
      by destruct (freeze_at _ _ h1).
Qed.

Lemma log_plan_redo tuples plans offsets h :
  pg_tde_log_freeze_plan tuples = (plans, offsets) ->
  NoDup (fz_offset <$> tuples) -> Z.of_nat (length tuples) < 65536 ->
  redo_plans plans offsets h = execute_loop tuples h.
Proof.
  intros E Hnd Hmax. assert (Hp : tuples ≡ₚ sort_plans tuples) by (symmetry; apply merge_sort_Permutation).
  rewrite (execute_perm _ _ h Hp Hnd). rewrite Hp in Hmax. unfold pg_tde_log_freeze_plan in E.
  destruct (sort_plans tuples) as [|frz l]; [by injection E as <- <-|].
  destruct (log_loop _ l) as [plans' offs'] eqn:El. injection E as <- <-.
  change (fz_offset frz :: offs') with ([fz_offset frz] ++ offs').
  rewrite (log_loop_redo _ _ _ _ _ h El) by (cbn in *; lia). cbn [fmap list_fmap].
  rewrite !execute_cons. cbn [fz_offset at_offset]. rewrite freeze_at_offset, (same_steps_at _ _ frz) by done.
  by destruct (freeze_at _ _ h).
Qed.

(** ** Every plan once *)

Definition steps (plan : xl_pg_tde_freeze_plan) : Z * Z * Z * Z :=
  (pl_xmax plan, pl_infomask2 plan, pl_infomask plan, pl_frzflags plan).

(** The order of the steps, without the offsets. *)
Definition key_cmp (f g : HeapTupleFreeze) : Z :=
  cmp_Z (fz_xmax f) (fz_xmax g) (cmp_Z (fz_infomask2 f) (fz_infomask2 g)
    (cmp_Z (fz_infomask f) (fz_infomask g) (cmp_Z (frzflags f) (frzflags g) 0))).

Ltac cmp_cases := unfold freeze_le, pg_tde_log_freeze_cmp, key_cmp, cmp_Z in *;
  repeat case_match; rewrite ?Z.ltb_lt, ?Z.ltb_ge in *.

#[export] Instance freeze_le_total : Total freeze_le.
Proof. intros f g. cmp_cases; lia. Qed.

#[export] Instance freeze_le_trans : Transitive freeze_le.
Proof. intros f g k H1 H2. cmp_cases; lia. Qed.

Lemma freeze_le_key f g : freeze_le f g -> key_cmp f g <= 0.
Proof. intros H. cmp_cases; lia. Qed.

Lemma key_antisym f g : key_cmp f g <= 0 -> key_cmp g f <= 0 -> same_steps f g.
Proof. intros H1 H2. unfold same_steps. cmp_cases; lia. Qed.

Lemma key_trans f g k : key_cmp f g <= 0 -> key_cmp g k <= 0 -> key_cmp f k <= 0.
Proof. intros H1 H2. cmp_cases; lia. Qed.

Lemma key_same f g k : same_steps g k -> key_cmp f g = key_cmp f k.
Proof. intros (H1 & H2 & H3 & H4). unfold key_cmp. by rewrite H1, H2, H3, H4. Qed.

Lemma steps_same p q : steps p = steps q -> same_steps (plan_freeze p) (plan_freeze q).
Proof. unfold steps, same_steps. cbn. intros [= -> -> -> ->]. by split_and!. Qed.

Lemma log_loop_distinct tuples : forall plan plans offsets,
  log_loop plan tuples = (plans, offsets) ->
  StronglySorted freeze_le tuples ->
  Forall (fun f => key_cmp (plan_freeze plan) f <= 0) tuples ->
  NoDup (steps <$> plans) /\ Forall (fun p => key_cmp (plan_freeze plan) (plan_freeze p) <= 0) plans.
Proof.
  assert (Hrefl : forall f, key_cmp f f <= 0) by (intros f; cmp_cases; lia).
  induction tuples as [|frz tuples IH]; intros plan plans offsets E Hs Hle; cbn [log_loop] in E.
  - injection E as <- <-. split; [apply NoDup_singleton|]. by constructor.
  - apply StronglySorted_cons in Hs as [Hfrz Hs]. apply Forall_cons in Hle as [Hle1 Hle].
    destruct (pg_tde_log_freeze_eq plan frz) eqn:Eeq.
    + destruct (log_loop (one_more plan) tuples) as [plans' offs'] eqn:El. injection E as <- <-.
      by apply (IH _ _ _ El).
    + destruct (log_loop (pg_tde_log_freeze_new_plan frz) tuples) as [plans' offs'] eqn:El.
      injection E as <- <-.
      destruct (IH _ _ _ El Hs) as [Hnd Hall].
      { eapply Forall_impl; [exact Hfrz|]. intros f Hf. by apply freeze_le_key in Hf. }
      split; [|constructor; [done|]].
      * rewrite fmap_cons. apply NoDup_cons. split; [|done]. intros (p & Ep & Hp)%list_elem_of_fmap.
        rewrite Forall_forall in Hall. specialize (Hall p Hp).
        rewrite (key_same _ _ (plan_freeze plan)) in Hall by by apply steps_same.
        assert (Hss : same_steps (plan_freeze plan) frz) by by apply key_antisym.
        apply log_eq_steps in Hss. congruence.
      * eapply Forall_impl; [exact Hall|]. intros p Hp. by eapply key_trans.
Qed.

Lemma log_plan_distinct tuples plans offsets :
  pg_tde_log_freeze_plan tuples = (plans, offsets) -> NoDup (steps <$> plans).
Proof.
  unfold pg_tde_log_freeze_plan.
  pose proof (StronglySorted_merge_sort freeze_le tuples : StronglySorted freeze_le (sort_plans tuples)) as Hs.
  destruct (sort_plans tuples) as [|frz l]; [intros [= <- <-]; constructor|].
  destruct (log_loop _ l) as [plans' offs'] eqn:El. intros [= <- <-].
  apply StronglySorted_cons in Hs as [Hfrz Hs].
  apply (log_loop_distinct _ _ _ _ El Hs).
  eapply Forall_impl; [exact Hfrz|]. intros f Hf. by apply freeze_le_key in Hf.
Qed.
End log.

Section page.
Context `{HH : HtupFlags} `{HHL : !HtupFlagsLaws} `{HW : World} `{HWL : !WorldLaws}.
Context `{HLP : LinePointers} `{HPE : PruneEnv}.

(** ** The checks *)

(** The checks of a tuple plan hold from the moment [t] on. *)
Definition checks_pass (t : nat) (htup : TupleHeader) (frz : HeapTupleFreeze) : Prop :=
  (has (checkflags frz) HEAP_FREEZE_CHECK_XMIN_COMMITTED = true ->
     TransactionIdDidCommit t (t_xmin (fields htup)) = true)
  /\ (has (checkflags frz) HEAP_FREEZE_CHECK_XMAX_ABORTED = true ->
     forall t', (t <= t')%nat -> TransactionIdDidCommit t' (t_xmax (fields htup)) = false).

(** One of them fails, and goes on failing. *)
Definition check_fails (t : nat) (htup : TupleHeader) (frz : HeapTupleFreeze) : Prop :=
  (has (checkflags frz) HEAP_FREEZE_CHECK_XMIN_COMMITTED = true
     /\ forall t', (t <= t')%nat -> TransactionIdDidCommit t' (t_xmin (fields htup)) = false)
  \/ (has (checkflags frz) HEAP_FREEZE_CHECK_XMAX_ABORTED = true
     /\ TransactionIdDidCommit t (t_xmax (fields htup)) = true).

Lemma checks_pass_later t t' htup frz : (t <= t')%nat ->
  checks_pass t htup frz -> checks_pass t' htup frz.
Proof.
  intros Ht [H1 H2]. split; intros H.
  - eapply commit_stable; [exact Ht|by apply H1].
  - intros t'' Ht'. apply H2; [done|lia].
Qed.

(** Only time has passed. *)
Definition later (s s' : FreezeState) : Prop :=
  (fs_clock s <= fs_clock s')%nat /\ htups s' = htups s /\ fs_dirty s' = fs_dirty s
  /\ fs_lsn s' = fs_lsn s /\ fs_wal s' = fs_wal s /\ fs_conflicts s' = fs_conflicts s.

#[export] Instance later_preorder : PreOrder later.
Proof. split; [intros s; by split_and!|]. unfold later. intros s1 s2 s3 ? ?. destruct_and!. split_and!; [lia|congruence..]. Qed.

Definition checkable (s : FreezeState) (frz : HeapTupleFreeze) : Prop :=
  exists htup, htups s !! fz_offset frz = Some htup /\ checks_pass (fs_clock s) htup frz.

Lemma checkable_later s s' frz : later s s' -> checkable s frz -> checkable s' frz.
Proof.
  intros (Ht & Hh & _) (htup & E & Hc). exists htup. rewrite Hh. split; [done|].
  by eapply checks_pass_later.
Qed.

(** A check passes, or raises an error; time is all that changes. *)
Lemma check_tuple_spec s frz htup : htups s !! fz_offset frz = Some htup ->
  exists r s', check_tuple frz s = (r, s') /\ later s s'
    /\ ((r = Ret tt /\ ~ check_fails (fs_clock s) htup frz)
        \/ (r = Raise ERROR /\ ~ checks_pass (fs_clock s) htup frz)).
Proof.
  intros E. unfold check_tuple, tuple_of, bind at 1 2, gets. rewrite E.
  unfold fs_did_commit, checks_pass, check_fails, bind, ret, raise, defined.
  destruct (has _ HEAP_FREEZE_CHECK_XMIN_COMMITTED) eqn:Ei,
    (has _ HEAP_FREEZE_CHECK_XMAX_ABORTED) eqn:Ea; cbn.
  all: try (destruct (TransactionIdDidCommit _ (t_xmin _)) eqn:Ec; cbn).
  all: try (destruct (TransactionIdDidCommit _ (t_xmax _)) eqn:Ed; cbn).
  all: do 2 eexists; split; [reflexivity|split];
    [|first [left; split; [reflexivity|]; intros [[Hi Hn]|[Ha Hn]]
            |right; split; [reflexivity|]; intros [H1 H2]]].
  all: try (unfold later; split_and!; cbn; solve [done|lia]).
  all: try (by rewrite Hn in Ec by lia).
  all: try (apply (commit_stable _ (S (fs_clock s))) in Hn; [congruence|lia]).
  all: try (specialize (H1 eq_refl); congruence).
  all: try (rewrite H2 in Ed; [done|done|lia]).
  all: discriminate.
Qed.

Lemma check_loop_wp tuples s : Forall (checkable s) tuples ->
  wp (check_loop tuples) (fun _ s' => later s s') s.
Proof.
  revert s. induction tuples as [|frz tuples IH]; intros s Hall; cbn [check_loop]; [by wps|].
  apply Forall_cons in Hall as [(htup & E & Hc) Hall]. apply wp_bind.
  destruct (check_tuple_spec s frz htup E) as (r & s' & Er & Hl & [[-> _]|[_ Hn]]); [|done].
  eapply wp_of_run; [exact Er|]. eapply wp_mono; [apply IH|by intros ? s'' ?; transitivity s'].
  eapply Forall_impl; [exact Hall|]. intros f. by apply checkable_later.
Qed.

Lemma check_fails_later t t' htup frz : (t <= t')%nat -> check_fails t htup frz -> check_fails t' htup frz.
Proof.
  intros Ht [[H1 H2]|[H1 H2]]; [left|right]; (split; [done|]).
  - intros t'' Ht'. apply H2. lia.
  - by eapply commit_stable.
Qed.

(** Some check fails: an error, and time is all that has changed. *)
Lemma check_loop_fails tuples s frz htup :
  Forall (fun f => is_Some (htups s !! fz_offset f)) tuples ->
  frz ∈ tuples -> htups s !! fz_offset frz = Some htup -> check_fails (fs_clock s) htup frz ->
  exists s', check_loop tuples s = (Raise ERROR, s') /\ later s s'.
Proof.
  revert s. induction tuples as [|f tuples IH]; intros s Hall Hin E Hf; [by apply elem_of_nil in Hin|].
  apply Forall_cons in Hall as [[h Eh] Hall]. cbn [check_loop].
  destruct (check_tuple_spec s f h Eh) as (r & s' & Er & Hl & [[-> Hn]|[-> _]]).
  2:{ exists s'. by rewrite (bind_Raise _ _ _ _ _ Er). }
  rewrite (bind_Ret _ _ _ _ _ Er). pose proof Hl as (Ht & Hh & _).
  destruct (IH s') as (s'' & Er' & Hl'').
  - by rewrite Hh.
  - apply elem_of_cons in Hin as [->|?]; [|done]. destruct Hn. congruence.
  - by rewrite Hh.
  - by eapply check_fails_later.
  - exists s''. split; [done|by transitivity s'].
Qed.

(** ** The tuples *)

Lemma execute_lookup tuples h h' : execute_loop tuples h = Some h' -> NoDup (fz_offset <$> tuples) ->
  (forall frz, frz ∈ tuples ->
     h' !! fz_offset frz = (fun t => pg_tde_execute_freeze_tuple t frz) <$> h !! fz_offset frz)
  /\ (forall o, o ∉ fz_offset <$> tuples -> h' !! o = h !! o).
Proof.
  revert h. induction tuples as [|f tuples IH]; intros h E Hnd.
  { injection E as <-. split; [by intros frz ?%elem_of_nil|done]. }
  rewrite execute_cons in E. rewrite fmap_cons in Hnd |- *. apply NoDup_cons in Hnd as [Hne Hnd].
  unfold freeze_at in E. destruct (h !! fz_offset f) as [t|] eqn:Et; [|done]. cbn in E.
  destruct (IH _ E Hnd) as [H1 H2]. split.
  - intros frz [->|Hin]%elem_of_cons.
    + rewrite H2, lookup_insert_eq, Et by done. done.
    + rewrite H1 by done. rewrite lookup_insert_ne; [done|]. intros Eo. apply Hne. rewrite Eo.
      by apply list_elem_of_fmap_2.
  - intros o Ho. apply not_elem_of_cons in Ho as [Ho1 Ho2]. rewrite H2 by done.
    by rewrite lookup_insert_ne.
Qed.

Lemma execute_total tuples h : Forall (fun f => is_Some (h !! fz_offset f)) tuples ->
  is_Some (execute_loop tuples h).
Proof.
  revert h. induction tuples as [|f tuples IH]; intros h Hall; [done|].
  apply Forall_cons in Hall as [[t Et] Hall]. rewrite execute_cons. unfold freeze_at. rewrite Et. cbn.
  apply IH. eapply Forall_impl; [exact Hall|]. intros g Hg. rewrite lookup_insert_is_Some'. by right.
Qed.

(** ** The whole routine *)

(** The record of a page. *)
Definition freeze_record (horizon : Z) (tuples : list HeapTupleFreeze) : xl_pg_tde_freeze_page :=
  let '(plans, offsets) := pg_tde_log_freeze_plan tuples in
  {| fp_snapshotConflictHorizon := horizon; fp_nplans := u16 (Z.of_nat (length plans));
     fp_isCatalogRel := RelationIsAccessibleInLogicalDecoding;
     fp_plans := plans; fp_offsets := offsets |}.

Lemma execute_prepared_wp horizon tuples s h' :
  Forall (checkable s) tuples -> execute_loop tuples (htups s) = Some h' ->
  (length tuples <= MaxHeapTuplesPerPage)%nat ->
  wp (pg_tde_freeze_execute_prepared horizon tuples)
    (fun _ s' => htups s' = h' /\ fs_dirty s' = true
       /\ if RelationNeedsWAL then fs_wal s' = fs_wal s ++ [freeze_record horizon tuples]
                                    /\ fs_lsn s' = XLogInsert_ptr (length (fs_wal s))
          else fs_wal s' = fs_wal s /\ fs_lsn s' = fs_lsn s) s.
Proof.
  intros Hall E Hlen. unfold pg_tde_freeze_execute_prepared, freeze_record. apply wp_bind.
  eapply wp_mono; [by apply check_loop_wp|]. intros _ s1 (Ht & Hh & Hd & Hl & Hw & Hc). wps.
  rewrite Hh. apply (wp_defined _ h'); [done|]. wps. destruct RelationNeedsWAL; [|by wps].
  rewrite (proj2 (Nat.ltb_ge _ _)) by done.
  destruct (pg_tde_log_freeze_plan tuples) as [plans offsets]. wps. cbn. by rewrite Hw.
Qed.

Lemma log_loop_length tuples plan : (length (log_loop plan tuples).1 <= S (length tuples))%nat.
Proof.
  revert plan. induction tuples as [|f tuples IH]; intros plan; cbn [log_loop length]; [cbn; lia|].
  destruct (pg_tde_log_freeze_eq plan f).
  - specialize (IH (one_more plan)). destruct (log_loop _ tuples). cbn in *. lia.
  - specialize (IH (pg_tde_log_freeze_new_plan f)). destruct (log_loop _ tuples). cbn in *. lia.
Qed.

Lemma log_plan_length tuples plans offsets : pg_tde_log_freeze_plan tuples = (plans, offsets) ->
  (length plans <= length tuples)%nat.
Proof.
  unfold pg_tde_log_freeze_plan.
  assert (Hp : sort_plans tuples ≡ₚ tuples) by apply sorting.merge_sort_Permutation.
  apply Permutation_length in Hp. rewrite <- Hp. clear Hp.
  destruct (sort_plans tuples) as [|f l]; [by intros [= <- <-]; cbn|].
  pose proof (log_loop_length l (pg_tde_log_freeze_new_plan f)) as Hl.
  destruct (log_loop _ l) as [plans' offs']. intros [= <- <-]. cbn in *. lia.
Qed.

(** Replay does the same to the same tuples. *)
Lemma replay_wp horizon tuples lsn h' (t : FreezeState) :
  NoDup (fz_offset <$> tuples) -> Z.of_nat (length tuples) < 65536 ->
  execute_loop tuples (htups t) = Some h' ->
  wp (pg_tde_xlog_freeze_page BLK_NEEDS_REDO lsn (freeze_record horizon tuples))
    (fun _ t' => htups t' = h' /\ fs_lsn t' = lsn /\ fs_dirty t' = true /\ fs_wal t' = fs_wal t
       /\ fs_conflicts t' = fs_conflicts t
            ++ if InHotStandby then [(horizon, RelationIsAccessibleInLogicalDecoding)] else []) t.
Proof.
  intros Hnd Hmax E. unfold pg_tde_xlog_freeze_page, freeze_record.
  destruct (pg_tde_log_freeze_plan tuples) as [plans offsets] eqn:El.
  pose proof (log_plan_length _ _ _ El) as Hlen. cbn [fp_nplans fp_plans fp_offsets fp_isCatalogRel fp_snapshotConflictHorizon].
  unfold u16. rewrite Z.mod_small by lia. rewrite Nat2Z.id, firstn_all. apply wp_bind.
  apply (wp_mono _ (fun _ t1 => htups t1 = htups t /\ fs_wal t1 = fs_wal t
    /\ fs_conflicts t1 = fs_conflicts t
         ++ if InHotStandby then [(horizon, RelationIsAccessibleInLogicalDecoding)] else [])).
  - destruct InHotStandby; wps; cbn; [done|by rewrite app_nil_r].
  - intros _ t1 (Hh & Hw & Hc). wps. apply (wp_defined _ h').
    + by rewrite Hh, (log_plan_redo tuples plans offsets _ El Hnd Hmax).
    + wps. cbn. by rewrite Hw, Hc.
Qed.
End page.
