(* ===== verification/FreezeProps.v ===== *)
(** What freezing a tuple leaves in it: the cutoffs of VACUUM, which xids a
    tuple may carry, and the routines that decide, step by step. *)
From S2P Require Import Prelude Visibility VisibilityProps Prune LockFlags MultiXact MultiXactProps HotChain PagePrune Freeze.

(** transam.h, multixact.h, htup_details.h.  Precedence is modular; on the
    ids in use ([xid_in], [multi_in]: less than half the id space) it is the
    order of their ranks. *)
Class XidMacrosLaws `{HtupFlags} `{LockFlags} `{World} `{XidMacros} := {
  frozen_permanent : TransactionIdIsNormal FrozenTransactionId = false;
  invalid_permanent : TransactionIdIsNormal InvalidTransactionId = false;
  permanent_first x y : TransactionIdIsNormal x = false -> TransactionIdIsNormal y = true ->
    TransactionIdPrecedes x y = true;
  xvac_field h : HeapTupleHeaderGetXvac h =
    if has (t_infomask h) HEAP_MOVED then t_field3 h else InvalidTransactionId;
  xid_in : Z -> Prop;
  xid_rank : Z -> Z;
  xid_order x y : xid_in x -> xid_in y -> TransactionIdPrecedes x y = (xid_rank x <? xid_rank y);
  multi_in : Z -> Prop;
  multi_rank : Z -> Z;
  multi_order x y : multi_in x -> multi_in y -> MultiXactIdPrecedes x y = (multi_rank x <? multi_rank y);
}.

Section props.
Context `{HH : HtupFlags} `{HHL : !HtupFlagsLaws} `{HW : World} `{HWL : !WorldLaws}.
Context `{HLF : LockFlags} `{HFB : !FlagBits} `{HMX : MultiXacts} `{HML : !MultiXactsLaws}.
Context `{HX : XidMacros} `{HXL : !XidMacrosLaws}.

Definition xid_le (x y : Z) : Prop := xid_in x /\ xid_in y /\ xid_rank x <= xid_rank y.
Definition multi_le (x y : Z) : Prop := multi_in x /\ multi_in y /\ multi_rank x <= multi_rank y.

#[export] Instance xid_le_trans : Transitive xid_le.
Proof. intros x y z (?&?&?) (?&?&?). split_and!; [done..|lia]. Qed.
#[export] Instance multi_le_trans : Transitive multi_le.
Proof. intros x y z (?&?&?) (?&?&?). split_and!; [done..|lia]. Qed.

Lemma not_precedes x y : xid_le x y -> TransactionIdPrecedes y x = false.
Proof. intros (?&?&?). rewrite xid_order by done. apply Z.ltb_ge. lia. Qed.
Lemma not_multi_precedes x y : multi_le x y -> MultiXactIdPrecedes y x = false.
Proof. intros (?&?&?). rewrite multi_order by done. apply Z.ltb_ge. lia. Qed.
Lemma precedes_le x y : xid_in x -> xid_in y -> TransactionIdPrecedes y x = false -> xid_le x y.
Proof. intros Hx Hy. rewrite xid_order by done. intros ?%Z.ltb_ge. by split_and!. Qed.
Lemma multi_precedes_le x y : multi_in x -> multi_in y -> MultiXactIdPrecedes y x = false -> multi_le x y.
Proof. intros Hx Hy. rewrite multi_order by done. intros ?%Z.ltb_ge. by split_and!. Qed.

(** ** What VACUUM knows *)

(** get_cutoffs: the freeze limit is not beyond the oldest xmin, and the
    multixacts to come are not before the oldest one of interest. *)
Record cutoffs_ok (c : VacuumCutoffs) : Prop := {
  co_xids : xid_in (relfrozenxid c) /\ TransactionIdIsNormal (relfrozenxid c) = true
    /\ TransactionIdIsNormal (OldestXmin c) = true;
  co_limit : xid_le (FreezeLimit c) (OldestXmin c);
  co_multis : multi_in (relminmxid c);
  co_cutoff : multi_le (MultiXactCutoff c) (OldestMxact c);
  co_new st ms m st' : MultiXactIdCreateFromMembers st ms = (m, st') ->
    MultiXactIdIsValid m = true /\ multi_le (OldestMxact c) m;
}.

(** The trackers of a page start from the cutoffs and go back. *)
Record trackers_ok (c : VacuumCutoffs) (p : HeapPageFreeze) : Prop := {
  to_xid : xid_le (FreezePageRelfrozenXid p) (OldestXmin c);
  to_multi : multi_le (FreezePageRelminMxid p) (OldestMxact c);
  to_no_xid : xid_in (NoFreezePageRelfrozenXid p);
  to_no_multi : multi_in (NoFreezePageRelminMxid p);
}.

(** An xid of the table: not from before relfrozenxid. *)
Definition table_xid (c : VacuumCutoffs) (x : Z) : Prop := xid_le (relfrozenxid c) x.

(** The members a tuple's masks speak of. *)
Definition xmax_members (st : mxstore) (tuple : TupleHeader) : list MultiXactMember :=
  default [] (GetMultiXactIdMembers st (t_xmax (fields tuple))
                (HEAP_XMAX_IS_LOCKED_ONLY (t_infomask (fields tuple)))).

(** A tuple that pruning has left: its ids are the table's, nothing that
    still counts in its multixact is older than the oldest xmin, and there
    is an updater among the members exactly when the flags say so. *)
Record tuple_ok (c : VacuumCutoffs) (st : mxstore) (t : nat) (tuple : TupleHeader) : Prop := {
  tk_xmin : TransactionIdIsNormal (HeapTupleHeaderGetXmin (fields tuple)) = true ->
    table_xid c (HeapTupleHeaderGetXmin (fields tuple));
  tk_xmax : has (t_infomask (fields tuple)) HEAP_XMAX_IS_MULTI = false ->
    if TransactionIdIsNormal (t_xmax (fields tuple)) then table_xid c (t_xmax (fields tuple))
    else t_xmax (fields tuple) = InvalidTransactionId;
  tk_multi_in : has (t_infomask (fields tuple)) HEAP_XMAX_IS_MULTI = true ->
    MultiXactIdIsValid (t_xmax (fields tuple)) = true -> multi_in (t_xmax (fields tuple));
  tk_multi : has (t_infomask (fields tuple)) HEAP_XMAX_IS_MULTI = true ->
    MultiXactIdIsValid (t_xmax (fields tuple)) = true ->
    HEAP_LOCKED_UPGRADED (t_infomask (fields tuple)) = false ->
    multi_le (relminmxid c) (t_xmax (fields tuple))
    /\ Forall (fun m => table_xid c (xid m)) (xmax_members st tuple)
    /\ Forall (fun m => counts t m -> xid_le (OldestXmin c) (xid m)) (xmax_members st tuple)
    /\ (length (filter (fun m => ISUPDATE_from_mxstatus (status m) = true) (xmax_members st tuple)) <= 1)%nat
    /\ (HEAP_XMAX_IS_LOCKED_ONLY (t_infomask (fields tuple)) = false ->
        has_updater (xmax_members st tuple) = true)
    /\ (MultiXactIdPrecedes (t_xmax (fields tuple)) (OldestMxact c) = true -> forall t', (t <= t')%nat ->
        MultiXactIdIsRunning t' (t_xmax (fields tuple))
          (HEAP_XMAX_IS_LOCKED_ONLY (t_infomask (fields tuple))) = false);
}.

(** ** What may stay *)

(** An xid that need not be frozen and moves no tracker. *)
Definition recent (c : VacuumCutoffs) (tx x : Z) : Prop :=
  TransactionIdPrecedes x tx = false /\ TransactionIdPrecedes x (FreezeLimit c) = false.

Definition recent_xmax (c : VacuumCutoffs) (st : mxstore) (tx tm raw m : Z) : Prop :=
  if has m HEAP_XMAX_IS_MULTI then
    MultiXactIdIsValid raw = true ->
    HEAP_LOCKED_UPGRADED m = false
    /\ MultiXactIdPrecedes raw tm = false /\ MultiXactIdPrecedes raw (MultiXactCutoff c) = false
    /\ Forall (fun x => recent c tx (xid x))
         (default [] (GetMultiXactIdMembers st raw (HEAP_XMAX_IS_LOCKED_ONLY m)))
  else TransactionIdIsNormal raw = true -> recent c tx raw.

Record recent_tuple (c : VacuumCutoffs) (st : mxstore) (tx tm : Z) (tuple : TupleHeader) : Prop := {
  rt_xmin : TransactionIdIsNormal (HeapTupleHeaderGetXmin (fields tuple)) = true ->
    recent c tx (HeapTupleHeaderGetXmin (fields tuple));
  rt_xmax : recent_xmax c st tx tm (t_xmax (fields tuple)) (t_infomask (fields tuple));
  rt_xvac : TransactionIdIsNormal (HeapTupleHeaderGetXvac (fields tuple)) = false;
}.

Lemma track_recent c v x : recent c (tr_xid v) x -> track_xid c x v = v.
Proof. destruct v. unfold track_xid. cbn. intros [H1 H2]. by rewrite H1, H2, orb_false_r. Qed.

Lemma track_members_recent c v ms : Forall (fun x => recent c (tr_xid v) (xid x)) ms ->
  foldl (fun v x => track_xid c (xid x) v) v ms = v.
Proof. induction 1 as [|x ms Hx _ IH]; [done|]. cbn [foldl]. by rewrite track_recent. Qed.

Lemma track_multi_recent multi v : MultiXactIdPrecedes multi (tr_multi v) = false -> track_multi multi v = v.
Proof. destruct v. unfold track_multi. cbn. by intros ->. Qed.

Lemma track_freeze_no v : track_freeze false v = v.
Proof. destruct v. unfold track_freeze. cbn. by rewrite orb_false_r. Qed.

(** pg_tde_tuple_should_freeze leaves the trackers alone and says no. *)
Lemma should_freeze_recent c tx tm tuple (s : LockState) :
  recent_tuple c (multis s) tx tm tuple ->
  pg_tde_tuple_should_freeze tuple c tx tm s = (Ret (false, tx, tm), s).
Proof.
  intros [H1 H2 H3]. unfold pg_tde_tuple_should_freeze. rewrite H3, andb_false_r.
  set (v := {| tr_xid := tx; tr_multi := tm; tr_freeze := false |}).
  change tx with (tr_xid v) in H1, H2. change tm with (tr_multi v) in H2.
  assert (E1 : (if TransactionIdIsNormal (HeapTupleHeaderGetXmin (fields tuple))
    then track_xid c (HeapTupleHeaderGetXmin (fields tuple)) v else v) = v).
  { destruct (TransactionIdIsNormal _) eqn:En; [|done]. by rewrite track_recent by by apply H1. }
  rewrite E1. enough (E2 : track_xmax tuple c v s = (Ret v, s)) by by rewrite (bind_Ret _ _ _ _ _ E2).
  unfold track_xmax, recent_xmax in *.
  destruct (has _ HEAP_XMAX_IS_MULTI).
  - destruct (MultiXactIdIsValid _); [|done]. destruct (H2 eq_refl) as (-> & Hm & Hc & Hms).
    rewrite track_multi_recent, Hc, track_freeze_no by done. unfold lk_members, bind, gets.
    cbn [negb]. cbv beta iota. by rewrite track_members_recent.
  - destruct (TransactionIdIsNormal (t_xmax _)); [|done]. by rewrite track_recent by by apply H2.
Qed.

(** ** FreezeMultiXactId *)

Lemma le_normal x y : xid_le x y -> TransactionIdIsNormal x = true -> TransactionIdIsNormal y = true.
Proof.
  intros Hle Hx. apply not_false_iff_true. intros Hy.
  pose proof (permanent_first y x Hy Hx) as H. by rewrite not_precedes in H.
Qed.

Abbreviation updaters ms :=
  (filter (fun m => ISUPDATE_from_mxstatus (status m) = true) (ms : list MultiXactMember)).

(** What the second pass has collected so far. *)
Record survivors_ok (c : VacuumCutoffs) (v : Survivors) : Prop := {
  so_members : Forall (fun m => xid_le (OldestXmin c) (xid m)) (newmembers v);
  so_update : TransactionIdIsValid (update_xid v) = true -> xid_le (OldestXmin c) (update_xid v);
}.

Lemma still_running_wp x (Q : bool -> LockState -> Prop) s :
  (forall s', multis s' = multis s -> (lk_clock s <= lk_clock s')%nat -> warned s' = warned s ->
     Q (TransactionIdIsInProgress (lk_clock s) x) s') -> wp (runs x) Q s.
Proof.
  intros HQ. unfold runs, wp. destruct (TransactionIdIsCurrentTransactionId x) eqn:E; cbn.
  - rewrite <- (current_running (lk_clock s) x E). by apply HQ.
  - by apply HQ; cbn; [|lia|].
Qed.

Lemma keep_loop_wp c members : forall v (s : LockState),
  Forall (fun m => counts (lk_clock s) m -> xid_le (OldestXmin c) (xid m)) members ->
  (length (updaters members) <= 1)%nat ->
  (TransactionIdIsValid (update_xid v) = true -> updaters members = []) ->
  survivors_ok c v ->
  wp (keep_loop c members v) (fun v' s' => survivors_ok c v' /\ multis s' = multis s) s.
Proof.
  induction members as [|m members IH]; intros v s Hold Hone Hnone Hv; cbn [keep_loop]; [by wps|].
  apply Forall_cons in Hold as [Hm Hold].
  assert (Hlater : forall v' s', multis s' = multis s -> (lk_clock s <= lk_clock s')%nat ->
    survivors_ok c v' -> (length (updaters members) <= 1)%nat ->
    (TransactionIdIsValid (update_xid v') = true -> updaters members = []) ->
    wp (keep_loop c members v') (fun v'' s'' => survivors_ok c v'' /\ multis s'' = multis s) s').
  { intros v' s' Hst Ht Hv' Hone' Hnone'. eapply wp_mono; [apply IH; try done|].
    - eapply Forall_impl; [exact Hold|]. intros x Hx Hc. apply Hx. by eapply counts_earlier.
    - cbn. intros v'' s'' [? ?]. split; [done|congruence]. }
  pose proof Hv as [Hnew Hupd].
  destruct (ISUPDATE_from_mxstatus (status m)) eqn:Eu; cbn [negb].
  - rewrite filter_cons_True in Hone, Hnone by done. cbn [length] in Hone.
    destruct (TransactionIdIsValid (update_xid v)) eqn:Ev; [by specialize (Hnone eq_refl)|].
    assert (Hnil : updaters members = []) by (by destruct (updaters members); [|cbn in Hone; lia]).
    wps. apply still_running_wp. intros s1 Hst1 Ht1 _. wps.
    destruct (TransactionIdIsInProgress (lk_clock s) (xid m)) eqn:Ep; cbn.
    + wps. assert (Hle : xid_le (OldestXmin c) (xid m)) by (apply Hm; by left).
      rewrite not_precedes by done. cbn. apply Hlater; [done|lia| |by rewrite Hnil; cbn; lia|by rewrite Hnil].
      split; cbn; [apply Forall_app_2; [done|by apply Forall_singleton]|done].
    + unfold lk_did_commit, lk_ask. unfold wp at 1. wps.
      destruct (TransactionIdDidCommit (lk_clock s1) (xid m)) eqn:Ec; cbn.
      * assert (Hle : xid_le (OldestXmin c) (xid m)).
        { apply Hm. apply (counts_earlier _ (lk_clock s1)); [lia|]. by right. }
        rewrite not_precedes by done. apply Hlater; [exact Hst1|cbn; lia| |by rewrite Hnil; cbn; lia|by rewrite Hnil].
        split; cbn; [apply Forall_app_2; [done|by apply Forall_singleton]|done].
      * apply Hlater; [exact Hst1|cbn; lia|exact Hv|rewrite Hnil; cbn; lia|by rewrite Hnil].
  - rewrite filter_cons_False in Hone, Hnone by congruence.
    wps. apply still_running_wp. intros s1 Hst1 Ht1 _.
    destruct (TransactionIdIsInProgress (lk_clock s) (xid m)) eqn:Ep.
    + assert (Hle : xid_le (OldestXmin c) (xid m)) by (apply Hm; by left).
      rewrite not_precedes by done. apply Hlater; [exact Hst1|lia| |done|done].
      split; cbn; [apply Forall_app_2; [done|by apply Forall_singleton]|done].
    + by apply Hlater; [exact Hst1|lia|exact Hv|..].
Qed.

Lemma oldest_loop_spec c members : forall o o', xid_in (FreezeLimit c) -> xid_in o ->
  Forall (fun m => table_xid c (xid m)) members -> oldest_loop c members o = (false, o') ->
  xid_le o' o /\ Forall (fun m => xid_le (FreezeLimit c) (xid m) /\ xid_le o' (xid m)) members.
Proof.
  induction members as [|m members IH]; intros o o' Hf Ho Hall E; cbn [oldest_loop] in E.
  - injection E as <-. split; [by split_and!; [..|lia]|constructor].
  - apply Forall_cons in Hall as [(_ & Hm & _) Hall].
    destruct (TransactionIdPrecedes (xid m) (FreezeLimit c)) eqn:Ef; [done|].
    apply precedes_le in Ef; [|done..].
    destruct (TransactionIdPrecedes (xid m) o) eqn:Eo.
    + destruct (IH _ _ Hf Hm Hall E) as [Hle Hms]. split; [|by constructor].
      transitivity (xid m); [done|]. rewrite xid_order in Eo by done. apply Z.ltb_lt in Eo.
      split_and!; [done..|lia].
    + destruct (IH _ _ Hf Ho Hall E) as [Hle Hms]. split; [done|]. constructor; [|done].
      split; [done|]. transitivity o; [done|]. by apply precedes_le.
Qed.

(** The new xmax and the flags. *)
Inductive multi_outcome (c : VacuumCutoffs) (st : mxstore) : Z -> Z -> Prop :=
| mo_invalid : multi_outcome c st InvalidTransactionId FRM_INVALIDATE_XMAX
| mo_xid x flags :
    flags = FRM_RETURN_IS_XID \/ flags = Z.lor FRM_RETURN_IS_XID FRM_MARK_COMMITTED ->
    xid_le (OldestXmin c) x -> multi_outcome c st x flags
| mo_multi x new : MultiXactIdIsValid x = true -> multi_le (OldestMxact c) x ->
    (forall b, GetMultiXactIdMembers st x b = Some new) ->
    Forall (fun m => xid_le (OldestXmin c) (xid m)) new ->
    multi_outcome c st x FRM_RETURN_IS_MULTI.

Lemma replace_multi_wp c members (s : LockState) : cutoffs_ok c ->
  Forall (fun m => counts (lk_clock s) m -> xid_le (OldestXmin c) (xid m)) members ->
  (length (updaters members) <= 1)%nat ->
  wp (replace_multi c members) (fun r s' => multi_outcome c (multis s') r.1 r.2) s.
Proof.
  intros Hc Hold Hone. unfold replace_multi. wps. eapply wp_mono.
  { assert (Hinv : TransactionIdIsValid InvalidTransactionId = false)
      by (unfold TransactionIdIsValid; by rewrite Z.eqb_refl).
    apply keep_loop_wp; [done|done|cbn; congruence|]. split; cbn; [by apply Forall_nil|congruence]. }
  intros v s1 [[Hnew Hupd] Hst]. destruct (newmembers v) as [|m new] eqn:En; [wps; constructor|].
  destruct (TransactionIdIsValid (update_xid v)) eqn:Ev; cbn [andb].
  - destruct (has_lockers v); cbn [negb].
    + wps. unfold wp, lk_create. destruct (MultiXactIdCreateFromMembers _ _) as [x st'] eqn:Ex.
      destruct (co_new c Hc _ _ _ _ Ex). wps. cbn. econstructor; [done|done| |exact Hnew].
      intros b. by eapply from_members.
    + wps. constructor; [by destruct (update_committed v); [right|left]|by apply Hupd].
  - wps. unfold wp, lk_create. destruct (MultiXactIdCreateFromMembers _ _) as [x st'] eqn:Ex.
    destruct (co_new c Hc _ _ _ _ Ex). wps. cbn. econstructor; [done|done| |exact Hnew].
    intros b. by eapply from_members.
Qed.

(** The multixact stays. *)
Record multi_stays (c : VacuumCutoffs) (st : mxstore) (tuple : TupleHeader) (p : HeapPageFreeze) (o : Z) : Prop := {
  ms_valid : MultiXactIdIsValid (t_xmax (fields tuple)) = true;
  ms_upgraded : HEAP_LOCKED_UPGRADED (t_infomask (fields tuple)) = false;
  ms_multi : multi_le (MultiXactCutoff c) (t_xmax (fields tuple));
  ms_tracker : xid_le o (FreezePageRelfrozenXid p);
  ms_members : Forall (fun m => xid_le (FreezeLimit c) (xid m) /\ xid_le o (xid m)) (xmax_members st tuple);
}.

Definition earlier_multi (multi tracker : Z) : Z := if MultiXactIdPrecedes multi tracker then multi else tracker.

(** FreezeMultiXactId returns; either xmax is replaced and freezing the page
    is forced, or it stays and the trackers go back as far as it needs. *)
Definition multi_frozen (c : VacuumCutoffs) (s : LockState) (tuple : TupleHeader) (p : HeapPageFreeze)
    (r : Z * Z * HeapPageFreeze) (s' : LockState) : Prop :=
  let '(x, flags, p') := r in
  (p' = forced p /\ multi_outcome c (multis s') x flags)
  \/ (exists o, s' = s /\ x = t_xmax (fields tuple) /\ flags = FRM_NOOP
       /\ p' = with_freeze_trackers o (earlier_multi (t_xmax (fields tuple)) (FreezePageRelminMxid p)) p
       /\ multi_stays c (multis s) tuple p o).

Lemma updater_of_member ms : has_updater ms = true ->
  exists m, m ∈ ms /\ ISUPDATE_from_mxstatus (status m) = true /\ updater_of ms = xid m.
Proof.
  unfold has_updater, updater_of. intros (m & Hin & Hu)%existsb_exists.
  destruct (find _ ms) as [m'|] eqn:E.
  - apply find_some in E as [Hin' Hu']. exists m'. split_and!; [by apply list_elem_of_In|done..].
  - by rewrite (find_none _ _ E m Hin) in Hu.
Qed.

Lemma freeze_old_multi_wp c tuple (s : LockState) :
  cutoffs_ok c ->
  Forall (fun m => table_xid c (xid m)) (xmax_members (multis s) tuple) ->
  Forall (fun m => counts (lk_clock s) m -> xid_le (OldestXmin c) (xid m)) (xmax_members (multis s) tuple) ->
  (HEAP_XMAX_IS_LOCKED_ONLY (t_infomask (fields tuple)) = false ->
     has_updater (xmax_members (multis s) tuple) = true) ->
  (forall t', (lk_clock s <= t')%nat -> MultiXactIdIsRunning t' (t_xmax (fields tuple))
     (HEAP_XMAX_IS_LOCKED_ONLY (t_infomask (fields tuple))) = false) ->
  wp (freeze_old_multi (t_xmax (fields tuple)) (t_infomask (fields tuple)) c)
    (fun r s' => multi_outcome c (multis s') r.1 r.2) s.
Proof.
  intros Hc Htab Hold Hupd Hrun. unfold freeze_old_multi, lk_ask. apply wp_bind. unfold wp at 1.
  rewrite Hrun by done. destruct (HEAP_XMAX_IS_LOCKED_ONLY _) eqn:El; [wps; constructor|].
  unfold MultiXactIdGetUpdateXid, lk_members. wps. cbn.
  destruct (updater_of_member _ (Hupd eq_refl)) as (m & Hin & Hu & Ex).
  unfold xmax_members in *. rewrite El in *. rewrite Ex.
  rewrite Forall_forall in Htab. rewrite Forall_forall in Hold. specialize (Htab m Hin). specialize (Hold m Hin).
  rewrite not_precedes by done.
  destruct (TransactionIdPrecedes (xid m) (OldestXmin c)) eqn:Eo.
  - wps. unfold wp at 1. cbn. destruct (TransactionIdDidCommit _ (xid m)) eqn:Ec; [|wps; constructor].
    assert (Hcnt : counts (lk_clock s) m) by (apply (counts_earlier _ (S (lk_clock s))); [lia|by right]).
    specialize (Hold Hcnt). by rewrite not_precedes in Eo.
  - wps. constructor; [by left|]. destruct Htab as (_ & Hx & _). apply precedes_le; [|done..].
    by destruct (co_limit c Hc) as (_ & ? & _).
Qed.

Lemma freeze_multi_wp c tuple p (s : LockState) :
  cutoffs_ok c -> trackers_ok c p -> tuple_ok c (multis s) (lk_clock s) tuple ->
  has (t_infomask (fields tuple)) HEAP_XMAX_IS_MULTI = true ->
  wp (FreezeMultiXactId (t_xmax (fields tuple)) (t_infomask (fields tuple)) c p)
    (multi_frozen c s tuple p) s.
Proof.
  intros Hc Hp Ht Hmul. unfold FreezeMultiXactId.
  destruct (MultiXactIdIsValid _) eqn:Ev; cbn [negb orb]; [|wps; left; split; [done|constructor]].
  destruct (HEAP_LOCKED_UPGRADED _) eqn:Eup; [wps; left; split; [done|constructor]|].
  destruct (tk_multi _ _ _ _ Ht Hmul Ev Eup) as (Hmin & Htab & Hold & Hone & Hupd & Hrun).
  rewrite not_multi_precedes by done.
  destruct (MultiXactIdPrecedes _ (OldestMxact c)) eqn:Eold.
  { wps. eapply wp_mono; [by apply freeze_old_multi_wp; [..|apply Hrun]|].
    intros [x flags] s' Ho. wps. by left. }
  unfold lk_members. wps.
  unfold xmax_members in Htab, Hold, Hone. destruct (GetMultiXactIdMembers _ _ _) as [[|m ms]|] eqn:Em;
    [wps; left; split; [done|constructor]| |wps; left; split; [done|constructor]].
  cbn [default] in *. set (members := m :: ms) in *.
  assert (Hre : wp (let* r := replace_multi c members in ret (r, forced p)) (multi_frozen c s tuple p) s).
  { wps. eapply wp_mono; [by apply replace_multi_wp|]. intros [x flags] s' Ho. wps. by left. }
  destruct (oldest_loop c members _) as [need o] eqn:Eo.
  destruct need; [done|]. cbn [orb].
  destruct (MultiXactIdPrecedes _ (MultiXactCutoff c)) eqn:Ecut; [done|]. cbn [negb]. wps. right.
  destruct (co_limit c Hc) as (Hf & _). destruct (to_xid c p Hp) as (Hpx & _).
  destruct (oldest_loop_spec _ _ _ _ Hf Hpx Htab Eo) as [Hle Hms].
  exists o. split_and!; [done..|]. split; try done.
  - apply multi_precedes_le; [|by destruct Hmin as (_ & ? & _)|done]. by destruct (co_cutoff c Hc).
  - unfold xmax_members. by rewrite Em.
Qed.

(** ** The masks *)

Lemma has_lor_r m f g : has m (Z.lor f g) = has m f || has m g.
Proof. unfold has. rewrite !(Z.land_comm m). apply (has_lor f g m). Qed.

(** The flags that are not about xmax. *)
Record same_rest (m m' : Z) : Prop := {
  sr_committed : has m' HEAP_XMIN_COMMITTED = has m HEAP_XMIN_COMMITTED;
  sr_invalid : has m' HEAP_XMIN_INVALID = has m HEAP_XMIN_INVALID;
  sr_moved_off : has m' HEAP_MOVED_OFF = has m HEAP_MOVED_OFF;
  sr_moved_in : has m' HEAP_MOVED_IN = has m HEAP_MOVED_IN;
}.

(** The flags that are. *)
Record same_xmax (m m' : Z) : Prop := {
  sx_multi : has m' HEAP_XMAX_IS_MULTI = has m HEAP_XMAX_IS_MULTI;
  sx_upgraded : HEAP_LOCKED_UPGRADED m' = HEAP_LOCKED_UPGRADED m;
  sx_locked : HEAP_XMAX_IS_LOCKED_ONLY m' = HEAP_XMAX_IS_LOCKED_ONLY m;
}.

Lemma same_rest_refl m : same_rest m m.
Proof. by split. Qed.

Lemma same_rest_clear m : same_rest m (clear m HEAP_XMAX_BITS).
Proof. split; by flags. Qed.

Lemma same_rest_lor m n f : same_rest m n ->
  f = HEAP_XMAX_COMMITTED \/ f = HEAP_XMAX_INVALID -> same_rest m (Z.lor n f).
Proof. intros [H1 H2 H3 H4] [-> | ->]; split; revert H1 H2 H3 H4; by flags. Qed.

Lemma same_rest_hints m n ms b b2 : same_rest m n -> hint_bits ms = (b, b2) -> same_rest m (Z.lor n b).
Proof.
  intros [H1 H2 H3 H4] Hb. unfold hint_bits in Hb. destruct (hint_loop _ _ _ _) as [[mode b2'] u].
  injection Hb as <- _. split; revert H1 H2 H3 H4; destruct mode, u; by flags.
Qed.

Lemma same_rest_xvac h h' : same_rest (t_infomask h) (t_infomask h') -> t_field3 h' = t_field3 h ->
  HeapTupleHeaderGetXvac h' = HeapTupleHeaderGetXvac h.
Proof. intros [_ _ H3 H4] E. by rewrite !xvac_field, !moved_def, !has_lor_r, H3, H4, E. Qed.

Lemma same_rest_xmin h h' : same_rest (t_infomask h) (t_infomask h') -> t_xmin h' = t_xmin h ->
  HeapTupleHeaderGetXmin h' = HeapTupleHeaderGetXmin h.
Proof. intros [H1 H2 _ _] E. unfold HeapTupleHeaderGetXmin. by rewrite !xmin_frozen_test, H1, H2, E. Qed.

Lemma same_xmax_frozen m : same_xmax m (Z.lor m HEAP_XMIN_FROZEN).
Proof. split; by flags. Qed.

Lemma xmin_frozen_frozen m : XminFrozen (Z.lor m HEAP_XMIN_FROZEN) = true.
Proof. by flags. Qed.

Lemma same_xmax_recent c st tx tm raw m m' : same_xmax m m' ->
  recent_xmax c st tx tm raw m -> recent_xmax c st tx tm raw m'.
Proof. intros [H1 H2 H3]. unfold recent_xmax. by rewrite H1, H2, H3. Qed.

(** Without its xmax bits, a mask speaks of a single xid. *)
Lemma cleared_recent c st tx tm x m : has m HEAP_XMAX_IS_MULTI = false -> recent c tx x ->
  recent_xmax c st tx tm x m.
Proof. unfold recent_xmax. by intros ->. Qed.
End props.
