(* ===== verification/FreezePrepare.v ===== *)
(** pg_tde_prepare_freeze_tuple and the tuple it leaves: the plan for xmax,
    the plan for the tuple, and why nothing old stays behind. *)
From S2P Require Import Prelude Visibility VisibilityProps Prune LockFlags MultiXact MultiXactProps HotChain PagePrune Freeze FreezeProps.

Section prepare.
Context `{HH : HtupFlags} `{HHL : !HtupFlagsLaws} `{HW : World} `{HWL : !WorldLaws}.
Context `{HLF : LockFlags} `{HFB : !FlagBits} `{HMX : MultiXacts} `{HML : !MultiXactsLaws}.
Context `{HX : XidMacros} `{HXL : !XidMacrosLaws}.

(** ** xmax *)

(** The page state only ever asks for more: freezing stays forced, the
    freeze trackers go back, and the no-freeze trackers are left alone. *)
Record page_after (p p' : HeapPageFreeze) : Prop := {
  pa_required : freeze_required p = true -> freeze_required p' = true;
  pa_xid : xid_le (FreezePageRelfrozenXid p') (FreezePageRelfrozenXid p);
  pa_multi : multi_le (FreezePageRelminMxid p') (FreezePageRelminMxid p);
  pa_no_xid : NoFreezePageRelfrozenXid p' = NoFreezePageRelfrozenXid p;
  pa_no_multi : NoFreezePageRelminMxid p' = NoFreezePageRelminMxid p;
}.

(** There is something in xmax that will have to be frozen one day. *)
Definition xmax_present (raw m : Z) : bool :=
  if has m HEAP_XMAX_IS_MULTI then MultiXactIdIsValid raw else TransactionIdIsNormal raw.

Record xmax_planned (c : VacuumCutoffs) (s : LockState) (tuple : TupleHeader) (p : HeapPageFreeze)
    (r : XmaxPlan * HeapPageFreeze) (s' : LockState) : Prop := {
  xp_page : page_after p r.2;
  xp_rest : same_rest (t_infomask (fields tuple)) (xp_infomask r.1);
  xp_recent : freeze_xmax r.1 = false ->
    recent_xmax c (multis s') (FreezePageRelfrozenXid r.2) (FreezePageRelminMxid r.2)
      (xp_xmax r.1) (xp_infomask r.1)
    /\ xmax_present (xp_xmax r.1) (xp_infomask r.1) = negb (xmax_already_frozen r.1);
  xp_already : xmax_already_frozen r.1 = true ->
    xmax_present (t_xmax (fields tuple)) (t_infomask (fields tuple)) = false;
  xp_same : freeze_xmax r.1 = false -> replace_xmax r.1 = false ->
    xp_xmax r.1 = t_xmax (fields tuple) /\ xp_infomask r.1 = t_infomask (fields tuple)
    /\ xp_infomask2 r.1 = t_infomask2 tuple;
  xp_store : freeze_required r.2 = false -> s' = s;
}.

Lemma page_after_refl c p : trackers_ok c p -> page_after p p.
Proof.
  intros [(?&_) (?&_) _ _]. by split; [done|split_and!; [done..|lia]|split_and!; [done..|lia]|..].
Qed.

Lemma page_after_forced c p : trackers_ok c p -> page_after p (forced p).
Proof. intros H. destruct (page_after_refl c p H). by split. Qed.

Lemma earlier_multi_le m t : multi_in m -> multi_in t ->
  multi_le (earlier_multi m t) m /\ multi_le (earlier_multi m t) t.
Proof.
  intros Hm Ht. unfold earlier_multi, multi_le. rewrite multi_order by done.
  destruct (Z.ltb_spec (multi_rank m) (multi_rank t)); split_and!; try done; lia.
Qed.

(** What is not older than the oldest xmin can stay. *)
Lemma oldest_recent c p x : cutoffs_ok c -> xid_le (FreezePageRelfrozenXid p) (OldestXmin c) ->
  xid_le (OldestXmin c) x -> recent c (FreezePageRelfrozenXid p) x.
Proof.
  intros Hc Hp Hx. split; apply not_precedes; [by transitivity (OldestXmin c)|].
  transitivity (OldestXmin c); [apply Hc|done].
Qed.

Lemma normal_oldest c x : cutoffs_ok c -> xid_le (OldestXmin c) x -> TransactionIdIsNormal x = true.
Proof. intros Hc Hx. by apply (le_normal _ _ Hx), Hc. Qed.

(** The flags of the outcomes of FreezeMultiXactId. *)
Lemma outcome_flags :
  has FRM_INVALIDATE_XMAX FRM_NOOP = false /\ has FRM_INVALIDATE_XMAX FRM_RETURN_IS_XID = false
  /\ has FRM_INVALIDATE_XMAX FRM_RETURN_IS_MULTI = false
  /\ has FRM_RETURN_IS_MULTI FRM_NOOP = false /\ has FRM_RETURN_IS_MULTI FRM_RETURN_IS_XID = false
  /\ has FRM_RETURN_IS_MULTI FRM_RETURN_IS_MULTI = true.
Proof. by vm_compute. Qed.

Lemma multi_xmax_wp c tuple p check (s : LockState) :
  cutoffs_ok c -> trackers_ok c p -> tuple_ok c (multis s) (lk_clock s) tuple ->
  has (t_infomask (fields tuple)) HEAP_XMAX_IS_MULTI = true ->
  wp (prepare_multi_xmax tuple c p check) (xmax_planned c s tuple p) s.
Proof.
  intros Hc Hp Ht Hmul. unfold prepare_multi_xmax. apply wp_bind.
  eapply wp_mono; [by apply freeze_multi_wp|]. intros [[x flags] p'] s' [[-> Ho]|(o & -> & -> & -> & -> & Hst)].
  - destruct Ho as [|x flags Hf Hx|x new Hv Hx Hm Hnew].
    + cbn. wps. split; cbn; try done; by eapply page_after_forced.
    + assert (Hm' : forall n, n = (if has flags FRM_MARK_COMMITTED
        then Z.lor (clear (t_infomask (fields tuple)) HEAP_XMAX_BITS) HEAP_XMAX_COMMITTED
        else clear (t_infomask (fields tuple)) HEAP_XMAX_BITS) ->
        has n HEAP_XMAX_IS_MULTI = false /\ same_rest (t_infomask (fields tuple)) n).
      { intros n ->. destruct (has flags _); [|split; [apply cleared_multi|apply same_rest_clear]].
        split; [by flags|]. apply same_rest_lor; [apply same_rest_clear|by left]. }
      destruct (Hm' _ eq_refl) as [Hn Hr].
      replace (has flags FRM_NOOP) with false by (by destruct Hf as [-> | ->]).
      replace (has flags FRM_RETURN_IS_XID) with true by (by destruct Hf as [-> | ->]). wps.
      split; cbn; try done; [by eapply page_after_forced|].
      intros _. split; [|unfold xmax_present; by rewrite Hn, (normal_oldest c x)].
      apply cleared_recent; [done|]. apply (oldest_recent c (forced p)); [done|apply Hp|done].
    + destruct outcome_flags as (_ & _ & _ & -> & -> & ->). unfold GetMultiXactIdHintBits, lk_members. wps. rewrite Hm. change (default [] (Some new)) with new.
      destruct (hint_bits new) as [b b2] eqn:Eb.
      destruct (hint_bits_spec _ _ _ Eb) as (B1 & B2 & B3 & B4 & B5 & _).
      set (n := Z.lor (clear (t_infomask (fields tuple)) HEAP_XMAX_BITS) b).
      assert (Hx' : same_xmax b n) by (split; unfold n; by flags).
      assert (Hn : has n HEAP_XMAX_IS_MULTI = true) by by rewrite (sx_multi _ _ Hx').
      split; cbn; try done; [by eapply page_after_forced|by eapply same_rest_hints; [apply same_rest_clear|]|].
      intros _. fold n. split; [|unfold xmax_present; by rewrite Hn].
      unfold recent_xmax. rewrite Hn, Hm. intros _. rewrite (sx_upgraded _ _ Hx').
      pose proof (to_multi c p Hp) as Htm. split_and!; [done|apply not_multi_precedes..|].
      * by transitivity (OldestMxact c).
      * transitivity (OldestMxact c); [apply Hc|done].
      * eapply Forall_impl; [exact Hnew|]. intros m Hle. apply (oldest_recent c (forced p)); [done|apply Hp|done].
  - destruct Hst as [Hv Hup Hmu Htr Hms]. cbn. wps.
    pose proof (earlier_multi_le (t_xmax (fields tuple)) (FreezePageRelminMxid p)) as [He1 He2];
      [by destruct Hmu as (_ & ? & _)|by destruct (to_multi c p Hp)|].
    split; cbn; try done. intros _. unfold recent_xmax, xmax_present.
    rewrite Hmul, Hv, Hup. split; [|done]. intros _. split_and!; [done|by apply not_multi_precedes..|].
    eapply Forall_impl; [exact Hms|]. intros m [H1 H2]. by split; apply not_precedes.
Qed.

Lemma single_xmax_wp c tuple p check (s : LockState) :
  cutoffs_ok c -> trackers_ok c p -> tuple_ok c (multis s) (lk_clock s) tuple ->
  has (t_infomask (fields tuple)) HEAP_XMAX_IS_MULTI = false ->
  wp (prepare_single_xmax tuple c check) (fun x => xmax_planned c s tuple p (x, p)) s.
Proof.
  intros Hc Hp Ht Hmul. pose proof (tk_xmax _ _ _ _ Ht Hmul) as Hx. unfold prepare_single_xmax.
  assert (Hpr : xmax_present (t_xmax (fields tuple)) (t_infomask (fields tuple))
    = TransactionIdIsNormal (t_xmax (fields tuple))) by by unfold xmax_present; rewrite Hmul.
  destruct (TransactionIdIsNormal (t_xmax (fields tuple))) eqn:En.
  - rewrite not_precedes by done. wps.
    split; cbn; try done; [by eapply page_after_refl|].
    intros Eo. split; [|done]. apply cleared_recent; [done|].
    apply oldest_recent; [done|apply Hp|]. destruct Hx as (_ & Hx & _). apply precedes_le; [|done..].
    by destruct (co_limit c Hc) as (_ & ? & _).
  - rewrite Hx in *. unfold TransactionIdIsValid. rewrite Z.eqb_refl. cbn. wps.
    split; cbn; try done; [by eapply page_after_refl| |].
    + intros _. split; [|done]. unfold recent_xmax. by rewrite Hmul, En.
    + by rewrite Hx.
Qed.


(** ** Without freezing *)

Lemma track_xid_le c v x : xid_in (tr_xid v) -> xid_in x ->
  xid_le (tr_xid (track_xid c x v)) (tr_xid v) /\ xid_le (tr_xid (track_xid c x v)) x.
Proof.
  intros Hv Hx. unfold track_xid, xid_le. cbn. rewrite xid_order by done.
  destruct (Z.ltb_spec (xid_rank x) (xid_rank (tr_xid v))); split_and!; try done; lia.
Qed.

(** [v'] tracks [x]: freezing is forced by it, or it is recent. *)
Definition tracks (c : VacuumCutoffs) (v : Tracked) (x : Z) : Prop :=
  tr_freeze v = false -> xid_le (tr_xid v) x /\ TransactionIdPrecedes x (FreezeLimit c) = false.

(** [v'] goes back from [v]. *)
Record tracked_after (v v' : Tracked) : Prop := {
  ta_xid : xid_le (tr_xid v') (tr_xid v);
  ta_multi : multi_le (tr_multi v') (tr_multi v);
  ta_freeze : tr_freeze v = true -> tr_freeze v' = true;
}.

#[local] Instance tracked_after_trans : Transitive tracked_after.
Proof. intros v1 v2 v3 [] []. split; [by transitivity (tr_xid v2)|by transitivity (tr_multi v2)|auto]. Qed.

Lemma tracked_after_refl v : xid_in (tr_xid v) -> multi_in (tr_multi v) -> tracked_after v v.
Proof. intros Hx Hm. by split; [split_and!; [..|lia]|split_and!; [..|lia]|]. Qed.

Lemma tracks_after c v v' x : tracked_after v v' -> tracks c v x -> tracks c v' x.
Proof.
  intros [H1 _ H3] Hx Hf. assert (Hf' : tr_freeze v = false) by (destruct (tr_freeze v); [by rewrite H3 in Hf|done]).
  destruct (Hx Hf') as [Hle Hfl]. split; [by transitivity (tr_xid v)|done].
Qed.

Lemma track_xid_after c v x : xid_in (tr_xid v) -> multi_in (tr_multi v) -> xid_in x ->
  tracked_after v (track_xid c x v) /\ tracks c (track_xid c x v) x.
Proof.
  intros Hv Hm Hx. pose proof (track_xid_le c v x Hv Hx) as [H1 H2]. split.
  - split; [done|by cbn; split_and!; [..|lia]|]. cbn. by intros ->.
  - intros [_ Hf]%orb_false_iff. done.
Qed.

Lemma track_members_after c ms : forall v, xid_in (tr_xid v) -> multi_in (tr_multi v) ->
  Forall (fun m => xid_in (xid m)) ms ->
  let v' := foldl (fun v x => track_xid c (xid x) v) v ms in
  tracked_after v v' /\ Forall (fun m => tracks c v' (xid m)) ms.
Proof.
  induction ms as [|m ms IH]; intros v Hv Hm Hall; cbn [foldl].
  - split; [by apply tracked_after_refl|constructor].
  - apply Forall_cons in Hall as [Hx Hall].
    destruct (track_xid_after c v (xid m) Hv Hm Hx) as [Ha Ht].
    destruct (IH (track_xid c (xid m) v)) as [Ha' Hms]; [apply Ha|done..|].
    split; [by transitivity (track_xid c (xid m) v)|]. constructor; [by eapply tracks_after|done].
Qed.

Lemma track_multi_after v multi : xid_in (tr_xid v) -> multi_in (tr_multi v) -> multi_in multi ->
  tracked_after v (track_multi multi v) /\ multi_le (tr_multi (track_multi multi v)) multi.
Proof.
  intros Hv Hm Hx. pose proof (earlier_multi_le multi (tr_multi v) Hx Hm) as [H1 H2].
  split; [|done]. split; [|done|done]. split_and!; cbn; [done..|lia].
Qed.

(** Everything in the tuple is tracked. *)
Record tracks_xmax (c : VacuumCutoffs) (st : mxstore) (v : Tracked) (raw m : Z) : Prop := {
  tx_multi : has m HEAP_XMAX_IS_MULTI = true -> MultiXactIdIsValid raw = true -> tr_freeze v = false ->
    HEAP_LOCKED_UPGRADED m = false /\ multi_le (tr_multi v) raw
    /\ MultiXactIdPrecedes raw (MultiXactCutoff c) = false
    /\ Forall (fun x => tracks c v (xid x)) (default [] (GetMultiXactIdMembers st raw (HEAP_XMAX_IS_LOCKED_ONLY m)));
  tx_single : has m HEAP_XMAX_IS_MULTI = false -> TransactionIdIsNormal raw = true -> tracks c v raw;
}.

Lemma track_xmax_wp c tuple v (s : LockState) : cutoffs_ok c ->
  xid_in (tr_xid v) -> multi_in (tr_multi v) -> tuple_ok c (multis s) (lk_clock s) tuple ->
  wp (track_xmax tuple c v) (fun v' s' => s' = s /\ tracked_after v v'
    /\ tracks_xmax c (multis s) v' (t_xmax (fields tuple)) (t_infomask (fields tuple))) s.
Proof.
  intros Hc Hv Hm Ht. unfold track_xmax. pose proof (tracked_after_refl v Hv Hm) as Hrefl.
  destruct (has _ HEAP_XMAX_IS_MULTI) eqn:Emul.
  - destruct (MultiXactIdIsValid _) eqn:Ev; cbn [negb]; [|wps; split_and!; [done..|split; congruence]].
    destruct (HEAP_LOCKED_UPGRADED _) eqn:Eup.
    + wps. destruct (track_multi_after v _ Hv Hm (tk_multi_in _ _ _ _ Ht Emul Ev)) as [Ha _].
      split_and!; [done| |split; [|congruence]].
      * destruct Ha. by split; [| |cbn; rewrite orb_true_r].
      * cbn. by rewrite orb_true_r.
    + destruct (track_multi_after v _ Hv Hm (tk_multi_in _ _ _ _ Ht Emul Ev)) as [Ha Hle].
      destruct (tk_multi _ _ _ _ Ht Emul Ev Eup) as (_ & Htab & _).
      set (v1 := track_freeze _ _). assert (Ha1 : tracked_after v v1).
      { destruct Ha. split; [done|done|]. intros E. unfold v1. cbn. by rewrite E. }
      unfold lk_members. wps. unfold xmax_members in Htab.
      destruct (track_members_after c _ v1 ltac:(apply Ha1) ltac:(apply Ha1)
        (Forall_impl _ _ _ Htab (fun m H => proj1 (proj2 H)))) as [Ha2 Hms].
      split_and!; [done|by transitivity v1|split; [|congruence]]. intros _ _ Hf. split_and!; [done| | |done].
      * transitivity (tr_multi v1); [apply Ha2|done].
      * assert (Hf1 : tr_freeze v1 = false).
        { destruct (tr_freeze v1) eqn:E; [|done]. by rewrite (ta_freeze _ _ Ha2 E) in Hf. }
        by apply orb_false_iff in Hf1 as [_ ?].
  - pose proof (tk_xmax _ _ _ _ Ht Emul) as Hx.
    destruct (TransactionIdIsNormal _) eqn:En; [|wps; split_and!; [done..|split; congruence]].
    destruct Hx as (_ & Hx & _). wps.
    destruct (track_xid_after c v _ Hv Hm Hx) as [Ha Hr]. by split_and!; [..|split; [congruence|]].
Qed.

(** When the answer is no, a second look finds nothing to track. *)
Lemma should_freeze_tracks c tuple tx tm (s : LockState) : cutoffs_ok c ->
  xid_in tx -> multi_in tm -> tuple_ok c (multis s) (lk_clock s) tuple ->
  TransactionIdIsNormal (HeapTupleHeaderGetXvac (fields tuple)) = false ->
  wp (pg_tde_tuple_should_freeze tuple c tx tm)
    (fun r s' => let '(required, tx', tm') := r in s' = s /\ xid_le tx' tx /\ multi_le tm' tm
       /\ (required = false -> recent_tuple c (multis s) tx' tm' tuple)) s.
Proof.
  intros Hc Hx Hm Ht Hvac. unfold pg_tde_tuple_should_freeze. rewrite Hvac, andb_false_r.
  set (v := {| tr_xid := tx; tr_multi := tm; tr_freeze := false |}).
  set (xmin := HeapTupleHeaderGetXmin (fields tuple)).
  set (v1 := if TransactionIdIsNormal xmin then _ else _).
  assert (H1 : tracked_after v v1 /\ (TransactionIdIsNormal xmin = true -> tracks c v1 xmin)).
  { unfold v1. destruct (TransactionIdIsNormal xmin) eqn:En; [|split; [by apply tracked_after_refl|done]].
    destruct (tk_xmin _ _ _ _ Ht En) as (_ & Hin & _).
    destruct (track_xid_after c v xmin Hx Hm Hin). by split. }
  destruct H1 as [Ha1 Hxmin]. apply wp_bind. eapply wp_mono.
  { apply track_xmax_wp; [done|apply Ha1|apply Ha1|done]. }
  intros v2 s' (-> & Ha2 & Hxmax). wps. assert (Ha : tracked_after v v2) by by transitivity v1.
  split_and!; [done|apply Ha|apply Ha|]. intros Hf.
  assert (Hrec : forall x, tracks c v2 x -> recent c (tr_xid v2) x).
  { intros x Hx2. destruct (Hx2 Hf) as [Hle Hfl]. split; [by apply not_precedes|done]. }
  split; [| |done].
  - intros En. apply Hrec. by eapply tracks_after, Hxmin.
  - unfold recent_xmax. destruct Hxmax as [Hmul Hsin]. destruct (has _ HEAP_XMAX_IS_MULTI) eqn:E.
    + intros Hv. destruct (Hmul eq_refl Hv Hf) as (Hup & Hle & Hcut & Hms).
      split_and!; [done|by apply not_multi_precedes|done|]. eapply Forall_impl; [exact Hms|].
      intros x. apply Hrec.
    + intros Hn. by apply Hrec, Hsin.
Qed.

(** ** The tuple after its plan *)

Lemma invalid_xmax_none m : has (invalid_xmax m) HEAP_XMAX_IS_MULTI = false /\ same_rest m (invalid_xmax m).
Proof.
  split; [unfold invalid_xmax; by flags|]. apply same_rest_lor; [apply same_rest_clear|by right].
Qed.

#[local] Instance same_rest_trans : Transitive same_rest.
Proof. intros m1 m2 m3 [] []. split; congruence. Qed.

(** The masks of the plan: those of xmin are set or as before, those of
    xvac as before, and those of xmax as planned. *)
Lemma plan_masks tuple fx rv x :
  same_rest (t_infomask (fields tuple)) (xp_infomask x) ->
  let m' := fz_infomask (freeze_plan tuple fx rv x) in
  has m' HEAP_MOVED = has (t_infomask (fields tuple)) HEAP_MOVED
  /\ XminFrozen m' = fx || XminFrozen (t_infomask (fields tuple))
  /\ if freeze_xmax x then has m' HEAP_XMAX_IS_MULTI = false else same_xmax (xp_infomask x) m'.
Proof.
  intros Hr. set (m1 := if fx then Z.lor (xp_infomask x) HEAP_XMIN_FROZEN else xp_infomask x).
  assert (H1 : has m1 HEAP_MOVED = has (t_infomask (fields tuple)) HEAP_MOVED
    /\ XminFrozen m1 = fx || XminFrozen (t_infomask (fields tuple)) /\ same_xmax (xp_infomask x) m1).
  { destruct Hr as [R1 R2 R3 R4]. unfold m1. rewrite moved_def, !has_lor_r. destruct fx.
    - split_and!; [|apply xmin_frozen_frozen|apply same_xmax_frozen]. revert R3 R4. flags.
      by intros -> ->.
    - split_and!; [by rewrite R3, R4| |by split]. by rewrite !xmin_frozen_test, R1, R2. }
  destruct H1 as (H1 & H2 & H3). unfold freeze_plan. fold m1.
  destruct (freeze_xmax x); cbn; [|done]. destruct (invalid_xmax_none m1) as [Hn [R1 R2 R3 R4]].
  rewrite <- H1, <- H2. rewrite !moved_def, !has_lor_r, R3, R4, !xmin_frozen_test, R1, R2. done.
Qed.

Lemma plan_xvac tuple fx rv x :
  same_rest (t_infomask (fields tuple)) (xp_infomask x) ->
  rv = TransactionIdIsNormal (HeapTupleHeaderGetXvac (fields tuple)) ->
  TransactionIdIsNormal (HeapTupleHeaderGetXvac
    (fields (pg_tde_execute_freeze_tuple tuple (freeze_plan tuple fx rv x)))) = false.
Proof.
  intros Hr Hrv. destruct (plan_masks tuple fx rv x Hr) as (Hmoved & _).
  rewrite !xvac_field in *. unfold pg_tde_execute_freeze_tuple. cbn [fields t_infomask t_field3].
  rewrite Hmoved. destruct (has _ HEAP_MOVED); [|apply invalid_permanent].
  assert (Ef : frzflags (freeze_plan tuple fx rv x) = if rv then
    (if has (t_infomask (fields tuple)) HEAP_MOVED_OFF then XLH_INVALID_XVAC else XLH_FREEZE_XVAC) else 0)
    by (unfold freeze_plan; by destruct (freeze_xmax x)).
  rewrite Ef. destruct rv; [|by rewrite has_0].
  destruct (has _ HEAP_MOVED_OFF); [apply invalid_permanent|apply frozen_permanent].
Qed.

Lemma plan_xmin tuple fx rv x :
  same_rest (t_infomask (fields tuple)) (xp_infomask x) ->
  HeapTupleHeaderGetXmin (fields (pg_tde_execute_freeze_tuple tuple (freeze_plan tuple fx rv x)))
  = if fx then FrozenTransactionId else HeapTupleHeaderGetXmin (fields tuple).
Proof.
  intros Hr. destruct (plan_masks tuple fx rv x Hr) as (_ & Hx & _).
  unfold HeapTupleHeaderGetXmin. cbn [fields pg_tde_execute_freeze_tuple t_infomask t_xmin].
  rewrite Hx. by destruct fx.
Qed.

(** A plan that changes nothing. *)
Lemma plan_nothing tuple x : freeze_xmax x = false ->
  xp_xmax x = t_xmax (fields tuple) /\ xp_infomask x = t_infomask (fields tuple)
    /\ xp_infomask2 x = t_infomask2 tuple ->
  pg_tde_execute_freeze_tuple tuple (freeze_plan tuple false false x) = tuple.
Proof.
  intros Hf (H1 & H2 & H3). unfold freeze_plan. rewrite Hf. unfold pg_tde_execute_freeze_tuple. cbn.
  rewrite H1, H2, H3. by destruct tuple as [[] ?].
Qed.

Lemma plan_recent c st tuple fx rv x tx tm :
  same_rest (t_infomask (fields tuple)) (xp_infomask x) ->
  rv = TransactionIdIsNormal (HeapTupleHeaderGetXvac (fields tuple)) ->
  (fx = false -> TransactionIdIsNormal (HeapTupleHeaderGetXmin (fields tuple)) = true ->
     recent c tx (HeapTupleHeaderGetXmin (fields tuple))) ->
  (freeze_xmax x = false -> recent_xmax c st tx tm (xp_xmax x) (xp_infomask x)) ->
  recent_tuple c st tx tm (pg_tde_execute_freeze_tuple tuple (freeze_plan tuple fx rv x)).
Proof.
  intros Hr Hrv Hxmin Hxmax. split.
  - rewrite plan_xmin by done. destruct fx; [by rewrite frozen_permanent|by apply Hxmin].
  - destruct (plan_masks tuple fx rv x Hr) as (_ & _ & Hm).
    cbn [fields pg_tde_execute_freeze_tuple t_infomask t_xmax].
    assert (Ex : fz_xmax (freeze_plan tuple fx rv x) = if freeze_xmax x then InvalidTransactionId else xp_xmax x)
      by (unfold freeze_plan; by destruct (freeze_xmax x)).
    rewrite Ex. destruct (freeze_xmax x).
    + unfold recent_xmax. rewrite Hm. by rewrite invalid_permanent.
    + eapply same_xmax_recent; [exact Hm|by apply Hxmax].
  - by apply plan_xvac.
Qed.

Lemma plan_needs tuple fx rv x :
  same_rest (t_infomask (fields tuple)) (xp_infomask x) ->
  rv = TransactionIdIsNormal (HeapTupleHeaderGetXvac (fields tuple)) ->
  (freeze_xmax x = false ->
     xmax_present (xp_xmax x) (xp_infomask x) = negb (xmax_already_frozen x)) ->
  pg_tde_tuple_needs_eventual_freeze (pg_tde_execute_freeze_tuple tuple (freeze_plan tuple fx rv x))
  = negb ((fx || negb (TransactionIdIsNormal (HeapTupleHeaderGetXmin (fields tuple))))
          && (freeze_xmax x || xmax_already_frozen x)).
Proof.
  intros Hr Hrv Hx. unfold pg_tde_tuple_needs_eventual_freeze.
  rewrite plan_xvac, plan_xmin by done. rewrite andb_false_r.
  destruct (plan_masks tuple fx rv x Hr) as (_ & _ & Hm).
  assert (Ep : xmax_present (t_xmax (fields (pg_tde_execute_freeze_tuple tuple (freeze_plan tuple fx rv x))))
    (t_infomask (fields (pg_tde_execute_freeze_tuple tuple (freeze_plan tuple fx rv x))))
    = negb (freeze_xmax x || xmax_already_frozen x)).
  { cbn [fields pg_tde_execute_freeze_tuple t_infomask t_xmax].
    assert (Ex : fz_xmax (freeze_plan tuple fx rv x) = if freeze_xmax x then InvalidTransactionId else xp_xmax x)
      by (unfold freeze_plan; by destruct (freeze_xmax x)).
    rewrite Ex. destruct (freeze_xmax x); cbn [orb].
    - unfold xmax_present. by rewrite Hm, invalid_permanent.
    - rewrite <- Hx by done. unfold xmax_present. by rewrite (sx_multi _ _ Hm). }
  unfold xmax_present in Ep. rewrite Ep.
  destruct fx; cbn [orb].
  - rewrite frozen_permanent. by destruct (freeze_xmax x || xmax_already_frozen x).
  - destruct (TransactionIdIsNormal (HeapTupleHeaderGetXmin (fields tuple))); cbn; [done|].
    by destruct (freeze_xmax x || xmax_already_frozen x).
Qed.

(** ** pg_tde_prepare_freeze_tuple *)

(** The tuple the caller ends up with, when it freezes the page. *)
Definition tuple_after (do_freeze : bool) (frz : HeapTupleFreeze) (tuple : TupleHeader) : TupleHeader :=
  if do_freeze then pg_tde_execute_freeze_tuple tuple frz else tuple.

Record prepared (c : VacuumCutoffs) (s : LockState) (tuple : TupleHeader) (p : HeapPageFreeze)
    (r : bool * HeapPageFreeze * HeapTupleFreeze * bool) (s' : LockState) : Prop := {
  pp_required : freeze_required p = true -> freeze_required (r.1.1.2) = true;
  pp_xid : xid_le (FreezePageRelfrozenXid r.1.1.2) (FreezePageRelfrozenXid p);
  pp_multi : multi_le (FreezePageRelminMxid r.1.1.2) (FreezePageRelminMxid p);
  pp_no_xid : xid_le (NoFreezePageRelfrozenXid r.1.1.2) (NoFreezePageRelfrozenXid p);
  pp_no_multi : multi_le (NoFreezePageRelminMxid r.1.1.2) (NoFreezePageRelminMxid p);
  (** with freezing, what is left is recent *)
  pp_recent : recent_tuple c (multis s') (FreezePageRelfrozenXid r.1.1.2) (FreezePageRelminMxid r.1.1.2)
    (tuple_after r.1.1.1 r.1.2 tuple);
  (** without, it is tracked *)
  pp_tracked : freeze_required r.1.1.2 = false ->
    recent_tuple c (multis s') (NoFreezePageRelfrozenXid r.1.1.2) (NoFreezePageRelminMxid r.1.1.2) tuple;
  pp_frozen : r.2 = negb (pg_tde_tuple_needs_eventual_freeze (tuple_after r.1.1.1 r.1.2 tuple));
}.

Lemma consider_page_wp c tuple already p (s : LockState) : cutoffs_ok c -> trackers_ok c p ->
  (freeze_required p = false -> tuple_ok c (multis s) (lk_clock s) tuple) ->
  (freeze_required p = false -> TransactionIdIsNormal (HeapTupleHeaderGetXvac (fields tuple)) = false) ->
  (freeze_required p = false -> already = true -> forall tx tm, recent_tuple c (multis s) tx tm tuple) ->
  wp (consider_page tuple c already p)
    (fun p' s' => s' = s /\ FreezePageRelfrozenXid p' = FreezePageRelfrozenXid p
       /\ FreezePageRelminMxid p' = FreezePageRelminMxid p
       /\ (freeze_required p = true -> freeze_required p' = true)
       /\ xid_le (NoFreezePageRelfrozenXid p') (NoFreezePageRelfrozenXid p)
       /\ multi_le (NoFreezePageRelminMxid p') (NoFreezePageRelminMxid p)
       /\ (freeze_required p' = false ->
            recent_tuple c (multis s) (NoFreezePageRelfrozenXid p') (NoFreezePageRelminMxid p') tuple)) s.
Proof.
  intros Hc Hp Ht Hvac Hal. destruct Hp as [_ _ Hx Hm].
  assert (Hxx : xid_le (NoFreezePageRelfrozenXid p) (NoFreezePageRelfrozenXid p)) by by split_and!; [..|lia].
  assert (Hmm : multi_le (NoFreezePageRelminMxid p) (NoFreezePageRelminMxid p)) by by split_and!; [..|lia].
  unfold consider_page. destruct (freeze_required p) eqn:Er; cbn [negb andb].
  { wps. split_and!; try done. congruence. }
  destruct already; cbn [negb].
  { wps. split_and!; try done. intros _. by apply Hal. }
  wps. eapply wp_mono; [by apply should_freeze_tracks; [..|apply Ht|apply Hvac]|].
  intros [[req tx] tm] s' (-> & H1 & H2 & H3). wps. by split_and!.
Qed.

Lemma trackers_after c p p' : trackers_ok c p -> page_after p p' -> trackers_ok c p'.
Proof.
  intros [T1 T2 T3 T4] [G1 G2 G3 G4 G5].
  split; [by etransitivity|by etransitivity|by rewrite G4|by rewrite G5].
Qed.

Lemma forced_if (b : bool) p : let p1 := if b then forced p else p in
  FreezePageRelfrozenXid p1 = FreezePageRelfrozenXid p
  /\ FreezePageRelminMxid p1 = FreezePageRelminMxid p
  /\ NoFreezePageRelfrozenXid p1 = NoFreezePageRelfrozenXid p
  /\ NoFreezePageRelminMxid p1 = NoFreezePageRelminMxid p
  /\ (freeze_required p = true -> freeze_required p1 = true).
Proof. by destruct b. Qed.

(** An xmin that is not frozen is recent. *)
Lemma xmin_recent c st t tuple p : cutoffs_ok c -> tuple_ok c st t tuple -> trackers_ok c p ->
  let xmin := HeapTupleHeaderGetXmin (fields tuple) in
  TransactionIdIsNormal xmin && TransactionIdPrecedes xmin (OldestXmin c) = false ->
  TransactionIdIsNormal xmin = true -> recent c (FreezePageRelfrozenXid p) xmin.
Proof.
  intros Hc Ht Hp xmin Hfx En. apply oldest_recent; [done|apply Hp|]. rewrite En in Hfx. cbn in Hfx.
  destruct (tk_xmin _ _ _ _ Ht En) as (_ & Hin & _). apply precedes_le; [|done..].
  by destruct (co_limit c Hc) as (_ & ? & _).
Qed.

Lemma prepare_wp c tuple p (s : LockState) : cutoffs_ok c -> trackers_ok c p ->
  tuple_ok c (multis s) (lk_clock s) tuple ->
  wp (pg_tde_prepare_freeze_tuple tuple c p) (prepared c s tuple p) s.
Proof.
  intros Hc Hp Ht. unfold pg_tde_prepare_freeze_tuple.
  set (xmin := HeapTupleHeaderGetXmin (fields tuple)).
  set (fx := negb (negb (TransactionIdIsNormal xmin)) && TransactionIdPrecedes xmin (OldestXmin c)).
  set (rv := TransactionIdIsNormal (HeapTupleHeaderGetXvac (fields tuple))).
  set (p1 := if rv then forced p else p).
  assert (Hold : negb (negb (TransactionIdIsNormal xmin)) && TransactionIdPrecedes xmin (relfrozenxid c) = false).
  { destruct (TransactionIdIsNormal xmin) eqn:En; [|done]. by apply not_precedes, (tk_xmin _ _ _ _ Ht). }
  rewrite Hold. assert (Hp1 : trackers_ok c p1) by (unfold p1; destruct rv, Hp; by split).
  apply wp_bind. apply (wp_mono _ (xmax_planned c s tuple p1)).
  { destruct (has _ HEAP_XMAX_IS_MULTI) eqn:Em; [by apply multi_xmax_wp|].
    wps. eapply wp_mono; [by apply single_xmax_wp|]. cbn. intros x s' Hx. by wps. }
  intros [x p2] s1 [Hpg Hrest Hrec Halr Hsame Hst]. cbn [fst snd] in *.
  pose proof (trackers_after _ _ _ Hp1 Hpg) as Hp2.
  assert (Hnov : freeze_required p2 = false -> rv = false).
  { intros E. destruct rv eqn:Erv; [|done]. by rewrite (pa_required _ _ Hpg) in E. }
  assert (Hxmin : fx = false -> TransactionIdIsNormal xmin = true -> recent c (FreezePageRelfrozenXid p2) xmin)
    by (unfold fx; rewrite negb_involutive; by apply (xmin_recent c (multis s) (lk_clock s) tuple p2)).
  wps. eapply wp_mono; [apply consider_page_wp; [done|done| |by intros; apply Hnov|]|].
  - intros E. by rewrite (Hst E).
  - intros E [Hi Ha]%andb_true_iff tx tm. apply negb_true_iff in Hi. split.
    + fold xmin. by rewrite Hi.
    + specialize (Halr Ha). unfold xmax_present in Halr. unfold recent_xmax.
      destruct (has _ HEAP_XMAX_IS_MULTI); by rewrite Halr.
    + by apply Hnov.
  - intros p3 s2 (-> & E1 & E2 & Hq & Hx & Hm & Htr). wps.
    assert (Hafter : tuple_after (fx || rv || replace_xmax x || freeze_xmax x) (freeze_plan tuple fx rv x) tuple
      = pg_tde_execute_freeze_tuple tuple (freeze_plan tuple fx rv x)).
    { unfold tuple_after. destruct fx; [done|]. destruct rv; [done|].
      destruct (replace_xmax x) eqn:Er; [done|]. destruct (freeze_xmax x) eqn:Ef; [done|]. cbn.
      symmetry. apply plan_nothing; [done|by apply Hsame]. }
    destruct Hpg as [G1 G2 G3 G4 G5].
    destruct (forced_if rv p) as (F1 & F2 & F3 & F4 & F5). fold p1 in F1, F2, F3, F4, F5.
    rewrite F1, F2, F3, F4 in *.
    split; cbn [fst snd]; rewrite ?Hafter, ?E1, ?E2; try done; [auto|congruence|congruence| |].
    + apply plan_recent; [done|done|done|]. intros E. by apply Hrec.
    + rewrite plan_needs; [by rewrite negb_involutive|done|done|]. intros E. by apply Hrec.
Qed.
End prepare.
