(* ===== verification/FreezeClaims.v ===== *)
(** What freezing promises: no old id stays behind in a frozen tuple, the
    trackers cover what stays, "totally frozen" is true, and a standby
    freezes the same.  [ToyFreeze] has ids in their natural order. *)
From S2P Require Import Prelude EncAes RelKeys EncTuple KeyringTypes KeyringApi KeyringClaims XactHandler TdeMap TdeClaims TupleIO Visibility VisibilityProps VisibilityClaims Prune PruneClaims LockFlags MultiXact MultiXactProps MultiXactClaims HotChain HotProps PagePrune HotClaims Freeze FreezePage FreezeProps FreezePrepare.

(** ** A tuple *)

Section tuple.
Context `{HH : HtupFlags} `{HHL : !HtupFlagsLaws} `{HW : World} `{HWL : !WorldLaws}.
Context `{HLF : LockFlags} `{HFB : !FlagBits} `{HMX : MultiXacts} `{HML : !MultiXactsLaws}.
Context `{HX : XidMacros} `{HXL : !XidMacrosLaws}.

(** C6: freezing leaves nothing old behind.  For a tuple of the table,
    pg_tde_prepare_freeze_tuple returns, and once its plan is carried out
    pg_tde_tuple_should_freeze finds nothing before FreezeLimit or
    MultiXactCutoff in the tuple, nor anything before the page's freeze
    trackers; these have only gone back. *)
Theorem freezing_leaves_nothing_old c tuple p (s : LockState) (Hc : cutoffs_ok c)
    (Hp : trackers_ok c p) (Ht : tuple_ok c (multis s) (lk_clock s) tuple) :
  exists do_freeze p' frz totally s',
    pg_tde_prepare_freeze_tuple tuple c p s = (Ret (do_freeze, p', frz, totally), s')
    /\ pg_tde_tuple_should_freeze (tuple_after do_freeze frz tuple) c
         (FreezePageRelfrozenXid p') (FreezePageRelminMxid p') s'
       = (Ret (false, FreezePageRelfrozenXid p', FreezePageRelminMxid p'), s')
    /\ xid_le (FreezePageRelfrozenXid p') (FreezePageRelfrozenXid p)
    /\ multi_le (FreezePageRelminMxid p') (FreezePageRelminMxid p).
Proof.
  destruct (wp_run _ _ _ (prepare_wp c tuple p s Hc Hp Ht)) as ([[[do p'] frz] tot] & s' & E & Hpp).
  exists do, p', frz, tot, s'. split_and!; [done| |apply Hpp|apply Hpp].
  apply should_freeze_recent, Hpp.
Qed.

(** a page that is not frozen is accounted for.  When nothing forces
    the page to be frozen, the tuple as it is has nothing before the limits,
    and nothing before the page's no-freeze trackers, which have only gone
    back. *)
Theorem unfrozen_is_tracked c tuple p (s : LockState) do_freeze p' frz totally s' (Hc : cutoffs_ok c)
    (Hp : trackers_ok c p) (Ht : tuple_ok c (multis s) (lk_clock s) tuple)
    (Hrun : pg_tde_prepare_freeze_tuple tuple c p s = (Ret (do_freeze, p', frz, totally), s'))
    (Hnot : freeze_required p' = false) :
  freeze_required p = false
  /\ pg_tde_tuple_should_freeze tuple c (NoFreezePageRelfrozenXid p') (NoFreezePageRelminMxid p') s'
     = (Ret (false, NoFreezePageRelfrozenXid p', NoFreezePageRelminMxid p'), s')
  /\ xid_le (NoFreezePageRelfrozenXid p') (NoFreezePageRelfrozenXid p)
  /\ multi_le (NoFreezePageRelminMxid p') (NoFreezePageRelminMxid p).
Proof.
  destruct (wp_run _ _ _ (prepare_wp c tuple p s Hc Hp Ht)) as (r & s1 & E & Hpp).
  rewrite Hrun in E. injection E as <- <-. destruct Hpp as [H1 _ _ H4 H5 _ H7 _]. cbn in *.
  split_and!; [|by apply should_freeze_recent, H7|done|done].
  destruct (freeze_required p); [by rewrite H1 in Hnot|done].
Qed.

(** totally frozen means frozen.  [*totally_frozen] is set exactly
    when, after the plan is carried out,
    pg_tde_tuple_needs_eventual_freeze finds no id that a later VACUUM
    would have to freeze. *)
Theorem totally_frozen_means_frozen c tuple p (s : LockState) do_freeze p' frz totally s'
    (Hc : cutoffs_ok c) (Hp : trackers_ok c p) (Ht : tuple_ok c (multis s) (lk_clock s) tuple)
    (Hrun : pg_tde_prepare_freeze_tuple tuple c p s = (Ret (do_freeze, p', frz, totally), s')) :
  totally = negb (pg_tde_tuple_needs_eventual_freeze (tuple_after do_freeze frz tuple)).
Proof.
  destruct (wp_run _ _ _ (prepare_wp c tuple p s Hc Hp Ht)) as (r & s1 & E & Hpp).
  rewrite Hrun in E. injection E as <- <-. apply (pp_frozen _ _ _ _ _ _ Hpp).
Qed.
End tuple.

(** ** A page *)

Section page.
Context `{HH : HtupFlags} `{HHL : !HtupFlagsLaws} `{HW : World} `{HWL : !WorldLaws}.
Context `{HM : PageMacros} `{HLP : LinePointers} `{HLL : !LinePointersLaws} `{HPE : PruneEnv}.

(** C15: a page is frozen, and frozen alike on a standby.  When the checks
    of the plans hold, pg_tde_freeze_execute_prepared freezes each tuple by
    its plan and no other; its record has no plan twice; and replaying the
    record on a page with the same tuples gives the same tuples. *)
Theorem freezing_replays_alike horizon tuples (s : FreezeState)
    (Hok : Forall (checkable s) tuples) (Hnd : NoDup (fz_offset <$> tuples))
    (Hlen : (length tuples <= MaxHeapTuplesPerPage)%nat) (Hwal : RelationNeedsWAL = true) :
  exists s' r, pg_tde_freeze_execute_prepared horizon tuples s = (Ret tt, s')
    /\ (forall frz, frz ∈ tuples -> htups s' !! fz_offset frz
          = (fun t => pg_tde_execute_freeze_tuple t frz) <$> htups s !! fz_offset frz)
    /\ (forall o, o ∉ fz_offset <$> tuples -> htups s' !! o = htups s !! o)
    /\ fs_wal s' = fs_wal s ++ [r] /\ NoDup (steps <$> fp_plans r)
    /\ forall lsn (t : FreezeState), htups t = htups s -> exists t',
         pg_tde_xlog_freeze_page BLK_NEEDS_REDO lsn r t = (Ret tt, t')
         /\ htups t' = htups s' /\ fs_lsn t' = lsn.
Proof.
  assert (Hin : Forall (fun f => is_Some (htups s !! fz_offset f)) tuples).
  { eapply Forall_impl; [exact Hok|]. by intros f (h & E & _); exists h. }
  destruct (execute_total _ _ Hin) as [h' Eh].
  destruct (execute_lookup _ _ _ Eh Hnd) as [Hfrz Hrest].
  destruct (wp_run _ _ _ (execute_prepared_wp horizon tuples s h' Hok Eh Hlen))
    as ([] & s' & E & Hh & _ & Hw). rewrite Hwal in Hw. destruct Hw as [Hw _].
  exists s', (freeze_record horizon tuples). rewrite Hh.
  split_and!; [done|done|done|done| |].
  - unfold freeze_record. destruct (pg_tde_log_freeze_plan tuples) as [plans offsets] eqn:El.
    by eapply log_plan_distinct.
  - intros lsn t Ht. pose proof few_items as Hmax.
    destruct (wp_run _ _ _ (replay_wp horizon tuples lsn h' t Hnd ltac:(lia) ltac:(by rewrite Ht)))
      as ([] & t' & Er & Hh' & Hl & _).
    exists t'. by split_and!.
Qed.

(** a failed check leaves the page alone.  When an xmin to be frozen
    did not commit, or an xmax to be removed did, the call raises an error
    and the tuples, the LSN and the WAL are as before. *)
Theorem failed_check_freezes_nothing horizon tuples (s : FreezeState) frz htup
    (Hin : Forall (fun f => is_Some (htups s !! fz_offset f)) tuples) (Hfrz : frz ∈ tuples)
    (Htup : htups s !! fz_offset frz = Some htup) (Hfail : check_fails (fs_clock s) htup frz) :
  exists s', pg_tde_freeze_execute_prepared horizon tuples s = (Raise ERROR, s')
    /\ htups s' = htups s /\ fs_dirty s' = fs_dirty s /\ fs_lsn s' = fs_lsn s /\ fs_wal s' = fs_wal s.
Proof.
  destruct (check_loop_fails tuples s frz htup Hin Hfrz Htup Hfail) as (s' & E & Hl).
  exists s'. unfold pg_tde_freeze_execute_prepared. rewrite (bind_Raise _ _ _ _ _ E).
  destruct Hl as (_ & H1 & H2 & H3 & H4 & _). by split_and!.
Qed.
End page.

(** ** Ids in their natural order *)

Module ToyFreeze.
Import ToyWorld ToyEVP ToyPage ToyKeyring ToyTde ToyPrune ToyLocks ToyHot.

#[export] Instance toy_xids : XidMacros := {|
  TransactionIdIsNormal x := 3 <=? x;
  MultiXactIdIsValid m := negb (m =? 0);
  MultiXactIdPrecedes x y := x <? y;
|}.

#[export] Instance toy_xids_laws : XidMacrosLaws.
Proof.
  refine {| xid_in x := True; xid_rank x := x; multi_in x := True; multi_rank x := x |}; try done.
  cbn. intros x y Hx Hy. lia.
Defined.

Definition cutoffs : VacuumCutoffs :=
  {| relfrozenxid := 3; relminmxid := 1; OldestXmin := 8; OldestMxact := 1;
     FreezeLimit := 6; MultiXactCutoff := 1 |}.

(** The trackers at the start of a page. *)
Definition fresh : HeapPageFreeze :=
  {| freeze_required := false; FreezePageRelfrozenXid := 8; FreezePageRelminMxid := 1;
     NoFreezePageRelfrozenXid := 8; NoFreezePageRelminMxid := 1 |}.

(** A comparison of numbers is a comparison of ids. *)
Ltac ids := repeat split; vm_compute; congruence.

Lemma cutoffs_fine : cutoffs_ok cutoffs.
Proof.
  split; [ids|ids|done|ids|].
  intros st ms m st' E. injection E as <- _. split; [done|].
  split_and!; [done|done|unfold multi_of; cbn -[encode]; lia].
Qed.

Lemma fresh_fine : trackers_ok cutoffs fresh.
Proof. split; try done; ids. Qed.

(** Inserted by 5, locked through a multixact. *)
Definition locked_tuple : TupleHeader := header 5 shared_multi 1 shared_mask 0.

Lemma locked_tuple_fine : tuple_ok cutoffs (multis (locked 0)) 0 locked_tuple.
Proof.
  split.
  - intros _. ids.
  - intros H. discriminate.
  - done.
  - intros _ _ _. split_and!.
    + ids.
    + repeat constructor; cbn; lia.
    + apply Forall_cons. split; [intros _; ids|]. apply Forall_cons. split; [|by apply Forall_nil].
      intros [H|[H _]]; discriminate.
    + vm_compute. lia.
    + intros H. discriminate.
    + intros H. discriminate.
Qed.

(** Three tuples of a page to freeze, two of them alike. *)
Definition plan_at (o : Z) (xmax mask check : Z) : HeapTupleFreeze :=
  {| fz_xmax := xmax; fz_infomask2 := 0; fz_infomask := mask; frzflags := 0; checkflags := check;
     fz_offset := o |}.
Definition plans3 : list HeapTupleFreeze :=
  [plan_at 1 0 0x0b00 1; plan_at 2 9 0x0300 1; plan_at 4 0 0x0b00 3].
Definition page3 (xmin4 : Z) : FreezeState :=
  {| fs_clock := 0;
     htups := {[1 := header 5 0 1 0x0800 0; 2 := header 5 9 2 0 0; 4 := header xmin4 7 4 0 0]};
     fs_dirty := false; fs_lsn := 0; fs_wal := []; fs_conflicts := [] |}.

Lemma page3_fine : Forall (checkable (page3 5)) plans3.
Proof.
  repeat (apply Forall_cons; split); [| | |by apply Forall_nil]; eexists; (split; [reflexivity|]);
    by split; cbn.
Qed.
End ToyFreeze.

Section witnesses.
Import ToyWorld ToyEVP ToyPage ToyKeyring ToyTde ToyPrune ToyLocks ToyHot ToyFreeze.

Lemma freezing_leaves_nothing_old_witness :
  exists do_freeze p' frz totally s',
    pg_tde_prepare_freeze_tuple locked_tuple cutoffs fresh (locked 0)
      = (Ret (do_freeze, p', frz, totally), s')
    /\ do_freeze = true /\ fz_xmax frz = multi_of [{| xid := 9; status := MultiXactStatusForShare |}] /\ totally = false
    /\ pg_tde_tuple_should_freeze (tuple_after do_freeze frz locked_tuple) cutoffs
         (FreezePageRelfrozenXid p') (FreezePageRelminMxid p') s'
       = (Ret (false, FreezePageRelfrozenXid p', FreezePageRelminMxid p'), s').
Proof.
  destruct (freezing_leaves_nothing_old cutoffs locked_tuple fresh (locked 0)
    cutoffs_fine fresh_fine locked_tuple_fine) as (d & p' & frz & tot & s' & E & H & _).
  exists d, p', frz, tot, s'. vm_compute in E. injection E as <- <- <- <- <-.
  split; [reflexivity|]. split; [reflexivity|]. split; [reflexivity|]. split; [reflexivity|]. exact H.
Defined.

(** Inserted by 9, which still runs. *)
Definition young_tuple : TupleHeader := header 9 0 1 0 0.

Lemma young_tuple_fine : tuple_ok cutoffs (multis (locked 0)) 0 young_tuple.
Proof.
  split; try (intros H; discriminate).
  - intros _. ids.
  - done.
Qed.

Lemma unfrozen_is_tracked_witness :
  pg_tde_tuple_should_freeze young_tuple cutoffs 8 1 (locked 0) = (Ret (false, 8, 1), locked 0)
  /\ freeze_required fresh = false.
Proof.
  destruct (unfrozen_is_tracked cutoffs young_tuple fresh (locked 0) false fresh
    (plan_at 0 0 0 0) false (locked 0) cutoffs_fine fresh_fine young_tuple_fine) as (H1 & H2 & _); [reflexivity|reflexivity|].
  split; [exact H2|exact H1].
Defined.

Lemma totally_frozen_means_frozen_witness :
  exists frz, pg_tde_tuple_needs_eventual_freeze (tuple_after true frz locked_tuple) = true.
Proof.
  destruct (pg_tde_prepare_freeze_tuple locked_tuple cutoffs fresh (locked 0)) as [r s'] eqn:E.
  pose proof (totally_frozen_means_frozen cutoffs locked_tuple fresh (locked 0)) as H.
  vm_compute in E. injection E as <- <-. eexists.
  specialize (H _ _ _ _ _ cutoffs_fine fresh_fine locked_tuple_fine eq_refl).
  symmetry in H. apply negb_false_iff in H. exact H.
Defined.

Lemma freezing_replays_alike_witness :
  exists s' r, pg_tde_freeze_execute_prepared 8 plans3 (page3 5) = (Ret tt, s')
    /\ length (fp_plans r) = 2%nat
    /\ exists t', pg_tde_xlog_freeze_page BLK_NEEDS_REDO 77 r (page3 5) = (Ret tt, t')
         /\ htups t' = htups s'.
Proof.
  destruct (freezing_replays_alike 8 plans3 (page3 5) page3_fine) as (s' & r & E & _ & _ & Hw & _ & Hr).
  - apply (bool_decide_unpack _). vm_compute. exact I.
  - apply (bool_decide_unpack _). vm_compute. exact I.
  - reflexivity.
  - exists s', r. split; [exact E|]. split.
    + assert (E' := E). vm_compute in E'. injection E' as <-. vm_compute in Hw.
      injection Hw as <-. reflexivity.
    + destruct (Hr 77 (page3 5) eq_refl) as (t' & Et & Ht & _). exists t'. split; [exact Et|exact Ht].
Defined.

Lemma failed_check_freezes_nothing_witness :
  exists s', pg_tde_freeze_execute_prepared 8 plans3 (page3 7) = (Raise ERROR, s')
    /\ htups s' = htups (page3 7) /\ fs_wal s' = [].
Proof.
  destruct (failed_check_freezes_nothing 8 plans3 (page3 7) (plan_at 4 0 0x0b00 3) (header 7 7 4 0 0))
    as (s' & E & H1 & _ & _ & H4).
  - repeat (apply Forall_cons; split); [eexists; reflexivity..|apply Forall_nil; exact I].
  - apply elem_of_cons; right. apply elem_of_cons; right. left.
  - reflexivity.
  - left. split; [reflexivity|]. intros t' Ht. reflexivity.
  - exists s'. split; [exact E|]. split; [exact H1|exact H4].
Defined.
End witnesses.
