(* ===== verification/Vacuum.v ===== *)
(** Lazy VACUUM: the routines of src/src/access/pg_tde_vacuumlazy.c that
    decide which blocks are skipped, prune and freeze a page, remove its dead
    line pointers, mark it all-visible, and find the empty end of the table.

    A page is that of [PagePrune]; multixacts and the clock are those of
    [Freeze].  Index vacuuming, progress reports and statistics are the
    server's. *)
From S2P Require Import Prelude EncAes RelKeys EncTuple KeyringTypes KeyringApi XactHandler TdeMap TupleIO Visibility VisibilityMap Prune LockFlags MultiXact HotChain PagePrune Freeze.

Definition SKIP_PAGES_THRESHOLD : Z := 32.
Definition REL_TRUNCATE_MINIMUM : Z := 1000.
Definition REL_TRUNCATE_FRACTION : Z := 16.

(** What the counts of a page are added to. *)
Record VacCounts := {
  tuples_deleted : Z;
  tuples_frozen : Z;
  lpdead_items : Z;
  live_tuples : Z;
  recently_dead_tuples : Z;
  missed_dead_tuples : Z;
  lpdead_item_pages : Z;
  missed_dead_pages : Z;
  frozen_pages : Z;
}.

(** [dead_items] with [max_items]: the VacDeadItems. *)
Record LVRelState := {
  nindexes : Z;
  aggressive : bool;
  skipwithvm : bool;
  do_rel_truncate : bool;
  cutoffs : VacuumCutoffs;
  NewRelfrozenXid : Z;
  NewRelminMxid : Z;
  skippedallvis : bool;
  dead_items : list (Z * Z);
  max_items : Z;
  rel_pages : Z;
  nonempty_pages : Z;
  counts_of : VacCounts;
}.

Record LVPagePruneState := {
  hastup : bool;
  has_lpdead_items : bool;
  ps_all_visible : bool;
  ps_all_frozen : bool;
  visibility_cutoff_xid : Z;
}.

Record xl_pg_tde_vacuum := { xl_nunused : Z; xl_unused : list Z }.

(** Writing a whole header, the macros and settings of the server, and the
    count of full-page images after a number of prune records at a time. *)
Class VacEnv := {
  put_header : list Z -> ItemId -> TupleHeader -> list Z;
  TransactionIdRetreat : Z -> Z;
  wal_fpi : nat -> nat -> Z;
  VacuumFailsafeActive : bool;
  vac_work_mem : Z;
  MaxAllocSize : Z;
  MAXDEADITEMS : Z -> Z;
}.

(** The page at hand with PD_ALL_VISIBLE, the map, multixacts, VACUUM's own
    state, and the records of freezing and of the second pass. *)
Record VacState `{HE : EVP} `{HC : Curl} `{HMX : MultiXacts} := {
  vpage : PageState;
  page_visible : bool;
  vmap : VmState;
  vlocks : LockState;
  vacrel : LVRelState;
  freeze_wal : list xl_pg_tde_freeze_page;
  vacuum_wal : list xl_pg_tde_vacuum;
}.

Section vacuum.
Context `{HE : EVP} `{HS : CIntShift}.
Context `{HJ : Json} `{HB : Base64} `{HC : Curl} `{HF : KeyringFs}.
Context `{HT : TdeEnv} `{HP : PgBlockSize} `{HM : PageMacros}.
Context `{HH : HtupFlags} `{HW : World} `{HLP : LinePointers} `{HHF : HotFlags} `{HPE : PruneEnv}.
Context `{HLF : LockFlags} `{HMX : MultiXacts} `{HX : XidMacros} `{HV : VmEnv} `{HVE : VacEnv}.
Variable g : AesGlobals.

Local Abbreviation MG := (M PageState).
Local Abbreviation MC := (M VacState).

(** ** State *)

Definition with_vpage (p : PageState) (s : VacState) : VacState :=
  {| vpage := p; page_visible := page_visible s; vmap := vmap s; vlocks := vlocks s; vacrel := vacrel s;
     freeze_wal := freeze_wal s; vacuum_wal := vacuum_wal s |}.
Definition with_page_visible (b : bool) (s : VacState) : VacState :=
  {| vpage := vpage s; page_visible := b; vmap := vmap s; vlocks := vlocks s; vacrel := vacrel s;
     freeze_wal := freeze_wal s; vacuum_wal := vacuum_wal s |}.
Definition with_vmap (v : VmState) (s : VacState) : VacState :=
  {| vpage := vpage s; page_visible := page_visible s; vmap := v; vlocks := vlocks s; vacrel := vacrel s;
     freeze_wal := freeze_wal s; vacuum_wal := vacuum_wal s |}.
Definition with_vlocks (l : LockState) (s : VacState) : VacState :=
  {| vpage := vpage s; page_visible := page_visible s; vmap := vmap s; vlocks := l; vacrel := vacrel s;
     freeze_wal := freeze_wal s; vacuum_wal := vacuum_wal s |}.
Definition with_vacrel (r : LVRelState) (s : VacState) : VacState :=
  {| vpage := vpage s; page_visible := page_visible s; vmap := vmap s; vlocks := vlocks s; vacrel := r;
     freeze_wal := freeze_wal s; vacuum_wal := vacuum_wal s |}.
Definition with_vac_wal (f : list xl_pg_tde_freeze_page) (v : list xl_pg_tde_vacuum) (s : VacState) : VacState :=
  {| vpage := vpage s; page_visible := page_visible s; vmap := vmap s; vlocks := vlocks s; vacrel := vacrel s;
     freeze_wal := f; vacuum_wal := v |}.

Definition with_skipped (r : LVRelState) : LVRelState :=
  {| nindexes := nindexes r; aggressive := aggressive r; skipwithvm := skipwithvm r; do_rel_truncate := do_rel_truncate r;
     cutoffs := cutoffs r; NewRelfrozenXid := NewRelfrozenXid r; NewRelminMxid := NewRelminMxid r; skippedallvis := true;
     dead_items := dead_items r; max_items := max_items r; rel_pages := rel_pages r; nonempty_pages := nonempty_pages r;
     counts_of := counts_of r |}.
Definition with_trackers (x m : Z) (r : LVRelState) : LVRelState :=
  {| nindexes := nindexes r; aggressive := aggressive r; skipwithvm := skipwithvm r; do_rel_truncate := do_rel_truncate r;
     cutoffs := cutoffs r; NewRelfrozenXid := x; NewRelminMxid := m; skippedallvis := skippedallvis r;
     dead_items := dead_items r; max_items := max_items r; rel_pages := rel_pages r; nonempty_pages := nonempty_pages r;
     counts_of := counts_of r |}.
Definition with_dead_items (l : list (Z * Z)) (r : LVRelState) : LVRelState :=
  {| nindexes := nindexes r; aggressive := aggressive r; skipwithvm := skipwithvm r; do_rel_truncate := do_rel_truncate r;
     cutoffs := cutoffs r; NewRelfrozenXid := NewRelfrozenXid r; NewRelminMxid := NewRelminMxid r;
     skippedallvis := skippedallvis r; dead_items := l; max_items := max_items r; rel_pages := rel_pages r;
     nonempty_pages := nonempty_pages r; counts_of := counts_of r |}.
Definition with_counts (c : VacCounts) (r : LVRelState) : LVRelState :=
  {| nindexes := nindexes r; aggressive := aggressive r; skipwithvm := skipwithvm r; do_rel_truncate := do_rel_truncate r;
     cutoffs := cutoffs r; NewRelfrozenXid := NewRelfrozenXid r; NewRelminMxid := NewRelminMxid r;
     skippedallvis := skippedallvis r; dead_items := dead_items r; max_items := max_items r; rel_pages := rel_pages r;
     nonempty_pages := nonempty_pages r; counts_of := c |}.

Definition on_vpage {A} (m : MG A) : MC A := zoom vpage with_vpage m.
Definition on_rel (f : LVRelState -> LVRelState) : MC unit := modify (fun s => with_vacrel (f (vacrel s)) s).

(** The LSN of the heap page is that of the page at hand. *)
Definition map_of (s : VacState) : VmState :=
  {| vm_fork := vm_fork (vmap s); smgr_cached_nblocks := smgr_cached_nblocks (vmap s); pinned := pinned (vmap s);
     heap_lsn := pd_lsn (vpage s); wal := wal (vmap s) |}.
Definition with_map (v : VmState) (s : VacState) : VacState :=
  with_vmap v (with_vpage (with_header (pd_prune_xid (vpage s)) (page_full (vpage s)) (heap_lsn v) (vpage s)) s).
Definition on_vmap {A} (m : M VmState A) : MC A := zoom map_of with_map m.

(** There is one clock. *)
Definition with_lk_clock (t : nat) (l : LockState) : LockState :=
  {| multis := multis l; lk_clock := t; warned := warned l; tuplocks := tuplocks l |}.
Definition locks_of (s : VacState) : LockState := with_lk_clock (now (vpage s)) (vlocks s).
Definition with_locks (l : LockState) (s : VacState) : VacState :=
  with_vlocks l (with_vpage (with_now (lk_clock l) (vpage s)) s).
Definition on_vlocks {A} (m : M LockState A) : MC A := zoom locks_of with_locks m.

(** ** Which blocks are skipped *)

(** From [next_unskippable_block] on, [n] blocks are left: the block where
    the range ends, [*next_unskippable_allvis], [skipsallvis], [vmbuffer]. *)
Fixpoint skip_loop (n : nat) (r : LVRelState) (next_unskippable_block : Z) (skipsallvis : bool) (vmbuffer : Buffer)
    : M VmState (Z * bool * bool * Buffer) :=
  match n with
  | O => ret (next_unskippable_block, true, skipsallvis, vmbuffer)
  | S n =>
      let* b := pg_tde_visibilitymap_get_status next_unskippable_block vmbuffer in
      let '(mapbits, vmbuffer) := b in
      if Z.land mapbits VISIBILITYMAP_ALL_VISIBLE =? 0 then
        ret (next_unskippable_block, false, skipsallvis, vmbuffer)
      else if next_unskippable_block =? rel_pages r - 1 then
        ret (next_unskippable_block, true, skipsallvis, vmbuffer)
      else if negb (skipwithvm r) then
        ret (next_unskippable_block, false, skipsallvis, vmbuffer)
      else if (Z.land mapbits VISIBILITYMAP_ALL_FROZEN =? 0) && aggressive r then
        ret (next_unskippable_block, true, skipsallvis, vmbuffer)
      else
        skip_loop n r (next_unskippable_block + 1)
          (skipsallvis || (Z.land mapbits VISIBILITYMAP_ALL_FROZEN =? 0)) vmbuffer
  end.

(** The block, [*next_unskippable_allvis], [*skipping_current_range],
    [*vmbuffer]. *)
Definition lazy_scan_skip (next_block : Z) (vmbuffer : Buffer) : MC (Z * bool * bool * Buffer) :=
  let* r := gets vacrel in
  let* x := on_vmap (skip_loop (Z.to_nat (rel_pages r - next_block)) r next_block false vmbuffer) in
  let '(next_unskippable_block, allvis, skipsallvis, vmbuffer) := x in
  if next_unskippable_block - next_block <? SKIP_PAGES_THRESHOLD then
    ret (next_unskippable_block, allvis, false, vmbuffer)
  else
    (if (skipsallvis : bool) then on_rel with_skipped else ret tt);;;
    ret (next_unskippable_block, allvis, true, vmbuffer).

(** ** Is a page all-visible? *)

(** Code on the header of a tuple of the page; its hint bits go to the
    page. *)
Definition on_header {A} (lp : ItemId) (h : TupleHeader) (m : M VisState A) : MG A := fun s =>
  let '(r, v) := m {| hdr := fields h; clock := now s; dirtied := false |} in
  (r, with_now (clock v)
        (with_dirty (buffer_dirty s) (hint_dirty s || dirtied v)
          (with_base {| tde := tde (base s); scratch := scratch (base s);
                        page := with_bytes (put_infomask (bytes_of s) lp (t_infomask (hdr v)))
                                  (page (base s)) |} s))).

(** The header of an item, as it is now. *)
Definition header_on (lp : ItemId) : MG TupleHeader := let* s := get in defined (tuple_on s lp).

Definition newer_xmin (xmin cutoff : Z) : Z :=
  if TransactionIdFollows xmin cutoff && TransactionIdIsNormal xmin then xmin else cutoff.

(** [None]: the page is not all-visible.  Otherwise the new cutoff and
    [*all_frozen]. *)
Definition visible_item (OldestXmin offnum cutoff : Z) (all_frozen : bool) : MG (option (Z * bool)) :=
  let* linp := gets items_of in
  let* lp := defined (PageGetItemId linp offnum) in
  if negb (ItemIdIsUsed lp) || ItemIdIsRedirected lp then ret (Some (cutoff, all_frozen))
  else if ItemIdIsDead lp then ret None
  else
    let* h := header_on lp in
    let* res := on_header lp h (HeapTupleSatisfiesVacuum OldestXmin) in
    let* h := header_on lp in
    match res with
    | HEAPTUPLE_LIVE =>
        if negb (XminCommitted (t_infomask (fields h))) then ret None else
        let xmin := HeapTupleHeaderGetXmin (fields h) in
        if negb (TransactionIdPrecedes xmin OldestXmin) then ret None else
        ret (Some (newer_xmin xmin cutoff, all_frozen && negb (pg_tde_tuple_needs_eventual_freeze h)))
    | _ => ret None
    end.

(** From [offnum] on, with [n] items left: all-visible, the cutoff,
    [*all_frozen]. *)
Fixpoint visible_loop (n : nat) (OldestXmin offnum cutoff : Z) (all_frozen : bool) : MG (bool * Z * bool) :=
  match n with
  | O => ret (true, cutoff, all_frozen)
  | S n =>
      let* r := visible_item OldestXmin offnum cutoff all_frozen in
      match r with
      | None => ret (false, cutoff, false)
      | Some (cutoff, all_frozen) => visible_loop n OldestXmin (offnum + 1) cutoff all_frozen
      end
  end.

Definition pg_tde_page_is_all_visible (OldestXmin : Z) : MG (bool * Z * bool) :=
  let* linp := gets items_of in
  visible_loop (length linp) OldestXmin 1 InvalidTransactionId true.

(** ** Removing dead line pointers *)

(** The offsets listed for the block, up to the first item of another. *)
Fixpoint listed_for (blkno : Z) (tids : list (Z * Z)) : list Z :=
  match tids with
  | (tblk, toff) :: tids => if tblk =? blkno then toff :: listed_for blkno tids else []
  | [] => []
  end.

Definition log_vacuum (unused : list Z) : MC unit :=
  if PagePrune.RelationNeedsWAL then
    let* s := get in
    modify (with_vac_wal (freeze_wal s)
      (vacuum_wal s ++ [{| xl_nunused := u16 (Z.of_nat (length unused)); xl_unused := unused |}]));;;
    on_vpage (modify (fun p => with_header (pd_prune_xid p) (page_full p)
      (XLogInsert_ptr (length (prune_wal p) + length (vacuum_wal s))) p))
  else ret tt.

Definition visible_flags (all_frozen : bool) : Z :=
  if all_frozen then Z.lor VISIBILITYMAP_ALL_VISIBLE VISIBILITYMAP_ALL_FROZEN else VISIBILITYMAP_ALL_VISIBLE.

(** The index behind the page's items. *)
Definition lazy_vacuum_pg_tde_page (blkno : Z) (index : nat) (vmbuffer : Buffer) : MC nat :=
  let* r := gets vacrel in
  let unused := listed_for blkno (drop index (dead_items r)) in
  crit (
    if (MaxHeapTuplesPerPage <? length unused)%nat then undefined else
    on_vpage (make_unused unused);;;
    on_vpage MarkBufferDirty;;;
    log_vacuum unused);;;
  let* v := on_vpage (pg_tde_page_is_all_visible (OldestXmin (cutoffs r))) in
  let '(all_visible, cutoff, all_frozen) := v in
  (if (all_visible : bool) then
     modify (with_page_visible true);;;
     on_vmap (pg_tde_visibilitymap_set blkno (Some blkno) InvalidXLogRecPtr vmbuffer cutoff (visible_flags all_frozen))
   else ret tt);;;
  ret (index + length unused)%nat.

(** ** What a page adds to VACUUM's state *)

Definition add_counts (deleted frozen lpdead live recent missed pages missed_pages frozen_pgs : Z) (c : VacCounts) : VacCounts :=
  {| tuples_deleted := tuples_deleted c + deleted; tuples_frozen := tuples_frozen c + frozen;
     lpdead_items := lpdead_items c + lpdead; live_tuples := live_tuples c + live;
     recently_dead_tuples := recently_dead_tuples c + recent; missed_dead_tuples := missed_dead_tuples c + missed;
     lpdead_item_pages := lpdead_item_pages c + pages; missed_dead_pages := missed_dead_pages c + missed_pages;
     frozen_pages := frozen_pages c + frozen_pgs |}.

(** [dead_items->items[dead_items->num_items++]] for each offset; the array
    has [max_items] entries. *)
Definition save_dead_items (blkno : Z) (deadoffsets : list Z) : MC unit :=
  let* r := gets vacrel in
  let tids := dead_items r ++ ((fun o => (blkno, o)) <$> deadoffsets) in
  if max_items r <? Z.of_nat (length tids) then undefined else on_rel (with_dead_items tids).

(** One more entry of an array with an entry per item. *)
Definition push {A S} (a : A) (l : list A) : M S (list A) :=
  if (length l <? MaxHeapTuplesPerPage)%nat then ret (l ++ [a]) else undefined.

(** ** A page without a cleanup lock *)

Record NopruneState := {
  np_xid : Z;
  np_multi : Z;
  np_hastup : bool;
  np_dead : list Z;
  np_live : Z;
  np_recent : Z;
  np_missed : Z;
}.

Definition np_trackers (x m : Z) (v : NopruneState) : NopruneState :=
  {| np_xid := x; np_multi := m; np_hastup := true; np_dead := np_dead v; np_live := np_live v;
     np_recent := np_recent v; np_missed := np_missed v |}.
Definition np_count (live recent missed : Z) (v : NopruneState) : NopruneState :=
  {| np_xid := np_xid v; np_multi := np_multi v; np_hastup := np_hastup v; np_dead := np_dead v;
     np_live := np_live v + live; np_recent := np_recent v + recent; np_missed := np_missed v + missed |}.
Definition np_tup (v : NopruneState) : NopruneState :=
  {| np_xid := np_xid v; np_multi := np_multi v; np_hastup := true; np_dead := np_dead v; np_live := np_live v;
     np_recent := np_recent v; np_missed := np_missed v |}.
Definition np_with_dead (l : list Z) (v : NopruneState) : NopruneState :=
  {| np_xid := np_xid v; np_multi := np_multi v; np_hastup := np_hastup v; np_dead := l; np_live := np_live v;
     np_recent := np_recent v; np_missed := np_missed v |}.

(** [true]: the page needs a cleanup lock. *)
Definition noprune_item (r : LVRelState) (offnum : Z) (v : NopruneState) : MC (bool * NopruneState) :=
  let* linp := on_vpage (gets items_of) in
  let* lp := defined (PageGetItemId linp offnum) in
  if negb (ItemIdIsUsed lp) then ret (false, v)
  else if ItemIdIsRedirected lp then ret (false, np_tup v)
  else if ItemIdIsDead lp then let* l := push offnum (np_dead v) in ret (false, np_with_dead l v)
  else
    let* h := on_vpage (header_on lp) in
    let* f := on_vlocks (pg_tde_tuple_should_freeze h (cutoffs r) (np_xid v) (np_multi v)) in
    let '(should_freeze, x, m) := f in
    let v := np_trackers x m v in
    if should_freeze && aggressive r then ret (true, v) else
    let* res := on_vpage (on_header lp h (HeapTupleSatisfiesVacuum (OldestXmin (cutoffs r)))) in
    ret (false, match res with
                | HEAPTUPLE_DELETE_IN_PROGRESS | HEAPTUPLE_LIVE => np_count 1 0 0 v
                | HEAPTUPLE_DEAD => np_count 0 0 1 v
                | HEAPTUPLE_RECENTLY_DEAD => np_count 0 1 0 v
                | HEAPTUPLE_INSERT_IN_PROGRESS => v
                end).

Fixpoint noprune_loop (n : nat) (r : LVRelState) (offnum : Z) (v : NopruneState) : MC (bool * NopruneState) :=
  match n with
  | O => ret (false, v)
  | S n =>
      let* x := noprune_item r offnum v in
      let '(needs_cleanup, v) := x in
      if (needs_cleanup : bool) then ret (true, v) else noprune_loop n r (offnum + 1) v
  end.

(** Whether the page has been processed, [*hastup], [*recordfreespace]. *)
Definition lazy_scan_noprune (blkno : Z) : MC (bool * bool * bool) :=
  let* r := gets vacrel in
  let* linp := on_vpage (gets items_of) in
  let* x := noprune_loop (length linp) r 1
    {| np_xid := NewRelfrozenXid r; np_multi := NewRelminMxid r; np_hastup := false; np_dead := [];
       np_live := 0; np_recent := 0; np_missed := 0 |} in
  let '(needs_cleanup, v) := x in
  if (needs_cleanup : bool) then ret (false, np_hastup v, false) else
  on_rel (with_trackers (np_xid v) (np_multi v));;;
  let lpdead := Z.of_nat (length (np_dead v)) in
  let* y :=
    if nindexes r =? 0 then
      ret (np_hastup v || (0 <? lpdead), true, if 0 <? lpdead then np_missed v + lpdead else np_missed v, 0, 0)
    else if lpdead =? 0 then ret (np_hastup v, true, np_missed v, 0, 0)
    else save_dead_items blkno (np_dead v);;; ret (np_hastup v, false, np_missed v, lpdead, 1) in
  let '(hastup, recordfreespace, missed, lpdead, pages) := y in
  on_rel (fun r => with_counts (add_counts 0 0 lpdead (np_live v) (np_recent v) missed pages
                                  (if 0 <? missed then 1 else 0) 0 (counts_of r)) r);;;
  ret (true, hastup, recordfreespace).

(** ** Pruning and freezing a page *)

Record PruneScan := {
  sc_frz : HeapPageFreeze;
  sc_frozen : list HeapTupleFreeze;
  sc_dead : list Z;
  sc_live : Z;
  sc_recent : Z;
  sc_page : LVPagePruneState;
}.

Definition fresh_scan (r : LVRelState) : PruneScan :=
  {| sc_frz := {| freeze_required := false; FreezePageRelfrozenXid := NewRelfrozenXid r;
                  FreezePageRelminMxid := NewRelminMxid r; NoFreezePageRelfrozenXid := NewRelfrozenXid r;
                  NoFreezePageRelminMxid := NewRelminMxid r |};
     sc_frozen := []; sc_dead := []; sc_live := 0; sc_recent := 0;
     sc_page := {| hastup := false; has_lpdead_items := false; ps_all_visible := true; ps_all_frozen := true;
                   visibility_cutoff_xid := InvalidTransactionId |} |}.

Definition page_state (tup vis fro : bool) (cutoff : Z) (p : LVPagePruneState) : LVPagePruneState :=
  {| hastup := tup; has_lpdead_items := has_lpdead_items p; ps_all_visible := vis; ps_all_frozen := fro;
     visibility_cutoff_xid := cutoff |}.
Definition sc_with_page (p : LVPagePruneState) (v : PruneScan) : PruneScan :=
  {| sc_frz := sc_frz v; sc_frozen := sc_frozen v; sc_dead := sc_dead v; sc_live := sc_live v;
     sc_recent := sc_recent v; sc_page := p |}.
Definition sc_with_dead (l : list Z) (v : PruneScan) : PruneScan :=
  {| sc_frz := sc_frz v; sc_frozen := sc_frozen v; sc_dead := l; sc_live := sc_live v;
     sc_recent := sc_recent v; sc_page := sc_page v |}.

(** A live tuple: visible to everyone, for sure? *)
Definition see_live (OldestXmin : Z) (h : HeapTupleHeader) (p : LVPagePruneState) : LVPagePruneState :=
  let xmin := HeapTupleHeaderGetXmin h in
  if negb (ps_all_visible p) then p
  else if negb (XminCommitted (t_infomask h)) || negb (TransactionIdPrecedes xmin OldestXmin)
  then page_state (hastup p) false (ps_all_frozen p) (visibility_cutoff_xid p) p
  else page_state (hastup p) true (ps_all_frozen p) (newer_xmin xmin (visibility_cutoff_xid p)) p.

(** The counts and the page's visibility after a verdict, and [hastup]. *)
Definition see_tuple (OldestXmin : Z) (h : HeapTupleHeader) (res : HTSV_Result) (v : PruneScan) : PruneScan :=
  let p := sc_page v in
  let unseen := page_state (hastup p) false (ps_all_frozen p) (visibility_cutoff_xid p) p in
  let p := match res with HEAPTUPLE_LIVE => see_live OldestXmin h p | _ => unseen end in
  {| sc_frz := sc_frz v; sc_frozen := sc_frozen v; sc_dead := sc_dead v;
     sc_live := match res with HEAPTUPLE_LIVE | HEAPTUPLE_DELETE_IN_PROGRESS => sc_live v + 1 | _ => sc_live v end;
     sc_recent := match res with HEAPTUPLE_RECENTLY_DEAD => sc_recent v + 1 | _ => sc_recent v end;
     sc_page := page_state true (ps_all_visible p) (ps_all_frozen p) (visibility_cutoff_xid p) p |}.

Definition at_offset (offnum : Z) (frz : HeapTupleFreeze) : HeapTupleFreeze :=
  {| fz_xmax := fz_xmax frz; fz_infomask2 := fz_infomask2 frz; fz_infomask := fz_infomask frz;
     frzflags := frzflags frz; checkflags := checkflags frz; fz_offset := offnum |}.

(** Should the tuple be frozen? *)
Definition plan_tuple (r : LVRelState) (offnum : Z) (h : TupleHeader) (v : PruneScan) : MC PruneScan :=
  let* x := on_vlocks (pg_tde_prepare_freeze_tuple h (cutoffs r) (sc_frz v)) in
  let '(do_freeze, pagefrz, frz, totally_frozen) := x in
  let* frozen := if (do_freeze : bool) then push (at_offset offnum frz) (sc_frozen v) else ret (sc_frozen v) in
  let p := sc_page v in
  ret {| sc_frz := pagefrz; sc_frozen := frozen; sc_dead := sc_dead v; sc_live := sc_live v; sc_recent := sc_recent v;
         sc_page := page_state (hastup p) (ps_all_visible p) (ps_all_frozen p && totally_frozen)
                      (visibility_cutoff_xid p) p |}.

(** [None]: start over.  Line pointers that pruning has cut off look
    unused. *)
Definition scan_item (r : LVRelState) (offnum : Z) (v : PruneScan) : MC (option PruneScan) :=
  let* linp := on_vpage (gets items_of) in
  match PageGetItemId linp offnum with
  | None => ret (Some v)
  | Some lp =>
      if negb (ItemIdIsUsed lp) then ret (Some v)
      else if ItemIdIsRedirected lp then
        let p := sc_page v in
        ret (Some (sc_with_page (page_state true (ps_all_visible p) (ps_all_frozen p) (visibility_cutoff_xid p) p) v))
      else if ItemIdIsDead lp then let* l := push offnum (sc_dead v) in ret (Some (sc_with_dead l v))
      else
        let* h := on_vpage (header_on lp) in
        let* res := on_vpage (on_header lp h (HeapTupleSatisfiesVacuum (OldestXmin (cutoffs r)))) in
        match res with
        | HEAPTUPLE_DEAD => ret None
        | _ =>
            let* h := on_vpage (header_on lp) in
            let* v := plan_tuple r offnum h (see_tuple (OldestXmin (cutoffs r)) (fields h) res v) in
            ret (Some v)
        end
  end.

Fixpoint scan_items (n : nat) (r : LVRelState) (offnum : Z) (v : PruneScan) : MC (option PruneScan) :=
  match n with
  | O => ret (Some v)
  | S n =>
      let* v := scan_item r offnum v in
      match v with None => ret None | Some v => scan_items n r (offnum + 1) v end
  end.

(** From [retry:] on, until the scan gets through: what the last pruning
    deleted, and the scan.  [maxoff] is that of the page at first. *)
Fixpoint prune_retry (fuel : nat) (rel : RelFileLocator) (blkno : Z) (maxoff : nat) : MC (Z * PruneScan) :=
  match fuel with
  | O => nofuel
  | S fuel =>
      let* r := gets vacrel in
      let* d := on_vpage (pg_tde_page_prune g rel blkno InvalidTransactionId 0) in
      let* v := scan_items maxoff r 1 (fresh_scan r) in
      match v with
      | None => prune_retry fuel rel blkno maxoff
      | Some v => ret (fst d, v)
      end
  end.

(** The headers of the page by their offsets, and back. *)
Definition headers_on (p : PageState) : gmap Z TupleHeader :=
  list_to_map (omap (fun '(i, lp) => if ItemIdIsNormal lp then (Z.of_nat i + 1,.) <$> tuple_on p lp else None)
                 (imap pair (items_of p))).
Definition put_headers (linp : list ItemId) (h : gmap Z TupleHeader) (b : list Z) : list Z :=
  foldl (fun b '(i, lp) => match h !! (Z.of_nat i + 1) with
                           | Some t => if ItemIdIsNormal lp then put_header b lp t else b
                           | None => b
                           end) b (imap pair linp).

Definition freeze_of (s : VacState) : FreezeState :=
  {| fs_clock := now (vpage s); htups := headers_on (vpage s); fs_dirty := buffer_dirty (vpage s);
     fs_lsn := pd_lsn (vpage s); fs_wal := freeze_wal s; fs_conflicts := [] |}.
Definition with_freeze (f : FreezeState) (s : VacState) : VacState :=
  let p := vpage s in
  let b := with_bytes (put_headers (items_of p) (htups f) (bytes_of p)) (page (base p)) in
  with_vac_wal (fs_wal f) (vacuum_wal s)
    (with_vpage (with_now (fs_clock f)
      (with_dirty (fs_dirty f) (hint_dirty p)
        (with_header (pd_prune_xid p) (page_full p) (fs_lsn f)
          (with_base {| tde := tde (base p); scratch := scratch (base p); page := b |} p)))) s).
Definition on_freeze {A} (m : M FreezeState A) : MC A := zoom freeze_of with_freeze m.

(** Whether to freeze, with the trackers that go with it; the page's state,
    the tuples frozen and the pages. *)
Definition freeze_scanned (fpi_before : Z) (v : PruneScan) : MC (LVPagePruneState * Z * Z) :=
  let* s := get in
  let p := sc_page v in
  let frz := sc_frz v in
  let n := Z.of_nat (length (sc_frozen v)) in
  let whole := ps_all_visible p && ps_all_frozen p in
  if freeze_required frz || (n =? 0) || (whole && negb (fpi_before =? wal_fpi (length (prune_wal (vpage s))) (now (vpage s)))) then
    on_rel (with_trackers (FreezePageRelfrozenXid frz) (FreezePageRelminMxid frz));;;
    if n =? 0 then ret (p, n, 0)
    else
      let '(horizon, p) :=
        if whole then (visibility_cutoff_xid p, page_state (hastup p) true true InvalidTransactionId p)
        else (TransactionIdRetreat (OldestXmin (cutoffs (vacrel s))), p) in
      on_freeze (pg_tde_freeze_execute_prepared horizon (sc_frozen v));;;
      ret (p, n, 1)
  else
    on_rel (with_trackers (NoFreezePageRelfrozenXid frz) (NoFreezePageRelminMxid frz));;;
    ret (page_state (hastup p) (ps_all_visible p) false (visibility_cutoff_xid p) p, 0, 0).

Definition lazy_scan_prune (fuel : nat) (rel : RelFileLocator) (blkno : Z) : MC LVPagePruneState :=
  let* s := get in
  let fpi_before := wal_fpi (length (prune_wal (vpage s))) (now (vpage s)) in
  let* x := prune_retry fuel rel blkno (length (items_of (vpage s))) in
  let '(deleted, v) := x in
  let* y := freeze_scanned fpi_before v in
  let '(p, frozen, frozen_pgs) := y in
  let lpdead := Z.of_nat (length (sc_dead v)) in
  let* p :=
    if 0 <? lpdead then
      save_dead_items blkno (sc_dead v);;;
      ret {| hastup := hastup p; has_lpdead_items := true; ps_all_visible := false; ps_all_frozen := ps_all_frozen p;
             visibility_cutoff_xid := visibility_cutoff_xid p |}
    else ret p in
  on_rel (fun r => with_counts (add_counts deleted frozen lpdead (sc_live v) (sc_recent v) 0
                                  (if 0 <? lpdead then 1 else 0) 0 frozen_pgs (counts_of r)) r);;;
  ret p.

(** ** The empty end of the table *)

Definition should_attempt_truncation (r : LVRelState) : bool :=
  if negb (do_rel_truncate r) || VacuumFailsafeActive || (0 <=? old_snapshot_threshold) then false
  else
    let possibly_freeable := u32 (rel_pages r - nonempty_pages r) in
    (0 <? possibly_freeable)
    && ((REL_TRUNCATE_MINIMUM <=? possibly_freeable)
        || (rel_pages r / REL_TRUNCATE_FRACTION <=? possibly_freeable)).

(** [blkno] blocks may be left, [n] of them unchecked; [page_of] is a page as
    it is read, [waiters] whether others were found to wait for the lock
    before reading below a block. *)
Fixpoint nondeletable_loop (n : nat) (page_of : Z -> list ItemId) (waiters : Z -> bool) (nonempty blkno : Z) : Z * bool :=
  match n with
  | O => (nonempty, false)
  | S n =>
      if (blkno mod 32 =? 0) && waiters blkno then (blkno, true)
      else if existsb ItemIdIsUsed (page_of (blkno - 1)) then (blkno, false)
      else nondeletable_loop n page_of waiters nonempty (blkno - 1)
  end.

(** The number of blocks to keep, and [*lock_waiter_detected]. *)
Definition count_nondeletable_pages (page_of : Z -> list ItemId) (waiters : Z -> bool) (r : LVRelState) : Z * bool :=
  nondeletable_loop (Z.to_nat (rel_pages r - nonempty_pages r)) page_of waiters (nonempty_pages r) (rel_pages r).

(** Cutting it off, as long as others wait for the lock and there is more to
    gain.  Others act until the lock is ours: [meanwhile]. *)
Class TruncEnv := {
  lock_granted : nat -> nat -> bool;
  meanwhile : nat -> list (list ItemId) -> list (list ItemId);
  lock_waiters : nat -> Z -> bool;
}.
Context `{HTE : !TruncEnv}.

Definition VACUUM_TRUNCATE_LOCK_WAIT_INTERVAL : nat := 50.
Definition VACUUM_TRUNCATE_LOCK_TIMEOUT : nat := 5000.

Definition got_lock (round : nat) : bool :=
  existsb (lock_granted round) (seq 0 (S (VACUUM_TRUNCATE_LOCK_TIMEOUT / VACUUM_TRUNCATE_LOCK_WAIT_INTERVAL))).

Definition with_rel_pages (n : Z) (r : LVRelState) : LVRelState :=
  {| nindexes := nindexes r; aggressive := aggressive r; skipwithvm := skipwithvm r; do_rel_truncate := do_rel_truncate r;
     cutoffs := cutoffs r; NewRelfrozenXid := NewRelfrozenXid r; NewRelminMxid := NewRelminMxid r;
     skippedallvis := skippedallvis r; dead_items := dead_items r; max_items := max_items r; rel_pages := n;
     nonempty_pages := nonempty_pages r; counts_of := counts_of r |}.

(** The pages of the table, VACUUM's state and [removed_pages]. *)
Fixpoint lazy_truncate_heap (fuel round : nat) (pages : list (list ItemId)) (r : LVRelState) (removed_pages : Z)
    : option (list (list ItemId) * LVRelState * Z) :=
  match fuel with
  | O => None
  | S fuel =>
      let pages := meanwhile round pages in
      if negb (got_lock round) then Some (pages, r, removed_pages)
      else if negb (Z.of_nat (length pages) =? rel_pages r) then Some (pages, r, removed_pages)
      else
        let '(new_rel_pages, lock_waiter_detected) :=
          count_nondeletable_pages (fun b => default [] (pages !! Z.to_nat b)) (lock_waiters round) r in
        if rel_pages r <=? new_rel_pages then Some (pages, r, removed_pages)
        else
          let pages := take (Z.to_nat new_rel_pages) pages in
          let removed_pages := removed_pages + (rel_pages r - new_rel_pages) in
          let r := with_rel_pages new_rel_pages r in
          if (nonempty_pages r <? new_rel_pages) && lock_waiter_detected
          then lazy_truncate_heap fuel (S round) pages r removed_pages
          else Some (pages, r, removed_pages)
  end.

(** ** Room for dead items *)

Definition dead_items_max_items (r : LVRelState) : Z :=
  let per_page := Z.of_nat MaxHeapTuplesPerPage in
  if 0 <? nindexes r then
    let n := Z.min (Z.min (MAXDEADITEMS (vac_work_mem * 1024)) INT_MAX) (MAXDEADITEMS MaxAllocSize) in
    let n := if rel_pages r <? u32 (n / per_page) then u32 (rel_pages r * per_page) else n in
    Z.max n per_page
  else per_page.
End vacuum.
