(* ===== verification/VacuumProps.v ===== *)
(** Reasoning about lazy VACUUM: the ranges that are skipped, the pages that
    are all-visible, what the second pass leaves, the trackers of a page that
    is not frozen, and the end of the table. *)
From S2P Require Import Prelude EncAes RelKeys EncTuple KeyringTypes KeyringApi XactHandler TdeMap TupleIO Visibility VisibilityProps VisibilityHints VisibilitySpec VisibilityRules VisibilityMap VisibilityMapProps VisibilityMapOps Prune LockFlags MultiXact HotChain HotProps PagePrune HotHtsv HotPlan Freeze FreezeProps FreezePrepare Vacuum.

(** ** Which blocks are skipped *)

Section skip.
Context `{HB : PgBlockSize} `{HBL : !PgBlockSizeLaws} `{HV : VmEnv} `{HVL : !VmLaws}.

Lemma trades_trans b1 b2 b3 s1 s2 s3 : trades b1 b2 s1 s2 -> trades b2 b3 s2 s3 -> trades b1 b3 s1 s3.
Proof.
  intros (l & H1 & H2) (l' & H3 & H4). exists l. split; [done|]. rewrite H4. apply Permutation_app_head.
  apply (Permutation_app_inv_l (buffer_pins b2)). by rewrite <- H3, H2.
Qed.

Lemma trades_refl b s : holds b s -> trades b b s s.
Proof.
  destruct b as [b|]; [|by exists (pinned s)]. intros (l & _ & Hp)%remove_pin_spec. by exists l.
Qed.

Lemma trades_holds b b' s s' : trades b b' s s' -> holds b' s'.
Proof. destruct b' as [b'|]; [|done]. intros (l & _ & Hp). cbn. rewrite Hp. by left. Qed.

Definition seen_visible (s : VmState) (y : Z) : Prop := Z.land (vm_status s y) VISIBILITYMAP_ALL_VISIBLE <> 0.
Definition seen_frozen (s : VmState) (y : Z) : Prop := Z.land (vm_status s y) VISIBILITYMAP_ALL_FROZEN <> 0.

(** VACUUM may leave the block out. *)
Definition skippable (r : LVRelState) (s : VmState) (y : Z) : Prop :=
  seen_visible s y /\ y <> rel_pages r - 1 /\ skipwithvm r = true /\ (aggressive r = true -> seen_frozen s y).

(** A range of blocks from [b] on that ends at [b']. *)
Record skip_range (r : LVRelState) (s : VmState) (b b' : Z) (allvis : bool) : Prop := {
  sr_bounds : b <= b' <= Z.max b (rel_pages r);
  sr_inside y : b <= y < b' -> skippable r s y;
  sr_end : b' < rel_pages r -> allvis = true -> seen_visible s b' /\ ~ skippable r s b';
}.

Lemma skip_range_same r s s' b b' a : same_map s s' -> skip_range r s' b b' a -> skip_range r s b b' a.
Proof.
  intros (Hst & _) [H1 H2 H3].
  assert (E : forall y, skippable r s' y <-> skippable r s y).
  { intros y. unfold skippable, seen_visible, seen_frozen. by rewrite Hst. }
  split; [done| |].
  - intros y Hy. by apply E, H2.
  - intros Hb Ha. destruct (H3 Hb Ha) as [Hv Hn]. split; [unfold seen_visible in *; by rewrite <- Hst|]. by rewrite <- E.
Qed.

Lemma skip_range_stop r s b a : (b < rel_pages r -> a = true -> seen_visible s b /\ ~ skippable r s b) ->
  skip_range r s b b a.
Proof. intros H. split; [lia|lia|done]. Qed.

Lemma skip_loop_spec r n : forall b svis vm s,
  vm_ok s -> holds vm s -> 0 <= b -> rel_pages r < 2 ^ 32 -> n = Z.to_nat (rel_pages r - b) ->
  exists b' allvis sv vm' s', skip_loop n r b svis vm s = (Ret (b', allvis, sv, vm'), s')
    /\ vm_ok s' /\ same_map s s' /\ trades vm vm' s s' /\ skip_range r s b b' allvis
    /\ (sv = true <-> svis = true \/ exists y, b <= y < b' /\ ~ seen_frozen s y).
Proof.
  induction n as [|n IH]; intros b svis vm s Hok Hvm Hb Hr Hn; cbn [skip_loop].
  { exists b, true, svis, vm, s. split_and!; [done..|by apply trades_refl|apply skip_range_stop; lia|].
    split; [by left|]. intros [?|(y & ? & _)]; [done|lia]. }
  destruct (get_status_spec b vm s Hok ltac:(lia) Hvm) as (x & vm1 & s1 & E & Hok1 & Hs1 & Ht1 & Hx).
  mstep E.
  assert (Hstop : forall a, (b < rel_pages r -> a = true -> seen_visible s b /\ ~ skippable r s b) ->
    exists b' allvis sv vm' s', (ret (b, a, svis, vm1) : M VmState _) s1 = (Ret (b', allvis, sv, vm'), s')
    /\ vm_ok s' /\ same_map s s' /\ trades vm vm' s s' /\ skip_range r s b b' allvis
    /\ (sv = true <-> svis = true \/ exists y, b <= y < b' /\ ~ seen_frozen s y)).
  { intros a Ha. exists b, a, svis, vm1, s1. split_and!; [done..|by apply skip_range_stop|].
    split; [by left|]. intros [?|(y & ? & _)]; [done|lia]. }
  destruct (Z.eqb_spec (Z.land x VISIBILITYMAP_ALL_VISIBLE) 0) as [Ev|Ev]; [by apply Hstop|].
  destruct vm1 as [m|]; [|destruct Hx as [-> _]; by rewrite Z.land_0_l in Ev]. destruct Hx as [_ ->].
  destruct (Z.eqb_spec b (rel_pages r - 1)) as [El|El].
  { apply Hstop. intros _ _. split; [done|]. by intros (_ & ? & _). }
  destruct (skipwithvm r) eqn:Ew; cbn [negb]; [|by apply Hstop].
  destruct (Z.land (vm_status s b) VISIBILITYMAP_ALL_FROZEN =? 0) eqn:Ef; cbn [andb].
  - destruct (aggressive r) eqn:Ea.
    { apply Hstop. intros _ _. split; [done|]. intros (_ & _ & _ & H). specialize (H Ea).
      unfold seen_frozen in H. lia. }
    destruct (IH (b + 1) (svis || true) (Some m) s1) as (b' & a & sv & vm' & s' & E' & Hok' & Hs' & Ht' & Hrg & Hsv);
      [done|by eapply trades_holds|lia|done|lia|].
    apply (skip_range_same _ s) in Hrg; [|done].
    exists b', a, sv, vm', s'. split_and!; [done|done|by eapply same_map_trans|by eapply trades_trans| |].
    + destruct Hrg as [H1 H2 H3]. split; [lia| |done]. intros y Hy. destruct (decide (y = b)) as [->|Hne]; [|apply H2; lia].
      split_and!; [done|lia|done|congruence].
    + rewrite Hsv. split; [|intros _; left; by rewrite orb_true_r]. intros _. right. exists b.
      destruct Hrg as [H1 _ _]. split; [lia|]. unfold seen_frozen. lia.
  - destruct (IH (b + 1) (svis || false) (Some m) s1) as (b' & a & sv & vm' & s' & E' & Hok' & Hs' & Ht' & Hrg & Hsv);
      [done|by eapply trades_holds|lia|done|lia|].
    apply (skip_range_same _ s) in Hrg; [|done].
    exists b', a, sv, vm', s'. split_and!; [done|done|by eapply same_map_trans|by eapply trades_trans| |].
    + destruct Hrg as [H1 H2 H3]. split; [lia| |done]. intros y Hy. destruct (decide (y = b)) as [->|Hne]; [|apply H2; lia].
      split_and!; [done|lia|done|unfold seen_frozen; lia].
    + rewrite Hsv, orb_false_r. destruct Hs1 as (Hst & _). unfold seen_frozen. setoid_rewrite Hst.
      split; (intros [?|(y & Hy & Hf)]; [by left|right; exists y]).
      * split; [lia|done].
      * split; [|done]. destruct (decide (y = b)) as [->|Hne]; [lia|lia].
Qed.
End skip.

(** ** Pages that are all-visible *)

Section visible.
Context `{HE : EVP} `{HS : CIntShift}.
Context `{HJ : Json} `{HB : Base64} `{HC : Curl} `{HF : KeyringFs}.
Context `{HT : TdeEnv} `{HP : PgBlockSize} `{HM : PageMacros}.
Context `{HH : HtupFlags} `{HHL : !HtupFlagsLaws} `{HW : World} `{HWL : !WorldLaws}.
Context `{HLP : LinePointers} `{HLL : !LinePointersLaws} `{HHF : HotFlags}.
Context `{HPE : PruneEnv} `{HPL : !PruneEnvLaws}.
Context `{HLF : LockFlags} `{HFB : !FlagBits} `{HMX : MultiXacts} `{HX : XidMacros} `{HXL : !XidMacrosLaws}.

(** Only hints of tuples and the time have changed. *)
Record only_hints (s s' : PageState) : Prop := {
  oh_page : hinted_page s s';
  oh_rest : work s' = work s /\ pd_prune_xid s' = pd_prune_xid s /\ page_full s' = page_full s /\ pd_lsn s' = pd_lsn s
    /\ prune_wal s' = prune_wal s /\ buffer_dirty s' = buffer_dirty s /\ events s' = events s;
}.

Lemma only_hints_trans s1 s2 s3 : only_hints s1 s2 -> only_hints s2 s3 -> only_hints s1 s3.
Proof.
  intros [P1 (A1&A2&A3&A4&A5&A6&A7)] [P2 (B1&B2&B3&B4&B5&B6&B7)].
  split; [by eapply hinted_page_trans|]. split_and!; congruence.
Qed.

Lemma only_hints_refl s : page_tuples s -> only_hints s s.
Proof. intros H. split; [by apply same_bytes_hinted|done]. Qed.

(** The verdict on a tuple of the page. *)
Lemma on_header_wp {A} (m : M VisState A) (Q : A -> HeapTupleHeader -> nat -> Prop) (s : PageState) i lp h :
  page_tuples s -> items_of s !! i = Some lp -> ItemIdIsNormal lp = true -> tuple_on s lp = Some h ->
  (hints_ok (fields h) (now s) -> VisibilityProps.tuple_ok (fields h) (now s) ->
     vwp m (fun a h' t' => Q a h' t' /\ evolves (fields h) (now s) h' t') (fields h) (now s)) ->
  wp (on_header lp h m) (fun a s' => only_hints s s' /\ exists h', tuple_on s' lp = Some h'
    /\ later_header h (now s) h' (now s') /\ Q a (fields h') (now s')) s.
Proof.
  intros Hp Hlp Hnor Hh Hm. pose proof (list_elem_of_lookup_2 _ _ _ Hlp) as Hin.
  destruct (page_header _ Hp lp Hin Hnor) as (h1 & E1 & Hok & Htok).
  rewrite Hh in E1. injection E1 as <-. specialize (Hm Hok Htok false).
  unfold wp, on_header. destruct (m _) as [[a|l| |] v]; try done. destruct Hm as [HQ He].
  pose proof (same_tuple_infomask _ _ (proj1 (proj2 He))) as Em.
  assert (Hput : header_at (put_infomask (bytes_of s) lp (t_infomask (hdr v))) lp
    = Some {| fields := hdr v; t_infomask2 := HotChain.t_infomask2 h |}).
  { unfold tuple_on in Hh. rewrite (put_same _ _ _ _ Hh). cbn [fields]. by rewrite <- Em. }
  assert (Hp' : hinted_page s (with_now (clock v)
        (with_dirty (buffer_dirty s) (hint_dirty s || dirtied v)
          (with_base {| tde := tde (base s); scratch := scratch (base s);
                        page := with_bytes (put_infomask (bytes_of s) lp (t_infomask (hdr v)))
                                  (page (base s)) |} s)))).
  { split; [done|by apply He|]. intros lp' h' Hlp' Hnor' E'. unfold tuple_on, bytes_of in *. cbn.
    apply list_elem_of_lookup in Hlp' as [j Hj]. destruct (decide (i = j)) as [<-|Hne].
    - replace lp' with lp in * by congruence. rewrite Hh in E'. injection E' as <-.
      eexists. split; [exact Hput|]. by split.
    - rewrite put_other by (by eapply (page_apart _ Hp i j)). exists h'. split; [done|].
      split; [done|]. destruct (page_header _ Hp lp') as (h1 & E1 & Hok1 & _);
        [by eapply list_elem_of_lookup_2|done|]. unfold tuple_on, bytes_of in E1.
      apply evolves_stay; [congruence|by apply He]. }
  split; [by split|]. eexists. split; [exact Hput|]. by split.
Qed.

(** What the verdict of VACUUM says of a tuple. *)
Definition vacuum_says (o : Z) (h : HeapTupleHeader) (t t' : nat) (r : HTSV_Result) : Prop :=
  match r with
  | HEAPTUPLE_LIVE => inserter_in h t' /\ no_deleter h t'
  | HEAPTUPLE_RECENTLY_DEAD => inserter_in h t' /\ delete_committed h t' /\ TransactionIdPrecedes (deleter h) o = false
  | HEAPTUPLE_DELETE_IN_PROGRESS => inserter_in h t' /\ running_xact t (deleter h)
  | HEAPTUPLE_INSERT_IN_PROGRESS => running_xact t (t_xmin h)
  | HEAPTUPLE_DEAD => dead_xact t' (t_xmin h) \/ (delete_committed h t' /\ TransactionIdPrecedes (deleter h) o = true)
  end.

Lemma Vacuum_rule o h t : hints_ok h t -> VisibilityProps.tuple_ok h t ->
  vwp (HeapTupleSatisfiesVacuum o) (fun r h' t' => vacuum_says o h t t' r /\ evolves h t h' t') h t.
Proof.
  intros Hok Htok. apply vwp_bind. eapply vwp_mono; [by apply HeapTupleSatisfiesVacuumHorizon_rule|].
  intros [res da] h1 t1 [Hv He].
  destruct Hv as [[Hi Hd]|[[[= -> ->] Hr]|[[= -> ->] Hr]]]; [|by apply vwp_ret|apply vwp_ret; split; [by left|done]].
  destruct res; cbn in Hd |- *; try done; apply vwp_ret.
  - by destruct Hd.
  - destruct Hd as [Hc ->]. split; [|done]. destruct (TransactionIdPrecedes _ _) eqn:E; [by right|by split_and!].
  - by destruct Hd as (_ & ? & _).
Qed.

(** ** A tuple that everyone sees *)

Record everyone_sees (o : Z) (h : HeapTupleHeader) (t : nat) : Prop := {
  es_committed : XminCommitted (t_infomask h) = true;
  es_old : TransactionIdPrecedes (HeapTupleHeaderGetXmin h) o = true;
  es_nodel : no_deleter h t;
}.

(** Snapshots that are not older than a horizon: what is before it is over
    for them. *)
Definition not_older (o : Z) (sn : Snapshot) : Prop :=
  forall x, TransactionIdPrecedes x o = true -> XidInMVCCSnapshot x sn = false.

Lemma everyone_sees_mvcc o h t sn : everyone_sees o h t -> hints_ok h t -> not_older o sn -> mvcc_visible sn h t = true.
Proof.
  intros [Hc Ho Hd] (Hx & _) Hsn. unfold mvcc_visible, mvcc_inserted, mvcc_deleted.
  assert (E : (if HEAP_XMAX_IS_LOCKED_ONLY (t_infomask h) then false
    else if TransactionIdIsCurrentTransactionId (deleter h) then HeapTupleHeaderGetCmax h <? curcid sn
    else negb (XidInMVCCSnapshot (deleter h) sn) && TransactionIdDidCommit t (deleter h)) = false).
  { destruct Hd as [-> |Hd]; [done|]. destruct (HEAP_XMAX_IS_LOCKED_ONLY _); [done|].
    rewrite (dead_xact_not_current t) by done. destruct Hd as [_ ->]. apply andb_false_r. }
  rewrite E, andb_true_r. unfold HeapTupleHeaderGetXmin in Ho.
  destruct (XminFrozen (t_infomask h)) eqn:Ef; [done|].
  assert (Hcom : TransactionIdDidCommit t (t_xmin h) = true) by (by apply Hx).
  rewrite (committed_not_current t) by done. by rewrite (Hsn _ Ho), Hcom.
Qed.

Lemma same_tuple_committed h h' : same_tuple h h' -> XminCommitted (t_infomask h) = true -> XminCommitted (t_infomask h') = true.
Proof.
  induction 1 as [|h h1 h2 (f & _ & ->) _ IH]; [done|]. intros Hc. apply IH. cbn.
  rewrite XminCommitted_has in *. apply negb_true_iff, Z.eqb_neq in Hc. apply negb_true_iff, Z.eqb_neq.
  intros E. apply Hc. apply Z.bits_inj'. intros i Hi. rewrite Z.bits_0.
  assert (Ei : Z.testbit (Z.land (Z.lor (t_infomask h) f) HEAP_XMIN_COMMITTED) i = false) by (rewrite E; apply Z.bits_0).
  rewrite Z.land_spec, Z.lor_spec in Ei. rewrite Z.land_spec.
  by destruct (Z.testbit (t_infomask h) i), (Z.testbit HEAP_XMIN_COMMITTED i).
Qed.

Lemma everyone_sees_later o h t h' t' : evolves h t h' t' -> everyone_sees o h t -> everyone_sees o h' t'.
Proof.
  intros (Ht & Hs & Hf & _) [Hc Ho Hd]. destruct (same_tuple_facts h h' Hs) as (E1 & _ & _ & E4 & _ & _ & _ & E8 & _).
  split; [by eapply same_tuple_committed| |].
  - unfold HeapTupleHeaderGetXmin in *. by rewrite Hf, E1.
  - apply (no_deleter_later _ t); [done|]. unfold no_deleter. by rewrite E4, E8.
Qed.

(** What hints do not change of a whole header. *)
Lemma later_eventual_freeze h t h' t' : later_header h t h' t' ->
  pg_tde_tuple_needs_eventual_freeze h' = pg_tde_tuple_needs_eventual_freeze h.
Proof.
  intros [_ (_ & Hs & Hf & _)]. destruct (same_tuple_facts _ _ Hs) as (E1 & E2 & _ & _ & E5 & E6 & E7 & _).
  pose proof (f_equal t_field3 (same_tuple_infomask _ _ Hs)) as E3. cbn in E3.
  unfold pg_tde_tuple_needs_eventual_freeze, HeapTupleHeaderGetXmin.
  by rewrite !xvac_field, moved_def, !has_lor_r, Hf, E1, E2, E3, E5, E6, E7.
Qed.

(** ** The page *)

(** An item that does not keep the page from being all-visible. *)
Definition item_seen (o : Z) (all_frozen : bool) (s : PageState) (offnum : Z) : Prop :=
  exists lp, PageGetItemId (items_of s) offnum = Some lp
    /\ (ItemIdIsUsed lp = true -> ItemIdIsRedirected lp = true \/ ItemIdIsNormal lp = true)
    /\ (ItemIdIsNormal lp = true -> exists h, tuple_on s lp = Some h /\ everyone_sees o (fields h) (now s)
         /\ (all_frozen = true -> pg_tde_tuple_needs_eventual_freeze h = false)).

Lemma item_seen_later o f f' s s' offnum : hinted_page s s' -> (f' = true -> f = true) ->
  item_seen o f s offnum -> item_seen o f' s' offnum.
Proof.
  intros [Hi Hn Hh] Hf (lp & Hlp & Hu & Hx). exists lp. rewrite Hi. split; [done|]. split; [done|].
  intros Hnor. destruct (Hx Hnor) as (h & Eh & Hsee & Hfr).
  apply PageGetItemId_Some in Hlp as [_ Hin]. destruct (Hh lp h Hin Hnor Eh) as (h' & Eh' & Hl).
  exists h'. split; [done|]. split; [eapply everyone_sees_later; [apply Hl|done]|].
  intros E. rewrite (later_eventual_freeze _ _ _ _ Hl). auto.
Qed.

Lemma visible_item_wp o offnum cutoff fro (s : PageState) lp : page_tuples s -> PageGetItemId (items_of s) offnum = Some lp ->
  wp (visible_item o offnum cutoff fro) (fun r s' => only_hints s s'
    /\ match r with
       | Some (_, fro') => (fro' = true -> fro = true) /\ item_seen o fro' s' offnum
       | None => True
       end) s.
Proof.
  intros Hp Hlp. unfold visible_item. wps. eapply wp_defined; [done|].
  destruct (negb (ItemIdIsUsed lp) || ItemIdIsRedirected lp) eqn:Er.
  { wps. split; [by apply only_hints_refl|]. split; [done|]. exists lp. split; [done|].
    apply orb_true_iff in Er as [Hu|Hr].
    - apply negb_true_iff in Hu. split; [congruence|]. intros Hn%normal_used. congruence.
    - split; [by left|]. intros [Hn _]%normal_kind. congruence. }
  apply orb_false_iff in Er as [Hu Hr]. apply negb_false_iff in Hu.
  destruct (ItemIdIsDead lp) eqn:Ed; [wps; split; [by apply only_hints_refl|done]|].
  pose proof (used_kind lp Hu Hr Ed) as Hnor. pose proof Hlp as Hlk. apply PageGetItemId_Some in Hlp as [_ Hin].
  destruct (page_header _ Hp lp Hin Hnor) as (h & Eh & _). unfold header_on at 1. wps. eapply wp_defined; [done|].
  pose proof Hin as [i Hi]%list_elem_of_lookup_1. wps.
  eapply wp_mono.
  { eapply (on_header_wp _ (fun r _ t' => vacuum_says o (fields h) (now s) t' r)); [done|done|done|done|].
    intros Hok Htok. by apply Vacuum_rule. }
  intros res s1 (Hoh & h1 & Eh1 & Hl & Hsays). unfold header_on. wps. eapply wp_defined; [done|].
  destruct res; try (wps; by split). cbn in Hsays.
  destruct (XminCommitted _) eqn:Ec; cbn [negb]; [|wps; by split].
  destruct (TransactionIdPrecedes _ o) eqn:Eo; cbn [negb]; [|wps; by split].
  wps. split; [done|]. split; [by intros [? _]%andb_true_iff|]. exists lp.
  destruct Hoh as [Hoh _]. rewrite (hp_items _ _ Hoh). split; [done|]. split; [by right|]. intros _.
  exists h1. split; [done|]. split; [|by intros [_ ?%negb_true_iff]%andb_true_iff].
  split; [done|done|]. destruct Hl as [_ (_ & Hs & _)]. destruct Hsays as [_ Hd].
  destruct (same_tuple_facts _ _ Hs) as (_ & _ & _ & E4 & _ & _ & _ & E8 & _). unfold no_deleter in *. by rewrite E4, E8.
Qed.

Lemma visible_loop_wp n o : forall offnum cutoff fro (s : PageState), page_tuples s -> 1 <= offnum ->
  offnum + Z.of_nat n = Z.of_nat (length (items_of s)) + 1 ->
  wp (visible_loop n o offnum cutoff fro) (fun r s' => only_hints s s'
    /\ (r.1.1 = true -> (r.2 = true -> fro = true)
        /\ forall x, offnum <= x <= Z.of_nat (length (items_of s)) -> item_seen o r.2 s' x)) s.
Proof.
  induction n as [|n IH]; intros offnum cutoff fro s Hp Ho Hn; cbn [visible_loop].
  { wps. split; [by apply only_hints_refl|]. intros _. split; [done|]. intros x Hx. lia. }
  destruct (PageGetItemId_is_Some (items_of s) offnum) as [lp Hlp]; [unfold maxoff; lia|].
  wps. eapply wp_mono; [by eapply visible_item_wp|]. intros [[c f]|] s1 [Hoh Hs]; [|wps; by split].
  destruct Hs as [Hf Hs]. pose proof (oh_page _ _ Hoh) as Hhp.
  eapply wp_mono; [apply IH; [by eapply hinted_page_tuples|lia|rewrite (hp_items _ _ Hhp); lia]|].
  intros [[v c'] f'] s2 [Hoh2 Hs2]. cbn in *. split; [by eapply only_hints_trans|]. intros Hv.
  destruct (Hs2 Hv) as [Hf2 Hx]. split; [auto|]. intros x Hr. destruct (decide (x = offnum)) as [->|Hne].
  - eapply item_seen_later; [apply Hoh2|exact Hf2|done].
  - apply Hx. rewrite (hp_items _ _ Hhp). lia.
Qed.

Definition page_seen (o : Z) (all_frozen : bool) (s : PageState) : Prop :=
  forall x, 1 <= x <= Z.of_nat (length (items_of s)) -> item_seen o all_frozen s x.

Lemma all_visible_wp o (s : PageState) : page_tuples s ->
  wp (pg_tde_page_is_all_visible o) (fun r s' => only_hints s s' /\ (r.1.1 = true -> page_seen o r.2 s')) s.
Proof.
  intros Hp. unfold pg_tde_page_is_all_visible. wps. eapply wp_mono; [apply visible_loop_wp; [done|lia|lia]|].
  intros r s' [Hoh Hs]. split; [done|]. intros Hv x Hx. apply Hs; [done|].
  by rewrite <- (hp_items _ _ (oh_page _ _ Hoh)).
Qed.
End visible.

(** ** The second pass *)

(** PageTruncateLinePointerArray cuts unused line pointers off. *)
Class TruncateLaws `{PageMacros} `{PruneEnv} := {
  truncate_items p : pd_linp (PageTruncateLinePointerArray p) = cut_unused (pd_linp p);
  truncate_bytes p : page_bytes (PageTruncateLinePointerArray p) = page_bytes p;
}.

Section second_pass.
Context `{HE : EVP} `{HS : CIntShift}.
Context `{HJ : Json} `{HB : Base64} `{HC : Curl} `{HF : KeyringFs}.
Context `{HT : TdeEnv} `{HP : PgBlockSize} `{HPS : !PgBlockSizeLaws} `{HM : PageMacros}.
Context `{HH : HtupFlags} `{HHL : !HtupFlagsLaws} `{HW : World} `{HWL : !WorldLaws}.
Context `{HLP : LinePointers} `{HLL : !LinePointersLaws} `{HHF : HotFlags}.
Context `{HPE : PruneEnv} `{HPL : !PruneEnvLaws}.
Context `{HLF : LockFlags} `{HFB : !FlagBits} `{HMX : MultiXacts} `{HX : XidMacros} `{HXL : !XidMacrosLaws}.
Context `{HV : VmEnv} `{HVL : !VmLaws} `{HVE : VacEnv} `{HTL : !TruncateLaws}.

Lemma drop_unused_prefix linp : exists k, drop_unused linp = take k linp
  /\ forall i lp, (k <= i)%nat -> linp !! i = Some lp -> ItemIdIsUsed lp = false.
Proof.
  induction linp as [|lp linp (k & E & H)]; [by exists 0%nat|]. cbn [drop_unused]. rewrite E.
  destruct (take k linp) as [|x l] eqn:Et.
  - destruct (ItemIdIsUsed lp) eqn:Eu.
    + exists 1%nat. split; [done|]. intros [|i] y Hi Hy; [lia|]. cbn in Hy.
      destruct k; [by apply (H i); [lia|]|]. by destruct linp.
    + exists 0%nat. split; [done|]. intros [|i] y Hi Hy; cbn in Hy; [congruence|].
      destruct k; [by apply (H i); [lia|]|]. by destruct linp.
  - exists (S k). cbn. rewrite Et. split; [done|]. intros [|i] y Hi Hy; [lia|]. apply (H i); [lia|done].
Qed.

(** Only unused ones are cut off. *)
Lemma cut_unused_lookup linp o lp : PageGetItemId (cut_unused linp) o = Some lp -> PageGetItemId linp o = Some lp.
Proof.
  unfold PageGetItemId. destruct (_ <=? o); [|done]. destruct linp as [|x linp]; [done|]. cbn [cut_unused].
  destruct (drop_unused_prefix linp) as (k & -> & _).
  destruct (Z.to_nat (o - 1)) as [|i]; [done|]. change (take k linp !! i = Some lp -> linp !! i = Some lp).
  rewrite lookup_take. by case_decide.
Qed.

Lemma cut_unused_used linp o lp : PageGetItemId linp o = Some lp -> ItemIdIsUsed lp = true ->
  PageGetItemId (cut_unused linp) o = Some lp.
Proof.
  unfold PageGetItemId. destruct (_ <=? o); [|done]. destruct linp as [|x linp]; [done|]. cbn [cut_unused].
  destruct (drop_unused_prefix linp) as (k & -> & Hk).
  destruct (Z.to_nat (o - 1)) as [|i]; [done|]. change (linp !! i = Some lp -> ItemIdIsUsed lp = true -> take k linp !! i = Some lp).
  intros Hi Hu. rewrite lookup_take, decide_True; [done|].
  destruct (decide (i < k)%nat); [done|]. by rewrite (Hk i lp) in Hu by (done || lia).
Qed.

(** What the offsets to remove have to be. *)
Record removable_items (linp : list ItemId) (unused : list Z) : Prop := {
  ri_dead o : o ∈ unused -> exists lp, PageGetItemId linp o = Some lp /\ ItemIdIsDead lp = true;
  ri_nodup : NoDup unused;
  ri_few : (length unused <= MaxHeapTuplesPerPage)%nat;
}.

(** The line pointers after the second pass. *)
Record items_freed (linp : list ItemId) (unused : list Z) (linp' : list ItemId) : Prop := {
  if_freed o lp : o ∈ unused -> PageGetItemId linp' o = Some lp -> ItemIdIsUsed lp = false;
  if_kept o lp : PageGetItemId linp' o = Some lp -> o ∉ unused -> PageGetItemId linp o = Some lp;
  if_normal o lp : PageGetItemId linp o = Some lp -> ItemIdIsUsed lp = true -> o ∉ unused -> PageGetItemId linp' o = Some lp;
}.

Lemma make_unused_wp unused (s : PageState) : removable_items (items_of s) unused ->
  exists linp', set_items ItemIdSetUnused unused (items_of s) = Some linp'
    /\ items_freed (items_of s) unused (cut_unused linp')
    /\ wp (make_unused unused) (fun _ s' => items_of s' = cut_unused linp' /\ bytes_of s' = bytes_of s
         /\ work s' = work s /\ pd_prune_xid s' = pd_prune_xid s /\ page_full s' = page_full s
         /\ pd_lsn s' = pd_lsn s /\ now s' = now s /\ prune_wal s' = prune_wal s /\ events s' = events s) s.
Proof.
  intros [Hd Hnd _].
  destruct (set_items_spec ItemIdSetUnused unused (items_of s) Hnd) as (linp' & E & _ & G).
  { intros o Ho. destruct (Hd o Ho) as (lp & -> & _). by eexists. }
  exists linp'. split; [done|]. split.
  - split.
    + intros o lp Ho Hlp%cut_unused_lookup. rewrite G, decide_True in Hlp by done.
      destruct (PageGetItemId _ o); [|done]. cbn in Hlp. injection Hlp as <-. apply set_unused.
    + intros o lp Hlp%cut_unused_lookup Ho. by rewrite G, decide_False in Hlp.
    + intros o lp Hlp Hu Ho. apply cut_unused_used; [|done]. by rewrite G, decide_False.
  - unfold make_unused, on_base, on_page. unfold items_of in E. wps. eapply wp_defined; [exact E|]. wps.
    cbn. unfold items_of, bytes_of. cbn. rewrite truncate_items, truncate_bytes. by cbn.
Qed.

(** A page of which only line pointers went is a page. *)
Lemma fewer_items_tuples s s' : page_tuples s -> bytes_of s' = bytes_of s -> now s' = now s ->
  (forall o lp, PageGetItemId (items_of s') o = Some lp -> ItemIdIsNormal lp = true -> PageGetItemId (items_of s) o = Some lp) ->
  page_tuples s'.
Proof.
  intros [Ha Hp] Hb Hn Hsub.
  assert (Hlk : forall i lp, items_of s' !! i = Some lp -> ItemIdIsNormal lp = true -> items_of s !! i = Some lp).
  { intros i lp Hi Hnor. assert (Hx : PageGetItemId (items_of s') (Z.of_nat i + 1) = Some lp).
    { unfold PageGetItemId, FirstOffsetNumber. rewrite (proj2 (Z.leb_le _ _)) by lia. by replace (Z.to_nat (Z.of_nat i + 1 - 1)) with i by lia. }
    specialize (Hsub _ _ Hx Hnor). unfold PageGetItemId, FirstOffsetNumber in Hsub.
    rewrite (proj2 (Z.leb_le _ _)) in Hsub by lia. by replace (Z.to_nat (Z.of_nat i + 1 - 1)) with i in Hsub by lia. }
  split.
  - intros i j lp lp' Hi Hj Hne Hni Hnj. eapply Ha; [by apply Hlk|by apply Hlk|done..].
  - intros lp [i Hi]%list_elem_of_lookup Hnor. unfold tuple_on. rewrite Hb, Hn. apply Hp; [|done].
    eapply list_elem_of_lookup_2. by apply Hlk.
Qed.

Lemma wp_crit {S A} (m : M S A) Q (s : S) : wp m Q s -> wp (crit m) Q s.
Proof. unfold wp, crit. by destruct (m s) as [[a|l| |] t]. Qed.

Lemma visible_flags_range f : 0 <= visible_flags f < 4.
Proof. unfold visible_flags. rewrite all_visible_value, all_frozen_value. by destruct f. Qed.

(** What the second pass does to a page, its record, and the map. *)
Record pass_done (blkno : Z) (unused : list Z) (s s' : VacState) : Prop := {
  psd_items : items_freed (items_of (vpage s)) unused (items_of (vpage s'));
  psd_cut : exists linp', set_items ItemIdSetUnused unused (items_of (vpage s)) = Some linp'
    /\ items_of (vpage s') = cut_unused linp';
  psd_page : page_tuples (vpage s');
  psd_tuples o lp h : PageGetItemId (items_of (vpage s)) o = Some lp -> ItemIdIsNormal lp = true ->
    tuple_on (vpage s) lp = Some h ->
    exists h', tuple_on (vpage s') lp = Some h' /\ later_header h (now (vpage s)) h' (now (vpage s'));
  psd_log : vacuum_wal s' = vacuum_wal s ++
    (if PagePrune.RelationNeedsWAL then [{| xl_nunused := u16 (Z.of_nat (length unused)); xl_unused := unused |}] else []);
  psd_map : exists all_visible all_frozen,
    (all_visible = true -> page_seen (OldestXmin (cutoffs (vacrel s))) all_frozen (vpage s'))
    /\ page_visible s' = all_visible || page_visible s
    /\ forall y, 0 <= y -> vm_status (vmap s') y =
         if all_visible && (y =? blkno) then Z.lor (vm_status (vmap s) blkno) (visible_flags all_frozen)
         else vm_status (vmap s) y;
  psd_vm : vm_ok (vmap s') /\ pinned (vmap s') = pinned (vmap s);
  psd_rest : vacrel s' = vacrel s /\ vlocks s' = vlocks s /\ freeze_wal s' = freeze_wal s;
}.

Lemma second_pass_wp blkno index (s : VacState) : let unused := listed_for blkno (drop index (dead_items (vacrel s))) in
  page_tuples (vpage s) -> removable_items (items_of (vpage s)) unused ->
  vm_ok (vmap s) -> HEAPBLK_TO_MAPBLOCK blkno ∈ pinned (vmap s) ->
  wp (lazy_vacuum_pg_tde_page blkno index (Some (HEAPBLK_TO_MAPBLOCK blkno)))
    (fun k s' => k = (index + length unused)%nat /\ pass_done blkno unused s s') s.
Proof.
  intros unused Hp Hri Hvm Hpin. unfold lazy_vacuum_pg_tde_page. wps. fold unused. apply wp_crit.
  destruct (Nat.ltb_spec MaxHeapTuplesPerPage (length unused)) as [Hl|_]; [by destruct Hri; lia|].
  destruct (make_unused_wp unused (vpage s) Hri) as (linp' & Es & Hif & Hmu).
  wps. unfold on_vpage. wps. eapply wp_mono; [exact Hmu|]. clear Hmu.
  intros [] p1 (E1 & E2 & E3 & E4 & E5 & E6 & E7 & E8 & E9).
  set (s1 := with_vpage (with_dirty true (hint_dirty p1) p1) (with_vpage p1 s)).
  assert (Hlog : wp (log_vacuum unused) (fun _ s2 => items_of (vpage s2) = cut_unused linp'
    /\ bytes_of (vpage s2) = bytes_of (vpage s) /\ now (vpage s2) = now (vpage s)
    /\ page_visible s2 = page_visible s /\ vmap s2 = vmap s /\ vlocks s2 = vlocks s /\ vacrel s2 = vacrel s
    /\ freeze_wal s2 = freeze_wal s /\ vacuum_wal s2 = vacuum_wal s ++
    (if PagePrune.RelationNeedsWAL then [{| xl_nunused := u16 (Z.of_nat (length unused)); xl_unused := unused |}] else [])) s1).
  { unfold log_vacuum. destruct PagePrune.RelationNeedsWAL; wps; [unfold on_vpage; wps|].
    - cbn. by split_and!.
    - cbn. by rewrite app_nil_r. }
  unfold MarkBufferDirty. wps. eapply wp_mono; [exact Hlog|]. clear Hlog.
  intros [] s2 (F1 & F2 & F3 & F4 & F5 & F6 & F7 & F8 & F9). wps.
  assert (Hdead : forall o lp, PageGetItemId (items_of (vpage s)) o = Some lp -> ItemIdIsNormal lp = true -> o ∉ unused).
  { intros o lp Hlp Hn Ho. destruct (ri_dead _ _ Hri o Ho) as (lp' & Hlp' & Hd). replace lp' with lp in * by congruence.
    destruct (normal_kind lp Hn). congruence. }
  assert (Hp2 : page_tuples (vpage s2)).
  { eapply fewer_items_tuples; [exact Hp|done|done|]. intros o lp Hlp Hn. rewrite F1 in Hlp.
    destruct (decide (o ∈ unused)) as [Ho|Ho]; [|by eapply if_kept].
    pose proof (if_freed _ _ _ Hif o lp Ho Hlp). by rewrite normal_used in *. }
  eapply wp_mono; [by apply all_visible_wp|]. intros [[v c] f] p3 [Hoh Hseen]. cbn [fst snd] in Hseen.
  pose proof (oh_page _ _ Hoh) as Hhp.
  assert (Htup : forall o lp h, PageGetItemId (items_of (vpage s)) o = Some lp -> ItemIdIsNormal lp = true ->
    tuple_on (vpage s) lp = Some h ->
    exists h', tuple_on p3 lp = Some h' /\ later_header h (now (vpage s)) h' (now p3)).
  { intros o lp h Hlp Hn Hh. rewrite <- F3. eapply hp_headers; [exact Hhp| |done|unfold tuple_on; by rewrite F2].
    rewrite F1. eapply (PageGetItemId_Some _ o), (if_normal _ _ _ Hif); [done|by apply normal_used|by eapply Hdead]. }
  assert (Hp3 : page_tuples p3) by by eapply hinted_page_tuples.
  destruct v; wps.
  - unfold on_vmap. wps. destruct (set_spec blkno (Some blkno) InvalidXLogRecPtr c (visible_flags f) (map_of (with_page_visible true (with_vpage p3 s2)))) as (v' & Ev & Hvm' & Hpin' & Hst & _);
      [| |apply visible_flags_range|by left|eapply wp_of_run; [exact Ev|]]; [unfold map_of; cbn; rewrite F5; exact Hvm|cbn; by rewrite F5|].
    wps. split; [done|]. split; cbn; try done.
    + change (items_freed (items_of (vpage s)) unused (items_of p3)). rewrite (hp_items _ _ Hhp), F1. exact Hif.
    + exists linp'. split; [done|]. change (items_of p3 = cut_unused linp'). by rewrite (hp_items _ _ Hhp), F1.
    + destruct Hp3 as [P1 P2]. split; [exact P1|exact P2].
    + exists true, f. split_and!; [exact Hseen|done|]. intros y Hy. rewrite Hst by done.
      unfold vm_status, pages. cbn. rewrite F5. by destruct (y =? blkno).
    + split; [done|]. rewrite Hpin'. cbn. by rewrite F5.
  - split; [done|]. split; cbn; try done.
    + rewrite (hp_items _ _ Hhp), F1. exact Hif.
    + exists linp'. split; [done|]. change (items_of p3 = cut_unused linp'). by rewrite (hp_items _ _ Hhp), F1.
    + exists false, f. split_and!; [done|by rewrite F4|]. intros y Hy. by rewrite F5.
    + by rewrite F5.
Qed.
End second_pass.

(** ** A page that is not frozen *)

Section noprune.
Context `{HE : EVP} `{HS : CIntShift}.
Context `{HJ : Json} `{HB : Base64} `{HC : Curl} `{HF : KeyringFs}.
Context `{HT : TdeEnv} `{HP : PgBlockSize} `{HPS : !PgBlockSizeLaws} `{HM : PageMacros}.
Context `{HH : HtupFlags} `{HHL : !HtupFlagsLaws} `{HW : World} `{HWL : !WorldLaws}.
Context `{HLP : LinePointers} `{HLL : !LinePointersLaws} `{HHF : HotFlags}.
Context `{HPE : PruneEnv} `{HPL : !PruneEnvLaws}.
Context `{HLF : LockFlags} `{HFB : !FlagBits} `{HMX : MultiXacts} `{HML : !MultiXactsLaws}.
Context `{HX : XidMacros} `{HXL : !XidMacrosLaws}.
Context `{HV : VmEnv} `{HVL : !VmLaws} `{HVE : VacEnv}.

(** Every xid and every multixact a tuple speaks of. *)
Record all_ids (PX PM : Z -> Prop) (st : mxstore) (tuple : TupleHeader) : Prop := {
  ai_xmin : TransactionIdIsNormal (HeapTupleHeaderGetXmin (fields tuple)) = true ->
    PX (HeapTupleHeaderGetXmin (fields tuple));
  ai_xmax : has (t_infomask (fields tuple)) HEAP_XMAX_IS_MULTI = false ->
    TransactionIdIsNormal (t_xmax (fields tuple)) = true -> PX (t_xmax (fields tuple));
  ai_multi : has (t_infomask (fields tuple)) HEAP_XMAX_IS_MULTI = true ->
    MultiXactIdIsValid (t_xmax (fields tuple)) = true -> PM (t_xmax (fields tuple));
  ai_members : has (t_infomask (fields tuple)) HEAP_XMAX_IS_MULTI = true ->
    MultiXactIdIsValid (t_xmax (fields tuple)) = true ->
    HEAP_LOCKED_UPGRADED (t_infomask (fields tuple)) = false ->
    Forall (fun m => PX (xid m)) (xmax_members st tuple);
  ai_xvac : has (t_infomask (fields tuple)) HEAP_MOVED = true ->
    TransactionIdIsNormal (HeapTupleHeaderGetXvac (fields tuple)) = true ->
    PX (HeapTupleHeaderGetXvac (fields tuple));
}.

Lemma all_ids_mono (PX PM PX' PM' : Z -> Prop) st tuple : (forall x, PX x -> PX' x) -> (forall m, PM m -> PM' m) ->
  all_ids PX PM st tuple -> all_ids PX' PM' st tuple.
Proof.
  intros HPX HPM [H1 H2 H3 H4 H5]. split; [auto..| |auto].
  intros E1 E2 E3. eapply Forall_impl; [by apply H4|auto].
Qed.

Lemma upgraded_same h h' : same_tuple h h' -> HEAP_LOCKED_UPGRADED (t_infomask h') = HEAP_LOCKED_UPGRADED (t_infomask h).
Proof.
  induction 1 as [|h h1 h2 (f & Hf & ->) _ IH]; [done|]. rewrite IH. cbn [hinted t_infomask with_infomask].
  unfold hint_flags in Hf. set_unfold in Hf. destruct_or! Hf; subst f; flags; done.
Qed.

(** Hints change no id. *)
Lemma all_ids_later PX PM st h t h' t' : later_header h t h' t' -> all_ids PX PM st h -> all_ids PX PM st h'.
Proof.
  intros [_ (_ & Hs & Hf & _)] [H1 H2 H3 H4 H5]. pose proof (upgraded_same _ _ Hs) as Hu.
  destruct (same_tuple_facts _ _ Hs) as (E1 & E2 & _ & E4 & E5 & E6 & E7 & _).
  pose proof (f_equal t_field3 (same_tuple_infomask _ _ Hs)) as E3. cbn in E3.
  assert (Hx : HeapTupleHeaderGetXmin (fields h') = HeapTupleHeaderGetXmin (fields h))
    by (unfold HeapTupleHeaderGetXmin; by rewrite Hf, E1).
  assert (Hm : has (t_infomask (fields h')) HEAP_MOVED = has (t_infomask (fields h)) HEAP_MOVED)
    by by rewrite !moved_def, !has_lor_r, E6, E7.
  assert (Hv : HeapTupleHeaderGetXvac (fields h') = HeapTupleHeaderGetXvac (fields h)).
  { by rewrite !xvac_field, Hm, E3. }
  split; rewrite ?Hx, ?Hv, ?Hm, ?E2, ?E5, ?Hu; try done. unfold xmax_members. rewrite E2, E4. exact H4.
Qed.

(** The trackers are not after [x]; without freezing, nor is the limit. *)
Definition keeps (c : VacuumCutoffs) (tx : Z) (req : bool) (x : Z) : Prop :=
  xid_le tx x /\ (req = false -> TransactionIdPrecedes x (FreezeLimit c) = false).
Definition keeps_multi (c : VacuumCutoffs) (tm : Z) (req : bool) (m : Z) : Prop :=
  multi_le tm m /\ (req = false -> MultiXactIdPrecedes m (MultiXactCutoff c) = false).

Lemma xid_le_refl x : xid_in x -> xid_le x x.
Proof. by intros; split_and!; [..|lia]. Qed.
Lemma multi_le_refl m : multi_in m -> multi_le m m.
Proof. by intros; split_and!; [..|lia]. Qed.

(** [v'] goes back from [v], and keeps what the tuple has. *)
Lemma keeps_after c v v' x : tracked_after v v' -> keeps c (tr_xid v) (tr_freeze v) x -> keeps c (tr_xid v') (tr_freeze v') x.
Proof.
  intros [H1 _ H3] [Hx Hf]. split; [by transitivity (tr_xid v)|]. intros E. apply Hf.
  destruct (tr_freeze v); [by rewrite H3 in E|done].
Qed.

Lemma track_xid_keeps c v x : xid_in (tr_xid v) -> xid_in x ->
  keeps c (tr_xid (track_xid c x v)) (tr_freeze (track_xid c x v)) x.
Proof.
  intros Hv Hx. split; [by apply track_xid_le|]. by intros [_ ?]%orb_false_iff.
Qed.

Lemma track_members_keep c ms : forall v, xid_in (tr_xid v) -> multi_in (tr_multi v) ->
  Forall (fun m => xid_in (xid m)) ms ->
  let v' := foldl (fun v x => track_xid c (xid x) v) v ms in
  tracked_after v v' /\ Forall (fun m => keeps c (tr_xid v') (tr_freeze v') (xid m)) ms.
Proof.
  induction ms as [|m ms IH]; intros v Hv Hm Hall; cbn [foldl].
  - split; [by apply tracked_after_refl|constructor].
  - apply Forall_cons in Hall as [Hx Hall].
    destruct (track_xid_after c v (xid m) Hv Hm Hx) as [Ha _].
    destruct (IH (track_xid c (xid m) v)) as [Ha' Hms]; [apply Ha|done..|].
    split; [by eapply tracked_after_trans|]. constructor; [|done].
    by eapply keeps_after, track_xid_keeps.
Qed.

Lemma track_xmax_keeps c tuple v (s : LockState) : xid_in (tr_xid v) -> multi_in (tr_multi v) ->
  all_ids xid_in multi_in (multis s) tuple ->
  wp (track_xmax tuple c v) (fun v' s' => s' = s /\ tracked_after v v'
    /\ (has (t_infomask (fields tuple)) HEAP_XMAX_IS_MULTI = false -> TransactionIdIsNormal (t_xmax (fields tuple)) = true ->
        keeps c (tr_xid v') (tr_freeze v') (t_xmax (fields tuple)))
    /\ (has (t_infomask (fields tuple)) HEAP_XMAX_IS_MULTI = true -> MultiXactIdIsValid (t_xmax (fields tuple)) = true ->
        keeps_multi c (tr_multi v') (tr_freeze v') (t_xmax (fields tuple))
        /\ (HEAP_LOCKED_UPGRADED (t_infomask (fields tuple)) = false ->
            Forall (fun m => keeps c (tr_xid v') (tr_freeze v') (xid m)) (xmax_members (multis s) tuple)))) s.
Proof.
  intros Hv Hm Ht. unfold track_xmax. pose proof (tracked_after_refl v Hv Hm) as Hrefl.
  destruct (has _ HEAP_XMAX_IS_MULTI) eqn:Emul.
  - destruct (MultiXactIdIsValid _) eqn:Ev; cbn [negb]; [|wps; by split_and!].
    destruct (track_multi_after v _ Hv Hm (ai_multi _ _ _ _ Ht Emul Ev)) as [Ha Hle].
    destruct (HEAP_LOCKED_UPGRADED _) eqn:Eup.
    + wps. split_and!; [done| |done|].
      * destruct Ha. split; [done|done|]. cbn. by rewrite orb_true_r.
      * intros _ _. split; [|done]. split; [done|]. cbn. by rewrite orb_true_r.
    + set (v1 := track_freeze _ _). assert (Ha1 : tracked_after v v1).
      { destruct Ha. split; [done|done|]. intros E. unfold v1. cbn. by rewrite E. }
      unfold lk_members. wps. fold (xmax_members (multis s) tuple).
      destruct (track_members_keep c (xmax_members (multis s) tuple) v1 ltac:(apply Ha1) ltac:(apply Ha1)
        (ai_members _ _ _ _ Ht Emul Ev Eup)) as [Ha2 Hms].
      split_and!; [done|by eapply tracked_after_trans|done|]. intros _ _. split; [|done]. split.
      * transitivity (tr_multi v1); [apply Ha2|done].
      * intros Hf. assert (Hf1 : tr_freeze v1 = false).
        { destruct (tr_freeze v1) eqn:E; [|done]. by rewrite (ta_freeze _ _ Ha2 E) in Hf. }
        by apply orb_false_iff in Hf1 as [_ ?].
  - destruct (TransactionIdIsNormal _) eqn:En; [|wps; by split_and!].
    pose proof (ai_xmax _ _ _ _ Ht Emul En) as Hx. wps.
    destruct (track_xid_after c v _ Hv Hm Hx) as [Ha _]. split_and!; [done|done| |done].
    intros _ _. by apply track_xid_keeps.
Qed.

(** After pg_tde_tuple_should_freeze the trackers cover the tuple. *)
Lemma should_freeze_keeps c tuple tx tm (s : LockState) : xid_in tx -> multi_in tm ->
  all_ids xid_in multi_in (multis s) tuple ->
  wp (pg_tde_tuple_should_freeze tuple c tx tm) (fun r s' => let '(req, tx', tm') := r in
    s' = s /\ xid_le tx' tx /\ multi_le tm' tm
    /\ all_ids (keeps c tx' req) (keeps_multi c tm' req) (multis s) tuple) s.
Proof.
  intros Hx Hm Ht. unfold pg_tde_tuple_should_freeze.
  set (v := {| tr_xid := tx; tr_multi := tm; tr_freeze := false |}).
  set (xmin := HeapTupleHeaderGetXmin (fields tuple)).
  set (v1 := if TransactionIdIsNormal xmin then _ else _).
  assert (H1 : tracked_after v v1 /\ (TransactionIdIsNormal xmin = true -> keeps c (tr_xid v1) (tr_freeze v1) xmin)).
  { unfold v1. destruct (TransactionIdIsNormal xmin) eqn:En; [|split; [by apply tracked_after_refl|done]].
    pose proof (ai_xmin _ _ _ _ Ht En) as Hin. split; [by apply track_xid_after|by intros; apply track_xid_keeps]. }
  destruct H1 as [Ha1 Hxmin]. apply wp_bind. eapply wp_mono.
  { apply track_xmax_keeps; [apply Ha1|apply Ha1|done]. }
  intros v2 s' (-> & Ha2 & Hsin & Hmul).
  set (xvac := HeapTupleHeaderGetXvac (fields tuple)). set (v3 := if _ && TransactionIdIsNormal xvac then _ else _).
  assert (H3 : tracked_after v2 v3 /\ (has (t_infomask (fields tuple)) HEAP_MOVED = true -> TransactionIdIsNormal xvac = true ->
    keeps c (tr_xid v3) (tr_freeze v3) xvac)).
  { pose proof (ta_xid _ _ Ha2) as (Hx2 & _). pose proof (ta_multi _ _ Ha2) as (Hm2 & _). unfold v3.
    destruct (has _ HEAP_MOVED) eqn:Emv; [|split; [by apply tracked_after_refl|done]].
    destruct (TransactionIdIsNormal xvac) eqn:En; [|split; [by apply tracked_after_refl|done]]. cbn [andb].
    pose proof (ai_xvac _ _ _ _ Ht Emv En) as Hin. destruct (track_xid_le c v2 xvac Hx2 Hin) as [L1 L2].
    split; [|intros _ _; split; [exact L2|cbn; by rewrite orb_true_r]].
    split; [exact L1|by apply multi_le_refl|]. cbn. by intros ->. }
  destruct H3 as [Ha3 Hvac]. assert (Ha : tracked_after v v3) by (do 2 (eapply tracked_after_trans; [done|]); done).
  assert (Hkeep : forall x, keeps c (tr_xid v2) (tr_freeze v2) x -> keeps c (tr_xid v3) (tr_freeze v3) x)
    by (intros x; by apply keeps_after).
  wps. split_and!; [done|apply Ha|apply Ha|]. split.
  - intros En. apply Hkeep. eapply keeps_after; [exact Ha2|]. by apply Hxmin.
  - intros E En. by apply Hkeep, Hsin.
  - intros E Ev. destruct (Hmul E Ev) as [[Hle Hc] _]. split; [transitivity (tr_multi v2); [apply Ha3|done]|].
    intros Hf. apply Hc. destruct (tr_freeze v2) eqn:E2; [|done]. by rewrite (ta_freeze _ _ Ha3 E2) in Hf.
  - intros E Ev Eu. destruct (Hmul E Ev) as [_ Hms]. eapply Forall_impl; [by apply Hms|]. intros m. apply Hkeep.
  - exact Hvac.
Qed.

(** The dead line pointers before an offset, in order. *)
Definition dead_at (linp : list ItemId) (o : Z) : bool :=
  match PageGetItemId linp o with
  | Some lp => ItemIdIsUsed lp && negb (ItemIdIsRedirected lp) && ItemIdIsDead lp
  | None => false
  end.
Definition dead_before (linp : list ItemId) (o : Z) : list Z := filter (fun x => dead_at linp x = true) (seqZ 1 (o - 1)).
Definition dead_offsets (linp : list ItemId) : list Z := dead_before linp (Z.of_nat (length linp) + 1).

Lemma dead_before_next linp o : 1 <= o ->
  dead_before linp (o + 1) = dead_before linp o ++ (if dead_at linp o then [o] else []).
Proof.
  intros Ho. unfold dead_before. replace (o + 1 - 1) with (o - 1 + 1) by lia. rewrite seqZ_app by lia.
  rewrite filter_app. f_equal. replace (1 + (o - 1)) with o by lia. change (seqZ o 1) with [o].
  rewrite filter_cons. destruct (dead_at linp o) eqn:E; [by rewrite decide_True|by rewrite decide_False by congruence].
Qed.

Lemma dead_before_length linp o : 1 <= o -> Z.of_nat (length (dead_before linp o)) <= o - 1.
Proof.
  intros Ho. unfold dead_before. pose proof (length_filter (fun x => dead_at linp x = true) (seqZ 1 (o - 1))) as H.
  rewrite length_seqZ in H. lia.
Qed.

Lemma dead_offsets_removable linp : (length linp <= MaxHeapTuplesPerPage)%nat -> removable_items linp (dead_offsets linp).
Proof.
  intros Hl. split.
  - intros o [Hd _]%list_elem_of_filter. unfold dead_at in Hd. destruct (PageGetItemId linp o) as [lp|]; [|done].
    exists lp. split; [done|]. by apply andb_true_iff in Hd as [_ ?].
  - apply NoDup_filter, NoDup_seqZ.
  - pose proof (dead_before_length linp (Z.of_nat (length linp) + 1) ltac:(lia)). unfold dead_offsets. lia.
Qed.

(** What is saved for a block is what is listed for it. *)
Lemma listed_for_saved blkno l rest : Forall (fun t => t.1 <> blkno) rest ->
  listed_for blkno (((fun o => (blkno, o)) <$> l) ++ rest) = l.
Proof.
  intros Hr. induction l as [|o l IH]; cbn.
  - destruct Hr as [|[b o] rest Hb _]; [done|]. cbn in *. by destruct (Z.eqb_spec b blkno).
  - by rewrite Z.eqb_refl, IH.
Qed.

Lemma wp_push {S A} (a : A) l (s : S) (Q : list A -> S -> Prop) : (length l < MaxHeapTuplesPerPage)%nat ->
  Q (l ++ [a]) s -> wp (push a l) Q s.
Proof. intros Hl HQ. unfold push. by rewrite (proj2 (Nat.ltb_lt _ _)). Qed.

Lemma save_dead_items_wp blkno l (s : VacState) (Q : unit -> VacState -> Prop) :
  Z.of_nat (length (dead_items (vacrel s)) + length l) <= max_items (vacrel s) ->
  Q tt (with_vacrel (with_dead_items (dead_items (vacrel s) ++ ((fun o => (blkno, o)) <$> l)) (vacrel s)) s) ->
  wp (save_dead_items blkno l) Q s.
Proof.
  intros Hl HQ. unfold save_dead_items, on_rel. wps. rewrite length_app, length_fmap.
  rewrite (proj2 (Z.ltb_ge _ _)) by done. by wps.
Qed.

(** Only hints of the page and clocks have changed. *)
Record vac_hints (s s' : VacState) : Prop := {
  vh_page : only_hints (vpage s) (vpage s');
  vh_rest : page_visible s' = page_visible s /\ vmap s' = vmap s /\ vacrel s' = vacrel s
    /\ freeze_wal s' = freeze_wal s /\ vacuum_wal s' = vacuum_wal s;
  vh_multis : multis (vlocks s') = multis (vlocks s);
}.

Lemma vac_hints_trans s1 s2 s3 : vac_hints s1 s2 -> vac_hints s2 s3 -> vac_hints s1 s3.
Proof.
  intros [P1 (A1&A2&A3&A4&A5) M1] [P2 (B1&B2&B3&B4&B5) M2].
  split; [by eapply only_hints_trans|split_and!; congruence|congruence].
Qed.

Lemma vac_hints_refl s : page_tuples (vpage s) -> vac_hints s s.
Proof. intros H. split; [by apply only_hints_refl|done|done]. Qed.

(** The page's tuples have ids that [PX] and [PM] hold of. *)
Definition page_ids (PX PM : Z -> Prop) (s : VacState) (below : Z) : Prop :=
  forall x lp, x < below -> PageGetItemId (items_of (vpage s)) x = Some lp -> ItemIdIsNormal lp = true ->
    exists h, tuple_on (vpage s) lp = Some h /\ all_ids PX PM (multis (vlocks s)) h.

Lemma page_ids_later (PX PM PX' PM' : Z -> Prop) s s' b : vac_hints s s' -> (forall x, PX x -> PX' x) -> (forall m, PM m -> PM' m) ->
  page_ids PX PM s b -> page_ids PX' PM' s' b.
Proof.
  intros [[[Hi Hn Hh] _] _ Hm] HPX HPM H x lp Hx Hlp Hnor. rewrite Hi in Hlp.
  destruct (H x lp Hx Hlp Hnor) as (h & Eh & Ha). pose proof Hlp as [_ Hin]%PageGetItemId_Some.
  destruct (Hh lp h Hin Hnor Eh) as (h' & Eh' & Hl). exists h'. split; [done|]. rewrite Hm.
  eapply all_ids_mono; [exact HPX|exact HPM|]. by eapply all_ids_later.
Qed.

(** The scan before [o]. *)
Record np_seen (r : LVRelState) (s0 s : VacState) (o : Z) (v : NopruneState) : Prop := {
  ns_hints : vac_hints s0 s;
  ns_xid : xid_le (np_xid v) (NewRelfrozenXid r) /\ multi_le (np_multi v) (NewRelminMxid r);
  ns_dead : np_dead v = dead_before (items_of (vpage s0)) o;
  ns_ids : page_ids (keeps (cutoffs r) (np_xid v) (negb (aggressive r)))
    (keeps_multi (cutoffs r) (np_multi v) (negb (aggressive r))) s o;
  ns_hastup x lp : 1 <= x < o -> PageGetItemId (items_of (vpage s0)) x = Some lp ->
    ItemIdIsNormal lp = true \/ ItemIdIsRedirected lp = true -> np_hastup v = true;
}.

(** One more item. *)
Lemma np_seen_next r s0 s s' o v v' lp : vac_hints s s' -> PageGetItemId (items_of (vpage s0)) o = Some lp ->
  np_seen r s0 s o v -> 1 <= o ->
  xid_le (np_xid v') (np_xid v) -> multi_le (np_multi v') (np_multi v) ->
  np_dead v' = np_dead v ++ (if dead_at (items_of (vpage s0)) o then [o] else []) ->
  (np_hastup v = true -> np_hastup v' = true) ->
  (ItemIdIsNormal lp = true \/ ItemIdIsRedirected lp = true -> np_hastup v' = true) ->
  (ItemIdIsNormal lp = true -> exists h, tuple_on (vpage s') lp = Some h
     /\ all_ids (keeps (cutoffs r) (np_xid v') (negb (aggressive r)))
         (keeps_multi (cutoffs r) (np_multi v') (negb (aggressive r))) (multis (vlocks s')) h) ->
  np_seen r s0 s' (o + 1) v'.
Proof.
  intros Hh Hlp [H1 [H2 H2'] H3 H4 H5] Ho Hx Hm Hd Hup Hthis Htup.
  assert (Hs : vac_hints s0 s') by by eapply vac_hints_trans.
  split; [done| | | |].
  - split; [by transitivity (np_xid v)|by transitivity (np_multi v)].
  - by rewrite dead_before_next, <- H3.
  - intros x lp' Hxo Hlp' Hnor. destruct (decide (x = o)) as [->|Hne].
    + rewrite (hp_items _ _ (oh_page _ _ (vh_page _ _ Hs))) in Hlp'. replace lp' with lp in * by congruence. by apply Htup.
    + refine (page_ids_later _ _ _ _ s s' o Hh _ _ H4 x lp' _ Hlp' Hnor); [..|lia].
      * intros y [Hy Hf]. split; [by transitivity (np_xid v)|done].
      * intros y [Hy Hf]. split; [by transitivity (np_multi v)|done].
  - intros x lp' Hxo Hlp' Hk. destruct (decide (x = o)) as [->|Hne].
    + replace lp' with lp in * by congruence. by apply Hthis.
    + apply Hup. eapply (H5 x); [lia|done|done].
Qed.

Lemma on_vlocks_wp {A} (m : M LockState A) (Q : A -> VacState -> Prop) (s : VacState) :
  wp m (fun a l => l = locks_of s /\ forall s', vpage s' = vpage s -> vac_hints s s' -> Q a s') (locks_of s) ->
  page_tuples (vpage s) -> wp (on_vlocks m) Q s.
Proof.
  intros Hm Hp. unfold on_vlocks. apply wp_zoom. eapply wp_mono; [exact Hm|]. intros a l [-> HQ].
  assert (Ep : with_now (now (vpage s)) (vpage s) = vpage s) by by destruct (vpage s).
  apply HQ; [by cbn; rewrite Ep|]. split; [|by cbn|done]. cbn. rewrite Ep. by apply only_hints_refl.
Qed.

Lemma noprune_item_wp r s0 o v lp (s : VacState) : page_tuples (vpage s0) ->
  page_ids xid_in multi_in s0 (Z.of_nat (length (items_of (vpage s0))) + 1) ->
  (length (items_of (vpage s0)) <= MaxHeapTuplesPerPage)%nat ->
  xid_in (NewRelfrozenXid r) -> multi_in (NewRelminMxid r) -> 1 <= o ->
  PageGetItemId (items_of (vpage s0)) o = Some lp -> np_seen r s0 s o v ->
  wp (noprune_item r o v) (fun x s' => if x.1 then aggressive r = true /\ vac_hints s0 s' else np_seen r s0 s' (o + 1) x.2) s.
Proof.
  intros Hp Hids Hlen Hx Hm Ho Hlp Hs. pose proof Hs as [Hh [Hvx Hvm] Hd _ _].
  pose proof (oh_page _ _ (vh_page _ _ Hh)) as Hhp. pose proof (hinted_page_tuples _ _ Hhp Hp) as Hps.
  pose proof (PageGetItemId_Some _ _ _ Hlp) as [Hrange Hin].
  unfold noprune_item, on_vpage. wps. rewrite (hp_items _ _ Hhp). eapply wp_defined; [done|].
  replace (with_vpage (vpage s) s) with s by by destruct s.
  assert (Hxx : xid_le (np_xid v) (np_xid v)) by by apply xid_le_refl, Hvx.
  assert (Hmm : multi_le (np_multi v) (np_multi v)) by by apply multi_le_refl, Hvm.
  assert (Edead : dead_at (items_of (vpage s0)) o = ItemIdIsUsed lp && negb (ItemIdIsRedirected lp) && ItemIdIsDead lp)
    by (unfold dead_at; by rewrite Hlp).
  assert (Hstep : forall v', np_xid v' = np_xid v -> np_multi v' = np_multi v -> ItemIdIsNormal lp = false ->
    np_dead v' = np_dead v ++ (if dead_at (items_of (vpage s0)) o then [o] else []) ->
    (np_hastup v = true -> np_hastup v' = true) -> (ItemIdIsRedirected lp = true -> np_hastup v' = true) ->
    np_seen r s0 s (o + 1) v').
  { intros v' E1 E2 En E3 Hup Hr. apply (np_seen_next r s0 s s o v v' lp); try done.
    - by apply vac_hints_refl.
    - by rewrite E1.
    - by rewrite E2.
    - rewrite En. intros [?|?]; [done|auto].
    - by rewrite En. }
  destruct (ItemIdIsUsed lp) eqn:Eu; cbn [negb].
  2: { wps. apply Hstep; try done.
       - destruct (ItemIdIsNormal lp) eqn:En; [|done]. apply normal_used in En. congruence.
       - rewrite Edead. cbn. by rewrite app_nil_r.
       - intros Er%redirected_used. congruence. }
  destruct (ItemIdIsRedirected lp) eqn:Er.
  { wps. apply Hstep; try done.
    - destruct (ItemIdIsNormal lp) eqn:En; [|done]. apply normal_kind in En as [? _]. congruence.
    - rewrite Edead. cbn. by rewrite app_nil_r. }
  destruct (ItemIdIsDead lp) eqn:Ed.
  { cbn in Edead. wps. apply wp_push.
    { pose proof (dead_before_length (items_of (vpage s0)) o Ho). unfold maxoff in *. rewrite Hd. lia. }
    wps. apply Hstep; try done; [|by rewrite Edead].
    destruct (ItemIdIsNormal lp) eqn:En; [|done]. apply normal_kind in En as [_ ?]. congruence. }
  pose proof (used_kind lp Eu Er Ed) as Hnor. destruct (page_header _ Hps lp) as (h & Eh & _);
    [by rewrite (hp_items _ _ Hhp)|done|]. unfold header_on. wps. eapply wp_defined; [done|]. wps.
  replace (with_vpage (vpage s) s) with s by by destruct s.
  pose proof Hlp as Hlp1. rewrite <- (hp_items _ _ Hhp) in Hlp1.
  destruct (page_ids_later _ _ xid_in multi_in s0 s _ Hh ltac:(done) ltac:(done) Hids o lp ltac:(unfold maxoff in *; lia) Hlp1 Hnor)
    as (h1 & E1 & Hid). replace h1 with h in * by congruence. clear h1 E1.
  apply on_vlocks_wp; [|done]. eapply wp_mono; [apply should_freeze_keeps; [apply Hvx|apply Hvm|exact Hid]|].
  intros [[req x] m] l (-> & Hxl & Hml & Hk). split; [done|]. intros s1 Ep Hh1.
  destruct (req && aggressive r) eqn:Ereq.
  { wps. apply andb_true_iff in Ereq as [_ ?]. split; [done|]. by eapply vac_hints_trans. }
  unfold on_vpage. rewrite <- Ep in Hps, Eh. wps. destruct (list_elem_of_lookup_1 _ _ Hin) as [i Hi].
  eapply wp_mono.
  { eapply (on_header_wp _ (fun _ _ _ => True) (vpage s1) i lp h); [done| |done|done|].
    - rewrite Ep, (hp_items _ _ Hhp). done.
    - intros Hok Htok. eapply vwp_mono; [by apply Vacuum_rule|]. by intros ? ? ? [_ ?]. }
  intros res p1 (Hoh & h' & Eh' & Hl & _). wps.
  assert (Hh2 : vac_hints s (with_vpage p1 s1)).
  { eapply vac_hints_trans; [exact Hh1|]. by split. }
  assert (Hfin : all_ids (keeps (cutoffs r) x (negb (aggressive r))) (keeps_multi (cutoffs r) m (negb (aggressive r)))
    (multis (vlocks (with_vpage p1 s1))) h').
  { cbn. rewrite (vh_multis _ _ Hh1). eapply all_ids_later; [exact Hl|]. eapply all_ids_mono; [| |exact Hk].
    - intros y [Hy Hf]. split; [done|]. intros Ea%negb_false_iff. apply Hf. by rewrite Ea, andb_true_r in Ereq.
    - intros y [Hy Hf]. split; [done|]. intros Ea%negb_false_iff. apply Hf. by rewrite Ea, andb_true_r in Ereq. }
  apply (np_seen_next r s0 s _ o v _ lp); try done; try by destruct res.
  - destruct res; by rewrite Edead; cbn; rewrite app_nil_r.
  - intros _. exists h'. split; [done|]. by destruct res.
Qed.

Lemma noprune_loop_wp r s0 n : page_tuples (vpage s0) ->
  page_ids xid_in multi_in s0 (Z.of_nat (length (items_of (vpage s0))) + 1) ->
  (length (items_of (vpage s0)) <= MaxHeapTuplesPerPage)%nat ->
  xid_in (NewRelfrozenXid r) -> multi_in (NewRelminMxid r) -> forall o v (s : VacState), 1 <= o ->
  o + Z.of_nat n = Z.of_nat (length (items_of (vpage s0))) + 1 -> np_seen r s0 s o v ->
  wp (noprune_loop n r o v) (fun x s' => if x.1 then aggressive r = true /\ vac_hints s0 s'
    else np_seen r s0 s' (Z.of_nat (length (items_of (vpage s0))) + 1) x.2) s.
Proof.
  intros Hp Hids Hlen Hx Hm. induction n as [|n IH]; intros o v s Ho Hn Hs; cbn [noprune_loop].
  { wps. cbn. by replace (Z.of_nat (length (items_of (vpage s0))) + 1) with o by lia. }
  destruct (PageGetItemId_is_Some (items_of (vpage s0)) o) as [lp Hlp]; [unfold maxoff; lia|].
  wps. eapply wp_mono; [by eapply (noprune_item_wp r s0 o v lp)|]. intros [[] v'] s1 Hs1; cbn in Hs1.
  - by wps.
  - apply IH; [lia|lia|done].
Qed.

(** What VACUUM knows after a page that it did not prune. *)
Record noprune_done (blkno : Z) (s s' : VacState) (hastup recordfreespace : bool) : Prop := {
  nd_page : only_hints (vpage s) (vpage s') /\ page_visible s' = page_visible s /\ vmap s' = vmap s
    /\ freeze_wal s' = freeze_wal s /\ vacuum_wal s' = vacuum_wal s;
  nd_trackers : xid_le (NewRelfrozenXid (vacrel s')) (NewRelfrozenXid (vacrel s))
    /\ multi_le (NewRelminMxid (vacrel s')) (NewRelminMxid (vacrel s));
  nd_ids : page_ids (keeps (cutoffs (vacrel s)) (NewRelfrozenXid (vacrel s')) (negb (aggressive (vacrel s))))
    (keeps_multi (cutoffs (vacrel s)) (NewRelminMxid (vacrel s')) (negb (aggressive (vacrel s)))) s'
    (Z.of_nat (length (items_of (vpage s))) + 1);
  nd_dead : dead_items (vacrel s') = dead_items (vacrel s) ++
    (if nindexes (vacrel s) =? 0 then [] else (fun o => (blkno, o)) <$> dead_offsets (items_of (vpage s)));
  nd_count : lpdead_items (counts_of (vacrel s')) - lpdead_items (counts_of (vacrel s))
    = Z.of_nat (length (dead_items (vacrel s'))) - Z.of_nat (length (dead_items (vacrel s)));
  nd_hastup : hastup = false -> forall x lp, PageGetItemId (items_of (vpage s)) x = Some lp -> ItemIdIsUsed lp = true ->
    nindexes (vacrel s) <> 0 /\ x ∈ dead_offsets (items_of (vpage s));
  nd_space : recordfreespace = true <-> nindexes (vacrel s) = 0 \/ dead_offsets (items_of (vpage s)) = [];
}.

(** A page without [hastup] has only dead items. *)
Lemma np_seen_empty r s0 s v x lp : np_seen r s0 s (Z.of_nat (length (items_of (vpage s0))) + 1) v -> np_hastup v = false ->
  PageGetItemId (items_of (vpage s0)) x = Some lp -> ItemIdIsUsed lp = true -> x ∈ dead_offsets (items_of (vpage s0)).
Proof.
  intros Hs Hn Hlp Hu. pose proof (PageGetItemId_Some _ _ _ Hlp) as [Hr _]. unfold maxoff in Hr.
  assert (Hk : ~ (ItemIdIsNormal lp = true \/ ItemIdIsRedirected lp = true)).
  { intros Hk. pose proof (ns_hastup _ _ _ _ _ Hs x lp ltac:(lia) Hlp Hk). congruence. }
  apply list_elem_of_filter. split; [|apply elem_of_seqZ; lia]. unfold dead_at. rewrite Hlp, Hu. cbn.
  destruct (ItemIdIsRedirected lp) eqn:Er; [naive_solver|]. cbn. destruct (ItemIdIsDead lp) eqn:Ed; [done|].
  pose proof (used_kind lp Hu Er Ed). naive_solver.
Qed.

Lemma lazy_scan_noprune_wp blkno (s : VacState) : page_tuples (vpage s) ->
  page_ids xid_in multi_in s (Z.of_nat (length (items_of (vpage s))) + 1) ->
  (length (items_of (vpage s)) <= MaxHeapTuplesPerPage)%nat ->
  xid_in (NewRelfrozenXid (vacrel s)) -> multi_in (NewRelminMxid (vacrel s)) ->
  Z.of_nat (length (dead_items (vacrel s)) + MaxHeapTuplesPerPage) <= max_items (vacrel s) ->
  wp (lazy_scan_noprune blkno) (fun x s' => let '(processed, hastup, recordfreespace) := x in
    if (processed : bool) then noprune_done blkno s s' hastup recordfreespace
    else aggressive (vacrel s) = true /\ vac_hints s s') s.
Proof.
  intros Hp Hids Hlen Hx Hm Hroom. unfold lazy_scan_noprune, on_vpage. wps.
  replace (with_vpage (vpage s) s) with s by by destruct s.
  set (r := vacrel s) in *. set (linp := items_of (vpage s)) in *.
  eapply wp_mono.
  { apply (noprune_loop_wp r s _ Hp Hids Hlen Hx Hm); [done|unfold linp; lia|]. split; cbn.
    - by apply vac_hints_refl.
    - split; [by apply xid_le_refl|by apply multi_le_refl].
    - done.
    - intros x lp Hx1 [? _]%PageGetItemId_Some. lia.
    - lia. }
  intros [[] v] s1 Hs1; cbn in Hs1; [by wps|]. pose proof Hs1 as [[Hoh (A1&A2&A3&A4&A5) Hmu] [B1 B2] Hd Hk _].
  fold linp in Hd, Hk, Hs1. fold (dead_offsets linp) in Hd.
  pose proof (ri_few _ _ (dead_offsets_removable linp Hlen)) as Hfew.
  set (nx := np_xid v) in *. set (nm := np_multi v) in *. unfold on_rel. wps. rewrite Hd.
  destruct (Z.eqb_spec (nindexes r) 0) as [En|En]; [|destruct (Z.eqb_spec (Z.of_nat (length (dead_offsets linp))) 0) as [El|El]].
  - wps. split; cbn; rewrite ?A3; fold r.
    + by split_and!.
    + by split.
    + exact Hk.
    + rewrite En. cbn. by rewrite app_nil_r.
    + lia.
    + intros [Hn Hz%Z.ltb_ge]%orb_false_iff x lp Hlp Hu. pose proof (np_seen_empty _ _ _ _ _ _ Hs1 Hn Hlp Hu) as Hin.
      fold linp in Hin. destruct (dead_offsets linp); [by apply not_elem_of_nil in Hin|]. cbn [length] in Hz. lia.
    + split; [by left|done].
  - destruct (dead_offsets linp) as [|] eqn:Edo; [|cbn in El; lia]. wps. split; cbn; rewrite ?A3; fold r.
    + by split_and!.
    + by split.
    + exact Hk.
    + fold linp. rewrite Edo. cbn. destruct (_ =? 0); by rewrite app_nil_r.
    + lia.
    + intros Hn x lp Hlp Hu. split; [done|]. by eapply np_seen_empty.
    + split; [by right|done].
  - wps. apply save_dead_items_wp; [cbn; rewrite A3; fold r; lia|]. wps. split; cbn; rewrite ?A3; fold r linp.
    + by split_and!.
    + by split.
    + exact Hk.
    + rewrite (proj2 (Z.eqb_neq _ _)) by done. done.
    + rewrite length_app, length_fmap. lia.
    + intros Hn x lp Hlp Hu. split; [done|]. by eapply np_seen_empty.
    + split; [done|]. intros [?|E]; [done|]. by rewrite E in El.
Qed.
End noprune.

(** ** What everyone sees, and the replay of the second pass *)

Section seen.
Context `{HE : EVP} `{HS : CIntShift}.
Context `{HJ : Json} `{HB : Base64} `{HC : Curl} `{HF : KeyringFs}.
Context `{HT : TdeEnv} `{HP : PgBlockSize} `{HM : PageMacros}.
Context `{HH : HtupFlags} `{HHL : !HtupFlagsLaws} `{HW : World} `{HWL : !WorldLaws}.
Context `{HLP : LinePointers} `{HLL : !LinePointersLaws} `{HHF : HotFlags}.
Context `{HPE : PruneEnv} `{HPL : !PruneEnvLaws}.
Context `{HLF : LockFlags} `{HFB : !FlagBits} `{HMX : MultiXacts} `{HX : XidMacros} `{HXL : !XidMacrosLaws}.
Context `{HVE : VacEnv} `{HTL : !TruncateLaws}.

(** From now on the tuple is in every snapshot that is not older, whenever it
    is taken: a deletion that is still running at [t] would be seen by the
    snapshots taken after its commit. *)
Definition always_visible (o : Z) (h : HeapTupleHeader) (t : nat) : Prop :=
  forall sn h' t', not_older o sn -> (snapshot_taken sn <= t')%nat -> evolves h t h' t' ->
    vwp (HeapTupleSatisfiesMVCC sn) (fun r _ _ => r = true) h' t'.

Lemma everyone_sees_always o h t : everyone_sees o h t -> hints_ok h t -> VisibilityProps.tuple_ok h t -> always_visible o h t.
Proof.
  intros Hs Hok Htok sn h' t' Hsn Hta He. pose proof (evolves_tuple_ok _ _ _ _ He Htok) as Htok'.
  assert (Hok' : hints_ok h' t') by apply He.
  eapply vwp_mono; [by apply HeapTupleSatisfiesMVCC_rule|]. intros r h2 t2 [-> _].
  apply (everyone_sees_mvcc o); [by eapply everyone_sees_later|done|done].
Qed.

(** Every item of the page is free or leads to a tuple that is always
    visible. *)
Definition page_visible_to_all (o : Z) (s : PageState) : Prop :=
  forall x lp, PageGetItemId (items_of s) x = Some lp -> ItemIdIsUsed lp = true ->
    ItemIdIsRedirected lp = true
    \/ (ItemIdIsNormal lp = true /\ exists h, tuple_on s lp = Some h /\ always_visible o (fields h) (now s)).

Lemma page_seen_visible o f s : page_tuples s -> page_seen o f s -> page_visible_to_all o s.
Proof.
  intros Hp Hs x lp Hlp Hu. pose proof Hlp as [Hr Hin]%PageGetItemId_Some.
  destruct (Hs x Hr) as (lp1 & E1 & Hk & Hx). replace lp1 with lp in * by congruence. clear lp1 E1.
  destruct (Hk Hu) as [?|Hn]; [by left|right]. split; [done|]. destruct (Hx Hn) as (h & Eh & Hsee & _).
  exists h. split; [done|]. destruct (page_header _ Hp lp Hin Hn) as (h1 & E1 & Hok & Htok).
  replace h1 with h in * by congruence. by apply everyone_sees_always.
Qed.

(** A standby whose page has the same items ends up with the same items. *)
Lemma xlog_vacuum_spec bn lsn unused linp' (t : PageState) :
  set_items ItemIdSetUnused unused (items_of t) = Some linp' ->
  exists t', pg_tde_xlog_vacuum bn BLK_NEEDS_REDO lsn unused t = (Ret tt, t')
    /\ items_of t' = cut_unused linp' /\ bytes_of t' = bytes_of t /\ pd_lsn t' = lsn.
Proof.
  intros Es. destruct (wp_run (pg_tde_xlog_vacuum bn BLK_NEEDS_REDO lsn unused)
    (fun _ t' => items_of t' = cut_unused linp' /\ bytes_of t' = bytes_of t /\ pd_lsn t' = lsn) t) as ([] & t' & E & H);
    [|by exists t'].
  unfold pg_tde_xlog_vacuum, make_unused, record_free_space, tell, MarkBufferDirty, on_base, on_page. wps.
  eapply wp_defined; [exact Es|]. wps. unfold items_of, bytes_of. cbn. by rewrite truncate_items, truncate_bytes.
Qed.
End seen.

(** ** The end of the table *)

Section truncation.
Context `{HM : PageMacros} `{HLP : LinePointers} `{HTE : TruncEnv}.

(** No item of the page is in use. *)
Definition empty_page (linp : list ItemId) : Prop := forall lp, lp ∈ linp -> ItemIdIsUsed lp = false.

Lemma empty_page_test linp : existsb ItemIdIsUsed linp = false -> empty_page linp.
Proof.
  intros E lp Hin. apply not_true_is_false. intros Hu.
  assert (existsb ItemIdIsUsed linp = true); [|congruence].
  apply existsb_exists. exists lp. split; [by apply list_elem_of_In|done].
Qed.

Lemma nondeletable_spec page_of waiters nonempty n : forall blkno, blkno = nonempty + Z.of_nat n ->
  let '(k, waiting) := nondeletable_loop n page_of waiters nonempty blkno in
  nonempty <= k <= blkno /\ (waiting = true -> waiters k = true)
  /\ (forall b, k <= b < blkno -> empty_page (page_of b))
  /\ (waiting = false -> nonempty < k -> ~ empty_page (page_of (k - 1))).
Proof.
  induction n as [|n IH]; intros blkno Hb; cbn [nondeletable_loop].
  { split_and!; [lia|lia|done|lia|lia]. }
  destruct ((blkno mod 32 =? 0) && waiters blkno) eqn:Ew.
  { apply andb_true_iff in Ew as [_ Ew]. split_and!; [lia|lia|done|lia|done]. }
  destruct (existsb ItemIdIsUsed (page_of (blkno - 1))) eqn:Eu.
  { split_and!; [lia|lia|done|lia|]. intros _ _ He. apply existsb_exists in Eu as (lp & Hin & Hu).
    apply list_elem_of_In, He in Hin. congruence. }
  specialize (IH (blkno - 1) ltac:(lia)). destruct (nondeletable_loop _ _ _ _ _) as [k w].
  destruct IH as (H1 & H2 & H3 & H4). split_and!; [lia|lia|done| |done].
  intros b Hbk. destruct (decide (b = blkno - 1)) as [->|Hne]; [by apply empty_page_test|apply H3; lia].
Qed.

(** What happens to the table: others act, and empty pages go from its end
    while the lock is held. *)
Inductive truncated (nonempty : Z) : nat -> list (list ItemId) -> list (list ItemId) -> Z -> Prop :=
  | truncated_stop round pages : truncated nonempty round pages (meanwhile round pages) 0
  | truncated_cut round pages n : got_lock round = true ->
      nonempty <= Z.of_nat n -> (n < length (meanwhile round pages))%nat -> Forall empty_page (drop n (meanwhile round pages)) ->
      truncated nonempty round pages (take n (meanwhile round pages)) (Z.of_nat (length (meanwhile round pages) - n))
  | truncated_again round pages n pages' k : got_lock round = true ->
      nonempty <= Z.of_nat n -> (n < length (meanwhile round pages))%nat -> Forall empty_page (drop n (meanwhile round pages)) ->
      truncated nonempty (S round) (take n (meanwhile round pages)) pages' k ->
      truncated nonempty round pages pages' (Z.of_nat (length (meanwhile round pages) - n) + k).

Lemma truncate_spec fuel : forall round pages r removed, (Z.to_nat (rel_pages r - nonempty_pages r) < fuel)%nat ->
  0 <= nonempty_pages r ->
  exists pages' k, lazy_truncate_heap fuel round pages r removed
      = Some (pages', with_rel_pages (rel_pages r - k) r, removed + k)
    /\ truncated (nonempty_pages r) round pages pages' k.
Proof.
  induction fuel as [|fuel IH]; intros round pages r removed Hf Hne; [lia|]. cbn [lazy_truncate_heap].
  set (pages1 := meanwhile round pages).
  assert (Hstop : exists pages' k, Some (pages1, r, removed) = Some (pages', with_rel_pages (rel_pages r - k) r, removed + k)
    /\ truncated (nonempty_pages r) round pages pages' k).
  { exists pages1, 0. split; [|constructor]. rewrite Z.sub_0_r, Z.add_0_r. by destruct r. }
  destruct (got_lock round) eqn:El; cbn [negb]; [|done].
  destruct (Z.eqb_spec (Z.of_nat (length pages1)) (rel_pages r)) as [Elen|]; cbn [negb]; [|done].
  unfold count_nondeletable_pages.
  destruct (decide (rel_pages r <= nonempty_pages r)) as [Hle|Hle].
  { replace (Z.to_nat (rel_pages r - nonempty_pages r)) with 0%nat by lia. cbn [nondeletable_loop].
    by rewrite (proj2 (Z.leb_le _ _)). }
  set (page_of := fun b => default [] (pages1 !! Z.to_nat b)).
  pose proof (nondeletable_spec page_of (lock_waiters round) (nonempty_pages r) (Z.to_nat (rel_pages r - nonempty_pages r))
    (rel_pages r) ltac:(lia)) as Hk.
  destruct (nondeletable_loop _ _ _ _ _) as [k w]. destruct Hk as (Hk1 & _ & Hk2 & _).
  destruct (Z.leb_spec (rel_pages r) k) as [|Hlt]; [done|].
  assert (Hempty : Forall empty_page (drop (Z.to_nat k) pages1)).
  { apply Forall_lookup. intros i l. rewrite lookup_drop. intros Hi. pose proof (lookup_lt_Some _ _ _ Hi).
    specialize (Hk2 (Z.of_nat (Z.to_nat k + i)) ltac:(lia)). unfold page_of in Hk2. rewrite Nat2Z.id, Hi in Hk2. done. }
  assert (Ek : Z.of_nat (length pages1 - Z.to_nat k) = rel_pages r - k) by lia.
  assert (Hn : nonempty_pages r <= Z.of_nat (Z.to_nat k)) by lia. assert (Hn2 : (Z.to_nat k < length pages1)%nat) by lia.
  change (nonempty_pages (with_rel_pages k r)) with (nonempty_pages r).
  destruct ((nonempty_pages r <? k) && w) eqn:Ew.
  - destruct (IH (S round) (take (Z.to_nat k) pages1) (with_rel_pages k r) (removed + (rel_pages r - k)))
      as (pages' & j & E & Ht); [cbn; lia|done|]. exists pages', (rel_pages r - k + j). rewrite E. split.
    + replace (with_rel_pages (rel_pages (with_rel_pages k r) - j) (with_rel_pages k r))
        with (with_rel_pages (rel_pages r - (rel_pages r - k + j)) r) by (unfold with_rel_pages; cbn; f_equal; lia).
      by replace (removed + (rel_pages r - k) + j) with (removed + (rel_pages r - k + j)) by lia.
    + rewrite <- Ek. by apply truncated_again.
  - exists (take (Z.to_nat k) pages1), (rel_pages r - k). split.
    + by replace (rel_pages r - (rel_pages r - k)) with k by lia.
    + rewrite <- Ek. by apply truncated_cut.
Qed.
End truncation.

(** ** Room for dead items *)

(** vacuum.h: so many item pointers fit behind the header of the array; the
    dead items of a page can be allocated, and there is a memory setting. *)
Class VacSizes `{LinePointers} `{VacEnv} := {
  sizeof_ItemPointerData : Z;
  offsetof_VacDeadItems_items : Z;
  pointer_size : 0 < sizeof_ItemPointerData;
  header_size : 0 <= offsetof_VacDeadItems_items;
  MAXDEADITEMS_fits avail : offsetof_VacDeadItems_items <= avail < 2 ^ 63 ->
    0 <= MAXDEADITEMS avail
    /\ offsetof_VacDeadItems_items + sizeof_ItemPointerData * MAXDEADITEMS avail <= avail
    /\ avail < offsetof_VacDeadItems_items + sizeof_ItemPointerData * (MAXDEADITEMS avail + 1);
  page_allocates : offsetof_VacDeadItems_items + sizeof_ItemPointerData * Z.of_nat MaxHeapTuplesPerPage <= MaxAllocSize;
  alloc_small : MaxAllocSize < 2 ^ 31;
  work_mem_enough : offsetof_VacDeadItems_items <= vac_work_mem * 1024 < 2 ^ 63;
  page_items : (0 < MaxHeapTuplesPerPage)%nat;
}.

Section room.
Context `{HM : PageMacros} `{HLP : LinePointers} `{HVE : VacEnv} `{HVZ : !VacSizes}.

(** The room that dead items take, in bytes. *)
Definition room_for (n : Z) : Z := offsetof_VacDeadItems_items + sizeof_ItemPointerData * n.

Lemma max_items_bounds r : 0 <= rel_pages r < 2 ^ 32 ->
  let n := dead_items_max_items r in
  Z.of_nat MaxHeapTuplesPerPage <= n <= INT_MAX
  /\ room_for n <= MaxAllocSize
  /\ (room_for n <= vac_work_mem * 1024 \/ n = Z.of_nat MaxHeapTuplesPerPage)
  /\ (0 < nindexes r -> rel_pages r * Z.of_nat MaxHeapTuplesPerPage <= n
      \/ MaxAllocSize < room_for (n + 1) \/ vac_work_mem * 1024 < room_for (n + 1)).
Proof.
  intros Hr n. pose proof pointer_size as Hs. pose proof header_size as Hh. pose proof page_allocates as Hp.
  pose proof alloc_small as Ha. pose proof work_mem_enough as Hw. pose proof page_items as Hi.
  set (sz := sizeof_ItemPointerData) in *. set (off := offsetof_VacDeadItems_items) in *.
  destruct (MAXDEADITEMS_fits (vac_work_mem * 1024) Hw) as (W0 & W1 & W2).
  assert (Hmax : off <= MaxAllocSize < 2 ^ 63) by nia.
  destruct (MAXDEADITEMS_fits MaxAllocSize Hmax) as (A0 & A1 & A2).
  unfold n, dead_items_max_items. set (P := Z.of_nat MaxHeapTuplesPerPage) in *.
  set (W := MAXDEADITEMS (vac_work_mem * 1024)) in *. set (A := MAXDEADITEMS MaxAllocSize) in *.
  assert (HA : A <= INT_MAX) by (unfold INT_MAX; nia). assert (HP : P < A + 1) by (apply (Z.mul_lt_mono_pos_l sz); lia). fold sz off in W1, W2, A1, A2. unfold room_for, INT_MAX in *. fold sz off.
  assert (Hmono : forall x y, x <= y -> sz * x <= sz * y) by (intros; apply Z.mul_le_mono_nonneg_l; lia).
  destruct (Z.ltb_spec 0 (nindexes r)) as [Hn|Hn]; [|split_and!; [lia|lia|lia|by right|lia]].
  set (m := Z.min (Z.min W _) A). assert (Hm : 0 <= m <= A /\ m <= W /\ (m = A \/ m = W)) by lia.
  pose proof (Z.div_pos m P ltac:(lia) ltac:(lia)) as Hq. pose proof (Z.mul_div_le m P ltac:(lia)) as Hq'.
  assert (Hq2 : m / P <= m) by (apply Z.div_le_upper_bound; nia).
  assert (Hroom : forall x, x <= m -> P <= Z.max x P <= A /\ (off + sz * Z.max x P <= vac_work_mem * 1024 \/ Z.max x P = P)).
  { intros x Hx. split; [lia|]. destruct (Z.max_spec x P) as [[_ ->]|[_ ->]]; [by right|left].
    pose proof (Hmono x W ltac:(lia)). lia. }
  unfold u32. rewrite (Z.mod_small (m / P)) by lia.
  destruct (Z.ltb_spec (rel_pages r) (m / P)) as [Hlt|Hge].
  - assert (Hx : 0 <= rel_pages r * P <= m).
    { split; [apply Z.mul_nonneg_nonneg; lia|]. transitivity (P * (m / P)); [|done].
      rewrite Z.mul_comm. apply Z.mul_le_mono_nonneg_l; lia. }
    rewrite Z.mod_small by (clear Hmono Hroom Hp W1 W2 A1 A2; lia).
    destruct (Hroom _ (proj2 Hx)) as [[H1 H1'] H2]. pose proof (Hmono _ _ H1'). pose proof (Z.le_max_l (rel_pages r * P) P).
    clear Hroom Hmono Hq' W1 W2 Hp Ha. split; [split; [done|by transitivity A]|]. split; [lia|]. split; [done|]. by left.
  - destruct (Hroom m ltac:(lia)) as [[H1 H1'] H2]. pose proof (Hmono _ _ H1').
    assert (Hlim : MaxAllocSize < off + sz * (Z.max m P + 1) \/ vac_work_mem * 1024 < off + sz * (Z.max m P + 1)).
    { destruct Hm as (_ & _ & [E|E]); [left; pose proof (Hmono (A + 1) (Z.max m P + 1) ltac:(lia))
        |right; pose proof (Hmono (W + 1) (Z.max m P + 1) ltac:(lia))]; lia. }
    split; [split; [done|by transitivity A]|]. split; [lia|]. split; [done|]. by right.
Qed.
End room.
