(* ===== verification/VacuumScan.v ===== *)
(** Reasoning about the scan of a page by lazy_scan_prune: what it notes of
    the items, and that deciding what to freeze leaves the page alone. *)
From S2P Require Import Prelude EncAes RelKeys EncTuple KeyringTypes KeyringApi XactHandler TdeMap TupleIO Visibility VisibilityProps VisibilityHints VisibilitySpec VisibilityRules VisibilityMap VisibilityMapProps VisibilityMapOps Prune LockFlags MultiXact MultiXactProps HotChain HotProps PagePrune HotHtsv HotPlan Freeze FreezeProps FreezePrepare Vacuum VacuumProps.

Section frame.
Context `{HH : HtupFlags} `{HW : World} `{HLF : LockFlags} `{HMX : MultiXacts} `{HX : XidMacros}.

(** The multixacts after some have been created. *)
Inductive more_multis (st : mxstore) : mxstore -> Prop :=
  | more_none : more_multis st st
  | more_one ms m st1 st2 : MultiXactIdCreateFromMembers st ms = (m, st1) -> more_multis st1 st2 -> more_multis st st2.

Lemma more_multis_trans st1 st2 st3 : more_multis st1 st2 -> more_multis st2 st3 -> more_multis st1 st3.
Proof. induction 1; [done|]. intros. by eapply more_one, IHmore_multis. Qed.

(** Time has gone on and multixacts have been created. *)
Definition locks_later (s s' : LockState) : Prop :=
  more_multis (multis s) (multis s') /\ (lk_clock s <= lk_clock s')%nat.

Lemma locks_later_refl s : locks_later s s.
Proof. split; [constructor|done]. Qed.
Lemma locks_later_trans s1 s2 s3 : locks_later s1 s2 -> locks_later s2 s3 -> locks_later s1 s3.
Proof. intros [H1 ?] [H2 ?]. split; [by eapply more_multis_trans|lia]. Qed.

(** Whatever it returns, no more than that has happened. *)
Definition only_creates {A} (m : M LockState A) : Prop := forall s, locks_later s (m s).2.

Lemma creates_ret {A} (a : A) : only_creates (ret a).
Proof. intros s. apply locks_later_refl. Qed.
Lemma creates_raise {A} l : only_creates (raise l : M LockState A).
Proof. intros s. apply locks_later_refl. Qed.
Lemma creates_bind {A B} (m : M LockState A) (f : A -> M LockState B) :
  only_creates m -> (forall a, only_creates (f a)) -> only_creates (bind m f).
Proof.
  intros Hm Hf s. specialize (Hm s). unfold bind. destruct (m s) as [[a|l| |] s1]; try done. cbn in Hm.
  by eapply locks_later_trans, Hf.
Qed.
Lemma creates_ask {A} (q : nat -> A) : only_creates (lk_ask q).
Proof. intros s. split; [constructor|cbn; lia]. Qed.
Lemma creates_members m b : only_creates (lk_members m b).
Proof. intros s. apply locks_later_refl. Qed.
Lemma creates_create ms : only_creates (lk_create (fun st _ => MultiXactIdCreateFromMembers st ms)).
Proof.
  intros s. unfold lk_create. destruct (MultiXactIdCreateFromMembers _ _) as [m st] eqn:E. split; [|cbn; lia].
  by eapply more_one, more_none.
Qed.
End frame.

Ltac creates := repeat first
  [ apply creates_ret | apply creates_raise | apply creates_ask | apply creates_members | apply creates_create
  | apply creates_bind; [|intros ?] | match goal with |- only_creates (match ?x with _ => _ end) => destruct x end
  | progress cbv zeta ].

Section frame2.
Context `{HH : HtupFlags} `{HW : World} `{HLF : LockFlags} `{HMX : MultiXacts} `{HX : XidMacros}.

Lemma creates_keep_loop c members : forall v, only_creates (keep_loop c members v).
Proof.
  induction members as [|m members IH]; intros v; cbn [keep_loop]; [creates|].
  unfold runs, lk_in_progress, lk_did_commit. creates; apply IH.
Qed.

Lemma creates_freeze_multi multi m c p : only_creates (FreezeMultiXactId multi m c p).
Proof.
  unfold FreezeMultiXactId, freeze_old_multi, replace_multi, MultiXactIdGetUpdateXid, lk_did_commit.
  creates; apply creates_keep_loop.
Qed.

Lemma creates_track_xmax tuple c v : only_creates (track_xmax tuple c v).
Proof. unfold track_xmax. creates. Qed.

Lemma creates_prepare tuple c p : only_creates (pg_tde_prepare_freeze_tuple tuple c p).
Proof.
  unfold pg_tde_prepare_freeze_tuple, prepare_multi_xmax, prepare_single_xmax, consider_page, GetMultiXactIdHintBits.
  creates; first [apply creates_freeze_multi | apply creates_track_xmax].
Qed.
End frame2.

(** ** The scan *)

Section scan.
Context `{HE : EVP} `{HS : CIntShift}.
Context `{HJ : Json} `{HB : Base64} `{HC : Curl} `{HF : KeyringFs}.
Context `{HT : TdeEnv} `{HP : PgBlockSize} `{HPS : !PgBlockSizeLaws} `{HM : PageMacros}.
Context `{HH : HtupFlags} `{HHL : !HtupFlagsLaws} `{HW : World} `{HWL : !WorldLaws}.
Context `{HLP : LinePointers} `{HLL : !LinePointersLaws} `{HHF : HotFlags}.
Context `{HPE : PruneEnv} `{HPL : !PruneEnvLaws}.
Context `{HLF : LockFlags} `{HFB : !FlagBits} `{HMX : MultiXacts} `{HML : !MultiXactsLaws}.
Context `{HX : XidMacros} `{HXL : !XidMacrosLaws}.
Context `{HV : VmEnv} `{HVL : !VmLaws} `{HVE : VacEnv}.

Lemma wp_frame {A S} (m : M S A) (Q : A -> S -> Prop) (F : S -> Prop) s : wp m Q s -> F (m s).2 ->
  wp m (fun a t => Q a t /\ F t) s.
Proof. unfold wp. destruct (m s) as [[a|l| |] t]; naive_solver. Qed.

(** The tuple is one that freezing can deal with, whatever hints it gains
    and multixacts are created. *)
Definition freezable (c : VacuumCutoffs) (st : mxstore) (t : nat) (h : TupleHeader) : Prop :=
  forall st' h' t', more_multis st st' -> later_header h t h' t' -> tuple_ok c st' t' h'.

Definition page_freezable (c : VacuumCutoffs) (s : VacState) : Prop :=
  forall x lp h, PageGetItemId (items_of (vpage s)) x = Some lp -> ItemIdIsNormal lp = true ->
    tuple_on (vpage s) lp = Some h -> freezable c (multis (vlocks s)) (now (vpage s)) h.

(** The page gained hints; multixacts were created. *)
Record scan_steps (s s' : VacState) : Prop := {
  st_page : only_hints (vpage s) (vpage s');
  st_rest : page_visible s' = page_visible s /\ vmap s' = vmap s /\ vacrel s' = vacrel s
    /\ freeze_wal s' = freeze_wal s /\ vacuum_wal s' = vacuum_wal s;
  st_multis : more_multis (multis (vlocks s)) (multis (vlocks s'));
}.

Lemma scan_steps_trans s1 s2 s3 : scan_steps s1 s2 -> scan_steps s2 s3 -> scan_steps s1 s3.
Proof.
  intros [P1 (A1&A2&A3&A4&A5) M1] [P2 (B1&B2&B3&B4&B5) M2].
  split; [by eapply only_hints_trans|split_and!; congruence|by eapply more_multis_trans].
Qed.

Lemma scan_steps_refl s : page_tuples (vpage s) -> scan_steps s s.
Proof. intros H. split; [by apply only_hints_refl|done|constructor]. Qed.

Lemma only_hints_wait p t : page_tuples p -> (now p <= t)%nat -> only_hints p (with_now t p).
Proof. intros Hp Ht. split; [by apply same_bytes_hinted|done]. Qed.

(** ** One tuple *)

(** What is noted of a tuple: whatever is decided about freezing, only the
    time of the page changes. *)
Lemma plan_tuple_wp r o h v (s : VacState) : page_tuples (vpage s) -> cutoffs_ok (cutoffs r) ->
  trackers_ok (cutoffs r) (sc_frz v) -> tuple_ok (cutoffs r) (multis (vlocks s)) (now (vpage s)) h ->
  (length (sc_frozen v) < MaxHeapTuplesPerPage)%nat ->
  wp (plan_tuple r o h v) (fun v' s' => scan_steps s s' /\ trackers_ok (cutoffs r) (sc_frz v')
    /\ sc_dead v' = sc_dead v /\ hastup (sc_page v') = hastup (sc_page v)
    /\ ps_all_visible (sc_page v') = ps_all_visible (sc_page v)
    /\ (sc_frozen v' = sc_frozen v \/ exists frz, fz_offset frz = o /\ sc_frozen v' = sc_frozen v ++ [frz])) s.
Proof.
  intros Hp Hc Htr Htok Hlen. unfold plan_tuple, on_vlocks. wps.
  eapply wp_mono; [apply wp_frame; [apply prepare_wp; [done|done|exact Htok]|]|].
  { apply (creates_prepare h (cutoffs r) (sc_frz v) (locks_of s)). }
  intros [[[do p'] frz] tot] l [Hpp [Hmm Hcl]]. cbn in Hmm, Hcl.
  assert (Hst : scan_steps s (with_locks l s)) by (split; [by apply only_hints_wait|done|exact Hmm]).
  assert (Htr' : trackers_ok (cutoffs r) p').
  { destruct Hpp as [_ P1 P2 P3 P4 _ _ _]. cbn in *. destruct Htr as [T1 T2 T3 T4].
    split; [by etransitivity|by etransitivity|apply P3|apply P4]. }
  destruct do.
  - wps. apply wp_push; [done|]. wps. split_and!; try done. right. by exists (at_offset o frz).
  - wps. split_and!; try done. by left.
Qed.

(** ** The items *)

(** The scan before [o]: the dead items are noted, what is to be frozen are
    tuples, in order, and if the page is still all-visible then only dead
    items and tuples everyone sees have gone by. *)
Record scanned (r : LVRelState) (s0 s : VacState) (o : Z) (v : PruneScan) : Prop := {
  sd_steps : scan_steps s0 s;
  sd_trackers : trackers_ok (cutoffs r) (sc_frz v);
  sd_dead : sc_dead v = dead_before (items_of (vpage s0)) o;
  sd_frozen : Forall (fun f => 1 <= fz_offset f < o /\ exists lp, PageGetItemId (items_of (vpage s0)) (fz_offset f) = Some lp
      /\ ItemIdIsNormal lp = true) (sc_frozen v)
    /\ NoDup (fz_offset <$> sc_frozen v) /\ Z.of_nat (length (sc_frozen v)) < o;
  sd_visible x lp : ps_all_visible (sc_page v) = true -> x < o -> PageGetItemId (items_of (vpage s0)) x = Some lp ->
    ItemIdIsNormal lp = true ->
    exists h, tuple_on (vpage s) lp = Some h /\ everyone_sees (OldestXmin (cutoffs r)) (fields h) (now (vpage s));
  sd_hastup x lp : x < o -> PageGetItemId (items_of (vpage s0)) x = Some lp ->
    ItemIdIsNormal lp = true \/ ItemIdIsRedirected lp = true -> hastup (sc_page v) = true;
}.

Lemma scanned_next r s0 s s' o v v' lp : scan_steps s s' -> PageGetItemId (items_of (vpage s0)) o = Some lp ->
  scanned r s0 s o v -> 1 <= o -> trackers_ok (cutoffs r) (sc_frz v') ->
  sc_dead v' = sc_dead v ++ (if dead_at (items_of (vpage s0)) o then [o] else []) ->
  (sc_frozen v' = sc_frozen v \/ ItemIdIsNormal lp = true /\ exists frz, fz_offset frz = o /\ sc_frozen v' = sc_frozen v ++ [frz]) ->
  (ps_all_visible (sc_page v') = true -> ps_all_visible (sc_page v) = true) ->
  (ps_all_visible (sc_page v') = true -> ItemIdIsNormal lp = true ->
     exists h, tuple_on (vpage s') lp = Some h /\ everyone_sees (OldestXmin (cutoffs r)) (fields h) (now (vpage s'))) ->
  (hastup (sc_page v) = true -> hastup (sc_page v') = true) ->
  (ItemIdIsNormal lp = true \/ ItemIdIsRedirected lp = true -> hastup (sc_page v') = true) ->
  scanned r s0 s' (o + 1) v'.
Proof.
  intros Hst Hlp [H1 H2 H3 (H4 & H5 & H6) H7 H8] Ho Htr Hd Hfz Hv Hthis Hup Htup.
  assert (Hs : scan_steps s0 s') by by eapply scan_steps_trans.
  assert (Hold : Forall (fun f => 1 <= fz_offset f < o + 1 /\ exists lp, PageGetItemId (items_of (vpage s0)) (fz_offset f) = Some lp
      /\ ItemIdIsNormal lp = true) (sc_frozen v)).
  { eapply Forall_impl; [exact H4|]. intros f [? ?]. split; [lia|done]. }
  split; [done|done| | | |].
  - by rewrite dead_before_next, <- H3.
  - destruct Hfz as [->|(Hn & frz & Ef & ->)]; [split_and!; [done|done|lia]|]. split_and!.
    + apply Forall_app_2; [done|]. apply Forall_singleton. rewrite Ef. split; [lia|]. by exists lp.
    + rewrite fmap_app. apply NoDup_app. split_and!; [done| |apply NoDup_singleton].
      intros x Hx Hx'. cbn in Hx'. apply list_elem_of_singleton in Hx'. apply list_elem_of_fmap in Hx as (f & -> & Hf).
      rewrite Forall_forall in H4. destruct (H4 f Hf) as [? _]. lia.
    + rewrite length_app. cbn. lia.
  - intros x lp' Hvis Hx Hlp' Hn. destruct (decide (x = o)) as [->|Hne].
    + replace lp' with lp in * by congruence. by apply Hthis.
    + destruct (H7 x lp' (Hv Hvis) ltac:(lia) Hlp' Hn) as (h & Eh & Hsee).
      pose proof (oh_page _ _ (st_page _ _ Hst)) as Hhp. pose proof Hlp' as [_ Hin]%PageGetItemId_Some.
      rewrite <- (hp_items _ _ (oh_page _ _ (st_page _ _ H1))) in Hin.
      destruct (hp_headers _ _ Hhp lp' h Hin Hn Eh) as (h' & Eh' & Hl).
      exists h'. split; [done|]. eapply everyone_sees_later; [apply Hl|done].
  - intros x lp' Hx Hlp' Hk. destruct (decide (x = o)) as [->|Hne].
    + replace lp' with lp in * by congruence. by apply Htup.
    + apply Hup, (H8 x lp'); [lia|done|done].
Qed.

Lemma scanned_past r s0 s o v : PageGetItemId (items_of (vpage s0)) o = None -> 1 <= o ->
  scanned r s0 s o v -> scanned r s0 s (o + 1) v.
Proof.
  intros Hlp Ho [H1 H2 H3 (H4 & H5 & H6) H7 H8]. split; [done|done| | | |].
  - rewrite dead_before_next by done. unfold dead_at. by rewrite Hlp, app_nil_r.
  - split_and!; [|done|lia]. eapply Forall_impl; [exact H4|]. intros f [? ?]. split; [lia|done].
  - intros x lp Hv Hx Hx2. apply (H7 x lp); [done| |done]. destruct (decide (x = o)); [congruence|lia].
  - intros x lp Hx Hx2. apply (H8 x lp); [|done]. destruct (decide (x = o)); [congruence|lia].
Qed.

(** What a verdict notes. *)
Lemma see_tuple_noted o h res v : let p := sc_page (see_tuple o h res v) in
  hastup p = true
  /\ (ps_all_visible p = true -> ps_all_visible (sc_page v) = true /\ res = HEAPTUPLE_LIVE
      /\ XminCommitted (t_infomask h) = true /\ TransactionIdPrecedes (HeapTupleHeaderGetXmin h) o = true)
  /\ sc_frz (see_tuple o h res v) = sc_frz v /\ sc_frozen (see_tuple o h res v) = sc_frozen v
  /\ sc_dead (see_tuple o h res v) = sc_dead v.
Proof.
  cbn. split_and!; try done. destruct res; try done. unfold see_live.
  destruct (ps_all_visible (sc_page v)) eqn:Ev; cbn [negb]; [|congruence].
  destruct (XminCommitted _), (TransactionIdPrecedes _ _); done.
Qed.

Lemma later_header_trans h1 t1 h2 t2 h3 t3 : later_header h1 t1 h2 t2 -> later_header h2 t2 h3 t3 -> later_header h1 t1 h3 t3.
Proof. intros [E1 H1] [E2 H2]. split; [congruence|]. by eapply evolves_trans. Qed.

(** The page has a tuple that pruning should have removed: at some moment
    since, its inserter has failed, or its deleter has committed and is before
    the horizon. *)
Definition dead_seen (o : Z) (s : VacState) : Prop :=
  exists x lp h t, PageGetItemId (items_of (vpage s)) x = Some lp /\ ItemIdIsNormal lp = true
    /\ tuple_on (vpage s) lp = Some h /\ (now (vpage s) <= t)%nat
    /\ (dead_xact t (t_xmin (fields h))
        \/ delete_committed (fields h) t /\ TransactionIdPrecedes (deleter (fields h)) o = true).

Lemma scan_item_wp r s0 o v (s : VacState) : page_tuples (vpage s0) -> page_freezable (cutoffs r) s0 ->
  (length (items_of (vpage s0)) <= MaxHeapTuplesPerPage)%nat -> cutoffs_ok (cutoffs r) -> 1 <= o -> scanned r s0 s o v ->
  wp (scan_item r o v) (fun x s' => match x with
    | Some v' => scanned r s0 s' (o + 1) v'
    | None => scan_steps s0 s' /\ dead_seen (OldestXmin (cutoffs r)) s0
    end) s.
Proof.
  intros Hp Hfr Hlen Hc Ho Hs. pose proof Hs as [Hst Htr Hd (_ & _ & Hfl) _ _].
  pose proof (oh_page _ _ (st_page _ _ Hst)) as Hhp. pose proof (hinted_page_tuples _ _ Hhp Hp) as Hps.
  unfold scan_item, on_vpage. wps. replace (with_vpage (vpage s) s) with s by by destruct s. rewrite (hp_items _ _ Hhp).
  destruct (PageGetItemId (items_of (vpage s0)) o) as [lp|] eqn:Hlp; [|wps; by apply scanned_past].
  pose proof (PageGetItemId_Some _ _ _ Hlp) as [Hrange Hin].
  assert (Edead : dead_at (items_of (vpage s0)) o = ItemIdIsUsed lp && negb (ItemIdIsRedirected lp) && ItemIdIsDead lp)
    by (unfold dead_at; by rewrite Hlp).
  assert (Hstep : forall v', sc_frz v' = sc_frz v -> sc_frozen v' = sc_frozen v -> ItemIdIsNormal lp = false ->
    sc_dead v' = sc_dead v ++ (if dead_at (items_of (vpage s0)) o then [o] else []) ->
    (ps_all_visible (sc_page v') = ps_all_visible (sc_page v)) ->
    (hastup (sc_page v) = true -> hastup (sc_page v') = true) -> (ItemIdIsRedirected lp = true -> hastup (sc_page v') = true) ->
    scanned r s0 s (o + 1) v').
  { intros v' E1 E2 En E3 Ev Hup Hr. apply (scanned_next r s0 s s o v v' lp); try done.
    - by apply scan_steps_refl.
    - by rewrite E1.
    - by left.
    - by rewrite Ev.
    - by rewrite En.
    - rewrite En. intros [?|?]; [done|auto]. }
  destruct (ItemIdIsUsed lp) eqn:Eu; cbn [negb].
  2: { wps. apply Hstep; try done.
       - destruct (ItemIdIsNormal lp) eqn:En; [|done]. apply normal_used in En. congruence.
       - rewrite Edead. cbn. by rewrite app_nil_r.
       - intros Er%redirected_used. congruence. }
  destruct (ItemIdIsRedirected lp) eqn:Er.
  { wps. apply Hstep; try done.
    - destruct (ItemIdIsNormal lp) eqn:En; [|done]. apply normal_kind in En as [? _]. congruence.
    - rewrite Edead. cbn. by rewrite app_nil_r. }
  destruct (ItemIdIsDead lp) eqn:Ed.
  { cbn in Edead. wps. apply wp_push.
    { pose proof (dead_before_length (items_of (vpage s0)) o Ho). unfold maxoff in *. rewrite Hd. lia. }
    wps. apply Hstep; try done; [|by rewrite Edead].
    destruct (ItemIdIsNormal lp) eqn:En; [|done]. apply normal_kind in En as [_ ?]. congruence. }
  pose proof (used_kind lp Eu Er Ed) as Hnor. destruct (page_header _ Hp lp Hin Hnor) as (h0 & Eh0 & _).
  destruct (hp_headers _ _ Hhp lp h0 Hin Hnor Eh0) as (h & Eh & Hl0).
  unfold header_on at 1. wps. eapply wp_defined; [done|]. wps. replace (with_vpage (vpage s) s) with s by by destruct s.
  destruct (list_elem_of_lookup_1 _ _ Hin) as [i Hi]. eapply wp_mono.
  { eapply (on_header_wp _ (fun res _ t' => vacuum_says (OldestXmin (cutoffs r)) (fields h) (now (vpage s)) t' res) (vpage s) i lp h);
      [done|by rewrite (hp_items _ _ Hhp)|done|done|]. intros Hok Htok. by apply Vacuum_rule. }
  intros res p1 (Hoh & h' & Eh' & Hl & Hsays). pose proof (oh_page _ _ Hoh) as Hhp1.
  assert (Hst1 : scan_steps s (with_vpage p1 s)) by (split; [done|done|constructor]).
  destruct (decide (res = HEAPTUPLE_DEAD)) as [->|Hnd].
  { wps. split; [by eapply scan_steps_trans|]. exists o, lp, h0, (now p1). split_and!; [done..| |].
    - pose proof (hp_now _ _ Hhp). pose proof (hp_now _ _ Hhp1). lia.
    - destruct Hl0 as [_ (_ & Hsame & _)]. destruct (same_tuple_facts _ _ Hsame) as (F1 & _ & _ & F4 & _ & _ & _ & F8 & _).
      cbn in Hsays. unfold delete_committed in *. by rewrite F1, F4, F8 in Hsays. }
  destruct (see_tuple_noted (OldestXmin (cutoffs r)) (fields h') res v) as (N1 & N2 & N3 & N4 & N5).
  set (v1 := see_tuple (OldestXmin (cutoffs r)) (fields h') res v) in *.
  assert (Hgo : wp (plan_tuple r o h' v1) (fun x s' => scanned r s0 s' (o + 1) x) (with_vpage p1 s)).
  { eapply wp_mono; [apply plan_tuple_wp|].
    - by eapply hinted_page_tuples.
    - done.
    - by rewrite N3.
    - eapply (Hfr o lp h0 Hlp Hnor Eh0); [apply Hst|]. by eapply later_header_trans.
    - rewrite N4. unfold maxoff in *. lia.
    - intros v' s' (Hst2 & Htr' & E1 & E2 & E3 & E4). eapply (scanned_next r s0 s s' o v v' lp);
        [by eapply scan_steps_trans|done|done|done|done| | | | | |].
      + rewrite E1, N5, Edead. cbn. by rewrite app_nil_r.
      + rewrite N4 in E4. destruct E4 as [?|?]; [by left|by right].
      + rewrite E3. by intros (? & _)%N2.
      + rewrite E3. intros (_ & -> & Hcom & Hold)%N2 _. cbn in Hsays. destruct Hsays as [_ Hnodel].
        destruct (hp_headers _ _ (oh_page _ _ (st_page _ _ Hst2)) lp h') as (h2 & Eh2 & Hl2); [|done|done|].
        { cbn. by rewrite (hp_items _ _ Hhp1), (hp_items _ _ Hhp). }
        exists h2. split; [done|]. eapply everyone_sees_later; [apply Hl2|]. split; [done|done|].
        destruct Hl as [_ (_ & Hsame & _)]. destruct (same_tuple_facts _ _ Hsame) as (_ & _ & _ & F4 & _ & _ & _ & F8 & _).
        unfold no_deleter in *. by rewrite F4, F8.
      + intros _. by rewrite E2.
      + intros _. by rewrite E2. }
  destruct res; try done; unfold header_on; wps; (eapply wp_defined; [done|]); wps;
    replace (with_vpage p1 (with_vpage p1 s)) with (with_vpage p1 s) by done; eapply wp_mono; try exact Hgo; intros; by wps.
Qed.

Lemma scan_items_wp r s0 n : page_tuples (vpage s0) -> page_freezable (cutoffs r) s0 ->
  (length (items_of (vpage s0)) <= MaxHeapTuplesPerPage)%nat -> cutoffs_ok (cutoffs r) -> forall o v (s : VacState),
  1 <= o -> scanned r s0 s o v ->
  wp (scan_items n r o v) (fun x s' => match x with
    | Some v' => scanned r s0 s' (o + Z.of_nat n) v'
    | None => scan_steps s0 s' /\ dead_seen (OldestXmin (cutoffs r)) s0
    end) s.
Proof.
  intros Hp Hfr Hlen Hc. induction n as [|n IH]; intros o v s Ho Hs; cbn [scan_items].
  { wps. by rewrite Z.add_0_r. }
  wps. eapply wp_mono; [by apply scan_item_wp|]. intros [v'|] s' Hs'; [|by wps].
  replace (o + Z.of_nat (S n)) with (o + 1 + Z.of_nat n) by lia. apply IH; [lia|done].
Qed.

Lemma scanned_fresh r s : page_tuples (vpage s) -> trackers_ok (cutoffs r) (sc_frz (fresh_scan r)) ->
  scanned r s s 1 (fresh_scan r).
Proof.
  intros Hp Htr. split; [by apply scan_steps_refl|done|done| | |].
  - cbn. by split_and!; [constructor..|].
  - intros x lp _ Hx [? _]%PageGetItemId_Some. lia.
  - intros x lp Hx [? _]%PageGetItemId_Some. lia.
Qed.

(** Past the last item nothing is dead. *)
Lemma dead_before_all linp o : Z.of_nat (length linp) + 1 <= o -> dead_before linp o = dead_offsets linp.
Proof.
  intros Ho. replace o with (Z.of_nat (length linp) + 1 + Z.of_nat (Z.to_nat (o - Z.of_nat (length linp) - 1))) by lia.
  generalize (Z.to_nat (o - Z.of_nat (length linp) - 1)). induction n as [|n IH]; [by rewrite Z.add_0_r|].
  replace (Z.of_nat (length linp) + 1 + Z.of_nat (S n)) with (Z.of_nat (length linp) + 1 + Z.of_nat n + 1) by lia.
  rewrite dead_before_next, IH by lia. unfold dead_at.
  destruct (PageGetItemId linp _) as [lp|] eqn:E; [|by rewrite app_nil_r].
  apply PageGetItemId_Some in E as [? _]. unfold maxoff in *. lia.
Qed.

(** An item in use is a redirect, dead, or leads to a tuple. *)
Lemma used_item linp o lp : PageGetItemId linp o = Some lp -> ItemIdIsUsed lp = true ->
  ItemIdIsRedirected lp = true \/ o ∈ dead_offsets linp \/ ItemIdIsNormal lp = true.
Proof.
  intros Hlp Hu. destruct (ItemIdIsRedirected lp) eqn:Er; [by left|right].
  destruct (ItemIdIsDead lp) eqn:Ed; [left|right; by apply used_kind].
  pose proof (PageGetItemId_Some _ _ _ Hlp) as [Hr _]. unfold maxoff in Hr.
  apply list_elem_of_filter. split; [unfold dead_at; by rewrite Hlp, Hu, Er, Ed|apply elem_of_seqZ; lia].
Qed.
End scan.
