(* ===== verification/VacuumClaims.v ===== *)
(** What lazy VACUUM promises: it leaves out only blocks that may be left
    out, frees the line pointers it has listed and marks a page only when
    everyone sees it, accounts for the pages it does not prune, and gives
    back only empty pages.  [ToyVacuum] is a page with two dead items. *)
From S2P Require Import Prelude EncAes RelKeys EncTuple KeyringTypes KeyringApi KeyringClaims XactHandler TdeMap TdeClaims TupleIO Visibility VisibilityProps VisibilityHints VisibilitySpec VisibilityRules VisibilityClaims VisibilityMap VisibilityMapProps VisibilityMapOps VisibilityMapClaims Prune PruneClaims LockFlags MultiXact MultiXactProps MultiXactClaims HotChain HotProps PagePrune HotHtsv HotClaims Freeze FreezeProps FreezePrepare FreezeClaims Vacuum VacuumProps VacuumScan.

Section claims.
Context `{HE : EVP} `{HS : CIntShift}.
Context `{HJ : Json} `{HB : Base64} `{HC : Curl} `{HF : KeyringFs}.
Context `{HT : TdeEnv} `{HP : PgBlockSize} `{HPS : !PgBlockSizeLaws} `{HM : PageMacros}.
Context `{HH : HtupFlags} `{HHL : !HtupFlagsLaws} `{HW : World} `{HWL : !WorldLaws}.
Context `{HLP : LinePointers} `{HLL : !LinePointersLaws} `{HHF : HotFlags}.
Context `{HPE : PruneEnv} `{HPL : !PruneEnvLaws}.
Context `{HLF : LockFlags} `{HFB : !FlagBits} `{HMX : MultiXacts} `{HML : !MultiXactsLaws}.
Context `{HX : XidMacros} `{HXL : !XidMacrosLaws}.
Context `{HV : VmEnv} `{HVL : !VmLaws} `{HVE : VacEnv} `{HTL : !TruncateLaws}.

(** C27: only blocks that may be left out are.  lazy_scan_skip returns; up to
    the block it stops at, every block is all-visible in the map, is not the
    last one and, for an aggressive VACUUM, is all-frozen; the caller is told
    to skip them only if they are at least SKIP_PAGES_THRESHOLD, and
    relfrozenxid will not be advanced if one of those is not all-frozen.  The
    map stays. *)
Theorem skipped_blocks_are_safe next_block vmbuffer (s : VacState) (Hvm : vm_ok (vmap s))
    (Hbuf : holds vmbuffer (vmap s)) (Hnext : 0 <= next_block) (Hrel : rel_pages (vacrel s) < 2 ^ 32) :
  exists b allvis skipping vmbuffer' s', lazy_scan_skip next_block vmbuffer s = (Ret (b, allvis, skipping, vmbuffer'), s')
    /\ next_block <= b <= Z.max next_block (rel_pages (vacrel s))
    /\ (forall y, next_block <= y < b -> skippable (vacrel s) (vmap s) y)
    /\ (b < rel_pages (vacrel s) -> allvis = true -> seen_visible (vmap s) b /\ ~ skippable (vacrel s) (vmap s) b)
    /\ skipping = (SKIP_PAGES_THRESHOLD <=? b - next_block)
    /\ (vacrel s' = vacrel s \/ vacrel s' = with_skipped (vacrel s))
    /\ (skipping = true -> skippedallvis (vacrel s') = false -> forall y, next_block <= y < b -> seen_frozen (vmap s) y)
    /\ forall y, 0 <= y -> vm_status (vmap s') y = vm_status (vmap s) y.
Proof.
  destruct (skip_loop_spec (vacrel s) (Z.to_nat (rel_pages (vacrel s) - next_block)) next_block false vmbuffer (map_of s))
    as (b & a & sv & vm' & m' & E & _ & Hsame & _ & Hrg & Hsv); [exact Hvm|exact Hbuf|done|done|done|].
  destruct Hrg as [H1 H2 H3]. destruct Hsame as (Hst & _).
  assert (E' : on_vmap (skip_loop (Z.to_nat (rel_pages (vacrel s) - next_block)) (vacrel s) next_block false vmbuffer) s
    = (Ret (b, a, sv, vm'), with_map m' s)) by (unfold on_vmap, zoom; by rewrite E).
  set (s1 := with_map m' s) in *.
  exists b, a, (SKIP_PAGES_THRESHOLD <=? b - next_block), vm',
    (if (SKIP_PAGES_THRESHOLD <=? b - next_block) && sv then with_vacrel (with_skipped (vacrel s1)) s1 else s1).
  split.
  { destruct (wp_run (lazy_scan_skip next_block vmbuffer) (fun x s' => x = (b, a, SKIP_PAGES_THRESHOLD <=? b - next_block, vm')
      /\ s' = (if (SKIP_PAGES_THRESHOLD <=? b - next_block) && sv then with_vacrel (with_skipped (vacrel s1)) s1 else s1)) s)
      as (x & t & -> & -> & ->); [|done].
    unfold lazy_scan_skip. wps. eapply wp_of_run; [exact E'|]. cbv beta iota.
    destruct (Z.leb_spec SKIP_PAGES_THRESHOLD (b - next_block)) as [Hl|Hl].
    - rewrite (proj2 (Z.ltb_ge _ _)) by done. destruct sv; unfold on_rel; by wps.
    - rewrite (proj2 (Z.ltb_lt _ _)) by done. by wps. }
  split_and!; [lia|lia|exact H2|exact H3|done| | |].
  - destruct (_ && sv); [by right|by left].
  - intros -> Hsk y Hy. cbn [andb] in Hsk. destruct sv; [discriminate|].
    destruct (decide (seen_frozen (map_of s) y)) as [Hf|Hf]; [exact Hf|].
    enough (false = true) by done. apply Hsv. right. by exists y.
  - intros y Hy. transitivity (vm_status m' y); [by destruct (_ && sv)|by apply Hst].
Qed.

(** C17: the second pass frees what is listed, and no row.  When the offsets
    listed for the block are dead items of it, lazy_vacuum_pg_tde_page
    returns the index behind them; they are unused or cut off, all other
    items in use are as before, with their tuples; and replaying its record
    with pg_tde_xlog_vacuum on a page with the same items gives the same
    items. *)
Theorem second_pass_frees_listed blkno index unused (s : VacState) (Hp : page_tuples (vpage s))
    (Hlist : listed_for blkno (drop index (dead_items (vacrel s))) = unused)
    (Hdead : removable_items (items_of (vpage s)) unused) (Hvm : vm_ok (vmap s))
    (Hpin : HEAPBLK_TO_MAPBLOCK blkno ∈ pinned (vmap s)) (Hwal : PagePrune.RelationNeedsWAL = true) :
  exists s' r, lazy_vacuum_pg_tde_page blkno index (Some (HEAPBLK_TO_MAPBLOCK blkno)) s = (Ret (index + length unused)%nat, s')
    /\ items_freed (items_of (vpage s)) unused (items_of (vpage s'))
    /\ (forall o lp h, PageGetItemId (items_of (vpage s)) o = Some lp -> ItemIdIsNormal lp = true ->
         tuple_on (vpage s) lp = Some h -> PageGetItemId (items_of (vpage s')) o = Some lp
         /\ exists h', tuple_on (vpage s') lp = Some h' /\ later_header h (now (vpage s)) h' (now (vpage s')))
    /\ page_tuples (vpage s') /\ vacuum_wal s' = vacuum_wal s ++ [r] /\ xl_nunused r = Z.of_nat (length unused)
    /\ forall lsn (t : PageState), items_of t = items_of (vpage s) -> exists t',
         pg_tde_xlog_vacuum blkno BLK_NEEDS_REDO lsn (xl_unused r) t = (Ret tt, t')
         /\ items_of t' = items_of (vpage s') /\ bytes_of t' = bytes_of t /\ pd_lsn t' = lsn.
Proof.
  subst unused. destruct (wp_run _ _ _ (second_pass_wp blkno index s Hp Hdead Hvm Hpin)) as (k & s' & E & -> & Hd).
  set (unused := listed_for blkno (drop index (dead_items (vacrel s)))) in *.
  destruct Hd as [Hif (linp' & Es & Ei) Hp' Ht Hlog _ _ _]. rewrite Hwal in Hlog.
  eexists s', _. split; [exact E|]. split; [exact Hif|]. split; [|split; [done|split; [exact Hlog|split]]].
  - intros o lp h Hlp Hn Hh. split; [|by eapply Ht]. apply (if_normal _ _ _ Hif); [done|by apply normal_used|].
    intros Ho. destruct (ri_dead _ _ Hdead o Ho) as (lp' & Hlp' & Hd). replace lp' with lp in * by congruence.
    destruct (normal_kind lp Hn). congruence.
  - cbn. unfold u16. pose proof (ri_few _ _ Hdead). pose proof few_items. rewrite Z.mod_small; lia.
  - intros lsn t Hsame. cbn [xl_unused]. rewrite Ei. apply xlog_vacuum_spec. by rewrite Hsame.
Qed.

(** C16: a page is marked all-visible only when everyone sees it.  If the
    second pass sets the flag of the page or a bit of the map, every tuple of
    the page is, from then on, visible to every snapshot that is not older
    than VACUUM's; the bits of the block gain exactly the visible bit, and
    the frozen bit if no tuple has anything left to freeze; those of all
    other blocks stay. *)
Theorem vacuumed_page_is_seen_by_all blkno index (s : VacState) (Hp : page_tuples (vpage s))
    (Hdead : removable_items (items_of (vpage s)) (listed_for blkno (drop index (dead_items (vacrel s)))))
    (Hvm : vm_ok (vmap s)) (Hpin : HEAPBLK_TO_MAPBLOCK blkno ∈ pinned (vmap s)) (Hblk : 0 <= blkno) :
  exists k s' marked all_frozen, lazy_vacuum_pg_tde_page blkno index (Some (HEAPBLK_TO_MAPBLOCK blkno)) s = (Ret k, s')
    /\ page_visible s' = marked || page_visible s
    /\ (marked = true -> page_visible_to_all (OldestXmin (cutoffs (vacrel s))) (vpage s'))
    /\ (marked = true -> all_frozen = true -> forall o lp h, PageGetItemId (items_of (vpage s')) o = Some lp ->
         ItemIdIsNormal lp = true -> tuple_on (vpage s') lp = Some h -> pg_tde_tuple_needs_eventual_freeze h = false)
    /\ vm_status (vmap s') blkno = (if marked then Z.lor (vm_status (vmap s) blkno) (visible_flags all_frozen)
                                   else vm_status (vmap s) blkno)
    /\ (forall y, 0 <= y -> y <> blkno -> vm_status (vmap s') y = vm_status (vmap s) y) /\ vm_ok (vmap s').
Proof.
  destruct (wp_run _ _ _ (second_pass_wp blkno index s Hp Hdead Hvm Hpin)) as (k & s' & E & _ & Hd).
  destruct Hd as [_ _ Hp' _ _ (av & af & Hseen & Hpv & Hst) [Hok _] _].
  exists k, s', av, af. split_and!; [done|done| | | | |done].
  - intros Hav. by eapply page_seen_visible, Hseen.
  - intros Hav Haf o lp h Hlp Hn Hh. pose proof Hlp as [Hr _]%PageGetItemId_Some.
    destruct (Hseen Hav o Hr) as (lp1 & E1 & _ & Hx). replace lp1 with lp in * by congruence.
    destruct (Hx Hn) as (h1 & Eh1 & _ & Hfz). replace h1 with h in * by congruence. by apply Hfz.
  - rewrite Hst by done. by rewrite Z.eqb_refl, andb_true_r.
  - intros y Hy Hne. rewrite Hst by done. rewrite (proj2 (Z.eqb_neq _ _)) by done. by rewrite andb_false_r.
Qed.

(** C25: a page that is not pruned is accounted for.  lazy_scan_noprune
    returns.  When it is done with the page, the new relfrozenxid and
    relminmxid are not after any id of its tuples, and for an aggressive
    VACUUM nothing is before the limits of freezing; its dead items, and no
    others, are listed if there are indexes, and the count goes with the
    list; and a page that does not keep the table from being cut off has only
    dead items that the second pass will free.  Only an aggressive VACUUM
    asks for a cleanup lock instead, and then nothing has been noted. *)
Theorem unpruned_page_is_accounted_for blkno (s : VacState) (Hp : page_tuples (vpage s))
    (Hids : page_ids xid_in multi_in s (Z.of_nat (length (items_of (vpage s))) + 1))
    (Hlen : (length (items_of (vpage s)) <= MaxHeapTuplesPerPage)%nat)
    (Hxid : xid_in (NewRelfrozenXid (vacrel s))) (Hmulti : multi_in (NewRelminMxid (vacrel s)))
    (Hroom : Z.of_nat (length (dead_items (vacrel s)) + MaxHeapTuplesPerPage) <= max_items (vacrel s)) :
  exists processed hastup recordfreespace s', lazy_scan_noprune blkno s = (Ret (processed, hastup, recordfreespace), s')
    /\ if processed then noprune_done blkno s s' hastup recordfreespace
       else aggressive (vacrel s) = true /\ vacrel s' = vacrel s /\ only_hints (vpage s) (vpage s').
Proof.
  destruct (wp_run _ _ _ (lazy_scan_noprune_wp blkno s Hp Hids Hlen Hxid Hmulti Hroom)) as ([[p h] rf] & s' & E & H).
  exists p, h, rf, s'. split; [done|]. destruct p; [done|]. destruct H as [Ha [Hh (_ & _ & Hr & _) _]]. done.
Qed.

(** C26: the scan of lazy_scan_prune notes the page as it is.  It returns;
    it starts over only if the page has a tuple that nobody needs any more
    (its inserter has failed, or its deleter has committed before the
    horizon); else
    the dead items listed are exactly those of the page, what is to be frozen
    are tuples of it, none twice; if it reports the page all-visible and
    found no dead item then every tuple is, from then on, visible to every
    snapshot that is not older; and without [hastup] there are only dead
    items.  Only hints of the page change. *)
Theorem prune_scan_notes_the_page n (s : VacState) (Hp : page_tuples (vpage s))
    (Hfr : page_freezable (cutoffs (vacrel s)) s) (Hlen : (length (items_of (vpage s)) <= n)%nat)
    (Hmax : (length (items_of (vpage s)) <= MaxHeapTuplesPerPage)%nat) (Hc : cutoffs_ok (cutoffs (vacrel s)))
    (Htr : trackers_ok (cutoffs (vacrel s)) (sc_frz (fresh_scan (vacrel s)))) :
  exists x s', scan_items n (vacrel s) 1 (fresh_scan (vacrel s)) s = (Ret x, s')
    /\ only_hints (vpage s) (vpage s') /\ vacrel s' = vacrel s
    /\ match x with
       | None => dead_seen (OldestXmin (cutoffs (vacrel s))) s
       | Some v =>
           sc_dead v = dead_offsets (items_of (vpage s))
           /\ NoDup (fz_offset <$> sc_frozen v)
           /\ Forall (fun f => exists lp, PageGetItemId (items_of (vpage s)) (fz_offset f) = Some lp /\ ItemIdIsNormal lp = true) (sc_frozen v)
           /\ (ps_all_visible (sc_page v) = true -> sc_dead v = [] -> page_visible_to_all (OldestXmin (cutoffs (vacrel s))) (vpage s'))
           /\ (hastup (sc_page v) = false -> forall o lp, PageGetItemId (items_of (vpage s)) o = Some lp -> ItemIdIsUsed lp = true ->
                o ∈ sc_dead v)
       end.
Proof.
  destruct (wp_run _ _ _ (scan_items_wp (vacrel s) s n Hp Hfr Hmax Hc 1 _ s ltac:(lia) (scanned_fresh _ _ Hp Htr)))
    as ([v|] & s' & E & Hsc); [|destruct Hsc as [[Hh (_ & _ & Hr & _) _] Hsn]; by exists None, s'].
  exists (Some v), s'. destruct Hsc as [[Hh (_ & _ & Hr & _) _] _ Hd (Hf & Hnd & _) Hvis Hup].
  rewrite dead_before_all in Hd by lia. split_and!; [done|done|done|done|done| | |].
  - eapply Forall_impl; [exact Hf|]. by intros f [_ ?].
  - intros Hv Hnone. pose proof (oh_page _ _ Hh) as Hhp. intros o lp Hlp Hu. rewrite (hp_items _ _ Hhp) in Hlp.
    pose proof (hinted_page_tuples _ _ Hhp Hp) as Hp'. pose proof (PageGetItemId_Some _ _ _ Hlp) as [Hrange Hin]. unfold maxoff in Hrange.
    destruct (used_item (items_of (vpage s)) o lp Hlp Hu) as [?|[Hdd|Hn]]; [by left| |right; split; [done|]].
    { rewrite <- Hd, Hnone in Hdd. by apply not_elem_of_nil in Hdd. }
    destruct (Hvis o lp Hv ltac:(lia) Hlp Hn) as (h & Eh & Hsee). exists h. split; [done|].
    rewrite <- (hp_items _ _ Hhp) in Hin. destruct (page_header _ Hp' lp Hin Hn) as (h1 & E1 & Hok & Htok).
    replace h1 with h in * by congruence. by apply everyone_sees_always.
  - intros Hno o lp Hlp Hu. rewrite Hd. pose proof (PageGetItemId_Some _ _ _ Hlp) as [Hrange _]. unfold maxoff in Hrange.
    destruct (used_item (items_of (vpage s)) o lp Hlp Hu) as [Hk|[Hdd|Hk]]; [|done|];
      rewrite (Hup o lp) in Hno; [done|lia|done|by right|done|lia|done|by left].
Qed.
End claims.

(** C28: only empty pages are given back.  lazy_truncate_heap ends, whatever
    others do while it waits for the lock; what it removes are pages at the
    end of the table that have no item in use at that moment, while it holds
    the lock and none before [nonempty_pages]; and the counts of pages left
    and removed go with them. *)
Theorem truncation_gives_back_empty_pages `{PageMacros} `{TruncEnv} pages r removed_pages fuel
    (Hfuel : (Z.to_nat (rel_pages r - nonempty_pages r) < fuel)%nat) (Hne : 0 <= nonempty_pages r) :
  exists pages' k, lazy_truncate_heap fuel 0 pages r removed_pages
      = Some (pages', with_rel_pages (rel_pages r - k) r, removed_pages + k)
    /\ truncated (nonempty_pages r) 0 pages pages' k.
Proof. by apply truncate_spec. Qed.

(** ** A page with two dead items *)

Module ToyVacuum.
Import ToyWorld ToyEVP ToyPage ToyKeyring ToyTde ToyPrune ToyLocks ToyHot ToyFreeze.

#[export] Instance vac_vm : VmEnv := ToyMap.toy_vm.
#[export] Instance vac_vm_laws : VmLaws.
Proof. split; cbn; try done. by intros n; right. Qed.

#[export] Instance toy_vac : VacEnv := {|
  put_header b lp h := if whole lp then splice b (Z.to_nat (lp_off lp)) (encode h) else b;
  TransactionIdRetreat x := x - 1;
  wal_fpi n t := Z.of_nat n;
  VacuumFailsafeActive := false;
  vac_work_mem := 1024;
  MaxAllocSize := 0x3fffffff;
  MAXDEADITEMS avail := (avail - 8) / 6;
|}.

#[export] Instance toy_truncate : TruncateLaws.
Proof. by split. Qed.

#[export] Instance toy_sizes : VacSizes.
Proof.
  refine {| sizeof_ItemPointerData := 6; offsetof_VacDeadItems_items := 8 |}; try done; try (cbn; lia).
  intros avail Ha. cbn. pose proof (Z.div_mod (avail - 8) 6). pose proof (Z.mod_pos_bound (avail - 8) 6).
  pose proof (Z.div_pos (avail - 8) 6). lia.
Defined.

(** Items 1 and 3 are dead; item 2 was inserted by 5, which has committed. *)
Definition row : TupleHeader := header 5 0 2 0x0900 0.
Definition vac_items : list ItemId := [lp_at 0 3 0; lp_at 0 1 6; lp_at 0 3 0].
Definition vac_page : PageState :=
  toy_page {| tde := toy_tde_state ks0;
              page := {| pd_lower := 36; pd_upper := 100; pd_special := 8192; pd_linp := vac_items;
                         has_free_lines := true; page_bytes := encode row |};
              scratch := [] |}.

(** The map: blocks 0 to 39 are visible, and all but the first frozen. *)
Definition vac_map : VmState :=
  {| vm_fork := Some [{| contents := (0xfd :: replicate 9 0xff) ++ replicate (Z.to_nat 8158) 0; is_new := false; page_lsn := 3 |}];
     smgr_cached_nblocks := 1; pinned := [0]; heap_lsn := 7; wal := [] |}.

Lemma vac_map_ok : vm_ok vac_map.
Proof.
  split.
  { constructor; [|constructor]. split; [by vm_compute|]. split; [|done].
    cbn [contents]. apply Forall_app. split; [|apply Forall_replicate; unfold byte_ok; lia].
    constructor; [unfold byte_ok; lia|apply Forall_replicate; unfold byte_ok; lia]. }
  split; [by right|]. split; [done|]. constructor; [|constructor].
  split; [done|]. by eexists.
Qed.

Definition no_counts : VacCounts :=
  {| tuples_deleted := 0; tuples_frozen := 0; lpdead_items := 0; live_tuples := 0; recently_dead_tuples := 0;
     missed_dead_tuples := 0; lpdead_item_pages := 0; missed_dead_pages := 0; frozen_pages := 0 |}.
Definition vac_rel (aggr : bool) (dead : list (Z * Z)) : LVRelState :=
  {| nindexes := 1; aggressive := aggr; skipwithvm := true; do_rel_truncate := true; Vacuum.cutoffs := ToyFreeze.cutoffs;
     NewRelfrozenXid := 8; NewRelminMxid := 1; skippedallvis := false; dead_items := dead; max_items := 100;
     rel_pages := 50; nonempty_pages := 41; counts_of := no_counts |}.
Definition vac_state (aggr : bool) (dead : list (Z * Z)) : VacState :=
  {| vpage := vac_page; page_visible := false; vmap := vac_map; vlocks := locked 0; vacrel := vac_rel aggr dead;
     freeze_wal := []; vacuum_wal := [] |}.

Lemma vac_page_tuples : page_tuples vac_page.
Proof.
  split.
  - intros i j lp lp' Hi Hj Hne Hn Hn'. cbn in Hi, Hj.
    destruct i as [|[|[|i]]], j as [|[|[|j]]]; cbn in Hi, Hj; simplify_eq; by vm_compute in Hn, Hn'.
  - intros lp Hlp Hn. cbn in Hlp. unfold vac_items in Hlp. set_unfold.
    destruct_or! Hlp; subst; vm_compute in Hn; try done.
    eexists. split; [vm_compute; reflexivity|]. by vm_compute; repeat split.
Qed.

Lemma vac_dead : removable_items vac_items [1; 3].
Proof.
  split.
  - intros o Ho. set_unfold. destruct_or! Ho; subst; by eexists.
  - by apply (bool_decide_unpack _).
  - cbn. lia.
Qed.

(** Neither a multixact nor anything old, now or later. *)
Lemma row_later h t t' : later_header row t h t' -> t_xmax (fields h) = 0 /\ has (t_infomask (fields h)) 0x1000 = false
  /\ HeapTupleHeaderGetXmin (fields h) = 5 /\ has (t_infomask (fields h)) 0xc000 = false.
Proof.
  intros [_ (_ & Hs & Hf & _)]. destruct (same_tuple_facts _ _ Hs) as (E1 & E2 & _ & _ & E5 & E6 & E7 & _).
  split_and!; [by rewrite E2|exact E5| |].
  - unfold HeapTupleHeaderGetXmin. rewrite Hf, E1. reflexivity.
  - change 0xc000 with (Z.lor HEAP_MOVED_OFF HEAP_MOVED_IN). by rewrite has_lor_r, E6, E7.
Qed.

Lemma row_freezable st t : freezable ToyFreeze.cutoffs st t row.
Proof.
  intros st' h' t' _ Hl. destruct (row_later h' t t' Hl) as (E1 & E2 & E3 & _). split.
  - intros _. rewrite E3. ids.
  - intros _. by rewrite E1.
  - intros E. change (has (t_infomask (fields h')) 0x1000 = true) in E. congruence.
  - intros E. change (has (t_infomask (fields h')) 0x1000 = true) in E. congruence.
Qed.

Lemma vac_ids aggr dead : page_ids xid_in multi_in (vac_state aggr dead) 4.
Proof.
  intros x lp Hx Hlp Hn. exists row. apply PageGetItemId_Some in Hlp as [_ Hin]. cbn in Hin. unfold vac_items in Hin.
  set_unfold. by destruct_or! Hin; subst; vm_compute in Hn.
Qed.

Lemma vac_freezable aggr dead : page_freezable ToyFreeze.cutoffs (vac_state aggr dead).
Proof.
  intros x lp h Hlp Hn Hh. apply PageGetItemId_Some in Hlp as [_ Hin]. cbn in Hin. unfold vac_items in Hin.
  set_unfold. destruct_or! Hin; subst; vm_compute in Hn; try done.
  vm_compute in Hh. injection Hh as <-. apply row_freezable.
Qed.

(** The lock is had at the third attempt; meanwhile page 42 has been used;
    nobody waits. *)
Definition used_page : list ItemId := [lp_at 0 1 6].
#[export] Instance toy_trunc : TruncEnv := {|
  lock_granted round retry := (2 <=? retry)%nat;
  meanwhile round pages := <[42%nat := used_page]> pages;
  lock_waiters round block := false;
|}.
End ToyVacuum.

Section witnesses.
Import ToyWorld ToyEVP ToyPage ToyKeyring ToyTde ToyPrune ToyLocks ToyHot ToyFreeze ToyVacuum.

(** [always_visible] says something: a tuple whose deleter, 9, still runs at
    moment 0 does not have it, since a snapshot taken after the deleter's
    commit at moment 10 does not see the tuple. *)
Lemma running_deletion_is_not_for_everyone :
  TransactionIdIsInProgress 0 (t_xmax deleted_tuple) = true /\ ~ always_visible 9 deleted_tuple 0.
Proof.
  split; [done|]. intros H. set (sn := {| snapshot_type := SNAPSHOT_MVCC; sn_xmin := 101; sn_xmax := 101; xip := []; xcnt := 0;
    subxip := []; subxcnt := 0; curcid := 4 |}).
  assert (Hok : hints_ok deleted_tuple 0) by (split_and!; done).
  pose proof (H sn deleted_tuple 20%nat ltac:(intros x _; reflexivity) ltac:(vm_compute; lia)
    ltac:(apply evolves_stay; [exact Hok|lia]) false) as Hv.
  vm_compute in Hv. discriminate Hv.
Qed.

Lemma skipped_blocks_are_safe_witness :
  exists vm' s', lazy_scan_skip 1 None (vac_state false []) = (Ret (40, false, true, vm'), s')
    /\ skippedallvis (vacrel s') = false
    /\ forall y, 1 <= y < 40 -> seen_frozen (vmap (vac_state false [])) y.
Proof.
  destruct (skipped_blocks_are_safe 1 None (vac_state false [])) as (b & a & sk & vm' & s' & E & _ & _ & _ & _ & _ & Hf & _).
  - exact vac_map_ok.
  - done.
  - lia.
  - done.
  - exists vm', s'. vm_compute in E. injection E as <- <- <- <- <-.
    split; [reflexivity|]. split; [reflexivity|]. apply Hf; reflexivity.
Defined.

Lemma second_pass_frees_listed_witness :
  exists s' r, lazy_vacuum_pg_tde_page 7 0 (Some 0) (vac_state false [(7, 1); (7, 3); (9, 1)]) = (Ret 2%nat, s')
    /\ items_of (vpage s') = [lp_at 0 0 0; lp_at 0 1 6] /\ xl_unused r = [1; 3]
    /\ exists t', pg_tde_xlog_vacuum 7 BLK_NEEDS_REDO 77 (xl_unused r) vac_page = (Ret tt, t')
         /\ items_of t' = items_of (vpage s').
Proof.
  destruct (second_pass_frees_listed 7 0 [1; 3] (vac_state false [(7, 1); (7, 3); (9, 1)]))
    as (s' & r & E & _ & _ & _ & Hw & _ & Hredo).
  - exact vac_page_tuples.
  - reflexivity.
  - exact vac_dead.
  - exact vac_map_ok.
  - by left.
  - reflexivity.
  - destruct (Hredo 77 vac_page eq_refl) as (t' & Et & Ei & _).
    assert (Es : s' = snd (lazy_vacuum_pg_tde_page 7 0 (Some 0) (vac_state false [(7, 1); (7, 3); (9, 1)]))).
    { change (HEAPBLK_TO_MAPBLOCK 7) with 0 in E. by rewrite E. }
    exists s', r. split; [exact E|]. split; [rewrite Es; vm_compute; reflexivity|]. split.
    + assert (Hx : vacuum_wal s' = [{| xl_nunused := 2; xl_unused := [1; 3] |}]) by (rewrite Es; vm_compute; reflexivity).
      rewrite Hx in Hw. cbn in Hw. injection Hw as <-. reflexivity.
    + exists t'. split; [exact Et|exact Ei].
Defined.

Lemma vacuumed_page_is_seen_by_all_witness :
  exists k s', lazy_vacuum_pg_tde_page 45 0 (Some 0) (vac_state false [(45, 1); (45, 3)]) = (Ret k, s')
    /\ page_visible s' = true /\ page_visible_to_all 8 (vpage s') /\ vm_status (vmap s') 45 = 1.
Proof.
  destruct (vacuumed_page_is_seen_by_all 45 0 (vac_state false [(45, 1); (45, 3)]))
    as (k & s' & m & f & E & Hpv & Hall & _ & Hst & _).
  - exact vac_page_tuples.
  - exact vac_dead.
  - exact vac_map_ok.
  - by left.
  - lia.
  - assert (Es : s' = snd (lazy_vacuum_pg_tde_page 45 0 (Some 0) (vac_state false [(45, 1); (45, 3)]))).
    { change (HEAPBLK_TO_MAPBLOCK 45) with 0 in E. by rewrite E. }
    assert (Hv : page_visible s' = true) by (rewrite Es; vm_compute; reflexivity).
    exists k, s'. split; [exact E|]. split; [exact Hv|]. split; [|rewrite Es; vm_compute; reflexivity].
    apply Hall. rewrite Hv in Hpv. cbn in Hpv. by rewrite orb_false_r in Hpv.
Defined.

Lemma unpruned_page_is_accounted_for_witness :
  exists s', lazy_scan_noprune 7 (vac_state false []) = (Ret (true, true, false), s')
    /\ dead_items (vacrel s') = [(7, 1); (7, 3)] /\ NewRelfrozenXid (vacrel s') = 5
    /\ noprune_done 7 (vac_state false []) s' true false.
Proof.
  destruct (unpruned_page_is_accounted_for 7 (vac_state false [])) as (p & h & rf & s' & E & Hd).
  - exact vac_page_tuples.
  - exact (vac_ids false []).
  - cbn. lia.
  - done.
  - done.
  - cbn. lia.
  - assert (Ex : lazy_scan_noprune 7 (vac_state false [])
      = (Ret (true, true, false), snd (lazy_scan_noprune 7 (vac_state false [])))) by (vm_compute; reflexivity).
    rewrite E in Ex. cbn [snd] in Ex. injection Ex as -> -> ->.
    assert (Es : s' = snd (lazy_scan_noprune 7 (vac_state false []))) by by rewrite E.
    exists s'. split; [exact E|]. split; [rewrite Es; vm_compute; reflexivity|].
    split; [rewrite Es; vm_compute; reflexivity|exact Hd].
Defined.

Lemma prune_scan_notes_the_page_witness :
  exists v s', scan_items 3 (vac_rel false []) 1 (fresh_scan (vac_rel false [])) (vac_state false []) = (Ret (Some v), s')
    /\ sc_dead v = [1; 3] /\ fz_offset <$> sc_frozen v = [2] /\ hastup (sc_page v) = true.
Proof.
  destruct (prune_scan_notes_the_page 3 (vac_state false [])) as (x & s' & E & _ & _ & H).
  - exact vac_page_tuples.
  - exact (vac_freezable false []).
  - cbn. lia.
  - cbn. lia.
  - exact ToyFreeze.cutoffs_fine.
  - split; try done; ToyFreeze.ids.
  - assert (Ex : x = match fst (scan_items 3 (vacrel (vac_state false [])) 1 (fresh_scan (vacrel (vac_state false []))) (vac_state false [])) with
      | Ret y => y | _ => None end) by by rewrite E.
    destruct x as [v|]; [|vm_compute in Ex; discriminate]. exists v, s'. split; [exact E|].
    destruct H as (Hd & _). split; [exact Hd|]. vm_compute in Ex. injection Ex as ->. split; reflexivity.
Defined.

Lemma truncation_gives_back_empty_pages_witness :
  exists pages', lazy_truncate_heap 10 0 (replicate 50 []) (vac_rel false []) 0
      = Some (pages', with_rel_pages 43 (vac_rel false []), 7)
    /\ pages' = replicate 42 [] ++ [used_page] /\ truncated 41 0 (replicate 50 []) pages' 7.
Proof.
  destruct (truncation_gives_back_empty_pages (replicate 50 []) (vac_rel false []) 0 10) as (pages' & k & E & Ht).
  - cbn. lia.
  - cbn. lia.
  - assert (Ek : Some (pages', k) = (fun x => (fst (fst x), snd x)) <$> lazy_truncate_heap 10 0 (replicate 50 []) (vac_rel false []) 0)
      by by rewrite E.
    vm_compute in Ek. injection Ek as -> ->. eexists. split; [exact E|]. split; [reflexivity|exact Ht].
Defined.
End witnesses.
