(* ===== verification/TupleBytes.v ===== *)
(** Heap tuples and heap pages as bytes: the header fields of a tuple at
    their offsets in htup_details.h, what the code does to the header of a
    new tuple, and the page layer of the server as an interface. *)
From S2P Require Import Prelude EncAes EncTuple RelKeys KeyringTypes KeyringApi XactHandler TdeMap Prune TupleIO.

(** [offsetof(HeapTupleHeaderData, t_bits)] *)
Definition SizeofHeapTupleHeader : Z := 23.

(** Unsigned fields of a tuple header: offset and size. *)
Inductive tuple_field := F_xmin | F_xmax | F_cid | F_infomask2 | F_infomask | F_hoff.

Definition field_at (f : tuple_field) : nat :=
  match f with
  | F_xmin => 0 | F_xmax => 4 | F_cid => 8 | F_infomask2 => 18 | F_infomask => 20 | F_hoff => 22
  end%nat.
Definition field_size (f : tuple_field) : nat :=
  match f with F_xmin | F_xmax | F_cid => 4 | F_infomask2 | F_infomask => 2 | F_hoff => 1 end%nat.

Definition get_field (f : tuple_field) (tup : list Z) : Z :=
  le_value (take (field_size f) (drop (field_at f) tup)).
Definition set_field (f : tuple_field) (v : Z) (tup : list Z) : list Z :=
  splice tup (field_at f) (le_bytes (field_size f) v).

(** [t_ctid] at 12: the high and low half of the block, the offset. *)
Definition ctid_at : nat := 12.
Definition ctid_bytes (tid : Z * Z) : list Z :=
  le_bytes 2 (Z.shiftr (fst tid) 16) ++ le_bytes 2 (Z.land (fst tid) 0xffff) ++ le_bytes 2 (snd tid).
Definition set_ctid (tid : Z * Z) (tup : list Z) : list Z := splice tup ctid_at (ctid_bytes tid).

(** The page layer: bufpage.h, freespace of heap pages, new pages. *)
Class HeapPageOps := {
  (** ItemIdGetOffset(PageGetItemId(page, n)) *)
  PageItemOffset : list Z -> Z -> option Z;
  PageGetMaxOffsetNumber : list Z -> Z;
  PageIsAllVisible : list Z -> bool;
  PageSetAllVisible : list Z -> list Z;
  PageClearAllVisible : list Z -> list Z;
  PageSetLSN_heap : Z -> list Z -> list Z;
  PageInit : list Z;
  PageGetHeapFreeSpace : list Z -> Z;
  PAI_OVERWRITE : Z;
  PAI_IS_HEAP : Z;
}.

(** Pages with a header that makes sense, and what the code relies on for
    them: adding an item puts it at the new [pd_upper] and moves nothing;
    there is room for an item that fits in the free space; an item of the same
    size can be given the same offset number (as replay does); what is changed
    in the header or behind [pd_upper] does not disturb the rest. *)
Class HeapPageLaws `{PgBlockSize} `{PageMacros} `{PageOps} `{HeapPageOps} := {
  page_sane : list Z -> Prop;
  header_only (p q : list Z) : Prop :=
    page_sane q /\ pd_upper q = pd_upper p
    /\ drop (Z.to_nat (pd_upper p)) q = drop (Z.to_nat (pd_upper p)) p
    /\ (forall n, PageItemOffset q n = PageItemOffset p n)
    /\ PageGetMaxOffsetNumber q = PageGetMaxOffsetNumber p
    /\ PageGetHeapFreeSpace q = PageGetHeapFreeSpace p;
  sane_range p : page_sane p ->
    length p = Z.to_nat BLCKSZ /\ 24 <= pd_upper p <= BLCKSZ /\ 0 <= PageGetMaxOffsetNumber p;
  max_align z : z <= MAXALIGN z <= z + 63;
  add_fits p item : page_sane p -> 0 < Z.of_nat (length item) ->
    MAXALIGN (Z.of_nat (length item)) <= PageGetHeapFreeSpace p ->
    fst (PageAddItemExtended p item (Z.of_nat (length item)) InvalidOffsetNumber PAI_IS_HEAP)
      <> InvalidOffsetNumber;
  add_item p item off flags off' p' : page_sane p ->
    PageAddItemExtended p item (Z.of_nat (length item)) off flags = (off', p') ->
    off' <> InvalidOffsetNumber ->
    page_sane p' /\ PageItemOffset p' off' = Some (pd_upper p')
    /\ pd_upper p' = pd_upper p - MAXALIGN (Z.of_nat (length item))
    /\ drop (Z.to_nat (pd_upper p)) p' = drop (Z.to_nat (pd_upper p)) p
    /\ PageIsAllVisible p' = PageIsAllVisible p
    /\ 1 <= off' <= PageGetMaxOffsetNumber p' /\ PageGetMaxOffsetNumber p' < 2 ^ 16
    /\ PageGetMaxOffsetNumber p' <= PageGetMaxOffsetNumber p + 1
    /\ (off = InvalidOffsetNumber -> forall n o, PageItemOffset p n = Some o ->
          pd_upper p <= o -> n <> off' /\ PageItemOffset p' n = Some o);
  add_again p item item' off' p' : page_sane p ->
    PageAddItemExtended p item (Z.of_nat (length item)) InvalidOffsetNumber PAI_IS_HEAP = (off', p') ->
    off' <> InvalidOffsetNumber -> length item' = length item ->
    fst (PageAddItemExtended p item' (Z.of_nat (length item')) off' (Z.lor PAI_OVERWRITE PAI_IS_HEAP)) = off';
  write_items p at_ seg : page_sane p -> pd_upper p <= at_ ->
    at_ + Z.of_nat (length seg) <= BLCKSZ ->
    let q := splice p (Z.to_nat at_) seg in
    page_sane q /\ pd_upper q = pd_upper p /\ (forall n, PageItemOffset q n = PageItemOffset p n)
    /\ PageGetMaxOffsetNumber q = PageGetMaxOffsetNumber p
    /\ PageGetHeapFreeSpace q = PageGetHeapFreeSpace p /\ PageIsAllVisible q = PageIsAllVisible p;
  set_lsn_header lsn p : page_sane p ->
    header_only p (PageSetLSN_heap lsn p) /\ PageIsAllVisible (PageSetLSN_heap lsn p) = PageIsAllVisible p;
  set_visible_header p : page_sane p ->
    header_only p (PageSetAllVisible p) /\ PageIsAllVisible (PageSetAllVisible p) = true;
  clear_visible_header p : page_sane p ->
    header_only p (PageClearAllVisible p) /\ PageIsAllVisible (PageClearAllVisible p) = false;
}.
