(* ===== verification/Toast.v ===== *)
(** Values too large for a tuple: src/src/access/pg_tdetoast.c.

    pg_tde_toast_tuple_externalize encrypts a value where it is before the
    server cuts it into the chunks of the TOAST table; the chunks are read
    back, and decrypted chunk by chunk, by pg_tde_fetch_toast_slice.  What
    the server does is an interface, a TOAST table the list of its rows in
    the order of its index. *)
From S2P Require Import Prelude EncAes RelKeys EncTuple KeyringTypes KeyringApi XactHandler TdeMap TupleIO Prune TupleBytes.

(** A varlena as the code tells them apart, with the bytes behind its
    header; [tcinfo] is what VARDATA_4B_C skips. *)
Inductive Varlena :=
| VarShort (data : list Z)
| VarCompressed (tcinfo data : list Z)
| VarPlain (data : list Z).

(** The data of a chunk: [!VARATT_IS_EXTENDED], [VARATT_IS_SHORT], or
    toasted itself. *)
Inductive ChunkDatum := Chunk4B (data : list Z) | ChunkShort (data : list Z) | ChunkToasted.

Record ToastRow := { chunk_id : Z; chunk_seq : Z; chunk_data : ChunkDatum }.

(** c.h, htup_details.h and varatt.h. *)
Class ToastMacros := {
  MAXALIGN_DOWN : Z -> Z;
  sizeof_Oid : Z;
  VARHDRSZ : Z;
  VARHDRSZ_COMPRESSED : Z;
}.

(** toast_helper.c: [toast_tuple_externalize] stores a value under a new id. *)
Class ToastServer := {
  toast_tuple_externalize : list ToastRow -> Varlena -> Z * list ToastRow;
}.

Record ToastState `{HE : EVP} `{HC : Curl} := {
  toast_tde : TdeState;
  datums : gmap nat Varlena;    (** the values in memory, by address *)
  toast_table : list ToastRow;
}.

Section toast.
Context `{HE : EVP} `{HS : CIntShift}.
Context `{HJ : Json} `{HB : Base64} `{HC : Curl} `{HF : KeyringFs}.
Context `{HT : TdeEnv} `{HP : PgBlockSize} `{HM : PageMacros}.
Context `{HTM : ToastMacros} `{HTS : ToastServer}.
Variable g : AesGlobals.

Definition TDE_TOAST_COMPRESS_HEADER_SIZE : Z := VARHDRSZ_COMPRESSED - VARHDRSZ.

Definition MaximumBytesPerTuple (tuplesPerPage : Z) : Z :=
  MAXALIGN_DOWN ((BLCKSZ - MAXALIGN (SizeOfPageHeaderData + tuplesPerPage * sizeof_ItemIdData))
                 / tuplesPerPage).

Definition EXTERN_TUPLES_PER_PAGE : Z := 4.

(** [sizeof(int32)] is 4. *)
Definition TOAST_MAX_CHUNK_SIZE : Z :=
  MaximumBytesPerTuple EXTERN_TUPLES_PER_PAGE - MAXALIGN SizeofHeapTupleHeader - sizeof_Oid - 4
  - VARHDRSZ.

(** ** pg_tde_fetch_toast_slice *)

(** The request: the size of the value and the slice, and whether the
    result is marked as compressed. *)
Record SliceRequest := {
  attrsize : Z;
  sliceoffset : Z;
  slicelength : Z;
  res_compressed : bool;
}.

Definition totalchunks (q : SliceRequest) : Z :=
  int32 (u64 (attrsize q - 1) / TOAST_MAX_CHUNK_SIZE + 1).
Definition startchunk (q : SliceRequest) : Z := int32 (u64 (sliceoffset q) / TOAST_MAX_CHUNK_SIZE).
Definition endchunk (q : SliceRequest) : Z :=
  int32 (u64 (int32 (sliceoffset q + slicelength q - 1)) / TOAST_MAX_CHUNK_SIZE).

(** The rows the scan keys let through, in index order. *)
Definition scan_row (q : SliceRequest) (valueid : Z) (r : ToastRow) : bool :=
  (chunk_id r =? valueid)
  && (if (startchunk q =? 0) && (endchunk q =? totalchunks q - 1) then true
      else if startchunk q =? endchunk q then chunk_seq r =? startchunk q
      else (startchunk q <=? chunk_seq r) && (chunk_seq r <=? endchunk q)).

Definition expected_size (q : SliceRequest) (curchunk : Z) : Z :=
  int32 (if curchunk <? totalchunks q - 1 then TOAST_MAX_CHUNK_SIZE
         else u64 (attrsize q - u64 ((totalchunks q - 1) * TOAST_MAX_CHUNK_SIZE))).

(** The part of the chunk that is wanted: from, to. *)
Definition chunk_part (q : SliceRequest) (curchunk chunksize : Z) : Z * Z :=
  (if curchunk =? startchunk q then sliceoffset q mod TOAST_MAX_CHUNK_SIZE else 0,
   if curchunk =? endchunk q
   then u64 (int32 (sliceoffset q + slicelength q - 1)) mod TOAST_MAX_CHUNK_SIZE
   else chunksize - 1).

(** Checked chunks: decrypt the part and copy it to its place.  [result]:
    the bytes from VARDATA(result) on. *)
Definition copy_chunk (keys : nat) (q : SliceRequest) (curchunk : Z) (chunkdata result : list Z)
    : M TdeState (list Z) :=
  let '(chcpystrt, chcpyend) := chunk_part q curchunk (Z.of_nat (length chunkdata)) in
  let* r :=
    if res_compressed q then
      if curchunk =? 0 then
        let* header := defined (rd_bytes chunkdata chcpystrt TDE_TOAST_COMPRESS_HEADER_SIZE) in
        let* result := defined (wr_bytes result 0 header) in
        ret (result, chcpystrt + TDE_TOAST_COMPRESS_HEADER_SIZE, chcpystrt)
      else ret (result, chcpystrt, chcpystrt - TDE_TOAST_COMPRESS_HEADER_SIZE)
    else ret (result, chcpystrt, chcpystrt) in
  let '(result, chcpystrt, encrypt_offset) := r in
  let size := chcpyend - chcpystrt + 1 in
  let* encrypted := defined (rd_bytes chunkdata chcpystrt (u32 size)) in
  let* decrypted_data := with_keys keys
    (pg_tde_crypt g (u64 (u64 (curchunk * TOAST_MAX_CHUNK_SIZE - sliceoffset q) + encrypt_offset))
       encrypted (u32 size) (replicate (Z.to_nat TOAST_MAX_CHUNK_SIZE) 0)) in
  let* bytes := defined (rd_bytes decrypted_data 0 (u64 size)) in
  defined (wr_bytes result (u64 (u64 (curchunk * TOAST_MAX_CHUNK_SIZE - sliceoffset q) + chcpystrt)) bytes).

(** The loop over the rows of the scan. *)
Fixpoint fetch_loop (keys : nat) (q : SliceRequest) (rows : list ToastRow) (expectedchunk : Z)
    (result : list Z) : M TdeState (Z * list Z) :=
  match rows with
  | [] => ret (expectedchunk, result)
  | row :: rows =>
      match chunk_data row with
      | ChunkToasted => raise ERROR
      | Chunk4B chunkdata | ChunkShort chunkdata =>
          let curchunk := chunk_seq row in
          if negb (curchunk =? expectedchunk) then raise ERROR
          else if endchunk q <? curchunk then raise ERROR
          else if negb (Z.of_nat (length chunkdata) =? expected_size q curchunk) then raise ERROR
          else
            let* result := copy_chunk keys q curchunk chunkdata result in
            fetch_loop keys q rows (int32 (expectedchunk + 1)) result
      end
  end.

Definition pg_tde_fetch_toast_slice (toastrel : RelFileLocator) (table : list ToastRow)
    (valueid : Z) (q : SliceRequest) (result : list Z) : M TdeState (list Z) :=
  let* keys := GetRelationKeys g toastrel in
  let* r := fetch_loop keys q (filter (fun row => scan_row q valueid row = true) table)
              (startchunk q) result in
  let '(expectedchunk, result) := r in
  if negb (expectedchunk =? int32 (endchunk q + 1)) then raise ERROR else ret result.

(** ** pg_tde_toast_tuple_externalize *)

Local Abbreviation MO := (M ToastState).

Definition on_tde {A} (m : M TdeState A) : MO A :=
  zoom toast_tde (fun t s => {| toast_tde := t; datums := datums s; toast_table := toast_table s |}) m.

Definition var_data (v : Varlena) : list Z :=
  match v with VarShort d | VarCompressed _ d | VarPlain d => d end.
Definition with_data (d : list Z) (v : Varlena) : Varlena :=
  match v with
  | VarShort _ => VarShort d
  | VarCompressed tcinfo _ => VarCompressed tcinfo d
  | VarPlain _ => VarPlain d
  end.

(** [dval]: the address in [ttc_values]; the id the value is stored under
    is what the server leaves there. *)
Definition pg_tde_toast_tuple_externalize (toastrel : RelFileLocator) (dval : nat) : MO Z :=
  let* keys := on_tde (GetRelationKeys g toastrel) in
  let* s := get in
  let* v := defined (datums s !! dval) in
  let data_size := Z.of_nat (length (var_data v)) in
  let* encrypted_data := on_tde (with_keys keys
    (pg_tde_crypt g 0 (var_data v) data_size (replicate (length (var_data v)) 0))) in
  modify (fun s => {| toast_tde := toast_tde s;
                      datums := <[dval := with_data encrypted_data v]> (datums s);
                      toast_table := toast_table s |});;;
  let* s := get in
  let* v := defined (datums s !! dval) in
  let '(valueid, table) := toast_tuple_externalize (toast_table s) v in
  modify (fun s => {| toast_tde := toast_tde s; datums := datums s; toast_table := table |});;;
  ret valueid.
End toast.
