(* ===== verification/ToastProps.v ===== *)
(** Reading a slice of a TOAST value: the arithmetic of chunks, a chunk,
    and the loop. *)
From S2P Require Import Prelude EncAes RelKeys EncTuple KeyringTypes KeyringApi XactHandler TdeMap TupleIO Prune Toast.

(** The chunk size of the supported page sizes, and a compression header
    that is smaller. *)
Class ToastMacrosLaws `{PgBlockSize, PageMacros, ToastMacros} := {
  chunk_size_range : 0 < TOAST_MAX_CHUNK_SIZE < 2 ^ 15;
  compress_header_range : 0 <= TDE_TOAST_COMPRESS_HEADER_SIZE < TOAST_MAX_CHUNK_SIZE;
}.

Section props.
Context `{HE : EVP} `{HS : CIntShift} `{HL : !EVPLaws}.
Context `{HJ : Json} `{HB : Base64} `{HC : Curl} `{HF : KeyringFs}.
Context `{HT : TdeEnv} `{HP : PgBlockSize} `{HM : PageMacros}.
Context `{HTM : ToastMacros} `{HTL : !ToastMacrosLaws}.
Variable g : AesGlobals.
Hypothesis Hg : aes_initialized g.

Local Abbreviation CH := TOAST_MAX_CHUNK_SIZE.
Local Abbreviation HDR := TDE_TOAST_COMPRESS_HEADER_SIZE.

(** A slice within the value; slices of compressed values start at 0 and
    have more than the compression header. *)
Record request_ok (q : SliceRequest) : Prop := {
  ro_attr : attrsize q < 2 ^ 30;
  ro_off : 0 <= sliceoffset q;
  ro_len : 1 <= slicelength q;
  ro_within : sliceoffset q + slicelength q <= attrsize q;
  ro_compressed : res_compressed q = true -> sliceoffset q = 0 /\ HDR < slicelength q;
}.

Lemma quotient_range x : 0 <= x < 2 ^ 30 -> 0 <= x / CH <= x /\ CH * (x / CH) <= x < CH * (x / CH) + CH
  /\ x mod CH = x - CH * (x / CH).
Proof.
  intros Hx. pose proof chunk_size_range. assert (Hne : CH <> 0) by lia. assert (Hpos : 0 < CH) by lia.
  pose proof (Z.div_mod x CH Hne). pose proof (Z.mod_pos_bound x CH Hpos). split_and!; try lia.
  - by apply Z.div_pos; lia.
  - apply Z.div_le_upper_bound; nia.
Qed.

Lemma request_chunks q : request_ok q ->
  totalchunks q = (attrsize q - 1) / CH + 1
  /\ startchunk q = sliceoffset q / CH
  /\ endchunk q = (sliceoffset q + slicelength q - 1) / CH.
Proof.
  intros [H1 H2 H3 H4 _].
  pose proof (quotient_range (attrsize q - 1) ltac:(lia)).
  pose proof (quotient_range (sliceoffset q) ltac:(lia)).
  pose proof (quotient_range (sliceoffset q + slicelength q - 1) ltac:(lia)).
  unfold totalchunks, startchunk, endchunk.
  rewrite (int32_small (sliceoffset q + _ - 1)) by lia. rewrite !uwrap_small by lia.
  rewrite !int32_small by lia. done.
Qed.

(** Where the wanted part of a chunk lies in the value. *)
Definition part_from (q : SliceRequest) (c : Z) : Z := Z.max (sliceoffset q) (c * CH).
Definition part_to (q : SliceRequest) (c : Z) : Z := Z.min (sliceoffset q + slicelength q) ((c + 1) * CH).

Lemma chunk_geometry q c : request_ok q -> startchunk q <= c <= endchunk q ->
  0 <= c < totalchunks q
  /\ sliceoffset q <= part_from q c < part_to q c
  /\ part_to q c <= sliceoffset q + slicelength q
  /\ c * CH <= part_from q c /\ part_to q c <= c * CH + expected_size q c
  /\ 0 < expected_size q c <= CH /\ expected_size q c = Z.min CH (attrsize q - c * CH)
  /\ chunk_part q c (expected_size q c) = (part_from q c - c * CH, part_to q c - 1 - c * CH).
Proof.
  intros Hq Hc. pose proof (request_chunks q Hq) as (Et & Es & Ee). pose proof chunk_size_range as HCH.
  destruct Hq as [H1 H2 H3 H4 _].
  pose proof (quotient_range (attrsize q - 1) ltac:(lia)) as (Q1 & Q2 & _).
  pose proof (quotient_range (sliceoffset q) ltac:(lia)) as (Q3 & Q4 & Q5).
  pose proof (quotient_range (sliceoffset q + slicelength q - 1) ltac:(lia)) as (Q6 & Q7 & Q8).
  assert (Hce : c <= (attrsize q - 1) / CH).
  { transitivity (endchunk q); [lia|]. rewrite Ee. apply Z.div_le_mono; lia. }
  assert (Hex : expected_size q c = if c <? totalchunks q - 1 then CH else attrsize q - (totalchunks q - 1) * CH).
  { unfold expected_size. rewrite Et. replace ((attrsize q - 1) / CH + 1 - 1) with ((attrsize q - 1) / CH) by lia.
    destruct (c <? _); [by rewrite int32_small by lia|]. rewrite (uwrap_small 64 (_ * _)) by nia.
    rewrite uwrap_small by nia. by rewrite int32_small by nia. }
  rewrite Es, Ee in Hc.
  assert (Hlast : c <? totalchunks q - 1 = false -> c = (attrsize q - 1) / CH)
    by (intros ?%Z.ltb_ge; lia).
  unfold part_from, part_to.
  assert (Hmul : (sliceoffset q / CH) * CH <= c * CH <= ((sliceoffset q + slicelength q - 1) / CH) * CH)
    by (split; apply Z.mul_le_mono_nonneg_r; lia).
  assert (Hexr : 0 < expected_size q c <= CH /\ c * CH + expected_size q c <= attrsize q
    /\ (c * CH + expected_size q c = attrsize q \/ expected_size q c = CH)).
  { rewrite Hex. destruct (c <? totalchunks q - 1) eqn:El; [apply Z.ltb_lt in El|].
    - assert ((c + 1) * CH <= ((attrsize q - 1) / CH) * CH) by (apply Z.mul_le_mono_nonneg_r; lia). lia.
    - specialize (Hlast eq_refl). rewrite Et. subst c. lia. }
  split_and!; try lia.
  unfold chunk_part. rewrite Es, Ee. rewrite (int32_small (sliceoffset q + _ - 1)) by lia.
  rewrite uwrap_small, Q5, Q8 by lia. f_equal.
  - destruct (Z.eqb_spec c (sliceoffset q / CH)) as [->|]; [lia|].
    assert ((sliceoffset q / CH + 1) * CH <= c * CH) by (apply Z.mul_le_mono_nonneg_r; lia). lia.
  - destruct (Z.eqb_spec c ((sliceoffset q + slicelength q - 1) / CH)) as [->|]; [lia|].
    assert ((c + 1) * CH <= ((sliceoffset q + slicelength q - 1) / CH) * CH)
      by (apply Z.mul_le_mono_nonneg_r; lia). lia.
Qed.

(** ** One chunk *)

(** The keys structure at [keys] has the key [k]. *)
Definition keys_at (keys : nat) (k : list Z) (s : TdeState) : Prop :=
  exists d, keys_store s !! keys = Some d /\ keys_ready d k.

Lemma crypt_wp keys k off data (n : Z) out s (Q : list Z -> TdeState -> Prop) :
  keys_at keys k s -> crypt_bounds off n -> n = Z.of_nat (length data) -> n <= Z.of_nat (length out) ->
  (forall s', keys_at keys k s' -> tde_rel_keys_map s' = tde_rel_keys_map s ->
     Q (stream_xor k off data ++ drop (Z.to_nat n) out) s') ->
  wp (with_keys keys (pg_tde_crypt g off data n out)) Q s.
Proof.
  intros (d & Hst & Hr) Hb Hn Ho HQ.
  destruct (pg_tde_crypt_spec g k off n data out d Hg Hr Hb ltac:(lia) Ho) as (d' & E & Hr' & _).
  rewrite take_ge in E by lia. eapply wp_of_run; [by eapply with_keys_Ret|]. apply HQ; [|done].
  exists d'. split; [|done]. cbn. apply list_lookup_insert_eq. by eapply lookup_lt_Some.
Qed.

(** The bytes [l] of the stored value from position [p] on, as the fetch
    decrypts them for its result. *)
Definition unmask (k : list Z) (q : SliceRequest) (p : Z) (l : list Z) : list Z :=
  if res_compressed q then
    if p =? 0 then take (Z.to_nat HDR) l ++ stream_xor k 0 (drop (Z.to_nat HDR) l)
    else stream_xor k (p - HDR) l
  else stream_xor k (p - sliceoffset q) l.

Lemma length_unmask k q p l : length (unmask k q p l) = length l.
Proof.
  unfold unmask. destruct (res_compressed q), (p =? 0); rewrite ?length_app, ?length_stream_xor;
    rewrite <- ?length_app, ?take_drop; done.
Qed.

Lemma unmask_app k q p x y : 0 <= p ->
  (res_compressed q = true -> p = 0 -> HDR <= Z.of_nat (length x)) -> (x <> [] \/ y = []) ->
  unmask k q p (x ++ y) = unmask k q p x ++ unmask k q (p + Z.of_nat (length x)) y.
Proof.
  intros Hp Hx Hne. pose proof compress_header_range as HH. unfold unmask. destruct (res_compressed q).
  - destruct (Z.eqb_spec p 0) as [->|Hp0].
    + specialize (Hx eq_refl eq_refl). rewrite take_app_le, drop_app_le, stream_xor_app by lia.
      rewrite <- app_assoc. do 2 f_equal. rewrite length_drop.
      destruct (Z.eqb_spec (0 + Z.of_nat (length x)) 0) as [E|E].
      * destruct Hne as [Hne| ->]; [|by rewrite take_nil, drop_nil]. destruct x; [done|cbn in E; lia].
      * f_equal. lia.
    + rewrite stream_xor_app. rewrite (proj2 (Z.eqb_neq (p + _) 0)) by lia. do 2 f_equal. lia.
  - rewrite stream_xor_app. do 2 f_equal. lia.
Qed.

(** The wanted part of a chunk. *)
Definition wanted (q : SliceRequest) (c : Z) (chunkdata : list Z) : list Z :=
  take (Z.to_nat (part_to q c - part_from q c)) (drop (Z.to_nat (part_from q c - c * CH)) chunkdata).

Lemma decrypt_copy_wp keys k chunkdata st size off dest result s (Q : list Z -> TdeState -> Prop) :
  keys_at keys k s -> 0 <= st -> 0 <= size <= CH -> st + size <= Z.of_nat (length chunkdata) ->
  0 <= off < 2 ^ 30 -> 0 <= dest -> dest + size <= Z.of_nat (length result) ->
  (forall s', keys_at keys k s' ->
     Q (splice result (Z.to_nat dest)
          (stream_xor k off (take (Z.to_nat size) (drop (Z.to_nat st) chunkdata)))) s') ->
  wp (let* encrypted := defined (rd_bytes chunkdata st (u32 size)) in
      let* decrypted_data := with_keys keys
        (pg_tde_crypt g off encrypted (u32 size) (replicate (Z.to_nat CH) 0)) in
      let* bytes := defined (rd_bytes decrypted_data 0 (u64 size)) in
      defined (wr_bytes result dest bytes)) Q s.
Proof.
  intros Hk Hst Hsize Hend Hoff Hdest Hfit HQ. pose proof chunk_size_range as HCH.
  rewrite !uwrap_small by lia. rewrite rd_bytes_Some by lia. set (data := take _ _).
  assert (Hd : length data = Z.to_nat size) by (unfold data; rewrite length_take, length_drop; lia).
  apply wp_bind, wp_ret, wp_bind. apply (crypt_wp _ k); [done|unfold crypt_bounds; lia|lia| |].
  { rewrite length_replicate. lia. }
  intros s' Hk' _. set (enc := stream_xor k off data).
  assert (He : length enc = Z.to_nat size) by (unfold enc; by rewrite length_stream_xor).
  assert (Hrd : rd_bytes (enc ++ drop (Z.to_nat size) (replicate (Z.to_nat CH) 0)) 0 size = Some enc).
  { rewrite rd_bytes_Some; [|lia|lia|rewrite length_app; lia].
    change (Z.to_nat 0) with 0%nat. by rewrite drop_0, take_app_length' by done. }
  rewrite Hrd. apply wp_bind, wp_ret. rewrite wr_bytes_Some by lia. apply wp_ret. by apply HQ.
Qed.

Lemma uwrap_uwrap_add w x y : uwrap w (uwrap w x + y) = uwrap w (x + y).
Proof. unfold uwrap. apply Zplus_mod_idemp_l. Qed.

Lemma copy_chunk_wp keys k q c chunkdata result s (Q : list Z -> TdeState -> Prop) :
  request_ok q -> startchunk q <= c <= endchunk q ->
  Z.of_nat (length chunkdata) = expected_size q c -> slicelength q <= Z.of_nat (length result) ->
  keys_at keys k s ->
  (forall s', keys_at keys k s' ->
     Q (splice result (Z.to_nat (part_from q c - sliceoffset q))
          (unmask k q (part_from q c) (wanted q c chunkdata))) s') ->
  wp (copy_chunk g keys q c chunkdata result) Q s.
Proof.
  intros Hq Hc Hlen Hres Hk HQ.
  destruct (chunk_geometry q c Hq Hc) as (Hc0 & Hfrom & Hto & Hlow & Hhigh & Hsz & _ & Hpart).
  pose proof chunk_size_range as HCH. pose proof compress_header_range as HHDR.
  unfold copy_chunk. rewrite Hlen, Hpart. set (a := part_from q c) in *. set (b := part_to q c) in *.
  assert (Ha : a = Z.max (sliceoffset q) (c * CH)) by done.
  assert (Hb : b = Z.min (sliceoffset q + slicelength q) ((c + 1) * CH)) by done.
  pose proof (ro_attr q Hq). pose proof (ro_off q Hq). pose proof (ro_within q Hq).
  assert (Hcc : 0 <= c * CH) by (apply Z.mul_nonneg_nonneg; lia).
  unfold unmask in HQ. destruct (res_compressed q) eqn:Ecmp; [destruct (ro_compressed q Hq Ecmp) as [Hso Hn]|].
  2:{ apply wp_bind, wp_ret. cbv beta iota. rewrite !uwrap_uwrap_add.
    replace (c * CH - sliceoffset q + (a - c * CH)) with (a - sliceoffset q) by lia.
    rewrite (uwrap_small 64 (a - sliceoffset q)) by lia.
    replace (b - 1 - c * CH - (a - c * CH) + 1) with (b - a) by lia.
    apply (decrypt_copy_wp _ k); [done|lia|lia|lia|lia|lia|lia|]. by apply HQ. }
  rewrite Hso in *. destruct (Z.eqb_spec c 0) as [->|Hc1].
  - assert (Ha0 : a = 0) by lia. rewrite Ha0 in *. cbn [Z.eqb] in HQ.
    replace (0 - 0 * CH) with 0 by lia. rewrite rd_bytes_Some by lia.
    apply wp_bind, wp_bind, wp_ret, wp_bind. change (Z.to_nat 0) with 0%nat in *. rewrite drop_0 in *.
    rewrite wr_bytes_Some by (rewrite ?length_take; lia). apply wp_ret, wp_ret. cbv beta iota.
    rewrite !uwrap_uwrap_add. assert (E0 : 0 * CH - 0 + 0 = 0) by lia. rewrite E0. replace (0 * CH - 0 + (0 + HDR)) with HDR by lia.
    rewrite (uwrap_small 64 0), (uwrap_small 64 HDR) by lia.
    replace (b - 1 - 0 * CH - (0 + HDR) + 1) with (b - HDR) by lia.
    apply (decrypt_copy_wp _ k); [done|lia|lia|lia|lia|lia| |].
    { rewrite length_splice; [lia|]. rewrite length_take. lia. }
    intros s' Hk'. specialize (HQ s' Hk'). cbn [app] in HQ.
    replace (splice (splice result (Z.to_nat 0) _) _ _) with
      (splice result (Z.to_nat (0 - 0)) (take (Z.to_nat HDR) (wanted q 0 chunkdata)
         ++ stream_xor k 0 (drop (Z.to_nat HDR) (wanted q 0 chunkdata)))); [done|].
    unfold wanted. fold a b. rewrite Ha0. replace (Z.to_nat (0 - 0 * CH)) with 0%nat by lia. rewrite drop_0.
    rewrite take_take. replace (Z.to_nat HDR `min` Z.to_nat (b - 0))%nat with (Z.to_nat HDR) by lia.
    replace (Z.to_nat (b - 0)) with (Z.to_nat (0 + HDR) + Z.to_nat (b - HDR))%nat by lia.
    rewrite <- take_drop_commute. rewrite <- splice_adjacent by (rewrite length_take; lia).
    change (Z.to_nat (0 - 0)) with 0%nat. f_equal. rewrite length_take. lia.
  - assert (Hac : a = c * CH) by lia. rewrite (proj2 (Z.eqb_neq a 0)) in HQ by nia.
    apply wp_bind, wp_ret. cbv beta iota. rewrite !uwrap_uwrap_add.
    replace (c * CH - 0 + (a - c * CH - HDR)) with (a - HDR) by lia.
    replace (c * CH - 0 + (a - c * CH)) with (a - 0) by lia.
    assert (CH <= c * CH) by nia.
    rewrite (uwrap_small 64 (a - HDR)), (uwrap_small 64 (a - 0)) by lia.
    replace (b - 1 - c * CH - (a - c * CH) + 1) with (b - a) by lia.
    apply (decrypt_copy_wp _ k); [done|lia|lia|lia|lia|lia|lia|]. by apply HQ.
Qed.

(** ** The loop *)

Definition datum_bytes (d : ChunkDatum) : option (list Z) :=
  match d with Chunk4B l | ChunkShort l => Some l | ChunkToasted => None end.

Lemma fetch_loop_cons keys q row rows e result chunkdata :
  datum_bytes (chunk_data row) = Some chunkdata ->
  fetch_loop g keys q (row :: rows) e result =
    if negb (chunk_seq row =? e) then raise ERROR
    else if endchunk q <? chunk_seq row then raise ERROR
    else if negb (Z.of_nat (length chunkdata) =? expected_size q (chunk_seq row)) then raise ERROR
    else let* result := copy_chunk g keys q (chunk_seq row) chunkdata result in
         fetch_loop g keys q rows (int32 (e + 1)) result.
Proof. cbn [fetch_loop]. by destruct (chunk_data row); intros [= ->]. Qed.

Lemma endchunk_range q : request_ok q -> 0 <= startchunk q <= endchunk q /\ endchunk q < 2 ^ 30.
Proof.
  intros Hq. pose proof (request_chunks q Hq) as (_ & Es & Ee). pose proof chunk_size_range.
  destruct Hq as [H1 H2 H3 H4 _].
  pose proof (quotient_range (sliceoffset q) ltac:(lia)) as (Q1 & _).
  pose proof (quotient_range (sliceoffset q + slicelength q - 1) ltac:(lia)) as (Q2 & _).
  assert (sliceoffset q / CH <= (sliceoffset q + slicelength q - 1) / CH) by (apply Z.div_le_mono; lia).
  lia.
Qed.

Lemma part_length q c chunkdata : request_ok q -> startchunk q <= c <= endchunk q ->
  Z.of_nat (length chunkdata) = expected_size q c ->
  Z.of_nat (length (wanted q c chunkdata)) = part_to q c - part_from q c.
Proof.
  intros Hq Hc Hlen. destruct (chunk_geometry q c Hq Hc) as (_ & Hfrom & _ & Hlow & Hhigh & _).
  unfold wanted. rewrite length_take, length_drop. lia.
Qed.

(** Whatever the rows are: a result or an error, never out of bounds. *)
Lemma fetch_loop_safe keys k q rows : request_ok q -> forall e result s,
  startchunk q <= e <= endchunk q + 1 -> slicelength q <= Z.of_nat (length result) -> keys_at keys k s ->
  exists r s', fetch_loop g keys q rows e result s = (r, s')
    /\ (r = Raise ERROR \/ exists e' result', r = Ret (e', result') /\ length result' = length result).
Proof.
  intros Hq. pose proof (endchunk_range q Hq) as Her. pose proof (ro_within q Hq).
  induction rows as [|row rows IH]; intros e result s He Hres Hk.
  { do 2 eexists. split; [done|]. right. by do 2 eexists. }
  destruct (datum_bytes (chunk_data row)) as [chunkdata|] eqn:Ed.
  2:{ cbn [fetch_loop]. destruct (chunk_data row); [done..|]. do 2 eexists. split; [done|by left]. }
  rewrite (fetch_loop_cons _ _ _ _ _ _ chunkdata) by done.
  destruct (Z.eqb_spec (chunk_seq row) e) as [->|]; cbn [negb]; [|do 2 eexists; split; [done|by left]].
  destruct (Z.ltb_spec (endchunk q) e); [do 2 eexists; split; [done|by left]|].
  destruct (Z.eqb_spec (Z.of_nat (length chunkdata)) (expected_size q e)) as [Hlen|]; cbn [negb];
    [|do 2 eexists; split; [done|by left]].
  assert (Hcp : wp (copy_chunk g keys q e chunkdata result)
    (fun result' s' => keys_at keys k s' /\ length result' = length result) s).
  { apply (copy_chunk_wp keys k); [done|lia|done|done|done|]. intros s' Hk'. split; [done|].
    pose proof (part_length q e chunkdata Hq ltac:(lia) Hlen).
    destruct (chunk_geometry q e Hq ltac:(lia)) as (_ & Hfrom & Hto & _).
    apply length_splice. rewrite length_unmask. lia. }
  destruct (wp_run _ _ _ Hcp) as (result' & s1 & E & Hk1 & Hl1). mstep E.
  rewrite int32_small by lia. destruct (IH (e + 1) result' s1) as (r & s2 & Er & Hr); [lia|lia|done|].
  exists r, s2. split; [done|]. by rewrite Hl1 in Hr.
Qed.

(** A row with chunk [c] of the stored bytes. *)
Definition row_holds (valueid : Z) (stored : list Z) (c : Z) (row : ToastRow) : Prop :=
  chunk_id row = valueid /\ chunk_seq row = c
  /\ datum_bytes (chunk_data row) = Some (take (Z.to_nat CH) (drop (Z.to_nat (c * CH)) stored)).

Lemma splice_prefix (pre post seg : list Z) :
  splice (pre ++ post) (length pre) seg = (pre ++ seg) ++ drop (length seg) post.
Proof.
  unfold splice. rewrite take_app_length, drop_app, <- app_assoc. do 2 f_equal.
  rewrite drop_ge by lia. cbn. f_equal. lia.
Qed.

(** How far the result has come when chunk [c] is next. *)
Definition reached (q : SliceRequest) (c : Z) : Z :=
  Z.min (sliceoffset q + slicelength q) (Z.max (sliceoffset q) (c * CH)).

Lemma reached_part q c : request_ok q -> startchunk q <= c <= endchunk q ->
  reached q c = part_from q c /\ reached q (c + 1) = part_to q c.
Proof.
  intros Hq Hc. destruct (chunk_geometry q c Hq Hc) as (_ & Hfrom & Hto & _).
  unfold reached, part_from, part_to in *. split; lia.
Qed.

Lemma sub_of_take {A} (n i m : nat) (l : list A) : (n + i <= m)%nat ->
  take n (drop i (take m l)) = take n (drop i l).
Proof. intros H. rewrite !take_drop_commute, take_take. do 2 f_equal. lia. Qed.

Lemma wanted_stored q c (stored : list Z) : request_ok q -> startchunk q <= c <= endchunk q ->
  wanted q c (take (Z.to_nat CH) (drop (Z.to_nat (c * CH)) stored))
  = take (Z.to_nat (reached q (c + 1) - reached q c)) (drop (Z.to_nat (reached q c)) stored).
Proof.
  intros Hq Hc. destruct (reached_part q c Hq Hc) as [-> ->].
  destruct (chunk_geometry q c Hq Hc) as (_ & Hfrom & _ & Hlow & Hhigh & Hsz & _).
  pose proof chunk_size_range. assert (0 <= c * CH).
  { apply Z.mul_nonneg_nonneg; [|lia]. pose proof (endchunk_range q Hq). lia. }
  unfold wanted. rewrite sub_of_take by lia. rewrite drop_drop. do 2 f_equal. lia.
Qed.

Lemma chunk_length q c (stored : list Z) : request_ok q -> startchunk q <= c <= endchunk q ->
  Z.of_nat (length stored) = attrsize q ->
  Z.of_nat (length (take (Z.to_nat CH) (drop (Z.to_nat (c * CH)) stored))) = expected_size q c.
Proof.
  intros Hq Hc Hlen. destruct (chunk_geometry q c Hq Hc) as (Hc0 & _ & _ & _ & _ & Hsz & Hex & _).
  pose proof chunk_size_range. assert (0 <= c * CH) by (apply Z.mul_nonneg_nonneg; lia).
  rewrite length_take, length_drop. lia.
Qed.

(** The slice from where the result has come to. *)
Definition left_of (q : SliceRequest) (stored : list Z) (c : Z) : list Z :=
  take (Z.to_nat (sliceoffset q + slicelength q - reached q c)) (drop (Z.to_nat (reached q c)) stored).

Lemma left_of_step q stored c : request_ok q -> startchunk q <= c <= endchunk q ->
  left_of q stored c = wanted q c (take (Z.to_nat CH) (drop (Z.to_nat (c * CH)) stored))
                       ++ left_of q stored (c + 1).
Proof.
  intros Hq Hc. rewrite wanted_stored by done. unfold left_of.
  destruct (reached_part q c Hq Hc) as [E1 E2]. destruct (chunk_geometry q c Hq Hc) as (_ & Hfrom & Hto & _).
  pose proof (ro_off q Hq). set (a := reached q c) in *. set (b := reached q (c + 1)) in *.
  replace (Z.to_nat (sliceoffset q + slicelength q - a))
    with (Z.to_nat (b - a) + Z.to_nat (sliceoffset q + slicelength q - b))%nat by lia.
  rewrite <- (take_drop (Z.to_nat (b - a)) (take (_ + _) _)), take_take. f_equal; [f_equal; lia|].
  rewrite <- take_drop_commute, drop_drop. do 2 f_equal. lia.
Qed.

Lemma unmask_nil k q p : unmask k q p [] = [].
Proof. apply nil_length_inv. by rewrite length_unmask. Qed.

Lemma reached_end q : request_ok q -> part_to q (endchunk q) = sliceoffset q + slicelength q.
Proof.
  intros Hq. pose proof (request_chunks q Hq) as (_ & _ & Ee). pose proof chunk_size_range.
  destruct Hq as [H1 H2 H3 H4 _].
  pose proof (quotient_range (sliceoffset q + slicelength q - 1) ltac:(lia)) as (_ & Q & _).
  unfold part_to. rewrite Ee. lia.
Qed.

Lemma fetch_loop_wp keys k q valueid stored : request_ok q -> Z.of_nat (length stored) = attrsize q ->
  forall rows c pre post s (Q : Z * list Z -> TdeState -> Prop),
  startchunk q <= c <= endchunk q + 1 ->
  Forall2 (row_holds valueid stored) (seqZ c (endchunk q + 1 - c)) rows ->
  Z.of_nat (length pre) = reached q c - sliceoffset q ->
  slicelength q <= Z.of_nat (length pre + length post) -> keys_at keys k s ->
  (forall s', keys_at keys k s' ->
     Q (endchunk q + 1,
        pre ++ unmask k q (reached q c) (left_of q stored c)
        ++ drop (length (left_of q stored c)) post) s') ->
  wp (fetch_loop g keys q rows c (pre ++ post)) Q s.
Proof.
  intros Hq Hlen. pose proof (endchunk_range q Hq) as Her. pose proof compress_header_range as HHDR.
  induction rows as [|row rows IH]; intros c pre post s Q Hc Hrows Hpre Hfit Hk HQ.
  - assert (Hend : c = endchunk q + 1).
    { destruct (decide (c = endchunk q + 1)) as [|Hne]; [done|].
      rewrite (seqZ_cons c) in Hrows by lia. inversion Hrows. }
    cbn [fetch_loop]. apply wp_ret. specialize (HQ s Hk). rewrite Hend in HQ |- *.
    assert (Hl : left_of q stored (endchunk q + 1) = []).
    { assert (Hee : startchunk q <= endchunk q <= endchunk q) by lia.
      unfold left_of. destruct (reached_part q (endchunk q) Hq Hee) as [_ ->].
      by rewrite (reached_end q Hq), Z.sub_diag. }
    rewrite Hl in HQ. by rewrite unmask_nil in HQ.
  - assert (Hend : c <= endchunk q).
    { destruct (decide (c = endchunk q + 1)) as [->|]; [|lia].
      rewrite Z.sub_diag in Hrows. inversion Hrows. }
    rewrite (seqZ_cons c) in Hrows by lia. apply Forall2_cons in Hrows as [(Hid & Hseq & Hd) Hrows].
    replace (Z.pred (endchunk q + 1 - c)) with (endchunk q + 1 - (c + 1)) in Hrows by lia.
    change (Z.succ c) with (c + 1) in Hrows.
    rewrite (fetch_loop_cons _ _ _ _ _ _ _ Hd). rewrite Hseq, Z.eqb_refl. cbn [negb].
    rewrite (proj2 (Z.ltb_ge _ _)) by lia.
    rewrite (chunk_length q c stored Hq ltac:(lia) Hlen), Z.eqb_refl. cbn [negb].
    apply wp_bind. apply (copy_chunk_wp keys k); [done|lia|by apply chunk_length; [|lia|]| |done|].
    { rewrite length_app. lia. }
    intros s1 Hk1. set (seg := wanted q c _).
    destruct (reached_part q c Hq ltac:(lia)) as [Er1 Er2].
    destruct (chunk_geometry q c Hq ltac:(lia)) as (_ & Hfrom & Hto & _).
    assert (Hseg : Z.of_nat (length seg) = reached q (c + 1) - reached q c).
    { rewrite Er1, Er2. apply part_length; [done|lia|]. by apply chunk_length; [|lia|]. }
    replace (Z.to_nat (part_from q c - sliceoffset q)) with (length pre) by lia.
    rewrite splice_prefix, length_unmask. rewrite int32_small by lia.
    apply IH; [lia|done| | |done|].
    + rewrite length_app, length_unmask. lia.
    + rewrite length_app, length_unmask, length_drop. lia.
    + intros s2 Hk2. specialize (HQ s2 Hk2). rewrite (left_of_step q stored c Hq ltac:(lia)) in HQ.
      fold seg in HQ. rewrite unmask_app in HQ; [| | |].
      * rewrite length_app in HQ. rewrite drop_drop, <- app_assoc. rewrite <- app_assoc in HQ.
        replace (reached q c + Z.of_nat (length seg)) with (reached q (c + 1)) in HQ by lia.
        rewrite <- Er1. exact HQ.
      * pose proof (ro_off q Hq). lia.
      * intros Ecmp E0. destruct (ro_compressed q Hq Ecmp) as [Hso Hn].
        rewrite Hseg, Er2, E0. unfold part_to. unfold reached in E0. pose proof chunk_size_range. nia.
      * left. intros E0. rewrite E0 in Hseg. cbn in Hseg. lia.
Qed.
End props.
