(* ===== verification/ToastClaims.v ===== *)
(** What the TOAST code promises and where it does not keep it: whole values
    come back, slices from the middle do not, and no row can make the fetch
    write outside its result.  [ToyToast] has chunks of 4 bytes. *)
From S2P Require Import Prelude EncAes RelKeys EncTuple KeyringTypes KeyringApi KeyringClaims XactHandler TdeMap TdeClaims TupleIO Prune PruneClaims Toast ToastProps.

Section server.
Context `{HP : PgBlockSize} `{HM : PageMacros} `{HTM : ToastMacros}.

(** What the server stores of a value: for compressed ones with the
    compression header. *)
Definition payload (v : Varlena) : list Z :=
  match v with VarShort d | VarPlain d => d | VarCompressed tcinfo d => tcinfo ++ d end.

Definition var_compressed (v : Varlena) : bool :=
  match v with VarCompressed _ _ => true | _ => false end.

(** toast_save_datum: the chunks of the value under an id of its own. *)
Class ToastServerLaws `{ToastServer} := {
  externalize_stores table v valueid table' :
    toast_tuple_externalize table v = (valueid, table') -> payload v <> [] ->
    Forall2 (row_holds valueid (payload v))
      (seqZ 0 ((Z.of_nat (length (payload v)) - 1) / TOAST_MAX_CHUNK_SIZE + 1))
      (filter (fun r => chunk_id r = valueid) table');
}.
End server.

Section claims.
Context `{HE : EVP} `{HS : CIntShift} `{HL : !EVPLaws}.
Context `{HJ : Json} `{HB : Base64} `{HC : Curl} `{HF : KeyringFs}.
Context `{HT : TdeEnv} `{HP : PgBlockSize} `{HM : PageMacros}.
Context `{HTM : ToastMacros} `{HTL : !ToastMacrosLaws} `{HTS : ToastServer} `{HTSL : !ToastServerLaws}.
Variable g : AesGlobals.

Local Abbreviation CH := TOAST_MAX_CHUNK_SIZE.

(** ** The scan *)

Lemma filter_none {A} (P : A -> Prop) `{!forall c, Decision (P c)} (l : list A) :
  (forall c, c ∈ l -> ~ P c) -> filter P l = [].
Proof.
  induction l as [|c l IH]; intros Hn; [done|]. rewrite filter_cons_False by (apply Hn; by left).
  apply IH. intros c' Hc. apply Hn. by right.
Qed.

Lemma filter_every {A} (P : A -> Prop) `{!forall c, Decision (P c)} (l : list A) :
  (forall c, c ∈ l -> P c) -> filter P l = l.
Proof.
  induction l as [|c l IH]; intros Hn; [done|]. rewrite filter_cons_True by (apply Hn; by left).
  f_equal. apply IH. intros c' Hc. apply Hn. by right.
Qed.

Lemma filter_seqZ (a b n : Z) : 0 <= a -> a <= b + 1 -> b < n ->
  filter (fun c => a <= c <= b) (seqZ 0 n) = seqZ a (b + 1 - a).
Proof.
  intros Ha Hab Hb. replace n with (a + ((b + 1 - a) + (n - b - 1))) by lia.
  rewrite seqZ_app, seqZ_app, !filter_app by lia. rewrite (filter_none _ (seqZ 0 a)).
  2:{ intros c Hc%elem_of_seqZ. lia. }
  rewrite (filter_none _ (seqZ (0 + a + (b + 1 - a)) _)).
  2:{ intros c Hc%elem_of_seqZ. lia. }
  rewrite filter_every; [by rewrite app_nil_r|]. intros c Hc%elem_of_seqZ. lia.
Qed.

Lemma scan_row_range q valueid row : chunk_id row = valueid -> startchunk q <= endchunk q ->
  0 <= chunk_seq row < totalchunks q ->
  scan_row q valueid row = true <-> startchunk q <= chunk_seq row <= endchunk q.
Proof.
  intros Hid Hr Hs. unfold scan_row. rewrite (proj2 (Z.eqb_eq _ _) Hid). cbn [andb].
  destruct ((startchunk q =? 0) && (endchunk q =? totalchunks q - 1)) eqn:E1.
  - apply andb_true_iff in E1. rewrite !Z.eqb_eq in E1. split; [lia|done].
  - destruct (Z.eqb_spec (startchunk q) (endchunk q)); rewrite ?andb_true_iff, ?Z.eqb_eq, ?Z.leb_le; lia.
Qed.

Lemma filter_rows q valueid stored cs rows : startchunk q <= endchunk q ->
  Forall2 (row_holds valueid stored) cs rows -> (forall c, c ∈ cs -> 0 <= c < totalchunks q) ->
  Forall2 (row_holds valueid stored) (filter (fun c => startchunk q <= c <= endchunk q) cs)
    (filter (fun r => scan_row q valueid r = true) rows).
Proof.
  intros Hr. induction 1 as [|c r cs rows Hrow _ IH]; intros Hcs; [constructor|].
  pose proof Hrow as (Hid & Hseq & _). rewrite !filter_cons.
  assert (Hs : scan_row q valueid r = true <-> startchunk q <= c <= endchunk q).
  { rewrite <- Hseq. apply scan_row_range; [done|done|]. rewrite Hseq. apply Hcs. by left. }
  specialize (IH (fun c' Hc => Hcs c' (list_elem_of_further _ _ _ Hc))).
  do 2 case_decide; try tauto. by constructor.
Qed.

Lemma scan_rows q valueid stored table : request_ok q -> Z.of_nat (length stored) = attrsize q ->
  Forall2 (row_holds valueid stored) (seqZ 0 (totalchunks q)) (filter (fun r => chunk_id r = valueid) table) ->
  Forall2 (row_holds valueid stored) (seqZ (startchunk q) (endchunk q + 1 - startchunk q))
    (filter (fun r => scan_row q valueid r = true) table).
Proof.
  intros Hq Hlen Hrows. pose proof (endchunk_range q Hq) as [Hr _].
  assert (Hee : startchunk q <= endchunk q <= endchunk q) by lia.
  destruct (chunk_geometry q (endchunk q) Hq Hee) as (Hend & _).
  rewrite <- (list_filter_filter_l _ (fun r => chunk_id r = valueid)).
  2:{ intros r E. unfold scan_row in E. by apply andb_true_iff in E as [E%Z.eqb_eq _]. }
  rewrite <- (filter_seqZ _ _ (totalchunks q)) by lia.
  apply filter_rows; [lia|done|]. intros c Hc%elem_of_seqZ. lia.
Qed.

(** ** Storing and fetching *)

(** The value encrypted, as it is left in memory and stored. *)
Definition encrypted (k : list Z) (v : Varlena) : Varlena := with_data (stream_xor k 0 (var_data v)) v.

Lemma externalize_wp toastrel k a v (s : ToastState) : aes_initialized g ->
  rel_keys_ready (toast_tde s) toastrel k -> datums s !! a = Some v ->
  Z.of_nat (length (var_data v)) < 2 ^ 30 ->
  wp (pg_tde_toast_tuple_externalize g toastrel a)
    (fun valueid s' => datums s' = <[a := encrypted k v]> (datums s)
       /\ toast_tuple_externalize (toast_table s) (encrypted k v) = (valueid, toast_table s')
       /\ rel_keys_ready (toast_tde s') toastrel k) s.
Proof.
  intros Hg (ptr & d & Hscan & Hst & Hr) Ha Hlen. unfold pg_tde_toast_tuple_externalize, on_tde.
  apply wp_bind, wp_zoom. eapply wp_of_run; [by apply GetRelationKeys_cached|].
  apply wp_bind, wp_get, wp_bind. apply (wp_defined _ v); [done|]. apply wp_bind, wp_zoom.
  apply (crypt_wp g Hg ptr k); [by exists d|unfold crypt_bounds; lia|done|by rewrite length_replicate|].
  intros t (d' & Hst' & Hr') Hmap. rewrite drop_ge, app_nil_r by (rewrite length_replicate; lia).
  apply wp_bind, wp_modify, wp_bind, wp_get, wp_bind. cbn [datums toast_table].
  apply (wp_defined _ (encrypted k v)); [by rewrite lookup_insert_eq|].
  destruct (toast_tuple_externalize _ _) as [valueid table] eqn:E.
  apply wp_bind, wp_modify, wp_ret. cbn [datums toast_table toast_tde].
  split; [done|]. split; [done|]. exists ptr, d'. by rewrite Hmap.
Qed.

(** What a fetch leaves of a stored value. *)
Lemma fetch_wp toastrel k valueid stored table q result (s : TdeState) : aes_initialized g ->
  rel_keys_ready s toastrel k -> request_ok q -> Z.of_nat (length stored) = attrsize q ->
  slicelength q <= Z.of_nat (length result) ->
  Forall2 (row_holds valueid stored) (seqZ 0 (totalchunks q))
    (filter (fun r => chunk_id r = valueid) table) ->
  wp (pg_tde_fetch_toast_slice g toastrel table valueid q result)
    (fun result' _ => result' =
       unmask k q (sliceoffset q)
         (take (Z.to_nat (slicelength q)) (drop (Z.to_nat (sliceoffset q)) stored))
       ++ drop (Z.to_nat (slicelength q)) result) s.
Proof.
  intros Hg (ptr & d & Hscan & Hst & Hr) Hq Hlen Hfit Hrows. unfold pg_tde_fetch_toast_slice.
  apply wp_bind. eapply wp_of_run; [by apply GetRelationKeys_cached|]. apply wp_bind.
  pose proof (endchunk_range q Hq) as Her. pose proof (ro_within q Hq). pose proof (ro_off q Hq).
  pose proof (ro_len q Hq).
  assert (Hs : reached q (startchunk q) = sliceoffset q).
  { pose proof (request_chunks q Hq) as (_ & -> & _). pose proof (ro_attr q Hq). unfold reached.
    pose proof (quotient_range (sliceoffset q) ltac:(lia)). lia. }
  assert (Hl : left_of q stored (startchunk q)
    = take (Z.to_nat (slicelength q)) (drop (Z.to_nat (sliceoffset q)) stored)).
  { unfold left_of. rewrite Hs. do 2 f_equal. lia. }
  apply (fetch_loop_wp g Hg ptr k q valueid stored Hq Hlen _ _ [] result).
  - lia.
  - replace (endchunk q + 1 - startchunk q) with (endchunk q + 1 - startchunk q) by lia. by apply scan_rows.
  - rewrite Hs. cbn. lia.
  - cbn [length Nat.add]. lia.
  - by exists d.
  - intros s' _. cbv beta iota. rewrite int32_small by lia. rewrite Z.eqb_refl. apply wp_ret.
    rewrite Hl, Hs. cbn [app]. do 2 f_equal. rewrite length_take, length_drop. lia.
Qed.

Lemma payload_encrypted k v : payload (encrypted k v)
  = match v with VarCompressed tcinfo d => tcinfo ++ stream_xor k 0 d | VarShort d | VarPlain d => stream_xor k 0 d end.
Proof. by destruct v. Qed.

Lemma length_payload_encrypted k v : length (payload (encrypted k v)) = length (payload v).
Proof. rewrite payload_encrypted. destruct v; cbn; by rewrite ?length_app, length_stream_xor. Qed.

(** A value to store and a request for a slice of it. *)
Record stored_and_requested (k : list Z) (toastrel : RelFileLocator) (a : nat) (v : Varlena)
    (q : SliceRequest) (result : list Z) (s : ToastState) : Prop := {
  sr_ready : aes_initialized g /\ rel_keys_ready (toast_tde s) toastrel k;
  sr_value : datums s !! a = Some v;
  sr_header : match v with
              | VarCompressed tcinfo _ => Z.of_nat (length tcinfo) = TDE_TOAST_COMPRESS_HEADER_SIZE
              | _ => True
              end;
  sr_request : request_ok q;
  sr_size : attrsize q = Z.of_nat (length (payload v));
  sr_compressed : res_compressed q = var_compressed v;
  sr_fits : slicelength q <= Z.of_nat (length result);
}.

(** Storing a value and fetching a slice of it. *)
Lemma store_fetch k toastrel a v q result (s : ToastState) : stored_and_requested k toastrel a v q result s ->
  exists valueid s1 s2,
    pg_tde_toast_tuple_externalize g toastrel a s = (Ret valueid, s1)
    /\ datums s1 !! a = Some (encrypted k v)
    /\ pg_tde_fetch_toast_slice g toastrel (toast_table s1) valueid q result (toast_tde s1)
       = (Ret (unmask k q (sliceoffset q)
                 (take (Z.to_nat (slicelength q))
                    (drop (Z.to_nat (sliceoffset q)) (payload (encrypted k v))))
               ++ drop (Z.to_nat (slicelength q)) result), s2).
Proof.
  intros [[Hg Hr] Ha _ Hq Hsize _ Hfit].
  pose proof (ro_attr q Hq). pose proof (ro_off q Hq). pose proof (ro_len q Hq). pose proof (ro_within q Hq).
  assert (Hvd : (length (var_data v) <= length (payload v))%nat) by (destruct v; cbn; rewrite ?length_app; lia).
  destruct (wp_run _ _ _ (externalize_wp toastrel k a v s Hg Hr Ha ltac:(lia)))
    as (valueid & s1 & E1 & Hds & Hsrv & Hr1).
  pose proof (length_payload_encrypted k v) as Hle.
  assert (Hne : payload (encrypted k v) <> []) by (intros E; rewrite E in Hle; cbn in Hle; lia).
  pose proof (externalize_stores _ _ _ _ Hsrv Hne) as Hrows.
  rewrite Hle, <- Hsize in Hrows. destruct (request_chunks q Hq) as (Et & _). rewrite <- Et in Hrows.
  assert (Hlen : Z.of_nat (length (payload (encrypted k v))) = attrsize q) by lia.
  destruct (wp_run _ _ _ (fetch_wp toastrel k valueid _ _ q result _ Hg Hr1 Hq Hlen Hfit Hrows))
    as (r & s2 & E2 & ->).
  exists valueid, s1, s2. split; [done|]. split; [|done]. rewrite Hds. by rewrite lookup_insert_eq.
Qed.

(** C12: a value stored out of line comes back.  Externalizing encrypts the
    value where it is in memory and hands it to the server in chunks; the
    fetch of the value, or of any prefix of it (of a compressed one longer
    than its compression header), gives the bytes that were stored, the
    compression header included, and leaves the rest of the result alone. *)
Theorem toast_roundtrip k toastrel a v q result (s : ToastState) :
  stored_and_requested k toastrel a v q result s -> sliceoffset q = 0 ->
  exists valueid s1 s2,
    pg_tde_toast_tuple_externalize g toastrel a s = (Ret valueid, s1)
    /\ datums s1 !! a = Some (encrypted k v)
    /\ pg_tde_fetch_toast_slice g toastrel (toast_table s1) valueid q result (toast_tde s1)
       = (Ret (take (Z.to_nat (slicelength q)) (payload v) ++ drop (Z.to_nat (slicelength q)) result), s2).
Proof.
  intros Hs Hso. destruct (store_fetch _ _ _ _ _ _ _ Hs) as (valueid & s1 & s2 & E1 & Hd & E2).
  exists valueid, s1, s2. split; [done|]. split; [done|]. rewrite E2, Hso. change (Z.to_nat 0) with 0%nat.
  rewrite drop_0, payload_encrypted. do 4 f_equal.
  destruct Hs as [_ _ Hhdr Hq _ Hc _]. pose proof compress_header_range. pose proof (ro_len q Hq).
  unfold unmask. rewrite Hc. destruct v as [d|tcinfo d|d]; cbn [var_compressed Z.eqb payload].
  - by rewrite Hso, <- stream_xor_take, stream_xor_involutive.
  - destruct (ro_compressed q Hq Hc) as [_ Hn].
    rewrite !(take_app_ge tcinfo _ (Z.to_nat (slicelength q))) by lia.
    rewrite take_app_length', drop_app_length' by lia.
    by rewrite <- stream_xor_take, stream_xor_involutive.
  - by rewrite Hso, <- stream_xor_take, stream_xor_involutive.
Qed.

(** a slice from the middle of a value does not come back.  The key
    stream a slice is decrypted with starts at the slice while the one it
    was encrypted with starts at the value: from offset [so] on what is
    returned is the plain text masked with both. *)
Theorem toast_slice_shifted k toastrel a d q result (s : ToastState) :
  stored_and_requested k toastrel a (VarPlain d) q result s ->
  exists valueid s1 s2,
    pg_tde_toast_tuple_externalize g toastrel a s = (Ret valueid, s1)
    /\ pg_tde_fetch_toast_slice g toastrel (toast_table s1) valueid q result (toast_tde s1)
       = (Ret (stream_xor k 0 (stream_xor k (sliceoffset q)
                 (take (Z.to_nat (slicelength q)) (drop (Z.to_nat (sliceoffset q)) d)))
               ++ drop (Z.to_nat (slicelength q)) result), s2).
Proof.
  intros Hs. destruct (store_fetch _ _ _ _ _ _ _ Hs) as (valueid & s1 & s2 & E1 & _ & E2).
  exists valueid, s1, s2. split; [done|]. rewrite E2. do 3 f_equal. destruct Hs as [_ _ _ Hq Hsize Hc _].
  unfold unmask. rewrite Hc, payload_encrypted. cbn [var_compressed].
  pose proof (ro_off q Hq). pose proof (ro_within q Hq). pose proof (ro_len q Hq). cbn [payload] in Hsize.
  rewrite Z.sub_diag, stream_xor_drop, <- stream_xor_take by lia. do 2 f_equal. lia.
Qed.

(** C39: no row can make the fetch misbehave.  Whatever rows the TOAST table
    has, for a request within the value and a result that has the room for
    it, the fetch ends with a result of that size or with an error: the
    checks of sequence numbers and sizes keep every read within its chunk
    and every write within the result. *)
Theorem toast_fetch_safe k toastrel table valueid q result (s : TdeState) :
  aes_initialized g -> rel_keys_ready s toastrel k -> request_ok q ->
  slicelength q <= Z.of_nat (length result) ->
  exists r s', pg_tde_fetch_toast_slice g toastrel table valueid q result s = (r, s')
    /\ (r = Raise ERROR \/ exists result', r = Ret result' /\ length result' = length result).
Proof.
  intros Hg (ptr & d & Hscan & Hst & Hr) Hq Hfit. unfold pg_tde_fetch_toast_slice.
  mstep (GetRelationKeys_cached g toastrel s ptr Hscan). pose proof (endchunk_range q Hq).
  destruct (fetch_loop_safe g Hg ptr k q (filter (fun row => scan_row q valueid row = true) table) Hq
    (startchunk q) result s) as (r & s' & E & Hres); [lia|done|by exists d|].
  unfold bind. rewrite E. destruct Hres as [->|(e & result' & -> & Hl)].
  - do 2 eexists. split; [done|by left].
  - destruct (negb _); do 2 eexists; (split; [done|]); [by left|right; by exists result'].
Qed.
End claims.

Module ToyToast.
Import ToyEVP ToyPage ToyKeyring ToyTde ToyPrune.

#[export] Instance toy_toast_macros : ToastMacros := {|
  MAXALIGN_DOWN z := z / 8 * 8;
  sizeof_Oid := 4;
  VARHDRSZ := 4;
  VARHDRSZ_COMPRESSED := 8;
|}.

Lemma toy_chunk_size : TOAST_MAX_CHUNK_SIZE = 1996.
Proof. reflexivity. Qed.

#[export] Instance toy_toast_laws : ToastMacrosLaws.
Proof. split; rewrite toy_chunk_size; unfold TDE_TOAST_COMPRESS_HEADER_SIZE; cbn; lia. Qed.

(** The chunks of a value. *)
Definition toy_rows (id : Z) (stored : list Z) : list ToastRow :=
  map (fun c => {| chunk_id := id; chunk_seq := c;
                   chunk_data := Chunk4B (take (Z.to_nat TOAST_MAX_CHUNK_SIZE)
                                            (drop (Z.to_nat (c * TOAST_MAX_CHUNK_SIZE)) stored)) |})
    (seqZ 0 ((Z.of_nat (length stored) - 1) / TOAST_MAX_CHUNK_SIZE + 1)).

Definition toy_next_id (table : list ToastRow) : Z := 1 + foldr Z.max 0 (map chunk_id table).

#[export] Instance toy_toast_server : ToastServer := {|
  toast_tuple_externalize table v :=
    (toy_next_id table, table ++ toy_rows (toy_next_id table) (payload v));
|}.

Lemma toy_next_id_fresh table r : r ∈ table -> chunk_id r < toy_next_id table.
Proof.
  unfold toy_next_id. induction table as [|r' table IH]; [by intros ?%elem_of_nil|]. cbn [map foldr].
  intros [->|Hr]%elem_of_cons; [lia|]. specialize (IH Hr). lia.
Qed.

Lemma toy_rows_filter id stored cs (f : Z -> ToastRow) : (forall c, row_holds id stored c (f c)) ->
  Forall2 (row_holds id stored) cs (filter (fun r => chunk_id r = id) (map f cs)).
Proof.
  intros Hf. induction cs as [|c cs IH]; [constructor|]. cbn [map].
  rewrite filter_cons_True by apply Hf. by constructor.
Qed.

#[export] Instance toy_toast_server_laws : ToastServerLaws.
Proof.
  split. intros table v valueid table' E _. injection E as <- <-. rewrite filter_app.
  assert (Hnone : filter (fun r => chunk_id r = toy_next_id table) table = []).
  { apply filter_none. intros r Hr%toy_next_id_fresh. lia. }
  rewrite Hnone. by apply toy_rows_filter.
Qed.

(** A value of two chunks in memory, with cached keys. *)
Definition toast_state (v : Varlena) : ToastState :=
  {| toast_tde := with_map [{| rel_id := 16384; rk_keys := 0 |}]
                    (with_store [toy_keys] (toy_tde_state ks0));
     datums := {[ 0%nat := v ]}; toast_table := [] |}.

Lemma toast_state_ready v : rel_keys_ready (toast_tde (toast_state v)) toy_rel toy_k.
Proof. exists 0%nat, toy_keys. split_and!; [done|done|apply toy_keys_ready]. Qed.
End ToyToast.

Section witnesses.
Import ToyEVP ToyPage ToyKeyring ToyTde ToyPrune ToyToast.

Let text : list Z := map (fun i => Z.of_nat i `mod` 256) (seq 0 2500).
Let compressed : Varlena := VarCompressed [10; 20; 30; 40] text.
Let whole : SliceRequest :=
  {| attrsize := 2504; sliceoffset := 0; slicelength := 2504; res_compressed := true |}.
Let middle : SliceRequest :=
  {| attrsize := 2500; sliceoffset := 3; slicelength := 2100; res_compressed := false |}.

Lemma toast_roundtrip_witness : exists valueid s1 s2,
  pg_tde_toast_tuple_externalize toy_g toy_rel 0 (toast_state compressed) = (Ret valueid, s1)
  /\ datums s1 !! 0%nat = Some (encrypted toy_k compressed)
  /\ pg_tde_fetch_toast_slice toy_g toy_rel (toast_table s1) valueid whole (replicate 2510 7) (toast_tde s1)
     = (Ret ([10; 20; 30; 40] ++ text ++ replicate 6 7), s2).
Proof.
  apply (toast_roundtrip toy_g toy_k toy_rel 0 compressed whole (replicate 2510 7)); [|reflexivity].
  split; try reflexivity.
  - split; [apply toy_g_ready|apply toast_state_ready].
  - split; cbn; try lia. intros _. split; [done|]. by vm_compute.
  - cbn. lia.
Defined.

Lemma toast_slice_shifted_witness : exists valueid s1 s2,
  pg_tde_toast_tuple_externalize toy_g toy_rel 0 (toast_state (VarPlain text)) = (Ret valueid, s1)
  /\ pg_tde_fetch_toast_slice toy_g toy_rel (toast_table s1) valueid middle (replicate 2100 7) (toast_tde s1)
     = (Ret (stream_xor toy_k 0 (stream_xor toy_k 3 (take 2100 (drop 3 text))) ++ []), s2)
  /\ stream_xor toy_k 0 (stream_xor toy_k 3 (take 2100 (drop 3 text))) <> take 2100 (drop 3 text).
Proof.
  destruct (toast_slice_shifted toy_g toy_k toy_rel 0 text middle (replicate 2100 7)
    (toast_state (VarPlain text))) as (valueid & s1 & s2 & E1 & E2).
  { split; try reflexivity.
    - split; [apply toy_g_ready|apply toast_state_ready].
    - split; cbn; done || lia. }
  exists valueid, s1, s2. split; [exact E1|]. split; [exact E2|]. vm_compute. discriminate.
Defined.

(** A table with one row of the right number and the wrong size. *)
Lemma toast_fetch_safe_witness : exists r s',
  pg_tde_fetch_toast_slice toy_g toy_rel [{| chunk_id := 5; chunk_seq := 0; chunk_data := ChunkShort [1; 2] |}]
    5 middle (replicate 2100 7) (toast_tde (toast_state (VarPlain text))) = (r, s')
  /\ (r = Raise ERROR \/ exists result', r = Ret result' /\ length result' = 2100%nat).
Proof.
  apply (toast_fetch_safe toy_g toy_k toy_rel _ 5 middle (replicate 2100 7)).
  - apply toy_g_ready.
  - apply toast_state_ready.
  - split; cbn; done || lia.
  - cbn. lia.
Defined.

(** A page of a TOAST table: the server inserts its rows without encrypting
    them for their places. *)
Definition toast_page (P0 P1 : list Z) : HeapPage :=
  let p := page_of P0 P1 in
  {| pd_lower := pd_lower p; pd_upper := pd_upper p; pd_special := pd_special p;
     pd_linp := pd_linp p; has_free_lines := false;
     page_bytes := splice (splice (replicate (Z.to_nat 8192) 0) (Z.to_nat 8128) P0) (Z.to_nat 8064) P1 |}.

Definition on_toast_page (P0 P1 : list Z) : PruneState :=
  let s := state_of P0 P1 in {| tde := tde s; page := toast_page P0 P1; scratch := scratch s |}.

(** What PGTdeExecStoreBufferHeapTuple gives of the tuple behind a line
    pointer. *)
Definition read_toast (s : PruneState) (i : nat) : option (list Z) :=
  lp ← pd_linp (page s) !! i;
  match PGTdeExecStoreBufferHeapTuple toy_g RELKIND_TOASTVALUE toy_rel 0 3
          {| t_len := lp_len lp; t_at := lp_off lp; t_hoff := 24;
             t_data := take (Z.to_nat (lp_len lp)) (drop (Z.to_nat (lp_off lp)) (page_bytes (page s))) |}
          (tde s) with
  | (Ret t, _) => Some (t_data t)
  | _ => None
  end.

(** compaction garbles the rows of TOAST tables.  Reading a TOAST table
    does not decrypt, for its rows are not encrypted for their places; the
    compaction of a page does not look at the kind of the relation and
    encrypts the row it moves from its old place to its new one. *)
Theorem compaction_garbles_toast_rows :
  let row0 := tuple_of 16 65 in
  let row1 := tuple_of 16 66 in
  let s := on_toast_page row0 row1 in
  let '(r, s') := pgtde_compactify_tuples toy_g toy_rel 3 (item_of 0 8128 40) [item_of 1 8064 40] true s in
  r = Ret tt /\ read_toast s 0 = Some row0 /\ read_toast s 1 = Some row1
  /\ read_toast s' 0 <> Some row0.
Proof. vm_compute. split_and!; try reflexivity; discriminate. Qed.
End witnesses.
