(* ===== verification/HeapToy.v ===== *)
(** Pages whose header fields are cells of their own, for which what the code
    relies on of the page layer holds. *)
From S2P Require Import Prelude EncAes RelKeys EncTuple KeyringTypes KeyringApi XactHandler TdeMap Visibility VisibilityMap VisibilityMapProps VisibilityMapClaims Prune PruneClaims TupleIO TupleBytes.

Module ToyHeap.
Import ToyPage ToyPrune.

#[export] Instance ins_vm : VmEnv := ToyMap.toy_vm.
#[export] Instance ins_vm_laws : VmLaws.
Proof. split; cbn; try done. by intros n; right. Qed.

(** The cells: LSN at 0, the flag at 10, [pd_upper] at 14 (and 15), the
    number of items at 16, their offsets from 24 on. *)
Definition cell (p : list Z) (i : nat) : Z := p !!! i.
Definition items (p : list Z) : Z := cell p 16.

Definition toy_add (p item : list Z) (size off flags : Z) : Z * list Z :=
  let n := items p in
  let u := pd_upper p - MAXALIGN size in
  if (0 <=? n) && (25 + n <=? u) && (pd_upper p <=? 8192) && (0 <? size) && (size =? Z.of_nat (length item))
     && ((off =? 0) || (off =? n + 1))
  then (n + 1, splice (<[14%nat := u]> (<[15%nat := 0]> (<[16%nat := n + 1]> (<[Z.to_nat (24 + n) := u]> p))))
                 (Z.to_nat u) item)
  else (0, p).

#[export] Instance ins_pages : PageOps := {| PageAddItemExtended := toy_add |}.
#[export] Instance ins_heap_pages : HeapPageOps := {|
  PageItemOffset p n := if (1 <=? n) && (n <=? items p) then p !! Z.to_nat (23 + n) else None;
  PageGetMaxOffsetNumber := items;
  PageIsAllVisible p := negb (cell p 10 =? 0);
  PageSetAllVisible p := <[10%nat := 1]> p;
  PageClearAllVisible p := <[10%nat := 0]> p;
  PageSetLSN_heap lsn p := <[0%nat := lsn]> p;
  PageInit := <[14%nat := 8192]> (replicate (Z.to_nat 8192) 0);
  PageGetHeapFreeSpace p := pd_upper p - 25 - items p;
  PAI_OVERWRITE := 1;
  PAI_IS_HEAP := 2;
|}.

(** [pd_upper] is a cell when the next one is zero. *)
Record toy_sane (p : list Z) : Prop := {
  ts_len : length p = Z.to_nat 8192;
  ts_items : 0 <= items p;
  ts_cell15 : cell p 15 = 0;
  ts_upper : 24 + items p <= cell p 14 <= 8192;
}.

Lemma cell_lookup p i : (i < length p)%nat -> p !! i = Some (cell p i).
Proof. intros Hi. unfold cell. by apply list_lookup_lookup_total_lt. Qed.

Lemma upper_cells p : (15 < length p)%nat -> pd_upper p = cell p 14 + 256 * cell p 15.
Proof.
  intros Hl. unfold pd_upper. rewrite (drop_S _ (cell p 14)) by (apply cell_lookup; lia).
  rewrite (drop_S _ (cell p 15)) by (apply cell_lookup; lia). cbn [take le_value]. rewrite take_0. cbn [le_value]. lia.
Qed.

Lemma sane_upper p : toy_sane p -> pd_upper p = cell p 14.
Proof. intros [H1 _ H2 _]. rewrite upper_cells by (rewrite H1; lia). rewrite H2. lia. Qed.

Lemma cell_splice p at_ seg i : (at_ + length seg <= length p)%nat -> (i < at_)%nat ->
  cell (splice p at_ seg) i = cell p i.
Proof. intros Hl Hi. unfold cell. by rewrite !list_lookup_total_alt, lookup_splice_out by lia. Qed.

Lemma cell_insert p i j v : (i < length p)%nat -> cell (<[i := v]> p) j = if decide (i = j) then v else cell p j.
Proof.
  intros Hi. unfold cell. destruct (decide (i = j)) as [->|Hne].
  - by rewrite list_lookup_total_insert_eq.
  - by rewrite list_lookup_total_insert_ne.
Qed.

(** Writing behind [pd_upper] leaves the header and the items. *)
Lemma toy_write p at_ seg : toy_sane p -> pd_upper p <= at_ -> at_ + Z.of_nat (length seg) <= 8192 ->
  let q := splice p (Z.to_nat at_) seg in
  toy_sane q /\ (forall i, (i < Z.to_nat (24 + items p))%nat -> cell q i = cell p i) /\ length q = length p.
Proof.
  intros Hp Hat Hend q. rewrite (sane_upper p Hp) in Hat. destruct Hp as [H1 H2 H3 H4].
  assert (Hc : forall i, (i < Z.to_nat (24 + items p))%nat -> cell q i = cell p i).
  { intros i Hi. apply cell_splice; lia. }
  assert (Hl : length q = length p) by (apply length_splice; lia).
  split; [|done]. split; [by rewrite Hl|unfold items; rewrite Hc by lia; done|rewrite Hc by lia; done|].
  unfold items. rewrite !Hc by (unfold items in *; lia). done.
Qed.

(** What adding an item does, for any page of the right size. *)
Lemma toy_added p item off flags off' p' : length p = Z.to_nat 8192 ->
  toy_add p item (Z.of_nat (length item)) off flags = (off', p') -> off' <> 0 ->
  let n := items p in
  let u := pd_upper p - MAXALIGN (Z.of_nat (length item)) in
  0 <= n /\ 25 + n <= u /\ u + Z.of_nat (length item) <= pd_upper p <= 8192 /\ off' = n + 1
  /\ length p' = length p /\ take (length item) (drop (Z.to_nat u) p') = item
  /\ drop (Z.to_nat (pd_upper p)) p' = drop (Z.to_nat (pd_upper p)) p
  /\ cell p' 14 = u /\ cell p' 15 = 0 /\ items p' = n + 1 /\ cell p' (Z.to_nat (24 + n)) = u
  /\ forall j, (j < Z.to_nat u)%nat -> (j <> 14 /\ j <> 15 /\ j <> 16 /\ j <> Z.to_nat (24 + n))%nat -> cell p' j = cell p j.
Proof.
  intros Hl Hadd Hne n u. unfold toy_add in Hadd. fold n u in Hadd.
  destruct (Z.leb_spec 0 n); [|by injection Hadd as <- <-].
  destruct (Z.leb_spec (25 + n) u); [|by injection Hadd as <- <-].
  destruct (Z.leb_spec (pd_upper p) 8192); [|by injection Hadd as <- <-].
  destruct (Z.ltb_spec 0 (Z.of_nat (length item))); [|by injection Hadd as <- <-].
  rewrite Z.eqb_refl in Hadd. destruct (_ || _); [|by injection Hadd as <- <-]. cbn [andb] in Hadd.
  injection Hadd as <- <-.
  assert (Hma : Z.of_nat (length item) <= MAXALIGN (Z.of_nat (length item))).
  { cbn. pose proof (Z.div_mod (Z.of_nat (length item) + 7) 8). pose proof (Z.mod_pos_bound (Z.of_nat (length item) + 7) 8). lia. }
  set (h := <[14%nat := u]> _). assert (Hh : length h = length p) by (unfold h; by rewrite !length_insert).
  assert (Hend : u + Z.of_nat (length item) <= pd_upper p) by (unfold u; lia).
  assert (Hfit : (Z.to_nat u + length item <= length h)%nat) by lia.
  assert (Hc : forall j, (j < Z.to_nat u)%nat -> cell (splice h (Z.to_nat u) item) j
    = if decide (14 = j)%nat then u else if decide (15 = j)%nat then 0 else if decide (16 = j)%nat then n + 1
      else if decide (Z.to_nat (24 + n) = j) then u else cell p j).
  { intros j Hj. rewrite cell_splice by lia. unfold h. rewrite !cell_insert by (rewrite ?length_insert; lia). done. }
  split_and!; try lia.
  - by rewrite length_splice by lia.
  - by apply sub_splice_in.
  - rewrite drop_splice by lia. unfold h. by rewrite !drop_insert_lt by lia.
  - by rewrite Hc by lia.
  - by rewrite Hc by lia.
  - unfold items. by rewrite Hc by lia.
  - rewrite Hc by lia. repeat case_decide; try lia.
  - intros j Hj Hn. rewrite Hc by lia. repeat case_decide; lia.
Qed.

#[export] Instance ins_pages_laws : PageOpsLaws.
Proof.
  split.
  - intros p item size off flags off' p' Hadd Hl -> Hne. cbn [BLCKSZ page8k] in *.
    destruct (toy_added p item off flags off' p' Hl Hadd Hne) as (H0 & Hu & Hend & _ & Hl' & Hit & _ & H14 & H15 & _).
    assert (H16 : (15 < length p')%nat) by (rewrite Hl', Hl; lia).
    rewrite (upper_cells p' H16), H14, H15, Z.mul_0_r, Z.add_0_r.
    split_and!; [by rewrite Hl'|lia|lia|done].
  - intros p item size off flags p' Hadd. cbn in Hadd. unfold toy_add in Hadd.
    destruct (_ && _) eqn:E; [|by injection Hadd as <-]. injection Hadd as Hoff _.
    repeat (apply andb_true_iff in E as [E _]). apply Z.leb_le in E.
    unfold InvalidOffsetNumber in *. lia.
Qed.

(** ** Pages *)

Lemma toy_offset p n : toy_sane p ->
  PageItemOffset p n = if (1 <=? n) && (n <=? items p) then Some (cell p (Z.to_nat (23 + n))) else None.
Proof.
  intros [H1 H2 H3 H4]. cbn. destruct (Z.leb_spec 1 n); [|done]. destruct (Z.leb_spec n (items p)); [|done].
  cbn [andb]. apply cell_lookup. unfold items in *. lia.
Qed.

(** Pages that agree on the cells of the items and [pd_upper]. *)
Lemma toy_same p q : toy_sane p -> toy_sane q -> items q = items p -> cell q 14 = cell p 14 ->
  (forall i, (24 <= i < Z.to_nat (24 + items p))%nat -> cell q i = cell p i) ->
  pd_upper q = pd_upper p /\ (forall n, PageItemOffset q n = PageItemOffset p n)
  /\ PageGetMaxOffsetNumber q = PageGetMaxOffsetNumber p /\ PageGetHeapFreeSpace q = PageGetHeapFreeSpace p.
Proof.
  intros Hp Hq Hi Hu Hc. assert (Hup : pd_upper q = pd_upper p) by (by rewrite !sane_upper).
  split_and!; [done| |done|cbn; by rewrite Hup, Hi].
  intros n. rewrite !toy_offset, Hi by done. destruct (_ && _) eqn:E; [|done].
  apply andb_true_iff in E as [E1%Z.leb_le E2%Z.leb_le]. by rewrite Hc by lia.
Qed.

(** Setting a cell of the header that is none of those. *)
Lemma toy_header p i v : toy_sane p -> (i < 14)%nat ->
  let q := <[i := v]> p in
  toy_sane q /\ pd_upper q = pd_upper p /\ drop (Z.to_nat (pd_upper p)) q = drop (Z.to_nat (pd_upper p)) p
  /\ (forall n, PageItemOffset q n = PageItemOffset p n)
  /\ PageGetMaxOffsetNumber q = PageGetMaxOffsetNumber p /\ PageGetHeapFreeSpace q = PageGetHeapFreeSpace p.
Proof.
  intros Hp Hi q. pose proof Hp as [H1 H2 H3 H4].
  assert (Hc : forall j, (14 <= j)%nat -> cell q j = cell p j).
  { intros j Hj. unfold q. rewrite cell_insert by lia. by case_decide; [lia|]. }
  assert (Hq : toy_sane q).
  { split; [unfold q; by rewrite length_insert|unfold items; rewrite Hc by lia; done|by rewrite Hc by lia|].
    unfold items. rewrite !Hc by lia. done. }
  destruct (toy_same p q Hp Hq) as (? & ? & ? & ?); [apply Hc; lia|apply Hc; lia|intros; apply Hc; lia|].
  split_and!; try done. rewrite sane_upper by done. unfold q. rewrite drop_insert_lt by (unfold items in *; lia). done.
Qed.

Lemma toy_add_sane p item off flags off' p' : toy_sane p ->
  toy_add p item (Z.of_nat (length item)) off flags = (off', p') -> off' <> 0 -> toy_sane p'.
Proof.
  intros [H1 H2 H3 H4] Hadd Hne.
  destruct (toy_added p item off flags off' p' H1 Hadd Hne) as (H0 & Hu & Hend & _ & Hl & _ & _ & H14 & H15 & H16 & _).
  split; [by rewrite Hl|rewrite H16; lia|done|]. rewrite H14, H16. lia.
Qed.

#[export] Instance ins_page_laws : HeapPageLaws.
Proof.
  refine {| page_sane := toy_sane |}.
  - intros p Hp. cbn [BLCKSZ page8k]. rewrite sane_upper by done. destruct Hp as [H1 H2 H3 H4].
    split_and!; [done|unfold items in *; lia|lia|done].
  - intros z. cbn. pose proof (Z.div_mod (z + 7) 8). pose proof (Z.mod_pos_bound (z + 7) 8). lia.
  - intros p item Hp Hl Hfit. cbn in *. unfold toy_add. rewrite sane_upper in * by done. destruct Hp as [H1 H2 H3 H4].
    rewrite (proj2 (Z.leb_le 0 _)) by done. rewrite (proj2 (Z.leb_le (25 + _) _)) by (cbn; lia).
    rewrite (proj2 (Z.leb_le _ 8192)) by lia. rewrite (proj2 (Z.ltb_lt 0 _)), Z.eqb_refl by done.
    cbn. unfold InvalidOffsetNumber. lia.
  - intros p item off flags off' p' Hp Hadd Hne. pose proof (toy_add_sane _ _ _ _ _ _ Hp Hadd Hne) as Hs.
    pose proof (sane_upper _ Hp) as Hup. pose proof (sane_upper _ Hs) as Hup'. pose proof Hp as [H1 H2 H3 H4].
    destruct (toy_added p item off flags off' p' H1 Hadd Hne)
      as (H0 & Hu & Hend & -> & Hl & _ & Hdr & H14 & H15 & H16 & Hoff & Hrest).
    rewrite Hup', H14. split_and!; try done; try (cbn [PageGetMaxOffsetNumber ins_heap_pages]; rewrite ?H16; lia).
    + rewrite toy_offset, H16, (proj2 (Z.leb_le 1 _)), Z.leb_refl by (done || lia). cbn [andb].
      replace (Z.to_nat (23 + (items p + 1))) with (Z.to_nat (24 + items p)) by lia. by rewrite Hoff.
    + cbn [PageIsAllVisible ins_heap_pages]. by rewrite Hrest by lia.
    + intros _ n o. rewrite !toy_offset, H16 by done.
      destruct (Z.leb_spec 1 n); [|done]. destruct (Z.leb_spec n (items p)); [|done]. cbn [andb].
      intros [= <-] _. split; [lia|]. rewrite (proj2 (Z.leb_le n _)) by lia. by rewrite Hrest by lia.
  - intros p item item' off' p' Hp Hadd Hne Hl. cbn in *. unfold toy_add in *. rewrite Hl.
    destruct (_ && _) eqn:E; [|by injection Hadd as <-]. injection Hadd as <- _.
    apply andb_true_iff in E as [-> _]. by rewrite Z.eqb_refl, orb_true_r.
  - intros p at_ seg Hp Hat Hend q. destruct (toy_write p at_ seg Hp Hat Hend) as (Hq & Hc & Hl). fold q in Hq, Hc, Hl.
    pose proof Hp as [H1 H2 H3 H4].
    destruct (toy_same p q Hp Hq) as (? & ? & ? & ?); [apply Hc; lia|apply Hc; lia|intros; apply Hc; lia|].
    split_and!; try done. cbn. by rewrite Hc by lia.
  - intros lsn p Hp. destruct (toy_header p 0 lsn Hp) as (H1 & H2 & H3 & H4 & H5 & H6); [lia|]. split; [by split_and!|].
    cbn [PageIsAllVisible PageSetLSN_heap PageSetAllVisible PageClearAllVisible ins_heap_pages].
    rewrite cell_insert by (destruct Hp; lia). done.
  - intros p Hp. destruct (toy_header p 10 1 Hp) as (H1 & H2 & H3 & H4 & H5 & H6); [lia|]. split; [by split_and!|].
    cbn [PageIsAllVisible PageSetLSN_heap PageSetAllVisible PageClearAllVisible ins_heap_pages].
    rewrite cell_insert by (destruct Hp; lia). done.
  - intros p Hp. destruct (toy_header p 10 0 Hp) as (H1 & H2 & H3 & H4 & H5 & H6); [lia|]. split; [by split_and!|].
    cbn [PageIsAllVisible PageSetLSN_heap PageSetAllVisible PageClearAllVisible ins_heap_pages].
    rewrite cell_insert by (destruct Hp; lia). done.
Defined.

Lemma toy_init_sane : toy_sane PageInit.
Proof. split; vm_compute; (done || by split). Qed.
End ToyHeap.
