(* ===== verification/Target.v ===== *)
(** The page a tuple goes to: src/src/access/pg_tde_io.c, from ReadBufferBI
    to pg_tde_RelationGetBufferForTuple.

    The state has the heap pages of the relation by block number (a block
    without one is a new page, all zeros), its size, what its free space map
    holds, the cached insertion target, the bulk-insert state, and the
    content locks and pins this backend has.  Other backends act whenever
    this one waits: before it gets a lock and while it reads a page.  Lock
    requests that can wait, and I/O, are noted with the locks held then. *)
From S2P Require Import Prelude EncTuple Visibility Prune VisibilityMap TupleIO TupleBytes.

(** [BulkInsertStateData] of include/access/pg_tde_io.h. *)
Record BulkInsertState := {
  current_buf : Buffer;
  next_free : Z;
  last_free : Z;
  already_extended_by : Z;
}.

Inductive target_event := LockEvent (bn : Z) (held : list Z) | IoEvent (held : list Z).

Record RelStorage := {
  nblocks : Z;
  free_map : gmap Z Z;
  targblock : Z;
  bulk : option BulkInsertState;
  locks : list Z;
  pins : list Z;
  clock : nat;
  log : list target_event;
}.

Record TargetState := {
  t_vm : VmState;
  t_heap : gmap Z (list Z);
  t_rel : RelStorage;
}.

(** Settings, constants of the server, and what the server answers; [nat]
    is the time of the question. *)
Class TargetEnv := {
  HEAP_INSERT_SKIP_FSM : Z;
  HEAP_INSERT_FROZEN : Z;
  SaveFreeSpace : Z;      (** RelationGetTargetPageFreeSpace *)
  MaxHeapTupleSize : Z;
  MaxHeapTuplesPerPage : Z;
  RELATION_IS_LOCAL : bool;
  RelationExtensionLockWaiterCount : nat -> Z;
  (** by how many blocks the server extends when asked for so many *)
  extend_grant : nat -> Z -> Z;
  ConditionalLockBuffer_granted : nat -> bool;
  fsm_search : gmap Z Z -> Z -> Z;
}.

(** Other backends. *)
Class OtherBackends := { others : nat -> TargetState -> TargetState }.

Section target.
Context `{HP : PgBlockSize} `{HM : PageMacros} `{HPO : HeapPageOps} `{HV : VmEnv}.
Context `{HTE : TargetEnv} `{HOB : OtherBackends}.

Local Abbreviation MT := (M TargetState).

(** ** The state *)

Definition with_rel (f : RelStorage -> RelStorage) (s : TargetState) : TargetState :=
  {| t_vm := t_vm s; t_heap := t_heap s; t_rel := f (t_rel s) |}.
Definition with_tvm (v : VmState) (s : TargetState) : TargetState :=
  {| t_vm := v; t_heap := t_heap s; t_rel := t_rel s |}.
Definition with_theap (h : gmap Z (list Z)) (s : TargetState) : TargetState :=
  {| t_vm := t_vm s; t_heap := h; t_rel := t_rel s |}.

Definition with_nblocks (n : Z) (r : RelStorage) : RelStorage :=
  {| nblocks := n; free_map := free_map r; targblock := targblock r; bulk := bulk r;
     locks := locks r; pins := pins r; clock := clock r; log := log r |}.
Definition with_free_map (m : gmap Z Z) (r : RelStorage) : RelStorage :=
  {| nblocks := nblocks r; free_map := m; targblock := targblock r; bulk := bulk r;
     locks := locks r; pins := pins r; clock := clock r; log := log r |}.
Definition with_targblock (b : Z) (r : RelStorage) : RelStorage :=
  {| nblocks := nblocks r; free_map := free_map r; targblock := b; bulk := bulk r;
     locks := locks r; pins := pins r; clock := clock r; log := log r |}.
Definition with_bulk (b : option BulkInsertState) (r : RelStorage) : RelStorage :=
  {| nblocks := nblocks r; free_map := free_map r; targblock := targblock r; bulk := b;
     locks := locks r; pins := pins r; clock := clock r; log := log r |}.
Definition with_locks (l : list Z) (r : RelStorage) : RelStorage :=
  {| nblocks := nblocks r; free_map := free_map r; targblock := targblock r; bulk := bulk r;
     locks := l; pins := pins r; clock := clock r; log := log r |}.
Definition with_pins (l : list Z) (r : RelStorage) : RelStorage :=
  {| nblocks := nblocks r; free_map := free_map r; targblock := targblock r; bulk := bulk r;
     locks := locks r; pins := l; clock := clock r; log := log r |}.
Definition with_log (e : target_event) (r : RelStorage) : RelStorage :=
  {| nblocks := nblocks r; free_map := free_map r; targblock := targblock r; bulk := bulk r;
     locks := locks r; pins := pins r; clock := clock r; log := log r ++ [e] |}.
Definition with_clock (n : nat) (r : RelStorage) : RelStorage :=
  {| nblocks := nblocks r; free_map := free_map r; targblock := targblock r; bulk := bulk r;
     locks := locks r; pins := pins r; clock := n; log := log r |}.

Definition rel_gets {A} (f : RelStorage -> A) : MT A := gets (fun s => f (t_rel s)).
Definition rel_modify (f : RelStorage -> RelStorage) : MT unit := modify (with_rel f).

(** ** Time, buffers, locks *)

(** Time passes: others act. *)
Definition tick : MT unit :=
  modify (fun s => with_rel (with_clock (S (clock (t_rel s)))) (others (clock (t_rel s)) s)).

Definition note_io : MT unit := rel_modify (fun r => with_log (IoEvent (locks r)) r).

Definition IncrBufferRefCount (bn : Z) : MT unit := rel_modify (fun r => with_pins (bn :: pins r) r).

(** A block past the end of the relation cannot be read. *)
Definition ReadBuffer (bn : Z) : MT unit :=
  note_io;;; tick;;;
  let* n := rel_gets nblocks in
  if (0 <=? bn) && (bn <? n) then IncrBufferRefCount bn else raise ERROR.

Definition ReleaseBuffer_heap (bn : Z) : MT unit :=
  let* l := rel_gets pins in
  let* l := defined (remove_pin bn l) in
  rel_modify (with_pins l).

(** Waiting for a lock one holds oneself is undefined. *)
Definition LockBuffer_EXCLUSIVE (bn : Z) : MT unit :=
  rel_modify (fun r => with_log (LockEvent bn (locks r)) r);;;
  tick;;;
  let* l := rel_gets locks in
  if bool_decide (bn ∈ l) then undefined else rel_modify (with_locks (bn :: l)).

Definition LockBuffer_UNLOCK (bn : Z) : MT unit :=
  let* l := rel_gets locks in
  let* l := defined (remove_pin bn l) in
  rel_modify (with_locks l).

Definition ConditionalLockBuffer (bn : Z) : MT bool :=
  let* n := rel_gets clock in
  tick;;;
  let* l := rel_gets locks in
  if bool_decide (bn ∈ l) then undefined else
  if ConditionalLockBuffer_granted n then rel_modify (with_locks (bn :: l));;; ret true else ret false.

Definition UnlockReleaseBuffer (bn : Z) : MT unit := LockBuffer_UNLOCK bn;;; ReleaseBuffer_heap bn.

(** A page is looked at under a pin and changed under a lock; a new one has
    no flags, no items, and no header. *)
Definition page_at (bn : Z) : MT (option (list Z)) :=
  let* s := get in
  if bool_decide (bn ∈ pins (t_rel s)) then ret (t_heap s !! bn) else undefined.
Definition set_page_at (bn : Z) (p : list Z) : MT unit :=
  let* s := get in
  if bool_decide (bn ∈ pins (t_rel s) /\ bn ∈ locks (t_rel s))
  then modify (fun s => with_theap (<[bn := p]> (t_heap s)) s) else undefined.

Definition all_visible (bn : Z) : MT bool :=
  let* p := page_at bn in
  ret (match p with Some p => PageIsAllVisible p | None => false end).
Definition max_offset (bn : Z) : MT Z :=
  let* p := page_at bn in
  ret (match p with Some p => PageGetMaxOffsetNumber p | None => 0 end).
Definition PageIsNew (bn : Z) : MT bool :=
  let* p := page_at bn in
  ret (match p with Some _ => false | None => true end).
(** A new page has [pd_upper = pd_lower = 0]. *)
Definition heap_free_space (bn : Z) : MT Z :=
  let* p := page_at bn in
  ret (match p with Some p => PageGetHeapFreeSpace p | None => 0 end).

Definition vm_pin (bn : Z) (vmbuffer : Buffer) : MT Buffer :=
  note_io;;; zoom t_vm with_tvm (pg_tde_visibilitymap_pin bn vmbuffer).

(** ** The free space map *)

Definition GetPageWithFreeSpace (need : Z) : MT Z :=
  note_io;;; rel_gets (fun r => fsm_search (free_map r) need).
Definition RecordPageWithFreeSpace (bn free : Z) : MT unit :=
  note_io;;; rel_modify (fun r => with_free_map (<[bn := free]> (free_map r)) r).
Definition RecordAndGetPageWithFreeSpace (bn free need : Z) : MT Z :=
  RecordPageWithFreeSpace bn free;;; rel_gets (fun r => fsm_search (free_map r) need).

(** ** ReadBufferBI *)

Definition with_current (b : Buffer) (bi : BulkInsertState) : BulkInsertState :=
  {| current_buf := b; next_free := next_free bi; last_free := last_free bi;
     already_extended_by := already_extended_by bi |}.

(** Drop the buffer the bulk-insert state keeps. *)
Definition drop_current (bi : BulkInsertState) : MT unit :=
  match current_buf bi with
  | Some b => ReleaseBuffer_heap b;;; rel_modify (with_bulk (Some (with_current None bi)))
  | None => ret tt
  end.

Definition ReadBufferBI (targetBlock : Z) : MT unit :=
  let* b := rel_gets bulk in
  match b with
  | None => ReadBuffer targetBlock
  | Some bi =>
      if bool_decide (current_buf bi = Some targetBlock) then IncrBufferRefCount targetBlock
      else
        drop_current bi;;;
        ReadBuffer targetBlock;;;
        IncrBufferRefCount targetBlock;;;
        rel_modify (with_bulk (Some (with_current (Some targetBlock) bi)))
  end.

(** ** GetVisibilityMapPins *)

Fixpoint vm_pins_loop (fuel : nat) (buffer1 : Z) (buffer2 : Buffer) (vm1 vm2 : Buffer)
    (released : bool) : MT (bool * Buffer * Buffer) :=
  match fuel with
  | O => nofuel
  | S fuel =>
      let* v1 := all_visible buffer1 in
      let need1 := v1 && negb (pg_tde_visibilitymap_pin_ok buffer1 vm1) in
      let* need2 :=
        match buffer2 with
        | Some b2 =>
            let* v2 := all_visible b2 in
            ret (v2 && negb (pg_tde_visibilitymap_pin_ok b2 vm2))
        | None => ret false
        end in
      if negb need1 && negb need2 then ret (released, vm1, vm2) else
      let two := match buffer2 with Some b2 => negb (b2 =? buffer1) | None => false end in
      let other_lock (f : Z -> MT unit) :=
        match buffer2 with Some b2 => if two then f b2 else ret tt | None => ret tt end in
      LockBuffer_UNLOCK buffer1;;;
      other_lock LockBuffer_UNLOCK;;;
      let* vm1 := if need1 then vm_pin buffer1 vm1 else ret vm1 in
      let* vm2 := match buffer2 with
                  | Some b2 => if need2 then vm_pin b2 vm2 else ret vm2
                  | None => ret vm2
                  end in
      LockBuffer_EXCLUSIVE buffer1;;;
      other_lock LockBuffer_EXCLUSIVE;;;
      if negb two || need1 && need2 then ret (true, vm1, vm2)
      else vm_pins_loop fuel buffer1 buffer2 vm1 vm2 true
  end.

(** Whether locks were released, and the two pins.  The buffers are given by
    their blocks; either may be missing. *)
Definition GetVisibilityMapPins (buffer1 buffer2 vm1 vm2 : Buffer) : MT (bool * Buffer * Buffer) :=
  match buffer1, buffer2 with
  | Some b1, Some b2 =>
      if b2 <? b1 then
        let* r := vm_pins_loop 3 b2 (Some b1) vm2 vm1 false in
        let '(released, vm2, vm1) := r in
        ret (released, vm1, vm2)
      else vm_pins_loop 3 b1 (Some b2) vm1 vm2 false
  | Some b1, None => vm_pins_loop 3 b1 None vm1 vm2 false
  | None, Some b2 =>
      let* r := vm_pins_loop 3 b2 None vm2 vm1 false in
      let '(released, vm2, vm1) := r in
      ret (released, vm1, vm2)
  | None, None => undefined
  end.

(** ** RelationAddBlocks *)

Definition MAX_BUFFERS_TO_EXTEND_BY : Z := 64.

(** Adding blocks to the file: they are new, pinned, and the first is
    locked. *)
Definition ExtendBufferedRelBy (extend_by : Z) : MT (Z * Z) :=
  note_io;;;
  let* n := rel_gets clock in
  tick;;;
  let* first := rel_gets nblocks in
  let granted := extend_grant n extend_by in
  if InvalidBlockNumber <? first + granted then raise ERROR else
  rel_modify (fun r => with_nblocks (first + granted) r);;;
  rel_modify (fun r => with_pins (seqZ first granted ++ pins r) r);;;
  rel_modify (fun r => with_locks (first :: locks r) r);;;
  ret (first, granted).

Definition extend_by_pages (bi : option BulkInsertState) (num_pages waitcount : Z) : Z :=
  let n := u32 num_pages in
  let n := u32 (n + u32 (n * waitcount)) in
  let n := match bi with Some bi => Z.max n (already_extended_by bi) | None => n end in
  Z.min n MAX_BUFFERS_TO_EXTEND_BY.

(** The pages from [i] on. *)
Fixpoint release_victims (n : nat) (first not_in_fsm_pages : Z) (use_fsm : bool) (i : Z) : MT unit :=
  match n with
  | O => ret tt
  | S n =>
      ReleaseBuffer_heap (first + i);;;
      (if use_fsm && (not_in_fsm_pages <=? i)
       then RecordPageWithFreeSpace (first + i) (BLCKSZ - SizeOfPageHeaderData) else ret tt);;;
      release_victims n first not_in_fsm_pages use_fsm (i + 1)
  end.

Definition RelationAddBlocks (num_pages : Z) (use_fsm : bool) : MT (Z * bool) :=
  let* bi := rel_gets bulk in
  let* by_pages :=
    match bi with
    | None =>
        if negb use_fsm then ret 1
        else
          let* n := rel_gets clock in
          ret (extend_by_pages None num_pages
                 (if RELATION_IS_LOCAL then 0 else RelationExtensionLockWaiterCount n))
    | Some bi =>
        let* n := rel_gets clock in
        ret (extend_by_pages (Some bi) num_pages
               (if RELATION_IS_LOCAL then 0 else RelationExtensionLockWaiterCount n))
    end in
  let not_in_fsm_pages :=
    match bi with None => if 1 <? num_pages then 1 else u32 num_pages | Some _ => u32 num_pages end in
  match bi with Some bi => drop_current bi | None => ret tt end;;;
  let* r := ExtendBufferedRelBy by_pages in
  let '(first_block, by_pages) := r in
  let last_block := first_block + (by_pages - 1) in
  let* new := PageIsNew first_block in
  if negb new then raise ERROR else
  set_page_at first_block PageInit;;;
  let to_fsm := use_fsm && (not_in_fsm_pages <? by_pages) in
  (if to_fsm then LockBuffer_UNLOCK first_block else ret tt);;;
  release_victims (Z.to_nat (by_pages - 1)) first_block not_in_fsm_pages use_fsm 1;;;
  (if to_fsm then note_io else ret tt);;;
  match bi with
  | Some bi =>
      IncrBufferRefCount first_block;;;
      rel_modify (with_bulk (Some
        {| current_buf := Some first_block;
           next_free := if 1 <? by_pages then first_block + 1 else InvalidBlockNumber;
           last_free := if 1 <? by_pages then last_block else InvalidBlockNumber;
           already_extended_by := u32 (already_extended_by bi + by_pages) |}))
  | None => ret tt
  end;;;
  ret (first_block, to_fsm).

(** ** pg_tde_RelationGetBufferForTuple *)

Definition nearlyEmptyFreeSpace : Z := u64 (MaxHeapTupleSize - MaxHeapTuplesPerPage / 8 * sizeof_ItemIdData).

Definition targetFreeSpace (len : Z) : Z :=
  if nearlyEmptyFreeSpace <? len + SaveFreeSpace then Z.max len nearlyEmptyFreeSpace
  else len + SaveFreeSpace.

(** The block to try first. *)
Definition first_target (use_fsm : bool) (target_free : Z) : MT Z :=
  let* bi := rel_gets bulk in
  let* cached := rel_gets targblock in
  let t := match bi with
           | Some bi => match current_buf bi with Some b => b | None => cached end
           | None => cached
           end in
  let* t := if (t =? InvalidBlockNumber) && use_fsm then GetPageWithFreeSpace target_free else ret t in
  if t =? InvalidBlockNumber then
    let* n := rel_gets nblocks in
    ret (if 0 <? n then n - 1 else InvalidBlockNumber)
  else ret t.

(** Pin the map page when the flag of a page asks for it. *)
Definition pin_if_visible (bn : Z) (vm : Buffer) : MT Buffer :=
  let* v := all_visible bn in
  if (v : bool) then vm_pin bn vm else ret vm.

(** Lock the target and, if there is one, the other buffer. *)
Definition lock_target (t : Z) (otherBuffer : Buffer) (frozen : bool) (vm : Buffer) : MT Buffer :=
  match otherBuffer with
  | None =>
      ReadBufferBI t;;;
      let* vm := pin_if_visible t vm in
      let* vm :=
        if frozen then
          let* n := max_offset t in
          if n =? 0 then vm_pin t vm else ret vm
        else ret vm in
      LockBuffer_EXCLUSIVE t;;;
      ret vm
  | Some o =>
      if o =? t then
        let* vm := pin_if_visible t vm in
        LockBuffer_EXCLUSIVE t;;;
        ret vm
      else
        ReadBuffer t;;;
        let* vm := pin_if_visible t vm in
        (if o <? t then LockBuffer_EXCLUSIVE o;;; LockBuffer_EXCLUSIVE t
         else LockBuffer_EXCLUSIVE t;;; LockBuffer_EXCLUSIVE o);;;
        ret vm
  end.

Definition init_if_new (bn : Z) : MT unit :=
  let* new := PageIsNew bn in
  if (new : bool) then set_page_at bn PageInit else ret tt.

(** Give a page up. *)
Definition unlock_target (t : Z) (otherBuffer : Buffer) : MT unit :=
  LockBuffer_UNLOCK t;;;
  match otherBuffer with
  | None => ReleaseBuffer_heap t
  | Some o => if o =? t then ret tt else LockBuffer_UNLOCK o;;; ReleaseBuffer_heap t
  end.

(** Where to look next; no block: extend. *)
Definition next_target (use_fsm : bool) (t free target_free : Z) : MT Z :=
  let* bi := rel_gets bulk in
  let fsm :=
    if use_fsm then RecordAndGetPageWithFreeSpace t free target_free else ret InvalidBlockNumber in
  match bi with
  | Some bi =>
      if next_free bi =? InvalidBlockNumber then fsm else
      (if use_fsm then RecordPageWithFreeSpace t free else ret tt);;;
      rel_modify (with_bulk (Some
        (if last_free bi <=? next_free bi
         then {| current_buf := current_buf bi; next_free := InvalidBlockNumber;
                 last_free := InvalidBlockNumber; already_extended_by := already_extended_by bi |}
         else {| current_buf := current_buf bi; next_free := u32 (next_free bi + 1);
                 last_free := last_free bi; already_extended_by := already_extended_by bi |})));;;
      ret (next_free bi)
  | None => fsm
  end.

(** Lock what is not locked after extending: whether the pins are to be
    checked again, and whether the target was unlocked meanwhile. *)
Definition relock (bn : Z) (otherBuffer : Buffer) (unlocked : bool) : MT (bool * bool) :=
  if unlocked then
    match otherBuffer with Some o => LockBuffer_EXCLUSIVE o | None => ret tt end;;;
    LockBuffer_EXCLUSIVE bn;;;
    ret (true, true)
  else
    match otherBuffer with
    | Some o =>
        let* granted := ConditionalLockBuffer o in
        if (granted : bool) then ret (true, false)
        else
          LockBuffer_UNLOCK bn;;;
          LockBuffer_EXCLUSIVE o;;;
          LockBuffer_EXCLUSIVE bn;;;
          ret (true, true)
    | None => ret (false, false)
    end.

(** Extend the relation: the new block, whether it was unlocked, the pins. *)
Definition extend_target (otherBuffer : Buffer) (frozen use_fsm : bool) (num_pages : Z)
    (vm vm_other : Buffer) : MT (Z * bool * Buffer * Buffer) :=
  let* r := RelationAddBlocks num_pages use_fsm in
  let '(t, unlocked) := r in
  let* r :=
    if frozen && negb (pg_tde_visibilitymap_pin_ok t vm) then
      (if negb unlocked then LockBuffer_UNLOCK t else ret tt);;;
      let* vm := vm_pin t vm in
      ret (true, vm)
    else ret (unlocked, vm) in
  let '(unlocked, vm) := r in
  let* r := relock t otherBuffer unlocked in
  let '(recheck, unlocked) := r in
  if (recheck : bool) then
    let* r := GetVisibilityMapPins otherBuffer (Some t) vm_other vm in
    let '(released, vm_other, vm) := r in
    ret (t, unlocked || released, vm, vm_other)
  else ret (t, unlocked, vm, vm_other).

(** [while] and [goto loop]: the page, and the pins for it and for the other
    one. *)
Fixpoint target_loop (fuel : nat) (len target_free : Z) (otherBuffer : Buffer) (frozen use_fsm : bool)
    (num_pages t : Z) (vm vm_other : Buffer) : MT (Z * Buffer * Buffer) :=
  match fuel with
  | O => nofuel
  | S fuel =>
      let again := target_loop fuel len target_free otherBuffer frozen use_fsm num_pages in
      if negb (t =? InvalidBlockNumber) then
        let* vm := lock_target t otherBuffer frozen vm in
        let* r := GetVisibilityMapPins (Some t) otherBuffer vm vm_other in
        let '(_, vm, vm_other) := r in
        init_if_new t;;;
        let* free := heap_free_space t in
        if target_free <=? free then
          rel_modify (with_targblock t);;; ret (t, vm, vm_other)
        else
          unlock_target t otherBuffer;;;
          let* t := next_target use_fsm t free target_free in
          again t vm vm_other
      else
        let* r := extend_target otherBuffer frozen use_fsm num_pages vm vm_other in
        let '(t, unlocked, vm, vm_other) := r in
        let* free := heap_free_space t in
        if free <? len then
          if (unlocked : bool) then
            match otherBuffer with Some o => LockBuffer_UNLOCK o | None => ret tt end;;;
            UnlockReleaseBuffer t;;;
            again t vm vm_other
          else raise PANIC
        else rel_modify (with_targblock t);;; ret (t, vm, vm_other)
  end.

Definition pg_tde_RelationGetBufferForTuple (fuel : nat) (len : Z) (otherBuffer : Buffer) (options : Z)
    (vmbuffer vmbuffer_other : Buffer) (num_pages : Z) : MT (Z * Buffer * Buffer) :=
  let use_fsm := negb (has options HEAP_INSERT_SKIP_FSM) in
  let len := MAXALIGN len in
  let num_pages := if num_pages <=? 0 then 1 else num_pages in
  if MaxHeapTupleSize <? len then raise ERROR else
  let* t := first_target use_fsm (targetFreeSpace len) in
  target_loop fuel len (targetFreeSpace len) otherBuffer (has options HEAP_INSERT_FROZEN) use_fsm
    num_pages t vmbuffer vmbuffer_other.
End target.
