(* ===== verification/TargetProps.v ===== *)
(** Reasoning about the choice of a page: what other backends may do, what
    holds between the steps, and a rule for each operation of [Target]. *)
From S2P Require Import Prelude EncTuple Visibility Prune VisibilityMap VisibilityMapProps VisibilityMapOps TupleIO TupleBytes Target.

Ltac twp_step :=
  match goal with
  | |- twp _ _ (bind _ _) _ _ => apply twp_bind
  | |- twp _ _ (ret _) _ _ => apply twp_ret
  | |- twp _ _ get _ _ => apply twp_get
  | |- twp _ _ (gets _) _ _ => apply twp_gets
  | |- twp _ _ (rel_gets _) _ _ => apply twp_gets
  | |- twp _ _ (rel_modify _) _ _ => apply twp_modify
  | |- twp _ _ (modify _) _ _ => apply twp_modify
  | |- twp _ _ note_io _ _ => apply twp_modify
  end.
Ltac twps := repeat (twp_step; cbn beta iota).

(** ** The lock protocol

    Locks that can make this backend wait are asked for in ascending order
    of the blocks, and no I/O is done while one is held. *)
Definition event_ok (e : target_event) : Prop :=
  match e with
  | LockEvent bn held => Forall (fun h => h < bn) held
  | IoEvent held => held = []
  end.

Section target.
Context `{HP : PgBlockSize} `{HBL : !PgBlockSizeLaws} `{HM : PageMacros} `{HO : PageOps}.
Context `{HPO : HeapPageOps} `{HPL : !HeapPageLaws} `{HV : VmEnv} `{HVL : !VmLaws}.
Context `{HTE : TargetEnv} `{HOB : OtherBackends}.

Definition bulk_pins (b : option BulkInsertState) : list Z :=
  match b with Some bi => buffer_pins (current_buf bi) | None => [] end.

Definition in_rel (s : TargetState) (bn : Z) : Prop := 0 <= bn < nblocks (t_rel s).

(** ** Well-formed states *)
Record storage_ok (s : TargetState) : Prop := {
  so_vm : vm_ok (t_vm s);
  so_size : 0 <= nblocks (t_rel s) <= InvalidBlockNumber;
  so_heap bn p : t_heap s !! bn = Some p -> in_rel s bn /\ page_sane p;
  so_fsm bn a : free_map (t_rel s) !! bn = Some a -> in_rel s bn;
  so_target : targblock (t_rel s) = InvalidBlockNumber \/ in_rel s (targblock (t_rel s));
  so_pins : Forall (in_rel s) (pins (t_rel s));
  so_bulk bi : bulk (t_rel s) = Some bi ->
    next_free bi = InvalidBlockNumber \/ 0 <= next_free bi <= last_free bi /\ last_free bi < nblocks (t_rel s);
  so_log : Forall event_ok (log (t_rel s));
}.

(** What other backends may do: not what the locks forbid.  A page that has
    been initialized stays so; the relation does not shrink. *)
Record undisturbed (s s' : TargetState) : Prop := {
  ud_ok : storage_ok s';
  ud_vm : pinned (t_vm s') = pinned (t_vm s);
  ud_own : (targblock (t_rel s'), bulk (t_rel s'), locks (t_rel s'), pins (t_rel s'), log (t_rel s'))
           = (targblock (t_rel s), bulk (t_rel s), locks (t_rel s), pins (t_rel s), log (t_rel s));
  ud_grow : nblocks (t_rel s) <= nblocks (t_rel s');
  ud_locked bn : bn ∈ locks (t_rel s) -> t_heap s' !! bn = t_heap s !! bn;
  ud_kept bn : is_Some (t_heap s !! bn) -> is_Some (t_heap s' !! bn);
}.

(** What the code relies on: other backends, the free space map, and the
    sizes the server's macros give. *)
Class TargetLaws := {
  others_law n s : storage_ok s -> undisturbed s (others n s);
  extend_grant_law n k : 1 <= k -> 1 <= extend_grant n k <= k;
  fsm_search_law m need : fsm_search m need = InvalidBlockNumber
    \/ exists a, m !! fsm_search m need = Some a /\ need <= a;
  waiters_law n : 0 <= RelationExtensionLockWaiterCount n < 2 ^ 18;
  save_law : 0 <= SaveFreeSpace;
  tuple_size_law len : len <= MaxHeapTupleSize -> len <= PageGetHeapFreeSpace PageInit;
  nearly_empty_law : 0 <= MaxHeapTuplesPerPage / 8 * sizeof_ItemIdData <= MaxHeapTupleSize;
  tuple_max_law : MaxHeapTupleSize < 2 ^ 63;
  page_init_law : page_sane PageInit /\ PageIsAllVisible PageInit = false
                  /\ PageGetMaxOffsetNumber PageInit = 0;
}.
Context `{HTL : !TargetLaws}.

(** No other backend. *)
Definition quiet : Prop := forall n s, others n s = s.

(** ** Progress of a call *)

(** What happened between two states. *)
Record steps (s s' : TargetState) : Prop := {
  st_grow : nblocks (t_rel s) <= nblocks (t_rel s');
  st_kept bn : is_Some (t_heap s !! bn) -> is_Some (t_heap s' !! bn);
  st_quiet : quiet ->
    (forall bn, t_heap s' !! bn = t_heap s !! bn
                \/ t_heap s !! bn = None /\ t_heap s' !! bn = Some PageInit)
    /\ (forall x, vm_status (t_vm s') x = vm_status (t_vm s) x);
}.

#[export] Instance steps_preorder : PreOrder steps.
Proof.
  split.
  - intros s. split; [done|done|]. intros _. split; [by left|done].
  - intros s1 s2 s3 [G1 K1 Q1] [G2 K2 Q2]. split; [lia|auto|]. intros Hq.
    destruct (Q1 Hq) as [H1 V1], (Q2 Hq) as [H2 V2]. split.
    + intros bn. destruct (H1 bn) as [E1|[E1 E1']], (H2 bn) as [E2|[E2 E2']].
      * left. congruence.
      * right. split; congruence.
      * right. split; congruence.
      * congruence.
    + intros x. by rewrite V2.
Qed.

Definition bulk_range (s : TargetState) : Z :=
  match bulk (t_rel s) with
  | Some bi => if next_free bi =? InvalidBlockNumber then 0 else last_free bi - next_free bi + 1
  | None => 0
  end.

(** Alone, the free space map and the bulk pages are as they were. *)
Definition still (s s' : TargetState) : Prop :=
  quiet -> free_map (t_rel s') = free_map (t_rel s) /\ bulk_range s' = bulk_range s
           /\ nblocks (t_rel s') = nblocks (t_rel s).

#[export] Instance still_preorder : PreOrder still.
Proof.
  split; [done|]. intros s1 s2 s3 H1 H2 Hq. destruct (H1 Hq) as (? & ? & ?), (H2 Hq) as (? & ? & ?).
  split_and!; congruence.
Qed.

(** Between the steps: the locks, the pins beside that of the bulk-insert
    state, and the map pages pinned. *)
Record inv (L P R : list Z) (b : bool) (s : TargetState) : Prop := {
  i_ok : storage_ok s;
  i_locks : locks (t_rel s) = L;
  i_pins : pins (t_rel s) ≡ₚ bulk_pins (bulk (t_rel s)) ++ P;
  i_vm : pinned (t_vm s) ≡ₚ R;
  i_bulk : b = bool_decide (is_Some (bulk (t_rel s)));
}.

(** Running out of fuel and raising an error, if they can happen, happen in
    well-formed states. *)
Variables (nf er : Prop).
Definition allowed (p : Prop) (s : TargetState) : Prop := p /\ storage_ok s.
Local Abbreviation T := (twp (allowed nf) (allowed er)).

Lemma inv_perm L P P' R R' b s : inv L P R b s -> P ≡ₚ P' -> R ≡ₚ R' -> inv L P' R' b s.
Proof. intros [? ? H1 H2 ?] HP1 HR1. split; try done; [by rewrite H1, HP1|by rewrite H2]. Qed.

(** ** Time *)

(** Alone nothing happens when time passes, but for the clock. *)
Definition same_pages (L : list Z) (s s' : TargetState) : Prop :=
  forall bn, bn ∈ L -> t_heap s' !! bn = t_heap s !! bn.

Lemma tick_twp L P R b s (Q : unit -> TargetState -> Prop) : inv L P R b s ->
  (forall s', inv L P R b s' -> steps s s' -> still s s' -> same_pages L s s' ->
     targblock (t_rel s') = targblock (t_rel s) -> bulk (t_rel s') = bulk (t_rel s) ->
     pins (t_rel s') = pins (t_rel s) -> Q tt s') ->
  T tick Q s.
Proof.
  intros [Hok HL HPn HR Hb] HQ. pose proof (others_law (clock (t_rel s)) s Hok) as [Hok' Hvm Hown Hg Hl Hk].
  injection Hown as Ht Hbk Hlk Hpn Hlg. unfold tick. apply twp_modify. set (o := others (clock (t_rel s)) s) in *.
  set (s' := with_rel _ o). apply HQ.
  - destruct Hok' as [? ? ? ? ? ? ? ?].
    split; cbn; rewrite ?Hbk, ?Hlk, ?Hpn, ?Hvm; try done; by split.
  - split; [done|done|]. intros Hq. unfold s', o. rewrite Hq. split; [by left|done].
  - intros Hq. unfold s', o. rewrite Hq. done.
  - intros bn Hbn. apply Hl. by rewrite HL.
  - done.
  - done.
  - done.
Qed.

(** ** Buffers *)

Lemma inv_pinned L P R b s bn : inv L P R b s -> bn ∈ P -> bn ∈ pins (t_rel s) /\ in_rel s bn.
Proof.
  intros [Hok _ Hp _ _] Hbn. assert (Hin : bn ∈ pins (t_rel s)) by (rewrite Hp; apply elem_of_app; by right).
  split; [done|]. pose proof (so_pins s Hok) as Ha. rewrite Forall_forall in Ha. by apply Ha.
Qed.

(** Changing what the relation keeps in memory. *)
Lemma with_rel_ok f s : storage_ok s ->
  nblocks (f (t_rel s)) = nblocks (t_rel s) -> free_map (f (t_rel s)) = free_map (t_rel s) ->
  targblock (f (t_rel s)) = targblock (t_rel s) -> bulk (f (t_rel s)) = bulk (t_rel s) ->
  Forall (in_rel s) (pins (f (t_rel s))) -> Forall event_ok (log (f (t_rel s))) -> storage_ok (with_rel f s).
Proof.
  intros [H1 H2 H3 H4 H5 H6 H7 H8] E1 E2 E3 E4 Hp Hl.
  split; unfold in_rel in *; cbn; rewrite ?E1, ?E2, ?E3, ?E4; done.
Qed.

Lemma with_rel_still f s : nblocks (f (t_rel s)) = nblocks (t_rel s) ->
  free_map (f (t_rel s)) = free_map (t_rel s) -> bulk (f (t_rel s)) = bulk (t_rel s) ->
  steps s (with_rel f s) /\ still s (with_rel f s).
Proof.
  intros E1 E2 E3. split.
  - split; cbn; [by rewrite E1|done|]. intros _. split; [by left|done].
  - intros _. unfold bulk_range. cbn. by rewrite E1, E2, E3.
Qed.

Lemma note_io_twp L P R b s (Q : unit -> TargetState -> Prop) : inv L P R b s -> L = [] ->
  (forall s', inv L P R b s' -> steps s s' -> still s s' -> t_heap s' = t_heap s -> t_vm s' = t_vm s ->
     nblocks (t_rel s') = nblocks (t_rel s) -> free_map (t_rel s') = free_map (t_rel s) ->
     bulk (t_rel s') = bulk (t_rel s) -> Q tt s') ->
  T note_io Q s.
Proof.
  intros [Hok HL Hp HR Hb] -> HQ. apply twp_modify.
  destruct (with_rel_still (fun r => with_log (IoEvent (locks r)) r) s) as [Hs1 Hs2]; try done.
  apply HQ; try done. split; try done. apply with_rel_ok; try done; [apply Hok|].
  cbn. apply Forall_app. split; [apply Hok|]. constructor; [by rewrite HL|constructor].
Qed.

Lemma Incr_twp L P R b s bn (Q : unit -> TargetState -> Prop) : inv L P R b s -> in_rel s bn ->
  (forall s', inv L (bn :: P) R b s' -> steps s s' -> still s s' -> t_heap s' = t_heap s -> t_vm s' = t_vm s ->
     bulk (t_rel s') = bulk (t_rel s) -> Q tt s') ->
  T (IncrBufferRefCount bn) Q s.
Proof.
  intros [Hok HL Hp HR Hb] Hbn HQ. apply twp_modify.
  destruct (with_rel_still (fun r => with_pins (bn :: pins r) r) s) as [Hs1 Hs2]; try done.
  apply HQ; try done. split; try done; [|cbn; rewrite Hp; by rewrite Permutation_middle].
  apply with_rel_ok; try done; [|apply Hok]. cbn. constructor; [done|apply Hok].
Qed.

Lemma Release_twp L P R b s bn (Q : unit -> TargetState -> Prop) : inv L (bn :: P) R b s ->
  (forall s', inv L P R b s' -> steps s s' -> still s s' -> t_heap s' = t_heap s -> Q tt s') ->
  T (ReleaseBuffer_heap bn) Q s.
Proof.
  intros [Hok HL Hp HR Hb] HQ. assert (Hbn : bn ∈ pins (t_rel s)).
  { rewrite Hp. apply elem_of_app. right. by left. }
  destruct (remove_pin_spec bn _ Hbn) as (l & E & El). unfold ReleaseBuffer_heap. twps.
  eapply twp_defined; [exact E|]. apply twp_modify.
  destruct (with_rel_still (with_pins l) s) as [Hs1 Hs2]; try done.
  assert (HF : Forall (in_rel s) (bn :: l)) by (rewrite <- El; apply Hok). apply Forall_cons in HF as [_ HF].
  apply HQ; try done. split; try done; [apply with_rel_ok; try done; apply Hok|].
  cbn. rewrite El, <- Permutation_middle in Hp. by apply Permutation_cons_inv in Hp.
Qed.

Lemma ReadBuffer_twp L P R b s bn (Q : unit -> TargetState -> Prop) : inv L P R b s -> L = [] -> in_rel s bn ->
  (forall s', inv L (bn :: P) R b s' -> steps s s' -> still s s' -> bulk (t_rel s') = bulk (t_rel s) -> Q tt s') ->
  T (ReadBuffer bn) Q s.
Proof.
  intros Hi HL Hbn HQ. unfold ReadBuffer. apply twp_bind. eapply note_io_twp; [done|done|].
  intros s1 I1 S1 B1 _ _ E1 _ Eb. apply twp_bind. eapply tick_twp; [done|]. intros s2 I2 S2 B2 _ _ Eb2 _.
  apply twp_bind, twp_gets. assert (Hin : in_rel s2 bn).
  { destruct S1, S2. unfold in_rel in *. lia. }
  rewrite (proj2 (Z.leb_le 0 bn)), (proj2 (Z.ltb_lt bn _)) by apply Hin. cbn [andb].
  eapply Incr_twp; [done|done|]. intros s3 I3 S3 B3 _ _ Eb3. apply HQ; [done|..].
  - by do 2 (etransitivity; [eassumption|]).
  - by do 2 (etransitivity; [eassumption|]).
  - congruence.
Qed.

(** ** Locks *)

Lemma with_locks_inv L P R b s L' : inv L P R b s -> inv L' P R b (with_rel (with_locks L') s).
Proof. intros [Hok HL Hp HR Hb]. split; try done. apply with_rel_ok; try done; apply Hok. Qed.

Lemma Lock_twp L P R b s bn (Q : unit -> TargetState -> Prop) : inv L P R b s -> Forall (fun h => h < bn) L ->
  (forall s', inv (bn :: L) P R b s' -> steps s s' -> still s s' -> same_pages L s s' -> Q tt s') ->
  T (LockBuffer_EXCLUSIVE bn) Q s.
Proof.
  intros Hi HF HQ. pose proof Hi as [Hok HL Hp HR Hb]. unfold LockBuffer_EXCLUSIVE. twps.
  set (s1 := with_rel _ s). assert (I1 : inv L P R b s1).
  { split; try done. apply with_rel_ok; try done; [apply Hok|]. cbn. apply Forall_app. split; [apply Hok|].
    constructor; [cbn; by rewrite HL|constructor]. }
  eapply tick_twp; [exact I1|]. intros s2 I2 S2 B2 Hsame _ _ _. twps. rewrite (i_locks _ _ _ _ _ I2).
  rewrite bool_decide_eq_false_2.
  2:{ intros Hin. rewrite Forall_forall in HF. specialize (HF bn Hin). lia. }
  apply twp_modify.
  destruct (with_rel_still (with_locks (bn :: L)) s2) as [Hs1 Hs2]; try done.
  apply HQ; [by eapply with_locks_inv| |..].
  - etransitivity; [|exact Hs1]. destruct S2. by split.
  - etransitivity; [|exact Hs2]. exact B2.
  - exact Hsame.
Qed.

Lemma Unlock_twp L P R b s bn (Q : unit -> TargetState -> Prop) : inv L P R b s -> bn ∈ L ->
  (forall s' L', L ≡ₚ bn :: L' -> remove_pin bn L = Some L' -> inv L' P R b s' -> steps s s' -> still s s' ->
     t_heap s' = t_heap s -> Q tt s') ->
  T (LockBuffer_UNLOCK bn) Q s.
Proof.
  intros Hi Hbn HQ. destruct (remove_pin_spec bn L Hbn) as (l & E & El).
  unfold LockBuffer_UNLOCK. twps. rewrite (i_locks _ _ _ _ _ Hi). eapply twp_defined; [exact E|]. apply twp_modify.
  destruct (with_rel_still (with_locks l) s) as [Hs1 Hs2]; try done.
  apply (HQ _ l); try done. by eapply with_locks_inv.
Qed.

Lemma ConditionalLock_twp L P R b s bn (Q : bool -> TargetState -> Prop) : inv L P R b s -> bn ∉ L ->
  (forall (g : bool) s', inv (if g then bn :: L else L) P R b s' -> steps s s' -> still s s' -> same_pages L s s' ->
     Q g s') ->
  T (ConditionalLockBuffer bn) Q s.
Proof.
  intros Hi Hbn HQ. unfold ConditionalLockBuffer. twps. eapply tick_twp; [done|].
  intros s2 I2 S2 B2 Hsame _ _ _. twps. rewrite (i_locks _ _ _ _ _ I2), bool_decide_eq_false_2 by done.
  destruct (ConditionalLockBuffer_granted _); twps.
  - destruct (with_rel_still (with_locks (bn :: L)) s2) as [Hs1 Hs2]; try done.
    apply HQ; [by eapply with_locks_inv|by etransitivity|by etransitivity|exact Hsame].
  - by apply HQ.
Qed.

(** ** Pages *)

Definition visible_page (s : TargetState) (bn : Z) : bool :=
  match t_heap s !! bn with Some p => PageIsAllVisible p | None => false end.
Definition page_items (s : TargetState) (bn : Z) : Z :=
  match t_heap s !! bn with Some p => PageGetMaxOffsetNumber p | None => 0 end.

Lemma page_at_twp L P R b s bn (Q : option (list Z) -> TargetState -> Prop) : inv L P R b s -> bn ∈ P ->
  Q (t_heap s !! bn) s -> T (page_at bn) Q s.
Proof.
  intros Hi Hbn HQ. unfold page_at. twps. rewrite bool_decide_eq_true_2 by (by eapply inv_pinned). by apply twp_ret.
Qed.

Lemma all_visible_twp L P R b s bn (Q : bool -> TargetState -> Prop) : inv L P R b s -> bn ∈ P ->
  Q (visible_page s bn) s -> T (all_visible bn) Q s.
Proof. intros Hi Hbn HQ. unfold all_visible. twps. by eapply page_at_twp. Qed.

Lemma set_page_twp L P R b s bn p (Q : unit -> TargetState -> Prop) : inv L P R b s -> bn ∈ P -> bn ∈ L ->
  page_sane p ->
  (inv L P R b (with_theap (<[bn := p]> (t_heap s)) s) -> Q tt (with_theap (<[bn := p]> (t_heap s)) s)) ->
  T (set_page_at bn p) Q s.
Proof.
  intros Hi HP' HL' Hp HQ. destruct (inv_pinned _ _ _ _ _ _ Hi HP') as [Hpin Hin]. pose proof Hi as [Hok HL Hpp HR Hb].
  unfold set_page_at. twps. rewrite bool_decide_eq_true_2 by (rewrite HL; done). apply twp_modify. apply HQ.
  split; try done. destruct Hok as [? ? Hh ? ? ? ? ?]. split; try done. cbn. intros b' p'.
  destruct (decide (bn = b')) as [->|Hne].
  - rewrite lookup_insert_eq. by intros [= <-].
  - rewrite lookup_insert_ne by done. apply Hh.
Qed.

(** A pin on the map page of a heap block. *)
Lemma vm_pin_twp L P R b s bn vm (Q : Buffer -> TargetState -> Prop) : inv L P (buffer_pins vm ++ R) b s -> L = [] ->
  in_rel s bn ->
  (forall s', inv L P (buffer_pins (Some (HEAPBLK_TO_MAPBLOCK bn)) ++ R) b s' -> steps s s' -> still s s' ->
     t_heap s' = t_heap s -> bulk (t_rel s') = bulk (t_rel s) -> Q (Some (HEAPBLK_TO_MAPBLOCK bn)) s') ->
  T (vm_pin bn vm) Q s.
Proof.
  intros Hi HL Hbn HQ. unfold vm_pin. apply twp_bind. eapply note_io_twp; [exact Hi|done|].
  intros s1 I1 S1 B1 Eh Ev En _ Ebk. pose proof I1 as [Hok1 HL1 Hp1 HR1 Hb1].
  assert (Hx : 0 <= bn < 2 ^ 32).
  { destruct Hi as [Hok _ _ _ _]. pose proof (so_size s Hok). unfold in_rel in Hbn. rewrite invalid_block in *. lia. }
  assert (Hh : holds vm (t_vm s1)).
  { destruct vm as [v|]; [|done]. cbn. rewrite HR1. by left. }
  destruct (pin_spec bn vm (t_vm s1) (so_vm _ Hok1) Hx Hh) as (v & E & Hv & Hsm & rest & Hr1 & Hr2).
  eapply twp_zoom; [exact E|]. apply HQ.
  - destruct Hok1 as [? ? ? ? ? ? ? ?]. split; try done; cbn [t_vm with_tvm].
    rewrite Hr2. apply Permutation_app_head. rewrite HR1 in Hr1. by apply Permutation_app_inv_l in Hr1.
  - etransitivity; [exact S1|]. destruct Hsm as [Hst _]. split; [cbn; lia|done|]. intros _. split; [by left|done].
  - etransitivity; [exact B1|]. done.
  - exact Eh.
  - exact Ebk.
Qed.

(** ** The bulk-insert state *)

Definition range_ok (s : TargetState) (bi : BulkInsertState) : Prop :=
  next_free bi = InvalidBlockNumber \/ 0 <= next_free bi <= last_free bi /\ last_free bi < nblocks (t_rel s).

Lemma with_bulk_inv L P P' R b s bi : inv L P R b s -> b = true -> range_ok s bi ->
  bulk_pins (bulk (t_rel s)) ++ P ≡ₚ buffer_pins (current_buf bi) ++ P' ->
  inv L P' R b (with_rel (with_bulk (Some bi)) s).
Proof.
  intros [Hok HL Hp HR Hb] -> Hr HP2. split; try done; [|by cbn; rewrite Hp].
  destruct Hok as [? ? ? ? ? ? ? ?]. split; try done. cbn. by intros bi' [= <-].
Qed.

Lemma bulk_true L P R b s bi : inv L P R b s -> bulk (t_rel s) = Some bi -> b = true.
Proof. intros [_ _ _ _ ->] E. rewrite E. by apply bool_decide_eq_true_2. Qed.

Lemma with_bulk_steps s bi : steps s (with_rel (with_bulk (Some bi)) s).
Proof. split; [done|done|]. intros _. split; [by left|done]. Qed.

Lemma with_current_still s bi c : bulk (t_rel s) = Some bi -> still s (with_rel (with_bulk (Some (with_current c bi))) s).
Proof. intros E _. unfold bulk_range. cbn. by rewrite E. Qed.

Lemma drop_current_twp L P R b s bi (Q : unit -> TargetState -> Prop) : inv L P R b s -> bulk (t_rel s) = Some bi ->
  (forall s', inv L P R b s' -> steps s s' -> still s s' -> t_heap s' = t_heap s ->
     bulk (t_rel s') = Some (with_current None bi) -> Q tt s') ->
  T (drop_current bi) Q s.
Proof.
  intros Hi E HQ. pose proof (bulk_true _ _ _ _ _ _ Hi E) as Hb. pose proof Hi as [Hok HL Hp HR Hbb].
  unfold drop_current. destruct (current_buf bi) as [c|] eqn:Ec.
  - rewrite E in Hp. cbn in Hp. rewrite Ec in Hp. cbn in Hp.
    destruct (remove_pin_spec c (pins (t_rel s))) as (l & El & Hl); [rewrite Hp; by left|].
    unfold ReleaseBuffer_heap. twps. eapply twp_defined; [exact El|]. twps.
    set (s' := with_rel _ _). assert (Hs : s' = with_rel (with_bulk (Some (with_current None bi))) (with_rel (with_pins l) s)) by done.
    assert (Hlp : l ≡ₚ P) by (rewrite Hl in Hp; by apply Permutation_cons_inv in Hp).
    assert (HF : Forall (in_rel s) l).
    { assert (HF : Forall (in_rel s) (c :: l)) by (rewrite <- Hl; apply Hok). by apply Forall_cons in HF as [_ HF]. }
    apply HQ; try done.
    + destruct Hok as [? ? ? ? ? ? Hbk ?]. split; try done. split; try done. cbn. intros bi' [= <-]. exact (Hbk bi E).
    + split; [done|done|]. intros _. split; [by left|done].
    + intros _. unfold bulk_range. cbn. by rewrite E.
  - apply twp_ret. apply HQ; try done. rewrite E. f_equal. unfold with_current. destruct bi; cbn in *. by subst.
Qed.

Lemma ReadBufferBI_twp P R b s t (Q : unit -> TargetState -> Prop) : inv [] P R b s -> in_rel s t ->
  (forall s', inv [] (t :: P) R b s' -> steps s s' -> still s s' -> Q tt s') ->
  T (ReadBufferBI t) Q s.
Proof.
  intros Hi Ht HQ. unfold ReadBufferBI. twps. destruct (bulk (t_rel s)) as [bi|] eqn:E.
  - case_bool_decide as Ec; [eapply Incr_twp; [done|done|]; auto|].
    apply twp_bind. eapply drop_current_twp; [done|done|]. intros s1 I1 S1 B1 _ E1.
    assert (Ht1 : in_rel s1 t) by (destruct S1; unfold in_rel in *; lia).
    apply twp_bind. eapply ReadBuffer_twp; [done|done|done|]. intros s2 I2 S2 B2 E2.
    assert (Ht2 : in_rel s2 t) by (destruct S2; unfold in_rel in *; lia).
    apply twp_bind. eapply Incr_twp; [done|done|]. intros s3 I3 S3 B3 _ _ E3. twps.
    assert (E4 : bulk (t_rel s3) = Some (with_current None bi)) by congruence.
    assert (Hb := bulk_true _ _ _ _ _ _ I3 E4).
    apply HQ.
    + eapply with_bulk_inv; [exact I3|done|exact (so_bulk _ (i_ok _ _ _ _ _ I3) _ E4)|]. by rewrite E4.
    + do 3 (etransitivity; [eassumption|]). apply with_bulk_steps.
    + do 3 (etransitivity; [eassumption|]).
      apply (with_current_still s3 (with_current None bi) (Some t)). done.
  - eapply ReadBuffer_twp; [done|done|done|]. auto.
Qed.

(** ** Pins of map pages *)

Definition fits (s : TargetState) (bn : Z) (vm : Buffer) : Prop :=
  visible_page s bn = true -> vm = Some (HEAPBLK_TO_MAPBLOCK bn).

Lemma pin_ok_spec bn vm : pg_tde_visibilitymap_pin_ok bn vm = true <-> vm = Some (HEAPBLK_TO_MAPBLOCK bn).
Proof.
  unfold pg_tde_visibilitymap_pin_ok. destruct vm as [v|]; [|done]. rewrite Z.eqb_eq. split; [by intros ->|by intros [= ->]].
Qed.

(** The locks of one buffer or of two. *)
Definition lock_set (b1 : Z) (b2 : Buffer) : list Z :=
  match b2 with Some o => if o =? b1 then [b1] else [o; b1] | None => [b1] end.

Definition missing (bn : Z) (vm : Buffer) : nat := if pg_tde_visibilitymap_pin_ok bn vm then 0 else 1.

(** Release both locks. *)
Lemma unlock_both_twp b1 b2 L P R b s (Q : unit -> TargetState -> Prop) : inv L P R b s -> L ≡ₚ lock_set b1 b2 ->
  (forall s', inv [] P R b s' -> steps s s' -> still s s' -> t_heap s' = t_heap s -> Q tt s') ->
  let two := match b2 with Some b2 => negb (b2 =? b1) | None => false end in
  T (LockBuffer_UNLOCK b1;;;
     match b2 with Some b2 => if two then LockBuffer_UNLOCK b2 else ret tt | None => ret tt end) Q s.
Proof.
  intros Hi HL HQ two. apply twp_bind.
  eapply Unlock_twp; [exact Hi|rewrite HL; unfold lock_set; repeat case_match; set_solver|].
  intros s1 L1 EL _ I1 S1 B1 H1. unfold two, lock_set in *. destruct b2 as [o|].
  - destruct (Z.eqb_spec o b1) as [->|Hne]; cbn [negb].
    + rewrite EL in HL. apply Permutation_cons_inv, Permutation_nil_r in HL as ->. apply twp_ret. by apply HQ.
    + assert (HL1 : L1 ≡ₚ [o]).
      { rewrite EL in HL. rewrite (Permutation_swap b1 o []) in HL. by apply Permutation_cons_inv in HL. }
      eapply Unlock_twp; [exact I1|rewrite HL1; by left|]. intros s2 L2 EL2 _ I2 S2 B2 H2.
      rewrite HL1 in EL2. symmetry in EL2. apply Permutation_cons_inv, Permutation_nil_r in EL2 as ->.
      apply HQ; [done|by etransitivity|by etransitivity|congruence].
  - rewrite EL in HL. apply Permutation_cons_inv, Permutation_nil_r in HL as ->. apply twp_ret. by apply HQ.
Qed.

(** Take both locks, the lower block first. *)
Lemma lock_both_twp b1 b2 P R b s (Q : unit -> TargetState -> Prop) : inv [] P R b s ->
  (forall o, b2 = Some o -> b1 <= o) ->
  (forall s', inv (lock_set b1 b2) P R b s' -> steps s s' -> still s s' -> Q tt s') ->
  let two := match b2 with Some b2 => negb (b2 =? b1) | None => false end in
  T (LockBuffer_EXCLUSIVE b1;;;
     match b2 with Some b2 => if two then LockBuffer_EXCLUSIVE b2 else ret tt | None => ret tt end) Q s.
Proof.
  intros Hi Hle HQ two. apply twp_bind. eapply Lock_twp; [done|constructor|]. intros s1 I1 S1 B1 _.
  unfold two, lock_set in *. destruct b2 as [o|]; [|apply twp_ret; by apply HQ]. specialize (Hle o eq_refl).
  destruct (Z.eqb_spec o b1) as [->|Hne]; cbn [negb]; [apply twp_ret; by apply HQ|].
  eapply Lock_twp; [done|repeat constructor; lia|]. intros s2 I2 S2 B2 _.
  apply HQ; [done|by etransitivity|by etransitivity].
Qed.

(** What the pins are afterwards. *)
Record pins_done (s : TargetState) (b1 : Z) (b2 vm1 vm2 : Buffer) (r : bool * Buffer * Buffer) (s' : TargetState) : Prop := {
  pd_fits1 : fits s' b1 r.1.2;
  pd_fits2 o : b2 = Some o -> fits s' o r.2;
  pd_ok1 : vm1 = Some (HEAPBLK_TO_MAPBLOCK b1) -> r.1.2 = vm1;
  pd_ok2 o : b2 = Some o -> vm2 = Some (HEAPBLK_TO_MAPBLOCK o) -> r.2 = vm2;
  pd_none : b2 = None -> r.2 = vm2;
  pd_same : r.1.1 = false -> s' = s;
  pd_steps : steps s s' /\ still s s';
}.

(** A pin, if one is needed. *)
Lemma vm_pin_if_twp (need : bool) P R b s bn vm (Q : Buffer -> TargetState -> Prop) :
  inv [] P (buffer_pins vm ++ R) b s -> in_rel s bn ->
  (forall vm' s', inv [] P (buffer_pins vm' ++ R) b s' -> steps s s' -> still s s' -> t_heap s' = t_heap s ->
     vm' = (if need then Some (HEAPBLK_TO_MAPBLOCK bn) else vm) -> Q vm' s') ->
  T (if need then vm_pin bn vm else ret vm) Q s.
Proof.
  intros Hi Hbn HQ. destruct need; [|apply twp_ret; by apply HQ].
  eapply vm_pin_twp; [done|done|done|]. intros s1 I1 S1 B1 H1 _. by apply (HQ (Some _)).
Qed.

Lemma missing_lt bn vm : pg_tde_visibilitymap_pin_ok bn vm = false ->
  missing bn vm = 1%nat /\ missing bn (Some (HEAPBLK_TO_MAPBLOCK bn)) = 0%nat.
Proof. intros E. unfold missing. rewrite E. split; [done|]. by rewrite (proj2 (pin_ok_spec _ _) eq_refl). Qed.

Lemma vm_pins_loop_twp fuel : forall b1 b2 L P R b vm1 vm2 (released : bool) s
    (Q : bool * Buffer * Buffer -> TargetState -> Prop),
  inv L P (buffer_pins vm1 ++ buffer_pins vm2 ++ R) b s -> L ≡ₚ lock_set b1 b2 -> b1 ∈ P ->
  (forall o, b2 = Some o -> o ∈ P /\ b1 <= o) ->
  (missing b1 vm1 + match b2 with Some o => missing o vm2 | None => 0 end < fuel)%nat ->
  (forall r L' s', inv L' P (buffer_pins r.1.2 ++ buffer_pins r.2 ++ R) b s' -> L' ≡ₚ lock_set b1 b2 ->
     pins_done s b1 b2 vm1 vm2 r s' -> (r.1.1 = false -> released = false) -> Q r s') ->
  T (vm_pins_loop fuel b1 b2 vm1 vm2 released) Q s.
Proof.
  induction fuel as [|fuel IH]; intros b1 b2 L P R b vm1 vm2 released s Q Hi HL H1 H2 Hf HQ; [lia|].
  cbn [vm_pins_loop]. apply twp_bind. eapply all_visible_twp; [exact Hi|done|]. cbn beta.
  set (need1 := visible_page s b1 && _). apply twp_bind.
  set (need2 := match b2 with Some o => visible_page s o && negb (pg_tde_visibilitymap_pin_ok o vm2) | None => false end).
  apply (twp_mono _ _ _ (fun n s' => n = need2 /\ s' = s)).
  { unfold need2. destruct b2 as [o|]; [|by apply twp_ret].
    apply twp_bind. eapply all_visible_twp; [exact Hi|by apply H2|]. by apply twp_ret. }
  intros ? ? [-> ->]. destruct (negb need1 && negb need2) eqn:En.
  { apply andb_true_iff in En as [E1%negb_true_iff E2%negb_true_iff]. apply twp_ret.
    apply (HQ (released, vm1, vm2) L s); [done|done| |done]. split; cbn; try done.
    - intros Hv. apply pin_ok_spec. unfold need1 in E1. rewrite Hv in E1. by apply negb_false_iff in E1.
    - intros o -> Hv. apply pin_ok_spec. unfold need2 in E2. rewrite Hv in E2. by apply negb_false_iff in E2. }
  apply twp_seq. eapply unlock_both_twp; [exact Hi|exact HL|]. intros s1 I1 S1 B1 Hh1.
  assert (HP1 : Forall (in_rel s1) P).
  { apply Forall_forall. intros x Hx. by eapply inv_pinned. }
  rewrite Forall_forall in HP1.
  apply twp_bind. eapply (vm_pin_if_twp need1); [exact I1|by apply HP1|]. intros vm1' s2 I2 S2 B2 Hh2 Ev1.
  apply twp_bind. eapply (twp_mono _ _ _ (fun vm2' s3 => inv [] P (buffer_pins vm1' ++ buffer_pins vm2' ++ R) b s3
    /\ steps s2 s3 /\ still s2 s3 /\ vm2' = match b2 with Some o => if need2 then Some (HEAPBLK_TO_MAPBLOCK o) else vm2 | None => vm2 end)).
  { destruct b2 as [o|]; [|by apply twp_ret].
    eapply (vm_pin_if_twp need2 P (buffer_pins vm1' ++ R)).
    - eapply inv_perm; [exact I2|done|]. by rewrite !app_assoc, (Permutation_app_comm (buffer_pins vm1')).
    - destruct S2. pose proof (HP1 o (proj1 (H2 o eq_refl))). unfold in_rel in *. lia.
    - intros vm2' s3 I3 S3 B3 _ Ev2. split_and!; try done.
      eapply inv_perm; [exact I3|done|]. by rewrite !app_assoc, (Permutation_app_comm (buffer_pins vm2')). }
  intros vm2' s3 (I3 & S3 & B3 & Ev2). apply twp_seq. eapply lock_both_twp; [exact I3|by intros o Ho; apply H2|].
  intros s4 I4 S4 B4.
  assert (S04 : steps s s4) by (do 3 (etransitivity; [eassumption|]); done).
  assert (B04 : still s s4) by (do 3 (etransitivity; [eassumption|]); done).
  assert (K1 : need1 = true -> vm1' = Some (HEAPBLK_TO_MAPBLOCK b1)) by (rewrite Ev1; by intros ->).
  assert (K2 : forall o, b2 = Some o -> need2 = true -> vm2' = Some (HEAPBLK_TO_MAPBLOCK o)) by (rewrite Ev2; by intros o -> ->).
  assert (J1 : vm1 = Some (HEAPBLK_TO_MAPBLOCK b1) -> vm1' = vm1) by (rewrite Ev1; by destruct need1).
  assert (J2 : forall o, b2 = Some o -> vm2 = Some (HEAPBLK_TO_MAPBLOCK o) -> vm2' = vm2).
  { rewrite Ev2. intros o ->. by destruct need2. }
  assert (J3 : b2 = None -> vm2' = vm2) by (rewrite Ev2; by intros ->).
  assert (N1 : need1 = true -> pg_tde_visibilitymap_pin_ok b1 vm1 = false /\ visible_page s b1 = true).
  { unfold need1. intros [? ?%negb_true_iff]%andb_true_iff. done. }
  assert (N2 : forall o, b2 = Some o -> need2 = true -> pg_tde_visibilitymap_pin_ok o vm2 = false /\ visible_page s o = true).
  { unfold need2. intros o ->. intros [? ?%negb_true_iff]%andb_true_iff. done. }
  set (two := match b2 with Some b2 => negb (b2 =? b1) | None => false end) in *.
  destruct (negb two || need1 && need2) eqn:Ex.
  - apply twp_ret. apply (HQ (true, vm1', vm2') (lock_set b1 b2) s4); [exact I4|done| |done].
    assert (F : vm1' = Some (HEAPBLK_TO_MAPBLOCK b1) /\ forall o, b2 = Some o -> vm2' = Some (HEAPBLK_TO_MAPBLOCK o)).
    { apply orb_true_iff in Ex as [Et%negb_true_iff|[E1 E2]%andb_true_iff]; [|split; [by apply K1|intros o Ho; by apply K2]].
      unfold two in Et. destruct b2 as [o|].
      - apply negb_false_iff, Z.eqb_eq in Et as ->. destruct need1 eqn:E1, need2 eqn:E2; try done.
        + split; [by apply K1|]. by intros o [= <-]; apply K2.
        + split; [by apply K1|]. intros o [= <-]. destruct (N1 eq_refl) as [_ Hv]. unfold need2 in E2.
          rewrite Hv in E2. apply negb_false_iff, pin_ok_spec in E2. rewrite (J2 b1 eq_refl E2). done.
        + split; [|by intros o [= <-]; apply K2]. destruct (N2 b1 eq_refl eq_refl) as [_ Hv]. unfold need1 in E1.
          rewrite Hv in E1. apply negb_false_iff, pin_ok_spec in E1. by rewrite (J1 E1).
      - split; [|done]. apply K1. by destruct need1. }
    destruct F as [F1 F2]. split; cbn; try done; [by intros _|by intros o Ho _; apply F2].
  - apply orb_false_iff in Ex as [Et%negb_false_iff E12].
    destruct b2 as [o|]; [|done].
    assert (Hless : (missing b1 vm1' + missing o vm2' < fuel)%nat).
    { destruct need1 eqn:E1, need2 eqn:E2; try done.
      - rewrite (K1 eq_refl), Ev2. destruct (N1 eq_refl) as [N _]. destruct (missing_lt _ _ N) as [-> ->] in Hf. lia.
      - rewrite (K2 o eq_refl eq_refl), Ev1. destruct (N2 o eq_refl eq_refl) as [N _].
        destruct (missing_lt _ _ N) as [E E']. rewrite E in Hf. rewrite E'. lia. }
    eapply IH; [exact I4|done|done|done|exact Hless|].
    intros r L' s5 I5 EL5 [G1 G2 G3 G4 G5 G6 [G7 G8]] Hr. apply (HQ r L' s5); [done|done| |].
    + split; try done.
      * intros E. rewrite G3; [by apply J1|]. by rewrite (J1 E).
      * intros o' [= <-] E. rewrite (G4 o eq_refl); [by apply (J2 o)|]. by rewrite (J2 o eq_refl E).
      * intros E. by specialize (Hr E).
      * split; by etransitivity.
    + intros E. by specialize (Hr E).
Qed.

(** [GetVisibilityMapPins], for either order of the buffers. *)
Lemma missing_le bn vm : (missing bn vm <= 1)%nat.
Proof. unfold missing. by destruct (pg_tde_visibilitymap_pin_ok bn vm); lia. Qed.

Definition both_locks (t : Z) (other : Buffer) : list Z :=
  match other with Some o => if o =? t then [t] else [t; o] | None => [t] end.

Lemma both_lock_set t o : both_locks t (Some o) ≡ₚ lock_set t (Some o) /\ both_locks t (Some o) ≡ₚ lock_set o (Some t).
Proof.
  unfold both_locks, lock_set. destruct (Z.eqb_spec o t) as [->|Hne]; [by rewrite Z.eqb_refl|].
  rewrite (proj2 (Z.eqb_neq t o)) by done. split; [apply Permutation_swap|done].
Qed.

(** The pins of the target and of the other page after the call. *)
Record pins_got (s : TargetState) (t : Z) (other vm vmo : Buffer) (rel : bool) (vm' vmo' : Buffer) (s' : TargetState)
    : Prop := {
  pg_fits : fits s' t vm';
  pg_other o : other = Some o -> fits s' o vmo';
  pg_ok : vm = Some (HEAPBLK_TO_MAPBLOCK t) -> vm' = vm;
  pg_none : other = None -> vmo' = vmo;
  pg_same : rel = false -> s' = s;
  pg_steps : steps s s';
  pg_still : still s s';
}.

Lemma pins_target fuel t other L P R b vm vmo s (Q : bool * Buffer * Buffer -> TargetState -> Prop) :
  fuel = 3%nat -> inv L P (buffer_pins vm ++ buffer_pins vmo ++ R) b s -> L ≡ₚ both_locks t other -> t ∈ P ->
  (forall o, other = Some o -> o ∈ P /\ t <= o) ->
  (forall rel vm' vmo' L' s', inv L' P (buffer_pins vm' ++ buffer_pins vmo' ++ R) b s' -> L' ≡ₚ both_locks t other ->
     pins_got s t other vm vmo rel vm' vmo' s' -> Q (rel, vm', vmo') s') ->
  T (vm_pins_loop fuel t other vm vmo false) Q s.
Proof.
  intros -> Hi HL Ht Ho HQ.
  assert (Hset : both_locks t other ≡ₚ lock_set t other) by (destruct other as [o|]; [apply both_lock_set|done]).
  eapply vm_pins_loop_twp; [exact Hi|by rewrite HL|done|done| |].
  { pose proof (missing_le t vm). destruct other as [o|]; [pose proof (missing_le o vmo)|]; lia. }
  intros [[rel vm'] vmo'] L' s' I' EL' [G1 G2 G3 G4 G5 G6 [G7 G8]] _.
  apply (HQ rel vm' vmo' L' s'); [done|by rewrite EL'|by split].
Qed.

Lemma pins_swapped t o L P R b vm vmo s (Q : bool * Buffer * Buffer -> TargetState -> Prop) :
  inv L P (buffer_pins vm ++ buffer_pins vmo ++ R) b s -> L ≡ₚ both_locks t (Some o) -> t ∈ P -> o ∈ P -> o <= t ->
  (forall rel vm' vmo' L' s', inv L' P (buffer_pins vm' ++ buffer_pins vmo' ++ R) b s' -> L' ≡ₚ both_locks t (Some o) ->
     pins_got s t (Some o) vm vmo rel vm' vmo' s' -> Q (rel, vmo', vm') s') ->
  T (vm_pins_loop 3 o (Some t) vmo vm false) Q s.
Proof.
  intros Hi HL Ht Ho Hle HQ.
  assert (Hcomm : forall vm vmo : Buffer, buffer_pins vm ++ buffer_pins vmo ++ R ≡ₚ buffer_pins vmo ++ buffer_pins vm ++ R).
  { intros. by rewrite !app_assoc, (Permutation_app_comm (buffer_pins _)). }
  eapply (vm_pins_loop_twp 3 o (Some t) L P R b vmo vm); [eapply inv_perm; [exact Hi|done|apply Hcomm]|
    rewrite HL; apply both_lock_set|done|by intros ? [= <-]| |].
  { pose proof (missing_le o vmo). pose proof (missing_le t vm). lia. }
  intros [[rel vmo'] vm'] L' s' I' EL' [G1 G2 G3 G4 G5 G6 [G7 G8]] _. cbn in *.
  apply (HQ rel vm' vmo' L' s'); [eapply inv_perm; [exact I'|done|apply Hcomm]|by rewrite EL'; symmetry; apply both_lock_set|].
  split; try done; [by apply G2|by intros ? [= <-]|by apply (G4 t)].
Qed.

Lemma GetVisibilityMapPins_twp t other L P R b vm vmo s (Q : bool * Buffer * Buffer -> TargetState -> Prop) :
  inv L P (buffer_pins vm ++ buffer_pins vmo ++ R) b s -> L ≡ₚ both_locks t other -> t ∈ P ->
  (forall o, other = Some o -> o ∈ P) ->
  (forall rel vm' vmo' L' s', inv L' P (buffer_pins vm' ++ buffer_pins vmo' ++ R) b s' -> L' ≡ₚ both_locks t other ->
     pins_got s t other vm vmo rel vm' vmo' s' -> Q (rel, vm', vmo') s') ->
  T (GetVisibilityMapPins (Some t) other vm vmo) Q s.
Proof.
  intros Hi HL Ht Ho HQ. unfold GetVisibilityMapPins. destruct other as [o|].
  - destruct (Z.ltb_spec o t).
    + apply twp_bind. eapply pins_swapped; [exact Hi|done|done|by apply Ho|lia|]. intros. apply twp_ret. by eapply HQ.
    + eapply pins_target; [done|exact Hi|done|done| |exact HQ]. intros ? [= <-]. split; [by apply Ho|done].
  - eapply pins_target; [done|exact Hi|done|done|done|exact HQ].
Qed.

(** The same with the other page first, as after an extension. *)
Lemma GetVisibilityMapPins_other_twp t other L P R b vm vmo s (Q : bool * Buffer * Buffer -> TargetState -> Prop) :
  inv L P (buffer_pins vm ++ buffer_pins vmo ++ R) b s -> L ≡ₚ both_locks t other -> t ∈ P ->
  (forall o, other = Some o -> o ∈ P) ->
  (forall rel vm' vmo' L' s', inv L' P (buffer_pins vm' ++ buffer_pins vmo' ++ R) b s' -> L' ≡ₚ both_locks t other ->
     pins_got s t other vm vmo rel vm' vmo' s' -> Q (rel, vmo', vm') s') ->
  T (GetVisibilityMapPins other (Some t) vmo vm) Q s.
Proof.
  intros Hi HL Ht Ho HQ. unfold GetVisibilityMapPins. destruct other as [o|].
  - destruct (Z.ltb_spec t o).
    + apply twp_bind. eapply pins_target; [done|exact Hi|done|done| |]; [intros ? [= <-]; split; [by apply Ho|lia]|].
      intros. apply twp_ret. by eapply HQ.
    + eapply pins_swapped; [exact Hi|done|done|by apply Ho|lia|exact HQ].
  - apply twp_bind. eapply pins_target; [done|exact Hi|done|done|done|]. intros. apply twp_ret. by eapply HQ.
Qed.
End target.
