(* ===== verification/TargetLoop.v ===== *)
(** The parts of pg_tde_RelationGetBufferForTuple, extending the relation,
    and the loop. *)
From S2P Require Import Prelude EncTuple TupleIO Visibility VisibilityMap VisibilityMapProps VisibilityMapOps Prune TupleBytes Target TargetProps.

Section target.
Context `{HP : PgBlockSize} `{HBL : !PgBlockSizeLaws} `{HM : PageMacros} `{HO : PageOps}.
Context `{HPO : HeapPageOps} `{HPL : !HeapPageLaws} `{HV : VmEnv} `{HVL : !VmLaws}.
Context `{HTE : TargetEnv} `{HOB : OtherBackends} `{HTL : !TargetLaws}.
Variables (nf er : Prop).
Local Abbreviation T := (twp (allowed nf) (allowed er)).

(** ** Locking the target *)

Lemma in_rel_steps s s' bn : steps s s' -> in_rel s bn -> in_rel s' bn.
Proof. intros [H _ _]. unfold in_rel. lia. Qed.

Lemma pin_if_visible_twp P R b s t vm (Q : Buffer -> TargetState -> Prop) :
  inv [] P (buffer_pins vm ++ R) b s -> t ∈ P ->
  (forall vm' s', inv [] P (buffer_pins vm' ++ R) b s' -> steps s s' -> still s s' -> Q vm' s') ->
  T (pin_if_visible t vm) Q s.
Proof.
  intros Hi Ht HQ. unfold pin_if_visible. apply twp_bind. eapply all_visible_twp; [done|done|].
  eapply vm_pin_if_twp; [done|by eapply inv_pinned|]. auto.
Qed.

Lemma page_items_quiet s s' bn : steps s s' -> quiet -> page_items s' bn = page_items s bn.
Proof.
  intros [_ _ Hst] Hq. destruct (Hst Hq) as [Hh _]. unfold page_items. destruct (Hh bn) as [->|[-> ->]]; [done|].
  apply page_init_law.
Qed.

(** The pin on the target: the other buffer has one already. *)
Definition target_pins (t : Z) (other : Buffer) : list Z :=
  match other with Some o => if o =? t then [] else [t] | None => [t] end.

Lemma target_pinned t other P : (forall o, other = Some o -> o ∈ P) -> t ∈ target_pins t other ++ P.
Proof.
  intros Ho. unfold target_pins. destruct other as [o|]; [destruct (Z.eqb_spec o t) as [->|]|]; try by left.
  by apply Ho.
Qed.

Lemma lock_target_twp t other frozen P R b vm s (Q : Buffer -> TargetState -> Prop) :
  inv [] P (buffer_pins vm ++ R) b s -> in_rel s t -> (forall o, other = Some o -> o ∈ P) ->
  (forall vm' L s', inv L (target_pins t other ++ P) (buffer_pins vm' ++ R) b s' -> L ≡ₚ both_locks t other ->
     steps s s' -> still s s' ->
     (quiet -> frozen = true -> other = None -> page_items s' t = 0 -> vm' = Some (HEAPBLK_TO_MAPBLOCK t)) ->
     Q vm' s') ->
  T (lock_target t other frozen vm) Q s.
Proof.
  intros Hi Ht Ho HQ. unfold lock_target, target_pins, both_locks in *. destruct other as [o|].
  - specialize (Ho o eq_refl). destruct (Z.eqb_spec o t) as [->|Hne].
    + apply twp_bind. eapply pin_if_visible_twp; [done|done|]. intros vm1 s1 I1 S1 B1. apply twp_bind.
      eapply Lock_twp; [exact I1|constructor|]. intros s2 I2 S2 B2 _. apply twp_ret.
      eapply HQ; [exact I2|done|by etransitivity|by etransitivity|done].
    + apply twp_bind. eapply ReadBuffer_twp; [done|done|done|]. intros s1 I1 S1 B1 _.
      apply twp_bind. eapply pin_if_visible_twp; [exact I1|by left|]. intros vm2 s2 I2 S2 B2. apply twp_bind.
      assert (S02 : steps s s2) by (by etransitivity). assert (B02 : still s s2) by (by etransitivity).
      destruct (Z.ltb_spec o t).
      * apply twp_bind. eapply Lock_twp; [exact I2|constructor|]. intros s3 I3 S3 B3 _.
        eapply Lock_twp; [exact I3|repeat constructor; lia|]. intros s4 I4 S4 B4 _. apply twp_ret.
        eapply HQ; [exact I4|done|by do 2 (etransitivity; [eassumption|])|by do 2 (etransitivity; [eassumption|])|done].
      * apply twp_bind. eapply Lock_twp; [exact I2|constructor|]. intros s3 I3 S3 B3 _.
        eapply Lock_twp; [exact I3|repeat constructor; lia|]. intros s4 I4 S4 B4 _. apply twp_ret.
        eapply HQ; [exact I4|apply Permutation_swap|by do 2 (etransitivity; [eassumption|])|
          by do 2 (etransitivity; [eassumption|])|done].
  - apply twp_bind. eapply ReadBufferBI_twp; [done|done|]. intros s1 I1 S1 B1.
    apply twp_bind. eapply pin_if_visible_twp; [exact I1|by left|]. intros vm2 s2 I2 S2 B2. apply twp_bind.
    apply (twp_mono _ _ _ (fun vm3 s3 => inv [] (t :: P) (buffer_pins vm3 ++ R) b s3 /\ steps s2 s3 /\ still s2 s3
      /\ (frozen = true -> page_items s2 t = 0 -> vm3 = Some (HEAPBLK_TO_MAPBLOCK t)))).
    { destruct frozen; [|by apply twp_ret]. unfold max_offset. apply twp_bind, twp_bind.
      eapply page_at_twp; [exact I2|by left|]. apply twp_ret. fold (page_items s2 t).
      destruct (Z.eqb_spec (page_items s2 t) 0) as [E|E]; [|by apply twp_ret].
      eapply vm_pin_twp; [exact I2|done|eapply in_rel_steps; [|exact Ht]; by etransitivity|].
      intros s3 I3 S3 B3 _ _. done. }
    intros vm3 s3 (I3 & S3 & B3 & Hfr). apply twp_bind.
    eapply Lock_twp; [exact I3|constructor|]. intros s4 I4 S4 B4 _. apply twp_ret.
    eapply HQ; [exact I4|done|by do 3 (etransitivity; [eassumption|])|by do 3 (etransitivity; [eassumption|])|].
    intros Hq Hf _ E. apply Hfr; [done|]. rewrite <- E. symmetry. apply page_items_quiet; [by etransitivity|done].
Qed.

(** ** A new page *)

Definition initialized (s : TargetState) (t : Z) : Prop := exists p, t_heap s !! t = Some p /\ page_sane p.

Lemma init_page_steps s t : t_heap s !! t = None ->
  let s' := with_theap (<[t := PageInit]> (t_heap s)) s in
  steps s s' /\ still s s' /\ (forall bn, visible_page s' bn = visible_page s bn)
  /\ (forall bn, page_items s' bn = page_items s bn).
Proof.
  intros Hn s'. destruct page_init_law as (_ & Hv & Hm).
  assert (Hh : forall bn, t_heap s' !! bn = if decide (bn = t) then Some PageInit else t_heap s !! bn).
  { intros bn. cbn. destruct (decide (bn = t)) as [->|]; [by rewrite lookup_insert_eq|by rewrite lookup_insert_ne]. }
  split; [|split; [done|]].
  - split; [cbn; lia| |].
    + intros bn Hb. rewrite Hh. by case_decide.
    + intros _. split; [|done]. intros bn. rewrite Hh. case_decide as E; [subst; by right|by left].
  - split; intros bn; unfold visible_page, page_items; rewrite Hh; case_decide as E; subst; rewrite ?Hn; done.
Qed.

Lemma init_if_new_twp t L P R b s (Q : unit -> TargetState -> Prop) : inv L P R b s -> t ∈ L -> t ∈ P ->
  (forall s', inv L P R b s' -> steps s s' -> still s s' -> initialized s' t ->
     (forall bn, visible_page s' bn = visible_page s bn) -> (forall bn, page_items s' bn = page_items s bn) -> Q tt s') ->
  T (init_if_new t) Q s.
Proof.
  intros Hi HtL HtP HQ. unfold init_if_new, PageIsNew. apply twp_bind, twp_bind.
  eapply page_at_twp; [done|done|]. apply twp_ret. destruct (t_heap s !! t) as [p|] eqn:E.
  - apply twp_ret. apply HQ; try done. exists p. split; [done|]. by apply (so_heap _ (i_ok _ _ _ _ _ Hi) _ _ E).
  - eapply set_page_twp; [done|done|done|apply page_init_law|]. intros I1.
    destruct (init_page_steps s t E) as (S1 & B1 & V1 & M1).
    apply HQ; try done. exists PageInit. split; [apply lookup_insert_eq|apply page_init_law].
Qed.

Lemma heap_free_space_twp t L P R b s (Q : Z -> TargetState -> Prop) : inv L P R b s -> t ∈ P ->
  (forall p, t_heap s !! t = Some p -> Q (PageGetHeapFreeSpace p) s) -> initialized s t ->
  T (heap_free_space t) Q s.
Proof.
  intros Hi Ht HQ (p & E & _). unfold heap_free_space. apply twp_bind. eapply page_at_twp; [done|done|].
  rewrite E. apply twp_ret. by apply HQ.
Qed.

Lemma unlock_target_twp t other L P R b s (Q : unit -> TargetState -> Prop) :
  inv L (target_pins t other ++ P) R b s -> L ≡ₚ both_locks t other ->
  (forall s', inv [] P R b s' -> steps s s' -> still s s' -> Q tt s') ->
  T (unlock_target t other) Q s.
Proof.
  intros Hi HL HQ. unfold unlock_target, both_locks, target_pins in *. apply twp_bind.
  eapply Unlock_twp; [exact Hi|rewrite HL; repeat case_match; set_solver|]. intros s1 L1 EL _ I1 S1 B1 _.
  rewrite EL in HL. destruct other as [o|].
  - destruct (o =? t).
    + apply Permutation_cons_inv, Permutation_nil_r in HL as ->. apply twp_ret. by apply HQ.
    + apply Permutation_cons_inv in HL. apply twp_bind.
      eapply Unlock_twp; [exact I1|rewrite HL; by left|]. intros s2 L2 EL2 _ I2 S2 B2 _. rewrite EL2 in HL.
      apply Permutation_cons_inv, Permutation_nil_r in HL as ->.
      eapply Release_twp; [exact I2|]. intros s3 I3 S3 B3 _.
      apply HQ; [done|by do 2 (etransitivity; [eassumption|])..].
  - apply Permutation_cons_inv, Permutation_nil_r in HL as ->.
    eapply Release_twp; [exact I1|]. intros s2 I2 S2 B2 _. apply HQ; [done|by etransitivity..].
Qed.

(** ** Where to look next

    Alone, the search ends: the pages of the bulk extension are used up, and
    each page that turns out too small leaves the free space map's
    candidates. *)
Definition candidates (tf : Z) (s : TargetState) : gmap Z Z :=
  filter (fun x => tf <= x.2) (free_map (t_rel s)).

Definition measure (tf : Z) (s : TargetState) (t : Z) : Z :=
  2 * bulk_range s + Z.of_nat (size (candidates tf s))
  + (if decide (t = InvalidBlockNumber) then 0 else if decide (is_Some (candidates tf s !! t)) then 1 else 2).

Lemma bulk_range_nonneg s : storage_ok s -> 0 <= bulk_range s.
Proof.
  intros Hok. unfold bulk_range. destruct (bulk (t_rel s)) as [bi|] eqn:E; [|done].
  destruct (Z.eqb_spec (next_free bi) InvalidBlockNumber); [done|].
  destruct (so_bulk s Hok bi E) as [|[? ?]]; [done|lia].
Qed.

Lemma measure_nonneg tf s t : storage_ok s -> 0 <= measure tf s t.
Proof. intros Hok%bulk_range_nonneg. unfold measure. repeat case_decide; lia. Qed.

Lemma measure_still tf s s' t : still s s' -> quiet -> measure tf s' t = measure tf s t.
Proof. intros Hs Hq. destruct (Hs Hq) as (E1 & E2 & _). unfold measure, candidates. by rewrite E1, E2. Qed.

(** Recording too little space takes a page out. *)
Lemma record_candidates tf (m : gmap Z Z) t free : free < tf ->
  filter (fun x => tf <= x.2) (<[t := free]> m) = delete t (filter (fun x => tf <= x.2) m).
Proof.
  intros Hf. rewrite map_filter_insert_False by (cbn; lia). apply map_filter_delete.
Qed.

Lemma RecordPage_twp P R b s t free (Q : unit -> TargetState -> Prop) : inv [] P R b s -> in_rel s t ->
  (forall s', inv [] P R b s' -> steps s s' -> free_map (t_rel s') = <[t := free]> (free_map (t_rel s)) ->
     bulk (t_rel s') = bulk (t_rel s) -> t_heap s' = t_heap s -> nblocks (t_rel s') = nblocks (t_rel s) ->
     locks (t_rel s') = locks (t_rel s) -> Q tt s') ->
  T (RecordPageWithFreeSpace t free) Q s.
Proof.
  intros Hi Ht HQ. unfold RecordPageWithFreeSpace. apply twp_bind. eapply note_io_twp; [done|done|].
  intros s1 I1 S1 B1 Hh1 _ En1 Ef1 Eb1. apply twp_modify. apply HQ; cbn; try done.
  - destruct I1 as [Hok ? ? ? ?]. split; try done. destruct Hok as [? ? ? Hf ? ? ? ?]. split; try done. cbn.
    intros bn a. destruct (decide (bn = t)) as [->|Hne]; [intros _; unfold in_rel in *; cbn; lia|].
    rewrite lookup_insert_ne by done. apply Hf.
  - destruct S1. by split.
  - by rewrite Ef1.
  - destruct I1, Hi. congruence.
Qed.

Lemma search_in_rel s need : storage_ok s ->
  let t := fsm_search (free_map (t_rel s)) need in
  t = InvalidBlockNumber \/ in_rel s t /\ is_Some (candidates need s !! t).
Proof.
  intros Hok t. destruct (fsm_search_law (free_map (t_rel s)) need) as [E|(a & E & Ha)]; [by left|right].
  split; [by eapply (so_fsm s Hok)|]. exists a. apply map_lookup_filter_Some. done.
Qed.

(** The free space map is told of a page that is too small, and asked. *)
Lemma RecordAndGet_twp P R b s t free tf (Q : Z -> TargetState -> Prop) : inv [] P R b s -> in_rel s t -> free < tf ->
  t <> InvalidBlockNumber ->
  (forall t' s', inv [] P R b s' -> steps s s' -> t' = InvalidBlockNumber \/ in_rel s' t' ->
     measure tf s' t' < measure tf s t -> nblocks (t_rel s') = nblocks (t_rel s) -> Q t' s') ->
  T (RecordAndGetPageWithFreeSpace t free tf) Q s.
Proof.
  intros Hi Ht Hfree Hne HQ. unfold RecordAndGetPageWithFreeSpace. apply twp_bind.
  eapply RecordPage_twp; [done|done|]. intros s1 I1 S1 E1 Eb1 _ En1 _. apply twp_gets.
  assert (Hr := search_in_rel s1 tf (i_ok _ _ _ _ _ I1)). cbn in Hr.
  apply HQ; [done|done|destruct Hr as [|[? _]]; auto| |done].
  assert (Ec : candidates tf s1 = delete t (candidates tf s)).
  { unfold candidates. rewrite E1. by apply record_candidates. }
  assert (Er : bulk_range s1 = bulk_range s) by (unfold bulk_range; by rewrite Eb1).
  unfold measure. rewrite Er, (decide_False (P := t = InvalidBlockNumber)) by done.
  rewrite Ec. set (t' := fsm_search _ _) in *.
  destruct (candidates tf s !! t) as [a|] eqn:Et.
  - assert (Hsz : size (candidates tf s) <> 0%nat).
    { intros E0%map_size_empty_iff. by rewrite E0 in Et. }
    rewrite map_size_delete_Some by done. rewrite (decide_True (P := is_Some (Some a))) by done.
    destruct Hr as [->|[_ Hc]]; [rewrite decide_True by done; lia|]. rewrite Ec in Hc.
    case_decide; [lia|]. rewrite decide_True by done. lia.
  - rewrite map_size_delete_None by done. rewrite (decide_False (P := is_Some None)) by (by intros [? ?]).
    destruct Hr as [->|[_ Hc]]; [rewrite decide_True by done; lia|]. rewrite Ec in Hc.
    case_decide; [lia|]. rewrite decide_True by done. lia.
Qed.

Lemma next_target_twp P R b s t free tf (use_fsm : bool) (Q : Z -> TargetState -> Prop) :
  inv [] P R b s -> in_rel s t -> free < tf -> t <> InvalidBlockNumber ->
  (forall t' s', inv [] P R b s' -> steps s s' -> t' = InvalidBlockNumber \/ in_rel s' t' ->
     measure tf s' t' < measure tf s t -> nblocks (t_rel s') = nblocks (t_rel s) -> Q t' s') ->
  T (next_target use_fsm t free tf) Q s.
Proof.
  intros Hi Ht Hfree Hne HQ. unfold next_target. twps.
  assert (Hfsm : T (if use_fsm then RecordAndGetPageWithFreeSpace t free tf else ret InvalidBlockNumber) Q s).
  { destruct use_fsm; [by eapply RecordAndGet_twp|]. apply twp_ret. apply HQ; [done|done|by left| |done].
    unfold measure. rewrite decide_True, (decide_False (P := t = _)) by done. case_decide; lia. }
  destruct (bulk (t_rel s)) as [bi|] eqn:E; [|exact Hfsm].
  destruct (Z.eqb_spec (next_free bi) InvalidBlockNumber) as [En|En]; [exact Hfsm|].
  destruct (so_bulk s (i_ok _ _ _ _ _ Hi) bi E) as [|[Hnl Hl]]; [done|].
  apply twp_bind. apply (twp_mono _ _ _ (fun _ s1 => inv [] P R b s1 /\ steps s s1 /\ bulk (t_rel s1) = Some bi
    /\ (size (candidates tf s1) <= size (candidates tf s))%nat /\ nblocks (t_rel s1) = nblocks (t_rel s))).
  { destruct use_fsm; [|by apply twp_ret]. eapply RecordPage_twp; [done|done|].
    intros s1 I1 S1 E1 Eb1 _ En1 _. split_and!; try done; [congruence|]. unfold candidates. rewrite E1.
    rewrite record_candidates, map_size_delete by done. case_match; unfold id; lia. }
  intros _ s1 (I1 & S1 & E1 & Hsz & Enb). set (bi' := if last_free bi <=? next_free bi then _ else _). twps.
  assert (Hi32 : InvalidBlockNumber = 2 ^ 32 - 1) by apply invalid_block.
  pose proof (so_size s (i_ok _ _ _ _ _ Hi)) as Hsize.
  assert (Hnext : u32 (next_free bi + 1) = next_free bi + 1) by (apply uwrap_small; lia).
  assert (Hbi' : current_buf bi' = current_buf bi /\ range_ok s1 bi').
  { unfold bi', range_ok. destruct (Z.leb_spec (last_free bi) (next_free bi)); cbn; split; auto. right.
    rewrite Hnext. destruct S1. lia. }
  assert (Hbt : b = true) by (eapply bulk_true; [exact I1|exact E1]).
  apply HQ.
  - eapply with_bulk_inv; [exact I1|done|apply Hbi'|]. rewrite E1. cbn. by rewrite (proj1 Hbi').
  - etransitivity; [exact S1|]. apply with_bulk_steps.
  - right. destruct S1. unfold in_rel. cbn. lia.
  - unfold measure. cbn [bulk_range]. assert (Hr : bulk_range (with_rel (with_bulk (Some bi')) s1) < bulk_range s).
    { unfold bulk_range. cbn. rewrite E, (proj2 (Z.eqb_neq _ _) En). unfold bi'.
      destruct (Z.leb_spec (last_free bi) (next_free bi)); cbn; [rewrite Z.eqb_refl; lia|].
      rewrite Hnext. destruct (_ =? _); lia. }
    assert (Hc : candidates tf (with_rel (with_bulk (Some bi')) s1) = candidates tf s1) by done. rewrite Hc.
    rewrite (decide_False (P := t = _)) by done. repeat case_decide; lia.
  - exact Enb.
Qed.
End target.

Section target.
Context `{HP : PgBlockSize} `{HBL : !PgBlockSizeLaws} `{HM : PageMacros} `{HO : PageOps}.
Context `{HPO : HeapPageOps} `{HPL : !HeapPageLaws} `{HV : VmEnv} `{HVL : !VmLaws}.
Context `{HTE : TargetEnv} `{HOB : OtherBackends} `{HTL : !TargetLaws}.
Variables (nf er : Prop).
Local Abbreviation T := (twp (allowed nf) (allowed er)).

(** ** RelationAddBlocks *)

(** Alone, there is room for as many blocks as are added at once. *)
Definition can_grow (s : TargetState) : Prop :=
  er \/ quiet /\ nblocks (t_rel s) + MAX_BUFFERS_TO_EXTEND_BY <= InvalidBlockNumber.

Lemma Extend_twp P R b k s (Q : Z * Z -> TargetState -> Prop) : inv [] P R b s ->
  1 <= k <= MAX_BUFFERS_TO_EXTEND_BY -> can_grow s ->
  (forall first n s', inv [first] (seqZ first n ++ P) R b s' -> 1 <= n <= k -> steps s s' ->
     t_heap s' !! first = None -> nblocks (t_rel s) <= first -> nblocks (t_rel s') = first + n ->
     (quiet -> first = nblocks (t_rel s)) -> bulk (t_rel s') = bulk (t_rel s) -> Q (first, n) s') ->
  T (ExtendBufferedRelBy k) Q s.
Proof.
  intros Hi Hk Hroom HQ. unfold ExtendBufferedRelBy. apply twp_bind. eapply note_io_twp; [done|done|].
  intros s1 I1 S1 B1 _ _ En1 _ Eb1. twps. eapply tick_twp; [done|]. intros s2 I2 S2 B2 _ _ Eb2 _. twps.
  set (first := nblocks (t_rel s2)). set (n := extend_grant _ k).
  assert (Hn : 1 <= n <= k) by (apply extend_grant_law; lia).
  destruct (Z.ltb_spec InvalidBlockNumber (first + n)) as [Hbig|Hfit].
  { destruct Hroom as [He|[Hq Hroom]]; [by split; [|apply I2]|]. destruct (B2 Hq) as (_ & _ & En2). unfold first in Hbig. lia. }
  twps. pose proof I2 as [Hok HL2 Hp2 HR2 Hb2].
  assert (Hfirst : t_heap s2 !! first = None).
  { apply eq_None_not_Some. intros [p Hp]. destruct (so_heap s2 Hok _ _ Hp) as [Hin _]. unfold in_rel, first in Hin. lia. }
  apply HQ; cbn; try done.
  - destruct Hok as [Hv Hsz Hh Hf Ht Hpn Hbk Hlg].
    split; cbn; [|by rewrite HL2|rewrite Hp2; by rewrite !app_assoc, (Permutation_app_comm (seqZ _ _))|done|done].
    split; cbn; try done; unfold in_rel in *; cbn.
    + lia.
    + intros bn p Hp. destruct (Hh bn p Hp). split; [unfold first; lia|done].
    + intros bn a Ha. specialize (Hf bn a Ha). unfold first. lia.
    + destruct Ht as [|Ht]; [by left|right]. unfold first. lia.
    + apply Forall_app. split; apply Forall_forall.
      * intros x Hx%elem_of_seqZ. unfold first in *. lia.
      * intros x Hx. rewrite Forall_forall in Hpn. specialize (Hpn x Hx). cbn in Hpn. unfold first. lia.
    + intros bi Hbi. destruct (Hbk bi Hbi) as [|[? ?]]; [by left|right]. unfold first. lia.
  - etransitivity; [exact S1|]. etransitivity; [exact S2|]. split; cbn; [unfold first; lia|done|].
    intros _. split; [by left|done].
  - destruct S1, S2. unfold first. lia.
  - intros Hq. destruct (B2 Hq) as (_ & _ & En2). unfold first. congruence.
  - congruence.
Qed.

Lemma release_victims_twp n : forall L P R b s first nif (use_fsm : bool) i (Q : unit -> TargetState -> Prop),
  inv L (seqZ (first + i) (Z.of_nat n) ++ P) R b s -> (forall j, i <= j < i + Z.of_nat n ->
    use_fsm = true -> nif <= j -> L = []) ->
  (forall s', inv L P R b s' -> steps s s' -> t_heap s' = t_heap s -> nblocks (t_rel s') = nblocks (t_rel s) ->
     bulk (t_rel s') = bulk (t_rel s) -> Q tt s') ->
  T (release_victims n first nif use_fsm i) Q s.
Proof.
  induction n as [|n IH]; intros L P R b s first nif use_fsm i Q Hi HL HQ.
  { apply twp_ret. by apply HQ. }
  cbn [release_victims]. rewrite seqZ_cons in Hi by lia. cbn [app] in Hi.
  replace (Z.succ (first + i)) with (first + (i + 1)) in Hi by lia.
  replace (Z.pred (Z.of_nat (S n))) with (Z.of_nat n) in Hi by lia.
  assert (Hin : in_rel s (first + i)) by (eapply inv_pinned; [exact Hi|by left]).
  apply twp_bind. unfold ReleaseBuffer_heap.
  assert (Hpin : first + i ∈ pins (t_rel s)) by (eapply inv_pinned; [exact Hi|by left]).
  destruct (remove_pin_spec _ _ Hpin) as (l & El & Hl). twps. eapply twp_defined; [exact El|]. apply twp_modify.
  set (s1 := with_rel (with_pins l) s).
  assert (I1 : inv L (seqZ (first + (i + 1)) (Z.of_nat n) ++ P) R b s1).
  { destruct Hi as [Hok HLs Hp HR Hb]. split; try done.
    - apply with_rel_ok; try done; [|apply Hok]. cbn.
      assert (HF : Forall (in_rel s) (first + i :: l)) by (rewrite <- Hl; apply Hok). by apply Forall_cons in HF as [_ ?].
    - cbn. rewrite Hl, <- Permutation_middle in Hp. by apply Permutation_cons_inv in Hp. }
  apply twp_bind. apply (twp_mono _ _ _ (fun _ s2 => inv L (seqZ (first + (i + 1)) (Z.of_nat n) ++ P) R b s2
    /\ steps s s2 /\ t_heap s2 = t_heap s /\ nblocks (t_rel s2) = nblocks (t_rel s) /\ bulk (t_rel s2) = bulk (t_rel s))).
  { assert (S1 : steps s s1) by (by split; [done|done|intros _; split; [by left|done]]).
    destruct (use_fsm && (nif <=? i)) eqn:E; [|by apply twp_ret].
    apply andb_true_iff in E as [-> E%Z.leb_le]. rewrite (HL i) in I1 |- * by (done || lia).
    eapply RecordPage_twp; [exact I1|exact Hin|]. intros s2 I2 S2 _ Eb2 Eh2 En2 _.
    split_and!; try done. by etransitivity. }
  intros _ s2 (I2 & S2 & Eh2 & En2 & Eb2).
  eapply IH; [exact I2|intros j Hj; apply HL; lia|]. intros s3 I3 S3 Eh3 En3 Eb3.
  apply HQ; try congruence. by etransitivity.
Qed.

(** The new page: its block, and whether it has been unlocked. *)
Record extended (s : TargetState) (bn : Z) (unlocked : bool) (s' : TargetState) : Prop := {
  ex_page : t_heap s' !! bn = Some PageInit;
  ex_block : nblocks (t_rel s) <= bn < nblocks (t_rel s');
  ex_steps : steps s s';
  ex_size : quiet -> nblocks (t_rel s') <= nblocks (t_rel s) + MAX_BUFFERS_TO_EXTEND_BY;
}.

Lemma extend_by_range bi num_pages w : 1 <= num_pages < 2 ^ 13 -> 0 <= w < 2 ^ 18 ->
  1 <= extend_by_pages bi num_pages w <= MAX_BUFFERS_TO_EXTEND_BY.
Proof.
  intros Hn Hw. unfold extend_by_pages, MAX_BUFFERS_TO_EXTEND_BY.
  assert (0 <= num_pages * w < 2 ^ 31) by nia.
  rewrite (uwrap_small 32 num_pages), (uwrap_small 32 (num_pages * w)), (uwrap_small 32 (_ + _)) by lia.
  destruct bi; lia.
Qed.

(** How many pages to ask for. *)
Lemma pages_wanted_twp num_pages (use_fsm : bool) bi s (Q : Z -> TargetState -> Prop) : 1 <= num_pages < 2 ^ 13 ->
  (forall k, 1 <= k <= MAX_BUFFERS_TO_EXTEND_BY -> Q k s) ->
  T (match bi with
     | None =>
         if negb use_fsm then ret 1
         else
           let* n := rel_gets clock in
           ret (extend_by_pages None num_pages
                  (if RELATION_IS_LOCAL then 0 else RelationExtensionLockWaiterCount n))
     | Some bi =>
         let* n := rel_gets clock in
         ret (extend_by_pages (Some bi) num_pages
                (if RELATION_IS_LOCAL then 0 else RelationExtensionLockWaiterCount n))
     end) Q s.
Proof.
  intros Hn HQ. assert (Hw : forall n, 0 <= (if RELATION_IS_LOCAL then 0 else RelationExtensionLockWaiterCount n) < 2 ^ 18).
  { intros n. destruct RELATION_IS_LOCAL; [lia|apply waiters_law]. }
  destruct bi as [bi|]; [|destruct use_fsm; cbn [negb]]; twps; apply HQ; try (by apply extend_by_range).
  unfold MAX_BUFFERS_TO_EXTEND_BY. lia.
Qed.

Lemma drop_bulk_twp L P R b s (Q : unit -> TargetState -> Prop) : inv L P R b s ->
  (forall s', inv L P R b s' -> steps s s' -> still s s' ->
     bulk (t_rel s') = with_current None <$> bulk (t_rel s) -> Q tt s') ->
  T (match bulk (t_rel s) with Some bi => drop_current bi | None => ret tt end) Q s.
Proof.
  intros Hi HQ. destruct (bulk (t_rel s)) as [bi|] eqn:E; [|apply twp_ret; by apply HQ].
  eapply drop_current_twp; [done|done|]. auto.
Qed.

(** The extension is remembered in the bulk-insert state. *)
Lemma keep_extension_twp L P R b s bi first n (Q : unit -> TargetState -> Prop) : inv L P R b s ->
  bulk (t_rel s) = with_current None <$> bi -> in_rel s first -> 1 <= n -> first + n = nblocks (t_rel s) ->
  (forall s', inv L P R b s' -> steps s s' -> t_heap s' = t_heap s -> nblocks (t_rel s') = nblocks (t_rel s) -> Q tt s') ->
  T (match bi with
     | Some bi =>
         IncrBufferRefCount first;;;
         rel_modify (with_bulk (Some
           {| current_buf := Some first;
              next_free := if 1 <? n then first + 1 else InvalidBlockNumber;
              last_free := if 1 <? n then first + (n - 1) else InvalidBlockNumber;
              already_extended_by := u32 (already_extended_by bi + n) |}))
     | None => ret tt
     end) Q s.
Proof.
  intros Hi E Hf Hn Hsz HQ. destruct bi as [bi|]; [|apply twp_ret; by apply HQ].
  cbn in E. apply twp_bind. unfold IncrBufferRefCount. apply twp_modify.
  set (s1 := with_rel _ s). apply twp_modify. pose proof Hi as [Hok HL Hp HR Hb].
  set (bi' := {| current_buf := Some first |}).
  assert (Hs : steps s (with_rel (with_bulk (Some bi')) s1)).
  { split; [done|done|]. intros _. split; [by left|done]. }
  apply HQ; try done. split; try done.
  - destruct Hok as [? ? ? ? ? Hpn ? ?]. split; try done; cbn.
    + constructor; [done|exact Hpn].
    + intros bi2 [= <-]. unfold bi'. cbn. destruct (Z.ltb_spec 1 n); [right|by left].
      unfold in_rel in Hf. lia.
  - cbn. rewrite Hp, E. done.
  - rewrite Hb, E. by rewrite !bool_decide_eq_true_2.
Qed.

Lemma RelationAddBlocks_twp P R b num_pages (use_fsm : bool) s (Q : Z * bool -> TargetState -> Prop) :
  inv [] P R b s -> 1 <= num_pages < 2 ^ 13 -> can_grow s ->
  (forall bn unlocked s', inv (if (unlocked : bool) then [] else [bn]) (bn :: P) R b s' ->
     extended s bn unlocked s' -> Q (bn, unlocked) s') ->
  T (RelationAddBlocks num_pages use_fsm) Q s.
Proof.
  intros Hi Hnum Hroom HQ. unfold RelationAddBlocks. apply twp_bind, twp_gets. apply twp_bind.
  apply pages_wanted_twp; [done|]. intros k Hk. 
  set (nif := match bulk (t_rel s) with None => if 1 <? num_pages then 1 else u32 num_pages | Some _ => u32 num_pages end).
  apply twp_bind. eapply drop_bulk_twp; [exact Hi|]. intros s1 I1 S1 B1 Eb1.
  assert (Hroom1 : can_grow s1).
  { destruct Hroom as [He|[Hq Hr]]; [by left|right]. destruct (B1 Hq) as (_ & _ & ->). done. }
  apply twp_bind. eapply Extend_twp; [exact I1|exact Hk|exact Hroom1|].
  intros first n s2 I2 Hn S2 Hnew Hge Hsz Hqf Eb2. cbn beta iota.
  assert (Hf2 : in_rel s2 first) by (destruct (so_size s1 (i_ok _ _ _ _ _ I1)); unfold in_rel; lia).
  assert (Hfp : first ∈ seqZ first n ++ P) by (apply elem_of_app; left; apply elem_of_seqZ; lia).
  unfold PageIsNew. apply twp_bind, twp_bind. eapply page_at_twp; [exact I2|done|]. rewrite Hnew. apply twp_ret.
  cbn [negb]. apply twp_bind. eapply set_page_twp; [exact I2|done|by left|apply page_init_law|]. intros I3.
  destruct (init_page_steps s2 first Hnew) as (S3 & _ & _ & _). set (s3 := with_theap _ s2) in *.
  assert (Eh3 : t_heap s3 !! first = Some PageInit) by apply lookup_insert_eq.
  set (to_fsm := use_fsm && (nif <? n)). apply twp_bind.
  apply (twp_mono _ _ _ (fun _ s4 => inv (if to_fsm then [] else [first]) (seqZ first n ++ P) R b s4 /\ steps s3 s4
    /\ t_heap s4 = t_heap s3 /\ nblocks (t_rel s4) = nblocks (t_rel s3) /\ bulk (t_rel s4) = bulk (t_rel s3))).
  { destruct to_fsm; [|by apply twp_ret]. unfold LockBuffer_UNLOCK. twps. rewrite (i_locks _ _ _ _ _ I3).
    cbn [remove_pin]. rewrite Z.eqb_refl. eapply twp_defined; [done|]. apply twp_modify.
    split_and!; try done; [by eapply with_locks_inv|].
    by split; [done|done|intros _; split; [by left|done]]. }
  intros _ s4 (I4 & S4 & Eh4 & En4 & Eb4). apply twp_bind.
  rewrite seqZ_cons in I4 by lia. cbn [app] in I4.
  assert (I4' : inv (if to_fsm then [] else [first]) (seqZ (first + 1) (Z.of_nat (Z.to_nat (n - 1))) ++ first :: P) R b s4).
  { eapply inv_perm; [exact I4| |done]. rewrite Z2Nat.id by lia. rewrite <- Permutation_middle.
    replace (Z.succ first) with (first + 1) by lia. by replace (Z.pred n) with (n - 1) by lia. }
  eapply release_victims_twp; [exact I4'| |].
  { intros j Hj Hu Hle. unfold to_fsm. rewrite Hu, (proj2 (Z.ltb_lt nif n)) by lia. done. }
  intros s5 I5 S5 Eh5 En5 Eb5. apply twp_bind.
  apply (twp_mono _ _ _ (fun _ s6 => inv (if to_fsm then [] else [first]) (first :: P) R b s6 /\ steps s5 s6
    /\ t_heap s6 = t_heap s5 /\ nblocks (t_rel s6) = nblocks (t_rel s5) /\ bulk (t_rel s6) = bulk (t_rel s5))).
  { destruct to_fsm; [|by apply twp_ret]. eapply note_io_twp; [exact I5|done|]. intros. by split_and!. }
  intros _ s6 (I6 & S6 & Eh6 & En6 & Eb6).
  assert (En : nblocks (t_rel s6) = first + n) by (rewrite En6, En5, En4; exact Hsz).
  apply twp_bind. eapply keep_extension_twp; [exact I6|rewrite Eb6, Eb5, Eb4; cbn; congruence|unfold in_rel; destruct Hf2; lia|lia|lia|].
  intros s7 I7 S7 Eh7 En7. apply twp_ret. apply HQ; [exact I7|]. split.
  - by rewrite Eh7, Eh6, Eh5, Eh4.
  - destruct S1. lia.
  - by do 6 (etransitivity; [eassumption|]).
  - intros Hq. destruct (B1 Hq) as (_ & _ & E1). rewrite En7, En, (Hqf Hq). lia.
Qed.

(** ** After an extension *)

Lemma relock_twp t other L P R b (unlocked : bool) s (Q : bool * bool -> TargetState -> Prop) :
  inv L P R b s -> L = (if unlocked then [] else [t]) -> (forall o, other = Some o -> o < t) ->
  t_heap s !! t = Some PageInit ->
  (forall (recheck unlocked' : bool) L' s', inv L' P R b s' -> L' ≡ₚ both_locks t other -> steps s s' ->
     still s s' -> (unlocked' = false -> t_heap s' !! t = Some PageInit) -> (recheck = false -> other = None /\ unlocked' = false) ->
     Q (recheck, unlocked') s') ->
  T (relock t other unlocked) Q s.
Proof.
  intros Hi HL Ho Hp HQ. unfold relock, both_locks in *. destruct unlocked; subst L.
  - destruct other as [o|].
    + specialize (Ho o eq_refl). rewrite (proj2 (Z.eqb_neq o t)) in HQ by lia.
      apply twp_bind. eapply Lock_twp; [exact Hi|constructor|]. intros s1 I1 S1 B1 _.
      apply twp_bind. eapply Lock_twp; [exact I1|repeat constructor; lia|]. intros s2 I2 S2 B2 _. apply twp_ret.
      eapply HQ; [exact I2|done|by etransitivity|by etransitivity|done|done].
    + apply twp_bind, twp_ret, twp_bind. eapply Lock_twp; [exact Hi|constructor|]. intros s2 I2 S2 B2 _. apply twp_ret.
      by eapply HQ.
  - destruct other as [o|]; [|apply twp_ret; by eapply HQ]. specialize (Ho o eq_refl).
    rewrite (proj2 (Z.eqb_neq o t)) in HQ by lia.
    apply twp_bind. eapply ConditionalLock_twp; [exact Hi|intros ->%list_elem_of_singleton; lia|].
    intros g s1 I1 S1 B1 Hsame. destruct g.
    + apply twp_ret. eapply HQ; [exact I1|apply Permutation_swap|done|done| |done].
      intros _. rewrite <- Hp. apply Hsame. by left.
    + apply twp_bind. eapply Unlock_twp; [exact I1|by left|]. intros s2 L2 EL2 _ I2 S2 B2 _.
      apply Permutation_cons_inv, Permutation_nil_l in EL2 as <-.
      apply twp_bind. eapply Lock_twp; [exact I2|constructor|]. intros s3 I3 S3 B3 _.
      apply twp_bind. eapply Lock_twp; [exact I3|repeat constructor; lia|]. intros s4 I4 S4 B4 _. apply twp_ret.
      eapply HQ; [exact I4|done|by do 3 (etransitivity; [eassumption|])|by do 3 (etransitivity; [eassumption|])|done|done].
Qed.

Record extension_got (other vm vmo : Buffer) (frozen : bool) (s : TargetState) (t : Z) (unlocked : bool)
    (vm' vmo' : Buffer) (s' : TargetState) : Prop := {
  eg_fits : fits s' t vm';
  eg_other o : other = Some o -> fits s' o vmo';
  eg_frozen : frozen = true -> vm' = Some (HEAPBLK_TO_MAPBLOCK t);
  eg_init : initialized s' t;
  eg_same : unlocked = false \/ quiet -> t_heap s' !! t = Some PageInit;
  eg_new : nblocks (t_rel s) <= t;
  eg_steps : steps s s';
  eg_size : quiet -> nblocks (t_rel s') <= nblocks (t_rel s) + MAX_BUFFERS_TO_EXTEND_BY;
}.

(** A page that has been initialized is so later, alone with what it had. *)
Lemma page_later s s' t : storage_ok s' -> steps s s' -> t_heap s !! t = Some PageInit ->
  initialized s' t /\ (quiet -> t_heap s' !! t = Some PageInit).
Proof.
  intros Hok [_ Hk Hq] E. split.
  - destruct (Hk t) as [p Hp]; [by rewrite E|]. exists p. split; [done|]. by apply (so_heap _ Hok _ _ Hp).
  - intros Hqq. destruct (proj1 (Hq Hqq) t) as [->|[E' _]]; congruence.
Qed.

Lemma hidden_fits s t vm : t_heap s !! t = Some PageInit -> fits s t vm.
Proof. intros E. unfold fits, visible_page. rewrite E. destruct page_init_law as (_ & -> & _). done. Qed.

Lemma extend_target_twp other frozen use_fsm num_pages P R b vm vmo s
    (Q : Z * bool * Buffer * Buffer -> TargetState -> Prop) :
  inv [] P (buffer_pins vm ++ buffer_pins vmo ++ R) b s -> (forall o, other = Some o -> o ∈ P) ->
  1 <= num_pages < 2 ^ 13 -> can_grow s ->
  (forall t unlocked vm' vmo' L s', inv L (t :: P) (buffer_pins vm' ++ buffer_pins vmo' ++ R) b s' ->
     L ≡ₚ both_locks t other -> extension_got other vm vmo frozen s t unlocked vm' vmo' s' ->
     Q (t, unlocked, vm', vmo') s') ->
  T (extend_target other frozen use_fsm num_pages vm vmo) Q s.
Proof.
  intros Hi Ho Hnum Hroom HQ. unfold extend_target. apply twp_bind.
  eapply RelationAddBlocks_twp; [exact Hi|done|done|]. intros t unlocked s1 I1 [Ep [Ht1 Ht2] S1 Hsz]. cbn beta iota.
  assert (Hot : forall o, other = Some o -> o < t).
  { intros o E. destruct (inv_pinned _ _ _ _ _ o Hi (Ho o E)) as [_ Hin]. unfold in_rel in Hin. lia. }
  apply twp_bind. apply (twp_mono _ _ _ (fun r s2 => inv (if r.1 : bool then [] else [t]) (t :: P)
      (buffer_pins r.2 ++ buffer_pins vmo ++ R) b s2 /\ steps s1 s2 /\ still s1 s2 /\ t_heap s2 !! t = Some PageInit
      /\ (frozen = true -> r.2 = Some (HEAPBLK_TO_MAPBLOCK t)))).
  { destruct (frozen && negb _) eqn:E.
    - apply andb_true_iff in E as [-> E%negb_true_iff]. apply twp_bind.
      apply (twp_mono _ _ _ (fun _ s2 => inv [] (t :: P) (buffer_pins vm ++ buffer_pins vmo ++ R) b s2
        /\ steps s1 s2 /\ still s1 s2 /\ t_heap s2 = t_heap s1)).
      { destruct unlocked; cbn [negb]; [by apply twp_ret|]. eapply Unlock_twp; [exact I1|by left|].
        intros s2 L2 EL2 _ I2 S2 B2 Eh2. by apply Permutation_cons_inv, Permutation_nil_l in EL2 as <-. }
      intros _ s2 (I2 & S2 & B2 & Eh2). apply twp_bind. eapply vm_pin_twp; [exact I2|done|eapply inv_pinned; [exact I2|by left]|].
      intros s3 I3 S3 B3 Eh3 _. apply twp_ret. split_and!; [exact I3|by etransitivity|by etransitivity| |done].
      cbn. by rewrite Eh3, Eh2.
    - apply twp_ret. split_and!; try done. intros ->. apply pin_ok_spec. by apply negb_false_iff. }
  intros [unlocked2 vm2] s2 (I2 & S2 & B2 & Ep2 & Hfr). cbn [fst snd] in *. apply twp_bind.
  eapply relock_twp; [exact I2|by destruct unlocked2|exact Hot|done|].
  intros recheck unlocked3 L3 s3 I3 EL3 S3 B3 Hp3 Hre. cbn beta iota.
  assert (S03 : steps s s3) by (do 2 (etransitivity; [eassumption|]); done).
  assert (Hsz3 : quiet -> nblocks (t_rel s3) <= nblocks (t_rel s) + MAX_BUFFERS_TO_EXTEND_BY).
  { intros Hq. destruct (B2 Hq) as (_ & _ & E2), (B3 Hq) as (_ & _ & E3). rewrite E3, E2. by apply Hsz. }
  destruct (page_later s2 s3 t (i_ok _ _ _ _ _ I3) S3 Ep2) as [Hin3 Hq3].
  destruct recheck.
  - apply twp_bind. eapply GetVisibilityMapPins_other_twp; [exact I3|exact EL3|by left|intros o E; right; by apply Ho|].
    intros rel vm4 vmo4 L4 s4 I4 EL4 [F1 F2 F3 F4 F5 S4 B4]. cbn beta iota. apply twp_ret.
    destruct (page_later s2 s4 t (i_ok _ _ _ _ _ I4)) as [Hin4 Hq4]; [by etransitivity|done|].
    eapply HQ; [exact I4|exact EL4|]. split; try done.
    + intros Hf. specialize (Hfr Hf). by rewrite (F3 Hfr).
    + intros [[E1 E2]%orb_false_iff|Hq]; [rewrite (F5 E2); by apply Hp3|by apply Hq4].
    + by etransitivity.
    + intros Hq. destruct (B4 Hq) as (_ & _ & E4). rewrite E4. by apply Hsz3.
  - destruct (Hre eq_refl) as [-> ->]. apply twp_ret. eapply HQ; [exact I3|exact EL3|].
    specialize (Hp3 eq_refl). split; try done. by apply hidden_fits.
Qed.

(** ** The loop *)

(** The page that is returned. *)
Record target_got (len : Z) (other : Buffer) (frozen : bool) (P R : list Z) (b : bool) (s : TargetState)
    (t : Z) (vm' vmo' : Buffer) (s' : TargetState) : Prop := {
  tg_inv : exists L, inv L (target_pins t other ++ P) (buffer_pins vm' ++ buffer_pins vmo' ++ R) b s'
                     /\ L ≡ₚ both_locks t other;
  tg_page : exists p, t_heap s' !! t = Some p /\ len <= PageGetHeapFreeSpace p;
  tg_fits : fits s' t vm';
  tg_other o : other = Some o -> fits s' o vmo';
  tg_frozen : quiet -> frozen = true -> other = None -> page_items s' t = 0 -> vm' = Some (HEAPBLK_TO_MAPBLOCK t);
  tg_target : targblock (t_rel s') = t;
  tg_steps : steps s s';
  tg_size : quiet -> nblocks (t_rel s') <= nblocks (t_rel s) + MAX_BUFFERS_TO_EXTEND_BY;
}.

Lemma target_space len : 0 <= len -> len <= targetFreeSpace len.
Proof. intros Hl. pose proof save_law. unfold targetFreeSpace. case_match; lia. Qed.

(** The target is remembered. *)
Lemma set_target_inv L P R b s t : inv L P R b s -> in_rel s t -> inv L P R b (with_rel (with_targblock t) s).
Proof.
  intros [Hok ? ? ? ?] Ht. split; try done. destruct Hok as [? ? ? ? ? ? ? ?]. split; try done. by right.
Qed.

Lemma set_target_got len other frozen P R b s0 s t vm' vmo' L :
  inv L (target_pins t other ++ P) (buffer_pins vm' ++ buffer_pins vmo' ++ R) b s -> L ≡ₚ both_locks t other ->
  (forall o, other = Some o -> o ∈ P) ->
  (exists p, t_heap s !! t = Some p /\ len <= PageGetHeapFreeSpace p) -> fits s t vm' ->
  (forall o, other = Some o -> fits s o vmo') ->
  (quiet -> frozen = true -> other = None -> page_items s t = 0 -> vm' = Some (HEAPBLK_TO_MAPBLOCK t)) ->
  steps s0 s -> (quiet -> nblocks (t_rel s) <= nblocks (t_rel s0) + MAX_BUFFERS_TO_EXTEND_BY) ->
  target_got len other frozen P R b s0 t vm' vmo' (with_rel (with_targblock t) s).
Proof.
  intros Hi HL Ho Hp F1 F2 F3 Hs Hsz. split; try done.
  - exists L. split; [|done]. apply set_target_inv; [done|]. eapply inv_pinned; [exact Hi|]. by apply target_pinned.
  - etransitivity; [exact Hs|]. split; [done|done|]. intros _. split; [by left|done].
Qed.

(** Either there is nothing to show of a run that does not end, or this
    backend is alone and the fuel is enough. *)
Definition enough (tf : Z) (fuel : nat) (s : TargetState) (t : Z) : Prop :=
  nf /\ er \/ quiet /\ measure tf s t < Z.of_nat fuel
                 /\ nblocks (t_rel s) + MAX_BUFFERS_TO_EXTEND_BY <= InvalidBlockNumber.

Lemma enough_can_grow tf fuel s t : enough tf fuel s t -> can_grow s.
Proof. intros [[_ He]|(Hq & _ & Hr)]; [by left|by right]. Qed.

Lemma fits_visible s s' bn vm : visible_page s' bn = visible_page s bn -> fits s bn vm -> fits s' bn vm.
Proof. unfold fits. by intros ->. Qed.

Section loop.
Variables (len : Z) (other : Buffer) (frozen use_fsm : bool) (num_pages : Z).
Hypotheses (Hlen : 0 <= len <= MaxHeapTupleSize) (Hnum : 1 <= num_pages < 2 ^ 13).

Local Abbreviation loop fuel :=
  (target_loop fuel len (targetFreeSpace len) other frozen use_fsm num_pages).
Local Abbreviation tf := (targetFreeSpace len).

(** A round with a page to try, given the rule for the next round. *)
Lemma try_round_twp fuel P R b s0 s t vm vmo (Q : Z * Buffer * Buffer -> TargetState -> Prop) :
  (forall t vm vmo s, inv [] P (buffer_pins vm ++ buffer_pins vmo ++ R) b s ->
     t = InvalidBlockNumber \/ in_rel s t -> steps s0 s -> enough tf fuel s t ->
     (quiet -> nblocks (t_rel s) <= nblocks (t_rel s0)) -> T (loop fuel t vm vmo) Q s) ->
  inv [] P (buffer_pins vm ++ buffer_pins vmo ++ R) b s -> in_rel s t -> t <> InvalidBlockNumber -> steps s0 s ->
  (forall o, other = Some o -> o ∈ P) -> enough tf (S fuel) s t ->
  (quiet -> nblocks (t_rel s) <= nblocks (t_rel s0)) ->
  (forall t vm' vmo' s', target_got len other frozen P R b s0 t vm' vmo' s' -> Q (t, vm', vmo') s') ->
  T (loop (S fuel) t vm vmo) Q s.
Proof.
  intros IH Hi Ht Hne S0 Ho Hen Hsz HQ. cbn [target_loop]. rewrite (proj2 (Z.eqb_neq t _) Hne). cbn [negb].
  apply twp_bind. eapply lock_target_twp; [exact Hi|done|exact Ho|]. intros vm1 L1 s1 I1 EL1 S1 B1 F1.
  pose proof (target_pinned t other P Ho) as Htp.
  apply twp_bind. eapply GetVisibilityMapPins_twp; [exact I1|exact EL1|exact Htp|
    intros o E; apply elem_of_app; right; by apply Ho|].
  intros rel vm2 vmo2 L2 s2 I2 EL2 [G1 G2 G3 G4 G5 S2 B2]. cbn beta iota.
  apply twp_bind. eapply init_if_new_twp; [exact I2| |exact Htp|].
  { rewrite EL2. unfold both_locks. repeat case_match; set_solver. }
  intros s3 I3 S3 B3 Hin3 V3 M3. apply twp_bind. eapply heap_free_space_twp; [exact I3|exact Htp| |exact Hin3].
  intros p Hp. assert (S03 : steps s s3) by (do 2 (etransitivity; [eassumption|]); done).
  assert (B03 : still s s3) by (do 2 (etransitivity; [eassumption|]); done).
  destruct (Z.leb_spec tf (PageGetHeapFreeSpace p)) as [Hfit|Hsmall].
  - apply twp_bind, twp_modify, twp_ret. apply HQ. pose proof (target_space len (proj1 Hlen)).
    eapply set_target_got; [exact I3|exact EL2|exact Ho|exists p; split; [done|lia]|eapply fits_visible; [apply V3|exact G1]|..].
    + intros o E. eapply fits_visible; [apply V3|by apply G2].
    + intros Hq Hf Hn E. rewrite G3; apply F1; try done; rewrite <- E, M3; symmetry; by apply page_items_quiet.
    + by etransitivity.
    + intros Hq. destruct (B03 Hq) as (_ & _ & E). specialize (Hsz Hq). unfold MAX_BUFFERS_TO_EXTEND_BY. lia.
  - apply twp_bind. eapply unlock_target_twp; [exact I3|exact EL2|]. intros s4 I4 S4 B4.
    assert (S04 : steps s s4) by (by etransitivity). assert (B04 : still s s4) by (by etransitivity).
    apply twp_bind. eapply next_target_twp; [exact I4|by eapply in_rel_steps|done|done|].
    intros t5 s5 I5 S5 Ht5 Hm5 En5.
    apply IH; [exact I5|exact Ht5|by do 2 (etransitivity; [eassumption|])| |].
    + destruct Hen as [?|(Hq & Hm & Hr)]; [by left|right]. destruct (B04 Hq) as (_ & _ & En4).
      rewrite (measure_still tf s s4 t B04 Hq) in Hm5. split_and!; [done|lia|by rewrite En5, En4].
    + intros Hq. destruct (B04 Hq) as (_ & _ & En4). rewrite En5, En4. by apply Hsz.
Qed.

Lemma target_loop_twp fuel : forall P R b s0 s t vm vmo (Q : Z * Buffer * Buffer -> TargetState -> Prop),
  inv [] P (buffer_pins vm ++ buffer_pins vmo ++ R) b s -> t = InvalidBlockNumber \/ in_rel s t -> steps s0 s ->
  (forall o, other = Some o -> o ∈ P) -> enough tf fuel s t ->
  (quiet -> nblocks (t_rel s) <= nblocks (t_rel s0)) ->
  (forall t vm' vmo' s', target_got len other frozen P R b s0 t vm' vmo' s' -> Q (t, vm', vmo') s') ->
  T (loop fuel t vm vmo) Q s.
Proof.
  induction fuel as [|fuel IH]; intros P R b s0 s t vm vmo Q Hi Ht S0 Ho Hen Hsz HQ.
  { destruct Hen as [[Hn _]|(_ & Hm & _)]; [by split; [|apply Hi]|].
    pose proof (measure_nonneg tf s t (i_ok _ _ _ _ _ Hi)). lia. }
  destruct (decide (t = InvalidBlockNumber)) as [->|Hne].
  2:{ destruct Ht as [|Ht]; [done|]. eapply try_round_twp; try done. intros. by eapply IH. }
  cbn [target_loop]. rewrite Z.eqb_refl. cbn [negb]. apply twp_bind.
  eapply extend_target_twp; [exact Hi|exact Ho|done|by eapply enough_can_grow|].
  intros t unlocked vm1 vmo1 L1 s1 I1 EL1 [F1 F2 F3 Hin1 Hsame Hnew S1 Hsz1]. cbn beta iota.
  assert (Etp : target_pins t other = [t]).
  { unfold target_pins. destruct other as [o|]; [|done]. destruct (inv_pinned _ _ _ _ _ o Hi (Ho o eq_refl)) as [_ Hoin].
    rewrite (proj2 (Z.eqb_neq o t)) by (unfold in_rel in Hoin; lia). done. }
  apply twp_bind. eapply heap_free_space_twp; [exact I1|by left| |exact Hin1]. intros p Hp.
  pose proof (tuple_size_law len (proj2 Hlen)) as Hfit.
  destruct (Z.ltb_spec (PageGetHeapFreeSpace p) len) as [Hfull|Hroom].
  - assert (Hun : unlocked = true /\ ~ quiet).
    { destruct unlocked; [split; [done|]|]; [intros Hq|]; assert (E : t_heap s1 !! t = Some PageInit) by auto;
        rewrite E in Hp; injection Hp as <-; lia. }
    destruct Hun as [-> Hnq].
    assert (Hu : T (match other with Some o => LockBuffer_UNLOCK o | None => ret tt end;;;
                    UnlockReleaseBuffer t;;; loop fuel t vm1 vmo1) Q s1); [|exact Hu].
    apply twp_bind. apply (twp_mono _ _ _ (fun _ s2 => inv [t] (t :: P) (buffer_pins vm1 ++ buffer_pins vmo1 ++ R) b s2
      /\ steps s1 s2)).
    { unfold both_locks, target_pins in *. destruct other as [o|].
      - destruct (o =? t); [done|]. eapply Unlock_twp; [exact I1|rewrite EL1; right; by left|].
        intros s2 L2 EL2 _ I2 S2 _ _. rewrite EL1, (Permutation_swap o t []) in EL2.
        apply Permutation_cons_inv, Permutation_singleton_l in EL2 as ->. done.
      - apply twp_ret. symmetry in EL1. apply Permutation_singleton_l in EL1 as ->. done. }
    intros _ s2 (I2 & S2). apply twp_bind, twp_bind. eapply Unlock_twp; [exact I2|by left|].
    intros s3 L3 EL3 _ I3 S3 _ _. apply Permutation_cons_inv, Permutation_nil_l in EL3 as <-.
    eapply Release_twp; [exact I3|]. intros s4 I4 S4 _ _.
    assert (S04 : steps s s4) by (do 3 (etransitivity; [eassumption|]); done).
    eapply (IH P R b s0); [exact I4| |by etransitivity|exact Ho| |done|exact HQ].
    + right. eapply in_rel_steps; [exact S4|]. eapply in_rel_steps; [exact S3|]. eapply inv_pinned; [exact I2|by left].
    + destruct Hen as [?|(Hq & _)]; [by left|done].
  - apply twp_bind, twp_modify, twp_ret. apply HQ.
    eapply set_target_got; [rewrite Etp; exact I1|exact EL1|exact Ho|by exists p|exact F1|exact F2| |by etransitivity|].
    + intros _ Hf _ _. by apply F3.
    + intros Hq. specialize (Hsz Hq). specialize (Hsz1 Hq). lia.
Qed.
End loop.
End target.
