(* ===== verification/TargetClaims.v ===== *)
(** What the choice of a page promises, whatever other backends do, and that
    it ends when they do nothing.  [ToyTarget] is a small relation, with and
    without other backends at work. *)
From S2P Require Import Prelude EncTuple TupleIO Visibility VisibilityMap VisibilityMapProps VisibilityMapOps VisibilityMapClaims Prune PruneClaims TupleBytes HeapToy Target TargetProps TargetLoop.

Module ToyTarget.
Import ToyPage ToyPrune ToyHeap.

Definition toy_search (m : gmap Z Z) (need : Z) : Z :=
  match list_find (fun x => need <= x.2) (map_to_list m) with
  | Some (_, (bn, _)) => bn
  | None => InvalidBlockNumber
  end.

#[export] Instance target_env : TargetEnv := {|
  HEAP_INSERT_SKIP_FSM := 2;
  HEAP_INSERT_FROZEN := 4;
  SaveFreeSpace := 0;
  MaxHeapTupleSize := 8160;
  MaxHeapTuplesPerPage := 291;
  RELATION_IS_LOCAL := false;
  RelationExtensionLockWaiterCount n := Z.of_nat n mod 4;
  extend_grant _ k := k;
  ConditionalLockBuffer_granted n := Nat.even n;
  fsm_search := toy_search;
|}.

Lemma toy_search_law m need : toy_search m need = InvalidBlockNumber
  \/ exists a, m !! toy_search m need = Some a /\ need <= a.
Proof.
  unfold toy_search. destruct (list_find _ _) as [[i [bn a]]|] eqn:E; [right|by left].
  apply list_find_Some in E as (Hl & Hn & _). exists a. split; [|done].
  by apply elem_of_map_to_list, (list_elem_of_lookup_2 _ i).
Qed.

(** Others that respect the locks are all that is left to show. *)
Lemma toy_laws `{HOB : OtherBackends} : (forall n s, storage_ok s -> undisturbed s (others n s)) -> TargetLaws.
Proof.
  intros Ho. split; try done.
  - apply toy_search_law.
  - intros n. cbn. pose proof (Z.mod_pos_bound (Z.of_nat n) 4). lia.
  - intros len Hlen. assert (H : MaxHeapTupleSize <= PageGetHeapFreeSpace PageInit) by (vm_compute; discriminate). lia.
Qed.

(** A relation of one page with room for one more tuple at most. *)
Definition one_page : TargetState :=
  {| t_vm := ToyMap.empty; t_heap := {[ 0 := PageInit ]};
     t_rel := {| nblocks := 1; free_map := {[ 0 := 8000 ]}; targblock := 0; bulk := None;
                 locks := []; pins := []; clock := 0; log := [] |} |}.

Lemma one_page_ok : storage_ok one_page.
Proof.
  split; cbn.
  - split; [constructor|]. split; [by left|]. split; [done|constructor].
  - done.
  - intros bn p Hp. apply lookup_singleton_Some in Hp as [<- <-]. split; [done|apply toy_init_sane].
  - intros bn a Ha. apply lookup_singleton_Some in Ha as [<- <-]. done.
  - by right.
  - constructor.
  - done.
  - constructor.
Qed.

Module Alone.
#[export] Instance nobody : OtherBackends := {| others _ s := s |}.
#[export] Instance nobody_laws : TargetLaws.
Proof. apply toy_laws. intros n s Hs. by split. Qed.
End Alone.

(** Another backend extends the relation while this one reads a page, and
    declares the page all-visible while this one waits for its lock. *)
Module Busy.
Definition meanwhile (n : nat) (s : TargetState) : TargetState :=
  match n with
  | 0%nat => if nblocks (t_rel s) <? InvalidBlockNumber
             then with_rel (with_nblocks (nblocks (t_rel s) + 1)) s else s
  | 1%nat => match t_heap s !! 0 with
             | Some p => if bool_decide (0 ∈ locks (t_rel s)) then s
                         else with_theap (<[0 := PageSetAllVisible p]> (t_heap s)) s
             | None => s
             end
  | _ => s
  end.
#[export] Instance somebody : OtherBackends := {| others := meanwhile |}.

Lemma extended_undisturbed s : storage_ok s -> nblocks (t_rel s) < InvalidBlockNumber ->
  undisturbed s (with_rel (with_nblocks (nblocks (t_rel s) + 1)) s).
Proof.
  intros [? ? Hh Hf Ht Hp Hb ?] Hlt. assert (Hin : forall bn, in_rel s bn ->
    in_rel (with_rel (with_nblocks (nblocks (t_rel s) + 1)) s) bn) by (intros bn [??]; split; [done|cbn; lia]).
  split; try done; [|cbn; lia]. split; try done; cbn [t_rel t_heap with_rel with_nblocks nblocks free_map targblock bulk pins].
  - lia.
  - intros bn p Hbn. destruct (Hh bn p Hbn). auto.
  - intros bn a Ha. apply Hin. by eapply Hf.
  - destruct Ht; auto.
  - eapply Forall_impl; [exact Hp|auto].
  - intros bi E. destruct (Hb bi E) as [|[? ?]]; [by left|right]. lia.
Qed.

Lemma visible_undisturbed s p : storage_ok s -> t_heap s !! 0 = Some p -> 0 ∉ locks (t_rel s) ->
  undisturbed s (with_theap (<[0 := PageSetAllVisible p]> (t_heap s)) s).
Proof.
  intros Hok Hp Hnl. pose proof (so_heap s Hok 0 p Hp) as [Hin Hsane].
  split; try done; cbn [t_heap with_theap].
  - destruct Hok as [? ? Hh ? ? ? ? ?]. split; try done. intros bn q. cbn [t_heap with_theap].
    destruct (decide (bn = 0)) as [->|Hne].
    + rewrite lookup_insert_eq. intros [= <-]. split; [done|]. destruct (toy_header p 10 1 Hsane) as [Hq _]; [lia|exact Hq].
    + rewrite lookup_insert_ne by done. apply Hh.
  - intros bn Hbn. rewrite lookup_insert_ne; [done|]. by intros <-.
  - intros bn Hbn. destruct (decide (bn = 0)) as [->|Hne]; [by rewrite lookup_insert_eq|by rewrite lookup_insert_ne].
Qed.

#[export] Instance somebody_laws : TargetLaws.
Proof.
  apply toy_laws. intros n s Hs. cbn. unfold meanwhile. destruct n as [|[|n]]; [| |by split].
  - destruct (Z.ltb_spec (nblocks (t_rel s)) InvalidBlockNumber); [by apply extended_undisturbed|by split].
  - destruct (t_heap s !! 0) as [p|] eqn:E; [|by split]. case_bool_decide; [by split|by apply visible_undisturbed].
Qed.
End Busy.
End ToyTarget.

Section claims.
Context `{HP : PgBlockSize} `{HBL : !PgBlockSizeLaws} `{HM : PageMacros} `{HO : PageOps}.
Context `{HPO : HeapPageOps} `{HPL : !HeapPageLaws} `{HV : VmEnv} `{HVL : !VmLaws}.
Context `{HTE : TargetEnv} `{HOB : OtherBackends} `{HTL : !TargetLaws}.

(** What a call starts from: nothing is locked, and the other buffer is
    pinned. *)
Record can_choose (other vm vmo : Buffer) (len num_pages : Z) (P R : list Z) (s : TargetState) : Prop := {
  cc_ok : storage_ok s;
  cc_locks : locks (t_rel s) = [];
  cc_pins : pins (t_rel s) ≡ₚ bulk_pins (bulk (t_rel s)) ++ P;
  cc_vm : pinned (t_vm s) ≡ₚ buffer_pins vm ++ buffer_pins vmo ++ R;
  cc_other o : other = Some o -> o ∈ P;
  cc_len : 0 <= len;
  cc_pages : num_pages < 2 ^ 13;
}.

Section run.
Variables (nf er : Prop).
Local Abbreviation T := (twp (allowed nf) (allowed er)).

Lemma first_target_twp use_fsm tf P R b s (Q : Z -> TargetState -> Prop) : inv [] P R b s ->
  (forall t s', inv [] P R b s' -> steps s s' -> still s s' -> t = InvalidBlockNumber \/ in_rel s' t -> Q t s') ->
  T (first_target use_fsm tf) Q s.
Proof.
  intros Hi HQ. pose proof Hi as [Hok _ _ _ _]. unfold first_target. twps.
  set (t := match bulk (t_rel s) with Some bi => _ | None => _ end).
  assert (Ht : t = InvalidBlockNumber \/ in_rel s t).
  { unfold t. destruct (bulk (t_rel s)) as [bi|] eqn:E; [|apply Hok]. destruct (current_buf bi) as [c|] eqn:Ec; [|apply Hok].
    right. pose proof (so_pins s Hok) as Ha. rewrite Forall_forall in Ha. apply Ha.
    destruct Hi as [_ _ Hp _ _]. rewrite Hp, E. cbn. rewrite Ec. by left. }
  apply (twp_mono _ _ _ (fun t' s' => inv [] P R b s' /\ steps s s' /\ still s s' /\ (t' = InvalidBlockNumber \/ in_rel s' t'))).
  { destruct (_ && _); [|by apply twp_ret]. unfold GetPageWithFreeSpace. apply twp_bind.
    eapply note_io_twp; [done|done|]. intros s1 I1 S1 B1 _ _ _ _ _. apply twp_gets. split_and!; try done.
    destruct (search_in_rel s1 tf (i_ok _ _ _ _ _ I1)) as [|[? _]]; auto. }
  intros t' s' (I' & S' & B' & Ht'). destruct (Z.eqb_spec t' InvalidBlockNumber) as [E|E]; [|by apply twp_ret, HQ].
  twps. apply HQ; try done. destruct (Z.ltb_spec 0 (nblocks (t_rel s'))); [right|by left]. unfold in_rel. lia.
Qed.

(** Enough fuel, and room to grow, for a backend that is alone. *)
Definition enough_alone (fuel : nat) (s : TargetState) : Prop :=
  quiet /\ 2 * bulk_range s + Z.of_nat (size (free_map (t_rel s))) + 2 < Z.of_nat fuel
  /\ nblocks (t_rel s) + MAX_BUFFERS_TO_EXTEND_BY <= InvalidBlockNumber.

Lemma RelationGetBufferForTuple_twp fuel len other options vm vmo num_pages P R s
    (Q : Z * Buffer * Buffer -> TargetState -> Prop) :
  can_choose other vm vmo (MAXALIGN len) num_pages P R s ->
  nf /\ er \/ enough_alone fuel s /\ MAXALIGN len <= MaxHeapTupleSize ->
  (forall t vm' vmo' s', target_got (MAXALIGN len) other (has options HEAP_INSERT_FROZEN) P R
     (bool_decide (is_Some (bulk (t_rel s)))) s t vm' vmo' s' -> Q (t, vm', vmo') s') ->
  T (pg_tde_RelationGetBufferForTuple fuel len other options vm vmo num_pages) Q s.
Proof.
  intros [Hok HL Hp HR Ho Hl Hn] Hen HQ. unfold pg_tde_RelationGetBufferForTuple.
  destruct (Z.ltb_spec MaxHeapTupleSize (MAXALIGN len)) as [Hbig|Hfit].
  { destruct Hen as [[_ He]|[_ Hle]]; [by split|lia]. }
  apply twp_bind. eapply first_target_twp; [by split|]. intros t s1 I1 S1 B1 Ht.
  eapply (target_loop_twp nf er (MAXALIGN len) other (has options HEAP_INSERT_FROZEN)); [done| |exact I1|exact Ht|exact S1|exact Ho| | |exact HQ].
  - destruct (Z.leb_spec num_pages 0); lia.
  - destruct Hen as [?|[(Hq & Hf & Hr) _]]; [by left|right]. destruct (B1 Hq) as (E1 & E2 & E3).
    split_and!; [done| |by rewrite E3]. unfold measure, candidates. rewrite E1, E2.
    set (fit := filter _ _). assert (Hsub : (size fit <= size (free_map (t_rel s)))%nat) by apply map_size_filter.
    repeat case_decide; lia.
  - intros Hq. destruct (B1 Hq) as (_ & _ & ->). lia.
Qed.
End run.

(** The log is that of a well-formed state at every exit. *)
Lemma twp_log {A} nf er (m : M TargetState A) (Q : A -> TargetState -> Prop) s :
  twp (allowed nf) (allowed er) m Q s -> (forall a s', Q a s' -> storage_ok s') ->
  Forall event_ok (log (t_rel (snd (m s)))).
Proof.
  unfold twp, allowed. intros H HQ. destruct (m s) as [[a|[]| |] s']; try done; cbn; [by apply (so_log _ (HQ _ _ H))|apply H|apply H].
Qed.

(** C9: the page that is chosen has room and is held, whatever others do.
    However other backends change pages that are not locked, extend the
    relation and report free space meanwhile, pg_tde_RelationGetBufferForTuple
    touches no page it has no pin on, changes none it has no lock on, and does
    not panic; when it returns, the page and the other one are locked once
    each, the page has one more pin and room for the tuple, and the map page
    of each that is all-visible is pinned.  At every moment locks it waits for
    are asked for in ascending order of the blocks, and no I/O is done under
    a lock. *)
Theorem target_page_is_held fuel len other options vm vmo num_pages P R (s : TargetState)
    (Hs : can_choose other vm vmo (MAXALIGN len) num_pages P R s) :
  let '(r, s') := pg_tde_RelationGetBufferForTuple fuel len other options vm vmo num_pages s in
  Forall event_ok (log (t_rel s'))
  /\ match r with
     | Ret (t, vm', vmo') =>
         locks (t_rel s') ≡ₚ both_locks t other
         /\ pins (t_rel s') ≡ₚ bulk_pins (bulk (t_rel s')) ++ target_pins t other ++ P
         /\ pinned (t_vm s') ≡ₚ buffer_pins vm' ++ buffer_pins vmo' ++ R
         /\ (exists p, t_heap s' !! t = Some p /\ page_sane p /\ MAXALIGN len <= PageGetHeapFreeSpace p)
         /\ (visible_page s' t = true -> vm' = Some (HEAPBLK_TO_MAPBLOCK t))
         /\ (forall o, other = Some o -> visible_page s' o = true -> vmo' = Some (HEAPBLK_TO_MAPBLOCK o))
         /\ targblock (t_rel s') = t
     | NoFuel | Raise ERROR => True
     | _ => False
     end.
Proof.
  assert (H : twp (allowed True) (allowed True)
    (pg_tde_RelationGetBufferForTuple fuel len other options vm vmo num_pages)
    (fun r s' => target_got (MAXALIGN len) other (has options HEAP_INSERT_FROZEN) P R
       (bool_decide (is_Some (bulk (t_rel s)))) s r.1.1 r.1.2 r.2 s') s).
  { eapply RelationGetBufferForTuple_twp; [exact Hs|by left|]. by intros. }
  pose proof (twp_log _ _ _ _ _ H) as Hlog. unfold twp in H.
  destruct (pg_tde_RelationGetBufferForTuple _ _ _ _ _ _ _ s) as [[[[t vm'] vmo']|[]| |] s']; cbn in *; try done.
  - destruct H as [(L & I & EL) (p & Hp & Hfree) F1 F2 _ Ht _ _]. pose proof I as [Hok HL Hpn HR _].
    split; [apply Hlog; by intros ? ? [(? & [? ? ? ? ?] & _) _ _ _ _ _ _ _]|].
    split_and!; try done; [by rewrite HL|]. exists p. split; [done|]. split; [|done]. by apply (so_heap _ Hok _ _ Hp).
  - split; [|done]. apply H.
  - split; [|done]. apply H.
Qed.

(** C32: the search for a page ends.  For a backend that is alone, with a
    tuple that fits in a page and a relation that can grow, the call returns
    after at most as many rounds as there are unused pages of the last bulk
    extension (twice) and entries in the free space map, and two; the pages
    there were are as before, others are new and empty, and an empty page for
    frozen tuples has its map page pinned. *)
Theorem target_search_ends fuel len options vm num_pages P R (s : TargetState)
    (Hs : can_choose None vm None (MAXALIGN len) num_pages P R s) (Hen : enough_alone fuel s)
    (Hlen : MAXALIGN len <= MaxHeapTupleSize) :
  exists t vm' vmo' s' p,
    pg_tde_RelationGetBufferForTuple fuel len None options vm None num_pages s = (Ret (t, vm', vmo'), s')
    /\ locks (t_rel s') = [t] /\ t_heap s' !! t = Some p /\ MAXALIGN len <= PageGetHeapFreeSpace p
    /\ (forall b q, t_heap s !! b = Some q -> t_heap s' !! b = Some q)
    /\ (forall b q, t_heap s !! b = None -> t_heap s' !! b = Some q -> q = PageInit)
    /\ (has options HEAP_INSERT_FROZEN = true -> PageGetMaxOffsetNumber p = 0 -> vm' = Some (HEAPBLK_TO_MAPBLOCK t))
    /\ nblocks (t_rel s') <= nblocks (t_rel s) + MAX_BUFFERS_TO_EXTEND_BY.
Proof.
  assert (H : twp (allowed False) (allowed False)
    (pg_tde_RelationGetBufferForTuple fuel len None options vm None num_pages)
    (fun r s' => target_got (MAXALIGN len) None (has options HEAP_INSERT_FROZEN) P R
       (bool_decide (is_Some (bulk (t_rel s)))) s r.1.1 r.1.2 r.2 s') s).
  { eapply RelationGetBufferForTuple_twp; [exact Hs|by right|]. by intros. }
  unfold twp, allowed in H. destruct Hen as [Hq _].
  destruct (pg_tde_RelationGetBufferForTuple _ _ _ _ _ _ _ s) as [[[[t vm'] vmo']|[]| |] s']; cbn in *;
    try done; try (by destruct H).
  destruct H as [(L & [_ HL _ _ _] & EL) (p & Hp & Hfree) _ _ F3 _ Hst Hsz].
  destruct (st_quiet _ _ Hst Hq) as [Hkeep _]. exists t, vm', vmo', s', p. split_and!; try done.
  - rewrite HL. by apply Permutation_singleton_r.
  - intros b q Hb. destruct (Hkeep b) as [->|[? _]]; congruence.
  - intros b q Hb Hb'. destruct (Hkeep b) as [E|[_ E]]; congruence.
  - intros Hfz Hmax. apply F3; try done. unfold page_items. by rewrite Hp.
  - by apply Hsz.
Qed.
End claims.

Section busy.
Import ToyPage ToyPrune ToyHeap ToyTarget Busy.

Lemma can_choose_one_page len : 0 <= MAXALIGN len ->
  can_choose None None None (MAXALIGN len) 1 [] [] one_page.
Proof. intros Hl. split; try done. apply one_page_ok. Qed.

(** The page becomes all-visible while its lock is waited for. *)
Lemma target_page_is_held_witness : exists s',
  pg_tde_RelationGetBufferForTuple 5 100 None 0 None None 1 one_page = (Ret (0, Some 0, None), s')
  /\ locks (t_rel s') = [0] /\ visible_page s' 0 = true /\ Forall event_ok (log (t_rel s')).
Proof.
  pose proof (target_page_is_held 5 100 None 0 None None 1 [] [] one_page
    (can_choose_one_page 100 ltac:(vm_compute; discriminate))) as H.
  assert (E : fst (pg_tde_RelationGetBufferForTuple 5 100 None 0 None None 1 one_page) = Ret (0, Some 0, None))
    by (vm_compute; reflexivity).
  assert (Ev : visible_page (snd (pg_tde_RelationGetBufferForTuple 5 100 None 0 None None 1 one_page)) 0 = true)
    by (vm_compute; reflexivity).
  destruct (pg_tde_RelationGetBufferForTuple _ _ _ _ _ _ _ _) as [r s'].
  cbn [fst snd] in E, Ev. subst r. destruct H as (Hlog & HL & _). exists s'. split; [done|]. split; [|done].
  by apply Permutation_singleton_r in HL.
Defined.
End busy.

Section alone.
Import ToyPage ToyPrune ToyHeap ToyTarget Alone.

(** Four pages are asked for when the one there is has no room. *)
Lemma target_search_ends_witness : exists t vm' vmo' s' p,
  pg_tde_RelationGetBufferForTuple 5 8100 None 4 None None 4 one_page = (Ret (t, vm', vmo'), s')
  /\ locks (t_rel s') = [t] /\ t_heap s' !! t = Some p /\ nblocks (t_rel s') <= 65.
Proof.
  destruct (target_search_ends 5 8100 4 None 4 [] [] one_page) as (t & vm' & vmo' & s' & p & E & HL & Hp & _ & _ & _ & _ & Hn).
  - split; try done. apply one_page_ok.
  - by repeat split.
  - by vm_compute.
  - by exists t, vm', vmo', s', p.
Defined.
End alone.
