(* ===== verification/Insert.v ===== *)
(** Inserting tuples: pg_tde_insert, pg_tde_multi_insert and what they call
    in src/src/access/pg_tdeam.c, pg_tde_RelationPutHeapTuple of
    src/src/access/pg_tde_io.c, and the replay of their WAL records.

    The state joins the keys ([TdeMap]), the visibility map ([VisibilityMap])
    and the heap pages by block number.  The choice of a page with room, and
    the toaster, are interfaces: what [pg_tde_RelationGetBufferForTuple]
    promises is [InsertTargetLaws] of [InsertProps].  Locks and pins of heap
    pages, statistics and cache invalidation are left out. *)
From S2P Require Import Prelude EncAes RelKeys EncTuple KeyringTypes KeyringApi XactHandler TdeMap Visibility VisibilityMap LockFlags Prune TupleIO TupleBytes Toast.

(** pg_tdeam_xlog.h and pg_tdeam.h. *)
Definition XLH_INSERT_ALL_VISIBLE_CLEARED : Z := Z.shiftl 1 0.
Definition XLH_INSERT_LAST_IN_MULTI : Z := Z.shiftl 1 1.
Definition XLH_INSERT_IS_SPECULATIVE : Z := Z.shiftl 1 2.
Definition XLH_INSERT_CONTAINS_NEW_TUPLE : Z := Z.shiftl 1 3.
Definition XLH_INSERT_ON_TOAST_RELATION : Z := Z.shiftl 1 4.
Definition XLH_INSERT_ALL_FROZEN_SET : Z := Z.shiftl 1 5.
Definition HEAP_INSERT_SPECULATIVE : Z := 0x0010.
Definition FirstOffsetNumber : Z := 1.
Definition FirstCommandId : Z := 0.

Record xl_pg_tde_header := { xlh_infomask2 : Z; xlh_infomask : Z; xlh_hoff : Z }.

Record xl_pg_tde_new_cid := {
  top_xid : Z; nc_cmin : Z; nc_cmax : Z; combocid : Z;
  target_locator : RelFileLocator; target_tid : Z * Z;
}.

(** What a record holds, with the [xid] and the block every record has.
    The data of a multi-insert is kept as bytes. *)
Inductive InsertRecord :=
| XlInsert (xid block : Z) (init_page : bool) (offnum flags : Z) (hdr : xl_pg_tde_header)
    (tuple_data : list Z)
| XlMultiInsert (xid block : Z) (init_page : bool) (main_data block_data : list Z)
| XlNewCid (r : xl_pg_tde_new_cid).

Record InsertState `{HE : EVP} `{HC : Curl} := {
  is_tde : TdeState;
  is_vm : VmState;
  heap : gmap Z (list Z);
  dirty : list Z;
  insert_wal : list InsertRecord;
  fsm : list (Z * Z);      (** what is recorded in the free space map *)
}.

(** A tuple in memory: [t_data], [t_self]. *)
Record HeapTuple := { tup_data : list Z; t_self : Z * Z }.

(** Settings of the relation and the session, constants of the server's
    headers, and the header of a tuple as combocid.c reads it. *)
Class InsertEnv := {
  HEAP_XACT_MASK : Z;
  HEAP2_XACT_MASK : Z;
  HEAP_COMBOCID : Z;
  HEAP_INSERT_FROZEN : Z;
  HEAP_INSERT_NO_LOGICAL : Z;
  RELKIND_RELATION : Z;
  RELKIND_MATVIEW : Z;
  IsParallelWorker : bool;
  HeapTupleHasExternal : list Z -> bool;
  RelationIsLogicallyLogged : bool;
  IsToastRelation : bool;
  SaveFreeSpace : Z;      (** RelationGetTargetPageFreeSpace *)
  CheckForSerializableConflictIn : nat -> bool;    (** is there one, the [n]th time? *)
  GetCurrentTransactionId : Z;
  GetTopTransactionId : Z;
  HeapTupleHeaderGetCmin_bytes : list Z -> Z;
  HeapTupleHeaderGetCmax_bytes : list Z -> Z;
}.

(** What inserting needs of other files: a page with room for a tuple of a
    length, with the map page pinned when the page is all-visible, and the
    toaster. *)
Class InsertTargets `{HE : EVP} `{HC : Curl} := {
  pg_tde_RelationGetBufferForTuple :
    Z -> Z -> Buffer -> Z -> M InsertState (Z * Buffer);
  pg_tde_toast_insert_or_update : HeapTuple -> Z -> M InsertState HeapTuple;
}.

Section insert.
Context `{HE : EVP} `{HS : CIntShift}.
Context `{HJ : Json} `{HB : Base64} `{HC : Curl} `{HF : KeyringFs}.
Context `{HT : TdeEnv} `{HP : PgBlockSize} `{HM : PageMacros} `{HO : PageOps} `{HPO : HeapPageOps}.
Context `{HV : VmEnv} `{HTM : ToastMacros} `{HH : HtupFlags} `{HLF : LockFlags}.
Context `{HIE : InsertEnv} `{HIT : !InsertTargets}.
Variable g : AesGlobals.
Variables (rd_locator : RelFileLocator) (relkind : Z).

Local Abbreviation MI := (M InsertState).

(** ** State *)

Definition with_tde (t : TdeState) (s : InsertState) : InsertState :=
  {| is_tde := t; is_vm := is_vm s; heap := heap s; dirty := dirty s;
     insert_wal := insert_wal s; fsm := fsm s |}.
Definition with_vm (v : VmState) (s : InsertState) : InsertState :=
  {| is_tde := is_tde s; is_vm := v; heap := heap s; dirty := dirty s;
     insert_wal := insert_wal s; fsm := fsm s |}.
Definition with_heap (h : gmap Z (list Z)) (s : InsertState) : InsertState :=
  {| is_tde := is_tde s; is_vm := is_vm s; heap := h; dirty := dirty s;
     insert_wal := insert_wal s; fsm := fsm s |}.

Definition on_keys {A} (m : M TdeState A) : MI A := zoom is_tde with_tde m.
Definition on_vm {A} (m : M VmState A) : MI A := zoom is_vm with_vm m.

Definition heap_page (bn : Z) : MI (list Z) :=
  let* s := get in defined (heap s !! bn).
Definition set_heap_page (bn : Z) (page : list Z) : MI unit :=
  modify (fun s => with_heap (<[bn := page]> (heap s)) s).

Definition MarkBufferDirty (bn : Z) : MI unit :=
  modify (fun s => {| is_tde := is_tde s; is_vm := is_vm s; heap := heap s; dirty := bn :: dirty s;
                      insert_wal := insert_wal s; fsm := fsm s |}).
Definition XLogInsert_rec (r : InsertRecord) : MI Z := fun s =>
  (Ret (lsn_of (length (insert_wal s))),
   {| is_tde := is_tde s; is_vm := is_vm s; heap := heap s; dirty := dirty s;
      insert_wal := insert_wal s ++ [r]; fsm := fsm s |}).
Definition XLogRecordPageWithFreeSpace (bn free : Z) : MI unit :=
  modify (fun s => {| is_tde := is_tde s; is_vm := is_vm s; heap := heap s; dirty := dirty s;
                      insert_wal := insert_wal s; fsm := fsm s ++ [(bn, free)] |}).

Definition check_conflict (n : nat) : MI unit :=
  if CheckForSerializableConflictIn n then raise ERROR else ret tt.

Definition t_len (tup : HeapTuple) : Z := Z.of_nat (length (tup_data tup)).
Definition with_data (d : list Z) (tup : HeapTuple) : HeapTuple :=
  {| tup_data := d; t_self := t_self tup |}.

(** ** pg_tde_RelationPutHeapTuple *)

(** The tuple with its [t_self]; [PANIC] when it does not fit. *)
Definition pg_tde_RelationPutHeapTuple (bn : Z) (tup : HeapTuple) (token : bool) : MI HeapTuple :=
  let* page := heap_page bn in
  let* r := on_keys (PGTdePageAddItemExtended g rd_locator bn page (tup_data tup) (t_len tup)
                       InvalidOffsetNumber PAI_IS_HEAP) in
  let '(offnum, page) := r in
  set_heap_page bn page;;;
  if offnum =? InvalidOffsetNumber then raise PANIC else
  let tup := {| tup_data := tup_data tup; t_self := (bn, offnum) |} in
  if negb token then
    let* at_ := defined (PageItemOffset page offnum) in
    let* page := defined (wr_bytes page (at_ + Z.of_nat ctid_at) (ctid_bytes (t_self tup))) in
    set_heap_page bn page;;;
    ret tup
  else ret tup.

(** ** pg_tde_prepare_insert *)

Definition prepare_header (xid cid options : Z) (d : list Z) : list Z :=
  let d := set_field F_infomask (clear (get_field F_infomask d) HEAP_XACT_MASK) d in
  let d := set_field F_infomask2 (clear (get_field F_infomask2 d) HEAP2_XACT_MASK) d in
  let d := set_field F_infomask (Z.lor (get_field F_infomask d) HEAP_XMAX_INVALID) d in
  let d := set_field F_xmin xid d in
  let d := if has options HEAP_INSERT_FROZEN
           then set_field F_infomask (Z.lor (get_field F_infomask d) HEAP_XMIN_FROZEN) d else d in
  let d := set_field F_cid cid d in
  let d := set_field F_infomask (clear (get_field F_infomask d) HEAP_COMBOCID) d in
  set_field F_xmax 0 d.

Definition TOAST_TUPLE_THRESHOLD : Z := MaximumBytesPerTuple 4.

Definition pg_tde_prepare_insert (tup : HeapTuple) (xid cid options : Z) : MI HeapTuple :=
  if IsParallelWorker then raise ERROR else
  let tup := with_data (prepare_header xid cid options (tup_data tup)) tup in
  if negb (relkind =? RELKIND_RELATION) && negb (relkind =? RELKIND_MATVIEW) then ret tup
  else if HeapTupleHasExternal (tup_data tup) || (TOAST_TUPLE_THRESHOLD <? t_len tup)
  then pg_tde_toast_insert_or_update tup options
  else ret tup.

(** ** WAL *)

Definition log_pg_tde_new_cid (tup : HeapTuple) : MI Z :=
  let hdr := tup_data tup in
  let m := get_field F_infomask hdr in
  let raw := get_field F_cid hdr in
  let '(cmin, cmax, combo) :=
    if has m HEAP_COMBOCID then
      (HeapTupleHeaderGetCmin_bytes hdr, HeapTupleHeaderGetCmax_bytes hdr, raw)
    else if has m HEAP_XMAX_INVALID || HEAP_XMAX_IS_LOCKED_ONLY m
    then (raw, InvalidCommandId, InvalidCommandId)
    else (InvalidCommandId, raw, InvalidCommandId) in
  XLogInsert_rec (XlNewCid {| top_xid := GetTopTransactionId; nc_cmin := cmin; nc_cmax := cmax;
    combocid := combo; target_locator := rd_locator; target_tid := t_self tup |}).

Definition flag_if (b : bool) (f : Z) : Z := if b then f else 0.

(** The record of pg_tde_insert. *)
Definition log_insert (xid bn : Z) (tup : HeapTuple) (options : Z) (all_visible_cleared : bool)
    : MI unit :=
  (if RelationIsAccessibleInLogicalDecoding then log_pg_tde_new_cid tup;;; ret tt else ret tt);;;
  let* page := heap_page bn in
  let init := (snd (t_self tup) =? FirstOffsetNumber)
              && (PageGetMaxOffsetNumber page =? FirstOffsetNumber) in
  let logical := RelationIsLogicallyLogged && negb (has options HEAP_INSERT_NO_LOGICAL) in
  let flags := Z.lor (flag_if all_visible_cleared XLH_INSERT_ALL_VISIBLE_CLEARED)
    (Z.lor (flag_if (has options HEAP_INSERT_SPECULATIVE) XLH_INSERT_IS_SPECULATIVE)
    (Z.lor (flag_if logical XLH_INSERT_CONTAINS_NEW_TUPLE)
           (flag_if (logical && IsToastRelation) XLH_INSERT_ON_TOAST_RELATION))) in
  let hdr := {| xlh_infomask2 := get_field F_infomask2 (tup_data tup);
                xlh_infomask := get_field F_infomask (tup_data tup);
                xlh_hoff := get_field F_hoff (tup_data tup) |} in
  let* tuple_data := defined (rd_bytes page (pd_upper page + SizeofHeapTupleHeader)
                                (t_len tup - SizeofHeapTupleHeader)) in
  let* recptr := XLogInsert_rec (XlInsert xid bn init (snd (t_self tup)) flags hdr tuple_data) in
  set_heap_page bn (PageSetLSN_heap recptr page).

(** ** pg_tde_insert *)

(** [PageIsAllVisible] is cleared, with the bits of the map. *)
Definition clear_all_visible (bn : Z) (vmbuffer : Buffer) : MI unit :=
  let* page := heap_page bn in
  set_heap_page bn (PageClearAllVisible page);;;
  let* _ := on_vm (pg_tde_visibilitymap_clear bn vmbuffer VISIBILITYMAP_VALID_BITS) in
  ret tt.

Definition release_vm (vmbuffer : Buffer) : MI unit :=
  match vmbuffer with Some b => on_vm (ReleaseBuffer b) | None => ret tt end.

(** The tuple as it was stored; the caller gets its [t_self]. *)
Definition pg_tde_insert (tup : HeapTuple) (cid options : Z) : MI HeapTuple :=
  let xid := GetCurrentTransactionId in
  let* heaptup := pg_tde_prepare_insert tup xid cid options in
  let* r := pg_tde_RelationGetBufferForTuple (t_len heaptup) options None 0 in
  let '(bn, vmbuffer) := r in
  check_conflict 0;;;
  on_keys (GetRelationKeys g rd_locator);;;
  let* heaptup := crit (
    let* heaptup := pg_tde_RelationPutHeapTuple bn heaptup (has options HEAP_INSERT_SPECULATIVE) in
    let* page := heap_page bn in
    let all_visible_cleared := PageIsAllVisible page in
    (if all_visible_cleared then clear_all_visible bn vmbuffer else ret tt);;;
    MarkBufferDirty bn;;;
    (if RelationNeedsWAL then log_insert xid bn heaptup options all_visible_cleared else ret tt);;;
    ret heaptup) in
  release_vm vmbuffer;;;
  ret heaptup.

Definition simple_pg_tde_insert (tup : HeapTuple) (cid : Z) : MI HeapTuple := pg_tde_insert tup cid 0.

(** ** pg_tde_multi_insert *)

(** [size_t] arithmetic. *)
Fixpoint pages_loop (tups : list HeapTuple) (page_avail npages : Z) : Z :=
  match tups with
  | [] => npages
  | t :: tups =>
      let tup_sz := u64 (sizeof_ItemIdData + MAXALIGN (t_len t)) in
      let fresh := u64 (BLCKSZ - SizeOfPageHeaderData - SaveFreeSpace) in
      let '(page_avail, npages) :=
        if page_avail <? tup_sz then (fresh, int32 (npages + 1)) else (page_avail, npages) in
      pages_loop tups (u64 (page_avail - tup_sz)) npages
  end.

Definition pg_tde_multi_insert_pages (tups : list HeapTuple) : Z :=
  pages_loop tups (u64 (BLCKSZ - SizeOfPageHeaderData - SaveFreeSpace)) 1.

Definition log_cid (tup : HeapTuple) : MI unit :=
  if RelationNeedsWAL && RelationIsAccessibleInLogicalDecoding
  then log_pg_tde_new_cid tup;;; ret tt else ret tt.

(** As many further tuples as fit: those that are on the page now. *)
Fixpoint fill_page (bn : Z) (tups : list HeapTuple) : MI (list HeapTuple) :=
  match tups with
  | [] => ret []
  | t :: tups =>
      let* page := heap_page bn in
      if PageGetHeapFreeSpace page <? u64 (MAXALIGN (t_len t) + SaveFreeSpace) then ret []
      else
        let* t := pg_tde_RelationPutHeapTuple bn t false in
        log_cid t;;;
        let* rest := fill_page bn tups in
        ret (t :: rest)
  end.

Definition SizeOfHeapMultiInsert : Z := 4.
Definition SizeOfMultiInsertTuple : Z := 7.
Definition sizeof_OffsetNumber : Z := 2.
Definition SHORTALIGN (z : Z) : Z := (z + 1) / 2 * 2.

(** One tuple into the scratch area at [p]: the area and what follows. *)
Definition log_multi_tuple (page : list Z) (init : bool) (i : Z) (tup : HeapTuple) (scratch : list Z)
    (p : Z) : option (list Z * Z) :=
  scratch ← if init then Some scratch
            else wr_bytes scratch (SizeOfHeapMultiInsert + sizeof_OffsetNumber * i)
                   (le_bytes 2 (snd (t_self tup)));
  let tuphdr := SHORTALIGN p in
  scratch ← wr_bytes scratch (tuphdr + 2) (le_bytes 2 (get_field F_infomask2 (tup_data tup)));
  scratch ← wr_bytes scratch (tuphdr + 4) (le_bytes 2 (get_field F_infomask (tup_data tup)));
  scratch ← wr_bytes scratch (tuphdr + 6) (le_bytes 1 (get_field F_hoff (tup_data tup)));
  at_ ← PageItemOffset page (snd (t_self tup));
  let datalen := t_len tup - SizeofHeapTupleHeader in
  bytes ← rd_bytes page (at_ + SizeofHeapTupleHeader) datalen;
  scratch ← wr_bytes scratch (tuphdr + SizeOfMultiInsertTuple) bytes;
  scratch ← wr_bytes scratch tuphdr (le_bytes 2 datalen);
  Some (scratch, tuphdr + SizeOfMultiInsertTuple + datalen).

Fixpoint log_multi_tuples (page : list Z) (init : bool) (i : Z) (tups : list HeapTuple)
    (scratch : list Z) (p : Z) : option (list Z * Z) :=
  match tups with
  | [] => Some (scratch, p)
  | t :: tups =>
      r ← log_multi_tuple page init i t scratch p;
      log_multi_tuples page init (i + 1) tups r.1 r.2
  end.

(** The record's main data and block data, and the scratch area. *)
Definition multi_insert_data (page : list Z) (init last : bool) (cleared frozen : bool)
    (tups : list HeapTuple) (scratch : list Z) : option (list Z * list Z * list Z) :=
  let nthispage := Z.of_nat (length tups) in
  let tupledata := SizeOfHeapMultiInsert + (if init then 0 else nthispage * sizeof_OffsetNumber) in
  let flags := if frozen then XLH_INSERT_ALL_FROZEN_SET
               else flag_if cleared XLH_INSERT_ALL_VISIBLE_CLEARED in
  scratch ← wr_bytes scratch 2 (le_bytes 2 nthispage);
  r ← log_multi_tuples page init 0 tups scratch tupledata;
  let '(scratch, p) := r in
  let flags := Z.lor flags (Z.lor (flag_if RelationIsLogicallyLogged XLH_INSERT_CONTAINS_NEW_TUPLE)
                                  (flag_if last XLH_INSERT_LAST_IN_MULTI)) in
  scratch ← wr_bytes scratch 0 [flags];
  main ← rd_bytes scratch 0 tupledata;
  block ← rd_bytes scratch tupledata (p - tupledata);
  Some (main, block, scratch).

Definition log_multi (xid bn : Z) (init last cleared frozen : bool) (tups : list HeapTuple)
    (scratch : list Z) : MI (list Z) :=
  let* page := heap_page bn in
  let* r := defined (multi_insert_data page init last cleared frozen tups scratch) in
  let '(main, block, scratch) := r in
  let* recptr := XLogInsert_rec (XlMultiInsert xid bn init main block) in
  set_heap_page bn (PageSetLSN_heap recptr page);;;
  ret scratch.

(** The changes to one page: the tuples that went there, whether it was
    empty, the scratch area. *)
Definition insert_page (xid bn options : Z) (vmbuffer : Buffer) (tups : list HeapTuple)
    (scratch : list Z) : MI (list HeapTuple * bool * list Z) :=
  let* page := heap_page bn in
  let empty := PageGetMaxOffsetNumber page =? 0 in
  let all_frozen_set := empty && has options HEAP_INSERT_FROZEN in
  on_keys (GetRelationKeys g rd_locator);;;
  let* r := crit (
    match tups with
    | [] => undefined
    | t :: tups' =>
        let* t := pg_tde_RelationPutHeapTuple bn t false in
        log_cid t;;;
        let* rest := fill_page bn tups' in
        let* page := heap_page bn in
        let cleared := PageIsAllVisible page && negb (has options HEAP_INSERT_FROZEN) in
        (if cleared then clear_all_visible bn vmbuffer
         else if all_frozen_set then set_heap_page bn (PageSetAllVisible page) else ret tt);;;
        MarkBufferDirty bn;;;
        let* scratch :=
          if RelationNeedsWAL then
            log_multi xid bn empty (length rest =? length tups')%nat cleared all_frozen_set (t :: rest) scratch
          else ret scratch in
        ret (t :: rest, scratch)
    end) in
  (if all_frozen_set then
     on_vm (pg_tde_visibilitymap_set bn (Some bn) InvalidXLogRecPtr vmbuffer InvalidTransactionId
              (Z.lor VISIBILITYMAP_ALL_VISIBLE VISIBILITYMAP_ALL_FROZEN))
   else ret tt);;;
  ret (fst r, empty, snd r).

(** [while (ndone < ntuples)]: the tuples still to do, in rounds. *)
Fixpoint multi_loop (fuel : nat) (xid options : Z) (tups : list HeapTuple) (first : bool)
    (starting_with_empty_page : bool) (npages npages_used : Z) (vmbuffer : Buffer)
    (scratch : list Z) : MI (list HeapTuple * Buffer) :=
  match tups with
  | [] => ret ([], vmbuffer)
  | t :: _ =>
    match fuel with
    | O => nofuel
    | S fuel =>
      let '(npages, npages_used) :=
        if first || negb starting_with_empty_page
        then (pg_tde_multi_insert_pages tups, 0) else (npages, int32 (npages_used + 1)) in
      let* r := pg_tde_RelationGetBufferForTuple (t_len t) options vmbuffer
                  (int32 (npages - npages_used)) in
      let '(bn, vmbuffer) := r in
      let* r := insert_page xid bn options vmbuffer tups scratch in
      let '(here, empty, scratch) := r in
      let* r := multi_loop fuel xid options (drop (length here) tups) false empty npages npages_used
                  vmbuffer scratch in
      ret (here ++ fst r, snd r)
    end
  end.

Fixpoint prepare_all (tups : list HeapTuple) (xid cid options : Z) : MI (list HeapTuple) :=
  match tups with
  | [] => ret []
  | t :: tups =>
      let* t := pg_tde_prepare_insert t xid cid options in
      let* rest := prepare_all tups xid cid options in
      ret (t :: rest)
  end.

(** The tuples as they were stored; [scratch]: the local buffer, whatever it
    holds. *)
Definition pg_tde_multi_insert (tups : list HeapTuple) (cid options : Z) (scratch : list Z)
    : MI (list HeapTuple) :=
  let xid := GetCurrentTransactionId in
  let* heaptuples := prepare_all tups xid cid options in
  check_conflict 0;;;
  let* r := multi_loop (length heaptuples) xid options heaptuples true false 0 0 None scratch in
  release_vm (snd r);;;
  check_conflict 1;;;
  ret (fst r).

(** ** Replay *)

(** The visibility map may need to be fixed even if the page is up to date. *)
Definition redo_clear_map (flags bn : Z) : MI unit :=
  if has flags XLH_INSERT_ALL_VISIBLE_CLEARED then
    on_vm (let* vmbuffer := pg_tde_visibilitymap_pin bn None in
           let* _ := pg_tde_visibilitymap_clear bn vmbuffer VISIBILITYMAP_VALID_BITS in
           match vmbuffer with Some b => ReleaseBuffer b | None => undefined end)
  else ret tt.

(** The tuple of a record, rebuilt around its data. *)
Definition redo_tuple (xid bn offnum : Z) (hdr : xl_pg_tde_header) (tuple_data : list Z) : list Z :=
  let d := replicate (Z.to_nat SizeofHeapTupleHeader) 0 ++ tuple_data in
  let d := set_field F_infomask2 (xlh_infomask2 hdr) d in
  let d := set_field F_infomask (xlh_infomask hdr) d in
  let d := set_field F_hoff (xlh_hoff hdr) d in
  let d := set_field F_xmin xid d in
  let d := set_field F_cid FirstCommandId d in
  let d := set_field F_infomask (clear (get_field F_infomask d) HEAP_COMBOCID) d in
  set_ctid (bn, offnum) d.

Definition redo_add (bn offnum : Z) (htup : list Z) : MI unit :=
  let* page := heap_page bn in
  let* r := on_keys (PGTdePageAddItemExtended g rd_locator bn page htup (Z.of_nat (length htup))
                       offnum (Z.lor PAI_OVERWRITE PAI_IS_HEAP)) in
  let '(off, page) := r in
  set_heap_page bn page;;;
  if off =? InvalidOffsetNumber then raise PANIC else ret tt.

(** LSN and the flag of the page once its tuples are there; the free space. *)
Definition redo_finish (bn lsn flags : Z) : MI Z :=
  let* page := heap_page bn in
  let freespace := PageGetHeapFreeSpace page in
  let page := PageSetLSN_heap lsn page in
  let page := if has flags XLH_INSERT_ALL_VISIBLE_CLEARED then PageClearAllVisible page else page in
  let page := if has flags XLH_INSERT_ALL_FROZEN_SET then PageSetAllVisible page else page in
  set_heap_page bn page;;;
  MarkBufferDirty bn;;;
  ret freespace.

Definition record_low_space (bn freespace : Z) : MI unit :=
  if freespace <? BLCKSZ / 5 then XLogRecordPageWithFreeSpace bn freespace else ret tt.

(** [needs_redo]: what XLogReadBufferForRedo finds when the page is not
    initialized from scratch. *)
Definition redo_page (bn : Z) (init_page needs_redo : bool) (changes : MI unit) (lsn flags : Z)
    : MI unit :=
  (if init_page then set_heap_page bn PageInit else ret tt);;;
  if init_page || needs_redo then
    changes;;;
    let* freespace := redo_finish bn lsn flags in
    record_low_space bn freespace
  else ret tt.

Definition pg_tde_xlog_insert (lsn : Z) (needs_redo : bool) (xid bn : Z) (init_page : bool)
    (offnum flags : Z) (hdr : xl_pg_tde_header) (tuple_data : list Z) : MI unit :=
  redo_clear_map flags bn;;;
  redo_page bn init_page needs_redo
    (let* page := heap_page bn in
     if PageGetMaxOffsetNumber page + 1 <? offnum then raise PANIC
     else redo_add bn offnum (redo_tuple xid bn offnum hdr tuple_data))
    lsn flags.

(** One tuple of a multi-insert record from position [p] of the block data:
    header, data and the next position. *)
Definition read_multi_tuple (block : list Z) (p : Z) : option (xl_pg_tde_header * list Z * Z) :=
  let xlhdr := SHORTALIGN p in
  datalen ← le_value <$> rd_bytes block xlhdr 2;
  infomask2 ← le_value <$> rd_bytes block (xlhdr + 2) 2;
  infomask ← le_value <$> rd_bytes block (xlhdr + 4) 2;
  hoff ← le_value <$> rd_bytes block (xlhdr + 6) 1;
  data ← rd_bytes block (xlhdr + SizeOfMultiInsertTuple) datalen;
  Some ({| xlh_infomask2 := infomask2; xlh_infomask := infomask; xlh_hoff := hoff |}, data,
        xlhdr + SizeOfMultiInsertTuple + datalen).

Definition record_offset (init_page : bool) (main : list Z) (i : Z) : option Z :=
  if init_page then Some (FirstOffsetNumber + i)
  else le_value <$> rd_bytes main (SizeOfHeapMultiInsert + sizeof_OffsetNumber * i) 2.

(** [n] tuples from the [i]th on. *)
Fixpoint redo_multi (n : nat) (xid bn : Z) (init_page : bool) (main block : list Z) (i p : Z) : MI Z :=
  match n with
  | O => ret p
  | S n =>
      let* offnum := defined (record_offset init_page main i) in
      let* page := heap_page bn in
      if PageGetMaxOffsetNumber page + 1 <? offnum then raise PANIC else
      let* r := defined (read_multi_tuple block p) in
      let '(hdr, data, p) := r in
      redo_add bn offnum (redo_tuple xid bn offnum hdr data);;;
      redo_multi n xid bn init_page main block (i + 1) p
  end.

Definition pg_tde_xlog_multi_insert (lsn : Z) (needs_redo : bool) (xid bn : Z) (init_page : bool)
    (main block : list Z) : MI unit :=
  let* flags := defined (rd main 0) in
  let* ntuples := defined (le_value <$> rd_bytes main 2 2) in
  redo_clear_map flags bn;;;
  redo_page bn init_page needs_redo
    (let* p := redo_multi (Z.to_nat ntuples) xid bn init_page main block 0 0 in
     if negb (p =? Z.of_nat (length block)) then raise PANIC else ret tt)
    lsn flags.
End insert.
