(* ===== verification/InsertProps.v ===== *)
(** Inserting tuples: header fields, what is stored on a page, and putting
    one tuple there. *)
From S2P Require Import Prelude EncAes RelKeys EncTuple KeyringTypes KeyringApi XactHandler TdeMap Visibility VisibilityMap VisibilityMapProps VisibilityMapOps LockFlags Prune TupleIO TupleBytes Toast Insert.

(** ** Header fields *)

Definition header_bytes (d : list Z) : Prop := 23 <= Z.of_nat (length d).

Lemma field_end f : (field_at f + field_size f <= 23)%nat.
Proof. destruct f; cbn; lia. Qed.

Lemma length_set_field f v d : header_bytes d -> length (set_field f v d) = length d.
Proof.
  unfold header_bytes. intros Hd. pose proof (field_end f). apply length_splice.
  rewrite length_le_bytes. lia.
Qed.

Lemma length_ctid_bytes tid : length (ctid_bytes tid) = 6%nat.
Proof. reflexivity. Qed.

Lemma length_set_ctid tid d : header_bytes d -> length (set_ctid tid d) = length d.
Proof.
  unfold header_bytes. intros Hd. apply length_splice. rewrite length_ctid_bytes. unfold ctid_at. lia.
Qed.

Lemma header_bytes_set_field f v d : header_bytes d -> header_bytes (set_field f v d).
Proof. intros Hd. unfold header_bytes. by rewrite length_set_field. Qed.
Lemma header_bytes_set_ctid tid d : header_bytes d -> header_bytes (set_ctid tid d).
Proof. intros Hd. unfold header_bytes. by rewrite length_set_ctid. Qed.
#[export] Hint Resolve header_bytes_set_field header_bytes_set_ctid : tde.

Lemma get_set_field f v d : header_bytes d -> 0 <= v < 256 ^ Z.of_nat (field_size f) ->
  get_field f (set_field f v d) = v.
Proof.
  unfold header_bytes. intros Hd Hv. pose proof (field_end f) as Hf. unfold get_field, set_field.
  rewrite <- (length_le_bytes (field_size f) v) at 1.
  rewrite sub_splice_in by (rewrite length_le_bytes; lia). by apply le_value_bytes.
Qed.

Lemma get_set_other f f' v d : header_bytes d -> f <> f' ->
  get_field f (set_field f' v d) = get_field f d.
Proof.
  unfold header_bytes. intros Hd Hne. pose proof (field_end f'). unfold get_field, set_field. f_equal.
  apply sub_splice_out; rewrite length_le_bytes; [lia|]. destruct f, f'; cbn; (done || lia).
Qed.

Lemma get_set_ctid f tid d : header_bytes d -> get_field f (set_ctid tid d) = get_field f d.
Proof.
  unfold header_bytes. intros Hd. unfold get_field, set_ctid. f_equal.
  apply sub_splice_out; rewrite length_ctid_bytes; unfold ctid_at; [lia|]. destruct f; cbn; lia.
Qed.

Lemma drop_set_field f v d n : header_bytes d -> (23 <= n)%nat -> drop n (set_field f v d) = drop n d.
Proof.
  unfold header_bytes. intros Hd Hn. pose proof (field_end f).
  apply drop_splice; rewrite length_le_bytes; lia.
Qed.

Lemma drop_set_ctid tid d n : header_bytes d -> (23 <= n)%nat -> drop n (set_ctid tid d) = drop n d.
Proof.
  unfold header_bytes. intros Hd Hn. apply drop_splice; rewrite length_ctid_bytes; unfold ctid_at; lia.
Qed.

Lemma item_t_hoff_field d : header_bytes d -> item_t_hoff d = Some (get_field F_hoff d).
Proof.
  unfold header_bytes. intros Hd. unfold item_t_hoff, rd, get_field. cbn [field_at field_size].
  change (0 <=? 22) with true. cbn iota. change (Z.to_nat 22) with 22%nat.
  destruct (lookup_lt_is_Some_2 d 22 ltac:(lia)) as [b Hb]. rewrite Hb.
  rewrite (drop_S _ b _ Hb). cbn [take]. rewrite take_0. cbn [le_value]. f_equal. lia.
Qed.

Section props.
Context `{HE : EVP} `{HS : CIntShift} `{HL : !EVPLaws}.
Context `{HJ : Json} `{HB : Base64} `{HC : Curl} `{HF : KeyringFs}.
Context `{HT : TdeEnv} `{HP : PgBlockSize} `{HBL : !PgBlockSizeLaws}.
Context `{HM : PageMacros} `{HO : PageOps} `{HOL : !PageOpsLaws} `{HPO : HeapPageOps} `{HPL : !HeapPageLaws}.

(** ** What is stored on a page *)

(** Tuple [n] of the page of block [bn] is [d], encrypted for its place. *)
Definition stored (k : list Z) (page : list Z) (bn n : Z) (d : list Z) : Prop :=
  exists o, PageItemOffset page n = Some o /\ pd_upper page <= o
    /\ o + Z.of_nat (length d) <= BLCKSZ
    /\ take (length d) (drop (Z.to_nat o) page) = encrypted_item k bn o (get_field F_hoff d) d.

(** [q] still has the tuples [p] had. *)
Definition keeps (p q : list Z) : Prop :=
  pd_upper q <= pd_upper p /\ drop (Z.to_nat (pd_upper p)) q = drop (Z.to_nat (pd_upper p)) p
  /\ forall n o, PageItemOffset p n = Some o -> pd_upper p <= o -> PageItemOffset q n = Some o.

#[export] Instance keeps_preorder : PreOrder keeps.
Proof.
  split; [done|]. intros p q r (H1 & H2 & H3) (H4 & H5 & H6). split; [lia|]. split.
  - replace (Z.to_nat (pd_upper p)) with (Z.to_nat (pd_upper q) + (Z.to_nat (pd_upper p) - Z.to_nat (pd_upper q)))%nat by lia.
    rewrite <- !drop_drop, H5, !drop_drop. replace (_ + _)%nat with (Z.to_nat (pd_upper p)) by lia. done.
  - intros n o Ho Hu. apply H6; [by apply H3|lia].
Qed.

Lemma keeps_stored k p q bn n d : page_sane p -> keeps p q -> stored k p bn n d -> stored k q bn n d.
Proof.
  intros Hp (Hu & Hb & Hi) (o & Ho & Hou & Hend & Hbytes). exists o. split; [by apply Hi|]. split; [lia|].
  split; [done|]. rewrite <- Hbytes. destruct (sane_range p Hp) as (_ & Hpu & _).
  replace (Z.to_nat o) with (Z.to_nat (pd_upper p) + (Z.to_nat o - Z.to_nat (pd_upper p)))%nat by lia.
  by rewrite <- !drop_drop, Hb.
Qed.

Lemma header_only_keeps p q : header_only p q -> keeps p q.
Proof. intros (_ & Hu & Hd & Hi & _). split; [lia|]. split; [done|]. intros n o <- _. apply Hi. Qed.

(** The LSN, or the flag, of the page changes. *)
Lemma set_lsn_facts lsn p : page_sane p ->
  page_sane (PageSetLSN_heap lsn p) /\ keeps p (PageSetLSN_heap lsn p)
  /\ PageIsAllVisible (PageSetLSN_heap lsn p) = PageIsAllVisible p.
Proof.
  intros Hp. destruct (set_lsn_header lsn p Hp) as [H1 H2]. split; [apply H1|].
  split; [by apply header_only_keeps|done].
Qed.

(** ** Putting a tuple on a page *)

Definition tuple_fine (d : list Z) : Prop :=
  header_bytes d /\ SizeofHeapTupleHeader <= get_field F_hoff d <= Z.of_nat (length d)
  /\ get_field F_hoff d < 256 /\ Z.of_nat (length d) < 2 ^ 16.

(** The bytes of a tuple as they are on the page. *)
Definition placed (token : bool) (tid : Z * Z) (d : list Z) : list Z :=
  if token then d else set_ctid tid d.

Lemma length_placed token tid d : header_bytes d -> length (placed token tid d) = length d.
Proof. intros Hd. destruct token; [done|]. by apply length_set_ctid. Qed.

Lemma hoff_placed token tid d : header_bytes d ->
  get_field F_hoff (placed token tid d) = get_field F_hoff d.
Proof. intros Hd. destruct token; [done|]. by apply get_set_ctid. Qed.

Lemma encrypted_set_ctid k bn o tid d : tuple_fine d ->
  encrypted_item k bn o (get_field F_hoff d) (set_ctid tid d)
  = splice (encrypted_item k bn o (get_field F_hoff d) d) ctid_at (ctid_bytes tid).
Proof.
  intros (Hd & Hh & _). unfold header_bytes, SizeofHeapTupleHeader in *. set (h := get_field F_hoff d) in *.
  unfold encrypted_item. rewrite drop_set_ctid by (unfold header_bytes; lia).
  assert (Hc : length (ctid_bytes tid) = 6%nat) by done.
  unfold set_ctid, splice. rewrite Hc. unfold ctid_at. cbn [Nat.add].
  rewrite (take_app_ge (take 12 d)) by (rewrite length_take; lia). rewrite length_take, Nat.min_l by lia.
  rewrite (take_app_ge (ctid_bytes tid)) by lia. rewrite Hc.
  rewrite (take_app_le (take _ d)) by (rewrite length_take; lia). rewrite take_take, Nat.min_l by lia.
  rewrite <- !app_assoc. do 2 f_equal. rewrite drop_app_le by (rewrite length_take; lia).
  f_equal. rewrite take_drop_commute. do 2 f_equal. lia.
Qed.

(** A page after a tuple was put on it. *)
Record put_on (k : list Z) (page page' : list Z) (bn off : Z) (token : bool) (d : list Z) : Prop := {
  po_sane : page_sane page';
  po_keeps : keeps page page';
  po_stored : stored k page' bn off (placed token (bn, off) d);
  po_at : PageItemOffset page' off = Some (pd_upper page');
  po_visible : PageIsAllVisible page' = PageIsAllVisible page;
  po_off : 1 <= off <= PageGetMaxOffsetNumber page';
  po_max : PageGetMaxOffsetNumber page' < 2 ^ 16 /\ PageGetMaxOffsetNumber page' <= PageGetMaxOffsetNumber page + 1;
  po_upper : pd_upper page' = pd_upper page - MAXALIGN (Z.of_nat (length d));
  po_again item : length item = length d ->
    fst (PageAddItemExtended page item (Z.of_nat (length item)) off (Z.lor PAI_OVERWRITE PAI_IS_HEAP)) = off;
}.

(** The page of PGTdePageAddItemExtended, then the page with the TID. *)
Lemma put_pages k bn page page1 off (token : bool) d : page_sane page -> tuple_fine d ->
  PageAddItemExtended page d (Z.of_nat (length d)) InvalidOffsetNumber PAI_IS_HEAP = (off, page1) ->
  off <> InvalidOffsetNumber ->
  let u := pd_upper page1 in
  let page2 := splice page1 (Z.to_nat u) (encrypted_item k bn u (get_field F_hoff d) d) in
  let page3 := if token then page2 else splice page2 (Z.to_nat u + ctid_at) (ctid_bytes (bn, off)) in
  PageItemOffset page2 off = Some u /\ put_on k page page3 bn off token d.
Proof.
  intros Hp Hd Hadd Hoff u page2 page3. subst page3. pose proof Hd as (Hhd & Hh & _).
  destruct (add_item _ _ _ _ _ _ Hp Hadd Hoff) as (Hp1 & Ho1 & Hu1 & Hdrop & Hvis & Hoffr & Hmax & Hmax1 & Hkept).
  pose proof (max_align (Z.of_nat (length d))) as Hma.
  destruct (sane_range _ Hp) as (_ & Hur & _). destruct (sane_range _ Hp1) as (Hl1 & Hur1 & _). fold u in Hu1, Ho1, Hur1.
  assert (Hle : length (encrypted_item k bn u (get_field F_hoff d) d) = length d) by apply length_encrypted_item.
  assert (Hend : u + Z.of_nat (length (encrypted_item k bn u (get_field F_hoff d) d)) <= BLCKSZ) by (rewrite Hle; lia).
  destruct (write_items page1 u (encrypted_item k bn u (get_field F_hoff d) d) Hp1 ltac:(fold u; lia) Hend)
    as (Hp2 & Hu2 & Ho2 & Hm2 & _ & Hv2). fold page2 in Hp2, Hu2, Ho2, Hm2, Hv2.
  split; [by rewrite Ho2|].
  assert (Hin : forall l : list Z, length l = length d -> (Z.to_nat u + length l <= length page1)%nat) by (intros l El; lia).
  assert (E3 : (if token then page2 else splice page2 (Z.to_nat u + ctid_at) (ctid_bytes (bn, off)))
    = splice page1 (Z.to_nat u) (encrypted_item k bn u (get_field F_hoff d) (placed token (bn, off) d))).
  { destruct token; [done|]. cbn [placed]. rewrite encrypted_set_ctid by done. unfold page2.
    unfold header_bytes in Hhd. apply list_eq. intros i.
    assert (Hc : length (ctid_bytes (bn, off)) = 6%nat) by done. unfold ctid_at.
    destruct (decide (Z.to_nat u <= i < Z.to_nat u + length d)%nat) as [Hi|Hi].
    - rewrite (lookup_splice_in page1) by (rewrite length_splice; lia).
      destruct (decide (Z.to_nat u + 12 <= i < Z.to_nat u + 18)%nat) as [Hj|Hj].
      + rewrite !lookup_splice_in by (rewrite ?length_splice; lia). f_equal. lia.
      + rewrite (lookup_splice_out (splice page1 _ _)) by (rewrite ?length_splice; lia).
        rewrite lookup_splice_in, (lookup_splice_out (encrypted_item _ _ _ _ _)) by lia. done.
    - rewrite !lookup_splice_out by (rewrite ?length_splice; lia). done. }
  rewrite E3. set (e := encrypted_item k bn u _ (placed token (bn, off) d)).
  assert (He : length e = length d) by (unfold e; by rewrite length_encrypted_item, length_placed).
  destruct (write_items page1 u e Hp1 ltac:(fold u; lia) ltac:(lia)) as (Hp3 & Hu3 & Ho3 & Hm3 & _ & Hv3).
  split; [done| | | |by rewrite Hv3|by rewrite Hm3|by rewrite Hm3|by rewrite Hu3|].
  - split; [rewrite Hu3; lia|]. split.
    + rewrite <- Hdrop. apply drop_splice; lia.
    + intros n o Hn Hno. rewrite Ho3. by apply Hkept.
  - exists u. rewrite Hu3, length_placed, hoff_placed, Ho3 by done. fold u.
    split; [done|]. split; [lia|]. split; [lia|]. rewrite <- He at 1. apply sub_splice_in. by apply Hin.
  - rewrite Ho3, Hu3. done.
  - intros item Hi. by eapply add_again.
Qed.
End props.

(** The flags of the record are bits of their own. *)
Lemma flags_cleared cleared spec new toast :
  has (Z.lor (flag_if cleared XLH_INSERT_ALL_VISIBLE_CLEARED)
         (Z.lor (flag_if spec XLH_INSERT_IS_SPECULATIVE)
            (Z.lor (flag_if new XLH_INSERT_CONTAINS_NEW_TUPLE)
               (flag_if toast XLH_INSERT_ON_TOAST_RELATION)))) XLH_INSERT_ALL_VISIBLE_CLEARED = cleared.
Proof. by destruct cleared, spec, new, toast. Qed.

Section targets.
Context `{HE : EVP} `{HC : Curl} `{HP : PgBlockSize} `{HM : PageMacros} `{HO : PageOps}.
Context `{HPO : HeapPageOps} `{HPL : !HeapPageLaws} `{HV : VmEnv} `{HIE : InsertEnv} `{HIT : !InsertTargets}.

(** A table whose pages and map are well formed. *)
Definition table_ok (s : InsertState) : Prop :=
  vm_ok (is_vm s) /\ forall bn p, heap s !! bn = Some p -> 0 <= bn /\ page_sane p.

(** No page has a bit in the map without its own flag. *)
Definition map_follows (s : InsertState) : Prop :=
  forall bn p, heap s !! bn = Some p -> vm_status (is_vm s) bn <> 0 -> PageIsAllVisible p = true.

(** What pg_tde_RelationGetBufferForTuple promises: a page with room for a
    tuple that fits in an empty page, its map page pinned when it is
    all-visible or when frozen tuples go to an empty page.  It may add pages,
    as long as the relation can be extended; it does not change those there
    are. *)
Class InsertTargetLaws := {
  max_tuple_len : Z;
  (** a relation with these blocks can be extended so many times *)
  can_extend : gset Z -> nat -> Prop;
  get_buffer_wp len options vm npages n s :
    0 < len <= max_tuple_len -> can_extend (dom (heap s)) (S n) -> table_ok s -> holds vm (is_vm s) ->
    wp (pg_tde_RelationGetBufferForTuple len options vm npages)
      (fun r s' => exists page,
         heap s' !! r.1 = Some page /\ 0 <= r.1 /\ r.1 * BLCKSZ < 2 ^ 32
         /\ MAXALIGN len <= PageGetHeapFreeSpace page
         /\ (PageIsAllVisible page = true
              \/ PageGetMaxOffsetNumber page = 0 /\ has options HEAP_INSERT_FROZEN = true ->
             r.2 = Some (HEAPBLK_TO_MAPBLOCK r.1))
         /\ holds r.2 (is_vm s')
         /\ is_tde s' = is_tde s /\ insert_wal s' = insert_wal s /\ table_ok s'
         /\ (forall y, 0 <= y -> vm_status (is_vm s') y = vm_status (is_vm s) y)
         /\ (forall b p, heap s !! b = Some p -> heap s' !! b = Some p)
         /\ (heap s !! r.1 = None -> vm_status (is_vm s) r.1 = 0 -> page = PageInit)
         /\ (map_follows s -> map_follows s') /\ can_extend (dom (heap s')) n) s
}.
End targets.

Section ops.
Context `{HE : EVP} `{HS : CIntShift} `{HL : !EVPLaws}.
Context `{HJ : Json} `{HB : Base64} `{HC : Curl} `{HF : KeyringFs}.
Context `{HT : TdeEnv} `{HP : PgBlockSize} `{HBL : !PgBlockSizeLaws}.
Context `{HM : PageMacros} `{HO : PageOps} `{HOL : !PageOpsLaws} `{HPO : HeapPageOps} `{HPL : !HeapPageLaws}.
Context `{HV : VmEnv} `{HVL : !VmLaws} `{HTM : ToastMacros} `{HH : HtupFlags} `{HLF : LockFlags}.
Context `{HIE : InsertEnv} `{HIT : !InsertTargets}.
Variable g : AesGlobals.
Variables (rd_locator : RelFileLocator) (relkind : Z).
Hypothesis Hg : aes_initialized g.

(** The keys are cached, and a page of the table is as given. *)
Record at_page (k : list Z) (bn : Z) (page : list Z) (s : InsertState) : Prop := {
  ap_keys : rel_keys_ready (is_tde s) rd_locator k;
  ap_page : heap s !! bn = Some page;
  ap_sane : page_sane page;
  ap_block : 0 <= bn /\ bn * BLCKSZ < 2 ^ 32;
}.

(** The state with the page replaced and the keys as they are now. *)
Definition with_page (bn : Z) (page : list Z) (t : TdeState) (s : InsertState) : InsertState :=
  with_heap (<[bn := page]> (heap s)) (with_tde t s).

Lemma with_page_twice bn p q t s : with_heap (<[bn := q]> (<[bn := p]> (heap s))) (with_tde t s)
  = with_page bn q t s.
Proof. unfold with_page. by rewrite insert_insert_eq. Qed.

Lemma at_page_with k bn page page' t s : at_page k bn page s -> page_sane page' ->
  rel_keys_ready t rd_locator k -> at_page k bn page' (with_page bn page' t s).
Proof.
  intros [_ _ _ Hbn] Hp Hk. split; cbn; try done. by rewrite lookup_insert_eq.
Qed.

Lemma put_wp k bn page tup token s (Q : HeapTuple -> InsertState -> Prop) :
  at_page k bn page s -> tuple_fine (tup_data tup) ->
  MAXALIGN (t_len tup) <= PageGetHeapFreeSpace page ->
  (forall off page' t', put_on k page page' bn off token (tup_data tup) ->
     rel_keys_ready t' rd_locator k ->
     Q {| tup_data := tup_data tup; t_self := (bn, off) |} (with_page bn page' t' s)) ->
  wp (pg_tde_RelationPutHeapTuple g rd_locator bn tup token) Q s.
Proof.
  intros [Hk Hpage Hp [Hbn Hbn4]] Hd Hfree HQ. pose proof Hd as (Hhd & Hh & _).
  unfold pg_tde_RelationPutHeapTuple, heap_page, t_len in *. set (d := tup_data tup) in *.
  apply wp_bind, wp_bind, wp_get. apply (wp_defined _ page); [done|].
  assert (Hlen : 0 < Z.of_nat (length d)) by (unfold header_bytes in Hhd; lia).
  pose proof (add_fits page d Hp Hlen Hfree) as Hoff.
  destruct (PageAddItemExtended page d _ InvalidOffsetNumber PAI_IS_HEAP) as [off page1] eqn:Hadd. cbn [fst] in Hoff.
  destruct (sane_range _ Hp) as (Hpl & _).
  destruct (PGTdePageAddItemExtended_spec g rd_locator bn page d _ _ _ off page1 k (get_field F_hoff d)
    (is_tde s) Hg Hk Hadd Hoff Hpl eq_refl (item_t_hoff_field d Hhd)) as (page2 & t' & E & E2 & Hl2 & Hk').
  { unfold SizeofHeapTupleHeader in Hh. lia. } { done. } { done. }
  apply wp_bind, wp_zoom. eapply wp_of_run; [exact E|]. cbn beta iota.
  apply wp_bind, wp_modify. rewrite (proj2 (Z.eqb_neq _ _)) by done.
  destruct (put_pages k bn page page1 off token d Hp Hd Hadd Hoff) as [Hat Hput].
  rewrite <- E2 in Hat, Hput. cbn [t_self]. destruct token; cbn [negb].
  - apply wp_ret. by apply HQ.
  - apply wp_bind. apply (wp_defined _ (pd_upper page1)); [done|]. apply wp_bind.
    destruct (add_item _ _ _ _ _ _ Hp Hadd Hoff) as (_ & _ & Hu & _).
    pose proof (max_align (Z.of_nat (length d))).
    destruct (sane_range _ Hp) as (_ & Hur & _). unfold header_bytes in Hhd.
    destruct (PageAddItem_success _ _ _ _ _ _ _ Hadd Hpl eq_refl Hoff) as (_ & Hu1 & _).
    rewrite wr_bytes_Some by (rewrite ?length_ctid_bytes; unfold ctid_at; lia).
    apply (wp_defined _ _ _ _ eq_refl). apply wp_bind, wp_modify, wp_ret.
    replace (Z.to_nat (pd_upper page1 + Z.of_nat ctid_at)) with (Z.to_nat (pd_upper page1) + ctid_at)%nat
      by (unfold ctid_at; lia).
    cbn [heap with_heap with_tde]. rewrite insert_insert_eq. by apply HQ.
Qed.

(** ** Around the page *)

Lemma with_tde_id (s : InsertState) : with_tde (is_tde s) s = s.
Proof. by destruct s. Qed.

Lemma crit_wp {A} (m : M InsertState A) Q s : wp m Q s -> wp (crit m) Q s.
Proof. unfold wp, crit. by destruct (m s) as [[a|l| |] s']. Qed.

Lemma heap_page_wp bn page (Q : list Z -> InsertState -> Prop) s :
  heap s !! bn = Some page -> Q page s -> wp (heap_page bn) Q s.
Proof. intros Hp HQ. unfold heap_page. apply wp_bind, wp_get. by apply (wp_defined _ page). Qed.

(** Clearing the flag of a page and its bits in the map. *)
Lemma clear_all_visible_wp bn page (Q : unit -> InsertState -> Prop) s :
  0 <= bn -> heap s !! bn = Some page -> vm_ok (is_vm s) ->
  HEAPBLK_TO_MAPBLOCK bn ∈ pinned (is_vm s) ->
  (forall v, vm_ok v -> pinned v = pinned (is_vm s) ->
     (forall y, 0 <= y -> vm_status v y = if y =? bn then 0 else vm_status (is_vm s) y) ->
     Q tt (with_vm v (with_heap (<[bn := PageClearAllVisible page]> (heap s)) s))) ->
  wp (clear_all_visible bn (Some (HEAPBLK_TO_MAPBLOCK bn))) Q s.
Proof.
  intros Hbn Hp Hvm Hpin HQ. unfold clear_all_visible. apply wp_bind. apply (heap_page_wp _ page); [done|].
  apply wp_bind, wp_modify, wp_bind, wp_zoom. cbn [is_vm with_heap].
  destruct (clear_spec bn VISIBILITYMAP_VALID_BITS (is_vm s) Hvm Hpin) as (v & E & Hok & Hpv & _ & _ & Hst).
  { rewrite valid_bits_value. lia. }
  eapply wp_of_run; [exact E|]. apply wp_ret. apply HQ; [done|done|].
  intros y Hy. rewrite Hst by done. destruct (Z.eqb_spec y bn) as [->|]; [|done].
  rewrite valid_bits_value. pose proof (status_range (is_vm s) bn) as Hr.
  assert (vm_status (is_vm s) bn = 0 \/ vm_status (is_vm s) bn = 1 \/ vm_status (is_vm s) bn = 2
    \/ vm_status (is_vm s) bn = 3) as [->|[->|[->| ->]]] by lia; done.
Qed.

(** The record of an insert has the bytes that are on the page. *)
Lemma log_insert_wp xid bn tup options cleared k page d s (Q : unit -> InsertState -> Prop) :
  heap s !! bn = Some page -> page_sane page -> header_bytes d -> t_len tup = Z.of_nat (length d) ->
  PageItemOffset page (snd (t_self tup)) = Some (pd_upper page) ->
  stored k page bn (snd (t_self tup)) d ->
  (forall init flags lsn cids s', 
     insert_wal s' = insert_wal s ++ cids ++
       [XlInsert xid bn init (snd (t_self tup)) flags
          {| xlh_infomask2 := get_field F_infomask2 (tup_data tup);
             xlh_infomask := get_field F_infomask (tup_data tup);
             xlh_hoff := get_field F_hoff (tup_data tup) |}
          (drop (Z.to_nat SizeofHeapTupleHeader)
             (encrypted_item k bn (pd_upper page) (get_field F_hoff d) d))] ->
     (has flags XLH_INSERT_ALL_VISIBLE_CLEARED = cleared) ->
     (init = true -> snd (t_self tup) = FirstOffsetNumber) ->
     is_tde s' = is_tde s -> is_vm s' = is_vm s ->
     heap s' = <[bn := PageSetLSN_heap lsn page]> (heap s) -> Q tt s') ->
  wp (log_insert rd_locator xid bn tup options cleared) Q s.
Proof.
  intros Hpage Hp Hd Hlen Hat (o & Ho & Hou & Hend & Hbytes) HQ. rewrite Hat in Ho. injection Ho as <-.
  unfold log_insert. apply wp_bind.
  assert (Hcid : wp (if RelationIsAccessibleInLogicalDecoding then log_pg_tde_new_cid rd_locator tup;;; ret tt
                     else ret tt)
    (fun _ s1 => exists cids, insert_wal s1 = insert_wal s ++ cids /\ is_tde s1 = is_tde s
       /\ is_vm s1 = is_vm s /\ heap s1 = heap s) s).
  { destruct RelationIsAccessibleInLogicalDecoding.
    - unfold log_pg_tde_new_cid. repeat case_match; apply wp_bind; eexists; split_and!; cbn; eauto.
    - apply wp_ret. exists []. by rewrite app_nil_r. }
  eapply wp_mono; [exact Hcid|]. intros _ s1 (cids & Hw & Ht & Hv & Hh). cbn beta.
  apply wp_bind. apply (heap_page_wp _ page); [by rewrite Hh|].
  destruct (sane_range _ Hp) as (Hl & Hur & _). unfold header_bytes in Hd.
  assert (Hrd : rd_bytes page (pd_upper page + SizeofHeapTupleHeader) (t_len tup - SizeofHeapTupleHeader)
    = Some (drop (Z.to_nat SizeofHeapTupleHeader)
              (encrypted_item k bn (pd_upper page) (get_field F_hoff d) d))).
  { rewrite <- Hbytes, Hlen. unfold SizeofHeapTupleHeader. rewrite rd_bytes_Some by lia.
    f_equal. rewrite skipn_firstn_comm, drop_drop.
    f_equal; [lia|f_equal; lia]. }
  rewrite Hrd. apply wp_bind. apply (wp_defined _ _ _ _ eq_refl). apply wp_bind. unfold XLogInsert_rec.
  eapply wp_of_run; [reflexivity|]. apply wp_modify. eapply HQ; cbn [insert_wal is_tde is_vm heap with_heap].
  - by rewrite Hw, <- app_assoc.
  - apply flags_cleared.
  - intros Hi. by apply andb_true_iff in Hi as [Hi%Z.eqb_eq _].
  - done.
  - done.
  - by rewrite Hh.
Qed.

(** ** What changes of a table keep *)

(** Every page still has its tuples. *)
Definition pages_kept (s s' : InsertState) : Prop :=
  forall b p, heap s !! b = Some p -> exists p', heap s' !! b = Some p' /\ keeps p p'.

#[export] Instance pages_kept_preorder : PreOrder pages_kept.
Proof.
  split.
  - intros s b p Hp. by exists p.
  - intros s1 s2 s3 H1 H2 b p Hp. destruct (H1 b p Hp) as (p' & Hp' & Hk1).
    destruct (H2 b p' Hp') as (p'' & Hp'' & Hk2). exists p''. split; [done|]. by etrans.
Qed.

(** A page of a sound table is replaced, and the map may change at its block. *)
Lemma page_step bn p p' s s' : table_ok s -> heap s !! bn = Some p -> page_sane p' -> keeps p p' ->
  heap s' = <[bn := p']> (heap s) -> vm_ok (is_vm s') ->
  table_ok s' /\ pages_kept s s'
  /\ (map_follows s ->
      (forall y, 0 <= y -> y <> bn -> vm_status (is_vm s') y = vm_status (is_vm s) y) ->
      (vm_status (is_vm s') bn <> 0 -> PageIsAllVisible p' = true) -> map_follows s').
Proof.
  intros [_ Hok] Hp Hs Hk Hheap Hvm. split; [split; [done|]|split].
  - intros b q. rewrite Hheap. intros [[<- <-]|[_ Hq]]%lookup_insert_Some; [|by apply Hok].
    split; [|done]. by destruct (Hok _ _ Hp).
  - intros b q Hq. rewrite Hheap. destruct (decide (b = bn)) as [->|Hne].
    + exists p'. rewrite lookup_insert_eq. split; [done|]. by simplify_eq.
    + exists q. by rewrite lookup_insert_ne.
  - intros Hmap Hst Hbn b q. rewrite Hheap. intros [[<- <-]|[Hne Hq]]%lookup_insert_Some; [done|].
    rewrite Hst; [by apply Hmap|by destruct (Hok _ _ Hq)|done].
Qed.

(** Clearing the flag of the page when it is set. *)
Lemma clear_if_wp bn page vmbuffer (b : bool) (s : InsertState) (Q : unit -> InsertState -> Prop) :
  table_ok s -> heap s !! bn = Some page -> holds vmbuffer (is_vm s) ->
  (b = true -> vmbuffer = Some (HEAPBLK_TO_MAPBLOCK bn)) ->
  (forall v page', page_sane page' -> header_only page page' -> vm_ok v ->
     PageIsAllVisible page' = (if b then false else PageIsAllVisible page) ->
     pinned v = pinned (is_vm s) ->
     (forall y, 0 <= y -> y <> bn -> vm_status v y = vm_status (is_vm s) y) ->
     vm_status v bn = (if b then 0 else vm_status (is_vm s) bn) ->
     Q tt (with_vm v (with_heap (<[bn := page']> (heap s)) s))) ->
  wp (if b then clear_all_visible bn vmbuffer else ret tt) Q s.
Proof.
  intros [Hvm Hok] Hp Hholds Hb HQ. destruct (Hok bn page Hp) as [Hbn Hs]. destruct b.
  - specialize (Hb eq_refl). subst vmbuffer. destruct (clear_visible_header page Hs) as [Hho Hcl].
    apply (clear_all_visible_wp bn page); [done..|]. intros v Hv Hpin Hst. apply HQ; try done.
    + apply Hho.
    + intros y Hy Hne. rewrite Hst by done. by rewrite (proj2 (Z.eqb_neq _ _)).
    + by rewrite Hst, Z.eqb_refl.
  - apply wp_ret. specialize (HQ (is_vm s) page Hs). unfold with_vm, with_heap in HQ. cbn in HQ.
    rewrite insert_id in HQ by done. destruct s. apply HQ; done.
Qed.
End ops.
