(* ===== verification/InsertMulti.v ===== *)
(** The records of a multi-insert: what is written to the scratch area is
    what replay reads. *)
From S2P Require Import Prelude EncAes RelKeys EncTuple KeyringTypes KeyringApi XactHandler TdeMap Visibility VisibilityMap LockFlags Prune TupleIO TupleBytes Toast Insert InsertProps.

(** ** Writing and reading a buffer *)

Lemma wr_bytes_ok (b src : list Z) (a : Z) : 0 <= a -> a + Z.of_nat (length src) <= Z.of_nat (length b) ->
  exists b', wr_bytes b a src = Some b' /\ length b' = length b
    /\ rd_bytes b' a (Z.of_nat (length src)) = Some src
    /\ forall x n, x + n <= a \/ a + Z.of_nat (length src) <= x -> rd_bytes b' x n = rd_bytes b x n.
Proof.
  intros Ha Hl. rewrite wr_bytes_Some by lia. eexists. split; [done|].
  assert (El : length (splice b (Z.to_nat a) src) = length b) by (apply length_splice; lia).
  split; [done|]. split.
  - rewrite rd_bytes_Some by lia. by rewrite Nat2Z.id, sub_splice_in by lia.
  - intros x n Hx. unfold rd_bytes. rewrite El.
    destruct (Z.leb_spec 0 x), (Z.leb_spec 0 n), (Z.leb_spec (x + n) (Z.of_nat (length b))); cbn; try done.
    f_equal. apply sub_splice_out; lia.
Qed.

Lemma rd_of_rd_bytes (l : list Z) x v : rd_bytes l x 1 = Some [v] -> rd l x = Some v.
Proof.
  unfold rd_bytes, rd. destruct (Z.leb_spec 0 x); cbn [andb]; [|done].
  destruct (Z.leb_spec (x + 1) (Z.of_nat (length l))); cbn [andb]; [|done].
  change (Z.to_nat 1) with 1%nat. intros [= E].
  destruct (lookup_lt_is_Some_2 l (Z.to_nat x) ltac:(lia)) as [w Hw]. rewrite Hw.
  rewrite (drop_S _ w _ Hw) in E. cbn in E. congruence.
Qed.

Lemma SHORTALIGN_range p : p <= SHORTALIGN p <= p + 1.
Proof. unfold SHORTALIGN. pose proof (Z.div_mod (p + 1) 2 ltac:(lia)). pose proof (Z.mod_pos_bound (p + 1) 2). lia. Qed.

Lemma SHORTALIGN_shift td p : (2 | td) -> SHORTALIGN (td + p) = td + SHORTALIGN p.
Proof.
  intros [z ->]. unfold SHORTALIGN. replace (z * 2 + p + 1) with (p + 1 + z * 2) by lia.
  rewrite Z.div_add by lia. lia.
Qed.

Section multi.
Context `{HE : EVP} `{HS : CIntShift} `{HL : !EVPLaws}.
Context `{HJ : Json} `{HB : Base64} `{HC : Curl} `{HF : KeyringFs}.
Context `{HT : TdeEnv} `{HP : PgBlockSize} `{HM : PageMacros} `{HO : PageOps} `{HPO : HeapPageOps}.
Context `{HIE : InsertEnv}.

(** A tuple on a page, and what its part of the record says. *)
Record loggable (page : list Z) (tup : HeapTuple) : Prop := {
  lg_header : header_bytes (tup_data tup);
  lg_len : t_len tup < 2 ^ 16;
  lg_fields : 0 <= get_field F_infomask2 (tup_data tup) < 2 ^ 16
              /\ 0 <= get_field F_infomask (tup_data tup) < 2 ^ 16 /\ 0 <= get_field F_hoff (tup_data tup) < 2 ^ 8;
  lg_tid : 0 <= snd (t_self tup) < 2 ^ 16;
  lg_place : exists o, PageItemOffset page (snd (t_self tup)) = Some o /\ 0 <= o
                       /\ o + t_len tup <= Z.of_nat (length page);
}.

Definition tuple_hdr (tup : HeapTuple) : xl_pg_tde_header :=
  {| xlh_infomask2 := get_field F_infomask2 (tup_data tup);
     xlh_infomask := get_field F_infomask (tup_data tup);
     xlh_hoff := get_field F_hoff (tup_data tup) |}.

(** The bytes of the tuple on the page, behind the fixed header. *)
Definition page_data (page : list Z) (tup : HeapTuple) : list Z :=
  match PageItemOffset page (snd (t_self tup)) with
  | Some o => take (Z.to_nat (t_len tup - SizeofHeapTupleHeader))
                (drop (Z.to_nat (o + SizeofHeapTupleHeader)) page)
  | None => []
  end.

Definition slot (i : Z) : Z := SizeOfHeapMultiInsert + sizeof_OffsetNumber * i.
Definition tuple_end (tup : HeapTuple) (p : Z) : Z :=
  SHORTALIGN p + SizeOfMultiInsertTuple + (t_len tup - SizeofHeapTupleHeader).

(** What is before [p] is as it was, but for the offsets [i..j) when there
    are offsets. *)
Definition framed (init : bool) (i j p : Z) (b b' : list Z) : Prop :=
  length b' = length b
  /\ forall x n, x + n <= p -> init = true \/ slot j <= x \/ x + n <= slot i ->
       rd_bytes b' x n = rd_bytes b x n.

Lemma log_multi_tuple_spec page init i tup scratch p : loggable page tup -> 0 <= i -> 0 <= p ->
  (init = false -> slot (i + 1) <= p) -> tuple_end tup p <= Z.of_nat (length scratch) ->
  exists scratch', log_multi_tuple page init i tup scratch p = Some (scratch', tuple_end tup p)
    /\ framed init i (i + 1) p scratch scratch'
    /\ (init = false -> rd_bytes scratch' (slot i) 2 = Some (le_bytes 2 (snd (t_self tup))))
    /\ read_multi_tuple scratch' p = Some (tuple_hdr tup, page_data page tup, tuple_end tup p).
Proof.
  intros [Hd Hlen (Hf1 & Hf2 & Hf3) Htid (o & Ho & Ho0 & Hoend)] Hi Hp0 Hslot Hend.
  pose proof (SHORTALIGN_range p) as Hsa. unfold log_multi_tuple, tuple_end in *. set (h := SHORTALIGN p) in *.
  unfold header_bytes, t_len in *. set (d := tup_data tup) in *.
  unfold slot, SizeOfHeapMultiInsert, sizeof_OffsetNumber, SizeOfMultiInsertTuple, SizeofHeapTupleHeader in *.
  set (s0 := if init then Some scratch else _).
  assert (H0 : exists b0, s0 = Some b0 /\ length b0 = length scratch
    /\ (init = false -> rd_bytes b0 (4 + 2 * i) 2 = Some (le_bytes 2 (snd (t_self tup))))
    /\ forall x n, init = true \/ x + n <= 4 + 2 * i \/ 4 + 2 * (i + 1) <= x -> rd_bytes b0 x n = rd_bytes scratch x n).
  { destruct init; [by exists scratch|].
    destruct (wr_bytes_ok scratch (le_bytes 2 (snd (t_self tup))) (4 + 2 * i)) as (b0 & E & L & R & F);
      rewrite ?length_le_bytes in *; [lia|specialize (Hslot eq_refl); lia|]. exists b0. split_and!; try done.
    intros x n [?|Hx]; [done|]. apply F. lia. }
  destruct H0 as (b0 & -> & L0 & R0 & F0). cbn [mbind option_bind].
  assert (Hpd : page_data page tup = take (Z.to_nat (Z.of_nat (length d) - 23)) (drop (Z.to_nat (o + 23)) page)).
  { unfold page_data. by rewrite Ho. }
  set (bytes := page_data page tup) in *.
  assert (Hbl : Z.of_nat (length bytes) = Z.of_nat (length d) - 23) by (rewrite Hpd, length_take, length_drop; lia).
  destruct (wr_bytes_ok b0 (le_bytes 2 (get_field F_infomask2 d)) (h + 2)) as (b1 & E1 & L1 & R1 & F1);
    rewrite ?length_le_bytes in *; [lia|lia|].
  destruct (wr_bytes_ok b1 (le_bytes 2 (get_field F_infomask d)) (h + 4)) as (b2 & E2 & L2 & R2 & F2);
    rewrite ?length_le_bytes in *; [lia|lia|].
  destruct (wr_bytes_ok b2 (le_bytes 1 (get_field F_hoff d)) (h + 6)) as (b3 & E3 & L3 & R3 & F3);
    rewrite ?length_le_bytes in *; [lia|lia|].
  destruct (wr_bytes_ok b3 bytes (h + 7)) as (b4 & E4 & L4 & R4 & F4); [lia|lia|].
  destruct (wr_bytes_ok b4 (le_bytes 2 (Z.of_nat (length d) - 23)) h) as (b5 & E5 & L5 & R5 & F5);
    rewrite ?length_le_bytes in *; [lia|lia|].
  rewrite E1. cbn [mbind option_bind]. rewrite E2. cbn [mbind option_bind]. rewrite E3. cbn [mbind option_bind].
  rewrite Ho. cbn [mbind option_bind]. rewrite rd_bytes_Some by lia. rewrite <- Hpd. cbn [mbind option_bind].
  rewrite E4. cbn [mbind option_bind]. rewrite E5. cbn [mbind option_bind].
  change (Z.of_nat 2) with 2 in *. change (Z.of_nat 1) with 1 in *.
  exists b5. split; [done|]. split; [|split].
  - split; [lia|]. intros x n Hx Hs. rewrite F5, F4, F3, F2, F1 by lia.
    apply F0. unfold slot, SizeOfHeapMultiInsert, sizeof_OffsetNumber in Hs. destruct Hs as [?|Hs]; [by left|right; lia].
  - intros Hi0. specialize (Hslot Hi0). rewrite F5, F4, F3, F2, F1 by lia. by apply R0.
  - unfold read_multi_tuple. fold h. rewrite R5. cbn [fmap option_fmap option_map mbind option_bind].
    rewrite (F5 (h + 2)), F4, F3, F2, R1 by lia. cbn [fmap option_fmap option_map mbind option_bind].
    rewrite (F5 (h + 4)), F4, F3, R2 by lia. cbn [fmap option_fmap option_map mbind option_bind].
    rewrite (F5 (h + 6)), F4, R3 by lia. cbn [fmap option_fmap option_map mbind option_bind].
    rewrite !le_value_bytes by (change (256 ^ Z.of_nat 2) with (2 ^ 16); change (256 ^ Z.of_nat 1) with (2 ^ 8); lia).
    unfold SizeOfMultiInsertTuple. rewrite <- Hbl.
    rewrite (F5 (h + 7)), R4 by lia. done.
Qed.

(** The same bytes, read elsewhere. *)
Lemma read_multi_tuple_move b b' dl p hdr data q : (2 | dl) -> 
  read_multi_tuple b (dl + p) = Some (hdr, data, dl + q) ->
  (forall x n, p <= x -> x + n <= q -> rd_bytes b' x n = rd_bytes b (dl + x) n) ->
  read_multi_tuple b' p = Some (hdr, data, q).
Proof.
  intros Hdl Hr Heq. unfold read_multi_tuple in *. rewrite SHORTALIGN_shift in Hr by done.
  pose proof (SHORTALIGN_range p) as Hp. set (h := SHORTALIGN p) in *.
  destruct (rd_bytes b (dl + h) 2) as [l1|] eqn:E1; cbn in Hr; [|done].
  destruct (rd_bytes b (dl + h + 2) 2) as [l2|] eqn:E2; cbn in Hr; [|done].
  destruct (rd_bytes b (dl + h + 4) 2) as [l3|] eqn:E3; cbn in Hr; [|done].
  destruct (rd_bytes b (dl + h + 6) 1) as [l4|] eqn:E4; cbn in Hr; [|done].
  unfold SizeOfMultiInsertTuple in *.
  destruct (rd_bytes b (dl + h + 7) (le_value l1)) as [l5|] eqn:E5; cbn in Hr; [|done].
  assert (Hn : 0 <= le_value l1).
  { unfold rd_bytes in E5. destruct (Z.leb_spec 0 (le_value l1)); [done|].
    by rewrite andb_false_r in E5. }
  injection Hr as <- <- Hq.
  rewrite (Heq h), E1 by lia. cbn. rewrite (Heq (h + 2)), Z.add_assoc, E2 by lia. cbn.
  rewrite (Heq (h + 4)), Z.add_assoc, E3 by lia. cbn. rewrite (Heq (h + 6)), Z.add_assoc, E4 by lia. cbn.
  rewrite (Heq (h + 7)), Z.add_assoc, E5 by lia. cbn. do 3 f_equal. lia.
Qed.

(** From [p] on the tuples are read one after another. *)
Fixpoint reads_as (page block : list Z) (p : Z) (tups : list HeapTuple) : Prop :=
  match tups with
  | [] => True
  | t :: tups =>
      read_multi_tuple block p = Some (tuple_hdr t, page_data page t, tuple_end t p)
      /\ reads_as page block (tuple_end t p) tups
  end.

Definition tuples_end (tups : list HeapTuple) (p : Z) : Z := foldl (fun p t => tuple_end t p) p tups.

Lemma tuple_end_le tup p : header_bytes (tup_data tup) ->
  p + SizeOfMultiInsertTuple <= tuple_end tup p <= p + t_len tup - 15.
Proof.
  intros Hd. pose proof (SHORTALIGN_range p). unfold tuple_end, header_bytes, t_len, SizeOfMultiInsertTuple, SizeofHeapTupleHeader in *.
  lia.
Qed.

Lemma tuples_end_le tups p : Forall (fun t => header_bytes (tup_data t)) tups -> p <= tuples_end tups p.
Proof.
  intros H. revert p. induction H as [|t tups Ht _ IH]; intros p; cbn; [lia|].
  pose proof (tuple_end_le t p Ht). specialize (IH (tuple_end t p)). unfold tuples_end, SizeOfMultiInsertTuple in *. lia.
Qed.

Lemma tuple_end_shift t dl p : (2 | dl) -> tuple_end t (dl + p) = dl + tuple_end t p.
Proof. intros Hdl. unfold tuple_end. rewrite SHORTALIGN_shift by done. lia. Qed.

Lemma reads_as_move page b b' dl tups : (2 | dl) -> forall p,
  Forall (fun t => header_bytes (tup_data t)) tups -> reads_as page b (dl + p) tups ->
  (forall x n, p <= x -> x + n <= tuples_end tups p -> rd_bytes b' x n = rd_bytes b (dl + x) n) ->
  reads_as page b' p tups.
Proof.
  intros Hdl. induction tups as [|t tups IH]; intros p Hall Hr Heq; [done|].
  apply Forall_cons in Hall as [Ht Hall]. cbn [reads_as tuples_end foldl] in *. destruct Hr as [Hr1 Hr].
  pose proof (tuple_end_le t p Ht). pose proof (tuples_end_le tups (tuple_end t p) Hall).
  unfold tuples_end, SizeOfMultiInsertTuple in *. rewrite tuple_end_shift in Hr1, Hr by done. split.
  - apply (read_multi_tuple_move b b' dl); [done|done|]. intros x n Hx Hn. apply Heq; lia.
  - apply IH; [done|done|]. intros x n Hx Hn. apply Heq; lia.
Qed.

Lemma log_multi_tuples_spec page init tups : Forall (loggable page) tups -> forall i scratch p,
  0 <= i -> 0 <= p -> (init = false -> slot (i + Z.of_nat (length tups)) <= p) -> tuples_end tups p <= Z.of_nat (length scratch) ->
  exists scratch', log_multi_tuples page init i tups scratch p = Some (scratch', tuples_end tups p)
    /\ framed init i (i + Z.of_nat (length tups)) p scratch scratch'
    /\ (init = false -> forall m t, tups !! m = Some t ->
          rd_bytes scratch' (slot (i + Z.of_nat m)) 2 = Some (le_bytes 2 (snd (t_self t))))
    /\ reads_as page scratch' p tups.
Proof.
  induction tups as [|t tups IH]; intros Hall i scratch p Hi Hp0 Hslot Hend.
  { exists scratch. split; [done|]. split; [done|]. split; [|done]. intros _ m t H. by rewrite lookup_nil in H. }
  apply Forall_cons in Hall as [Ht Hall]. cbn [tuples_end foldl length] in *.
  assert (Hh : Forall (fun t => header_bytes (tup_data t)) tups) by (eapply Forall_impl; [exact Hall|]; intros ? Hx; apply Hx).
  pose proof (tuple_end_le t p (lg_header _ _ Ht)) as Hte. pose proof (tuples_end_le tups (tuple_end t p) Hh) as Hle.
  unfold tuples_end, slot, SizeOfHeapMultiInsert, sizeof_OffsetNumber, SizeOfMultiInsertTuple in *.
  destruct (log_multi_tuple_spec page init i t scratch p Ht Hi Hp0) as (b1 & E1 & [L1 F1] & S1 & R1);
    [unfold slot, SizeOfHeapMultiInsert, sizeof_OffsetNumber; intuition lia|lia|].
  cbn [log_multi_tuples]. rewrite E1. cbn [mbind option_bind fst snd].
  destruct (IH Hall (i + 1) b1 (tuple_end t p)) as (b2 & E2 & [L2 F2] & S2 & R2); [lia|lia|intuition lia|lia|].
  unfold slot, SizeOfHeapMultiInsert, sizeof_OffsetNumber in *.
  exists b2. split; [done|]. split; [split; [lia|]|split].
  - intros x n Hx Hs. unfold slot, SizeOfHeapMultiInsert, sizeof_OffsetNumber in Hs.
    destruct Hs as [?|Hs]; [rewrite F2 by (lia || by left); apply F1; [lia|by left]|].
    rewrite F2 by (lia || (right; lia)). apply F1; [lia|]. unfold slot, SizeOfHeapMultiInsert, sizeof_OffsetNumber. right. lia.
  - intros Hi0 [|m] t' Hm; cbn in Hm.
    + injection Hm as <-. replace (i + Z.of_nat 0) with i by lia. specialize (Hslot Hi0). rewrite F2 by lia. by apply S1.
    + replace (i + Z.of_nat (S m)) with (i + 1 + Z.of_nat m) by lia. by apply S2.
  - split; [|done]. apply (read_multi_tuple_move b1 b2 0 p); [by exists 0|done|].
    intros x n Hx Hn. rewrite Z.add_0_l. apply F2; [lia|]. destruct init; [by left|].
    specialize (Hslot eq_refl). lia.
Qed.

Definition total_len (tups : list HeapTuple) : Z := foldr (fun t a => t_len t + a) 0 tups.

Lemma tuples_end_total tups : Forall (fun t => header_bytes (tup_data t)) tups -> forall p,
  p + 7 * Z.of_nat (length tups) <= tuples_end tups p <= p + total_len tups - 15 * Z.of_nat (length tups)
  /\ 23 * Z.of_nat (length tups) <= total_len tups.
Proof.
  induction 1 as [|t tups Ht _ IH]; intros p; cbn [tuples_end foldl total_len foldr length]; [lia|].
  pose proof (tuple_end_le t p Ht). destruct (IH (tuple_end t p)) as [IH1 IH2].
  unfold tuples_end, total_len, SizeOfMultiInsertTuple, header_bytes, t_len in *. lia.
Qed.

Lemma rd_bytes_sub b td n blk : rd_bytes b td n = Some blk ->
  length blk = Z.to_nat n /\ 0 <= n
  /\ forall x m, 0 <= x -> x + m <= n -> rd_bytes blk x m = rd_bytes b (td + x) m.
Proof.
  unfold rd_bytes. destruct (Z.leb_spec 0 td), (Z.leb_spec 0 n), (Z.leb_spec (td + n) (Z.of_nat (length b)));
    cbn [andb]; try done. intros [= <-].
  assert (Hl : length (take (Z.to_nat n) (drop (Z.to_nat td) b)) = Z.to_nat n) by (rewrite length_take, length_drop; lia).
  split; [done|]. split; [done|]. intros x m Hx Hm. rewrite Hl.
  rewrite (proj2 (Z.leb_le 0 x)), (proj2 (Z.leb_le 0 (td + x))) by lia.
  destruct (Z.leb_spec 0 m); [|done]. rewrite (proj2 (Z.leb_le (x + m) _)), (proj2 (Z.leb_le (td + x + m) _)) by lia.
  cbn. f_equal. rewrite skipn_firstn_comm, take_take, drop_drop. f_equal; [lia|f_equal; lia].
Qed.

(** The flags of the record. *)
Definition multi_flags (last cleared frozen : bool) : Z :=
  Z.lor (if frozen then XLH_INSERT_ALL_FROZEN_SET else flag_if cleared XLH_INSERT_ALL_VISIBLE_CLEARED)
    (Z.lor (flag_if RelationIsLogicallyLogged XLH_INSERT_CONTAINS_NEW_TUPLE)
           (flag_if last XLH_INSERT_LAST_IN_MULTI)).

Lemma tuples_end_shift tups dl p : (2 | dl) -> tuples_end tups (dl + p) - dl = tuples_end tups p.
Proof.
  intros Hdl. revert p. induction tups as [|t tups IH]; intros p; cbn; [lia|].
  unfold tuples_end in *. by rewrite tuple_end_shift, IH by done.
Qed.

Lemma multi_insert_data_spec page init last cleared frozen tups scratch : Forall (loggable page) tups ->
  total_len tups + 24 <= Z.of_nat (length scratch) -> Z.of_nat (length scratch) < 2 ^ 16 ->
  exists main block scratch', multi_insert_data page init last cleared frozen tups scratch = Some (main, block, scratch')
    /\ length scratch' = length scratch
    /\ rd main 0 = Some (multi_flags last cleared frozen)
    /\ rd_bytes main 2 2 = Some (le_bytes 2 (Z.of_nat (length tups)))
    /\ (init = false -> forall m t, tups !! m = Some t ->
          record_offset false main (Z.of_nat m) = Some (snd (t_self t)))
    /\ reads_as page block 0 tups /\ tuples_end tups 0 = Z.of_nat (length block).
Proof.
  intros Hall Hroom H16. unfold multi_insert_data. set (n := Z.of_nat (length tups)) in *.
  assert (Hh : Forall (fun t => header_bytes (tup_data t)) tups) by (eapply Forall_impl; [exact Hall|]; intros ? Hx; apply Hx).
  set (td := SizeOfHeapMultiInsert + (if init then 0 else n * sizeof_OffsetNumber)).
  assert (Htd : td = (if init then 4 else 4 + 2 * n) /\ (2 | td)).
  { unfold td, SizeOfHeapMultiInsert, sizeof_OffsetNumber. destruct init; [split; [done|by exists 2]|].
    split; [lia|]. exists (2 + n). lia. }
  destruct Htd as [Htd Hdvd]. destruct (tuples_end_total tups Hh td) as [Hend H23]. fold n in Hend, H23.
  destruct (wr_bytes_ok scratch (le_bytes 2 n) 2) as (b0 & E0 & L0 & R0 & F0); rewrite ?length_le_bytes in *; [lia|destruct init; lia|].
  rewrite E0. cbn [mbind option_bind].
  destruct (log_multi_tuples_spec page init tups Hall 0 b0 td) as (b1 & E1 & [L1 F1] & S1 & R1).
  { lia. } { destruct init; lia. }
  { intros Hi0. unfold slot, SizeOfHeapMultiInsert, sizeof_OffsetNumber. fold n. rewrite Hi0 in Htd. lia. }
  { destruct init; lia. }
  rewrite E1. cbn [mbind option_bind]. fold (multi_flags last cleared frozen).
  destruct (wr_bytes_ok b1 [multi_flags last cleared frozen] 0) as (b2 & E2 & L2 & R2 & F2); [lia|cbn; destruct init; lia|].
  change (Z.of_nat (length [_])) with 1 in *. rewrite E2. cbn [mbind option_bind].
  destruct (rd_bytes b2 0 td) as [main|] eqn:Em.
  2:{ rewrite rd_bytes_Some in Em by (destruct init; lia). done. }
  destruct (rd_bytes b2 td (tuples_end tups td - td)) as [block|] eqn:Eb.
  2:{ rewrite rd_bytes_Some in Eb by (destruct init; lia). done. }
  cbn [mbind option_bind]. exists main, block, b2. split; [done|]. split; [lia|].
  destruct (rd_bytes_sub _ _ _ _ Em) as (Lm & _ & Sm). destruct (rd_bytes_sub _ _ _ _ Eb) as (Lb & Hb0 & Sb).
  assert (Htd4 : 4 <= td) by (destruct init; lia).
  assert (Hlow : rd_bytes b2 2 2 = Some (le_bytes 2 n)).
  { rewrite F2 by lia. rewrite F1; [exact R0|lia|]. unfold slot, SizeOfHeapMultiInsert. right. right. lia. }
  pose proof (tuples_end_shift tups td 0 Hdvd) as Hsh. rewrite Z.add_0_r in Hsh.
  split_and!.
  - apply rd_of_rd_bytes. rewrite Sm by lia. by rewrite Z.add_0_l.
  - by rewrite Sm by lia.
  - intros Hi0 m t Hm. unfold record_offset. change (SizeOfHeapMultiInsert + _) with (slot (Z.of_nat m)).
    assert (Hmn : Z.of_nat m < n) by (apply lookup_lt_Some in Hm; lia). rewrite Hi0 in Htd.
    specialize (S1 Hi0 m t Hm). rewrite Z.add_0_l in S1.
    assert (Hsl : 4 <= slot (Z.of_nat m) /\ slot (Z.of_nat m) + 2 <= td)
      by (unfold slot, SizeOfHeapMultiInsert, sizeof_OffsetNumber; lia).
    rewrite Sm, Z.add_0_l, F2, S1 by lia. cbn. f_equal.
    rewrite Forall_lookup in Hall. destruct (Hall m t Hm) as [_ _ _ Htid _].
    apply (le_value_bytes 2). change (256 ^ Z.of_nat 2) with (2 ^ 16). lia.
  - apply (reads_as_move page b1 block td); [done|done|by rewrite Z.add_0_r|].
    intros x m Hx Hm. rewrite Sb by lia. apply F2. lia.
  - lia.
Qed.
End multi.
