(* ===== verification/InsertPages.v ===== *)
(** Filling a page with the tuples of a multi-insert. *)
From S2P Require Import Prelude EncAes RelKeys EncTuple KeyringTypes KeyringApi XactHandler TdeMap Visibility VisibilityMap VisibilityMapProps VisibilityMapOps LockFlags Prune TupleIO TupleBytes Toast Insert InsertProps InsertMulti.

Section pages.
Context `{HE : EVP} `{HS : CIntShift} `{HL : !EVPLaws}.
Context `{HJ : Json} `{HB : Base64} `{HC : Curl} `{HF : KeyringFs}.
Context `{HT : TdeEnv} `{HP : PgBlockSize} `{HBL : !PgBlockSizeLaws}.
Context `{HM : PageMacros} `{HO : PageOps} `{HOL : !PageOpsLaws} `{HPO : HeapPageOps} `{HPL : !HeapPageLaws}.
Context `{HV : VmEnv} `{HVL : !VmLaws} `{HTM : ToastMacros} `{HH : HtupFlags} `{HLF : LockFlags}.
Context `{HIE : InsertEnv} `{HIT : !InsertTargets} `{HITL : !InsertTargetLaws}.
Variable g : AesGlobals.
Variables (rd_locator : RelFileLocator) (relkind : Z).
Hypothesis Hg : aes_initialized g.

(** A tuple that was inserted is on the page its TID names. *)
Definition held (k page : list Z) (bn : Z) (t : HeapTuple) : Prop :=
  fst (t_self t) = bn /\ 1 <= snd (t_self t) < 2 ^ 16
  /\ stored k page bn (snd (t_self t)) (set_ctid (t_self t) (tup_data t)).

Lemma held_keeps k p q bn t : page_sane p -> keeps p q -> held k p bn t -> held k q bn t.
Proof. intros Hp Hk (H1 & H2 & H3). split; [done|]. split; [done|]. by eapply keeps_stored. Qed.

(** A page after some tuples were put on it. *)
Record filled (k page page' : list Z) (bn : Z) (here : list HeapTuple) : Prop := {
  fl_sane : page_sane page';
  fl_keeps : keeps page page';
  fl_visible : PageIsAllVisible page' = PageIsAllVisible page;
  fl_held : Forall (held k page' bn) here;
  fl_room : total_len here + pd_upper page' <= pd_upper page;
}.

Lemma filled_cons k p q r bn t here : page_sane p -> filled k p q bn [t] -> filled k q r bn here ->
  filled k p r bn (t :: here).
Proof.
  intros Hp [H1 H2 H3 H4 H5] [H6 H7 H8 H9 H10]. split; [done|by etrans|congruence| |].
  - apply Forall_cons. split; [|done]. apply Forall_cons in H4 as [H4 _].
    exact (held_keeps _ _ _ _ _ H1 H7 H4).
  - cbn [total_len foldr] in *. unfold total_len in *. lia.
Qed.

Lemma put_on_filled k p q bn off d : header_bytes d -> put_on k p q bn off false d ->
  filled k p q bn [{| tup_data := d; t_self := (bn, off) |}].
Proof.
  intros Hd [H1 H2 H3 H4 H5 H6 H7 H8 _]. pose proof (max_align (Z.of_nat (length d))).
  split; [done|done|done| |cbn; unfold t_len; cbn; lia].
  apply Forall_cons. split; [|constructor]. split; [done|]. split; [cbn; lia|done].
Qed.

(** Fields of [s'] that putting tuples on page [bn] sets. *)
Record page_filled (k page' : list Z) (bn : Z) (s s' : InsertState) : Prop := {
  pf_heap : heap s' = <[bn := page']> (heap s);
  pf_vm : is_vm s' = is_vm s;
  pf_keys : rel_keys_ready (is_tde s') rd_locator k;
}.

Lemma log_cid_wp tup s (Q : unit -> InsertState -> Prop) :
  (forall s', heap s' = heap s -> is_vm s' = is_vm s -> is_tde s' = is_tde s -> Q tt s') ->
  wp (log_cid rd_locator tup) Q s.
Proof.
  intros HQ. unfold log_cid. destruct (_ && _); [|apply wp_ret; by apply HQ].
  unfold log_pg_tde_new_cid. repeat case_match; apply wp_bind; by apply HQ.
Qed.

(** One tuple and its record. *)
Lemma put_log_wp {B} k bn page tup s (cont : HeapTuple -> M InsertState B) R :
  at_page rd_locator k bn page s -> tuple_fine (tup_data tup) ->
  MAXALIGN (t_len tup) <= PageGetHeapFreeSpace page ->
  (forall t page' s', tup_data t = tup_data tup -> filled k page page' bn [t] -> page_filled k page' bn s s' ->
     at_page rd_locator k bn page' s' -> wp (cont t) R s') ->
  wp (let* t := pg_tde_RelationPutHeapTuple g rd_locator bn tup false in log_cid rd_locator t;;; cont t) R s.
Proof.
  intros Hat Hd Hfree HQ. apply wp_bind, (put_wp g rd_locator Hg k bn page); [done..|].
  intros off page' t' Hput Hk. apply wp_bind, log_cid_wp. intros s' Hh Hv Ht.
  apply (HQ _ page'); [done| | |].
  - apply put_on_filled; [apply Hd|done].
  - split; [by rewrite Hh|by rewrite Hv|by rewrite Ht].
  - pose proof (at_page_with rd_locator k bn page page' t' s Hat (po_sane _ _ _ _ _ _ _ Hput) Hk) as [H1 H2 H3 H4].
    split; [by rewrite Ht|by rewrite Hh|done|done].
Qed.

Lemma fill_page_wp k bn tups : 0 <= SaveFreeSpace < 2 ^ 32 -> Forall (fun t => tuple_fine (tup_data t)) tups ->
  forall page s, at_page rd_locator k bn page s ->
  wp (fill_page g rd_locator bn tups)
    (fun here s' => exists page', (length here <= length tups)%nat
       /\ tup_data <$> here = tup_data <$> take (length here) tups
       /\ filled k page page' bn here /\ page_filled k page' bn s s') s.
Proof.
  intros Hsave. induction 1 as [|t tups Ht _ IH]; intros page s Hat; cbn [fill_page].
  - apply wp_ret. exists page. destruct Hat as [H1 H2 H3 H4]. split; [cbn; lia|]. split; [done|].
    split; split; try done; by rewrite insert_id.
  - apply wp_bind, (heap_page_wp _ page); [apply Hat|]. destruct Ht as (Hd & Hh & Hh2 & Hl).
    pose proof (max_align (t_len t)). unfold header_bytes, t_len in *. rewrite uwrap_small by lia.
    destruct (Z.ltb_spec (PageGetHeapFreeSpace page) (MAXALIGN (Z.of_nat (length (tup_data t))) + SaveFreeSpace)) as [Hlt|Hge].
    + apply wp_ret. exists page. destruct Hat as [H1 H2 H3 H4]. split; [cbn; lia|]. split; [done|].
      split; split; try done; by rewrite insert_id.
    + apply (put_log_wp k bn page t s); [done|done|unfold t_len; lia|].
      intros t1 page1 s1 E1 Hf1 Hp1 Hat1. apply wp_bind. eapply wp_mono; [by apply (IH page1)|].
      intros here s2 (page2 & Hlen & Edata & Hf2 & Hp2). apply wp_ret. exists page2. cbn [length].
      split; [lia|]. split; [cbn; by rewrite E1, Edata|].
      split; [eapply filled_cons; [apply Hat|done|done]|].
      destruct Hp1 as [A1 A2 A3], Hp2 as [B1 B2 B3]. split; [by rewrite B1, A1, insert_insert_eq|congruence|done].
Qed.

(** Tuples whose mask fields fit, as prepared tuples do. *)
Definition masks_fit (d : list Z) : Prop :=
  0 <= get_field F_infomask2 d < 2 ^ 16 /\ 0 <= get_field F_infomask d < 2 ^ 16.

Lemma held_loggable k page bn t : page_sane page -> held k page bn t -> tuple_fine (tup_data t) ->
  masks_fit (tup_data t) -> loggable page t.
Proof.
  intros Hp (_ & Htid & o & Ho & Hou & Hend & _) (Hd & Hh & Hh2 & Hl) [Hm1 Hm2].
  destruct (sane_range _ Hp) as (Hpl & Hur & _). rewrite length_set_ctid in Hend by done.
  unfold SizeofHeapTupleHeader in Hh. split; try done.
  - split; [done|]. split; [done|]. lia.
  - lia.
  - exists o. unfold t_len. split; [done|]. lia.
Qed.

(** The record of a filled page can be written. *)
Lemma log_multi_wp k xid bn init last cleared frozen page0 page here scratch s
    (Q : list Z -> InsertState -> Prop) :
  page_sane page0 -> heap s !! bn = Some page -> page_sane page ->
  Forall (held k page bn) here -> total_len here + pd_upper page <= BLCKSZ ->
  Forall (fun t => tuple_fine (tup_data t) /\ masks_fit (tup_data t)) here ->
  length scratch = Z.to_nat BLCKSZ ->
  (forall scratch' lsn s', length scratch' = Z.to_nat BLCKSZ ->
     heap s' = <[bn := PageSetLSN_heap lsn page]> (heap s) -> is_vm s' = is_vm s -> is_tde s' = is_tde s ->
     Q scratch' s') ->
  wp (log_multi xid bn init last cleared frozen here scratch) Q s.
Proof.
  intros _ Hp Hs Hheld Hroom Hfine Hsl HQ. pose proof BLCKSZ_range. unfold log_multi.
  assert (Hlog : Forall (loggable page) here).
  { apply Forall_forall. intros t Ht. rewrite Forall_forall in Hheld, Hfine. destruct (Hfine t Ht).
    by apply (held_loggable k page bn); [|apply Hheld|..]. }
  destruct (sane_range _ Hs) as (_ & Hur & _).
  assert (H16 : total_len here + 24 <= Z.of_nat (length scratch) /\ Z.of_nat (length scratch) < 2 ^ 16) by (rewrite Hsl; lia).
  destruct (multi_insert_data_spec page init last cleared frozen here scratch Hlog (proj1 H16) (proj2 H16))
    as (main & block & scratch' & E & Hl & _).
  apply wp_bind, (heap_page_wp _ page); [done|]. rewrite E. apply wp_bind, (wp_defined _ _ _ _ eq_refl).
  cbn beta iota. apply wp_bind. unfold XLogInsert_rec. eapply wp_of_run; [reflexivity|].
  apply wp_bind, wp_modify, wp_ret. by eapply HQ; [rewrite Hl|..].
Qed.

(** Setting the bits of a page whose flag is set. *)
Lemma set_frozen_wp bn vmbuffer (s : InsertState) (Q : unit -> InsertState -> Prop) :
  vm_ok (is_vm s) -> holds vmbuffer (is_vm s) -> vmbuffer = Some (HEAPBLK_TO_MAPBLOCK bn) ->
  (forall v, vm_ok v -> pinned v = pinned (is_vm s) ->
     (forall y, 0 <= y -> y <> bn -> vm_status v y = vm_status (is_vm s) y) -> Q tt (with_vm v s)) ->
  wp (on_vm (pg_tde_visibilitymap_set bn (Some bn) InvalidXLogRecPtr vmbuffer InvalidTransactionId
              (Z.lor VISIBILITYMAP_ALL_VISIBLE VISIBILITYMAP_ALL_FROZEN))) Q s.
Proof.
  intros Hv Hh -> HQ. apply wp_zoom.
  destruct (set_spec bn (Some bn) InvalidXLogRecPtr InvalidTransactionId
    (Z.lor VISIBILITYMAP_ALL_VISIBLE VISIBILITYMAP_ALL_FROZEN) (is_vm s) Hv Hh) as (v & E & Hv' & Hp & Hst & _).
  { rewrite all_visible_value, all_frozen_value. change (Z.lor 1 2) with 3. lia. } { by left. }
  eapply wp_of_run; [exact E|]. apply HQ; [done|done|].
  intros y Hy Hne. rewrite Hst by done. by rewrite (proj2 (Z.eqb_neq _ _)).
Qed.

(** The flag of the page: cleared with the bits of the map, or set, or left. *)
Lemma page_flag_wp bn page vmbuffer (cleared frozen : bool) s (Q : unit -> InsertState -> Prop) :
  table_ok s -> map_follows s -> heap s !! bn = Some page -> holds vmbuffer (is_vm s) ->
  (cleared = true -> vmbuffer = Some (HEAPBLK_TO_MAPBLOCK bn)) ->
  (forall page' s', header_only page page' -> heap s' = <[bn := page']> (heap s) -> is_tde s' = is_tde s ->
     table_ok s' -> map_follows s' -> pages_kept s s' -> holds vmbuffer (is_vm s') ->
     (cleared = false -> frozen = true -> PageIsAllVisible page' = true) -> Q tt s') ->
  wp (if cleared then clear_all_visible bn vmbuffer
      else if frozen then set_heap_page bn (PageSetAllVisible page) else ret tt) Q s.
Proof.
  intros Htab Hmap Hp Hh Hcl HQ. pose proof (proj2 Htab _ _ Hp) as [_ Hs]. destruct cleared.
  - apply (clear_if_wp bn page vmbuffer true s Q); [done..|].
    intros v page' Hs' Hho Hv Hvis Hpin Hst Hst0.
    destruct (page_step bn page page' s (with_vm v (with_heap (<[bn := page']> (heap s)) s)) Htab Hp Hs'
      (header_only_keeps _ _ Hho) eq_refl Hv) as (Ht & Hkept & Hm).
    apply (HQ page'); try done; [|cbn; unfold holds in *; by rewrite Hpin].
    apply Hm; [done|done|]. cbn. by rewrite Hst0.
  - destruct (set_visible_header page Hs) as [Hho Hvis]. destruct frozen.
    + apply wp_modify.
      destruct (page_step bn page _ s (with_heap (<[bn := PageSetAllVisible page]> (heap s)) s) Htab Hp
        (proj1 Hho) (header_only_keeps _ _ Hho) eq_refl (proj1 Htab)) as (Ht & Hkept & Hm).
      apply (HQ (PageSetAllVisible page)); try done. by apply Hm.
    + apply wp_ret. apply (HQ page); try done; by rewrite insert_id.
Qed.

(** What one round of a multi-insert does. *)
Record round_done (k : list Z) (bn : Z) (tups here : list HeapTuple) (vmbuffer : Buffer)
    (s s' : InsertState) : Prop := {
  rd_some : (1 <= length here <= length tups)%nat;
  rd_data : tup_data <$> here = tup_data <$> take (length here) tups;
  rd_page : exists page, heap s' !! bn = Some page /\ Forall (held k page bn) here;
  rd_table : table_ok s';
  rd_map : map_follows s';
  rd_kept : pages_kept s s';
  rd_keys : rel_keys_ready (is_tde s') rd_locator k;
  rd_holds : holds vmbuffer (is_vm s');
  rd_dom : dom (heap s') = dom (heap s);
}.

Lemma round_flag k bn tups here vmbuffer page page' s s1 s2 : round_done k bn tups here vmbuffer s s1 ->
  heap s1 !! bn = Some page -> header_only page page' -> heap s2 = <[bn := page']> (heap s1) ->
  is_tde s2 = is_tde s1 -> table_ok s2 -> map_follows s2 -> pages_kept s1 s2 -> holds vmbuffer (is_vm s2) ->
  round_done k bn tups here vmbuffer s s2.
Proof.
  intros [H1 H2 (q & Hq & Hheld) H3 H4 H5 H6 H7 H8] Hp Hho Hh Ht T Mf K Hv. rewrite Hp in Hq. injection Hq as <-.
  pose proof (proj2 H3 _ _ Hp) as [_ Hs]. split; try done.
  - exists page'. split; [by rewrite Hh, lookup_insert_eq|]. eapply Forall_impl; [exact Hheld|].
    intros t. apply held_keeps; [done|]. by apply header_only_keeps.
  - etrans; [exact H5|exact K].
  - by rewrite Ht.
  - rewrite Hh, <- H8. by apply dom_insert_lookup_L.
Qed.

Lemma round_header k bn tups here vmbuffer page page' s s1 s2 :
  round_done k bn tups here vmbuffer s s1 -> heap s1 !! bn = Some page -> header_only page page' ->
  PageIsAllVisible page' = PageIsAllVisible page ->
  heap s2 = <[bn := page']> (heap s1) -> is_vm s2 = is_vm s1 -> is_tde s2 = is_tde s1 ->
  round_done k bn tups here vmbuffer s s2.
Proof.
  intros Hrd Hp Hho Hvis Hh Hv Ht. pose proof Hrd as [_ _ _ H3 H4 _ _ H7 _].
  destruct (page_step bn page page' s1 s2 H3 Hp (proj1 Hho) (header_only_keeps _ _ Hho) Hh) as (T & K & Mf).
  { rewrite Hv. apply H3. }
  apply (round_flag k bn tups here vmbuffer page page' s s1); try done; [|by rewrite Hv].
  apply Mf; [done|by rewrite Hv|]. rewrite Hv, Hvis. by apply H4.
Qed.

(** The map changes at the block of a page whose flag is set. *)
Lemma round_map k bn tups here vmbuffer page s s1 v : round_done k bn tups here vmbuffer s s1 ->
  heap s1 !! bn = Some page -> PageIsAllVisible page = true -> vm_ok v -> pinned v = pinned (is_vm s1) ->
  (forall y, 0 <= y -> y <> bn -> vm_status v y = vm_status (is_vm s1) y) ->
  round_done k bn tups here vmbuffer s (with_vm v s1).
Proof.
  intros [H1 H2 H3 [Hv Hok] H4 H5 H6 H7 H8] Hp Hvis Hv' Hpin Hst. split; try done.
  - intros b q Hq Hn. destruct (decide (b = bn)) as [->|Hne]; [cbn in Hq; by simplify_eq|].
    apply (H4 b q Hq). rewrite <- Hst; [done|by destruct (Hok b q Hq)|done].
  - cbn. unfold holds in *. by rewrite Hpin.
Qed.

(** A round: the page it is given, with room for the first tuple. *)
Record round_ok (k : list Z) (bn options : Z) (vmbuffer : Buffer) (tups : list HeapTuple) (page : list Z)
    (s : InsertState) : Prop := {
  ro_table : table_ok s;
  ro_map : map_follows s;
  ro_at : at_page rd_locator k bn page s;
  ro_tups : Forall (fun t => tuple_fine (tup_data t) /\ masks_fit (tup_data t)) tups;
  ro_first : forall t, head tups = Some t -> MAXALIGN (t_len t) <= PageGetHeapFreeSpace page;
  ro_holds : holds vmbuffer (is_vm s);
  ro_pin : PageIsAllVisible page = true
           \/ PageGetMaxOffsetNumber page = 0 /\ has options HEAP_INSERT_FROZEN = true ->
           vmbuffer = Some (HEAPBLK_TO_MAPBLOCK bn);
}.

(** The tuples of the round are on the page; its flag and the record are next. *)
Lemma filled_round k bn options vmbuffer t tups page page2 here (s s2 : InsertState) :
  round_ok k bn options vmbuffer (t :: tups) page s -> filled k page page2 bn here -> page_filled k page2 bn s s2 ->
  (1 <= length here <= length (t :: tups))%nat -> tup_data <$> here = tup_data <$> take (length here) (t :: tups) ->
  round_done k bn (t :: tups) here vmbuffer s s2.
Proof.
  intros [Htab Hmap Hat Hf _ Hh _] [F1 F2 F3 F4 F5] [P1 P2 P3] Hlen Hdata.
  destruct (page_step bn page page2 s s2 Htab (ap_page _ _ _ _ _ Hat) F1 F2 P1) as (T & K & Mf).
  { rewrite P2. apply Htab. }
  split; try done.
  - exists page2. by rewrite P1, lookup_insert_eq.
  - apply Mf; [done|by rewrite P2|]. rewrite P2, F3. by apply Hmap, Hat.
  - by rewrite P2.
  - rewrite P1. apply dom_insert_lookup_L. by eexists; apply Hat.
Qed.

Lemma data_fine (P : list Z -> Prop) (tups here : list HeapTuple) (n : nat) :
  tup_data <$> here = tup_data <$> take n tups -> Forall (fun t => P (tup_data t)) tups ->
  Forall (fun t => P (tup_data t)) here.
Proof.
  intros E Hall. assert (Hd : Forall P (tup_data <$> here)).
  { rewrite E. apply Forall_fmap. apply Forall_take. exact Hall. }
  rewrite Forall_fmap in Hd. exact Hd.
Qed.

(** The record of the round. *)
Lemma round_log_wp k xid bn options init last cleared frozen vmbuffer t tups here page page2 page3 scratch
    (s s2 s3 : InsertState) :
  round_ok k bn options vmbuffer (t :: tups) page s -> filled k page page2 bn here -> header_only page2 page3 ->
  heap s3 !! bn = Some page3 -> round_done k bn (t :: tups) here vmbuffer s s3 -> length scratch = Z.to_nat BLCKSZ ->
  wp (if RelationNeedsWAL then log_multi xid bn init last cleared frozen here scratch else ret scratch)
    (fun scratch' s' => length scratch' = Z.to_nat BLCKSZ /\ round_done k bn (t :: tups) here vmbuffer s s'
       /\ exists page, heap s' !! bn = Some page /\ PageIsAllVisible page = PageIsAllVisible page3) s3.
Proof.
  intros [_ _ Hat Hf _ _ _] [F1 F2 F3 F4 F5] Hho Hp3 Hrd Hsl. pose proof Hho as (Hs3 & Hu3 & _).
  destruct RelationNeedsWAL; [|apply wp_ret; split; [done|split; [done|by exists page3]]].
  destruct (sane_range _ (ap_sane _ _ _ _ _ Hat)) as (_ & Hur & _).
  apply (log_multi_wp k xid bn init last cleared frozen page page3); [apply Hat|done|done| | | |done|].
  - eapply Forall_impl; [exact F4|]. intros t'. apply held_keeps; [done|]. by apply header_only_keeps.
  - lia.
  - apply (data_fine (fun d => tuple_fine d /\ masks_fit d) (t :: tups) here (length here)); [apply Hrd|done].
  - intros scratch' lsn s' Hl Hh Hv Ht. split; [done|]. destruct (set_lsn_header lsn page3 Hs3) as [Hho' Hvis].
    split; [by eapply round_header|]. exists (PageSetLSN_heap lsn page3). by rewrite Hh, lookup_insert_eq.
Qed.

Lemma insert_page_wp k xid bn options vmbuffer t tups page scratch (s : InsertState) :
  0 <= SaveFreeSpace < 2 ^ 32 -> round_ok k bn options vmbuffer (t :: tups) page s ->
  length scratch = Z.to_nat BLCKSZ ->
  wp (insert_page g rd_locator xid bn options vmbuffer (t :: tups) scratch)
    (fun r s' => round_done k bn (t :: tups) r.1.1 vmbuffer s s' /\ length r.2 = Z.to_nat BLCKSZ) s.
Proof.
  intros Hsave Hok Hsl. pose proof Hok as [Htab Hmap Hat Hf Hfree Hh Hpin].
  unfold insert_page. apply wp_bind, (heap_page_wp _ page); [apply Hat|].
  pose proof (ap_keys _ _ _ _ _ Hat) as (ptr & kd & Hscan & _).
  apply wp_bind, wp_zoom. eapply wp_of_run; [by apply GetRelationKeys_cached|]. rewrite with_tde_id.
  apply wp_bind, crit_wp. apply Forall_cons in Hf as [[Hft _] Hf].
  apply (put_log_wp k bn page t s); [done|done|by apply Hfree|].
  intros t1 page1 s1 E1 Hf1 Hp1 Hat1. apply wp_bind.
  eapply wp_mono; [apply (fill_page_wp k bn tups Hsave); [|exact Hat1]|].
  { eapply Forall_impl; [exact Hf|]. by intros t' []. }
  intros rest s2 (page2 & Hlen & Hdata & Hf2 & Hp2).
  apply wp_bind.
  assert (Hf12 : filled k page page2 bn (t1 :: rest)) by (eapply filled_cons; [apply Hat|done|done]).
  assert (Hp12 : page_filled k page2 bn s s2).
  { destruct Hp1 as [A1 A2 A3], Hp2 as [B1 B2 B3]. split; [by rewrite B1, A1, insert_insert_eq|congruence|done]. }
  assert (Hrd2 : round_done k bn (t :: tups) (t1 :: rest) vmbuffer s s2).
  { eapply filled_round; [done|done|done|cbn; lia|cbn; by rewrite E1, Hdata]. }
  apply (heap_page_wp _ page2); [by rewrite (pf_heap _ _ _ _ _ Hp12), lookup_insert_eq|].
  set (cleared := PageIsAllVisible page2 && _). set (frozen := _ && has options HEAP_INSERT_FROZEN).
  apply wp_bind, page_flag_wp; [apply Hrd2|apply Hrd2|by rewrite (pf_heap _ _ _ _ _ Hp12), lookup_insert_eq|apply Hrd2| |].
  { intros [Hvis _]%andb_true_iff. apply Hpin. left. by rewrite <- (fl_visible _ _ _ _ _ Hf12). }
  intros page3 s3 Hho Hh3 Ht3 T3 M3 K3 V3 Hfr. apply wp_bind, wp_modify, wp_bind.
  assert (Hp2' : heap s2 !! bn = Some page2) by (by rewrite (pf_heap _ _ _ _ _ Hp12), lookup_insert_eq).
  set (s3' := {| is_tde := is_tde s3 |}).
  assert (Hrd3 : round_done k bn (t :: tups) (t1 :: rest) vmbuffer s s3').
  { by apply (round_flag k bn _ _ vmbuffer page2 page3 s s2 s3'). }
  eapply wp_mono; [apply (round_log_wp k xid bn options _ _ _ _ vmbuffer t tups (t1 :: rest) page page2 page3 scratch s s2 s3');
    [done|done|done|by cbn; rewrite Hh3, lookup_insert_eq|done|done]|].
  intros scratch' s4 (Hl4 & Hrd4 & page4 & Hp4 & Hvis4). apply wp_ret, wp_bind. cbn [fst snd].
  destruct frozen eqn:Ef; [|by apply wp_ret, wp_ret].
  apply andb_true_iff in Ef as [Hempty Hfz]. apply Z.eqb_eq in Hempty.
  apply set_frozen_wp; [apply Hrd4|apply Hrd4|apply Hpin; by right|].
  intros v Hv Hpv Hst. apply wp_ret. split; [|done]. eapply round_map; try done.
  rewrite Hvis4. apply Hfr; [|done]. unfold cleared. by rewrite Hfz, andb_false_r.
Qed.

(** ** All rounds *)

(** Every tuple is on its page. *)
Definition all_held (k : list Z) (s : InsertState) (here : list HeapTuple) : Prop :=
  Forall (fun t => exists page, heap s !! fst (t_self t) = Some page /\ held k page (fst (t_self t)) t) here.

Lemma all_held_kept k s s' here : table_ok s -> pages_kept s s' -> all_held k s here -> all_held k s' here.
Proof.
  intros Htab Hk Hh. eapply Forall_impl; [exact Hh|]. intros t (page & Hp & Hheld).
  destruct (Hk _ _ Hp) as (page' & Hp' & Hkp). exists page'. split; [done|].
  eapply held_keeps; [|done|done]. by apply (proj2 Htab _ _ Hp).
Qed.

Lemma multi_loop_wp k xid options : 0 <= SaveFreeSpace < 2 ^ 32 ->
  forall fuel tups first empty npages npages_used vmbuffer scratch m (s : InsertState),
  (length tups <= fuel)%nat -> (length tups <= m)%nat -> can_extend (dom (heap s)) m -> table_ok s -> map_follows s -> rel_keys_ready (is_tde s) rd_locator k ->
  Forall (fun t => (tuple_fine (tup_data t) /\ masks_fit (tup_data t)) /\ t_len t <= max_tuple_len) tups ->
  holds vmbuffer (is_vm s) -> length scratch = Z.to_nat BLCKSZ ->
  wp (multi_loop g rd_locator fuel xid options tups first empty npages npages_used vmbuffer scratch)
    (fun r s' => tup_data <$> r.1 = tup_data <$> tups /\ all_held k s' r.1 /\ table_ok s' /\ map_follows s'
       /\ pages_kept s s' /\ holds r.2 (is_vm s')) s.
Proof.
  intros Hsave. induction fuel as [|fuel IH];
    intros tups first empty npages npages_used vmbuffer scratch m s Hfuel Hm Hext Htab Hmap Hk Hf Hh Hsl;
    (destruct tups as [|t tups]; [apply wp_ret; split_and!; try done; constructor|]); [cbn in Hfuel; lia|].
  destruct m as [|m]; [cbn in Hm; lia|]. cbn [multi_loop]. destruct (if first || negb empty then _ else _) as [np npu].
  pose proof Hf as [[[Hft _] Hlt] _]%Forall_cons.
  assert (Hlen : 0 < t_len t <= max_tuple_len) by (destruct Hft as [Hd _]; unfold header_bytes, t_len in *; lia).
  apply wp_bind. eapply wp_mono; [apply (get_buffer_wp _ options vmbuffer _ m s Hlen Hext Htab Hh)|].
  intros [bn vmb] s1 (page & Hp & Hbn & Hbn4 & Hfree & Hpin & Hholds & Ht & _ & Htab1 & _ & Hsame & _ & Hmap1 & Hext1).
  cbn [fst snd] in *. pose proof (proj2 Htab1 _ _ Hp) as [_ Hs].
  apply wp_bind. eapply wp_mono; [apply (insert_page_wp k xid bn options vmb t tups page scratch s1 Hsave); [|done]|].
  { split; [done|by apply Hmap1|split; [by rewrite Ht|done|done|done]| |by intros t' [= <-]|done|done].
    eapply Forall_impl; [exact Hf|]. by intros t' []. }
  intros [[here emp] scratch'] s2 [[R1 R2 (page2 & Hp2 & Hheld) R4 R5 R6 R7 R8 R9] Hsl2]. cbn [fst snd] in *.
  apply wp_bind. eapply wp_mono; [apply (IH (drop (length here) (t :: tups)) false emp np npu vmb scratch' m); try done|].
  - rewrite length_drop. cbn [length] in *. lia.
  - rewrite length_drop. cbn [length] in *. lia.
  - by rewrite R9.
  - by apply Forall_drop.
  - intros [rest vmb2] s3 (E & Hheld3 & T3 & M3 & K3 & V3). cbn [fst snd] in *. apply wp_ret. cbn [fst snd].
    split; [by rewrite fmap_app, R2, E, <- fmap_app, take_drop|].
    split; [apply Forall_app; split; [|done]|].
    + apply (all_held_kept k s2 s3); [done|done|]. eapply Forall_impl; [exact Hheld|]. intros t' Ht'. exists page2.
      pose proof Ht' as [-> _]. done.
    + split_and!; try done. etrans; [|exact K3]. etrans; [|exact R6]. intros b p Hb%Hsame. by exists p.
Qed.
End pages.
