(* ===== verification/InsertClaims.v ===== *)
(** What inserting promises: tuples reach the page and the log encrypted for
    their place and can be read back, the visibility map never says more
    than the pages, the records of a multi-insert can be read; and what
    replaying an insert does.  [ToyInsert] is a page layer, a table and
    settings for which what inserting relies on holds. *)
From S2P Require Import Prelude EncAes RelKeys EncTuple KeyringTypes KeyringApi KeyringClaims XactHandler TdeMap TdeClaims Visibility VisibilityClaims VisibilityMap VisibilityMapProps VisibilityMapOps VisibilityMapClaims LockFlags Prune TupleIO TupleClaims TupleBytes Toast ToastProps Insert InsertProps InsertMulti InsertPages PruneClaims MultiXactClaims ToastClaims HeapToy.

Module ToyInsert.
Import ToyEVP ToyPage ToyKeyring ToyTde ToyPrune ToyToast ToyLocks ToyHeap.

#[export] Instance ins_flags : HtupFlags := ToyWorld.pg_flags.

(** ** Settings *)

#[export] Instance ins_env : InsertEnv := {|
  HEAP_XACT_MASK := 0xfff0;
  HEAP2_XACT_MASK := 0xe000;
  HEAP_COMBOCID := 0x20;
  HEAP_INSERT_FROZEN := 4;
  HEAP_INSERT_NO_LOGICAL := 8;
  RELKIND_RELATION := 114;
  RELKIND_MATVIEW := 109;
  IsParallelWorker := false;
  HeapTupleHasExternal d := Z.testbit (get_field F_infomask d) 2;
  RelationIsLogicallyLogged := false;
  IsToastRelation := false;
  SaveFreeSpace := 0;
  CheckForSerializableConflictIn _ := false;
  GetCurrentTransactionId := 700;
  GetTopTransactionId := 700;
  HeapTupleHeaderGetCmin_bytes := get_field F_cid;
  HeapTupleHeaderGetCmax_bytes := get_field F_cid;
|}.

(** A table that always grows: every tuple gets a new page (the page takes
    over what the map says of its block). *)
Definition next_block (h : gmap Z (list Z)) : Z := 1 + foldr Z.max (-1) (elements (dom h)).

#[export] Instance ins_targets : InsertTargets := {|
  pg_tde_RelationGetBufferForTuple len options vm npages :=
    let* s := get in
    let bn := next_block (heap s) in
    set_heap_page bn (if vm_status (is_vm s) bn =? 0 then PageInit else PageSetAllVisible PageInit);;;
    let* vm := on_vm (pg_tde_visibilitymap_pin bn vm) in
    ret (bn, vm);
  pg_tde_toast_insert_or_update tup options := ret tup;
|}.

Definition room_for (D : gset Z) (n : nat) : Prop :=
  exists m, 0 <= m /\ (forall b, b ∈ D -> b < m) /\ m + Z.of_nat n <= 4000.

Lemma next_block_fresh (h : gmap Z (list Z)) : 0 <= next_block h /\ forall b, b ∈ dom h -> b < next_block h.
Proof.
  unfold next_block. assert (H : forall l : list Z, -1 <= foldr Z.max (-1) l /\ forall b, b ∈ l -> b <= foldr Z.max (-1) l).
  { induction l as [|a l [IH1 IH2]]; cbn; [split; [done|by intros b ?%elem_of_nil]|]. split; [lia|].
    intros b [->|Hb]%elem_of_cons; [lia|]. specialize (IH2 b Hb). lia. }
  destruct (H (elements (dom h))) as [H1 H2]. split; [lia|]. intros b Hb.
  specialize (H2 b (proj2 (elem_of_elements _ _) Hb)). lia.
Qed.

Lemma next_block_room (h : gmap Z (list Z)) m : 0 <= m -> (forall b, b ∈ dom h -> b < m) -> next_block h <= m.
Proof.
  intros Hm Hall. unfold next_block.
  assert (H : forall l : list Z, (forall b, b ∈ l -> b < m) -> foldr Z.max (-1) l < m).
  { induction l as [|a l IH]; cbn; intros Hl; [lia|].
    pose proof (Hl a (list_elem_of_here _ _)). specialize (IH (fun b Hb => Hl b (list_elem_of_further _ _ _ Hb))). lia. }
  specialize (H (elements (dom h))). rewrite <- Z.le_succ_l in H. unfold Z.succ in H. rewrite Z.add_comm. apply H.
  intros b Hb. apply Hall. by apply elem_of_elements.
Qed.

#[export] Instance ins_target_laws : InsertTargetLaws.
Proof.
  refine {| max_tuple_len := 8000; can_extend := room_for |}.
  intros len options vm npages n s Hlen (m & Hm & Hb & Hroom) [Hv Hp] Hvm.
  pose proof (next_block_fresh (heap s)) as [Hn0 Hfresh]. pose proof (next_block_room _ _ Hm Hb) as Hnm.
  set (bn := next_block (heap s)) in *. cbn [pg_tde_RelationGetBufferForTuple ins_targets].
  set (page := if vm_status (is_vm s) bn =? 0 then PageInit else PageSetAllVisible PageInit).
  assert (Hpage : toy_sane page /\ PageGetHeapFreeSpace page = 8167).
  { unfold page. case_match; split; try reflexivity; [apply toy_init_sane|].
    by destruct (toy_header PageInit 10 1 toy_init_sane) as [Hts _]; [lia|]. }
  assert (Hnone : heap s !! bn = None).
  { apply eq_None_not_Some. intros [p Hx]. specialize (Hfresh bn (elem_of_dom_2 _ _ _ Hx)). lia. }
  destruct (pin_spec bn vm (is_vm s) Hv) as (v & Ev & Hv' & Hsm & Htr); [lia|done|].
  apply wp_bind, wp_get, wp_bind. fold bn page.
  apply wp_modify, wp_bind, wp_zoom. cbn [is_vm with_heap]. eapply wp_of_run; [exact Ev|]. cbn beta iota.
  apply wp_ret. exists page. destruct Hpage as [Hps Hfree]. destruct Htr as (rest & _ & Hpins). destruct Hsm as [Hst _].
  cbn [fst snd heap is_vm is_tde insert_wal with_vm with_heap holds]. rewrite lookup_insert_eq, Hfree.
  split_and!; try done.
  - cbn [BLCKSZ page8k]. lia.
  - cbn. pose proof (Z.div_mod (len + 7) 8). pose proof (Z.mod_pos_bound (len + 7) 8). lia.
  - rewrite Hpins. apply list_elem_of_here.
  - split; [done|]. cbn [heap with_vm with_heap]. intros b p. destruct (decide (b = bn)) as [->|Hne].
    + rewrite lookup_insert_eq. intros [= <-]. split; [done|exact Hps].
    + rewrite lookup_insert_ne by done. apply Hp.
  - intros b p Hbp. rewrite lookup_insert_ne by (intros <-; congruence). done.
  - intros _ Hz. unfold page. by rewrite Hz.
  - intros Hmap b p. cbn [heap is_vm with_vm with_heap]. rewrite Hst. destruct (decide (b = bn)) as [->|Hne].
    + rewrite lookup_insert_eq. intros [= <-] Hnz. unfold page. by destruct (Z.eqb_spec (vm_status (is_vm s) bn) 0).
    + rewrite lookup_insert_ne by done. apply Hmap.
  - exists (bn + 1). split; [lia|]. split; [|lia].
    intros b Hbd'. rewrite dom_insert in Hbd'. apply elem_of_union in Hbd' as [->%elem_of_singleton|Hbd]; [lia|]. specialize (Hfresh b Hbd). lia.
Defined.

(** ** A table *)

(** A tuple of eight bytes of data. *)
Definition toy_tuple (b : Z) : HeapTuple := {| tup_data := tuple_of 8 b; t_self := (0, 0) |}.

Lemma toy_tuple_fine b : tuple_fine (tup_data (toy_tuple b)).
Proof. unfold tuple_fine, header_bytes. cbn. done. Qed.

(** Whatever its identifiers, it has nothing stored elsewhere. *)
Lemma toy_tuple_inline b xid cid options :
  HeapTupleHasExternal (prepare_header xid cid options (tup_data (toy_tuple b))) = false.
Proof.
  cbn [HeapTupleHasExternal ins_env]. unfold prepare_header.
  set (d := set_field F_infomask (Z.lor _ HEAP_XMAX_INVALID) _).
  assert (Hd : header_bytes d) by (by vm_compute). assert (Hm : get_field F_infomask d = 0x800) by (by vm_compute).
  set (e := set_field F_xmin xid d). assert (He : header_bytes e) by (unfold e; auto with tde).
  assert (Hme : get_field F_infomask e = 0x800) by (unfold e; by rewrite get_set_other).
  set (f := if has _ _ then _ else e).
  assert (Hf : header_bytes f /\ (get_field F_infomask f = 0x800 \/ get_field F_infomask f = 0xb00)).
  { unfold f. destruct (has _ _); [|by split; [|left]]. split; [auto with tde|right].
    rewrite Hme, get_set_field by done. done. }
  destruct Hf as [Hf Hmf].
  rewrite get_set_other by first [done | solve [auto 12 with tde]]. rewrite (get_set_other _ F_cid) by done.
  destruct Hmf as [-> | ->]; rewrite get_set_field by first [solve [auto 12 with tde] | vm_compute; by split]; done.
Qed.

Definition toy_table : InsertState :=
  {| is_tde := with_map [{| rel_id := 16384; rk_keys := 0 |}] (with_store [toy_keys] (toy_tde_state ks0));
     is_vm := ToyMap.empty; heap := ∅; dirty := []; insert_wal := []; fsm := [] |}.

Lemma toy_table_ready : rel_keys_ready (is_tde toy_table) toy_rel toy_k.
Proof. exists 0%nat, toy_keys. split_and!; [done|done|apply toy_keys_ready]. Qed.

Lemma toy_table_empty bn : heap toy_table !! bn = None.
Proof. apply lookup_empty. Qed.

Lemma toy_table_ok : table_ok toy_table.
Proof.
  split; [|by intros bn p; rewrite toy_table_empty].
  split; [constructor|]. split; [by left|]. split; [done|constructor].
Qed.

Lemma toy_table_map : map_follows toy_table.
Proof. by intros bn p; rewrite toy_table_empty. Qed.

Lemma toy_table_room n : Z.of_nat n <= 4000 -> room_for (dom (heap toy_table)) n.
Proof. intros Hn. exists 0. split; [done|]. split; [|lia]. intros b [p Hb]%elem_of_dom. by rewrite toy_table_empty in Hb. Qed.
End ToyInsert.

(** Side conditions of the rules for header fields. *)
Ltac field_side := first [done | solve [auto 12 with tde] | cbn; lia].

Section claims.
Context `{HE : EVP} `{HS : CIntShift} `{HL : !EVPLaws}.
Context `{HJ : Json} `{HB : Base64} `{HC : Curl} `{HF : KeyringFs}.
Context `{HT : TdeEnv} `{HP : PgBlockSize} `{HBL : !PgBlockSizeLaws}.
Context `{HM : PageMacros} `{HO : PageOps} `{HOL : !PageOpsLaws} `{HPO : HeapPageOps} `{HPL : !HeapPageLaws}.
Context `{HV : VmEnv} `{HVL : !VmLaws} `{HTM : ToastMacros} `{HH : HtupFlags} `{HLF : LockFlags}.
Context `{HIE : InsertEnv} `{HIT : !InsertTargets} `{HITL : !InsertTargetLaws}.
Variable g : AesGlobals.
Variables (rd_locator : RelFileLocator) (relkind : Z).

(** ** Headers of new tuples *)

Lemma header_bytes_prepare xid cid options d : header_bytes d -> header_bytes (prepare_header xid cid options d).
Proof. intros Hd. unfold prepare_header. destruct (has options _); auto 10 with tde. Qed.

Lemma length_prepare xid cid options d : header_bytes d -> length (prepare_header xid cid options d) = length d.
Proof.
  intros Hd. unfold prepare_header. destruct (has options _); rewrite !length_set_field by auto 10 with tde; done.
Qed.

Lemma hoff_prepare xid cid options d : header_bytes d ->
  get_field F_hoff (prepare_header xid cid options d) = get_field F_hoff d.
Proof.
  intros Hd. unfold prepare_header. destruct (has options _);
    rewrite !get_set_other by (done || auto 10 with tde); done.
Qed.

Lemma tuple_fine_prepare xid cid options d : tuple_fine d -> tuple_fine (prepare_header xid cid options d).
Proof.
  intros (Hd & Hh & Hl). split; [by apply header_bytes_prepare|]. by rewrite hoff_prepare, length_prepare.
Qed.

(** A tuple that can be inserted as it is: no toaster, no worker, no
    conflict. *)
Record insertable (tup : HeapTuple) : Prop := {
  in_fine : tuple_fine (tup_data tup);
  in_len : t_len tup <= max_tuple_len;
  in_toast : relkind <> RELKIND_RELATION /\ relkind <> RELKIND_MATVIEW
             \/ (forall xid cid options,
                   HeapTupleHasExternal (prepare_header xid cid options (tup_data tup)) = false)
                /\ t_len tup <= TOAST_TUPLE_THRESHOLD;
}.

Lemma prepare_insert_run tup xid cid options (s : InsertState) : insertable tup -> IsParallelWorker = false ->
  pg_tde_prepare_insert relkind tup xid cid options s
  = (Ret (with_data (prepare_header xid cid options (tup_data tup)) tup), s).
Proof.
  intros [(Hd & _) _ Ht] Hw. unfold pg_tde_prepare_insert. rewrite Hw.
  destruct (Z.eqb_spec relkind RELKIND_RELATION), (Z.eqb_spec relkind RELKIND_MATVIEW); cbn [negb andb]; try done;
    destruct Ht as [[? ?]|[Hx Hl]]; try done; cbn [tup_data with_data];
    rewrite Hx; unfold t_len in *; cbn [tup_data with_data];
    rewrite length_prepare by done; rewrite (proj2 (Z.ltb_ge _ _)) by done; done.
Qed.

(** ** One tuple *)

(** The page of the block is [page0], or it has none and gets that. *)
Definition was_page (bn : Z) (page0 : list Z) (s : InsertState) : Prop :=
  (forall p, heap s !! bn = Some p -> page0 = p)
  /\ (heap s !! bn = None -> vm_status (is_vm s) bn = 0 -> page0 = PageInit).

(** A tuple on the page of block [bn]: [page0] is the page as it was when
    it was chosen. *)
Record placed_on (k : list Z) (bn off : Z) (token : bool) (d page0 page : list Z)
    (s s' : InsertState) : Prop := {
  is_block : 0 <= bn /\ bn * BLCKSZ < 2 ^ 32;
  is_before : page_sane page0 /\ was_page bn page0 s;
  is_page : heap s' !! bn = Some page;
  is_stored : stored k page bn off (placed token (bn, off) d);
  is_hidden : PageIsAllVisible page = false;
  is_keys : rel_keys_ready (is_tde s') rd_locator k;
  is_table : table_ok s';
  is_kept : pages_kept s s';
  is_follows : map_follows s';
  is_put : exists page1, put_on k page0 page1 bn off token d /\ pd_upper page1 = pd_upper page
                         /\ PageItemOffset page off = Some (pd_upper page);
}.

(** The record of the insert, with the bytes that are on the page. *)
Definition insert_logged (k : list Z) (bn off : Z) (token : bool) (d page : list Z) (s s' : InsertState) : Prop :=
  exists init flags recs,
    insert_wal s' = insert_wal s ++ recs ++
      [XlInsert GetCurrentTransactionId bn init off flags
         {| xlh_infomask2 := get_field F_infomask2 d; xlh_infomask := get_field F_infomask d;
            xlh_hoff := get_field F_hoff d |}
         (drop (Z.to_nat SizeofHeapTupleHeader)
            (encrypted_item k bn (pd_upper page) (get_field F_hoff d) (placed token (bn, off) d)))]
    /\ (init = true -> off = FirstOffsetNumber).

Lemma release_vm_wp vmbuffer (s : InsertState) (Q : unit -> InsertState -> Prop) :
  vm_ok (is_vm s) -> holds vmbuffer (is_vm s) ->
  (forall v, vm_ok v -> (forall y, vm_status v y = vm_status (is_vm s) y) -> Q tt (with_vm v s)) ->
  wp (release_vm vmbuffer) Q s.
Proof.
  intros Hvm Hh HQ. unfold release_vm. destruct vmbuffer as [b|].
  - apply wp_zoom. destruct (ReleaseBuffer_spec b (is_vm s) Hvm Hh) as (v & E & Hv & [Hst _] & _).
    eapply wp_of_run; [exact E|]. by apply HQ.
  - apply wp_ret. specialize (HQ (is_vm s) Hvm). destruct s. by apply HQ.
Qed.


Lemma header_only_stored k p q bn n d : page_sane p -> header_only p q -> stored k p bn n d -> stored k q bn n d.
Proof. intros Hp Hho. apply keeps_stored; [done|]. by apply header_only_keeps. Qed.

(** The tuple is put on the page, and the flag of the page is cleared with
    its bits in the map. *)
Lemma placed_after_put k bn off token d page0 page1 page2 (s s1 s2 : InsertState) :
  0 <= bn /\ bn * BLCKSZ < 2 ^ 32 -> table_ok s1 -> map_follows s1 -> pages_kept s s1 ->
  was_page bn page0 s -> heap s1 !! bn = Some page0 ->
  put_on k page0 page1 bn off token d -> header_only page1 page2 -> PageIsAllVisible page2 = false ->
  heap s2 = <[bn := page2]> (heap s1) -> rel_keys_ready (is_tde s2) rd_locator k -> vm_ok (is_vm s2) ->
  (forall y, 0 <= y -> y <> bn -> vm_status (is_vm s2) y = vm_status (is_vm s1) y) ->
  vm_status (is_vm s2) bn = 0 -> placed_on k bn off token d page0 page2 s s2.
Proof.
  intros Hbn Htab Hmap Hkept Hbef Hp0 Hput Hho Hvis Hheap Hk Hv Hst Hst0.
  pose proof Hput as [Hs1 Hk01 Hst1 Hat1 _ _ _ _ _]. pose proof Hho as (Hs2 & Hu2 & _ & Hio & _).
  destruct (proj2 Htab _ _ Hp0) as [_ Hs0].
  assert (Hk02 : keeps page0 page2) by (etrans; [exact Hk01|by apply header_only_keeps]).
  destruct (page_step bn page0 page2 s1 s2 Htab Hp0 Hs2 Hk02 Hheap Hv) as (Htab2 & Hkept2 & Hmap2).
  split; try done.
  - by rewrite Hheap, lookup_insert_eq.
  - exact (header_only_stored _ _ _ _ _ _ Hs1 Hho Hst1).
  - etrans; [exact Hkept|exact Hkept2].
  - by apply Hmap2.
  - exists page1. by rewrite Hio, Hu2.
Qed.

(** Only the page header changes. *)
Lemma placed_header k bn off token d page0 page2 page s s2 s3 :
  placed_on k bn off token d page0 page2 s s2 -> header_only page2 page -> PageIsAllVisible page = false ->
  heap s3 = <[bn := page]> (heap s2) -> is_tde s3 = is_tde s2 -> is_vm s3 = is_vm s2 ->
  placed_on k bn off token d page0 page s s3.
Proof.
  intros [Hbn Hbef Hp2 Hst2 Hvis Hk Htab Hkept Hmap (page1 & Hput & Hu1 & Hat)] Hho Hvis3 Hheap Ht Hv.
  pose proof Hho as (Hs & Hu3 & _ & Hio3 & _). destruct (proj2 Htab _ _ Hp2) as [_ Hs2].
  destruct (page_step bn page2 page s2 s3 Htab Hp2 Hs (header_only_keeps _ _ Hho) Hheap) as (Htab3 & Hkept3 & Hmap3).
  { rewrite Hv. apply Htab. }
  assert (Hbn0 : vm_status (is_vm s2) bn = 0).
  { destruct (decide (vm_status (is_vm s2) bn = 0)) as [|Hn]; [done|]. specialize (Hmap _ _ Hp2 Hn). congruence. }
  split; try done.
  - by rewrite Hheap, lookup_insert_eq.
  - exact (header_only_stored _ _ _ _ _ _ Hs2 Hho Hst2).
  - by rewrite Ht.
  - etrans; [exact Hkept|exact Hkept3].
  - apply Hmap3; [done|by rewrite Hv|by rewrite Hv].
  - exists page1. by rewrite Hu3, Hio3.
Qed.

Lemma placed_release k bn off token d page0 page s s2 v : placed_on k bn off token d page0 page s s2 ->
  vm_ok v -> (forall y, vm_status v y = vm_status (is_vm s2) y) ->
  placed_on k bn off token d page0 page s (with_vm v s2).
Proof.
  intros [Hbn Hbef Hp2 Hst2 Hvis Hk Htab Hkept Hmap Hput] Hv Hst. split; try done.
  - split; [done|apply Htab].
  - intros b q Hq Hn. apply (Hmap b q Hq). by rewrite <- Hst.
Qed.

(** The end of pg_tde_insert: the record and the pins. *)
Lemma insert_finish_wp k bn off token options cleared vmbuffer d page0 page2 (s s2 : InsertState) :
  let tup := {| tup_data := d; t_self := (bn, off) |} in
  tuple_fine d -> placed_on k bn off token d page0 page2 s s2 -> insert_wal s2 = insert_wal s ->
  holds vmbuffer (is_vm s2) ->
  wp ((if RelationNeedsWAL then log_insert rd_locator GetCurrentTransactionId bn tup options cleared else ret tt);;;
      ret tup)
    (fun r s3 => wp (release_vm vmbuffer;;; ret r)
       (fun tup' s' => tup' = tup /\ exists page, placed_on k bn off token d page0 page s s'
          /\ (RelationNeedsWAL = true -> insert_logged k bn off token d page s s')) s3) s2.
Proof.
  intros tup Hd Hpl Hwal Hh. pose proof Hpl as [_ _ Hp2 Hst2 Hvis _ Htab _ _ (page1 & _ & _ & Hat)].
  destruct (proj2 Htab _ _ Hp2) as [_ Hs2].
  assert (Hend : forall page s3, placed_on k bn off token d page0 page s s3 -> is_vm s3 = is_vm s2 ->
    (RelationNeedsWAL = true -> insert_logged k bn off token d page s s3) ->
    wp (release_vm vmbuffer;;; ret tup) (fun tup' s' => tup' = tup /\ exists page,
      placed_on k bn off token d page0 page s s'
      /\ (RelationNeedsWAL = true -> insert_logged k bn off token d page s s')) s3).
  { intros page s3 Hpl3 Hv3 Hlog. apply wp_bind, release_vm_wp; [apply Hpl3|by rewrite Hv3|].
    intros v Hv Hst. apply wp_ret. split; [done|]. exists page. split; [by apply placed_release|done]. }
  destruct RelationNeedsWAL; [|by apply wp_bind, wp_ret, wp_ret, (Hend page2)].
  assert (Hph : header_bytes (placed token (bn, off) d)) by (destruct Hd as [Hd _]; destruct token; cbn [placed]; auto with tde).
  apply wp_bind, (log_insert_wp rd_locator _ bn _ options cleared k page2 (placed token (bn, off) d)); try done.
  { by rewrite length_placed by apply Hd. }
  intros init flags lsn cids s3 Hw _ Hinit Ht3 Hv3 Hheap3. apply wp_ret.
  destruct (set_lsn_header lsn page2 Hs2) as [Hho3 Hvis3].
  apply (Hend (PageSetLSN_heap lsn page2) s3); [|done|].
  - eapply placed_header; try done. by rewrite Hvis3.
  - intros _. exists init, flags, cids. split; [|done]. destruct Hho3 as (_ & -> & _). rewrite Hw, Hwal.
    cbn [t_self tup_data snd]. by rewrite hoff_placed by apply Hd.
Qed.

Lemma insert_wp k tup cid options (s : InsertState) :
  aes_initialized g -> rel_keys_ready (is_tde s) rd_locator k -> table_ok s -> map_follows s ->
  can_extend (dom (heap s)) 1 -> insertable tup -> IsParallelWorker = false -> CheckForSerializableConflictIn 0 = false ->
  let d := prepare_header GetCurrentTransactionId cid options (tup_data tup) in
  wp (pg_tde_insert g rd_locator relkind tup cid options)
    (fun tup' s' => exists bn off page0 page, tup' = {| tup_data := d; t_self := (bn, off) |}
       /\ placed_on k bn off (has options HEAP_INSERT_SPECULATIVE) d page0 page s s'
       /\ (RelationNeedsWAL = true -> insert_logged k bn off (has options HEAP_INSERT_SPECULATIVE) d page s s')) s.
Proof.
  intros Hg Hk Htab Hmap Hext Hins Hw Hc d. pose proof Hins as [Hfine Hmaxlen _].
  pose proof (tuple_fine_prepare GetCurrentTransactionId cid options _ Hfine) as Hd. fold d in Hd.
  assert (Hdl : length d = length (tup_data tup)) by (apply length_prepare; apply Hfine).
  unfold pg_tde_insert. apply wp_bind. eapply wp_of_run; [by apply prepare_insert_run|]. fold d.
  assert (Hlen : t_len (with_data d tup) = Z.of_nat (length d)) by done. rewrite Hlen.
  assert (Hr : 0 < Z.of_nat (length d) <= max_tuple_len).
  { destruct Hd as [Hd _]. unfold header_bytes, t_len in *. lia. }
  apply wp_bind. eapply wp_mono; [apply (get_buffer_wp _ options None 0 0 s Hr Hext Htab); exact I|].
  intros [bn vmb] s1 (page0 & Hp0 & Hbn & Hbn4 & Hfree & Hpin & Hholds & Ht & Hwal & Htab1 & Hst1 & Hsame & Hnew & Hmap1 & _).
  cbn [fst snd] in *. specialize (Hmap1 Hmap). pose proof (proj2 Htab1 _ _ Hp0) as [_ Hs0].
  unfold check_conflict. rewrite Hc. apply wp_bind, wp_ret.
  destruct Hk as (ptr & kd & Hscan & Hkd). rewrite <- Ht in Hscan, Hkd.
  apply wp_bind, wp_zoom. eapply wp_of_run; [by apply GetRelationKeys_cached|]. rewrite with_tde_id.
  apply wp_bind, crit_wp, wp_bind.
  apply (put_wp g rd_locator Hg k bn page0); [split; [by exists ptr, kd|done|done|done]|done|by rewrite Hlen|].
  intros off page1 t1 Hput Hk1. cbn [tup_data with_data]. set (tok := has options HEAP_INSERT_SPECULATIVE) in *.
  apply wp_bind, (heap_page_wp _ page1); [cbn; by rewrite lookup_insert_eq|].
  destruct (page_step bn page0 page1 s1 (with_page bn page1 t1 s1) Htab1 Hp0 (po_sane _ _ _ _ _ _ _ Hput)
    (po_keeps _ _ _ _ _ _ _ Hput) eq_refl (proj1 Htab1)) as (Htab2 & Hkept2 & Hmap2).
  assert (Hvm2 : map_follows (with_page bn page1 t1 s1)).
  { apply Hmap2; [done|done|]. rewrite (po_visible _ _ _ _ _ _ _ Hput). by apply Hmap1. }
  apply wp_bind. apply (clear_if_wp bn page1); [done|cbn; by rewrite lookup_insert_eq|done| |].
  { rewrite (po_visible _ _ _ _ _ _ _ Hput). auto. }
  intros v page2 Hs2 Hho Hv Hvis Hpv Hsty Hstb. apply wp_bind, wp_modify.
  cbn [insert_wal is_tde is_vm heap with_heap with_vm with_page with_tde].
  eapply wp_mono; [apply (insert_finish_wp k bn off tok options _ vmb d page0 page2 s); [done| |done|]|].
  - apply (placed_after_put k bn off tok d page0 page1 page2 s s1); try done.
    + intros b p Hp. exists p. split; [by apply Hsame|done].
    + split; [|exact Hnew]. intros p Hp%Hsame. congruence.
    + rewrite Hvis. by destruct (PageIsAllVisible page1).
    + cbn. by rewrite insert_insert_eq.
    + cbn. rewrite Hstb, (po_visible _ _ _ _ _ _ _ Hput). destruct (PageIsAllVisible page0) eqn:E0; [done|].
      destruct (decide (vm_status (is_vm s1) bn = 0)) as [|Hn]; [done|]. specialize (Hmap1 _ _ Hp0 Hn). congruence.
  - cbn. unfold holds in *. by rewrite Hpv.
  - intros tup3 s3 Hend. eapply wp_mono; [exact Hend|]. intros tup4 s4 (-> & page & Hpl & Hlog).
    by exists bn, off, page0, page.
Qed.

(** ** What can be read *)

(** Tuple [n] of a page, as scans hand it to the slot functions. *)
Definition page_tuple (page : list Z) (n len hoff : Z) : option HeapTupleData :=
  o ← PageItemOffset page n;
  Some {| EncTuple.t_len := len; t_at := o; t_hoff := hoff;
          t_data := take (Z.to_nat len) (drop (Z.to_nat o) page) |}.

Lemma stored_fetch k page bn n d (t : TdeState) : aes_initialized g -> rel_keys_ready t rd_locator k ->
  relkind <> RELKIND_TOASTVALUE -> tuple_fine d -> 0 <= bn /\ bn * BLCKSZ < 2 ^ 32 -> page_sane page ->
  stored k page bn n d ->
  exists o, let item := {| EncTuple.t_len := Z.of_nat (length d); t_at := o; t_hoff := get_field F_hoff d;
                 t_data := encrypted_item k bn o (get_field F_hoff d) d |} in
    page_tuple page n (Z.of_nat (length d)) (get_field F_hoff d) = Some item
    /\ exists t', PGTdeExecStoreBufferHeapTuple g relkind rd_locator 0 bn item t
                 = (Ret {| EncTuple.t_len := Z.of_nat (length d); t_at := 0; t_hoff := get_field F_hoff d;
                           t_data := d |}, t').
Proof.
  intros Hg Hk Hkind (Hd & Hh & _) [Hbn Hbn4] Hs (o & Ho & Hou & Hend & Hbytes). exists o.
  unfold page_tuple. rewrite Ho. cbn [mbind option_bind]. rewrite Nat2Z.id, Hbytes. split; [done|].
  set (item := {| EncTuple.t_len := _ |}). destruct (sane_range _ Hs) as (_ & Hur & _).
  unfold SizeofHeapTupleHeader in Hh.
  destruct (PGTdeExecStore_spec g relkind rd_locator 0 bn item k t) as (t' & E & _); try done.
  - cbn [item EncTuple.t_len t_data]. by rewrite length_encrypted_item.
  - cbn [item EncTuple.t_len t_hoff]. lia.
  - cbn [item t_at]. lia.
  - exists t'. rewrite E. cbn [item EncTuple.t_len t_at t_hoff t_data].
    by rewrite encrypted_item_involutive by lia.
Qed.

Lemma prepare_fields xid cid options d : header_bytes d -> 0 <= xid < 2 ^ 32 -> 0 <= cid < 2 ^ 32 ->
  let d' := prepare_header xid cid options d in
  get_field F_xmin d' = xid /\ get_field F_xmax d' = 0 /\ get_field F_cid d' = cid
  /\ drop (Z.to_nat SizeofHeapTupleHeader) d' = drop (Z.to_nat SizeofHeapTupleHeader) d.
Proof.
  intros Hd Hx Hc. unfold prepare_header.
  destruct (has options _); (split_and!; [..|rewrite !drop_set_field by field_side; done]);
    match goal with |- get_field ?f _ = _ =>
      repeat (rewrite (get_set_other f) by field_side); rewrite (get_set_field f) by field_side
    end; done.
Qed.

(** ** Replay *)

Lemma redo_clear_map_wp flags bn (t : InsertState) (Q : unit -> InsertState -> Prop) :
  0 <= bn < 2 ^ 32 -> vm_ok (is_vm t) ->
  (forall t', is_tde t' = is_tde t -> heap t' = heap t -> vm_ok (is_vm t') -> Q tt t') ->
  wp (redo_clear_map flags bn) Q t.
Proof.
  intros Hbn Hv HQ. unfold redo_clear_map. destruct (has flags _); [|apply wp_ret; by apply HQ].
  apply wp_zoom, wp_bind. destruct (pin_spec bn None (is_vm t) Hv Hbn I) as (v1 & E1 & Hv1 & _ & rest & _ & Hp1).
  eapply wp_of_run; [exact E1|]. apply wp_bind.
  assert (Hin : HEAPBLK_TO_MAPBLOCK bn ∈ pinned v1) by (rewrite Hp1; cbn; by left).
  destruct (clear_spec bn VISIBILITYMAP_VALID_BITS v1 Hv1 Hin) as (v2 & E2 & Hv2 & Hp2 & _).
  { rewrite valid_bits_value. lia. }
  eapply wp_of_run; [exact E2|]. rewrite <- Hp2 in Hin.
  destruct (ReleaseBuffer_spec _ v2 Hv2 Hin) as (v3 & E3 & Hv3 & _). eapply wp_of_run; [exact E3|].
  by apply HQ.
Qed.

(** The tuple rebuilt by replay has the data of the record. *)
Lemma redo_tuple_facts xid bn off hdr data : 0 <= xlh_hoff hdr < 256 ->
  let r := redo_tuple xid bn off hdr data in
  header_bytes r /\ length r = (Z.to_nat SizeofHeapTupleHeader + length data)%nat
  /\ get_field F_hoff r = xlh_hoff hdr /\ drop (Z.to_nat SizeofHeapTupleHeader) r = data.
Proof.
  intros Hh r. unfold r, redo_tuple.
  assert (Hb : header_bytes (replicate (Z.to_nat SizeofHeapTupleHeader) 0 ++ data)).
  { unfold header_bytes. rewrite length_app, length_replicate. unfold SizeofHeapTupleHeader. lia. }
  split_and!.
  - auto 12 with tde.
  - rewrite length_set_ctid by field_side. rewrite !length_set_field by field_side.
    by rewrite length_app, length_replicate.
  - rewrite get_set_ctid by field_side. repeat (rewrite (get_set_other F_hoff) by field_side).
    by rewrite (get_set_field F_hoff) by field_side.
  - rewrite drop_set_ctid by field_side. rewrite !drop_set_field by field_side.
    by rewrite drop_app_length' by (by rewrite length_replicate).
Qed.

(** Item [n] is the one added last, at [pd_upper]. *)
Definition newest (page : list Z) (n u : Z) (bytes : list Z) : Prop :=
  pd_upper page = u /\ PageItemOffset page n = Some u
  /\ take (length bytes) (drop (Z.to_nat u) page) = bytes.

Lemma newest_header page q n u bytes : header_only page q -> newest page n u bytes -> newest q n u bytes.
Proof.
  intros (_ & Hu & Hd & Hi & _) (E & Ho & Hb). split; [by rewrite Hu|]. split; [by rewrite Hi|].
  by rewrite <- E, Hd, E.
Qed.

Lemma redo_add_wp k bn off page d (t : InsertState) (Q : unit -> InsertState -> Prop) :
  aes_initialized g -> at_page rd_locator k bn page t -> tuple_fine d -> off <> InvalidOffsetNumber ->
  fst (PageAddItemExtended page d (Z.of_nat (length d)) off (Z.lor PAI_OVERWRITE PAI_IS_HEAP)) = off ->
  (forall page' t', page_sane page' -> rel_keys_ready t' rd_locator k ->
     let u := pd_upper page - MAXALIGN (Z.of_nat (length d)) in
     newest page' off u (encrypted_item k bn u (get_field F_hoff d) d) -> Q tt (with_page bn page' t' t)) ->
  wp (redo_add g rd_locator bn off d) Q t.
Proof.
  intros Hg [Hk Hpage Hp [Hbn Hbn4]] Hd Hoff Hadd HQ. pose proof Hd as (Hhd & Hh & _). unfold redo_add.
  destruct (PageAddItemExtended page d _ off _) as [off' page1] eqn:E. cbn [fst] in Hadd. subst off'.
  apply wp_bind, (heap_page_wp _ page); [done|]. destruct (sane_range _ Hp) as (Hpl & _).
  destruct (PGTdePageAddItemExtended_spec g rd_locator bn page d _ _ _ off page1 k (get_field F_hoff d)
    (is_tde t) Hg Hk E Hoff Hpl eq_refl (item_t_hoff_field d Hhd)) as (page2 & t' & E' & -> & Hl2 & Hk').
  { unfold SizeofHeapTupleHeader in Hh. lia. } { done. } { done. }
  apply wp_bind, wp_zoom. eapply wp_of_run; [exact E'|]. cbn beta iota. apply wp_bind, wp_modify.
  rewrite (proj2 (Z.eqb_neq _ _)) by done. apply wp_ret.
  destruct (add_item _ _ _ _ _ _ Hp E Hoff) as (Hp1 & Ho1 & Hu1 & _). destruct (sane_range _ Hp1) as (Hl1 & Hur1 & _).
  destruct (PageAddItem_success _ _ _ _ _ _ _ E Hpl eq_refl Hoff) as (_ & _ & Hend & _).
  set (e := encrypted_item k bn (pd_upper page1) (get_field F_hoff d) d).
  assert (He : length e = length d) by apply length_encrypted_item.
  assert (Hfit : (Z.to_nat (pd_upper page1) + length e <= length page1)%nat) by lia.
  destruct (write_items page1 (pd_upper page1) e Hp1) as (Hp2 & Hu2 & Ho2 & _); [lia|lia|].
  apply (HQ _ t' Hp2 Hk'). rewrite <- Hu1. split; [by rewrite Hu2|]. split; [by rewrite Ho2|].
  by apply sub_splice_in.
Qed.

Lemma redo_finish_wp bn lsn flags page n u bytes (t : InsertState) (Q : Z -> InsertState -> Prop) :
  heap t !! bn = Some page -> page_sane page -> newest page n u bytes ->
  (forall free page' t', newest page' n u bytes -> heap t' = <[bn := page']> (heap t) -> Q free t') ->
  wp (redo_finish bn lsn flags) Q t.
Proof.
  intros Hp Hs Hn HQ. unfold redo_finish. apply wp_bind, (heap_page_wp _ page); [done|].
  destruct (set_lsn_header lsn page Hs) as [H1 _]. pose proof (newest_header _ _ _ _ _ H1 Hn) as Hn1.
  set (p1 := PageSetLSN_heap lsn page) in *. assert (Hs1 : page_sane p1) by apply H1.
  set (p2 := if has flags XLH_INSERT_ALL_VISIBLE_CLEARED then PageClearAllVisible p1 else p1).
  assert (Hp2 : page_sane p2 /\ newest p2 n u bytes).
  { unfold p2. destruct (has flags _); [|done]. destruct (clear_visible_header p1 Hs1) as [H2 _].
    split; [apply H2|by eapply newest_header]. }
  destruct Hp2 as [Hs2 Hn2]. destruct (set_visible_header p2 Hs2) as [H3 _].
  apply wp_bind, wp_modify, wp_bind, wp_modify, wp_ret. eapply HQ; [|reflexivity].
  destruct (has flags XLH_INSERT_ALL_FROZEN_SET); [by eapply newest_header|done].
Qed.

Lemma xlog_insert_wp k lsn xid bn (init : bool) off flags hdr data page (t : InsertState) :
  aes_initialized g -> 0 <= bn /\ bn * BLCKSZ < 2 ^ 32 -> rel_keys_ready (is_tde t) rd_locator k -> vm_ok (is_vm t) ->
  (if init then page = PageInit else heap t !! bn = Some page) -> page_sane page ->
  off <> InvalidOffsetNumber -> off <= PageGetMaxOffsetNumber page + 1 -> 0 <= xlh_hoff hdr < 256 ->
  let r := redo_tuple xid bn off hdr data in
  let u := pd_upper page - MAXALIGN (Z.of_nat (length r)) in
  tuple_fine r ->
  fst (PageAddItemExtended page r (Z.of_nat (length r)) off (Z.lor PAI_OVERWRITE PAI_IS_HEAP)) = off ->
  wp (pg_tde_xlog_insert g rd_locator lsn true xid bn init off flags hdr data)
    (fun _ t' => exists page', heap t' !! bn = Some page'
       /\ newest page' off u (encrypted_item k bn u (get_field F_hoff r) r)) t.
Proof.
  intros Hg Hbn Hk Hv Hpage Hs Hoff Hmax Hh r u Hr Hadd. pose proof BLCKSZ_range. unfold pg_tde_xlog_insert.
  apply wp_bind, redo_clear_map_wp; [nia|done|]. intros t1 Ht1 Hheap1 Hv1. unfold redo_page.
  apply wp_bind. set (t2 := if init then with_heap (<[bn := page]> (heap t1)) t1 else t1).
  assert (Hat : at_page rd_locator k bn page t2).
  { split; [|destruct init; unfold t2; [cbn; by rewrite lookup_insert_eq|by rewrite Hheap1]|done|done].
    destruct init; unfold t2; cbn; by rewrite Ht1. }
  assert (Hgo : wp ((let* page := heap_page bn in
     if PageGetMaxOffsetNumber page + 1 <? off then raise PANIC
     else redo_add g rd_locator bn off r);;;
     let* freespace := redo_finish bn lsn flags in record_low_space bn freespace)
    (fun _ t' => exists page', heap t' !! bn = Some page'
       /\ newest page' off u (encrypted_item k bn u (get_field F_hoff r) r)) t2).
  { apply wp_bind, wp_bind, (heap_page_wp _ page); [apply Hat|]. rewrite (proj2 (Z.ltb_ge _ _)) by lia.
    apply (redo_add_wp k bn off page r); try done. intros page' t' Hs' _ u' Hn. apply wp_bind.
    eapply redo_finish_wp; [cbn; by rewrite lookup_insert_eq|done|exact Hn|].
    intros free q t3 Hq Ht3. unfold record_low_space.
    destruct (_ <? _); [apply wp_modify|apply wp_ret]; exists q; cbn [heap]; by rewrite Ht3, lookup_insert_eq. }
  destruct init; [apply wp_modify; subst page|apply wp_ret]; exact Hgo.
Qed.

(** ** Claims *)

(** What an insert starts from. *)
Record can_insert (k : list Z) (tup : HeapTuple) (cid : Z) (s : InsertState) : Prop := {
  ci_cipher : aes_initialized g;
  ci_keys : rel_keys_ready (is_tde s) rd_locator k;
  ci_table : table_ok s;
  ci_map : map_follows s;
  ci_extend : can_extend (dom (heap s)) 1;
  ci_tuple : insertable tup;
  ci_leader : IsParallelWorker = false;
  ci_conflict : CheckForSerializableConflictIn 0 = false;
  ci_ids : 0 <= GetCurrentTransactionId < 2 ^ 32 /\ 0 <= cid < 2 ^ 32;
}.

Lemma can_insert_run k tup cid options (s : InsertState) : can_insert k tup cid s ->
  let d := prepare_header GetCurrentTransactionId cid options (tup_data tup) in
  exists bn off page0 page s',
    pg_tde_insert g rd_locator relkind tup cid options s = (Ret {| tup_data := d; t_self := (bn, off) |}, s')
    /\ tuple_fine d /\ placed_on k bn off (has options HEAP_INSERT_SPECULATIVE) d page0 page s s'
    /\ (RelationNeedsWAL = true -> insert_logged k bn off (has options HEAP_INSERT_SPECULATIVE) d page s s').
Proof.
  intros [Hg Hk Htab Hmap Hext Hins Hw Hc _] d.
  destruct (wp_run _ _ _ (insert_wp k tup cid options s Hg Hk Htab Hmap Hext Hins Hw Hc))
    as (tup' & s' & E & bn & off & page0 & page & -> & Hpl & Hlog).
  exists bn, off, page0, page, s'. split; [exact E|]. split; [|done]. apply tuple_fine_prepare. apply Hins.
Qed.

(** The tuple as it is on the page, with its TID, compared to the caller's. *)
Lemma placed_prepare xid cid options token tid d : tuple_fine d -> 0 <= xid < 2 ^ 32 -> 0 <= cid < 2 ^ 32 ->
  let pd := placed token tid (prepare_header xid cid options d) in
  tuple_fine pd /\ length pd = length d /\ get_field F_hoff pd = get_field F_hoff d
  /\ forall n, SizeofHeapTupleHeader <= Z.of_nat n -> drop n pd = drop n d.
Proof.
  intros Hd Hx Hc pd. pose proof (tuple_fine_prepare xid cid options d Hd) as (Hb & Hd1 & Hd2 & Hd3).
  destruct Hd as (Hhd & _). destruct (prepare_fields xid cid options d Hhd Hx Hc) as (_ & _ & _ & F4).
  assert (E1 : length pd = length d) by (unfold pd; by rewrite length_placed, length_prepare).
  assert (E2 : get_field F_hoff pd = get_field F_hoff d) by (unfold pd; by rewrite hoff_placed, hoff_prepare).
  rewrite hoff_prepare, length_prepare in * by done.
  split; [by unfold tuple_fine, header_bytes in *; rewrite E1, E2|]. split; [done|]. split; [done|].
  intros n Hn. replace n with (Z.to_nat SizeofHeapTupleHeader + (n - 23))%nat by (unfold SizeofHeapTupleHeader in *; lia).
  rewrite <- !drop_drop, <- F4. unfold pd. destruct token; [done|]. cbn [placed].
  by rewrite drop_set_ctid by field_side.
Qed.

(** C4: a tuple that is inserted can be fetched.  pg_tde_insert stamps the
    tuple with the transaction and command, and puts it on a page encrypted
    for its place; the slot function gives from there the tuple, with its
    own TID as [t_ctid] unless it is a speculative one; and every page of
    the table still has the tuples it had. *)
Theorem insert_then_fetch k tup cid options (s : InsertState)
    (Hcan : can_insert k tup cid s) (Hkind : relkind <> RELKIND_TOASTVALUE) :
  let d := prepare_header GetCurrentTransactionId cid options (tup_data tup) in
  let h := get_field F_hoff (tup_data tup) in
  exists bn off s' page item,
    pg_tde_insert g rd_locator relkind tup cid options s = (Ret {| tup_data := d; t_self := (bn, off) |}, s')
    /\ get_field F_xmin d = GetCurrentTransactionId /\ get_field F_xmax d = 0 /\ get_field F_cid d = cid
    /\ drop (Z.to_nat h) d = drop (Z.to_nat h) (tup_data tup)
    /\ heap s' !! bn = Some page /\ page_tuple page off (t_len tup) h = Some item
    /\ drop (Z.to_nat h) (t_data item)
       = stream_xor k (bn * BLCKSZ + t_at item) (drop (Z.to_nat h) (tup_data tup))
    /\ (exists t, PGTdeExecStoreBufferHeapTuple g relkind rd_locator 0 bn item (is_tde s')
         = (Ret {| EncTuple.t_len := t_len tup; t_at := 0; t_hoff := h;
                   t_data := placed (has options HEAP_INSERT_SPECULATIVE) (bn, off) d |}, t))
    /\ pages_kept s s'.
Proof.
  intros d h. destruct (can_insert_run k tup cid options s Hcan) as (bn & off & page0 & page & s' & E & _ & Hpl & _).
  fold d in E, Hpl. destruct Hcan as [Hg _ _ _ _ Hins _ _ [Hx Hc]]. pose proof Hins as [Hfd _ _].
  destruct (prepare_fields _ _ options _ (proj1 Hfd) Hx Hc) as (F1 & F2 & F3 & F4). fold d in F1, F2, F3, F4.
  destruct (placed_prepare _ _ options (has options HEAP_INSERT_SPECULATIVE) (bn, off) _ Hfd Hx Hc)
    as (Hfine & Hpl1 & Hpl2 & Hdrop). fold d h in Hfine, Hpl1, Hpl2, Hdrop.
  destruct Hpl as [Hbn _ Hpage Hst _ Hk Htab Hkept _ _]. destruct (proj2 Htab _ _ Hpage) as [_ Hs].
  destruct (stored_fetch k page bn off _ (is_tde s') Hg Hk Hkind Hfine Hbn Hs Hst) as (o & Hitem & t & Et).
  rewrite Hpl1, Hpl2 in Hitem, Et. destruct Hfd as (_ & Hh & _). fold h in Hh.
  eexists bn, off, s', page, _. split_and!; try done; [| |exists t; exact Et].
  - destruct (placed_prepare GetCurrentTransactionId cid options true (0, 0) (tup_data tup)) as (_ & _ & _ & Hd'); [|done|done|].
    { by destruct Hins. }
    apply Hd'. unfold SizeofHeapTupleHeader in *. lia.
  - cbn [t_data t_at]. unfold SizeofHeapTupleHeader in Hh. unfold encrypted_item.
    rewrite drop_app_length' by (rewrite length_take; lia). rewrite Hdrop by (unfold SizeofHeapTupleHeader; lia). done.
Qed.

(** an insert keeps the visibility map below the pages.  When no page
    has bits in the map without its own all-visible flag before, none has
    afterwards; the page of the new tuple has neither; the pages and the map
    stay well formed. *)
Theorem insert_keeps_map k tup cid options (s : InsertState) (Hcan : can_insert k tup cid s) :
  exists tup' s' page, pg_tde_insert g rd_locator relkind tup cid options s = (Ret tup', s')
    /\ table_ok s' /\ map_follows s' /\ heap s' !! fst (t_self tup') = Some page
    /\ PageIsAllVisible page = false /\ vm_status (is_vm s') (fst (t_self tup')) = 0.
Proof.
  destruct (can_insert_run k tup cid options s Hcan) as (bn & off & page0 & page & s' & E & _ & Hpl & _).
  destruct Hpl as [_ _ Hpage _ Hvis _ Htab _ Hmap _]. eexists _, s', page. split_and!; try done.
  cbn [t_self fst]. destruct (decide (vm_status (is_vm s') bn = 0)) as [|Hn]; [done|].
  specialize (Hmap _ _ Hpage Hn). congruence.
Qed.

Lemma drop_encrypted_item k bn u h d : 0 <= h <= Z.of_nat (length d) ->
  drop (Z.to_nat h) (encrypted_item k bn u h d) = stream_xor k (bn * BLCKSZ + u) (drop (Z.to_nat h) d).
Proof. intros Hh. unfold encrypted_item. by rewrite drop_app_length' by (rewrite length_take; lia). Qed.

(** The replay of a tuple that was put on a page: what it stores. *)
Lemma replayed_insert k bn off token d page0 page1 xid (init : bool) flags hdr lsn pd (t : InsertState) :
  let h := get_field F_hoff pd in
  let u := pd_upper page1 in
  let data := drop (Z.to_nat SizeofHeapTupleHeader) (encrypted_item k bn u h pd) in
  aes_initialized g -> put_on k page0 page1 bn off token d -> page_sane page0 -> 0 <= bn /\ bn * BLCKSZ < 2 ^ 32 ->
  tuple_fine pd -> length pd = length d -> xlh_hoff hdr = h ->
  rel_keys_ready (is_tde t) rd_locator k -> vm_ok (is_vm t) ->
  (if init then page0 = PageInit else heap t !! bn = Some page0) ->
  exists t' page, pg_tde_xlog_insert g rd_locator lsn true xid bn init off flags hdr data t = (Ret tt, t')
    /\ heap t' !! bn = Some page /\ PageItemOffset page off = Some u
    /\ drop (Z.to_nat h) (take (length pd) (drop (Z.to_nat u) page)) = drop (Z.to_nat h) pd.
Proof.
  intros h u data Hg Hput Hs0 Hbn (Hpd & Hh & Hh2 & Hl) Hlen Ehdr Hk Hv Hpage. fold h in Hh, Hh2.
  pose proof Hput as [_ _ _ _ _ Hoff Hmax Hup Hagain].
  assert (Hhr : 0 <= xlh_hoff hdr < 256) by (unfold SizeofHeapTupleHeader in Hh; lia).
  destruct (redo_tuple_facts xid bn off hdr data Hhr) as (Hb & Hlr & Hhf & Hdr). set (r := redo_tuple xid bn off hdr data) in *.
  assert (Hlr' : length r = length pd).
  { rewrite Hlr. unfold data. rewrite length_drop, length_encrypted_item. unfold header_bytes in Hpd.
    unfold SizeofHeapTupleHeader. lia. }
  assert (Hfine : tuple_fine r) by (split; [done|]; rewrite Hhf, Ehdr, Hlr'; done).
  assert (Hu : pd_upper page0 - MAXALIGN (Z.of_nat (length r)) = u) by (unfold u; rewrite Hlr', Hlen; lia).
  destruct (wp_run _ _ _ (xlog_insert_wp k lsn xid bn init off flags hdr data page0 t Hg Hbn Hk Hv Hpage Hs0
    ltac:(unfold InvalidOffsetNumber; lia) ltac:(lia) Hhr Hfine ltac:(fold r; apply Hagain; lia)))
    as ([] & t' & E & page & Hp & Hn). fold r in Hn. rewrite Hu in Hn. destruct Hn as (_ & Ho & Hbytes).
  exists t', page. split; [exact E|]. split; [done|]. split; [done|].
  rewrite length_encrypted_item, Hlr', Hhf, Ehdr in Hbytes. rewrite Hbytes.
  unfold SizeofHeapTupleHeader in Hh. rewrite drop_encrypted_item by lia.
  replace (Z.to_nat h) with (Z.to_nat SizeofHeapTupleHeader + (Z.to_nat h - 23))%nat at 1 by (unfold SizeofHeapTupleHeader; lia).
  rewrite <- drop_drop, Hdr. unfold data. rewrite drop_drop.
  replace (_ + _)%nat with (Z.to_nat h) by (unfold SizeofHeapTupleHeader; lia).
  rewrite drop_encrypted_item by lia. by rewrite stream_xor_involutive.
Qed.

(** C40: replaying an insert would store plain text.  The record of
    pg_tde_insert holds, behind the fields of its header, the bytes of the
    item it has put on the page, whose data is the data of the tuple xored
    with the key stream of its place; pg_tde_xlog_insert adds them, at the
    same place, through the function that encrypts: on a page as the one the
    tuple was added to was before, which is the page of the block or, for
    a block that is new, an initialised one, the page of the standby has the
    data of the tuple in the clear. *)
Theorem redo_insert_stores_plaintext k tup cid options (s : InsertState)
    (Hcan : can_insert k tup cid s) (Hwal : RelationNeedsWAL = true) :
  let len := length (tup_data tup) in
  let hoff := Z.to_nat (get_field F_hoff (tup_data tup)) in
  exists tup' s' page0 page' at_ init off flags hdr data,
    let bn := fst (t_self tup') in
    pg_tde_insert g rd_locator relkind tup cid options s = (Ret tup', s')
    /\ (forall p, heap s !! bn = Some p -> page0 = p)
    /\ (heap s !! bn = None -> vm_status (is_vm s) bn = 0 -> page0 = PageInit)
    /\ heap s' !! bn = Some page' /\ PageItemOffset page' off = Some at_
    /\ last (insert_wal s') = Some (XlInsert GetCurrentTransactionId bn init off flags hdr data)
    /\ data = drop (Z.to_nat SizeofHeapTupleHeader) (take len (drop (Z.to_nat at_) page'))
    /\ drop (hoff - Z.to_nat SizeofHeapTupleHeader) data = stream_xor k (bn * BLCKSZ + at_) (drop hoff (tup_data tup))
    /\ forall lsn (t : InsertState), rel_keys_ready (is_tde t) rd_locator k -> vm_ok (is_vm t) ->
         (if init then page0 = PageInit else heap t !! bn = Some page0) ->
         exists t' page,
           pg_tde_xlog_insert g rd_locator lsn true GetCurrentTransactionId bn init off flags hdr data t = (Ret tt, t')
           /\ heap t' !! bn = Some page /\ PageItemOffset page off = Some at_
           /\ drop hoff (take len (drop (Z.to_nat at_) page)) = drop hoff (tup_data tup).
Proof.
  intros len hoff. destruct (can_insert_run k tup cid options s Hcan) as (bn & off & page0 & page & s' & E & _ & Hpl & Hlog).
  destruct (Hlog Hwal) as (init & flags & recs & Hw & _). clear Hlog.
  destruct Hcan as [Hg _ _ _ _ Hins _ _ [Hx Hc]]. pose proof Hins as [Hfd _ _].
  set (d := prepare_header _ _ _ _) in *. set (tok := has options HEAP_INSERT_SPECULATIVE) in *.
  destruct (placed_prepare _ _ options tok (bn, off) _ Hfd Hx Hc) as (Hfine & Hpl1 & Hpl2 & Hdrop).
  fold d in Hfine, Hpl1, Hpl2, Hdrop. set (pd := placed tok (bn, off) d) in *.
  assert (Hhd : get_field F_hoff d = get_field F_hoff (tup_data tup)) by (apply hoff_prepare; apply Hfd).
  assert (Hld : length d = length (tup_data tup)) by (apply length_prepare; apply Hfd).
  rewrite Hhd in Hw. destruct Hfd as (Hdh & Hh & Hh2 & _). unfold header_bytes, SizeofHeapTupleHeader in Hdh, Hh.
  set (hdr := {| xlh_infomask2 := _; xlh_infomask := _; xlh_hoff := _ |}) in Hw.
  set (data := drop _ (encrypted_item k bn (pd_upper page) _ pd)) in Hw.
  destruct Hpl as [Hbn [Hs0 [Hold Hnew]] Hp' Hst _ _ _ _ _ (page1 & Hput & Hu1 & Hat)].
  exists {| tup_data := d; t_self := (bn, off) |}, s', page0, page, (pd_upper page), init, off, flags, hdr, data. cbn [t_self fst].
  assert (Hdp : drop hoff pd = drop hoff (tup_data tup)) by (apply Hdrop; unfold SizeofHeapTupleHeader, hoff; lia).
  split; [exact E|]. split; [exact Hold|]. split; [exact Hnew|]. split; [exact Hp'|]. split; [exact Hat|].
  split; [by rewrite Hw, app_assoc, last_snoc|]. split; [|split].
  - destruct Hst as (o & Ho & _ & _ & Hb). rewrite Hat in Ho. injection Ho as <-. fold pd in Hb. rewrite Hpl1, Hpl2 in Hb.
    unfold data, len. by rewrite Hb.
  - unfold data. rewrite drop_drop. replace (_ + _)%nat with hoff by (unfold hoff, SizeofHeapTupleHeader; lia).
    unfold hoff. rewrite drop_encrypted_item by lia. fold hoff. by rewrite Hdp.
  - intros lsn t Hk Hv Hpage.
    destruct (replayed_insert k bn off tok d page0 page1 GetCurrentTransactionId init flags hdr lsn pd t Hg Hput
      Hs0 Hbn Hfine ltac:(lia) ltac:(by rewrite Hpl2) Hk Hv Hpage) as (t' & page' & E' & Hq & Ho' & Hb').
    rewrite Hpl1, Hpl2 in Hb'. fold hoff in Hb'. rewrite Hdp in Hb'. rewrite Hpl2, Hu1 in E'. rewrite Hu1 in *. by exists t', page'.
Qed.

(** ** Several tuples *)

Lemma le_value_le_bytes n v : 0 <= le_value (le_bytes n v) < 256 ^ Z.of_nat n.
Proof.
  revert v. induction n as [|n IH]; intros v; cbn [le_bytes le_value]; [lia|].
  specialize (IH (v / 256)). rewrite Nat2Z.inj_succ, Z.pow_succ_r by lia.
  pose proof (Z.mod_pos_bound v 256). lia.
Qed.

Lemma get_set_range f v d : header_bytes d ->
  0 <= get_field f (set_field f v d) < 256 ^ Z.of_nat (field_size f).
Proof.
  unfold header_bytes. intros Hd. pose proof (field_end f). unfold get_field, set_field.
  rewrite <- (length_le_bytes (field_size f) v) at 1 3.
  rewrite sub_splice_in by (rewrite length_le_bytes; lia). apply le_value_le_bytes.
Qed.

Lemma masks_fit_prepare xid cid options d : header_bytes d -> masks_fit (prepare_header xid cid options d).
Proof.
  intros Hd. unfold masks_fit, prepare_header. destruct (has options _); split;
    match goal with |- 0 <= get_field ?f _ < _ =>
      repeat (rewrite (get_set_other f) by field_side); apply (get_set_range f); auto 12 with tde
    end.
Qed.

Definition prepared (cid options : Z) (tup : HeapTuple) : HeapTuple :=
  with_data (prepare_header GetCurrentTransactionId cid options (tup_data tup)) tup.

Lemma prepare_all_run tups cid options (s : InsertState) : Forall insertable tups -> IsParallelWorker = false ->
  prepare_all relkind tups GetCurrentTransactionId cid options s = (Ret (prepared cid options <$> tups), s).
Proof.
  intros Hall Hw. induction Hall as [|t tups Ht _ IH]; [done|]. cbn [prepare_all].
  unfold bind. rewrite prepare_insert_run by done. rewrite IH. done.
Qed.

(** C14: a multi-insert stores every tuple.  It returns the tuples in their
    order, each stamped and with its TID; each is on its page, encrypted for
    its place; the pages have kept the tuples they had, and no page has bits
    in the visibility map without its own flag.  However the free space
    lies, every round makes progress. *)
Theorem multi_insert_stores_all k tups cid options scratch (s : InsertState)
    (Hg : aes_initialized g) (Hk : rel_keys_ready (is_tde s) rd_locator k)
    (Htab : table_ok s) (Hmap : map_follows s) (Hext : can_extend (dom (heap s)) (length tups))
    (Htups : Forall insertable tups)
    (Hw : IsParallelWorker = false) (Hsave : 0 <= SaveFreeSpace < 2 ^ 32)
    (Hc : CheckForSerializableConflictIn 0 = false /\ CheckForSerializableConflictIn 1 = false)
    (Hscr : length scratch = Z.to_nat BLCKSZ) :
  exists done s', pg_tde_multi_insert g rd_locator relkind tups cid options scratch s = (Ret done, s')
    /\ tup_data <$> done = (fun t => prepare_header GetCurrentTransactionId cid options (tup_data t)) <$> tups
    /\ all_held k s' done /\ pages_kept s s' /\ table_ok s' /\ map_follows s'.
Proof.
  destruct Hc as [Hc0 Hc1]. unfold pg_tde_multi_insert. set (all := prepared cid options <$> tups).
  assert (Hfine : Forall (fun t => (tuple_fine (tup_data t) /\ masks_fit (tup_data t)) /\ t_len t <= max_tuple_len) all).
  { apply Forall_fmap. eapply Forall_impl; [exact Htups|]. intros t [Hf Hl _]. unfold compose.
    unfold prepared, t_len in *. cbn [tup_data with_data]. rewrite length_prepare by apply Hf.
    split; [split|done]; [by apply tuple_fine_prepare|apply masks_fit_prepare, Hf]. }
  assert (Hwp : wp (pg_tde_multi_insert g rd_locator relkind tups cid options scratch)
    (fun done s' => tup_data <$> done = tup_data <$> all /\ all_held k s' done /\ pages_kept s s'
       /\ table_ok s' /\ map_follows s') s).
  { unfold pg_tde_multi_insert, check_conflict. rewrite Hc0, Hc1. apply wp_bind.
    eapply wp_of_run; [by apply prepare_all_run|]. fold all. apply wp_bind, wp_ret, wp_bind.
    eapply wp_mono; [eapply (multi_loop_wp g rd_locator Hg k _ options Hsave); try done|].
    { unfold all. by rewrite length_fmap. }
    intros [here vmb] s1 (E & Hheld & T & Mf & K & V). cbn [fst snd] in *.
    apply wp_bind, release_vm_wp; [apply T|done|]. intros v Hv Hst. apply wp_bind, wp_ret, wp_ret.
    split; [done|]. split; [exact Hheld|]. split; [exact K|]. split; [split; [done|apply T]|].
    intros b q Hq Hn. apply (Mf b q Hq). by rewrite <- Hst. }
  destruct (wp_run _ _ _ Hwp) as (done & s' & E & Hd & H). exists done, s'. split; [exact E|]. split; [|done].
  rewrite Hd. unfold all. by rewrite <- list_fmap_compose.
Qed.

(** the record of a page of a multi-insert can be read.  For tuples on
    the page, the record fits in the scratch area; its main data gives back
    flags, number and, unless the page is new, the offset of each; and the
    reader of replay gets from the block data each tuple's masks and [t_hoff]
    and the bytes it has on the page, encrypted, up to the end of the data
    and not further. *)
Theorem multi_insert_record_reads_back k page bn init last cleared frozen tups scratch
    (Hs : page_sane page) (Hheld : Forall (held k page bn) tups)
    (Hfine : Forall (fun t => tuple_fine (tup_data t) /\ masks_fit (tup_data t)) tups)
    (Hroom : total_len tups + pd_upper page <= BLCKSZ) (Hscr : length scratch = Z.to_nat BLCKSZ) :
  exists main block scratch',
    multi_insert_data page init last cleared frozen tups scratch = Some (main, block, scratch')
    /\ rd main 0 = Some (multi_flags last cleared frozen)
    /\ le_value <$> rd_bytes main 2 2 = Some (Z.of_nat (length tups))
    /\ (init = false -> forall m t, tups !! m = Some t ->
          record_offset false main (Z.of_nat m) = Some (snd (t_self t)))
    /\ reads_as page block 0 tups /\ tuples_end tups 0 = Z.of_nat (length block)
    /\ Forall (fun t => exists o, page_data page t = drop (Z.to_nat SizeofHeapTupleHeader)
          (encrypted_item k bn o (get_field F_hoff (tup_data t)) (set_ctid (t_self t) (tup_data t)))) tups.
Proof.
  pose proof BLCKSZ_range as HB16. destruct (sane_range _ Hs) as (Hpl & Hur & _).
  assert (Hlog : Forall (loggable page) tups).
  { apply Forall_forall. intros t Ht. rewrite Forall_forall in Hheld, Hfine. destruct (Hfine t Ht).
    by apply (held_loggable k page bn); [|apply Hheld|..]. }
  assert (H16 : total_len tups + 24 <= Z.of_nat (length scratch) /\ Z.of_nat (length scratch) < 2 ^ 16) by (rewrite Hscr; lia).
  assert (Hn : Z.of_nat (length tups) < 2 ^ 16).
  { destruct (tuples_end_total tups) with (p := 0) as [_ H23]; [|lia].
    eapply Forall_impl; [exact Hlog|]. intros t Ht. apply Ht. }
  destruct (multi_insert_data_spec page init last cleared frozen tups scratch Hlog (proj1 H16) (proj2 H16))
    as (main & block & scratch' & E & _ & Hfl & Hnt & Hoff & Hr & Hend).
  exists main, block, scratch'. split_and!; try done.
  - rewrite Hnt. cbn [fmap option_fmap option_map]. f_equal. apply (le_value_bytes 2).
    change (256 ^ Z.of_nat 2) with (2 ^ 16). lia.
  - apply Forall_forall. intros t Ht. rewrite Forall_forall in Hheld, Hfine.
    destruct (Hheld t Ht) as (_ & _ & o & Ho & Hou & Hoe & Hb). destruct (Hfine t Ht) as [(Hd & _) _].
    exists o. rewrite get_set_ctid, length_set_ctid in * by done. rewrite <- Hb. unfold page_data. rewrite Ho.
    unfold header_bytes, t_len, SizeofHeapTupleHeader in *. rewrite skipn_firstn_comm, drop_drop. f_equal; [lia|f_equal; lia].
Qed.
End claims.

Section witnesses.
Import ToyEVP ToyPage ToyKeyring ToyTde ToyPrune ToyToast ToyLocks ToyHeap ToyInsert.

Lemma toy_insertable b relkind : insertable relkind (toy_tuple b).
Proof.
  split; [apply toy_tuple_fine|by vm_compute|]. right. split; [apply toy_tuple_inline|by vm_compute].
Qed.

Lemma toy_can_insert : can_insert toy_g toy_rel 114 toy_k (toy_tuple 65) 3 toy_table.
Proof.
  split; [apply toy_g_ready|apply toy_table_ready|apply toy_table_ok|apply toy_table_map
         |apply toy_table_room; lia|apply toy_insertable|done..].
Qed.

Lemma insert_then_fetch_witness : exists bn off s' page item,
  pg_tde_insert toy_g toy_rel 114 (toy_tuple 65) 3 0 toy_table
    = (Ret {| tup_data := prepare_header 700 3 0 (tup_data (toy_tuple 65)); t_self := (bn, off) |}, s')
  /\ heap s' !! bn = Some page /\ page_tuple page off 32 24 = Some item
  /\ drop 24 (t_data item) = stream_xor toy_k (bn * 8192 + t_at item) (replicate 8 65).
Proof.
  destruct (insert_then_fetch toy_g toy_rel 114 toy_k (toy_tuple 65) 3 0 toy_table toy_can_insert ltac:(done))
    as (bn & off & s' & page & item & E & _ & _ & _ & _ & Hp & Hi & Hd & _).
  exists bn, off, s', page, item. split; [exact E|]. split; [exact Hp|]. split; [exact Hi|exact Hd].
Defined.

Lemma insert_keeps_map_witness : exists tup' s',
  pg_tde_insert toy_g toy_rel 114 (toy_tuple 65) 3 4 toy_table = (Ret tup', s') /\ table_ok s' /\ map_follows s'.
Proof.
  destruct (insert_keeps_map toy_g toy_rel 114 toy_k (toy_tuple 65) 3 4 toy_table toy_can_insert)
    as (tup' & s' & page & E & Ht & Hm & _).
  exists tup', s'. split; [exact E|]. split; [exact Ht|exact Hm].
Defined.

(** A standby whose table is as empty as the primary's: the page of the
    tuple has its eight bytes in the clear. *)
Lemma redo_insert_stores_plaintext_witness : exists tup' s' bn init off flags hdr data t' page o,
  pg_tde_insert toy_g toy_rel 114 (toy_tuple 65) 3 0 toy_table = (Ret tup', s')
  /\ last (insert_wal s') = Some (XlInsert 700 bn init off flags hdr data)
  /\ drop 1 data = stream_xor toy_k (bn * 8192 + o) (replicate 8 65)
  /\ pg_tde_xlog_insert toy_g toy_rel 50 true 700 bn init off flags hdr data toy_table = (Ret tt, t')
  /\ heap t' !! bn = Some page /\ drop 24 (take 32 (drop (Z.to_nat o) page)) = replicate 8 65.
Proof.
  destruct (redo_insert_stores_plaintext toy_g toy_rel 114 toy_k (toy_tuple 65) 3 0 toy_table toy_can_insert
    ltac:(done)) as (tup' & s' & page0 & page' & o & init & off & flags & hdr & data & E & _ & Hnew & _ & _ & Hl & _ & Hx & Hr).
  assert (Hinit : init = true).
  { assert (Hb : match last (insert_wal (snd (pg_tde_insert toy_g toy_rel 114 (toy_tuple 65) 3 0 toy_table))) with
                 | Some (XlInsert _ _ b _ _ _ _) => b | _ => false end = true) by (vm_compute; reflexivity).
    rewrite E in Hb. cbn [snd] in Hb. by rewrite Hl in Hb. }
  subst init. assert (Hp : page0 = PageInit) by (apply Hnew; [apply toy_table_empty|reflexivity]).
  destruct (Hr 50 toy_table toy_table_ready (proj1 toy_table_ok) Hp) as (t' & page & E' & Hp' & _ & Hd).
  exists tup', s', (fst (t_self tup')), true, off, flags, hdr, data, t', page, o.
  split; [exact E|]. split; [exact Hl|]. split; [exact Hx|]. split; [exact E'|]. split; [exact Hp'|exact Hd].
Defined.

Lemma multi_insert_stores_all_witness : exists out s',
  pg_tde_multi_insert toy_g toy_rel 114 [toy_tuple 65; toy_tuple 66; toy_tuple 67] 3 0
    (replicate (Z.to_nat 8192) 0) toy_table = (Ret out, s')
  /\ tup_data <$> out = (fun b => prepare_header 700 3 0 (tup_data (toy_tuple b))) <$> [65; 66; 67]
  /\ all_held toy_k s' out.
Proof.
  destruct (multi_insert_stores_all toy_g toy_rel 114 toy_k [toy_tuple 65; toy_tuple 66; toy_tuple 67] 3 0
    (replicate (Z.to_nat 8192) 0) toy_table) as (out & s' & E & Hd & Hh & _);
    [apply toy_g_ready|apply toy_table_ready|apply toy_table_ok|apply toy_table_map|apply toy_table_room; cbn; lia
    |repeat (constructor; [apply toy_insertable|]); constructor|done..|].
  - exists out, s'. split; [exact E|]. split; [exact Hd|exact Hh].
Defined.

(** A page of block 2 with one tuple, encrypted for its place. *)
Let one : HeapTuple := {| tup_data := tup_data (toy_tuple 65); t_self := (2, 1) |}.
Let one_page : list Z :=
  snd (toy_add PageInit (encrypted_item toy_k 2 8160 24 (set_ctid (2, 1) (tup_data one))) 32 0 0).

Lemma one_page_sane : page_sane one_page.
Proof.
  apply (toy_add_sane PageInit (encrypted_item toy_k 2 8160 24 (set_ctid (2, 1) (tup_data one))) 0 0 1);
    [apply toy_init_sane| |done].
  unfold one_page. rewrite (surjective_pairing (toy_add _ _ _ _ _)). f_equal; by vm_compute.
Qed.

Lemma one_held : held toy_k one_page 2 one.
Proof.
  split; [done|]. split; [cbn; lia|]. exists 8160. split; [by vm_compute|]. split; [by vm_compute|].
  split; [by vm_compute|]. by vm_compute.
Qed.

Lemma multi_insert_record_reads_back_witness : exists main block scratch',
  multi_insert_data one_page true true false false [one] (replicate (Z.to_nat 8192) 0) = Some (main, block, scratch')
  /\ le_value <$> rd_bytes main 2 2 = Some 1
  /\ reads_as one_page block 0 [one] /\ tuples_end [one] 0 = Z.of_nat (length block).
Proof.
  destruct (multi_insert_record_reads_back toy_k one_page 2 true true false false [one] (replicate (Z.to_nat 8192) 0))
    as (main & block & scratch' & E & _ & Hn & _ & Hr & He & _).
  - apply one_page_sane.
  - constructor; [apply one_held|constructor].
  - constructor; [|constructor]. split; [apply toy_tuple_fine|]. split; by vm_compute.
  - by vm_compute.
  - done.
  - exists main, block, scratch'. split; [exact E|]. split; [exact Hn|]. split; [exact Hr|exact He].
Defined.
End witnesses.
