(* ===== verification/TupleStore.v ===== *)
(** Tuples on pages that other backends change too: what deleting and
    locking tuples (src/src/access/pg_tdeam.c) works on.

    A block has its normal items by offset, each with its header and what
    follows it on the page, which is encrypted.  Other backends act while
    this one waits for the content lock of a page.  The moment is the clock
    of [LockState]; the visibility routines run on the header of an item
    from that moment on. *)
From S2P Require Import Prelude EncTuple RelKeys Visibility VisibilityMap LockFlags MultiXact Insert.

Record HeapItem := {
  it_hdr : HeapTupleHeader;
  it_infomask2 : Z;
  it_hoff : Z;
  it_data : list Z;      (** from SizeofHeapTupleHeader on, as on the page *)
}.

Record HeapBlock := {
  items : gmap Z HeapItem;
  all_visible_flag : bool;   (** PD_ALL_VISIBLE *)
  prune_xid : Z;             (** pd_prune_xid *)
  block_lsn : Z;
}.

(** A tuple in memory that a record holds: header fields and data. *)
Definition LoggedTuple : Type := xl_pg_tde_header * list Z.

Record xl_pg_tde_delete := { xld_xmax : Z; xld_offnum : Z; infobits_set : Z; xld_flags : Z }.

(** Also the shape of [xl_pg_tde_lock_updated]. *)
Record xl_pg_tde_lock := { xlk_xmax : Z; xlk_offnum : Z; xlk_infobits : Z; xlk_flags : Z }.

Inductive StoreRecord :=
| XlDelete (xid block : Z) (r : xl_pg_tde_delete) (old : option LoggedTuple)
| XlConfirm (xid block offnum : Z)
| XlStoreNewCid (r : xl_pg_tde_new_cid)
| XlLock (block : Z) (r : xl_pg_tde_lock)
| XlLockUpdated (block : Z) (r : xl_pg_tde_lock).

(** [sheld], [spins]: content locks and pins of heap pages this backend has;
    [toast_deletes]: the attribute values given to toast_delete_external. *)
Record StoreState `{MultiXacts} := {
  blocks : gmap Z HeapBlock;
  st_vm : VmState;
  st_locks : LockState;
  sheld : list Z;
  spins : list Z;
  sdirty : list Z;
  st_wal : list StoreRecord;
  toast_deletes : list (list (option (list Z)) * bool);
}.

(** What other backends do while this one waits. *)
Class Interference `{MultiXacts} := { interfere : nat -> StoreState -> StoreState }.

(** Settings of the relation and the session, and constants of the server's
    headers that only these routines need. *)
Class StoreEnv := {
  IsInParallelMode : bool;
  HEAP_HASEXTERNAL : Z;
  MovedPartitions : Z * Z;     (** the block and offset numbers of that name *)
  serialization_conflict : nat -> Z * Z -> bool;
  (** combocid.c: the command id to store, and whether it is a combo *)
  HeapTupleHeaderAdjustCmax : HeapTupleHeader -> Z -> Z * bool;
  relreplident : Z;
  REPLICA_IDENTITY_NOTHING : Z;
  REPLICA_IDENTITY_FULL : Z;
  FirstLowInvalidHeapAttributeNumber : Z;
  identity_key_attrs : list Z;   (** INDEX_ATTR_BITMAP_IDENTITY_KEY *)
  heap_deform_tuple : LoggedTuple -> list (option (list Z));
  heap_form_tuple : list (option (list Z)) -> LoggedTuple;
  toast_flatten_tuple : LoggedTuple -> LoggedTuple;
  TransactionXmin : Z;
  relfrozenxid : Z;
}.

Section store.
Context `{HH : HtupFlags} `{HW : World} `{HLF : LockFlags} `{HMX : MultiXacts}.
Context `{HP : PgBlockSize} `{HV : VmEnv} `{HIE : InsertEnv} `{HSE : StoreEnv} `{HI : !Interference}.

Local Abbreviation MS := (M StoreState).

(** ** The state *)

Definition with_blocks (b : gmap Z HeapBlock) (s : StoreState) : StoreState :=
  {| blocks := b; st_vm := st_vm s; st_locks := st_locks s; sheld := sheld s; spins := spins s;
     sdirty := sdirty s; st_wal := st_wal s; toast_deletes := toast_deletes s |}.
Definition with_svm (v : VmState) (s : StoreState) : StoreState :=
  {| blocks := blocks s; st_vm := v; st_locks := st_locks s; sheld := sheld s; spins := spins s;
     sdirty := sdirty s; st_wal := st_wal s; toast_deletes := toast_deletes s |}.
Definition with_slocks (l : LockState) (s : StoreState) : StoreState :=
  {| blocks := blocks s; st_vm := st_vm s; st_locks := l; sheld := sheld s; spins := spins s;
     sdirty := sdirty s; st_wal := st_wal s; toast_deletes := toast_deletes s |}.
Definition with_sheld (l : list Z) (s : StoreState) : StoreState :=
  {| blocks := blocks s; st_vm := st_vm s; st_locks := st_locks s; sheld := l; spins := spins s;
     sdirty := sdirty s; st_wal := st_wal s; toast_deletes := toast_deletes s |}.
Definition with_spins (l : list Z) (s : StoreState) : StoreState :=
  {| blocks := blocks s; st_vm := st_vm s; st_locks := st_locks s; sheld := sheld s; spins := l;
     sdirty := sdirty s; st_wal := st_wal s; toast_deletes := toast_deletes s |}.
Definition with_sdirty (bn : Z) (s : StoreState) : StoreState :=
  {| blocks := blocks s; st_vm := st_vm s; st_locks := st_locks s; sheld := sheld s; spins := spins s;
     sdirty := bn :: sdirty s; st_wal := st_wal s; toast_deletes := toast_deletes s |}.
Definition with_swal (r : StoreRecord) (s : StoreState) : StoreState :=
  {| blocks := blocks s; st_vm := st_vm s; st_locks := st_locks s; sheld := sheld s; spins := spins s;
     sdirty := sdirty s; st_wal := st_wal s ++ [r]; toast_deletes := toast_deletes s |}.
Definition with_toast_delete (v : list (option (list Z)) * bool) (s : StoreState) : StoreState :=
  {| blocks := blocks s; st_vm := st_vm s; st_locks := st_locks s; sheld := sheld s; spins := spins s;
     sdirty := sdirty s; st_wal := st_wal s; toast_deletes := toast_deletes s ++ [v] |}.

Definition moment (s : StoreState) : nat := lk_clock (st_locks s).
Definition with_moment (t : nat) (l : LockState) : LockState :=
  {| multis := multis l; lk_clock := t; warned := warned l; tuplocks := tuplocks l |}.

Definition on_locks {A} (m : M LockState A) : MS A := zoom st_locks with_slocks m.
Definition on_svm {A} (m : M VmState A) : MS A := zoom st_vm with_svm m.

(** ** Blocks and items *)

Definition block_at (bn : Z) : MS HeapBlock := let* s := get in defined (blocks s !! bn).
Definition set_block (bn : Z) (b : HeapBlock) : MS unit :=
  modify (fun s => with_blocks (<[bn := b]> (blocks s)) s).

Definition with_items (l : gmap Z HeapItem) (b : HeapBlock) : HeapBlock :=
  {| items := l; all_visible_flag := all_visible_flag b; prune_xid := prune_xid b; block_lsn := block_lsn b |}.
Definition with_visible_flag (v : bool) (b : HeapBlock) : HeapBlock :=
  {| items := items b; all_visible_flag := v; prune_xid := prune_xid b; block_lsn := block_lsn b |}.
Definition with_lsn (lsn : Z) (b : HeapBlock) : HeapBlock :=
  {| items := items b; all_visible_flag := all_visible_flag b; prune_xid := prune_xid b; block_lsn := lsn |}.

(** [PageSetPrunable]: the oldest hint stays. *)
Definition PageSetPrunable (xid : Z) (b : HeapBlock) : HeapBlock :=
  {| items := items b; all_visible_flag := all_visible_flag b;
     prune_xid := if negb (TransactionIdIsValid (prune_xid b)) || TransactionIdPrecedes xid (prune_xid b)
                  then xid else prune_xid b;
     block_lsn := block_lsn b |}.

Definition item (tid : Z * Z) (s : StoreState) : option HeapItem :=
  b ← blocks s !! tid.1; items b !! tid.2.

Definition item_at (tid : Z * Z) : MS HeapItem := let* s := get in defined (item tid s).
Definition set_item (tid : Z * Z) (it : HeapItem) : MS unit :=
  let* b := block_at tid.1 in set_block tid.1 (with_items (<[tid.2 := it]> (items b)) b).
Definition with_hdr (h : HeapTupleHeader) (it : HeapItem) : HeapItem :=
  {| it_hdr := h; it_infomask2 := it_infomask2 it; it_hoff := it_hoff it; it_data := it_data it |}.

Definition page_all_visible (bn : Z) : MS bool :=
  let* b := block_at bn in ret (all_visible_flag b).

(** Code on the header of an item, from this moment on. *)
Definition on_tuple {A} (tid : Z * Z) (m : M VisState A) : MS A :=
  let* it := item_at tid in
  let* s := get in
  let '(r, v) := m {| hdr := it_hdr it; clock := moment s; dirtied := false |} in
  set_item tid (with_hdr (hdr v) it);;;
  modify (fun s => with_slocks (with_moment (clock v) (st_locks s)) s);;;
  (if dirtied v then modify (with_sdirty tid.1) else ret tt);;;
  fun s => (r, s).

(** ** Buffers *)

Definition ReadHeapBuffer (bn : Z) : MS unit := modify (fun s => with_spins (bn :: spins s) s).
Definition ReleaseHeapBuffer (bn : Z) : MS unit :=
  let* l := gets spins in
  let* l := defined (remove_pin bn l) in
  modify (with_spins l).

(** Others act while the lock is waited for.  Waiting for a lock one holds
    oneself is undefined. *)
Definition LockHeapBuffer (bn : Z) : MS unit :=
  modify (fun s => interfere (moment s) s);;;
  let* l := gets sheld in
  if bool_decide (bn ∈ l) then undefined else modify (with_sheld (bn :: l)).
Definition UnlockHeapBuffer (bn : Z) : MS unit :=
  let* l := gets sheld in
  let* l := defined (remove_pin bn l) in
  modify (with_sheld l).
Definition UnlockReleaseHeapBuffer (bn : Z) : MS unit := UnlockHeapBuffer bn;;; ReleaseHeapBuffer bn.

Definition MarkHeapBufferDirty (bn : Z) : MS unit := modify (with_sdirty bn).
Definition release_map (vmbuffer : Buffer) : MS unit :=
  match vmbuffer with Some b => on_svm (ReleaseBuffer b) | None => ret tt end.

(** ** WAL *)

Definition XLogInsert_store (r : StoreRecord) : MS Z := fun s =>
  (Ret (lsn_of (length (st_wal s))), with_swal r s).
Definition PageSetLSN_store (bn lsn : Z) : MS unit :=
  let* b := block_at bn in set_block bn (with_lsn lsn b).

(** ** Header macros *)

Definition set_xmax (x : Z) (h : HeapTupleHeader) : HeapTupleHeader :=
  {| t_xmin := t_xmin h; t_xmax := x; t_field3 := t_field3 h; t_ctid := t_ctid h; t_infomask := t_infomask h |}.
Definition set_xmin (x : Z) (h : HeapTupleHeader) : HeapTupleHeader :=
  {| t_xmin := x; t_xmax := t_xmax h; t_field3 := t_field3 h; t_ctid := t_ctid h; t_infomask := t_infomask h |}.
Definition set_t_ctid (tid : Z * Z) (h : HeapTupleHeader) : HeapTupleHeader :=
  {| t_xmin := t_xmin h; t_xmax := t_xmax h; t_field3 := t_field3 h; t_ctid := tid; t_infomask := t_infomask h |}.
(** [HeapTupleHeaderSetCmax] *)
Definition SetCmax (cid : Z) (iscombo : bool) (h : HeapTupleHeader) : HeapTupleHeader :=
  {| t_xmin := t_xmin h; t_xmax := t_xmax h; t_field3 := cid; t_ctid := t_ctid h;
     t_infomask := if iscombo then Z.lor (t_infomask h) HEAP_COMBOCID else clear (t_infomask h) HEAP_COMBOCID |}.
Definition with_masks (m m2 : Z) (it : HeapItem) : HeapItem :=
  {| it_hdr := with_infomask m (it_hdr it); it_infomask2 := m2; it_hoff := it_hoff it; it_data := it_data it |}.
Definition map_hdr (f : HeapTupleHeader -> HeapTupleHeader) (it : HeapItem) : HeapItem :=
  with_hdr (f (it_hdr it)) it.

Definition HeapTupleHeaderIndicatesMovedPartitions (h : HeapTupleHeader) : bool :=
  bool_decide (t_ctid h = MovedPartitions).

(** The tuple as a record holds it. *)
Definition logged (it : HeapItem) : LoggedTuple :=
  ({| xlh_infomask2 := it_infomask2 it; xlh_infomask := t_infomask (it_hdr it); xlh_hoff := it_hoff it |},
   it_data it).
Definition has_external (t : LoggedTuple) : bool := has (xlh_infomask (fst t)) HEAP_HASEXTERNAL.
End store.
