(* ===== verification/Delete.v ===== *)
(** Deleting tuples: pg_tde_delete and what it calls in
    src/src/access/pg_tdeam.c, speculative insertions that succeed or fail,
    pg_tde_toast_delete of src/src/access/pg_tdetoast.c, and the replay of
    their records.

    A tuple that is being modified by others is waited for without the
    content lock; everything is looked at again afterwards. *)
From S2P Require Import Prelude EncTuple RelKeys TdeMap Visibility VisibilityMap LockFlags MultiXact Insert TupleStore.

(** pg_tdeam_xlog.h *)
Definition XLH_DELETE_ALL_VISIBLE_CLEARED : Z := Z.shiftl 1 0.
Definition XLH_DELETE_CONTAINS_OLD_TUPLE : Z := Z.shiftl 1 1.
Definition XLH_DELETE_CONTAINS_OLD_KEY : Z := Z.shiftl 1 2.
Definition XLH_DELETE_IS_SUPER : Z := Z.shiftl 1 3.
Definition XLH_DELETE_IS_PARTITION_MOVE : Z := Z.shiftl 1 4.

Record TM_FailureData := { tmfd_ctid : Z * Z; tmfd_xmax : Z; tmfd_cmax : Z }.

#[export] Instance LOCKMODE_eq_dec : EqDecision LOCKMODE.
Proof. solve_decision. Defined.

Section delete.
Context `{HH : HtupFlags} `{HW : World} `{HLF : LockFlags} `{HMX : MultiXacts}.
Context `{HP : PgBlockSize} `{HV : VmEnv} `{HIE : InsertEnv} `{HSE : StoreEnv} `{HI : !Interference}.
Variables (rd_locator : RelFileLocator) (relkind : Z).

Local Abbreviation MS := (M StoreState).

(** ** Hint bits after waiting *)

Definition UpdateXmaxHintBits (xid : Z) : M VisState unit :=
  let* h := header in
  let m := t_infomask h in
  if negb (has m (Z.lor HEAP_XMAX_COMMITTED HEAP_XMAX_INVALID)) then
    let* c := if negb (HEAP_XMAX_IS_LOCKED_ONLY m) then did_commit xid else ret false in
    if (c : bool) then SetHintBits HEAP_XMAX_COMMITTED xid
    else SetHintBits HEAP_XMAX_INVALID InvalidTransactionId
  else ret tt.

(** ** The tuple that is logged for logical decoding *)

(** Columns that are not of the identity become null. *)
Definition identity_only (values : list (option (list Z))) : list (option (list Z)) :=
  imap (fun i v =>
    if bool_decide (Z.of_nat i + 1 - FirstLowInvalidHeapAttributeNumber ∈ identity_key_attrs)
    then v else None) values.

(** The tuple, and whether it is a copy. *)
Definition ExtractReplicaIdentity (tp : LoggedTuple) (key_required : bool) : option LoggedTuple * bool :=
  if negb RelationIsLogicallyLogged then (None, false)
  else if relreplident =? REPLICA_IDENTITY_NOTHING then (None, false)
  else if relreplident =? REPLICA_IDENTITY_FULL then
    if has_external tp then (Some (toast_flatten_tuple tp), true) else (Some tp, false)
  else if negb key_required then (None, false)
  else match identity_key_attrs with
  | [] => (None, false)
  | _ =>
      let key_tuple := heap_form_tuple (identity_only (heap_deform_tuple tp)) in
      (Some (if has_external key_tuple then toast_flatten_tuple key_tuple else key_tuple), true)
  end.

(** ** pg_tdetoast.c *)

Definition pg_tde_toast_delete (oldtup : LoggedTuple) (is_speculative : bool) : MS unit :=
  modify (with_toast_delete (heap_deform_tuple oldtup, is_speculative)).

(** ** The page *)

Definition pin_and_lock (bn : Z) : MS Buffer :=
  ReadHeapBuffer bn;;;
  let* v := page_all_visible bn in
  let* vm := if (v : bool) then on_svm (pg_tde_visibilitymap_pin bn None) else ret None in
  LockHeapBuffer bn;;;
  ret vm.

(** At [l1]: the map page is not pinned with the lock held. *)
Definition recheck_pin (bn : Z) (vmbuffer : Buffer) : MS Buffer :=
  match vmbuffer with
  | Some _ => ret vmbuffer
  | None =>
      let* v := page_all_visible bn in
      if (v : bool) then
        UnlockHeapBuffer bn;;;
        let* vm := on_svm (pg_tde_visibilitymap_pin bn None) in
        LockHeapBuffer bn;;;
        ret vm
      else ret None
  end.

(** ** Waiting for others *)

(** Whether to start over after a wait. *)
Definition start_over (tid : Z * Z) (vmbuffer : Buffer) (xwait infomask : Z) : MS bool :=
  let* v := page_all_visible tid.1 in
  let* it := item_at tid in
  ret ((match vmbuffer with None => true | _ => false end && v)
       || xmax_infomask_changed (t_infomask (it_hdr it)) infomask
       || negb (t_xmax (it_hdr it) =? xwait)).

Definition acquire (tid : Z * Z) (have : bool) : MS bool :=
  let* r := on_locks (pg_tde_acquire_tuplock tid LockTupleExclusive LockWaitBlock have) in
  ret (snd r).

(** Whether to start over, and [have_tuple_lock]. *)
Definition wait_for_holders (tid : Z * Z) (vmbuffer : Buffer) (have : bool) : MS (bool * bool) :=
  let* it := item_at tid in
  let xwait := t_xmax (it_hdr it) in
  let infomask := t_infomask (it_hdr it) in
  if has infomask HEAP_XMAX_IS_MULTI then
    let* r := on_locks (DoesMultiXactIdConflict xwait infomask LockTupleExclusive (Some false)) in
    if (fst r : bool) then
      UnlockHeapBuffer tid.1;;;
      let* have := match snd r with Some true => ret have | _ => acquire tid have end in
      let* _ := on_locks (MultiXactIdWait xwait MultiXactStatusUpdate infomask false) in
      LockHeapBuffer tid.1;;;
      let* again := start_over tid vmbuffer xwait infomask in
      ret (again, have)
    else ret (false, have)
  else if negb (TransactionIdIsCurrentTransactionId xwait) then
    UnlockHeapBuffer tid.1;;;
    let* have := acquire tid have in
    on_locks (wait_xact xwait);;;
    LockHeapBuffer tid.1;;;
    let* again := start_over tid vmbuffer xwait infomask in
    if (again : bool) then ret (true, have)
    else on_tuple tid (UpdateXmaxHintBits xwait);;; ret (false, have)
  else ret (false, have).

Definition verdict_after_wait (tid : Z * Z) : MS TM_Result :=
  let* it := item_at tid in
  let m := t_infomask (it_hdr it) in
  let* free := if has m HEAP_XMAX_INVALID || HEAP_XMAX_IS_LOCKED_ONLY m then ret true
               else on_tuple tid HeapTupleHeaderIsOnlyLocked in
  if (free : bool) then ret TM_Ok
  else let* it := item_at tid in ret (updated_or_deleted tid (it_hdr it)).

(** From [l1] to the verdict; the pin and [have_tuple_lock]. *)
Fixpoint delete_loop (fuel : nat) (tid : Z * Z) (cid : Z) (wait : bool) (vmbuffer : Buffer)
    (have : bool) : MS (TM_Result * Buffer * bool) :=
  match fuel with
  | O => nofuel
  | S fuel =>
      let* vmbuffer := recheck_pin tid.1 vmbuffer in
      let* result := on_tuple tid (HeapTupleSatisfiesUpdate tid cid) in
      match result with
      | TM_Invisible => UnlockReleaseHeapBuffer tid.1;;; raise ERROR
      | TM_BeingModified =>
          if wait then
            let* r := wait_for_holders tid vmbuffer have in
            let '(again, have) := r in
            if (again : bool) then delete_loop fuel tid cid wait vmbuffer have
            else let* result := verdict_after_wait tid in ret (result, vmbuffer, have)
          else ret (result, vmbuffer, have)
      | _ => ret (result, vmbuffer, have)
      end
  end.

Definition check_snapshot (tid : Z * Z) (crosscheck : option Snapshot) (result : TM_Result) : MS TM_Result :=
  match crosscheck, result with
  | Some sn, TM_Ok =>
      let* v := on_tuple tid (HeapTupleSatisfiesVisibility sn) in
      ret (if (v : bool) then TM_Ok else TM_Updated)
  | _, _ => ret result
  end.

(** May the tuple be deleted? *)
Definition delete_verdict (fuel : nat) (tid : Z * Z) (cid : Z) (crosscheck : option Snapshot) (wait : bool)
    : MS (TM_Result * Buffer * bool) :=
  let* vm := pin_and_lock tid.1 in
  let* r := delete_loop fuel tid cid wait vm false in
  let '(result, vm, have) := r in
  let* result := check_snapshot tid crosscheck result in
  ret (result, vm, have).

(** ** Failure *)

Definition failure_data (result : TM_Result) (h : HeapTupleHeader) : TM_FailureData :=
  {| tmfd_ctid := t_ctid h; tmfd_xmax := HeapTupleHeaderGetUpdateXid h;
     tmfd_cmax := match result with TM_SelfModified => HeapTupleHeaderGetCmax h | _ => InvalidCommandId end |}.

Fixpoint remove_lock (l : (Z * Z) * LOCKMODE) (ls : list ((Z * Z) * LOCKMODE)) : list ((Z * Z) * LOCKMODE) :=
  match ls with
  | [] => []
  | l' :: ls => if bool_decide (l' = l) then ls else l' :: remove_lock l ls
  end.

Definition UnlockTupleTuplock (tid : Z * Z) (mode : LockTupleMode) : M LockState unit :=
  modify (fun l => {| multis := multis l; lk_clock := lk_clock l; warned := warned l;
                      tuplocks := remove_lock (tid, hwlock mode) (tuplocks l) |}).

Definition release_tuple_lock (tid : Z * Z) (have : bool) : MS unit :=
  if have then on_locks (UnlockTupleTuplock tid LockTupleExclusive) else ret tt.

Definition delete_failed (tid : Z * Z) (result : TM_Result) (vmbuffer : Buffer) (have : bool)
    : MS (TM_Result * option TM_FailureData) :=
  let* it := item_at tid in
  UnlockReleaseHeapBuffer tid.1;;;
  release_tuple_lock tid have;;;
  release_map vmbuffer;;;
  ret (result, Some (failure_data result (it_hdr it))).

(** ** Success *)

Definition check_store_conflict (tid : Z * Z) : MS unit :=
  let* t := gets moment in
  if serialization_conflict t tid then raise ERROR else ret tt.

(** The flag of the page is cleared, with the bits of the map. *)
Definition clear_page_visible (bn : Z) (vmbuffer : Buffer) : MS bool :=
  let* b := block_at bn in
  if all_visible_flag b then
    set_block bn (with_visible_flag false b);;;
    let* _ := on_svm (pg_tde_visibilitymap_clear bn vmbuffer VISIBILITYMAP_VALID_BITS) in
    ret true
  else ret false.

Definition mark_deleted (new_xmax new_infomask new_infomask2 cid : Z) (iscombo : bool) (ctid : Z * Z)
    (it : HeapItem) : HeapItem :=
  let m := Z.lor (clear (t_infomask (it_hdr it)) (Z.lor HEAP_XMAX_BITS HEAP_MOVED)) new_infomask in
  let m2 := Z.lor (clear (it_infomask2 it) HEAP_KEYS_UPDATED) new_infomask2 in
  map_hdr (fun h => set_t_ctid ctid (SetCmax cid iscombo (set_xmax new_xmax h)))
    (with_masks m (clear m2 HEAP_HOT_UPDATED) it).

(** [log_pg_tde_new_cid], for an item. *)
Definition log_store_new_cid (tid : Z * Z) (it : HeapItem) : MS Z :=
  let h := it_hdr it in
  let m := t_infomask h in
  let '(cmin, cmax, combo) :=
    if has m HEAP_COMBOCID then (HeapTupleHeaderGetCmin h, HeapTupleHeaderGetCmax h, t_field3 h)
    else if has m HEAP_XMAX_INVALID || HEAP_XMAX_IS_LOCKED_ONLY m
    then (t_field3 h, InvalidCommandId, InvalidCommandId)
    else (InvalidCommandId, t_field3 h, InvalidCommandId) in
  XLogInsert_store (XlStoreNewCid {| top_xid := GetTopTransactionId; nc_cmin := cmin; nc_cmax := cmax;
    combocid := combo; target_locator := rd_locator; target_tid := tid |}).

Definition delete_record (tid : Z * Z) (all_visible_cleared changingPart : bool) (new_xmax : Z)
    (old : option LoggedTuple) (it : HeapItem) : xl_pg_tde_delete :=
  {| xld_xmax := new_xmax; xld_offnum := tid.2;
     infobits_set := compute_infobits (t_infomask (it_hdr it)) (it_infomask2 it);
     xld_flags := Z.lor (flag_if all_visible_cleared XLH_DELETE_ALL_VISIBLE_CLEARED)
       (Z.lor (flag_if changingPart XLH_DELETE_IS_PARTITION_MOVE)
          (match old with
           | None => 0
           | Some _ => if relreplident =? REPLICA_IDENTITY_FULL then XLH_DELETE_CONTAINS_OLD_TUPLE
                       else XLH_DELETE_CONTAINS_OLD_KEY
           end)) |}.

(** A tuple to log that is no copy is the one on the page, as it is now. *)
Definition log_delete (tid : Z * Z) (all_visible_cleared changingPart : bool) (new_xmax : Z)
    (old : option LoggedTuple) (copied : bool) : MS unit :=
  let* it := item_at tid in
  (if RelationIsAccessibleInLogicalDecoding then log_store_new_cid tid it;;; ret tt else ret tt);;;
  let* recptr := XLogInsert_store (XlDelete GetCurrentTransactionId tid.1
    (delete_record tid all_visible_cleared changingPart new_xmax old it)
    (if copied then old else (fun _ => logged it) <$> old)) in
  PageSetLSN_store tid.1 recptr.

(** The critical section. *)
Definition overwrite (tid : Z * Z) (vmbuffer : Buffer) (changingPart : bool)
    (new_xmax new_infomask new_infomask2 cid : Z) (iscombo : bool) (old : option LoggedTuple * bool) : MS unit :=
  crit (
    let* b := block_at tid.1 in
    set_block tid.1 (PageSetPrunable GetCurrentTransactionId b);;;
    let* cleared := clear_page_visible tid.1 vmbuffer in
    let* it := item_at tid in
    set_item tid (mark_deleted new_xmax new_infomask new_infomask2 cid iscombo
                    (if changingPart then MovedPartitions else tid) it);;;
    MarkHeapBufferDirty tid.1;;;
    if RelationNeedsWAL then log_delete tid cleared changingPart new_xmax (fst old) (snd old) else ret tt).

(** What follows once the lock is released. *)
Definition after_delete (tid : Z * Z) (vmbuffer : Buffer) (have : bool) : MS unit :=
  release_map vmbuffer;;;
  let* it := item_at tid in
  (if negb (relkind =? RELKIND_RELATION) && negb (relkind =? RELKIND_MATVIEW) then ret tt
   else if has_external (logged it) then pg_tde_toast_delete (logged it) false else ret tt);;;
  ReleaseHeapBuffer tid.1;;;
  release_tuple_lock tid have.

Definition delete_now (tid : Z * Z) (cid : Z) (vmbuffer : Buffer) (have changingPart : bool)
    : MS (TM_Result * option TM_FailureData) :=
  check_store_conflict tid;;;
  let* it := item_at tid in
  let '(cid, iscombo) := HeapTupleHeaderAdjustCmax (it_hdr it) cid in
  let old := ExtractReplicaIdentity (logged it) true in
  let* r := on_locks (compute_new_xmax_infomask (t_xmax (it_hdr it)) (t_infomask (it_hdr it)) (it_infomask2 it)
                        GetCurrentTransactionId LockTupleExclusive true) in
  let '(new_xmax, new_infomask, new_infomask2) := r in
  overwrite tid vmbuffer changingPart new_xmax new_infomask new_infomask2 cid iscombo old;;;
  UnlockHeapBuffer tid.1;;;
  after_delete tid vmbuffer have;;;
  ret (TM_Ok, None).

(** The result, and [*tmfd] where it is filled. *)
Definition pg_tde_delete (fuel : nat) (tid : Z * Z) (cid : Z) (crosscheck : option Snapshot)
    (wait changingPart : bool) : MS (TM_Result * option TM_FailureData) :=
  if IsInParallelMode then raise ERROR else
  let* r := delete_verdict fuel tid cid crosscheck wait in
  let '(result, vm, have) := r in
  match result with
  | TM_Ok => delete_now tid cid vm have changingPart
  | _ => delete_failed tid result vm have
  end.

Definition simple_pg_tde_delete (fuel : nat) (tid : Z * Z) (cid : Z) : MS unit :=
  let* r := pg_tde_delete fuel tid cid None true false in
  match fst r with TM_Ok => ret tt | _ => raise ERROR end.

(** ** Speculative insertions *)

Definition pg_tde_finish_speculative (tid : Z * Z) : MS unit :=
  ReadHeapBuffer tid.1;;;
  LockHeapBuffer tid.1;;;
  let* s := get in
  match item tid s with
  | None => raise ERROR
  | Some it =>
      crit (
        MarkHeapBufferDirty tid.1;;;
        set_item tid (map_hdr (set_t_ctid tid) it);;;
        if RelationNeedsWAL then
          let* recptr := XLogInsert_store (XlConfirm GetCurrentTransactionId tid.1 tid.2) in
          PageSetLSN_store tid.1 recptr
        else ret tt);;;
      UnlockReleaseHeapBuffer tid.1
  end.

Definition speculative_prune_xid : Z :=
  if TransactionIdPrecedes TransactionXmin relfrozenxid then relfrozenxid else TransactionXmin.

(** The tuple of a failed speculative insertion. *)
Definition mark_aborted (tid : Z * Z) (it : HeapItem) : HeapItem :=
  map_hdr (fun h => set_t_ctid tid (set_xmin InvalidTransactionId h))
    (with_masks (clear (t_infomask (it_hdr it)) (Z.lor HEAP_XMAX_BITS HEAP_MOVED))
       (clear (it_infomask2 it) HEAP_KEYS_UPDATED) it).

Definition abort_critical (tid : Z * Z) (it : HeapItem) : MS unit :=
  crit (
    let* b := block_at tid.1 in
    set_block tid.1 (PageSetPrunable speculative_prune_xid b);;;
    let it := mark_aborted tid it in
    set_item tid it;;;
    MarkHeapBufferDirty tid.1;;;
    if RelationNeedsWAL then
      let* recptr := XLogInsert_store (XlDelete GetCurrentTransactionId tid.1
        {| xld_xmax := GetCurrentTransactionId; xld_offnum := tid.2;
           infobits_set := compute_infobits (t_infomask (it_hdr it)) (it_infomask2 it);
           xld_flags := XLH_DELETE_IS_SUPER |} None) in
      PageSetLSN_store tid.1 recptr
    else ret tt).

Definition pg_tde_abort_speculative (tid : Z * Z) : MS unit :=
  ReadHeapBuffer tid.1;;;
  LockHeapBuffer tid.1;;;
  let* it := item_at tid in
  if negb (t_xmin (it_hdr it) =? GetCurrentTransactionId) then raise ERROR
  else if negb (IsToastRelation || HeapTupleHeaderIsSpeculative (it_hdr it)) then raise ERROR
  else
    abort_critical tid it;;;
    UnlockHeapBuffer tid.1;;;
    let* it := item_at tid in
    (if has_external (logged it) then pg_tde_toast_delete (logged it) true else ret tt);;;
    ReleaseHeapBuffer tid.1.

(** ** Replay *)

Definition redo_clear_store_map (flags bn : Z) : MS unit :=
  if has flags XLH_DELETE_ALL_VISIBLE_CLEARED then
    let* vm := on_svm (pg_tde_visibilitymap_pin bn None) in
    let* _ := on_svm (pg_tde_visibilitymap_clear bn vm VISIBILITYMAP_VALID_BITS) in
    release_map vm
  else ret tt.

Definition redo_deleted (tid : Z * Z) (r : xl_pg_tde_delete) (it : HeapItem) : HeapItem :=
  let m := clear (t_infomask (it_hdr it)) (Z.lor HEAP_XMAX_BITS HEAP_MOVED) in
  let m2 := clear (clear (it_infomask2 it) HEAP_KEYS_UPDATED) HEAP_HOT_UPDATED in
  let '(m, m2) := fix_infomask_from_infobits (infobits_set r) m m2 in
  let it := with_masks m m2 it in
  let it := if negb (has (xld_flags r) XLH_DELETE_IS_SUPER)
            then map_hdr (set_xmax (xld_xmax r)) it
            else map_hdr (set_xmin InvalidTransactionId) it in
  let it := map_hdr (SetCmax FirstCommandId false) it in
  map_hdr (set_t_ctid (if has (xld_flags r) XLH_DELETE_IS_PARTITION_MOVE then MovedPartitions else tid)) it.

Definition pg_tde_xlog_delete (lsn : Z) (needs_redo : bool) (xid bn : Z) (r : xl_pg_tde_delete) : MS unit :=
  redo_clear_store_map (xld_flags r) bn;;;
  if needs_redo then
    let tid := (bn, xld_offnum r) in
    let* s := get in
    match item tid s with
    | None => raise PANIC
    | Some it =>
        set_item tid (redo_deleted tid r it);;;
        let* b := block_at bn in
        let b := PageSetPrunable xid b in
        let b := if has (xld_flags r) XLH_DELETE_ALL_VISIBLE_CLEARED then with_visible_flag false b else b in
        set_block bn (with_lsn lsn b);;;
        MarkHeapBufferDirty bn
    end
  else ret tt.

Definition pg_tde_xlog_confirm (lsn : Z) (needs_redo : bool) (bn offnum : Z) : MS unit :=
  if needs_redo then
    let tid := (bn, offnum) in
    let* s := get in
    match item tid s with
    | None => raise PANIC
    | Some it =>
        set_item tid (map_hdr (set_t_ctid tid) it);;;
        PageSetLSN_store bn lsn;;;
        MarkHeapBufferDirty bn
    end
  else ret tt.
End delete.
