(* ===== verification/DeleteFree.v ===== *)
(** When a tuple is free: nobody else holds it.  TM_Ok of
    HeapTupleSatisfiesUpdate, and the verdict after waiting, say so.  The
    routines mark a deletion as committed only on tuples that have a single
    deleter, and leave who holds the tuple alone. *)
From stdpp Require Import relations.
From S2P Require Import Prelude EncTuple Visibility VisibilityProps VisibilityHints VisibilitySpec VisibilityMap LockFlags MultiXact MultiXactProps Insert TupleStore Delete.

Section hints.
Context `{HH : HtupFlags} `{HHL : !HtupFlagsLaws} `{HW : World} `{HWL : !WorldLaws}.
Context `{HLF : LockFlags} `{HFB : !FlagBits} `{HMX : MultiXacts}.

(** A committed xmax is that of a single deleter. *)
Definition committed_fine (h : HeapTupleHeader) : Prop :=
  has (t_infomask h) HEAP_XMAX_COMMITTED = true ->
  has (t_infomask h) HEAP_XMAX_IS_MULTI = false /\ HEAP_XMAX_IS_LOCKED_ONLY (t_infomask h) = false.

Lemma committed_other h f : committed_fine h -> f ∈ hint_flags -> f <> HEAP_XMAX_COMMITTED ->
  committed_fine (hinted f h).
Proof.
  unfold committed_fine, hinted. cbn [t_infomask with_infomask]. intros H Hf Hne.
  rewrite locked_only_lor, !VisibilityProps.has_lor by (done || (unfold all_flags, hint_flags; set_solver)).
  rewrite (bool_decide_eq_false_2 _ Hne), orb_false_r. intros Hc. destruct (H Hc) as [-> ->].
  rewrite bool_decide_eq_false_2; [done|]. pose proof flags_distinct as Hd. intros ->.
  unfold all_flags in Hd. apply NoDup_app in Hd as (_ & Hd & _). apply (Hd HEAP_XMAX_IS_MULTI); [done|].
  set_solver.
Qed.

Lemma committed_set h : has (t_infomask h) HEAP_XMAX_IS_MULTI = false ->
  HEAP_XMAX_IS_LOCKED_ONLY (t_infomask h) = false -> committed_fine (hinted HEAP_XMAX_COMMITTED h).
Proof.
  unfold committed_fine, hinted. cbn [t_infomask with_infomask]. intros Hm Hl _.
  rewrite locked_only_lor by (unfold hint_flags; set_solver). split; [|done].
  rewrite flag_not_hint; [done|unfold hint_flags; set_solver|set_solver].
Qed.

Definition keeps_committed {A} (m : M VisState A) : Prop :=
  forall h t, committed_fine h -> vwp m (fun _ h' _ => committed_fine h') h t.

Lemma hint_ne : HEAP_XMIN_COMMITTED <> HEAP_XMAX_COMMITTED /\ HEAP_XMIN_INVALID <> HEAP_XMAX_COMMITTED
  /\ HEAP_XMAX_INVALID <> HEAP_XMAX_COMMITTED.
Proof.
  pose proof flags_distinct as H. unfold all_flags, hint_flags in H. cbn in H.
  rewrite !NoDup_cons in H. destruct H as (H1 & H2 & H3 & _). set_solver.
Qed.
End hints.

Ltac committed_leaf :=
  first
  [ assumption
  | apply committed_other; [assumption|unfold hint_flags; set_solver|apply hint_ne]
  | apply committed_set; assumption ].

Section routines.
Context `{HH : HtupFlags} `{HHL : !HtupFlagsLaws} `{HW : World} `{HWL : !WorldLaws}.
Context `{HLF : LockFlags} `{HFB : !FlagBits} `{HMX : MultiXacts}.

Lemma keeps_committed_or_else {R} (m : M VisState (option R)) k :
  keeps_committed m -> keeps_committed k -> keeps_committed (or_else m k).
Proof.
  intros Hm Hk h t Hc. apply vwp_or_else. eapply vwp_mono; [by apply Hm|].
  intros [r|] h1 t1 H1; [done|by apply Hk].
Qed.

Lemma keeps_committed_then {A B} (m : M VisState A) (k : A -> M VisState B) :
  keeps_committed m -> (forall a, exists b, k a = ret b) -> keeps_committed (bind m k).
Proof.
  intros Hm Hk h t Hc. apply vwp_bind. eapply vwp_mono; [by apply Hm|].
  intros a h1 t1 H1. destruct (Hk a) as [b ->]. by apply vwp_ret.
Qed.

Ltac routine := intros h t Hc;
  unfold Self_own, Update_own, Update_own_locked, Update_multi, MVCC_own, moved_off, moved_in, xmin_outcome, in_snapshot;
  vis; unfold Self_own, Update_own, Update_own_locked, Update_multi, MVCC_own, moved_off, moved_in, xmin_outcome, in_snapshot;
  vis; repeat (case_match; vis); committed_leaf.

Lemma Update_xmin_committed c : keeps_committed (Update_xmin c).
Proof. unfold Update_xmin. routine. Qed.

Lemma update_committed ts c : keeps_committed (HeapTupleSatisfiesUpdate ts c).
Proof. apply keeps_committed_or_else; [apply Update_xmin_committed|unfold Update_xmax; routine]. Qed.

Lemma only_locked_committed : keeps_committed HeapTupleHeaderIsOnlyLocked.
Proof. unfold HeapTupleHeaderIsOnlyLocked. routine. Qed.

Lemma visibility_committed sn : keeps_committed (HeapTupleSatisfiesVisibility sn).
Proof.
  unfold HeapTupleSatisfiesVisibility. destruct (snapshot_type sn).
  - apply keeps_committed_or_else; [unfold MVCC_xmin|unfold MVCC_xmax, own_delete_visible]; routine.
  - apply keeps_committed_or_else; [unfold Self_xmin|unfold Self_xmax]; routine.
  - unfold HeapTupleSatisfiesAny. routine.
  - intros h t Hc. apply vwp_bind, vwp_header, vwp_or_else. revert h t Hc. routine.
  - apply keeps_committed_then; [|by eexists].
    apply keeps_committed_or_else; [unfold Dirty_xmin|unfold Dirty_xmax]; routine.
  - apply keeps_committed_or_else; [unfold Historic_xmin|unfold Historic_xmax]; routine.
  - apply keeps_committed_then; [|intros [r x]; by eexists].
    apply keeps_committed_or_else;
    [unfold Vacuum_xmin, Vacuum_moved_off, Vacuum_moved_in, Vacuum_own, HeapTupleHeaderIsOnlyLocked
      |unfold Vacuum_xmax, Vacuum_locked, Vacuum_multi]; routine.
Qed.
End routines.

Section free.
Context `{HH : HtupFlags} `{HHL : !HtupFlagsLaws} `{HW : World} `{HWL : !WorldLaws}.
Context `{HLF : LockFlags} `{HFB : !FlagBits} `{HMX : MultiXacts} `{HML : !MultiXactsLaws}.

Local Abbreviation members_of st xmax := (default [] (GetMultiXactIdMembers st xmax false)).

(** What is true of the header of every tuple, whoever looks at it. *)
Record header_fine (st : mxstore) (t : nat) (h : HeapTupleHeader) : Prop := {
  hf_hints : hints_ok h t;
  hf_tuple : tuple_ok h t;
  hf_committed : committed_fine h;
  hf_members b mem : has (t_infomask h) HEAP_XMAX_IS_MULTI = true -> HEAP_LOCKED_UPGRADED (t_infomask h) = false ->
    mem ∈ default [] (GetMultiXactIdMembers st (t_xmax h) b) -> ISUPDATE_from_mxstatus (status mem) = true ->
    HEAP_XMAX_IS_LOCKED_ONLY (t_infomask h) = false
    /\ xid mem = updater_of (members_of st (t_xmax h));
  hf_issued : has (t_infomask h) HEAP_XMAX_IS_MULTI = true -> HEAP_LOCKED_UPGRADED (t_infomask h) = false ->
    issued st (t_xmax h);
  hf_invalid : t_xmax h = InvalidTransactionId -> has (t_infomask h) HEAP_XMAX_INVALID = true;
}.

(** Hints do not touch the lock bits. *)
Definition same_locks (m m' : Z) : Prop :=
  HEAP_LOCKED_UPGRADED m' = HEAP_LOCKED_UPGRADED m
  /\ HEAP_XMAX_IS_KEYSHR_LOCKED m' = HEAP_XMAX_IS_KEYSHR_LOCKED m
  /\ HEAP_XMAX_IS_SHR_LOCKED m' = HEAP_XMAX_IS_SHR_LOCKED m
  /\ HEAP_XMAX_IS_EXCL_LOCKED m' = HEAP_XMAX_IS_EXCL_LOCKED m.

Lemma hint_locks m f : f ∈ hint_flags -> same_locks m (Z.lor m f).
Proof.
  intros Hf. unfold hint_flags in Hf. set_unfold in Hf. unfold same_locks. destruct_or! Hf; subst f; flags; done.
Qed.

Lemma same_tuple_locks h h' : same_tuple h h' -> same_locks (t_infomask h) (t_infomask h')
  /\ (has (t_infomask h) HEAP_XMAX_INVALID = true -> has (t_infomask h') HEAP_XMAX_INVALID = true).
Proof.
  induction 1 as [h|h h1 h2 (f & Hf & ->) _ [(I1 & I2 & I3 & I4) I5]]; [done|].
  destruct (hint_locks (t_infomask h) f Hf) as (E1 & E2 & E3 & E4).
  unfold same_locks. rewrite I1, I2, I3, I4. cbn [hinted with_infomask t_infomask] in *. split; [done|].
  intros Hi. apply I5. by rewrite has_lor, Hi.
Qed.

(** What the masks tell of the holders without asking, and where a row's
    successor can be; our own rows were not locked before an upgrade. *)
Record masks_fine (st : mxstore) (h : HeapTupleHeader) (m2 : Z) : Prop := {
  mk_keys mem : has (t_infomask h) HEAP_XMAX_INVALID = false -> has (t_infomask h) HEAP_XMAX_IS_MULTI = true ->
    HEAP_LOCKED_UPGRADED (t_infomask h) = false -> has m2 HEAP_KEYS_UPDATED = false ->
    mem ∈ members_of st (t_xmax h) -> locks_keys (status mem) = false;
  mk_excl mem : has (t_infomask h) HEAP_XMAX_INVALID = false -> has (t_infomask h) HEAP_XMAX_IS_MULTI = true ->
    HEAP_LOCKED_UPGRADED (t_infomask h) = false -> HEAP_XMAX_IS_EXCL_LOCKED (t_infomask h) = false ->
    mem ∈ members_of st (t_xmax h) -> mode_rank (TUPLOCK_from_mxstatus (status mem)) <= 1;
  mk_single : has (t_infomask h) HEAP_XMAX_INVALID = false -> has (t_infomask h) HEAP_XMAX_IS_MULTI = false ->
    HEAP_XMAX_IS_KEYSHR_LOCKED (t_infomask h) = true -> HEAP_XMAX_IS_LOCKED_ONLY (t_infomask h) = true;
  mk_own : has (t_infomask h) HEAP_XMAX_INVALID = false -> has (t_infomask h) HEAP_XMAX_IS_MULTI = false ->
    HEAP_XMAX_IS_LOCKED_ONLY (t_infomask h) = true -> TransactionIdIsCurrentTransactionId (t_xmax h) = true ->
    old_status (t_infomask h) m2 <> None;
  mk_ctid : 0 <= (t_ctid h).1 < 2 ^ 32;
  mk_upgraded : HEAP_LOCKED_UPGRADED (t_infomask h) = true -> TransactionIdIsCurrentTransactionId (t_xmin h) = false;
}.

Lemma masks_same st h h' m2 : same_tuple h h' -> masks_fine st h m2 -> masks_fine st h' m2.
Proof.
  intros Hs [H1 H2 H3 H4 H5 H6]. pose proof (same_tuple_facts _ _ Hs) as (E1 & E2 & E3 & E4 & E5 & _).
  destruct (same_tuple_locks _ _ Hs) as [(F1 & F2 & F3 & F4) F5].
  assert (Hi : has (t_infomask h') HEAP_XMAX_INVALID = false -> has (t_infomask h) HEAP_XMAX_INVALID = false).
  { intros Hi. destruct (has (t_infomask h) HEAP_XMAX_INVALID); [|done]. by rewrite F5 in Hi. }
  split; unfold old_status; rewrite ?E1, ?E2, ?E3, ?E4, ?E5, ?F1, ?F2, ?F3, ?F4; eauto.
Qed.

Lemma upgraded_locked_only m : HEAP_LOCKED_UPGRADED m = true -> HEAP_XMAX_IS_LOCKED_ONLY m = true.
Proof. flag_names. by intros [[[_ ->]%andb_true_iff _]%andb_true_iff _]%andb_true_iff. Qed.

Lemma not_upgraded m : HEAP_XMAX_IS_LOCKED_ONLY m = false -> HEAP_LOCKED_UPGRADED m = false.
Proof. intros Hl. apply not_true_iff_false. intros Hu%upgraded_locked_only. congruence. Qed.

Lemma hf_updater st t h : header_fine st t h -> has (t_infomask h) HEAP_XMAX_IS_MULTI = true ->
  HEAP_LOCKED_UPGRADED (t_infomask h) = false -> HeapTupleGetUpdateXid h = updater_of (members_of st (t_xmax h)).
Proof. intros Hf Hm Hu. rewrite (update_xid_members st) by (by apply (hf_issued _ _ _ Hf) || done). done. Qed.

Lemma fine_xmax_ok st t h : header_fine st t h -> xmax_ok st (t_xmax h) (t_infomask h).
Proof. intros [_ _ Hc Hm _ _]. split; [|exact Hm]. intros H _. by apply Hc. Qed.

Lemma fine_later st t t' h : (t <= t')%nat -> header_fine st t h -> header_fine st t' h.
Proof. intros Ht [? ? ? ? ? ?]. split; try done; [by eapply hints_ok_later|by eapply tuple_ok_later]. Qed.

Lemma fine_evolves st t h t' h' :
  header_fine st t h -> evolves h t h' t' -> committed_fine h' -> header_fine st t' h'.
Proof.
  intros [H1 H2 H3 H4 H5 H6] He Hc. pose proof (evolves_tuple_ok _ _ _ _ He H2) as Ht.
  destruct He as (Hle & Hs & Hf & Hh). pose proof Hs as (E1 & E2 & E3 & E4 & E5 & _ & _ & _ & _ & _ & E11)%same_tuple_facts.
  destruct (same_tuple_locks _ _ Hs) as [(E6 & _) E7].
  split; rewrite ?E2, ?E4, ?E5, ?E6; try done. intros Hx. by apply E7, H6.
Qed.

(** A hint leaves the holders alone, or says that there are none. *)
Lemma holders_hint st x m m2 f mem : f ∈ hint_flags ->
  mem ∈ holders st x (Z.lor m f) m2 -> mem ∈ holders st x m m2.
Proof.
  intros Hf. assert (Hi : has (Z.lor m f) HEAP_XMAX_INVALID = false -> has m HEAP_XMAX_INVALID = false).
  { rewrite has_lor. by intros [-> _]%orb_false_iff. }
  assert (Hl : HEAP_XMAX_IS_LOCKED_ONLY (Z.lor m f) = HEAP_XMAX_IS_LOCKED_ONLY m) by (by apply locked_only_lor).
  assert (Hm : has (Z.lor m f) HEAP_XMAX_IS_MULTI = has m HEAP_XMAX_IS_MULTI) by (apply flag_not_hint; [done|set_solver]).
  destruct (hint_locks m f Hf) as (Hu & Hk & Hs & He). unfold holders, old_status. rewrite Hl, Hm, Hu, Hk, Hs, He.
  destruct (has (Z.lor m f) HEAP_XMAX_INVALID); [by intros ?%elem_of_nil|]. by rewrite Hi.
Qed.

Lemma holders_same st h h' m2 mem : same_tuple h h' ->
  mem ∈ holders st (t_xmax h') (t_infomask h') m2 -> mem ∈ holders st (t_xmax h) (t_infomask h) m2.
Proof.
  induction 1 as [h|h h1 h2 (f & Hf & ->) _ IH]; [done|]. intros H. by apply (holders_hint _ _ _ _ f), IH.
Qed.

(** Nobody but ourselves holds the tuple. *)
Definition free (st : mxstore) (t : nat) (h : HeapTupleHeader) (m2 : Z) : Prop :=
  forall mem, mem ∈ holders st (t_xmax h) (t_infomask h) m2 ->
    TransactionIdIsCurrentTransactionId (xid mem) = true \/ ~ counts t mem.

Lemma free_later st t t' h m2 : (t <= t')%nat -> free st t h m2 -> free st t' h m2.
Proof.
  intros Ht Hf mem Hm. destruct (Hf mem Hm) as [?|Hn]; [by left|right].
  intros Hc. apply Hn. by eapply counts_earlier.
Qed.

Lemma free_invalid st t h m2 : has (t_infomask h) HEAP_XMAX_INVALID = true -> free st t h m2.
Proof. intros Hi mem. unfold holders. rewrite Hi. by intros ?%elem_of_nil. Qed.

Lemma free_upgraded st t h m2 : HEAP_LOCKED_UPGRADED (t_infomask h) = true -> free st t h m2.
Proof.
  intros Hu mem. unfold holders. assert (Hm : has (t_infomask h) HEAP_XMAX_IS_MULTI = true).
  { revert Hu. flag_names. by intros [[[Hm _]%andb_true_iff _]%andb_true_iff _]%andb_true_iff. }
  rewrite Hm, Hu. destruct (has _ HEAP_XMAX_INVALID); by intros ?%elem_of_nil.
Qed.

Lemma single_holder st h m2 mem : has (t_infomask h) HEAP_XMAX_IS_MULTI = false ->
  mem ∈ holders st (t_xmax h) (t_infomask h) m2 ->
  xid mem = t_xmax h /\ (HEAP_XMAX_IS_LOCKED_ONLY (t_infomask h) = true -> ISUPDATE_from_mxstatus (status mem) = false).
Proof.
  intros Hm. unfold holders. rewrite Hm. destruct (has _ HEAP_XMAX_INVALID); [by intros ?%elem_of_nil|].
  destruct (old_status _ _) as [s|] eqn:E; [|by intros ?%elem_of_nil].
  intros ->%list_elem_of_singleton. split; [done|]. intros Hl. by eapply single_mode.
Qed.

Lemma free_single_own st t h m2 : has (t_infomask h) HEAP_XMAX_IS_MULTI = false ->
  TransactionIdIsCurrentTransactionId (t_xmax h) = true -> free st t h m2.
Proof. intros Hm Hc mem Hin. left. by rewrite (proj1 (single_holder _ _ _ _ Hm Hin)). Qed.

Lemma free_single_over st t1 t h m2 : has (t_infomask h) HEAP_XMAX_IS_MULTI = false ->
  TransactionIdIsInProgress t1 (t_xmax h) = false -> (t1 <= t)%nat ->
  HEAP_XMAX_IS_LOCKED_ONLY (t_infomask h) = true
  \/ (exists t2, (t1 <= t2 <= t)%nat /\ TransactionIdDidCommit t2 (t_xmax h) = false) -> free st t h m2.
Proof.
  intros Hm Hp Ht Ho mem Hin. right. destruct (single_holder _ _ _ _ Hm Hin) as [Hx Hu].
  destruct Ho as [Hl|(t2 & Ht2 & Hc)].
  - eapply (counts_not t1); [done|by rewrite Hx|left; auto].
  - eapply (counts_not t2); [lia| |right; by rewrite Hx]. rewrite Hx. eapply (finished_stable t1); [lia|done].
Qed.

(** Members of a multixact are over, and so is its updater. *)
Lemma free_multi_over st t0 t h m2 : header_fine st t0 h -> has (t_infomask h) HEAP_XMAX_IS_MULTI = true ->
  (forall mem, mem ∈ default [] (GetMultiXactIdMembers st (t_xmax h) (HEAP_XMAX_IS_LOCKED_ONLY (t_infomask h))) ->
     TransactionIdIsCurrentTransactionId (xid mem) = true
     \/ ISUPDATE_from_mxstatus (status mem) = true
     \/ TransactionIdIsInProgress t (xid mem) = false) ->
  HEAP_XMAX_IS_LOCKED_ONLY (t_infomask h) = true
  \/ dead_xact t (HeapTupleGetUpdateXid h) -> free st t h m2.
Proof.
  intros Hf Hm Hall Ho mem. unfold holders. rewrite Hm. destruct (has _ HEAP_XMAX_INVALID); [by intros ?%elem_of_nil|].
  destruct (HEAP_LOCKED_UPGRADED _) eqn:Hup; [by intros ?%elem_of_nil|]. intros Hin.
  destruct (ISUPDATE_from_mxstatus (status mem)) eqn:Eu.
  - destruct (hf_members _ _ _ Hf _ _ Hm Hup Hin Eu) as [Hl Hx]. destruct Ho as [?|[Hp Hc]]; [congruence|].
    rewrite (hf_updater _ _ _ Hf Hm Hup), <- Hx in Hp, Hc. right.
    apply (counts_not t); [done|done|by right].
  - destruct (Hall mem Hin) as [?|[?|Hp]]; [by left|congruence|]. right.
    apply (counts_not t); [done|done|by left].
Qed.

Lemma not_running st t1 t h b b' mem : MultiXactIdIsRunning t1 (t_xmax h) b = false -> (t1 <= t)%nat ->
  mem ∈ default [] (GetMultiXactIdMembers st (t_xmax h) b') -> TransactionIdIsInProgress t (xid mem) = false.
Proof.
  intros Hr Ht Hin. eapply (finished_stable t1); [done|]. by eapply running_members.
Qed.

Lemma free_multi_stopped st t0 t1 t b h m2 : header_fine st t0 h -> has (t_infomask h) HEAP_XMAX_IS_MULTI = true ->
  MultiXactIdIsRunning t1 (t_xmax h) b = false -> (t1 <= t)%nat ->
  HEAP_XMAX_IS_LOCKED_ONLY (t_infomask h) = true
  \/ (exists t2, (t1 <= t2 <= t)%nat /\ TransactionIdDidCommit t2 (HeapTupleGetUpdateXid h) = false)
  \/ dead_xact t (HeapTupleGetUpdateXid h) -> free st t h m2.
Proof.
  intros Hf Hm Hr Ht Ho. eapply free_multi_over; [done|done| |].
  - intros mem Hin. right. right. by eapply not_running.
  - destruct (HEAP_XMAX_IS_LOCKED_ONLY (t_infomask h)) eqn:El; [by left|right].
    destruct Ho as [?|[(t2 & Ht2 & Hc)|?]]; [done| |done].
    assert (Hp : TransactionIdIsInProgress t1 (HeapTupleGetUpdateXid h) = false).
    { rewrite (hf_updater _ _ _ Hf Hm (not_upgraded _ El)). unfold updater_of.
      destruct (find _ _) as [mem|] eqn:E; [|apply not_true_iff_false; by intros ?%running_valid].
      apply find_some in E as [Hin _]. apply list_elem_of_In in Hin. by eapply not_running. }
    split; [by eapply (finished_stable t1)|]. eapply (outcome_final t2); [lia| |done].
    eapply (finished_stable t1); [lia|done].
Qed.
End free.

(** A leaf with the verdict TM_Ok. *)
Ltac free_leaf :=
  lazymatch goal with
  | |- _ = TM_Ok -> _ => repeat case_match; first [by intros [=] | intros _; free_leaf]
  | _ =>
  first
  [ apply free_invalid; assumption
  | apply free_upgraded; assumption
  | apply free_single_own; assumption
  | eapply free_single_over; [assumption|eassumption|lia|left; assumption]
  | eapply free_single_over; [assumption|eassumption|lia|right; eexists; split; [|eassumption]; lia]
  | eapply free_multi_stopped; [eassumption|assumption|eassumption|lia|left; assumption]
  | match goal with
    | E : MultiXactIdIsRunning _ _ _ = false, F : TransactionIdDidCommit ?u _ = false |- _ =>
        eapply free_multi_stopped; [eassumption|assumption|exact E|lia
          |right; left; exists u; split; [lia|exact F]]
    end ]
  end.

Section update.
Context `{HH : HtupFlags} `{HHL : !HtupFlagsLaws} `{HW : World} `{HWL : !WorldLaws}.
Context `{HLF : LockFlags} `{HFB : !FlagBits} `{HMX : MultiXacts} `{HML : !MultiXactsLaws}.

Lemma Update_own_free c st h t m2 : header_fine st t h ->
  TransactionIdIsCurrentTransactionId (t_xmin h) = true ->
  vwp (Update_own c) (fun r _ t' => r = TM_Ok -> free st t' h m2) h t.
Proof.
  intros Hf Hc. pose proof (hf_tuple _ _ _ Hf) as (_ & _ & Ho). specialize (Ho Hc).
  assert (Hsingle : forall t', (t <= t')%nat -> has (t_infomask h) HEAP_XMAX_IS_MULTI = false ->
    HEAP_XMAX_IS_LOCKED_ONLY (t_infomask h) = false -> TransactionIdIsCurrentTransactionId (t_xmax h) = false ->
    free st t' h m2).
  { intros t' Ht Hm Hl Hx. unfold deleter in Ho. rewrite Hm in Ho. destruct (Ho Hl Hx) as [Hp Hd].
    eapply free_single_over; [done|exact Hp|done|right]. by exists t. }
  unfold Update_own, Update_own_locked, self_modified. vis; try free_leaf; try (intros _; by apply Hsingle).
  - destruct (TransactionIdIsInProgress t (t_xmax h)) eqn:Ep; [done|]. free_leaf.
  - destruct (MultiXactIdIsRunning t (t_xmax h) false) eqn:Er; [done|]. intros _.
    eapply free_multi_stopped; [done..|lia|right; right].
    unfold deleter in Ho. rewrite Heqb2 in Ho. eapply (dead_xact_later t); [lia|by apply Ho].
Qed.

Lemma Update_xmax_free ts c st h t m2 : header_fine st t h ->
  vwp (Update_xmax ts c) (fun r _ t' => r = TM_Ok -> free st t' h m2) h t.
Proof.
  intros Hf. unfold Update_xmax, Update_multi, updated_or_deleted, self_modified. vis; try free_leaf.
  - destruct (hf_committed _ _ _ Hf Heqb0) as [_ ->]. by case_bool_decide.
Qed.

Lemma free_same st t h h' m2 : same_tuple h h' -> free st t h m2 -> free st t h' m2.
Proof. intros Hs Hf mem Hin. by eapply Hf, holders_same. Qed.

Lemma Update_xmin_free c st h t m2 : header_fine st t h ->
  vwp (Update_xmin c) (fun r _ t' => r = Some TM_Ok -> free st t' h m2) h t.
Proof.
  intros Hf. unfold Update_xmin, xmin_outcome. apply vwp_bind, vwp_header. pose proof (hf_tuple _ _ _ Hf) as Htok.
  not_moved Htok. vis; try (by intros [=]).
  eapply vwp_mono; [by apply Update_own_free|]. intros r h' t' Hr. apply vwp_ret. by intros [= ->]; apply Hr.
Qed.

Lemma HeapTupleSatisfiesUpdate_free ts c st h t m2 : header_fine st t h ->
  vwp (HeapTupleSatisfiesUpdate ts c)
    (fun r h' t' => header_fine st t' h' /\ evolves h t h' t' /\ (r = TM_Ok -> free st t' h' m2)) h t.
Proof.
  intros Hf. eapply vwp_mono.
  { apply vwp_and; [apply vwp_and|].
    - apply keeps_or_else; [apply keeps_Update_xmin|apply keeps_Update_xmax|apply Hf|apply Hf].
    - apply update_committed, Hf.
    - apply vwp_or_else. eapply vwp_mono.
      { apply vwp_and; [apply vwp_and|].
        + apply keeps_Update_xmin; apply Hf.
        + apply (Update_xmin_committed c), Hf.
        + by apply (Update_xmin_free c st _ _ m2). }
      intros r h1 t1 [[He Hc] H1].
      instantiate (1 := fun r h' t' => r = TM_Ok -> free st t' h' m2).
      destruct r as [r|]; [intros ->; eapply free_same; [apply He|by apply H1]|].
      assert (Hf1 : header_fine st t1 h1) by (by eapply fine_evolves).
      eapply vwp_mono; [apply vwp_and; [apply (Update_xmax_free ts c st h1 t1 m2 Hf1)|apply keeps_Update_xmax; apply Hf1]|].
      intros r h2 t2 [H2 He2] Hr. eapply free_same; [apply He2|by apply H2]. }
  intros r h' t' [[He Hc] Hfree]. split; [by eapply fine_evolves|]. by split.
Qed.

(** ** After waiting *)

(** What the wait has shown of those who held the tuple. *)
Definition waited (st : mxstore) (t : nat) (h : HeapTupleHeader) : Prop :=
  if has (t_infomask h) HEAP_XMAX_IS_MULTI then
    HEAP_LOCKED_UPGRADED (t_infomask h) = true
    \/ forall mem, mem ∈ default [] (GetMultiXactIdMembers st (t_xmax h) (HEAP_XMAX_IS_LOCKED_ONLY (t_infomask h))) ->
       TransactionIdIsCurrentTransactionId (xid mem) = true
       \/ ISUPDATE_from_mxstatus (status mem) = true
       \/ TransactionIdIsInProgress t (xid mem) = false
  else TransactionIdIsCurrentTransactionId (t_xmax h) = true
       \/ TransactionIdIsInProgress t (t_xmax h) = false.

Lemma waited_free st t h m2 : header_fine st t h -> waited st t h -> no_deleter h t -> free st t h m2.
Proof.
  intros Hf. unfold waited, no_deleter, deleter. destruct (has (t_infomask h) HEAP_XMAX_IS_MULTI) eqn:Hm.
  - intros [Hu|Hw] Ho; [by apply free_upgraded|]. eapply free_multi_over; [done..|]. tauto.
  - intros Hw Ho. destruct Hw as [Hw|Hw]; [by apply free_single_own|]. eapply free_single_over; [done|exact Hw|done|].
    destruct Ho as [?|[_ Hc]]; [by left|right; by exists t].
Qed.

Lemma waited_later st t t' h : (t <= t')%nat -> waited st t h -> waited st t' h.
Proof.
  intros Ht. unfold waited. case_match.
  - intros [?|Hw]; [by left|right]. intros mem Hin. destruct (Hw mem Hin) as [?|[?|?]]; [auto|auto|].
    right. right. by eapply finished_stable.
  - intros [?|?]; [by left|right]. by eapply finished_stable.
Qed.

Lemma IsOnlyLocked_rule st h t : header_fine st t h ->
  vwp HeapTupleHeaderIsOnlyLocked
    (fun r h' t' => header_fine st t' h' /\ evolves h t h' t' /\ (r = true -> no_deleter h' t')) h t.
Proof.
  intros Hf. pose proof (hf_hints _ _ _ Hf) as Hh. unfold HeapTupleHeaderIsOnlyLocked. vis.
  all: split_and!; [eapply fine_later; [|done]; lia|by apply evolves_stay; [|lia]|].
  all: try (by intros [=]). all: intros Hr.
  - by apply hinted_invalid.
  - left. by apply lock_only_locked.
  - right. unfold deleter. rewrite Heqb2. apply negb_true_iff in Hr. apply (dead_xact_later (S t)); [lia|].
    by apply asked_dead.
  - assert (Hx : t_xmax h = InvalidTransactionId).
    { unfold TransactionIdIsValid in *. by destruct (Z.eqb_spec (t_xmax h) InvalidTransactionId). }
    by rewrite (hf_invalid _ _ _ Hf Hx) in Heqb.
Qed.

(** Hints do not change what was waited for. *)
Lemma waited_hint st t h f : f ∈ hint_flags -> waited st t h -> waited st t (hinted f h).
Proof.
  intros Hf. unfold waited, hinted. cbn [t_infomask t_xmax with_infomask].
  rewrite locked_only_lor, (flag_not_hint f) by (done || set_solver).
  replace (HEAP_LOCKED_UPGRADED (Z.lor (t_infomask h) f)) with (HEAP_LOCKED_UPGRADED (t_infomask h)); [done|].
  unfold hint_flags in Hf. set_unfold in Hf. destruct_or! Hf; subst f; flags; done.
Qed.

Lemma waited_same st t h h' : same_tuple h h' -> waited st t h -> waited st t h'.
Proof. induction 1 as [h|h h1 h2 (f & Hf & ->) _ IH]; [done|]. intros Hw. by apply IH, waited_hint. Qed.

(** The bits that tell whether xmax has changed. *)
Lemma unchanged_bits n m : xmax_infomask_changed n m = false ->
  has n HEAP_XMAX_IS_MULTI = has m HEAP_XMAX_IS_MULTI
  /\ HEAP_XMAX_IS_LOCKED_ONLY n = HEAP_XMAX_IS_LOCKED_ONLY m
  /\ HEAP_LOCKED_UPGRADED n = HEAP_LOCKED_UPGRADED m
  /\ HEAP_XMAX_IS_KEYSHR_LOCKED n = HEAP_XMAX_IS_KEYSHR_LOCKED m.
Proof.
  unfold xmax_infomask_changed. intros E%negb_false_iff%Z.eqb_eq.
  assert (Hb : forall x, has (Z.lor HEAP_XMAX_IS_MULTI (Z.lor HEAP_XMAX_LOCK_ONLY HEAP_LOCK_MASK)) (2 ^ bit_of x) = true ->
    has n (2 ^ bit_of x) = has m (2 ^ bit_of x)).
  { intros x. pose proof (bit_range x) as [Hx _]. rewrite !has_pow2 by done. intros Hi.
    apply (f_equal (fun z => Z.testbit z (bit_of x))) in E. rewrite !Z.land_spec, Hi, !andb_true_r in E. done. }
  flag_names. rewrite (Hb f_multi), (Hb f_lock_only), (Hb f_excl), (Hb f_keyshr) by (by flags). done.
Qed.

Lemma waited_transfer st st' t0 t t' h h' : header_fine st t0 h -> grows st st' -> (t <= t')%nat ->
  t_xmax h' = t_xmax h -> xmax_infomask_changed (t_infomask h') (t_infomask h) = false ->
  waited st t h -> waited st' t' h'.
Proof.
  intros Hf Hg Ht Hx Hc Hw. apply (waited_later _ _ _ _ Ht) in Hw. unfold waited in *.
  destruct (unchanged_bits _ _ Hc) as (-> & -> & -> & _). rewrite Hx. case_match eqn:Hm; [|done].
  destruct Hw as [?|Hw]; [by left|]. destruct (HEAP_LOCKED_UPGRADED (t_infomask h)) eqn:Hu; [by left|right].
  destruct (Hg _ (hf_issued _ _ _ Hf Hm Hu)) as [_ ->]. done.
Qed.

Lemma has_either m f g : has m (Z.lor f g) = has m f || has m g.
Proof. unfold has. by rewrite !(Z.land_comm m), <- !(eq_refl : has _ m = negb _), has_lor. Qed.

Lemma UpdateXmaxHintBits_rule st h t : header_fine st t h -> has (t_infomask h) HEAP_XMAX_IS_MULTI = false ->
  TransactionIdIsInProgress t (t_xmax h) = false ->
  vwp (UpdateXmaxHintBits (t_xmax h)) (fun _ h' t' => header_fine st t' h' /\ evolves h t h' t') h t.
Proof.
  intros Hf Hm Hp. pose proof (hf_hints _ _ _ Hf) as Hh. pose proof (hf_committed _ _ _ Hf) as Hcf.
  eapply (vwp_mono _ (fun _ h' t' => evolves h t h' t' /\ committed_fine h')).
  { unfold UpdateXmaxHintBits. vis;
      try match goal with H : has _ (Z.lor _ _) = false |- _ =>
            rewrite has_either in H; apply orb_false_iff in H as [? ?] end;
      (split; [hint_leaf|committed_leaf]). }
  intros r h' t' [He Hc]. split; [by eapply fine_evolves|done].
Qed.
End update.
