(* ===== verification/DeleteProps.v ===== *)
(** Deleting: what other backends may do meanwhile, the state between the
    steps, a rule for each step up to the verdict, and what holds between
    the steps while other backends act. *)
From stdpp Require Import relations.
From S2P Require Import Prelude EncTuple Visibility VisibilityProps VisibilityHints VisibilitySpec VisibilityMap VisibilityMapProps VisibilityMapOps LockFlags MultiXact MultiXactProps Insert TupleStore Delete DeleteFree.

(** ** What code on locks leaves alone *)

Section steady.
Context `{HH : HtupFlags} `{HHL : !HtupFlagsLaws} `{HW : World} `{HWL : !WorldLaws}.
Context `{HLF : LockFlags} `{HFB : !FlagBits} `{HMX : MultiXacts} `{HML : !MultiXactsLaws}.

Definition always {A} (R : LockState -> LockState -> Prop) (m : M LockState A) : Prop :=
  forall s, R s (snd (m s)).

(** Time passes; [store]: no multixact is made. *)
Definition passes (store : bool) (s s' : LockState) : Prop :=
  tuplocks s' = tuplocks s /\ (lk_clock s <= lk_clock s')%nat /\ (store = true -> multis s' = multis s).

#[export] Instance passes_preorder store : PreOrder (passes store).
Proof.
  split; [done|]. intros s1 s2 s3 (A1 & A2 & A3) (B1 & B2 & B3).
  split; [congruence|]. split; [lia|]. intros E. by rewrite B3, A3.
Qed.

Lemma always_bind {A B} R `{!PreOrder R} (m : M LockState A) (k : A -> M LockState B) :
  always R m -> (forall a, always R (k a)) -> always R (bind m k).
Proof.
  intros Hm Hk s. unfold bind. specialize (Hm s). destruct (m s) as [[a|l| |] s']; try done.
  etransitivity; [exact Hm|apply Hk].
Qed.

Lemma always_here {A} R `{!PreOrder R} (m : M LockState A) : (forall s, snd (m s) = s) -> always R m.
Proof. intros H s. by rewrite H. Qed.

Lemma always_ask {A} store (q : nat -> A) : always (passes store) (lk_ask q).
Proof. intros s. split; [done|]. cbn. split; [lia|done]. Qed.

Lemma always_create f : always (passes false) (lk_create f).
Proof. intros s. unfold lk_create. destruct (f _ _) as [x st]. split; [done|]. cbn. split; [lia|done]. Qed.

Lemma always_warning store x : always (passes store) (elog_warning x).
Proof. intros s. by split. Qed.

Lemma always_wait store x : TransactionIdIsCurrentTransactionId x = false -> always (passes store) (wait_xact x).
Proof. intros Hc s. split; [done|]. split; [|done]. by apply (wait_finished (lk_clock s) x). Qed.
End steady.

Ltac always := repeat
  first
  [ solve [auto with nocore]
  | apply always_bind; [apply _| |intros ?]
  | apply always_ask | apply always_create | apply always_warning
  | apply always_wait; assumption
  | apply always_here; [apply _|done]
  | progress case_match ].

Section steady_routines.
Context `{HH : HtupFlags} `{HHL : !HtupFlagsLaws} `{HW : World} `{HWL : !WorldLaws}.
Context `{HLF : LockFlags} `{HFB : !FlagBits} `{HMX : MultiXacts} `{HML : !MultiXactsLaws}.

Lemma conflict_always multi infomask mode current :
  always (passes true) (DoesMultiXactIdConflict multi infomask mode current).
Proof.
  assert (Hl : forall wanted ms r cur, always (passes true) (conflict_loop wanted ms r cur)).
  { intros wanted ms. induction ms as [|m ms IH]; intros r cur; cbn [conflict_loop];
      unfold lk_did_abort, lk_in_progress; always. }
  unfold DoesMultiXactIdConflict, lk_members. always.
Qed.

Lemma MultiXactIdWait_always multi st infomask count :
  always (passes true) (MultiXactIdWait multi st infomask count).
Proof.
  assert (Hl : forall ms remain, always (passes true) (wait_loop st false count ms remain)).
  { induction ms as [|m ms IH]; intros remain; cbn [wait_loop]; unfold lk_in_progress; always. }
  unfold MultiXactIdWait, Do_MultiXactIdWait, lk_members. always.
Qed.

Lemma compute_always xmax m m2 add mode u :
  always (passes false) (compute_new_xmax_infomask xmax m m2 add mode u).
Proof.
  unfold compute_new_xmax_infomask. generalize 2%nat. intros fuel.
  revert m mode. induction fuel as [|fuel IH]; intros m mode; cbn [new_xmax_from];
    unfold join_single, with_hints, GetMultiXactIdHintBits, MultiXactIdGetUpdateXid, get_mxact_status_for_lock,
      lk_members, lk_did_commit, lk_in_progress; always.
Qed.
End steady_routines.

(** ** Where things are *)

Section store.
Context `{HH : HtupFlags} `{HHL : !HtupFlagsLaws} `{HW : World} `{HWL : !WorldLaws}.
Context `{HLF : LockFlags} `{HFB : !FlagBits} `{HMX : MultiXacts} `{HML : !MultiXactsLaws}.
Context `{HP : PgBlockSize} `{HBL : !PgBlockSizeLaws} `{HV : VmEnv} `{HVL : !VmLaws}.

Definition flags_of (b : HeapBlock) : bool * Z * Z := (all_visible_flag b, prune_xid b, block_lsn b).
Definition block_flags (bn : Z) (s : StoreState) : option (bool * Z * Z) := flags_of <$> blocks s !! bn.

(** What a backend has of its own. *)
Definition own (s : StoreState) :=
  (sheld s, spins s, tuplocks (st_locks s), st_wal s, toast_deletes s).

Lemma item_block tid s it : item tid s = Some it -> exists b, blocks s !! tid.1 = Some b /\ items b !! tid.2 = Some it.
Proof. unfold item. intros (b & Hb & Hi)%bind_Some. by exists b. Qed.

(** One item of one block is another. *)
Definition put_item (tid : Z * Z) (it : HeapItem) (b : HeapBlock) (s : StoreState) : StoreState :=
  with_blocks (<[tid.1 := with_items (<[tid.2 := it]> (items b)) b]> (blocks s)) s.

Lemma item_put tid tid' it b s : blocks s !! tid.1 = Some b ->
  item tid' (put_item tid it b s) = if decide (tid' = tid) then Some it else item tid' s.
Proof.
  intros Hb. unfold item, put_item. cbn [blocks with_blocks]. destruct tid as [bn o], tid' as [bn' o']. cbn [fst snd] in *.
  destruct (decide (bn' = bn)) as [->|Hne].
  - rewrite lookup_insert_eq, Hb. cbn. destruct (decide (o' = o)) as [->|Ho].
    + rewrite lookup_insert_eq. by rewrite decide_True.
    + rewrite lookup_insert_ne by done. rewrite decide_False by congruence. done.
  - rewrite lookup_insert_ne by done. by rewrite decide_False by congruence.
Qed.

Lemma flags_put tid it b s bn : blocks s !! tid.1 = Some b ->
  block_flags bn (put_item tid it b s) = block_flags bn s.
Proof.
  intros Hb. unfold block_flags, put_item. cbn [blocks with_blocks]. destruct (decide (bn = tid.1)) as [->|Hne].
  - by rewrite lookup_insert_eq, Hb.
  - by rewrite lookup_insert_ne.
Qed.

(** Only the item, the clock and the store of multixacts have changed. *)
Record touched (tid : Z * Z) (it' : HeapItem) (s s' : StoreState) : Prop := {
  to_item : item tid s' = Some it';
  to_others tid' : tid' <> tid -> item tid' s' = item tid' s;
  to_flags bn : block_flags bn s' = block_flags bn s;
  to_vm : st_vm s' = st_vm s;
  to_own : own s' = own s;
}.

Lemma put_touched tid it b s : blocks s !! tid.1 = Some b -> touched tid it s (put_item tid it b s).
Proof.
  intros Hb. split; try done.
  - rewrite item_put by done. by rewrite decide_True.
  - intros tid' Hne. rewrite item_put by done. by rewrite decide_False.
  - intros bn. by apply flags_put.
Qed.

Section rules.
Variables (nf er : StoreState -> Prop).
Local Abbreviation T := (twp nf er).

Lemma item_at_twp tid it s (Q : HeapItem -> StoreState -> Prop) :
  item tid s = Some it -> Q it s -> T (item_at tid) Q s.
Proof. intros Hi HQ. unfold item_at. apply twp_bind, twp_get. by eapply twp_defined. Qed.

Lemma page_all_visible_twp bn b s (Q : bool -> StoreState -> Prop) :
  blocks s !! bn = Some b -> Q (all_visible_flag b) s -> T (page_all_visible bn) Q s.
Proof.
  intros Hb HQ. unfold page_all_visible, block_at. apply twp_bind, twp_bind, twp_get. eapply twp_defined; [done|].
  by apply twp_ret.
Qed.

Lemma set_item_twp tid it b s (Q : unit -> StoreState -> Prop) :
  blocks s !! tid.1 = Some b -> Q tt (put_item tid it b s) -> T (set_item tid it) Q s.
Proof.
  intros Hb HQ. unfold set_item, block_at. apply twp_bind, twp_bind, twp_get. eapply twp_defined; [done|].
  by apply twp_modify.
Qed.

(** Code on the header of an item. *)
Lemma on_tuple_twp {A} tid (m : M VisState A) VQ it s (Q : A -> StoreState -> Prop) :
  item tid s = Some it -> vwp m VQ (it_hdr it) (moment s) ->
  (forall a h' t' s', VQ a h' t' -> touched tid (with_hdr h' it) s s' -> moment s' = t' ->
     multis (st_locks s') = multis (st_locks s) -> Q a s') ->
  T (on_tuple tid m) Q s.
Proof.
  intros Hi Hv HQ. unfold on_tuple. apply twp_bind. eapply item_at_twp; [done|]. apply twp_bind, twp_get.
  specialize (Hv false). destruct (m _) as [[a|l| |] v] eqn:E; try done.
  destruct (item_block _ _ _ Hi) as (b & Hb & _).
  apply twp_bind. eapply set_item_twp; [done|]. apply twp_bind, twp_modify, twp_bind.
  pose proof (put_touched tid (with_hdr (hdr v) it) b s Hb) as [T1 T2 T3 T4 T5].
  destruct (dirtied v); [apply twp_modify|apply twp_ret]; (eapply HQ; [exact Hv|by split|done|done]).
Qed.

(** Code on the locks. *)
Lemma on_locks_twp {A} (m : M LockState A) LQ s (Q : A -> StoreState -> Prop) :
  wp m LQ (st_locks s) -> (forall a l', LQ a l' -> Q a (with_slocks l' s)) -> T (on_locks m) Q s.
Proof.
  unfold on_locks, wp, twp, zoom. intros Hm HQ. destruct (m (st_locks s)) as [[a|l| |] l']; try done. by apply HQ.
Qed.

Lemma on_svm_twp {A} (m : M VmState A) a v s (Q : A -> StoreState -> Prop) :
  m (st_vm s) = (Ret a, v) -> Q a (with_svm v s) -> T (on_svm m) Q s.
Proof. intros Hm HQ. unfold on_svm. by eapply twp_zoom. Qed.
End rules.
End store.

Section wait.
Context `{HH : HtupFlags} `{HHL : !HtupFlagsLaws} `{HW : World} `{HWL : !WorldLaws}.
Context `{HLF : LockFlags} `{HFB : !FlagBits} `{HMX : MultiXacts} `{HML : !MultiXactsLaws}.
Context `{HP : PgBlockSize} `{HBL : !PgBlockSizeLaws} `{HV : VmEnv} `{HVL : !VmLaws}.
Context `{HIE : InsertEnv} `{HI : !Interference}.

Definition fine_in (s : StoreState) (it : HeapItem) : Prop :=
  header_fine (multis (st_locks s)) (moment s) (it_hdr it)
  /\ masks_fine (multis (st_locks s)) (it_hdr it) (it_infomask2 it).

Definition all_fine (s : StoreState) : Prop := forall tid it, item tid s = Some it -> fine_in s it.

(** We have deleted it, and are the only one in its xmax. *)
Definition ours (it : HeapItem) : bool :=
  let m := t_infomask (it_hdr it) in
  negb (has m HEAP_XMAX_INVALID) && negb (has m HEAP_XMAX_IS_MULTI) && negb (HEAP_XMAX_IS_LOCKED_ONLY m)
  && TransactionIdIsCurrentTransactionId (t_xmax (it_hdr it)).

(** What never changes of a tuple as long as its page is pinned; nobody
    deletes it in our name. *)
Definition same_row (it it' : HeapItem) : Prop :=
  t_xmin (it_hdr it') = t_xmin (it_hdr it) /\ it_hoff it' = it_hoff it /\ it_data it' = it_data it
  /\ (XminFrozen (t_infomask (it_hdr it)) = true -> XminFrozen (t_infomask (it_hdr it')) = true)
  /\ (ours it' = true -> ours it = true).

#[export] Instance same_row_preorder : PreOrder same_row.
Proof. split; [done|]. intros it1 it2 it3 (? & ? & ? & ? & ?) (? & ? & ? & ? & ?). split_and!; [congruence..|auto|auto]. Qed.

(** Hints do not make another row. *)
Lemma evolves_row it h t t' : evolves (it_hdr it) t h t' -> same_row it (with_hdr h it).
Proof.
  intros (_ & Hs & Hz & _). pose proof (same_tuple_facts _ _ Hs) as (Ex & E2 & _ & E4 & E5 & _).
  destruct (same_tuple_locks _ _ Hs) as [_ Hi]. split_and!; [done..|cbn; congruence|].
  unfold ours. cbn [it_hdr with_hdr]. rewrite E2, E4, E5. destruct (has (t_infomask (it_hdr it)) HEAP_XMAX_INVALID).
  - by rewrite Hi.
  - by destruct (has (t_infomask h) HEAP_XMAX_INVALID).
Qed.

Lemma inserted_row it it' t t' : same_row it it' -> (t <= t')%nat ->
  inserter_in (it_hdr it) t -> inserter_in (it_hdr it') t'.
Proof.
  intros (Hx & _ & _ & Hz & _) Ht Hin. unfold inserter_in. rewrite Hx.
  destruct Hin as [?|[?|?]]; [by left|right; left; by eapply commit_stable|right; right; auto].
Qed.

(** What other backends may do: nothing to pages that are locked; the tuples
    of a pinned page stay, with headers as everyone leaves them, and what
    multixacts were issued stay known. *)
Record undisturbed (s s' : StoreState) : Prop := {
  us_time : (moment s <= moment s')%nat;
  us_own : own s' = own s;
  us_map : vm_ok (st_vm s) -> vm_ok (st_vm s') /\ pinned (st_vm s') = pinned (st_vm s);
  us_locked bn : bn ∈ sheld s -> blocks s' !! bn = blocks s !! bn;
  us_item tid it : tid.1 ∈ spins s -> item tid s = Some it -> fine_in s it ->
    exists it', item tid s' = Some it' /\ same_row it it' /\ fine_in s' it';
  us_fine : all_fine s -> all_fine s';
  us_grows : grows (multis (st_locks s)) (multis (st_locks s'));
}.

(** The laws of the environment; lock.c: which lock modes conflict. *)
Class StoreLaws `{!FlagBits} := {
  interfere_law s : undisturbed s (interfere (moment s) s);
  tuple_conflicts a b : DoLockModesConflict (hwlock a) (hwlock b) = (3 <=? mode_rank a + mode_rank b);
  combocid_other x : has HEAP_COMBOCID (2 ^ bit_of x) = false;
}.
Context `{HSL : !StoreLaws}.

(** An exclusive lock stands against all. *)
Lemma exclusive_conflicts l : DoLockModesConflict l AccessExclusiveLock = true.
Proof.
  change AccessExclusiveLock with (hwlock LockTupleExclusive).
  destruct l; [change AccessShareLock with (hwlock LockTupleKeyShare)|change RowShareLock with (hwlock LockTupleShare)
    |change ExclusiveLock with (hwlock LockTupleNoKeyExclusive)|change AccessExclusiveLock with (hwlock LockTupleExclusive)];
    by rewrite tuple_conflicts.
Qed.

Definition quiet_store : Prop := forall n s, interfere n s = s.

(** Between the steps: one more pin on the page, its lock or not, and the
    tuple there. *)
Record at_work_in (mode : LockTupleMode) (tid : Z * Z) (s0 : StoreState) (locked : bool) (vm : Buffer) (have : bool) (it : HeapItem)
    (s : StoreState) : Prop := {
  aw_vm : vm_ok (st_vm s);
  aw_map : pinned (st_vm s) ≡ₚ buffer_pins vm ++ pinned (st_vm s0);
  aw_buf : vm = None \/ vm = Some (HEAPBLK_TO_MAPBLOCK tid.1);
  aw_held : sheld s = (if locked then [tid.1] else []) ++ sheld s0;
  aw_pins : spins s = tid.1 :: spins s0;
  aw_tup : tuplocks (st_locks s) = tuplocks (st_locks s0) ++ (if have then [(tid, hwlock mode)] else []);
  aw_wal : st_wal s = st_wal s0;
  aw_toast : toast_deletes s = toast_deletes s0;
  aw_time : (moment s0 <= moment s)%nat;
  aw_item : item tid s = Some it;
  aw_fine : fine_in s it;
  aw_row it0 : item tid s0 = Some it0 -> same_row it0 it;
}.

#[global] Arguments aw_vm {_ _ _ _ _ _ _ _}.
#[global] Arguments aw_map {_ _ _ _ _ _ _ _}.
#[global] Arguments aw_buf {_ _ _ _ _ _ _ _}.
#[global] Arguments aw_held {_ _ _ _ _ _ _ _}.
#[global] Arguments aw_pins {_ _ _ _ _ _ _ _}.
#[global] Arguments aw_tup {_ _ _ _ _ _ _ _}.
#[global] Arguments aw_wal {_ _ _ _ _ _ _ _}.
#[global] Arguments aw_toast {_ _ _ _ _ _ _ _}.
#[global] Arguments aw_time {_ _ _ _ _ _ _ _}.
#[global] Arguments aw_item {_ _ _ _ _ _ _ _}.
#[global] Arguments aw_fine {_ _ _ _ _ _ _ _}.
#[global] Arguments aw_row {_ _ _ _ _ _ _ _}.

(** For a deletion. *)
Local Abbreviation at_work := (at_work_in LockTupleExclusive).

(** The map page is pinned if it is needed. *)
Definition pin_ok (tid : Z * Z) (vm : Buffer) (s : StoreState) : Prop :=
  vm = None -> forall b, blocks s !! tid.1 = Some b -> all_visible_flag b = false.

Lemma touched_at_work mode tid s0 vm have it h' s s' : at_work_in mode tid s0 true vm have it s ->
  touched tid (with_hdr h' it) s s' -> (moment s <= moment s')%nat ->
  multis (st_locks s') = multis (st_locks s) -> same_row it (with_hdr h' it) ->
  header_fine (multis (st_locks s')) (moment s') h' -> same_tuple (it_hdr it) h' -> at_work_in mode tid s0 true vm have (with_hdr h' it) s'.
Proof.
  intros [H1 H2 H3 H4 H5 H6 H7 H8 H9 H10 H11 H12] [T1 T2 T3 T4 T5] Ht Hm Hx Hf Hs.
  injection T5 as E1 E2 E3 E4 E5. split; rewrite ?T4, ?E1, ?E2, ?E3, ?E4, ?E5; try done; [lia| |].
  { split; [done|]. rewrite Hm. by eapply masks_same, H11. }
  intros it0 Hi. etransitivity; [by apply H12|done].
Qed.

Lemma touched_pin_ok tid vm it' s s' : touched tid it' s s' -> pin_ok tid vm s -> pin_ok tid vm s'.
Proof.
  intros [_ _ T3 _ _] Hp Hn b Hb. specialize (T3 tid.1). unfold block_flags in T3. rewrite Hb in T3.
  destruct (blocks s !! tid.1) as [b0|] eqn:E; [|done]. injection T3 as T3 _ _. rewrite T3. by apply Hp.
Qed.

Section rules.
Variables (nf er : Prop).
Local Abbreviation T := (twp (fun _ => nf) (fun _ => er)).

Lemma lock_twp mode tid s0 vm have it s (Q : unit -> StoreState -> Prop) :
  tid.1 ∉ sheld s0 -> at_work_in mode tid s0 false vm have it s ->
  (forall it' s', at_work_in mode tid s0 true vm have it' s' -> same_row it it' ->
     grows (multis (st_locks s)) (multis (st_locks s')) -> (all_fine s -> all_fine s') ->
     (moment s <= moment s')%nat ->
     (quiet_store -> it' = it /\ blocks s' = blocks s) -> Q tt s') ->
  T (LockHeapBuffer tid.1) Q s.
Proof.
  intros Hn [H1 H2 H3 H4 H5 H6 H7 H8 H9 H10 H11 H12] HQ. cbn [app] in H4. unfold LockHeapBuffer.
  apply twp_bind, twp_modify, twp_bind, twp_gets.
  pose proof (interfere_law s) as [U1 U2 U3 U4 U5 U6 U7]. destruct (U3 H1) as [V1 V2].
  injection U2 as E1 E2 E3 E4 E5. set (s' := interfere (moment s) s) in *.
  rewrite E1, H4, bool_decide_eq_false_2 by done. apply twp_modify.
  destruct (U5 tid it) as (it' & I1 & I2 & I3); [rewrite H5; by left|done|done|].
  apply (HQ it').
  - split; cbn; rewrite ?E2, ?E3, ?E4, ?E5; try done.
    + by rewrite V2.
    + unfold moment in *. cbn. lia.
    + intros it0 Hi. etransitivity; [by apply H12|done].
  - done.
  - done.
  - exact U6.
  - done.
  - intros Hq. unfold s' in *. rewrite Hq in *. split; [congruence|done].
Qed.

Lemma unlock_twp mode tid s0 vm have it s (Q : unit -> StoreState -> Prop) : at_work_in mode tid s0 true vm have it s ->
  (forall s', at_work_in mode tid s0 false vm have it s' -> moment s' = moment s -> st_locks s' = st_locks s ->
     blocks s' = blocks s -> Q tt s') ->
  T (UnlockHeapBuffer tid.1) Q s.
Proof.
  intros [H1 H2 H3 H4 H5 H6 H7 H8 H9 H10 H11 H12] HQ. unfold UnlockHeapBuffer. cbn [app] in H4.
  apply twp_bind, twp_gets, twp_bind. rewrite H4. cbn [remove_pin]. rewrite Z.eqb_refl.
  eapply twp_defined; [done|]. apply twp_modify. apply HQ; [by split|done..].
Qed.

(** The map page, with the lock released. *)
Lemma pin_twp mode tid s0 have it s (Q : Buffer -> StoreState -> Prop) : 0 <= tid.1 < 2 ^ 32 ->
  at_work_in mode tid s0 false None have it s ->
  (forall s', at_work_in mode tid s0 false (Some (HEAPBLK_TO_MAPBLOCK tid.1)) have it s' -> moment s' = moment s ->
     st_locks s' = st_locks s -> blocks s' = blocks s -> Q (Some (HEAPBLK_TO_MAPBLOCK tid.1)) s') ->
  T (on_svm (pg_tde_visibilitymap_pin tid.1 None)) Q s.
Proof.
  intros Hr [H1 H2 H3 H4 H5 H6 H7 H8 H9 H10 H11 H12] HQ.
  destruct (pin_spec tid.1 None (st_vm s) H1 Hr I) as (v & Ev & V1 & V2 & (rest & Hp1 & Hp2)).
  eapply on_svm_twp; [exact Ev|]. apply HQ; try done. split; cbn; try done; [|by right].
  rewrite Hp2. cbn [buffer_pins app] in *. by rewrite <- Hp1, H2.
Qed.

(** What a step ends in, with the lock held. *)
Definition locked_same (mode : LockTupleMode) (tid : Z * Z) (s0 : StoreState) (vm : Buffer) (have : bool) (s s' : StoreState) (it : HeapItem) : Prop :=
  exists it', at_work_in mode tid s0 true vm have it' s' /\ same_row it it'
    /\ (quiet_store -> it' = it /\ blocks s' = blocks s).

Lemma recheck_pin_twp mode tid s0 vm have it s (Q : Buffer -> StoreState -> Prop) :
  0 <= tid.1 < 2 ^ 32 -> tid.1 ∉ sheld s0 -> at_work_in mode tid s0 true vm have it s ->
  (forall vm' s', locked_same mode tid s0 vm' have s s' it -> pin_ok tid vm' s' -> Q vm' s') ->
  T (recheck_pin tid.1 vm) Q s.
Proof.
  intros Hr Hn Hw HQ. destruct vm as [b|]; [by apply twp_ret, HQ; [exists it|]|].
  destruct (item_block _ _ _ (aw_item Hw)) as (b & Hb & _).
  apply twp_bind. eapply page_all_visible_twp; [done|]. destruct (all_visible_flag b) eqn:Ev.
  - apply twp_bind. eapply unlock_twp; [done|]. intros s1 W1 _ _ B1.
    apply twp_bind. eapply pin_twp; [done|done|]. intros s2 W2 _ _ B2.
    apply twp_bind. eapply lock_twp; [done|done|]. intros it' s3 W3 R3 _ _ _ Q3. apply twp_ret, HQ; [|done].
    exists it'. split; [done|]. split; [done|]. intros Hq. destruct (Q3 Hq) as [-> ->]. split; [done|congruence].
  - apply twp_ret, HQ; [by exists it|]. intros _ b' Hb'. congruence.
Qed.

Lemma pinned_at_work mode tid it s : vm_ok (st_vm s) -> item tid s = Some it -> fine_in s it ->
  at_work_in mode tid s false None false it (with_spins (tid.1 :: spins s) s).
Proof.
  intros Hv Hi Hf. split; cbn; try done; [by left|by rewrite app_nil_r|]. intros it0 Hi0.
  replace it0 with it by congruence. done.
Qed.

Lemma pin_and_lock_twp mode tid it s (Q : Buffer -> StoreState -> Prop) :
  0 <= tid.1 < 2 ^ 32 -> tid.1 ∉ sheld s -> vm_ok (st_vm s) -> item tid s = Some it -> fine_in s it ->
  (forall vm' s', locked_same mode tid s vm' false s s' it -> Q vm' s') ->
  T (pin_and_lock tid.1) Q s.
Proof.
  intros Hr Hn Hv Hi Hf HQ. unfold pin_and_lock, ReadHeapBuffer. apply twp_bind, twp_modify.
  set (s1 := with_spins _ _). assert (W1 : at_work_in mode tid s false None false it s1) by by apply pinned_at_work.
  destruct (item_block _ _ _ Hi) as (b & Hb & _). apply twp_bind. eapply page_all_visible_twp; [exact Hb|].
  assert (Hlock : forall vm s2, at_work_in mode tid s false vm false it s2 -> blocks s2 = blocks s ->
    T (LockHeapBuffer tid.1;;; ret vm) Q s2).
  { intros vm s2 W2 B2. apply twp_bind. eapply lock_twp; [done|done|]. intros it' s3 W3 R3 _ _ _ Q3.
    apply twp_ret, HQ. exists it'. split; [done|]. split; [done|]. intros Hq. destruct (Q3 Hq) as [-> ->]. done. }
  destruct (all_visible_flag b).
  - apply twp_bind. eapply pin_twp; [done|done|]. intros s2 W2 _ _ B2. by apply Hlock.
  - apply twp_bind, twp_ret. by apply Hlock.
Qed.

(** ** Waiting *)

Lemma locks_at_work mode tid s0 vm (have have' : bool) it l' s : at_work_in mode tid s0 false vm have it s ->
  multis l' = multis (st_locks s) -> (moment s <= lk_clock l')%nat ->
  tuplocks l' = tuplocks (st_locks s0) ++ (if have' then [(tid, hwlock mode)] else []) ->
  at_work_in mode tid s0 false vm have' it (with_slocks l' s).
Proof.
  intros [H1 H2 H3 H4 H5 H6 H7 H8 H9 H10 H11 H12] Hm Ht Hl. split; try done; cbn.
  - unfold moment in *. cbn in *. lia.
  - unfold fine_in, moment in *. cbn in *. rewrite Hm. split; [by eapply fine_later; [|apply H11]|apply H11].
Qed.

Lemma locked_locks_at_work mode tid s0 vm (have : bool) it l' s : at_work_in mode tid s0 true vm have it s ->
  multis l' = multis (st_locks s) -> (moment s <= lk_clock l')%nat -> tuplocks l' = tuplocks (st_locks s) ->
  at_work_in mode tid s0 true vm have it (with_slocks l' s).
Proof.
  intros [H1 H2 H3 H4 H5 H6 H7 H8 H9 H10 H11 H12] Hm Ht Hl. split; try done; cbn.
  - congruence.
  - unfold moment in *. cbn in *. lia.
  - unfold fine_in, moment in *. cbn in *. rewrite Hm. split; [by eapply fine_later; [|apply H11]|apply H11].
Qed.

Lemma acquire_twp tid s0 vm have it s (Q : bool -> StoreState -> Prop) : at_work tid s0 false vm have it s ->
  (forall s', at_work tid s0 false vm true it s' -> multis (st_locks s') = multis (st_locks s) ->
     (moment s <= moment s')%nat -> blocks s' = blocks s -> Q true s') ->
  T (acquire tid have) Q s.
Proof.
  intros Hw HQ. unfold acquire. apply twp_bind. destruct have.
  - eapply (on_locks_twp _ _ _ (fun (r : bool * bool) l => r = (true, true) /\ l = st_locks s)); [done|].
    intros r l [-> ->]. apply twp_ret, HQ; try done. apply (locks_at_work _ _ _ _ true true); [done|done|done|apply Hw].
  - eapply (on_locks_twp _ _ _ (fun (r : bool * bool) l => r = (true, true) /\ l = snd (take_lock tid LockTupleExclusive (st_locks s)))).
    { done. }
    intros r l [-> ->]. apply twp_ret, HQ; try done; [|unfold moment; cbn; lia].
    apply (locks_at_work _ _ _ _ false true); try done; [unfold moment; cbn; lia|].
    cbn. by rewrite (aw_tup Hw), app_nil_r.
Qed.

Lemma wp_always {A} R (m : M LockState A) (Q : A -> LockState -> Prop) l :
  wp m Q l -> always R m -> wp m (fun a l' => Q a l' /\ R l l') l.
Proof. unfold wp, always. intros Hm Ha. specialize (Ha l). by destruct (m l) as [[a|?| |] l']. Qed.

(** The test after a wait. *)
Lemma start_over_twp tid s0 vm have it xwait m s (Q : bool -> StoreState -> Prop) :
  at_work tid s0 true vm have it s ->
  (forall r, (r = false -> pin_ok tid vm s /\ xmax_infomask_changed (t_infomask (it_hdr it)) m = false
                           /\ t_xmax (it_hdr it) = xwait) ->
     (r = true -> t_xmax (it_hdr it) = xwait -> t_infomask (it_hdr it) = m -> ~ pin_ok tid vm s) -> Q r s) ->
  T (start_over tid vm xwait m) Q s.
Proof.
  intros Hw HQ. unfold start_over. destruct (item_block _ _ _ (aw_item Hw)) as (b & Hb & _).
  apply twp_bind. eapply page_all_visible_twp; [done|].
  apply twp_bind. eapply item_at_twp; [apply Hw|]. apply twp_ret, HQ.
  - intros [[E1 E2]%orb_false_iff E3%negb_false_iff%Z.eqb_eq]%orb_false_iff. split_and!; [|done|done].
    intros -> b' Hb'. rewrite Hb in Hb'. by injection Hb' as <-.
  - intros E Hx Hm Hp. rewrite Hx, Z.eqb_refl, Hm in E. unfold xmax_infomask_changed in E. rewrite Z.eqb_refl in E.
    cbn in E. rewrite !orb_false_r in E. apply andb_true_iff in E as [E1 E2]. destruct vm; [done|].
    by rewrite (Hp eq_refl b Hb) in E2.
Qed.

(** After a wait without the lock: either all starts over, which only others
    can cause, or those who held the tuple have been waited for. *)
Definition after_wait (tid : Z * Z) (s0 : StoreState) (vm : Buffer) (again : bool) (it' : HeapItem) (s' : StoreState) : Prop :=
  if again then ~ quiet_store
  else pin_ok tid vm s' /\ waited (multis (st_locks s')) (moment s') (it_hdr it').

Lemma relook_twp tid s0 vm have it s1 s (Q : bool -> StoreState -> Prop) : tid.1 ∉ sheld s0 ->
  at_work tid s0 false vm have it s -> blocks s = blocks s1 -> pin_ok tid vm s1 ->
  waited (multis (st_locks s)) (moment s) (it_hdr it) ->
  (forall again it' s', at_work tid s0 true vm have it' s' -> same_row it it' -> (moment s <= moment s')%nat ->
     after_wait tid s0 vm again it' s' ->
     (quiet_store -> it' = it) ->
     (again = false -> t_xmax (it_hdr it') = t_xmax (it_hdr it)
        /\ has (t_infomask (it_hdr it')) HEAP_XMAX_IS_MULTI = has (t_infomask (it_hdr it)) HEAP_XMAX_IS_MULTI) ->
     Q again s') ->
  T (LockHeapBuffer tid.1;;; start_over tid vm (t_xmax (it_hdr it)) (t_infomask (it_hdr it))) Q s.
Proof.
  intros Hn Hw Hbl Hp Hwt HQ. apply twp_bind. eapply lock_twp; [done|done|]. intros it' s' W' R' Hg _ Ht Hq.
  eapply start_over_twp; [done|]. intros [|] H1 H2.
  - apply (HQ true it'); try done; [|by intros Hqu; apply Hq]. intros Hqu. destruct (Hq Hqu) as [-> Hb']. apply H2; try done.
    intros Hv b. rewrite Hb', Hbl. by apply Hp.
  - destruct (H1 eq_refl) as (P' & C' & X'). apply (HQ false it'); try done.
    + split; [done|]. eapply waited_transfer; [apply Hw|done..].
    + intros Hqu. by apply Hq.
    + intros _. split; [done|]. by destruct (unchanged_bits _ _ C') as (-> & _).
Qed.

(** Members of the multixact, after the conflict test and after the wait. *)
Lemma members_waited (st : mxstore) t h : has (t_infomask h) HEAP_XMAX_IS_MULTI = true ->
  (HEAP_LOCKED_UPGRADED (t_infomask h) = false ->
   forall ms mem, GetMultiXactIdMembers st (t_xmax h) (HEAP_XMAX_IS_LOCKED_ONLY (t_infomask h)) = Some ms -> mem ∈ ms ->
     TransactionIdIsCurrentTransactionId (xid mem) = true
     \/ ISUPDATE_from_mxstatus (status mem) = true \/ TransactionIdIsInProgress t (xid mem) = false) ->
  waited st t h.
Proof.
  intros Hm H. unfold waited. rewrite Hm. destruct (HEAP_LOCKED_UPGRADED _) eqn:Hu; [by left|right].
  destruct (GetMultiXactIdMembers _ _ _) as [ms|] eqn:E; [|by intros mem ?%elem_of_nil]. intros mem Hin.
  by eapply H.
Qed.

Lemma conflict_wp l h (current : option bool) : has (t_infomask h) HEAP_XMAX_IS_MULTI = true ->
  wp (DoesMultiXactIdConflict (t_xmax h) (t_infomask h) LockTupleExclusive current)
    (fun r l' => passes true l l' /\ (fst r = false -> waited (multis l') (lk_clock l') h)) l.
Proof.
  intros Hm. eapply wp_mono; [apply wp_always; [|apply conflict_always]|].
  - instantiate (1 := fun r l' => fst r = false -> waited (multis l) (lk_clock l') h).
    unfold DoesMultiXactIdConflict, lk_members. destruct (HEAP_LOCKED_UPGRADED _) eqn:Hu.
    { apply wp_ret. intros _. apply members_waited; [done|]. by rewrite Hu. }
    apply wp_bind, wp_gets. destruct (GetMultiXactIdMembers _ _ _) as [ms|] eqn:E.
    + eapply wp_mono; [apply conflict_loop_wp|]. intros r l' [_ _ Hn _] Hr. apply members_waited; [done|].
      intros _ ms' mem E' Hin. rewrite E in E'. injection E' as <-. destruct (Hn Hr) as [_ Hc].
      specialize (Hc mem Hin). unfold conflicts in Hc. rewrite exclusive_conflicts in Hc.
      destruct (TransactionIdIsCurrentTransactionId (xid mem)); [by left|right].
      destruct (ISUPDATE_from_mxstatus (status mem)); [by left|right].
      apply not_true_iff_false. intros Hp. by apply Hc.
    + apply wp_ret. intros _. apply members_waited; [done|]. intros _ ms mem E' _. congruence.
  - intros r l' [Hr Hpass]. split; [done|]. destruct Hpass as (_ & _ & ->); [|done]. exact Hr.
Qed.

Lemma multi_wait_wp l h count : has (t_infomask h) HEAP_XMAX_IS_MULTI = true ->
  wp (MultiXactIdWait (t_xmax h) MultiXactStatusUpdate (t_infomask h) count)
    (fun _ l' => passes true l l' /\ waited (multis l') (lk_clock l') h) l.
Proof.
  intros Hm. eapply wp_mono; [apply wp_always; [|apply MultiXactIdWait_always]|].
  - instantiate (1 := fun r l' => waited (multis l) (lk_clock l') h).
    unfold MultiXactIdWait, Do_MultiXactIdWait, lk_members. destruct (HEAP_LOCKED_UPGRADED _) eqn:Hu.
    { wps. apply members_waited; [done|]. by rewrite Hu. }
    wps. destruct (GetMultiXactIdMembers _ _ _) as [ms|] eqn:E.
    + eapply wp_mono; [apply wait_loop_wp|]. intros r l' (_ & _ & Hr & Hc & _). wps. apply members_waited; [done|].
      intros _ ms' mem E' Hin. rewrite E in E'. injection E' as <-. destruct (Hc (Hr eq_refl) mem Hin) as [?|[Hx|?]]; [by left| |by right; right].
      by rewrite exclusive_conflicts in Hx.
    + wps. apply members_waited; [done|]. intros _ ms mem E' _. congruence.
  - intros r l' [Hr Hpass]. split; [done|]. by destruct Hpass as (_ & _ & ->).
Qed.

(** What a caller knows after the wait. *)
Definition waits (tid : Z * Z) (s0 : StoreState) (vm : Buffer) (it : HeapItem) (s : StoreState)
    (Q : bool * bool -> StoreState -> Prop) : Prop :=
  forall again have it' s', at_work tid s0 true vm have it' s' -> same_row it it' -> (moment s <= moment s')%nat ->
    after_wait tid s0 vm again it' s' -> (quiet_store -> same_tuple (it_hdr it) (it_hdr it')) ->
    Q (again, have) s'.

Lemma multi_relock_twp tid s0 vm have it s1 s Q : tid.1 ∉ sheld s0 ->
  has (t_infomask (it_hdr it)) HEAP_XMAX_IS_MULTI = true ->
  at_work tid s0 false vm have it s -> blocks s = blocks s1 -> pin_ok tid vm s1 -> (moment s1 <= moment s)%nat ->
  waits tid s0 vm it s1 Q ->
  T (let* _ := on_locks (MultiXactIdWait (t_xmax (it_hdr it)) MultiXactStatusUpdate (t_infomask (it_hdr it)) false) in
     LockHeapBuffer tid.1;;;
     let* again := start_over tid vm (t_xmax (it_hdr it)) (t_infomask (it_hdr it)) in ret (again, have)) Q s.
Proof.
  intros Hn Hm Hw Hb Hp Ht HQ. apply twp_bind. eapply on_locks_twp; [by apply multi_wait_wp|].
  intros _ l' [(Tl & Ml & Sl) Wt]. specialize (Sl eq_refl). apply twp_seq.
  eapply (relook_twp _ _ _ have _ s1); [done| |exact Hb|done|exact Wt|].
  - apply (locks_at_work _ _ _ _ have); [done|done|done|]. rewrite Tl. apply Hw.
  - intros again it' s' W' R' M' A' Hq _. apply twp_ret, (HQ again have it'); try done.
    + etransitivity; [exact Ht|]. etransitivity; [exact Ml|exact M'].
    + intros Hqu. by rewrite (Hq Hqu).
Qed.

Lemma wait_single_twp tid s0 vm have it s Q : tid.1 ∉ sheld s0 ->
  has (t_infomask (it_hdr it)) HEAP_XMAX_IS_MULTI = false ->
  TransactionIdIsCurrentTransactionId (t_xmax (it_hdr it)) = false ->
  at_work tid s0 true vm have it s -> pin_ok tid vm s -> waits tid s0 vm it s Q ->
  T (UnlockHeapBuffer tid.1;;;
     let* have := acquire tid have in
     on_locks (wait_xact (t_xmax (it_hdr it)));;;
     LockHeapBuffer tid.1;;;
     let* again := start_over tid vm (t_xmax (it_hdr it)) (t_infomask (it_hdr it)) in
     if (again : bool) then ret (true, have)
     else on_tuple tid (UpdateXmaxHintBits (t_xmax (it_hdr it)));;; ret (false, have)) Q s.
Proof.
  intros Hn Hm Hc Hw Hp HQ. apply twp_bind. eapply unlock_twp; [done|]. intros s1 W1 M1 L1 B1.
  apply twp_bind. eapply acquire_twp; [done|]. intros s2 W2 St2 M2 B2.
  apply twp_bind. eapply (on_locks_twp _ _ _ (fun _ l => l = snd (wait_xact (t_xmax (it_hdr it)) (st_locks s2)))); [done|].
  intros _ l3 ->. destruct (wait_finished (moment s2) _ Hc) as [T3 P3]. apply twp_seq.
  eapply (relook_twp _ _ _ true _ s); [done| |cbn; congruence|done| |].
  - apply (locks_at_work _ _ _ _ true); [done|done|done|]. apply W2.
  - unfold waited. rewrite Hm. by right.
  - intros again it' s4 W4 R4 M4 A4 Q4 K4.
    change (XactLockTableWait (moment s2) (t_xmax (it_hdr it)) <= moment s4)%nat in M4.
    assert (M04 : (moment s <= moment s4)%nat) by lia.
    destruct again; [apply twp_ret, (HQ true true it'); try done; intros Hqu; by rewrite (Q4 Hqu)|].
    destruct (K4 eq_refl) as [Kx Km]. rewrite Hm in Km. destruct A4 as [P4 Wt4].
    assert (Hp4 : TransactionIdIsInProgress (moment s4) (t_xmax (it_hdr it')) = false).
    { rewrite Kx. eapply finished_stable; [exact M4|exact P3]. }
    apply twp_bind. rewrite <- Kx. eapply on_tuple_twp; [apply W4|by apply UpdateXmaxHintBits_rule; [apply W4| |]|].
    intros _ h5 t5 s5 [F5 E5] T5 M5 S5. pose proof E5 as (Et & Es & _ & _).
    apply twp_ret, (HQ false true (with_hdr h5 it')).
    + eapply touched_at_work; [done|done|lia|done|by eapply evolves_row|by rewrite S5, M5|done].
    + etransitivity; [exact R4|by eapply evolves_row].
    + lia.
    + split; [by eapply touched_pin_ok|]. cbn [it_hdr with_hdr]. rewrite S5.
      eapply waited_same; [exact Es|]. eapply waited_later; [|exact Wt4]. lia.
    + intros Hqu. by rewrite <- (Q4 Hqu).
Qed.

Lemma wait_for_holders_twp tid s0 vm have it s Q : tid.1 ∉ sheld s0 ->
  at_work tid s0 true vm have it s -> pin_ok tid vm s -> waits tid s0 vm it s Q ->
  T (wait_for_holders tid vm have) Q s.
Proof.
  intros Hn Hw Hp HQ. unfold wait_for_holders. apply twp_bind. eapply item_at_twp; [apply Hw|].
  destruct (has (t_infomask (it_hdr it)) HEAP_XMAX_IS_MULTI) eqn:Hm.
  - apply twp_bind. eapply on_locks_twp; [by apply (conflict_wp _ _ (Some false))|].
    intros [conflict cur] l' [(Ptup & Ptime & Pst) Hfree]. specialize (Pst eq_refl). cbn [fst snd] in *.
    set (s1 := with_slocks l' s).
    assert (W1 : at_work tid s0 true vm have it s1) by (by apply (locked_locks_at_work _ tid s0 vm have it l' s)).
    destruct conflict; [|apply twp_ret, (HQ false have it); try done; by split; [|apply Hfree]].
    apply twp_bind. eapply unlock_twp; [done|]. intros s2 W2 M2 L2 B2.
    assert (M12 : (moment s <= moment s2)%nat) by (by rewrite M2).
    apply twp_bind. destruct cur as [[]|].
    + apply twp_ret. by eapply (multi_relock_twp _ _ _ have _ s).
    + eapply acquire_twp; [done|]. intros s3 W3 _ M3 B3. eapply (multi_relock_twp _ _ _ true _ s); try done; [by rewrite B3, B2|lia].
    + eapply acquire_twp; [done|]. intros s3 W3 _ M3 B3. eapply (multi_relock_twp _ _ _ true _ s); try done; [by rewrite B3, B2|lia].
  - destruct (TransactionIdIsCurrentTransactionId (t_xmax (it_hdr it))) eqn:Hc; cbn [negb]; [|by eapply wait_single_twp].
    apply twp_ret, (HQ false have it); try done. split; [done|]. unfold waited. rewrite Hm. by left.
Qed.
End rules.
End wait.

(** For a deletion. *)
Abbreviation at_work := (at_work_in LockTupleExclusive).
