(* ===== verification/DeleteLoop.v ===== *)
(** The verdict of a deletion. *)
From stdpp Require Import relations.
From S2P Require Import Prelude Visibility VisibilityProps VisibilityHints VisibilitySpec VisibilityRules LockFlags MultiXact MultiXactProps EncTuple VisibilityMap VisibilityMapProps VisibilityMapOps Insert TupleStore Delete DeleteFree DeleteProps.

Section loop.
Context `{HH : HtupFlags} `{HHL : !HtupFlagsLaws} `{HW : World} `{HWL : !WorldLaws}.
Context `{HLF : LockFlags} `{HFB : !FlagBits} `{HMX : MultiXacts} `{HML : !MultiXactsLaws}.
Context `{HP : PgBlockSize} `{HBL : !PgBlockSizeLaws} `{HV : VmEnv} `{HVL : !VmLaws}.
Context `{HIE : InsertEnv} `{HI : !Interference} `{HSL : !StoreLaws}.

(** The tuple may be deleted: it was inserted, no one has deleted it or can
    still do so, and no one else holds it. *)
Definition deletable (it : HeapItem) (s : StoreState) : Prop :=
  inserter_in (it_hdr it) (moment s) /\ no_deleter (it_hdr it) (moment s)
  /\ free (multis (st_locks s)) (moment s) (it_hdr it) (it_infomask2 it).

(** What a verdict says when it is returned with the lock held. *)
Definition verdict_holds (tid : Z * Z) (wait : bool) (r : TM_Result) (it : HeapItem) (s : StoreState) : Prop :=
  match r with
  | TM_Ok => deletable it s
  | TM_Invisible => False
  | TM_SelfModified => TransactionIdIsCurrentTransactionId (deleter (it_hdr it)) = true
  | TM_Updated => HEAP_XMAX_IS_LOCKED_ONLY (t_infomask (it_hdr it)) = false /\ tid <> t_ctid (it_hdr it)
  | TM_Deleted => HEAP_XMAX_IS_LOCKED_ONLY (t_infomask (it_hdr it)) = false /\ tid = t_ctid (it_hdr it)
  | TM_BeingModified => wait = false
  | TM_WouldBlock => False
  end.

Section rules.
Variables (nf er : Prop).
Local Abbreviation T := (twp (fun _ => nf) (fun _ => er)).

(** A step with the lock held that sets hints at most. *)
Definition hinted_to (mode : LockTupleMode) (tid : Z * Z) (s0 : StoreState) (vm : Buffer) (have : bool) (it it' : HeapItem)
    (s s' : StoreState) : Prop :=
  at_work_in mode tid s0 true vm have it' s' /\ (pin_ok tid vm s -> pin_ok tid vm s') /\ same_row it it'
  /\ (moment s <= moment s')%nat /\ evolves (it_hdr it) (moment s) (it_hdr it') (moment s')
  /\ it_infomask2 it' = it_infomask2 it /\ multis (st_locks s') = multis (st_locks s)
  /\ (all_fine s -> all_fine s').

Lemma touched_all_fine tid it' s s' : touched tid it' s s' -> (moment s <= moment s')%nat ->
  multis (st_locks s') = multis (st_locks s) -> fine_in s' it' -> all_fine s -> all_fine s'.
Proof.
  intros [T1 T2 _ _ _] Ht Hm Hf Hall tid1 it1 Hi. destruct (decide (tid1 = tid)) as [->|Hne].
  - rewrite T1 in Hi. by injection Hi as <-.
  - rewrite T2 in Hi by done. destruct (Hall _ _ Hi) as [H1 H2]. split; rewrite Hm; [by eapply fine_later|done].
Qed.

Lemma hint_tuple_twp {A} mode tid s0 vm have (m : M VisState A) VQ it s (Q : A -> StoreState -> Prop) :
  at_work_in mode tid s0 true vm have it s -> vwp m VQ (it_hdr it) (moment s) ->
  (forall a h' t', VQ a h' t' -> header_fine (multis (st_locks s)) t' h' /\ evolves (it_hdr it) (moment s) h' t') ->
  (forall a h' s', VQ a h' (moment s') -> hinted_to mode tid s0 vm have it (with_hdr h' it) s s' -> Q a s') ->
  T (on_tuple tid m) Q s.
Proof.
  intros Hw Hv HE HQ. eapply on_tuple_twp; [apply Hw|exact Hv|]. intros a h' t' s' Ha Ht Hm Hs.
  destruct (HE a h' t' Ha) as [Hf He]. pose proof He as (Hle & Hst & _). apply (HQ a h'); [by rewrite Hm|].
  assert (W' : at_work_in mode tid s0 true vm have (with_hdr h' it) s').
  { eapply touched_at_work; [done|done|lia|done|by eapply evolves_row|by rewrite Hs, Hm|done]. }
  split_and!; [done|by eapply touched_pin_ok|by eapply evolves_row|lia|by rewrite Hm|done|done|].
  eapply touched_all_fine; [done|lia|done|]. apply (aw_fine W').
Qed.

(** The verdict once nobody is waited for any more. *)
Lemma verdict_after_wait_twp mode tid s0 vm have it s (Q : TM_Result -> StoreState -> Prop) :
  at_work_in mode tid s0 true vm have it s ->
  (forall r it' s', hinted_to mode tid s0 vm have it it' s s' ->
     (r = TM_Ok -> no_deleter (it_hdr it') (moment s')) ->
     (r <> TM_Ok -> HEAP_XMAX_IS_LOCKED_ONLY (t_infomask (it_hdr it')) = false
        /\ r = updated_or_deleted tid (it_hdr it')) -> Q r s') ->
  T (verdict_after_wait tid) Q s.
Proof.
  intros Hw HQ. unfold verdict_after_wait. apply twp_bind. eapply item_at_twp; [apply Hw|].
  assert (Hfine := proj1 (aw_fine Hw)). apply twp_bind.
  destruct (has (t_infomask (it_hdr it)) HEAP_XMAX_INVALID || HEAP_XMAX_IS_LOCKED_ONLY (t_infomask (it_hdr it))) eqn:E.
  - apply twp_ret, twp_ret, (HQ TM_Ok it); [|intros _|done].
    { split_and!; try done. apply evolves_stay; [apply Hfine|done]. }
    apply orb_true_iff in E as [?|?]; [by eapply hinted_invalid; [apply Hfine|]|by left].
  - eapply hint_tuple_twp; [done|by apply (IsOnlyLocked_rule (multis (st_locks s)))| |].
    { intros a h' t' (? & ? & _). done. }
    intros r h' s' (Hf' & He' & Hr) Hh. pose proof Hh as (W' & _). destruct r.
    + apply twp_ret, (HQ TM_Ok (with_hdr h' it)); [done|auto|done].
    + apply twp_bind. eapply item_at_twp; [apply W'|]. apply twp_ret.
      eapply HQ; [exact Hh|unfold updated_or_deleted; by case_bool_decide|]. intros _.
      pose proof He' as (_ & (_ & _ & _ & E4 & _)%same_tuple_facts & _).
      apply orb_false_iff in E as [_ E2]. cbn [it_hdr with_hdr]. split; [congruence|done].
Qed.

(** ** The loop *)

(** At the end of the loop. *)
Definition decided (tid : Z * Z) (s0 : StoreState) (wait : bool) (it0 : HeapItem) (r : TM_Result) (vm : Buffer) (have : bool)
    (s' : StoreState) : Prop :=
  exists it', at_work tid s0 true vm have it' s' /\ pin_ok tid vm s' /\ verdict_holds tid wait r it' s'
    /\ (quiet_store -> same_tuple (it_hdr it0) (it_hdr it')).

Lemma update_verdict_holds tid cid wait h h' t t' it s r : (r <> TM_BeingModified \/ wait = false) -> r <> TM_Invisible ->
  update_verdict tid cid h t t' r -> evolves h t h' t' -> moment s = t' -> it_hdr it = h' ->
  (r = TM_Ok -> free (multis (st_locks s)) t' h' (it_infomask2 it)) -> verdict_holds tid wait r it s.
Proof.
  intros Hb Hi Hv (Ht & Hs & Hz & _) <- <- Hfr. pose proof Hs as (E1 & _ & E3 & E4 & _ & _ & _ & E8 & _)%same_tuple_facts.
  destruct Hv as [[Hin Hr]|[? _]]; [|done].
  assert (Hin' : inserter_in (it_hdr it) (moment s)).
  { unfold inserter_in in *. rewrite E1, Hz. done. }
  destruct r; cbn [verdict_holds update_rule] in *; try done.
  - split; [done|]. split; [|by apply Hfr]. unfold no_deleter in *. by rewrite E4, E8.
  - rewrite E8. apply Hr.
  - destruct Hr as (Hl & _ & Hd). rewrite E4, E3. split; [done|]. intros Hx. discriminate (proj2 Hd Hx).
  - destruct Hr as (Hl & _ & Hd). rewrite E4, E3. split; [done|]. by apply Hd.
  - by destruct Hb.
Qed.

Lemma waited_verdict tid s0 vm have wait it it' s s' r :
  hinted_to LockTupleExclusive tid s0 vm have it it' s s' -> header_fine (multis (st_locks s)) (moment s) (it_hdr it) ->
  inserter_in (it_hdr it) (moment s) -> waited (multis (st_locks s)) (moment s) (it_hdr it) ->
  (r = TM_Ok -> no_deleter (it_hdr it') (moment s')) ->
  (r <> TM_Ok -> HEAP_XMAX_IS_LOCKED_ONLY (t_infomask (it_hdr it')) = false /\ r = updated_or_deleted tid (it_hdr it')) ->
  verdict_holds tid wait r it' s'.
Proof.
  intros (W' & _ & R' & M' & (_ & S' & _) & E2 & Hms & _) Hf Hin Hwt Hok Hno. destruct (decide (r = TM_Ok)) as [->|Hne].
  - split; [by eapply inserted_row|]. split; [by apply Hok|]. eapply waited_free; [apply W'| |by apply Hok].
    rewrite Hms. eapply waited_same; [exact S'|]. by eapply waited_later.
  - destruct (Hno Hne) as [Hl ->]. unfold updated_or_deleted. by case_bool_decide.
Qed.

(** Enough fuel: others can make the loop start over, we alone do not. *)
Definition loop_ends (fuel : nat) : Prop := nf \/ (1 <= fuel)%nat /\ quiet_store.

Lemma delete_loop_twp fuel tid cid wait s0 vm have it0 it s (Q : TM_Result * Buffer * bool -> StoreState -> Prop) :
  er -> loop_ends fuel -> 0 <= tid.1 < 2 ^ 32 -> tid.1 ∉ sheld s0 -> at_work tid s0 true vm have it s ->
  (quiet_store -> same_tuple (it_hdr it0) (it_hdr it)) ->
  (forall r vm' have' s', decided tid s0 wait it0 r vm' have' s' -> Q (r, vm', have') s') ->
  T (delete_loop fuel tid cid wait vm have) Q s.
Proof.
  intros He Hfuel Hr Hn. revert vm have it s. induction fuel as [|fuel IH]; intros vm have it s Hw Hq0 HQ.
  { by destruct Hfuel as [?|[? _]]; [|lia]. }
  cbn [delete_loop]. apply twp_bind. eapply recheck_pin_twp; [done..|]. intros vm1 s1 (it1 & W1 & R1 & Q1) P1.
  apply twp_bind. assert (F1 := proj1 (aw_fine W1)).
  eapply (hint_tuple_twp _ _ _ _ _ _ (fun r h' t' => update_verdict tid cid (it_hdr it1) (moment s1) t' r
    /\ header_fine (multis (st_locks s1)) t' h' /\ evolves (it_hdr it1) (moment s1) h' t'
    /\ (r = TM_Ok -> free (multis (st_locks s1)) t' h' (it_infomask2 it1)))); [done| | |].
  { eapply vwp_mono; [apply vwp_and; [by apply HeapTupleSatisfiesUpdate_rule; apply F1|by apply HeapTupleSatisfiesUpdate_free]|].
    intros r h' t' [[? _] (? & ? & ?)]. done. }
  { intros r h' t' (_ & ? & ? & _). done. }
  intros r h' s2 (V2 & _ & E2 & Fr2) (W2 & P2 & R2 & M2 & (_ & S2 & _) & _ & Hms & _). specialize (P2 P1).
  set (it2 := with_hdr h' it1) in *.
  assert (Hq2 : quiet_store -> same_tuple (it_hdr it0) (it_hdr it2)).
  { intros Hqu. destruct (Q1 Hqu) as [-> _]. etransitivity; [by apply Hq0|done]. }
  assert (Hdone : (r <> TM_BeingModified \/ wait = false) -> r <> TM_Invisible ->
    T (ret (r, vm1, have)) Q s2).
  { intros Hb Hi. apply twp_ret, HQ. exists it2. split_and!; try done.
    eapply (update_verdict_holds tid cid wait); try done. by rewrite Hms. }
  destruct r; try (apply Hdone; by auto).
  - apply twp_bind. unfold UnlockReleaseHeapBuffer. apply twp_bind. eapply unlock_twp; [done|]. intros s3 W3 _ _ _.
    unfold ReleaseHeapBuffer. apply twp_bind, twp_gets, twp_bind. rewrite (aw_pins W3).
    cbn [remove_pin]. rewrite Z.eqb_refl. eapply twp_defined; [done|]. by apply twp_modify.
  - destruct wait; [|by apply Hdone; [right|]]. apply twp_bind. eapply wait_for_holders_twp; [done|done|done|].
    intros again have3 it3 s3 W3 R3 M3 A3 Q3.
    assert (Hq3 : quiet_store -> same_tuple (it_hdr it0) (it_hdr it3)) by (intros Hqu; etransitivity; [by apply Hq2|auto]).
    destruct again; cbn [after_wait] in A3.
    + eapply IH; [|done|done|done]. destruct Hfuel as [?|[_ ?]]; [by left|done].
    + destruct A3 as [P3 Wt3]. apply twp_bind.
      assert (Hin : inserter_in (it_hdr it3) (moment s3)).
      { destruct V2 as [[Hin _]|[? _]]; [|done]. eapply inserted_row; [|exact M3|].
        - exact R3.
        - eapply (inserted_row it1); [exact R2|reflexivity|exact Hin]. }
      eapply verdict_after_wait_twp; [done|]. intros r it4 s4 H4 V4 N4.
      pose proof H4 as (W4 & P4 & R4 & M4 & (_ & S4 & _) & _).
      apply twp_ret, HQ. exists it4. split_and!; [done|auto| |intros Hqu; etransitivity; [by apply Hq3|done]].
      eapply waited_verdict; [exact H4|apply W3|exact Hin|exact Wt3|exact V4|exact N4].
Qed.

(** ** With the snapshot of a referential check *)

Lemma deletable_hinted it h' s s' : deletable it s -> evolves (it_hdr it) (moment s) h' (moment s') ->
  multis (st_locks s') = multis (st_locks s) -> deletable (with_hdr h' it) s'.
Proof.
  intros (Hi & Hn & Hf) He Hm. pose proof He as (Ht & Hs & _). split; [by eapply inserted_row; [eapply evolves_row| |]|].
  split.
  - apply (no_deleter_later _ _ _ Ht) in Hn. apply same_tuple_facts in Hs as (_ & _ & _ & E4 & _ & _ & _ & E8 & _).
    unfold no_deleter in *. cbn [it_hdr with_hdr]. by rewrite E4, E8.
  - rewrite Hm. cbn [it_hdr it_infomask2 with_hdr]. by eapply free_later; [exact Ht|eapply free_same].
Qed.

(** The verdict of pg_tde_delete. *)
Definition judged (tid : Z * Z) (s0 : StoreState) (wait : bool) (crosscheck : option Snapshot) (it0 : HeapItem) (r : TM_Result)
    (vm : Buffer) (have : bool) (s' : StoreState) : Prop :=
  exists it', at_work tid s0 true vm have it' s' /\ pin_ok tid vm s'
    /\ (verdict_holds tid wait r it' s' \/ r = TM_Updated /\ crosscheck <> None)
    /\ (quiet_store -> same_tuple (it_hdr it0) (it_hdr it')).

(** The snapshot of a referential check has been taken. *)
Definition check_ready (crosscheck : option Snapshot) (s : StoreState) : Prop :=
  forall sn, crosscheck = Some sn -> (snapshot_taken sn <= moment s)%nat.

Lemma check_snapshot_twp tid wait crosscheck s0 it0 r vm have s (Q : TM_Result -> StoreState -> Prop) :
  check_ready crosscheck s0 -> decided tid s0 wait it0 r vm have s ->
  (forall r' s', judged tid s0 wait crosscheck it0 r' vm have s' -> Q r' s') ->
  T (check_snapshot tid crosscheck r) Q s.
Proof.
  intros Hx (it & Hw & Hp & Hv & Hq) HQ. assert (Hsame : T (ret r) Q s).
  { apply twp_ret, HQ. exists it. split_and!; auto. }
  unfold check_snapshot. destruct crosscheck as [sn|]; [|done]. destruct r; try done. apply twp_bind.
  assert (F := proj1 (aw_fine Hw)).
  eapply (hint_tuple_twp _ _ _ _ _ _ (fun _ h' t' => header_fine (multis (st_locks s)) t' h' /\ evolves (it_hdr it) (moment s) h' t'));
    [done| |by intros|].
  - eapply vwp_mono; [apply vwp_and; [apply keeps_Visibility; [|apply F..]; specialize (Hx sn eq_refl); pose proof (aw_time Hw); lia|apply visibility_committed, F]|].
    intros r h' t' [He Hc]. split; [by eapply fine_evolves|done].
  - intros v h' s' [F' E'] (W' & P' & R' & M' & (_ & S' & _) & _ & Hms & _). apply twp_ret, HQ. exists (with_hdr h' it).
    assert (Hq' : quiet_store -> same_tuple (it_hdr it0) (it_hdr (with_hdr h' it))).
    { intros Hqu. etransitivity; [by apply Hq|done]. }
    destruct v; [|by split_and!; auto]. split_and!; [done|auto| |done]. left. by eapply deletable_hinted.
Qed.

Lemma delete_verdict_twp fuel tid cid crosscheck wait it s (Q : TM_Result * Buffer * bool -> StoreState -> Prop) :
  er -> loop_ends fuel -> check_ready crosscheck s -> 0 <= tid.1 < 2 ^ 32 -> tid.1 ∉ sheld s -> vm_ok (st_vm s) -> item tid s = Some it -> fine_in s it ->
  (forall r vm have s', judged tid s wait crosscheck it r vm have s' -> Q (r, vm, have) s') ->
  T (delete_verdict fuel tid cid crosscheck wait) Q s.
Proof.
  intros He Hfuel Hx Hr Hn Hv Hi Hf HQ. unfold delete_verdict. apply twp_bind. eapply pin_and_lock_twp; [done..|].
  intros vm s1 (it1 & W1 & R1 & Q1). apply twp_bind.
  eapply (delete_loop_twp _ _ _ _ _ _ _ it); [done..|by intros Hqu; destruct (Q1 Hqu) as [-> _]|].
  intros r vm2 have s2 H2. cbn beta iota. apply twp_bind. eapply check_snapshot_twp; [done..|].
  intros r' s3 H3. by apply twp_ret, HQ.
Qed.
End rules.
End loop.
