(* ===== verification/DeleteDone.v ===== *)
(** What a deletion does once the verdict is there: it fails and lets go, or
    overwrites the header. *)
From stdpp Require Import relations.
From S2P Require Import Prelude RelKeys TdeMap Visibility VisibilityProps VisibilityHints VisibilitySpec LockFlags MultiXact MultiXactProps EncTuple VisibilityMap VisibilityMapProps VisibilityMapOps Insert TupleStore Delete DeleteFree DeleteProps DeleteLoop.

Section done.
Context `{HH : HtupFlags} `{HHL : !HtupFlagsLaws} `{HW : World} `{HWL : !WorldLaws}.
Context `{HLF : LockFlags} `{HFB : !FlagBits} `{HMX : MultiXacts} `{HML : !MultiXactsLaws}.
Context `{HP : PgBlockSize} `{HBL : !PgBlockSizeLaws} `{HV : VmEnv} `{HVL : !VmLaws}.
Context `{HIE : InsertEnv} `{HSE : StoreEnv} `{HI : !Interference} `{HSL : !StoreLaws}.
Variables (rd_locator : RelFileLocator) (relkind : Z).

(** ** Letting go *)

(** All locks and pins are as before. *)
Record let_go (s0 s' : StoreState) : Prop := {
  lg_held : sheld s' = sheld s0;
  lg_pins : spins s' = spins s0;
  lg_tup : tuplocks (st_locks s') ≡ₚ tuplocks (st_locks s0);
  lg_map : pinned (st_vm s') ≡ₚ pinned (st_vm s0);
}.

Lemma remove_lock_perm l ls : remove_lock l (ls ++ [l]) ≡ₚ ls.
Proof.
  induction ls as [|l' ls IH]; cbn.
  - by rewrite bool_decide_eq_true_2.
  - case_bool_decide as E; [subst l'|by rewrite IH]. symmetry. apply Permutation_cons_append.
Qed.

(** ** What overwriting does *)

(** The page once the tuple is deleted. *)
Definition deleted_block (tid : Z * Z) (it' : HeapItem) (lsn : Z) (b : HeapBlock) : HeapBlock :=
  {| items := <[tid.2 := it']> (items b); all_visible_flag := false;
     prune_xid := prune_xid (PageSetPrunable GetCurrentTransactionId b); block_lsn := lsn |}.

(** The map no longer says anything of a block that was all-visible. *)
Definition map_cleared (bn : Z) (was : bool) (v v' : VmState) : Prop :=
  forall y, 0 <= y -> vm_status v' y = if (y =? bn) && was then 0 else vm_status v y.

(** Only the page and the log. *)
Definition rest_same (s s' : StoreState) : Prop :=
  st_vm s' = st_vm s /\ st_locks s' = st_locks s /\ sheld s' = sheld s /\ spins s' = spins s
  /\ toast_deletes s' = toast_deletes s.

(** At most new command ids are logged before. *)
Definition logged_with (r : StoreRecord) (l l' : list StoreRecord) : Prop :=
  exists pre, l' = l ++ pre ++ [r] /\ forall c, c ∈ pre -> exists n, c = XlStoreNewCid n.

(** The record of the deletion of [it'] on [b], with [old] to log. *)
Definition delete_logged (tid : Z * Z) (changing : bool) (x : Z) (old : option LoggedTuple * bool) (it' : HeapItem)
    (b : HeapBlock) : StoreRecord :=
  XlDelete GetCurrentTransactionId tid.1 (delete_record tid (all_visible_flag b) changing x (fst old) it')
    (if snd old then fst old else (fun _ => logged it') <$> fst old).

Record overwritten (tid : Z * Z) (changing : bool) (x : Z) (old : option LoggedTuple * bool) (it' : HeapItem)
    (b : HeapBlock) (s s' : StoreState) : Prop := {
  ow_blocks : exists lsn, blocks s' = <[tid.1 := deleted_block tid it' lsn b]> (blocks s);
  ow_vm : vm_ok (st_vm s') /\ pinned (st_vm s') = pinned (st_vm s);
  ow_map : map_cleared tid.1 (all_visible_flag b) (st_vm s) (st_vm s');
  ow_locks : st_locks s' = st_locks s;
  ow_held : sheld s' = sheld s;
  ow_pins : spins s' = spins s;
  ow_toast : toast_deletes s' = toast_deletes s;
  ow_wal : if RelationNeedsWAL then logged_with (delete_logged tid changing x old it' b) (st_wal s) (st_wal s')
           else st_wal s' = st_wal s;
}.

(** ** What a deletion leaves *)

(** Out-of-line values of the deleted tuple go too, in tables that have
    them. *)
Definition toast_gone (it' : HeapItem) : list (list (option (list Z)) * bool) :=
  if negb (relkind =? RELKIND_RELATION) && negb (relkind =? RELKIND_MATVIEW) then []
  else if has_external (logged it') then [(heap_deform_tuple (logged it'), false)] else [].

(** Who holds the item. *)
Definition item_holders (s : StoreState) (it : HeapItem) : list MultiXactMember :=
  holders (multis (st_locks s)) (t_xmax (it_hdr it)) (t_infomask (it_hdr it)) (it_infomask2 it).

(** From [s], where it was found that [it] can be deleted, to the end [s'];
    [it'] is the tuple then, [x] its xmax. *)
Record deleted_as (tid : Z * Z) (changing : bool) (it it' : HeapItem) (b : HeapBlock) (s s' : StoreState) : Prop := {
  da_before : blocks s !! tid.1 = Some b;
  da_blocks : exists lsn, blocks s' = <[tid.1 := deleted_block tid it' lsn b]> (blocks s);
  da_row : t_xmin (it_hdr it') = t_xmin (it_hdr it) /\ it_hoff it' = it_hoff it /\ it_data it' = it_data it;
  da_ctid : t_ctid (it_hdr it') = if changing then MovedPartitions else tid;
  da_mine : granted GetCurrentTransactionId LockTupleExclusive true (item_holders s' it');
  da_kept h : h ∈ item_holders s it -> counts (moment s') h -> kept GetCurrentTransactionId h (item_holders s' it');
  da_joins h : h ∈ item_holders s' it' -> joins (item_holders s it) GetCurrentTransactionId true h;
  da_map : map_cleared tid.1 (all_visible_flag b) (st_vm s) (st_vm s');
  da_toast : toast_deletes s' = toast_deletes s ++ toast_gone it';
  da_wal : if RelationNeedsWAL
           then logged_with (delete_logged tid changing (t_xmax (it_hdr it'))
                  (ExtractReplicaIdentity (logged it) true) it' b) (st_wal s) (st_wal s')
           else st_wal s' = st_wal s;
}.

Lemma clear_all_bits v x : Z.ldiff (vm_status v x) VISIBILITYMAP_VALID_BITS = 0.
Proof.
  rewrite valid_bits_value. pose proof (status_range v x). change 3 with (Z.ones 2).
  rewrite Z.ldiff_ones_r, Z.shiftr_div_pow2, Z.div_small by lia. apply Z.shiftl_0_l.
Qed.

Section rules.
Variables (nf er : Prop).
Local Abbreviation T := (twp (fun _ => nf) (fun _ => er)).

Lemma release_tuple_lock_twp tid (have : bool) base s (Q : unit -> StoreState -> Prop) :
  tuplocks (st_locks s) = base ++ (if have then [(tid, AccessExclusiveLock)] else []) ->
  (forall l', tuplocks l' ≡ₚ base -> multis l' = multis (st_locks s) -> lk_clock l' = moment s ->
     Q tt (with_slocks l' s)) ->
  T (release_tuple_lock tid have) Q s.
Proof.
  intros Hl HQ. unfold release_tuple_lock. destruct have.
  - eapply (on_locks_twp _ _ _ (fun _ l => l = snd (UnlockTupleTuplock tid LockTupleExclusive (st_locks s)))); [done|].
    intros [] l' ->. apply HQ; try done. cbn. rewrite Hl. apply remove_lock_perm.
  - apply twp_ret. replace s with (with_slocks (st_locks s) s) at 1 by (by destruct s). apply HQ; try done.
    by rewrite Hl, app_nil_r.
Qed.

Lemma release_map_twp vm P s (Q : unit -> StoreState -> Prop) :
  vm_ok (st_vm s) -> pinned (st_vm s) ≡ₚ buffer_pins vm ++ P ->
  (forall v, vm_ok v -> pinned v ≡ₚ P -> same_map (st_vm s) v -> Q tt (with_svm v s)) ->
  T (release_map vm) Q s.
Proof.
  intros Hv Hp HQ. destruct vm as [b|]; cbn [release_map].
  - destruct (ReleaseBuffer_spec b (st_vm s) Hv) as (v & Ev & V1 & V2 & V3 & _).
    { rewrite Hp. by left. }
    eapply on_svm_twp; [exact Ev|]. apply HQ; try done. rewrite Hp in V3. by apply Permutation_cons_inv in V3.
  - apply twp_ret. replace s with (with_svm (st_vm s) s) at 1 by (by destruct s). by apply HQ.
Qed.

Lemma release_pin_twp bn P s (Q : unit -> StoreState -> Prop) : spins s = bn :: P ->
  Q tt (with_spins P s) -> T (ReleaseHeapBuffer bn) Q s.
Proof.
  intros Hp HQ. unfold ReleaseHeapBuffer. apply twp_bind, twp_gets, twp_bind. rewrite Hp. cbn [remove_pin].
  rewrite Z.eqb_refl. eapply twp_defined; [done|]. by apply twp_modify.
Qed.

Lemma delete_failed_twp tid s0 r vm have it s (Q : TM_Result * option TM_FailureData -> StoreState -> Prop) :
  at_work tid s0 true vm have it s ->
  (forall s', let_go s0 s' -> blocks s' = blocks s -> moment s' = moment s -> st_wal s' = st_wal s0 ->
     toast_deletes s' = toast_deletes s0 -> Q (r, Some (failure_data r (it_hdr it))) s') ->
  T (delete_failed tid r vm have) Q s.
Proof.
  intros Hw HQ. unfold delete_failed. apply twp_bind. eapply item_at_twp; [apply Hw|].
  unfold UnlockReleaseHeapBuffer. apply twp_bind, twp_bind. eapply unlock_twp; [done|]. intros s1 W1 M1 L1 B1.
  eapply release_pin_twp; [apply W1|]. apply twp_bind.
  eapply release_tuple_lock_twp; [apply W1|]. intros l' Hl Hm Hc. apply twp_bind.
  eapply release_map_twp; [apply W1|apply W1|]. intros v Hv Hpv Hsm. apply twp_ret. destruct W1. apply HQ; try done.
  unfold moment in *. cbn in *. congruence.
Qed.

(** ** The masks of a deleted tuple *)

Lemma mark_deleted_holders st new_xmax m m2 cid combo ctid it :
  let it' := mark_deleted new_xmax m m2 cid combo ctid it in
  holders st (t_xmax (it_hdr it')) (t_infomask (it_hdr it')) (it_infomask2 it') = holders st new_xmax m m2.
Proof.
  intros it'. unfold it', mark_deleted, map_hdr, with_masks. cbn.
  apply holders_flags.
  - intros f Hf. set_unfold in Hf.
    assert (Hc : forall x, has (if combo then Z.lor x HEAP_COMBOCID else clear x HEAP_COMBOCID) (2 ^ bit_of f) = has x (2 ^ bit_of f)).
    { intros x. rewrite has_if, has_lor, has_clear_flag, combocid_other. by destruct combo; rewrite ?orb_false_r, ?andb_true_r. }
    rewrite Hc. destruct_or! Hf; subst f; flags; done.
  - flags. done.
Qed.

(** ** The critical section *)

Lemma crit_twp {A} (m : M StoreState A) Q s :
  twp (fun _ => nf) (fun _ => False) m Q s -> T (crit m) Q s.
Proof. unfold twp, crit. destruct (m s) as [[a|l| |] s']; try done. by destruct l. Qed.

Lemma clear_page_visible_twp bn vm b s (Q : bool -> StoreState -> Prop) :
  blocks s !! bn = Some b -> vm_ok (st_vm s) ->
  (all_visible_flag b = true -> vm = Some (HEAPBLK_TO_MAPBLOCK bn) /\ HEAPBLK_TO_MAPBLOCK bn ∈ pinned (st_vm s)) ->
  (forall v, vm_ok v -> pinned v = pinned (st_vm s) -> map_cleared bn (all_visible_flag b) (st_vm s) v ->
     Q (all_visible_flag b) (with_svm v (with_blocks (<[bn := with_visible_flag false b]> (blocks s)) s))) ->
  T (clear_page_visible bn vm) Q s.
Proof.
  intros Hb Hv Hp HQ. unfold clear_page_visible, block_at. apply twp_bind, twp_bind, twp_get.
  eapply twp_defined; [done|]. destruct (all_visible_flag b) eqn:E.
  - destruct (Hp eq_refl) as [-> Hpin]. unfold set_block. apply twp_bind, twp_modify, twp_bind.
    destruct (clear_spec bn VISIBILITYMAP_VALID_BITS (st_vm s) Hv Hpin) as (v & Ev & V1 & V2 & _ & _ & V3).
    { rewrite valid_bits_value. lia. }
    eapply on_svm_twp; [exact Ev|]. apply twp_ret, HQ; [done|done|]. intros y Hy. rewrite (V3 y Hy), andb_true_r.
    case_match; [|done]. apply clear_all_bits.
  - apply twp_ret. replace s with (with_svm (st_vm s) (with_blocks (<[bn := with_visible_flag false b]> (blocks s)) s)) at 1.
    + apply HQ; [done|done|]. intros y _. by rewrite andb_false_r.
    + replace (with_visible_flag false b) with b by (unfold with_visible_flag; rewrite <- E; by destruct b). rewrite insert_id by done.
      by destruct s.
Qed.

Lemma log_delete_twp tid cleared changing x (old : option LoggedTuple) (copied : bool) it b s (Q : unit -> StoreState -> Prop) :
  item tid s = Some it -> blocks s !! tid.1 = Some b ->
  (forall lsn s', rest_same s s' -> blocks s' = <[tid.1 := with_lsn lsn b]> (blocks s) ->
     logged_with (XlDelete GetCurrentTransactionId tid.1 (delete_record tid cleared changing x old it)
        (if copied then old else (fun _ => logged it) <$> old)) (st_wal s) (st_wal s') -> Q tt s') ->
  T (log_delete rd_locator tid cleared changing x old copied) Q s.
Proof.
  intros Hi Hb HQ. unfold log_delete. apply twp_bind. eapply item_at_twp; [done|]. apply twp_bind.
  assert (Hrest : forall pre s1, rest_same s s1 -> blocks s1 = blocks s -> st_wal s1 = st_wal s ++ pre ->
    (forall c, c ∈ pre -> exists n, c = XlStoreNewCid n) ->
    T (let* recptr := XLogInsert_store (XlDelete GetCurrentTransactionId tid.1 (delete_record tid cleared changing x old it)
         (if copied then old else (fun _ => logged it) <$> old)) in PageSetLSN_store tid.1 recptr) Q s1).
  { intros pre s1 Hr Hb1 Hw Hpre. apply twp_bind. unfold XLogInsert_store, PageSetLSN_store, block_at, set_block, twp at 1.
    apply twp_bind, twp_bind, twp_get. eapply twp_defined; [cbn; by rewrite Hb1|]. apply twp_modify. eapply HQ.
    - exact Hr.
    - cbn. by rewrite Hb1.
    - exists pre. split; [|done]. cbn. by rewrite Hw, <- app_assoc. }
  destruct RelationIsAccessibleInLogicalDecoding.
  - apply twp_bind. unfold log_store_new_cid. destruct (if has _ _ then _ else _) as [[cmin cmax] combo].
    unfold XLogInsert_store at 1, twp at 1. apply twp_ret.
    eapply (Hrest [_]); [by split_and!|done|done|]. intros c ->%list_elem_of_singleton. by eexists.
  - apply twp_ret. apply (Hrest []); [by split_and!|done|by rewrite app_nil_r|]. by intros c ?%elem_of_nil.
Qed.

End rules.

Section overwriting.
Variables (nf er : Prop).
Local Abbreviation T := (twp (fun _ => nf) (fun _ => er)).

Lemma overwrite_twp tid vm changing x m m2 cid combo old it b s (Q : unit -> StoreState -> Prop) :
  item tid s = Some it -> blocks s !! tid.1 = Some b -> vm_ok (st_vm s) ->
  (all_visible_flag b = true -> vm = Some (HEAPBLK_TO_MAPBLOCK tid.1) /\ HEAPBLK_TO_MAPBLOCK tid.1 ∈ pinned (st_vm s)) ->
  (forall s', overwritten tid changing x old (mark_deleted x m m2 cid combo (if changing then MovedPartitions else tid) it) b s s' ->
     Q tt s') ->
  T (overwrite rd_locator tid vm changing x m m2 cid combo old) Q s.
Proof.
  intros Hi Hb Hv Hp HQ. unfold overwrite. apply crit_twp. unfold block_at at 1.
  set (it' := mark_deleted _ _ _ _ _ _ it) in *.
  apply twp_bind, twp_bind, twp_get. eapply twp_defined; [done|]. unfold set_block at 1. apply twp_bind, twp_modify.
  set (s1 := with_blocks _ s). set (b1 := PageSetPrunable _ b) in *.
  assert (Hb1 : blocks s1 !! tid.1 = Some b1) by apply lookup_insert_eq.
  apply twp_bind. eapply (clear_page_visible_twp _ _ _ vm b1); [exact Hb1|exact Hv|exact Hp|]. intros v Hv' Hpin Hmap.
  set (s2 := with_svm _ _). set (b2 := with_visible_flag false b1) in *.
  assert (Hb2 : blocks s2 !! tid.1 = Some b2) by apply lookup_insert_eq.
  assert (Hi2 : item tid s2 = Some it).
  { unfold item. rewrite Hb2. cbn. destruct (item_block _ _ _ Hi) as (b' & Hb' & Hit). by rewrite Hb in Hb'; injection Hb' as <-. }
  apply twp_bind. eapply item_at_twp; [exact Hi2|]. apply twp_bind. eapply set_item_twp; [exact Hb2|].
  unfold MarkHeapBufferDirty. apply twp_bind, twp_modify. set (s3 := with_sdirty _ _).
  set (b3 := with_items (<[tid.2 := it']> (items b2)) b2).
  assert (Hb3 : blocks s3 !! tid.1 = Some b3) by apply lookup_insert_eq.
  assert (Hbl : forall b', <[tid.1 := b']> (blocks s3) = <[tid.1 := b']> (blocks s)).
  { intros b'. cbn. by rewrite !insert_insert_eq. }
  destruct RelationNeedsWAL eqn:EW.
  - eapply log_delete_twp; [|exact Hb3|].
    { unfold item. rewrite Hb3. apply lookup_insert_eq. }
    intros lsn s' (E1 & E2 & E3 & E4 & E5) Eb Ew. apply HQ. split; rewrite ?E1, ?E2, ?E3, ?E4, ?E5, ?EW; try done.
    exists lsn. by rewrite Eb, Hbl.
  - apply twp_ret, HQ. split; rewrite ?EW; try done. exists (block_lsn b). unfold s3. cbn. by rewrite !insert_insert_eq.
Qed.

Lemma after_delete_twp tid vm (have : bool) L base P it s (Q : unit -> StoreState -> Prop) :
  item tid s = Some it -> vm_ok (st_vm s) -> pinned (st_vm s) ≡ₚ buffer_pins vm ++ P -> spins s = tid.1 :: base ->
  tuplocks (st_locks s) = L ++ (if have then [(tid, AccessExclusiveLock)] else []) ->
  (forall s', blocks s' = blocks s -> multis (st_locks s') = multis (st_locks s) -> moment s' = moment s ->
     tuplocks (st_locks s') ≡ₚ L -> sheld s' = sheld s -> spins s' = base -> pinned (st_vm s') ≡ₚ P ->
     same_map (st_vm s) (st_vm s') -> st_wal s' = st_wal s ->
     toast_deletes s' = toast_deletes s ++ toast_gone it -> Q tt s') ->
  T (after_delete relkind tid vm have) Q s.
Proof.
  intros Hi Hv Hm Hp HL HQ. unfold after_delete. apply twp_bind. eapply release_map_twp; [done|exact Hm|].
  intros v Hv' Hpv Hsm. set (s1 := with_svm v s). apply twp_bind. eapply item_at_twp; [exact Hi|].
  apply twp_bind.
  assert (Hend : forall s2, blocks s2 = blocks s -> st_locks s2 = st_locks s -> sheld s2 = sheld s ->
    spins s2 = spins s -> st_vm s2 = v -> st_wal s2 = st_wal s -> toast_deletes s2 = toast_deletes s ++ toast_gone it ->
    T (ReleaseHeapBuffer tid.1;;; release_tuple_lock tid have) Q s2).
  { intros s2 E2 E3 E4 E5 E6 E7 E8. apply twp_bind. eapply release_pin_twp; [by rewrite E5|].
    eapply (release_tuple_lock_twp _ _ _ _ L); [cbn; by rewrite E3|]. intros l' Hl Hms Hc.
    unfold moment in *. cbn in Hms, Hc. apply HQ; cbn; rewrite ?E2, ?E4, ?E6, ?E7, ?E8; try done.
    - by rewrite Hms, E3.
    - by rewrite Hc, E3. }
  unfold toast_gone in Hend. destruct (_ && _).
  - apply twp_ret, Hend; try done. by rewrite app_nil_r.
  - destruct (has_external (logged it)).
    + apply twp_modify, Hend; done.
    + apply twp_ret, Hend; try done. by rewrite app_nil_r.
Qed.

Lemma unlock_held_twp bn base s (Q : unit -> StoreState -> Prop) : sheld s = bn :: base ->
  Q tt (with_sheld base s) -> T (UnlockHeapBuffer bn) Q s.
Proof.
  intros Hh HQ. unfold UnlockHeapBuffer. apply twp_bind, twp_gets, twp_bind. rewrite Hh. cbn [remove_pin].
  rewrite Z.eqb_refl. eapply twp_defined; [done|]. by apply twp_modify.
Qed.

(** Our own transaction is not the deleter. *)
Lemma not_own_deleter h t : no_deleter h t -> TransactionIdIsCurrentTransactionId GetCurrentTransactionId = true ->
  t_xmax h = GetCurrentTransactionId -> has (t_infomask h) HEAP_XMAX_IS_MULTI = false ->
  HEAP_XMAX_IS_LOCKED_ONLY (t_infomask h) = true.
Proof.
  intros [Hl|[Hp _]] Hc Hx Hm; [done|]. unfold deleter in Hp. rewrite Hm, Hx in Hp.
  by rewrite (current_running t _ Hc) in Hp.
Qed.

Lemma delete_now_twp tid s0 cid vm have changing it s (Q : TM_Result * option TM_FailureData -> StoreState -> Prop) :
  er -> TransactionIdIsCurrentTransactionId GetCurrentTransactionId = true ->
  at_work tid s0 true vm have it s -> pin_ok tid vm s -> deletable it s ->
  (forall s' it' b, let_go s0 s' -> deleted_as tid changing it it' b s s' -> Q (TM_Ok, None) s') ->
  T (delete_now rd_locator relkind tid cid vm have changing) Q s.
Proof.
  intros He Hcur Hw Hpin (_ & Hnd & _) HQ. unfold delete_now, check_store_conflict. apply twp_bind, twp_bind, twp_gets.
  destruct (serialization_conflict _ _); [done|]. apply twp_ret, twp_bind. eapply item_at_twp; [apply Hw|].
  destruct (HeapTupleHeaderAdjustCmax (it_hdr it) cid) as [cmax combo] eqn:Ec. apply twp_bind.
  destruct (item_block _ _ _ (aw_item Hw)) as (b & Hb & Hit). pose proof (proj1 (aw_fine Hw)) as Hf.
  eapply on_locks_twp.
  { apply wp_always; [|apply compute_always]. apply compute_new_xmax_wp; [by eapply fine_xmax_ok|done|].
    intros Hx Hm _. by eapply not_own_deleter. }
  intros [[x m] m2] l' [[_ _ Hg Hk Hj] (Tl & Ml & _)]. cbn [fst snd] in Hg, Hk, Hj. cbn beta iota.
  set (s1 := with_slocks l' s). assert (Hi1 : item tid s1 = Some it) by apply Hw.
  apply twp_bind. eapply (overwrite_twp _ _ _ _ _ _ _ _ _ _ b s1); [exact Hi1|exact Hb|apply Hw| |].
  { intros Hv. destruct (aw_buf Hw) as [->| ->].
    - by rewrite (Hpin eq_refl b Hb) in Hv.
    - split; [done|]. cbn. rewrite (aw_map Hw). by left. }
  set (it' := mark_deleted _ _ _ _ _ _ it). intros s2 [[lsn B2] [V2 P2] M2 L2 H2 S2 T2 W2].
  cbn in B2, V2, P2, M2, L2, H2, S2, T2, W2.
  apply twp_bind. eapply unlock_held_twp; [rewrite H2; apply Hw|]. apply twp_bind.
  eapply (after_delete_twp _ _ _ _ _ (pinned (st_vm s0)) it').
  - unfold item. cbn. rewrite B2, lookup_insert_eq. cbn. apply lookup_insert_eq.
  - exact V2.
  - cbn. rewrite P2. apply Hw.
  - cbn. rewrite S2. apply Hw.
  - cbn. rewrite L2, Tl. apply Hw.
  - intros s' E1 E2 E3 E4 E5 E6 E7 (E8 & _) E9 E10. cbn in *. change (Q (TM_Ok, None) s'). apply (HQ s' it' b); [done|].
    assert (Hh : item_holders s' it' = holders (multis l') x m m2).
    { unfold item_holders. rewrite E2, L2. apply mark_deleted_holders. }
    split; rewrite ?Hh; try done.
    + exists lsn. congruence.
    + intros h Hin Hc. apply Hk; [exact Hin|]. rewrite E3 in Hc. unfold moment in Hc. cbn in Hc. by rewrite L2 in Hc.
    + intros y Hy. by rewrite E8, (M2 y Hy).
    + congruence.
    + rewrite E9. exact W2.
Qed.
End overwriting.
End done.
