(* ===== verification/DeleteReplay.v ===== *)
(** The replay of a deletion: the tuple of the standby ends up with the same
    xmax, the same holders and the same successor.  And a speculative
    insertion that fails: its tuple is dead for everyone from then on. *)
From S2P Require Import Prelude RelKeys EncTuple TdeMap Visibility VisibilityProps VisibilityHints VisibilitySpec VisibilityMap VisibilityMapProps VisibilityMapOps LockFlags MultiXact MultiXactProps Insert TupleStore Delete DeleteFree DeleteProps DeleteDone.

Section replay.
Context `{HH : HtupFlags} `{HHL : !HtupFlagsLaws} `{HW : World} `{HWL : !WorldLaws}.
Context `{HLF : LockFlags} `{HFB : !FlagBits} `{HMX : MultiXacts} `{HML : !MultiXactsLaws}.
Context `{HP : PgBlockSize} `{HBL : !PgBlockSizeLaws} `{HV : VmEnv} `{HVL : !VmLaws}.
Context `{HIE : InsertEnv} `{HSE : StoreEnv} `{HI : !Interference} `{HSL : !StoreLaws}.

(** ** The flags of the record *)

Lemma delete_record_flags tid cleared changing x old it :
  has (xld_flags (delete_record tid cleared changing x old it)) XLH_DELETE_IS_SUPER = false
  /\ has (xld_flags (delete_record tid cleared changing x old it)) XLH_DELETE_IS_PARTITION_MOVE = changing
  /\ has (xld_flags (delete_record tid cleared changing x old it)) XLH_DELETE_ALL_VISIBLE_CLEARED = cleared.
Proof.
  cbn [xld_flags delete_record]. destruct cleared, changing, old; try case_match; by split_and!.
Qed.

(** ** The masks *)

Lemma has_land m n f : Z.land m f = Z.land n f -> has m f = has n f.
Proof. unfold has. by intros ->. Qed.

(** [invalid] is not one of the flags that are logged. *)
Lemma invalid_other : other_bits HEAP_XMAX_INVALID.
Proof.
  intros g Hg. assert (H : has g HEAP_XMAX_INVALID = false).
  { unfold infobit_flags in Hg. set_unfold. destruct_or! Hg; subst g; by flags. }
  unfold has in H. by apply negb_false_iff, Z.eqb_eq in H.
Qed.

Lemma granted_valid st h m2 add mode u :
  granted add mode u (holders st (t_xmax h) (t_infomask h) m2) -> has (t_infomask h) HEAP_XMAX_INVALID = false.
Proof.
  intros (mem & Hm & _). unfold holders in Hm. destruct (has _ HEAP_XMAX_INVALID); [|done].
  by apply not_elem_of_nil in Hm.
Qed.

Lemma redo_holders st tid cleared changing x old it jt :
  has (t_infomask (it_hdr it)) HEAP_XMAX_INVALID = false ->
  let jt' := redo_deleted tid (delete_record tid cleared changing x old it) jt in
  holders st x (t_infomask (it_hdr jt')) (it_infomask2 jt')
  = holders st x (t_infomask (it_hdr it)) (it_infomask2 it).
Proof.
  intros Hinv. unfold redo_deleted. cbn [infobits_set delete_record].
  set (n := clear (t_infomask (it_hdr jt)) _). set (n2 := clear (clear _ _) _).
  pose proof (infobits_roundtrip (t_infomask (it_hdr it)) (it_infomask2 it) n n2) as H.
  destruct (fix_infomask_from_infobits _ n n2) as [n' n2']. destruct H as (H1 & H2 & H3).
  destruct (delete_record_flags tid cleared changing x old it) as (-> & _). cbn [negb].
  unfold map_hdr, with_masks. cbn. apply holders_flags; [|done].
  intros f Hf.
  assert (Hc : has (clear n' HEAP_COMBOCID) (2 ^ bit_of f) = has n' (2 ^ bit_of f)).
  { by rewrite has_clear_flag, combocid_other, andb_true_r. }
  rewrite Hc. set_unfold in Hf. unfold infobit_flags in H1.
  destruct_or! Hf; subst f; rewrite <- ?keyshr_bit, <- ?excl_bit, <- ?lock_only_bit, <- ?xmax_invalid_bit, <- ?multi_bit;
    try (apply H1; set_solver).
  rewrite Hinv, (has_land _ _ _ (H3 _ invalid_other)). unfold n. by flags.
Qed.

Lemma redo_row tid cleared changing x old it jt :
  let jt' := redo_deleted tid (delete_record tid cleared changing x old it) jt in
  t_xmin (it_hdr jt') = t_xmin (it_hdr jt) /\ it_hoff jt' = it_hoff jt /\ it_data jt' = it_data jt
  /\ t_xmax (it_hdr jt') = x /\ t_ctid (it_hdr jt') = (if changing then MovedPartitions else tid).
Proof.
  destruct (delete_record_flags tid cleared changing x old it) as (F1 & F2 & _).
  unfold redo_deleted. destruct (fix_infomask_from_infobits _ _ _). by rewrite F1, F2.
Qed.

(** ** The page *)

Section rules.
Variables (nf er : Prop).
Local Abbreviation T := (twp (fun _ => nf) (fun _ => er)).

Lemma redo_clear_twp flags bn s (Q : unit -> StoreState -> Prop) : vm_ok (st_vm s) -> 0 <= bn < 2 ^ 32 ->
  (forall v, vm_ok v -> pinned v ≡ₚ pinned (st_vm s) ->
     map_cleared bn (has flags XLH_DELETE_ALL_VISIBLE_CLEARED) (st_vm s) v -> Q tt (with_svm v s)) ->
  T (redo_clear_store_map flags bn) Q s.
Proof.
  intros Hv Hb HQ. unfold redo_clear_store_map. destruct (has flags _).
  - destruct (pin_spec bn None (st_vm s) Hv Hb I) as (v1 & E1 & V1 & S1 & (rest & P1 & P2)).
    cbn [buffer_pins app] in P1, P2.
    apply twp_bind. eapply on_svm_twp; [exact E1|]. apply twp_bind.
    destruct (clear_spec bn VISIBILITYMAP_VALID_BITS v1 V1) as (v2 & E2 & V2 & Q2 & _ & _ & M2).
    { rewrite P2. by left. }
    { rewrite valid_bits_value. lia. }
    eapply on_svm_twp; [exact E2|]. eapply (release_map_twp _ _ _ rest); [exact V2|cbn; by rewrite Q2, P2|].
    intros v3 V3 Q3 (S3 & _). apply (HQ v3); [done|by rewrite Q3, P1|].
    intros y Hy. cbn in S3. rewrite S3, (M2 y Hy), andb_true_r. destruct S1 as (S1 & _).
    case_match; [|apply S1]. by apply clear_all_bits.
  - apply twp_ret. replace s with (with_svm (st_vm s) s) at 1 by (by destruct s). apply HQ; try done.
    intros y _. by rewrite andb_false_r.
Qed.

(** The page of the standby. *)
Definition replayed_block (tid : Z * Z) (r : xl_pg_tde_delete) (xid lsn : Z) (jt : HeapItem) (b : HeapBlock) : HeapBlock :=
  {| items := <[tid.2 := redo_deleted tid r jt]> (items b);
     all_visible_flag := all_visible_flag b && negb (has (xld_flags r) XLH_DELETE_ALL_VISIBLE_CLEARED);
     prune_xid := prune_xid (PageSetPrunable xid b); block_lsn := lsn |}.

Lemma redo_twp lsn xid tid r jt b s (Q : unit -> StoreState -> Prop) : vm_ok (st_vm s) -> 0 <= tid.1 < 2 ^ 32 ->
  xld_offnum r = tid.2 -> blocks s !! tid.1 = Some b -> items b !! tid.2 = Some jt ->
  (forall s', blocks s' = <[tid.1 := replayed_block tid r xid lsn jt b]> (blocks s) ->
     vm_ok (st_vm s') -> pinned (st_vm s') ≡ₚ pinned (st_vm s) ->
     map_cleared tid.1 (has (xld_flags r) XLH_DELETE_ALL_VISIBLE_CLEARED) (st_vm s) (st_vm s') -> Q tt s') ->
  T (pg_tde_xlog_delete lsn true xid tid.1 r) Q s.
Proof.
  intros Hv Hbn Ho Hb Hi HQ. unfold pg_tde_xlog_delete. apply twp_bind. eapply redo_clear_twp; [done|done|].
  intros v V P M. rewrite Ho, <- surjective_pairing. apply twp_bind, twp_get.
  assert (Hit : item tid (with_svm v s) = Some jt) by (unfold item; cbn; by rewrite Hb).
  rewrite Hit. apply twp_bind. eapply set_item_twp; [exact Hb|]. apply twp_bind. unfold block_at, set_block.
  apply twp_bind, twp_get. eapply twp_defined; [apply lookup_insert_eq|]. apply twp_bind, twp_modify, twp_modify.
  apply HQ; try done. cbn. rewrite insert_insert_eq. f_equal. unfold replayed_block.
  by case_match; rewrite ?andb_false_r, ?andb_true_r.
Qed.
End rules.
End replay.

(** An xid that no transaction has. *)
Class NoTransaction `{HtupFlags} `{World} := {
  invalid_not_current : TransactionIdIsCurrentTransactionId InvalidTransactionId = false;
  invalid_not_committed t : TransactionIdDidCommit t InvalidTransactionId = false;
}.

Section speculative.
Context `{HH : HtupFlags} `{HHL : !HtupFlagsLaws} `{HW : World} `{HWL : !WorldLaws} `{HNT : !NoTransaction}.
Context `{HLF : LockFlags} `{HFB : !FlagBits} `{HMX : MultiXacts} `{HML : !MultiXactsLaws}.
Context `{HP : PgBlockSize} `{HBL : !PgBlockSizeLaws} `{HV : VmEnv} `{HVL : !VmLaws}.
Context `{HIE : InsertEnv} `{HSE : StoreEnv} `{HI : !Interference} `{HSL : !StoreLaws}.

(** ** The dead tuple *)

Lemma invalid_dead t : dead_xact t InvalidTransactionId.
Proof.
  split; [|apply invalid_not_committed]. apply not_true_iff_false. by intros ?%running_valid.
Qed.

Lemma mark_aborted_flags tid it :
  let m := t_infomask (it_hdr it) in let m' := t_infomask (it_hdr (mark_aborted tid it)) in
  XminCommitted m' = XminCommitted m /\ XminInvalid m' = XminInvalid m /\ XminFrozen m' = XminFrozen m
  /\ has m' HEAP_XMAX_INVALID = false /\ has m' HEAP_XMAX_COMMITTED = false
  /\ has m' HEAP_MOVED_OFF = false /\ has m' HEAP_MOVED_IN = false.
Proof. cbv zeta. cbn [mark_aborted map_hdr with_masks with_hdr it_hdr t_infomask set_t_ctid set_xmin with_infomask]. by flags. Qed.

(** The hints of a tuple that our transaction has just inserted. *)
Lemma mark_aborted_ok tid it t : hints_ok (it_hdr it) t -> TransactionIdIsCurrentTransactionId (t_xmin (it_hdr it)) = true ->
  hints_ok (it_hdr (mark_aborted tid it)) t /\ tuple_ok (it_hdr (mark_aborted tid it)) t.
Proof.
  intros (H1 & _) Hcur. destruct (mark_aborted_flags tid it) as (E1 & E2 & E3 & E4 & E5 & E6 & E7).
  unfold hints_ok, tuple_ok. cbv zeta. rewrite E1, E3, E4, E5, E6, E7. split_and!; try done.
  - intros Hc Hz. specialize (H1 Hc Hz). by rewrite (current_uncommitted t _ Hcur) in H1.
  - intros _. apply invalid_dead.
  - change (t_xmin _) with InvalidTransactionId. by rewrite invalid_not_current.
Qed.

(** Nobody sees the tuple. *)
Definition dead_to_all (tid : Z * Z) (h : HeapTupleHeader) (t : nat) : Prop :=
  (forall c, vwp (HeapTupleSatisfiesUpdate tid c) (fun r _ _ => r = TM_Invisible) h t)
  /\ (forall sn, (snapshot_taken sn <= t)%nat -> vwp (HeapTupleSatisfiesMVCC sn) (fun r _ _ => r = false) h t).

Lemma mark_aborted_dead tid it t : hints_ok (it_hdr it) t -> TransactionIdIsCurrentTransactionId (t_xmin (it_hdr it)) = true ->
  XminFrozen (t_infomask (it_hdr it)) = false -> dead_to_all tid (it_hdr (mark_aborted tid it)) t.
Proof.
  intros Hh Hc Hz. destruct (mark_aborted_ok tid it t Hh Hc) as [Hok Htok].
  destruct (mark_aborted_flags tid it) as (_ & _ & E3 & _). rewrite Hz in E3. split.
  - intros c. eapply vwp_mono; [by apply HeapTupleSatisfiesUpdate_rule|]. intros r h' t' [[[Hin _]|[? _]] _]; [|done].
    unfold inserter_in in Hin. change (t_xmin _) with InvalidTransactionId in Hin.
    rewrite invalid_not_current, invalid_not_committed, E3 in Hin. by destruct_or! Hin.
  - intros sn Hsn. eapply vwp_mono; [by apply HeapTupleSatisfiesMVCC_rule|]. intros r h' t' [-> _].
    unfold mvcc_visible, mvcc_inserted. rewrite E3. change (t_xmin _) with InvalidTransactionId.
    by rewrite invalid_not_current, invalid_not_committed, andb_false_r.
Qed.

(** ** The whole call *)

(** The tuple was [it1] when the page was locked. *)
Record aborted_as (tid : Z * Z) (it1 : HeapItem) (b : HeapBlock) (s s1 s' : StoreState) : Prop := {
  ab_before : blocks s1 !! tid.1 = Some b /\ items b !! tid.2 = Some it1;
  ab_blocks : exists lsn, blocks s' = <[tid.1 :=
    {| items := <[tid.2 := mark_aborted tid it1]> (items b); all_visible_flag := all_visible_flag b;
       prune_xid := prune_xid (PageSetPrunable speculative_prune_xid b); block_lsn := lsn |}]> (blocks s1);
  ab_own : t_xmin (it_hdr it1) = GetCurrentTransactionId
    /\ IsToastRelation || HeapTupleHeaderIsSpeculative (it_hdr it1) = true;
  ab_map : st_vm s' = st_vm s1;
  ab_let_go : let_go s s';
  ab_moment : (moment s1 <= moment s')%nat;
}.

Section critical.
Variables (nf er : Prop).
Local Abbreviation T := (twp (fun _ => nf) (fun _ => er)).

Lemma abort_critical_twp tid it b s (Q : unit -> StoreState -> Prop) :
  blocks s !! tid.1 = Some b -> items b !! tid.2 = Some it ->
  (forall lsn s', rest_same s s' -> blocks s' = <[tid.1 :=
    {| items := <[tid.2 := mark_aborted tid it]> (items b); all_visible_flag := all_visible_flag b;
       prune_xid := prune_xid (PageSetPrunable speculative_prune_xid b); block_lsn := lsn |}]> (blocks s) -> Q tt s') ->
  T (abort_critical tid it) Q s.
Proof.
  intros Hb Hi HQ. unfold abort_critical. apply crit_twp. unfold block_at, set_block. apply twp_bind, twp_bind, twp_get.
  eapply twp_defined; [exact Hb|]. apply twp_bind, twp_modify, twp_bind. eapply set_item_twp; [apply lookup_insert_eq|].
  unfold MarkHeapBufferDirty. apply twp_bind, twp_modify. case_match.
  - unfold XLogInsert_store, PageSetLSN_store, block_at, set_block, put_item. apply twp_bind. unfold twp at 1.
    apply twp_bind, twp_bind, twp_get. eapply twp_defined; [apply lookup_insert_eq|]. apply twp_modify. eapply HQ; [done|].
    cbn. by rewrite !insert_insert_eq.
  - apply twp_ret. eapply (HQ (block_lsn b)); [done|]. cbn. by rewrite !insert_insert_eq.
Qed.
End critical.

Lemma abort_speculative_twp (nf er : Prop) tid it s (Q : unit -> StoreState -> Prop) :
  er -> tid.1 ∉ sheld s -> vm_ok (st_vm s) -> item tid s = Some it -> fine_in s it ->
  (forall it1 b s1 s', same_row it it1 -> fine_in s1 it1 -> (moment s <= moment s1)%nat ->
     aborted_as tid it1 b s s1 s' -> Q tt s') ->
  twp (fun _ => nf) (fun _ => er) (pg_tde_abort_speculative tid) Q s.
Proof.
  intros He Hn Hv Hi Hf HQ. unfold pg_tde_abort_speculative, ReadHeapBuffer. apply twp_bind, twp_modify.
  apply twp_bind. eapply lock_twp; [exact Hn|by apply (pinned_at_work LockTupleExclusive)|]. intros it1 s1 W R _ _ M _.
  apply twp_bind. eapply item_at_twp; [apply W|]. destruct (Z.eqb_spec (t_xmin (it_hdr it1)) GetCurrentTransactionId) as [Ex|]; [|done].
  cbn [negb]. destruct (IsToastRelation || _) eqn:Es; [|done]. cbn [negb].
  destruct (item_block _ _ _ (aw_item W)) as (b & Hb & Hit). apply twp_bind.
  eapply abort_critical_twp; [exact Hb|exact Hit|]. intros lsn s2 (E1 & E2 & E3 & E4 & E5) B2.
  apply twp_bind. eapply unlock_held_twp; [rewrite E3; apply W|]. apply twp_bind. eapply item_at_twp.
  { unfold item. cbn. rewrite B2, lookup_insert_eq. apply lookup_insert_eq. }
  assert (Hend : forall s3, blocks s3 = blocks s2 -> st_vm s3 = st_vm s2 -> st_locks s3 = st_locks s2 ->
    sheld s3 = sheld s -> spins s3 = spins s2 -> twp (fun _ => nf) (fun _ => er) (ReleaseHeapBuffer tid.1) Q s3).
  { intros s3 F1 F2 F3 F4 F5. eapply (release_pin_twp _ _ _ (spins s)); [rewrite F5, E4; apply W|].
    apply (HQ it1 b s1); [done|apply W|exact M|]. split; cbn; try done.
    - exists lsn. by rewrite F1, B2.
    - by rewrite F2, E1.
    - split; cbn; rewrite ?F2, ?F3, ?E1, ?E2; [done|done| |apply W].
      rewrite (aw_tup W). by rewrite app_nil_r.
    - unfold moment. cbn. by rewrite F3, E2. }
  apply twp_bind. case_match; [apply twp_modify|apply twp_ret]; by apply Hend.
Qed.
End speculative.
