(* ===== verification/DeleteClaims.v ===== *)
(** What deleting promises, whatever other backends do while it waits, and
    that it ends when they do nothing.  [ToyDelete] is a table, a session
    and a busy neighbour for which what deleting relies on holds: the other
    backend rewrites a page nobody has pinned whenever we wait for a lock. *)
From Stdlib Require Import ZifyBool.
From S2P Require Import Prelude RelKeys EncTuple TdeMap Visibility VisibilityProps VisibilityHints VisibilitySpec VisibilityClaims VisibilityMap VisibilityMapProps VisibilityMapOps VisibilityMapClaims LockFlags MultiXact MultiXactProps MultiXactClaims Insert TupleStore Delete DeleteFree DeleteProps DeleteLoop DeleteDone DeleteReplay.

Section claims.
Context `{HH : HtupFlags} `{HHL : !HtupFlagsLaws} `{HW : World} `{HWL : !WorldLaws}.
Context `{HLF : LockFlags} `{HFB : !FlagBits} `{HMX : MultiXacts} `{HML : !MultiXactsLaws}.
Context `{HP : PgBlockSize} `{HBL : !PgBlockSizeLaws} `{HV : VmEnv} `{HVL : !VmLaws}.
Context `{HIE : InsertEnv} `{HSE : StoreEnv} `{HI : !Interference} `{HSL : !StoreLaws}.
Variables (rd_locator : RelFileLocator) (relkind : Z).

(** What a call starts from. *)
Record can_delete (tid : Z * Z) (it : HeapItem) (s : StoreState) : Prop := {
  cd_block : 0 <= tid.1 < 2 ^ 32;
  cd_unlocked : tid.1 ∉ sheld s;
  cd_vm : vm_ok (st_vm s);
  cd_item : item tid s = Some it;
  cd_fine : fine_in s it;
  cd_xact : TransactionIdIsCurrentTransactionId GetCurrentTransactionId = true;
}.

(** How a call ends, [s1] being the state in which [it1] was judged. *)
Definition delete_end (tid : Z * Z) (changing : bool) (r : TM_Result) (tm : option TM_FailureData)
    (it1 : HeapItem) (s s1 s' : StoreState) : Prop :=
  match r with
  | TM_Ok => tm = None /\ exists it' b, deleted_as relkind tid changing it1 it' b s1 s'
  | _ => tm = Some (failure_data r (it_hdr it1)) /\ blocks s' = blocks s1
         /\ st_wal s' = st_wal s /\ toast_deletes s' = toast_deletes s
  end.

Section run.
Variables (nf er : Prop).
Local Abbreviation T := (twp (fun _ => nf) (fun _ => er)).

Lemma pg_tde_delete_twp fuel tid cid crosscheck wait changing it s (Q : TM_Result * option TM_FailureData -> StoreState -> Prop) :
  can_delete tid it s -> check_ready crosscheck s -> er -> loop_ends nf fuel ->
  (forall r vm have s1 it1 tm s', delete_verdict fuel tid cid crosscheck wait s = (Ret (r, vm, have), s1) ->
     at_work tid s true vm have it1 s1 ->
     (verdict_holds tid wait r it1 s1 \/ r = TM_Updated /\ crosscheck <> None) ->
     (quiet_store -> same_tuple (it_hdr it) (it_hdr it1)) ->
     delete_end tid changing r tm it1 s s1 s' -> let_go s s' -> Q (r, tm) s') ->
  T (pg_tde_delete rd_locator relkind fuel tid cid crosscheck wait changing) Q s.
Proof.
  intros [H1 H2 H3 H4 H5 H6] Hx He Hl HQ. unfold pg_tde_delete. destruct IsInParallelMode; [done|].
  pose proof (delete_verdict_twp nf er fuel tid cid crosscheck wait it s
    (fun r s1 => judged tid s wait crosscheck it r.1.1 r.1.2 r.2 s1) He Hl Hx H1 H2 H3 H4 H5 (fun _ _ _ _ H => H)) as Hv.
  unfold twp, bind. unfold twp in Hv. destruct (delete_verdict _ _ _ _ _ s) as [[[[r vm] have]|l| |] s1] eqn:E; try done.
  destruct Hv as (it1 & W1 & P1 & V1 & Q1). cbn [fst snd] in *.
  assert (Hfail : (forall tm s', tm = Some (failure_data r (it_hdr it1)) /\ blocks s' = blocks s1
      /\ st_wal s' = st_wal s /\ toast_deletes s' = toast_deletes s -> delete_end tid changing r tm it1 s s1 s') ->
    T (delete_failed tid r vm have) Q s1).
  { intros Hend. eapply delete_failed_twp; [exact W1|]. intros s' Hlg Hb _ Hw Ht. eapply HQ; [done|exact W1|exact V1|exact Q1|by apply Hend|done]. }
  destruct r; try (apply Hfail; by auto). apply (delete_now_twp _ _ _ _ _ s cid vm have changing it1 s1); try done.
  - destruct V1 as [?|[? _]]; done.
  - intros s' it' b Hlg Hd. eapply HQ; try done. split; [done|]. by exists it', b.
Qed.
End run.

Lemma delete_run fuel tid cid crosscheck wait changing it s r tm s' : can_delete tid it s -> check_ready crosscheck s ->
  pg_tde_delete rd_locator relkind fuel tid cid crosscheck wait changing s = (Ret (r, tm), s') ->
  exists vm have s1 it1, delete_verdict fuel tid cid crosscheck wait s = (Ret (r, vm, have), s1)
    /\ at_work tid s true vm have it1 s1
    /\ (verdict_holds tid wait r it1 s1 \/ r = TM_Updated /\ crosscheck <> None)
    /\ (quiet_store -> same_tuple (it_hdr it) (it_hdr it1))
    /\ delete_end tid changing r tm it1 s s1 s' /\ let_go s s'.
Proof.
  intros Hc Hx E.
  assert (H := pg_tde_delete_twp True True fuel tid cid crosscheck wait changing it s
    (fun a s' => exists vm have s1 it1, delete_verdict fuel tid cid crosscheck wait s = (Ret (a.1, vm, have), s1)
    /\ at_work tid s true vm have it1 s1
    /\ (verdict_holds tid wait a.1 it1 s1 \/ a.1 = TM_Updated /\ crosscheck <> None)
    /\ (quiet_store -> same_tuple (it_hdr it) (it_hdr it1))
    /\ delete_end tid changing a.1 a.2 it1 s s1 s' /\ let_go s s') Hc Hx I (or_introl I)).
  unfold twp in H. rewrite E in H. apply H. intros. by do 4 eexists.
Qed.

(** C10: only a free tuple is deleted, and then for good.  When pg_tde_delete
    says TM_Ok then, whatever other backends did while it waited: in the
    state in which the verdict was reached the tuple was there with the
    data and the inserter it had, inserted for us, deleted by nobody, and
    held by nobody else who counts; from that state to the end, only its
    page, the map and the log have changed, and on the page only the
    tuple's header and the page's own flags; our transaction now holds the
    tuple with an exclusive lock as its updater, who held it and still
    counts still does, and nobody else has joined; the page is no longer all-visible, nor is its block
    in the map; and all locks and pins taken are given back. *)
Theorem delete_takes_free_tuple fuel tid cid crosscheck wait changing it s tm s' (Hc : can_delete tid it s) (Hx : check_ready crosscheck s)
    (Hrun : pg_tde_delete rd_locator relkind fuel tid cid crosscheck wait changing s = (Ret (TM_Ok, tm), s')) :
  exists vm have s1 it1 it' b,
    delete_verdict fuel tid cid crosscheck wait s = (Ret (TM_Ok, vm, have), s1)
    /\ item tid s1 = Some it1 /\ same_row it it1 /\ deletable it1 s1
    /\ deleted_as relkind tid changing it1 it' b s1 s' /\ let_go s s' /\ tm = None.
Proof.
  destruct (delete_run _ _ _ _ _ _ _ _ _ _ _ Hc Hx Hrun) as (vm & have & s1 & it1 & E & W & V & _ & (-> & it' & b & D) & L).
  exists vm, have, s1, it1, it', b. split_and!; try done; [apply W| |].
  - apply W. apply Hc.
  - by destruct V as [?|[? _]].
Qed.

(** a deletion that fails changes nothing.  For every other result the
    pages, the log and the out-of-line values are as when the verdict was
    reached, all locks and pins are given back, and the result is reported
    with the tuple's successor, its updater and, only when our own
    transaction deleted it, its command: TM_SelfModified is about a tuple
    our transaction has deleted, TM_Updated and TM_Deleted about one that
    has a deleter and (but for a tuple that the snapshot of a referential
    check does not see) points to another tuple or to itself;
    TM_BeingModified is only for callers that do not wait, and an invisible
    tuple is an error. *)
Theorem delete_failure_reports fuel tid cid crosscheck wait changing it s r tm s' (Hc : can_delete tid it s) (Hx : check_ready crosscheck s)
    (Hrun : pg_tde_delete rd_locator relkind fuel tid cid crosscheck wait changing s = (Ret (r, tm), s'))
    (Hfail : r <> TM_Ok) :
  exists vm have s1 it1,
    delete_verdict fuel tid cid crosscheck wait s = (Ret (r, vm, have), s1)
    /\ item tid s1 = Some it1 /\ same_row it it1
    /\ blocks s' = blocks s1 /\ st_wal s' = st_wal s /\ toast_deletes s' = toast_deletes s /\ let_go s s'
    /\ tm = Some {| tmfd_ctid := t_ctid (it_hdr it1); tmfd_xmax := HeapTupleHeaderGetUpdateXid (it_hdr it1);
                    tmfd_cmax := if bool_decide (r = TM_SelfModified) then HeapTupleHeaderGetCmax (it_hdr it1)
                                 else InvalidCommandId |}
    /\ r <> TM_Invisible
    /\ (r = TM_BeingModified -> wait = false)
    /\ (r = TM_SelfModified -> TransactionIdIsCurrentTransactionId (deleter (it_hdr it1)) = true)
    /\ (r = TM_Deleted -> HEAP_XMAX_IS_LOCKED_ONLY (t_infomask (it_hdr it1)) = false /\ tid = t_ctid (it_hdr it1))
    /\ (r = TM_Updated -> crosscheck = None ->
        HEAP_XMAX_IS_LOCKED_ONLY (t_infomask (it_hdr it1)) = false /\ tid <> t_ctid (it_hdr it1)).
Proof.
  destruct (delete_run _ _ _ _ _ _ _ _ _ _ _ Hc Hx Hrun) as (vm & have & s1 & it1 & E & W & V & _ & D & L).
  exists vm, have, s1, it1. assert (Hr : r <> TM_Invisible).
  { destruct V as [V|[-> _]]; [by destruct r|done]. }
  assert (D' : tm = Some (failure_data r (it_hdr it1)) /\ blocks s' = blocks s1
     /\ st_wal s' = st_wal s /\ toast_deletes s' = toast_deletes s) by (by destruct r).
  destruct D' as (-> & Db & Dw & Dt). split; [done|]. split; [apply W|]. split; [apply W, Hc|].
  split_and!; try done.
  - unfold failure_data. do 2 f_equal. by destruct r.
  - intros ->. by destruct V as [?|[? _]].
  - intros ->. by destruct V as [?|[? _]].
  - intros ->. by destruct V as [?|[? _]].
  - intros -> Hn. by destruct V as [?|[_ ?]].
Qed.

(** deleting ends.  When no other backend interferes, one round is
    enough: pg_tde_delete never runs out of fuel, never panics and never
    does what is undefined, so it returns a result or raises an error; the
    tuple is judged with the xmin, the xmax and the successor it had. *)
Theorem delete_ends_alone fuel tid cid crosscheck wait changing it s (Hc : can_delete tid it s) (Hx : check_ready crosscheck s)
    (Halone : quiet_store) (Hfuel : (1 <= fuel)%nat) :
  exists s', pg_tde_delete rd_locator relkind fuel tid cid crosscheck wait changing s = (Raise ERROR, s')
    \/ exists r tm vm have s1 it1,
         pg_tde_delete rd_locator relkind fuel tid cid crosscheck wait changing s = (Ret (r, tm), s')
         /\ delete_verdict fuel tid cid crosscheck wait s = (Ret (r, vm, have), s1)
         /\ item tid s1 = Some it1 /\ same_tuple (it_hdr it) (it_hdr it1).
Proof.
  assert (H : twp (fun _ => False) (fun _ => True)
    (pg_tde_delete rd_locator relkind fuel tid cid crosscheck wait changing)
    (fun a _ => exists vm have s1 it1, delete_verdict fuel tid cid crosscheck wait s = (Ret (a.1, vm, have), s1)
      /\ item tid s1 = Some it1 /\ same_tuple (it_hdr it) (it_hdr it1)) s).
  { eapply pg_tde_delete_twp; [done|done|done|by right|]. intros r vm have s1 it1 tm s2 E W _ Hq _ _.
    exists vm, have, s1, it1. split_and!; [done|apply W|by apply Hq]. }
  unfold twp in H. destruct (pg_tde_delete _ _ _ _ _ _ _ _ s) as [[[r tm]|[]| |] s']; try done.
  - exists s'. right. destruct H as (vm & have & s1 & it1 & H1 & H2 & H3). by exists r, tm, vm, have, s1, it1.
  - exists s'. by left.
Qed.
(** C19: a standby that replays a deletion has the same tuple.  When a
    deletion is logged its record is the last one, and replaying it on any
    page that has an item at the place succeeds: the item keeps its
    inserter and its data, and gets the xmax, the successor and, by the
    flags of the record, the holders that the tuple has on the primary,
    whatever its masks were; nothing else on the page changes but the hint
    for pruning, the LSN, and the all-visible flag, which is cleared when
    that of the primary was, together with the bits of the map. *)
Theorem delete_replays_alike fuel tid cid crosscheck wait changing it s tm s' (Hc : can_delete tid it s) (Hx : check_ready crosscheck s)
    (Hrun : pg_tde_delete rd_locator relkind fuel tid cid crosscheck wait changing s = (Ret (TM_Ok, tm), s'))
    (Hwal : RelationNeedsWAL = true) :
  exists pre r old it' vm have s1 b1,
    st_wal s' = st_wal s ++ pre ++ [XlDelete GetCurrentTransactionId tid.1 r old]
    /\ item tid s' = Some it'
    /\ delete_verdict fuel tid cid crosscheck wait s = (Ret (TM_Ok, vm, have), s1) /\ blocks s1 !! tid.1 = Some b1
    /\ forall lsn t b jt, vm_ok (st_vm t) -> blocks t !! tid.1 = Some b -> items b !! tid.2 = Some jt ->
       exists t' jt', pg_tde_xlog_delete lsn true GetCurrentTransactionId tid.1 r t = (Ret tt, t')
         /\ blocks t' = <[tid.1 := {| items := <[tid.2 := jt']> (items b);
                                      all_visible_flag := all_visible_flag b && negb (all_visible_flag b1);
                                      prune_xid := prune_xid (PageSetPrunable GetCurrentTransactionId b);
                                      block_lsn := lsn |}]> (blocks t)
         /\ map_cleared tid.1 (all_visible_flag b1) (st_vm t) (st_vm t') /\ pinned (st_vm t') ≡ₚ pinned (st_vm t)
         /\ t_xmin (it_hdr jt') = t_xmin (it_hdr jt) /\ it_hoff jt' = it_hoff jt /\ it_data jt' = it_data jt
         /\ t_xmax (it_hdr jt') = t_xmax (it_hdr it') /\ t_ctid (it_hdr jt') = t_ctid (it_hdr it')
         /\ forall st, holders st (t_xmax (it_hdr jt')) (t_infomask (it_hdr jt')) (it_infomask2 jt')
                       = holders st (t_xmax (it_hdr it')) (t_infomask (it_hdr it')) (it_infomask2 it').
Proof.
  destruct (delete_run _ _ _ _ _ _ _ _ _ _ _ Hc Hx Hrun) as (vm & have & s1 & it1 & E & W & V & _ & (_ & it' & b1 & D) & _).
  pose proof (da_wal _ _ _ _ _ _ _ _ D) as Dw. rewrite Hwal in Dw. destruct Dw as (pre & Dw & _).
  set (r := delete_record tid (all_visible_flag b1) changing (t_xmax (it_hdr it'))
              (fst (ExtractReplicaIdentity (logged it1) true)) it').
  exists pre, r. do 2 eexists. exists vm, have, s1, b1. split_and!; [|  |exact E|apply D|].
  - rewrite Dw, (aw_wal W). reflexivity.
  - destruct (da_blocks _ _ _ _ _ _ _ _ D) as [lsn B]. unfold item. rewrite B, lookup_insert_eq. apply lookup_insert_eq.
  - intros lsn t b jt Hv Hb Hi. destruct (delete_record_flags tid (all_visible_flag b1) changing (t_xmax (it_hdr it'))
      (fst (ExtractReplicaIdentity (logged it1) true)) it') as (_ & _ & F3). fold r in F3.
    assert (H : twp (fun _ => False) (fun _ => False) (pg_tde_xlog_delete lsn true GetCurrentTransactionId tid.1 r)
      (fun _ t' => blocks t' = <[tid.1 := replayed_block tid r GetCurrentTransactionId lsn jt b]> (blocks t)
         /\ map_cleared tid.1 (all_visible_flag b1) (st_vm t) (st_vm t') /\ pinned (st_vm t') ≡ₚ pinned (st_vm t)) t).
    { eapply redo_twp; [done|apply Hc|done|done|done|]. intros t' B _ P M. rewrite F3 in M. done. }
    unfold twp in H. destruct (pg_tde_xlog_delete _ _ _ _ _ t) as [[[]|[]| |] t']; try done. destruct H as (B & M & P).
    exists t', (redo_deleted tid r jt). split; [done|]. split; [by rewrite B; unfold replayed_block; rewrite F3|].
    destruct (redo_row tid (all_visible_flag b1) changing (t_xmax (it_hdr it'))
      (fst (ExtractReplicaIdentity (logged it1) true)) it' jt) as (R1 & R2 & R3 & R4 & R5). fold r in R1, R2, R3, R4, R5.
    do 6 (split; [done|]). split; [by rewrite R5, (da_ctid _ _ _ _ _ _ _ _ D)|]. intros st. rewrite R4.
    apply redo_holders. eapply granted_valid, D.
Qed.
(** C37: a failed speculative insertion is dead at once.
    pg_tde_abort_speculative returns only for a tuple that our transaction
    inserted and (but in TOAST tables) marked as speculative; the tuple
    then points to itself, its data is as before, nothing else on the page
    has changed but the hint for pruning and the LSN, all locks and pins
    are given back; and from then on, at every later moment, the tuple is
    invisible to those who would update it, whatever their command, and to
    every MVCC snapshot, our own transaction's included (unless it had been
    inserted frozen). *)
Theorem speculative_abort_kills `{HNT : !NoTransaction} tid it s s' (Hc : can_delete tid it s)
    (Hrun : pg_tde_abort_speculative tid s = (Ret tt, s')) :
  exists it1 b s1, same_row it it1 /\ aborted_as tid it1 b s s1 s'
    /\ item tid s' = Some (mark_aborted tid it1)
    /\ (XminFrozen (t_infomask (it_hdr it1)) = false ->
        forall t, (moment s' <= t)%nat -> dead_to_all tid (it_hdr (mark_aborted tid it1)) t).
Proof.
  assert (H : twp (fun _ => True) (fun _ => True) (pg_tde_abort_speculative tid) (fun _ s' => exists it1 b s1,
    same_row it it1 /\ fine_in s1 it1 /\ aborted_as tid it1 b s s1 s') s).
  { eapply abort_speculative_twp; [done|apply Hc..|]. intros it1 b s1 s2 R F _ A. by exists it1, b, s1. }
  unfold twp in H. rewrite Hrun in H. destruct H as (it1 & b & s1 & R & F & A). exists it1, b, s1.
  destruct A as [A1 [lsn A2] [A3 A4] A5 A6 A7]. split_and!; [done|split; eauto| |].
  - unfold item. rewrite A2, lookup_insert_eq. apply lookup_insert_eq.
  - intros Hz t Ht. apply mark_aborted_dead; [|rewrite A3; apply Hc|done].
    eapply hints_ok_later; [|apply F]. lia.
Qed.
End claims.

Module ToyDelete.
Import ToyWorld ToyLocks ToyMap.

#[export] Instance del_flags : HtupFlags := pg_flags.

#[export] Instance session : InsertEnv := {|
  HEAP_XACT_MASK := 0xfff0;
  HEAP2_XACT_MASK := 0xe000;
  HEAP_COMBOCID := 0x20;
  HEAP_INSERT_FROZEN := 4;
  HEAP_INSERT_NO_LOGICAL := 8;
  RELKIND_RELATION := 114;
  RELKIND_MATVIEW := 109;
  IsParallelWorker := false;
  HeapTupleHasExternal _ := false;
  RelationIsLogicallyLogged := false;
  IsToastRelation := true;
  SaveFreeSpace := 0;
  CheckForSerializableConflictIn _ := false;
  GetCurrentTransactionId := 100;
  GetTopTransactionId := 100;
  HeapTupleHeaderGetCmin_bytes _ := 0;
  HeapTupleHeaderGetCmax_bytes _ := 0;
|}.

#[export] Instance table : StoreEnv := {|
  IsInParallelMode := false;
  HEAP_HASEXTERNAL := 4;
  MovedPartitions := (2 ^ 32 - 1, 65533);
  serialization_conflict _ _ := false;
  HeapTupleHeaderAdjustCmax _ cid := (cid, false);
  relreplident := 100;
  REPLICA_IDENTITY_NOTHING := 110;
  REPLICA_IDENTITY_FULL := 102;
  FirstLowInvalidHeapAttributeNumber := -7;
  identity_key_attrs := [];
  heap_deform_tuple _ := [];
  heap_form_tuple _ := ({| xlh_infomask2 := 0; xlh_infomask := 0; xlh_hoff := 24 |}, []);
  toast_flatten_tuple t := t;
  TransactionXmin := 90;
  relfrozenxid := 3;
|}.

#[export] Instance no_transaction : NoTransaction.
Proof. split; [reflexivity|intros t; reflexivity]. Qed.

Lemma combo_law x : has HEAP_COMBOCID (2 ^ bit_of x) = false.
Proof.
  destruct x; rewrite <- ?keyshr_bit, <- ?excl_bit, <- ?lock_only_bit, <- ?xmin_committed_bit, <- ?xmin_invalid_bit,
    <- ?xmax_committed_bit, <- ?xmax_invalid_bit, <- ?multi_bit, <- ?moved_off_bit, <- ?moved_in_bit; reflexivity.
Qed.

Lemma conflict_law a b : DoLockModesConflict (hwlock a) (hwlock b) = (3 <=? mode_rank a + mode_rank b).
Proof. by destruct a, b. Qed.

(** ** Alone, and with a neighbour *)

Definition other_page (n : nat) : HeapBlock :=
  {| items := ∅; all_visible_flag := false; prune_xid := 0; block_lsn := Z.of_nat n |}.

Definition rewrites (n : nat) (s : StoreState) : StoreState :=
  if bool_decide (7 ∈ sheld s ++ spins s) then s else with_blocks (<[7 := other_page n]> (blocks s)) s.

Definition neighbour : Interference := {| interfere := rewrites |}.
Definition alone : Interference := {| interfere _ s := s |}.

Lemma rewrites_undisturbed n s : undisturbed s (rewrites n s).
Proof.
  unfold rewrites. case_bool_decide as E; [split; try done; intros tid it _ Hi Hf; by exists it|].
  rewrite elem_of_app in E. split; try done.
  - intros bn Hb. cbn. apply lookup_insert_ne. intros <-. tauto.
  - intros tid it Hp Hi Hf. exists it. split_and!; try done. unfold item in *. cbn.
    rewrite lookup_insert_ne; [done|]. intros Heq. rewrite <- Heq in Hp. tauto.
  - intros Hall [bn o] it. unfold item. cbn. destruct (decide (bn = 7)) as [->|Hne].
    + rewrite lookup_insert_eq. cbn. by rewrite lookup_empty.
    + rewrite lookup_insert_ne by done. apply (Hall (bn, o)).
Qed.

Lemma alone_laws : StoreLaws (HI := alone).
Proof.
  split; [|exact conflict_law|exact combo_law]. intros s. split; try done. intros tid it _ Hi Hf. by exists it.
Qed.

Lemma neighbour_laws : StoreLaws (HI := neighbour).
Proof. split; [|exact conflict_law|exact combo_law]. intros s. apply rewrites_undisturbed. Qed.

(** ** A table *)

(** Block 6 is all-visible; its tuple was inserted by transaction 5 and is
    share-locked by transaction 9, which runs until moment 10. *)
Definition locked_item : HeapItem :=
  {| it_hdr := {| t_xmin := 5; t_xmax := 9; t_field3 := 0; t_ctid := (6, 1); t_infomask := 0x1d0 |};
     it_infomask2 := 2; it_hoff := 24; it_data := [7; 7; 7] |}.
(** Just inserted by us. *)
Definition new_item : HeapItem :=
  {| it_hdr := {| t_xmin := 100; t_xmax := 0; t_field3 := 0; t_ctid := (6, 2); t_infomask := 0x800 |};
     it_infomask2 := 2; it_hoff := 24; it_data := [8; 8] |}.

Definition toy_store : StoreState :=
  {| blocks := {[ 6 := {| items := {[ 1 := locked_item; 2 := new_item ]}; all_visible_flag := true;
                          prune_xid := 0; block_lsn := 0 |} ]};
     st_vm := marked;
     st_locks := {| multis := tt; lk_clock := 0; warned := []; tuplocks := [] |};
     sheld := []; spins := []; sdirty := []; st_wal := []; toast_deletes := [] |}.

Lemma locked_fine : fine_in toy_store locked_item.
Proof.
  split; split; try done; unfold hints_ok, tuple_ok, committed_fine; cbn; split_and!; naive_solver.
Qed.

Lemma new_fine : fine_in toy_store new_item.
Proof.
  split; split; try done; unfold hints_ok, tuple_ok, committed_fine, dead_xact; cbn; split_and!; naive_solver.
Qed.

Lemma can_delete_locked : can_delete (6, 1) locked_item toy_store.
Proof. split; [split; done|by intros ?%elem_of_nil|apply marked_ok|done|apply locked_fine|done]. Qed.

Lemma toy_ready s : check_ready None s.
Proof. done. Qed.

Lemma can_delete_new : can_delete (6, 2) new_item toy_store.
Proof. split; [split; done|by intros ?%elem_of_nil|apply marked_ok|done|apply new_fine|done]. Qed.
End ToyDelete.

Section witnesses.
Import ToyWorld ToyLocks ToyMap ToyDelete.
#[local] Existing Instance neighbour.
#[local] Existing Instance neighbour_laws.

Definition toy_rel : RelFileLocator := {| spcOid := 1; dbOid := 2; relNumber := 3 |}.

(** The neighbour is at work, and transaction 9 is waited for. *)
Definition toy_run (wait : bool) : outcome (TM_Result * option TM_FailureData) * StoreState :=
  pg_tde_delete toy_rel 114 1 (6, 1) 2 None wait false toy_store.

Lemma toy_deleted : toy_run true = (Ret (TM_Ok, None), snd (toy_run true)).
Proof. vm_compute. reflexivity. Qed.

Lemma delete_takes_free_tuple_witness :
  exists it', item (6, 1) (snd (toy_run true)) = Some it' /\ it_data it' = [7; 7; 7]
    /\ granted 100 LockTupleExclusive true (item_holders (snd (toy_run true)) it').
Proof.
  destruct (delete_takes_free_tuple toy_rel 114 1 (6, 1) 2 None true false locked_item toy_store None
    (snd (toy_run true)) can_delete_locked (toy_ready _) toy_deleted)
    as (vm & have & s1 & it1 & it' & b & E & Hi & R & _ & D & _).
  exists it'. destruct D as [_ [lsn D2] D3 _ D5 _ _ _ _ _]. split_and!.
  - unfold item. rewrite D2, lookup_insert_eq. apply lookup_insert_eq.
  - rewrite (proj2 (proj2 D3)). destruct R as (_ & _ & -> & _). reflexivity.
  - exact D5.
Defined.

(** Without waiting the tuple is left alone. *)
Lemma delete_failure_reports_witness :
  exists vm have s1, delete_verdict 1 (6, 1) 2 None false toy_store = (Ret (TM_BeingModified, vm, have), s1)
    /\ blocks (snd (toy_run false)) = blocks s1 /\ let_go toy_store (snd (toy_run false)).
Proof.
  destruct (delete_failure_reports toy_rel 114 1 (6, 1) 2 None false false locked_item toy_store TM_BeingModified
    (snd (match toy_run false with (Ret r, s') => r | _ => (TM_Ok, None) end)) (snd (toy_run false)) can_delete_locked (toy_ready _))
    as (vm & have & s1 & it1 & E & _ & _ & B & _ & _ & L & _).
  - vm_compute. reflexivity.
  - discriminate.
  - exists vm, have, s1. split_and!; [exact E|exact B|exact L].
Defined.

Lemma delete_replays_alike_witness :
  exists pre r old it', st_wal (snd (toy_run true)) = pre ++ [XlDelete 100 6 r old]
    /\ item (6, 1) (snd (toy_run true)) = Some it'
    /\ exists t' jt', pg_tde_xlog_delete 50 true 100 6 r toy_store = (Ret tt, t')
       /\ t_xmax (it_hdr jt') = t_xmax (it_hdr it').
Proof.
  destruct (delete_replays_alike toy_rel 114 1 (6, 1) 2 None true false locked_item toy_store None
    (snd (toy_run true)) can_delete_locked (toy_ready _) toy_deleted eq_refl)
    as (pre & r & old & it' & vm & have & s1 & b1 & Ew & Ei & _ & _ & H).
  exists pre, r, old, it'. split; [exact Ew|]. split; [exact Ei|].
  destruct (H 50 toy_store {| items := {[ 1 := locked_item; 2 := new_item ]}; all_visible_flag := true;
                              prune_xid := 0; block_lsn := 0 |} locked_item) as (t' & jt' & E & _ & _ & _ & _ & _ & _ & X & _).
  - apply marked_ok.
  - reflexivity.
  - reflexivity.
  - exists t', jt'. split; [exact E|exact X].
Defined.

Definition toy_abort : outcome unit * StoreState := pg_tde_abort_speculative (6, 2) toy_store.

Lemma speculative_abort_kills_witness :
  exists it', item (6, 2) (snd toy_abort) = Some it' /\ dead_to_all (6, 2) (it_hdr it') 20.
Proof.
  destruct (speculative_abort_kills (6, 2) new_item toy_store (snd toy_abort) can_delete_new)
    as (it1 & b & s1 & R & A & Hi & Hd).
  - vm_compute. reflexivity.
  - exists (mark_aborted (6, 2) it1). split; [exact Hi|]. apply Hd.
    + enough (Some (mark_aborted (6, 2) it1) = item (6, 2) (snd toy_abort)) as E; [|by rewrite Hi].
      assert (Ez : XminFrozen (t_infomask (it_hdr (mark_aborted (6, 2) it1))) = false).
      { revert E. generalize (mark_aborted (6, 2) it1). intros it E. vm_compute in E. by injection E as ->. }
      destruct (mark_aborted_flags (6, 2) it1) as (_ & _ & <- & _). exact Ez.
    + vm_compute. lia.
Defined.
End witnesses.

Section quiet_witness.
Import ToyWorld ToyLocks ToyMap ToyDelete.
#[local] Existing Instance alone.
#[local] Existing Instance alone_laws.

Lemma delete_ends_alone_witness :
  exists s', pg_tde_delete toy_rel 114 1 (6, 1) 2 None true false toy_store = (Raise ERROR, s')
    \/ exists r tm vm have s1 it1,
       pg_tde_delete toy_rel 114 1 (6, 1) 2 None true false toy_store = (Ret (r, tm), s')
       /\ delete_verdict 1 (6, 1) 2 None true toy_store = (Ret (r, vm, have), s1)
       /\ item (6, 1) s1 = Some it1 /\ same_tuple (it_hdr locked_item) (it_hdr it1).
Proof. apply (delete_ends_alone toy_rel 114 1 (6, 1) 2 None true false locked_item toy_store can_delete_locked (toy_ready _)); [done|lia]. Defined.
End quiet_witness.
