(* ===== verification/RowLock.v ===== *)
(** Locking rows: pg_tde_lock_tuple of src/src/access/pg_tdeam.c, the later
    versions of an updated row that are locked with it, and the replay of
    the records of both.

    A row that others hold is looked at without its page's lock: whether we
    hold enough already, whether the others are in the way at all, whom to
    wait for, which later versions there are.  Everything is looked at again
    with the lock. *)
From S2P Require Import Prelude Visibility VisibilityMap LockFlags MultiXact EncTuple Insert TupleStore Delete.

(** pg_tdeam_xlog.h *)
Definition XLH_LOCK_ALL_FROZEN_CLEARED : Z := 0x01.

(** What the holders of a later version mean for us. *)
Inductive HolderVerdict :=
| NothingInTheWay
| AlreadyOurs
| MustWaitFor (x : Z)
| InTheWay (r : TM_Result).

(** What is next after a version. *)
Inductive ChainStep :=
| SameVersion                       (** [goto l4] *)
| ChainEnds (r : TM_Result)         (** [goto out_locked] *)
| NextVersion (priorXmax : Z) (tid : Z * Z).

(** Whether to sleep. *)
Inductive SleepVerdict :=
| RequireSleep
| NoSleep
| LookAgain                         (** [goto l3] *)
| CannotLock (r : TM_Result).       (** [goto failed], with the page locked *)

(** Where the loop ends: with the page locked, but for [EnoughAlready]. *)
Inductive LockEnd :=
| CanLock
| LockFailed (r : TM_Result)
| RowInvisible
| EnoughAlready.

Section lock.
Context `{HH : HtupFlags} `{HW : World} `{HLF : LockFlags} `{HMX : MultiXacts}.
Context `{HP : PgBlockSize} `{HV : VmEnv} `{HIE : InsertEnv} `{HSE : StoreEnv} `{HI : !Interference}.

Local Abbreviation MS := (M StoreState).

(** ** Reading a tuple *)

(** [pg_tde_fetch] with SnapshotAny and without [keep_buf]: the page stays
    pinned when there is a tuple.  A block that is not there is an error. *)
Definition pg_tde_fetch_any (tid : Z * Z) : MS bool :=
  let* s := get in
  match blocks s !! tid.1 with
  | None => raise ERROR
  | Some _ =>
      ReadHeapBuffer tid.1;;;
      LockHeapBuffer tid.1;;;
      let* s := get in
      match item tid s with
      | None => UnlockHeapBuffer tid.1;;; ReleaseHeapBuffer tid.1;;; ret false
      | Some _ =>
          let* valid := on_tuple tid HeapTupleSatisfiesAny in
          UnlockHeapBuffer tid.1;;;
          if (valid : bool) then ret true else ReleaseHeapBuffer tid.1;;; ret false
      end
  end.

(** ** Later versions: pg_tde_lock_updated_tuple_rec *)

(** From [l4:] to the lock.  The pin of a map page that is not the right one
    is traded for the right one, or kept. *)
Definition lock_version_page (bn : Z) (vmbuffer : Buffer) : MS Buffer :=
  let* pinned_desired_page := page_all_visible bn in
  let* vmbuffer := if (pinned_desired_page : bool) then on_svm (pg_tde_visibilitymap_pin bn vmbuffer)
                   else ret vmbuffer in
  LockHeapBuffer bn;;;
  let* v := page_all_visible bn in
  if negb pinned_desired_page && v then
    UnlockHeapBuffer bn;;;
    let* vmbuffer := on_svm (pg_tde_visibilitymap_pin bn vmbuffer) in
    LockHeapBuffer bn;;;
    ret vmbuffer
  else ret vmbuffer.

(** The first member that settles it. *)
Fixpoint test_members (members : list MultiXactMember) (mode : LockTupleMode) (moved : bool)
    : M LockState HolderVerdict :=
  match members with
  | [] => ret NothingInTheWay
  | m :: members =>
      let* r := test_lockmode_for_conflict (status m) (xid m) mode moved in
      match fst r with
      | TM_SelfModified => ret AlreadyOurs
      | res => if snd r then ret (MustWaitFor (xid m))
               else match res with TM_Ok => test_members members mode moved | _ => ret (InTheWay res) end
      end
  end.

Definition test_holders (rawxmax infomask infomask2 : Z) (mode : LockTupleMode) (moved : bool)
    : M LockState HolderVerdict :=
  if has infomask HEAP_XMAX_INVALID then ret NothingInTheWay
  else if has infomask HEAP_XMAX_IS_MULTI then
    let* members := lk_members rawxmax (HEAP_XMAX_IS_LOCKED_ONLY infomask) in
    test_members (default [] members) mode moved
  else
    match old_status infomask infomask2 with
    | None => raise ERROR
    | Some st => test_members [{| xid := rawxmax; status := st |}] mode moved
    end.

(** The bit of the map, when the page says it may be there. *)
Definition clear_all_frozen (bn : Z) (vmbuffer : Buffer) : MS bool :=
  let* v := page_all_visible bn in
  if (v : bool) then on_svm (pg_tde_visibilitymap_clear bn vmbuffer VISIBILITYMAP_ALL_FROZEN) else ret false.

Definition version_locked (new_xmax new_infomask new_infomask2 : Z) (it : HeapItem) : HeapItem :=
  map_hdr (set_xmax new_xmax)
    (with_masks (Z.lor (clear (t_infomask (it_hdr it)) HEAP_XMAX_BITS) new_infomask)
       (Z.lor (clear (it_infomask2 it) HEAP_KEYS_UPDATED) new_infomask2) it).

(** What [cleared_all_frozen] is afterwards. *)
Definition mark_version (tid : Z * Z) (xid : Z) (mode : LockTupleMode) (vmbuffer : Buffer)
    (cleared_all_frozen : bool) : MS bool :=
  let* it := item_at tid in
  let* r := on_locks (compute_new_xmax_infomask (t_xmax (it_hdr it)) (t_infomask (it_hdr it)) (it_infomask2 it)
                        xid mode false) in
  let '(new_xmax, new_infomask, new_infomask2) := r in
  let* c := clear_all_frozen tid.1 vmbuffer in
  let cleared_all_frozen := cleared_all_frozen || c in
  crit (
    let* it := item_at tid in
    set_item tid (version_locked new_xmax new_infomask new_infomask2 it);;;
    MarkHeapBufferDirty tid.1;;;
    if RelationNeedsWAL then
      let* recptr := XLogInsert_store (XlLockUpdated tid.1
        {| xlk_xmax := new_xmax; xlk_offnum := tid.2;
           xlk_infobits := compute_infobits new_infomask new_infomask2;
           xlk_flags := flag_if cleared_all_frozen XLH_LOCK_ALL_FROZEN_CLEARED |}) in
      PageSetLSN_store tid.1 recptr
    else ret tt);;;
  ret cleared_all_frozen.

(** From [next:] on. *)
Definition next_version (tid : Z * Z) : MS ChainStep :=
  let* it := item_at tid in
  let h := it_hdr it in
  let* ends := if has (t_infomask h) HEAP_XMAX_INVALID || HeapTupleHeaderIndicatesMovedPartitions h
                  || bool_decide (tid = t_ctid h)
               then ret true else on_tuple tid HeapTupleHeaderIsOnlyLocked in
  if (ends : bool) then ret (ChainEnds TM_Ok)
  else let* it := item_at tid in
       ret (NextVersion (HeapTupleHeaderGetUpdateXid (it_hdr it)) (t_ctid (it_hdr it))).

(** A version whose page is pinned, from [l4:] on; the page stays locked but
    for [SameVersion]. *)
Definition lock_version (tid : Z * Z) (priorXmax xid : Z) (mode : LockTupleMode) (vmbuffer : Buffer)
    (cleared_all_frozen : bool) : MS (ChainStep * Buffer * bool) :=
  let* vmbuffer := lock_version_page tid.1 vmbuffer in
  let* it := item_at tid in
  let h := it_hdr it in
  if TransactionIdIsValid priorXmax && negb (HeapTupleHeaderGetXmin h =? priorXmax) then
    ret (ChainEnds TM_Ok, vmbuffer, cleared_all_frozen)
  else
  let* aborted := on_locks (lk_did_abort (HeapTupleHeaderGetXmin h)) in
  if (aborted : bool) then ret (ChainEnds TM_Ok, vmbuffer, cleared_all_frozen) else
  let* v := on_locks (test_holders (t_xmax h) (t_infomask h) (it_infomask2 it) mode
                        (bool_decide (tid <> t_ctid h))) in
  match v with
  | MustWaitFor x =>
      UnlockHeapBuffer tid.1;;;
      on_locks (wait_xact x);;;
      ret (SameVersion, vmbuffer, cleared_all_frozen)
  | InTheWay r => ret (ChainEnds r, vmbuffer, cleared_all_frozen)
  | AlreadyOurs => let* step := next_version tid in ret (step, vmbuffer, cleared_all_frozen)
  | NothingInTheWay =>
      let* cleared_all_frozen := mark_version tid xid mode vmbuffer cleared_all_frozen in
      let* step := next_version tid in
      ret (step, vmbuffer, cleared_all_frozen)
  end.

(** [fetched]: the page is pinned already. *)
Fixpoint lock_versions (fuel : nat) (tid : Z * Z) (priorXmax xid : Z) (mode : LockTupleMode)
    (vmbuffer : Buffer) (cleared_all_frozen fetched : bool) : MS TM_Result :=
  match fuel with
  | O => nofuel
  | S fuel =>
      let* found := if fetched then ret true else pg_tde_fetch_any tid in
      if negb found then release_map vmbuffer;;; ret TM_Ok else
      let* r := lock_version tid priorXmax xid mode vmbuffer cleared_all_frozen in
      let '(step, vmbuffer, cleared_all_frozen) := r in
      match step with
      | SameVersion => lock_versions fuel tid priorXmax xid mode vmbuffer cleared_all_frozen true
      | ChainEnds r => UnlockReleaseHeapBuffer tid.1;;; release_map vmbuffer;;; ret r
      | NextVersion prior tid' =>
          UnlockReleaseHeapBuffer tid.1;;;
          lock_versions fuel tid' prior xid mode vmbuffer cleared_all_frozen false
      end
  end.

Definition pg_tde_lock_updated_tuple_rec (fuel : nat) (tid : Z * Z) (xid : Z) (mode : LockTupleMode) : MS TM_Result :=
  lock_versions fuel tid InvalidTransactionId xid mode None false false.

(** [ctid]: as the caller saw it; the header is read again, without lock. *)
Definition pg_tde_lock_updated_tuple (fuel : nat) (tid ctid : Z * Z) (xid : Z) (mode : LockTupleMode) : MS TM_Result :=
  let* it := item_at tid in
  if negb (HeapTupleHeaderIndicatesMovedPartitions (it_hdr it)) && bool_decide (tid <> ctid)
  then pg_tde_lock_updated_tuple_rec fuel ctid xid mode
  else ret TM_Ok.

(** ** Do we hold enough already? *)

(** Our own members: one holds enough, or [skip_tuple_lock] is set. *)
Fixpoint own_members (members : list MultiXactMember) (mode : LockTupleMode) (skip : bool) : bool * bool :=
  match members with
  | [] => (false, skip)
  | m :: members =>
      if negb (TransactionIdIsCurrentTransactionId (xid m)) then own_members members mode skip
      else if mode_rank mode <=? mode_rank (TUPLOCK_from_mxstatus (status m)) then (true, skip)
      else own_members members mode true
  end.

(** A single xmax that is ours. *)
Definition own_single_enough (infomask infomask2 : Z) (mode : LockTupleMode) : bool :=
  match mode with
  | LockTupleKeyShare => true
  | LockTupleShare => HEAP_XMAX_IS_SHR_LOCKED infomask || HEAP_XMAX_IS_EXCL_LOCKED infomask
  | LockTupleNoKeyExclusive => HEAP_XMAX_IS_EXCL_LOCKED infomask
  | LockTupleExclusive => HEAP_XMAX_IS_EXCL_LOCKED infomask && has infomask2 HEAP_KEYS_UPDATED
  end.

Definition own_lock (xwait infomask infomask2 : Z) (mode : LockTupleMode) (skip : bool) : M LockState (bool * bool) :=
  if has infomask HEAP_XMAX_IS_MULTI then
    let* members := lk_members xwait (HEAP_XMAX_IS_LOCKED_ONLY infomask) in
    ret (own_members (default [] members) mode skip)
  else if TransactionIdIsCurrentTransactionId xwait then ret (own_single_enough infomask infomask2 mode, skip)
  else ret (false, skip).

(** ** Are the others in the way? *)

(** After the page has been locked again. *)
Definition xmax_unchanged (tid : Z * Z) (xwait infomask : Z) : MS bool :=
  let* it := item_at tid in
  ret (negb (xmax_infomask_changed (t_infomask (it_hdr it)) infomask) && (t_xmax (it_hdr it) =? xwait)).

Definition relock_unchanged (tid : Z * Z) (xwait infomask : Z) : MS SleepVerdict :=
  LockHeapBuffer tid.1;;;
  let* same := xmax_unchanged tid xwait infomask in
  ret (if (same : bool) then NoSleep else LookAgain).

Definition relock_failed (tid : Z * Z) (r : TM_Result) : MS SleepVerdict :=
  LockHeapBuffer tid.1;;; ret (CannotLock r).

(** The later versions, when there are any and they are wanted. *)
Definition follow_chain (fuel : nat) (follow_updates : bool) (tid ctid : Z * Z) (infomask : Z) (mode : LockTupleMode)
    : MS TM_Result :=
  if follow_updates && negb (HEAP_XMAX_IS_LOCKED_ONLY infomask)
  then pg_tde_lock_updated_tuple fuel tid ctid GetCurrentTransactionId mode
  else ret TM_Ok.

Definition keyshare_no_sleep (fuel : nat) (follow_updates : bool) (tid ctid : Z * Z) (infomask infomask2 : Z)
    : MS SleepVerdict :=
  if has infomask2 HEAP_KEYS_UPDATED then ret RequireSleep else
  let* res := follow_chain fuel follow_updates tid ctid infomask LockTupleKeyShare in
  match res with
  | TM_Ok =>
      LockHeapBuffer tid.1;;;
      let* only := on_tuple tid HeapTupleHeaderIsOnlyLocked in
      let* it := item_at tid in
      ret (if negb only && (has (it_infomask2 it) HEAP_KEYS_UPDATED || HEAP_XMAX_IS_LOCKED_ONLY infomask)
           then LookAgain else NoSleep)
  | _ => relock_failed tid res
  end.

Definition share_no_sleep (tid : Z * Z) (infomask : Z) : MS SleepVerdict :=
  if HEAP_XMAX_IS_LOCKED_ONLY infomask && negb (HEAP_XMAX_IS_EXCL_LOCKED infomask) then
    LockHeapBuffer tid.1;;;
    let* it := item_at tid in
    let m := t_infomask (it_hdr it) in
    ret (if negb (HEAP_XMAX_IS_LOCKED_ONLY m) || HEAP_XMAX_IS_EXCL_LOCKED m then LookAgain else NoSleep)
  else ret RequireSleep.

Definition nokey_no_sleep (tid : Z * Z) (xwait infomask : Z) : MS SleepVerdict :=
  if has infomask HEAP_XMAX_IS_MULTI then
    let* r := on_locks (DoesMultiXactIdConflict xwait infomask LockTupleNoKeyExclusive None) in
    if negb (fst r) then relock_unchanged tid xwait infomask else ret RequireSleep
  else if HEAP_XMAX_IS_KEYSHR_LOCKED infomask then relock_unchanged tid xwait infomask
  else ret RequireSleep.

(** The checks that depend on the mode, and the one that we are the sole
    locker. *)
Definition no_sleep (fuel : nat) (follow_updates : bool) (tid ctid : Z * Z) (xwait infomask infomask2 : Z)
    (mode : LockTupleMode) : MS SleepVerdict :=
  let* v := match mode with
            | LockTupleKeyShare => keyshare_no_sleep fuel follow_updates tid ctid infomask infomask2
            | LockTupleShare => share_no_sleep tid infomask
            | LockTupleNoKeyExclusive => nokey_no_sleep tid xwait infomask
            | LockTupleExclusive => ret RequireSleep
            end in
  match v with
  | RequireSleep =>
      if negb (has infomask HEAP_XMAX_IS_MULTI) && TransactionIdIsCurrentTransactionId xwait
      then relock_unchanged tid xwait infomask else ret RequireSleep
  | _ => ret v
  end.

(** ** Sleeping *)

(** Whether the holders are gone; an error for those who do not wait. *)
Definition wait_or_die (wait : M LockState unit) (try : M LockState bool) (wait_policy : LockWaitPolicy)
    : M LockState bool :=
  match wait_policy with
  | LockWaitBlock => wait;;; ret true
  | LockWaitSkip => try
  | LockWaitError => let* b := try in if (b : bool) then ret true else raise ERROR
  end.

Definition wait_holders (xwait infomask : Z) (mode : LockTupleMode) (wait_policy : LockWaitPolicy)
    : M LockState bool :=
  if has infomask HEAP_XMAX_IS_MULTI then
    let* st := get_mxact_status_for_lock mode false in
    if ISUPDATE_from_mxstatus st then raise ERROR
    else wait_or_die (let* _ := MultiXactIdWait xwait st infomask false in ret tt)
           (let* r := ConditionalMultiXactIdWait xwait st infomask false in ret (fst r)) wait_policy
  else wait_or_die (wait_xact xwait) (wait_xact_if xwait) wait_policy.

(** With the page locked again: is it still them, and what became of
    them? *)
Definition after_sleep (tid : Z * Z) (xwait infomask : Z) : MS SleepVerdict :=
  LockHeapBuffer tid.1;;;
  let* same := xmax_unchanged tid xwait infomask in
  if negb same then ret LookAgain else
  (if negb (has infomask HEAP_XMAX_IS_MULTI) then on_tuple tid (UpdateXmaxHintBits xwait) else ret tt);;;
  let* result := verdict_after_wait tid in
  ret (match result with TM_Ok => NoSleep | _ => CannotLock result end).

(** The verdict, and [have_tuple_lock]. *)
Definition sleep (fuel : nat) (follow_updates : bool) (tid ctid : Z * Z) (xwait infomask : Z) (mode : LockTupleMode)
    (wait_policy : LockWaitPolicy) (skip_tuple_lock have_tuple_lock : bool) : MS (SleepVerdict * bool) :=
  let* r := if skip_tuple_lock then ret (true, have_tuple_lock)
            else on_locks (pg_tde_acquire_tuplock tid mode wait_policy have_tuple_lock) in
  let '(acquired, have_tuple_lock) := r in
  if negb acquired then let* v := relock_failed tid TM_WouldBlock in ret (v, have_tuple_lock) else
  let* gone := on_locks (wait_holders xwait infomask mode wait_policy) in
  if negb gone then let* v := relock_failed tid TM_WouldBlock in ret (v, have_tuple_lock) else
  let* res := follow_chain fuel follow_updates tid ctid infomask mode in
  let* v := match res with TM_Ok => after_sleep tid xwait infomask | _ => relock_failed tid res end in
  ret (v, have_tuple_lock).

(** ** The loop *)

(** A row that others hold or have changed.  [None]: we hold enough already;
    the page is not locked then.  Further [skip_tuple_lock] and
    [have_tuple_lock]. *)
Definition look_at_holders (fuel : nat) (follow_updates : bool) (tid : Z * Z) (result : TM_Result) (mode : LockTupleMode)
    (wait_policy : LockWaitPolicy) (first_time skip_tuple_lock have_tuple_lock : bool)
    : MS (option SleepVerdict * bool * bool) :=
  let* it := item_at tid in
  let h := it_hdr it in
  let xwait := t_xmax h in
  let infomask := t_infomask h in
  let infomask2 := it_infomask2 it in
  let ctid := t_ctid h in
  UnlockHeapBuffer tid.1;;;
  let* r := if (first_time : bool) then on_locks (own_lock xwait infomask infomask2 mode skip_tuple_lock)
            else ret (false, skip_tuple_lock) in
  let '(enough, skip_tuple_lock) := r in
  if (enough : bool) then ret (None, skip_tuple_lock, have_tuple_lock) else
  let* v := no_sleep fuel follow_updates tid ctid xwait infomask infomask2 mode in
  match v, result with
  | RequireSleep, (TM_Updated | TM_Deleted) =>
      let* v := relock_failed tid result in ret (Some v, skip_tuple_lock, have_tuple_lock)
  | RequireSleep, _ =>
      let* r := sleep fuel follow_updates tid ctid xwait infomask mode wait_policy skip_tuple_lock have_tuple_lock in
      ret (Some (fst r), skip_tuple_lock, snd r)
  | _, _ => ret (Some v, skip_tuple_lock, have_tuple_lock)
  end.

(** From [l3:] to the verdict, and [vmbuffer] and [have_tuple_lock].  [fuel]
    bounds the rounds, [cfuel] the later versions. *)
Fixpoint lock_loop (fuel cfuel : nat) (tid : Z * Z) (cid : Z) (mode : LockTupleMode) (wait_policy : LockWaitPolicy)
    (follow_updates : bool) (vmbuffer : Buffer) (first_time skip_tuple_lock have_tuple_lock : bool)
    : MS (LockEnd * Buffer * bool) :=
  match fuel with
  | O => nofuel
  | S fuel =>
      let goto_l3 := lock_loop fuel cfuel tid cid mode wait_policy follow_updates in
      let check_pin first skip have :=
        let* v := page_all_visible tid.1 in
        match vmbuffer with
        | None =>
            if (v : bool) then
              UnlockHeapBuffer tid.1;;;
              let* vmbuffer := on_svm (pg_tde_visibilitymap_pin tid.1 None) in
              LockHeapBuffer tid.1;;;
              goto_l3 vmbuffer first skip have
            else ret (CanLock, vmbuffer, have)
        | Some _ => ret (CanLock, vmbuffer, have)
        end in
      let* result := on_tuple tid (HeapTupleSatisfiesUpdate tid cid) in
      match result with
      | TM_Invisible => ret (RowInvisible, vmbuffer, have_tuple_lock)
      | TM_BeingModified | TM_Updated | TM_Deleted =>
          let* r := look_at_holders cfuel follow_updates tid result mode wait_policy
                      first_time skip_tuple_lock have_tuple_lock in
          let '(v, skip, have) := r in
          match v with
          | None => ret (EnoughAlready, vmbuffer, have)
          | Some LookAgain => goto_l3 vmbuffer false skip have
          | Some (CannotLock res) => ret (LockFailed res, vmbuffer, have)
          | Some _ => check_pin false skip have
          end
      | TM_Ok => check_pin first_time skip_tuple_lock have_tuple_lock
      | _ => ret (LockFailed result, vmbuffer, have_tuple_lock)
      end
  end.

(** Can the row be locked? *)
Definition lock_verdict (fuel cfuel : nat) (tid : Z * Z) (cid : Z) (mode : LockTupleMode) (wait_policy : LockWaitPolicy)
    (follow_updates : bool) : MS (LockEnd * Buffer * bool) :=
  let* vmbuffer := pin_and_lock tid.1 in
  lock_loop fuel cfuel tid cid mode wait_policy follow_updates vmbuffer true false false.

(** ** The lock *)

Definition row_locked (tid : Z * Z) (new_xmax new_infomask new_infomask2 : Z) (it : HeapItem) : HeapItem :=
  let only := HEAP_XMAX_IS_LOCKED_ONLY new_infomask in
  let m2 := Z.lor (clear (it_infomask2 it) HEAP_KEYS_UPDATED) new_infomask2 in
  map_hdr (fun h => let h := set_xmax new_xmax h in if only then set_t_ctid tid h else h)
    (with_masks (Z.lor (clear (t_infomask (it_hdr it)) HEAP_XMAX_BITS) new_infomask)
       (if only then clear m2 HEAP_HOT_UPDATED else m2) it).

Definition lock_now (tid : Z * Z) (mode : LockTupleMode) (vmbuffer : Buffer) : MS unit :=
  let* it := item_at tid in
  let* r := on_locks (compute_new_xmax_infomask (t_xmax (it_hdr it)) (t_infomask (it_hdr it)) (it_infomask2 it)
                        GetCurrentTransactionId mode false) in
  let '(new_xmax, new_infomask, new_infomask2) := r in
  crit (
    let* it := item_at tid in
    let it' := row_locked tid new_xmax new_infomask new_infomask2 it in
    set_item tid it';;;
    let* cleared_all_frozen := clear_all_frozen tid.1 vmbuffer in
    MarkHeapBufferDirty tid.1;;;
    if RelationNeedsWAL then
      let* recptr := XLogInsert_store (XlLock tid.1
        {| xlk_xmax := new_xmax; xlk_offnum := tid.2;
           xlk_infobits := compute_infobits new_infomask (it_infomask2 it');
           xlk_flags := flag_if cleared_all_frozen XLH_LOCK_ALL_FROZEN_CLEARED |}) in
      PageSetLSN_store tid.1 recptr
    else ret tt).

(** [out_unlocked:] *)
Definition release_after_lock (tid : Z * Z) (mode : LockTupleMode) (vmbuffer : Buffer) (have_tuple_lock : bool) : MS unit :=
  release_map vmbuffer;;;
  if have_tuple_lock then on_locks (UnlockTupleTuplock tid mode) else ret tt.

(** The result, and [*tmfd] where it is filled; the page stays pinned. *)
Definition pg_tde_lock_tuple (fuel cfuel : nat) (tid : Z * Z) (cid : Z) (mode : LockTupleMode)
    (wait_policy : LockWaitPolicy) (follow_updates : bool) : MS (TM_Result * option TM_FailureData) :=
  let* r := lock_verdict fuel cfuel tid cid mode wait_policy follow_updates in
  let '(ends, vmbuffer, have_tuple_lock) := r in
  match ends with
  | CanLock =>
      lock_now tid mode vmbuffer;;;
      UnlockHeapBuffer tid.1;;;
      release_after_lock tid mode vmbuffer have_tuple_lock;;;
      ret (TM_Ok, None)
  | LockFailed res =>
      let* it := item_at tid in
      UnlockHeapBuffer tid.1;;;
      release_after_lock tid mode vmbuffer have_tuple_lock;;;
      ret (res, Some (failure_data res (it_hdr it)))
  | RowInvisible =>
      UnlockHeapBuffer tid.1;;;
      release_after_lock tid mode vmbuffer have_tuple_lock;;;
      ret (TM_Invisible, None)
  | EnoughAlready =>
      release_after_lock tid mode vmbuffer have_tuple_lock;;;
      ret (TM_Ok, None)
  end.

(** ** Replay *)

Definition redo_clear_frozen (flags bn : Z) : MS unit :=
  if has flags XLH_LOCK_ALL_FROZEN_CLEARED then
    let* vm := on_svm (pg_tde_visibilitymap_pin bn None) in
    let* _ := on_svm (pg_tde_visibilitymap_clear bn vm VISIBILITYMAP_ALL_FROZEN) in
    release_map vm
  else ret tt.

(** What both records do to the masks. *)
Definition redo_lock_masks (r : xl_pg_tde_lock) (it : HeapItem) : HeapItem :=
  let m := clear (t_infomask (it_hdr it)) (Z.lor HEAP_XMAX_BITS HEAP_MOVED) in
  let m2 := clear (it_infomask2 it) HEAP_KEYS_UPDATED in
  let '(m, m2) := fix_infomask_from_infobits (xlk_infobits r) m m2 in
  with_masks m m2 it.

Definition redo_locked (tid : Z * Z) (r : xl_pg_tde_lock) (it : HeapItem) : HeapItem :=
  let it := redo_lock_masks r it in
  let it := if HEAP_XMAX_IS_LOCKED_ONLY (t_infomask (it_hdr it))
            then map_hdr (set_t_ctid tid) (with_masks (t_infomask (it_hdr it)) (clear (it_infomask2 it) HEAP_HOT_UPDATED) it)
            else it in
  map_hdr (fun h => SetCmax FirstCommandId false (set_xmax (xlk_xmax r) h)) it.

Definition redo_version_locked (r : xl_pg_tde_lock) (it : HeapItem) : HeapItem :=
  map_hdr (set_xmax (xlk_xmax r)) (redo_lock_masks r it).

Definition redo_lock_page (lsn : Z) (bn : Z) (offnum : Z) (redo : HeapItem -> HeapItem) : MS unit :=
  let tid := (bn, offnum) in
  let* s := get in
  match item tid s with
  | None => raise PANIC
  | Some it =>
      set_item tid (redo it);;;
      PageSetLSN_store bn lsn;;;
      MarkHeapBufferDirty bn
  end.

Definition pg_tde_xlog_lock (lsn : Z) (needs_redo : bool) (bn : Z) (r : xl_pg_tde_lock) : MS unit :=
  redo_clear_frozen (xlk_flags r) bn;;;
  if needs_redo then redo_lock_page lsn bn (xlk_offnum r) (redo_locked (bn, xlk_offnum r) r) else ret tt.

Definition pg_tde_xlog_lock_updated (lsn : Z) (needs_redo : bool) (bn : Z) (r : xl_pg_tde_lock) : MS unit :=
  redo_clear_frozen (xlk_flags r) bn;;;
  if needs_redo then redo_lock_page lsn bn (xlk_offnum r) (redo_version_locked r) else ret tt.
End lock.
