(* ===== verification/RowLockFine.v ===== *)
(** Locking a row: who may hold it with us, and that a row whose xmax has
    been computed anew is as every row is. *)
From stdpp Require Import relations.
From S2P Require Import Prelude Visibility VisibilityProps VisibilityHints VisibilitySpec VisibilityRules LockFlags MultiXact MultiXactProps EncTuple VisibilityMap VisibilityMapProps VisibilityMapOps Insert TupleStore Delete DeleteFree DeleteProps DeleteLoop DeleteDone RowLock.

Section fine.
Context `{HH : HtupFlags} `{HHL : !HtupFlagsLaws} `{HW : World} `{HWL : !WorldLaws}.
Context `{HLF : LockFlags} `{HFB : !FlagBits} `{HMX : MultiXacts} `{HML : !MultiXactsLaws}.

Local Abbreviation members_of st xmax := (default [] (GetMultiXactIdMembers st xmax false)).

(** ** Holders *)

(** Ours, in a mode that does not conflict, or gone. *)
Definition agrees (mode : LockTupleMode) (t : nat) (mem : MultiXactMember) : Prop :=
  TransactionIdIsCurrentTransactionId (xid mem) = true
  \/ DoLockModesConflict (LOCKMODE_from_mxstatus (status mem)) (hwlock mode) = false
  \/ ~ counts t mem \/ TransactionIdDidAbort t (xid mem) = true.

(** Nobody who counts stands against a lock of that mode. *)
Definition compatible (mode : LockTupleMode) (t : nat) (l : list MultiXactMember) : Prop :=
  forall mem, mem ∈ l -> agrees mode t mem.

Lemma agrees_later mode t t' mem : (t <= t')%nat -> agrees mode t mem -> agrees mode t' mem.
Proof.
  intros Ht [?|[?|[Hn|?]]]; [by left|by right; left| |by right; right; right; eapply abort_stable].
  right; right; left. intros Hc. by apply Hn, (counts_earlier t t').
Qed.

Lemma compatible_later mode t t' l : (t <= t')%nat -> compatible mode t l -> compatible mode t' l.
Proof. intros Ht Hl mem Hin. eapply agrees_later; [done|by apply Hl]. Qed.

Lemma compatible_joins mode t t' old new add u : (t <= t')%nat -> TransactionIdIsCurrentTransactionId add = true ->
  (forall mem, mem ∈ new -> joins old add u mem) -> compatible mode t old -> compatible mode t' new.
Proof.
  intros Ht Ha Hj Ho mem Hin. destruct (Hj mem Hin) as [Hin'|[Hx _]]; [|left; by rewrite Hx].
  eapply agrees_later; [done|by apply Ho].
Qed.

Lemma free_compatible mode st t h m2 : free st t h m2 -> compatible mode t (holders st (t_xmax h) (t_infomask h) m2).
Proof. intros Hf mem Hin. destruct (Hf mem Hin) as [?|?]; [by left|by right; right; left]. Qed.

Lemma compatible_same mode st t h h' m2 : same_tuple h h' ->
  compatible mode t (holders st (t_xmax h) (t_infomask h) m2) ->
  compatible mode t (holders st (t_xmax h') (t_infomask h') m2).
Proof. intros Hs Hc mem Hin. by eapply Hc, holders_same. Qed.

(** An updater among the holders is the deleter. *)
Lemma holder_updater st t h m2 mem : header_fine st t h -> mem ∈ holders st (t_xmax h) (t_infomask h) m2 ->
  ISUPDATE_from_mxstatus (status mem) = true -> HEAP_XMAX_IS_LOCKED_ONLY (t_infomask h) = false /\ xid mem = deleter h.
Proof.
  intros Hf. unfold deleter. destruct (has (t_infomask h) HEAP_XMAX_IS_MULTI) eqn:Hm.
  - unfold holders. rewrite Hm. destruct (has _ HEAP_XMAX_INVALID); [by intros ?%elem_of_nil|].
    destruct (HEAP_LOCKED_UPGRADED _) eqn:Hu; [by intros ?%elem_of_nil|]. intros Hin Hup.
    destruct (hf_members _ _ _ Hf _ _ Hm Hu Hin Hup) as [Hl ->]. split; [done|].
    by rewrite (hf_updater _ _ _ Hf Hm Hu).
  - intros Hin Hup. destruct (single_holder _ _ _ _ Hm Hin) as [-> Hl]. split; [|done].
    apply not_true_iff_false. intros E. by rewrite (Hl E) in Hup.
Qed.

(** ** The new masks *)

(** The mask of a row whose xmax is set anew. *)
Lemma remask_tests m n : let n' := Z.lor (clear m HEAP_XMAX_BITS) n in
  has n HEAP_XMIN_COMMITTED = false -> has n HEAP_XMIN_INVALID = false ->
  has n HEAP_MOVED_OFF = false -> has n HEAP_MOVED_IN = false ->
  (XminCommitted n' = XminCommitted m /\ XminInvalid n' = XminInvalid m /\ XminFrozen n' = XminFrozen m
   /\ has n' HEAP_MOVED_OFF = has m HEAP_MOVED_OFF /\ has n' HEAP_MOVED_IN = has m HEAP_MOVED_IN)
  /\ (forall f, f ∈ [f_keyshr; f_excl; f_lock_only; f_xmax_invalid; f_xmax_committed; f_multi] ->
        has n' (2 ^ bit_of f) = has n (2 ^ bit_of f)).
Proof.
  intros n'. unfold n'. flag_names. intros E1 E2 E3 E4. split.
  - flags. rewrite E1, E2, E3, E4. destruct (has m (2 ^ bit_of f_xmin_committed)), (has m (2 ^ bit_of f_xmin_invalid)),
      (has m (2 ^ bit_of f_moved_off)), (has m (2 ^ bit_of f_moved_in)); done.
  - intros f Hf. set_unfold in Hf. destruct_or! Hf; subst f; flags; done.
Qed.

Lemma made_flags st add u x n n2 : xmax_made st add u x n n2 ->
  has n HEAP_XMIN_COMMITTED = false /\ has n HEAP_XMIN_INVALID = false
  /\ has n HEAP_MOVED_OFF = false /\ has n HEAP_MOVED_IN = false
  /\ has n HEAP_XMAX_INVALID = false /\ has n HEAP_XMAX_COMMITTED = false.
Proof.
  intros [mode _|y l _ _].
  - destruct u, mode; cbn [own_infomask fst]; flags; done.
  - unfold hint_bits. destruct (hint_loop _ _ _ _) as [[mode b2] up]. destruct up, mode; cbn [fst]; flags; done.
Qed.

(** A row whose xmax is set to what was computed for us as a locker. *)
Record relocked (h : HeapTupleHeader) (x n n2 : Z) (h' : HeapTupleHeader) (m2' : Z) : Prop := {
  rl_xmin : t_xmin h' = t_xmin h;
  rl_xmax : t_xmax h' = x;
  rl_mask : t_infomask h' = Z.lor (clear (t_infomask h) HEAP_XMAX_BITS) n;
  rl_keys : has m2' HEAP_KEYS_UPDATED = has n2 HEAP_KEYS_UPDATED;
  rl_ctid : 0 <= (t_ctid h').1 < 2 ^ 32;
}.

(** Its masks are read as those that were computed. *)
Lemma relocked_tests st add u h x n n2 h' m2' : xmax_made st add u x n n2 -> relocked h x n n2 h' m2' ->
  (XminCommitted (t_infomask h') = XminCommitted (t_infomask h)
   /\ XminInvalid (t_infomask h') = XminInvalid (t_infomask h)
   /\ XminFrozen (t_infomask h') = XminFrozen (t_infomask h)
   /\ has (t_infomask h') HEAP_MOVED_OFF = has (t_infomask h) HEAP_MOVED_OFF
   /\ has (t_infomask h') HEAP_MOVED_IN = has (t_infomask h) HEAP_MOVED_IN)
  /\ (has (t_infomask h') HEAP_XMAX_INVALID = false /\ has (t_infomask h') HEAP_XMAX_COMMITTED = false
      /\ has (t_infomask h') HEAP_XMAX_IS_MULTI = has n HEAP_XMAX_IS_MULTI
      /\ HEAP_XMAX_IS_LOCKED_ONLY (t_infomask h') = HEAP_XMAX_IS_LOCKED_ONLY n)
  /\ same_locks n (t_infomask h')
  /\ forall st, holders st (t_xmax h') (t_infomask h') m2' = holders st x n n2.
Proof.
  intros Hmade [_ Hx Hmask Hk _]. destruct (made_flags _ _ _ _ _ _ Hmade) as (E1 & E2 & E3 & E4 & E5 & E6).
  destruct (remask_tests (t_infomask h) n E1 E2 E3 E4) as [Hxmin Hf]. rewrite Hx, Hmask.
  set (n' := Z.lor _ n) in *. clearbody n'.
  assert (Hn : forall f, f ∈ [f_keyshr; f_excl; f_lock_only; f_xmax_invalid; f_xmax_committed; f_multi] ->
    has n' (2 ^ bit_of f) = has n (2 ^ bit_of f)) by done.
  split; [done|]. split; [|split].
  - clear Hxmin E1 E2 E3 E4. revert E5 E6. flag_names. rewrite !Hn by set_solver. by intros -> ->.
  - unfold same_locks. clear -Hn. flag_names. by rewrite !Hn by set_solver.
  - intros st'. apply holders_flags; [|done]. intros f Hin. apply Hn. set_solver.
Qed.

(** The header of a single locker that is ours. *)
Lemma relocked_single_fine st t st' t' h h' (m2' : Z) add mode : header_fine st t h -> (t <= t')%nat ->
  TransactionIdIsCurrentTransactionId add = true -> mode_allows mode false ->
  relocked h add (fst (own_infomask mode false)) (snd (own_infomask mode false)) h' m2' ->
  header_fine st' t' h' /\ masks_fine st' h' m2'.
Proof.
  intros Hf Ht Ha Hm Hr. pose proof (made_single st' add false mode Hm) as Hmade.
  destruct (relocked_tests _ _ _ _ _ _ _ _ _ Hmade Hr) as ((X1 & X2 & X3 & X4 & X5) & (I & C & M & L) & (U & _) & Hh).
  assert (Em : has (fst (own_infomask mode false)) HEAP_XMAX_IS_MULTI = false
    /\ HEAP_XMAX_IS_LOCKED_ONLY (fst (own_infomask mode false)) = true
    /\ HEAP_LOCKED_UPGRADED (fst (own_infomask mode false)) = false).
  { destruct mode; cbn [own_infomask fst]; flags; done. }
  destruct Em as (Em & El & Eu). rewrite Em in M. rewrite El in L. rewrite Eu in U.
  destruct (hf_hints _ _ _ (fine_later _ _ _ _ Ht Hf)) as (H1 & H2 & _). destruct (hf_tuple _ _ _ Hf) as (O1 & O2 & _).
  split; split; try (intros; congruence).
  - unfold hints_ok. rewrite X1, X2, X3, I, C, (rl_xmin _ _ _ _ _ _ Hr). by split_and!.
  - unfold tuple_ok. rewrite X4, X5, L. by split_and!.
  - rewrite (rl_xmax _ _ _ _ _ _ Hr). intros ->. by destruct (running_valid 0 _ (current_running 0 _ Ha)).
  - intros _ _ _ _ E. destruct (own_infomask_holders st' add mode false Hm) as (s & Hs & _).
    rewrite <- (Hh st'), (rl_xmax _ _ _ _ _ _ Hr) in Hs. unfold holders in Hs. by rewrite I, M, E in Hs.
  - apply Hr.
Qed.

(** Nobody who locks a row is its single deleter. *)
Lemma made_locker st add x n n2 : xmax_made st add false x n n2 ->
  has n HEAP_XMAX_IS_MULTI = true \/ HEAP_XMAX_IS_LOCKED_ONLY n = true.
Proof.
  intros [mode _|y l _ _].
  - right. destruct mode; cbn [own_infomask fst]; flags; done.
  - left. destruct (hint_bits l) as [n' n2'] eqn:E. apply (hint_bits_spec l n' n2' E).
Qed.

(** The header of a multixact that ours has joined. *)
Lemma relocked_multi_fine st t st' t' h h' m2 m2' add x l : header_fine st t h -> (t <= t')%nat ->
  TransactionIdIsCurrentTransactionId add = true -> issued st' x -> (forall b, GetMultiXactIdMembers st' x b = Some l) ->
  (forall mem, mem ∈ l -> joins (holders st (t_xmax h) (t_infomask h) m2) add false mem) ->
  relocked h x (fst (hint_bits l)) (snd (hint_bits l)) h' m2' -> header_fine st' t' h' /\ masks_fine st' h' m2'.
Proof.
  intros Hf Ht Ha Hi Hl Hj Hr. pose proof (made_multi st' add false x l Hi Hl) as Hmade.
  destruct (relocked_tests _ _ _ _ _ _ _ _ _ Hmade Hr) as ((X1 & X2 & X3 & X4 & X5) & (I & C & M & L) & (U & _ & _ & EX) & _).
  destruct (hint_bits l) as [n n2] eqn:Eb. cbn [fst snd] in *.
  destruct (hint_bits_spec l n n2 Eb) as (B1 & B2 & _ & B4 & B5 & B6 & mode & [_ Bs] & _ & _ & B7).
  rewrite B1 in M. rewrite B5 in L. rewrite B7 in EX. rewrite B4 in U.
  pose proof (rl_xmax _ _ _ _ _ _ Hr) as Hx. pose proof (rl_xmin _ _ _ _ _ _ Hr) as Hxm. pose proof (rl_keys _ _ _ _ _ _ Hr) as Hk.
  assert (Hupd : forall mem, mem ∈ l -> ISUPDATE_from_mxstatus (status mem) = true ->
    HEAP_XMAX_IS_LOCKED_ONLY (t_infomask h) = false /\ xid mem = deleter h).
  { intros mem Hin Hup. destruct (Hj mem Hin) as [Hold|[_ E]]; [|congruence]. by eapply holder_updater. }
  assert (Hfirst : has_updater l = true -> updater_of l = deleter h /\ HEAP_XMAX_IS_LOCKED_ONLY (t_infomask h) = false).
  { unfold has_updater, updater_of. destruct (find _ l) as [mem|] eqn:E.
    - apply find_some in E as [Hin%list_elem_of_In Hup]. intros _. by destruct (Hupd mem Hin Hup).
    - rewrite existsb_exists. intros (mem & Hin & Hup). by rewrite (find_none _ _ E mem Hin) in Hup. }
  assert (Hhas : forall mem, mem ∈ l -> ISUPDATE_from_mxstatus (status mem) = true -> has_updater l = true).
  { intros mem Hin%list_elem_of_In Hup. apply existsb_exists. by exists mem. }
  destruct (hf_hints _ _ _ (fine_later _ _ _ _ Ht Hf)) as (H1 & H2 & _).
  destruct (hf_tuple _ _ _ (fine_later _ _ _ _ Ht Hf)) as (O1 & O2 & O3).
  split; split; try (intros; congruence).
  - unfold hints_ok. rewrite X1, X2, X3, I, C, Hxm. by split_and!.
  - unfold tuple_ok, deleter. rewrite X4, X5, L, M, Hxm. split_and!; [done..|]. intros Hc Hn%negb_false_iff.
    destruct (Hfirst Hn) as [Hu Hlo].
    assert (Ed : HeapTupleGetUpdateXid h' = deleter h).
    { rewrite (update_xid_members st') by (by rewrite ?Hx). rewrite Hx, Hl. exact Hu. }
    rewrite Ed. by apply O3.
  - intros b mem _ _. rewrite Hx, !Hl, L. change (default [] (Some l)) with l. intros Hin Hup. rewrite (Hhas mem Hin Hup).
    split; [done|]. destruct (Hfirst (Hhas mem Hin Hup)) as [-> _]. by apply Hupd.
  - rewrite Hx. intros E. by destruct (issued_valid _ _ Hi).
  - intros mem _ _ _ E. rewrite Hx, Hl. change (default [] (Some l)) with l. intros Hin%list_elem_of_In. rewrite Hk, B6 in E.
    destruct (locks_keys (status mem)) eqn:Ek; [|done]. rewrite <- E. symmetry. apply existsb_exists. by exists mem.
  - intros mem _ _ _ E. rewrite Hx, Hl. change (default [] (Some l)) with l. intros Hin. specialize (Bs mem Hin). rewrite EX in E. apply Z.leb_gt in E. lia.
  - apply Hr.
Qed.

(** What is logged of masks. *)
Lemma infobits_same n n' m2 m2' : (forall f, f ∈ [f_keyshr; f_excl; f_lock_only; f_multi] -> has n' (2 ^ bit_of f) = has n (2 ^ bit_of f)) ->
  has m2' HEAP_KEYS_UPDATED = has m2 HEAP_KEYS_UPDATED -> compute_infobits n' m2' = compute_infobits n m2.
Proof.
  intros H Hk. unfold compute_infobits. rewrite Hk. flag_names.
  by rewrite !(H f_multi), !(H f_lock_only), !(H f_excl), !(H f_keyshr) by set_solver.
Qed.

(** What is logged of a row that was locked is what was computed. *)
Lemma relocked_infobits st add h x n n2 h' m2' : xmax_made st add false x n n2 -> relocked h x n n2 h' m2' ->
  compute_infobits (t_infomask h') m2' = compute_infobits n n2.
Proof.
  intros Hm Hr. destruct (made_flags _ _ _ _ _ _ Hm) as (E1 & E2 & E3 & E4 & _).
  destruct (remask_tests (t_infomask h) n E1 E2 E3 E4) as [_ Hb]. apply infobits_same; [|apply Hr].
  intros f Hf. rewrite (rl_mask _ _ _ _ _ _ Hr). apply Hb. set_solver.
Qed.

(** Locking a row leaves it as every row is. *)
Lemma relocked_fine old st t s' h h' m2 m2' add mode x n n2 : header_fine st t h -> (t <= lk_clock s')%nat ->
  TransactionIdIsCurrentTransactionId add = true -> old = holders st (t_xmax h) (t_infomask h) m2 ->
  locks_kept old add mode false st (x, n, n2) s' -> relocked h x n n2 h' m2' ->
  header_fine (multis s') (lk_clock s') h' /\ masks_fine (multis s') h' m2'.
Proof.
  intros Hf Ht Ha -> [Hmade Hg _ _ Hj] Hr. cbn [fst snd] in *. inversion Hmade as [mode' Hm E1 E2 E3|y l Hi Hl E1 E2 E3]; subst.
  - by eapply relocked_single_fine.
  - eapply relocked_multi_fine; [done..| |done]. intros mem Hin. apply Hj.
    destruct (hint_bits l) as [n n2] eqn:Eb. destruct (hint_bits_spec l n n2 Eb) as (B1 & B2 & _ & B4 & _).
    unfold holders. cbn [fst snd]. by rewrite B1, B2, B4, Hl.
Qed.

Lemma fine_grows st st' t h : grows st st' -> header_fine st t h -> header_fine st' t h.
Proof.
  intros Hg Hf. assert (Hsame : has (t_infomask h) HEAP_XMAX_IS_MULTI = true -> HEAP_LOCKED_UPGRADED (t_infomask h) = false ->
    issued st' (t_xmax h) /\ forall b, GetMultiXactIdMembers st' (t_xmax h) b = GetMultiXactIdMembers st (t_xmax h) b).
  { intros Hm Hu. by apply Hg, (hf_issued _ _ _ Hf). }
  destruct Hf as [H1 H2 H3 H4 H5 H6]. split; try done.
  - intros b mem Hm Hu. destruct (Hsame Hm Hu) as [_ Hs]. rewrite !Hs. by apply H4.
  - intros Hm Hu. by apply Hsame.
Qed.

Lemma masks_grow st st' t h m2 : grows st st' -> header_fine st t h -> masks_fine st h m2 -> masks_fine st' h m2.
Proof.
  intros Hg Hf [H1 H2 H3 H4 H5 H6].
  split; auto; intros mem Hi Hm Hu E; destruct (Hg _ (hf_issued _ _ _ Hf Hm Hu)) as [_ ->]; auto.
Qed.
End fine.

Section rows.
Context `{HH : HtupFlags} `{HHL : !HtupFlagsLaws} `{HW : World} `{HWL : !WorldLaws}.
Context `{HLF : LockFlags} `{HFB : !FlagBits} `{HMX : MultiXacts} `{HML : !MultiXactsLaws}.

(** One row is another; the rest stays. *)
Lemma put_all_fine tid it' s s' : item tid s' = Some it' -> (forall tid', tid' <> tid -> item tid' s' = item tid' s) ->
  (moment s <= moment s')%nat -> grows (multis (st_locks s)) (multis (st_locks s')) -> fine_in s' it' ->
  all_fine s -> all_fine s'.
Proof.
  intros Hi Ho Ht Hg Hf Hall tid1 it1 Hi1. destruct (decide (tid1 = tid)) as [->|Hne].
  - rewrite Hi in Hi1. by injection Hi1 as <-.
  - rewrite Ho in Hi1 by done. destruct (Hall _ _ Hi1) as [H1 H2].
    split; [by eapply fine_grows, fine_later|by eapply masks_grow].
Qed.

Lemma same_rows_fine s s' : blocks s' = blocks s -> (moment s <= moment s')%nat ->
  grows (multis (st_locks s)) (multis (st_locks s')) -> all_fine s -> all_fine s'.
Proof.
  intros Hb Ht Hg Hall tid it Hi. unfold item in Hi. rewrite Hb in Hi. destruct (Hall tid it Hi) as [H1 H2].
  split; [by eapply fine_grows, fine_later|by eapply masks_grow].
Qed.
End rows.

Section busy.
Context `{HH : HtupFlags} `{HHL : !HtupFlagsLaws} `{HW : World} `{HWL : !WorldLaws}.
Context `{HLF : LockFlags} `{HFB : !FlagBits} `{HMX : MultiXacts} `{HML : !MultiXactsLaws}.

(** ** A row that is busy *)

(** Others hold it or have changed it. *)
Definition busy (r : TM_Result) : bool :=
  match r with TM_BeingModified | TM_Updated | TM_Deleted => true | _ => false end.

(** What its masks are then. *)
Definition taken (h : HeapTupleHeader) : Prop :=
  has (t_infomask h) HEAP_XMAX_INVALID = false
  /\ (has (t_infomask h) HEAP_XMAX_IS_MULTI = false -> HEAP_XMAX_IS_LOCKED_ONLY (t_infomask h) = false ->
      TransactionIdIsCurrentTransactionId (t_xmax h) = false)
  /\ (HEAP_LOCKED_UPGRADED (t_infomask h) = true -> TransactionIdIsCurrentTransactionId (t_xmin h) = true).

Lemma upgraded_multi m : HEAP_LOCKED_UPGRADED m = true -> has m HEAP_XMAX_IS_MULTI = true.
Proof. flag_names. by intros [[[-> _]%andb_true_iff _]%andb_true_iff _]%andb_true_iff. Qed.

Lemma taken_hinted f h : f ∈ hint_flags -> f <> HEAP_XMAX_INVALID -> taken h -> taken (hinted f h).
Proof.
  intros Hf Hne (H1 & H2 & H3). destruct (hint_locks (t_infomask h) f Hf) as (E & _).
  unfold taken, hinted. cbn [t_infomask t_xmax t_xmin with_infomask]. rewrite E, locked_only_lor, (flag_not_hint f HEAP_XMAX_IS_MULTI) by (done || set_solver).
  rewrite VisibilityProps.has_lor, H1, (bool_decide_eq_false_2 _ Hne) by (unfold all_flags, hint_flags in *; set_solver). done.
Qed.

Lemma taken_committed h t : TransactionIdDidCommit t (t_xmax h) = true -> has (t_infomask h) HEAP_XMAX_INVALID = false ->
  HEAP_LOCKED_UPGRADED (t_infomask h) = false -> taken h.
Proof.
  intros Hc Hi Hu. split_and!; [done| |congruence]. intros _ _. apply not_true_iff_false. intros Hx.
  by rewrite (current_uncommitted t _ Hx) in Hc.
Qed.

Lemma single_not_upgraded m : has m HEAP_XMAX_IS_MULTI = false -> HEAP_LOCKED_UPGRADED m = false.
Proof. intros Hm. apply not_true_iff_false. intros ?%upgraded_multi. congruence. Qed.

Lemma Update_xmax_busy ts c st h t : header_fine st t h ->
  vwp (Update_xmax ts c) (fun r h' _ => busy r = true -> taken h') h t.
Proof.
  intros Hf. unfold Update_xmax, Update_multi, updated_or_deleted, self_modified. vis; try done.
  all: repeat case_match; try done; intros _.
  all: try (split_and!; [done|congruence|]; intros Hu; first [congruence | apply upgraded_multi in Hu; congruence]).
  all: match goal with
       | E : has _ HEAP_XMAX_COMMITTED = true |- _ =>
           destruct (hf_committed _ _ _ Hf E) as [Hm Hl];
           eapply taken_committed; [|done|by apply single_not_upgraded];
           pose proof (hf_hints _ _ _ Hf) as (_ & _ & _ & H4); unfold deleter in H4; rewrite ?Hm in H4; by apply H4
       | _ => apply taken_hinted; [unfold hint_flags; set_solver|apply not_eq_sym, hint_ne|];
           eapply taken_committed; [eassumption|done|by apply single_not_upgraded]
       end.
Qed.

Lemma Update_own_busy c h t : TransactionIdIsCurrentTransactionId (t_xmin h) = true ->
  vwp (Update_own c) (fun r h' _ => busy r = true -> taken h') h t.
Proof.
  intros Hc. unfold Update_own, Update_own_locked, self_modified. vis; try done.
  all: repeat case_match; try done; intros _; split_and!; done || congruence.
Qed.

Lemma Update_xmin_busy c h t : tuple_ok h t ->
  vwp (Update_xmin c) (fun o h' _ => forall r, o = Some r -> busy r = true -> taken h') h t.
Proof.
  intros Htok. unfold Update_xmin, xmin_outcome. apply vwp_bind, vwp_header. not_moved Htok. vis; try by intros ? [= <-].
  eapply vwp_mono; [by apply Update_own_busy|]. intros r h' t' Hr. apply vwp_ret. intros ? [= <-]. done.
Qed.

Lemma HeapTupleSatisfiesUpdate_busy ts c st h t : header_fine st t h ->
  vwp (HeapTupleSatisfiesUpdate ts c) (fun r h' _ => busy r = true -> taken h') h t.
Proof.
  intros Hf. apply vwp_or_else. eapply vwp_mono.
  { apply vwp_and; [apply vwp_and|].
    - apply keeps_Update_xmin; apply Hf.
    - apply (Update_xmin_committed c), Hf.
    - apply (Update_xmin_busy c), Hf. }
  intros [r|] h1 t1 [[He Hc] H1]; [by apply H1|]. eapply (Update_xmax_busy _ _ st). by eapply fine_evolves.
Qed.
End busy.

Section held.
Context `{HH : HtupFlags} `{HHL : !HtupFlagsLaws} `{HW : World} `{HWL : !WorldLaws}.
Context `{HLF : LockFlags} `{HFB : !FlagBits} `{HMX : MultiXacts} `{HML : !MultiXactsLaws}.
Context `{HP : PgBlockSize} `{HBL : !PgBlockSizeLaws} `{HV : VmEnv} `{HVL : !VmLaws}.
Context `{HIE : InsertEnv} `{HI : !Interference} `{HSL : !StoreLaws}.

(** ** Those in an xmax *)

(** All of them are [P], whatever the masks say of a single one. *)
Definition held (P : MultiXactMember -> Prop) (st : mxstore) (h : HeapTupleHeader) : Prop :=
  if has (t_infomask h) HEAP_XMAX_IS_MULTI then
    HEAP_LOCKED_UPGRADED (t_infomask h) = true
    \/ forall mem, mem ∈ default [] (GetMultiXactIdMembers st (t_xmax h) (HEAP_XMAX_IS_LOCKED_ONLY (t_infomask h))) -> P mem
  else forall s, P {| xid := t_xmax h; status := s |}.

Lemma held_mono (P P' : MultiXactMember -> Prop) st h : (forall mem, P mem -> P' mem) -> held P st h -> held P' st h.
Proof. intros HPP. unfold held. case_match; [|by auto]. intros [?|Hh]; [by left|right; auto]. Qed.

Lemma held_holders P st h m2 mem : held P st h -> mem ∈ holders st (t_xmax h) (t_infomask h) m2 -> P mem.
Proof.
  unfold held, holders. destruct (has _ HEAP_XMAX_INVALID); [by intros _ ?%elem_of_nil|].
  destruct (has _ HEAP_XMAX_IS_MULTI).
  - destruct (HEAP_LOCKED_UPGRADED _); [by intros _ ?%elem_of_nil|]. intros [?|Hh]; [done|auto].
  - intros Hh. destruct (old_status _ _); [|by intros ?%elem_of_nil]. by intros ->%list_elem_of_singleton.
Qed.

Lemma held_same P st h h' : same_tuple h h' -> held P st h -> held P st h'.
Proof.
  intros Hs. pose proof (same_tuple_facts _ _ Hs) as (_ & E2 & _ & E4 & E5 & _).
  destruct (same_tuple_locks _ _ Hs) as [(E6 & _) _]. unfold held. by rewrite E2, E4, E5, E6.
Qed.

(** xmax and the bits that tell of it are the same. *)
Definition unchanged (h h' : HeapTupleHeader) : Prop :=
  t_xmax h' = t_xmax h /\ xmax_infomask_changed (t_infomask h') (t_infomask h) = false.

Lemma held_transfer P st st' t h h' : header_fine st t h -> grows st st' -> unchanged h h' -> held P st h -> held P st' h'.
Proof.
  intros Hf Hg [Hx Hc]. destruct (unchanged_bits _ _ Hc) as (E1 & E2 & E3 & _). unfold held. rewrite Hx, E1, E2, E3.
  case_match eqn:Hm; [|done]. destruct (HEAP_LOCKED_UPGRADED (t_infomask h)) eqn:Hu; [by left|].
  intros [?|Hh]; [done|right]. destruct (Hg _ (hf_issued _ _ _ Hf Hm Hu)) as [_ ->]. done.
Qed.

(** ** Who does not stand in the way *)

Lemma weak_agrees mode t mem : mode_rank mode + mode_rank (TUPLOCK_from_mxstatus (status mem)) <= 2 -> agrees mode t mem.
Proof. intros Hr. right; left. unfold LOCKMODE_from_mxstatus. rewrite tuple_conflicts. apply Z.leb_gt. lia. Qed.

(** Those that were waited for, once nobody deletes the row. *)
Lemma cleared_compatible mode st t h m2 : header_fine st t h -> held (cleared (lockstatus mode) t) st h -> no_deleter h t ->
  compatible mode t (holders st (t_xmax h) (t_infomask h) m2).
Proof.
  intros Hf Hh Hn mem Hin. destruct (held_holders _ _ _ _ _ Hh Hin) as [?|[Hc|Hp]]; [by left| |].
  { right; left. by destruct mode. }
  right; right; left. apply (counts_not t); [done|done|]. destruct (ISUPDATE_from_mxstatus (status mem)) eqn:Eu; [right|by left].
  destruct (holder_updater _ _ _ _ _ Hf Hin Eu) as [Hl ->]. destruct Hn as [?|[_ ?]]; [congruence|done].
Qed.

(** What the masks alone tell. *)
Lemma keys_compatible st t h m2 : masks_fine st h m2 -> has m2 HEAP_KEYS_UPDATED = false ->
  compatible LockTupleKeyShare t (holders st (t_xmax h) (t_infomask h) m2).
Proof.
  intros Hk Hm2 mem. unfold holders. destruct (has _ HEAP_XMAX_INVALID) eqn:Hi; [by intros ?%elem_of_nil|].
  destruct (has _ HEAP_XMAX_IS_MULTI) eqn:Hm.
  - destruct (HEAP_LOCKED_UPGRADED _) eqn:Hu; [by intros ?%elem_of_nil|]. intros Hin%members_only.
    apply weak_agrees. pose proof (mk_keys _ _ _ Hk mem Hi Hm Hu Hm2 Hin) as E. by destruct (status mem).
  - unfold old_status, update_status. rewrite Hm2. repeat case_match; intros Hin;
      first [by apply elem_of_nil in Hin | apply list_elem_of_singleton in Hin as ->]; by apply weak_agrees; simplify_eq.
Qed.

Lemma share_compatible st t h m2 : masks_fine st h m2 -> HEAP_XMAX_IS_LOCKED_ONLY (t_infomask h) = true ->
  HEAP_XMAX_IS_EXCL_LOCKED (t_infomask h) = false ->
  compatible LockTupleShare t (holders st (t_xmax h) (t_infomask h) m2).
Proof.
  intros Hk Hl He mem. unfold holders. destruct (has _ HEAP_XMAX_INVALID) eqn:Hi; [by intros ?%elem_of_nil|].
  destruct (has _ HEAP_XMAX_IS_MULTI) eqn:Hm.
  - destruct (HEAP_LOCKED_UPGRADED _) eqn:Hu; [by intros ?%elem_of_nil|]. intros Hin%members_only.
    apply weak_agrees. pose proof (mk_excl _ _ _ Hk mem Hi Hm Hu He Hin). cbn [mode_rank]. lia.
  - unfold old_status. rewrite Hl, He. repeat case_match; intros Hin;
      first [by apply elem_of_nil in Hin | apply list_elem_of_singleton in Hin as ->]; by apply weak_agrees; simplify_eq.
Qed.

Lemma keyshr_compatible st t h m2 : masks_fine st h m2 -> has (t_infomask h) HEAP_XMAX_IS_MULTI = false ->
  HEAP_XMAX_IS_KEYSHR_LOCKED (t_infomask h) = true ->
  compatible LockTupleNoKeyExclusive t (holders st (t_xmax h) (t_infomask h) m2).
Proof.
  intros Hk Hm He mem. unfold holders. destruct (has _ HEAP_XMAX_INVALID) eqn:Hi; [by intros ?%elem_of_nil|]. rewrite Hm.
  unfold old_status. rewrite (mk_single _ _ _ Hk Hi Hm He), He. intros ->%list_elem_of_singleton. by apply weak_agrees.
Qed.

(** ** Our own hold *)

(** We hold it as strongly. *)
Definition we_hold (mode : LockTupleMode) (l : list MultiXactMember) : Prop :=
  exists mem, mem ∈ l /\ TransactionIdIsCurrentTransactionId (xid mem) = true
    /\ mode_rank mode <= mode_rank (TUPLOCK_from_mxstatus (status mem)).

Lemma own_members_hold ms mode skip : fst (own_members ms mode skip) = true -> we_hold mode ms.
Proof.
  revert skip. induction ms as [|m ms IH]; intros skip; cbn [own_members]; [done|].
  assert (Hnext : forall b, fst (own_members ms mode b) = true -> we_hold mode (m :: ms)).
  { intros b Hb. destruct (IH b Hb) as (mem & Hin & H). exists mem. split; [by right|done]. }
  destruct (TransactionIdIsCurrentTransactionId (xid m)) eqn:Hc; cbn [negb]; [|by apply Hnext].
  destruct (Z.leb_spec (mode_rank mode) (mode_rank (TUPLOCK_from_mxstatus (status m)))); [|by apply Hnext].
  intros _. exists m. split; [by left|done].
Qed.

Lemma own_single_hold st h m2 mode : masks_fine st h m2 -> has (t_infomask h) HEAP_XMAX_INVALID = false ->
  has (t_infomask h) HEAP_XMAX_IS_MULTI = false -> TransactionIdIsCurrentTransactionId (t_xmax h) = true ->
  own_single_enough (t_infomask h) m2 mode = true -> we_hold mode (holders st (t_xmax h) (t_infomask h) m2).
Proof.
  intros Hk Hi Hm Hc Ho. unfold holders. rewrite Hi, Hm. destruct (old_status (t_infomask h) m2) as [s|] eqn:Es.
  - eexists. split; [by left|]. split; [done|]. cbn [status]. revert Es Ho. unfold old_status, own_single_enough, update_status.
    flag_names. repeat match goal with |- context [has ?m ?f] => destruct (has m f) end;
      destruct mode; cbn [andb orb negb]; intros; simplify_eq; cbn [TUPLOCK_from_mxstatus mode_rank]; lia.
  - unfold old_status in Es. destruct (HEAP_XMAX_IS_LOCKED_ONLY (t_infomask h)) eqn:Hl; [|done].
    destruct (mk_own _ _ _ Hk Hi Hm Hl Hc). unfold old_status. by rewrite Hl.
Qed.
End held.
