(* ===== verification/RowLockChain.v ===== *)
(** The later versions of a row that are locked with it: what the holders of
    a version mean for us, what a round of the walk does and for which reason
    ([version_round]), and that the walk leaves every row as rows are, keeps
    the rows of pinned pages, and gives back what it takes. *)
From stdpp Require Import relations.
From S2P Require Import Prelude Visibility VisibilityProps VisibilityHints VisibilitySpec LockFlags MultiXact MultiXactProps EncTuple VisibilityMap VisibilityMapProps VisibilityMapOps Insert TupleStore Delete DeleteFree DeleteProps DeleteLoop DeleteDone RowLock RowLockFine.

(** ** The holders of a version *)

Section holders.
Context `{HH : HtupFlags} `{HHL : !HtupFlagsLaws} `{HW : World} `{HWL : !WorldLaws}.
Context `{HLF : LockFlags} `{HFB : !FlagBits} `{HMX : MultiXacts} `{HML : !MultiXactsLaws}.
Context `{HP : PgBlockSize} `{HV : VmEnv} `{HIE : InsertEnv} `{HSE : StoreEnv} `{HI : !Interference}.

Lemma lockstatus_mode mode : LOCKMODE_from_mxstatus (lockstatus mode) = hwlock mode.
Proof. by destruct mode. Qed.

(** It stands against a lock of that mode: it is another's, it counts, and
    the two locks cannot be had together. *)
Definition obstructs (mode : LockTupleMode) (t : nat) (mem : MultiXactMember) : Prop :=
  TransactionIdIsCurrentTransactionId (xid mem) = false /\ counts t mem
  /\ DoLockModesConflict (LOCKMODE_from_mxstatus (status mem)) (hwlock mode) = true.

Lemma obstructs_earlier mode t t' mem : (t <= t')%nat -> obstructs mode t' mem -> obstructs mode t mem.
Proof. intros Ht (H1 & H2 & H3). split_and!; [done|by eapply counts_earlier|done]. Qed.

(** What the test of one holder has shown, between [t0] and [t]. *)
Definition lockmode_tested (mem : MultiXactMember) (mode : LockTupleMode) (moved : bool) (r : TM_Result * bool)
    (t0 t : nat) : Prop :=
  match r with
  | (TM_SelfModified, false) => TransactionIdIsCurrentTransactionId (xid mem) = true
  | (TM_Ok, true) => obstructs mode t0 mem
  | (TM_Ok, false) => TransactionIdIsCurrentTransactionId (xid mem) = false /\ agrees mode t mem
  | (r, false) => obstructs mode t0 mem /\ r = if moved then TM_Updated else TM_Deleted
  | _ => False
  end.

Lemma test_lockmode_wp st x mode moved (l : LockState) :
  wp (test_lockmode_for_conflict st x mode moved)
    (fun r l' => passes true l l' /\ lockmode_tested {| xid := x; status := st |} mode moved r (lk_clock l) (lk_clock l')) l.
Proof.
  unfold test_lockmode_for_conflict, get_mxact_status_for_lock. wps. rewrite lockstatus_mode.
  assert (Hno : forall t t', (t <= t')%nat -> TransactionIdIsInProgress t x = false ->
    (ISUPDATE_from_mxstatus st = false \/ TransactionIdDidCommit t' x = false) -> agrees mode t' {| xid := x; status := st |}).
  { intros t t' Ht Hp Ho. right; right; left. apply (counts_not t'); [done| |done]. by eapply finished_stable. }
  destruct (TransactionIdIsCurrentTransactionId x) eqn:Hc; [by wps|].
  unfold lk_in_progress, lk_did_abort, lk_did_commit, lk_ask. wps. unfold wp at 1.
  destruct (TransactionIdIsInProgress (lk_clock l) x) eqn:Hp.
  { wps. split; [split; cbn; [done|split; [lia|done]]|]. destruct (DoLockModesConflict _ _) eqn:Hk; cbn.
    - split_and!; [done|by left|done].
    - split; [done|]. right; left. exact Hk. }
  wps. unfold wp at 1. cbn [lk_clock multis tuplocks warned].
  destruct (TransactionIdDidAbort (S (lk_clock l)) x) eqn:Ha.
  { wps. split; [split; cbn; [done|split; [lia|done]]|]. split; [done|]. right; right; right. cbn [xid lk_clock].
    eapply abort_stable; [|exact Ha]. lia. }
  wps. unfold wp at 1. cbn [lk_clock multis tuplocks warned].
  destruct (TransactionIdDidCommit (S (S (lk_clock l))) x) eqn:Hd.
  - destruct (ISUPDATE_from_mxstatus st) eqn:Hu; cbn [negb].
    + destruct (DoLockModesConflict _ _) eqn:Hk; wps; (split; [split; cbn; [done|split; [lia|done]]|]).
      * assert (obstructs mode (lk_clock l) {| xid := x; status := st |}); [|by destruct moved].
        apply (obstructs_earlier mode _ (S (S (lk_clock l)))); [lia|]. split_and!; [done|by right|done].
      * split; [done|]. right; left. exact Hk.
    + wps. split; [split; cbn; [done|split; [lia|done]]|]. split; [done|]. eapply (Hno (lk_clock l)); [cbn; lia|done|by left].
  - wps. split; [split; cbn; [done|split; [lia|done]]|]. split; [done|]. cbn [lk_clock].
    apply (Hno (lk_clock l)); [lia|done|]. right. eapply (outcome_final (S (S (lk_clock l)))); [lia| |done].
    eapply finished_stable; [|exact Hp]. lia.
Qed.

(** What the verdict on all of them means. *)
Definition members_tested (members : list MultiXactMember) (mode : LockTupleMode) (moved : bool) (v : HolderVerdict)
    (t0 t : nat) : Prop :=
  match v with
  | NothingInTheWay => forall mem, mem ∈ members ->
      TransactionIdIsCurrentTransactionId (xid mem) = false /\ agrees mode t mem
  | AlreadyOurs => exists mem, mem ∈ members /\ TransactionIdIsCurrentTransactionId (xid mem) = true
  | MustWaitFor x => exists mem, mem ∈ members /\ xid mem = x /\ obstructs mode t0 mem
  | InTheWay r => exists mem, mem ∈ members /\ obstructs mode t0 mem /\ r = if moved then TM_Updated else TM_Deleted
  end.

Lemma test_members_wp members mode moved (l : LockState) :
  wp (test_members members mode moved)
    (fun v l' => passes true l l' /\ members_tested members mode moved v (lk_clock l) (lk_clock l')) l.
Proof.
  revert l. induction members as [|m members IH]; intros l; cbn [test_members].
  { wps. split; [done|]. by intros mem ?%elem_of_nil. }
  apply wp_bind. eapply wp_mono; [apply test_lockmode_wp|]. intros [r b] l1 [H1 T1]. cbn [fst snd].
  assert (Hhere : m ∈ m :: members) by by left. destruct m as [x st]. cbn [xid status] in *.
  destruct r, b; cbn [lockmode_tested] in T1; try done;
    try (destruct moved; (by destruct T1) || (wps; split; [done|]; cbn [members_tested]; destruct T1; by eexists));
    try (wps; split; [done|]; by eexists).
  destruct T1 as [Hc Ha]. eapply wp_mono; [apply IH|]. intros v l2 [H2 T2]. split; [by etransitivity|].
  pose proof (proj1 (proj2 H1)) as Ht. destruct v; cbn [members_tested] in *.
  - intros mem [->|Hin]%elem_of_cons; [|by apply T2]. split; [done|]. eapply agrees_later; [|exact Ha]. apply H2.
  - destruct T2 as (mem & Hin & Hcur). exists mem. split; [by right|done].
  - destruct T2 as (mem & Hin & Hx & Ho). exists mem. split; [by right|]. split; [done|by eapply obstructs_earlier].
  - destruct T2 as (mem & Hin & Ho & Hr). exists mem. split; [by right|]. split; [by eapply obstructs_earlier|done].
Qed.

(** Who is looked at. *)
Definition listed (st : mxstore) (xmax m m2 : Z) : list MultiXactMember :=
  if has m HEAP_XMAX_INVALID then []
  else if has m HEAP_XMAX_IS_MULTI then default [] (GetMultiXactIdMembers st xmax (HEAP_XMAX_IS_LOCKED_ONLY m))
  else match old_status m m2 with Some s => [{| xid := xmax; status := s |}] | None => [] end.

Lemma holders_listed st xmax m m2 mem : mem ∈ holders st xmax m m2 -> mem ∈ listed st xmax m m2.
Proof.
  unfold holders, listed. destruct (has m HEAP_XMAX_INVALID), (has m HEAP_XMAX_IS_MULTI); try done.
  destruct (HEAP_LOCKED_UPGRADED m); [by intros ?%elem_of_nil|done].
Qed.

(** The verdict on the holders of a version. *)
Definition holders_tested (st : mxstore) (h : HeapTupleHeader) (m2 : Z) (mode : LockTupleMode) (moved : bool)
    (v : HolderVerdict) (t0 t : nat) : Prop :=
  members_tested (listed st (t_xmax h) (t_infomask h) m2) mode moved v t0 t.

Lemma test_holders_twp h m2 mode moved (l : LockState) :
  twp (fun _ => False) (fun _ => True) (test_holders (t_xmax h) (t_infomask h) m2 mode moved)
    (fun v l' => passes true l l' /\ holders_tested (multis l) h m2 mode moved v (lk_clock l) (lk_clock l')) l.
Proof.
  assert (Hof : forall ms, ms = listed (multis l) (t_xmax h) (t_infomask h) m2 ->
    twp (fun _ => False) (fun _ => True) (test_members ms mode moved)
      (fun v l' => passes true l l' /\ holders_tested (multis l) h m2 mode moved v (lk_clock l) (lk_clock l')) l).
  { intros ms ->. pose proof (test_members_wp (listed (multis l) (t_xmax h) (t_infomask h) m2) mode moved l) as H.
    unfold wp, twp in *. by destruct (test_members _ _ _ _) as [[v|[]| |] l']. }
  unfold test_holders. unfold listed in Hof. destruct (has (t_infomask h) HEAP_XMAX_INVALID) eqn:Hi.
  { apply twp_ret. split; [done|]. unfold holders_tested, listed. rewrite Hi. by intros mem ?%elem_of_nil. }
  destruct (has (t_infomask h) HEAP_XMAX_IS_MULTI) eqn:Hm.
  - unfold lk_members. apply twp_bind, twp_gets. by apply Hof.
  - destruct (old_status (t_infomask h) m2) as [st|] eqn:Es; [|done]. by apply Hof.
Qed.

(** Nobody in the way, as the new lock has to have it. *)
Definition none_obstructs (st : mxstore) (h : HeapTupleHeader) (m2 : Z) (mode : LockTupleMode) (t : nat) : Prop :=
  compatible mode t (holders st (t_xmax h) (t_infomask h) m2)
  /\ (has (t_infomask h) HEAP_XMAX_INVALID = false -> has (t_infomask h) HEAP_XMAX_IS_MULTI = false ->
      TransactionIdIsCurrentTransactionId (t_xmax h) = false).

Lemma nothing_in_the_way st h m2 mode moved t0 t : masks_fine st h m2 ->
  holders_tested st h m2 mode moved NothingInTheWay t0 t -> none_obstructs st h m2 mode t.
Proof.
  intros Hk H. split; [intros mem Hin; by apply H, holders_listed|]. intros Hi Hm.
  destruct (TransactionIdIsCurrentTransactionId (t_xmax h)) eqn:Hc; [|done].
  destruct (old_status (t_infomask h) m2) as [s|] eqn:Hs.
  - destruct (H {| xid := t_xmax h; status := s |}) as [Hc' _]; [|cbn in Hc'; congruence]. unfold listed. rewrite Hi, Hm, Hs. by left.
  - exfalso. destruct (HEAP_XMAX_IS_LOCKED_ONLY (t_infomask h)) eqn:Hl; [by apply (mk_own _ _ _ Hk)|].
    unfold old_status in Hs. by rewrite Hl in Hs.
Qed.
End holders.

(** ** The map *)

Section map.
Context `{HH : HtupFlags} `{HW : World} `{HLF : LockFlags} `{HMX : MultiXacts}.
Context `{HP : PgBlockSize} `{HBL : !PgBlockSizeLaws} `{HV : VmEnv} `{HVL : !VmLaws}.
Context `{HIE : InsertEnv}.

(** Of a block that is marked all-visible, the all-frozen bit is gone. *)
Definition frozen_cleared (bn : Z) (was : bool) (v v' : VmState) : Prop :=
  forall y, 0 <= y -> vm_status v' y
    = if (y =? bn) && was then Z.ldiff (vm_status v bn) VISIBILITYMAP_ALL_FROZEN else vm_status v y.

(** What is returned. *)
Definition frozen_was_set (bn : Z) (was : bool) (v : VmState) : bool :=
  was && negb (Z.land (vm_status v bn) VISIBILITYMAP_ALL_FROZEN =? 0).

Lemma all_frozen_range : 0 <= VISIBILITYMAP_ALL_FROZEN < 4.
Proof. by rewrite all_frozen_value. Qed.

Lemma clear_all_frozen_twp (nf er : Prop) bn vm b s (Q : bool -> StoreState -> Prop) :
  blocks s !! bn = Some b -> vm_ok (st_vm s) ->
  (all_visible_flag b = true -> vm = Some (HEAPBLK_TO_MAPBLOCK bn) /\ HEAPBLK_TO_MAPBLOCK bn ∈ pinned (st_vm s)) ->
  (forall v, vm_ok v -> pinned v = pinned (st_vm s) -> frozen_cleared bn (all_visible_flag b) (st_vm s) v ->
     Q (frozen_was_set bn (all_visible_flag b) (st_vm s)) (with_svm v s)) ->
  twp (fun _ => nf) (fun _ => er) (clear_all_frozen bn vm) Q s.
Proof.
  intros Hb Hv Hp HQ. unfold clear_all_frozen. apply twp_bind. eapply page_all_visible_twp; [exact Hb|].
  unfold frozen_was_set in HQ. destruct (all_visible_flag b) eqn:E.
  - destruct (Hp eq_refl) as [-> Hpin].
    destruct (clear_spec bn VISIBILITYMAP_ALL_FROZEN (st_vm s) Hv Hpin all_frozen_range) as (v & Ev & V1 & V2 & _ & _ & V3).
    eapply on_svm_twp; [exact Ev|]. apply HQ; [done|done|]. intros y Hy. by rewrite (V3 y Hy), andb_true_r.
  - apply twp_ret. replace s with (with_svm (st_vm s) s) at 1 by (by destruct s). apply HQ; [done|done|].
    intros y _. by rewrite andb_false_r.
Qed.
End map.

(** ** The walk *)

Section walk.
Context `{HH : HtupFlags} `{HHL : !HtupFlagsLaws} `{HW : World} `{HWL : !WorldLaws}.
Context `{HLF : LockFlags} `{HFB : !FlagBits} `{HMX : MultiXacts} `{HML : !MultiXactsLaws}.
Context `{HP : PgBlockSize} `{HBL : !PgBlockSizeLaws} `{HV : VmEnv} `{HVL : !VmLaws}.
Context `{HIE : InsertEnv} `{HSE : StoreEnv} `{HI : !Interference} `{HSL : !StoreLaws}.

Definition version_record (r : StoreRecord) : Prop := exists bn r', r = XlLockUpdated bn r'.

(** Since [sb], when the caller had no page locked: what is locked and pinned
    on top, and what has become of rows and log. *)
Record chaining (sb : StoreState) (lockd pins : list Z) (vm : Buffer) (s : StoreState) : Prop := {
  ch_vm : vm_ok (st_vm s);
  ch_map : pinned (st_vm s) ≡ₚ buffer_pins vm ++ pinned (st_vm sb);
  ch_held : sheld s = lockd;
  ch_pins : spins s = pins ++ spins sb;
  ch_tup : tuplocks (st_locks s) = tuplocks (st_locks sb);
  ch_wal : exists l, st_wal s = st_wal sb ++ l /\ Forall version_record l;
  ch_toast : toast_deletes s = toast_deletes sb;
  ch_time : (moment sb <= moment s)%nat;
  ch_fine : all_fine s;
  ch_grows : grows (multis (st_locks sb)) (multis (st_locks s));
  ch_rows tid it : tid.1 ∈ spins sb -> item tid sb = Some it -> exists it', item tid s = Some it' /\ same_row it it';
}.
#[local] Arguments ch_vm {_ _ _ _ _}.
#[local] Arguments ch_map {_ _ _ _ _}.
#[local] Arguments ch_held {_ _ _ _ _}.
#[local] Arguments ch_pins {_ _ _ _ _}.
#[local] Arguments ch_fine {_ _ _ _ _}.

(** The caller's own changes that touch neither rows nor log. *)
Lemma chaining_same sb lockd pins vm lockd' pins' vm' s s' : chaining sb lockd pins vm s ->
  vm_ok (st_vm s') -> pinned (st_vm s') ≡ₚ buffer_pins vm' ++ pinned (st_vm sb) ->
  sheld s' = lockd' -> spins s' = pins' ++ spins sb -> tuplocks (st_locks s') = tuplocks (st_locks s) ->
  st_wal s' = st_wal s -> toast_deletes s' = toast_deletes s -> (moment s <= moment s')%nat ->
  multis (st_locks s') = multis (st_locks s) -> blocks s' = blocks s -> chaining sb lockd' pins' vm' s'.
Proof.
  intros [C1 C2 C3 C4 C5 C6 C7 C8 C9 C10 C11] V M H P T W O Ht G B. split; try congruence.
  - by rewrite W.
  - lia.
  - eapply same_rows_fine; [done|done|by rewrite G|done].
  - by rewrite G.
  - intros tid it Hp Hi. unfold item. rewrite B. by apply C11.
Qed.

Lemma chaining_start sb : sheld sb = [] -> vm_ok (st_vm sb) -> all_fine sb -> chaining sb [] [] None sb.
Proof.
  intros H1 H2 H3. split; try done.
  - exists []. by rewrite app_nil_r.
  - intros tid it _ Hi. by exists it.
Qed.

(** Nothing but questions has happened. *)
Record untouched (s s' : StoreState) : Prop := {
  un_blocks : blocks s' = blocks s;
  un_vm : st_vm s' = st_vm s;
  un_wal : st_wal s' = st_wal s;
  un_multis : multis (st_locks s') = multis (st_locks s);
  un_time : (moment s <= moment s')%nat;
}.

Lemma untouched_trans s1 s2 s3 : untouched s1 s2 -> untouched s2 s3 -> untouched s1 s3.
Proof. intros [? ? ? ? ?] [? ? ? ? ?]. split; try congruence. lia. Qed.

Lemma untouched_item s s' tid : untouched s s' -> item tid s' = item tid s.
Proof. intros U. unfold item. by rewrite (un_blocks _ _ U). Qed.

(** ** What marking a version does *)

(** A record of the lock [x], whose masks are [n] and [n2]. *)
Definition lock_record (tid : Z * Z) (x n n2 : Z) (cleared : bool) : xl_pg_tde_lock :=
  {| xlk_xmax := x; xlk_offnum := tid.2; xlk_infobits := compute_infobits n n2;
     xlk_flags := flag_if cleared XLH_LOCK_ALL_FROZEN_CLEARED |}.

(** [it] has become [it']; [cleared]: the all-frozen bit is gone. *)
Record version_marked (tid : Z * Z) (mode : LockTupleMode) (cleared : bool) (it it' : HeapItem) (s s' : StoreState) : Prop := {
  vk_row : same_row it it' /\ t_ctid (it_hdr it') = t_ctid (it_hdr it);
  vk_granted : granted GetCurrentTransactionId mode false (item_holders s' it');
  vk_kept h : h ∈ item_holders s it -> counts (moment s') h -> kept GetCurrentTransactionId h (item_holders s' it');
  vk_compatible : compatible mode (moment s') (item_holders s' it');
  vk_blocks : exists b lsn, blocks s !! tid.1 = Some b
    /\ blocks s' = <[tid.1 := with_lsn lsn (with_items (<[tid.2 := it']> (items b)) b)]> (blocks s)
    /\ frozen_cleared tid.1 (all_visible_flag b) (st_vm s) (st_vm s');
  vk_time : (moment s <= moment s')%nat;
  vk_wal : st_wal s' = st_wal s ++ (if RelationNeedsWAL
             then [XlLockUpdated tid.1 (lock_record tid (t_xmax (it_hdr it')) (t_infomask (it_hdr it')) (it_infomask2 it') cleared)]
             else []);
}.

#[local] Arguments vk_time {_ _ _ _ _ _ _}.

Lemma marked_later tid mode c it it' s0 s s' s1 : untouched s0 s -> version_marked tid mode c it it' s s' ->
  untouched s' s1 -> version_marked tid mode c it it' s0 s1.
Proof.
  intros [A1 A2 A3 A4 A5] [V1 V2 V3 V4 V5 V6 V7] [B1 B2 B3 B4 B5].
  assert (Hh : item_holders s1 it' = item_holders s' it') by (unfold item_holders; by rewrite B4).
  assert (Hh0 : item_holders s0 it = item_holders s it) by (unfold item_holders; by rewrite A4).
  split; rewrite ?Hh, ?Hh0; try done.
  - intros h Hin Hc. apply V3; [done|]. by eapply counts_earlier.
  - by eapply compatible_later.
  - rewrite B1, <- A1, <- A2, B2. exact V5.
  - lia.
  - by rewrite B3, V7, A3.
Qed.

(** ** What a round does *)

(** What is next after the version that is now [h]. *)
Definition version_next (tid : Z * Z) (h : HeapTupleHeader) (step : ChainStep) (t : nat) : Prop :=
  match step with
  | SameVersion => False
  | ChainEnds r => r = TM_Ok /\ (has (t_infomask h) HEAP_XMAX_INVALID = true
      \/ HeapTupleHeaderIndicatesMovedPartitions h = true \/ tid = t_ctid h \/ no_deleter h t)
  | NextVersion x tid' => x = HeapTupleHeaderGetUpdateXid h /\ tid' = t_ctid h /\ tid' <> tid
      /\ has (t_infomask h) HEAP_XMAX_INVALID = false /\ has (t_infomask h) HEAP_XMAX_LOCK_ONLY = false
      /\ HeapTupleHeaderIndicatesMovedPartitions h = false
  end.

(** A member that is looked at. *)
Definition looked_at (mem : MultiXactMember) (s : StoreState) (it : HeapItem) : Prop :=
  mem ∈ listed (multis (st_locks s)) (t_xmax (it_hdr it)) (t_infomask (it_hdr it)) (it_infomask2 it).

(** The version is the successor of the one before, for all we know. *)
Definition of_chain (prior : Z) (it : HeapItem) : Prop :=
  TransactionIdIsValid prior = true -> HeapTupleHeaderGetXmin (it_hdr it) = prior.

(** From where the page of the version [it] is locked, in [s], on. *)
Inductive version_round (tid : Z * Z) (prior : Z) (mode : LockTupleMode) (s : StoreState) (it : HeapItem)
    : ChainStep -> StoreState -> Prop :=
| round_another : ~ of_chain prior it ->
    version_round tid prior mode s it (ChainEnds TM_Ok) s
| round_aborted s' : of_chain prior it -> TransactionIdDidAbort (moment s') (HeapTupleHeaderGetXmin (it_hdr it)) = true ->
    untouched s s' -> version_round tid prior mode s it (ChainEnds TM_Ok) s'
| round_waits mem s' : of_chain prior it -> looked_at mem s it -> obstructs mode (moment s) mem ->
    TransactionIdIsInProgress (moment s') (xid mem) = false ->
    untouched s s' -> version_round tid prior mode s it SameVersion s'
| round_blocked mem s' : of_chain prior it -> looked_at mem s it -> obstructs mode (moment s) mem -> untouched s s' ->
    version_round tid prior mode s it
      (ChainEnds (if bool_decide (tid <> t_ctid (it_hdr it)) then TM_Updated else TM_Deleted)) s'
| round_ours mem step s' : of_chain prior it -> looked_at mem s it -> TransactionIdIsCurrentTransactionId (xid mem) = true ->
    version_next tid (it_hdr it) step (moment s') ->
    untouched s s' -> version_round tid prior mode s it step s'
| round_marked it' c step s' : of_chain prior it ->
    (forall mem, looked_at mem s it -> TransactionIdIsCurrentTransactionId (xid mem) = false /\ agrees mode (moment s') mem) ->
    item tid s' = Some it' -> version_marked tid mode c it it' s s' ->
    version_next tid (it_hdr it') step (moment s') -> version_round tid prior mode s it step s'.

Section rules.
Variables (nf er : Prop) (sb : StoreState).
Local Abbreviation T := (twp (fun _ => nf) (fun _ => er)).

(** Waiting for a page. *)
Lemma chain_lock_twp bn pins vm s (Q : unit -> StoreState -> Prop) : chaining sb [] pins vm s ->
  (forall s', chaining sb [bn] pins vm s' ->
     (forall tid it, tid.1 ∈ spins s -> item tid s = Some it -> exists it', item tid s' = Some it' /\ same_row it it') ->
     Q tt s') ->
  T (LockHeapBuffer bn) Q s.
Proof.
  intros [C1 C2 C3 C4 C5 C6 C7 C8 C9 C10 C11] HQ. unfold LockHeapBuffer. apply twp_bind, twp_modify, twp_bind, twp_gets.
  pose proof (interfere_law s) as [U1 U2 U3 U4 U5 U6 U7]. destruct (U3 C1) as [V1 V2].
  injection U2 as E1 E2 E3 E4 E5. set (s' := interfere (moment s) s) in *.
  rewrite E1, C3, bool_decide_eq_false_2 by by intros ?%elem_of_nil. apply twp_modify.
  assert (Hrow : forall tid it, tid.1 ∈ spins s -> item tid s = Some it -> exists it', item tid s' = Some it' /\ same_row it it').
  { intros tid it Hp Hi. destruct (U5 tid it Hp Hi (C9 _ _ Hi)) as (it' & ? & ? & _). by exists it'. }
  apply HQ; [|exact Hrow]. split; cbn; rewrite ?E1, ?E2, ?E3, ?E4, ?E5; try done.
  - by rewrite V2.
  - unfold moment in *. cbn. lia.
  - by apply U6.
  - by etransitivity.
  - intros tid it Hp Hi. destruct (C11 tid it Hp Hi) as (it1 & Hi1 & R1).
    destruct (Hrow tid it1) as (it2 & Hi2 & R2); [rewrite C4; apply elem_of_app; by right|done|].
    exists it2. split; [done|by etransitivity].
Qed.

Lemma chain_unlock_twp bn pins vm s (Q : unit -> StoreState -> Prop) : chaining sb [bn] pins vm s ->
  (forall s', chaining sb [] pins vm s' -> untouched s s' -> Q tt s') ->
  T (UnlockHeapBuffer bn) Q s.
Proof.
  intros C HQ. unfold UnlockHeapBuffer. apply twp_bind, twp_gets, twp_bind. rewrite (ch_held C). cbn [remove_pin].
  rewrite Z.eqb_refl. eapply twp_defined; [done|]. apply twp_modify. apply HQ; [|by split].
  eapply chaining_same; [exact C|..]; first [done|apply C].
Qed.

Lemma chain_release_twp bn vm s (Q : unit -> StoreState -> Prop) : chaining sb [] [bn] vm s ->
  (forall s', chaining sb [] [] vm s' -> Q tt s') -> T (ReleaseHeapBuffer bn) Q s.
Proof.
  intros C HQ. unfold ReleaseHeapBuffer. apply twp_bind, twp_gets, twp_bind. rewrite (ch_pins C). cbn [remove_pin app].
  rewrite Z.eqb_refl. eapply twp_defined; [done|]. apply twp_modify. apply HQ.
  eapply chaining_same; [exact C|..]; first [done|apply C].
Qed.

(** The map page of this block, for whatever was pinned. *)
Lemma chain_pin_twp bn pins vm s (Q : Buffer -> StoreState -> Prop) : 0 <= bn < 2 ^ 32 -> chaining sb [] pins vm s ->
  (forall s', chaining sb [] pins (Some (HEAPBLK_TO_MAPBLOCK bn)) s' -> blocks s' = blocks s ->
     Q (Some (HEAPBLK_TO_MAPBLOCK bn)) s') ->
  T (on_svm (pg_tde_visibilitymap_pin bn vm)) Q s.
Proof.
  intros Hr C HQ. destruct (pin_spec bn vm (st_vm s) (ch_vm C) Hr) as (v & Ev & V1 & V2 & (rest & Hp1 & Hp2)).
  { destruct vm as [b|]; [|done]. cbn. rewrite (ch_map C). by left. }
  eapply on_svm_twp; [exact Ev|]. apply HQ; [|done].
  eapply chaining_same; [exact C|..]; [done| |first [done|apply C]..]. cbn [st_vm with_svm buffer_pins app].
  rewrite (ch_map C) in Hp1. apply Permutation_app_inv_l in Hp1. by rewrite Hp2, Hp1.
Qed.

Lemma chain_release_map_twp vm s (Q : unit -> StoreState -> Prop) : chaining sb [] [] vm s ->
  (forall s', chaining sb [] [] None s' -> Q tt s') -> T (release_map vm) Q s.
Proof.
  intros C HQ. eapply release_map_twp; [apply C|apply (ch_map C)|]. intros v Hv Hp _. apply HQ.
  eapply chaining_same; [exact C|..]; first [done|exact Hp|apply C].
Qed.

(** Code that only asks. *)
Lemma chain_ask_twp {A} lockd pins vm (m : M LockState A) (P : A -> LockState -> Prop) s (Q : A -> StoreState -> Prop) :
  er -> chaining sb lockd pins vm s ->
  twp (fun _ => False) (fun _ => True) m (fun a l' => passes true (st_locks s) l' /\ P a l') (st_locks s) ->
  (forall a s', chaining sb lockd pins vm s' -> untouched s s' -> P a (st_locks s') -> Q a s') ->
  T (on_locks m) Q s.
Proof.
  intros He C Hm HQ. unfold on_locks, twp, zoom in *. destruct (m (st_locks s)) as [[a|[]| |] l']; try done.
  destruct Hm as [(P1 & P2 & P3) Hp]. specialize (P3 eq_refl). apply HQ; [|by split|done].
  eapply chaining_same; [exact C|..]; first [done|apply C].
Qed.

(** Code on a header that sets hints at most. *)
Lemma chain_hint_twp {A} tid vm (m : M VisState A) VQ it s (Q : A -> StoreState -> Prop) :
  chaining sb [tid.1] [tid.1] vm s -> item tid s = Some it ->
  vwp m VQ (it_hdr it) (moment s) ->
  (forall a h' t', VQ a h' t' -> header_fine (multis (st_locks s)) t' h' /\ evolves (it_hdr it) (moment s) h' t') ->
  (forall a h' s', VQ a h' (moment s') -> chaining sb [tid.1] [tid.1] vm s' -> item tid s' = Some (with_hdr h' it) -> Q a s') ->
  T (on_tuple tid m) Q s.
Proof.
  intros C Hi Hv HE HQ. eapply on_tuple_twp; [exact Hi|exact Hv|]. intros a h' t' s' Ha [T1 T2 T3 T4 T5] Hm Hs.
  destruct (HE a h' t' Ha) as [Hf He]. pose proof He as (Hle & Hst & _). apply (HQ a h'); [by rewrite Hm| |done].
  assert (Hrow : same_row it (with_hdr h' it)) by by eapply evolves_row.
  injection T5 as E1 E2 E3 E4 E5. destruct C as [C1 C2 C3 C4 C5 C6 C7 C8 C9 C10 C11].
  split; rewrite ?T4, ?E1, ?E2, ?E3, ?E4, ?E5; try done.
  - lia.
  - eapply put_all_fine; [done|done|lia|by rewrite Hs| |done]. destruct (C9 _ _ Hi) as [_ Hk].
    split; [by rewrite Hs, Hm|rewrite Hs; by eapply masks_same].
  - by rewrite Hs.
  - intros tid0 it0 Hp0 Hi0. destruct (C11 tid0 it0 Hp0 Hi0) as (it1 & Hi1 & R1). destruct (decide (tid0 = tid)) as [->|Hne].
    + exists (with_hdr h' it). split; [done|]. rewrite Hi in Hi1. injection Hi1 as <-. by etransitivity.
    + exists it1. by rewrite T2.
Qed.

(** ** Reading a version *)

Lemma fine_ctid s tid it : all_fine s -> item tid s = Some it -> 0 <= (t_ctid (it_hdr it)).1 < 2 ^ 32.
Proof. intros Hall Hi. apply (Hall tid it Hi). Qed.

Lemma any_rule st h t : header_fine st t h ->
  vwp HeapTupleSatisfiesAny (fun r h' t' => header_fine st t' h' /\ evolves h t h' t' /\ r = true) h t.
Proof. intros Hf d. cbn. split_and!; [done|by apply evolves_stay; [apply Hf|]|done]. Qed.

Lemma pg_tde_fetch_any_twp tid vm s (Q : bool -> StoreState -> Prop) : er -> chaining sb [] [] vm s ->
  (forall s', chaining sb [] [] vm s' -> Q false s') ->
  (forall it s', chaining sb [] [tid.1] vm s' -> item tid s' = Some it -> Q true s') ->
  T (pg_tde_fetch_any tid) Q s.
Proof.
  intros He C HQ0 HQ1. unfold pg_tde_fetch_any. apply twp_bind, twp_get. destruct (blocks s !! tid.1) as [b|]; [|done].
  unfold ReadHeapBuffer. apply twp_bind, twp_modify. set (s1 := with_spins _ s).
  assert (C1 : chaining sb [] [tid.1] vm s1).
  { eapply chaining_same; [exact C|..]; first [done|apply C|cbn; by rewrite (ch_pins C)]. }
  apply twp_bind. eapply chain_lock_twp; [exact C1|]. intros s2 C2 _. apply twp_bind, twp_get.
  destruct (item tid s2) as [it|] eqn:Hi.
  - apply twp_bind. eapply chain_hint_twp; [exact C2|exact Hi|by apply (any_rule (multis (st_locks s2))), (ch_fine C2 tid)|by intros a h' t' (? & ? & _)|].
    intros a h' s3 (_ & _ & ->) C3 Hi3. apply twp_bind. eapply chain_unlock_twp; [exact C3|]. intros s4 C4 U4.
    apply twp_ret. eapply HQ1; [exact C4|]. by rewrite (untouched_item _ _ _ U4).
  - apply twp_bind. eapply chain_unlock_twp; [exact C2|]. intros s3 C3 _. apply twp_bind.
    eapply chain_release_twp; [exact C3|]. intros s4 C4. by apply twp_ret, HQ0.
Qed.

(** With the page locked, its map page is pinned if it is needed. *)
Definition map_ready (bn : Z) (vm : Buffer) (s : StoreState) : Prop :=
  forall b, blocks s !! bn = Some b -> all_visible_flag b = true -> vm = Some (HEAPBLK_TO_MAPBLOCK bn).

Lemma lock_version_page_twp tid vm it s (Q : Buffer -> StoreState -> Prop) : 0 <= tid.1 < 2 ^ 32 ->
  chaining sb [] [tid.1] vm s -> item tid s = Some it ->
  (forall vm' it' s', chaining sb [tid.1] [tid.1] vm' s' -> item tid s' = Some it' -> map_ready tid.1 vm' s' -> Q vm' s') ->
  T (lock_version_page tid.1 vm) Q s.
Proof.
  intros Hr C Hi HQ. unfold lock_version_page. destruct (item_block _ _ _ Hi) as (b & Hb & _).
  apply twp_bind. eapply page_all_visible_twp; [exact Hb|]. apply twp_bind.
  assert (Hlock : forall vm1 s1, (forall s2 it2, chaining sb [tid.1] [tid.1] vm1 s2 -> item tid s2 = Some it2 -> 
      T (let* v := page_all_visible tid.1 in
         if negb (all_visible_flag b) && v
         then UnlockHeapBuffer tid.1;;; let* vm2 := on_svm (pg_tde_visibilitymap_pin tid.1 vm1) in
              LockHeapBuffer tid.1;;; ret vm2
         else ret vm1) Q s2) -> chaining sb [] [tid.1] vm1 s1 -> item tid s1 = Some it ->
    T (LockHeapBuffer tid.1;;; let* v := page_all_visible tid.1 in
         if negb (all_visible_flag b) && v
         then UnlockHeapBuffer tid.1;;; let* vm2 := on_svm (pg_tde_visibilitymap_pin tid.1 vm1) in
              LockHeapBuffer tid.1;;; ret vm2
         else ret vm1) Q s1).
  { intros vm1 s1 H C1 Hi1. apply twp_bind. eapply chain_lock_twp; [exact C1|]. intros s2 C2 K2.
    destruct (K2 tid it) as (it2 & Hi2 & _); [rewrite (ch_pins C1); by left|done|]. by eapply H. }
  destruct (all_visible_flag b) eqn:Ev.
  - eapply chain_pin_twp; [exact Hr|exact C|]. intros s1 C1 B1. apply Hlock; [|exact C1|unfold item; by rewrite B1].
    intros s2 it2 C2 Hi2. destruct (item_block _ _ _ Hi2) as (b2 & Hb2 & _). apply twp_bind.
    eapply page_all_visible_twp; [exact Hb2|]. cbn [negb andb]. apply twp_ret. by eapply HQ.
  - apply twp_ret. apply Hlock; [|exact C|exact Hi]. intros s2 it2 C2 Hi2. destruct (item_block _ _ _ Hi2) as (b2 & Hb2 & _).
    apply twp_bind. eapply page_all_visible_twp; [exact Hb2|]. cbn [negb andb]. destruct (all_visible_flag b2) eqn:Ev2.
    + apply twp_bind. eapply chain_unlock_twp; [exact C2|]. intros s3 C3 [B3 _ _ _ _]. apply twp_bind.
      eapply chain_pin_twp; [exact Hr|exact C3|]. intros s4 C4 B4. apply twp_bind. eapply chain_lock_twp; [exact C4|].
      intros s5 C5 K5. destruct (K5 tid it2) as (it5 & Hi5 & _); [rewrite (ch_pins C4); by left|unfold item; by rewrite B4, B3|].
      apply twp_ret. by eapply HQ.
    + apply twp_ret. eapply HQ; [exact C2|exact Hi2|]. intros b' Hb'. congruence.
Qed.

(** ** Marking a version *)

Lemma version_locked_relocked x n n2 it : 0 <= (t_ctid (it_hdr it)).1 < 2 ^ 32 ->
  relocked (it_hdr it) x n n2 (it_hdr (version_locked x n n2 it)) (it_infomask2 (version_locked x n n2 it)).
Proof.
  intros Hc. split; try done. cbn [it_infomask2 version_locked map_hdr with_hdr with_masks].
  flags. done.
Qed.

Lemma relocked_row st add x n n2 it it' : xmax_made st add false x n n2 ->
  relocked (it_hdr it) x n n2 (it_hdr it') (it_infomask2 it') -> it_hoff it' = it_hoff it -> it_data it' = it_data it ->
  same_row it it'.
Proof.
  intros Hm Hr Ho Hd. destruct (relocked_tests _ _ _ _ _ _ _ _ _ Hm Hr) as ((_ & _ & Hz & _) & (_ & _ & M & L) & _).
  split_and!; [apply Hr|done|done|by rewrite Hz|]. unfold ours. rewrite M, L.
  destruct (made_locker _ _ _ _ _ Hm) as [->| ->]; by rewrite ?andb_false_r.
Qed.

(** The row [tid] of a locked page is now [it'], and what is left. *)
Lemma chaining_put tid vm it it' b lsn s s' r : chaining sb [tid.1] [tid.1] vm s ->
  blocks s !! tid.1 = Some b -> items b !! tid.2 = Some it ->
  blocks s' = <[tid.1 := with_lsn lsn (with_items (<[tid.2 := it']> (items b)) b)]> (blocks s) ->
  vm_ok (st_vm s') -> pinned (st_vm s') = pinned (st_vm s) -> sheld s' = sheld s -> spins s' = spins s ->
  tuplocks (st_locks s') = tuplocks (st_locks s) -> toast_deletes s' = toast_deletes s ->
  (st_wal s' = st_wal s \/ st_wal s' = st_wal s ++ [XlLockUpdated tid.1 r]) -> (moment s <= moment s')%nat ->
  grows (multis (st_locks s)) (multis (st_locks s')) -> fine_in s' it' -> same_row it it' ->
  chaining sb [tid.1] [tid.1] vm s' /\ item tid s' = Some it'.
Proof.
  intros [C1 C2 C3 C4 C5 C6 C7 C8 C9 C10 C11] Hb Hit B V M H P U O W Ht G F R.
  assert (Hi' : item tid s' = Some it').
  { unfold item. rewrite B, lookup_insert_eq. cbn. apply lookup_insert_eq. }
  assert (Hothers : forall tid', tid' <> tid -> item tid' s' = item tid' s).
  { intros tid' Hne. unfold item. rewrite B. destruct tid as [bn o], tid' as [bn' o']. cbn [fst snd] in *.
    destruct (decide (bn' = bn)) as [->|Hbn]; [|by rewrite lookup_insert_ne].
    rewrite lookup_insert_eq, Hb. cbn. rewrite lookup_insert_ne; [done|congruence]. }
  split; [|done]. split; rewrite ?M, ?H, ?P, ?U, ?O; try done.
  - destruct C6 as (l & Hl & Hv). destruct W as [->| ->]; [by exists l|].
    exists (l ++ [XlLockUpdated tid.1 r]). rewrite Hl, <- app_assoc. split; [done|].
    apply Forall_app. split; [done|]. apply Forall_singleton. by do 2 eexists.
  - lia.
  - by eapply put_all_fine.
  - by etransitivity.
  - intros tid0 it0 Hp0 Hi0. destruct (C11 tid0 it0 Hp0 Hi0) as (it1 & Hi1 & R1). destruct (decide (tid0 = tid)) as [->|Hne].
    + exists it'. split; [done|]. unfold item in Hi1. rewrite Hb in Hi1. cbn in Hi1. rewrite Hit in Hi1. injection Hi1 as <-.
      by etransitivity.
    + exists it1. by rewrite Hothers.
Qed.

Lemma mark_version_twp tid mode vm cleared it s (Q : bool -> StoreState -> Prop) :
  TransactionIdIsCurrentTransactionId GetCurrentTransactionId = true ->
  chaining sb [tid.1] [tid.1] vm s -> item tid s = Some it -> map_ready tid.1 vm s ->
  none_obstructs (multis (st_locks s)) (it_hdr it) (it_infomask2 it) mode (moment s) ->
  (forall c it' s', chaining sb [tid.1] [tid.1] vm s' -> item tid s' = Some it' ->
     version_marked tid mode c it it' s s' -> Q c s') ->
  T (mark_version tid GetCurrentTransactionId mode vm cleared) Q s.
Proof.
  intros Hcur C Hi Hmr [Hcomp Hown] HQ. unfold mark_version. apply twp_bind. eapply item_at_twp; [exact Hi|].
  destruct (ch_fine C tid it Hi) as [Hf Hk]. destruct (item_block _ _ _ Hi) as (b & Hb & Hit).
  apply twp_bind. eapply on_locks_twp.
  { apply wp_always; [|apply compute_always]. apply compute_new_xmax_wp; [by eapply fine_xmax_ok|done|].
    intros Hx Hm Hinv. rewrite Hx in Hown. by rewrite Hown in Hcur. }
  intros [[x n] n2] l' [Hlk (Tl & Ml & _)]. cbn beta iota. set (s1 := with_slocks l' s).
  set (it' := version_locked x n n2 it).
  assert (Hr : relocked (it_hdr it) x n n2 (it_hdr it') (it_infomask2 it')) by apply version_locked_relocked, Hk.
  pose proof (lk_made _ _ _ _ _ _ _ Hlk) as Hmade. cbn [fst snd] in Hmade.
  assert (Hfine : header_fine (multis l') (lk_clock l') (it_hdr it') /\ masks_fine (multis l') (it_hdr it') (it_infomask2 it'))
    by by eapply relocked_fine.
  apply twp_bind. eapply (clear_all_frozen_twp _ _ _ _ b); [exact Hb|apply C| |].
  { intros Hv. rewrite (Hmr b Hb Hv). split; [done|]. cbn. rewrite (ch_map C), (Hmr b Hb Hv). by left. }
  intros v Hv Hpv Hfz. apply twp_bind, crit_twp. set (s2 := with_svm v s1). apply twp_bind.
  eapply item_at_twp; [exact Hi|]. apply twp_bind. eapply set_item_twp; [exact Hb|]. fold it'.
  unfold MarkHeapBufferDirty. apply twp_bind, twp_modify. set (s3 := with_sdirty _ _).
  assert (Hrec : forall c, lock_record tid (t_xmax (it_hdr it')) (t_infomask (it_hdr it')) (it_infomask2 it') c = lock_record tid x n n2 c).
  { intros c. unfold lock_record. by rewrite (relocked_infobits _ _ _ _ _ _ _ _ Hmade Hr). }
  assert (Hend : forall lsn s4 c, blocks s4 = <[tid.1 := with_lsn lsn (with_items (<[tid.2 := it']> (items b)) b)]> (blocks s) ->
    st_vm s4 = v -> st_locks s4 = l' -> sheld s4 = sheld s -> spins s4 = spins s -> toast_deletes s4 = toast_deletes s ->
    st_wal s4 = st_wal s ++ (if RelationNeedsWAL then [XlLockUpdated tid.1 (lock_record tid x n n2 c)] else []) -> Q c s4).
  { intros lsn s4 c B4 V4 L4 H4 P4 O4 W4.
    assert (Hmo : moment s4 = lk_clock l') by (unfold moment; by rewrite L4).
    assert (Hrow : same_row it it') by by eapply relocked_row.
    destruct (relocked_tests _ _ _ _ _ _ _ _ _ Hmade Hr) as (_ & _ & _ & Hh).
    assert (Hh4 : item_holders s4 it' = holders (multis l') x n n2) by (unfold item_holders; by rewrite L4, Hh).
    destruct (chaining_put tid vm it it' b lsn s s4 (lock_record tid x n n2 c)) as [C4 I4]; try done.
    - by rewrite V4.
    - by rewrite V4.
    - by rewrite L4.
    - destruct RelationNeedsWAL; [by right|left]. by rewrite W4, app_nil_r.
    - by rewrite Hmo.
    - rewrite L4. apply Hlk.
    - unfold fine_in. by rewrite Hmo, L4.
    - eapply (HQ c it' s4); [done|done|]. split; [by split| | | |by exists b, lsn; rewrite V4|by rewrite Hmo|by rewrite Hrec]; rewrite ?Hh4.
      + apply Hlk.
      + intros h Hin Hc. rewrite Hmo in Hc. by apply Hlk.
      + rewrite Hmo. eapply compatible_joins; [exact Ml|exact Hcur|apply Hlk|exact Hcomp]. }
  destruct RelationNeedsWAL.
  - unfold XLogInsert_store, PageSetLSN_store, block_at, set_block. apply twp_bind. unfold twp at 1.
    apply twp_bind, twp_bind, twp_get. eapply twp_defined; [apply lookup_insert_eq|]. apply twp_modify, twp_ret.
    eapply Hend; [cbn; by rewrite !insert_insert_eq|done..].
  - apply twp_ret, twp_ret. eapply (Hend (block_lsn b)); [|done..|by rewrite app_nil_r].
    cbn. f_equal.
Qed.

(** ** One version after the other *)

(** Code that only reads the header of an item. *)
Lemma chain_read_twp {A} tid vm (m : M VisState A) (P : A -> nat -> Prop) it s (Q : A -> StoreState -> Prop) :
  chaining sb [tid.1] [tid.1] vm s -> item tid s = Some it ->
  vwp m (fun a h' t' => h' = it_hdr it /\ (moment s <= t')%nat /\ P a t') (it_hdr it) (moment s) ->
  (forall a s', P a (moment s') -> chaining sb [tid.1] [tid.1] vm s' -> untouched s s' -> Q a s') ->
  T (on_tuple tid m) Q s.
Proof.
  intros C Hi Hv HQ. unfold on_tuple. apply twp_bind. eapply item_at_twp; [exact Hi|]. apply twp_bind, twp_get.
  specialize (Hv false). destruct (m _) as [[a|l| |] v] eqn:E; try done. destruct Hv as (Hh & Ht & Hp).
  destruct (item_block _ _ _ Hi) as (b & Hb & Hit). apply twp_bind. eapply set_item_twp; [exact Hb|].
  assert (Eb : blocks (put_item tid (with_hdr (hdr v) it) b s) = blocks s).
  { cbn. rewrite Hh. replace (with_hdr (it_hdr it) it) with it by by destruct it.
    rewrite (insert_id (items b)) by done. apply insert_id. by destruct b. }
  apply twp_bind, twp_modify, twp_bind.
  destruct (dirtied v); [apply twp_modify|apply twp_ret]; (apply HQ; [exact Hp| |by split]);
    (eapply chaining_same; [exact C|..]; first [done|apply C]).
Qed.

Lemma IsOnlyLocked_reads st h t : header_fine st t h ->
  vwp HeapTupleHeaderIsOnlyLocked (fun r h' t' => h' = h /\ (t <= t')%nat
    /\ (if r then no_deleter h t' else has (t_infomask h) HEAP_XMAX_LOCK_ONLY = false)) h t.
Proof.
  intros Hf. pose proof (IsOnlyLocked_rule st h t Hf) as H1.
  assert (H2 : vwp HeapTupleHeaderIsOnlyLocked (fun r h' t' => h' = h
    /\ (r = false -> has (t_infomask h) HEAP_XMAX_LOCK_ONLY = false)) h t) by (unfold HeapTupleHeaderIsOnlyLocked; by vis).
  intros d. specialize (H1 d). specialize (H2 d). destruct (HeapTupleHeaderIsOnlyLocked _) as [[r|l| |] s']; try done.
  destruct H2 as [Hh Hn], H1 as (_ & (Ht & _) & Hd). rewrite Hh in Hd. split; [done|]. split; [done|]. destruct r; by auto.
Qed.

Lemma next_version_twp tid vm it s (Q : ChainStep -> StoreState -> Prop) :
  chaining sb [tid.1] [tid.1] vm s -> item tid s = Some it ->
  (forall step s', chaining sb [tid.1] [tid.1] vm s' -> untouched s s' -> version_next tid (it_hdr it) step (moment s') -> Q step s') ->
  T (next_version tid) Q s.
Proof.
  intros C Hi HQ. unfold next_version. apply twp_bind. eapply item_at_twp; [exact Hi|]. apply twp_bind.
  destruct (_ || bool_decide (tid = t_ctid (it_hdr it))) eqn:E.
  - apply twp_ret. apply twp_ret, HQ; [done|by split|]. split; [done|].
    apply orb_true_iff in E as [[E|E]%orb_true_iff|E%bool_decide_eq_true]; tauto.
  - apply orb_false_iff in E as [[E1 E2]%orb_false_iff E3%bool_decide_eq_false]. destruct (ch_fine C tid it Hi) as [Hf _].
    eapply chain_read_twp; [exact C|exact Hi|by eapply IsOnlyLocked_reads|]. intros ends s' Hd C' U. destruct ends.
    + apply twp_ret, HQ; [done|done|]. split; [done|]. tauto.
    + apply twp_bind. eapply item_at_twp; [by rewrite (untouched_item _ _ _ U)|]. apply twp_ret, HQ; [done|done|]. by split_and!.
Qed.

(** What a round ends in. *)
Definition version_done (tid : Z * Z) (r : ChainStep * Buffer * bool) (s' : StoreState) : Prop :=
  match fst (fst r) with
  | SameVersion => chaining sb [] [tid.1] (snd (fst r)) s' /\ exists it', item tid s' = Some it'
  | ChainEnds res => chaining sb [tid.1] [tid.1] (snd (fst r)) s' /\ (res = TM_Ok \/ res = TM_Updated \/ res = TM_Deleted)
  | NextVersion _ tid' => chaining sb [tid.1] [tid.1] (snd (fst r)) s' /\ 0 <= tid'.1 < 2 ^ 32
  end.

Lemma next_done tid it step vm c s : chaining sb [tid.1] [tid.1] vm s -> item tid s = Some it ->
  version_next tid (it_hdr it) step (moment s) -> version_done tid (step, vm, c) s.
Proof.
  intros C Hi Hn. unfold version_done. cbn [fst snd]. destruct step as [|r|x tid']; [done| |].
  - destruct Hn as [-> _]. split; [done|by left].
  - destruct Hn as (_ & -> & _). split; [done|]. by eapply fine_ctid; [apply C|].
Qed.

(** A round, from where the page is locked on. *)
Lemma lock_version_twp tid prior mode vm cleared it s (Q : ChainStep * Buffer * bool -> StoreState -> Prop) :
  er -> TransactionIdIsCurrentTransactionId GetCurrentTransactionId = true -> 0 <= tid.1 < 2 ^ 32 ->
  chaining sb [] [tid.1] vm s -> item tid s = Some it ->
  (forall r s1 it1 s', version_done tid r s' -> all_fine s' ->
     chaining sb [tid.1] [tid.1] (snd (fst r)) s1 -> item tid s1 = Some it1 ->
     version_round tid prior mode s1 it1 (fst (fst r)) s' -> Q r s') ->
  T (lock_version tid prior GetCurrentTransactionId mode vm cleared) Q s.
Proof.
  intros He Hcur Hr C Hi HQ. unfold lock_version. apply twp_bind. eapply lock_version_page_twp; [exact Hr|exact C|exact Hi|].
  intros vm1 it1 s1 C1 Hi1 Hmr1. apply twp_bind. eapply item_at_twp; [exact Hi1|].
  assert (Hok : forall s', chaining sb [tid.1] [tid.1] vm1 s' -> version_round tid prior mode s1 it1 (ChainEnds TM_Ok) s' ->
    T (ret (ChainEnds TM_Ok, vm1, cleared)) Q s').
  { intros s' C' V. apply twp_ret. eapply HQ; [|apply C'|exact C1|exact Hi1|exact V]. split; [done|by left]. }
  destruct (TransactionIdIsValid prior && _) eqn:Ep.
  { apply Hok; [done|]. apply round_another. intros Hc. apply andb_true_iff in Ep as [E1 E2%negb_true_iff%Z.eqb_neq].
    by apply E2, Hc. }
  assert (Hc : of_chain prior it1).
  { intros E1. rewrite E1 in Ep. by apply negb_false_iff, Z.eqb_eq in Ep. }
  apply twp_bind. unfold lk_did_abort, lk_ask.
  eapply (chain_ask_twp _ _ _ _ (fun a l => a = true -> TransactionIdDidAbort (lk_clock l) (HeapTupleHeaderGetXmin (it_hdr it1)) = true));
    [done|exact C1| |].
  { split; [by repeat split; cbn; lia|]. intros Ha. eapply abort_stable; [|exact Ha]. cbn. lia. }
  intros aborted s2 C2 U2 Ha. destruct aborted; [apply Hok; [done|]; by apply round_aborted; auto|].
  apply twp_bind. eapply chain_ask_twp; [done|exact C2|apply test_holders_twp|].
  intros v s3 C3 U3 V3. rewrite (un_multis _ _ U2) in V3. pose proof (untouched_trans _ _ _ U2 U3) as U.
  assert (Hi3 : item tid s3 = Some it1) by by rewrite (untouched_item _ _ _ U).
  assert (Hob : forall mem, obstructs mode (lk_clock (st_locks s2)) mem -> obstructs mode (moment s1) mem).
  { intros mem. apply obstructs_earlier, U2. }
  assert (Hnext : forall s4 it4 c, chaining sb [tid.1] [tid.1] vm1 s4 -> item tid s4 = Some it4 ->
    (forall step s', untouched s4 s' -> version_next tid (it_hdr it4) step (moment s') -> version_round tid prior mode s1 it1 step s') ->
    T (let* step := next_version tid in ret (step, vm1, c)) Q s4).
  { intros s4 it4 c C4 Hi4 HRound. apply twp_bind. eapply next_version_twp; [exact C4|exact Hi4|].
    intros step s' C' U' N. apply twp_ret. eapply HQ; [|apply C'|exact C1|exact Hi1|by apply HRound].
    eapply next_done; [exact C'|by rewrite (untouched_item _ _ _ U')|done]. }
  destruct v as [| |x|res]; cbn [holders_tested members_tested] in V3.
  - assert (Hn : none_obstructs (multis (st_locks s3)) (it_hdr it1) (it_infomask2 it1) mode (moment s3)).
    { apply (nothing_in_the_way _ _ _ _ false 0%nat); [apply (ch_fine C3 tid it1 Hi3)|]. rewrite (un_multis _ _ U). exact V3. }
    apply twp_bind. eapply mark_version_twp; [exact Hcur|exact C3|exact Hi3| |exact Hn|].
    + intros b Hb. rewrite (un_blocks _ _ U) in Hb. by apply Hmr1.
    + intros c it4 s4 C4 Hi4 V4. eapply Hnext; [exact C4|exact Hi4|]. intros step s' U' N.
      eapply round_marked; [done| |by rewrite (untouched_item _ _ _ U')|by eapply marked_later|exact N].
      intros mem Hin. destruct (V3 mem Hin) as [Hx Hag]. split; [done|].
      eapply agrees_later; [|exact Hag]. pose proof (un_time _ _ U'). pose proof (vk_time V4). unfold moment in *. lia.
  - destruct V3 as (mem & Hin & Hx). eapply Hnext; [exact C3|exact Hi3|]. intros step s' U' N.
    eapply round_ours; [done|exact Hin|done|done|by eapply untouched_trans].
  - destruct V3 as (mem & Hin & <- & Ho). apply twp_bind. eapply chain_unlock_twp; [exact C3|]. intros s4 C4 U4. apply twp_bind.
    eapply (chain_ask_twp _ _ _ _ (fun _ l => TransactionIdIsInProgress (lk_clock l) (xid mem) = false)); [done|exact C4| |].
    { destruct (wait_finished (lk_clock (st_locks s4)) (xid mem)) as [Ht Hp]; [apply Ho|]. by repeat split. }
    intros _ s5 C5 U5 Hp. apply twp_ret. pose proof (untouched_trans _ _ _ U (untouched_trans _ _ _ U4 U5)) as U'.
    eapply HQ; [|apply C5|exact C1|exact Hi1|exact (round_waits tid prior mode s1 it1 mem s5 Hc Hin (Hob mem Ho) Hp U')]. split; [done|]. exists it1.
    by rewrite (untouched_item _ _ _ U').
  - destruct V3 as (mem & Hin & Ho & ->). apply twp_ret.
    eapply HQ; [|apply C3|exact C1|exact Hi1|exact (round_blocked tid prior mode s1 it1 mem s3 Hc Hin (Hob mem Ho) U)]. split; [done|]. right. case_bool_decide; auto.
Qed.

Lemma lock_versions_twp fuel tid prior mode vm cleared (fetched : bool) s (Q : TM_Result -> StoreState -> Prop) :
  nf -> er -> TransactionIdIsCurrentTransactionId GetCurrentTransactionId = true -> 0 <= tid.1 < 2 ^ 32 ->
  (if fetched then chaining sb [] [tid.1] vm s /\ exists it, item tid s = Some it else chaining sb [] [] vm s) ->
  (forall r s', chaining sb [] [] None s' -> r = TM_Ok \/ r = TM_Updated \/ r = TM_Deleted -> Q r s') ->
  T (lock_versions fuel tid prior GetCurrentTransactionId mode vm cleared fetched) Q s.
Proof.
  intros Hnf He Hcur. revert tid prior vm cleared fetched s. induction fuel as [|fuel IH]; intros tid prior vm cleared fetched s Hr C HQ; [done|].
  cbn [lock_versions].
  assert (Hround : forall it s1, chaining sb [] [tid.1] vm s1 -> item tid s1 = Some it ->
    T (let* r := lock_version tid prior GetCurrentTransactionId mode vm cleared in
       let '(step, vmbuffer, cleared_all_frozen) := r in
       match step with
       | SameVersion => lock_versions fuel tid prior GetCurrentTransactionId mode vmbuffer cleared_all_frozen true
       | ChainEnds r => UnlockReleaseHeapBuffer tid.1;;; release_map vmbuffer;;; ret r
       | NextVersion prior tid' =>
           UnlockReleaseHeapBuffer tid.1;;;
           lock_versions fuel tid' prior GetCurrentTransactionId mode vmbuffer cleared_all_frozen false
       end) Q s1).
  { intros it s1 C1 Hi1. apply twp_bind. eapply lock_version_twp; [done|done|exact Hr|exact C1|exact Hi1|].
    intros [[step vm2] c2] s0 it0 s2 D2 _ _ _ _. unfold version_done in D2. cbn [fst snd] in D2. destruct step as [|res|x tid'].
    - by apply IH.
    - destruct D2 as [C2 Hres]. unfold UnlockReleaseHeapBuffer. apply twp_bind, twp_bind.
      eapply chain_unlock_twp; [exact C2|]. intros s3 C3 _. eapply chain_release_twp; [exact C3|]. intros s4 C4.
      apply twp_bind. eapply chain_release_map_twp; [exact C4|]. intros s5 C5. by apply twp_ret, HQ.
    - destruct D2 as [C2 Hr']. unfold UnlockReleaseHeapBuffer. apply twp_bind, twp_bind.
      eapply chain_unlock_twp; [exact C2|]. intros s3 C3 _. eapply chain_release_twp; [exact C3|]. intros s4 C4.
      by apply IH. }
  apply twp_bind. destruct fetched.
  - destruct C as [C (it & Hi)]. apply twp_ret. cbn [negb]. by eapply Hround.
  - eapply pg_tde_fetch_any_twp; [done|exact C| |].
    + intros s1 C1. cbn [negb]. apply twp_bind. eapply chain_release_map_twp; [exact C1|]. intros s2 C2.
      apply twp_ret, HQ; [done|by left].
    + intros it s1 C1 Hi1. cbn [negb]. by eapply Hround.
Qed.

(** The whole walk. *)
Lemma pg_tde_lock_updated_tuple_twp fuel tid ctid mode it s (Q : TM_Result -> StoreState -> Prop) :
  nf -> er -> TransactionIdIsCurrentTransactionId GetCurrentTransactionId = true -> 0 <= ctid.1 < 2 ^ 32 ->
  chaining sb [] [] None s -> item tid s = Some it ->
  (forall r s', chaining sb [] [] None s' -> r = TM_Ok \/ r = TM_Updated \/ r = TM_Deleted -> Q r s') ->
  T (pg_tde_lock_updated_tuple fuel tid ctid GetCurrentTransactionId mode) Q s.
Proof.
  intros Hnf He Hcur Hr C Hi HQ. unfold pg_tde_lock_updated_tuple. apply twp_bind. eapply item_at_twp; [exact Hi|].
  destruct (negb _ && _); [by eapply lock_versions_twp|]. apply twp_ret, HQ; [done|by left].
Qed.
End rules.
End walk.
