(* ===== verification/RowLockLoop.v ===== *)
(** Locking a row up to the verdict: what is known between the steps, and a
    rule for each step. *)
From stdpp Require Import relations.
From S2P Require Import Prelude Visibility VisibilityProps VisibilityHints VisibilitySpec LockFlags MultiXact MultiXactProps EncTuple VisibilityMap VisibilityMapProps VisibilityMapOps Insert TupleStore Delete DeleteFree DeleteProps DeleteLoop DeleteDone RowLock RowLockFine RowLockChain.

(** ** Waiting for the holders *)

Section waiting.
Context `{HH : HtupFlags} `{HHL : !HtupFlagsLaws} `{HW : World} `{HWL : !WorldLaws}.
Context `{HLF : LockFlags} `{HFB : !FlagBits} `{HMX : MultiXacts} `{HML : !MultiXactsLaws}.

Lemma always_wait_if store x : TransactionIdIsCurrentTransactionId x = false -> always (passes store) (wait_xact_if x).
Proof.
  intros Hc s. unfold wait_xact_if. destruct (ConditionalXactLockTableWait (lk_clock s) x) as [b t'] eqn:E.
  split; [done|]. split; [|done]. by apply (wait_if_finished (lk_clock s) x b t').
Qed.

Lemma Do_MultiXactIdWait_always multi st infomask nowait count :
  always (passes true) (Do_MultiXactIdWait multi st infomask nowait count).
Proof.
  assert (Hl : forall ms remain, always (passes true) (wait_loop st nowait count ms remain)).
  { induction ms as [|m ms IH]; intros remain; cbn [wait_loop]; unfold lk_in_progress; always.
    by apply always_wait_if. }
  unfold Do_MultiXactIdWait, lk_members. always.
Qed.

Context `{HP : PgBlockSize} `{HV : VmEnv} `{HIE : InsertEnv} `{HI : !Interference}.

(** Whether the holders were waited for. *)
Definition gone_from (mode : LockTupleMode) (wait_policy : LockWaitPolicy) (h : HeapTupleHeader) (gone : bool) (l : LockState) : Prop :=
  if gone then held (cleared (lockstatus mode) (lk_clock l)) (multis l) h else wait_policy = LockWaitSkip.

Lemma Do_MultiXactIdWait_wp h st nowait (l : LockState) : has (t_infomask h) HEAP_XMAX_IS_MULTI = true ->
  wp (Do_MultiXactIdWait (t_xmax h) st (t_infomask h) nowait false)
    (fun r l' => passes true l l' /\ (nowait = false -> fst r = true)
       /\ (fst r = true -> held (cleared st (lk_clock l')) (multis l') h)) l.
Proof.
  intros Hm. eapply wp_mono; [apply wp_always; [|apply Do_MultiXactIdWait_always]|].
  - instantiate (1 := fun r l' => (nowait = false -> fst r = true)
      /\ (fst r = true -> held (cleared st (lk_clock l')) (multis l) h)).
    unfold Do_MultiXactIdWait, lk_members, held. rewrite Hm. destruct (HEAP_LOCKED_UPGRADED _).
    { wps. split; [done|]. intros _. by left. }
    wps. destruct (GetMultiXactIdMembers _ _ _) as [ms|] eqn:E.
    + eapply wp_mono; [apply wait_loop_wp|]. intros r l' (_ & _ & Hr & Hc & _). split; [done|]. intros Hf. right.
      intros mem Hin. by apply Hc.
    + wps. split; [done|]. intros _. right. by intros mem ?%elem_of_nil.
  - intros r l' [[Hr Hh] (P1 & P2 & P3)]. split; [done|]. split; [done|]. intros Hf. rewrite (P3 eq_refl). auto.
Qed.

Lemma wait_holders_twp (er : Prop) mode wait_policy h (l : LockState) : (wait_policy = LockWaitError -> er) ->
  (has (t_infomask h) HEAP_XMAX_IS_MULTI = false -> TransactionIdIsCurrentTransactionId (t_xmax h) = false) ->
  twp (fun _ => False) (fun _ => er) (wait_holders (t_xmax h) (t_infomask h) mode wait_policy)
    (fun gone l' => passes true l l' /\ gone_from mode wait_policy h gone l') l.
Proof.
  intros He Hown. unfold wait_holders.
  assert (Hpol : forall (w : M LockState unit) (c : M LockState bool),
    wp w (fun _ l' => passes true l l' /\ held (cleared (lockstatus mode) (lk_clock l')) (multis l') h) l ->
    wp c (fun b l' => passes true l l' /\ (b = true -> held (cleared (lockstatus mode) (lk_clock l')) (multis l') h)) l ->
    twp (fun _ => False) (fun _ => er) (wait_or_die w c wait_policy)
      (fun gone l' => passes true l l' /\ gone_from mode wait_policy h gone l') l).
  { intros w c Hw Hc. unfold wp in *. destruct wait_policy; cbn [wait_or_die]; unfold twp, bind.
    - destruct (w l) as [[a|?| |] l']; [|done..]. done.
    - destruct (c l) as [[b|?| |] l']; [|done..]. destruct Hc as [Hp Hb]. split; [done|]. destruct b; [by apply Hb|done].
    - destruct (c l) as [[b|?| |] l']; [|done..]. destruct Hc as [Hp Hb]. destruct b; [|by apply He]. by split; [|apply Hb]. }
  destruct (has (t_infomask h) HEAP_XMAX_IS_MULTI) eqn:Hm.
  - unfold get_mxact_status_for_lock. apply twp_bind, twp_ret. destruct (ISUPDATE_from_mxstatus (lockstatus mode)) eqn:Eu; [by destruct mode|].
    apply Hpol.
    + unfold MultiXactIdWait. wps. eapply wp_mono; [by apply Do_MultiXactIdWait_wp|]. intros r l' (Hp & Hr & Hh). wps. wps.
      split; [done|by apply Hh, Hr].
    + unfold ConditionalMultiXactIdWait. wps. eapply wp_mono; [by apply Do_MultiXactIdWait_wp|]. intros r l' (Hp & _ & Hh). wps.
      by split.
  - specialize (Hown eq_refl).
    assert (Hone : forall l', TransactionIdIsInProgress (lk_clock l') (t_xmax h) = false ->
      held (cleared (lockstatus mode) (lk_clock l')) (multis l') h).
    { intros l' Hp. unfold held. rewrite Hm. intros s. by right; right. }
    apply Hpol.
    + unfold wait_xact. wps. destruct (wait_finished (lk_clock l) (t_xmax h) Hown) as [Ht Hp].
      split; [by repeat split|]. by apply Hone.
    + unfold wait_xact_if, wp. destruct (ConditionalXactLockTableWait (lk_clock l) (t_xmax h)) as [b t'] eqn:E.
      destruct (wait_if_finished _ _ _ _ Hown E) as [Ht Hp]. split; [by repeat split|]. intros Hb. by apply Hone, Hp.
Qed.

(** The test whether the holders are in the way. *)
Lemma holders_conflict_wp h mode (l : LockState) : has (t_infomask h) HEAP_XMAX_IS_MULTI = true ->
  wp (DoesMultiXactIdConflict (t_xmax h) (t_infomask h) mode None)
    (fun r l' => passes true l l' /\ (fst r = false -> held (agrees mode (lk_clock l')) (multis l') h)) l.
Proof.
  intros Hm. eapply wp_mono; [apply wp_always; [|apply conflict_always]|].
  - instantiate (1 := fun r l' => fst r = false -> held (agrees mode (lk_clock l')) (multis l) h).
    unfold DoesMultiXactIdConflict, lk_members, held. rewrite Hm. destruct (HEAP_LOCKED_UPGRADED _).
    { wps. intros _. by left. }
    wps. destruct (GetMultiXactIdMembers _ _ _) as [ms|] eqn:E.
    + eapply wp_mono; [apply conflict_loop_wp|]. intros r l' [_ _ Hn _] Hr. right. intros mem Hin.
      destruct (Hn Hr) as [_ Hc]. specialize (Hc mem Hin). unfold conflicts in Hc. unfold agrees.
      destruct (TransactionIdIsCurrentTransactionId (xid mem)); [by left|].
      destruct (DoLockModesConflict _ _); [|by right; left]. right; right.
      destruct (ISUPDATE_from_mxstatus (status mem)) eqn:Eu.
      * right. apply not_false_iff_true. intros E'. by apply Hc.
      * left. apply (counts_not (lk_clock l')); [done| |by left]. apply not_true_iff_false. intros E'. by apply Hc.
    + wps. intros _. right. by intros mem ?%elem_of_nil.
  - intros r l' [Hr (P1 & P2 & P3)]. split; [done|]. by rewrite (P3 eq_refl).
Qed.
End waiting.

(** ** Between the steps *)

Section locking.
Context `{HH : HtupFlags} `{HHL : !HtupFlagsLaws} `{HW : World} `{HWL : !WorldLaws}.
Context `{HLF : LockFlags} `{HFB : !FlagBits} `{HMX : MultiXacts} `{HML : !MultiXactsLaws}.
Context `{HP : PgBlockSize} `{HBL : !PgBlockSizeLaws} `{HV : VmEnv} `{HVL : !VmLaws}.
Context `{HIE : InsertEnv} `{HSE : StoreEnv} `{HI : !Interference} `{HSL : !StoreLaws}.

Definition with_log (l : list StoreRecord) (s : StoreState) : StoreState :=
  {| blocks := blocks s; st_vm := st_vm s; st_locks := st_locks s; sheld := sheld s; spins := spins s;
     sdirty := sdirty s; st_wal := st_wal s ++ l; toast_deletes := toast_deletes s |}.

(** As for a deletion, but that later versions may have been locked. *)
Definition locking (mode : LockTupleMode) (tid : Z * Z) (s0 : StoreState) (locked : bool) (vm : Buffer) (have : bool)
    (it : HeapItem) (s : StoreState) : Prop :=
  exists l, Forall version_record l /\ at_work_in mode tid (with_log l s0) locked vm have it s /\ all_fine s.

(** A header written since 9.3: who only locks it has said so. *)
Definition lock_bit (h : HeapTupleHeader) : Prop :=
  HEAP_XMAX_IS_LOCKED_ONLY (t_infomask h) = true -> has (t_infomask h) HEAP_XMAX_LOCK_ONLY = true.

Lemma lock_bit_same h h' : same_tuple h h' -> lock_bit h -> lock_bit h'.
Proof.
  induction 1 as [h|h h1 h2 (f & Hf & ->) _ IH]; [done|]. intros Hb. apply IH. unfold lock_bit, hinted.
  cbn [t_infomask with_infomask]. rewrite locked_only_lor by done. intros Hl. by rewrite has_lor, Hb.
Qed.

(** From one step to a later one; [calm]: nobody else acts. *)
Record moved_on (calm : Prop) (tid : Z * Z) (vm : Buffer) (it : HeapItem) (s : StoreState)
    (it' : HeapItem) (s' : StoreState) : Prop := {
  mo_row : same_row it it';
  mo_grows : grows (multis (st_locks s)) (multis (st_locks s'));
  mo_time : (moment s <= moment s')%nat;
  mo_pin : calm -> pin_ok tid vm s -> pin_ok tid vm s';
  mo_bit : calm -> lock_bit (it_hdr it) -> lock_bit (it_hdr it');
}.

Lemma moved_trans calm tid vm it1 s1 it2 s2 it3 s3 : moved_on calm tid vm it1 s1 it2 s2 ->
  moved_on calm tid vm it2 s2 it3 s3 -> moved_on calm tid vm it1 s1 it3 s3.
Proof. intros [A1 A2 A3 A4 A5] [B1 B2 B3 B4 B5]. split; [by etransitivity|by etransitivity|lia|auto|auto]. Qed.

Lemma moved_here calm tid vm it s s' : multis (st_locks s') = multis (st_locks s) -> (moment s <= moment s')%nat ->
  blocks s' = blocks s -> moved_on calm tid vm it s it s'.
Proof. intros Hm Ht Hb. split; [done|by rewrite Hm|done| |done]. intros _ Hp Hn b. rewrite Hb. by apply Hp. Qed.

Section rules.
Variables (nf er : Prop) (mode : LockTupleMode) (tid : Z * Z) (s0 : StoreState) (follow : bool) (steady : Prop).
Hypothesis unlocked : sheld s0 = [].
Hypothesis quiet : steady -> quiet_store /\ follow = false.
Local Abbreviation T := (twp (fun _ => nf) (fun _ => er)).
Local Abbreviation locking := (locking mode tid s0).
Local Abbreviation moved_on := (moved_on steady tid).

Lemma locking_item locked vm have it s : locking locked vm have it s -> item tid s = Some it.
Proof. intros (l & _ & W & _). apply W. Qed.

Lemma locking_fine locked vm have it s : locking locked vm have it s -> fine_in s it.
Proof. intros (l & _ & W & _). apply W. Qed.

Lemma locking_lock vm have it s (Q : unit -> StoreState -> Prop) : locking false vm have it s ->
  (forall it' s', locking true vm have it' s' -> moved_on vm it s it' s' -> (steady -> it' = it) -> Q tt s') ->
  T (LockHeapBuffer tid.1) Q s.
Proof.
  intros (l & Hl & W & F) HQ. eapply (lock_twp _ _ _ _ (with_log l s0)); [cbn; rewrite unlocked; by intros ?%elem_of_nil|exact W|].
  intros it' s' W' R G AF Ht Hq. apply (HQ it'); [exists l; auto| |intros Hs; by apply Hq, quiet].
  split; [done|done|done| |].
  - intros Hs Hp Hn b. destruct (Hq (proj1 (quiet Hs))) as [_ ->]. by apply Hp.
  - intros Hs. by destruct (Hq (proj1 (quiet Hs))) as [-> _].
Qed.

Lemma locking_unlock vm have it s (Q : unit -> StoreState -> Prop) : locking true vm have it s ->
  (forall s', locking false vm have it s' -> blocks s' = blocks s -> st_locks s' = st_locks s -> Q tt s') ->
  T (UnlockHeapBuffer tid.1) Q s.
Proof.
  intros (l & Hl & W & F) HQ. eapply unlock_twp; [exact W|]. intros s' W' Ht Hlk Hb. apply HQ; [|done|done].
  exists l. split; [done|]. split; [done|]. apply (same_rows_fine s); [done|by rewrite Ht|by rewrite Hlk|done].
Qed.

Lemma locking_locks (locked : bool) vm (have have' : bool) it l' s : locking locked vm have it s -> (locked = true -> have' = have) ->
  multis l' = multis (st_locks s) -> (moment s <= lk_clock l')%nat ->
  tuplocks l' = tuplocks (st_locks s0) ++ (if have' then [(tid, hwlock mode)] else []) ->
  locking locked vm have' it (with_slocks l' s).
Proof.
  intros (l & Hl & W & F) Hh Hm Ht Htup. exists l. split; [done|]. split.
  - destruct locked.
    + specialize (Hh eq_refl). subst have'. eapply locked_locks_at_work; [exact W|done|done|]. rewrite Htup. symmetry. apply (aw_tup W).
    + by eapply locks_at_work.
  - apply (same_rows_fine s); [done|done|cbn; by rewrite Hm|done].
Qed.

(** Code that only asks. *)
Lemma locking_ask {A} locked vm have it (m : M LockState A) (P : A -> LockState -> Prop) s (Q : A -> StoreState -> Prop) :
  locking locked vm have it s ->
  twp (fun _ => False) (fun _ => er) m (fun a l' => passes true (st_locks s) l' /\ P a l') (st_locks s) ->
  (forall a s', locking locked vm have it s' -> moved_on vm it s it s' -> P a (st_locks s') -> multis (st_locks s') = multis (st_locks s) ->
     Q a s') ->
  T (on_locks m) Q s.
Proof.
  intros W Hm HQ. unfold on_locks, twp, zoom in *. destruct (m (st_locks s)) as [[a|[]| |] l']; try done.
  destruct Hm as [(P1 & P2 & P3) Hp]. specialize (P3 eq_refl). apply HQ; try done.
  - eapply locking_locks; [exact W|done|done|done|]. rewrite P1. destruct W as (l & _ & W & _). apply (aw_tup W).
  - by apply moved_here.
Qed.

(** Code on the header that sets hints at most. *)
Lemma locking_hint {A} vm have (m : M VisState A) VQ it s (Q : A -> StoreState -> Prop) :
  locking true vm have it s -> vwp m VQ (it_hdr it) (moment s) ->
  (forall a h' t', VQ a h' t' -> header_fine (multis (st_locks s)) t' h' /\ evolves (it_hdr it) (moment s) h' t') ->
  (forall a h' s', VQ a h' (moment s') -> locking true vm have (with_hdr h' it) s' -> moved_on vm it s (with_hdr h' it) s' ->
     same_tuple (it_hdr it) h' -> multis (st_locks s') = multis (st_locks s) -> Q a s') ->
  T (on_tuple tid m) Q s.
Proof.
  intros (l & Hl & W & F) Hv HE HQ. eapply hint_tuple_twp; [exact W|exact Hv|exact HE|].
  intros a h' s' Ha (W' & P' & R' & Ht & (_ & Hs & _) & _ & Hm & AF). apply (HQ a h'); [done|exists l; auto| |done|done].
  split; [done|by rewrite Hm|done|by intros _|]. intros _. by apply lock_bit_same.
Qed.

(** The later versions. *)
Lemma locking_chain cfuel vm have it s (Q : TM_Result -> StoreState -> Prop) :
  (follow = true -> er) -> nf \/ follow = false -> TransactionIdIsCurrentTransactionId GetCurrentTransactionId = true ->
  locking false vm have it s ->
  (forall r it' s', locking false vm have it' s' -> moved_on vm it s it' s' -> (steady -> it' = it) ->
     r = TM_Ok \/ r = TM_Updated \/ r = TM_Deleted -> Q r s') ->
  T (follow_chain cfuel follow tid (t_ctid (it_hdr it)) (t_infomask (it_hdr it)) mode) Q s.
Proof.
  intros He Hnf Hcur W HQ. unfold follow_chain.
  destruct (follow && negb (HEAP_XMAX_IS_LOCKED_ONLY (t_infomask (it_hdr it)))) eqn:E.
  2:{ apply twp_ret, (HQ TM_Ok it); [done|by apply moved_here|done|by left]. }
  apply andb_true_iff in E as [Ef _]. destruct Hnf as [Hnf|?]; [|congruence]. pose proof W as (l & Hl & W1 & F).
  eapply (pg_tde_lock_updated_tuple_twp _ _ s); [done|by apply He|done|apply (fine_ctid s tid it F), W1| |apply W1|].
  { apply chaining_start; [|apply W1|done]. by rewrite (aw_held W1). }
  intros r s' C Hr. pose proof C as [C1 C2 C3 C4 C5 (l' & C6 & C6') C7 C8 C9 C10 C11].
  destruct (C11 tid it) as (it' & Hi' & R'); [rewrite (aw_pins W1); by left|apply W1|].
  assert (Hns : ~ steady) by (intros [_ ?]%quiet; congruence).
  apply (HQ r it'); [|split; [done|done|done|done|done]|done|done]. exists (l ++ l'). split; [by apply Forall_app|]. split; [|done].
  destruct W1 as [H1 H2 H3 H4 H5 H6 H7 H8 H9 H10 H11 H12]. split; try done.
  - cbn [buffer_pins app] in C2. by rewrite C2, H2.
  - rewrite C3. cbn. by rewrite unlocked.
  - cbn [app] in C4. by rewrite C4.
  - by rewrite C5.
  - rewrite C6, H7. cbn. by rewrite <- app_assoc.
  - by rewrite C7.
  - unfold moment in *. cbn in *. lia.
  - by apply (C9 tid).
  - intros it0 Hi0. etransitivity; [by apply H12|done].
Qed.

(** The heavyweight lock. *)
Lemma locking_acquire wait_policy vm have it s (Q : bool * bool -> StoreState -> Prop)   : (wait_policy = LockWaitError -> er) -> locking false vm have it s ->
  (forall (acquired have' : bool) s', locking false vm have' it s' -> moved_on vm it s it s' ->
     (acquired = false -> wait_policy = LockWaitSkip) -> Q (acquired, have') s') ->
  T (on_locks (pg_tde_acquire_tuplock tid mode wait_policy have)) Q s.
Proof.
  intros He W HQ. pose proof W as (l & _ & W1 & _). pose proof (aw_tup W1) as Ht. cbn in Ht. unfold on_locks, twp, zoom, pg_tde_acquire_tuplock.
  destruct have.
  - apply HQ; [|by apply moved_here|done]. apply (locking_locks _ _ true true); [done|done|done|done|exact Ht].
  - rewrite app_nil_r in Ht.
    assert (Hno : locking false vm false it (with_slocks (snd (lk_ask (fun t => ConditionalLockTuple t tid (hwlock mode)) (st_locks s))) s)).
    { apply (locking_locks _ _ false false); [done|done|done|unfold moment; cbn; lia|cbn; by rewrite app_nil_r]. }
    destruct wait_policy.
    + cbn. apply HQ; [|apply moved_here; [done|unfold moment; cbn; lia|done]|done].
      apply (locking_locks _ _ false true); [done|done|done|unfold moment; cbn; lia|cbn; by rewrite Ht].
    + unfold try_lock, bind, lk_ask. cbn [st_locks]. destruct (ConditionalLockTuple _ _ _); cbn.
      * apply HQ; [|apply moved_here; [done|unfold moment; cbn; lia|done]|done].
        apply (locking_locks _ _ false true); [done|done|done|unfold moment; cbn; lia|cbn; by rewrite Ht].
      * apply HQ; [exact Hno|apply moved_here; [done|unfold moment; cbn; lia|done]|done].
    + unfold try_lock, bind, lk_ask. cbn [st_locks]. destruct (ConditionalLockTuple _ _ _); cbn; [|by apply He].
      apply HQ; [|apply moved_here; [done|unfold moment; cbn; lia|done]|done].
      apply (locking_locks _ _ false true); [done|done|done|unfold moment; cbn; lia|cbn; by rewrite Ht].
Qed.

(** ** Need we sleep? *)

(** Nobody stands in the way; or, for a key-share lock, one who only holds
    the row does. *)
Definition grantable (it : HeapItem) (s : StoreState) : Prop :=
  compatible mode (moment s) (item_holders s it)
  \/ (mode = LockTupleKeyShare /\ has (it_infomask2 it) HEAP_KEYS_UPDATED = true /\ no_deleter (it_hdr it) (moment s)).

(** What a verdict on sleeping means. *)
Definition verdict_reached (wait_policy : LockWaitPolicy) (vm : Buffer) (have : bool) (it : HeapItem) (s : StoreState)
    (v : SleepVerdict) (s' : StoreState) : Prop :=
  exists it', moved_on vm it s it' s' /\
  match v with
  | RequireSleep => locking false vm have it' s' /\ it' = it
      /\ (has (t_infomask (it_hdr it)) HEAP_XMAX_IS_MULTI = false -> TransactionIdIsCurrentTransactionId (t_xmax (it_hdr it)) = false)
  | NoSleep => locking true vm have it' s' /\ grantable it' s'
  | LookAgain => locking true vm have it' s' /\ ~ steady
  | CannotLock r => locking true vm have it' s'
      /\ (r = TM_Updated \/ r = TM_Deleted \/ (r = TM_WouldBlock /\ wait_policy = LockWaitSkip))
  end.

Lemma verdict_moved wait_policy vm have it s it1 s1 v s' : moved_on vm it s it1 s1 -> it1 = it ->
  verdict_reached wait_policy vm have it1 s1 v s' -> verdict_reached wait_policy vm have it s v s'.
Proof. intros M -> (it' & M' & H). exists it'. split; [by eapply moved_trans|done]. Qed.

Lemma xmax_unchanged_twp h it s (Q : bool -> StoreState -> Prop) : item tid s = Some it ->
  (forall b : bool, (if b then unchanged h (it_hdr it) else it_hdr it <> h) -> Q b s) ->
  T (xmax_unchanged tid (t_xmax h) (t_infomask h)) Q s.
Proof.
  intros Hi HQ. unfold xmax_unchanged. apply twp_bind. eapply item_at_twp; [exact Hi|]. apply twp_ret, HQ.
  destruct (negb _ && _) eqn:E.
  - apply andb_true_iff in E as [E1%negb_true_iff E2%Z.eqb_eq]. by split.
  - intros Eh. rewrite Eh, Z.eqb_refl in E. unfold xmax_infomask_changed in E. by rewrite Z.eqb_refl in E.
Qed.

Lemma relock_failed_twp wait_policy vm have it s r : locking false vm have it s ->
  r = TM_Updated \/ r = TM_Deleted \/ (r = TM_WouldBlock /\ wait_policy = LockWaitSkip) ->
  T (relock_failed tid r) (verdict_reached wait_policy vm have it s) s.
Proof.
  intros W Hr. unfold relock_failed. apply twp_bind. eapply locking_lock; [exact W|]. intros it' s' W' M' _.
  apply twp_ret. by exists it'.
Qed.

Lemma relock_unchanged_twp vm have it s (Q : SleepVerdict -> StoreState -> Prop) : locking false vm have it s ->
  (forall it' s', locking true vm have it' s' -> moved_on vm it s it' s' -> unchanged (it_hdr it) (it_hdr it') -> Q NoSleep s') ->
  (forall it' s', locking true vm have it' s' -> moved_on vm it s it' s' -> ~ steady -> Q LookAgain s') ->
  T (relock_unchanged tid (t_xmax (it_hdr it)) (t_infomask (it_hdr it))) Q s.
Proof.
  intros W H1 H2. unfold relock_unchanged. apply twp_bind. eapply locking_lock; [exact W|]. intros it' s' W' M' E'.
  apply twp_bind. eapply xmax_unchanged_twp; [by eapply locking_item|]. intros [] Hb; apply twp_ret; [by eapply H1|].
  eapply H2; [exact W'|exact M'|]. intros Hs. by rewrite (E' Hs) in Hb.
Qed.

(** Those in xmax agree, and it has not changed. *)
Lemma unchanged_grantable it it' s s' vm : header_fine (multis (st_locks s)) (moment s) (it_hdr it) -> moved_on vm it s it' s' ->
  unchanged (it_hdr it) (it_hdr it') -> held (agrees mode (moment s)) (multis (st_locks s)) (it_hdr it) -> grantable it' s'.
Proof.
  intros Hf [_ G Ht _] Hu Hh. left. intros mem Hin. eapply agrees_later; [exact Ht|].
  eapply held_holders; [by eapply held_transfer|exact Hin].
Qed.

Lemma IsOnlyLocked_says st h t : header_fine st t h ->
  vwp HeapTupleHeaderIsOnlyLocked
    (fun r h' t' => (header_fine st t' h' /\ evolves h t h' t' /\ (r = true -> no_deleter h' t'))
       /\ (r = false -> has (t_infomask h) HEAP_XMAX_LOCK_ONLY = false)) h t.
Proof.
  intros Hf. apply vwp_and; [by apply IsOnlyLocked_rule|]. unfold HeapTupleHeaderIsOnlyLocked. by vis.
Qed.

Lemma keyshare_no_sleep_twp wait_policy cfuel vm have it s :
  (follow = true -> er) -> nf \/ follow = false -> TransactionIdIsCurrentTransactionId GetCurrentTransactionId = true ->
  mode = LockTupleKeyShare -> locking false vm have it s -> (steady -> lock_bit (it_hdr it)) ->
  T (keyshare_no_sleep cfuel follow tid (t_ctid (it_hdr it)) (t_infomask (it_hdr it)) (it_infomask2 it))
    (fun v s' => v = RequireSleep /\ s' = s \/ v <> RequireSleep /\ verdict_reached wait_policy vm have it s v s') s.
Proof.
  intros He Hnf Hcur Emode W Hlb. unfold keyshare_no_sleep. destruct (has (it_infomask2 it) HEAP_KEYS_UPDATED) eqn:Ek; [by apply twp_ret; left|].
  apply twp_bind. rewrite <- Emode at 1. eapply locking_chain; [done..|exact W|]. intros r it1 s1 W1 M1 E1 Hr.
  assert (Hfail : r = TM_Updated \/ r = TM_Deleted -> T (relock_failed tid r)
    (fun v s' => v = RequireSleep /\ s' = s \/ v <> RequireSleep /\ verdict_reached wait_policy vm have it s v s') s1).
  { intros Hr'. unfold relock_failed. apply twp_bind. eapply locking_lock; [exact W1|]. intros it2 s2 W2 M2 _.
    apply twp_ret. right. split; [done|]. exists it2. split; [by eapply moved_trans|]. split; [done|]. tauto. }
  destruct Hr as [->|[->| ->]]; [|by apply Hfail; auto..].
  apply twp_bind. eapply locking_lock; [exact W1|]. intros it2 s2 W2 M2 E2. pose proof (locking_fine _ _ _ _ _ W2) as [Hf2 _].
  apply twp_bind. eapply locking_hint; [exact W2|by apply (IsOnlyLocked_says (multis (st_locks s2)))|by intros a h' t' [(? & ? & _) _]|].
  intros only h' s3 [(_ & _ & Hn) Ho] W3 M3 S3 G3. apply twp_bind. eapply item_at_twp; [by eapply locking_item|].
  cbn [it_infomask2 with_hdr]. apply twp_ret. right.
  assert (M : moved_on vm it s (with_hdr h' it2) s3) by (eapply moved_trans; [exact M1|by eapply moved_trans]).
  destruct (locking_fine _ _ _ _ _ W3) as [_ Hk3]. cbn [it_hdr it_infomask2 with_hdr] in Hk3.
  destruct (negb only && _) eqn:E.
  - split; [done|]. exists (with_hdr h' it2). split; [done|]. split; [done|]. intros Hs.
    apply andb_true_iff in E as [->%negb_true_iff E]. rewrite (E2 Hs), (E1 Hs), Ek in E. cbn in E.
    specialize (Ho eq_refl). rewrite (E2 Hs), (E1 Hs) in Ho. specialize (Hlb Hs E). congruence.
  - split; [done|]. exists (with_hdr h' it2). split; [done|]. split; [done|]. unfold grantable, item_holders. cbn [it_hdr it_infomask2 with_hdr].
    destruct (has (it_infomask2 it2) HEAP_KEYS_UPDATED) eqn:Ek2.
    + right. split_and!; [done|done|]. rewrite orb_true_l, andb_true_r in E. apply negb_false_iff in E. auto.
    + left. rewrite Emode. by apply keys_compatible.
Qed.

Lemma share_no_sleep_twp wait_policy vm have it s :
  mode = LockTupleShare -> locking false vm have it s ->
  T (share_no_sleep tid (t_infomask (it_hdr it)))
    (fun v s' => v = RequireSleep /\ s' = s \/ v <> RequireSleep /\ verdict_reached wait_policy vm have it s v s') s.
Proof.
  intros Emode W. unfold share_no_sleep. destruct (HEAP_XMAX_IS_LOCKED_ONLY _ && _) eqn:E0; [|by apply twp_ret; left].
  apply twp_bind. eapply locking_lock; [exact W|]. intros it1 s1 W1 M1 E1. apply twp_bind. eapply item_at_twp; [by eapply locking_item|].
  apply twp_ret. right. destruct (negb _ || _) eqn:E; (split; [done|]); exists it1; (split; [done|]); (split; [done|]).
  - intros Hs. rewrite (E1 Hs) in E. apply andb_true_iff in E0 as [El E0%negb_true_iff]. by rewrite El, E0 in E.
  - apply orb_false_iff in E as [E2%negb_false_iff E3]. left. rewrite Emode. apply share_compatible; [|done..].
    by eapply locking_fine.
Qed.

Lemma nokey_no_sleep_twp wait_policy vm have it s (Q : SleepVerdict -> StoreState -> Prop) :
  mode = LockTupleNoKeyExclusive -> locking false vm have it s ->
  (forall s', locking false vm have it s' -> moved_on vm it s it s' -> Q RequireSleep s') ->
  (forall v s', v <> RequireSleep -> verdict_reached wait_policy vm have it s v s' -> Q v s') ->
  T (nokey_no_sleep tid (t_xmax (it_hdr it)) (t_infomask (it_hdr it))) Q s.
Proof.
  intros Emode W H1 H2. unfold nokey_no_sleep. destruct (locking_fine _ _ _ _ _ W) as [Hf _].
  destruct (has (t_infomask (it_hdr it)) HEAP_XMAX_IS_MULTI) eqn:Hm.
  - apply twp_bind. rewrite <- Emode. eapply locking_ask; [exact W| |].
    { pose proof (holders_conflict_wp (it_hdr it) mode (st_locks s) Hm) as H. unfold wp, twp in *.
      destruct (DoesMultiXactIdConflict _ _ _ _ _) as [[r|?| |] l']; try done. exact H. }
    intros r s1 W1 M1 Hr _. destruct (fst r) eqn:Er; cbn [negb]; [by apply twp_ret, H1|].
    destruct (locking_fine _ _ _ _ _ W1) as [Hf1 _].
    eapply relock_unchanged_twp; [exact W1| |]; intros it2 s2 W2 M2 H3; (apply H2; [done|]); exists it2;
      (split; [by eapply moved_trans|]); (split; [done|]); [|done].
    eapply (unchanged_grantable it it2 s1 s2); [exact Hf1|exact M2|exact H3|by apply Hr].
  - destruct (HEAP_XMAX_IS_KEYSHR_LOCKED _) eqn:Ek; [|by apply twp_ret, H1; [|by apply moved_here]].
    eapply relock_unchanged_twp; [exact W| |]; intros it2 s2 W2 M2 H3; (apply H2; [done|]); exists it2;
      (split; [done|]); (split; [done|]); [|done].
    destruct H3 as [_ Hc]. destruct (unchanged_bits _ _ Hc) as (B1 & _ & _ & B4). left. rewrite Emode. unfold item_holders.
    apply keyshr_compatible; [by eapply locking_fine|congruence|congruence].
Qed.

Lemma no_sleep_twp wait_policy cfuel vm have it s :
  (follow = true -> er) -> nf \/ follow = false -> TransactionIdIsCurrentTransactionId GetCurrentTransactionId = true ->
  locking false vm have it s -> (steady -> lock_bit (it_hdr it)) ->
  T (no_sleep cfuel follow tid (t_ctid (it_hdr it)) (t_xmax (it_hdr it)) (t_infomask (it_hdr it)) (it_infomask2 it) mode)
    (verdict_reached wait_policy vm have it s) s.
Proof.
  intros He Hnf Hcur W Hlb. unfold no_sleep. apply twp_bind.
  assert (Hsole : forall s1, locking false vm have it s1 -> moved_on vm it s it s1 ->
    T (if negb (has (t_infomask (it_hdr it)) HEAP_XMAX_IS_MULTI) && TransactionIdIsCurrentTransactionId (t_xmax (it_hdr it))
       then relock_unchanged tid (t_xmax (it_hdr it)) (t_infomask (it_hdr it)) else ret RequireSleep)
      (verdict_reached wait_policy vm have it s) s1).
  { intros s1 W1 M1. destruct (_ && _) eqn:E.
    - apply andb_true_iff in E as [Hm%negb_true_iff Hc]. destruct (locking_fine _ _ _ _ _ W1) as [Hf1 _].
      eapply relock_unchanged_twp; [exact W1| |]; intros it2 s2 W2 M2 H3; exists it2;
        (split; [by eapply moved_trans|]); (split; [done|]); [|done].
      eapply (unchanged_grantable it it2 s1 s2); [exact Hf1|exact M2|exact H3|]. unfold held. rewrite Hm. by left.
    - apply twp_ret. exists it. split_and!; [done..|]. intros Hm. by rewrite Hm in E. }
  assert (Hcont : forall v s1, v = RequireSleep /\ s1 = s \/ v <> RequireSleep /\ verdict_reached wait_policy vm have it s v s1 ->
    T (match v with
       | RequireSleep =>
           if negb (has (t_infomask (it_hdr it)) HEAP_XMAX_IS_MULTI) && TransactionIdIsCurrentTransactionId (t_xmax (it_hdr it))
           then relock_unchanged tid (t_xmax (it_hdr it)) (t_infomask (it_hdr it)) else ret RequireSleep
       | _ => ret v end) (verdict_reached wait_policy vm have it s) s1).
  { intros v s1 [[-> ->]|[Hv Hr]]; [by apply Hsole, moved_here|]. destruct v; [done|by apply twp_ret..]. }
  destruct mode eqn:Emode; rewrite <- ?Emode in *.
  - eapply twp_mono; [by apply keyshare_no_sleep_twp|exact Hcont].
  - eapply twp_mono; [by apply share_no_sleep_twp|exact Hcont].
  - eapply nokey_no_sleep_twp; [done|exact W|exact Hsole|]. intros v s1 Hv Hr. by apply Hcont; right.
  - apply twp_ret. apply Hsole; [done|by apply moved_here].
Qed.

(** ** Sleeping *)

Lemma locking_verdict vm have it s (Q : TM_Result -> StoreState -> Prop) : locking true vm have it s ->
  (forall r it' s', locking true vm have it' s' -> moved_on vm it s it' s' -> same_tuple (it_hdr it) (it_hdr it') ->
     multis (st_locks s') = multis (st_locks s) -> (r = TM_Ok -> no_deleter (it_hdr it') (moment s')) ->
     (r <> TM_Ok -> r = TM_Updated \/ r = TM_Deleted) -> Q r s') ->
  T (verdict_after_wait tid) Q s.
Proof.
  intros (l & Hl & W & F) HQ. eapply verdict_after_wait_twp; [exact W|].
  intros r it' s' (W' & P' & R' & Ht & (_ & Hs & _) & _ & Hm & AF) Hok Hno. apply (HQ r it'); [exists l; auto| |done|done|done|].
  - split; [done|by rewrite Hm|done|by intros _|]. intros _. by apply lock_bit_same.
  - intros Hne. destruct (Hno Hne) as [_ ->]. unfold updated_or_deleted. case_bool_decide; auto.
Qed.

(** A verdict other than that we must sleep. *)
Definition verdict_given (wait_policy : LockWaitPolicy) (vm : Buffer) (have : bool) (it : HeapItem) (s : StoreState)
    (v : SleepVerdict) (s' : StoreState) : Prop :=
  v <> RequireSleep /\ verdict_reached wait_policy vm have it s v s'.

(** What was learned about the holders in [h] at an earlier moment. *)
Record slept_on (h : HeapTupleHeader) (it : HeapItem) (s : StoreState) : Prop := {
  so_fine st t : multis (st_locks s) = st -> t = moment s -> header_fine st t h;
  so_held : held (cleared (lockstatus mode) (moment s)) (multis (st_locks s)) h;
  so_single : has (t_infomask h) HEAP_XMAX_IS_MULTI = false -> TransactionIdIsInProgress (moment s) (t_xmax h) = false;
  so_steady : steady -> it_hdr it = h;
}.

Lemma slept_later h vm it s it' s' : slept_on h it s -> moved_on vm it s it' s' -> (steady -> it' = it) -> slept_on h it' s'.
Proof.
  intros [H1 H2 H3 H4] [_ G Ht _ _] Hst. assert (Hf : header_fine (multis (st_locks s)) (moment s) h) by by apply H1.
  assert (Hx : unchanged h h).
  { split; [done|]. unfold xmax_infomask_changed. by rewrite Z.eqb_refl. }
  split.
  - intros st t <- ->. eapply fine_grows; [exact G|]. by eapply fine_later.
  - eapply (held_mono (cleared (lockstatus mode) (moment s))); [intros mem; by apply cleared_later|]. by eapply held_transfer.
  - intros Hm. eapply finished_stable; [exact Ht|auto].
  - intros Hs. rewrite (Hst Hs). auto.
Qed.

Lemma after_sleep_twp wait_policy vm have h it s : locking false vm have it s -> slept_on h it s ->
  T (after_sleep tid (t_xmax h) (t_infomask h)) (verdict_given wait_policy vm have it s) s.
Proof.
  intros W Hsl. unfold after_sleep. apply twp_bind. eapply locking_lock; [exact W|]. intros it1 s1 W1 M1 E1.
  pose proof (slept_later _ _ _ _ _ _ Hsl M1 E1) as [F1 H1 P1 S1]. specialize (F1 _ _ eq_refl eq_refl).
  apply twp_bind. eapply xmax_unchanged_twp; [by eapply locking_item|]. intros [] Hu; cbn [negb].
  2:{ apply twp_ret. split; [done|]. exists it1. split; [done|]. split; [done|]. intros Hs. apply Hu. auto. }
  pose proof Hu as [Hx Hc]. destruct (unchanged_bits _ _ Hc) as (B1 & _). apply twp_bind.
  assert (Hh1 : held (cleared (lockstatus mode) (moment s1)) (multis (st_locks s1)) (it_hdr it1)) by (by eapply held_transfer).
  assert (Hend : forall it2 s2, locking true vm have it2 s2 -> moved_on vm it1 s1 it2 s2 -> same_tuple (it_hdr it1) (it_hdr it2) ->
    multis (st_locks s2) = multis (st_locks s1) ->
    T (let* result := verdict_after_wait tid in ret (match result with TM_Ok => NoSleep | _ => CannotLock result end))
      (verdict_given wait_policy vm have it s) s2).
  { intros it2 s2 W2 M2 S2 G2. apply twp_bind. eapply locking_verdict; [exact W2|]. intros r it3 s3 W3 M3 S3 G3 Hok Hno.
    assert (M : moved_on vm it s it3 s3) by (eapply moved_trans; [exact M1|by eapply moved_trans]).
    apply twp_ret. destruct (decide (r = TM_Ok)) as [->|Hne].
    - split; [done|]. exists it3. split; [done|]. split; [done|]. left. destruct (locking_fine _ _ _ _ _ W3) as [Hf3 _].
      apply cleared_compatible; [exact Hf3| |by apply Hok]. rewrite G3, G2. eapply held_same; [exact S3|]. eapply held_same; [exact S2|].
      eapply held_mono; [|exact Hh1]. intros mem. apply cleared_later. pose proof (mo_time _ _ _ _ _ _ _ M2). pose proof (mo_time _ _ _ _ _ _ _ M3). lia.
    - destruct (Hno Hne) as [->| ->]; (split; [done|]); exists it3; (split; [done|]); (split; [done|]); auto. }
  destruct (locking_fine _ _ _ _ _ W1) as [Hf1 _].
  destruct (has (t_infomask h) HEAP_XMAX_IS_MULTI) eqn:Hm; cbn [negb]; [apply twp_ret, (Hend it1); [exact W1|by apply moved_here|done|done]|].
  rewrite <- Hx. eapply locking_hint; [exact W1|apply (UpdateXmaxHintBits_rule (multis (st_locks s1))); [exact Hf1|done|]|by intros a h' t' ?|].
  - rewrite Hx. by apply P1.
  - intros _ h' s2 _ W2 M2 S2 G2. by eapply Hend.
Qed.

Lemma sleep_twp wait_policy cfuel vm have skip it s :
  (follow = true \/ wait_policy = LockWaitError -> er) -> nf \/ follow = false -> TransactionIdIsCurrentTransactionId GetCurrentTransactionId = true ->
  locking false vm have it s ->
  (has (t_infomask (it_hdr it)) HEAP_XMAX_IS_MULTI = false -> TransactionIdIsCurrentTransactionId (t_xmax (it_hdr it)) = false) ->
  T (sleep cfuel follow tid (t_ctid (it_hdr it)) (t_xmax (it_hdr it)) (t_infomask (it_hdr it)) mode wait_policy skip have)
    (fun r s' => verdict_given wait_policy vm (snd r) it s (fst r) s') s.
Proof.
  intros He Hnf Hcur W Hown. unfold sleep.
  assert (Hfail : forall have1 it1 s1 r, locking false vm have1 it1 s1 -> moved_on vm it s it1 s1 ->
    r = TM_Updated \/ r = TM_Deleted \/ (r = TM_WouldBlock /\ wait_policy = LockWaitSkip) ->
    T (relock_failed tid r) (verdict_given wait_policy vm have1 it s) s1).
  { intros have1 it1 s1 r W1 M1 Hr. unfold relock_failed. apply twp_bind. eapply locking_lock; [exact W1|]. intros it2 s2 W2 M2 _.
    apply twp_ret. split; [done|]. exists it2. split; [by eapply moved_trans|]. done. }
  assert (Hsleep : forall (acquired have1 : bool) s1, locking false vm have1 it s1 -> moved_on vm it s it s1 ->
    (acquired = false -> wait_policy = LockWaitSkip) ->
    T (if negb acquired then let* v := relock_failed tid TM_WouldBlock in ret (v, have1) else
       let* gone := on_locks (wait_holders (t_xmax (it_hdr it)) (t_infomask (it_hdr it)) mode wait_policy) in
       if negb gone then let* v := relock_failed tid TM_WouldBlock in ret (v, have1) else
       let* res := follow_chain cfuel follow tid (t_ctid (it_hdr it)) (t_infomask (it_hdr it)) mode in
       let* v := match res with TM_Ok => after_sleep tid (t_xmax (it_hdr it)) (t_infomask (it_hdr it)) | _ => relock_failed tid res end in
       ret (v, have1)) (fun r s' => verdict_given wait_policy vm (snd r) it s (fst r) s') s1).
  { intros acquired have1 s1 W1 M1 Hp. destruct acquired; cbn [negb].
    2:{ apply twp_bind. eapply twp_mono; [eapply Hfail; [exact W1|exact M1|auto]|]. intros v s2 H2. by apply twp_ret. }
    apply twp_bind. eapply locking_ask; [exact W1|by apply wait_holders_twp; [auto|]|].
    intros gone s2 W2 M2 Hg _. assert (M02 : moved_on vm it s it s2) by by eapply moved_trans.
    destruct gone; cbn [negb gone_from] in *.
    2:{ apply twp_bind. eapply twp_mono; [eapply Hfail; [exact W2|exact M02|auto]|]. intros v s3 H3. by apply twp_ret. }
    destruct (locking_fine _ _ _ _ _ W2) as [Hf2 _].
    assert (Hsl : slept_on (it_hdr it) it s2).
    { split; [by intros st t <- ->|exact Hg| |done]. intros Hm. unfold held in Hg. rewrite Hm in Hg.
      destruct (Hg MultiXactStatusForUpdate) as [Hc|[Hc|?]]; [| |done].
      - cbn in Hc. rewrite Hown in Hc by done. done.
      - change (DoLockModesConflict (hwlock LockTupleExclusive) (LOCKMODE_from_mxstatus (lockstatus mode)) = false) in Hc.
        rewrite lockstatus_mode, tuple_conflicts in Hc. by destruct mode. }
    apply twp_bind. eapply locking_chain; [auto|done|done|exact W2|]. intros r it3 s3 W3 M3 E3 Hr. apply twp_bind.
    eapply (twp_mono _ _ _ (verdict_given wait_policy vm have1 it s)); [|intros v s4 H4; by apply twp_ret].
    assert (M03 : moved_on vm it s it3 s3) by by eapply moved_trans.
    destruct Hr as [->|[->| ->]]; [|eapply Hfail; [exact W3|exact M03|by auto]..].
    eapply twp_mono; [eapply (after_sleep_twp wait_policy vm have1 _ it3); [exact W3|by eapply slept_later]|].
    intros v s4 [Hv (it4 & M4 & H4)]. split; [done|]. exists it4. split; [by eapply moved_trans|]. by destruct v. }
  apply twp_bind. destruct skip.
  - apply twp_ret. apply (Hsleep true have); [done|by apply moved_here|done].
  - eapply locking_acquire; [auto|exact W|]. intros acquired have1 s1 W1 M1 Hp. by apply Hsleep.
Qed.

(** ** The loop *)

Lemma own_lock_wp it skip (l : LockState) : taken (it_hdr it) -> masks_fine (multis l) (it_hdr it) (it_infomask2 it) ->
  wp (own_lock (t_xmax (it_hdr it)) (t_infomask (it_hdr it)) (it_infomask2 it) mode skip)
    (fun r l' => l' = l /\ (fst r = true ->
       we_hold mode (holders (multis l) (t_xmax (it_hdr it)) (t_infomask (it_hdr it)) (it_infomask2 it)))) l.
Proof.
  intros (Hi & _ & Hup) Hk. unfold own_lock, lk_members. destruct (has (t_infomask (it_hdr it)) HEAP_XMAX_IS_MULTI) eqn:Hm.
  - wps. split; [done|]. intros Hown%own_members_hold. unfold holders. rewrite Hi, Hm.
    destruct (HEAP_LOCKED_UPGRADED _) eqn:Hu; [|done]. pose proof (mk_upgraded _ _ _ Hk Hu) as Hx. rewrite (Hup eq_refl) in Hx. done.
  - destruct (TransactionIdIsCurrentTransactionId (t_xmax (it_hdr it))) eqn:Hc; wps; (split; [done|]); [|done].
    cbn [fst]. by apply own_single_hold.
Qed.

(** The row as it was seen with the lock, to what is known afterwards. *)
Definition holders_seen (wait_policy : LockWaitPolicy) (vm : Buffer) (it : HeapItem) (s : StoreState)
    (r : option SleepVerdict * bool * bool) (s' : StoreState) : Prop :=
  let '(v, _, have) := r in
  match v with
  | None => locking false vm have it s' /\ we_hold mode (item_holders s' it)
  | Some v => verdict_given wait_policy vm have it s v s'
  end.

Lemma look_at_holders_twp wait_policy cfuel result vm first skip have it s :
  (follow = true \/ wait_policy = LockWaitError -> er) -> nf \/ follow = false -> TransactionIdIsCurrentTransactionId GetCurrentTransactionId = true ->
  busy result = true -> taken (it_hdr it) -> locking true vm have it s -> (steady -> lock_bit (it_hdr it)) ->
  T (look_at_holders cfuel follow tid result mode wait_policy first skip have) (holders_seen wait_policy vm it s) s.
Proof.
  intros He Hnf Hcur Hb Hta W Hlb. unfold look_at_holders. apply twp_bind. eapply item_at_twp; [by eapply locking_item|].
  apply twp_bind. eapply locking_unlock; [exact W|]. intros s1 W1 B1 L1.
  assert (M1 : moved_on vm it s it s1) by (apply moved_here; unfold moment; by rewrite ?L1).
  apply twp_bind.
  eapply (twp_mono _ _ _ (fun r s' => s' = s1 /\ (fst r = true -> we_hold mode (item_holders s1 it)))).
  { destruct first; [|by apply twp_ret]. destruct (locking_fine _ _ _ _ _ W1) as [_ Hk].
    eapply on_locks_twp; [by apply own_lock_wp|]. intros r l' [-> Hr]. split; [by destruct s1|done]. }
  intros [enough skip1] s2 [-> Hown]. cbn [fst] in Hown. destruct enough; [apply twp_ret; by split; [|apply Hown]|].
  apply twp_bind. eapply twp_mono; [by apply (no_sleep_twp wait_policy); auto|]. intros v s2 Hv.
  pose proof (verdict_moved _ _ _ _ _ _ _ _ _ M1 eq_refl Hv) as Hv'.
  assert (Hdone : v <> RequireSleep -> T (ret (Some v, skip1, have)) (holders_seen wait_policy vm it s) s2) by (intros Hne; by apply twp_ret).
  destruct v; [|by apply Hdone..]. destruct Hv as (it2 & M2 & W2 & -> & Hs2).
  assert (M02 : moved_on vm it s it s2) by by eapply moved_trans.
  assert (Hsleep : T (let* r := sleep cfuel follow tid (t_ctid (it_hdr it)) (t_xmax (it_hdr it)) (t_infomask (it_hdr it)) mode wait_policy skip1 have in
                      ret (Some (fst r), skip1, snd r)) (holders_seen wait_policy vm it s) s2).
  { apply twp_bind. eapply twp_mono; [by apply sleep_twp|]. intros [v have1] s3 [Hne H3]. apply twp_ret. split; [done|].
    by eapply verdict_moved. }
  assert (Hfail : forall r, r = TM_Updated \/ r = TM_Deleted ->
    T (let* v := relock_failed tid r in ret (Some v, skip1, have)) (holders_seen wait_policy vm it s) s2).
  { intros r Hr. apply twp_bind. unfold relock_failed. apply twp_bind. eapply locking_lock; [exact W2|]. intros it3 s3 W3 M3 _.
    apply twp_ret, twp_ret. split; [done|]. exists it3. split; [by eapply moved_trans|]. split; [done|]. tauto. }
  destruct result; try done; apply Hfail; auto.
Qed.

(** The row may be locked: it was inserted, nobody stands in the way, and we
    have not deleted it. *)
Definition lockable (it : HeapItem) (s : StoreState) : Prop :=
  inserter_in (it_hdr it) (moment s) /\ grantable it s /\ ours it = false.

(** Why a lock is not to be had. *)
Definition lock_refused (wait_policy : LockWaitPolicy) (r : TM_Result) (it : HeapItem) : Prop :=
  match r with
  | TM_SelfModified => TransactionIdIsCurrentTransactionId (deleter (it_hdr it)) = true
  | TM_Updated | TM_Deleted => True
  | TM_WouldBlock => wait_policy = LockWaitSkip
  | _ => False
  end.

(** Where the loop ends. *)
Definition loop_ended (wait_policy : LockWaitPolicy) (r : LockEnd * Buffer * bool) (s' : StoreState) : Prop :=
  let '(e, vm, have) := r in
  exists it', match e with
  | CanLock => locking true vm have it' s' /\ lockable it' s' /\ pin_ok tid vm s'
  | LockFailed r => locking true vm have it' s' /\ lock_refused wait_policy r it'
  | RowInvisible => locking true vm have it' s'
  | EnoughAlready => locking false vm have it' s' /\ we_hold mode (item_holders s' it')
  end.

Lemma locking_pin have it s (Q : Buffer -> StoreState -> Prop) : 0 <= tid.1 < 2 ^ 32 -> locking false None have it s ->
  (forall s', locking false (Some (HEAPBLK_TO_MAPBLOCK tid.1)) have it s' -> moved_on None it s it s' ->
     Q (Some (HEAPBLK_TO_MAPBLOCK tid.1)) s') ->
  T (on_svm (pg_tde_visibilitymap_pin tid.1 None)) Q s.
Proof.
  intros Hr (l & Hl & W & F) HQ. eapply pin_twp; [exact Hr|exact W|]. intros s' W' Ht Hlk Hb.
  apply HQ; [|apply moved_here; by rewrite ?Hlk, ?Ht]. exists l. split; [done|]. split; [done|].
  apply (same_rows_fine s); [done|by rewrite Ht|by rewrite Hlk|done].
Qed.

Lemma deletable_not_ours h t it : no_deleter h t -> it_hdr it = h -> ours it = false.
Proof.
  intros Hn <-. apply not_true_iff_false. unfold ours.
  intros [[[_ Hm%negb_true_iff]%andb_true_iff Hl%negb_true_iff]%andb_true_iff Hc]%andb_true_iff.
  destruct Hn as [?|[Hp _]]; [congruence|]. unfold deleter in Hp. rewrite Hm, (current_running t _ Hc) in Hp. done.
Qed.

Lemma taken_not_ours it : taken (it_hdr it) -> ours it = false.
Proof.
  intros (_ & H & _). apply not_true_iff_false. unfold ours.
  intros [[[_ Hm%negb_true_iff]%andb_true_iff Hl%negb_true_iff]%andb_true_iff Hc]%andb_true_iff. by rewrite H in Hc.
Qed.

(** What is looked up at [l3:]. *)
Lemma update_looked_twp cid vm have it s (Q : TM_Result -> StoreState -> Prop) : locking true vm have it s ->
  (forall r it' s', locking true vm have it' s' -> moved_on vm it s it' s' -> 
     (r <> TM_Invisible -> inserter_in (it_hdr it') (moment s')) ->
     (r = TM_Ok -> lockable it' s') -> (busy r = true -> taken (it_hdr it')) ->
     (r = TM_SelfModified -> TransactionIdIsCurrentTransactionId (deleter (it_hdr it')) = true) -> r <> TM_WouldBlock -> Q r s') ->
  T (on_tuple tid (HeapTupleSatisfiesUpdate tid cid)) Q s.
Proof.
  intros W HQ. destruct (locking_fine _ _ _ _ _ W) as [Hf _].
  eapply (locking_hint _ _ _ (fun r h' t' => (update_verdict tid cid (it_hdr it) (moment s) t' r
    /\ header_fine (multis (st_locks s)) t' h' /\ evolves (it_hdr it) (moment s) h' t'
    /\ (r = TM_Ok -> free (multis (st_locks s)) t' h' (it_infomask2 it))) /\ (busy r = true -> taken h'))); [exact W| | |].
  { eapply vwp_mono; [apply vwp_and; [apply vwp_and; [by apply HeapTupleSatisfiesUpdate_rule; apply Hf|by apply HeapTupleSatisfiesUpdate_free]|
      by apply (HeapTupleSatisfiesUpdate_busy _ _ (multis (st_locks s)))]|].
    intros r h' t' [[[? _] (? & ? & ?)] ?]. done. }
  { intros r h' t' ((_ & ? & ? & _) & _). done. }
  intros r h' s' ((V & _ & E & Fr) & Hb) W' M' S' G'. set (it' := with_hdr h' it) in *.
  pose proof (same_tuple_facts _ _ S') as (_ & _ & _ & E4 & _ & _ & _ & E8 & _). destruct M' as [R' G Ht P' L'].
  assert (Hin : r <> TM_Invisible -> inserter_in (it_hdr it') (moment s')).
  { intros Hne. destruct V as [[Hin _]|[? _]]; [|done]. apply (inserted_row it it' (moment s')); [exact R'|lia|exact Hin]. }
  assert (Hrule : r <> TM_Invisible -> update_rule tid cid (it_hdr it) (moment s') r) by (destruct V as [[_ Hr]|[? _]]; done).
  apply (HQ r it'); [done|by split|done| |done| |].
  - intros ->. assert (Hn : no_deleter (it_hdr it') (moment s')).
    { specialize (Hrule ltac:(done)). cbn [update_rule] in Hrule. unfold no_deleter in *. cbn [it_hdr it' with_hdr]. by rewrite E4, E8. }
    split; [by apply Hin|]. split; [|by eapply deletable_not_ours]. left. unfold item_holders. rewrite G'.
    apply free_compatible. by apply Fr.
  - intros ->. cbn [it_hdr it' with_hdr]. rewrite E8. by apply (Hrule ltac:(done)).
  - intros ->. by apply Hrule.
Qed.

Lemma lock_loop_twp fuel cfuel cid wait_policy vm first skip have it s :
  (follow = true \/ wait_policy = LockWaitError -> er) -> nf \/ (1 <= fuel)%nat /\ steady -> TransactionIdIsCurrentTransactionId GetCurrentTransactionId = true ->
  0 <= tid.1 < 2 ^ 32 -> locking true vm have it s -> (steady -> lock_bit (it_hdr it) /\ pin_ok tid vm s) ->
  T (lock_loop fuel cfuel tid cid mode wait_policy follow vm first skip have) (loop_ended wait_policy) s.
Proof.
  intros He Hfuel Hcur Hr. revert vm first skip have it s.
  induction fuel as [|fuel IH]; intros vm first skip have it s W Hst; [by destruct Hfuel as [?|[? _]]; [|lia]|].
  assert (Hnf : nf \/ follow = false) by (destruct Hfuel as [?|[_ [_ ?]%quiet]]; auto).
  assert (Hagain : forall vm1 first1 skip1 have1 it1 s1, locking true vm1 have1 it1 s1 -> ~ steady ->
    T (lock_loop fuel cfuel tid cid mode wait_policy follow vm1 first1 skip1 have1) (loop_ended wait_policy) s1).
  { intros vm1 first1 skip1 have1 it1 s1 W1 Hns. destruct Hfuel as [Hn|[_ ?]]; [|done]. eapply IH; [by left|exact W1|by intros ?]. }
  cbn [lock_loop]. apply twp_bind. eapply update_looked_twp; [exact W|].
  intros r it1 s1 W1 M1 Hin Hok Hbusy Hself Hwb.
  assert (Hst1 : steady -> lock_bit (it_hdr it1) /\ pin_ok tid vm s1).
  { intros Hs. destruct (Hst Hs) as [? ?]. split; [by apply M1|by apply M1]. }
  assert (Hpin : forall first2 skip2 have2 it2 s2, locking true vm have2 it2 s2 -> lockable it2 s2 -> (steady -> pin_ok tid vm s2) ->
    T (let* v := page_all_visible tid.1 in
       match vm with
       | Some _ => ret (CanLock, vm, have2)
       | None => if (v : bool) then
           UnlockHeapBuffer tid.1;;;
           let* vmbuffer := on_svm (pg_tde_visibilitymap_pin tid.1 None) in
           LockHeapBuffer tid.1;;;
           lock_loop fuel cfuel tid cid mode wait_policy follow vmbuffer first2 skip2 have2
         else ret (CanLock, vm, have2)
       end) (loop_ended wait_policy) s2).
  { intros first2 skip2 have2 it2 s2 W2 L2 P2. destruct (item_block _ _ _ (locking_item _ _ _ _ _ W2)) as (b & Hb & _).
    apply twp_bind. eapply page_all_visible_twp; [exact Hb|]. destruct vm as [m|]; [apply twp_ret; by exists it2|].
    destruct (all_visible_flag b) eqn:Ev; [|apply twp_ret; exists it2; split; [done|]; split; [done|]; intros _ b' Hb'; congruence].
    assert (Hns : ~ steady) by (intros Hs; by rewrite (P2 Hs eq_refl b Hb) in Ev).
    apply twp_bind. eapply locking_unlock; [exact W2|]. intros s3 W3 _ _. apply twp_bind. eapply locking_pin; [done|exact W3|].
    intros s4 W4 _. apply twp_bind. eapply locking_lock; [exact W4|]. intros it5 s5 W5 _ _. by eapply Hagain. }
  assert (Hlook : busy r = true ->
    T (let* x := look_at_holders cfuel follow tid r mode wait_policy first skip have in
       let '(v, skip, have) := x in
       match v with
       | None => ret (EnoughAlready, vm, have)
       | Some LookAgain => lock_loop fuel cfuel tid cid mode wait_policy follow vm false skip have
       | Some (CannotLock res) => ret (LockFailed res, vm, have)
       | Some _ =>
           let* v := page_all_visible tid.1 in
           match vm with
           | Some _ => ret (CanLock, vm, have)
           | None => if (v : bool) then
               UnlockHeapBuffer tid.1;;;
               let* vmbuffer := on_svm (pg_tde_visibilitymap_pin tid.1 None) in
               LockHeapBuffer tid.1;;;
               lock_loop fuel cfuel tid cid mode wait_policy follow vmbuffer false skip have
             else ret (CanLock, vm, have)
           end
       end) (loop_ended wait_policy) s1).
  { intros Hb. apply twp_bind. eapply twp_mono; [eapply (look_at_holders_twp wait_policy _ _ vm _ _ _ it1); try done; [by apply Hbusy|by intros Hs; apply Hst1]|].
    intros [[v skip2] have2] s2 H2. cbn [holders_seen] in H2. destruct v as [v|]; [|apply twp_ret; by exists it1].
    destruct H2 as [Hne (it2 & M2 & H2)]. destruct v as [| | |res]; [done| | |].
    - destruct H2 as [W2 G2]. apply (Hpin false skip2 have2 it2); [done| |intros Hs; apply M2; [done|by apply Hst1]].
      split; [eapply (inserted_row it1); [apply M2|apply M2|apply Hin; by destruct r]|]. split; [done|].
      apply not_true_iff_false. intros Ho. destruct M2 as [(_ & _ & _ & _ & Hours) _ _ _ _].
      rewrite (taken_not_ours it1) in Hours by by apply Hbusy. by specialize (Hours Ho).
    - destruct H2 as [W2 Hns]. by eapply Hagain.
    - destruct H2 as [W2 Hres]. apply twp_ret. exists it2. split; [done|]. by destruct Hres as [->|[->|[-> ?]]]. }
  destruct r; try (by apply Hlook).
  - apply (Hpin first skip have it1); [done|by apply Hok|by intros Hs; apply Hst1].
  - apply twp_ret. by exists it1.
  - apply twp_ret. exists it1. split; [done|]. by apply Hself.
  - done.
Qed.
End rules.
End locking.
