(* ===== verification/RowLockClaims.v ===== *)
(** What locking a row promises, whatever other backends do while it waits;
    that it ends when they do nothing; the replay of its record.  [ToyLock]
    is a table with neighbours for which what it relies on holds, one of whom
    locks the row between two looks at it. *)
From stdpp Require Import relations.
From S2P Require Import Prelude Visibility VisibilityProps VisibilityHints VisibilitySpec VisibilityClaims VisibilityMap VisibilityMapProps VisibilityMapOps VisibilityMapClaims LockFlags MultiXact MultiXactProps MultiXactClaims EncTuple Insert TupleStore Delete DeleteFree DeleteProps DeleteLoop DeleteDone DeleteReplay DeleteClaims RowLock RowLockFine RowLockChain RowLockLoop.

Section lock.
Context `{HH : HtupFlags} `{HHL : !HtupFlagsLaws} `{HW : World} `{HWL : !WorldLaws}.
Context `{HLF : LockFlags} `{HFB : !FlagBits} `{HMX : MultiXacts} `{HML : !MultiXactsLaws}.
Context `{HP : PgBlockSize} `{HBL : !PgBlockSizeLaws} `{HV : VmEnv} `{HVL : !VmLaws}.
Context `{HIE : InsertEnv} `{HSE : StoreEnv} `{HI : !Interference} `{HSL : !StoreLaws}.

(** ** Setting the lock *)

(** The record for the row that is now [it']. *)
Definition row_record (tid : Z * Z) (it' : HeapItem) (cleared : bool) : StoreRecord :=
  XlLock tid.1 (lock_record tid (t_xmax (it_hdr it')) (t_infomask (it_hdr it')) (it_infomask2 it') cleared).

(** From [s], where it was found that [it] can be locked, to [s']; [it'] is
    the row then. *)
Record row_taken (tid : Z * Z) (mode : LockTupleMode) (it it' : HeapItem) (b : HeapBlock) (s s' : StoreState) : Prop := {
  rt_before : blocks s !! tid.1 = Some b;
  rt_blocks : exists lsn, blocks s' = <[tid.1 := with_lsn lsn (with_items (<[tid.2 := it']> (items b)) b)]> (blocks s);
  rt_row : t_xmin (it_hdr it') = t_xmin (it_hdr it) /\ it_hoff it' = it_hoff it /\ it_data it' = it_data it;
  rt_ctid : t_ctid (it_hdr it')
    = if HEAP_XMAX_IS_LOCKED_ONLY (t_infomask (it_hdr it')) then tid else t_ctid (it_hdr it);
  rt_mine : granted GetCurrentTransactionId mode false (item_holders s' it');
  rt_kept h : h ∈ item_holders s it -> counts (moment s') h -> kept GetCurrentTransactionId h (item_holders s' it');
  rt_joins h : h ∈ item_holders s' it' -> joins (item_holders s it) GetCurrentTransactionId false h;
  rt_compatible : compatible mode (moment s) (item_holders s it) -> compatible mode (moment s') (item_holders s' it');
  rt_map : frozen_cleared tid.1 (all_visible_flag b) (st_vm s) (st_vm s');
  rt_wal : st_wal s' = st_wal s ++ (if RelationNeedsWAL
             then [row_record tid it' (frozen_was_set tid.1 (all_visible_flag b) (st_vm s))] else []);
}.

Lemma row_locked_relocked tid x n n2 it : 0 <= tid.1 < 2 ^ 32 -> 0 <= (t_ctid (it_hdr it)).1 < 2 ^ 32 ->
  let it' := row_locked tid x n n2 it in
  relocked (it_hdr it) x n n2 (it_hdr it') (it_infomask2 it') /\ it_hoff it' = it_hoff it /\ it_data it' = it_data it
  /\ t_ctid (it_hdr it') = if HEAP_XMAX_IS_LOCKED_ONLY n then tid else t_ctid (it_hdr it).
Proof.
  intros Ht Hc it'. unfold it', row_locked. split; [|by destruct (HEAP_XMAX_IS_LOCKED_ONLY n)].
  split; cbn [it_infomask2 map_hdr with_hdr with_masks it_hdr].
  1-3: by destruct (HEAP_XMAX_IS_LOCKED_ONLY n).
  - destruct (HEAP_XMAX_IS_LOCKED_ONLY n); flags; done.
  - by destruct (HEAP_XMAX_IS_LOCKED_ONLY n).
Qed.

Section rules.
Variables (nf er : Prop).
Local Abbreviation T := (twp (fun _ => nf) (fun _ => er)).

Lemma lock_now_twp tid mode vm have sL it s (Q : unit -> StoreState -> Prop) :
  0 <= tid.1 < 2 ^ 32 -> TransactionIdIsCurrentTransactionId GetCurrentTransactionId = true ->
  at_work_in mode tid sL true vm have it s -> all_fine s -> pin_ok tid vm s -> ours it = false ->
  (forall it' b s', row_taken tid mode it it' b s s' -> all_fine s' -> same_row it it' -> vm_ok (st_vm s') ->
     pinned (st_vm s') = pinned (st_vm s) -> sheld s' = sheld s -> spins s' = spins s ->
     tuplocks (st_locks s') = tuplocks (st_locks s) -> toast_deletes s' = toast_deletes s -> (moment s <= moment s')%nat -> Q tt s') ->
  T (lock_now tid mode vm) Q s.
Proof.
  intros Hr Hcur W Hall Hpin Hours HQ. unfold lock_now. pose proof (aw_item W) as Hi. apply twp_bind. eapply item_at_twp; [exact Hi|].
  destruct (aw_fine W) as [Hf Hk]. destruct (item_block _ _ _ Hi) as (b & Hb & Hit).
  apply twp_bind. eapply on_locks_twp.
  { apply wp_always; [|apply compute_always]. apply compute_new_xmax_wp; [by eapply fine_xmax_ok|done|].
    intros Hx Hm Hinv. unfold ours in Hours. rewrite Hinv, Hm, Hx, Hcur in Hours. cbn in Hours. rewrite andb_true_r in Hours. by apply negb_false_iff in Hours. }
  intros [[x n] n2] l' [Hlk (Tl & Ml & _)]. cbn beta iota. set (s1 := with_slocks l' s). set (it' := row_locked tid x n n2 it).
  destruct (row_locked_relocked tid x n n2 it Hr (mk_ctid _ _ _ Hk)) as (Hre & Ho & Hd & Hct). fold it' in Hre, Ho, Hd, Hct.
  pose proof (lk_made _ _ _ _ _ _ _ Hlk) as Hmade. cbn [fst snd] in Hmade.
  assert (Hfine : header_fine (multis l') (lk_clock l') (it_hdr it') /\ masks_fine (multis l') (it_hdr it') (it_infomask2 it'))
    by by eapply relocked_fine.
  assert (Hrow : same_row it it') by by eapply relocked_row.
  destruct (relocked_tests _ _ _ _ _ _ _ _ _ Hmade Hre) as (_ & (_ & _ & _ & Hlo) & _ & Hh).
  apply crit_twp, twp_bind. eapply item_at_twp; [exact Hi|]. fold it'.
  apply twp_bind. eapply set_item_twp; [exact Hb|]. set (s2 := put_item tid it' b s1).
  assert (Hb2 : blocks s2 !! tid.1 = Some (with_items (<[tid.2 := it']> (items b)) b)) by apply lookup_insert_eq.
  apply twp_bind. eapply (clear_all_frozen_twp _ _ _ vm _ s2); [exact Hb2|apply W| |].
  { cbn [all_visible_flag with_items]. intros Hv. destruct (aw_buf W) as [->| ->]; [by rewrite (Hpin eq_refl b Hb) in Hv|].
    split; [done|]. cbn. rewrite (aw_map W). by left. }
  cbn [all_visible_flag with_items]. intros v Hv Hpv Hmap.
  unfold MarkHeapBufferDirty. apply twp_bind, twp_modify. set (s3 := with_sdirty _ _).
  assert (Hend : forall lsn s4, blocks s4 = <[tid.1 := with_lsn lsn (with_items (<[tid.2 := it']> (items b)) b)]> (blocks s) ->
    st_vm s4 = v -> st_locks s4 = l' -> sheld s4 = sheld s -> spins s4 = spins s -> toast_deletes s4 = toast_deletes s ->
    st_wal s4 = st_wal s ++ (if RelationNeedsWAL
      then [row_record tid it' (frozen_was_set tid.1 (all_visible_flag b) (st_vm s))] else []) -> Q tt s4).
  { intros lsn s4 B4 V4 L4 H4 P4 O4 W4. assert (Hmo : moment s4 = lk_clock l') by (unfold moment; by rewrite L4).
    assert (Hh4 : item_holders s4 it' = holders (multis l') x n n2) by (unfold item_holders; by rewrite L4, Hh).
    apply (HQ it' b); [|  |done|by rewrite V4|by rewrite V4|done|done|by rewrite L4|done|by rewrite Hmo].
    - split; try done; rewrite ?Hh4, ?Hmo.
      + by exists lsn.
      + split; [apply Hre|done].
      + by rewrite Hlo.
      + apply Hlk.
      + apply Hlk.
      + apply Hlk.
      + intros Hc. eapply compatible_joins; [exact Ml|exact Hcur|apply Hlk|exact Hc].
      + by rewrite V4.
    - eapply (put_all_fine tid it' s); [| |by rewrite Hmo|rewrite L4; apply Hlk|unfold fine_in; by rewrite Hmo, L4|done].
      + unfold item. rewrite B4, lookup_insert_eq. cbn. apply lookup_insert_eq.
      + intros [bn' o'] Hne. unfold item. rewrite B4. destruct tid as [bn o]. cbn [fst snd] in *.
        destruct (decide (bn' = bn)) as [->|Hbn]; [|by rewrite lookup_insert_ne].
        rewrite lookup_insert_eq, Hb. cbn. rewrite lookup_insert_ne; [done|congruence]. }
  destruct RelationNeedsWAL.
  - unfold XLogInsert_store, PageSetLSN_store, block_at, set_block. apply twp_bind. unfold twp at 1.
    apply twp_bind, twp_bind, twp_get. eapply twp_defined; [apply lookup_insert_eq|]. apply twp_modify.
    eapply Hend; [cbn; by rewrite !insert_insert_eq|done..|]. cbn [st_wal with_blocks with_swal]. unfold row_record, lock_record.
    assert (Hbits : compute_infobits (t_infomask (it_hdr it')) (it_infomask2 it') = compute_infobits n (it_infomask2 it')).
    { etransitivity; [by eapply relocked_infobits|]. apply infobits_same; [done|]. symmetry. apply Hre. }
    by rewrite (rl_xmax _ _ _ _ _ _ Hre), Hbits.
  - apply twp_ret. eapply (Hend (block_lsn b)); [|done..|by rewrite app_nil_r]. cbn. f_equal.
Qed.

(** ** Letting go *)

(** The same but for locks and pins. *)
Record only_released (s s' : StoreState) : Prop := {
  or_blocks : blocks s' = blocks s;
  or_multis : multis (st_locks s') = multis (st_locks s);
  or_time : moment s' = moment s;
  or_map : same_map (st_vm s) (st_vm s');
  or_wal : st_wal s' = st_wal s;
  or_toast : toast_deletes s' = toast_deletes s;
}.

Lemma released_fine s s' : only_released s s' -> all_fine s -> all_fine s'.
Proof. intros [B G Ht _ _ _]. apply same_rows_fine; [done|by rewrite Ht|by rewrite G]. Qed.

Lemma released_taken tid mode it it' b s s1 s2 : only_released s1 s2 -> row_taken tid mode it it' b s s1 -> row_taken tid mode it it' b s s2.
Proof.
  intros [B G Ht (Hmap & _) W _] [R1 R2 R3 R4 R5 R6 R7 R8 R9 R10].
  assert (Hh : forall i, item_holders s2 i = item_holders s1 i) by (intros i; unfold item_holders; by rewrite G).
  split; rewrite ?B, ?Hh, ?Ht, ?W; try done.
  intros y Hy. by rewrite Hmap, R9.
Qed.

(** All that was taken is given back; the page stays pinned for the
    caller. *)
Record given_back (tid : Z * Z) (s s' : StoreState) : Prop := {
  gb_held : sheld s' = sheld s;
  gb_pins : spins s' = tid.1 :: spins s;
  gb_tup : tuplocks (st_locks s') ≡ₚ tuplocks (st_locks s);
  gb_map : pinned (st_vm s') ≡ₚ pinned (st_vm s);
  gb_toast : toast_deletes s' = toast_deletes s;
}.

Lemma unlock_release_twp tid mode vm (have locked : bool) s s0 (Q : unit -> StoreState -> Prop) :
  vm_ok (st_vm s) -> pinned (st_vm s) ≡ₚ buffer_pins vm ++ pinned (st_vm s0) ->
  tuplocks (st_locks s) = tuplocks (st_locks s0) ++ (if have then [(tid, hwlock mode)] else []) ->
  sheld s = (if locked then [tid.1] else []) ++ sheld s0 -> spins s = tid.1 :: spins s0 -> toast_deletes s = toast_deletes s0 ->
  (forall s', only_released s s' -> given_back tid s0 s' -> Q tt s') ->
  T (if locked then UnlockHeapBuffer tid.1;;; release_after_lock tid mode vm have else release_after_lock tid mode vm have) Q s.
Proof.
  intros Hv Hp Ht Hh Hs Ho HQ.
  assert (Hrel : forall s1, blocks s1 = blocks s -> st_vm s1 = st_vm s -> st_locks s1 = st_locks s -> sheld s1 = sheld s0 ->
    spins s1 = spins s -> st_wal s1 = st_wal s -> toast_deletes s1 = toast_deletes s -> T (release_after_lock tid mode vm have) Q s1).
  { intros s1 E1 E2 E3 E4 E5 E6 E7. unfold release_after_lock. apply twp_bind.
    eapply release_map_twp; [by rewrite E2|rewrite E2; exact Hp|]. intros v Hv' Hpv Hsm. rewrite E2 in Hsm.
    assert (Hend : forall l', tuplocks l' ≡ₚ tuplocks (st_locks s0) -> multis l' = multis (st_locks s) -> lk_clock l' = moment s ->
      Q tt (with_slocks l' (with_svm v s1))).
    { intros l' P1 P2 P3. apply HQ; split; cbn; try done; congruence. }
    destruct have.
    - eapply (on_locks_twp _ _ _ (fun _ l => l = snd (UnlockTupleTuplock tid mode (st_locks s1)))); [done|].
      intros [] l' ->. apply Hend; cbn; rewrite E3; [|done..]. rewrite Ht. apply remove_lock_perm.
    - apply twp_ret. replace (with_svm v s1) with (with_slocks (st_locks s1) (with_svm v s1)) by done.
      apply Hend; rewrite E3; [|done..]. by rewrite Ht, app_nil_r. }
  destruct locked; [|by apply Hrel].
  apply twp_bind. eapply unlock_held_twp; [exact Hh|]. by apply Hrel.
Qed.

(** ** A call *)

(** What a call starts from. *)
Record can_lock (tid : Z * Z) (it : HeapItem) (s : StoreState) : Prop := {
  cl_block : 0 <= tid.1 < 2 ^ 32;
  cl_unlocked : sheld s = [];
  cl_vm : vm_ok (st_vm s);
  cl_item : item tid s = Some it;
  cl_fine : all_fine s;
  cl_xact : TransactionIdIsCurrentTransactionId GetCurrentTransactionId = true;
}.

Lemma with_no_log s : with_log [] s = s.
Proof. destruct s. unfold with_log. cbn. by rewrite app_nil_r. Qed.

(** Nobody else acts and later versions are left alone; the row was written
    since 9.3. *)
Definition calm (follow_updates : bool) (it : HeapItem) : Prop :=
  quiet_store /\ follow_updates = false /\ lock_bit (it_hdr it).

Lemma locking_start_twp mode tid follow it s (Q : Buffer -> StoreState -> Prop) : can_lock tid it s ->
  (forall vm it' s', locking mode tid s true vm false it' s' ->
     (calm follow it -> lock_bit (it_hdr it') /\ pin_ok tid vm s') -> Q vm s') ->
  T (pin_and_lock tid.1) Q s.
Proof.
  intros [Hr Hh Hv Hi Hf Hcur] HQ. unfold pin_and_lock, ReadHeapBuffer. apply twp_bind, twp_modify.
  set (s1 := with_spins _ _). assert (W1 : locking mode tid s false None false it s1).
  { exists []. split; [done|]. split; [|done]. rewrite with_no_log. apply pinned_at_work; [done|done|by apply (Hf tid)]. }
  destruct (item_block _ _ _ Hi) as (b & Hb & _). apply twp_bind. eapply page_all_visible_twp; [exact Hb|].
  assert (Hlock : forall vm s2, locking mode tid s false vm false it s2 -> pin_ok tid vm s2 ->
    T (LockHeapBuffer tid.1;;; ret vm) Q s2).
  { intros vm s2 W2 P2. apply twp_bind. eapply (locking_lock nf er mode tid s follow (calm follow it)); [done|by intros (? & ? & _)|exact W2|].
    intros it' s3 W3 [_ _ _ P3 L3] _. apply twp_ret. eapply HQ; [exact W3|]. intros Hs. split; [apply L3; [done|apply Hs]|by apply P3]. }
  destruct (all_visible_flag b) eqn:Ev.
  - apply twp_bind. eapply (locking_pin nf er mode tid s (calm follow it)); [done|exact W1|]. intros s2 W2 _. by apply Hlock.
  - apply twp_bind, twp_ret. apply Hlock; [exact W1|]. intros _ b' Hb'. cbn in Hb'. congruence.
Qed.

(** How a call ends, [s1] being the state in which [it1] was judged. *)
Definition lock_end (tid : Z * Z) (mode : LockTupleMode) (wait_policy : LockWaitPolicy) (e : LockEnd) (r : TM_Result)
    (tm : option TM_FailureData) (it1 : HeapItem) (s1 s' : StoreState) : Prop :=
  match e with
  | CanLock => r = TM_Ok /\ tm = None /\ lockable mode it1 s1
      /\ exists it' b, item tid s' = Some it' /\ row_taken tid mode it1 it' b s1 s'
  | LockFailed res => r = res /\ lock_refused wait_policy res it1 /\ tm = Some (failure_data res (it_hdr it1))
      /\ blocks s' = blocks s1 /\ st_wal s' = st_wal s1
  | RowInvisible => r = TM_Invisible /\ tm = None /\ blocks s' = blocks s1 /\ st_wal s' = st_wal s1
  | EnoughAlready => r = TM_Ok /\ tm = None /\ we_hold mode (item_holders s1 it1)
      /\ blocks s' = blocks s1 /\ st_wal s' = st_wal s1
  end.

(** Judged, from the start on. *)
Definition judged_row (tid : Z * Z) (it : HeapItem) (s : StoreState) (it1 : HeapItem) (s1 : StoreState) : Prop :=
  item tid s1 = Some it1 /\ same_row it it1 /\ exists l, Forall version_record l /\ st_wal s1 = st_wal s ++ l.

Lemma locking_ended mode tid it s locked vm have it1 s1 : can_lock tid it s -> locking mode tid s locked vm have it1 s1 ->
  judged_row tid it s it1 s1 /\ all_fine s1
  /\ (forall s2, st_vm s2 = st_vm s1 -> tuplocks (st_locks s2) = tuplocks (st_locks s1) ->
        vm_ok (st_vm s2) /\ pinned (st_vm s2) ≡ₚ buffer_pins vm ++ pinned (st_vm s)
        /\ tuplocks (st_locks s2) = tuplocks (st_locks s) ++ (if have then [(tid, hwlock mode)] else []))
  /\ sheld s1 = (if locked then [tid.1] else []) ++ sheld s /\ spins s1 = tid.1 :: spins s /\ toast_deletes s1 = toast_deletes s.
Proof.
  intros Hc (l & Hl & W & F). split_and!; [|done| |apply W..].
  - split; [apply W|]. split; [apply (aw_row W), Hc|]. exists l. split; [done|apply W].
  - intros s2 -> ->. split; [apply W|]. split; [apply (aw_map W)|apply (aw_tup W)].
Qed.

Lemma pg_tde_lock_tuple_twp fuel cfuel tid cid mode wait_policy follow it s (Q : TM_Result * option TM_FailureData -> StoreState -> Prop) :
  can_lock tid it s -> (follow = true \/ wait_policy = LockWaitError -> er) -> nf \/ (1 <= fuel)%nat /\ calm follow it ->
  (forall e vm have s1 it1 r tm s', lock_verdict fuel cfuel tid cid mode wait_policy follow s = (Ret (e, vm, have), s1) ->
     judged_row tid it s it1 s1 -> lock_end tid mode wait_policy e r tm it1 s1 s' -> given_back tid s s' -> all_fine s' ->
     Q (r, tm) s') ->
  T (pg_tde_lock_tuple fuel cfuel tid cid mode wait_policy follow) Q s.
Proof.
  intros Hc He Hfuel HQ. unfold pg_tde_lock_tuple. pose proof Hc as [Hr Hh Hv Hi Hall Hcur].
  assert (Hverdict : T (lock_verdict fuel cfuel tid cid mode wait_policy follow) (loop_ended mode tid s wait_policy) s).
  { unfold lock_verdict. apply twp_bind. eapply (locking_start_twp mode _ follow); [exact Hc|]. intros vm it1 s1 W1 H1.
    eapply (lock_loop_twp nf er mode tid s follow (calm follow it)); [done|by intros (? & ? & _)|done|done|done|done|exact W1|exact H1]. }
  unfold twp, bind. unfold twp in Hverdict.
  destruct (lock_verdict fuel cfuel tid cid mode wait_policy follow s) as [[[[e vm] have]|?| |] s1] eqn:E; try done.
  destruct Hverdict as [it1 H1]. cbn beta iota.
  assert (Hgo : forall (locked : bool) r tm, locking mode tid s locked vm have it1 s1 ->
    (forall s', only_released s1 s' -> lock_end tid mode wait_policy e r tm it1 s1 s') ->
    T (if locked then UnlockHeapBuffer tid.1;;; release_after_lock tid mode vm have;;; ret (r, tm)
       else release_after_lock tid mode vm have;;; ret (r, tm)) Q s1).
  { intros locked r tm W Hend. destruct (locking_ended _ _ _ _ _ _ _ _ _ Hc W) as (J & F & Hst & E1 & E2 & E3).
    destruct (Hst s1 eq_refl eq_refl) as (V & P & L).
    pose proof (unlock_release_twp tid mode vm have locked s1 s (fun _ s' => T (ret (r, tm)) Q s') V P L E1 E2 E3) as H.
    destruct locked; [apply twp_seq|apply twp_bind]; (apply H; intros s' Ho Hb; apply twp_ret; eapply HQ;
      [done|exact J|by apply Hend|exact Hb|by eapply released_fine]). }
  destruct e as [|res| |].
  - destruct H1 as (W & Hl & Hp). destruct (locking_ended _ _ _ _ _ _ _ _ _ Hc W) as (J & F & Hst & E1 & E2 & E3).
    destruct W as (l & _ & W1 & _). destruct (Hst s1 eq_refl eq_refl) as (_ & P & L).
    apply (twp_bind _ _ (lock_now tid mode vm)). eapply lock_now_twp; [done|done|exact W1|exact F|exact Hp|apply Hl|].
    intros it' b s2 Rt F2 _ V2 P2 H2 S2 T2 O2 _. apply twp_seq.
    apply (unlock_release_twp tid mode vm have true s2 s); rewrite ?P2, ?T2, ?H2, ?S2, ?O2; try done.
    intros s' Ho Hb. apply twp_ret. pose proof (released_taken _ _ _ _ _ _ _ _ Ho Rt) as Rt'.
    eapply HQ; [done|exact J| |exact Hb|by eapply released_fine]. split_and!; [done|done|done|]. exists it', b. split; [|done].
    destruct (rt_blocks _ _ _ _ _ _ _ Rt') as [lsn B]. unfold item. rewrite B, lookup_insert_eq. cbn. apply lookup_insert_eq.
  - destruct H1 as [W Hres]. apply (twp_bind _ _ (item_at tid)). eapply item_at_twp; [by eapply locking_item|].
    apply (Hgo true res (Some (failure_data res (it_hdr it1)))); [exact W|]. intros s' []. by split_and!.
  - apply (Hgo true TM_Invisible None); [exact H1|]. intros s' []. by split_and!.
  - destruct H1 as [W Hm]. apply (Hgo false TM_Ok None); [exact W|]. intros s' []. by split_and!.
Qed.
End rules.
End lock.

(** ** Replay *)

Section replay.
Context `{HH : HtupFlags} `{HHL : !HtupFlagsLaws} `{HW : World} `{HWL : !WorldLaws}.
Context `{HLF : LockFlags} `{HFB : !FlagBits} `{HMX : MultiXacts} `{HML : !MultiXactsLaws}.
Context `{HP : PgBlockSize} `{HBL : !PgBlockSizeLaws} `{HV : VmEnv} `{HVL : !VmLaws}.
Context `{HIE : InsertEnv} `{HSE : StoreEnv} `{HI : !Interference} `{HSL : !StoreLaws}.

Lemma redo_lock_masks_flags tid x m m2 cleared jt : has m HEAP_XMAX_INVALID = false ->
  let jt' := redo_lock_masks (lock_record tid x m m2 cleared) jt in
  (forall f, f ∈ [f_keyshr; f_excl; f_lock_only; f_xmax_invalid; f_multi] ->
     has (t_infomask (it_hdr jt')) (2 ^ bit_of f) = has m (2 ^ bit_of f))
  /\ has (it_infomask2 jt') HEAP_KEYS_UPDATED = has m2 HEAP_KEYS_UPDATED
  /\ t_xmin (it_hdr jt') = t_xmin (it_hdr jt) /\ t_ctid (it_hdr jt') = t_ctid (it_hdr jt)
  /\ it_hoff jt' = it_hoff jt /\ it_data jt' = it_data jt.
Proof.
  intros Hinv. unfold redo_lock_masks. cbn [xlk_infobits lock_record]. set (n := clear (t_infomask (it_hdr jt)) _). set (n2 := clear _ _).
  pose proof (infobits_roundtrip m m2 n n2) as H. destruct (fix_infomask_from_infobits _ n n2) as [n' n2']. destruct H as (H1 & H2 & H3).
  split_and!; try done. intros f Hf. unfold with_masks. cbn.
  set_unfold in Hf. unfold infobit_flags in H1.
  destruct_or! Hf; subst f; rewrite <- ?keyshr_bit, <- ?excl_bit, <- ?lock_only_bit, <- ?xmax_invalid_bit, <- ?multi_bit;
    try (apply H1; set_solver).
  rewrite Hinv, (has_land _ _ _ (H3 _ invalid_other)). unfold n. by flags.
Qed.

(** The row of the standby, [jt] and then [jt']. *)
Record row_replayed (tid : Z * Z) (ctid : Z * Z) (x m m2 : Z) (jt jt' : HeapItem) : Prop := {
  rr_row : t_xmin (it_hdr jt') = t_xmin (it_hdr jt) /\ it_hoff jt' = it_hoff jt /\ it_data jt' = it_data jt;
  rr_xmax : t_xmax (it_hdr jt') = x;
  rr_ctid : t_ctid (it_hdr jt') = ctid;
  rr_holders st : holders st (t_xmax (it_hdr jt')) (t_infomask (it_hdr jt')) (it_infomask2 jt') = holders st x m m2;
}.

Lemma locked_only_flags m n : (forall f, f ∈ [f_keyshr; f_excl; f_lock_only; f_xmax_invalid; f_multi] ->
  has n (2 ^ bit_of f) = has m (2 ^ bit_of f)) -> HEAP_XMAX_IS_LOCKED_ONLY n = HEAP_XMAX_IS_LOCKED_ONLY m.
Proof. intros H. flag_names. by rewrite !H by set_solver. Qed.

Lemma redo_locked_row tid x m m2 cleared jt : has m HEAP_XMAX_INVALID = false ->
  row_replayed tid (if HEAP_XMAX_IS_LOCKED_ONLY m then tid else t_ctid (it_hdr jt)) x m m2 jt
    (redo_locked tid (lock_record tid x m m2 cleared) jt).
Proof.
  intros Hinv. destruct (redo_lock_masks_flags tid x m m2 cleared jt Hinv) as (H1 & H2 & H3 & H4 & H5 & H6).
  unfold redo_locked. set (j := redo_lock_masks _ jt) in *. rewrite <- (locked_only_flags _ _ H1). cbn [xlk_xmax lock_record].
  assert (Hc : forall n (f : infoflag), has (clear n HEAP_COMBOCID) (2 ^ bit_of f) = has n (2 ^ bit_of f)).
  { intros n f. by rewrite has_clear_flag, combocid_other, andb_true_r. }
  destruct (HEAP_XMAX_IS_LOCKED_ONLY (t_infomask (it_hdr j))); split; try (by split_and!); try done; intros st;
    cbn [it_hdr it_infomask2 map_hdr with_hdr with_masks]; apply holders_flags; try done; try (intros f Hf; cbn; by rewrite Hc, H1).
  rewrite <- H2. flags. done.
Qed.

Lemma redo_version_row tid x m m2 cleared jt : has m HEAP_XMAX_INVALID = false ->
  row_replayed tid (t_ctid (it_hdr jt)) x m m2 jt (redo_version_locked (lock_record tid x m m2 cleared) jt).
Proof.
  intros Hinv. destruct (redo_lock_masks_flags tid x m m2 cleared jt Hinv) as (H1 & H2 & H3 & H4 & H5 & H6).
  split; try done. intros st. by apply holders_flags.
Qed.

Section rules.
Variables (nf er : Prop).
Local Abbreviation T := (twp (fun _ => nf) (fun _ => er)).

Lemma lock_flags tid x m m2 cleared : has (xlk_flags (lock_record tid x m m2 cleared)) XLH_LOCK_ALL_FROZEN_CLEARED = cleared.
Proof. by destruct cleared. Qed.

(** The all-frozen bit is gone if the record says so. *)
Definition frozen_replayed (bn : Z) (cleared : bool) (v v' : VmState) : Prop :=
  frozen_cleared bn cleared v v' /\ pinned v' ≡ₚ pinned v.

Lemma redo_clear_frozen_twp flags bn s (Q : unit -> StoreState -> Prop) : vm_ok (st_vm s) -> 0 <= bn < 2 ^ 32 ->
  (forall v, frozen_replayed bn (has flags XLH_LOCK_ALL_FROZEN_CLEARED) (st_vm s) v -> Q tt (with_svm v s)) ->
  T (redo_clear_frozen flags bn) Q s.
Proof.
  intros Hv Hb HQ. unfold redo_clear_frozen. destruct (has flags _).
  - destruct (pin_spec bn None (st_vm s) Hv Hb I) as (v1 & E1 & V1 & S1 & (rest & P1 & P2)).
    cbn [buffer_pins app] in P1, P2.
    apply twp_bind. eapply on_svm_twp; [exact E1|]. apply twp_bind.
    destruct (clear_spec bn VISIBILITYMAP_ALL_FROZEN v1 V1) as (v2 & E2 & V2 & Q2 & _ & _ & M2); [rewrite P2; by left|apply all_frozen_range|].
    eapply on_svm_twp; [exact E2|]. eapply (release_map_twp _ _ _ rest); [exact V2|cbn; by rewrite Q2, P2|].
    intros v3 V3 Q3 (S3 & _). apply (HQ v3). split; [|by rewrite Q3, P1].
    intros y Hy. cbn in S3. rewrite S3, (M2 y Hy), andb_true_r. destruct S1 as (S1 & _). by rewrite !S1.
  - apply twp_ret. replace s with (with_svm (st_vm s) s) at 1 by (by destruct s). apply HQ; split; [|done].
    intros y _. by rewrite andb_false_r.
Qed.

Lemma redo_lock_page_twp lsn tid redo jt b s (Q : unit -> StoreState -> Prop) :
  blocks s !! tid.1 = Some b -> items b !! tid.2 = Some jt ->
  (forall s', blocks s' = <[tid.1 := with_lsn lsn (with_items (<[tid.2 := redo jt]> (items b)) b)]> (blocks s) ->
     st_vm s' = st_vm s -> Q tt s') ->
  T (redo_lock_page lsn tid.1 tid.2 redo) Q s.
Proof.
  intros Hb Hi HQ. unfold redo_lock_page. rewrite <- surjective_pairing. apply twp_bind, twp_get.
  assert (Hit : item tid s = Some jt) by (unfold item; by rewrite Hb). rewrite Hit.
  apply twp_bind. eapply set_item_twp; [exact Hb|]. unfold PageSetLSN_store, block_at, set_block.
  apply twp_bind, twp_bind, twp_bind, twp_get. eapply twp_defined; [apply lookup_insert_eq|]. apply twp_modify, twp_modify.
  apply HQ; [|done]. cbn. by rewrite insert_insert_eq.
Qed.

(** What the replay of a record does to a page and the map. *)
Definition replays (redo : M StoreState unit) (tid ctid : Z * Z) (x m m2 : Z) (cleared : bool) (lsn : Z) (jt : HeapItem)
    (b : HeapBlock) (t : StoreState) : Prop :=
  exists t' jt', redo t = (Ret tt, t') /\ row_replayed tid ctid x m m2 jt jt'
    /\ blocks t' = <[tid.1 := with_lsn lsn (with_items (<[tid.2 := jt']> (items b)) b)]> (blocks t)
    /\ frozen_replayed tid.1 cleared (st_vm t) (st_vm t').
End rules.

Lemma redo_lock_replays lsn tid x m m2 cleared jt b t : has m HEAP_XMAX_INVALID = false -> 0 <= tid.1 < 2 ^ 32 ->
  vm_ok (st_vm t) -> blocks t !! tid.1 = Some b -> items b !! tid.2 = Some jt ->
  replays (pg_tde_xlog_lock lsn true tid.1 (lock_record tid x m m2 cleared)) tid
    (if HEAP_XMAX_IS_LOCKED_ONLY m then tid else t_ctid (it_hdr jt)) x m m2 cleared lsn jt b t
  /\ replays (pg_tde_xlog_lock_updated lsn true tid.1 (lock_record tid x m m2 cleared)) tid (t_ctid (it_hdr jt))
       x m m2 cleared lsn jt b t.
Proof.
  intros Hinv Hbn Hv Hb Hi.
  assert (Hgo : forall redo jt' ctid, redo jt = jt' -> row_replayed tid ctid x m m2 jt jt' ->
    replays (redo_clear_frozen (xlk_flags (lock_record tid x m m2 cleared)) tid.1;;; redo_lock_page lsn tid.1 tid.2 redo)
      tid ctid x m m2 cleared lsn jt b t).
  { intros redo jt' ctid <- Hrow. set (prog := _ ;;; _).
    assert (H : twp (fun _ => False) (fun _ => False) prog (fun _ t' =>
      blocks t' = <[tid.1 := with_lsn lsn (with_items (<[tid.2 := redo jt]> (items b)) b)]> (blocks t)
      /\ frozen_replayed tid.1 cleared (st_vm t) (st_vm t')) t).
    { apply twp_bind. eapply redo_clear_frozen_twp; [done|done|]. rewrite lock_flags. intros v Hfr.
      eapply redo_lock_page_twp; [exact Hb|exact Hi|]. intros s' B V. rewrite V. by split. }
    unfold twp in H. destruct (prog t) as [[[]|[]| |] t'] eqn:E; try done. destruct H as [B F]. exists t', (redo jt). by split_and!. }
  split; (eapply Hgo; [reflexivity|]).
  - rewrite <- surjective_pairing. by apply redo_locked_row.
  - by apply redo_version_row.
Qed.
End replay.

(** ** Claims *)

Section claims.
Context `{HH : HtupFlags} `{HHL : !HtupFlagsLaws} `{HW : World} `{HWL : !WorldLaws}.
Context `{HLF : LockFlags} `{HFB : !FlagBits} `{HMX : MultiXacts} `{HML : !MultiXactsLaws}.
Context `{HP : PgBlockSize} `{HBL : !PgBlockSizeLaws} `{HV : VmEnv} `{HVL : !VmLaws}.
Context `{HIE : InsertEnv} `{HSE : StoreEnv} `{HI : !Interference} `{HSL : !StoreLaws}.

Lemma lock_run fuel cfuel tid cid mode wait_policy follow it s r tm s' : can_lock tid it s ->
  pg_tde_lock_tuple fuel cfuel tid cid mode wait_policy follow s = (Ret (r, tm), s') ->
  exists e vm have s1 it1, lock_verdict fuel cfuel tid cid mode wait_policy follow s = (Ret (e, vm, have), s1)
    /\ judged_row tid it s it1 s1 /\ lock_end tid mode wait_policy e r tm it1 s1 s' /\ given_back tid s s' /\ all_fine s'.
Proof.
  intros Hc E.
  assert (H := pg_tde_lock_tuple_twp True True fuel cfuel tid cid mode wait_policy follow it s
    (fun a s' => exists e vm have s1 it1, lock_verdict fuel cfuel tid cid mode wait_policy follow s = (Ret (e, vm, have), s1)
    /\ judged_row tid it s it1 s1 /\ lock_end tid mode wait_policy e a.1 a.2 it1 s1 s' /\ given_back tid s s' /\ all_fine s')
    Hc (fun _ => I) (or_introl I)).
  unfold twp in H. rewrite E in H. apply H. intros. by do 5 eexists.
Qed.

(** The bit that was looked up is the one that was cleared. *)
Lemma frozen_was_cleared bn was v v' : frozen_cleared bn was v v' -> frozen_cleared bn (frozen_was_set bn was v) v v'.
Proof.
  intros H y Hy. rewrite (H y Hy). unfold frozen_was_set. destruct (Z.eqb_spec y bn) as [->|]; [|done]. destruct was; [|done]. cbn [andb].
  destruct (Z.eqb_spec (Z.land (vm_status v bn) VISIBILITYMAP_ALL_FROZEN) 0) as [E|]; [|done]. cbn [negb].
  apply Z.bits_inj'. intros i Hi. apply (f_equal (fun z => Z.testbit z i)) in E. rewrite Z.land_spec, Z.bits_0 in E.
  rewrite Z.ldiff_spec. destruct (Z.testbit (vm_status v bn) i); [|done]. cbn in *. by rewrite E.
Qed.

(** C11: a row lock is granted only to those who may have it.  When
    pg_tde_lock_tuple says TM_Ok then, whatever other backends did while it
    waited or followed later versions: in the state in which the verdict was
    reached the row was there with the inserter and the data it had, and
    either our transaction held it as strongly already, and nothing more was
    done; or it was inserted for us and no transaction that counts held it
    in a mode that conflicts with ours (but for key-share locks, which can
    also be had beside those who lock the row exclusively, as long as
    nobody deletes it).  In that case our transaction holds the row from then on in the
    mode it wanted; who held it and still counts still does, nobody else
    has joined, and so still nobody conflicts; the row points to itself if
    it is only locked; of the page nothing but the row's header and the LSN
    has changed, of the map only the all-frozen bit of the block.  All locks
    and pins are given back but the pin on the page. *)
Theorem lock_granted_is_compatible fuel cfuel tid cid mode wait_policy follow it s tm s' (Hc : can_lock tid it s)
    (Hrun : pg_tde_lock_tuple fuel cfuel tid cid mode wait_policy follow s = (Ret (TM_Ok, tm), s')) :
  exists e vm have s1 it1,
    lock_verdict fuel cfuel tid cid mode wait_policy follow s = (Ret (e, vm, have), s1)
    /\ item tid s1 = Some it1 /\ same_row it it1 /\ given_back tid s s' /\ tm = None
    /\ (e = EnoughAlready /\ we_hold mode (item_holders s1 it1) /\ blocks s' = blocks s1 /\ st_wal s' = st_wal s1
        \/ e = CanLock /\ inserter_in (it_hdr it1) (moment s1) /\ grantable mode it1 s1
           /\ exists it' b, item tid s' = Some it' /\ row_taken tid mode it1 it' b s1 s').
Proof.
  destruct (lock_run _ _ _ _ _ _ _ _ _ _ _ _ Hc Hrun) as (e & vm & have & s1 & it1 & E & (Hi & R & _) & He & G & _).
  exists e, vm, have, s1, it1. split_and!; try done.
  - destruct e; cbn [lock_end] in He; [apply He| |by destruct He|apply He].
    destruct He as (<- & Hr & _). by destruct Hr.
  - destruct e; cbn [lock_end] in He.
    + right. destruct He as (_ & _ & (Hin & Hg & _) & H). by split_and!.
    + destruct He as (<- & Hr & _). by destruct Hr.
    + by destruct He.
    + left. destruct He as (_ & _ & H1 & H2 & H3). by split_and!.
Qed.

(** C33: a lock that is refused changes nothing.  For every other result the
    pages and the log are as when the verdict was reached, and all that was
    taken is given back but the pin on the page.  The row is reported with
    its successor, its updater and, only when our own transaction deleted
    it, its command; nothing is reported about an invisible row.
    TM_SelfModified is about a row our transaction has deleted,
    TM_WouldBlock only for callers who want to skip rows that are locked,
    and TM_BeingModified is never returned. *)
Theorem lock_failure_reports fuel cfuel tid cid mode wait_policy follow it s r tm s' (Hc : can_lock tid it s)
    (Hrun : pg_tde_lock_tuple fuel cfuel tid cid mode wait_policy follow s = (Ret (r, tm), s')) (Hfail : r <> TM_Ok) :
  exists e vm have s1 it1,
    lock_verdict fuel cfuel tid cid mode wait_policy follow s = (Ret (e, vm, have), s1)
    /\ item tid s1 = Some it1 /\ same_row it it1 /\ blocks s' = blocks s1 /\ st_wal s' = st_wal s1 /\ given_back tid s s'
    /\ (if bool_decide (r = TM_Invisible) then tm = None
        else tm = Some {| tmfd_ctid := t_ctid (it_hdr it1); tmfd_xmax := HeapTupleHeaderGetUpdateXid (it_hdr it1);
                          tmfd_cmax := if bool_decide (r = TM_SelfModified) then HeapTupleHeaderGetCmax (it_hdr it1)
                                       else InvalidCommandId |})
    /\ r <> TM_BeingModified
    /\ (r = TM_WouldBlock -> wait_policy = LockWaitSkip)
    /\ (r = TM_SelfModified -> TransactionIdIsCurrentTransactionId (deleter (it_hdr it1)) = true).
Proof.
  destruct (lock_run _ _ _ _ _ _ _ _ _ _ _ _ Hc Hrun) as (e & vm & have & s1 & it1 & E & (Hi & R & _) & He & G & _).
  exists e, vm, have, s1, it1. split; [done|]. split; [done|]. split; [done|]. destruct e; cbn [lock_end] in He.
  - by destruct He.
  - destruct He as (-> & Hr & -> & B & W). split_and!; try done.
    + by destruct r0.
    + by intros ->.
    + by intros ->.
    + by intros ->.
  - destruct He as (-> & -> & B & W). by split_and!.
  - by destruct He.
Qed.

(** What locking logs. *)
Definition lock_log (tid : Z * Z) (r : StoreRecord) : Prop := version_record r \/ exists r', r = XlLock tid.1 r'.

(** C34: locking leaves every row as rows are, and nothing behind.  Whatever
    pg_tde_lock_tuple returns, every row of every page satisfies what all
    routines rely on afterwards (its hints are true, its masks agree with
    the members of its multixact, which has been issued, and tell no less
    than what its holders may do), the row itself has the inserter and the data it
    had, only locks have been logged, and no page is locked any more, and
    only the row's page is pinned that was not before. *)
Theorem locking_keeps_rows fuel cfuel tid cid mode wait_policy follow it s r tm s' (Hc : can_lock tid it s)
    (Hrun : pg_tde_lock_tuple fuel cfuel tid cid mode wait_policy follow s = (Ret (r, tm), s')) :
  all_fine s' /\ given_back tid s s'
  /\ (exists l, st_wal s' = st_wal s ++ l /\ Forall (lock_log tid) l)
  /\ (exists it', item tid s' = Some it' /\ t_xmin (it_hdr it') = t_xmin (it_hdr it) /\ it_data it' = it_data it).
Proof.
  destruct (lock_run _ _ _ _ _ _ _ _ _ _ _ _ Hc Hrun) as (e & vm & have & s1 & it1 & E & (Hi & R & l & Hl & W) & He & G & F).
  split; [done|]. split; [done|].
  assert (Hl' : Forall (lock_log tid) l) by (eapply Forall_impl; [exact Hl|by left]).
  assert (Hsame : blocks s' = blocks s1 -> st_wal s' = st_wal s1 -> (exists l, st_wal s' = st_wal s ++ l /\ Forall (lock_log tid) l)
    /\ (exists it', item tid s' = Some it' /\ t_xmin (it_hdr it') = t_xmin (it_hdr it) /\ it_data it' = it_data it)).
  { intros B W'. split; [exists l; by rewrite W'|]. exists it1. unfold item in *. rewrite B. by split_and!; [|apply R..]. }
  destruct e; cbn [lock_end] in He; [|by apply Hsame; apply He..]. destruct He as (_ & _ & _ & it' & b & Hi' & Rt). split.
  - rewrite (rt_wal _ _ _ _ _ _ _ Rt), W, <- app_assoc. eexists. split; [done|]. apply Forall_app. split; [done|].
    destruct RelationNeedsWAL; [|done]. apply Forall_singleton. right. by eexists.
  - exists it'. destruct (rt_row _ _ _ _ _ _ _ Rt) as (-> & _ & ->). by split_and!; [|apply R..].
Qed.

(** C20: the standby locks the same row.  When a row has been locked, the
    last record of the log, replayed on a page that has the row, gives it
    the xmax and, for every multixact store, the holders that it has on the
    primary, whatever its masks were; it points to itself if the row is only
    locked and is a successor's predecessor as before otherwise; its
    inserter and data stay; nothing else on the page changes but the LSN;
    and of the map only the all-frozen bit of the block is cleared, when it
    was on the primary. *)
Theorem lock_replays_alike fuel cfuel tid cid mode wait_policy follow it s tm s' vm have s1 (Hc : can_lock tid it s)
    (Hrun : pg_tde_lock_tuple fuel cfuel tid cid mode wait_policy follow s = (Ret (TM_Ok, tm), s'))
    (Hv : lock_verdict fuel cfuel tid cid mode wait_policy follow s = (Ret (CanLock, vm, have), s1))
    (Hwal : RelationNeedsWAL = true) :
  exists r it' cleared, st_wal s' = st_wal s1 ++ [XlLock tid.1 r] /\ item tid s' = Some it'
    /\ frozen_cleared tid.1 cleared (st_vm s1) (st_vm s')
    /\ forall lsn t b jt, vm_ok (st_vm t) -> blocks t !! tid.1 = Some b -> items b !! tid.2 = Some jt ->
       exists t' jt', pg_tde_xlog_lock lsn true tid.1 r t = (Ret tt, t')
         /\ blocks t' = <[tid.1 := with_lsn lsn (with_items (<[tid.2 := jt']> (items b)) b)]> (blocks t)
         /\ frozen_cleared tid.1 cleared (st_vm t) (st_vm t') /\ pinned (st_vm t') ≡ₚ pinned (st_vm t)
         /\ t_xmin (it_hdr jt') = t_xmin (it_hdr jt) /\ it_hoff jt' = it_hoff jt /\ it_data jt' = it_data jt
         /\ t_xmax (it_hdr jt') = t_xmax (it_hdr it')
         /\ t_ctid (it_hdr jt') = (if HEAP_XMAX_IS_LOCKED_ONLY (t_infomask (it_hdr it')) then t_ctid (it_hdr it') else t_ctid (it_hdr jt))
         /\ forall st, holders st (t_xmax (it_hdr jt')) (t_infomask (it_hdr jt')) (it_infomask2 jt')
                       = holders st (t_xmax (it_hdr it')) (t_infomask (it_hdr it')) (it_infomask2 it').
Proof.
  destruct (lock_run _ _ _ _ _ _ _ _ _ _ _ _ Hc Hrun) as (e & vm' & have' & s2 & it1 & E & _ & He & _).
  rewrite Hv in E. injection E as <- <- <- <-. destruct He as (_ & _ & _ & it' & b1 & Hi' & Rt).
  pose proof (rt_wal _ _ _ _ _ _ _ Rt) as W. rewrite Hwal in W.
  set (c := frozen_was_set tid.1 (all_visible_flag b1) (st_vm s1)) in *.
  exists (lock_record tid (t_xmax (it_hdr it')) (t_infomask (it_hdr it')) (it_infomask2 it') c), it', c. split_and!; [exact W|exact Hi'| |].
  - apply frozen_was_cleared, Rt.
  - intros lsn t b jt V B I.
    assert (Hinv : has (t_infomask (it_hdr it')) HEAP_XMAX_INVALID = false) by (eapply granted_valid, Rt).
    destruct (redo_lock_replays lsn tid (t_xmax (it_hdr it')) (t_infomask (it_hdr it')) (it_infomask2 it') c jt b t Hinv)
      as [(t' & jt' & E & [(R1 & R2 & R3) R4 R5 R6] & B' & [F P]) _]; [apply Hc|done..|].
    exists t', jt'. split_and!; try done. rewrite R5, (rt_ctid _ _ _ _ _ _ _ Rt). by destruct (HEAP_XMAX_IS_LOCKED_ONLY _).
Qed.



(** C36: locking ends.  When no other backend does anything, one round of the
    loop is enough: pg_tde_lock_tuple ends, however often its caller's page
    was looked at, for every mode, with a result; and with an error only for
    callers who asked for one instead of waiting.  (For callers who do not
    follow later versions, and rows that have been locked since 9.3.) *)
Theorem lock_ends_alone fuel cfuel tid cid mode wait_policy it s (Hc : can_lock tid it s) (Hquiet : quiet_store)
    (Hbit : lock_bit (it_hdr it)) (Hfuel : (1 <= fuel)%nat) :
  exists s', (wait_policy = LockWaitError /\ pg_tde_lock_tuple fuel cfuel tid cid mode wait_policy false s = (Raise ERROR, s'))
    \/ exists r tm, pg_tde_lock_tuple fuel cfuel tid cid mode wait_policy false s = (Ret (r, tm), s') /\ given_back tid s s'.
Proof.
  assert (H := pg_tde_lock_tuple_twp False (wait_policy = LockWaitError) fuel cfuel tid cid mode wait_policy false it s
    (fun a s' => given_back tid s s') Hc). unfold twp in H.
  destruct (pg_tde_lock_tuple _ _ _ _ _ _ _ s) as [[[r tm]|l| |] s'].
  - exists s'. right. exists r, tm. split; [done|]. apply H; [by intros [?|?]|right; by repeat split|by intros].
  - exists s'. left. destruct l; try (exfalso; apply H; [by intros [?|?]|right; by repeat split|by intros]).
    split; [|done]. apply H; [by intros [?|?]|right; by repeat split|by intros].
  - exfalso. apply H; [by intros [?|?]|right; by repeat split|by intros].
  - exfalso. apply H; [by intros [?|?]|right; by repeat split|by intros].
Qed.
End claims.

(** ** A table *)

Module ToyLock.
Import ToyWorld ToyLocks ToyMap ToyDelete.

Lemma all_fine_toy : all_fine toy_store.
Proof.
  intros [bn o] it. unfold item. cbn. destruct (decide (bn = 6)) as [->|Hne]; [|by rewrite lookup_singleton_ne].
  rewrite lookup_singleton_eq. cbn. rewrite lookup_insert_Some, lookup_singleton_Some.
  intros [[<- <-]|[_ [<- <-]]]; [apply locked_fine|apply new_fine].
Qed.

Lemma can_lock_toy : can_lock (6, 1) locked_item toy_store.
Proof. split; [split; done|done|apply marked_ok|done|apply all_fine_toy|done]. Qed.

(** Transaction 9 has made its share lock one for an update. *)
Definition upgraded_item : HeapItem :=
  {| it_hdr := {| t_xmin := 5; t_xmax := 9; t_field3 := 0; t_ctid := (6, 1); t_infomask := 0x1c0 |};
     it_infomask2 := 0x2002; it_hoff := 24; it_data := [7; 7; 7] |}.

Lemma upgraded_fine : fine_in toy_store upgraded_item.
Proof.
  split; split; try done; unfold hints_ok, tuple_ok, committed_fine; cbn; split_and!; naive_solver.
Qed.

(** It does so when it gets to the page, but not in the beginning. *)
Definition is_locked (it : HeapItem) : bool :=
  bool_decide (t_xmin (it_hdr it) = 5) && (t_infomask (it_hdr it) =? 0x1d0) && bool_decide (it_hoff it = 24)
  && bool_decide (it_data it = [7; 7; 7]).

Definition upgrades (n : nat) (s : StoreState) : StoreState :=
  if bool_decide (6 ∈ sheld s) then s else
  match n, blocks s !! 6 with
  | S _, Some b =>
      match items b !! 1 with
      | Some it => if is_locked it then put_item (6, 1) upgraded_item b s else s
      | None => s
      end
  | _, _ => s
  end.

Definition racing : Interference := {| interfere := upgrades |}.

Lemma upgraded_fine_in s : fine_in s upgraded_item.
Proof.
  destruct upgraded_fine as [H1 H2]. unfold fine_in. destruct (multis (st_locks s)). split; [|exact H2].
  eapply fine_later; [|exact H1]. cbn. lia.
Qed.

Lemma upgrades_undisturbed n s : undisturbed s (upgrades n s).
Proof.
  assert (Hsame : undisturbed s s) by (split; try done; intros tid it _ Hi Hf; by exists it).
  unfold upgrades. case_bool_decide as E; [done|]. destruct n; [done|]. destruct (blocks s !! 6) as [b|] eqn:Hb; [|done].
  destruct (items b !! 1) as [it|] eqn:Hi; [|done]. destruct (is_locked it) eqn:Hl; [|done].
  apply andb_true_iff in Hl as [[[Hx%bool_decide_eq_true Hm%Z.eqb_eq]%andb_true_iff Ho%bool_decide_eq_true]%andb_true_iff Hd%bool_decide_eq_true].
  split; try done.
  - intros bn Hbn. cbn. apply lookup_insert_ne. by intros <-.
  - intros tid it0 _ Hi0 Hf0. rewrite (item_put (6, 1)) by done. case_decide as Et; [|by exists it0]. subst tid.
    exists upgraded_item. split; [done|]. split; [|apply upgraded_fine_in].
    unfold item in Hi0. cbn in Hi0. rewrite Hb in Hi0. cbn in Hi0. rewrite Hi in Hi0. injection Hi0 as <-.
    split_and!; try done. rewrite Hm. done.
  - intros Hall tid it0. rewrite (item_put (6, 1)) by done. case_decide; [intros [= <-]; apply upgraded_fine_in|apply Hall].
Qed.

Lemma racing_laws : StoreLaws (HI := racing).
Proof. split; [|exact conflict_law|exact combo_law]. intros s. apply upgrades_undisturbed. Qed.
End ToyLock.

Section witnesses.
Import ToyWorld ToyLocks ToyMap ToyDelete ToyLock.
#[local] Existing Instance neighbour.
#[local] Existing Instance neighbour_laws.

(** Transaction 9 is waited for, or not. *)
Definition toy_lock (wait_policy : LockWaitPolicy) : outcome (TM_Result * option TM_FailureData) * StoreState :=
  pg_tde_lock_tuple 1 1 (6, 1) 2 LockTupleExclusive wait_policy false toy_store.

Lemma toy_locked : toy_lock LockWaitBlock = (Ret (TM_Ok, None), snd (toy_lock LockWaitBlock)).
Proof. vm_compute. reflexivity. Qed.

Lemma lock_granted_is_compatible_witness :
  exists it', item (6, 1) (snd (toy_lock LockWaitBlock)) = Some it' /\ it_data it' = [7; 7; 7]
    /\ granted 100 LockTupleExclusive false (item_holders (snd (toy_lock LockWaitBlock)) it').
Proof.
  destruct (lock_granted_is_compatible 1 1 (6, 1) 2 LockTupleExclusive LockWaitBlock false locked_item toy_store None
    (snd (toy_lock LockWaitBlock)) can_lock_toy toy_locked)
    as (e & vm & have & s1 & it1 & E & Hi & R & _ & _ & [(-> & _)|(_ & _ & _ & it' & b & Hi' & Rt)]).
  - exfalso. assert (H : fst (lock_verdict 1 1 (6, 1) 2 LockTupleExclusive LockWaitBlock false toy_store)
      <> Ret (EnoughAlready, vm, have)) by (vm_compute; discriminate). by rewrite E in H.
  - exists it'. split; [exact Hi'|]. split; [|exact (rt_mine _ _ _ _ _ _ _ Rt)].
    destruct (rt_row _ _ _ _ _ _ _ Rt) as (_ & _ & ->). destruct R as (_ & _ & -> & _). reflexivity.
Defined.

Lemma lock_failure_reports_witness :
  exists e vm have s1, lock_verdict 1 1 (6, 1) 2 LockTupleExclusive LockWaitSkip false toy_store = (Ret (e, vm, have), s1)
    /\ blocks (snd (toy_lock LockWaitSkip)) = blocks s1 /\ given_back (6, 1) toy_store (snd (toy_lock LockWaitSkip)).
Proof.
  destruct (lock_failure_reports 1 1 (6, 1) 2 LockTupleExclusive LockWaitSkip false locked_item toy_store TM_WouldBlock
    (snd (match toy_lock LockWaitSkip with (Ret r, _) => r | _ => (TM_Ok, None) end)) (snd (toy_lock LockWaitSkip)) can_lock_toy)
    as (e & vm & have & s1 & it1 & E & _ & _ & B & _ & G & _).
  - vm_compute. reflexivity.
  - discriminate.
  - exists e, vm, have, s1. split; [exact E|]. split; [exact B|exact G].
Defined.

Lemma locking_keeps_rows_witness :
  all_fine (snd (toy_lock LockWaitBlock)) /\ given_back (6, 1) toy_store (snd (toy_lock LockWaitBlock)).
Proof.
  destruct (locking_keeps_rows 1 1 (6, 1) 2 LockTupleExclusive LockWaitBlock false locked_item toy_store TM_Ok None
    (snd (toy_lock LockWaitBlock)) can_lock_toy toy_locked) as (H1 & H2 & _).
  split; [exact H1|exact H2].
Defined.

Definition toy_judged : outcome (LockEnd * Buffer * bool) * StoreState :=
  lock_verdict 1 1 (6, 1) 2 LockTupleExclusive LockWaitBlock false toy_store.

Lemma lock_replays_alike_witness :
  exists r it' t' jt', item (6, 1) (snd (toy_lock LockWaitBlock)) = Some it'
    /\ pg_tde_xlog_lock 50 true 6 r toy_store = (Ret tt, t') /\ t_xmax (it_hdr jt') = t_xmax (it_hdr it').
Proof.
  destruct (lock_replays_alike 1 1 (6, 1) 2 LockTupleExclusive LockWaitBlock false locked_item toy_store None
    (snd (toy_lock LockWaitBlock)) (Some 0) true (snd toy_judged) can_lock_toy toy_locked)
    as (r & it' & c & _ & Hi & _ & H).
  - vm_compute. reflexivity.
  - reflexivity.
  - destruct (H 50 toy_store {| items := {[ 1 := locked_item; 2 := new_item ]}; all_visible_flag := true;
                              prune_xid := 0; block_lsn := 0 |} locked_item) as (t' & jt' & E & _ & _ & _ & _ & _ & _ & X & _).
    + apply marked_ok.
    + reflexivity.
    + reflexivity.
    + exists r, it', t', jt'. split; [exact Hi|]. split; [exact E|exact X].
Defined.





End witnesses.

Section quiet_witness.
Import ToyWorld ToyLocks ToyMap ToyDelete ToyLock.
#[local] Existing Instance alone.
#[local] Existing Instance alone_laws.

Lemma lock_ends_alone_witness :
  exists s' r tm, pg_tde_lock_tuple 1 1 (6, 1) 2 LockTupleKeyShare LockWaitBlock false toy_store = (Ret (r, tm), s')
    /\ given_back (6, 1) toy_store s'.
Proof.
  destruct (lock_ends_alone 1 1 (6, 1) 2 LockTupleKeyShare LockWaitBlock locked_item toy_store can_lock_toy) as (s' & [[? _]|(r & tm & H)]).
  - intros n s. reflexivity.
  - intros _. reflexivity.
  - lia.
  - discriminate.
  - exists s', r, tm. exact H.
Defined.
End quiet_witness.

(** ** Beside an update *)

Section race.
Import ToyWorld ToyLocks ToyMap ToyDelete ToyLock.
#[local] Existing Instance racing.

(** A key-share lock can be had beside the lock of a transaction that is
    about to delete the row: it was taken while the row was not locked, and
    what is looked at again does not tell. *)
Theorem keyshare_beside_update : StoreLaws (HI := racing) /\
  let run := pg_tde_lock_tuple 1 1 (6, 1) 2 LockTupleKeyShare LockWaitBlock false toy_store in
  fst run = Ret (TM_Ok, None)
  /\ exists it', item (6, 1) (snd run) = Some it'
       /\ ~ compatible LockTupleKeyShare (moment (snd run)) (item_holders (snd run) it').
Proof.
  split; [apply racing_laws|]. intros run. split; [vm_compute; reflexivity|].
  destruct (item (6, 1) (snd run)) as [it'|] eqn:E; [|by vm_compute in E]. exists it'. split; [done|]. intros Hc.
  assert (Hin : {| xid := 9; status := MultiXactStatusForUpdate |} ∈ item_holders (snd run) it').
  { vm_compute in E. injection E as <-. vm_compute. by left. }
  destruct (Hc _ Hin) as [H|[H|[H|H]]]; [by vm_compute in H..| |by vm_compute in H].
  apply H. left. vm_compute. reflexivity.
Qed.
End race.
